(* ===== verification/_CoqProject ===== *)
-Q . S2P
Prelude.v
Vocabulary.v
Effects.v
Contracts.v
IPv4.v
ResultStates.v
Json.v
Dicts.v
Probing.v
Records.v
TransportPolicy.v
Session.v
JobRepository.v
Fanout.v
Cancellation.v
Durability.v
Demo.v
JobBehaviour.v
FanoutTheorems.v
Redaction.v
MultiTransport.v
FallbackTheorems.v
EvidenceStore.v
Execution.v
Worker.v
ExecutionTheorems.v
WorkerTheorems.v
Resilience.v
Texts.v
JsonText.v
Credentials.v
TransportManager.v
Adapters.v
Inventories.v
SnapshotModels.v
Comparison.v
ComparisonTheorems.v
Policies.v
PolicyTheorems.v
Evaluation.v
EvaluationTheorems.v
Normalization.v
NormalizationTheorems.v
PriorityQueue.v
CollectorRuntime.v
CollectorRuntimeTheorems.v
AuditTrail.v
DiscoveryEngine.v
History.v
HistoryApi.v
Analytics.v
Dashboard.v
Reporting.v
HistoryTheorems.v
NetBoxSync.v
Application.v
Auth.v
AuthTheorems.v
Orchestration.v
OrchestrationTheorems.v
Jobs.v
JobsTheorems.v
Scheduler.v
SchedulerTheorems.v
Cache.v
NetBoxClient.v
NetBoxTheorems.v
TargetRepository.v
JobQueries.v
RegularExpressions.v
CiscoParser.v
CiscoParserTheorems.v
CiscoPlatforms.v
CiscoCollector.v
CiscoCollectorTheorems.v
Schemas.v
DiscoveryApi.v
CidrVariance.v
DiscoveryApiTheorems.v
CredentialsApi.v
