(* ===== verification/Prelude.v ===== *)
(** * Network Operations Platform: a verification library

    The platform discovers network devices, keeps what it learned as durable jobs,
    evidence and snapshots, compares it with the source of truth in NetBox and
    evaluates compliance policies on the differences.  This library translates its
    backend ([src/backend/app]) into shallow definitions and proves what makes each
    part correct.

    ** Parts and how they interact

    An operator submits a discovery job for a target.  The worker ([discovery/worker.py])
    claims queued jobs under a lease, keeps the lease alive and executes them through
    the execution service ([discovery/execution.py]); a job whose scope is a range fans
    out over child jobs ([discovery/fanout.py]).  One execution tries the transports its
    credential profile allows, in order ([discovery/multi_transport.py]), and stores
    evidence, a snapshot and a result.  All of them talk to the job table through the
    repositories of [persistence/discovery_repositories.py].

    Independently, an orchestration run ([orchestration/]) synchronizes the inventory
    from NetBox ([services/inventory.py], [integrations/netbox/]), collects a live one
    through the collector runtime ([collectors/runtime/]), which parses and normalizes
    what devices answer ([parsers/], [normalization/]), compares the two ([comparison/]),
    evaluates policies ([policies/], [evaluation/], [decision/]) and persists the outcome.
    Runs are queued as background jobs ([jobs/]), which schedules submit
    ([scheduler/]); every stage publishes events ([events/]).  Sessions to devices pass
    a circuit breaker, a rate limiter and a pool ([transports/]).

    ** Files

    Foundations.
    - Prelude.v: identifiers, instants, Python truth and strings, [StrEnum] as a class
      with its round trip, list and option lemmas, tactics and hint databases.
    - Effects.v: exception classes with their subclass relation, the state-and-exception
      monad [M], [try_except], [try_finally], and the lemmas that run it.
    - Vocabulary.v: every [StrEnum].  Json.v: values of JSON columns.  Dicts.v: Python
      dictionaries by insertion order.

    Discovery.
    - Contracts.v: [discovery/contracts.py], [scopes.py], [leases.py]; IPv4.v: the part of
      [ipaddress] the scopes need, for IPv4.
    - ResultStates.v: [result_states.py].  Probing.v: [probing.py].
    - Records.v, Session.v: the tables of [persistence/models.py] and the statements a
      repository runs on them.
    - JobRepository.v, Cancellation.v, EvidenceStore.v: the
      repositories.  Fanout.v: children and reconciliation.
    - TransportPolicy.v, MultiTransport.v, Redaction.v: the transport chain, its
      execution, and what is removed from messages before they are stored.
    - Execution.v, Worker.v: the execution service and the worker.

    Transports: Resilience.v (the breaker, the limiter, the retries and the
    pool), TransportManager.v.

    Inventories and compliance: Inventories.v ([inventory/], [snapshot/]), Comparison.v,
    Policies.v, Evaluation.v (with [decision/]).

    Collection and orchestration: Normalization.v ([parsers/], [normalization/]),
    PriorityQueue.v (the queues of both runtimes), CollectorRuntime.v, AuditTrail.v (with [events/]),
    Orchestration.v, Jobs.v and Scheduler.v (with their routes), Cache.v ([cache/redis.py]),
    NetBoxClient.v, DiscoveryEngine.v (the older discovery path: [discovery/engine.py],
    [pipeline.py], [registry.py], [filters.py], [statistics.py], [scheduler.py]).

    Data access and API: TargetRepository.v (targets and profiles), JobQueries.v (listings
    of jobs), Schemas.v, DiscoveryApi.v and CidrVariance.v ([schemas/discovery.py],
    [api/v1/discovery.py]), CredentialsApi.v ([api/v1/credentials.py]), Auth.v ([auth/],
    [cli.py]), AuditTrail.v ([audit/]), Application.v ([core/application.py],
    [core/lifecycle.py], the environment file, [notifications/]).

    Devices: Credentials.v ([transports/credentials.py], [secret_provider.py]), Adapters.v
    (the five transports, the Telnet login), CiscoPlatforms.v ([vendors/cisco/]),
    CiscoParser.v and CiscoCollector.v ([collectors/cisco/]).

    History: SnapshotModels.v ([snapshot/models.py], [mapper.py]), History.v
    ([persistence/repositories.py], [comparison/snapshot_service.py]), HistoryApi.v (the
    routes over devices, snapshots, inventories, findings and runs), Analytics.v
    ([analytics/], with the calendar it needs), Dashboard.v ([dashboard/] and its routes), Reporting.v
    ([reporting/]), NetBoxSync.v ([api/v1/integrations.py]).

    Texts of the standard library: Texts.v (integers and pieces of text), RegularExpressions.v (a matcher for [re]),
    JsonText.v ([json.loads], [json.dumps]).

    Operations keep the names of the functions they translate (a suffix tells apart
    methods of one name), classes are records, enumerations inductive types; [x.py] and
    the lines are given by the comments of each file.

    ** What is proved

    - The job table.  Durability.v proves the invariant of a row and
      that every statement keeps it next to other transactions; JobBehaviour.v lifts it to
      any sequence of calls ([job_table_invariant], [claimed_at_most_once],
      [finished_jobs_are_final]) and says what each operation does
      ([transition_fenced], [resolve_stale_respects_lease]).
    - Execution.  FallbackTheorems.v: the attempts of a chain and what each
      failure makes of them; ExecutionTheorems.v: an execution settles its job;
      FanoutTheorems.v: reconciliation accounts for every address; WorkerTheorems.v and
      Durability.v: what the worker keeps and what it claims.
    - Secrets.  Redaction.v: the stored text and evidence do not depend on the secret.
    - Transports.  Bounds of the limiter, the retries and the pool; the breaker.
    - Compliance.  ComparisonTheorems.v: the engine refines [in_sync], a relation without
      loops; PolicyTheorems.v: versions, inheritance and selection; EvaluationTheorems.v:
      results, scores and decisions account for every rule and difference.
    - Collection.  NormalizationTheorems.v, PriorityQueue.v, CollectorRuntimeTheorems.v,
      OrchestrationTheorems.v, JobsTheorems.v, AuditTrail.v: what is normalized is valid and
      complete, queues are stable sorts, every run and job comes to one counted end.
    - Scheduling.  SchedulerTheorems.v: the contract [RepositorySpec] of a schedule
      repository, both implementations, and a pass over the due schedules for any of them.
    - NetBox.  NetBoxTheorems.v, Cache.v: retries, pagination, the cached inventory.
    - API and data access.  DiscoveryApiTheorems.v: no request of a tenant touches the
      targets or jobs of another, submissions are atomic and listings end; CidrVariance.v: a variance accounts for every address; TargetRepository.v,
      JobQueries.v: what a deletion removes, what pages hold; CredentialsApi.v: what the
      deletion of a profile leaves, and that a profile whose test succeeds resolves;
      Schemas.v: what a target request that passes satisfies.
    - Application.  Application.v: what every request is answered and what a start recovers.
    - Authentication.  AuthTheorems.v: what a token is worth and for how long, what passes
      the guard, that who registers can log in, what an administrator holds; AuditTrail.v:
      what a record may hold, and that it reads back from its table.
    - Devices.  CiscoParserTheorems.v: printed tables and listings are read back;
      CiscoPlatforms.v: detection; CiscoCollectorTheorems.v: selection, reading
      that only reads, and one valid device from what was read; Credentials.v,
      Adapters.v: who gets which secret, and when it is sent.
    - History.  HistoryTheorems.v: a stored snapshot reads back, a comparison of stored
      snapshots is recorded as it was found, and what the comparison of a device tells;
      Dashboard.v: aggregates account for every comparison; Analytics.v: aggregation ends,
      regression fits lines, trends mean what they say.  Reporting.v: every report is
      generated, its statistics account for what they count, and its HTML and CSV read back.
      NetBoxSync.v: a request submits a job exactly when none is active, and a run settles it.
    - Texts.  JsonText.v: what [dumps] prints [loads] reads back.
    - Demo.v holds the sessions the witnesses evaluate.  Examples named in the theorem
      files evaluate behaviours that differ from what the code means to do.

    ** Effects, concurrency, time

    Code that changes state or raises is a computation [M S A := S -> outcome A * S]; an
    exception keeps the changes made before it.  The database is a [Session]: the view
    of the transaction, the committed tables, a clock and a source of identifiers.
    Other transactions act in the windows between a read and the guarded write that
    follows it ([concurrent_commit]); what they do is a list of functions in the
    initial state that respects the locks the transaction holds, so that every theorem
    quantifies over them.  They act on the jobs.  The writes that stop a child job have no guard but
    have a window, because their race is a finding: those of [reconcile_parent_job] and of
    [_reconcile_owned_tree].  Other writes without a guard have none.  Otherwise the
    identity map of the ORM is not stale; assignments to ORM objects are writes to the
    view at once; [onupdate] columns read the clock once more; advisory locks and the
    race of two inserts of one target are not represented.
    Tasks that an event loop interleaves are given as atomic parts where an interleaving
    matters (the pool of Resilience.v) and otherwise run one after the other: the children of
    a parent, the jobs claimed in a poll, one heartbeat as one beat; one background
    worker.  The clock is a list of instants or a state component, read where the code
    reads it, once per validation, evaluation and breaker check.

    ** Fuel and bounds

    Loops without a structural measure take a number of turns, and a theorem says how
    many are enough: the substitutions of Redaction.v as many as characters; acquiring a
    token two, for a sleep that lasts as asked ([acquire_terminates_iff] says when there
    is an end at all); retries of all kinds the attempts allowed, which is the loop's own
    bound; the inheritance walk the number of packages plus one ([inheritance_complete]);
    draining a queue its length; a background worker's run the length of its queue;
    pagination a number of pages, with an equivalence telling when the reading ends;
    the durable worker's loop any number of turns, which the service only ends by request.

    ** Interfaces

    Arguments, classes or records with laws stand for what is not in the repository or
    is a plug-in of the program: [IpLibrary] (ipaddress, with an IPv4 instance), [Digest]
    (sha256), [FloatRepr], [Regex] (re.search), name-based identifiers, clocks, timers;
    collectors, parsers, normalization rules, probes of a port, event handlers,
    credential providers and device transports as computations; the HTTP client and
    Pydantic's validation of payloads; the storage of snapshots and the other steps of
    the execution service's pipeline.  Inside the program, [RepositorySpec] is what a
    schedule repository promises the scheduler for calls that keep to it, [JobContext] and [HasJobs] what a
    background job uses of a context, [HasCache] what the inventory service uses of a
    cache, [UnitOfWork] and the runtime protocol what an orchestration run uses.

    ** Modelling decisions

    Integers of Python are [Z]; a [float] is an exact rational, without rounding, NaN or
    infinity; a [datetime] is a count of microseconds and always aware; strings are
    ASCII.  [UUID] texts are read in the hyphenated and the plain form.  Requested
    capabilities that are not a list count as none.  Identifiers and times that
    differences, findings and evidence items draw when they are created are left out
    where nothing reads them.  Normalization rules return the result as they leave it
    instead of changing it in place.  The scheduler's tables enforce primary and
    foreign keys, stamp [updated_at] at a flush and list in any order.  The limit of [int] to
    4300 digits is kept in the Cisco parser, whose texts come from devices.  The unused [cache_key] of the NetBox client is left out.

    LIKE patterns are PostgreSQL's, with a backslash as escape; the collation of the
    database and its clock are parameters, and rows that tie stay in any order.  JSON texts
    hold characters below 256 and finite numbers; regular expressions repeat classes of
    characters only, and blanks, words and cases are ASCII's.  [urlparse] is asked for the
    scheme only.  Pydantic reports the first rule a request breaks.  SHA-256 and PBKDF2
    are parameters, with the form of a digest as the one law; lengths of columns (those of
    the audit table apart) and timestamps nothing reads are left out of the tables of
    authentication, and every call of their repositories commits.  Audit metadata that is
    stored is an object.  Snapshots are
    arguments of the two discovery routes that read them, and so is the order of a set.

    The tables of the history list their rows as they were inserted; identities and times
    are drawn when a row is built and keys are checked by the commit.  JSON columns hold
    plain values: an infinite number or an object [json] does not know is not represented.
    The identities a comparison result draws enter as one argument, [ResultIdentity].  openpyxl
    and weasyprint are arguments of the exporters; [csv.writer] and [html.escape] are
    definitions.  The audit service of the NetBox routes writes on a session of its own, and
    their advisory lock is not represented.  For the calendar an instant counts microseconds since 1970 in UTC; years have no bound.

    ** Not modelled

    The sessions of the device transports but for the Telnet login, and the Redis backend
    (I/O over third-party packages); the facade in [history/]; the routes that answer
    constants, counters or one row ([health.py], [version.py], [metrics.py],
    [compliance.py]); the function [_execute_job] of the discovery routes, which nothing
    calls; the wiring of [create_application], the settings class, logging and CORS;
    migrations (the partial unique index they create on active jobs is in Session.v); the
    frontend. *)

From Stdlib Require Export Ascii String ZArith QArith Qround Lia.
From stdpp Require Export base tactics decidable gmap strings pretty list list_numbers.


(* QArith leaves Q_scope open; the development writes [%Q] where it needs it. *)
#[global] Close Scope Q_scope.
#[global] Open Scope Z_scope.

Declare Scope py_scope.
Delimit Scope py_scope with py.
#[global] Open Scope py_scope.

Create HintDb nop discriminated.
Create Rewrite HintDb nop.
Create Rewrite HintDb pybool.

(** ** Identifiers, instants, durations *)

(** [uuid.UUID] is a 128-bit integer; [datetime] is a count of microseconds
    (the resolution of the type); a Python [float] of seconds is a rational. *)
Abbreviation UUID := N.
Abbreviation datetime := Z.
Abbreviation float := Q.

(** [datetime.timedelta(seconds=s)]: the constructor rounds to the nearest
    microsecond, ties to even. *)
Definition round_half_even (q : Q) : Z :=
  let f := Qfloor q in
  let r := (q - inject_Z f)%Q in
  match (r ?= 1 # 2)%Q with
  | Lt => f
  | Gt => f + 1
  | Eq => if Z.even f then f else f + 1
  end.

(** Rounding to the nearest integer stays between integer bounds. *)
Lemma round_half_even_bounds q lo hi : (inject_Z lo <= q <= inject_Z hi)%Q → lo <= round_half_even q <= hi.
Proof.
  intros [Hlo Hhi]. apply Qfloor_resp_le in Hlo as Hlo'. rewrite Qfloor_Z in Hlo'.
  pose proof (Qfloor_le q) as Hf. unfold round_half_even.
  assert (Qfloor q < hi ∨ (q == inject_Z (Qfloor q))%Q) as Hcase.
  { destruct (Qle_lt_or_eq _ _ Hf) as [Hlt|He]; [left|right; by symmetry].
    rewrite Zlt_Qlt. by apply Qlt_le_trans with q. }
  assert (Qfloor q <= hi) as Hle.
  { rewrite Zle_Qle. by apply Qle_trans with q. }
  destruct Hcase as [Hlt|He].
  - destruct (_ ?= _)%Q; [destruct (Z.even _)|..]; lia.
  - assert (q - inject_Z (Qfloor q) == 0)%Q as E0 by (rewrite He at 1; ring).
    rewrite (Qcompare_comp _ _ E0 (1 # 2)%Q (1 # 2)%Q) by done. change (0 ?= 1 # 2)%Q with Lt. cbv beta iota zeta. lia.
Qed.

Definition timedelta_seconds (s : float) : Z := round_half_even (s * 1000000)%Q.

(** ** Pipelines of functional updates *)
Notation "x |> f" := (f x) (at level 53, left associativity, only parsing) : py_scope.

(** [record_with eta p r v] is the record [r] with the field read by [p]
    replaced by [v], where [eta] rebuilds a record from its own fields. *)
Ltac record_with eta p r v :=
  let body := eval cbv beta delta [eta] in (eta r) in
  match eval pattern (p r) in body with
  | ?f _ => let t := eval cbv beta in (f v) in exact t
  end.

(** ** Equality and membership as the code computes them *)

(** [x in (a, b, ...)] and the equality the code's [==] denotes. *)
Definition eqb {A} `{EqDecision A} (x y : A) : bool := bool_decide (x = y).
Definition mem {A} `{EqDecision A} (x : A) (l : list A) : bool := bool_decide (x ∈ l).

#[global] Arguments eqb {_ _} _ _ : simpl never.
#[global] Arguments mem {_ _} _ _ : simpl never.

Infix "≟" := eqb (at level 70, no associativity) : py_scope.

Lemma eqb_true {A} `{EqDecision A} (x y : A) : eqb x y = true ↔ x = y.
Proof. apply bool_decide_eq_true. Qed.
Lemma eqb_false {A} `{EqDecision A} (x y : A) : eqb x y = false ↔ x ≠ y.
Proof. apply bool_decide_eq_false. Qed.
Lemma eqb_refl {A} `{EqDecision A} (x : A) : eqb x x = true.
Proof. by apply eqb_true. Qed.
Lemma mem_true {A} `{EqDecision A} (x : A) l : mem x l = true ↔ x ∈ l.
Proof. apply bool_decide_eq_true. Qed.
Lemma mem_false {A} `{EqDecision A} (x : A) l : mem x l = false ↔ x ∉ l.
Proof. apply bool_decide_eq_false. Qed.

#[export] Hint Rewrite @eqb_true @eqb_false @mem_true @mem_false @eqb_refl
  andb_true_iff andb_false_iff orb_true_iff orb_false_iff
  negb_true_iff negb_false_iff Z.ltb_lt Z.ltb_ge Z.leb_le Z.leb_gt
  Nat.ltb_lt Nat.ltb_ge Nat.leb_le Nat.leb_gt : pybool.

(** Boolean guards to propositions, everywhere. *)
Ltac pybool := autorewrite with pybool in *.

(** ** Python's string operations on the ASCII range *)

Fixpoint str_map (f : ascii → ascii) (s : string) : string :=
  match s with
  | EmptyString => EmptyString
  | String c s' => String (f c) (str_map f s')
  end.

Definition ascii_lower (c : ascii) : ascii :=
  let n := Ascii.N_of_ascii c in
  if ((65 <=? n) && (n <=? 90))%N then Ascii.ascii_of_N (n + 32) else c.

Definition ascii_upper (c : ascii) : ascii :=
  let n := Ascii.N_of_ascii c in
  if ((97 <=? n) && (n <=? 122))%N then Ascii.ascii_of_N (n - 32) else c.

Definition str_lower : string → string := str_map ascii_lower.
Definition str_upper : string → string := str_map ascii_upper.

(** [str.isspace] on ASCII: tab to carriage return, the four separators,
    and the blank. *)
Definition is_space (c : ascii) : bool :=
  let n := Ascii.N_of_ascii c in
  ((9 <=? n) && (n <=? 13) || (28 <=? n) && (n <=? 32))%N.

Fixpoint str_lstrip (s : string) : string :=
  match s with
  | EmptyString => EmptyString
  | String c s' => if is_space c then str_lstrip s' else s
  end.

Fixpoint str_rstrip (s : string) : string :=
  match s with
  | EmptyString => EmptyString
  | String c s' =>
      match str_rstrip s' with
      | EmptyString => if is_space c then EmptyString else String c EmptyString
      | t => String c t
      end
  end.

Definition str_strip (s : string) : string := str_rstrip (str_lstrip s).

(** [needle in hay] on strings. *)
Definition str_in (needle hay : string) : bool :=
  match String.index 0 needle hay with Some _ => true | None => false end.

(** [s[:n]]. *)
Definition str_take (n : nat) (s : string) : string := String.substring 0 n s.

(** [s.split(sep)] for a one-character separator. *)
Fixpoint str_split (sep : ascii) (s : string) : list string :=
  match s with
  | EmptyString => [EmptyString]
  | String c s' =>
      if c ≟ sep then EmptyString :: str_split sep s'
      else match str_split sep s' with
           | [] => [String c EmptyString]
           | t :: ts => String c t :: ts
           end
  end.

(** Whether a character occurs in a string. *)
Fixpoint str_mem (c : ascii) (s : string) : bool :=
  match s with
  | EmptyString => false
  | String d s' => (d ≟ c) || str_mem c s'
  end.

Lemma str_app_cons c s t : String c s +:+ t = String c (s +:+ t).
Proof. reflexivity. Qed.

Lemma str_app_assoc s t u : (s +:+ t) +:+ u = s +:+ (t +:+ u).
Proof. induction s as [|c s IH]; [done|]. rewrite !str_app_cons. by rewrite IH. Qed.

Lemma str_app_nil_r s : s +:+ EmptyString = s.
Proof. induction s as [|c s IH]; [done|]. rewrite str_app_cons. by rewrite IH. Qed.

Lemma str_length_app s t : String.length (s +:+ t) = (String.length s + String.length t)%nat.
Proof. induction s as [|c s IH]; [done|]. rewrite str_app_cons. cbn. by rewrite IH. Qed.

Fixpoint str_all (p : ascii → bool) (s : string) : bool :=
  match s with
  | EmptyString => true
  | String c s' => p c && str_all p s'
  end.

Lemma str_all_app p s t : str_all p (s +:+ t) = str_all p s && str_all p t.
Proof.
  induction s as [|c s IH]; [done|].
  change (String c s +:+ t) with (String c (s +:+ t)). cbn. by rewrite IH, andb_assoc.
Qed.

Lemma str_split_none sep s : str_mem sep s = false → str_split sep s = [s].
Proof.
  induction s as [|c s IH]; cbn; [done|]. intros [Hc Hs]%orb_false_iff.
  rewrite Hc. by rewrite IH.
Qed.

Lemma str_split_app sep s t :
  str_mem sep s = false → str_split sep (s +:+ String sep t) = s :: str_split sep t.
Proof.
  induction s as [|c s IH].
  - intros _. change ("" +:+ String sep t) with (String sep t). cbn. by rewrite eqb_refl.
  - change (String c s +:+ String sep t) with (String c (s +:+ String sep t)). cbn.
    intros [Hc Hs]%orb_false_iff. rewrite Hc. by rewrite IH.
Qed.

Definition str_truthy (s : string) : bool :=
  match s with EmptyString => false | _ => true end.

(** [a or b] where [a] is an optional string. *)
Definition or_str (a : option string) (b : string) : string :=
  match a with
  | Some s => if str_truthy s then s else b
  | None => b
  end.

(** [x is None] / [x is not None]. *)
Definition is_none {A} (o : option A) : bool := match o with None => true | _ => false end.
Definition is_nil {A} (l : list A) : bool := match l with [] => true | _ => false end.
Definition is_not_none {A} (o : option A) : bool := negb (is_none o).

(** ** Text of identifiers *)

(** [uuid.UUID(s)] on the hyphenated or plain hexadecimal form. *)
Definition hex_value (c : ascii) : option N :=
  let n := Ascii.N_of_ascii (ascii_lower c) in
  if ((48 <=? n) && (n <=? 57))%N then Some (n - 48)%N
  else if ((97 <=? n) && (n <=? 102))%N then Some (n - 87)%N
  else None.

Fixpoint hex_acc (acc : N) (digits : nat) (s : string) : option (N * nat) :=
  match s with
  | EmptyString => Some (acc, digits)
  | String c s' =>
      if c ≟ "-"%char then hex_acc acc digits s'
      else match hex_value c with
           | Some d => hex_acc (16 * acc + d)%N (S digits) s'
           | None => None
           end
  end.

Definition parse_uuid (s : string) : option UUID :=
  match hex_acc 0 0 s with
  | Some (n, 32%nat) => Some n
  | _ => None
  end.

(** [str(uuid)]: 32 hexadecimal digits in groups of 8, 4, 4, 4 and 12. *)
Definition hex_digit (n : N) : ascii :=
  if (n <? 10)%N then Ascii.ascii_of_N (48 + n) else Ascii.ascii_of_N (87 + n).

Fixpoint hex_digits (k : nat) (n : N) : string :=
  match k with
  | O => EmptyString
  | S k' => hex_digits k' (n / 16) +:+ String (hex_digit (n mod 16)) EmptyString
  end.

Definition uuid_str (u : UUID) : string :=
  let s := hex_digits 32 u in
  String.substring 0 8 s +:+ "-" +:+ String.substring 8 4 s +:+ "-" +:+
  String.substring 12 4 s +:+ "-" +:+ String.substring 16 4 s +:+ "-" +:+
  String.substring 20 12 s.

(** ** Python's [enum.StrEnum] *)

(** A [StrEnum]: its members in declaration order and the string each one is
    equal to; two members never share a value. *)
Class StrEnum (A : Type) `{EqDecision A} := {
  value : A → string;
  members : list A;
  members_all : ∀ a, a ∈ members;
  value_inj :: Inj (=) (=) value;
}.

(** [E(s)]: the member with value [s]; [None] is the [ValueError]. *)
Definition of_value {A} `{StrEnum A} (s : string) : option A :=
  List.find (λ a, value a ≟ s) members.

Section StrEnum.
Context {A} `{StrEnum A}.

Lemma of_value_value (a : A) : of_value (value a) = Some a.
Proof.
  unfold of_value. pose proof (members_all a) as Hin. revert Hin.
  induction members as [|b l IH]; [by rewrite elem_of_nil|].
  rewrite elem_of_cons; intros Hin; cbn.
  destruct (eqb (value b) (value a)) eqn:E.
  - rewrite eqb_true in E. by apply (inj value) in E as ->.
  - rewrite eqb_false in E. destruct Hin as [->|?]; [done|auto].
Qed.

Lemma of_value_Some s (a : A) : of_value s = Some a → s = value a.
Proof.
  unfold of_value. intros Hf. apply find_some in Hf as [_ Hf].
  by rewrite eqb_true in Hf.
Qed.
End StrEnum.
#[export] Hint Rewrite @of_value_value : nop.

(** A [StrEnum] instance is its table; the two laws are by case analysis. *)
Ltac solve_members := intros []; rewrite ?elem_of_cons; tauto.
Ltac solve_value_inj := intros [] [] ?; first [reflexivity | discriminate].

(** ** Lists *)

(** [dict.fromkeys(xs)]: the keys in order of first occurrence. *)
Definition first_occurrences {A} `{EqDecision A} (xs : list A) : list A :=
  fold_left (λ seen x, if mem x seen then seen else seen ++ [x]) xs [].

Section FirstOccurrences.
Context {A} `{EqDecision A}.
Implicit Types (xs acc : list A).

Let step := λ (seen : list A) x, if mem x seen then seen else seen ++ [x].

Lemma first_occurrences_fold_elem xs acc y :
  y ∈ fold_left step xs acc ↔ y ∈ acc ∨ y ∈ xs.
Proof.
  revert acc. induction xs as [|x xs IH]; intros acc; cbn.
  { rewrite elem_of_nil. tauto. }
  rewrite IH. unfold step. destruct (mem x acc) eqn:E; pybool.
  - rewrite elem_of_cons. split; [tauto|]. intros [?|[->|?]]; tauto.
  - rewrite elem_of_app, list_elem_of_singleton, elem_of_cons. tauto.
Qed.

Lemma first_occurrences_fold_NoDup xs acc :
  NoDup acc → NoDup (fold_left step xs acc).
Proof.
  revert acc. induction xs as [|x xs IH]; intros acc Hnd; cbn; [done|].
  apply IH. unfold step. destruct (mem x acc) eqn:E; pybool; [done|].
  apply NoDup_app. split_and!; [done| |apply NoDup_singleton].
  intros y Hy. rewrite list_elem_of_singleton. by intros ->.
Qed.

Lemma elem_of_first_occurrences xs y : y ∈ first_occurrences xs ↔ y ∈ xs.
Proof.
  etrans; [apply first_occurrences_fold_elem|]. rewrite elem_of_nil. tauto.
Qed.

Lemma NoDup_first_occurrences xs : NoDup (first_occurrences xs).
Proof. apply first_occurrences_fold_NoDup, NoDup_nil_2. Qed.

Lemma first_occurrences_fold_prefix xs acc :
  ∃ l, fold_left step xs acc = acc ++ l.
Proof.
  revert acc. induction xs as [|x xs IH]; intros acc; cbn.
  { exists []. by rewrite app_nil_r. }
  unfold step at 2. destruct (mem x acc); [apply IH|].
  destruct (IH (acc ++ [x])) as [l ->]. exists (x :: l). by rewrite <-app_assoc.
Qed.

(** The first key stays first. *)
Lemma first_occurrences_cons x xs : ∃ l, first_occurrences (x :: xs) = x :: l.
Proof.
  unfold first_occurrences; cbn. destruct (first_occurrences_fold_prefix xs [x]) as [l Hl].
  exists l. exact Hl.
Qed.
End FirstOccurrences.

(** [Counter(xs).get(k, 0)]. *)
Definition count_of {A} `{EqDecision A} (k : A) (xs : list A) : Z :=
  Z.of_nat (length (filter (λ x, x = k) xs)).

Section CountOf.
Context {A} `{EqDecision A}.
Implicit Types (k x : A) (xs ks : list A).

Lemma count_of_nil k : count_of k [] = 0.
Proof. done. Qed.

Lemma count_of_cons k x xs :
  count_of k (x :: xs) = (if decide (x = k) then 1 else 0) + count_of k xs.
Proof. unfold count_of. rewrite filter_cons. case_decide; cbn [length]; lia. Qed.

Lemma count_of_nonneg k xs : 0 <= count_of k xs.
Proof. unfold count_of. lia. Qed.

Lemma count_of_pos k xs : 0 < count_of k xs ↔ k ∈ xs.
Proof.
  induction xs as [|x xs IH].
  - rewrite count_of_nil, elem_of_nil. lia.
  - rewrite count_of_cons, elem_of_cons. pose proof (count_of_nonneg k xs).
    case_decide; subst; [split; [auto|lia]|]. rewrite Z.add_0_l, IH. naive_solver.
Qed.

Lemma count_of_zero k xs : count_of k xs = 0 ↔ k ∉ xs.
Proof. rewrite <-count_of_pos. pose proof (count_of_nonneg k xs). lia. Qed.

(** Counting over a covering list of distinct keys counts everything once. *)
Lemma count_of_sum_cons x xs ks :
  NoDup ks →
  fold_right Z.add 0 (map (λ k, count_of k (x :: xs)) ks) =
  (if decide (x ∈ ks) then 1 else 0) + fold_right Z.add 0 (map (λ k, count_of k xs) ks).
Proof.
  induction 1 as [|k ks Hk Hnd IH]; cbn; [done|].
  rewrite count_of_cons, IH.
  destruct (decide (x = k)) as [->|Hne].
  - rewrite (decide_False (P := k ∈ ks)), decide_True by set_solver. lia.
  - destruct (decide (x ∈ ks)); [rewrite decide_True|rewrite decide_False]; set_solver by lia.
Qed.

Lemma count_of_total ks xs :
  NoDup ks → (∀ x, x ∈ xs → x ∈ ks) →
  fold_right Z.add 0 (map (λ k, count_of k xs) ks) = Z.of_nat (length xs).
Proof.
  intros Hnd. induction xs as [|x xs IH]; intros Hcov.
  - clear. induction ks as [|k ks IH]; cbn; [done|]. by rewrite IH, count_of_nil.
  - rewrite count_of_sum_cons by done.
    rewrite decide_True, IH by set_solver. cbn [length]. lia.
Qed.
End CountOf.

(** ** Case conversion *)

Lemma ascii_lower_idem c : ascii_lower (ascii_lower c) = ascii_lower c.
Proof. by destruct c as [[] [] [] [] [] [] [] []]. Qed.

Lemma str_lower_idem s : str_lower (str_lower s) = str_lower s.
Proof.
  unfold str_lower. induction s as [|c s IH]; cbn; [done|]. by rewrite ascii_lower_idem, IH.
Qed.

Lemma ascii_upper_lower c : ascii_upper (ascii_lower c) = ascii_upper c.
Proof. by destruct c as [[] [] [] [] [] [] [] []]. Qed.

Lemma ascii_lower_upper c : ascii_lower (ascii_upper c) = ascii_lower c.
Proof. by destruct c as [[] [] [] [] [] [] [] []]. Qed.

Lemma str_upper_lower s : str_upper (str_lower s) = str_upper s.
Proof.
  unfold str_upper, str_lower. induction s as [|c s IH]; cbn; [done|].
  by rewrite ascii_upper_lower, IH.
Qed.

Lemma str_lower_upper s : str_lower (str_upper s) = str_lower s.
Proof.
  unfold str_upper, str_lower. induction s as [|c s IH]; cbn; [done|].
  by rewrite ascii_lower_upper, IH.
Qed.

Lemma filter_filter {A} (p q : A → bool) (l : list A) :
  List.filter p (List.filter q l) = List.filter (λ x, q x && p x) l.
Proof.
  induction l as [|x l IH]; [done|]. cbn. destruct (q x); cbn; rewrite IH; done.
Qed.

(** ** Partial maps over lists *)

Section Omap.
Context {A B C : Type} (f : A → option B) (g : B → C) (h : A → C).
Hypothesis Hfg : ∀ x y, f x = Some y → g y = h x.

Lemma omap_fmap_sublist (l : list A) : map g (omap f l) `sublist_of` map h l.
Proof.
  induction l as [|x l IH]; cbn; [constructor|].
  destruct (f x) as [y|] eqn:Hx; cbn.
  - rewrite (Hfg x y Hx). by constructor.
  - by constructor.
Qed.

Lemma NoDup_omap_fmap (l : list A) : NoDup (map h l) → NoDup (map g (omap f l)).
Proof. intros Hnd. eapply sublist_NoDup; [exact Hnd|apply omap_fmap_sublist]. Qed.
End Omap.
