(* ===== verification/Vocabulary.v ===== *)
(** * The enumerations of the platform

    Every [StrEnum] the modelled components exchange: job states, failure
    codes and scopes ([discovery/contracts.py]), result states
    ([discovery/result_states.py]), transports ([transports/base.py]),
    probed services ([discovery/probing.py]) and collector capabilities
    ([discovery/capabilities.py]).  [value] is the string a member equals. *)

From S2P Require Import Prelude.

(** ** Job lifecycle *)

Inductive DiscoveryJobStatus :=
  | QUEUED | RUNNING | SUCCEEDED | FAILED | TIMED_OUT | CANCELLED.

#[export] Instance DiscoveryJobStatus_eq_dec : EqDecision DiscoveryJobStatus.
Proof. solve_decision. Defined.

Definition DiscoveryJobStatus_value (s : DiscoveryJobStatus) : string :=
  match s with
  | QUEUED => "queued"
  | RUNNING => "running"
  | SUCCEEDED => "succeeded"
  | FAILED => "failed"
  | TIMED_OUT => "timed_out"
  | CANCELLED => "cancelled"
  end.

#[export] Program Instance DiscoveryJobStatus_StrEnum : StrEnum DiscoveryJobStatus := {|
  value := DiscoveryJobStatus_value;
  members := [QUEUED; RUNNING; SUCCEEDED; FAILED; TIMED_OUT; CANCELLED];
|}.
Next Obligation. solve_members. Qed.
Next Obligation. solve_value_inj. Qed.

Definition is_terminal (s : DiscoveryJobStatus) : bool :=
  mem s [SUCCEEDED; FAILED; TIMED_OUT; CANCELLED].

(** ** Failure codes *)

Module FailureCode.
Inductive DiscoveryFailureCode :=
  | TARGET_NOT_FOUND | TARGET_DISABLED | UNSUPPORTED_VENDOR
  | CREDENTIAL_RESOLUTION_FAILED | AUTHENTICATION_FAILED | UNSUPPORTED_CREDENTIAL
  | CONNECTION_FAILED | CONNECTION_TIMEOUT | HOST_UNREACHABLE | CONNECTION_REFUSED
  | TIMEOUT | DISCOVERY_TIMEOUT | DISCOVERY_FAILED
  | TRANSPORT_UNAVAILABLE | TRANSPORT_DISABLED
  | UNSUPPORTED_PLATFORM | AMBIGUOUS_PLATFORM | UNSUPPORTED_CAPABILITY
  | COLLECTOR_FAILED | PARSER_FAILED | NORMALIZATION_FAILED
  | EVIDENCE_PERSISTENCE_FAILED | SNAPSHOT_PERSISTENCE_FAILED
  | CANCELLED.

#[export] Instance DiscoveryFailureCode_eq_dec : EqDecision DiscoveryFailureCode.
Proof. solve_decision. Defined.

Definition DiscoveryFailureCode_value (c : DiscoveryFailureCode) : string :=
  match c with
  | TARGET_NOT_FOUND => "TARGET_NOT_FOUND"
  | TARGET_DISABLED => "TARGET_DISABLED"
  | UNSUPPORTED_VENDOR => "UNSUPPORTED_VENDOR"
  | CREDENTIAL_RESOLUTION_FAILED => "CREDENTIAL_RESOLUTION_FAILED"
  | AUTHENTICATION_FAILED => "AUTHENTICATION_FAILED"
  | UNSUPPORTED_CREDENTIAL => "UNSUPPORTED_CREDENTIAL"
  | CONNECTION_FAILED => "CONNECTION_FAILED"
  | CONNECTION_TIMEOUT => "CONNECTION_TIMEOUT"
  | HOST_UNREACHABLE => "HOST_UNREACHABLE"
  | CONNECTION_REFUSED => "CONNECTION_REFUSED"
  | TIMEOUT => "TIMEOUT"
  | DISCOVERY_TIMEOUT => "DISCOVERY_TIMEOUT"
  | DISCOVERY_FAILED => "DISCOVERY_FAILED"
  | TRANSPORT_UNAVAILABLE => "TRANSPORT_UNAVAILABLE"
  | TRANSPORT_DISABLED => "TRANSPORT_DISABLED"
  | UNSUPPORTED_PLATFORM => "UNSUPPORTED_PLATFORM"
  | AMBIGUOUS_PLATFORM => "AMBIGUOUS_PLATFORM"
  | UNSUPPORTED_CAPABILITY => "UNSUPPORTED_CAPABILITY"
  | COLLECTOR_FAILED => "COLLECTOR_FAILED"
  | PARSER_FAILED => "PARSER_FAILED"
  | NORMALIZATION_FAILED => "NORMALIZATION_FAILED"
  | EVIDENCE_PERSISTENCE_FAILED => "EVIDENCE_PERSISTENCE_FAILED"
  | SNAPSHOT_PERSISTENCE_FAILED => "SNAPSHOT_PERSISTENCE_FAILED"
  | CANCELLED => "CANCELLED"
  end.

#[export] Program Instance DiscoveryFailureCode_StrEnum : StrEnum DiscoveryFailureCode := {|
  value := DiscoveryFailureCode_value;
  members :=
    [TARGET_NOT_FOUND; TARGET_DISABLED; UNSUPPORTED_VENDOR;
     CREDENTIAL_RESOLUTION_FAILED; AUTHENTICATION_FAILED; UNSUPPORTED_CREDENTIAL;
     CONNECTION_FAILED; CONNECTION_TIMEOUT; HOST_UNREACHABLE; CONNECTION_REFUSED;
     TIMEOUT; DISCOVERY_TIMEOUT; DISCOVERY_FAILED;
     TRANSPORT_UNAVAILABLE; TRANSPORT_DISABLED;
     UNSUPPORTED_PLATFORM; AMBIGUOUS_PLATFORM; UNSUPPORTED_CAPABILITY;
     COLLECTOR_FAILED; PARSER_FAILED; NORMALIZATION_FAILED;
     EVIDENCE_PERSISTENCE_FAILED; SNAPSHOT_PERSISTENCE_FAILED; CANCELLED];
|}.
Next Obligation. solve_members. Qed.
Next Obligation. solve_value_inj. Qed.
End FailureCode.
Export (hints) FailureCode.
Abbreviation DiscoveryFailureCode := FailureCode.DiscoveryFailureCode.

(** ** Scopes *)

Inductive DiscoveryScopeType :=
  | SINGLE_DEVICE | IP_RANGE | CIDR_NETWORK | DEVICE_GROUP | NETBOX_SCOPE.

#[export] Instance DiscoveryScopeType_eq_dec : EqDecision DiscoveryScopeType.
Proof. solve_decision. Defined.

Definition DiscoveryScopeType_value (s : DiscoveryScopeType) : string :=
  match s with
  | SINGLE_DEVICE => "single_device"
  | IP_RANGE => "ip_range"
  | CIDR_NETWORK => "cidr_network"
  | DEVICE_GROUP => "device_group"
  | NETBOX_SCOPE => "netbox_scope"
  end.

#[export] Program Instance DiscoveryScopeType_StrEnum : StrEnum DiscoveryScopeType := {|
  value := DiscoveryScopeType_value;
  members := [SINGLE_DEVICE; IP_RANGE; CIDR_NETWORK; DEVICE_GROUP; NETBOX_SCOPE];
|}.
Next Obligation. solve_members. Qed.
Next Obligation. solve_value_inj. Qed.

(** ** Result states *)

Module ResultState.
Inductive DiscoveryResultState :=
  | UNREACHABLE | REACHABLE_NO_MANAGEMENT | AUTHENTICATION_FAILED
  | PARTIAL_DISCOVERY | DISCOVERED | UNVERIFIED | CANCELLED | INTERRUPTED.

#[export] Instance DiscoveryResultState_eq_dec : EqDecision DiscoveryResultState.
Proof. solve_decision. Defined.

Definition DiscoveryResultState_value (s : DiscoveryResultState) : string :=
  match s with
  | UNREACHABLE => "unreachable"
  | REACHABLE_NO_MANAGEMENT => "reachable_no_management"
  | AUTHENTICATION_FAILED => "authentication_failed"
  | PARTIAL_DISCOVERY => "partial_discovery"
  | DISCOVERED => "discovered"
  | UNVERIFIED => "unverified"
  | CANCELLED => "cancelled"
  | INTERRUPTED => "interrupted"
  end.

#[export] Program Instance DiscoveryResultState_StrEnum : StrEnum DiscoveryResultState := {|
  value := DiscoveryResultState_value;
  members :=
    [UNREACHABLE; REACHABLE_NO_MANAGEMENT; AUTHENTICATION_FAILED;
     PARTIAL_DISCOVERY; DISCOVERED; UNVERIFIED; CANCELLED; INTERRUPTED];
|}.
Next Obligation. solve_members. Qed.
Next Obligation. solve_value_inj. Qed.
End ResultState.
Export (hints) ResultState.
Abbreviation DiscoveryResultState := ResultState.DiscoveryResultState.

(** ** Run status *)

Module RunStatus.
Inductive DiscoveryRunStatus := STARTED | SUCCEEDED | FAILED.

#[export] Instance DiscoveryRunStatus_eq_dec : EqDecision DiscoveryRunStatus.
Proof. solve_decision. Defined.

Definition DiscoveryRunStatus_value (s : DiscoveryRunStatus) : string :=
  match s with
  | STARTED => "started"
  | SUCCEEDED => "succeeded"
  | FAILED => "failed"
  end.

#[export] Program Instance DiscoveryRunStatus_StrEnum : StrEnum DiscoveryRunStatus := {|
  value := DiscoveryRunStatus_value;
  members := [STARTED; SUCCEEDED; FAILED];
|}.
Next Obligation. solve_members. Qed.
Next Obligation. solve_value_inj. Qed.
End RunStatus.
Export (hints) RunStatus.

(** ** Transports, services, capabilities *)

Module Transport.
Inductive TransportCapability := SSH | SNMP | TELNET | ICMP | HTTP | HTTPS.

#[export] Instance TransportCapability_eq_dec : EqDecision TransportCapability.
Proof. solve_decision. Defined.

Definition TransportCapability_value (c : TransportCapability) : string :=
  match c with
  | SSH => "SSH"
  | SNMP => "SNMP"
  | TELNET => "TELNET"
  | ICMP => "ICMP"
  | HTTP => "HTTP"
  | HTTPS => "HTTPS"
  end.

#[export] Program Instance TransportCapability_StrEnum : StrEnum TransportCapability := {|
  value := TransportCapability_value;
  members := [SSH; SNMP; TELNET; ICMP; HTTP; HTTPS];
|}.
Next Obligation. solve_members. Qed.
Next Obligation. solve_value_inj. Qed.
End Transport.
Export (hints) Transport.
Abbreviation TransportCapability := Transport.TransportCapability.

Module Service.
Inductive TransportService := SSH | TELNET | HTTP | HTTPS | SNMP.

#[export] Instance TransportService_eq_dec : EqDecision TransportService.
Proof. solve_decision. Defined.

Definition TransportService_value (s : TransportService) : string :=
  match s with
  | SSH => "ssh"
  | TELNET => "telnet"
  | HTTP => "http"
  | HTTPS => "https"
  | SNMP => "snmp"
  end.

#[export] Program Instance TransportService_StrEnum : StrEnum TransportService := {|
  value := TransportService_value;
  members := [SSH; TELNET; HTTP; HTTPS; SNMP];
|}.
Next Obligation. solve_members. Qed.
Next Obligation. solve_value_inj. Qed.
End Service.
Export (hints) Service.
Abbreviation TransportService := Service.TransportService.
