(* ===== verification/Effects.v ===== *)
(** * Exceptions and stateful computations

    The exception classes the modelled code raises or tests with
    [isinstance], and the state-and-exception monad [M S] the handlers are
    written in.  As in Python, an exception leaves the state mutated by the
    statements that already ran. *)

From S2P Require Import Prelude Vocabulary.

(** ** Exceptions *)

Inductive exn_class :=
  (* builtins *)
  | BaseException | Exception_ | RuntimeError | ValueError | KeyError | TypeError
  | OSError | ConnectionError | ConnectionRefusedError | TimeoutError
  | CancelledError
  (* persistence/discovery_repositories.py *)
  | DiscoveryPersistenceError | DuplicateActiveDiscoveryError
  | DiscoveryResourceNotFoundError | InvalidDiscoveryTransitionError
  | DiscoveryCancellationConflictError
  (* discovery/scopes.py, discovery/execution.py *)
  | DiscoveryScopeError
  | DiscoveryCancellationRequestedError | DiscoveryLeaseLostError
  | DiscoveryExecutionFailureError (code : DiscoveryFailureCode)
  (* transports *)
  | TransportError | TransportDependencyError | TransportConfigurationError
  | TransportConnectionError | TransportAuthenticationError
  | TransportUnavailableError | TransportHealthCheckError
  | CredentialResolutionError
  | ApplicationError | TransactionError | ServiceError | EventError | SecretProviderError | SecretNotFoundError
  | ProviderUnavailableError | ProviderPermissionDeniedError
  | InvalidSecretReferenceError | ProviderConfigurationError
  (* snapshot, comparison, evaluation, policies *)
  | SnapshotValidationError | SnapshotComparisonError
  | EvaluationError | RuleEvaluationError | PolicyEvaluationError | RuleRegistrationError
  | PolicyValidationError | InvalidVersionError | CircularInheritanceError
  | MissingBaselineError | InvalidAssignmentError
  (* collectors/execution/exceptions.py *)
  | CollectorExecutionError | CollectorNotFoundError | TransportSelectionError
  | CollectorExecutionStateError | CollectorExecutionCancelledError
  | CollectorExecutionTimeoutError | CollectorRetryExhaustedError
  (* parsers/exceptions.py, orchestration/workflow.py *)
  | ParserError | ParserConfigurationError | ParserRegistrationError
  | ParserExecutionError | ParserValidationError
  | OrchestrationCancelledError
  (* integrations/netbox/exceptions.py *)
  | NetBoxError | NetBoxConfigurationError | NetBoxAuthenticationError
  | NetBoxTransportError | NetBoxCacheError | NetBoxValidationError
  | NetBoxRateLimitError | NetBoxResponseError | NetBoxVersionMismatchError
  (* third parties: sqlalchemy's, pydantic's, httpx's, and any other class by its name *)
  | IntegrityError | ValidationError | TimeoutException | NetworkError
  (* fastapi's, api/v1/exceptions.py *)
  | HTTPException (status_code : Z) | NetBoxIntegrationError (status_code : Z) (code : string)
  | OtherError (name : string).

#[export] Instance exn_class_eq_dec : EqDecision exn_class.
Proof. solve_decision. Defined.

(** The base class of each class. *)
Definition superclass (c : exn_class) : option exn_class :=
  match c with
  | BaseException => None
  | Exception_ | CancelledError => Some BaseException
  | RuntimeError | ValueError | KeyError | TypeError | OSError
  | DiscoveryCancellationRequestedError | DiscoveryLeaseLostError
  | ApplicationError | IntegrityError | TimeoutException | NetworkError
  | HTTPException _ | NetBoxIntegrationError _ _ | OtherError _ => Some Exception_
  | ConnectionError | TimeoutError => Some OSError
  | ConnectionRefusedError => Some ConnectionError
  | DiscoveryPersistenceError | DiscoveryExecutionFailureError _
  | TransportError | CredentialResolutionError | OrchestrationCancelledError => Some RuntimeError
  | DuplicateActiveDiscoveryError | DiscoveryResourceNotFoundError
  | InvalidDiscoveryTransitionError | DiscoveryCancellationConflictError =>
      Some DiscoveryPersistenceError
  | DiscoveryScopeError | ValidationError => Some ValueError
  | TransportDependencyError | TransportConfigurationError
  | TransportConnectionError | TransportAuthenticationError
  | TransportUnavailableError | TransportHealthCheckError => Some TransportError
  | TransactionError | ServiceError | EventError | SecretProviderError => Some ApplicationError
  | SecretNotFoundError | ProviderUnavailableError | ProviderPermissionDeniedError
  | InvalidSecretReferenceError | ProviderConfigurationError => Some SecretProviderError
  | SnapshotValidationError | EvaluationError | CollectorExecutionError | ParserError
  | NetBoxError => Some ApplicationError
  | ParserConfigurationError | ParserRegistrationError | ParserExecutionError
  | ParserValidationError => Some ParserError
  | NetBoxConfigurationError | NetBoxAuthenticationError | NetBoxTransportError
  | NetBoxCacheError | NetBoxValidationError | NetBoxResponseError => Some NetBoxError
  | NetBoxRateLimitError => Some NetBoxTransportError
  | NetBoxVersionMismatchError => Some NetBoxValidationError
  | SnapshotComparisonError | PolicyValidationError => Some ValueError
  | RuleEvaluationError | PolicyEvaluationError | RuleRegistrationError => Some EvaluationError
  | InvalidVersionError | CircularInheritanceError
  | MissingBaselineError | InvalidAssignmentError => Some PolicyValidationError
  | CollectorNotFoundError | TransportSelectionError | CollectorExecutionStateError
  | CollectorExecutionCancelledError | CollectorExecutionTimeoutError
  | CollectorRetryExhaustedError => Some CollectorExecutionError
  end.

(** The hierarchy is at most five classes deep. *)
Fixpoint subclass_within (fuel : nat) (c d : exn_class) : bool :=
  (c ≟ d) ||
  match fuel, superclass c with
  | S fuel', Some c' => subclass_within fuel' c' d
  | _, _ => false
  end.

Definition issubclass : exn_class → exn_class → bool := subclass_within 5.

(** An exception: its class and [str(exc)]. *)
Record exn := Exn { exn_cls : exn_class; exn_str : string }.

Definition isinstance (e : exn) (c : exn_class) : bool := issubclass (exn_cls e) c.

(** [type(exc).__name__], for the classes the code compares it with. *)
Definition type_name (e : exn) : string :=
  match exn_cls e with
  | ConnectionRefusedError => "ConnectionRefusedError"
  | TimeoutError => "TimeoutError"
  | OtherError n => n
  | _ => ""
  end.

(** ** Computations *)

Inductive outcome (A : Type) :=
  | Ret (a : A)
  | Raise (e : exn).
Arguments Ret {A} a.
Arguments Raise {A} e.

Definition is_ret {A} (o : outcome A) : bool := match o with Ret _ => true | Raise _ => false end.

Definition raise_ {A} (c : exn_class) (msg : string) : outcome A := Raise (Exn c msg).

Definition M (S A : Type) : Type := S → outcome A * S.

Definition ret {S A} (a : A) : M S A := λ s, (Ret a, s).
Definition raise {S A} (c : exn_class) (msg : string) : M S A := λ s, (Raise (Exn c msg), s).
Definition reraise {S A} (e : exn) : M S A := λ s, (Raise e, s).
Definition bind {S A B} (m : M S A) (k : A → M S B) : M S B := λ s,
  match m s with
  | (Ret a, s') => k a s'
  | (Raise e, s') => (Raise e, s')
  end.
Definition of_outcome {S A} (o : outcome A) : M S A := λ s, (o, s).
Definition gets {S A} (f : S → A) : M S A := λ s, (Ret (f s), s).
Definition modify {S} (f : S → S) : M S unit := λ s, (Ret tt, f s).

(** [try: m except Exception as e: h e]; a handler passes on what it does
    not catch with [reraise]. *)
Definition try_except {S A} (m : M S A) (h : exn → M S A) : M S A := λ s,
  match m s with
  | (Ret a, s') => (Ret a, s')
  | (Raise e, s') => h e s'
  end.

(** [try: m except ... else ...]: what [m] ended with, to be told apart. *)
Definition catching {S A} (m : M S A) : M S (outcome A) := λ s, let (o, s') := m s in (Ret o, s').

(** [try: m finally: f] where [f] does not raise. *)
Definition try_finally {S A} (m : M S A) (f : M S unit) : M S A := λ s,
  match m s with
  | (Ret a, s') => match f s' with (Ret _, s'') => (Ret a, s'') | (Raise e, s'') => (Raise e, s'') end
  | (Raise e, s') => match f s' with (Ret _, s'') => (Raise e, s'') | (Raise e', s'') => (Raise e', s'') end
  end.

Notation "x <- m ;; k" := (bind m (λ x, k))
  (at level 100, m at next level, right associativity) : py_scope.
Notation "' p <- m ;; k" := (bind m (λ x, match x with p => k end))
  (at level 100, p pattern, m at next level, right associativity) : py_scope.
Notation "m ;;; k" := (bind m (λ _, k))
  (at level 100, right associativity) : py_scope.

(** [if c: m] with no [else]. *)
Definition when {S} (c : bool) (m : M S unit) : M S unit := if c then m else ret tt.

(** [for x in xs: f(x)]. *)
Fixpoint for_each {S A} (xs : list A) (f : A → M S unit) : M S unit :=
  match xs with
  | [] => ret tt
  | x :: xs' => f x ;;; for_each xs' f
  end.

(** [[f(x) for x in xs]]. *)
Fixpoint map_m {S A B} (f : A → M S B) (xs : list A) : M S (list B) :=
  match xs with
  | [] => ret []
  | x :: xs' => y <- f x ;; ys <- map_m f xs' ;; ret (y :: ys)
  end.

(** ** Running computations *)

Section Run.
Context {S : Type}.

Lemma bind_Ret {A B} (m : M S A) (k : A → M S B) s a s' :
  m s = (Ret a, s') → bind m k s = k a s'.
Proof. unfold bind. by intros ->. Qed.

Lemma bind_Raise {A B} (m : M S A) (k : A → M S B) s e s' :
  m s = (Raise e, s') → bind m k s = (Raise e, s').
Proof. unfold bind. by intros ->. Qed.

Lemma bind_inv {A B} (m : M S A) (k : A → M S B) s r s' :
  bind m k s = (r, s') →
  (∃ a s1, m s = (Ret a, s1) ∧ k a s1 = (r, s')) ∨
  (∃ e, m s = (Raise e, s') ∧ r = Raise e).
Proof. unfold bind. destruct (m s) as [[a|e] s1]; naive_solver. Qed.

(** A relation between start and end states that every step of a
    computation respects, whether or not it raises. *)
Definition preserves {A} (R : S → S → Prop) (m : M S A) : Prop :=
  ∀ s, R s (m s).2.

Context (R : S → S → Prop) `{!PreOrder R}.

Lemma preserves_ret {A} (a : A) : preserves R (ret a).
Proof. intros s. cbn. reflexivity. Qed.

Lemma preserves_raise {A} c msg : preserves R (raise (A := A) c msg).
Proof. intros s. cbn. reflexivity. Qed.

Lemma preserves_reraise {A} e : preserves R (reraise (A := A) e).
Proof. intros s. cbn. reflexivity. Qed.

Lemma preserves_of_outcome {A} (o : outcome A) : preserves R (of_outcome o).
Proof. intros s. cbn. reflexivity. Qed.

Lemma preserves_gets {A} (f : S → A) : preserves R (gets f).
Proof. intros s. cbn. reflexivity. Qed.

Lemma preserves_bind {A B} (m : M S A) (k : A → M S B) :
  preserves R m → (∀ a, preserves R (k a)) → preserves R (bind m k).
Proof.
  intros Hm Hk s. unfold bind. specialize (Hm s).
  destruct (m s) as [[a|e] s1]; cbn in *; [|done].
  etrans; [exact Hm|apply Hk].
Qed.

(** What the continuation gets is only what the computation returns. *)
Lemma preserves_bind_Ret {A B} (P : A → Prop) (m : M S A) (k : A → M S B) :
  preserves R m → (∀ s a s', m s = (Ret a, s') → P a) → (∀ a, P a → preserves R (k a)) →
  preserves R (bind m k).
Proof.
  intros Hm HP Hk s. unfold bind. specialize (Hm s).
  destruct (m s) as [[a|e] s1] eqn:E; cbn in *; [|done].
  etrans; [exact Hm|]. eapply Hk, HP, E.
Qed.

Lemma preserves_when c (m : M S unit) : preserves R m → preserves R (when c m).
Proof. destruct c; [done|]. intros _. apply preserves_ret. Qed.

Lemma preserves_try_except {A} (m : M S A) h :
  preserves R m → (∀ e, preserves R (h e)) → preserves R (try_except m h).
Proof.
  intros Hm Hh s. unfold try_except. specialize (Hm s).
  destruct (m s) as [[a|e] s1]; cbn in *; [done|].
  etrans; [exact Hm|apply Hh].
Qed.

Lemma preserves_catching {A} (m : M S A) : preserves R m → preserves R (catching m).
Proof. intros Hm s. unfold catching. specialize (Hm s). by destruct (m s). Qed.

Lemma preserves_try_finally {A} (m : M S A) f :
  preserves R m → preserves R f → preserves R (try_finally m f).
Proof.
  intros Hm Hf s. unfold try_finally. specialize (Hm s).
  destruct (m s) as [[a|e] s1]; cbn in *; specialize (Hf s1);
    destruct (f s1) as [[]  s2]; cbn in *; by etrans.
Qed.

Lemma preserves_for_each {A} (xs : list A) (f : A → M S unit) :
  (∀ x, preserves R (f x)) → preserves R (for_each xs f).
Proof.
  intros Hf. induction xs as [|x xs IH]; cbn;
    eauto using preserves_ret, preserves_bind.
Qed.

Lemma preserves_map_m {A B} (f : A → M S B) (xs : list A) :
  (∀ x, preserves R (f x)) → preserves R (map_m f xs).
Proof.
  intros Hf. induction xs as [|x xs IH]; cbn; [apply preserves_ret|].
  apply preserves_bind; [done|]. intros y.
  apply preserves_bind; [done|]. intros ys. apply preserves_ret.
Qed.
End Run.

Create HintDb preserves discriminated.
#[export] Hint Resolve preserves_ret preserves_raise preserves_reraise
  preserves_of_outcome preserves_gets preserves_bind preserves_when
  preserves_try_except preserves_catching preserves_try_finally preserves_for_each preserves_map_m
  : preserves.

(** Decompose a [preserves] goal down to the primitive statements; branches
    of the code are case-split. *)
Ltac preserves_step :=
  match goal with
  | |- PreOrder _ => apply _
  | |- forall _, _ => intro
  | |- preserves _ (match ?x with _ => _ end) => destruct x eqn:?
  | |- preserves _ (ret _) => apply preserves_ret
  | |- preserves _ (raise _ _) => apply preserves_raise
  | |- preserves _ (reraise _) => apply preserves_reraise
  | |- preserves _ (of_outcome _) => apply preserves_of_outcome
  | |- preserves _ (gets _) => apply preserves_gets
  | |- preserves _ (bind _ _) => apply preserves_bind
  | |- preserves _ (when _ _) => apply preserves_when
  | |- preserves _ (try_except _ _) => apply preserves_try_except
  | |- preserves _ (catching _) => apply preserves_catching
  | |- preserves _ (try_finally _ _) => apply preserves_try_finally
  | |- preserves _ (for_each _ _) => apply preserves_for_each
  | |- preserves _ (map_m _ _) => apply preserves_map_m
  | |- preserves _ _ => solve [eauto with preserves]
  end.
Ltac preserves_auto := repeat preserves_step.

(** ** Validators *)

Section Checks.
Context {S : Type}.

(** A computation that checks [P] and changes nothing. *)
Definition checks (m : M S unit) (P : Prop) : Prop :=
  ∀ w, (m w).2 = w ∧ ((m w).1 = Ret tt ↔ P).

Lemma checks_ret : checks (ret tt) True.
Proof. done. Qed.

Lemma checks_raise c msg : checks (raise c msg) False.
Proof. done. Qed.

Lemma checks_when (b : bool) c msg : checks (when b (raise c msg)) (b = false).
Proof. by destruct b. Qed.

Lemma checks_bind m k P Q : checks m P → checks k Q → checks (m ;;; k) (P ∧ Q).
Proof.
  intros Hm Hk w. unfold bind. destruct (Hm w) as [Hs HP], (m w) as [[[]|e] w1]; cbn in *; subst w1.
  - destruct (Hk w) as [? HQ]. split; [done|]. rewrite HQ. tauto.
  - split; [done|]. split; [done|]. intros [H _]. by apply HP in H.
Qed.

Lemma checks_if (b : bool) m1 m2 P1 P2 :
  checks m1 P1 → checks m2 P2 → checks (if b then m1 else m2) (if b then P1 else P2).
Proof. by destruct b. Qed.

Lemma checks_for_each {A} (xs : list A) f (P : A → Prop) :
  (∀ x, checks (f x) (P x)) → checks (for_each xs f) (Forall P xs).
Proof.
  intros Hf. induction xs as [|x xs IH]; intros w; cbn.
  - split; [done|]. split; [constructor|done].
  - destruct (checks_bind _ _ _ _ (Hf x) IH w) as [? HP]. split; [done|].
    by rewrite HP, Forall_cons.
Qed.

Lemma checks_iff m P Q : checks m P → (P ↔ Q) → checks m Q.
Proof. intros Hm HPQ w. destruct (Hm w) as [? ->]. done. Qed.

(** Every exception the computation raises is of the class. *)
Definition raises_only {A} (c : exn_class) (m : M S A) : Prop :=
  ∀ w e w', m w = (Raise e, w') → isinstance e c = true.

Lemma raises_only_ret {A} c (a : A) : raises_only c (ret a).
Proof. done. Qed.

Lemma raises_only_raise {A} c c' msg : issubclass c' c = true → raises_only c (raise (A := A) c' msg).
Proof. intros H w e w' [= <- <-]. exact H. Qed.

Lemma raises_only_when b c m : raises_only c m → raises_only c (when b m).
Proof. by destruct b. Qed.

Lemma raises_only_bind {A B} c (m : M S A) (k : A → M S B) :
  raises_only c m → (∀ a, raises_only c (k a)) → raises_only c (bind m k).
Proof.
  intros Hm Hk w e w'. unfold bind. destruct (m w) as [[a|e1] w1] eqn:E; [apply Hk|].
  intros [= <- <-]. by eapply Hm.
Qed.

Lemma raises_only_for_each {A} c (xs : list A) f :
  (∀ x, raises_only c (f x)) → raises_only c (for_each xs f).
Proof.
  intros Hf. induction xs as [|x xs IH]; cbn; [apply raises_only_ret|].
  apply raises_only_bind; auto.
Qed.
End Checks.

(** Decompose a [raises_only] goal down to the [raise] statements. *)
Ltac raises_only_auto :=
  repeat match goal with
  | |- raises_only _ (bind _ _) => apply raises_only_bind; [|intros ?]
  | |- raises_only _ (when _ _) => apply raises_only_when
  | |- raises_only _ (for_each _ _) => apply raises_only_for_each; intros ?
  | |- raises_only _ (raise _ _) => apply raises_only_raise; reflexivity
  | |- raises_only _ (ret _) => apply raises_only_ret
  | |- raises_only _ (if ?b then _ else _) => destruct b
  end.

(** ** Clocks *)

(** A state with a clock: [instant] is what [datetime.now(UTC)] answers and [tick]
    the state after the answer. *)
Class Clock (S : Type) := { instant : S → datetime; tick : S → S }.

Definition utc_now {S} `{!Clock S} : M S datetime := λ s, (Ret (instant s), tick s).

(** The clock does not go back. *)
Class ClockForward (S : Type) `{!Clock S} := tick_forward : ∀ s : S, instant s <= instant (tick s).

Section Clock.
Context {S} `{!Clock S, !ClockForward S}.

Definition forward (s s' : S) : Prop := instant s <= instant s'.

#[export] Instance forward_preorder : PreOrder forward.
Proof. split; unfold forward; [intros ?|intros ???]; lia. Qed.

Lemma forward_utc_now : preserves forward utc_now.
Proof. intros s. apply tick_forward. Qed.
End Clock.
#[export] Hint Resolve forward_utc_now : preserves.
