(* ===== verification/Contracts.v ===== *)
(** * Discovery contracts: job state machine, scopes, transport order

    [discovery/contracts.py], [discovery/scopes.py] and the lease policy of
    [discovery/leases.py].  The [ipaddress] module enters through the
    interface [IpLibrary]; an IPv4 implementation of it is at the end. *)

From S2P Require Import Prelude Vocabulary Effects.

(** ** Lease policy ([discovery/leases.py]) *)

Definition PROTECTED_DISCOVERY_JOB_ID : UUID := 0xd792bcfffb064428ab53557e0cd6eeb9%N.
Definition DISCOVERY_JOB_LEASE_SECONDS : float := 120%Q.
Definition DISCOVERY_JOB_HEARTBEAT_INTERVAL_SECONDS : float := 30%Q.
Definition DISCOVERY_JOB_POLL_INTERVAL_SECONDS : float := 1%Q.
Definition DISCOVERY_JOB_CLAIM_LIMIT : nat := 8.
Definition LEASE_EXPIRED_MESSAGE : string :=
  "Discovery worker lease expired; execution was not resumed.".
Definition HEARTBEAT_LOST_MESSAGE : string :=
  "Discovery worker heartbeat failed; execution was stopped without resume.".

(** ** The job state machine *)

(** [_ALLOWED_TRANSITIONS]. *)
Definition ALLOWED_TRANSITIONS (current : DiscoveryJobStatus) : list DiscoveryJobStatus :=
  match current with
  | QUEUED => [RUNNING; CANCELLED]
  | RUNNING => [SUCCEEDED; FAILED; TIMED_OUT; CANCELLED]
  | SUCCEEDED | FAILED | TIMED_OUT | CANCELLED => []
  end.

Definition transition_job (current target : DiscoveryJobStatus) : outcome DiscoveryJobStatus :=
  if negb (mem target (ALLOWED_TRANSITIONS current)) then
    raise_ ValueError
      ("Invalid discovery job transition: " +:+ value current +:+ " -> " +:+ value target +:+ ".")
  else Ret target.

(** A sequence of transitions each of which [transition_job] accepts. *)
Inductive lifecycle_run : DiscoveryJobStatus → list DiscoveryJobStatus → Prop :=
  | run_stop s : lifecycle_run s []
  | run_step s t ts : transition_job s t = Ret t → lifecycle_run t ts → lifecycle_run s (t :: ts).

Section Lifecycle.
Lemma transition_job_Ret s t u :
  transition_job s t = Ret u ↔ u = t ∧ t ∈ ALLOWED_TRANSITIONS s.
Proof.
  unfold transition_job. destruct (mem t _) eqn:E; cbn; pybool; naive_solver.
Qed.

Lemma transition_from_terminal s t :
  is_terminal s = true → transition_job s t ≠ Ret t.
Proof. rewrite transition_job_Ret. destruct s, t; set_solver. Qed.

(** Distance to the end of the lifecycle. *)
Definition lifecycle_rank (s : DiscoveryJobStatus) : nat :=
  match s with QUEUED => 2 | RUNNING => 1 | _ => 0 end.

Lemma transition_rank s t :
  transition_job s t = Ret t → (lifecycle_rank t < lifecycle_rank s)%nat.
Proof. rewrite transition_job_Ret. destruct s, t; cbn; set_solver by lia. Qed.

Lemma lifecycle_run_length s ts :
  lifecycle_run s ts → (length ts <= lifecycle_rank s)%nat.
Proof.
  induction 1 as [s|s t ts Ht _ IH]; cbn; [lia|].
  apply transition_rank in Ht. lia.
Qed.
End Lifecycle.

(** ** Scopes *)

(** An address of the [ipaddress] module: its version and its integer. *)
Record ip := Ip { version : Z; ip_int : Z }.

Definition ip_bits (v : Z) : Z := if v ≟ 4 then 32 else 128.

(** The operations of [ipaddress] the scopes use: the address versions (4 and
    6 for the module itself), [ip_address(s)], [str(a)] and
    [ip_network(s, strict=False).hosts()]. *)
Class IpLibrary := {
  ip_versions : list Z;
  ip_address : string → outcome ip;
  ip_str : ip → string;
  ip_network_hosts : string → outcome (list ip);
}.

Definition ip_valid `{IpLibrary} (a : ip) : Prop :=
  version a ∈ ip_versions ∧ 0 <= ip_int a < 2 ^ ip_bits (version a).

(** What the module documents: printing an address and reading it back is the
    identity, every address read is in range, and [hosts()] lists distinct
    addresses. *)
Class IpLibraryLaws `{IpLibrary} := {
  ip_address_str : ∀ a, ip_valid a → ip_address (ip_str a) = Ret a;
  ip_address_valid : ∀ s a, ip_address s = Ret a → ip_valid a;
  ip_network_hosts_valid : ∀ s hs, ip_network_hosts s = Ret hs → Forall ip_valid hs ∧ NoDup hs;
}.

(** [start + offset]. *)
Definition ip_add (a : ip) (offset : Z) : ip := Ip (version a) (ip_int a + offset).

Definition let_ok {A B} (o : outcome A) (k : A → outcome B) : outcome B :=
  match o with Ret a => k a | Raise e => Raise e end.
Notation "'let!' x := o 'in' k" := (let_ok o (λ x, k))
  (at level 200, x name, o at level 100, k at level 200) : py_scope.

Section Scopes.
Context `{IpLibrary}.

(** [validate_scope]. *)
Definition validate_scope (scope_type : DiscoveryScopeType)
    (address scope_end scope_cidr : option string) : outcome unit :=
  match scope_type with
  | SINGLE_DEVICE =>
      match address with
      | Some a =>
          if str_truthy a then let! _ := ip_address a in Ret tt
          else raise_ ValueError "A single-device scope requires an address."
      | None => raise_ ValueError "A single-device scope requires an address."
      end
  | IP_RANGE =>
      match address, scope_end with
      | Some a, Some e =>
          if str_truthy a && str_truthy e then
            let! start := ip_address a in
            let! end_ := ip_address e in
            if negb (version start ≟ version end_) || (ip_int end_ <? ip_int start) then
              raise_ ValueError "IP range boundaries are invalid."
            else Ret tt
          else raise_ ValueError "An IP range requires start and end addresses."
      | _, _ => raise_ ValueError "An IP range requires start and end addresses."
      end
  | CIDR_NETWORK =>
      match scope_cidr with
      | Some c =>
          if str_truthy c then let! _ := ip_network_hosts c in Ret tt
          else raise_ ValueError "A CIDR scope requires a network."
      | None => raise_ ValueError "A CIDR scope requires a network."
      end
  | DEVICE_GROUP | NETBOX_SCOPE =>
      raise_ ValueError "This discovery scope is reserved for a future phase."
  end.

(** [DiscoveryScope]. *)
Record DiscoveryScope := {
  scope_type : DiscoveryScopeType;
  address : option string;
  scope_end : option string;
  scope_cidr : option string;
}.

(** [DiscoveryScope.expand]. *)
Definition expand (self : DiscoveryScope) (max_targets : Z) : outcome (list string) :=
  if max_targets <? 1 then
    raise_ DiscoveryScopeError "Maximum target count must be positive."
  else match scope_type self with
  | SINGLE_DEVICE =>
      match address self with
      | None => raise_ DiscoveryScopeError "Single-device address is required."
      | Some a => let! _ := ip_address a in Ret [a]
      end
  | IP_RANGE =>
      match address self, scope_end self with
      | Some a, Some e =>
          let! start := ip_address a in
          let! end_ := ip_address e in
          if negb (version start ≟ version end_) || (ip_int end_ <? ip_int start) then
            raise_ DiscoveryScopeError "IP range boundaries are invalid."
          else
            let count := ip_int end_ - ip_int start + 1 in
            if max_targets <? count then
              raise_ DiscoveryScopeError "IP range exceeds the target limit."
            else Ret (map (λ offset, ip_str (ip_add start offset)) (seqZ 0 count))
      | _, _ => raise_ DiscoveryScopeError "IP range boundaries are required."
      end
  | CIDR_NETWORK =>
      match scope_cidr self with
      | None => raise_ DiscoveryScopeError "CIDR network is required."
      | Some c =>
          let! hosts := ip_network_hosts c in
          if max_targets <? Z.of_nat (length hosts) then
            raise_ DiscoveryScopeError "CIDR network exceeds the target limit."
          else Ret (map ip_str hosts)
      end
  | DEVICE_GROUP | NETBOX_SCOPE =>
      raise_ DiscoveryScopeError "This discovery scope is not executable yet."
  end.
End Scopes.

(** ** Transport order of one target *)

(** [DiscoveryTransportPolicy]. *)
Record DiscoveryTransportPolicy := {
  preferred : option TransportCapability;
  fallbacks : list TransportCapability;
  allow_insecure_telnet : bool;
}.

(** [DiscoveryTransportPolicy.ordered]. *)
Definition ordered (self : DiscoveryTransportPolicy) : outcome (list TransportCapability) :=
  let configured :=
    match preferred self with None => [] | Some p => [p] end ++ fallbacks self in
  if negb (allow_insecure_telnet self) && mem Transport.TELNET configured then
    raise_ ValueError "Telnet requires explicit insecure-transport approval."
  else Ret (first_occurrences configured).

(** ** Properties *)

(** The job lifecycle is acyclic and exactly its terminal states are
    final: a state accepts some transition iff it is not terminal, and every
    sequence of accepted transitions from [QUEUED] has at most two steps, the
    second of which, if any, leaves [RUNNING] for a terminal state. *)
Theorem lifecycle_terminates_within_two_steps :
  (∀ s, is_terminal s = true ↔ ∀ t, transition_job s t ≠ Ret t) ∧
  ∀ ts, lifecycle_run QUEUED ts →
    ts = [] ∨ ts = [RUNNING] ∨ ts = [CANCELLED] ∨
    ∃ t, ts = [RUNNING; t] ∧ is_terminal t = true.
Proof.
  split.
  - intros s. split; [intros; by apply transition_from_terminal|].
    intros Hn. destruct s; try done.
    + by destruct (Hn RUNNING).
    + by destruct (Hn SUCCEEDED).
  - intros ts Hrun. inversion_clear Hrun as [|? t ts' Ht Hr]; [by left|].
    rewrite transition_job_Ret in Ht. destruct Ht as [_ Ht].
    assert (t = RUNNING ∨ t = CANCELLED) as [-> | ->] by set_solver.
    + inversion_clear Hr as [|? u us Hu Hr']; [auto|].
      assert (is_terminal u = true) as Hterm.
      { rewrite transition_job_Ret in Hu. destruct Hu as [_ Hu]. destruct u; set_solver. }
      inversion_clear Hr' as [|? v vs Hv _]; [naive_solver|].
      by apply transition_from_terminal in Hv.
    + inversion_clear Hr as [|? v vs Hv _]; [auto|].
      by apply transition_from_terminal in Hv.
Qed.

Section ScopeFacts.
Context `{IpLibraryLaws}.

Lemma ip_str_inj a b : ip_valid a → ip_valid b → ip_str a = ip_str b → a = b.
Proof.
  intros Ha Hb Heq. apply ip_address_str in Ha, Hb. rewrite Heq in Ha. congruence.
Qed.

Lemma NoDup_map_ip_str l : Forall ip_valid l → NoDup l → NoDup (map ip_str l).
Proof.
  induction 2 as [|a l Ha Hnd IH]; cbn; [constructor|].
  apply Forall_cons in H1 as [Hva Hvl]. constructor; [|auto].
  intros (b & Heq & Hb)%list_elem_of_fmap. apply Ha.
  rewrite (ip_str_inj a b); try done. by eapply Forall_forall.
Qed.

Lemma ip_range_valid a b n :
  ip_valid a → ip_valid b → version a = version b → ip_int b - ip_int a + 1 = n →
  Forall ip_valid (map (ip_add a) (seqZ 0 n)).
Proof.
  intros [Hv Ha] [_ Hb] Hver Hn. apply Forall_fmap, Forall_forall.
  intros k Hk%elem_of_seqZ. unfold ip_valid; cbn. split; [done|].
  rewrite <-Hver in Hb. lia.
Qed.

Lemma NoDup_ip_range a n : NoDup (map (ip_add a) (seqZ 0 n)).
Proof.
  apply NoDup_fmap_2; [|apply NoDup_seqZ].
  intros x y [= Heq]. lia.
Qed.
End ScopeFacts.

(** Scope expansion is bounded and unambiguous: whatever the scope, when
    [expand] returns, it returns at most [max_targets] addresses, no address
    twice, and each of them reads back as a valid address. *)
Theorem expand_bounded_distinct `{IpLibraryLaws} scope max_targets addresses :
  expand scope max_targets = Ret addresses →
  (Z.of_nat (length addresses) <= max_targets) ∧ NoDup addresses ∧
  Forall (λ s, ∃ a, ip_address s = Ret a ∧ ip_valid a) addresses.
Proof.
  intros Hexp. unfold expand in Hexp.
  destruct (max_targets <? 1) eqn:Hmax; [done|]. apply Z.ltb_ge in Hmax.
  destruct (scope_type scope).
  - destruct (address scope) as [a|]; [|done].
    destruct (ip_address a) as [i|] eqn:Ha; simplify_eq/=.
    split_and!; [lia|apply NoDup_singleton|].
    apply Forall_singleton. eauto using ip_address_valid.
  - destruct (address scope) as [a|], (scope_end scope) as [e|]; try done.
    destruct (ip_address a) as [i|] eqn:Ha; [|done]; cbn in Hexp.
    destruct (ip_address e) as [j|] eqn:He; [|done]; cbn in Hexp.
    destruct (_ || _) eqn:Hbad; [done|]. destruct (_ <? _) eqn:Hcount in Hexp; simplify_eq/=.
    pybool. destruct Hbad as [Hver Hle].
    pose proof (ip_address_valid _ _ Ha) as Hi. pose proof (ip_address_valid _ _ He) as Hj.
    pose proof (ip_range_valid i j _ Hi Hj Hver eq_refl) as Hval.
    rewrite <-(map_map (ip_add i) ip_str). split_and!.
    + rewrite !length_map, length_seqZ. lia.
    + by apply NoDup_map_ip_str, NoDup_ip_range.
    + apply Forall_fmap. eapply Forall_impl; [exact Hval|]. cbn.
      intros k Hk. exists k. eauto using ip_address_str.
  - destruct (scope_cidr scope) as [c|]; [|done].
    destruct (ip_network_hosts c) as [hs|] eqn:Hc; [|done]; cbn in Hexp.
    destruct (_ <? _) eqn:Hcount in Hexp; simplify_eq/=. apply Z.ltb_ge in Hcount.
    apply ip_network_hosts_valid in Hc as [Hval Hnd]. split_and!.
    + by rewrite length_map.
    + by apply NoDup_map_ip_str.
    + apply Forall_fmap. eapply Forall_impl; [exact Hval|]. cbn. eauto using ip_address_str.
  - done.
  - done.
Qed.

(** A transport order is a duplicate-free enumeration of exactly the
    configured transports that starts with the preferred one, and it contains
    Telnet only when the target approved it; without that approval a policy
    that names Telnet is refused. *)
Theorem ordered_transports self :
  let configured := from_option (λ p, [p]) [] (preferred self) ++ fallbacks self in
  match ordered self with
  | Ret ts =>
      NoDup ts ∧ (∀ t, t ∈ ts ↔ t ∈ configured) ∧
      (∀ p, preferred self = Some p → head ts = Some p) ∧
      (Transport.TELNET ∈ ts → allow_insecure_telnet self = true)
  | Raise e =>
      isinstance e ValueError = true ∧ Transport.TELNET ∈ configured ∧
      allow_insecure_telnet self = false
  end.
Proof.
  cbn. unfold ordered.
  replace (from_option _ _ _) with (match preferred self with None => [] | Some p => [p] end)
    by (by destruct (preferred self)).
  set (configured := _ ++ _).
  destruct (negb _ && _) eqn:Hg; cbn; pybool.
  - naive_solver.
  - split_and!.
    + apply NoDup_first_occurrences.
    + intros t. apply elem_of_first_occurrences.
    + intros p Hp. unfold configured. rewrite Hp. cbn [app].
      destruct (first_occurrences_cons p (fallbacks self)) as [l ->]. done.
    + rewrite elem_of_first_occurrences. destruct Hg as [?|?]; [done|tauto].
Qed.
