(* ===== verification/IPv4.v ===== *)
(** * An IPv4 implementation of the [ipaddress] interface

    Dotted-quad parsing and printing as [ipaddress.IPv4Address] does it
    (decimal octets of one to three digits, no leading zero) and the hosts of
    a network in prefix-length form ([strict=False]).  It discharges the laws
    the scope theorems assume and instantiates their witnesses. *)

From S2P Require Import Prelude Vocabulary Effects Contracts.

Definition digit (n : N) : ascii := Ascii.ascii_of_N (48 + n).

Definition octet_str (n : Z) : string :=
  let n := Z.to_N n in
  let d k := String (digit k) EmptyString in
  if (n <? 10)%N then d n
  else if (n <? 100)%N then d (n / 10)%N +:+ d (n mod 10)%N
  else d (n / 100)%N +:+ d (n / 10 mod 10)%N +:+ d (n mod 10)%N.

Definition digit_value (c : ascii) : option Z :=
  let n := Ascii.N_of_ascii c in
  if ((48 <=? n) && (n <=? 57))%N then Some (Z.of_N (n - 48)) else None.

Fixpoint decimal_acc (acc : Z) (s : string) : option Z :=
  match s with
  | EmptyString => Some acc
  | String c s' => match digit_value c with Some d => decimal_acc (10 * acc + d) s' | None => None end
  end.

(** A decimal number of one to [len] digits, without a leading zero, at most [top]. *)
Definition decimal (len : nat) (top : Z) (s : string) : option Z :=
  match s with
  | EmptyString => None
  | String c s' =>
      if (c ≟ "0"%char) && str_truthy s' then None
      else if (len <? String.length s)%nat then None
      else match decimal_acc 0 s with
           | Some n => if n <=? top then Some n else None
           | None => None
           end
  end.

Definition octet : string → option Z := decimal 3 255.

Definition ipv4_of_octets (a b c d : Z) : Z := ((a * 256 + b) * 256 + c) * 256 + d.

Definition ipv4_parse (s : string) : option Z :=
  match str_split "." s with
  | [a; b; c; d] =>
      match octet a, octet b, octet c, octet d with
      | Some a, Some b, Some c, Some d => Some (ipv4_of_octets a b c d)
      | _, _, _, _ => None
      end
  | _ => None
  end.

Definition ipv4_print (n : Z) : string :=
  octet_str (n / 16777216) +:+ String "." (octet_str (n / 65536 mod 256) +:+ String "."
    (octet_str (n / 256 mod 256) +:+ String "." (octet_str (n mod 256)))).

(** [hosts()] of [addr/prefix]: all but the network and broadcast addresses,
    except that a /31 has both its addresses and a /32 its only one. *)
Definition ipv4_hosts (addr prefix : Z) : list ip :=
  let size := 2 ^ (32 - prefix) in
  let network := addr / size * size in
  let range first n := map (λ k, Ip 4 (first + k)) (seqZ 0 n) in
  if prefix ≟ 32 then range network 1
  else if prefix ≟ 31 then range network 2
  else range (network + 1) (size - 2).

Definition ipv4_network_hosts (s : string) : option (list ip) :=
  match str_split "/" s with
  | [a] => n ← ipv4_parse a; Some (ipv4_hosts n 32)
  | [a; p] => n ← ipv4_parse a; k ← decimal 2 32 p; Some (ipv4_hosts n k)
  | _ => None
  end.

#[export] Instance ipv4_library : IpLibrary := {|
  ip_versions := [4];
  ip_address s :=
    match ipv4_parse s with
    | Some n => Ret (Ip 4 n)
    | None => raise_ ValueError (s +:+ " does not appear to be an IPv4 or IPv6 address")
    end;
  ip_str a := ipv4_print (ip_int a);
  ip_network_hosts s :=
    match ipv4_network_hosts s with
    | Some hs => Ret hs
    | None => raise_ ValueError (s +:+ " does not appear to be an IPv4 or IPv6 network")
    end;
|}.

(** ** Laws *)

(** The octet printer, checked on its 256 inputs. *)
Lemma octet_table :
  forallb (λ n, bool_decide (octet (octet_str n) = Some n) && negb (str_mem "." (octet_str n)))
    (seqZ 0 256) = true.
Proof. vm_compute. reflexivity. Qed.

Lemma octet_roundtrip n :
  0 <= n < 256 → octet (octet_str n) = Some n ∧ str_mem "." (octet_str n) = false.
Proof.
  intros Hn. pose proof octet_table as Ht. rewrite forallb_forall in Ht.
  specialize (Ht n). rewrite <-list_elem_of_In, elem_of_seqZ in Ht.
  specialize (Ht ltac:(lia)). rewrite andb_true_iff, bool_decide_eq_true, negb_true_iff in Ht. done.
Qed.

Lemma octets_recompose n :
  ipv4_of_octets (n / 16777216) (n / 65536 mod 256) (n / 256 mod 256) (n mod 256) = n.
Proof.
  unfold ipv4_of_octets.
  pose proof (Z.div_mod n 256). pose proof (Z.div_mod (n / 256) 256).
  pose proof (Z.div_mod (n / 65536) 256).
  assert (n / 65536 = n / 256 / 256) as E1 by (rewrite Z.div_div by lia; reflexivity).
  assert (n / 16777216 = n / 65536 / 256) as E2 by (rewrite Z.div_div by lia; reflexivity).
  rewrite E2, E1 in *. lia.
Qed.

Lemma ipv4_print_parse n : 0 <= n < 2 ^ 32 → ipv4_parse (ipv4_print n) = Some n.
Proof.
  intros Hn. unfold ipv4_parse, ipv4_print.
  assert (0 <= n / 16777216 < 256) as Ha
    by (split; [apply Z.div_pos; lia|apply Z.div_lt_upper_bound; lia]).
  destruct (octet_roundtrip _ Ha) as [Ra Da].
  destruct (octet_roundtrip (n / 65536 mod 256)) as [Rb Db]; [apply Z.mod_pos_bound; lia|].
  destruct (octet_roundtrip (n / 256 mod 256)) as [Rc Dc]; [apply Z.mod_pos_bound; lia|].
  destruct (octet_roundtrip (n mod 256)) as [Rd Dd]; [apply Z.mod_pos_bound; lia|].
  rewrite !str_split_app, (str_split_none _ (octet_str (n mod 256))) by done.
  rewrite Ra, Rb, Rc, Rd. f_equal. apply octets_recompose.
Qed.

Lemma decimal_acc_nonneg acc s n : 0 <= acc → decimal_acc acc s = Some n → 0 <= n.
Proof.
  revert acc. induction s as [|c s IH]; cbn; intros acc Hacc Hs; [by simplify_eq|].
  unfold digit_value in Hs. repeat case_match; simplify_eq. eapply IH, Hs. lia.
Qed.

Lemma decimal_range len top s n : decimal len top s = Some n → 0 <= n <= top.
Proof.
  unfold decimal. destruct s as [|c s]; [done|].
  repeat case_match; intros; simplify_eq.
  match goal with
  | Hd : decimal_acc _ _ = Some _, Hl : (_ <=? _) = true |- _ =>
      apply Z.leb_le in Hl; apply decimal_acc_nonneg in Hd; lia
  end.
Qed.

Lemma ipv4_parse_range s n : ipv4_parse s = Some n → 0 <= n < 2 ^ 32.
Proof.
  unfold ipv4_parse. intros Hs.
  destruct (str_split "." s) as [|a [|b [|c [|d [|]]]]]; try done.
  destruct (octet a) as [na|] eqn:Ha, (octet b) as [nb|] eqn:Hb,
    (octet c) as [nc|] eqn:Hc, (octet d) as [nd|] eqn:Hd; try done.
  apply decimal_range in Ha, Hb, Hc, Hd. simplify_eq. unfold ipv4_of_octets. lia.
Qed.

Lemma ipv4_range_ok first n :
  0 <= first → first + n <= 2 ^ 32 →
  Forall ip_valid (map (λ k, Ip 4 (first + k)) (seqZ 0 n)) ∧
  NoDup (map (λ k, Ip 4 (first + k)) (seqZ 0 n)).
Proof.
  intros Hf Hn. split.
  - apply Forall_fmap, Forall_forall. intros k Hk%elem_of_seqZ.
    split; cbn; [set_solver|]. change (ip_bits 4) with 32. lia.
  - apply NoDup_fmap_2; [|apply NoDup_seqZ]. intros x y [= ?]. lia.
Qed.

Lemma ipv4_hosts_ok addr prefix :
  0 <= addr < 2 ^ 32 → 0 <= prefix <= 32 →
  Forall ip_valid (ipv4_hosts addr prefix) ∧ NoDup (ipv4_hosts addr prefix).
Proof.
  intros Ha Hp. unfold ipv4_hosts.
  assert (2 ^ 32 = 2 ^ prefix * 2 ^ (32 - prefix)) as Hsplit
    by (rewrite <-Z.pow_add_r by lia; f_equal; lia).
  assert (1 <= 2 ^ (32 - prefix)) as Hsize by (apply (Z.pow_le_mono_r 2 0); lia).
  set (size := 2 ^ (32 - prefix)) in *.
  assert (0 <= addr / size * size) as Hlow by (apply Z.mul_nonneg_nonneg; [apply Z.div_pos|]; lia).
  assert (addr / size * size + size <= 2 ^ 32) as Hhigh.
  { assert (addr / size < 2 ^ prefix) by (apply Z.div_lt_upper_bound; lia). nia. }
  destruct (prefix ≟ 32) eqn:E32; [|destruct (prefix ≟ 31) eqn:E31]; pybool.
  - apply ipv4_range_ok; [done|lia].
  - assert (size = 2) as Hs by (unfold size; subst prefix; done).
    apply ipv4_range_ok; [done|lia].
  - apply ipv4_range_ok; lia.
Qed.

#[export] Instance ipv4_laws : IpLibraryLaws.
Proof.
  split.
  - intros [v n] [Hv Hn]. cbn in *. apply list_elem_of_singleton in Hv as ->.
    change (ip_bits 4) with 32 in Hn. by rewrite ipv4_print_parse.
  - intros s a. cbn. destruct (ipv4_parse s) as [n|] eqn:Hs; intros; simplify_eq.
    split; cbn; [set_solver|]. change (ip_bits 4) with 32. by eapply ipv4_parse_range.
  - intros s hs. cbn. destruct (ipv4_network_hosts s) as [l|] eqn:Hs; intros; simplify_eq.
    unfold ipv4_network_hosts in Hs.
    destruct (str_split "/" s) as [|a [|p [|]]]; try done; apply bind_Some in Hs as (n & Hn & Hs);
      apply ipv4_parse_range in Hn.
    + simplify_eq. apply ipv4_hosts_ok; lia.
    + apply bind_Some in Hs as (k & Hk & ?). simplify_eq.
      apply decimal_range in Hk. by apply ipv4_hosts_ok.
Qed.

(** A /29 of six hosts, within the default bound. *)
Definition demo_scope : DiscoveryScope := {|
  scope_type := CIDR_NETWORK; address := None; scope_end := None;
  scope_cidr := Some "10.0.0.8/29"%string |}.

Lemma expand_bounded_distinct_witness :
  match expand demo_scope 4096 with
  | Ret addresses => NoDup addresses ∧ length addresses = 6%nat
  | Raise _ => False
  end.
Proof.
  destruct (expand demo_scope 4096) as [addresses|e] eqn:E; [|vm_compute in E; discriminate].
  destruct (expand_bounded_distinct demo_scope 4096 addresses E) as (_ & Hn & _).
  split; [exact Hn|]. vm_compute in E. injection E as <-. reflexivity.
Defined.
