(* ===== verification/ResultStates.v ===== *)
(** * Classification of discovery outcomes ([discovery/result_states.py]) *)

From S2P Require Import Prelude Vocabulary.
Import ResultState.

(** [DiscoveryResultState.is_reachable] and its siblings. *)
Definition is_reachable (self : DiscoveryResultState) : bool := negb (self ≟ UNREACHABLE).
Definition is_discovered (self : DiscoveryResultState) : bool := self ≟ DISCOVERED.
Definition is_terminal (self : DiscoveryResultState) : bool := true.

(** The outcome indicators of a chain of transport attempts. *)
Record indicators := {
  host_is_reachable : bool;
  has_management_service : bool;
  auth_failed : bool;
  has_partial_data : bool;
  is_fully_discovered : bool;
  transport_unavailable : bool;
}.

(** [DiscoveryResultState.from_failure_and_success]. *)
Definition from_failure_and_success (i : indicators) : DiscoveryResultState :=
  if is_fully_discovered i then DISCOVERED
  else if has_partial_data i then PARTIAL_DISCOVERY
  else if auth_failed i then AUTHENTICATION_FAILED
  else if transport_unavailable i then UNVERIFIED
  else if negb (host_is_reachable i) then UNREACHABLE
  else if negb (has_management_service i) then REACHABLE_NO_MANAGEMENT
  else REACHABLE_NO_MANAGEMENT.

(** The tuple [classify_transport_failure] returns. *)
Record failure_class := {
  fc_reachable : bool;
  fc_auth_failed : bool;
  fc_service_available : bool;
  fc_transport_unavailable : bool;
}.

(** [classify_transport_failure]; a [DiscoveryFailureCode] is a [StrEnum], so
    every code that is not [None] arrives as a string. *)
Definition classify_transport_failure (failure_code : option string) : failure_class :=
  let class r a s u := {| fc_reachable := r; fc_auth_failed := a;
                          fc_service_available := s; fc_transport_unavailable := u |} in
  match failure_code with
  | None => class true false true false
  | Some s =>
      match of_value s with
      | None => class false false false false
      | Some failure_code =>
          if failure_code ≟ FailureCode.AUTHENTICATION_FAILED then
            class true true true false
          else if failure_code ≟ FailureCode.CREDENTIAL_RESOLUTION_FAILED then
            class true false false false
          else if failure_code ≟ FailureCode.UNSUPPORTED_CREDENTIAL then
            class true false true false
          else if failure_code ≟ FailureCode.TRANSPORT_DISABLED then
            class true false false false
          else if failure_code ≟ FailureCode.CONNECTION_REFUSED then
            class true false false false
          else if mem failure_code
              [FailureCode.HOST_UNREACHABLE; FailureCode.CONNECTION_TIMEOUT;
               FailureCode.TIMEOUT; FailureCode.DISCOVERY_TIMEOUT] then
            class false false false false
          else if failure_code ≟ FailureCode.TRANSPORT_UNAVAILABLE then
            class false false false true
          else if mem failure_code
              [FailureCode.DISCOVERY_FAILED; FailureCode.COLLECTOR_FAILED;
               FailureCode.PARSER_FAILED; FailureCode.NORMALIZATION_FAILED;
               FailureCode.EVIDENCE_PERSISTENCE_FAILED;
               FailureCode.SNAPSHOT_PERSISTENCE_FAILED] then
            class true false true false
          else if failure_code ≟ FailureCode.CONNECTION_FAILED then
            class false false false false
          else class true false true false
      end
  end.

(** ** Folding the failures of a chain *)

(** What the orchestrator's loop accumulates over failed attempts. *)
Definition no_indicator : indicators :=
  {| host_is_reachable := false; has_management_service := false; auth_failed := false;
     has_partial_data := false; is_fully_discovered := false; transport_unavailable := false |}.

Definition note_failure (i : indicators) (code : option string) : indicators :=
  let c := classify_transport_failure code in
  {| host_is_reachable := host_is_reachable i || fc_reachable c;
     has_management_service := has_management_service i || fc_service_available c;
     auth_failed := auth_failed i || fc_auth_failed c;
     has_partial_data := has_partial_data i;
     is_fully_discovered := is_fully_discovered i;
     transport_unavailable := transport_unavailable i || fc_transport_unavailable c |}.

Definition note_success (i : indicators) : indicators :=
  {| host_is_reachable := true; has_management_service := true;
     auth_failed := auth_failed i; has_partial_data := has_partial_data i;
     is_fully_discovered := true; transport_unavailable := transport_unavailable i |}.

Definition note_failures (i : indicators) (codes : list (option string)) : indicators :=
  fold_left note_failure codes i.

(** Whether some failure of the chain has the indicator [f]. *)
Definition any_failure (f : failure_class → bool) (codes : list (option string)) : bool :=
  existsb (λ c, f (classify_transport_failure c)) codes.

Section Notes.
Implicit Types (i : indicators) (codes : list (option string)).

Lemma note_failures_spec i codes :
  let i' := note_failures i codes in
  host_is_reachable i' = host_is_reachable i || any_failure fc_reachable codes ∧
  auth_failed i' = auth_failed i || any_failure fc_auth_failed codes ∧
  transport_unavailable i' = transport_unavailable i || any_failure fc_transport_unavailable codes ∧
  has_partial_data i' = has_partial_data i ∧
  is_fully_discovered i' = is_fully_discovered i.
Proof.
  cbn. revert i. induction codes as [|c codes IH]; intros i; cbn.
  { unfold note_failures. cbn. by rewrite !orb_false_r. }
  destruct (IH (note_failure i c)) as (Hr & Ha & Hu & Hp & Hd).
  unfold note_failures in *. rewrite Hr, Ha, Hu, Hp, Hd. cbn.
  by rewrite !orb_assoc.
Qed.

(** Which codes set which indicator. *)
Lemma classify_auth c :
  fc_auth_failed (classify_transport_failure (Some (value c))) = true ↔
  c = FailureCode.AUTHENTICATION_FAILED.
Proof. unfold classify_transport_failure. rewrite of_value_value. by destruct c. Qed.

Lemma classify_unavailable c :
  fc_transport_unavailable (classify_transport_failure (Some (value c))) = true ↔
  c = FailureCode.TRANSPORT_UNAVAILABLE.
Proof. unfold classify_transport_failure. rewrite of_value_value. by destruct c. Qed.

(** The codes that leave the host unconfirmed. *)
Definition no_contact : list DiscoveryFailureCode :=
  [FailureCode.HOST_UNREACHABLE; FailureCode.CONNECTION_TIMEOUT; FailureCode.TIMEOUT;
   FailureCode.DISCOVERY_TIMEOUT; FailureCode.TRANSPORT_UNAVAILABLE;
   FailureCode.CONNECTION_FAILED].

Lemma classify_reachable c :
  fc_reachable (classify_transport_failure (Some (value c))) = true ↔ c ∉ no_contact.
Proof.
  unfold classify_transport_failure, no_contact. rewrite of_value_value.
  destruct c; vm_compute; split; try done; try (intros _ Hin; set_solver);
    intros Hn; destruct Hn; set_solver.
Qed.
End Notes.

(** ** Properties *)

(** The state reported for a chain of failed attempts is decided by the
    failure codes alone: authentication failures win, then an unavailable
    transport, then absence of any contact; the order of the attempts does
    not matter and success is never reported. *)
Theorem failed_chain_classification (codes : list DiscoveryFailureCode) :
  from_failure_and_success (note_failures no_indicator (map (Some ∘ value) codes)) =
  if decide (FailureCode.AUTHENTICATION_FAILED ∈ codes) then AUTHENTICATION_FAILED
  else if decide (FailureCode.TRANSPORT_UNAVAILABLE ∈ codes) then UNVERIFIED
  else if decide (Forall (.∈ no_contact) codes) then UNREACHABLE
  else REACHABLE_NO_MANAGEMENT.
Proof.
  destruct (note_failures_spec no_indicator (map (Some ∘ value) codes)) as (Hr & Ha & Hu & Hp & Hd).
  unfold from_failure_and_success. rewrite Hr, Ha, Hu, Hp, Hd. cbn [no_indicator
    host_is_reachable auth_failed transport_unavailable has_partial_data is_fully_discovered orb].
  set (any f := any_failure f (map (Some ∘ value) codes)).
  assert (∀ f, any f = true ↔ ∃ c, c ∈ codes ∧ f (classify_transport_failure (Some (value c))) = true)
    as Hany.
  { intros f. unfold any, any_failure. rewrite existsb_exists. split.
    - intros (x & (c & <- & Hc)%in_map_iff & Hf). exists c. by rewrite list_elem_of_In.
    - intros (c & Hc & Hf). exists (Some (value c)).
      by rewrite in_map_iff; split; [exists c; rewrite <-list_elem_of_In|]. }
  fold (any fc_auth_failed) (any fc_transport_unavailable) (any fc_reachable).
  assert (any fc_auth_failed = bool_decide (FailureCode.AUTHENTICATION_FAILED ∈ codes)) as ->.
  { apply eq_true_iff_eq. rewrite Hany, bool_decide_eq_true.
    setoid_rewrite classify_auth. naive_solver. }
  assert (any fc_transport_unavailable = bool_decide (FailureCode.TRANSPORT_UNAVAILABLE ∈ codes)) as ->.
  { apply eq_true_iff_eq. rewrite Hany, bool_decide_eq_true.
    setoid_rewrite classify_unavailable. naive_solver. }
  assert (any fc_reachable = negb (bool_decide (Forall (.∈ no_contact) codes))) as ->.
  { apply eq_true_iff_eq. rewrite Hany, negb_true_iff, bool_decide_eq_false.
    setoid_rewrite classify_reachable. rewrite Forall_forall.
    split; [intros (c & Hc & Hn) Hall; by apply Hn, Hall|].
    intros Hn. destruct (decide (Exists (λ c, c ∉ no_contact) codes)) as [He|He].
    - by apply Exists_exists in He.
    - destruct Hn. intros c Hc. destruct (decide (c ∈ no_contact)); [done|].
      destruct He. apply Exists_exists. eauto. }
  unfold bool_decide. repeat case_decide; cbn; repeat case_match; done.
Qed.
