(* ===== verification/Json.v ===== *)
(** * Python values of JSON shape

    Metadata columns, collector payloads and request capabilities are
    [dict[str, Any]] values that come from or go to a JSON column.  A [dict]
    is an association list in insertion order with distinct keys. *)

From S2P Require Import Prelude.

Inductive json :=
  | JNull
  | JBool (b : bool)
  | JInt (z : Z)
  | JFloat (q : Q)
  | JStr (s : string)
  | JList (l : list json)
  | JDict (d : list (string * json)).

Abbreviation dict := (list (string * json)).

(** Values are compared structurally; two dictionaries with the same items in
    another order are different values here. *)
#[export] Instance Q_eq_dec : EqDecision Q.
Proof. solve_decision. Defined.

Fixpoint json_eq_dec (a b : json) : {a = b} + {a ≠ b}.
Proof.
  refine match a, b with
  | JNull, JNull => left eq_refl
  | JBool x, JBool y => cast_if (decide (x = y))
  | JInt x, JInt y => cast_if (decide (x = y))
  | JFloat x, JFloat y => cast_if (decide (x = y))
  | JStr x, JStr y => cast_if (decide (x = y))
  | JList x, JList y => cast_if (List.list_eq_dec json_eq_dec x y)
  | JDict x, JDict y =>
      cast_if (List.list_eq_dec (λ p q : string * json, @prod_eq_dec _ _ _ json_eq_dec p q) x y)
  | _, _ => right _
  end; congruence.
Defined.
#[export] Instance json_eq_decision : EqDecision json := json_eq_dec.

(** Structural induction that reaches into lists and dicts. *)
Section json_ind.
Variable P : json → Prop.
Hypothesis Pnull : P JNull.
Hypothesis Pbool : ∀ b, P (JBool b).
Hypothesis Pint : ∀ z, P (JInt z).
Hypothesis Pfloat : ∀ q, P (JFloat q).
Hypothesis Pstr : ∀ s, P (JStr s).
Hypothesis Plist : ∀ l, Forall P l → P (JList l).
Hypothesis Pdict : ∀ d, Forall (P ∘ snd) d → P (JDict d).

Fixpoint json_deep_ind (j : json) : P j :=
  match j with
  | JNull => Pnull
  | JBool b => Pbool b
  | JInt z => Pint z
  | JFloat q => Pfloat q
  | JStr s => Pstr s
  | JList l =>
      Plist l ((fix go l : Forall P l :=
        match l with
        | [] => Forall_nil_2 _
        | x :: l' => Forall_cons_2 _ _ _ (json_deep_ind x) (go l')
        end) l)
  | JDict d =>
      Pdict d ((fix go d : Forall (P ∘ snd) d :=
        match d with
        | [] => Forall_nil_2 _
        | (k, x) :: d' => Forall_cons_2 _ (k, x) _ (json_deep_ind x) (go d')
        end) d)
  end.
End json_ind.

(** [d.get(k)]. *)
Fixpoint dict_get (k : string) (d : dict) : option json :=
  match d with
  | [] => None
  | (k', v) :: d' => if k ≟ k' then Some v else dict_get k d'
  end.

Definition dict_has (k : string) (d : dict) : bool := is_not_none (dict_get k d).

(** [d[k] = v]: a present key keeps its position. *)
Fixpoint dict_set (k : string) (v : json) (d : dict) : dict :=
  match d with
  | [] => [(k, v)]
  | (k', v') :: d' => if k ≟ k' then (k', v) :: d' else (k', v') :: dict_set k v d'
  end.

(** [d.setdefault(k, v)]. *)
Definition dict_setdefault (k : string) (v : json) (d : dict) : dict :=
  if dict_has k d then d else dict_set k v d.

(** [d.get(k, v)]. *)
Definition dict_get_default (k : string) (v : json) (d : dict) : json :=
  match dict_get k d with Some x => x | None => v end.

(** [{**d1, **d2}]. *)
Definition dict_merge (d1 d2 : dict) : dict :=
  fold_left (λ d '(k, v), dict_set k v d) d2 d1.

(** [bool(x)]. *)
Definition truthy (j : json) : bool :=
  match j with
  | JNull => false
  | JBool b => b
  | JInt z => negb (z ≟ 0)
  | JFloat q => negb (Qeq_bool q 0)
  | JStr s => str_truthy s
  | JList l => match l with [] => false | _ => true end
  | JDict d => match d with [] => false | _ => true end
  end.

(** [repr(f)] of a float: its shortest decimal text is the interpreter's. *)
Class FloatRepr := float_repr : float → string.

(** [repr(s)] on ASCII: single quotes unless the text has one and no double
    quote; backslashes, the quote and control characters are escaped. *)
Definition double_quote : ascii := Ascii.ascii_of_nat 34.
Definition hex_escape (c : ascii) : string :=
  let n := Ascii.N_of_ascii c in
  "\x" +:+ String (hex_digit (n / 16)) (String (hex_digit (n mod 16)) EmptyString).

Definition repr_char (quote c : ascii) : string :=
  let n := Ascii.N_of_ascii c in
  if (c ≟ quote) || (c ≟ "\"%char) then String "\"%char (String c EmptyString)
  else if (n =? 10)%N then "\n"
  else if (n =? 13)%N then "\r"
  else if (n =? 9)%N then "\t"
  else if (n <? 32)%N || (n =? 127)%N then hex_escape c
  else String c EmptyString.

Fixpoint repr_chars (quote : ascii) (s : string) : string :=
  match s with
  | EmptyString => EmptyString
  | String c s' => repr_char quote c +:+ repr_chars quote s'
  end.

Definition str_repr (s : string) : string :=
  let quote := if str_mem "'"%char s && negb (str_mem double_quote s)
               then double_quote else "'"%char in
  String quote (repr_chars quote s +:+ String quote EmptyString).

Fixpoint py_repr `{FloatRepr} (j : json) : string :=
  match j with
  | JNull => "None"
  | JBool true => "True"
  | JBool false => "False"
  | JInt z => pretty z
  | JFloat q => float_repr q
  | JStr s => str_repr s
  | JList l =>
      "[" +:+ String.concat ", " ((fix go l := match l with
        | [] => []
        | x :: l' => py_repr x :: go l'
        end) l) +:+ "]"
  | JDict d =>
      "{" +:+ String.concat ", " ((fix go (d : list (string * json)) := match d with
        | [] => []
        | (k, x) :: d' => (str_repr k +:+ ": " +:+ py_repr x) :: go d'
        end) d) +:+ "}"
  end.

(** [str(x)]. *)
Definition py_str `{FloatRepr} (j : json) : string :=
  match j with JStr s => s | _ => py_repr j end.

(** A text that may be [None], as a value. *)
Definition opt_str (o : option string) : json := match o with Some s => JStr s | None => JNull end.

(** [x is None] on a value looked up with [.get]. *)
Definition json_none (j : json) : bool := match j with JNull => true | _ => false end.

Section Dict.
Implicit Types (d : dict) (k : string) (v : json).

Lemma dict_get_set k k' v d :
  dict_get k (dict_set k' v d) = if k ≟ k' then Some v else dict_get k d.
Proof.
  induction d as [|[k1 v1] d IH]; cbn; [done|].
  destruct (k' ≟ k1) eqn:E; cbn.
  - rewrite eqb_true in E. subst. by destruct (k ≟ k1).
  - rewrite IH. destruct (k ≟ k1) eqn:E1; [|done].
    rewrite eqb_true in E1. subst. destruct (k1 ≟ k') eqn:E2; [|done].
    rewrite eqb_true in E2. subst. by rewrite eqb_refl in E.
Qed.

Lemma dict_get_set_eq k v d : dict_get k (dict_set k v d) = Some v.
Proof. by rewrite dict_get_set, eqb_refl. Qed.

Lemma dict_get_set_ne k k' v d : k ≠ k' → dict_get k (dict_set k' v d) = dict_get k d.
Proof. intros Hne. rewrite dict_get_set. by apply eqb_false in Hne as ->. Qed.

Lemma dict_get_setdefault k k' v d :
  dict_get k (dict_setdefault k' v d) =
  if k ≟ k' then Some (from_option id v (dict_get k d)) else dict_get k d.
Proof.
  unfold dict_setdefault, dict_has.
  destruct (k ≟ k') eqn:E; [rewrite eqb_true in E; subst|].
  - destruct (dict_get k' d) eqn:Hg; cbn; [done|]. by rewrite dict_get_set_eq.
  - destruct (is_not_none _); [done|]. by rewrite dict_get_set, E.
Qed.
End Dict.
#[export] Hint Rewrite dict_get_set_eq : nop.
