(* ===== verification/Dicts.v ===== *)
(** * Python dictionaries

    A [dict] with keys of any type: an association list in insertion order, in
    which assigning to a present key keeps its position and replaces its value.
    [{k(x): v(x) for x in xs}] is [dict_of], and the laws below say that it
    answers for a key with the last item of that key. *)

From S2P Require Import Prelude.

Section Dict.
Context {K V : Type} `{EqDecision K}.
Implicit Types (d : list (K * V)) (k : K) (v : V).

(** [d.get(k)]. *)
Fixpoint get k d : option V :=
  match d with
  | [] => None
  | (k', v) :: d' => if k' ≟ k then Some v else get k d'
  end.

(** [d[k] = v]. *)
Fixpoint put k v d : list (K * V) :=
  match d with
  | [] => [(k, v)]
  | (k', v') :: d' => if k' ≟ k then (k', v) :: d' else (k', v') :: put k v d'
  end.

(** Assignments in order. *)
Definition put_all (kvs : list (K * V)) d : list (K * V) :=
  fold_left (λ d '(k, v), put k v d) kvs d.

Definition dict_of (kvs : list (K * V)) : list (K * V) := put_all kvs [].

Definition keys d : list K := map fst d.
Definition values d : list V := map snd d.

(** [k in d]. *)
Definition has k d : bool := is_not_none (get k d).

(** The last item of a key. *)
Definition last_of k (kvs : list (K * V)) : option V :=
  snd <$> List.find (λ kv, fst kv ≟ k) (rev kvs).

(** ** Lookup *)

Lemma get_values k v d : get k d = Some v → v ∈ values d.
Proof.
  induction d as [|[k' v'] d IH]; cbn; [done|]. destruct (_ ≟ _).
  - intros [= ->]. set_solver.
  - intros ?%IH. set_solver.
Qed.

Lemma get_put k k' v d : get k (put k' v d) = if k' ≟ k then Some v else get k d.
Proof.
  induction d as [|[k1 v1] d IH]; cbn; [done|].
  destruct (k1 ≟ k') eqn:E1; cbn.
  - rewrite eqb_true in E1. subst k1. by destruct (k' ≟ k).
  - rewrite IH. destruct (k1 ≟ k) eqn:E2; [|done]. rewrite eqb_true in E2. subst k1.
    destruct (k' ≟ k) eqn:E3; [|done]. rewrite eqb_true in E3. subst k'.
    by rewrite eqb_refl in E1.
Qed.

Lemma last_of_snoc k k' v kvs :
  last_of k (kvs ++ [(k', v)]) = if k' ≟ k then Some v else last_of k kvs.
Proof. unfold last_of. rewrite rev_app_distr. cbn. by destruct (k' ≟ k). Qed.

Lemma last_of_cons k k' v kvs :
  last_of k ((k', v) :: kvs) =
  match last_of k kvs with Some w => Some w | None => if k' ≟ k then Some v else None end.
Proof.
  induction kvs as [|[k1 v1] kvs IH] using rev_ind; [unfold last_of; cbn; by destruct (k' ≟ k)|].
  rewrite app_comm_cons, !last_of_snoc. by destruct (k1 ≟ k).
Qed.

Lemma has_put k k' v d : has k (put k' v d) = (k' ≟ k) || has k d.
Proof. unfold has. rewrite get_put. by destruct (k' ≟ k). Qed.

Lemma put_all_snoc k v kvs d : put_all (kvs ++ [(k, v)]) d = put k v (put_all kvs d).
Proof. unfold put_all. by rewrite fold_left_app. Qed.

Lemma dict_of_snoc k v kvs : dict_of (kvs ++ [(k, v)]) = put k v (dict_of kvs).
Proof. apply put_all_snoc. Qed.

Lemma put_all_app kvs1 kvs2 d : put_all (kvs1 ++ kvs2) d = put_all kvs2 (put_all kvs1 d).
Proof. unfold put_all. by rewrite fold_left_app. Qed.

(** A comprehension answers with the last item of the key. *)
Lemma get_dict_of k kvs : get k (dict_of kvs) = last_of k kvs.
Proof.
  induction kvs as [|[k' v] kvs IH] using rev_ind; [done|].
  by rewrite dict_of_snoc, get_put, last_of_snoc, IH.
Qed.

Lemma last_of_Some k v kvs : last_of k kvs = Some v → (k, v) ∈ kvs.
Proof.
  unfold last_of. destruct (List.find _ _) as [[k' v']|] eqn:E; cbn; [|done]. intros [= <-].
  apply List.find_some in E as [E Ek]. rewrite eqb_true in Ek. cbn in Ek. subst k'.
  by apply list_elem_of_In, in_rev.
Qed.

Lemma last_of_None k kvs : last_of k kvs = None ↔ k ∉ keys kvs.
Proof.
  induction kvs as [|[k' v] kvs IH] using rev_ind; [split; [intros _; apply not_elem_of_nil|done]|].
  rewrite last_of_snoc. unfold keys in *. rewrite map_app, elem_of_app. cbn [map fst].
  rewrite list_elem_of_singleton.
  destruct (k' ≟ k) eqn:E; pybool; [|rewrite IH]; naive_solver.
Qed.

(** ** Keys *)

Lemma elem_of_keys_put k k' v d : k ∈ keys (put k' v d) ↔ k = k' ∨ k ∈ keys d.
Proof.
  induction d as [|[k1 v1] d IH]; cbn; [set_solver|].
  destruct (k1 ≟ k') eqn:E; cbn.
  - rewrite eqb_true in E. subst. set_solver.
  - unfold keys in *. set_solver.
Qed.

Lemma NoDup_keys_put k v d : NoDup (keys d) → NoDup (keys (put k v d)).
Proof.
  induction d as [|[k1 v1] d IH]; cbn; intros Hd; [apply NoDup_singleton|].
  apply NoDup_cons in Hd as [Hn Hd]. destruct (k1 ≟ k) eqn:E; cbn.
  - by apply NoDup_cons.
  - apply NoDup_cons. split; [|auto]. fold (keys (put k v d)). rewrite elem_of_keys_put.
    intros [->|?]; [|done]. by rewrite eqb_refl in E.
Qed.

Lemma NoDup_keys_put_all kvs d : NoDup (keys d) → NoDup (keys (put_all kvs d)).
Proof.
  induction kvs as [|[k v] kvs IH] using rev_ind; [done|]. intros Hd.
  rewrite put_all_snoc. auto using NoDup_keys_put.
Qed.

Lemma NoDup_keys_dict_of kvs : NoDup (keys (dict_of kvs)).
Proof. apply NoDup_keys_put_all, NoDup_nil_2. Qed.

Lemma elem_of_keys_dict_of k kvs : k ∈ keys (dict_of kvs) ↔ k ∈ keys kvs.
Proof.
  induction kvs as [|[k' v] kvs IH] using rev_ind; [done|].
  rewrite dict_of_snoc, elem_of_keys_put, IH. unfold keys. rewrite map_app. set_solver.
Qed.

Lemma elem_of_dict k v d : NoDup (keys d) → (k, v) ∈ d ↔ get k d = Some v.
Proof.
  induction d as [|[k1 v1] d IH]; cbn; intros Hd.
  { split; [by intros ?%elem_of_nil|done]. }
  apply NoDup_cons in Hd as [Hn Hd]. rewrite elem_of_cons, IH by done.
  destruct (k1 ≟ k) eqn:E; pybool.
  - subst k1. split; [|intros [= ->]; auto]. intros [[= ->]|Hg]; [done|].
    exfalso. apply Hn. apply IH in Hg; [|done]. apply list_elem_of_fmap. by exists (k, v).
  - split; [|auto]. intros [[= -> ->]|?]; done.
Qed.

Lemma elem_of_dict_of k v kvs : (k, v) ∈ dict_of kvs ↔ last_of k kvs = Some v.
Proof. rewrite elem_of_dict, get_dict_of; [done|apply NoDup_keys_dict_of]. Qed.

Lemma elem_of_values_dict_of v kvs : v ∈ values (dict_of kvs) ↔ ∃ k, last_of k kvs = Some v.
Proof.
  unfold values. rewrite list_elem_of_fmap. split.
  - intros ([k v'] & -> & Hin). exists k. by apply elem_of_dict_of.
  - intros [k Hk]. exists (k, v). by rewrite elem_of_dict_of.
Qed.

Lemma has_dict_of k kvs : has k (dict_of kvs) = true ↔ k ∈ keys kvs.
Proof.
  unfold has, is_not_none. rewrite get_dict_of. destruct (last_of k kvs) eqn:E; cbn.
  - split; [intros _|done]. apply last_of_Some in E. apply list_elem_of_fmap. by exists (k, v).
  - apply last_of_None in E. split; done.
Qed.
End Dict.

#[export] Hint Resolve NoDup_keys_put NoDup_keys_dict_of : nop.

Lemma dict_of_nil {K V} `{EqDecision K} (kvs : list (K * V)) : dict_of kvs = [] ↔ kvs = [].
Proof.
  split; [|by intros ->]. destruct kvs as [|[k v] kvs]; [done|]. intros E. exfalso.
  assert (k ∈ keys (dict_of ((k, v) :: kvs))) as H by (apply elem_of_keys_dict_of; cbn; set_solver).
  rewrite E in H. by apply elem_of_nil in H.
Qed.

(** ** Indexing *)

(** [{f(x): x for x in xs}]. *)
Section Index.
Context {K V : Type} `{EqDecision K} (f : V → K).
Implicit Types (l : list V) (k : K) (x : V).

Definition index_by l : list (K * V) := dict_of (map (λ x, (f x, x)) l).

(** The last element with a key. *)
Definition last_with k l : option V := List.find (λ x, f x ≟ k) (rev l).

Lemma last_with_snoc k l x : last_with k (l ++ [x]) = if f x ≟ k then Some x else last_with k l.
Proof. unfold last_with. by rewrite rev_app_distr. Qed.

Lemma last_of_indexed k l : last_of k (map (λ x, (f x, x)) l) = last_with k l.
Proof.
  induction l as [|x l IH] using rev_ind; [done|].
  rewrite map_app, last_with_snoc. cbn [map]. by rewrite last_of_snoc, IH.
Qed.

Lemma get_index_by k l : get k (index_by l) = last_with k l.
Proof. unfold index_by. by rewrite get_dict_of, last_of_indexed. Qed.

Lemma last_with_Some k l x : last_with k l = Some x → x ∈ l ∧ f x = k.
Proof.
  unfold last_with. intros [E Ek]%List.find_some. rewrite eqb_true in Ek.
  split; [|done]. by apply list_elem_of_In, in_rev.
Qed.

Lemma last_with_None k l : last_with k l = None ↔ ∀ x, x ∈ l → f x ≠ k.
Proof.
  rewrite <-last_of_indexed, last_of_None. unfold keys. rewrite map_map.
  split; intros H.
  - intros x Hx <-. apply H. apply list_elem_of_fmap. eauto.
  - intros (x & -> & Hx)%list_elem_of_fmap. by apply (H x).
Qed.

Lemma last_with_present l x : x ∈ l → ∃ y, last_with (f x) l = Some y.
Proof.
  intros Hx. destruct (last_with (f x) l) as [y|] eqn:E; [eauto|].
  rewrite last_with_None in E. by destruct (E x Hx).
Qed.

Lemma elem_of_index_by k x l : (k, x) ∈ index_by l ↔ last_with k l = Some x.
Proof. unfold index_by. by rewrite elem_of_dict_of, last_of_indexed. Qed.

Lemma index_by_key k x l : (k, x) ∈ index_by l → k = f x.
Proof. by rewrite elem_of_index_by; intros [_ ->]%last_with_Some. Qed.

Lemma elem_of_values_index_by x l : x ∈ values (index_by l) ↔ last_with (f x) l = Some x.
Proof.
  unfold values. rewrite list_elem_of_fmap. split.
  - intros ([k y] & -> & Hin). cbn. pose proof (index_by_key _ _ _ Hin) as ->.
    by apply elem_of_index_by.
  - intros Hx. exists (f x, x). by rewrite elem_of_index_by.
Qed.

Lemma keys_index_by l : map f (values (index_by l)) = keys (index_by l).
Proof.
  unfold keys, values. rewrite map_map. apply list_fmap_ext. intros i [k x] Hx.
  apply list_elem_of_lookup_2, index_by_key in Hx. done.
Qed.

Lemma NoDup_index_by l : NoDup (map f (values (index_by l))).
Proof. rewrite keys_index_by. apply NoDup_keys_dict_of. Qed.

Lemma has_index_by k l : has k (index_by l) = true ↔ ∃ x, x ∈ l ∧ f x = k.
Proof.
  unfold index_by. rewrite has_dict_of. unfold keys. rewrite map_map, list_elem_of_fmap.
  naive_solver.
Qed.

(** Where keys are unique, indexing keeps the list. *)
Lemma last_with_unique l x : NoDup (map f l) → x ∈ l → last_with (f x) l = Some x.
Proof.
  induction l as [|y l IH] using rev_ind; intros Hd Hx; [by apply elem_of_nil in Hx|].
  rewrite last_with_snoc. rewrite map_app in Hd. apply NoDup_app in Hd as (Hd & Hn & _).
  apply elem_of_app in Hx as [Hx|Hx%list_elem_of_singleton].
  - destruct (f y ≟ f x) eqn:E; pybool; [|auto]. exfalso.
    apply (Hn (f x)); [apply list_elem_of_fmap; eauto|]. cbn. rewrite E. by apply list_elem_of_singleton.
  - subst y. by rewrite eqb_refl.
Qed.
End Index.

Lemma first_occurrences_snoc {A} `{EqDecision A} (l : list A) x :
  first_occurrences (l ++ [x]) =
    if mem x l then first_occurrences l else first_occurrences l ++ [x].
Proof.
  unfold first_occurrences at 1. rewrite fold_left_app. cbn [fold_left].
  fold (first_occurrences l).
  destruct (mem x l) eqn:E, (mem x (first_occurrences l)) eqn:E'; pybool;
    rewrite ?elem_of_first_occurrences in *; done.
Qed.

Lemma keys_put {K V} `{EqDecision K} (k : K) (v : V) d :
  keys (put k v d) = if mem k (keys d) then keys d else keys d ++ [k].
Proof.
  induction d as [|[k' v'] d IH]; [|cbn [put]].
  { cbn. by rewrite (proj2 (mem_false k []) (not_elem_of_nil k)). }
  destruct (k' ≟ k) eqn:E; cbn.
  - rewrite eqb_true in E. subst. assert (mem k (k :: map fst d) = true) as -> by (apply mem_true; set_solver). done.
  - fold (keys (put k v d)). rewrite IH. rewrite eqb_false in E. fold (keys d).
    destruct (mem k (keys d)) eqn:Em, (mem k (k' :: keys d)) eqn:Em'; pybool; set_solver.
Qed.

(** ** Grouping *)

Section Group.
Context {K V : Type} `{EqDecision K} (f : V → option K).
Implicit Types (l : list V) (k : K) (x : V) (d : list (K * list V)).

(** [d.setdefault(k, []).append(x)]. *)
Definition append_to k x d : list (K * list V) := put k (from_option id [] (get k d) ++ [x]) d.

(** Appending every element that has a key to the list of its key. *)
Definition group_by l : list (K * list V) :=
  fold_left (λ d x, match f x with Some k => append_to k x d | None => d end) l [].

Lemma group_by_snoc l x :
  group_by (l ++ [x]) =
    match f x with Some k => append_to k x (group_by l) | None => group_by l end.
Proof. unfold group_by. by rewrite fold_left_app. Qed.

(** One group per key, in the order the keys first occur. *)
Lemma keys_group_by l : keys (group_by l) = first_occurrences (omap f l).
Proof.
  induction l as [|x l IH] using rev_ind; [done|].
  rewrite group_by_snoc, omap_app. cbn [omap list_omap].
  destruct (f x) as [k|]; [|by rewrite app_nil_r].
  unfold append_to. rewrite keys_put, first_occurrences_snoc, IH.
  destruct (mem k (first_occurrences _)) eqn:E, (mem k (omap f l)) eqn:E'; pybool;
    rewrite ?elem_of_first_occurrences in *; done.
Qed.

(** A group has the elements of its key, in order. *)
Lemma get_group_by k l :
  get k (group_by l) =
    match List.filter (λ x, bool_decide (f x = Some k)) l with [] => None | g => Some g end.
Proof.
  induction l as [|x l IH] using rev_ind; [done|].
  rewrite group_by_snoc, List.filter_app. cbn [List.filter].
  destruct (f x) as [k'|] eqn:E.
  - unfold append_to. rewrite get_put. destruct (k' ≟ k) eqn:Ek; pybool.
    + subst k'. rewrite IH, bool_decide_eq_true_2 by done. by destruct (List.filter _ l).
    + rewrite IH, bool_decide_eq_false_2 by congruence. by rewrite app_nil_r.
  - rewrite IH, bool_decide_eq_false_2 by done. by rewrite app_nil_r.
Qed.

Lemma elem_of_group_by k g l :
  (k, g) ∈ group_by l ↔ g ≠ [] ∧ g = List.filter (λ x, bool_decide (f x = Some k)) l.
Proof.
  assert (NoDup (keys (group_by l))) as Hd by (rewrite keys_group_by; apply NoDup_first_occurrences).
  rewrite elem_of_dict, get_group_by by done. destruct (List.filter _ l); naive_solver.
Qed.

Lemma append_to_perm k x d :
  flat_map snd (append_to k x d) ≡ₚ flat_map snd d ++ [x].
Proof.
  unfold append_to. induction d as [|[k' g] d IH]; [done|]. cbn [get put].
  destruct (k' ≟ k); cbn [flat_map snd from_option].
  - unfold id. rewrite <-!app_assoc. apply Permutation_app_head, Permutation_app_comm.
  - rewrite <-app_assoc. by apply Permutation_app_head.
Qed.

(** The groups together have every element that has a key, once. *)
Lemma group_by_perm l :
  (∀ x, x ∈ l → is_Some (f x)) → flat_map snd (group_by l) ≡ₚ l.
Proof.
  induction l as [|x l IH] using rev_ind; intros Hl; [done|].
  rewrite group_by_snoc. destruct (Hl x ltac:(set_solver)) as [k ->].
  rewrite append_to_perm, IH; [done|]. intros y Hy. apply Hl. set_solver.
Qed.
End Group.

Lemma omap_Some {A B} (f : A → B) l : omap (λ x, Some (f x)) l = map f l.
Proof. induction l as [|x l IH]; [done|]. cbn. by rewrite IH. Qed.


(** A loop that remembers what it has seen in [seen]. *)
Lemma Forall_not_seen {A K} (f : A → K) k seen l :
  Forall (λ x, f x ∉ k :: seen) l ↔ k ∉ map f l ∧ Forall (λ x, f x ∉ seen) l.
Proof.
  rewrite !Forall_forall. split.
  - intros H. split; [|set_solver]. intros (x & -> & Hin)%list_elem_of_fmap.
    specialize (H x Hin). set_solver.
  - intros [Hn H] x Hin. specialize (H x Hin). rewrite not_elem_of_cons. split; [|done].
    intros <-. apply Hn, list_elem_of_fmap. eauto.
Qed.
