(* ===== verification/Probing.v ===== *)
(** * Service probing ([discovery/probing.py])

    The mapping between transports, services and ports, the probe of one service and of
    hosts, and the combination of the outcomes into a host result.  What a socket does is an
    argument of the definitions; probes that run together run one after the other here. *)

From S2P Require Import Prelude Vocabulary Effects Dicts.

(** [TRANSPORT_PORTS]. *)
Definition TRANSPORT_PORTS (s : TransportService) : option Z :=
  match s with
  | Service.SSH => Some 22
  | Service.TELNET => Some 23
  | Service.HTTP => Some 80
  | Service.HTTPS => Some 443
  | Service.SNMP => Some 161
  end.

(** [CAPABILITY_TO_SERVICE], in the order the table lists its entries. *)
Definition CAPABILITY_TO_SERVICE : list (string * TransportService) :=
  [("SSH", Service.SSH); ("TELNET", Service.TELNET); ("HTTP", Service.HTTP);
   ("HTTPS", Service.HTTPS); ("SNMP", Service.SNMP)]%string.

(** [get_service_for_capability] on a [TransportCapability]. *)
Definition get_service_for_capability (capability : TransportCapability)
    : option TransportService :=
  snd <$> List.find (λ e, fst e ≟ value capability) CAPABILITY_TO_SERVICE.

(** [get_capabilities_from_services]: for each service the first capability
    name mapped to it. *)
Definition get_capabilities_from_services (services : list TransportService)
    : list TransportCapability :=
  omap (λ service,
    e ← List.find (λ e, snd e ≟ service) CAPABILITY_TO_SERVICE;
    of_value (fst e)) services.

(** [ServiceProbeResult]. *)
Record ServiceProbeResult := {
  service : TransportService;
  probe_address : string;
  port : Z;
  is_available : bool;
  response_time_ms : float;
  error_message : option string;
}.

(** [HostProbeResult]; [services] is a [dict] in insertion order. *)
Record HostProbeResult := {
  host_address : string;
  services : list (TransportService * ServiceProbeResult);
  host_reachable : bool;
}.

Definition services_get (s : TransportService) (d : list (TransportService * ServiceProbeResult))
    : option ServiceProbeResult :=
  snd <$> List.find (λ e, fst e ≟ s) d.

Fixpoint services_set (s : TransportService) (r : ServiceProbeResult)
    (d : list (TransportService * ServiceProbeResult)) :=
  match d with
  | [] => [(s, r)]
  | (s', r') :: d' => if s ≟ s' then (s', r) :: d' else (s', r') :: services_set s r d'
  end.

(** [HostProbeResult.get_available_services]. *)
Definition get_available_services (self : HostProbeResult) : list TransportService :=
  map fst (List.filter (λ '(_, result), is_available result) (services self)).

(** [HostProbeResult.is_service_available]. *)
Definition is_service_available (self : HostProbeResult) (s : TransportService) : bool :=
  match services_get s (services self) with
  | Some result => is_available result
  | None => false
  end.

(** The loop of [ServiceProber.probe_host] over the gathered outcomes; a
    probe that raised becomes a failed result. *)
Fixpoint gather_probes (address : string)
    (outcomes : list (TransportService * outcome ServiceProbeResult))
    (acc : list (TransportService * ServiceProbeResult)) (any_reachable : bool)
    : list (TransportService * ServiceProbeResult) * bool :=
  match outcomes with
  | [] => (acc, any_reachable)
  | (s, Raise e) :: rest =>
      let failed_result :=
        {| service := s; probe_address := address;
           port := from_option id 0 (TRANSPORT_PORTS s);
           is_available := false; response_time_ms := 0%Q;
           error_message := Some (exn_str e) |} in
      gather_probes address rest (services_set s failed_result acc) any_reachable
  | (s, Ret r) :: rest =>
      gather_probes address rest (services_set s r acc) (any_reachable || is_available r)
  end.

(** [ServiceProber.probe_host], given the outcome of each service's probe. *)
Definition probe_host (address : string) (wanted : list TransportService)
    (probe : TransportService → outcome ServiceProbeResult) : HostProbeResult :=
  let '(results, any_reachable) :=
    gather_probes address (map (λ s, (s, probe s)) wanted) [] false in
  {| host_address := address; services := results;
     host_reachable := any_reachable || (0 <? Z.of_nat (length results)) |}.

(** ** The probe of one service *)

Section Sockets.
Context {S : Type}.
(** [time.time()], [asyncio.open_connection] with the closing that follows, and
    [loop.sock_sendto] of an empty datagram, within the timeout. *)
Variable time_time : M S float.
Variable open_connection : string → Z → M S unit.
Variable sock_sendto : string → Z → M S unit.

(** [_probe_tcp_service]. *)
Definition probe_tcp_service (address : string) (port : Z) : M S bool :=
  try_except (open_connection address port ;;; ret true) (λ exc,
    if isinstance exc ConnectionRefusedError || isinstance exc OSError then ret false else reraise exc).

(** [_probe_udp_service]. *)
Definition probe_udp_service (address : string) (port : Z) : M S bool :=
  try_except
    (try_except (sock_sendto address port ;;; ret true) (λ exc,
       if isinstance exc TimeoutError then ret false else reraise exc))
    (λ exc, if isinstance exc Exception_ then ret false else reraise exc).

Definition probe_result (s : TransportService) (address : string) (port : Z) (available : bool)
    (ms : float) (message : option string) : ServiceProbeResult := {|
  service := s; probe_address := address; port := port; is_available := available;
  response_time_ms := ms; error_message := message |}.

(** [_probe_single_service]. *)
Definition probe_single_service (address : string) (s : TransportService) : M S ServiceProbeResult :=
  match TRANSPORT_PORTS s with
  | None => ret (probe_result s address 0 false 0%Q (Some ("Unknown service: " +:+ value s)))
  | Some port =>
      start_time <- time_time ;;
      let elapsed_ms := now <- time_time ;; ret ((now - start_time) * 1000)%Q in
      try_except
        (result <- (if s ≟ Service.SNMP then probe_udp_service address port else probe_tcp_service address port) ;;
         ms <- elapsed_ms ;;
         ret (probe_result s address port result ms (if result : bool then None else Some "Service not responding")))
        (λ exc,
          if isinstance exc TimeoutError then
            ms <- elapsed_ms ;; ret (probe_result s address port false ms (Some "Connection timeout"))
          else if isinstance exc Exception_ then
            ms <- elapsed_ms ;; ret (probe_result s address port false ms (Some (exn_str exc)))
          else reraise exc)
  end.

(** [probe_host] with the probes it starts. *)
Definition probe_host_services (address : string) (wanted : list TransportService) : M S HostProbeResult :=
  outcomes <- map_m (λ s, o <- catching (probe_single_service address s) ;; ret (s, o)) wanted ;;
  let '(results, any_reachable) := gather_probes address outcomes [] false in
  ret {| host_address := address; services := results;
         host_reachable := any_reachable || (0 <? Z.of_nat (length results)) |}.

(** [probe_hosts]: a host whose probe raised is left out. *)
Definition probe_hosts (addresses : list string) (wanted : list TransportService)
    : M S (list (string * HostProbeResult)) :=
  items <- map_m (λ address, catching (probe_host_services address wanted)) addresses ;;
  ret (dict_of (omap (λ o, match o with Ret r => Some (host_address r, r) | Raise _ => None end) items)).
End Sockets.

(** ** Facts *)

Lemma services_get_set s s' r d :
  services_get s (services_set s' r d) = if s' ≟ s then Some r else services_get s d.
Proof.
  unfold services_get. induction d as [|[s1 r1] d IH]; cbn.
  { by destruct (s' ≟ s). }
  destruct (s' ≟ s1) eqn:E1; cbn; [rewrite eqb_true in E1; subst; by destruct (s1 ≟ s)|].
  destruct (s1 ≟ s) eqn:E2; [|apply IH].
  rewrite eqb_true in E2. subst. by rewrite E1.
Qed.

(** The last outcome of a service, if it was probed, is what the host result
    holds for it. *)
Lemma gather_probes_get address (wanted : list TransportService) probe acc reach s :
  services_get s (gather_probes address (map (λ s, (s, probe s)) wanted) acc reach).1 =
  if mem s wanted then
    Some match probe s with
         | Ret r => r
         | Raise e =>
             {| service := s; probe_address := address;
                port := from_option id 0 (TRANSPORT_PORTS s);
                is_available := false; response_time_ms := 0%Q;
                error_message := Some (exn_str e) |}
         end
  else services_get s acc.
Proof.
  revert acc reach. induction wanted as [|w wanted IH]; intros acc reach; [done|]; cbn [map].
  assert (mem s (w :: wanted) = (w ≟ s) || mem s wanted) as ->.
  { apply eq_true_iff_eq. pybool. rewrite elem_of_cons. naive_solver. }
  destruct (probe w) as [r|e] eqn:Hw; cbn [gather_probes]; rewrite IH, services_get_set;
    destruct (mem s wanted); cbn [orb]; rewrite ?orb_true_r, ?orb_false_r; try done;
    destruct (w ≟ s) eqn:E; try done; rewrite eqb_true in E; subst; by rewrite Hw.
Qed.

Lemma gather_probes_reachable address outcomes acc reach :
  (gather_probes address outcomes acc reach).2 =
  reach || existsb (λ o, match snd o with Ret r => is_available r | Raise _ => false end) outcomes.
Proof.
  revert acc reach. induction outcomes as [|[s [r|e]] outcomes IH]; intros acc reach; cbn.
  - by rewrite orb_false_r.
  - rewrite IH. by rewrite orb_assoc.
  - apply IH.
Qed.

(** ** Properties *)

(** A host probe reports for every requested service exactly that
    service's own outcome (a raising probe as unavailable) and lists as
    available exactly the requested services whose probe succeeded; the host
    counts as reachable as soon as one service was requested, even when every
    probe failed. *)
Theorem probe_host_result address wanted probe :
  let r := probe_host address wanted probe in
  (∀ s, is_service_available r s =
        mem s wanted && match probe s with Ret p => is_available p | Raise _ => false end) ∧
  host_reachable r = negb (bool_decide (wanted = [])).
Proof.
  cbn. unfold probe_host.
  destruct (gather_probes _ _ _ _) as [results reach] eqn:Hg. split.
  - intros s. unfold is_service_available; cbn.
    pose proof (gather_probes_get address wanted probe [] false s) as Hs.
    rewrite Hg in Hs. cbn in Hs. rewrite Hs.
    destruct (mem s wanted); [|done]. by destruct (probe s).
  - cbn. destruct wanted as [|w wanted].
    + cbn in Hg. by simplify_eq.
    + pose proof (gather_probes_get address (w :: wanted) probe [] false w) as Hs.
      rewrite Hg in Hs. cbn [fst] in Hs.
      assert (mem w (w :: wanted) = true) as Hw by (pybool; set_solver).
      rewrite Hw in Hs. destruct results as [|x results]; [done|].
      cbn [length]. rewrite bool_decide_false by done.
      rewrite (proj2 (Z.ltb_lt 0 _)) by lia. apply orb_true_r.
Qed.

(** The probe of one service ends with a result, whatever exception the socket raises; the
    service is available exactly when the socket did not raise.  A connection that times out
    is reported as one that does not respond: the timeout is an [OSError]. *)
Lemma probe_single_service_result {S} (time_time : M S float) open_connection sock_sendto address s port st :
  TRANSPORT_PORTS s = Some port →
  (∀ st, ∃ now st', time_time st = (Ret now, st')) →
  (∀ a p st e st', open_connection a p st = (Raise e, st') → isinstance e OSError = true) →
  (∀ a p st e st', sock_sendto a p st = (Raise e, st') → isinstance e Exception_ = true) →
  ∃ start st0, time_time st = (Ret start, st0) ∧
  let o := (if s ≟ Service.SNMP then sock_sendto address port st0 else open_connection address port st0).1 in
  ∃ ms st', probe_single_service time_time open_connection sock_sendto address s st =
    (Ret (probe_result s address port (is_ret o) ms (if is_ret o then None else Some "Service not responding")), st').
Proof.
  intros Hport Htime Htcp Hudp. unfold probe_single_service. rewrite Hport.
  destruct (Htime st) as (start & st0 & E0). exists start, st0. split; [done|].
  rewrite (bind_Ret _ _ _ _ _ E0). cbv zeta.
  assert (∃ st1, (if s ≟ Service.SNMP then probe_udp_service sock_sendto address port
                  else probe_tcp_service open_connection address port) st0 =
    (Ret (is_ret (if s ≟ Service.SNMP then sock_sendto address port st0 else open_connection address port st0).1), st1))
    as [st1 E1].
  { destruct (s ≟ Service.SNMP).
    - unfold probe_udp_service, try_except, bind. destruct (sock_sendto address port st0) as [[u|e] st1] eqn:E; [by eexists|].
      cbn -[isinstance]. destruct (isinstance e TimeoutError) eqn:Et; [by eexists|].
      cbn -[isinstance]. rewrite (Hudp _ _ _ _ _ E). by eexists.
    - unfold probe_tcp_service, try_except, bind. destruct (open_connection address port st0) as [[u|e] st1] eqn:E; [by eexists|].
      cbn -[isinstance]. rewrite (Htcp _ _ _ _ _ E), orb_true_r. by eexists. }
  unfold try_except. erewrite bind_Ret by exact E1.
  destruct (Htime st1) as (now & st2 & E2). unfold bind. rewrite E2. cbn -[is_ret]. by eexists _, _.
Qed.

Example timeout_is_no_timeout :
  let refuse (_ : string) (_ : Z) : M unit unit := raise TimeoutError "timed out" in
  error_message <$> (match (probe_single_service (ret 0%Q) refuse refuse "10.0.0.1" Service.SSH tt).1 with
                     | Ret r => Some r | Raise _ => None end) = Some (Some "Service not responding").
Proof. reflexivity. Qed.
