(* ===== verification/Records.v ===== *)
(** * Rows of the discovery tables ([persistence/models.py])

    One record per table with the columns in declaration order, and one
    functional update [set_c] per column that the code writes.  Each table
    lives in a module of its own because they share column names. *)

From S2P Require Import Prelude Json.

(** [DiscoveryTargetRecord]: mutable tenant-owned target configuration. *)
Module Target.
Record DiscoveryTargetRecord := {
  id : UUID;
  tenant_id : string;
  identifier : string;
  address : string;
  scope_type : string;
  scope_end : option string;
  scope_cidr : option string;
  vendor : option string;
  hostname : option string;
  platform_hint : option string;
  preferred_transport : option string;
  enabled : bool;
  credential_reference : string;
  credential_profile_id : option string;
  credential_references : dict;
  allowed_fallback_transports : list string;
  allow_insecure_telnet : bool;
  allow_insecure_http : bool;
  metadata_json : dict;
  created_by : option UUID;
  created_at : datetime;
  updated_at : datetime;
}.

Definition eta (r : DiscoveryTargetRecord) : DiscoveryTargetRecord := {|
  id := id r;
  tenant_id := tenant_id r;
  identifier := identifier r;
  address := address r;
  scope_type := scope_type r;
  scope_end := scope_end r;
  scope_cidr := scope_cidr r;
  vendor := vendor r;
  hostname := hostname r;
  platform_hint := platform_hint r;
  preferred_transport := preferred_transport r;
  enabled := enabled r;
  credential_reference := credential_reference r;
  credential_profile_id := credential_profile_id r;
  credential_references := credential_references r;
  allowed_fallback_transports := allowed_fallback_transports r;
  allow_insecure_telnet := allow_insecure_telnet r;
  allow_insecure_http := allow_insecure_http r;
  metadata_json := metadata_json r;
  created_by := created_by r;
  created_at := created_at r;
  updated_at := updated_at r;
|}.

Definition set_vendor (v : option string) (r : DiscoveryTargetRecord) : DiscoveryTargetRecord := ltac:(record_with eta vendor r v).
Definition set_hostname (v : option string) (r : DiscoveryTargetRecord) : DiscoveryTargetRecord := ltac:(record_with eta hostname r v).
Definition set_platform_hint (v : option string) (r : DiscoveryTargetRecord) : DiscoveryTargetRecord := ltac:(record_with eta platform_hint r v).
Definition set_preferred_transport (v : option string) (r : DiscoveryTargetRecord) : DiscoveryTargetRecord := ltac:(record_with eta preferred_transport r v).
Definition set_enabled (v : bool) (r : DiscoveryTargetRecord) : DiscoveryTargetRecord := ltac:(record_with eta enabled r v).
Definition set_credential_reference (v : string) (r : DiscoveryTargetRecord) : DiscoveryTargetRecord := ltac:(record_with eta credential_reference r v).
Definition set_credential_profile_id (v : option string) (r : DiscoveryTargetRecord) : DiscoveryTargetRecord := ltac:(record_with eta credential_profile_id r v).
Definition set_credential_references (v : dict) (r : DiscoveryTargetRecord) : DiscoveryTargetRecord := ltac:(record_with eta credential_references r v).
Definition set_allowed_fallback_transports (v : list string) (r : DiscoveryTargetRecord) : DiscoveryTargetRecord := ltac:(record_with eta allowed_fallback_transports r v).
Definition set_allow_insecure_telnet (v : bool) (r : DiscoveryTargetRecord) : DiscoveryTargetRecord := ltac:(record_with eta allow_insecure_telnet r v).
Definition set_metadata_json (v : dict) (r : DiscoveryTargetRecord) : DiscoveryTargetRecord := ltac:(record_with eta metadata_json r v).
Definition set_identifier (v : string) (r : DiscoveryTargetRecord) : DiscoveryTargetRecord := ltac:(record_with eta identifier r v).
Definition set_address (v : string) (r : DiscoveryTargetRecord) : DiscoveryTargetRecord := ltac:(record_with eta address r v).
Definition set_scope_type (v : string) (r : DiscoveryTargetRecord) : DiscoveryTargetRecord := ltac:(record_with eta scope_type r v).
Definition set_scope_end (v : option string) (r : DiscoveryTargetRecord) : DiscoveryTargetRecord := ltac:(record_with eta scope_end r v).
Definition set_scope_cidr (v : option string) (r : DiscoveryTargetRecord) : DiscoveryTargetRecord := ltac:(record_with eta scope_cidr r v).
Definition set_allow_insecure_http (v : bool) (r : DiscoveryTargetRecord) : DiscoveryTargetRecord := ltac:(record_with eta allow_insecure_http r v).
Definition set_updated_at (v : datetime) (r : DiscoveryTargetRecord) : DiscoveryTargetRecord := ltac:(record_with eta updated_at r v).
End Target.

(** [CredentialProfileRecord]: secret-free credential profile metadata. *)
Module Profile.
Record CredentialProfileRecord := {
  id : UUID;
  tenant_id : string;
  name : string;
  description : option string;
  vendor : option string;
  platform : option string;
  credential_type : option string;
  username : option string;
  (* [None] is the JSON null, which the column admits *)
  transport_types : option (list string);
  provider_reference : string;
  secret_status : string;
  enabled : bool;
  created_at : datetime;
  updated_at : datetime;
}.

Definition eta (r : CredentialProfileRecord) : CredentialProfileRecord := {|
  id := id r;
  tenant_id := tenant_id r;
  name := name r;
  description := description r;
  vendor := vendor r;
  platform := platform r;
  credential_type := credential_type r;
  username := username r;
  transport_types := transport_types r;
  provider_reference := provider_reference r;
  secret_status := secret_status r;
  enabled := enabled r;
  created_at := created_at r;
  updated_at := updated_at r;
|}.

Definition set_name (v : string) (r : CredentialProfileRecord) : CredentialProfileRecord := ltac:(record_with eta name r v).
Definition set_description (v : option string) (r : CredentialProfileRecord) : CredentialProfileRecord := ltac:(record_with eta description r v).
Definition set_vendor (v : option string) (r : CredentialProfileRecord) : CredentialProfileRecord := ltac:(record_with eta vendor r v).
Definition set_platform (v : option string) (r : CredentialProfileRecord) : CredentialProfileRecord := ltac:(record_with eta platform r v).
Definition set_credential_type (v : option string) (r : CredentialProfileRecord) : CredentialProfileRecord := ltac:(record_with eta credential_type r v).
Definition set_username (v : option string) (r : CredentialProfileRecord) : CredentialProfileRecord := ltac:(record_with eta username r v).
Definition set_transport_types (v : option (list string)) (r : CredentialProfileRecord) : CredentialProfileRecord := ltac:(record_with eta transport_types r v).
Definition set_provider_reference (v : string) (r : CredentialProfileRecord) : CredentialProfileRecord := ltac:(record_with eta provider_reference r v).
Definition set_secret_status (v : string) (r : CredentialProfileRecord) : CredentialProfileRecord := ltac:(record_with eta secret_status r v).
Definition set_enabled (v : bool) (r : CredentialProfileRecord) : CredentialProfileRecord := ltac:(record_with eta enabled r v).
Definition set_updated_at (v : datetime) (r : CredentialProfileRecord) : CredentialProfileRecord := ltac:(record_with eta updated_at r v).
End Profile.

(** [DiscoveryRunRecord]: one discovery run and its summary counters. *)
Module Run.
Record DiscoveryRunRecord := {
  id : UUID;
  created_at : datetime;
  target_identifier : string;
  target_address : option string;
  tenant_id : option string;
  status : string;
  started_at : datetime;
  finished_at : option datetime;
  metadata_json : dict;
  total_scanned : option Z;
  total_discovered : option Z;
  total_unreachable : option Z;
  total_reachable_no_management : option Z;
  total_authentication_failed : option Z;
  total_partial_discovery : option Z;
  total_unverified : option Z;
}.

Definition eta (r : DiscoveryRunRecord) : DiscoveryRunRecord := {|
  id := id r;
  created_at := created_at r;
  target_identifier := target_identifier r;
  target_address := target_address r;
  tenant_id := tenant_id r;
  status := status r;
  started_at := started_at r;
  finished_at := finished_at r;
  metadata_json := metadata_json r;
  total_scanned := total_scanned r;
  total_discovered := total_discovered r;
  total_unreachable := total_unreachable r;
  total_reachable_no_management := total_reachable_no_management r;
  total_authentication_failed := total_authentication_failed r;
  total_partial_discovery := total_partial_discovery r;
  total_unverified := total_unverified r;
|}.

Definition set_status (v : string) (r : DiscoveryRunRecord) : DiscoveryRunRecord := ltac:(record_with eta status r v).
Definition set_finished_at (v : option datetime) (r : DiscoveryRunRecord) : DiscoveryRunRecord := ltac:(record_with eta finished_at r v).
Definition set_metadata_json (v : dict) (r : DiscoveryRunRecord) : DiscoveryRunRecord := ltac:(record_with eta metadata_json r v).
Definition set_total_scanned (v : option Z) (r : DiscoveryRunRecord) : DiscoveryRunRecord := ltac:(record_with eta total_scanned r v).
Definition set_total_discovered (v : option Z) (r : DiscoveryRunRecord) : DiscoveryRunRecord := ltac:(record_with eta total_discovered r v).
Definition set_total_unreachable (v : option Z) (r : DiscoveryRunRecord) : DiscoveryRunRecord := ltac:(record_with eta total_unreachable r v).
Definition set_total_reachable_no_management (v : option Z) (r : DiscoveryRunRecord) : DiscoveryRunRecord := ltac:(record_with eta total_reachable_no_management r v).
Definition set_total_authentication_failed (v : option Z) (r : DiscoveryRunRecord) : DiscoveryRunRecord := ltac:(record_with eta total_authentication_failed r v).
Definition set_total_partial_discovery (v : option Z) (r : DiscoveryRunRecord) : DiscoveryRunRecord := ltac:(record_with eta total_partial_discovery r v).
Definition set_total_unverified (v : option Z) (r : DiscoveryRunRecord) : DiscoveryRunRecord := ltac:(record_with eta total_unverified r v).
End Run.

(** [DiscoveryJobRecord]: durable lifecycle record of one discovery execution. *)
Module Job.
Record DiscoveryJobRecord := {
  id : UUID;
  tenant_id : string;
  target_id : UUID;
  run_id : UUID;
  parent_job_id : option UUID;
  runtime_job_id : option UUID;
  state : string;
  failure_code : option string;
  failure_message : option string;
  requested_at : datetime;
  started_at : option datetime;
  completed_at : option datetime;
  created_by : option UUID;
  updated_at : datetime;
  requested_capabilities : dict;
  selected_transport : option string;
  selected_platform : option string;
  attempts : Z;
  timeout_seconds : option float;
  correlation_id : option string;
  cancellation_requested_at : option datetime;
  cancellation_requested_by : option UUID;
  cancellation_reason : option string;
  execution_owner : option UUID;
  lease_expires_at : option datetime;
  last_heartbeat_at : option datetime;
}.

Definition eta (r : DiscoveryJobRecord) : DiscoveryJobRecord := {|
  id := id r;
  tenant_id := tenant_id r;
  target_id := target_id r;
  run_id := run_id r;
  parent_job_id := parent_job_id r;
  runtime_job_id := runtime_job_id r;
  state := state r;
  failure_code := failure_code r;
  failure_message := failure_message r;
  requested_at := requested_at r;
  started_at := started_at r;
  completed_at := completed_at r;
  created_by := created_by r;
  updated_at := updated_at r;
  requested_capabilities := requested_capabilities r;
  selected_transport := selected_transport r;
  selected_platform := selected_platform r;
  attempts := attempts r;
  timeout_seconds := timeout_seconds r;
  correlation_id := correlation_id r;
  cancellation_requested_at := cancellation_requested_at r;
  cancellation_requested_by := cancellation_requested_by r;
  cancellation_reason := cancellation_reason r;
  execution_owner := execution_owner r;
  lease_expires_at := lease_expires_at r;
  last_heartbeat_at := last_heartbeat_at r;
|}.

Definition set_state (v : string) (r : DiscoveryJobRecord) : DiscoveryJobRecord := ltac:(record_with eta state r v).
Definition set_failure_code (v : option string) (r : DiscoveryJobRecord) : DiscoveryJobRecord := ltac:(record_with eta failure_code r v).
Definition set_failure_message (v : option string) (r : DiscoveryJobRecord) : DiscoveryJobRecord := ltac:(record_with eta failure_message r v).
Definition set_started_at (v : option datetime) (r : DiscoveryJobRecord) : DiscoveryJobRecord := ltac:(record_with eta started_at r v).
Definition set_completed_at (v : option datetime) (r : DiscoveryJobRecord) : DiscoveryJobRecord := ltac:(record_with eta completed_at r v).
Definition set_updated_at (v : datetime) (r : DiscoveryJobRecord) : DiscoveryJobRecord := ltac:(record_with eta updated_at r v).
Definition set_selected_transport (v : option string) (r : DiscoveryJobRecord) : DiscoveryJobRecord := ltac:(record_with eta selected_transport r v).
Definition set_selected_platform (v : option string) (r : DiscoveryJobRecord) : DiscoveryJobRecord := ltac:(record_with eta selected_platform r v).
Definition set_attempts (v : Z) (r : DiscoveryJobRecord) : DiscoveryJobRecord := ltac:(record_with eta attempts r v).
Definition set_cancellation_requested_at (v : option datetime) (r : DiscoveryJobRecord) : DiscoveryJobRecord := ltac:(record_with eta cancellation_requested_at r v).
Definition set_cancellation_requested_by (v : option UUID) (r : DiscoveryJobRecord) : DiscoveryJobRecord := ltac:(record_with eta cancellation_requested_by r v).
Definition set_cancellation_reason (v : option string) (r : DiscoveryJobRecord) : DiscoveryJobRecord := ltac:(record_with eta cancellation_reason r v).
Definition set_execution_owner (v : option UUID) (r : DiscoveryJobRecord) : DiscoveryJobRecord := ltac:(record_with eta execution_owner r v).
Definition set_lease_expires_at (v : option datetime) (r : DiscoveryJobRecord) : DiscoveryJobRecord := ltac:(record_with eta lease_expires_at r v).
Definition set_last_heartbeat_at (v : option datetime) (r : DiscoveryJobRecord) : DiscoveryJobRecord := ltac:(record_with eta last_heartbeat_at r v).
End Job.

(** [DiscoveryDeviceResultRecord]: durable per-device outcome within a discovery job. *)
Module DeviceResult.
Record DiscoveryDeviceResultRecord := {
  id : UUID;
  tenant_id : string;
  discovery_job_id : UUID;
  child_job_id : UUID;
  address : string;
  hostname : option string;
  vendor : option string;
  platform : option string;
  state : string;
  result_state : option string;
  selected_transport : option string;
  failure_code : option string;
  failure_message : option string;
  started_at : option datetime;
  completed_at : option datetime;
  correlation_id : option string;
}.

Definition eta (r : DiscoveryDeviceResultRecord) : DiscoveryDeviceResultRecord := {|
  id := id r;
  tenant_id := tenant_id r;
  discovery_job_id := discovery_job_id r;
  child_job_id := child_job_id r;
  address := address r;
  hostname := hostname r;
  vendor := vendor r;
  platform := platform r;
  state := state r;
  result_state := result_state r;
  selected_transport := selected_transport r;
  failure_code := failure_code r;
  failure_message := failure_message r;
  started_at := started_at r;
  completed_at := completed_at r;
  correlation_id := correlation_id r;
|}.

Definition set_address (v : string) (r : DiscoveryDeviceResultRecord) : DiscoveryDeviceResultRecord := ltac:(record_with eta address r v).
Definition set_hostname (v : option string) (r : DiscoveryDeviceResultRecord) : DiscoveryDeviceResultRecord := ltac:(record_with eta hostname r v).
Definition set_vendor (v : option string) (r : DiscoveryDeviceResultRecord) : DiscoveryDeviceResultRecord := ltac:(record_with eta vendor r v).
Definition set_platform (v : option string) (r : DiscoveryDeviceResultRecord) : DiscoveryDeviceResultRecord := ltac:(record_with eta platform r v).
Definition set_state (v : string) (r : DiscoveryDeviceResultRecord) : DiscoveryDeviceResultRecord := ltac:(record_with eta state r v).
Definition set_result_state (v : option string) (r : DiscoveryDeviceResultRecord) : DiscoveryDeviceResultRecord := ltac:(record_with eta result_state r v).
Definition set_selected_transport (v : option string) (r : DiscoveryDeviceResultRecord) : DiscoveryDeviceResultRecord := ltac:(record_with eta selected_transport r v).
Definition set_failure_code (v : option string) (r : DiscoveryDeviceResultRecord) : DiscoveryDeviceResultRecord := ltac:(record_with eta failure_code r v).
Definition set_failure_message (v : option string) (r : DiscoveryDeviceResultRecord) : DiscoveryDeviceResultRecord := ltac:(record_with eta failure_message r v).
Definition set_started_at (v : option datetime) (r : DiscoveryDeviceResultRecord) : DiscoveryDeviceResultRecord := ltac:(record_with eta started_at r v).
Definition set_completed_at (v : option datetime) (r : DiscoveryDeviceResultRecord) : DiscoveryDeviceResultRecord := ltac:(record_with eta completed_at r v).
End DeviceResult.

(** [DiscoveryTransportAttemptRecord]: secret-free record of one transport attempt. *)
Module Attempt.
Record DiscoveryTransportAttemptRecord := {
  id : UUID;
  tenant_id : string;
  device_result_id : UUID;
  transport : string;
  attempt_order : Z;
  result : string;
  failure_code : option string;
  failure_message : option string;
  duration_ms : option Z;
  started_at : datetime;
  completed_at : option datetime;
  correlation_id : option string;
}.

Definition eta (r : DiscoveryTransportAttemptRecord) : DiscoveryTransportAttemptRecord := {|
  id := id r;
  tenant_id := tenant_id r;
  device_result_id := device_result_id r;
  transport := transport r;
  attempt_order := attempt_order r;
  result := result r;
  failure_code := failure_code r;
  failure_message := failure_message r;
  duration_ms := duration_ms r;
  started_at := started_at r;
  completed_at := completed_at r;
  correlation_id := correlation_id r;
|}.

Definition set_result (v : string) (r : DiscoveryTransportAttemptRecord) : DiscoveryTransportAttemptRecord := ltac:(record_with eta result r v).
Definition set_failure_code (v : option string) (r : DiscoveryTransportAttemptRecord) : DiscoveryTransportAttemptRecord := ltac:(record_with eta failure_code r v).
Definition set_failure_message (v : option string) (r : DiscoveryTransportAttemptRecord) : DiscoveryTransportAttemptRecord := ltac:(record_with eta failure_message r v).
Definition set_duration_ms (v : option Z) (r : DiscoveryTransportAttemptRecord) : DiscoveryTransportAttemptRecord := ltac:(record_with eta duration_ms r v).
Definition set_completed_at (v : option datetime) (r : DiscoveryTransportAttemptRecord) : DiscoveryTransportAttemptRecord := ltac:(record_with eta completed_at r v).
End Attempt.

(** [DiscoveryEvidenceRecord]: immutable raw discovery evidence. *)
Module Evidence.
Record DiscoveryEvidenceRecord := {
  id : UUID;
  created_at : datetime;
  tenant_id : string;
  job_id : UUID;
  target_id : UUID;
  run_id : UUID;
  evidence_type : string;
  source : string;
  observed_at : datetime;
  payload : dict;
  payload_hash : string;
  collector : string;
  collector_version : option string;
  command_or_probe : string;
  sequence : Z;
  parser_version : option string;
  normalization_version : option string;
}.
End Evidence.

