(* ===== verification/TransportPolicy.v ===== *)
(** * Multi-transport policies ([discovery/transport_policy.py])

    The transport chain a credential profile authorises, and the resolution
    of the effective chain of a target
    ([DiscoveryExecutionService._resolve_transport_policy]). *)

From S2P Require Import Prelude Vocabulary Effects Json Records.
Import Transport.

(** [CAPABILITY_TO_SERVICE] of this module; [ICMP] has no entry. *)
Definition CAPABILITY_TO_SERVICE (c : TransportCapability) : option TransportService :=
  match c with
  | SSH => Some Service.SSH
  | TELNET => Some Service.TELNET
  | HTTP => Some Service.HTTP
  | HTTPS => Some Service.HTTPS
  | SNMP => Some Service.SNMP
  | ICMP => None
  end.

Definition INSECURE_TRANSPORTS : list TransportCapability := [TELNET; HTTP].

Definition DEFAULT_TRANSPORT_PRIORITY : list TransportCapability :=
  [SSH; TELNET; HTTPS; HTTP; SNMP].

(** [CREDENTIAL_TYPE_COMPATIBILITY.get(t, [])]. *)
Definition CREDENTIAL_TYPE_COMPATIBILITY (credential_type : string) : list string :=
  if credential_type ≟ "ssh_password" then ["ssh"; "telnet"; "http"; "https"]
  else if credential_type ≟ "ssh_key" then ["ssh"]
  else if credential_type ≟ "telnet_password" then ["telnet"]
  else if credential_type ≟ "snmp_v2c" then ["snmp"]
  else if credential_type ≟ "snmp_v3" then ["snmp"]
  else if credential_type ≟ "http_basic" then ["http"; "https"]
  else if credential_type ≟ "http_token" then ["http"; "https"]
  else [].

(** [TransportPolicyEntry]. *)
Record TransportPolicyEntry := {
  capability : TransportCapability;
  transport_name : string;
  service : TransportService;
  is_insecure : bool;
  credential_compatible : bool;
}.

(** [MultiTransportPolicy]. *)
Record MultiTransportPolicy := {
  transports : list TransportPolicyEntry;
  allow_insecure : bool;
  allow_insecure_http : bool;
  credential_profile_id : option UUID;
}.

(** The text of a list of plain names. *)
Definition names_repr (names : list string) : string :=
  "[" +:+ String.concat ", " (map (λ n, "'" +:+ n +:+ "'") names) +:+ "]".

(** The filter of [MultiTransportPolicy.__post_init__]. *)
Definition insecure_in_policy (self : MultiTransportPolicy) : list TransportPolicyEntry :=
  List.filter (λ t,
    is_insecure t &&
    ((capability t ≟ TELNET) && negb (allow_insecure self)
     || (capability t ≟ HTTP) && negb (allow_insecure_http self))) (transports self).

(** [MultiTransportPolicy(...)]: construction validates. *)
Definition post_init (self : MultiTransportPolicy) : outcome MultiTransportPolicy :=
  if negb (allow_insecure self) || negb (allow_insecure_http self) then
    match insecure_in_policy self with
    | [] => Ret self
    | bad =>
        raise_ ValueError
          ("Insecure transports require explicit allow_insecure=True: " +:+
           names_repr (map transport_name bad))
    end
  else Ret self.

Definition transport_names (self : MultiTransportPolicy) : list string :=
  map transport_name (transports self).

Definition has_insecure_transport (self : MultiTransportPolicy) : bool :=
  existsb is_insecure (transports self).

Definition is_empty (self : MultiTransportPolicy) : bool :=
  (length (transports self) =? 0)%nat.

(** [get_compatible_transports]. *)
Definition get_compatible_transports (self : MultiTransportPolicy)
    (credential_type : option string) : list TransportPolicyEntry :=
  match credential_type with
  | None => transports self
  | Some ct =>
      if negb (str_truthy ct) then transports self
      else List.filter (λ t, mem (transport_name t) (CREDENTIAL_TYPE_COMPATIBILITY ct))
             (transports self)
  end.

(** [credential_compatible] of one transport under a credential type. *)
Definition compatible_with (credential_type : option string) (name : string) : bool :=
  match credential_type with
  | None => true
  | Some ct =>
      if str_truthy ct then mem name (CREDENTIAL_TYPE_COMPATIBILITY ct) else true
  end.

(** One turn of the loop of [from_credential_profile] over the transport
    names: the entry appended, if any. *)
Definition profile_entry (credential_type : option string)
    (allow_insecure allow_insecure_http : bool) (name : string) : option TransportPolicyEntry :=
  let transport_lower := str_lower name in
  match of_value (str_upper name) with
  | None => None
  | Some capability =>
      match CAPABILITY_TO_SERVICE capability with
      | None => None
      | Some service =>
          let is_insecure := mem capability INSECURE_TRANSPORTS in
          if (capability ≟ TELNET) && negb allow_insecure
             || (capability ≟ HTTP) && negb allow_insecure_http
          then None
          else Some {| capability := capability; transport_name := transport_lower;
                       service := service; is_insecure := is_insecure;
                       credential_compatible := compatible_with credential_type transport_lower |}
      end
  end.

(** The duplicate removal that follows: the first entry of each name. *)
Fixpoint unique_transports (seen : list string) (ts : list TransportPolicyEntry)
    : list TransportPolicyEntry :=
  match ts with
  | [] => []
  | t :: ts' =>
      if mem (transport_name t) seen then unique_transports seen ts'
      else t :: unique_transports (transport_name t :: seen) ts'
  end.

(** [MultiTransportPolicy.from_credential_profile]; a persisted profile always
    has an id. *)
Definition from_credential_profile (profile : Profile.CredentialProfileRecord)
    (allow_insecure allow_insecure_http : bool) : outcome MultiTransportPolicy :=
  let transport_types :=
    match from_option id [] (Profile.transport_types profile) with [] => ["ssh"%string] | ts => ts end in
  let entries :=
    omap (profile_entry (Profile.credential_type profile) allow_insecure allow_insecure_http)
      transport_types in
  post_init {|
    transports := unique_transports [] entries;
    allow_insecure := allow_insecure;
    allow_insecure_http := allow_insecure_http;
    credential_profile_id := Some (Profile.id profile);
  |}.

(** ** The effective policy of a target *)

(** [DiscoveryTargetRecordView]. *)
Record DiscoveryTargetRecordView := {
  view_id : UUID;
  view_tenant_id : string;
  view_identifier : string;
  view_address : string;
  view_enabled : bool;
  view_metadata : dict;
}.

(** [ordered.remove(x); ordered.insert(0, x)]. *)
Fixpoint remove_first (x : string) (l : list string) : list string :=
  match l with
  | [] => []
  | y :: l' => if x ≟ y then l' else y :: remove_first x l'
  end.

Definition move_to_front (x : string) (l : list string) : list string := x :: remove_first x l.

Section Resolve.
Context `{FloatRepr}.
(** [self.credential_profiles.get(tenant_id=..., profile_id=...)]. *)
Variable get_profile : string → UUID → option Profile.CredentialProfileRecord.

(** The profile named by the target's metadata, if it exists. *)
Definition target_profile (view : DiscoveryTargetRecordView)
    : option Profile.CredentialProfileRecord :=
  let raw := dict_get_default "credential_profile_id" JNull (view_metadata view) in
  if truthy raw then
    match parse_uuid (py_str raw) with
    | Some u => get_profile (view_tenant_id view) u
    | None => None
    end
  else None.

(** The names the profile contributes, before the target's fallbacks. *)
Definition profile_names (profile : option Profile.CredentialProfileRecord)
    (allow_insecure allow_insecure_http : bool) : outcome (list string) :=
  match profile with
  | None => Ret ["ssh"%string]
  | Some p =>
      match from_credential_profile p allow_insecure allow_insecure_http with
      | Raise e => Raise e
      | Ret policy =>
          match transports policy with
          | [] => Ret ["ssh"%string]
          | ts =>
              match map transport_name (List.filter (λ t,
                  negb (is_insecure t)
                  || (capability t ≟ TELNET) && allow_insecure
                  || (capability t ≟ HTTP) && allow_insecure_http) ts) with
              | [] => Ret ["ssh"%string]
              | names => Ret names
              end
          end
      end
  end.

(** The loop over the target's fallback transports. *)
Definition add_fallback (profile : option Profile.CredentialProfileRecord)
    (allow_insecure allow_insecure_http : bool) (names : list string) (t : json) : list string :=
  let name := str_lower (py_str t) in
  let supported := from_option (λ p, map str_lower (from_option id [] (Profile.transport_types p))) [] profile in
  if is_not_none profile && negb (mem name supported) then names
  else if mem name names then names
  else if (name ≟ "telnet") && negb allow_insecure then names
  else if (name ≟ "http") && negb allow_insecure_http then names
  else names ++ [name].

(** One turn of the final loop over the ordered names. *)
Definition resolved_entry (credential_type : option string) (allow_insecure : bool)
    (tname : string) : option TransportPolicyEntry :=
  match of_value (str_upper tname) with
  | None => None
  | Some cap =>
      match CAPABILITY_TO_SERVICE cap with
      | None => None
      | Some svc =>
          let is_insecure := mem cap INSECURE_TRANSPORTS in
          if is_insecure && negb allow_insecure then None
          else Some {| capability := cap; transport_name := str_lower tname; service := svc;
                       is_insecure := is_insecure;
                       credential_compatible := compatible_with credential_type (str_lower tname) |}
      end
  end.

(** [DiscoveryExecutionService._resolve_transport_policy]. *)
Definition resolve_transport_policy (view : DiscoveryTargetRecordView)
    : outcome MultiTransportPolicy :=
  let md := view_metadata view in
  let allow_insecure := truthy (dict_get_default "allow_insecure_telnet" (JBool false) md) in
  let allow_insecure_http := truthy (dict_get_default "allow_insecure_http" (JBool false) md) in
  let profile := target_profile view in
  match profile_names profile allow_insecure allow_insecure_http with
  | Raise e => Raise e
  | Ret names =>
      let fallback :=
        match dict_get_default "allowed_fallback_transports" JNull md with
        | JList l => l
        | _ => []
        end in
      let names := fold_left (add_fallback profile allow_insecure allow_insecure_http)
                     fallback names in
      let ordered := first_occurrences names in
      let ordered :=
        match dict_get_default "transport_name" JNull md with
        | JStr preferred =>
            if mem (str_lower preferred) ordered
            then move_to_front (str_lower preferred) ordered else ordered
        | _ => ordered
        end in
      let credential_type := p ← profile; Profile.credential_type p in
      post_init {|
        transports := omap (resolved_entry credential_type allow_insecure) ordered;
        allow_insecure := allow_insecure;
        allow_insecure_http := allow_insecure_http;
        credential_profile_id := Profile.id <$> profile;
      |}
  end.
End Resolve.

(** ** Lemmas *)

Section Policy.
Implicit Types (p : Profile.CredentialProfileRecord) (t : TransportPolicyEntry).

(** An entry that respects the two opt-ins. *)
Definition opted_in (telnet http : bool) t : Prop :=
  (capability t = TELNET → telnet = true) ∧ (capability t = HTTP → http = true).

Lemma profile_entry_spec ct a h name t :
  profile_entry ct a h name = Some t →
  transport_name t = str_lower name ∧ of_value (str_upper name) = Some (capability t) ∧
  is_insecure t = mem (capability t) INSECURE_TRANSPORTS ∧ opted_in a h t.
Proof.
  unfold profile_entry, opted_in. intros Ht. repeat case_match; simplify_eq/=. split_and!; try done.
  all: intros ->; destruct a, h; done.
Qed.

Lemma unique_transports_subset seen ts t : t ∈ unique_transports seen ts → t ∈ ts.
Proof.
  revert seen. induction ts as [|u ts IH]; intros seen; cbn; [done|].
  destruct (mem _ seen); rewrite !elem_of_cons; naive_solver.
Qed.

Lemma unique_transports_fresh seen ts t :
  t ∈ unique_transports seen ts → transport_name t ∉ seen.
Proof.
  revert seen. induction ts as [|u ts IH]; intros seen; cbn; [by rewrite elem_of_nil|].
  destruct (mem _ seen) eqn:E; [apply IH|]. pybool.
  rewrite elem_of_cons. intros [->|Ht]; [done|]. apply IH in Ht. set_solver.
Qed.

Lemma unique_transports_NoDup seen ts :
  NoDup (map transport_name (unique_transports seen ts)).
Proof.
  revert seen. induction ts as [|u ts IH]; intros seen; cbn; [constructor|].
  destruct (mem _ seen); [apply IH|]. cbn. constructor; [|apply IH].
  intros (t & Heq & Ht)%list_elem_of_fmap. apply unique_transports_fresh in Ht. set_solver.
Qed.

Lemma post_init_opted_in self :
  Forall (opted_in (allow_insecure self) (allow_insecure_http self)) (transports self) →
  post_init self = Ret self.
Proof.
  intros Hall. unfold post_init. destruct (negb _ || negb _); [|done].
  replace (insecure_in_policy self) with (@nil TransportPolicyEntry); [done|].
  unfold insecure_in_policy. induction Hall as [|t ts [Ht Hh] _ IH]; cbn; [done|].
  rewrite <-IH. destruct (_ && _) eqn:E; [|done].
  rewrite !andb_true_iff, orb_true_iff, !andb_true_iff, !eqb_true, !negb_true_iff in E.
  destruct E as [_ [[Ec Ea]|[Ec Ea]]]; [rewrite (Ht Ec) in Ea|rewrite (Hh Ec) in Ea]; done.
Qed.

Lemma from_credential_profile_Ret p a h :
  ∃ policy, from_credential_profile p a h = Ret policy ∧
    NoDup (transport_names policy) ∧
    ∀ t, t ∈ transports policy →
      opted_in a h t ∧ is_insecure t = mem (capability t) INSECURE_TRANSPORTS ∧
      ∃ name, transport_name t = str_lower name ∧
        of_value (str_upper name) = Some (capability t) ∧
        name ∈ match from_option id [] (Profile.transport_types p) with [] => ["ssh"%string] | ts => ts end.
Proof.
  unfold from_credential_profile.
  set (types := match from_option id [] (Profile.transport_types p) with [] => _ | _ => _ end).
  set (entries := omap _ _).
  assert (∀ t, t ∈ unique_transports [] entries →
    ∃ name, name ∈ types ∧ profile_entry (Profile.credential_type p) a h name = Some t) as Hin.
  { intros t Ht%unique_transports_subset. by apply list_elem_of_omap in Ht. }
  rewrite post_init_opted_in; cbn.
  - eexists. split; [done|]. cbn. split; [apply unique_transports_NoDup|].
    intros t (name & Hn & Ht)%Hin. apply profile_entry_spec in Ht. naive_solver.
  - apply Forall_forall. intros t (name & _ & Ht)%Hin. apply profile_entry_spec in Ht. naive_solver.
Qed.
End Policy.

(** Whatever a credential profile lists, its policy is well-formed: the
    construction never raises, no transport appears twice, every transport
    was listed by the profile (or is the SSH default of an empty list), and
    Telnet or plain HTTP appear only under their own opt-in. *)
Theorem credential_profile_policy_safe p allow_telnet allow_http :
  ∃ policy, from_credential_profile p allow_telnet allow_http = Ret policy ∧
    NoDup (transport_names policy) ∧
    ∀ t, t ∈ transports policy →
      (capability t = TELNET → allow_telnet = true) ∧
      (capability t = HTTP → allow_http = true) ∧
      ∃ name, transport_name t = str_lower name ∧
        name ∈ match from_option id [] (Profile.transport_types p) with [] => ["ssh"%string] | ts => ts end.
Proof.
  destruct (from_credential_profile_Ret p allow_telnet allow_http) as (policy & Hp & Hnd & Ht).
  exists policy. split; [done|]. split; [done|].
  intros t ([Htel Hhttp] & _ & name & Hn & _ & Hin)%Ht. naive_solver.
Qed.

(** ** The resolved policy *)

Section Resolved.
Context `{FloatRepr}.
Variable get_profile : string → UUID → option Profile.CredentialProfileRecord.

(** What the resolution maintains of every name in its lists. *)
Definition name_ok (telnet http : bool) (name : string) : Prop :=
  str_lower name = name ∧ (name = "telnet"%string → telnet = true) ∧
  (name = "http"%string → http = true).

Lemma ssh_ok a h : name_ok a h "ssh".
Proof. by split_and!. Qed.

Lemma entry_name_ok a h t name :
  transport_name t = str_lower name → of_value (str_upper name) = Some (capability t) →
  opted_in a h t → name_ok a h (transport_name t).
Proof.
  intros -> Hcap [Ht Hh]. rewrite <-str_upper_lower in Hcap. split_and!.
  - apply str_lower_idem.
  - intros Heq. rewrite Heq in Hcap. change (Some TELNET = Some (capability t)) in Hcap.
    apply Ht. congruence.
  - intros Heq. rewrite Heq in Hcap. change (Some HTTP = Some (capability t)) in Hcap.
    apply Hh. congruence.
Qed.

Lemma profile_names_ok profile a h :
  ∃ names, profile_names profile a h = Ret names ∧ Forall (name_ok a h) names.
Proof.
  assert (Forall (name_ok a h) ["ssh"%string]) as Hssh by (apply Forall_singleton, ssh_ok).
  destruct profile as [p|]; cbn; [|eauto].
  destruct (from_credential_profile_Ret p a h) as (policy & -> & _ & Hall).
  destruct (transports policy) as [|t ts]; [eauto|].
  assert (∀ f, Forall (name_ok a h) (map transport_name (List.filter f (t :: ts)))) as Hnames.
  { intros f. apply Forall_fmap, Forall_forall. intros u Hu.
    rewrite list_elem_of_In, filter_In, <-list_elem_of_In in Hu.
    destruct Hu as [Hu _]. destruct (Hall u Hu) as (? & _ & name & ? & ? & _).
    cbn. by eapply entry_name_ok. }
  match goal with
  | |- context [List.filter ?f ts] => specialize (Hnames f)
  end.
  cbn [List.filter] in Hnames. destruct (map _ _) as [|n ns]; eauto.
Qed.

Lemma add_fallback_ok profile a h names t :
  Forall (name_ok a h) names → Forall (name_ok a h) (add_fallback profile a h names t).
Proof.
  intros Hn. unfold add_fallback. set (name := str_lower (py_str t)).
  destruct (_ && negb _); [done|]. destruct (mem name names); [done|].
  destruct ((name ≟ "telnet") && _) eqn:Et; [done|].
  destruct ((name ≟ "http") && _) eqn:Eh; [done|].
  apply Forall_app. split; [done|]. apply Forall_singleton. split_and!.
  - apply str_lower_idem.
  - intros Heq. rewrite Heq, eqb_refl in Et. by destruct a.
  - intros Heq. rewrite Heq, eqb_refl in Eh. by destruct h.
Qed.

Lemma fallbacks_ok profile a h fallback names :
  Forall (name_ok a h) names →
  Forall (name_ok a h) (fold_left (add_fallback profile a h) fallback names).
Proof.
  revert names. induction fallback as [|t fallback IH]; cbn; [done|].
  intros names Hn. by apply IH, add_fallback_ok.
Qed.

Lemma move_to_front_Permutation x l : x ∈ l → move_to_front x l ≡ₚ l.
Proof.
  unfold move_to_front. induction l as [|y l IH]; [by rewrite elem_of_nil|]; cbn.
  rewrite elem_of_cons. destruct (x ≟ y) eqn:E; pybool; [by subst|].
  intros [?|Hx]; [done|]. rewrite Permutation_swap. by rewrite IH.
Qed.

Lemma map_str_lower_ok a h l : Forall (name_ok a h) l → map str_lower l = l.
Proof. induction 1 as [|x l [Hx _] _ IH]; cbn; [done|]. by rewrite Hx, IH. Qed.

Lemma resolved_entry_spec ct a tname t :
  resolved_entry ct a tname = Some t →
  transport_name t = str_lower tname ∧ of_value (str_upper tname) = Some (capability t) ∧
  (mem (capability t) INSECURE_TRANSPORTS = true → a = true).
Proof.
  unfold resolved_entry. intros Ht. repeat case_match; simplify_eq/=.
  split_and!; [done|done|]. intros Hm. by destruct a; [|rewrite Hm in *].
Qed.

Lemma resolved_opted_in ct a h ordered t :
  Forall (name_ok a h) ordered → t ∈ omap (resolved_entry ct a) ordered →
  (capability t = TELNET → a = true) ∧ (capability t = HTTP → a = true ∧ h = true).
Proof.
  intros Hok (tname & Hin & Ht)%list_elem_of_omap.
  apply resolved_entry_spec in Ht as (_ & Hcap & Hins).
  rewrite Forall_forall in Hok. destruct (Hok _ Hin) as (Hlow & _ & Hhttp).
  split; intros Hc; rewrite Hc in *; [by apply Hins|]. split; [by apply Hins|].
  apply Hhttp. apply of_value_Some in Hcap.
  rewrite <-Hlow, <-str_lower_upper, Hcap. done.
Qed.
End Resolved.

(** Policy resolution is total and safe for every target and credential
    profile: it never raises, the chain has no duplicate transport, Telnet is
    in it only if the target opted in to Telnet, and plain HTTP only if the
    target opted in to both HTTP and Telnet (the HTTP opt-in alone is not
    enough: the last loop tests the Telnet flag for every insecure
    transport). *)
Theorem resolve_transport_policy_safe `{FloatRepr} get_profile view :
  let flag k := truthy (dict_get_default k (JBool false) (view_metadata view)) in
  ∃ policy, resolve_transport_policy get_profile view = Ret policy ∧
    NoDup (transport_names policy) ∧
    ∀ t, t ∈ transports policy →
      (capability t = TELNET → flag "allow_insecure_telnet"%string = true) ∧
      (capability t = HTTP →
        flag "allow_insecure_telnet"%string = true ∧ flag "allow_insecure_http"%string = true).
Proof.
  cbn. unfold resolve_transport_policy.
  set (a := truthy (dict_get_default "allow_insecure_telnet" _ _)).
  set (h := truthy (dict_get_default "allow_insecure_http" _ _)).
  set (profile := target_profile _ _).
  destruct (profile_names_ok profile a h) as (names & -> & Hok).
  set (all := fold_left (add_fallback profile a h) _ names).
  assert (Forall (name_ok a h) all) as Hall_ok by (by apply fallbacks_ok). clearbody all.
  set (ordered := match dict_get_default "transport_name" _ _ with JStr _ => _ | _ => _ end).
  assert (Forall (name_ok a h) ordered ∧ NoDup ordered) as [Hall Hnd].
  { assert (Forall (name_ok a h) (first_occurrences all) ∧ NoDup (first_occurrences all)) as Hfirst.
    { split; [|apply NoDup_first_occurrences]. rewrite Forall_forall in Hall_ok |- *.
      intros x Hx. apply Hall_ok. by rewrite elem_of_first_occurrences in Hx. }
    unfold ordered. destruct (dict_get_default "transport_name" _ _); try done.
    destruct (mem _ _) eqn:Em; [|done]. pybool.
    by rewrite (move_to_front_Permutation _ _ Em). }
  clearbody ordered.
  rewrite post_init_opted_in; cbn.
  - eexists. split; [done|]. split.
    + apply (NoDup_omap_fmap _ _ str_lower).
      * intros tname t Ht. apply resolved_entry_spec in Ht. naive_solver.
      * by rewrite (map_str_lower_ok a h ordered Hall).
    + intros t Ht. by eapply resolved_opted_in.
  - apply Forall_forall. intros t Ht. unfold opted_in.
    pose proof (resolved_opted_in _ _ _ _ _ Hall Ht). naive_solver.
Qed.
