(* ===== verification/Session.v ===== *)
(** * Database sessions

    The state every repository and service of the discovery component works
    on: the tables as the current transaction sees them, the committed tables
    a rollback returns to, and the sources of time and identifiers.

    The statements are SQL's: a [SELECT] reads the transaction's view, an
    [UPDATE ... WHERE ... RETURNING id] changes every row that satisfies its
    condition and locks it until the transaction ends, [commit] publishes the
    view and [rollback] discards it.  Another transaction can commit between
    a read and the conditional update that follows it; the code's guards
    exist for those windows, and [concurrent_commit] marks them.  What the other
    transactions do there is part of the initial state ([interference]), and
    it cannot touch the rows the current transaction has locked. *)

From S2P Require Import Prelude Json Effects Records.

Abbreviation jobs_table := (gmap UUID Job.DiscoveryJobRecord).

Record DB := {
  targets : gmap UUID Target.DiscoveryTargetRecord;
  profiles : gmap UUID Profile.CredentialProfileRecord;
  runs : gmap UUID Run.DiscoveryRunRecord;
  jobs : jobs_table;
  device_results : gmap UUID DeviceResult.DiscoveryDeviceResultRecord;
  attempts : gmap UUID Attempt.DiscoveryTransportAttemptRecord;
  evidence : gmap UUID Evidence.DiscoveryEvidenceRecord;
}.

Definition eta_db (d : DB) : DB := {|
  targets := targets d; profiles := profiles d; runs := runs d; jobs := jobs d;
  device_results := device_results d; attempts := attempts d; evidence := evidence d |}.

Definition set_targets v (d : DB) : DB := ltac:(record_with eta_db targets d v).
Definition set_profiles v (d : DB) : DB := ltac:(record_with eta_db profiles d v).
Definition set_runs v (d : DB) : DB := ltac:(record_with eta_db runs d v).
Definition set_jobs v (d : DB) : DB := ltac:(record_with eta_db jobs d v).
Definition set_device_results v (d : DB) : DB := ltac:(record_with eta_db device_results d v).
Definition set_attempts v (d : DB) : DB := ltac:(record_with eta_db attempts d v).
Definition set_evidence v (d : DB) : DB := ltac:(record_with eta_db evidence d v).

Record Session := {
  view : DB;
  committed : DB;
  locked : gset UUID;
  interference : list (jobs_table → jobs_table);
  clock : nat → datetime;
  ticks : nat;
  uuids : nat → UUID;
  drawn : nat;
}.

Definition eta_session (s : Session) : Session := {|
  view := view s; committed := committed s; locked := locked s;
  interference := interference s; clock := clock s; ticks := ticks s;
  uuids := uuids s; drawn := drawn s |}.

Definition set_view v (s : Session) : Session := ltac:(record_with eta_session view s v).
Definition set_committed v (s : Session) : Session := ltac:(record_with eta_session committed s v).
Definition set_locked v (s : Session) : Session := ltac:(record_with eta_session locked s v).
Definition set_interference v (s : Session) : Session := ltac:(record_with eta_session interference s v).
Definition set_ticks v (s : Session) : Session := ltac:(record_with eta_session ticks s v).
Definition set_drawn v (s : Session) : Session := ltac:(record_with eta_session drawn s v).

Abbreviation DbM := (M Session).

(** ** Time and identifiers *)

(** [datetime.now(UTC)]: successive readings of the clock. *)
Definition utc_now : DbM datetime := λ s,
  (Ret (clock s (ticks s)), set_ticks (S (ticks s)) s).

(** [uuid4()]. *)
Definition uuid4 : DbM UUID := λ s,
  (Ret (uuids s (drawn s)), set_drawn (S (drawn s)) s).

(** ** Transactions *)

Definition commit : DbM unit := modify (λ s, set_locked ∅ (set_committed (view s) s)).
Definition rollback : DbM unit := modify (λ s, set_locked ∅ (set_view (committed s) s)).

(** The rows of [mine] that are locked and the rows of [theirs] that are not. *)
Definition keep_locked (l : gset UUID) (mine theirs : jobs_table) : jobs_table :=
  filter (λ kv, kv.1 ∈ l) mine ∪ filter (λ kv, kv.1 ∉ l) theirs.

(** The active states of the partial unique index
    [uq_discovery_jobs_active_tenant_target]. *)
Definition is_active (j : Job.DiscoveryJobRecord) : bool :=
  mem (Job.state j) ["queued"; "running"]%string.

Definition active_for (tenant_id : string) (target_id : UUID) (j : Job.DiscoveryJobRecord) : bool :=
  (Job.tenant_id j ≟ tenant_id) && (Job.target_id j ≟ target_id) && is_active j.

(** The index: no two active rows share a tenant and a target. *)
Definition index_holds (t : jobs_table) : bool :=
  forallb (λ a, forallb (λ b,
    negb (is_active a.2 && active_for (Job.tenant_id a.2) (Job.target_id a.2) b.2)
    || (a.1 ≟ b.1)) (map_to_list t)) (map_to_list t).

(** Other transactions commit [f] to the rows that are not locked; one that
    violates the unique index fails and leaves the tables as they were. *)
Definition other_commits (f : jobs_table → jobs_table) (s : Session) : Session :=
  let theirs := f (jobs (committed s)) in
  let view' := keep_locked (locked s) (jobs (view s)) theirs in
  let committed' := keep_locked (locked s) (jobs (committed s)) theirs in
  if index_holds view' && index_holds committed' then
    set_view (set_jobs view' (view s)) (set_committed (set_jobs committed' (committed s)) s)
  else s.

(** A window between a read and the guarded write that follows it. *)
Definition concurrent_commit : DbM unit := λ s,
  match interference s with
  | [] => (Ret tt, s)
  | f :: fs => (Ret tt, other_commits f (set_interference fs s))
  end.

(** ** Statements *)

Definition query {A} (f : DB → A) : DbM A := gets (λ s, f (view s)).
Definition on_view (f : DB → DB) : DbM unit := modify (λ s, set_view (f (view s)) s).

Definition rows {A} (t : gmap UUID A) : list A := map snd (map_to_list t).

(** The rows of [t] that satisfy [where_], with [values] applied. *)
Definition update_rows {A} (where_ : A → bool) (values : A → A) (t : gmap UUID A) : gmap UUID A :=
  (λ r, if where_ r then values r else r) <$> t.

(** The ids of the rows that satisfy [where_]. *)
Definition matching {A} (where_ : A → bool) (t : gmap UUID A) : list UUID :=
  map fst (List.filter (λ kv, where_ kv.2) (map_to_list t)).

(** [UPDATE discovery_jobs SET values WHERE where_ RETURNING id]. *)
Definition update_jobs (where_ : Job.DiscoveryJobRecord → bool)
    (values : Job.DiscoveryJobRecord → Job.DiscoveryJobRecord) : DbM (list UUID) := λ s,
  let t := jobs (view s) in
  let ids := matching where_ t in
  (Ret ids,
   set_locked (locked s ∪ list_to_set ids)
     (set_view (set_jobs (update_rows where_ values t) (view s)) s)).

(** [session.add(record); session.flush()]: the insert fails on a duplicate
    key or on a second active job of the same target. *)
Definition insert_job (j : Job.DiscoveryJobRecord) : DbM unit := λ s,
  let t := jobs (view s) in
  if is_not_none (t !! Job.id j)
     || (is_active j &&
         negb (is_nil (matching (active_for (Job.tenant_id j) (Job.target_id j)) t)))
  then (raise_ IntegrityError "UNIQUE constraint failed", s)
  else (Ret tt, set_locked ({[Job.id j]} ∪ locked s)
                  (set_view (set_jobs (<[Job.id j := j]> t) (view s)) s)).

(** Inserts and updates of the other tables. *)
Definition put_target (r : Target.DiscoveryTargetRecord) : DbM unit :=
  on_view (λ d, set_targets (<[Target.id r := r]> (targets d)) d).
Definition put_run (r : Run.DiscoveryRunRecord) : DbM unit :=
  on_view (λ d, set_runs (<[Run.id r := r]> (runs d)) d).
Definition put_device_result (r : DeviceResult.DiscoveryDeviceResultRecord) : DbM unit :=
  on_view (λ d, set_device_results (<[DeviceResult.id r := r]> (device_results d)) d).
(** A new row: neither its key nor its child job may be those of another row. *)
Definition insert_device_result (r : DeviceResult.DiscoveryDeviceResultRecord) : DbM unit :=
  taken <- query (λ d, is_not_none (device_results d !! DeviceResult.id r)
    || existsb (λ r', DeviceResult.child_job_id r' ≟ DeviceResult.child_job_id r)
         (rows (device_results d))) ;;
  if taken : bool then raise IntegrityError "UNIQUE constraint failed"
  else put_device_result r.
Definition put_attempt (r : Attempt.DiscoveryTransportAttemptRecord) : DbM unit :=
  on_view (λ d, set_attempts (<[Attempt.id r := r]> (attempts d)) d).
Definition put_evidence (r : Evidence.DiscoveryEvidenceRecord) : DbM unit :=
  on_view (λ d, set_evidence (<[Evidence.id r := r]> (evidence d)) d).

(** ** Laws of the statements *)

Lemma lookup_keep_locked l mine theirs k :
  keep_locked l mine theirs !! k = if decide (k ∈ l) then mine !! k else theirs !! k.
Proof.
  unfold keep_locked. rewrite lookup_union, !map_lookup_filter.
  destruct (mine !! k), (theirs !! k); cbn; repeat case_guard; cbn; by repeat case_decide.
Qed.

Lemma lookup_update_rows {A} where_ values (t : gmap UUID A) k :
  update_rows where_ values t !! k = (λ r, if where_ r then values r else r) <$> t !! k.
Proof. unfold update_rows. by rewrite lookup_fmap. Qed.

Lemma elem_of_matching {A} where_ (t : gmap UUID A) k :
  k ∈ matching where_ t ↔ ∃ r, t !! k = Some r ∧ where_ r = true.
Proof.
  unfold matching. rewrite list_elem_of_fmap. setoid_rewrite list_elem_of_In.
  setoid_rewrite filter_In. setoid_rewrite <-list_elem_of_In. split.
  - intros ([k' r] & -> & Hin & Hw). exists r. by apply elem_of_map_to_list in Hin.
  - intros (r & Hr & Hw). exists (k, r). by rewrite elem_of_map_to_list.
Qed.

Lemma matching_nil {A} where_ (t : gmap UUID A) :
  matching where_ t = [] ↔ ∀ k r, t !! k = Some r → where_ r = false.
Proof.
  split.
  - intros Hm k r Hr. destruct (where_ r) eqn:Hw; [|done].
    assert (k ∈ matching where_ t) as Hin by (rewrite elem_of_matching; eauto).
    rewrite Hm in Hin. by apply not_elem_of_nil in Hin.
  - intros Hnone. destruct (matching where_ t) as [|k ks] eqn:Hm; [done|].
    assert (k ∈ matching where_ t) as Hin by (rewrite Hm; apply list_elem_of_here).
    apply elem_of_matching in Hin as (r & Hr & Hw). by rewrite (Hnone k r Hr) in Hw.
Qed.

Lemma index_holds_true t :
  index_holds t = true ↔
  ∀ k1 k2 j1 j2, t !! k1 = Some j1 → t !! k2 = Some j2 → is_active j1 = true →
    active_for (Job.tenant_id j1) (Job.target_id j1) j2 = true → k1 = k2.
Proof.
  unfold index_holds. rewrite forallb_forall. split.
  - intros Hall k1 k2 j1 j2 H1 H2 Ha1 Ha2.
    rewrite <-elem_of_map_to_list, list_elem_of_In in H1, H2.
    specialize (Hall _ H1). rewrite forallb_forall in Hall. specialize (Hall _ H2).
    cbn in Hall. rewrite Ha1, Ha2 in Hall. cbn in Hall. by rewrite eqb_true in Hall.
  - intros Hall [k1 j1] H1. apply forallb_forall. intros [k2 j2] H2. cbn.
    rewrite <-list_elem_of_In, elem_of_map_to_list in H1, H2.
    destruct (is_active j1 && _) eqn:E; [|done]. apply andb_true_iff in E as [E1 E2].
    cbn. apply eqb_true. eauto.
Qed.
