(* ===== verification/JobRepository.v ===== *)
(** * The durable job repository ([DiscoveryJobRepository])

    The operations of [persistence/discovery_repositories.py] on one job row:
    creation, claim under a lease, lease renewal, guarded transitions,
    selection metadata and the work lists of the worker.  The operations that
    also reconcile fan-out children are in [Cancellation]. *)

From S2P Require Import Prelude Vocabulary Effects Json Records Contracts Session.
From stdpp Require Import sorting.
#[local] Open Scope Z_scope.

(** [session.get(Model, id)]. *)
Definition get_target (target_id : UUID) : DbM (option Target.DiscoveryTargetRecord) :=
  query (λ d, targets d !! target_id).
Definition get_run (run_id : UUID) : DbM (option Run.DiscoveryRunRecord) :=
  query (λ d, runs d !! run_id).
Definition get_job (job_id : UUID) : DbM (option Job.DiscoveryJobRecord) :=
  query (λ d, jobs d !! job_id).

(** [DiscoveryJobRepository.get]. *)
Definition get (tenant_id : string) (job_id : UUID) : DbM (option Job.DiscoveryJobRecord) :=
  query (λ d,
    j ← jobs d !! job_id;
    if Job.tenant_id j ≟ tenant_id then Some j else None).

(** [return self.get(...)] where the row was just written. *)
Definition get_existing (tenant_id : string) (job_id : UUID) : DbM Job.DiscoveryJobRecord :=
  job <- get tenant_id job_id ;;
  match job with
  | Some j => ret j
  | None => raise (OtherError "AttributeError") "'NoneType' object has no attribute"
  end.

(** [DiscoveryJobRepository.create].  The advisory lock of [_lock_target]
    changes no table and is not represented; the unique index is. *)
Definition create (tenant_id : string) (target_id run_id : UUID)
    (parent_job_id created_by : option UUID) (requested_capabilities : option dict)
    (timeout_seconds : option float) (correlation_id : option string)
    : DbM Job.DiscoveryJobRecord :=
  target <- get_target target_id ;;
  run <- get_run run_id ;;
  if negb (from_option (λ t, Target.tenant_id t ≟ tenant_id) false target) then
    raise DiscoveryResourceNotFoundError "Discovery target was not found."
  else if negb (from_option (λ r, mem (Run.tenant_id r) [None; Some tenant_id]) false run) then
    raise DiscoveryResourceNotFoundError "Discovery run was not found."
  else
    active <- query (λ d, matching (active_for tenant_id target_id) (jobs d)) ;;
    if negb (is_nil active) then
      raise DuplicateActiveDiscoveryError
        "A discovery execution is already active for this target."
    else
      id <- uuid4 ;;
      concurrent_commit ;;;
      requested_at <- utc_now ;;
      updated_at <- utc_now ;;
      let record := {|
        Job.id := id; Job.tenant_id := tenant_id; Job.target_id := target_id;
        Job.run_id := run_id; Job.parent_job_id := parent_job_id; Job.runtime_job_id := None;
        Job.state := value QUEUED; Job.failure_code := None; Job.failure_message := None;
        Job.requested_at := requested_at; Job.started_at := None; Job.completed_at := None;
        Job.created_by := created_by; Job.updated_at := updated_at;
        Job.requested_capabilities := from_option (λ c, c) [] requested_capabilities;
        Job.selected_transport := None; Job.selected_platform := None; Job.attempts := 0;
        Job.timeout_seconds := timeout_seconds; Job.correlation_id := correlation_id;
        Job.cancellation_requested_at := None; Job.cancellation_requested_by := None;
        Job.cancellation_reason := None; Job.execution_owner := None;
        Job.lease_expires_at := None; Job.last_heartbeat_at := None |} in
      try_except (insert_job record) (λ exc,
        if isinstance exc IntegrityError then
          rollback ;;;
          raise DuplicateActiveDiscoveryError
            "A discovery execution is already active for this target."
        else reraise exc) ;;;
      ret record.

(** [ORDER BY requested_at] ascending and descending. *)
Definition requested_before (a b : Job.DiscoveryJobRecord) : Prop :=
  Job.requested_at a <= Job.requested_at b.
#[export] Instance requested_before_dec : RelDecision requested_before.
Proof. intros a b. apply Z_le_dec. Defined.
#[export] Instance requested_before_total : Total requested_before.
Proof. intros a b. unfold requested_before. lia. Qed.
#[export] Instance requested_before_trans : Transitive requested_before.
Proof. intros a b c. unfold requested_before. lia. Qed.

(** [DiscoveryJobRepository.list_queued_roots]. *)
Definition queued_root (j : Job.DiscoveryJobRecord) : bool :=
  (Job.state j ≟ value QUEUED) && is_none (Job.parent_job_id j)
  && negb (Job.id j ≟ PROTECTED_DISCOVERY_JOB_ID)
  && is_none (Job.execution_owner j) && is_none (Job.lease_expires_at j)
  && is_none (Job.last_heartbeat_at j).

Definition list_queued_roots (limit : nat) : DbM (list (string * UUID)) :=
  query (λ d,
    map (λ j, (Job.tenant_id j, Job.id j))
      (take limit
        (merge_sort requested_before
          (List.filter queued_root (rows (jobs d)))))).

(** [DiscoveryJobRepository.list]. *)
Definition list_jobs (tenant_id : string) : DbM (list Job.DiscoveryJobRecord) :=
  query (λ d,
    merge_sort (flip requested_before)
      (List.filter (λ j, Job.tenant_id j ≟ tenant_id) (rows (jobs d)))).

(** The condition and the assignments of the claim statement. *)
Definition claimable (tenant_id : string) (job_id : UUID) (j : Job.DiscoveryJobRecord) : bool :=
  (Job.id j ≟ job_id) && (Job.tenant_id j ≟ tenant_id) && (Job.state j ≟ value QUEUED)
  && is_none (Job.execution_owner j) && is_none (Job.lease_expires_at j)
  && is_none (Job.last_heartbeat_at j).

Definition claimed (owner : UUID) (now : datetime) (lease_seconds : float)
    (j : Job.DiscoveryJobRecord) : Job.DiscoveryJobRecord :=
  j |> Job.set_state (value RUNNING)
    |> Job.set_started_at (Some now)
    |> Job.set_updated_at now
    |> Job.set_attempts (Job.attempts j + 1)
    |> Job.set_execution_owner (Some owner)
    |> Job.set_lease_expires_at (Some (now + timedelta_seconds lease_seconds))
    |> Job.set_last_heartbeat_at (Some now).

(** [DiscoveryJobRepository.claim]. *)
Definition claim (tenant_id : string) (job_id : UUID) (execution_owner : option UUID)
    (lease_seconds : float) : DbM Job.DiscoveryJobRecord :=
  if job_id ≟ PROTECTED_DISCOVERY_JOB_ID then
    raise InvalidDiscoveryTransitionError "Protected discovery job cannot be claimed."
  else if Qle_bool lease_seconds 0 then
    raise InvalidDiscoveryTransitionError "A positive lease is required."
  else
    owner <- match execution_owner with Some o => ret o | None => uuid4 end ;;
    job <- get tenant_id job_id ;;
    match job with
    | None => raise DiscoveryResourceNotFoundError "Discovery job was not found."
    | Some _ =>
        now <- utc_now ;;
        concurrent_commit ;;;
        ids <- update_jobs (claimable tenant_id job_id) (claimed owner now lease_seconds) ;;
        if is_nil ids then
          rollback ;;;
          raise InvalidDiscoveryTransitionError "Only queued discovery jobs can be claimed."
        else get_existing tenant_id job_id
    end.

(** [DiscoveryJobRepository.renew_lease]. *)
Definition renewable (tenant_id : string) (job_id execution_owner : UUID)
    (j : Job.DiscoveryJobRecord) : bool :=
  (Job.tenant_id j ≟ tenant_id) && (Job.execution_owner j ≟ Some execution_owner)
  && (Job.state j ≟ value RUNNING)
  && ((Job.id j ≟ job_id) || (Job.parent_job_id j ≟ Some job_id)).

Definition renewed (now : datetime) (lease_seconds : float) (j : Job.DiscoveryJobRecord)
    : Job.DiscoveryJobRecord :=
  j |> Job.set_lease_expires_at (Some (now + timedelta_seconds lease_seconds))
    |> Job.set_last_heartbeat_at (Some now)
    |> Job.set_updated_at now.

Definition renew_lease (tenant_id : string) (job_id execution_owner : UUID)
    (lease_seconds : float) : DbM bool :=
  now <- utc_now ;;
  ids <- update_jobs (renewable tenant_id job_id execution_owner) (renewed now lease_seconds) ;;
  if is_nil ids then rollback ;;; ret false else ret true.

(** [DiscoveryJobRepository.owned_running_job]. *)
Definition owned_running_job (tenant_id : string) (job_id execution_owner : UUID)
    : DbM (option Job.DiscoveryJobRecord) :=
  query (λ d,
    j ← jobs d !! job_id;
    if (Job.tenant_id j ≟ tenant_id) && (Job.state j ≟ value RUNNING)
       && (Job.execution_owner j ≟ Some execution_owner) then Some j else None).

(** The assignments every terminal write makes to the ownership columns. *)
Definition release (j : Job.DiscoveryJobRecord) : Job.DiscoveryJobRecord :=
  j |> Job.set_execution_owner None
    |> Job.set_lease_expires_at None
    |> Job.set_last_heartbeat_at None.

(** The assignments of the statements that stop a job from outside. *)
Definition stopped_values (st : DiscoveryJobStatus) (code message : string)
    (completed_at updated_at : datetime) (j : Job.DiscoveryJobRecord)
    : Job.DiscoveryJobRecord :=
  j |> Job.set_state (value st)
    |> Job.set_failure_code (Some code)
    |> Job.set_failure_message (Some message)
    |> Job.set_completed_at (Some completed_at)
    |> release
    |> Job.set_updated_at updated_at.

(** The condition and the assignments of the transition statement. *)
Definition transition_where (tenant_id : string) (job_id : UUID) (state : string)
    (require_no_cancellation : bool) (expected_execution_owner : option UUID)
    (j : Job.DiscoveryJobRecord) : bool :=
  (Job.id j ≟ job_id) && (Job.tenant_id j ≟ tenant_id) && (Job.state j ≟ state)
  && (negb require_no_cancellation || is_none (Job.cancellation_requested_at j))
  && match expected_execution_owner with
     | None => true
     | Some o => Job.execution_owner j ≟ Some o
     end.

Definition transition_values (target_state : DiscoveryJobStatus) (now : datetime)
    (failure_code failure_message : option string) (j : Job.DiscoveryJobRecord)
    : Job.DiscoveryJobRecord :=
  let j := j |> Job.set_state (value target_state) |> Job.set_updated_at now in
  let j := if is_terminal target_state then Job.set_completed_at (Some now) j else j in
  let j := match failure_code with Some c => Job.set_failure_code (Some c) j | None => j end in
  let j := match failure_message with Some m => Job.set_failure_message (Some m) j | None => j end in
  if is_terminal target_state then release j else j.

(** [DiscoveryJobRepository.transition]. *)
Definition transition (tenant_id : string) (job_id : UUID) (target_state : DiscoveryJobStatus)
    (failure_code failure_message : option string) (require_no_cancellation : bool)
    (expected_execution_owner : option UUID) : DbM Job.DiscoveryJobRecord :=
  job <- get tenant_id job_id ;;
  match job with
  | None => raise DiscoveryResourceNotFoundError "Discovery job was not found."
  | Some job =>
      match of_value (Job.state job) with
      | None =>
          raise InvalidDiscoveryTransitionError
            ("'" +:+ Job.state job +:+ "' is not a valid DiscoveryJobStatus")
      | Some current =>
          match transition_job current target_state with
          | Raise exc => raise InvalidDiscoveryTransitionError (exn_str exc)
          | Ret _ =>
              now <- utc_now ;;
              concurrent_commit ;;;
              ids <- update_jobs
                (transition_where tenant_id job_id (Job.state job) require_no_cancellation
                   expected_execution_owner)
                (transition_values target_state now failure_code failure_message) ;;
              if is_nil ids then
                rollback ;;;
                raise InvalidDiscoveryTransitionError
                  "Discovery job changed state before transition could be applied."
              else get_existing tenant_id job_id
          end
      end
  end.

(** [DiscoveryJobRepository.cancellation_requested]. *)
Definition cancellation_requested (tenant_id : string) (job_id : UUID) : DbM bool :=
  job <- get tenant_id job_id ;;
  ret match job with
      | None => false
      | Some j =>
          is_not_none (Job.cancellation_requested_at j) || (Job.state j ≟ value CANCELLED)
      end.

(** [DiscoveryJobRepository.finalise_cancellation]. *)
Definition finalise_cancellation (tenant_id : string) (job_id : UUID)
    (expected_execution_owner : option UUID) : DbM Job.DiscoveryJobRecord :=
  job <- get tenant_id job_id ;;
  match job with
  | None => raise DiscoveryResourceNotFoundError "Discovery job was not found."
  | Some job =>
      if Job.state job ≟ value CANCELLED then ret job
      else if is_none (Job.cancellation_requested_at job) then
        raise InvalidDiscoveryTransitionError "Cancellation was not requested."
      else
        transition tenant_id job_id CANCELLED
          (Some (value FailureCode.CANCELLED))
          (Some (or_str (Job.cancellation_reason job) "Cancelled by operator."))
          false expected_execution_owner
  end.

(** [DiscoveryJobRepository.recover_expired_owned_jobs]. *)
Definition expired_root (stale_before : datetime) (j : Job.DiscoveryJobRecord) : bool :=
  (Job.state j ≟ value RUNNING) && is_none (Job.parent_job_id j)
  && negb (Job.id j ≟ PROTECTED_DISCOVERY_JOB_ID)
  && is_not_none (Job.execution_owner j) && is_not_none (Job.last_heartbeat_at j)
  && match Job.lease_expires_at j with Some t => t <? stale_before | None => false end.

Definition recover_expired_owned_jobs (stale_before : datetime) : DbM (list (string * UUID)) :=
  query (λ d,
    map (λ j, (Job.tenant_id j, Job.id j))
      (List.filter (expired_root stale_before) (rows (jobs d)))).

(** [DiscoveryJobRepository.record_selection]. *)
Definition record_selection (tenant_id : string) (job_id : UUID)
    (selected_transport selected_platform : option string) : DbM Job.DiscoveryJobRecord :=
  job <- get tenant_id job_id ;;
  match job with
  | None => raise DiscoveryResourceNotFoundError "Discovery job was not found."
  | Some job =>
      if negb (Job.state job ≟ value RUNNING) then
        raise InvalidDiscoveryTransitionError
          "Selection metadata requires a running discovery job."
      else
        now <- utc_now ;;
        _ <- update_jobs (λ j, (Job.id j ≟ job_id) && (Job.tenant_id j ≟ tenant_id))
          (λ j, j |> Job.set_selected_transport selected_transport
                  |> Job.set_selected_platform selected_platform
                  |> Job.set_updated_at now) ;;
        get_existing tenant_id job_id
  end.

(** [DiscoveryJobRepository.mark_failed_after_rollback]. *)
Definition mark_failed_after_rollback (tenant_id : string) (job_id : UUID)
    (failure_code failure_message : string) (expected_execution_owner : option UUID)
    : DbM Job.DiscoveryJobRecord :=
  rollback ;;;
  transition tenant_id job_id FAILED (Some failure_code) (Some failure_message) true
    expected_execution_owner.
