(* ===== verification/Fanout.v ===== *)
(** * Fan-out of a scope over child jobs ([discovery/fanout.py])

    Child creation and the reconciliation of a parent job with the durable
    outcomes of its children.  The reconciliation is what the repository calls
    when a fan-out parent is cancelled, abandoned or recovered. *)

From S2P Require Import Prelude Vocabulary Effects Json Records Contracts Session.
From S2P Require Import JobRepository.

(** The strings of a JSON list. *)
Definition json_strings (j : json) : list string :=
  match j with
  | JList l => omap (λ x, match x with JStr s => Some s | _ => None end) l
  | _ => []
  end.

(** [scope_type in {"ip_range", "cidr_network"}]. *)
Definition is_fanout_scope (scope_type : string) : bool :=
  mem scope_type ["ip_range"; "cidr_network"]%string.

(** The target of a tenant with a given identifier. *)
Definition find_target (tenant_id identifier : string)
    : DbM (option Target.DiscoveryTargetRecord) :=
  query (λ d,
    List.find (λ t, (Target.tenant_id t ≟ tenant_id) && (Target.identifier t ≟ identifier))
      (rows (targets d))).

(** The child target the scope describes: a fresh row ... *)
Definition new_child_target (id : UUID) (tenant_id identifier address : string)
    (scope : Target.DiscoveryTargetRecord) (created_at updated_at : datetime)
    : Target.DiscoveryTargetRecord := {|
  Target.id := id; Target.tenant_id := tenant_id; Target.identifier := identifier;
  Target.address := address; Target.scope_type := value SINGLE_DEVICE;
  Target.scope_end := None; Target.scope_cidr := None;
  Target.vendor := Target.vendor scope; Target.hostname := Target.hostname scope;
  Target.platform_hint := Target.platform_hint scope;
  Target.preferred_transport := Target.preferred_transport scope;
  Target.enabled := Target.enabled scope;
  Target.credential_reference := Target.credential_reference scope;
  Target.credential_profile_id := Target.credential_profile_id scope;
  Target.credential_references := Target.credential_references scope;
  Target.allowed_fallback_transports := Target.allowed_fallback_transports scope;
  Target.allow_insecure_telnet := Target.allow_insecure_telnet scope;
  Target.allow_insecure_http := false;
  Target.metadata_json := Target.metadata_json scope;
  Target.created_by := None; Target.created_at := created_at; Target.updated_at := updated_at |}.

(** ... or the existing row, brought up to date with the scope. *)
Definition refresh_child_target (scope t : Target.DiscoveryTargetRecord)
    : Target.DiscoveryTargetRecord :=
  t |> Target.set_vendor (Target.vendor scope)
    |> Target.set_hostname (Target.hostname scope)
    |> Target.set_platform_hint (Target.platform_hint scope)
    |> Target.set_preferred_transport (Target.preferred_transport scope)
    |> Target.set_enabled (Target.enabled scope)
    |> Target.set_credential_reference (Target.credential_reference scope)
    |> Target.set_credential_profile_id (Target.credential_profile_id scope)
    |> Target.set_credential_references (Target.credential_references scope)
    |> Target.set_allowed_fallback_transports (Target.allowed_fallback_transports scope)
    |> Target.set_allow_insecure_telnet (Target.allow_insecure_telnet scope)
    |> Target.set_metadata_json (Target.metadata_json scope).

Definition child_target (tenant_id : string) (scope : Target.DiscoveryTargetRecord)
    (address : string) : DbM Target.DiscoveryTargetRecord :=
  let identifier := Target.identifier scope +:+ ":" +:+ address in
  target <- find_target tenant_id identifier ;;
  match target with
  | None =>
      id <- uuid4 ;;
      created_at <- utc_now ;;
      updated_at <- utc_now ;;
      let t := new_child_target id tenant_id identifier address scope created_at updated_at in
      put_target t ;;; ret t
  | Some t =>
      let t := refresh_child_target scope t in
      put_target t ;;; ret t
  end.

(** The run of a child. *)
Definition new_child_run (id : UUID) (tenant_id identifier address : string)
    (parent_id : UUID) (created_at started_at : datetime) : Run.DiscoveryRunRecord := {|
  Run.id := id; Run.created_at := created_at;
  Run.target_identifier := identifier; Run.target_address := Some address;
  Run.tenant_id := Some tenant_id; Run.status := "started"; Run.started_at := started_at;
  Run.finished_at := None;
  Run.metadata_json := [("parent_job_id"%string, JStr (uuid_str parent_id))];
  Run.total_scanned := Some 0; Run.total_discovered := Some 0;
  Run.total_unreachable := Some 0; Run.total_reachable_no_management := Some 0;
  Run.total_authentication_failed := Some 0; Run.total_partial_discovery := Some 0;
  Run.total_unverified := Some 0 |}.

(** The result row of a child before it runs. *)
Definition new_child_result (id : UUID) (tenant_id : string) (parent_id child_id : UUID)
    (address : string) (scope : Target.DiscoveryTargetRecord) (correlation_id : option string)
    : DeviceResult.DiscoveryDeviceResultRecord := {|
  DeviceResult.id := id; DeviceResult.tenant_id := tenant_id;
  DeviceResult.discovery_job_id := parent_id; DeviceResult.child_job_id := child_id;
  DeviceResult.address := address; DeviceResult.hostname := Target.hostname scope;
  DeviceResult.vendor := Target.vendor scope; DeviceResult.platform := Target.platform_hint scope;
  DeviceResult.state := value QUEUED; DeviceResult.result_state := None;
  DeviceResult.selected_transport := None; DeviceResult.failure_code := None;
  DeviceResult.failure_message := None; DeviceResult.started_at := None;
  DeviceResult.completed_at := None; DeviceResult.correlation_id := correlation_id |}.

(** [DiscoveryFanoutService._create_child]. *)
Definition create_child (tenant_id : string) (parent : Job.DiscoveryJobRecord)
    (scope : Target.DiscoveryTargetRecord) (address : string)
    : DbM (Job.DiscoveryJobRecord * DeviceResult.DiscoveryDeviceResultRecord) :=
  target <- child_target tenant_id scope address ;;
  run_id <- uuid4 ;;
  created_at <- utc_now ;;
  started_at <- utc_now ;;
  put_run (new_child_run run_id tenant_id (Target.identifier target) address (Job.id parent)
             created_at started_at) ;;;
  correlation <- uuid4 ;;
  child <- create tenant_id (Target.id target) run_id (Some (Job.id parent)) None
             (Some (Job.requested_capabilities parent)) (Job.timeout_seconds parent)
             (Some (uuid_str correlation)) ;;
  result_id <- uuid4 ;;
  let result := new_child_result result_id tenant_id (Job.id parent) (Job.id child) address scope
                  (Job.correlation_id child) in
  insert_device_result result ;;;
  ret (child, result).

(** ** Summary of a parent run *)

Definition result_states (results : list DeviceResult.DiscoveryDeviceResultRecord)
    : list (option string) := map DeviceResult.result_state results.

(** [counts.get(state.value, 0)]. *)
Definition counts (results : list DeviceResult.DiscoveryDeviceResultRecord)
    (state : DiscoveryResultState) : Z :=
  count_of (Some (value state)) (result_states results).

(** The values [_finalize_parent_run] writes. *)
Definition finalized_run (expected_count : Z)
    (results : list DeviceResult.DiscoveryDeviceResultRecord) (finished_at : datetime)
    (r : Run.DiscoveryRunRecord) : Run.DiscoveryRunRecord :=
  let n := counts results in
  let metadata :=
    Run.metadata_json r
      |> dict_set "summary_calculated" (JBool true)
      |> dict_set "total_cancelled" (JInt (n ResultState.CANCELLED))
      |> dict_set "total_interrupted" (JInt (n ResultState.INTERRUPTED)) in
  r |> Run.set_total_scanned (Some expected_count)
    |> Run.set_total_discovered (Some (n ResultState.DISCOVERED))
    |> Run.set_total_unreachable (Some (n ResultState.UNREACHABLE))
    |> Run.set_total_reachable_no_management (Some (n ResultState.REACHABLE_NO_MANAGEMENT))
    |> Run.set_total_authentication_failed (Some (n ResultState.AUTHENTICATION_FAILED))
    |> Run.set_total_partial_discovery (Some (n ResultState.PARTIAL_DISCOVERY))
    |> Run.set_total_unverified (Some (n ResultState.UNVERIFIED))
    |> Run.set_status
         (if (0 <? n ResultState.DISCOVERED) && (n ResultState.CANCELLED =? 0)
             && (n ResultState.INTERRUPTED =? 0)
          then value RunStatus.SUCCEEDED else value RunStatus.FAILED)
    |> Run.set_finished_at (Some finished_at)
    |> Run.set_metadata_json metadata.

(** [DiscoveryFanoutService._finalize_parent_run]. *)
Definition finalize_parent_run (parent : Job.DiscoveryJobRecord) (expected_count : Z)
    (results : list DeviceResult.DiscoveryDeviceResultRecord) : DbM unit :=
  parent_run <- get_run (Job.run_id parent) ;;
  match parent_run with
  | None => ret tt
  | Some r =>
      finished_at <- utc_now ;;
      put_run (finalized_run expected_count results finished_at r)
  end.

(** ** Reconciliation *)

(** What an unfinished address becomes. *)
Record unfinished := {
  u_state : DiscoveryJobStatus;
  u_result_state : string;
  u_code : string;
  u_message : string;
}.

Definition unfinished_outcome (interrupted : bool) : unfinished :=
  if interrupted then
    {| u_state := FAILED; u_result_state := "interrupted";
       u_code := value FailureCode.DISCOVERY_FAILED;
       u_message := "Fan-out execution was interrupted before this address completed." |}
  else
    {| u_state := CANCELLED; u_result_state := "cancelled";
       u_code := value FailureCode.CANCELLED;
       u_message := "Fan-out execution was cancelled before this address completed." |}.

(** The assignments of the child update of the reconciliation loop; the
    column's [onupdate] supplies [updated_at]. *)
Definition stop_child (u : unfinished) (completed_at updated_at : datetime)
    : Job.DiscoveryJobRecord → Job.DiscoveryJobRecord :=
  stopped_values (u_state u) (u_code u) (u_message u) completed_at updated_at.

(** [if child is not None and not DiscoveryJobStatus(child.state).is_terminal]: the
    child is read, and the statement that stops it names its row only, whatever has
    become of it since. *)
Definition reconcile_child (tenant_id : string) (u : unfinished) (child_job_id : UUID) : DbM unit :=
  child <- get_job child_job_id ;;
  match child with
  | None => ret tt
  | Some child =>
      match of_value (Job.state child) with
      | None => raise ValueError ("'" +:+ Job.state child +:+ "' is not a valid DiscoveryJobStatus")
      | Some st =>
          if is_terminal st then ret tt
          else
            completed_at <- utc_now ;;
            concurrent_commit ;;;
            updated_at <- utc_now ;;
            update_jobs (λ j, (Job.id j ≟ Job.id child) && (Job.tenant_id j ≟ tenant_id))
              (stop_child u completed_at updated_at) ;;;
            ret tt
      end
  end.

(** The states of a result row that is not finished. *)
Definition result_unfinished (r : DeviceResult.DiscoveryDeviceResultRecord) : bool :=
  is_none (DeviceResult.result_state r)
  || mem (DeviceResult.state r) ["queued"; "running"; "discovering"]%string.

Definition stop_result (u : unfinished) (completed_at : datetime)
    (r : DeviceResult.DiscoveryDeviceResultRecord) : DeviceResult.DiscoveryDeviceResultRecord :=
  r |> DeviceResult.set_state (value (u_state u))
    |> DeviceResult.set_result_state (Some (u_result_state u))
    |> DeviceResult.set_failure_code (Some (u_code u))
    |> DeviceResult.set_failure_message (Some (u_message u))
    |> DeviceResult.set_completed_at (Some completed_at).

Definition reconcile_result (u : unfinished) (r : DeviceResult.DiscoveryDeviceResultRecord)
    : DbM DeviceResult.DiscoveryDeviceResultRecord :=
  if result_unfinished r then
    completed_at <- utc_now ;;
    let r := stop_result u completed_at r in
    put_device_result r ;;; ret r
  else ret r.

(** The loop over the expected addresses.  The result objects of [by_address]
    are updated in place; the ones it creates are returned, and are not entered
    in [by_address]. *)
Fixpoint reconcile_addresses (tenant_id : string) (parent : Job.DiscoveryJobRecord)
    (target : Target.DiscoveryTargetRecord) (u : unfinished)
    (by_address : gmap string DeviceResult.DiscoveryDeviceResultRecord) (addresses : list string)
    : DbM (gmap string DeviceResult.DiscoveryDeviceResultRecord *
           list DeviceResult.DiscoveryDeviceResultRecord) :=
  match addresses with
  | [] => ret (by_address, [])
  | address :: addresses =>
      match by_address !! address with
      | Some result =>
          reconcile_child tenant_id u (DeviceResult.child_job_id result) ;;;
          result <- reconcile_result u result ;;
          reconcile_addresses tenant_id parent target u (<[address := result]> by_address) addresses
      | None =>
          created <- create_child tenant_id parent target address ;;
          reconcile_child tenant_id u (DeviceResult.child_job_id (snd created)) ;;;
          result <- reconcile_result u (snd created) ;;
          rest <- reconcile_addresses tenant_id parent target u by_address addresses ;;
          ret (fst rest, result :: snd rest)
      end
  end.

Section Reconcile.
Context `{IpLibrary}.

Definition scope_of (target : Target.DiscoveryTargetRecord) : outcome DiscoveryScope :=
  match of_value (Target.scope_type target) with
  | None =>
      raise_ ValueError
        ("'" +:+ Target.scope_type target +:+ "' is not a valid DiscoveryScopeType")
  | Some st =>
      Ret {| scope_type := st; address := Some (Target.address target);
             scope_end := Target.scope_end target; scope_cidr := Target.scope_cidr target |}
  end.

(** The expected addresses: those recorded on the run, or the expansion of
    the scope, which is then recorded. *)
Definition expected_addresses (parent : Job.DiscoveryJobRecord)
    (target : option Target.DiscoveryTargetRecord) (max_targets : Z) : DbM (list string) :=
  parent_run <- get_run (Job.run_id parent) ;;
  let metadata := from_option Run.metadata_json [] parent_run in
  let recorded := json_strings (dict_get_default "expected_addresses" (JList []) metadata) in
  match recorded, target with
  | [], Some target =>
      scope <- of_outcome (scope_of target) ;;
      addresses <- of_outcome (expand scope max_targets) ;;
      match parent_run with
      | Some r =>
          put_run (Run.set_metadata_json
            (dict_set "expected_addresses" (JList (map JStr addresses)) metadata) r) ;;;
          ret addresses
      | None => ret addresses
      end
  | _, _ => ret recorded
  end.

(** The results of a parent by address, the last one of an address winning,
    and the results the loop does not touch. *)
Definition results_of (tenant_id : string) (parent_job_id : UUID)
    : DbM (list DeviceResult.DiscoveryDeviceResultRecord) :=
  query (λ d,
    List.filter (λ r, (DeviceResult.tenant_id r ≟ tenant_id)
                      && (DeviceResult.discovery_job_id r ≟ parent_job_id))
      (rows (device_results d))).

Definition index_by_address (results : list DeviceResult.DiscoveryDeviceResultRecord)
    : gmap string DeviceResult.DiscoveryDeviceResultRecord :=
  fold_left (λ m r, <[DeviceResult.address r := r]> m) results ∅.

(** The result objects at the end of the loop: the ones it was given, as
    updated, followed by the ones it created. *)
Definition merge_results (results : list DeviceResult.DiscoveryDeviceResultRecord)
    (by_address : gmap string DeviceResult.DiscoveryDeviceResultRecord)
    (created : list DeviceResult.DiscoveryDeviceResultRecord)
    : list DeviceResult.DiscoveryDeviceResultRecord :=
  map (λ r, match by_address !! DeviceResult.address r with
            | Some r' => if DeviceResult.id r' ≟ DeviceResult.id r then r' else r
            | None => r
            end) results ++ created.

(** [DiscoveryFanoutService.reconcile_parent_job]. *)
Definition reconcile_parent_job (tenant_id : string) (parent_job_id : UUID)
    (interrupted : bool) (max_targets : Z)
    : DbM (list DeviceResult.DiscoveryDeviceResultRecord) :=
  parent <- get_job parent_job_id ;;
  match parent with
  | None => ret []
  | Some parent =>
      if negb (Job.tenant_id parent ≟ tenant_id) then ret []
      else
        target <- get_target (Job.target_id parent) ;;
        addresses <- expected_addresses parent target max_targets ;;
        match addresses, target with
        | _ :: _, Some target =>
            results <- results_of tenant_id parent_job_id ;;
            loop <- reconcile_addresses tenant_id parent target (unfinished_outcome interrupted)
                      (index_by_address results) addresses ;;
            let results := merge_results results (fst loop) (snd loop) in
            finalize_parent_run parent (Z.of_nat (length addresses)) results ;;;
            commit ;;;
            ret results
        | _, _ => ret []
        end
  end.
End Reconcile.
