(* ===== verification/Cancellation.v ===== *)
(** * Cancellation, abandonment and recovery

    The operations of [DiscoveryJobRepository] that end a job from outside its
    own execution: an operator's cancellation, the forced resolution of a
    stale one, the abandonment of a tree whose heartbeat was lost and the
    recovery of one whose lease expired.  They reconcile fan-out children
    through [Fanout.reconcile_parent_job]. *)

From S2P Require Import Prelude Vocabulary Effects Json Records Contracts Session.
From S2P Require Import JobRepository Fanout.
#[local] Open Scope Z_scope.

(** The default of [max_targets] of [reconcile_parent_job]. *)
Definition DEFAULT_MAX_TARGETS : Z := 4096.

(** The assignments of the cancellation statement; [queued] is the state the
    job was read in. *)
Definition cancellation_values (queued : bool) (now : datetime) (requested_by : UUID)
    (reason : string) (j : Job.DiscoveryJobRecord) : Job.DiscoveryJobRecord :=
  let j := j |> Job.set_cancellation_requested_at (Some now)
             |> Job.set_cancellation_requested_by (Some requested_by)
             |> Job.set_cancellation_reason (Some reason)
             |> Job.set_updated_at now in
  if queued then
    j |> Job.set_state (value CANCELLED)
      |> Job.set_completed_at (Some now)
      |> Job.set_failure_code (Some (value FailureCode.CANCELLED))
      |> Job.set_failure_message (Some reason)
      |> release
  else j.

Definition in_state (tenant_id : string) (job_id : UUID) (state : string)
    (j : Job.DiscoveryJobRecord) : bool :=
  (Job.id j ≟ job_id) && (Job.tenant_id j ≟ tenant_id) && (Job.state j ≟ state).

(** The assignments of the statements that cancel a running job whose worker
    is gone, and its running children. *)
Definition cancelled_values (message : string) (now : datetime)
    : Job.DiscoveryJobRecord → Job.DiscoveryJobRecord :=
  stopped_values CANCELLED (value FailureCode.CANCELLED) message now now.

(** A worker holds an unexpired lease on the job. *)
Definition has_valid_lease (now : datetime) (j : Job.DiscoveryJobRecord) : bool :=
  is_not_none (Job.execution_owner j)
  && match Job.lease_expires_at j with Some t => now <? t | None => false end.

(** The condition of the forced resolution. *)
Definition stale_cancellation (tenant_id : string) (job_id : UUID) (now : datetime)
    (j : Job.DiscoveryJobRecord) : bool :=
  in_state tenant_id job_id (value RUNNING) j
  && is_not_none (Job.cancellation_requested_at j)
  && (is_none (Job.execution_owner j)
      || match Job.lease_expires_at j with Some t => t <=? now | None => true end).

Definition running_child (tenant_id : string) (job_id : UUID) (j : Job.DiscoveryJobRecord)
    : bool :=
  (Job.tenant_id j ≟ tenant_id) && (Job.parent_job_id j ≟ Some job_id)
  && (Job.state j ≟ value RUNNING).

Definition active_child (tenant_id : string) (job_id : UUID) (j : Job.DiscoveryJobRecord)
    : bool :=
  (Job.tenant_id j ≟ tenant_id) && (Job.parent_job_id j ≟ Some job_id) && is_active j.

Section Cancellation.
Context `{IpLibrary}.

(** The reconciliation that follows a terminal write on a fan-out parent. *)
Definition reconcile_if_fanout (tenant_id : string) (target_id job_id : UUID)
    (interrupted : bool) : DbM unit :=
  target <- get_target target_id ;;
  match target with
  | Some t =>
      if is_fanout_scope (Target.scope_type t) then
        _ <- reconcile_parent_job tenant_id job_id interrupted DEFAULT_MAX_TARGETS ;;
        ret tt
      else ret tt
  | None => ret tt
  end.

(** [DiscoveryJobRepository.request_cancellation].  The session synchronises
  the loaded [job] object with the statement it executes, so the test
  [job.state == "queued"] that follows the update reads the updated row. *)
Definition request_cancellation (tenant_id : string) (job_id requested_by : UUID)
    (reason : string) : DbM (Job.DiscoveryJobRecord * bool) :=
  job <- get tenant_id job_id ;;
  match job with
  | None => raise DiscoveryResourceNotFoundError "Discovery job was not found."
  | Some job =>
      match of_value (Job.state job) with
      | None =>
          raise ValueError ("'" +:+ Job.state job +:+ "' is not a valid DiscoveryJobStatus")
      | Some st =>
          if is_terminal st then
            if Job.state job ≟ value CANCELLED then ret (job, false)
            else raise DiscoveryCancellationConflictError
                   ("Discovery job is already " +:+ Job.state job +:+ ".")
          else if is_not_none (Job.cancellation_requested_at job) then ret (job, false)
          else
            now <- utc_now ;;
            concurrent_commit ;;;
            ids <- update_jobs (in_state tenant_id job_id (Job.state job))
              (cancellation_values (Job.state job ≟ value QUEUED) now requested_by reason) ;;
            if is_nil ids then
              rollback ;;;
              current <- get tenant_id job_id ;;
              match current with
              | Some c =>
                  if Job.state c ≟ value CANCELLED then ret (c, false)
                  else raise DiscoveryCancellationConflictError
                    "Discovery job changed state before cancellation could be applied."
              | None => raise DiscoveryCancellationConflictError
                    "Discovery job changed state before cancellation could be applied."
              end
            else
              job <- get_existing tenant_id job_id ;;
              when (Job.state job ≟ value QUEUED)
                (reconcile_if_fanout tenant_id (Job.target_id job) job_id false) ;;;
              job <- get_existing tenant_id job_id ;;
              ret (job, true)
      end
  end.

(** [DiscoveryJobRepository.resolve_stale_cancellation]. *)
Definition resolve_stale_cancellation (tenant_id : string) (job_id : UUID)
    : DbM Job.DiscoveryJobRecord :=
  job <- get tenant_id job_id ;;
  match job with
  | None => raise DiscoveryResourceNotFoundError "Discovery job was not found."
  | Some job =>
      if Job.state job ≟ value CANCELLED then ret job
      else
        match of_value (Job.state job) with
        | None =>
            raise ValueError ("'" +:+ Job.state job +:+ "' is not a valid DiscoveryJobStatus")
        | Some st =>
            if is_terminal st then
              raise DiscoveryCancellationConflictError
                ("Discovery job is already in terminal state '" +:+ Job.state job +:+ "'.")
            else if negb (Job.state job ≟ value RUNNING) then
              raise DiscoveryCancellationConflictError
                ("Cannot force resolve job in '" +:+ Job.state job
                 +:+ "' state; use standard cancellation.")
            else if is_none (Job.cancellation_requested_at job) then
              raise DiscoveryCancellationConflictError
                "Cancellation was not requested for this discovery job."
            else
              now <- utc_now ;;
              if has_valid_lease now job then
                raise DiscoveryCancellationConflictError
                  "Cannot resolve cancellation for an actively executing job with a valid worker lease."
              else
                let message := or_str (Job.cancellation_reason job) "Cancelled by operator." in
                concurrent_commit ;;;
                ids <- update_jobs (stale_cancellation tenant_id job_id now)
                  (cancelled_values message now) ;;
                if is_nil ids then
                  rollback ;;;
                  current <- get tenant_id job_id ;;
                  match current with
                  | Some c =>
                      if Job.state c ≟ value CANCELLED then ret c
                      else if has_valid_lease now c then
                        raise DiscoveryCancellationConflictError
                          "Cannot resolve cancellation for an actively executing job with a valid worker lease."
                      else raise DiscoveryCancellationConflictError
                        "Discovery job state changed before cancellation could be resolved."
                  | None => raise DiscoveryCancellationConflictError
                        "Discovery job state changed before cancellation could be resolved."
                  end
                else
                  _ <- update_jobs (running_child tenant_id job_id)
                    (cancelled_values message now) ;;
                  reconcile_if_fanout tenant_id (Job.target_id job) job_id false ;;;
                  get_existing tenant_id job_id
        end
  end.

(** One turn of the loop over the children of [_reconcile_owned_tree]. *)
Definition reconcile_owned_child (tenant_id : string) (execution_owner : UUID)
    (target_state : DiscoveryJobStatus) (failure_code message : string)
    (child : Job.DiscoveryJobRecord) : DbM unit :=
  if Job.state child ≟ value QUEUED then
    completed_at <- utc_now ;;
    concurrent_commit ;;;
    updated_at <- utc_now ;;
    update_jobs (λ j, (Job.id j ≟ Job.id child) && (Job.tenant_id j ≟ tenant_id))
      (stopped_values target_state failure_code message completed_at updated_at) ;;;
    ret tt
  else if negb (Job.execution_owner child ≟ Some execution_owner) then ret tt
  else
    transition tenant_id (Job.id child) target_state (Some failure_code) (Some message) false
      (Some execution_owner) ;;;
    ret tt.

(** [DiscoveryJobRepository._reconcile_owned_tree]. *)
Definition reconcile_owned_tree (tenant_id : string) (job_id execution_owner : UUID)
    (failure_message : string) : DbM (option Job.DiscoveryJobRecord) :=
  job <- get tenant_id job_id ;;
  match job with
  | None => ret None
  | Some job =>
      cancel <- cancellation_requested tenant_id job_id ;;
      let target_state := if cancel : bool then CANCELLED else FAILED in
      let failure_code :=
        if cancel : bool then value FailureCode.CANCELLED
        else value FailureCode.DISCOVERY_FAILED in
      let message :=
        if cancel : bool then or_str (Job.cancellation_reason job) "Cancelled by operator."
        else failure_message in
      children <- query (λ d,
        List.filter (active_child tenant_id job_id) (rows (jobs d))) ;;
      for_each children
        (reconcile_owned_child tenant_id execution_owner target_state failure_code message) ;;;
      terminal <- transition tenant_id job_id target_state (Some failure_code) (Some message)
                    false (Some execution_owner) ;;
      reconcile_if_fanout tenant_id (Job.target_id job) job_id (negb cancel) ;;;
      ret (Some terminal)
  end.

(** [DiscoveryJobRepository.recover_expired_owned_job]. *)
Definition recover_expired_owned_job (tenant_id : string) (job_id : UUID)
    (stale_before : datetime) : DbM (option Job.DiscoveryJobRecord) :=
  if job_id ≟ PROTECTED_DISCOVERY_JOB_ID then ret None
  else
    job <- get tenant_id job_id ;;
    match job with
    | None => ret None
    | Some job =>
        match Job.execution_owner job, Job.lease_expires_at job, Job.last_heartbeat_at job with
        | Some owner, Some lease, Some _ =>
            if negb (Job.state job ≟ value RUNNING) || (stale_before <=? lease) then ret None
            else reconcile_owned_tree tenant_id job_id owner LEASE_EXPIRED_MESSAGE
        | _, _, _ => ret None
        end
    end.

(** [DiscoveryJobRepository.abandon_owned_job]. *)
Definition abandon_owned_job (tenant_id : string) (job_id execution_owner : UUID)
    (failure_message : string) : DbM (option Job.DiscoveryJobRecord) :=
  if job_id ≟ PROTECTED_DISCOVERY_JOB_ID then ret None
  else
    job <- owned_running_job tenant_id job_id execution_owner ;;
    match job with
    | None => ret None
    | Some _ => reconcile_owned_tree tenant_id job_id execution_owner failure_message
    end.
End Cancellation.
