(* ===== verification/Durability.v ===== *)
(** * Durability of the job table

    What every operation of the repository maintains, whatever other
    transactions commit in the windows between its reads and its guarded
    writes: rows are well formed ([job_wf]), rows only evolve forwards ([evolves]) and the
    index on active jobs holds.  The assignments of each statement keep a row well formed;
    tables, sessions, operations and the work list of the worker follow. *)

From stdpp Require Import sorting.
From S2P Require Import Prelude Vocabulary Effects Json Records Contracts Session.
From S2P Require Import JobRepository.
From S2P Require Import Fanout Cancellation.

#[local] Open Scope Z_scope.

(** ** One row *)

(** Position in the lifecycle. *)
Definition state_rank (state : string) : Z :=
  match of_value state with
  | Some QUEUED => 0
  | Some RUNNING => 1
  | _ => 2
  end.

Definition job_rank (j : Job.DiscoveryJobRecord) : Z := state_rank (Job.state j).

(** The ownership columns are all set, on a running job, or all null. *)
Definition lease_wf (j : Job.DiscoveryJobRecord) : Prop :=
  match Job.execution_owner j, Job.lease_expires_at j, Job.last_heartbeat_at j with
  | None, None, None => True
  | Some _, Some _, Some _ => Job.state j = value RUNNING
  | _, _, _ => False
  end.

Record job_wf (j : Job.DiscoveryJobRecord) : Prop := {
  wf_state : is_not_none (of_value (A := DiscoveryJobStatus) (Job.state j)) = true;
  wf_lease : lease_wf j;
  wf_completed : is_not_none (Job.completed_at j) = (job_rank j =? 2);
  wf_attempts : 0 <= Job.attempts j <= Z.min 1 (job_rank j);
}.

(** The columns a row keeps for life, and the outcome of a finished row. *)
Definition identity_of (j : Job.DiscoveryJobRecord) :=
  (Job.id j, Job.tenant_id j, Job.target_id j, Job.run_id j, Job.parent_job_id j,
   Job.requested_at j, Job.created_by j).

Definition outcome_of (j : Job.DiscoveryJobRecord) :=
  (Job.state j, Job.failure_code j, Job.failure_message j, Job.started_at j,
   Job.completed_at j).

(** How a row changes.  With [strict] the outcome of a finished row is final. *)
Record evolves (strict : bool) (j j' : Job.DiscoveryJobRecord) : Prop := {
  ev_identity : identity_of j' = identity_of j;
  ev_rank : job_rank j <= job_rank j';
  ev_attempts : Job.attempts j <= Job.attempts j';
  ev_cancellation : is_not_none (Job.cancellation_requested_at j) = true →
    is_not_none (Job.cancellation_requested_at j') = true;
  ev_settled : strict = true → job_rank j = 2 → outcome_of j' = outcome_of j;
}.

#[export] Instance evolves_preorder strict : PreOrder (evolves strict).
Proof.
  split.
  - intros j. by split; try lia.
  - intros a b c [H1 H2 H3 H4 H5] [K1 K2 K3 K4 K5]. split; [congruence|lia|lia|auto|].
    intros Hs Ha. rewrite K5, H5; auto.
    assert (job_rank c <= 2) by (unfold job_rank, state_rank; by repeat case_match).
    assert (job_rank b <= 2) by (unfold job_rank, state_rank; by repeat case_match).
    lia.
Qed.

Lemma evolves_weaken strict j j' : evolves true j j' → evolves strict j j'.
Proof. intros [? ? ? ? ?]; by split; auto. Qed.

Lemma job_rank_bounds j : 0 <= job_rank j <= 2.
Proof. unfold job_rank, state_rank. repeat case_match; lia. Qed.

Lemma job_rank_active j : is_active j = true ↔ job_rank j < 2.
Proof.
  unfold is_active, job_rank, state_rank. rewrite mem_true.
  rewrite !elem_of_cons, elem_of_nil. split.
  - by intros [-> | [-> | []]].
  - destruct (of_value (Job.state j)) as [st|] eqn:E; [|lia].
    apply of_value_Some in E. rewrite E. destruct st; cbn; try lia; auto.
Qed.

(** A statement that changes a row of the table. *)
Definition row_step (strict : bool) (v : Job.DiscoveryJobRecord → Job.DiscoveryJobRecord)
    (j : Job.DiscoveryJobRecord) : Prop :=
  job_wf j → evolves strict j (v j) ∧ job_wf (v j).

Lemma lease_wf_cases j :
  lease_wf j ↔
  (Job.execution_owner j = None ∧ Job.lease_expires_at j = None ∧ Job.last_heartbeat_at j = None) ∨
  (∃ o t h, Job.execution_owner j = Some o ∧ Job.lease_expires_at j = Some t ∧
            Job.last_heartbeat_at j = Some h ∧ Job.state j = value RUNNING).
Proof.
  unfold lease_wf. destruct (Job.execution_owner j), (Job.lease_expires_at j),
    (Job.last_heartbeat_at j); naive_solver.
Qed.

(** Evaluate ranks and memberships at the states of the lifecycle. *)
Ltac eval_states :=
  repeat match goal with
  | |- context [state_rank ?x] => is_ground x; let r := eval vm_compute in (state_rank x) in
      change (state_rank x) with r
  | H : context [state_rank ?x] |- _ => is_ground x; let r := eval vm_compute in (state_rank x) in
      change (state_rank x) with r in H
  | |- context [is_terminal ?x] => is_ground x; let r := eval vm_compute in (is_terminal x) in
      change (is_terminal x) with r
  | |- context [@eqb string ?d ?x ?y] => is_ground x; is_ground y;
      let r := eval vm_compute in (@eqb string d x y) in change (@eqb string d x y) with r
  end.

(** Prove a [row_step]: unfold the columns the statement assigns. *)
Ltac row_solve :=
  repeat match goal with
  | H : (_ && _)%bool = true |- _ => apply andb_true_iff in H as [??]
  | H : (_ || _)%bool = true |- _ => apply orb_true_iff in H as [?|?]
  | H : eqb _ _ = true |- _ => rewrite eqb_true in H
  | H : job_wf _ |- _ => destruct H as [? H ? ?];
      apply lease_wf_cases in H as [(?&?&?)|(?&?&?&?&?&?&?)]
  | j : Job.DiscoveryJobRecord |- _ => destruct j
  end; cbn in *; subst; try discriminate;
  eval_states; cbn;
  split; split; unfold lease_wf, job_rank, identity_of, outcome_of in *; cbn in *;
  eval_states; cbn in *; try done; try lia; auto.

Lemma claimed_step strict tenant_id job_id owner now lease j :
  claimable tenant_id job_id j = true → row_step strict (claimed owner now lease) j.
Proof. unfold row_step, claimable. intros Hw Hwf. row_solve. Qed.

Lemma renewed_step strict tenant_id job_id owner now lease j :
  renewable tenant_id job_id owner j = true → row_step strict (renewed now lease) j.
Proof.
  unfold row_step, renewable. intros Hw Hwf. row_solve.
Qed.

Lemma selection_step strict transport platform now j :
  row_step strict (λ j, j |> Job.set_selected_transport transport
                          |> Job.set_selected_platform platform
                          |> Job.set_updated_at now) j.
Proof. intros Hwf. row_solve. Qed.

Lemma stopped_step strict st code message completed_at updated_at j :
  is_terminal st = true → (strict = true → job_rank j < 2) →
  row_step strict (stopped_values st code message completed_at updated_at) j.
Proof.
  intros Hst Hs Hwf. pose proof (job_rank_bounds j).
  assert (state_rank (value st) = 2) by (destruct st; (discriminate || reflexivity)).
  assert (is_not_none (of_value (A := DiscoveryJobStatus) (value st)) = true)
    by (by rewrite of_value_value).
  destruct Hwf; destruct j; cbn in *; unfold job_rank, lease_wf, outcome_of in *; cbn in *.
  split; split; unfold lease_wf, job_rank, identity_of, outcome_of; cbn; try done; try lia.
  all: intros Ht Hr; specialize (Hs Ht); lia.
Qed.

Lemma cancellation_step strict tenant_id job_id state now requested_by reason j :
  (∃ st, of_value state = Some st ∧ is_terminal st = false) →
  in_state tenant_id job_id state j = true →
  row_step strict (cancellation_values (state ≟ value QUEUED) now requested_by reason) j.
Proof.
  unfold row_step, in_state. intros (st & Hst & Ht) Hw Hwf.
  apply of_value_Some in Hst. destruct st; try discriminate; subst state; row_solve.
Qed.

Lemma transition_step strict tenant_id job_id state current target require owner now code message j :
  of_value state = Some current → transition_job current target = Ret target →
  transition_where tenant_id job_id state require owner j = true →
  row_step strict (transition_values target now code message) j.
Proof.
  unfold row_step, transition_where, transition_values. intros Hst Ht Hw Hwf.
  apply of_value_Some in Hst. subst state.
  rewrite transition_job_Ret in Ht. destruct Ht as [_ Ht].
  destruct current, target; cbn in Ht;
    try (exfalso; revert Ht; rewrite ?elem_of_cons, elem_of_nil; intuition discriminate);
    clear Ht; destruct code, message; row_solve.
Qed.

(** ** Tables, sessions and operations

    [respects] is the relation that every operation keeps between the start and the end
    of a computation, next to other transactions; it is proved of the statements of a
    session first and of every operation from them. *)

(** ** Tables *)

Record table_wf (t : jobs_table) : Prop := {
  tw_key : ∀ k j, t !! k = Some j → Job.id j = k;
  tw_row : ∀ k j, t !! k = Some j → job_wf j;
}.

Definition table_evolves (strict : bool) (t t' : jobs_table) : Prop :=
  ∀ k j, t !! k = Some j → ∃ j', t' !! k = Some j' ∧ evolves strict j j'.

#[export] Instance table_evolves_preorder strict : PreOrder (table_evolves strict).
Proof.
  split.
  - intros t k j Hj. by exists j.
  - intros a b c Hab Hbc k j Hj. destruct (Hab k j Hj) as (j1 & Hj1 & E1).
    destruct (Hbc k j1 Hj1) as (j2 & Hj2 & E2). exists j2. split; [done|by etrans].
Qed.

Lemma evolves_active strict a b :
  evolves strict a b → is_active b = true → is_active a = true.
Proof. rewrite !job_rank_active. intros [? ? ? ? ?]. lia. Qed.

Lemma evolves_active_for strict tenant_id target_id a b :
  evolves strict a b → active_for tenant_id target_id b = true →
  active_for tenant_id target_id a = true.
Proof.
  intros E. unfold active_for. intros [H Ha]%andb_true_iff.
  rewrite (evolves_active _ _ _ E Ha). destruct E as [Hid _ _ _ _].
  unfold identity_of in Hid. injection Hid as _ Ht Hg _ _ _ _. by rewrite <-Ht, <-Hg, H.
Qed.

(** Rows that only evolve keep the index. *)
Lemma index_holds_evolves strict t t' :
  table_evolves strict t t' → (∀ k j', t' !! k = Some j' → is_Some (t !! k)) →
  index_holds t = true → index_holds t' = true.
Proof.
  rewrite !index_holds_true. intros Ht Hk Hi k1 k2 j1' j2' H1 H2 Ha1 Ha2.
  destruct (Hk k1 j1' H1) as [j1 H1o], (Hk k2 j2' H2) as [j2 H2o].
  destruct (Ht _ _ H1o) as (? & ? & E1), (Ht _ _ H2o) as (? & ? & E2); simplify_eq.
  apply (Hi k1 k2 j1 j2 H1o H2o).
  - by eapply evolves_active.
  - apply (evolves_active_for _ _ _ _ _ E2). destruct E1 as [Hid _ _ _ _].
    unfold identity_of in Hid. injection Hid as _ Hx Hy _ _ _ _. by rewrite <-Hx, <-Hy.
Qed.

Lemma table_evolves_update strict w v t :
  table_wf t → (∀ k j, t !! k = Some j → w j = true → row_step strict v j) →
  table_evolves strict t (update_rows w v t) ∧ table_wf (update_rows w v t).
Proof.
  intros [Hk Hr] Hw. split; [|split].
  - intros k j Hj. rewrite lookup_update_rows, Hj. cbn. eexists. split; [done|].
    destruct (w j) eqn:E; [|done]. by eapply Hw; eauto.
  - intros k j'. rewrite lookup_update_rows, fmap_Some. intros (j & Hj & ->).
    rewrite <-(Hk k j Hj). destruct (w j) eqn:E; [|done].
    destruct (Hw k j Hj E (Hr k j Hj)) as [[Hid _ _ _ _] _]. unfold identity_of in Hid. congruence.
  - intros k j'. rewrite lookup_update_rows, fmap_Some. intros (j & Hj & ->).
    destruct (w j) eqn:E; [|eauto]. by eapply Hw; eauto.
Qed.

Lemma table_wf_keep_locked l mine theirs :
  table_wf mine → table_wf theirs → table_wf (keep_locked l mine theirs).
Proof.
  intros [Hk Hr] [Hk' Hr'].
  split; intros k j; rewrite lookup_keep_locked; case_decide; eauto.
Qed.

(** ** Sessions *)

(** What another transaction may do to the committed rows. *)
Definition rely (strict : bool) (f : jobs_table → jobs_table) : Prop :=
  ∀ t, table_wf t → table_wf (f t) ∧ table_evolves strict t (f t).

Record session_wf (strict : bool) (s : Session) : Prop := {
  sw_view : table_wf (jobs (view s));
  sw_committed : table_wf (jobs (committed s));
  sw_index : index_holds (jobs (view s)) = true;
  sw_committed_index : index_holds (jobs (committed s)) = true;
  sw_unlocked : ∀ k, k ∉ locked s → jobs (view s) !! k = jobs (committed s) !! k;
  sw_pending : table_evolves strict (jobs (committed s)) (jobs (view s));
  sw_rely : Forall (rely strict) (interference s);
}.

(** The relation every operation respects: from a well-formed session it
    reaches one, and the durable rows have only evolved. *)
Definition respects (strict : bool) (s s' : Session) : Prop :=
  session_wf strict s →
  session_wf strict s' ∧ table_evolves strict (jobs (committed s)) (jobs (committed s')).

#[export] Instance respects_preorder strict : PreOrder (respects strict).
Proof.
  split.
  - intros s Hs. by split.
  - intros a b c Hab Hbc Ha. destruct (Hab Ha) as [Hb Eab]. destruct (Hbc Hb) as [Hc Ebc].
    split; [done|by etrans].
Qed.

Lemma respects_intro strict s s' :
  (session_wf strict s → respects strict s s') → respects strict s s'.
Proof. intros H Hs. by apply H. Qed.

(** ** Statements of a session *)

Lemma respects_same strict s s' :
  jobs (view s') = jobs (view s) → jobs (committed s') = jobs (committed s) →
  locked s' = locked s → interference s' = interference s → respects strict s s'.
Proof.
  intros Hv Hc Hl Hi [? ? ? ? ? ? ?].
  split; [split|]; rewrite ?Hv, ?Hc, ?Hl, ?Hi; done.
Qed.

Lemma preserves_utc_now strict : preserves (respects strict) utc_now.
Proof. intros s. by apply respects_same. Qed.

Lemma preserves_uuid4 strict : preserves (respects strict) uuid4.
Proof. intros s. by apply respects_same. Qed.

Lemma preserves_on_view strict f :
  (∀ d, jobs (f d) = jobs d) → preserves (respects strict) (on_view f).
Proof. intros Hf s. apply respects_same; cbn; auto. Qed.

Lemma preserves_commit strict : preserves (respects strict) commit.
Proof. intros s [? ? ? ? ? ? ?]. split; [by split|done]. Qed.

Lemma preserves_rollback strict : preserves (respects strict) rollback.
Proof. intros s [? ? ? ? ? ? ?]. split; [by split|done]. Qed.

Lemma preserves_concurrent_commit strict : preserves (respects strict) concurrent_commit.
Proof.
  intros s Hs. unfold concurrent_commit.
  destruct (interference s) as [|f fs] eqn:Ei; [by split|].
  cbn. unfold other_commits. cbn.
  destruct Hs as [Hv Hc Hiv Hic Hu Hp Hr]. rewrite Ei in Hr.
  apply Forall_cons in Hr as [Hf Hfs]. destruct (Hf _ Hc) as [Hft Hfe].
  destruct (_ && _) eqn:E; cbn; [|by split].
  apply andb_true_iff in E as [E1 E2].
  split; [split|]; cbn; auto using table_wf_keep_locked.
  - intros k Hk. rewrite !lookup_keep_locked. by case_decide.
  - intros k j. rewrite !lookup_keep_locked. case_decide; [apply Hp|]. by exists j.
  - intros k j Hj. rewrite lookup_keep_locked. case_decide; [by exists j|]. by apply Hfe.
Qed.

Lemma respects_update_at strict w v s :
  (∀ k j, jobs (view s) !! k = Some j → w j = true → row_step strict v j) →
  respects strict s (update_jobs w v s).2.
Proof.
  intros Hw [Hv Hc Hiv Hic Hu Hp Hr]. cbn.
  destruct (table_evolves_update strict w v _ Hv Hw) as [He Hwf].
  split; [split|]; cbn; auto.
  - eapply index_holds_evolves; [done| |done]. intros k j'.
    rewrite lookup_update_rows, fmap_Some. intros (j & -> & _). done.
  - intros k. rewrite not_elem_of_union, elem_of_list_to_set, elem_of_matching.
    intros [Hk Hm]. rewrite lookup_update_rows, <-(Hu k Hk).
    destruct (jobs (view s) !! k) as [j|] eqn:Ej; [cbn|done].
    destruct (w j) eqn:E; [|done]. exfalso. eauto.
  - by etrans.
  - done.
Qed.

Lemma preserves_update_jobs strict w v :
  (∀ j, w j = true → row_step strict v j) → preserves (respects strict) (update_jobs w v).
Proof. intros Hw s. apply respects_update_at. eauto. Qed.

Lemma preserves_insert_job strict j :
  job_wf j → preserves (respects strict) (insert_job j).
Proof.
  intros Hj s. unfold insert_job. destruct (_ || _) eqn:E; [done|].
  apply orb_false_iff in E as [Ek Ea]. intros [Hv Hc Hiv Hic Hu Hp Hr].
  destruct (jobs (view s) !! Job.id j) eqn:Ej; [done|].
  split; [split|]; cbn; auto.
  - destruct Hv as [Hvk Hvr].
    split; intros k j'; rewrite lookup_insert_Some; naive_solver.
  - rewrite index_holds_true in Hiv |- *. intros k1 k2 j1 j2.
    rewrite !lookup_insert_Some. intros [[<- <-]|[Hn1 H1]] [[<- <-]|[Hn2 H2]] Ha1 Ha2;
      eauto; exfalso; clear Hiv;
      (assert (is_active j = true) as Hact
        by (done || (unfold active_for in Ha2; by apply andb_true_iff in Ha2 as [_ ?])));
      rewrite Hact in Ea; cbn in Ea; apply negb_false_iff in Ea;
      destruct (matching _ _) eqn:Em in Ea; try done; rewrite matching_nil in Em.
    + by rewrite (Em _ _ H2) in Ha2.
    + specialize (Em _ _ H1). unfold active_for in Em, Ha2. rewrite Ha1 in Em.
      rewrite !andb_true_iff, !eqb_true in Ha2. destruct Ha2 as [[Hx Hy] _]. by rewrite Hx, Hy, !Prelude.eqb_refl in Em.
  - intros k. rewrite not_elem_of_union, elem_of_singleton. intros [Hk1 Hk2].
    rewrite lookup_insert_ne by done. auto.
  - intros k j' Hj'. destruct (Hp k j' Hj') as (j2 & Hj2 & E2). exists j2.
    split; [|done]. rewrite lookup_insert_ne; [done|]. intros <-. congruence.
  - done.
Qed.

(** Reads, and writes to the other tables. *)
Lemma preserves_query strict {A} (f : DB → A) : preserves (respects strict) (query f).
Proof. apply preserves_gets. apply _. Qed.

#[export] Hint Resolve preserves_utc_now preserves_uuid4 preserves_commit preserves_rollback
  preserves_concurrent_commit preserves_query : preserves.
#[export] Hint Extern 1 (preserves _ (on_view _)) =>
  apply preserves_on_view; reflexivity : preserves.
#[export] Hint Unfold put_target put_run put_device_result insert_device_result put_attempt put_evidence
  get_target get_run get_job get get_existing : preserves.

(** Decompose an operation down to its statements on the job table. *)
Ltac operation := repeat (autounfold with preserves; preserves_step).

(** ** Operations of the repository *)

Section Operations.
Context (strict : bool).

Lemma preserves_create tenant_id target_id run_id parent created_by caps timeout corr :
  preserves (respects strict)
    (create tenant_id target_id run_id parent created_by caps timeout corr).
Proof.
  unfold create. operation. apply preserves_insert_job. by split; cbn.
Qed.
#[local] Hint Resolve preserves_create : preserves.

Lemma preserves_claim tenant_id job_id owner lease :
  preserves (respects strict) (claim tenant_id job_id owner lease).
Proof.
  unfold claim. operation. apply preserves_update_jobs. eauto using claimed_step.
Qed.
#[local] Hint Resolve preserves_claim : preserves.

Lemma preserves_renew_lease tenant_id job_id owner lease :
  preserves (respects strict) (renew_lease tenant_id job_id owner lease).
Proof.
  unfold renew_lease. operation. apply preserves_update_jobs. eauto using renewed_step.
Qed.
#[local] Hint Resolve preserves_renew_lease : preserves.

Lemma preserves_transition tenant_id job_id target code message require owner :
  preserves (respects strict) (transition tenant_id job_id target code message require owner).
Proof.
  unfold transition. operation. apply preserves_update_jobs. intros j Hj.
  match goal with H : transition_job _ _ = Ret ?x |- _ =>
    pose proof H as Ht; rewrite transition_job_Ret in H; destruct H as [-> _] end.
  eauto using transition_step.
Qed.
#[local] Hint Resolve preserves_transition : preserves.

Lemma preserves_finalise_cancellation tenant_id job_id owner :
  preserves (respects strict) (finalise_cancellation tenant_id job_id owner).
Proof. unfold finalise_cancellation. operation. Qed.

Lemma preserves_mark_failed_after_rollback tenant_id job_id code message owner :
  preserves (respects strict) (mark_failed_after_rollback tenant_id job_id code message owner).
Proof. unfold mark_failed_after_rollback. operation. Qed.

Lemma preserves_record_selection tenant_id job_id transport platform :
  preserves (respects strict) (record_selection tenant_id job_id transport platform).
Proof.
  unfold record_selection. operation. apply preserves_update_jobs. intros j _.
  apply selection_step.
Qed.

(** Fan-out. *)
Lemma preserves_child_target tenant_id scope address :
  preserves (respects strict) (child_target tenant_id scope address).
Proof. unfold child_target, find_target. operation. Qed.
#[local] Hint Resolve preserves_child_target : preserves.

Lemma preserves_create_child tenant_id parent scope address :
  preserves (respects strict) (create_child tenant_id parent scope address).
Proof.
  unfold create_child. operation.
Qed.
#[local] Hint Resolve preserves_create_child : preserves.

Lemma preserves_finalize_parent_run parent n results :
  preserves (respects strict) (finalize_parent_run parent n results).
Proof. unfold finalize_parent_run. operation. Qed.
#[local] Hint Resolve preserves_finalize_parent_run : preserves.

(** Once the statement of a cancellation has found the job, the job is not queued
    any more: the reconciliation that follows is for none. *)
Lemma cancelled_not_queued tenant_id job_id state now requested_by reason s ids s' j :
  (∃ st, of_value state = Some st ∧ is_terminal st = false) →
  table_wf (jobs (view s)) →
  update_jobs (in_state tenant_id job_id state)
    (cancellation_values (state ≟ value QUEUED) now requested_by reason) s = (Ret ids, s') →
  is_nil ids = false → jobs (view s') !! job_id = Some j → Job.state j ≠ value QUEUED.
Proof.
  intros (st & Hst & Hte) [Hk _] [= <- <-] Hn. cbn. rewrite lookup_update_rows, fmap_Some.
  apply of_value_Some in Hst. subst state.
  intros (j0 & Hj0 & ->). destruct (in_state _ _ _ j0) eqn:Hw.
  - unfold in_state in Hw. rewrite !andb_true_iff, !eqb_true in Hw. destruct Hw as [_ Hw].
    destruct st; try discriminate.
    by change (Job.state j0 ≠ value QUEUED); rewrite Hw.
  - exfalso. destruct (matching _ _) as [|k ks] eqn:Em; [done|].
    assert (k ∈ matching (in_state tenant_id job_id (value st)) (jobs (view s))) as Hin
      by (rewrite Em; apply list_elem_of_here).
    apply elem_of_matching in Hin as (j1 & Hj1 & Hw1). pose proof Hw1 as Hw2.
    unfold in_state in Hw2. rewrite !andb_true_iff, !eqb_true in Hw2.
    rewrite <-(Hk _ _ Hj1), (proj1 (proj1 Hw2)) in Hj1. congruence.
Qed.

Context `{IpLibrary}.

Lemma get_existing_cases tenant_id job_id s :
  (∃ j, jobs (view s) !! job_id = Some j ∧ get_existing tenant_id job_id s = (Ret j, s)) ∨
  ∃ e, get_existing tenant_id job_id s = (Raise e, s).
Proof.
  unfold get_existing, get, query, gets, bind. cbn.
  destruct (jobs (view s) !! job_id) as [j|] eqn:Ej; cbn; [|right; by eexists].
  destruct (_ ≟ _); [left; by exists j|right; by eexists].
Qed.

Lemma preserves_cancellation_write tenant_id job_id state now requested_by reason miss :
  (∃ st, of_value state = Some st ∧ is_terminal st = false) →
  preserves (respects strict) miss →
  preserves (respects strict)
    (ids <- update_jobs (in_state tenant_id job_id state)
       (cancellation_values (state ≟ value QUEUED) now requested_by reason) ;;
     if is_nil ids then miss
     else
       job <- get_existing tenant_id job_id ;;
       when (Job.state job ≟ value QUEUED)
         (reconcile_if_fanout tenant_id (Job.target_id job) job_id false) ;;;
       job <- get_existing tenant_id job_id ;;
       ret (job, true))%py.
Proof.
  intros Hst Hm s. apply respects_intro. intros Hs.
  assert (respects strict s (update_jobs (in_state tenant_id job_id state)
    (cancellation_values (state ≟ value QUEUED) now requested_by reason) s).2) as Hu
    by (apply respects_update_at; eauto using cancellation_step).
  destruct (update_jobs _ _ s) as [[ids|e] s'] eqn:Eu; [|discriminate Eu].
  erewrite bind_Ret by exact Eu. etrans; [exact Hu|].
  destruct (is_nil ids) eqn:En; [apply Hm|].
  destruct (get_existing_cases tenant_id job_id s') as [(j & Ej & Eg)|[e Eg]].
  2: by unfold bind at 1; rewrite Eg; apply respects_same.
  erewrite bind_Ret by exact Eg.
  pose proof (cancelled_not_queued _ _ _ _ _ _ _ _ _ _ Hst (sw_view _ _ Hs) Eu En Ej) as Hq.
  rewrite <-eqb_false in Hq. rewrite Hq. cbn [when].
  assert (preserves (respects strict) (ret tt ;;; job <- get_existing tenant_id job_id ;; ret (job, true))%py)
    as Hp by operation. apply Hp.
Qed.

Lemma preserves_request_cancellation tenant_id job_id requested_by reason :
  preserves (respects strict) (request_cancellation tenant_id job_id requested_by reason).
Proof.
  unfold request_cancellation.
  repeat (autounfold with preserves; first
    [apply preserves_cancellation_write; [by eauto|operation] | preserves_step]).
Qed.
End Operations.

(** ** Operations that stop children

    The loops over the children stop what they have read as unfinished by a statement
    that names the row only: a child that another worker finishes meanwhile is
    overwritten, so these operations keep the weaker relation only. *)
Section OwnedTree.
#[local] Hint Resolve preserves_transition preserves_create_child preserves_finalize_parent_run
  : preserves.

Lemma preserves_reconcile_child tenant_id interrupted child_id :
  preserves (respects false)
    (reconcile_child tenant_id (unfinished_outcome interrupted) child_id).
Proof.
  unfold reconcile_child. operation. apply preserves_update_jobs. intros j _.
  unfold stop_child. apply stopped_step; [by destruct interrupted|done].
Qed.
#[local] Hint Resolve preserves_reconcile_child : preserves.

Lemma preserves_reconcile_addresses tenant_id parent target interrupted by_address addresses :
  preserves (respects false)
    (reconcile_addresses tenant_id parent target (unfinished_outcome interrupted)
       by_address addresses).
Proof.
  revert by_address. induction addresses as [|a l IH]; intros by_address;
    cbn [reconcile_addresses]; unfold reconcile_result; operation; apply IH.
Qed.
#[local] Hint Resolve preserves_reconcile_addresses : preserves.

Context `{IpLibrary}.

Lemma preserves_reconcile_parent_job tenant_id parent_id interrupted max_targets :
  preserves (respects false) (reconcile_parent_job tenant_id parent_id interrupted max_targets).
Proof. unfold reconcile_parent_job, expected_addresses, results_of. operation. Qed.
#[local] Hint Resolve preserves_reconcile_parent_job : preserves.

Lemma preserves_reconcile_if_fanout tenant_id target_id job_id interrupted :
  preserves (respects false) (reconcile_if_fanout tenant_id target_id job_id interrupted).
Proof. unfold reconcile_if_fanout. operation. Qed.
#[local] Hint Resolve preserves_reconcile_if_fanout : preserves.

Lemma preserves_resolve_stale_cancellation tenant_id job_id :
  preserves (respects false) (resolve_stale_cancellation tenant_id job_id).
Proof.
  unfold resolve_stale_cancellation.
  operation; apply preserves_update_jobs; intros j Hj;
    unfold cancelled_values; by apply stopped_step.
Qed.

Lemma preserves_reconcile_owned_child tenant_id owner st code message child :
  is_terminal st = true →
  preserves (respects false) (reconcile_owned_child tenant_id owner st code message child).
Proof.
  intros Hst. unfold reconcile_owned_child. operation. apply preserves_update_jobs.
  intros j _. by apply stopped_step.
Qed.

Lemma preserves_reconcile_owned_tree tenant_id job_id owner message :
  preserves (respects false) (reconcile_owned_tree tenant_id job_id owner message).
Proof.
  unfold reconcile_owned_tree, cancellation_requested. operation.
  apply preserves_reconcile_owned_child. by case_match.
Qed.
#[local] Hint Resolve preserves_reconcile_owned_tree : preserves.

Lemma preserves_recover_expired_owned_job tenant_id job_id stale_before :
  preserves (respects false) (recover_expired_owned_job tenant_id job_id stale_before).
Proof. unfold recover_expired_owned_job. operation. Qed.

Lemma preserves_abandon_owned_job tenant_id job_id owner message :
  preserves (respects false) (abandon_owned_job tenant_id job_id owner message).
Proof. unfold abandon_owned_job, owned_running_job. operation. Qed.
End OwnedTree.

#[export] Hint Resolve preserves_create preserves_claim preserves_renew_lease preserves_transition
  preserves_finalise_cancellation preserves_mark_failed_after_rollback preserves_record_selection
  preserves_create_child preserves_finalize_parent_run preserves_reconcile_parent_job
  preserves_request_cancellation preserves_resolve_stale_cancellation
  preserves_recover_expired_owned_job preserves_abandon_owned_job : preserves.

(** * The work list of the worker

    [list_queued_roots] is where a worker finds its next jobs. *)

(** The work list holds at most [limit] unclaimed queued roots, oldest
    first, and leaves out a queued root only for older ones; the protected job is
    never in it. *)
Theorem list_queued_roots_fifo limit s :
  ∃ js, list_queued_roots limit s = (Ret (map (λ j, (Job.tenant_id j, Job.id j)) js), s) ∧
    Sorted requested_before js ∧ (length js <= limit)%nat ∧
    (∀ j, j ∈ js → queued_root j = true ∧ Job.id j ≠ PROTECTED_DISCOVERY_JOB_ID ∧
       ∃ k, jobs (view s) !! k = Some j) ∧
    (∀ k j, jobs (view s) !! k = Some j → queued_root j = true →
       j ∈ js ∨ (length js = limit ∧ ∀ j', j' ∈ js → Job.requested_at j' <= Job.requested_at j)).
Proof.
  set (roots := merge_sort requested_before (List.filter queued_root (rows (jobs (view s))))).
  assert (Sorted requested_before roots) as Hs by (apply Sorted_merge_sort; apply _).
  assert (∀ j, j ∈ roots ↔ queued_root j = true ∧ ∃ k, jobs (view s) !! k = Some j) as Hin.
  { intros j. subst roots. rewrite (merge_sort_Permutation requested_before).
    rewrite list_elem_of_In, filter_In, <-list_elem_of_In. unfold rows.
    rewrite list_elem_of_fmap. split.
    - intros [([k ?] & -> & Hk) ?]. rewrite elem_of_map_to_list in Hk. eauto.
    - intros [? [k Hk]]. split; [|done]. exists (k, j). by rewrite elem_of_map_to_list. }
  exists (take limit roots). split_and!.
  - done.
  - apply StronglySorted_Sorted, (StronglySorted_app_1_l _ _ (drop limit roots));
    rewrite take_drop; by apply Sorted_StronglySorted; [apply _|].
  - rewrite length_take. lia.
  - intros j Hj. apply elem_of_take in Hj as (i & Hi & _).
    apply list_elem_of_lookup_2, Hin in Hi as [Hq Hk]. split_and!; [done| |done].
    unfold queued_root in Hq. rewrite !andb_true_iff, negb_true_iff, eqb_false in Hq.
    naive_solver.
  - intros k j Hj Hq. assert (j ∈ roots) as Hr by (apply Hin; eauto).
    rewrite <-(take_drop limit roots) in Hr. apply elem_of_app in Hr as [Hr|Hr]; [auto|right].
    split.
    + rewrite length_take. apply list_elem_of_In in Hr.
      destruct (decide (limit < length roots)%nat); [lia|]. by rewrite drop_ge in Hr by lia.
    + intros j' Hj'. apply Sorted_StronglySorted in Hs; [|apply _].
      rewrite <-(take_drop limit roots) in Hs. by eapply (StronglySorted_app_1_elem_of _ _ _ _ _ Hs).
Qed.

(** The roots of the work list are distinct rows. *)
Lemma queued_roots_distinct limit s :
  table_wf (jobs (view s)) →
  ∃ js, list_queued_roots limit s = (Ret (map (λ j, (Job.tenant_id j, Job.id j)) js), s) ∧
    NoDup (map Job.id js) ∧
    ∀ j, j ∈ js → queued_root j = true ∧ jobs (view s) !! Job.id j = Some j.
Proof.
  intros [Hk _].
  set (roots := merge_sort requested_before (List.filter queued_root (rows (jobs (view s))))).
  assert (map Job.id (rows (jobs (view s))) = map fst (map_to_list (jobs (view s)))) as Hids.
  { unfold rows. rewrite map_map. apply map_ext_in. intros [k j] Hj.
    apply list_elem_of_In, elem_of_map_to_list in Hj. by apply Hk. }
  assert (NoDup (map Job.id roots)) as Hn.
  { subst roots. rewrite (merge_sort_Permutation requested_before).
    assert (NoDup (map Job.id (rows (jobs (view s))))) as Hn by (rewrite Hids; apply NoDup_fst_map_to_list).
    revert Hn. clear Hids. induction (rows (jobs (view s))) as [|j l IH]; [done|]. cbn.
    rewrite NoDup_cons. intros [Hni Hn]. destruct (queued_root j); [|auto]. cbn.
    rewrite NoDup_cons. split; [|auto]. intros Hin. apply Hni.
    rewrite list_elem_of_In, in_map_iff in Hin |- *. destruct Hin as (j' & He & Hin).
    apply List.filter_In in Hin as [Hin _]. eauto. }
  exists (take limit roots). split; [done|]. split.
  - rewrite <-(take_drop limit roots), map_app in Hn. by apply NoDup_app in Hn as [Hn _].
  - intros j Hj. apply elem_of_take in Hj as (i & Hi & _). apply list_elem_of_lookup_2 in Hi.
    subst roots. rewrite (merge_sort_Permutation requested_before) in Hi.
    rewrite list_elem_of_In, List.filter_In, <-list_elem_of_In in Hi. destruct Hi as [Hi Hq].
    split; [done|]. unfold rows in Hi. apply list_elem_of_fmap in Hi as ([k j'] & -> & Hi).
    rewrite elem_of_map_to_list in Hi. cbn. by rewrite (Hk _ _ Hi).
Qed.
