(* ===== verification/Demo.v ===== *)
(** * Sessions to evaluate the model on

    A small database and the sessions opened on it, shared by the witnesses
    that apply the theorems at concrete inputs. *)

From S2P Require Import Prelude Vocabulary Effects Json Records Contracts Session.
From S2P Require Import JobRepository Cancellation Durability.
#[local] Open Scope Z_scope.

Definition empty_db : DB := {|
  targets := ∅; profiles := ∅; runs := ∅; jobs := ∅; device_results := ∅; attempts := ∅;
  evidence := ∅ |}.

(** A session opened on [db]; [fs] is what other transactions will commit. *)
Definition open_session (db : DB) (fs : list (jobs_table → jobs_table)) : Session := {|
  view := db; committed := db; locked := ∅; interference := fs;
  clock := λ n, 1000000 * Z.of_nat n; ticks := 0; uuids := λ n, (1000 + N.of_nat n)%N;
  drawn := 0 |}.

Lemma open_session_wf strict db fs :
  table_wf (jobs db) → index_holds (jobs db) = true → Forall (rely strict) fs →
  session_wf strict (open_session db fs).
Proof. intros Ht Hi Hf. by split. Qed.

Lemma rely_update strict w v :
  (∀ j, w j = true → row_step strict v j) → rely strict (update_rows w v).
Proof.
  intros Hw t Ht. destruct (table_evolves_update strict w v t Ht) as [He Hwf]; eauto.
Qed.

(** Tables from lists of rows. *)
Definition job_table (js : list Job.DiscoveryJobRecord) : jobs_table :=
  list_to_map (map (λ j, (Job.id j, j)) js).

Lemma job_table_wf js : Forall job_wf js → table_wf (job_table js).
Proof.
  intros Hjs. assert (∀ k j, job_table js !! k = Some j → j ∈ js ∧ Job.id j = k) as Hin.
  { intros k j Hj. apply elem_of_list_to_map_2 in Hj.
    apply list_elem_of_fmap in Hj as (j' & [= -> ->] & ?). done. }
  split; intros k j Hj; apply Hin in Hj as [Hj Hk]; [done|].
  rewrite Forall_forall in Hjs. auto.
Qed.

(** A queued job of the tenant ["acme"], and the same job under a lease. *)
Definition queued_job (id target : UUID) (parent : option UUID) : Job.DiscoveryJobRecord := {|
  Job.id := id; Job.tenant_id := "acme"; Job.target_id := target; Job.run_id := 50%N;
  Job.parent_job_id := parent; Job.runtime_job_id := None; Job.state := value QUEUED;
  Job.failure_code := None; Job.failure_message := None; Job.requested_at := 0;
  Job.started_at := None; Job.completed_at := None; Job.created_by := None; Job.updated_at := 0;
  Job.requested_capabilities := []; Job.selected_transport := None;
  Job.selected_platform := None; Job.attempts := 0; Job.timeout_seconds := None;
  Job.correlation_id := None; Job.cancellation_requested_at := None;
  Job.cancellation_requested_by := None; Job.cancellation_reason := None;
  Job.execution_owner := None; Job.lease_expires_at := None; Job.last_heartbeat_at := None |}.

Definition running_job (id target : UUID) (parent : option UUID) (owner : UUID)
    : Job.DiscoveryJobRecord :=
  claimed owner 0 60%Q (queued_job id target parent).

Definition finished_job (id target : UUID) (owner : UUID) : Job.DiscoveryJobRecord :=
  transition_values SUCCEEDED 5 None None (running_job id target None owner).

Ltac solve_demo_wf := repeat first [apply Forall_nil_2 | apply Forall_cons_2];
  split; cbn; done || lia.

(** Jobs 1 (queued), 2 (running, owned by 7) and 3 (finished), and another
    worker, 8, that claims what it finds queued. *)
Definition demo_db : DB :=
  set_jobs (job_table [queued_job 1 11 None; running_job 2 12 None 7; finished_job 3 13 7]) empty_db.

Definition other_claims (job_id : UUID) : jobs_table → jobs_table :=
  update_rows (claimable "acme" job_id) (claimed 8%N 1 60%Q).

Definition demo_session : Session := open_session demo_db [other_claims 4; other_claims 1].

Lemma demo_session_wf strict : session_wf strict demo_session.
Proof.
  apply open_session_wf; [apply job_table_wf; solve_demo_wf|vm_compute; reflexivity|].
  repeat apply Forall_cons_2; try apply Forall_nil_2; apply rely_update; intros j;
    apply claimed_step.
Qed.

(** The scope [10.0.0.0/30] of the same tenant. *)
Definition scope_target : Target.DiscoveryTargetRecord := {|
  Target.id := 11%N; Target.tenant_id := "acme"; Target.identifier := "lab";
  Target.address := "10.0.0.0"; Target.scope_type := "cidr_network";
  Target.scope_end := None; Target.scope_cidr := Some "10.0.0.0/30"%string;
  Target.vendor := None; Target.hostname := None; Target.platform_hint := None;
  Target.preferred_transport := None; Target.enabled := true;
  Target.credential_reference := "vault:lab"; Target.credential_profile_id := None;
  Target.credential_references := []; Target.allowed_fallback_transports := [];
  Target.allow_insecure_telnet := false; Target.allow_insecure_http := false;
  Target.metadata_json := []; Target.created_by := None; Target.created_at := 0;
  Target.updated_at := 0 |}.
