(* ===== verification/JobBehaviour.v ===== *)
(** * What the repository operations do

    The functional behaviour of the operations on one job: each is a read
    followed by a guarded write, and [guarded_write] says what such a pair
    does to the row. *)

From S2P Require Import Prelude Vocabulary Effects Json Records Contracts IPv4 Session.
From S2P Require Import JobRepository Fanout Cancellation Durability Demo.

#[local] Open Scope Z_scope.

(** ** Guarded writes *)

Section GuardedWrite.
Context (w : Job.DiscoveryJobRecord → bool)
        (v : Job.DiscoveryJobRecord → Job.DiscoveryJobRecord)
        (tenant_id : string) (job_id : UUID).
Context (Hw : ∀ j, w j = true → Job.id j = job_id ∧ Job.tenant_id j = tenant_id).
Context (Hv : ∀ j, Job.tenant_id (v j) = Job.tenant_id j).

Lemma update_rows_one (t : jobs_table) j :
  table_wf t → t !! job_id = Some j → w j = true →
  update_rows w v t = <[job_id := v j]> t.
Proof.
  intros [Hk _] Hj Hwj. apply map_eq. intros k. rewrite lookup_update_rows.
  destruct (decide (k = job_id)) as [->|Hn].
  - rewrite lookup_insert_eq, Hj. cbn. by rewrite Hwj.
  - rewrite lookup_insert_ne by done. destruct (t !! k) as [j'|] eqn:E; [cbn|done].
    destruct (w j') eqn:Ew; [|done]. apply Hw in Ew as [Hid _].
    rewrite (Hk k j' E) in Hid. done.
Qed.

Lemma update_rows_none (t : jobs_table) :
  matching w t = [] → update_rows w v t = t.
Proof.
  rewrite matching_nil. intros Hn. apply map_eq. intros k. rewrite lookup_update_rows.
  destruct (t !! k) as [j'|] eqn:E; [cbn|done]. by rewrite (Hn k j' E).
Qed.

Lemma matching_one (t : jobs_table) j :
  table_wf t → t !! job_id = Some j → w j = true →
  (list_to_set (matching w t) : gset UUID) = {[job_id]} ∧ is_nil (matching w t) = false.
Proof.
  intros [Hk _] Hj Hwj.
  assert (job_id ∈ matching w t) as Hin by (rewrite elem_of_matching; eauto).
  split.
  - apply set_eq. intros k. rewrite elem_of_list_to_set, elem_of_matching, elem_of_singleton.
    split; [|intros ->; eauto]. intros (j' & Hj' & Hw'). apply Hw in Hw' as [Hid _].
    by rewrite <-(Hk k j' Hj').
  - destruct (matching w t); [by apply not_elem_of_nil in Hin|done].
Qed.

Lemma matching_none (t : jobs_table) :
  table_wf t → (∀ j, t !! job_id = Some j → w j = false) → matching w t = [].
Proof.
  intros [Hk _] Hn. apply matching_nil. intros k j Hj. destruct (w j) eqn:E; [|done].
  pose proof (Hw j E) as [Hid _]. rewrite (Hk k j Hj) in Hid. subst k.
  by rewrite (Hn j Hj) in E.
Qed.

(** The session after a write to the row [job_id]. *)
Definition wrote (j : Job.DiscoveryJobRecord) (s : Session) : Session :=
  set_locked (locked s ∪ {[job_id]})
    (set_view (set_jobs (<[job_id := j]> (jobs (view s))) (view s)) s).

Lemma update_jobs_one s j :
  table_wf (jobs (view s)) → jobs (view s) !! job_id = Some j → w j = true →
  ∃ ids, is_nil ids = false ∧ update_jobs w v s = (Ret ids, wrote (v j) s).
Proof.
  intros Ht Hj Hwj. destruct (matching_one _ _ Ht Hj Hwj) as [Hl Hn].
  eexists. split; [exact Hn|]. unfold update_jobs, wrote.
  by rewrite (update_rows_one _ _ Ht Hj Hwj), Hl.
Qed.

Lemma update_jobs_none s :
  table_wf (jobs (view s)) → (∀ j, jobs (view s) !! job_id = Some j → w j = false) →
  update_jobs w v s = (Ret [], s).
Proof.
  intros Ht Hn. unfold update_jobs. rewrite (matching_none _ Ht Hn).
  rewrite update_rows_none by (by apply matching_none).
  rewrite list_to_set_nil, union_empty_r_L. destruct s as [vw ? ? ? ? ? ? ?]. by destruct vw.
Qed.

Lemma get_existing_wrote s j :
  Job.tenant_id j = tenant_id → get_existing tenant_id job_id (wrote j s) = (Ret j, wrote j s).
Proof.
  intros Ht. unfold get_existing, get, query, gets, bind. cbn.
  rewrite lookup_insert_eq. cbn. by rewrite Ht, eqb_refl.
Qed.

(** A guarded write and the read that follows it. *)
Lemma guarded_write (miss : DbM Job.DiscoveryJobRecord) s :
  table_wf (jobs (view s)) →
  (ids <- update_jobs w v ;;
   if is_nil ids then miss else get_existing tenant_id job_id)%py s =
  match jobs (view s) !! job_id with
  | Some j => if w j then (Ret (v j), wrote (v j) s) else miss s
  | None => miss s
  end.
Proof.
  intros Ht. destruct (jobs (view s) !! job_id) as [j|] eqn:Ej;
    [destruct (w j) eqn:Ew|].
  - destruct (update_jobs_one _ _ Ht Ej Ew) as (ids & Hn & Hu).
    rewrite (bind_Ret _ _ _ _ _ Hu), Hn. apply get_existing_wrote.
    rewrite Hv. by apply Hw.
  - rewrite (bind_Ret _ _ _ _ _ (update_jobs_none s Ht ltac:(naive_solver))). done.
  - rewrite (bind_Ret _ _ _ _ _ (update_jobs_none s Ht ltac:(naive_solver))). done.
Qed.
End GuardedWrite.

Lemma get_spec tenant_id job_id s :
  get tenant_id job_id s =
  (Ret (match jobs (view s) !! job_id with
        | Some j => if Job.tenant_id j ≟ tenant_id then Some j else None
        | None => None
        end), s).
Proof. unfold get, query, gets. by destruct (jobs (view s) !! job_id). Qed.

(** The tables the operations on one job leave alone. *)
Definition other_tables (d : DB) :=
  (targets d, profiles d, runs d, device_results d, attempts d, evidence d).

(** The view evolves through a window. *)
Lemma concurrent_commit_spec strict s :
  session_wf strict s →
  let s' := snd (concurrent_commit s) in
  concurrent_commit s = (Ret tt, s') ∧ session_wf strict s' ∧
  table_evolves strict (jobs (view s)) (jobs (view s')) ∧
  other_tables (view s') = other_tables (view s).
Proof.
  intros Hs s'. pose proof (preserves_concurrent_commit strict s Hs) as [Hs' He]. subst s'.
  split_and!; [|done| |].
  - unfold concurrent_commit. by destruct (interference s).
  - revert Hs' He. unfold concurrent_commit. destruct (interference s) as [|f fs] eqn:Ei; [done|].
    cbn. unfold other_commits. cbn. destruct (_ && _); [cbn|done]. intros _ He k j Hj.
    destruct Hs as [_ _ _ _ Hu _ _].
    destruct (decide (k ∈ locked s)) as [Hl|Hl].
    + exists j. by rewrite lookup_keep_locked, decide_True.
    + rewrite (Hu k Hl) in Hj. destruct (He k j Hj) as (j' & Hj' & Hev). exists j'.
      split; [|done]. rewrite lookup_keep_locked, decide_False in Hj' |- *; done.
  - unfold concurrent_commit. destruct (interference s) as [|f fs]; [done|].
    cbn. unfold other_commits. cbn. by destruct (_ && _).
Qed.

(** ** Claims *)

Lemma claimable_key tenant_id job_id j :
  claimable tenant_id job_id j = true → Job.id j = job_id ∧ Job.tenant_id j = tenant_id.
Proof. unfold claimable. rewrite !andb_true_iff, !eqb_true. naive_solver. Qed.

(** A claim by a named owner, after its checks. *)
Lemma claim_body strict tenant_id job_id owner lease s :
  session_wf strict s → job_id ≠ PROTECTED_DISCOVERY_JOB_ID → Qle_bool lease 0 = false →
  (∃ j, jobs (view s) !! job_id = Some j ∧ Job.tenant_id j = tenant_id) →
  let now := clock s (ticks s) in
  let s1 := snd (concurrent_commit (snd (utc_now s))) in
  claim tenant_id job_id (Some owner) lease s =
  match jobs (view s1) !! job_id with
  | Some j =>
      if claimable tenant_id job_id j
      then (Ret (claimed owner now lease j), wrote job_id (claimed owner now lease j) s1)
      else (raise_ InvalidDiscoveryTransitionError "Only queued discovery jobs can be claimed.",
            snd (rollback s1))
  | None =>
      (raise_ InvalidDiscoveryTransitionError "Only queued discovery jobs can be claimed.",
       snd (rollback s1))
  end.
Proof.
  intros Hs Hp Hl (j0 & Hj0 & Ht) now s1. unfold claim. rewrite <-eqb_false in Hp.
  rewrite Hp, Hl. erewrite bind_Ret by reflexivity.
  erewrite bind_Ret by apply get_spec. rewrite Hj0, Ht, eqb_refl.
  erewrite bind_Ret by reflexivity.
  assert (session_wf strict (snd (utc_now s))) as Hs0 by (by apply preserves_utc_now).
  destruct (concurrent_commit_spec strict _ Hs0) as (Hc & Hs1 & _).
  erewrite bind_Ret by exact Hc. fold s1.
  by erewrite guarded_write; [|by apply claimable_key|done|by destruct Hs1].
Qed.

(** An owner the caller does not name is drawn first. *)
Lemma claim_owner tenant_id job_id owner lease s :
  ∃ o s0, (∀ o', owner = Some o' → o = o') ∧ (s0 = s ∨ s0 = snd (uuid4 s)) ∧
    (claim tenant_id job_id owner lease s = claim tenant_id job_id (Some o) lease s0 ∨
     ∃ e, claim tenant_id job_id owner lease s = (Raise e, s)).
Proof.
  destruct owner as [o|]; [exists o, s; split; [congruence|auto]|].
  exists (uuids s (drawn s)), (snd (uuid4 s)). split; [done|]. split; [auto|].
  unfold claim. destruct (_ ≟ _); [eauto|]. destruct (Qle_bool _ _); eauto.
Qed.

(** A claim raises unless it finds the job in the view of the tenant. *)
Lemma claim_cases strict tenant_id job_id owner lease s r s' :
  session_wf strict s → claim tenant_id job_id owner lease s = (r, s') →
  (∃ e, r = Raise e) ∨
  (∃ o now s1 j, (∀ o', owner = Some o' → o = o') ∧
     session_wf strict s1 ∧ table_evolves strict (jobs (view s)) (jobs (view s1)) ∧
     jobs (view s1) !! job_id = Some j ∧ claimable tenant_id job_id j = true ∧
     r = Ret (claimed o now lease j) ∧ s' = wrote job_id (claimed o now lease j) s1).
Proof.
  intros Hs Hc. destruct (claim_owner tenant_id job_id owner lease s)
    as (o & s0 & Heq & Hs0 & [Ho|[e He]]); [|left; exists e; congruence].
  rewrite Ho in Hc. clear Ho.
  assert (session_wf strict s0 ∧ jobs (view s0) = jobs (view s)) as [Hw0 Hv0].
  { destruct Hs0 as [->| ->]; [done|]. split; [by apply preserves_uuid4|done]. }
  destruct (decide (job_id = PROTECTED_DISCOVERY_JOB_ID)) as [Hp|Hp].
  { unfold claim in Hc. rewrite <-(eqb_true job_id) in Hp. rewrite Hp in Hc.
    injection Hc as <- _. eauto. }
  destruct (Qle_bool lease 0) eqn:Hl.
  { unfold claim in Hc. rewrite <-eqb_false in Hp. rewrite Hp, Hl in Hc.
    injection Hc as <- _. eauto. }
  destruct (jobs (view s0) !! job_id) as [j0|] eqn:Hj0;
    [destruct (decide (Job.tenant_id j0 = tenant_id)) as [Ht|Ht]|].
  2,3: left; unfold claim in Hc; rewrite <-eqb_false in Hp; rewrite Hp, Hl in Hc;
       erewrite bind_Ret in Hc by reflexivity; erewrite bind_Ret in Hc by apply get_spec;
       rewrite Hj0 in Hc; try (rewrite <-eqb_false in Ht; rewrite Ht in Hc);
       injection Hc as <- _; eauto.
  rewrite (claim_body strict _ _ _ _ _ Hw0 Hp Hl) in Hc by eauto.
  assert (session_wf strict (snd (utc_now s0))) as Hw1 by (by apply preserves_utc_now).
  destruct (concurrent_commit_spec strict _ Hw1) as (_ & Hw2 & He & _). cbn in He. rewrite Hv0 in He.
  destruct (jobs (view (snd (concurrent_commit _))) !! job_id) as [j|] eqn:Ej;
    [destruct (claimable _ _ j) eqn:Ec|]; injection Hc as <- <-; try (left; by eexists).
  right. eexists _, _, _, j. split_and!; try done.
Qed.

(** A job that has left the queue cannot be claimed. *)
Lemma claim_started strict tenant_id job_id owner lease s j :
  session_wf strict s → jobs (view s) !! job_id = Some j → 0 < job_rank j →
  ∃ e s', claim tenant_id job_id owner lease s = (Raise e, s').
Proof.
  intros Hs Hj Hr. destruct (claim _ _ _ _ s) as [r s'] eqn:E.
  destruct (claim_cases _ _ _ _ _ _ _ _ Hs E) as [[e ->]|(o & now & s1 & j1 & _ & _ & He & Hj1 & Hc & _)];
    [by exists e, s'|].
  destruct (He _ _ Hj) as (j' & Hj' & [_ Hrk _ _ _]). simplify_eq.
  unfold claimable in Hc. rewrite !andb_true_iff, !eqb_true in Hc.
  destruct Hc as [[[[_ Hst] _] _] _]. unfold job_rank in Hrk, Hr. rewrite Hst in Hrk. cbn in Hrk.
  change (state_rank "queued") with 0 in Hrk. lia.
Qed.

(** A claim that returns leaves the job running under the claimer's lease. *)
Lemma claim_Ret strict tenant_id job_id owner lease s j s' :
  session_wf strict s → claim tenant_id job_id owner lease s = (Ret j, s') →
  jobs (view s') !! job_id = Some j ∧ Job.state j = value RUNNING ∧ session_wf strict s'.
Proof.
  intros Hs Hc. assert (session_wf strict s') as Hs'.
  { pose proof (preserves_claim strict tenant_id job_id owner lease s Hs) as [H _].
    by rewrite Hc in H. }
  destruct (claim_cases _ _ _ _ _ _ _ _ Hs Hc) as [[e ?]|(o & now & s1 & j1 & _ & _ & _ & Hj1 & _ & Hr & ->)];
    [done|]. injection Hr as ->. split_and!; [|done|done]. cbn. apply lookup_insert_eq.
Qed.

(** ** Cancellation *)

Lemma in_state_key tenant_id job_id state j :
  in_state tenant_id job_id state j = true → Job.id j = job_id ∧ Job.tenant_id j = tenant_id.
Proof. unfold in_state. rewrite !andb_true_iff, !eqb_true. naive_solver. Qed.

(** What a cancellation request answers when its write found no row. *)
Lemma cancellation_miss tenant_id job_id s r s' :
  (rollback ;;;
   current <- get tenant_id job_id ;;
   match current with
   | Some c =>
       if Job.state c ≟ value CANCELLED then ret (c, false)
       else raise DiscoveryCancellationConflictError
         "Discovery job changed state before cancellation could be applied."
   | None => raise DiscoveryCancellationConflictError
         "Discovery job changed state before cancellation could be applied."
   end) s = (r, s') →
  (∃ e, r = Raise e) ∨
  (∃ j, r = Ret (j, false) ∧ jobs (view s') !! job_id = Some j ∧ Job.tenant_id j = tenant_id ∧
     Job.state j = value CANCELLED).
Proof.
  erewrite bind_Ret by reflexivity. erewrite bind_Ret by apply get_spec.
  set (s2 := set_locked _ _). destruct (jobs (view s2) !! job_id) as [c|] eqn:Hj;
    [|intros [= <- _]; eauto].
  destruct (Job.tenant_id c ≟ tenant_id) eqn:Ht; [|intros [= <- _]; eauto].
  rewrite eqb_true in Ht.
  destruct (Job.state c ≟ value CANCELLED) eqn:Ec; intros [= <- <-]; [|eauto].
  rewrite eqb_true in Ec. eauto 10.
Qed.

Lemma bind_update_none {A} w v tenant_id job_id
    (Hw : ∀ j, w j = true → Job.id j = job_id ∧ Job.tenant_id j = tenant_id)
    s (miss : DbM A) (hit : list UUID → DbM A) :
  table_wf (jobs (view s)) → (∀ j, jobs (view s) !! job_id = Some j → w j = false) →
  bind (update_jobs w v) (λ ids, if is_nil ids then miss else hit ids) s = miss s.
Proof.
  intros Ht Hn. by erewrite bind_Ret by (eapply update_jobs_none; eauto).
Qed.

Section Cancellation.
Context `{IpLibrary}.

(** A job that is cancelled or whose cancellation was requested is returned
    as it is. *)
Lemma request_cancellation_again tenant_id job_id requested_by reason s j :
  jobs (view s) !! job_id = Some j → Job.tenant_id j = tenant_id →
  (Job.state j = value CANCELLED ∨
   ∃ st : DiscoveryJobStatus, Job.state j = value st ∧ is_terminal st = false ∧
     is_not_none (Job.cancellation_requested_at j) = true) →
  request_cancellation tenant_id job_id requested_by reason s = (Ret (j, false), s).
Proof.
  intros Hj Ht Hst. unfold request_cancellation.
  erewrite bind_Ret by apply get_spec. rewrite Hj, Ht, eqb_refl.
  destruct Hst as [Hst|(st & Hst & Hte & Hcr)]; rewrite Hst.
  - by rewrite of_value_value.
  - by rewrite of_value_value, Hte, Hcr.
Qed.

(** The branches of a cancellation request. *)
Lemma request_cancellation_cases strict tenant_id job_id requested_by reason s r s' :
  session_wf strict s → request_cancellation tenant_id job_id requested_by reason s = (r, s') →
  (∃ e, r = Raise e) ∨
  (∃ j, r = Ret (j, false) ∧ jobs (view s') !! job_id = Some j ∧ Job.tenant_id j = tenant_id ∧
     (Job.state j = value CANCELLED ∨
      ∃ st : DiscoveryJobStatus, Job.state j = value st ∧ is_terminal st = false ∧
        is_not_none (Job.cancellation_requested_at j) = true)) ∨
  (∃ st now s1 j, r = Ret (cancellation_values (value st ≟ value QUEUED) now requested_by reason j, true) ∧
     is_terminal st = false ∧ in_state tenant_id job_id (value st) j = true ∧
     jobs (view s1) !! job_id = Some j ∧ session_wf strict s1 ∧
     table_evolves strict (jobs (view s)) (jobs (view s1)) ∧
     other_tables (view s1) = other_tables (view s) ∧
     s' = wrote job_id (cancellation_values (value st ≟ value QUEUED) now requested_by reason j) s1).
Proof.
  intros Hs. unfold request_cancellation. erewrite bind_Ret by apply get_spec.
  destruct (jobs (view s) !! job_id) as [j|] eqn:Hj; [|intros [= <- _]; eauto].
  destruct (Job.tenant_id j ≟ tenant_id) eqn:Ht; [|intros [= <- _]; eauto].
  rewrite eqb_true in Ht.
  destruct (of_value (A := DiscoveryJobStatus) (Job.state j)) as [st|] eqn:Es;
    [|intros [= <- _]; eauto].
  apply of_value_Some in Es. rewrite Es.
  destruct (is_terminal st) eqn:Hte.
  { destruct (value st ≟ value CANCELLED) eqn:Ec; intros [= <- <-]; [|eauto].
    rewrite eqb_true in Ec. right; left. exists j. rewrite Es, Ec. eauto. }
  destruct (is_not_none (Job.cancellation_requested_at j)) eqn:Hcr.
  { intros [= <- <-]. right; left. exists j. eauto 10. }
  erewrite bind_Ret by reflexivity.
  assert (session_wf strict (snd (utc_now s))) as Hw1 by (by apply preserves_utc_now).
  destruct (concurrent_commit_spec strict _ Hw1) as (Hc & Hw2 & He & Ho).
  erewrite bind_Ret by exact Hc. set (s1 := snd (concurrent_commit _)) in *.
  pose proof (sw_view _ _ Hw2) as Htw.
  destruct (jobs (view s1) !! job_id) as [j1|] eqn:Hj1;
    [destruct (in_state tenant_id job_id (value st) j1) eqn:Ew|].
  - destruct (update_jobs_one (in_state tenant_id job_id (value st))
      (cancellation_values (value st ≟ value QUEUED) (clock s (ticks s)) requested_by reason)
      tenant_id job_id (in_state_key _ _ _) s1 j1 Htw Hj1 Ew) as (ids & Hn & Hu).
    erewrite bind_Ret by exact Hu. rewrite Hn.
    set (j2 := cancellation_values _ _ _ _ j1).
    assert (Job.tenant_id j2 = tenant_id) as Ht2.
    { apply in_state_key in Ew as [_ Ht1]. subst j2. unfold cancellation_values.
      by destruct (_ ≟ _). }
    assert ((Job.state j2 ≟ value QUEUED) = false) as Hst2.
    { subst j2. unfold in_state in Ew. rewrite !andb_true_iff, !eqb_true in Ew.
      destruct Ew as [_ Ew]. unfold cancellation_values.
      destruct st; try discriminate; [reflexivity|].
      change (value RUNNING ≟ value QUEUED) with false. cbn. by rewrite Ew. }
    erewrite bind_Ret by by apply get_existing_wrote. rewrite Hst2.
    erewrite bind_Ret by reflexivity.
    erewrite bind_Ret by by apply get_existing_wrote.
    intros [= <- <-]. right; right. eexists st, _, s1, j1. split_and!; done.
  - erewrite bind_update_none; [|by apply in_state_key|done|naive_solver].
    intros Hm%cancellation_miss. naive_solver.
  - erewrite bind_update_none; [|by apply in_state_key|done|naive_solver].
    intros Hm%cancellation_miss. naive_solver.
Qed.

(** Cancelling is idempotent: once a request was answered, repeating it, by
  anyone and with any reason, answers with the same job, reports that nothing
  changed and changes nothing. *)
Theorem request_cancellation_idempotent strict tenant_id job_id by1 reason1 by2 reason2 s j b s1
    (Hs : session_wf strict s)
    (Hr : request_cancellation tenant_id job_id by1 reason1 s = (Ret (j, b), s1)) :
  request_cancellation tenant_id job_id by2 reason2 s1 = (Ret (j, false), s1).
Proof.
  destruct (request_cancellation_cases _ _ _ _ _ _ _ _ Hs Hr)
    as [[e [=]]|[(j' & [= <- _] & Hj & Ht & Hst)|(st & now & s2 & j1 & [= -> _] & Hte & Hw & Hj & _ & _ & _ & ->)]].
  - by apply request_cancellation_again.
  - apply request_cancellation_again; [apply lookup_insert_eq| |];
      unfold in_state in Hw; rewrite !andb_true_iff, !eqb_true in Hw; destruct Hw as [[_ Ht] Hst];
      unfold cancellation_values; destruct st; try discriminate; cbn; auto;
      change ("running" ≟ "queued") with false; cbn; auto.
    right. by exists RUNNING.
Qed.

(** A request that changes something changes the one row: a queued job is
  cancelled and released, a running one keeps running under its lease with the
  request recorded for its worker to observe.  Every other table is as it was:
  the results of a queued fan-out parent are not reconciled. *)
Theorem request_cancellation_effect strict tenant_id job_id requested_by reason s j s'
    (Hs : session_wf strict s)
    (Hr : request_cancellation tenant_id job_id requested_by reason s = (Ret (j, true), s')) :
  jobs (view s') !! job_id = Some j ∧
  Job.cancellation_requested_by j = Some requested_by ∧
  Job.cancellation_reason j = Some reason ∧
  ((Job.state j = value CANCELLED ∧ Job.failure_code j = Some (value FailureCode.CANCELLED) ∧
    Job.completed_at j = Job.cancellation_requested_at j ∧ Job.execution_owner j = None) ∨
   (Job.state j = value RUNNING ∧ Job.completed_at j = None)) ∧
  other_tables (view s') = other_tables (view s).
Proof.
  destruct (request_cancellation_cases _ _ _ _ _ _ _ _ Hs Hr)
    as [[e [=]]|[(j' & [=] & _)|(st & now & s2 & j1 & [= ->] & Hte & Hw & Hj & Hs2 & _ & Ho & ->)]]. split; [apply lookup_insert_eq|].
  unfold in_state in Hw. rewrite !andb_true_iff, !eqb_true in Hw. destruct Hw as [_ Hst].
  assert (st = RUNNING → Job.completed_at j1 = None) as Hrun.
  { intros ->. destruct (tw_row _ (sw_view _ _ Hs2) _ _ Hj) as [_ _ Hcomp _].
    unfold job_rank in Hcomp. rewrite Hst in Hcomp. by destruct (Job.completed_at j1). }
  destruct st; try discriminate; unfold cancellation_values; cbn;
    [change ("queued" ≟ "queued") with true|change ("running" ≟ "queued") with false]; cbn;
    split_and!; naive_solver.
Qed.

(** A cancellation cannot be forced through a live worker: while the job
  runs under an unexpired lease the forced resolution is refused and changes
  nothing. *)
Theorem resolve_stale_respects_lease tenant_id job_id s j
    (Hj : jobs (view s) !! job_id = Some j) (Hst : Job.state j = value RUNNING)
    (Hl : has_valid_lease (clock s (ticks s)) j = true) :
  ∃ c msg, fst (resolve_stale_cancellation tenant_id job_id s) = Raise (Exn c msg) ∧
    view (snd (resolve_stale_cancellation tenant_id job_id s)) = view s ∧
    committed (snd (resolve_stale_cancellation tenant_id job_id s)) = committed s.
Proof.
  unfold resolve_stale_cancellation. erewrite bind_Ret by apply get_spec. rewrite Hj.
  destruct (Job.tenant_id j ≟ tenant_id); [|by do 2 eexists].
  rewrite Hst, of_value_value. change (value RUNNING ≟ value CANCELLED) with false.
  change (is_terminal RUNNING) with false. rewrite eqb_refl. cbn [negb].
  destruct (is_none (Job.cancellation_requested_at j)); [by do 2 eexists|].
  erewrite bind_Ret by reflexivity. rewrite Hl. by do 2 eexists.
Qed.
End Cancellation.

(** ** Leases *)

(** A renewal always answers; it answers [True] exactly when a running row
    of the tree is still owned by the worker, and then extends exactly those
    rows, and otherwise rolls back. *)
Theorem renew_lease_spec tenant_id job_id owner lease s :
  ∃ b, fst (renew_lease tenant_id job_id owner lease s) = Ret b ∧
  (b = true ↔ ∃ k j, jobs (view s) !! k = Some j ∧ renewable tenant_id job_id owner j = true) ∧
  ∀ k, jobs (view (snd (renew_lease tenant_id job_id owner lease s))) !! k =
    if b then
      (λ j, if renewable tenant_id job_id owner j
            then renewed (clock s (ticks s)) lease j else j) <$> jobs (view s) !! k
    else jobs (committed s) !! k.
Proof.
  unfold renew_lease. erewrite bind_Ret by reflexivity. erewrite bind_Ret by reflexivity.
  cbn [jobs view set_ticks].
  destruct (matching (renewable tenant_id job_id owner) (jobs (view s))) as [|k0 ks] eqn:Em.
  - exists false. split; [done|]. split; [|done]. split; [done|].
    intros (k & j & Hj & Hr). rewrite matching_nil in Em. by rewrite (Em _ _ Hj) in Hr.
  - exists true. split; [done|]. split.
    + split; [|done]. intros _.
      assert (k0 ∈ matching (renewable tenant_id job_id owner) (jobs (view s))) as Hin
        by (rewrite Em; apply list_elem_of_here).
      apply elem_of_matching in Hin as (j & ? & ?). eauto.
    + intros k. cbn. apply lookup_update_rows.
Qed.

(** ** Transitions *)

Lemma transition_where_key tenant_id job_id state require owner j :
  transition_where tenant_id job_id state require owner j = true →
  Job.id j = job_id ∧ Job.tenant_id j = tenant_id.
Proof. unfold transition_where. rewrite !andb_true_iff, !eqb_true. naive_solver. Qed.

Lemma transition_values_tenant target now code message j :
  Job.tenant_id (transition_values target now code message j) = Job.tenant_id j.
Proof.
  unfold transition_values. by destruct (is_terminal target), code, message.
Qed.

Lemma transition_cases strict tenant_id job_id target code message require owner s r s' :
  session_wf strict s →
  transition tenant_id job_id target code message require owner s = (r, s') →
  (∃ e, r = Raise e) ∨
  (∃ current now s1 j, session_wf strict s1 ∧ table_evolves strict (jobs (view s)) (jobs (view s1)) ∧
     transition_job current target = Ret target ∧
     jobs (view s1) !! job_id = Some j ∧
     transition_where tenant_id job_id (value current) require owner j = true ∧
     r = Ret (transition_values target now code message j) ∧
     s' = wrote job_id (transition_values target now code message j) s1).
Proof.
  intros Hs. unfold transition. erewrite bind_Ret by apply get_spec.
  destruct (jobs (view s) !! job_id) as [j|] eqn:Hj; [|intros [= <- _]; eauto].
  destruct (Job.tenant_id j ≟ tenant_id) eqn:Ht; [|intros [= <- _]; eauto].
  destruct (of_value (A := DiscoveryJobStatus) (Job.state j)) as [st|] eqn:Es;
    [|intros [= <- _]; eauto].
  apply of_value_Some in Es. rewrite Es.
  destruct (transition_job st target) as [st'|] eqn:Et; [|intros [= <- _]; eauto].
  pose proof Et as Et'. rewrite transition_job_Ret in Et'. destruct Et' as [-> _].
  erewrite bind_Ret by reflexivity.
  assert (session_wf strict (snd (utc_now s))) as Hw1 by (by apply preserves_utc_now).
  destruct (concurrent_commit_spec strict _ Hw1) as (Hc & Hw2 & He & _).
  erewrite bind_Ret by exact Hc. set (s1 := snd (concurrent_commit _)) in *.
  erewrite guarded_write;
    [|by apply transition_where_key|apply transition_values_tenant|by destruct Hw2].
  destruct (jobs (view s1) !! job_id) as [j1|] eqn:Hj1; [|intros [= <- _]; left; by eexists].
  destruct (transition_where _ _ _ _ _ j1) eqn:Ew; [|intros [= <- _]; left; by eexists].
  intros [= <- <-]. right. eexists st, _, s1, j1. split_and!; done.
Qed.

(** C6. Ownership fences writes: a guarded transition that returns found the
    row still owned by the caller, with no cancellation requested when it asked
    for none, and moved it along an allowed edge; a finished job is released.
    No other row changed since the window closed. *)
Theorem transition_fenced strict tenant_id job_id target code message owner s j' s'
    (Hs : session_wf strict s)
    (Hr : transition tenant_id job_id target code message true (Some owner) s = (Ret j', s')) :
  ∃ j current s1, table_evolves strict (jobs (view s)) (jobs (view s1)) ∧
    jobs (view s1) !! job_id = Some j ∧ jobs (view s') = <[job_id := j']> (jobs (view s1)) ∧
    Job.execution_owner j = Some owner ∧ Job.cancellation_requested_at j = None ∧
    Job.state j = value current ∧ Job.state j' = value target ∧
    target ∈ ALLOWED_TRANSITIONS current ∧
    (is_terminal target = true →
       Job.execution_owner j' = None ∧ Job.lease_expires_at j' = None ∧
       Job.completed_at j' = Some (Job.updated_at j')).
Proof.
  destruct (transition_cases _ _ _ _ _ _ _ _ _ _ _ Hs Hr)
    as [[e [=]]|(current & now & s1 & j & _ & He & Ht & Hj & Hw & [= ->] & ->)].
  unfold transition_where in Hw. rewrite !andb_true_iff, !eqb_true in Hw.
  destruct Hw as [[[_ Hst] Hcr] Ho]. rewrite transition_job_Ret in Ht.
  exists j, current, s1. split_and!; try done.
  - by destruct (Job.cancellation_requested_at j).
  - unfold transition_values. by destruct (is_terminal target), code, message.
  - naive_solver.
  - unfold transition_values. intros ->. by destruct code, message.
Qed.

(** ** Witnesses *)

Lemma request_cancellation_idempotent_witness :
  match request_cancellation "acme" 1%N 9%N "wrong scope" demo_session with
  | (Ret (j, b), s1) =>
      b = true ∧ request_cancellation "acme" 1%N 10%N "again" s1 = (Ret (j, false), s1)
  | _ => False
  end.
Proof.
  destruct (request_cancellation "acme" 1%N 9%N "wrong scope" demo_session)
    as [[[j b]|e] s1] eqn:E; [|vm_compute in E; discriminate].
  split; [vm_compute in E; by injection E|].
  apply (request_cancellation_idempotent false _ _ _ _ _ _ _ _ _ _ (demo_session_wf false) E).
Defined.

Lemma request_cancellation_effect_witness :
  match request_cancellation "acme" 2%N 9%N "stop" demo_session with
  | (Ret (j, true), s') => jobs (view s') !! 2%N = Some j ∧ Job.state j = "running"%string
  | _ => False
  end.
Proof.
  destruct (request_cancellation "acme" 2%N 9%N "stop" demo_session)
    as [[[j []]|e] s1] eqn:E; try (vm_compute in E; discriminate).
  pose proof (request_cancellation_effect false _ _ _ _ _ _ _ (demo_session_wf false) E)
    as (Hj & _).
  split; [exact Hj|]. vm_compute in E. by injection E as <- _.
Defined.

Lemma resolve_stale_respects_lease_witness :
  ∃ c msg, fst (resolve_stale_cancellation "acme" 2%N demo_session) = Raise (Exn c msg) ∧
    view (snd (resolve_stale_cancellation "acme" 2%N demo_session)) = view demo_session ∧
    committed (snd (resolve_stale_cancellation "acme" 2%N demo_session)) = committed demo_session.
Proof.
  apply (resolve_stale_respects_lease _ _ _ (running_job 2 12 None 7)); vm_compute; reflexivity.
Defined.

Lemma transition_fenced_witness :
  match transition "acme" 2%N SUCCEEDED None None true (Some 7%N) demo_session with
  | (Ret j', _) => Job.execution_owner j' = None
  | _ => False
  end.
Proof.
  destruct (transition "acme" 2%N SUCCEEDED None None true (Some 7%N) demo_session)
    as [[j'|e] s1] eqn:E; [|vm_compute in E; discriminate].
  pose proof (transition_fenced false _ _ _ _ _ _ _ _ _ (demo_session_wf false) E)
    as (j & st & s2 & _ & _ & _ & _ & _ & _ & _ & _ & Hterm).
  apply Hterm. reflexivity.
Defined.

(** * Safety of the job table under any sequence of calls

    The calls the services, the workers and the API make on the repository,
    as data, and what holds of the durable table after any sequence of them,
    in any order, with other transactions committing in their windows. *)

(** One call on the repository, or the end of a transaction. *)
Inductive call :=
  | Create (tenant_id : string) (target_id run_id : UUID) (parent_job_id created_by : option UUID)
      (capabilities : option dict) (timeout_seconds : option float)
      (correlation_id : option string)
  | Claim (tenant_id : string) (job_id : UUID) (owner : option UUID) (lease_seconds : float)
  | RenewLease (tenant_id : string) (job_id owner : UUID) (lease_seconds : float)
  | Transition (tenant_id : string) (job_id : UUID) (target_state : DiscoveryJobStatus)
      (failure_code failure_message : option string) (require_no_cancellation : bool)
      (owner : option UUID)
  | RecordSelection (tenant_id : string) (job_id : UUID) (transport platform : option string)
  | RequestCancellation (tenant_id : string) (job_id requested_by : UUID) (reason : string)
  | FinaliseCancellation (tenant_id : string) (job_id : UUID) (owner : option UUID)
  | ResolveStaleCancellation (tenant_id : string) (job_id : UUID)
  | MarkFailed (tenant_id : string) (job_id : UUID) (code message : string) (owner : option UUID)
  | ReconcileParent (tenant_id : string) (parent_job_id : UUID) (interrupted : bool)
      (max_targets : Z)
  | RecoverExpired (tenant_id : string) (job_id : UUID) (stale_before : datetime)
  | Abandon (tenant_id : string) (job_id owner : UUID) (message : string)
  | Commit
  | Rollback.

(** The calls whose every write to a job is guarded by the state it read: not those
    that stop the children of a job. *)
Definition guarded (c : call) : bool :=
  match c with
  | ReconcileParent _ _ _ _ | ResolveStaleCancellation _ _ | RecoverExpired _ _ _
  | Abandon _ _ _ _ => false
  | _ => true
  end.

Section Calls.
Context `{IpLibrary}.

(** The session after a call, whether it returned or raised. *)
Definition run_call (c : call) (s : Session) : Session :=
  match c with
  | Create t g r p b caps to corr => snd (create t g r p b caps to corr s)
  | Claim t j o l => snd (claim t j o l s)
  | RenewLease t j o l => snd (renew_lease t j o l s)
  | Transition t j st fc fm rq o => snd (transition t j st fc fm rq o s)
  | RecordSelection t j tr pl => snd (record_selection t j tr pl s)
  | RequestCancellation t j b r => snd (request_cancellation t j b r s)
  | FinaliseCancellation t j o => snd (finalise_cancellation t j o s)
  | ResolveStaleCancellation t j => snd (resolve_stale_cancellation t j s)
  | MarkFailed t j c m o => snd (mark_failed_after_rollback t j c m o s)
  | ReconcileParent t p i n => snd (reconcile_parent_job t p i n s)
  | RecoverExpired t j b => snd (recover_expired_owned_job t j b s)
  | Abandon t j o m => snd (abandon_owned_job t j o m s)
  | Commit => snd (commit s)
  | Rollback => snd (rollback s)
  end.

Definition run_calls (cs : list call) (s : Session) : Session :=
  fold_left (λ s c, run_call c s) cs s.

Lemma run_call_respects strict c s :
  (strict = true → guarded c = true) → respects strict s (run_call c s).
Proof.
  intros Hg. assert (∀ A (m : DbM A), preserves (respects strict) m →
    respects strict s (snd (m s))) as Hp by (intros A m Hm; apply Hm).
  destruct c, strict; try (by specialize (Hg eq_refl));
    apply Hp; auto with preserves.
Qed.

Lemma run_calls_respects strict cs s :
  (strict = true → forallb guarded cs = true) → respects strict s (run_calls cs s).
Proof.
  revert s. induction cs as [|c cs IH]; intros s Hg; [by intros ?|].
  change (run_calls (c :: cs) s) with (run_calls cs (run_call c s)).
  etrans; [apply run_call_respects | apply IH];
    intros Hs; specialize (Hg Hs); cbn in Hg; by apply andb_true_iff in Hg as [??].
Qed.

(** C1. After any sequence of calls, and whatever other transactions commit in
  between, every durable row has a valid state, is owned exactly while it is
  running under a complete lease, is completed exactly when it is finished and
  was started at most once, and no tenant has two active jobs of one target. *)
Theorem job_table_invariant cs s (Hs : session_wf false s) :
  let t := jobs (committed (run_calls cs s)) in
  (∀ k j, t !! k = Some j →
     (∃ st : DiscoveryJobStatus, Job.state j = value st ∧
        is_terminal st = is_not_none (Job.completed_at j)) ∧
     lease_wf j ∧ 0 <= Job.attempts j <= 1) ∧
  (∀ k1 k2 j1 j2, t !! k1 = Some j1 → t !! k2 = Some j2 →
     is_active j1 = true → is_active j2 = true →
     Job.tenant_id j1 = Job.tenant_id j2 → Job.target_id j1 = Job.target_id j2 → k1 = k2).
Proof.
  destruct (run_calls_respects false cs s) as [[_ [_ Hwf] _ Hix _ _ _] _]; [done..|]. intros t. subst t.
  split.
  - intros k j Hj. destruct (Hwf k j Hj) as [Hst Hl Hc Ha]. split_and!; [|done|lia|].
    + destruct (of_value (A := DiscoveryJobStatus) (Job.state j)) as [st|] eqn:E; [|done].
      exists st. split; [by apply of_value_Some|]. rewrite Hc.
      unfold job_rank, state_rank. rewrite E. by destruct st.
    + lia.
  - rewrite index_holds_true in Hix. intros k1 k2 j1 j2 H1 H2 Ha1 Ha2 Ht Hg.
    apply (Hix k1 k2 j1 j2); auto. unfold active_for. by rewrite Ht, Hg, !eqb_refl.
Qed.

(** C5. The row of a finished job is final for the calls whose writes are guarded: no
  sequence of creations, claims, renewals, transitions, selections, cancellation requests,
  finalised cancellations, failures, commits and rollbacks, with other transactions that
  respect finality committing in between, changes its state, failure or times, or removes
  it.  The calls that stop children are not among them
  ([abandon_overwrites_finished_child], [reconcile_overwrites_finished_child]). *)
Theorem finished_jobs_are_final cs s k j
    (Hs : session_wf true s) (Hg : forallb guarded cs = true)
    (Hj : jobs (committed s) !! k = Some j) (Hf : is_active j = false) :
  ∃ j', jobs (committed (run_calls cs s)) !! k = Some j' ∧
    outcome_of j' = outcome_of j ∧ identity_of j' = identity_of j.
Proof.
  destruct (run_calls_respects true cs s) as [_ He]; [done..|].
  destruct (He k j Hj) as (j' & Hj' & [Hid _ _ _ Hset]). exists j'.
  split_and!; [done| |done]. apply Hset; [done|].
  pose proof (job_rank_bounds j). destruct (job_rank_active j) as [_ Hr].
  rewrite Hf in Hr. destruct (decide (job_rank j < 2)); [by specialize (Hr l)|lia].
Qed.

(** C4. Once a claim has returned and is committed, no later claim of the job
  returns, by whatever worker and after whatever calls: a job is executed at
  most once. *)
Theorem claimed_at_most_once cs s tenant_id job_id owner lease j s1 tenant_id' owner' lease'
    (Hs : session_wf false s) (Hc : claim tenant_id job_id owner lease s = (Ret j, s1)) :
  ∃ e s2, claim tenant_id' job_id owner' lease' (run_calls (Commit :: cs) s1) = (Raise e, s2).
Proof.
  destruct (claim_Ret _ _ _ _ _ _ _ _ Hs Hc) as (Hj & Hst & Hs1).
  change (run_calls (Commit :: cs) s1) with (run_calls cs (run_call Commit s1)).
  set (s0 := run_call Commit s1).
  assert (session_wf false s0) as Hs0 by (by apply preserves_commit).
  destruct (run_calls_respects false cs s0 ltac:(done) Hs0) as [Hs2 He].
  destruct (He job_id j Hj) as (j1 & Hj1 & [_ Hr1 _ _ _]).
  destruct (sw_pending _ _ Hs2 _ _ Hj1) as (j2 & Hj2 & [_ Hr2 _ _ _]).
  apply (claim_started false _ _ _ _ _ j2 Hs2 Hj2).
  unfold job_rank in Hr1 at 1. rewrite Hst in Hr1. change (state_rank (value RUNNING)) with 1 in Hr1.
  lia.
Qed.
End Calls.

(** ** Witnesses *)

Definition demo_calls : list call :=
  [Claim "acme" 1%N (Some 9%N) 60%Q; Commit; Transition "acme" 2%N FAILED None None true (Some 7%N);
   Commit; RequestCancellation "acme" 1%N 5%N "stop"; Commit].

Lemma job_table_invariant_witness :
  match jobs (committed (run_calls demo_calls demo_session)) !! 1%N with
  | Some j => 0 <= Job.attempts j <= 1
  | None => False
  end.
Proof.
  pose proof (job_table_invariant demo_calls _ (demo_session_wf false)) as [Hall _].
  destruct (jobs (committed (run_calls demo_calls demo_session)) !! 1%N) as [j|] eqn:E.
  - apply (Hall 1%N j E).
  - vm_compute in E. discriminate.
Defined.

Lemma finished_jobs_are_final_witness :
  ∃ j', jobs (committed (run_calls demo_calls demo_session)) !! 3%N = Some j' ∧
    outcome_of j' = outcome_of (finished_job 3 13 7) ∧
    identity_of j' = identity_of (finished_job 3 13 7).
Proof.
  apply (finished_jobs_are_final demo_calls _ _ _ (demo_session_wf true)); vm_compute; reflexivity.
Defined.

Lemma claimed_at_most_once_witness :
  match claim "acme" 1%N (Some 9%N) 60%Q demo_session with
  | (Ret _, s1) => ∃ e s2, claim "acme" 1%N (Some 10%N) 60%Q (run_calls [Commit; Commit] s1) = (Raise e, s2)
  | _ => False
  end.
Proof.
  destruct (claim "acme" 1%N (Some 9%N) 60%Q demo_session) as [[j|e] s1] eqn:E;
    [|vm_compute in E; discriminate].
  apply (claimed_at_most_once [Commit] _ _ _ _ _ _ _ _ _ _ (demo_session_wf false) E).
Defined.

(** ** What the unguarded writes can do *)

(** A fan-out of two addresses whose first child runs and whose second is queued, while
    another worker, 8, executes the second to success in a window. *)
Definition tree_target : Target.DiscoveryTargetRecord := {|
  Target.id := 30%N; Target.tenant_id := "acme"; Target.identifier := "tree";
  Target.address := "10.0.0.0"; Target.scope_type := "cidr_network";
  Target.scope_end := None; Target.scope_cidr := Some "10.0.0.0/30"%string;
  Target.vendor := None; Target.hostname := None; Target.platform_hint := None;
  Target.preferred_transport := None; Target.enabled := true;
  Target.credential_reference := "vault:lab"; Target.credential_profile_id := None;
  Target.credential_references := []; Target.allowed_fallback_transports := [];
  Target.allow_insecure_telnet := false; Target.allow_insecure_http := false;
  Target.metadata_json := []; Target.created_by := None; Target.created_at := 0;
  Target.updated_at := 0 |}.

Definition tree_run : Run.DiscoveryRunRecord :=
  Run.set_metadata_json [("expected_addresses"%string, JList [JStr "10.0.0.2"; JStr "10.0.0.1"])]
    (new_child_run 50 "acme" "tree" "10.0.0.0" 20 0 0).

Definition tree_db : DB := {|
  targets := {[30%N := tree_target]}; profiles := ∅; runs := {[50%N := tree_run]};
  jobs := job_table [running_job 20 30 None 7; running_job 21 31 (Some 20%N) 7;
                     queued_job 22 32 (Some 20%N)];
  device_results := list_to_map (map (λ r, (DeviceResult.id r, r))
    [new_child_result 61 "acme" 20 21 "10.0.0.1" tree_target None;
     new_child_result 62 "acme" 20 22 "10.0.0.2" tree_target None]);
  attempts := ∅; evidence := ∅ |}.

Definition tree_session : Session :=
  open_session tree_db
    [λ t, update_rows (transition_where "acme" 22%N "running" true (Some 8%N))
            (transition_values SUCCEEDED 5 None None) (other_claims 22 t)].

Lemma tree_session_wf : session_wf true tree_session.
Proof.
  apply open_session_wf; [apply job_table_wf; solve_demo_wf|vm_compute; reflexivity|].
  apply Forall_singleton. intros t Ht.
  destruct (rely_update true (claimable "acme" 22%N) (claimed 8%N 1 60%Q) (claimed_step _ _ _ _ _ _) t Ht)
    as [Hwf1 He1].
  destruct (rely_update true (transition_where "acme" 22%N "running" true (Some 8%N))
    (transition_values SUCCEEDED 5 None None)
    (λ j, transition_step true "acme" 22%N "running" RUNNING SUCCEEDED true (Some 8%N) 5 None None j
            eq_refl eq_refl) _ Hwf1) as [Hwf2 He2].
  split; [exact Hwf2|]. by etrans.
Qed.

(** The loop of [_reconcile_owned_tree] stops the children it read as
    queued unconditionally: a child that another worker claimed and finished in
    the meantime loses its outcome, from a well-formed session and next to
    transactions that respect finality. *)
Theorem abandon_overwrites_finished_child :
  session_wf true tree_session ∧
  let s' := run_calls [Abandon "acme" 20%N 7%N "lost"; Commit] tree_session in
  option_map Job.state (jobs (view (snd (concurrent_commit tree_session))) !! 22%N)
    = Some (value SUCCEEDED) ∧
  option_map Job.state (jobs (committed s') !! 22%N) = Some (value FAILED).
Proof. split; [apply tree_session_wf|vm_compute; split; reflexivity]. Qed.

(** So does the loop of [reconcile_parent_job], for any child it read as unfinished. *)
Theorem reconcile_overwrites_finished_child :
  session_wf true tree_session ∧
  let s' := run_calls [ReconcileParent "acme" 20%N true 4096] tree_session in
  option_map Job.state (jobs (view (snd (concurrent_commit tree_session))) !! 22%N)
    = Some (value SUCCEEDED) ∧
  option_map Job.state (jobs (committed s') !! 22%N) = Some (value FAILED).
Proof. split; [apply tree_session_wf|vm_compute; split; reflexivity]. Qed.
