(* ===== verification/FanoutTheorems.v ===== *)
(** * Correctness of the fan-out reconciliation

    After [reconcile_parent_job] every expected address has a finished result,
    results that were already finished are kept, and the summary of the parent
    run counts exactly the results returned. *)

From S2P Require Import Prelude Vocabulary Effects Json Records Contracts IPv4 ResultStates.
From S2P Require Import Session JobRepository Fanout Cancellation Durability JobBehaviour Demo.
#[local] Open Scope Z_scope.
Import DeviceResult.

(** Open a computation that returned. *)
Ltac unbind H :=
  apply bind_inv in H as [(? & ? & ? & H)|(? & _ & H)]; [|discriminate H].

#[local] Abbreviation result := DiscoveryDeviceResultRecord.

Lemma create_child_Ret tenant_id parent target a s child r s' :
  create_child tenant_id parent target a s = (Ret (child, r), s') →
  address r = a ∧ result_unfinished r = true.
Proof.
  unfold create_child. intros H. repeat unbind H. by injection H as <- <- _.
Qed.

(** A result that was stopped says so. *)
Definition shows (u : unfinished) (r : result) : Prop :=
  state r = value (u_state u) ∧ result_state r = Some (u_result_state u) ∧
  failure_code r = Some (u_code u) ∧ failure_message r = Some (u_message u).

Lemma reconcile_result_Ret interrupted (r r' : result) s s' :
  reconcile_result (unfinished_outcome interrupted) r s = (Ret r', s') →
  (id r' = id r ∧ child_job_id r' = child_job_id r) ∧ address r' = address r ∧
  result_unfinished r' = false ∧
  (result_unfinished r = false → r' = r) ∧
  (result_unfinished r = true → shows (unfinished_outcome interrupted) r').
Proof.
  unfold reconcile_result. destruct (result_unfinished r) eqn:E; intros H.
  - repeat unbind H. injection H as <- _. by destruct interrupted.
  - injection H as <- _. done.
Qed.

(** What the loop does to the map of results and returns as created. *)
Record loop_spec (u : unfinished) (addresses : list string) (by_address by_address' : gmap string result)
    (created : list result) : Prop := {
  ls_kept : ∀ a r, by_address !! a = Some r →
    ∃ r', by_address' !! a = Some r' ∧ (id r' = id r ∧ child_job_id r' = child_job_id r) ∧
      (address r = a → address r' = a) ∧ (result_unfinished r = false → r' = r) ∧
      (a ∈ addresses → result_unfinished r = true → shows u r');
  ls_old : ∀ a r', by_address' !! a = Some r' → is_Some (by_address !! a);
  ls_done : ∀ a, a ∈ addresses →
    (∃ r', by_address' !! a = Some r' ∧ result_unfinished r' = false) ∨
    (∃ r', r' ∈ created ∧ address r' = a);
  ls_created : ∀ r', r' ∈ created →
    shows u r' ∧ result_unfinished r' = false ∧ address r' ∈ addresses;
}.

Lemma reconcile_addresses_Ret tenant_id parent target interrupted addresses by_address s m created s' :
  reconcile_addresses tenant_id parent target (unfinished_outcome interrupted) by_address addresses s
    = (Ret (m, created), s') →
  loop_spec (unfinished_outcome interrupted) addresses by_address m created.
Proof.
  revert by_address s m created s'. induction addresses as [|a l IH];
    intros by_address s m created s' H; cbn in H.
  { injection H as <- <- _. split; [|eauto| |]; try (intros ?; by rewrite elem_of_nil).
    intros a r Hr. exists r. split_and!; try done. by rewrite elem_of_nil. }
  destruct (by_address !! a) as [r|] eqn:Ea.
  - unbind H. unbind H. rename x1 into r1.
    match goal with H1 : reconcile_result _ _ _ = _ |- _ =>
      apply reconcile_result_Ret in H1 as ([Hid Hcid] & Had & Hfin & Hkeep & Hshow) end.
    apply IH in H as [Hk Ho Hd Hc]. destruct (Hk a r1) as (r2 & Hr2 & [Hid2 Hcid2] & Had2 & Hkeep2 & _);
      [apply lookup_insert_eq|]. rewrite (Hkeep2 Hfin) in Hr2. clear r2 Hid2 Hcid2 Had2 Hkeep2. split.
    + intros a' r' Ha'. destruct (decide (a' = a)) as [->|Hn].
      * simplify_eq. exists r1. split_and!; [done..|congruence|auto|auto].
      * destruct (Hk a' r') as (r2 & ? & [? ?] & ? & ? & Hs2); [by rewrite lookup_insert_ne|].
        exists r2. split_and!; try done. intros [->|Hin]%elem_of_cons; [done|auto].
    + intros a' r' Ha'. apply Ho in Ha' as [? Ha'].
      apply lookup_insert_Some in Ha' as [[<- <-]|[_ ?]]; eauto.
    + intros a' [->|Hin]%elem_of_cons; [|auto]. left. by exists r1.
    + intros r' Hr'. apply Hc in Hr' as (? & ? & ?). split_and!; [done..|]. apply elem_of_cons. auto.
  - unbind H. unbind H. unbind H. unbind H. injection H as <- <- _.
    destruct x as [child r]. cbn in *.
    match goal with H1 : create_child _ _ _ _ _ = _ |- _ =>
      apply create_child_Ret in H1 as [Had0 Hun] end.
    match goal with H1 : reconcile_result _ _ _ = _ |- _ =>
      apply reconcile_result_Ret in H1 as (Hid & Had & Hfin & _ & Hshow) end.
    destruct x5 as [m created]. cbn in *.
    match goal with H1 : reconcile_addresses _ _ _ _ _ _ _ = _ |- _ =>
      apply IH in H1 as [Hk Ho Hd Hc] end.
    split; auto.
    + intros a' r' Ha'. destruct (Hk a' r' Ha') as (r2 & ? & [? ?] & ? & ? & Hs2). exists r2.
      split_and!; try done. intros [->|Hin]%elem_of_cons; [congruence|auto].
    + intros a' [->|Hin]%elem_of_cons.
      * right. eexists. split; [apply list_elem_of_here|]. congruence.
      * destruct (Hd a' Hin) as [?|(r' & ? & ?)]; [auto|]. right. exists r'.
        split; [by apply list_elem_of_further|done].
    + intros r' [->|Hin]%elem_of_cons.
      * split_and!; [auto|done|]. apply elem_of_cons. left. congruence.
      * apply Hc in Hin as (? & ? & ?). split_and!; [done..|]. apply elem_of_cons. auto.
Qed.

Lemma index_by_address_spec results a r :
  index_by_address results !! a = Some r → r ∈ results ∧ address r = a.
Proof.
  unfold index_by_address. rewrite <-fold_left_rev_right.
  assert (∀ r, r ∈ rev results ↔ r ∈ results) as Hrev
    by (intros r'; by rewrite !list_elem_of_In, <-in_rev).
  rewrite <-Hrev. generalize (rev results) as l. intros l.
  induction l as [|x l IH]; cbn; [by rewrite lookup_empty|].
  rewrite lookup_insert_Some, elem_of_cons. naive_solver.
Qed.

(** The results at the end: those of the loop, and the ones it did not look at. *)
Lemma merge_results_spec u addresses results m created :
  (∀ r r', r ∈ results → r' ∈ results → id r = id r' → r = r') →
  loop_spec u addresses (index_by_address results) m created →
  (∀ a, a ∈ addresses → ∃ r, r ∈ merge_results results m created ∧ address r = a ∧
     result_unfinished r = false ∧ (r ∈ results ∨ shows u r) ∧ (r ∈ created ∨ m !! a = Some r)) ∧
  (∀ r, r ∈ results → result_unfinished r = false → r ∈ merge_results results m created) ∧
  (∀ r, r ∈ merge_results results m created →
     r ∈ created ∨ (∃ a, m !! a = Some r) ∨
     (r ∈ results ∧ ∀ a r', index_by_address results !! a = Some r' → id r' ≠ id r)).
Proof.
  intros Hids [Hk Ho Hd Hc]. unfold merge_results.
  assert (∀ r r', r ∈ results → m !! address r = Some r' → id r' = id r →
    r' ∈ map (λ r, match m !! address r with
                   | Some r' => if id r' ≟ id r then r' else r
                   | None => r
                   end) results) as Hmap.
  { intros r r' Hr Hm Hid. apply list_elem_of_fmap. exists r. by rewrite Hm, Hid, eqb_refl. }
  assert (∀ r, r ∈ results → (∀ r', m !! address r = Some r' → id r' ≠ id r) →
    ∀ a r', index_by_address results !! a = Some r' → id r' ≠ id r) as Hout.
  { intros r Hr Hn a r' Ha Hid. pose proof (index_by_address_spec _ _ _ Ha) as [Hin <-].
    rewrite (Hids r' r) in Ha by done. destruct (Hk _ _ Ha) as (r1 & Hm1 & [Hid1 _] & _).
    by apply (Hn r1). }
  split_and!.
  - intros a Ha. destruct (Hd a Ha) as [(r' & Hm & Hf)|(r' & Hr' & Had)].
    + destruct (Ho _ _ Hm) as [r0 Hr0]. destruct (Hk _ _ Hr0) as (r1 & Hm1 & [Hid _] & Had & Hkeep & Hsh).
      simplify_eq. apply index_by_address_spec in Hr0 as [Hin <-]. exists r'.
      split_and!; [|auto|done| |auto]; [apply elem_of_app; eauto|].
      destruct (result_unfinished r0) eqn:E; [auto|]. left. by rewrite (Hkeep eq_refl).
    + exists r'. destruct (Hc _ Hr') as (Hs & Hf & _). split_and!; [|done|done|auto..].
      apply elem_of_app. auto.
  - intros r Hr Hf. apply elem_of_app. left.
    destruct (m !! address r) as [r'|] eqn:Em;
      [destruct (decide (id r' = id r)) as [Hid|Hid]|].
    + destruct (Ho _ _ Em) as [r0 Hr0]. destruct (Hk _ _ Hr0) as (r1 & Hm1 & [Hid1 _] & _ & Hkeep & _).
      apply index_by_address_spec in Hr0 as [Hin _].
      simplify_eq. assert (r0 = r) as -> by (apply Hids; [done..|congruence]).
      rewrite <-(Hkeep Hf). apply (Hmap r); auto.
    + apply list_elem_of_fmap. exists r. rewrite Em. rewrite <-eqb_false in Hid. by rewrite Hid.
    + apply list_elem_of_fmap. exists r. by rewrite Em.
  - intros r [(r0 & -> & Hr0)%list_elem_of_fmap|?]%elem_of_app; [|auto]. right.
    destruct (m !! address r0) as [r'|] eqn:Em; [destruct (id r' ≟ id r0) eqn:E|].
    + eauto.
    + rewrite eqb_false in E. right. split; [done|]. apply Hout; [done|]. intros ? ?. congruence.
    + right. split; [done|]. apply Hout; [done|]. intros ? ?. congruence.
Qed.

(** The run of the parent stays in its table. *)
Definition has_run (k : UUID) (d : DB) : Prop := ∃ r, runs d !! k = Some r ∧ Run.id r = k.
Definition keeps_run (k : UUID) (s s' : Session) : Prop :=
  has_run k (view s) → has_run k (committed s) → has_run k (view s') ∧ has_run k (committed s').

#[local] Instance keeps_run_preorder k : PreOrder (keeps_run k).
Proof.
  split; [by intros ?|]. intros a b c Hab Hbc Hv Hc. destruct (Hab Hv Hc). by apply Hbc.
Qed.

Lemma keeps_run_same k s s' :
  runs (view s') = runs (view s) → runs (committed s') = runs (committed s) → keeps_run k s s'.
Proof. unfold keeps_run, has_run. by intros -> ->. Qed.

Section KeepsRun.
Context (k : UUID).

Lemma keeps_run_commit : preserves (keeps_run k) commit.
Proof. intros s Hv Hc. by split. Qed.
Lemma keeps_run_rollback : preserves (keeps_run k) rollback.
Proof. intros s Hv Hc. by split. Qed.
Lemma keeps_run_window : preserves (keeps_run k) concurrent_commit.
Proof.
  intros s. unfold concurrent_commit. destruct (interference s); [by apply keeps_run_same|].
  cbn. unfold other_commits. cbn. destruct (_ && _); by apply keeps_run_same.
Qed.
Lemma keeps_run_put_run r : preserves (keeps_run k) (put_run r).
Proof.
  intros s (r0 & Hr0 & Hid) Hc. split; [|done].
  destruct (decide (Run.id r = k)) as [<-|Hn].
  - exists r. split; [apply lookup_insert_eq|done].
  - exists r0. cbn. rewrite lookup_insert_ne; done.
Qed.
Lemma keeps_run_insert_job j : preserves (keeps_run k) (insert_job j).
Proof. intros s. unfold insert_job. destruct (_ || _); by apply keeps_run_same. Qed.
End KeepsRun.
#[local] Hint Resolve keeps_run_commit keeps_run_rollback keeps_run_window keeps_run_put_run
  keeps_run_insert_job : preserves.
#[local] Hint Extern 2 (preserves (keeps_run _) _) =>
  intros ?; by apply keeps_run_same : preserves.

Lemma keeps_run_loop k tenant_id parent target u by_address addresses :
  preserves (keeps_run k) (reconcile_addresses tenant_id parent target u by_address addresses).
Proof.
  revert by_address. induction addresses as [|a l IH]; intros by_address;
    cbn [reconcile_addresses]; unfold reconcile_child, reconcile_result, create_child, create,
      child_target, insert_device_result; preserves_auto; apply IH.
Qed.

(** ** The rows the loop leaves behind *)

Create HintDb returns discriminated.

(** The jobs the transaction sees only move forwards. *)
Definition forward (s s' : Session) : Prop :=
  session_wf false s →
  session_wf false s' ∧ table_evolves false (jobs (view s)) (jobs (view s')).

#[local] Instance forward_preorder : PreOrder forward.
Proof.
  split; [by intros ?|]. intros a b c Hab Hbc Ha. destruct (Hab Ha) as [Hb Eab].
  destruct (Hbc Hb) as [Hc Ebc]. split; [done|by etrans].
Qed.

Lemma forward_same s s' : respects false s s' → jobs (view s') = jobs (view s) → forward s s'.
Proof. intros Hr Hv Hs. split; [by apply Hr|by rewrite Hv]. Qed.

Lemma session_utc_now : preserves forward utc_now.
Proof. intros s. by apply forward_same; [apply preserves_utc_now|]. Qed.
Lemma forward_uuid4 : preserves forward uuid4.
Proof. intros s. by apply forward_same; [apply preserves_uuid4|]. Qed.
Lemma forward_query {A} (f : DB → A) : preserves forward (query f).
Proof. intros s. by apply forward_same; [apply preserves_query|]. Qed.
Lemma forward_on_view f : (∀ d, jobs (f d) = jobs d) → preserves forward (on_view f).
Proof. intros Hf s. by apply forward_same; [apply preserves_on_view|apply Hf]. Qed.

Lemma forward_window : preserves forward concurrent_commit.
Proof. intros s Hs. by destruct (concurrent_commit_spec false s Hs) as (_ & ? & ? & _). Qed.

Lemma forward_update_jobs w v :
  (∀ j, w j = true → row_step false v j) → preserves forward (update_jobs w v).
Proof.
  intros Hw s Hs. split; [by apply (preserves_update_jobs false w v Hw s Hs)|].
  apply table_evolves_update; [apply (sw_view _ _ Hs)|eauto].
Qed.

Lemma forward_insert_job j : job_wf j → preserves forward (insert_job j).
Proof.
  intros Hj s Hs. split; [by apply (preserves_insert_job false j Hj s Hs)|].
  unfold insert_job. destruct (_ || _) eqn:E; [done|]. apply orb_false_iff in E as [Ek _].
  intros k j0 Hj0. exists j0. split; [|done]. cbn. rewrite lookup_insert_ne; [done|].
  intros <-. by rewrite Hj0 in Ek.
Qed.
#[local] Hint Resolve session_utc_now forward_uuid4 forward_query forward_window : preserves.
#[local] Hint Extern 1 (preserves _ (on_view _)) => apply forward_on_view; reflexivity : preserves.

(** A computation that returned moved forwards; one that raised may have rolled back. *)
Definition returns_forward {A} (m : DbM A) : Prop := ∀ s a s', m s = (Ret a, s') → forward s s'.

Lemma returns_preserves {A} (m : DbM A) : preserves forward m → returns_forward m.
Proof. intros Hm s a s' E. specialize (Hm s). by rewrite E in Hm. Qed.

Lemma returns_bind {A B} (m : DbM A) (k : A → DbM B) :
  returns_forward m → (∀ a, returns_forward (k a)) → returns_forward (bind m k).
Proof.
  intros Hm Hk s b s' [(a & s1 & E1 & E2)|(e & _ & [=])]%bind_inv.
  etrans; [by eapply Hm|by eapply Hk].
Qed.

Lemma returns_raise {A} c msg : returns_forward (raise (A := A) c msg).
Proof. intros s a s' [=]. Qed.

Lemma returns_try {A} (m : DbM A) h :
  returns_forward m → (∀ e s a s', h e s ≠ (Ret a, s')) → returns_forward (try_except m h).
Proof.
  intros Hm Hh s a s'. unfold try_except. destruct (m s) as [[x|e] s1] eqn:E.
  - intros [= -> ->]. by eapply Hm.
  - intros Hr. by apply Hh in Hr.
Qed.

Ltac returning := repeat (autounfold with preserves; first
  [ apply returns_raise
  | match goal with
    | |- ∀ _, _ => intro
    | |- returns_forward (match ?x with _ => _ end) => destruct x eqn:?
    end
  | solve [auto with returns]
  | solve [apply returns_preserves; operation]
  | apply returns_bind ]).

Lemma returns_create tenant_id target_id run_id parent created_by caps timeout corr :
  returns_forward (create tenant_id target_id run_id parent created_by caps timeout corr).
Proof.
  unfold create. returning. apply returns_try.
  - apply returns_preserves, forward_insert_job. by split; cbn.
  - intros exc s x s'. by destruct (isinstance exc IntegrityError).
Qed.
#[local] Hint Resolve returns_create : returns.

Lemma returns_create_child tenant_id parent scope a :
  returns_forward (create_child tenant_id parent scope a).
Proof. unfold create_child, child_target, find_target. returning. Qed.
#[local] Hint Resolve returns_create_child : returns.

Lemma forward_reconcile_child tenant_id interrupted k :
  preserves forward (reconcile_child tenant_id (unfinished_outcome interrupted) k).
Proof.
  unfold reconcile_child. operation. apply forward_update_jobs. intros j _.
  unfold stop_child. apply stopped_step; [by destruct interrupted|done].
Qed.
#[local] Hint Resolve forward_reconcile_child : preserves.

Lemma forward_reconcile_result interrupted r :
  preserves forward (reconcile_result (unfinished_outcome interrupted) r).
Proof. unfold reconcile_result. operation. Qed.
#[local] Hint Resolve forward_reconcile_result : preserves.

Lemma returns_loop tenant_id parent target interrupted by_address addresses :
  returns_forward
    (reconcile_addresses tenant_id parent target (unfinished_outcome interrupted) by_address addresses).
Proof.
  revert by_address. induction addresses as [|a l IH]; intros by_address;
    cbn [reconcile_addresses]; returning.
Qed.

(** A result is in the table as it is returned; its child job is there and belongs to the
    tenant; the job has ended. *)
Definition stored (s : Session) (r : result) : Prop := device_results (view s) !! id r = Some r.
Definition linked (tenant : string) (s : Session) (k : UUID) : Prop :=
  ∃ c, jobs (view s) !! k = Some c ∧ Job.tenant_id c = tenant.
Definition ended (s : Session) (k : UUID) : Prop :=
  ∃ c, jobs (view s) !! k = Some c ∧ is_active c = false.

Lemma linked_forward tenant s s' k :
  forward s s' → session_wf false s → linked tenant s k → linked tenant s' k.
Proof.
  intros Hf Hs (c & Hc & Ht). destruct (Hf Hs) as [_ He]. destruct (He k c Hc) as (c' & Hc' & [Hid _ _ _ _]).
  exists c'. split; [done|]. unfold identity_of in Hid. congruence.
Qed.

Lemma ended_forward s s' k : forward s s' → session_wf false s → ended s k → ended s' k.
Proof.
  intros Hf Hs (c & Hc & Ha). destruct (Hf Hs) as [_ He]. destruct (He k c Hc) as (c' & Hc' & Hev).
  exists c'. split; [done|]. destruct (is_active c') eqn:E; [|done].
  by rewrite (evolves_active _ _ _ Hev E) in Ha.
Qed.

(** A child that belongs to the tenant has ended once it was reconciled, whatever became
    of it in the window. *)
Lemma reconcile_child_ends tenant interrupted k s s' :
  session_wf false s → linked tenant s k →
  reconcile_child tenant (unfinished_outcome interrupted) k s = (Ret tt, s') →
  ended s' k ∧ device_results (view s') = device_results (view s).
Proof.
  intros Hs (c & Hc & Ht). unfold reconcile_child, get_job.
  erewrite bind_Ret by (cbv [query gets]; by rewrite Hc). cbv beta iota.
  destruct (of_value (A := DiscoveryJobStatus) (Job.state c)) as [st|] eqn:Es; [|intros [=]].
  destruct (Vocabulary.is_terminal st) eqn:Et.
  { intros [= <-]. split; [|done]. exists c. split; [done|]. apply of_value_Some in Es.
    unfold is_active. rewrite Es. by destruct st. }
  erewrite bind_Ret by reflexivity.
  assert (session_wf false (snd (utc_now s))) as Hs1 by (by apply preserves_utc_now).
  destruct (concurrent_commit_spec false _ Hs1) as (Hw & Hs2 & He & Ho).
  erewrite bind_Ret by exact Hw. set (s2 := snd (concurrent_commit _)) in *.
  erewrite bind_Ret by reflexivity. erewrite bind_Ret by reflexivity.
  intros [= <-]. split; [|unfold other_tables in Ho; cbn in *; congruence].
  destruct (He k c Hc) as (c' & Hc' & [Hid _ _ _ _]). unfold identity_of in Hid.
  assert (Job.id c = k) as Hk by (by apply (tw_key _ (sw_view _ _ Hs))).
  eexists. split.
  - cbn. rewrite lookup_update_rows, Hc'. cbn.
    replace (Job.id c') with (Job.id c) by congruence. replace (Job.tenant_id c') with tenant by congruence.
    by rewrite !eqb_refl.
  - by destruct interrupted.
Qed.

Definition same_results (s s' : Session) : Prop :=
  device_results (view s') = device_results (view s).

#[local] Instance same_results_preorder : PreOrder same_results.
Proof. split; [by intros ?|]. intros a b c. unfold same_results. by intros -> ->. Qed.

(** Drop the steps that change no row. *)
Ltac read_only := repeat match goal with
  | Hq : query _ _ = _ |- _ => injection Hq as _ <-
  | Hq : get_target _ _ = _ |- _ => injection Hq as _ <-
  | Hq : get_run _ _ = _ |- _ => injection Hq as _ <-
  | Hq : uuid4 _ = _ |- _ => injection Hq as _ <-
  | Hq : utc_now _ = _ |- _ => injection Hq as _ <-
  end.

Lemma create_results tenant_id target_id run_id parent created_by caps timeout corr s j s' :
  create tenant_id target_id run_id parent created_by caps timeout corr s = (Ret j, s') →
  same_results s s' ∧ jobs (view s') !! Job.id j = Some j ∧ Job.tenant_id j = tenant_id.
Proof.
  unfold create. intros H. unbind H. unbind H.
  destruct (negb _) in H; [discriminate H|]. destruct (negb _) in H; [discriminate H|].
  unbind H. destruct (negb _) in H; [discriminate H|]. repeat unbind H. injection H as <- <-.
  read_only.
  match goal with Hc : concurrent_commit _ = (_, ?s1) |- _ => rename Hc into Hcc end.
  match goal with Ht : try_except _ _ _ = _ |- _ => revert Ht end.
  unfold try_except, insert_job. destruct (_ || _); [by intros [=]|].
  intros [= _ <-]. cbn. split_and!; [|apply lookup_insert_eq|done].
  unfold same_results. cbn. revert Hcc. unfold concurrent_commit.
  destruct (interference _); [by intros [= _ <-]|]. unfold other_commits. cbn.
  destruct (_ && _); by intros [= _ <-].
Qed.

Lemma child_target_results tenant_id scope a : preserves same_results (child_target tenant_id scope a).
Proof.
  unfold child_target, find_target. repeat (autounfold with preserves;
    first [preserves_step | by intros ?]).
Qed.

Lemma create_child_rows tenant_id parent target a s child r s' :
  create_child tenant_id parent target a s = (Ret (child, r), s') →
  device_results (view s) !! id r = None ∧
  device_results (view s') = <[id r := r]> (device_results (view s)) ∧
  linked tenant_id s' (child_job_id r).
Proof.
  unfold create_child. intros H. repeat unbind H. injection H as <- <- <-.
  match goal with Hc : child_target _ _ _ _ = _ |- _ =>
    pose proof (child_target_results tenant_id target a s) as Hs1; rewrite Hc in Hs1 end.
  match goal with Hc : create _ _ _ _ _ _ _ _ _ = _ |- _ =>
    apply create_results in Hc as (Hs2 & Hj & Ht) end.
  match goal with Hi : insert_device_result ?r _ = _ |- _ => set (r0 := r) in *; revert Hi end.
  match goal with Hp : put_run _ _ = _ |- _ => injection Hp as _ <- end.
  read_only. unfold same_results in Hs1, Hs2. cbn in Hs1, Hs2.
  unfold insert_device_result. erewrite bind_Ret by reflexivity. cbn [device_results view set_drawn].
  rewrite Hs2, Hs1. destruct (device_results (view s) !! id r0) eqn:E; [by intros [=]|].
  cbn [is_not_none is_none negb orb]. destruct (existsb _ _); [by intros [=]|].
  intros [= _ <-]. split_and!; [done| |].
  - cbn. by rewrite Hs2, Hs1.
  - eexists. cbn. eauto.
Qed.

Lemma reconcile_result_rows u r r' s s' :
  reconcile_result u r s = (Ret r', s') → stored s r →
  stored s' r' ∧ id r' = id r ∧ child_job_id r' = child_job_id r ∧ jobs (view s') = jobs (view s) ∧
  (∀ k, k ≠ id r → device_results (view s') !! k = device_results (view s) !! k).
Proof.
  unfold reconcile_result. destruct (result_unfinished r).
  - erewrite bind_Ret by reflexivity. cbv zeta. erewrite bind_Ret by reflexivity.
    intros [= <- <-] Hr. split_and!; [apply lookup_insert_eq|done..|]. intros k Hk. cbn.
    by rewrite lookup_insert_ne by (intros <-; by destruct Hk).
  - by intros [= <- <-] Hr.
Qed.

(** The map of the loop describes the table: its results are stored, under one address
    each, and their child jobs belong to the tenant. *)
Record loop_rows (tenant : string) (s : Session) (m : gmap string result) : Prop := {
  lr_stored : ∀ a r, m !! a = Some r → stored s r;
  lr_inj : ∀ a a' r r', m !! a = Some r → m !! a' = Some r' → id r = id r' → a = a';
  lr_linked : ∀ a r, m !! a = Some r → linked tenant s (child_job_id r);
}.

Lemma reconcile_addresses_rows tenant parent target interrupted addresses by_address s m created s' :
  session_wf false s → loop_rows tenant s by_address →
  reconcile_addresses tenant parent target (unfinished_outcome interrupted) by_address addresses s
    = (Ret (m, created), s') →
  (∀ r, stored s r → (∀ a r', by_address !! a = Some r' → id r' ≠ id r) → stored s' r) ∧
  (∀ a r, m !! a = Some r → stored s' r) ∧
  (∀ r, r ∈ created → stored s' r ∧ ended s' (child_job_id r)) ∧
  (∀ a r, a ∈ addresses → m !! a = Some r → ended s' (child_job_id r)).
Proof.
  revert by_address s m created s'. induction addresses as [|a l IH];
    intros by_address s m created s' Hs [Hst Hinj Hl] H; cbn in H.
  { injection H as <- <- <-. split_and!; eauto; intros ? *; by rewrite elem_of_nil. }
  destruct (by_address !! a) as [r|] eqn:Ea.
  - apply bind_inv in H as [([] & s1 & H1 & H)|(? & _ & [=])].
    apply bind_inv in H as [(r1 & s2 & H2 & H)|(? & _ & [=])].
    pose proof (forward_reconcile_child tenant interrupted (child_job_id r) s) as F1. rewrite H1 in F1.
    pose proof (forward_reconcile_result interrupted r s1) as F2. rewrite H2 in F2. cbn [snd] in F1, F2.
    destruct (F1 Hs) as [Hs1 _]. destruct (F2 Hs1) as [Hs2 _].
    pose proof (returns_loop _ _ _ _ _ _ _ _ _ H) as F3.
    apply reconcile_child_ends in H1 as [He Hd]; [|done|by eapply Hl].
    apply reconcile_result_rows in H2 as (Hst1 & Hid1 & Hc1 & Hj1 & Hd1);
      [|unfold stored; rewrite Hd; by eapply Hst].
    assert (∀ r0, stored s r0 → id r0 ≠ id r → stored s2 r0) as Hframe.
    { intros r0 Hr0 Hn. unfold stored. rewrite Hd1, Hd; done. }
    assert (loop_rows tenant s2 (<[a := r1]> by_address)) as Hrows.
    { split.
      - intros a' r' [[<- <-]|[Hn Ha']]%lookup_insert_Some; [done|]. apply Hframe; [by eapply Hst|].
        intros Heq. apply Hn. by eapply Hinj.
      - intros a1 a2 r' r'' [[<- <-]|[Hn Ha']]%lookup_insert_Some [[<- <-]|[Hn' Ha'']]%lookup_insert_Some Hids;
          [done| | |by eapply Hinj]; rewrite Hid1 in Hids; by eapply Hinj.
      - intros a' r' [[<- <-]|[Hn Ha']]%lookup_insert_Some.
        + rewrite Hc1. do 2 (eapply linked_forward; [eassumption|done|]). by eapply Hl.
        + do 2 (eapply linked_forward; [eassumption|done|]). by eapply Hl. }
    pose proof (reconcile_addresses_Ret _ _ _ _ _ _ _ _ _ _ H) as [Hk _ _ _].
    apply IH in H as (K1 & K2 & K3 & K4); [|done..]. split_and!; [|done..|].
    + intros r0 Hr0 Hn. apply K1; [apply Hframe; [done|]; intros Hx; by apply (Hn a r)|].
      intros a' r' [[<- <-]|[_ Ha']]%lookup_insert_Some; [rewrite Hid1|]; by eapply Hn.
    + intros a' r' [->|Hin]%elem_of_cons Hr'; [|by eapply K4].
      destruct (Hk a r1) as (r2 & Hr2 & [_ Hc2] & _); [apply lookup_insert_eq|]. simplify_eq.
      rewrite Hc2, Hc1. do 2 (eapply ended_forward; [eassumption|done|]). done.
  - apply bind_inv in H as [([c r] & s1 & H1 & H)|(? & _ & [=])].
    apply bind_inv in H as [([] & s2 & H2 & H)|(? & _ & [=])].
    apply bind_inv in H as [(r1 & s3 & H3 & H)|(? & _ & [=])].
    apply bind_inv in H as [([m' created'] & s4 & H4 & H)|(? & _ & [=])].
    injection H as <- <- <-. cbn [fst snd] in *.
    pose proof (returns_create_child _ _ _ _ _ _ _ H1) as F1.
    pose proof (forward_reconcile_child tenant interrupted (child_job_id r) s1) as F2. rewrite H2 in F2.
    pose proof (forward_reconcile_result interrupted r s2) as F3. rewrite H3 in F3. cbn [snd] in F2, F3.
    destruct (F1 Hs) as [Hs1 _]. destruct (F2 Hs1) as [Hs2 _]. destruct (F3 Hs2) as [Hs3 _].
    pose proof (returns_loop _ _ _ _ _ _ _ _ _ H4) as F4.
    apply create_child_rows in H1 as (Hnew & Hd0 & Hl0).
    apply reconcile_child_ends in H2 as [He Hd]; [|done..].
    apply reconcile_result_rows in H3 as (Hst1 & Hid1 & Hc1 & Hj1 & Hd1);
      [|unfold stored; rewrite Hd, Hd0; apply lookup_insert_eq].
    assert (∀ r0, stored s r0 → id r0 ≠ id r ∧ stored s3 r0) as Hframe.
    { intros r0 Hr0. assert (id r0 ≠ id r) as Hn by (intros Hx; unfold stored in Hr0; congruence).
      split; [done|]. unfold stored. rewrite Hd1, Hd, Hd0 by done.
      by rewrite lookup_insert_ne by (intros ?; by destruct Hn). }
    assert (loop_rows tenant s3 by_address) as Hrows.
    { split; [intros a' r' Ha'; by eapply Hframe, Hst|done|]. intros a' r' Ha'.
      do 3 (eapply linked_forward; [eassumption|done|]). by eapply Hl. }
    pose proof (reconcile_addresses_Ret _ _ _ _ _ _ _ _ _ _ H4) as [_ Hold _ _].
    apply IH in H4 as (K1 & K2 & K3 & K4); [|done..].
    assert (∀ a' r', by_address !! a' = Some r' → id r' ≠ id r) as Hne
      by (intros a' r' Ha'; by eapply Hframe, Hst).
    split_and!; [|done| |].
    + intros r0 Hr0 Hn. apply K1; [by apply Hframe|done].
    + intros r' [->|Hin]%elem_of_cons; [|by apply K3]. split.
      * apply K1; [done|]. rewrite Hid1. done.
      * rewrite Hc1. do 2 (eapply ended_forward; [eassumption|done|]). done.
    + intros a' r' [->|Hin]%elem_of_cons Hr'; [|by eapply K4].
      destruct (Hold a r' Hr') as [? ?]. congruence.
Qed.

(** The columns a finalized run shows for a list of results. *)
Definition summarises (expected : Z) (results : list result) (r : Run.DiscoveryRunRecord) : Prop :=
  Run.total_scanned r = Some expected ∧
  Run.total_discovered r = Some (counts results ResultState.DISCOVERED) ∧
  Run.total_unreachable r = Some (counts results ResultState.UNREACHABLE) ∧
  (Run.status r = value RunStatus.SUCCEEDED ↔
    (∃ x, x ∈ results ∧ result_state x = Some (value ResultState.DISCOVERED)) ∧
    ∀ x, x ∈ results → result_state x ≠ Some (value ResultState.CANCELLED) ∧
                       result_state x ≠ Some (value ResultState.INTERRUPTED)).

Lemma counts_pos results st :
  0 < counts results st ↔ ∃ x, x ∈ results ∧ result_state x = Some (value st).
Proof.
  unfold counts, result_states. rewrite count_of_pos, list_elem_of_fmap. naive_solver.
Qed.

Lemma counts_zero results st :
  counts results st = 0 ↔ ∀ x, x ∈ results → result_state x ≠ Some (value st).
Proof.
  unfold counts, result_states. rewrite count_of_zero, list_elem_of_fmap. naive_solver.
Qed.

Lemma finalized_run_summarises expected results now r :
  summarises expected results (finalized_run expected results now r).
Proof.
  unfold summarises. split_and!; [done..|]. cbn [Run.status finalized_run].
  rewrite <-counts_pos. unfold finalized_run. cbn.
  destruct (_ && _) eqn:E; [|apply andb_false_iff in E as [E|E]; [apply andb_false_iff in E as [E|E]|]].
  - rewrite !andb_true_iff, Z.ltb_lt, !Z.eqb_eq, !counts_zero in E. naive_solver.
  - apply Z.ltb_ge in E. split; [discriminate|lia].
  - apply Z.eqb_neq in E. split; [discriminate|]. intros [_ Hx]. destruct E.
    apply counts_zero. naive_solver.
  - apply Z.eqb_neq in E. split; [discriminate|]. intros [_ Hx]. destruct E.
    apply counts_zero. naive_solver.
Qed.

(** The results of a parent, and the map the loop starts from. *)
Lemma found_results tenant parent_id s :
  (∀ k r, device_results (view s) !! k = Some r → id r = k) →
  ∀ r, r ∈ List.filter (λ r, (tenant_id r ≟ tenant) && (discovery_job_id r ≟ parent_id))
             (rows (device_results (view s))) ↔
    device_results (view s) !! id r = Some r ∧ tenant_id r = tenant ∧ discovery_job_id r = parent_id.
Proof.
  intros Hk r. rewrite list_elem_of_In, filter_In, <-list_elem_of_In, andb_true_iff, !eqb_true.
  unfold rows. rewrite list_elem_of_fmap. split.
  - intros [([k r1] & -> & Hi) ?]. apply elem_of_map_to_list in Hi. cbn in *. by rewrite (Hk _ _ Hi).
  - intros [Hi ?]. split; [|done]. exists (id r, r). by rewrite elem_of_map_to_list.
Qed.

Lemma found_rows tenant parent_id s results :
  (∀ r, r ∈ results ↔ device_results (view s) !! id r = Some r ∧ tenant_id r = tenant ∧
     discovery_job_id r = parent_id) →
  (∀ k r, device_results (view s) !! k = Some r → id r = k ∧ linked (tenant_id r) s (child_job_id r)) →
  loop_rows tenant s (index_by_address results).
Proof.
  intros Hf Hk. split.
  - intros a r [Hin _]%index_by_address_spec. by apply Hf.
  - intros a a' r r' [Hin <-]%index_by_address_spec [Hin' <-]%index_by_address_spec Hid.
    apply Hf in Hin as [Hin _], Hin' as [Hin' _]. congruence.
  - intros a r [Hin _]%index_by_address_spec. apply Hf in Hin as (Hin & <- & _). by apply Hk in Hin as [_ ?].
Qed.

Lemma finalize_keeps parent n results s s' :
  finalize_parent_run parent n results s = (Ret tt, s') →
  jobs (view s') = jobs (view s) ∧ device_results (view s') = device_results (view s).
Proof.
  unfold finalize_parent_run. intros H. unbind H. destruct x as [r|].
  - unbind H. injection H as <-. read_only. done.
  - injection H as <-. by read_only.
Qed.

Section Reconcile.
Context `{IpLibrary}.

End Reconcile.

(** The counters of a finalized run lose no result: the totals, with the
    cancelled and interrupted counts recorded in the metadata, add up to the
    number of results. *)
Theorem finalized_run_conserves expected results now r
    (Hst : ∀ x, x ∈ results → ∃ st : DiscoveryResultState, result_state x = Some (value st)) :
  let r' := finalized_run expected results now r in
  let total o := from_option (λ n, n) 0 o in
  ∃ c i, dict_get "total_cancelled" (Run.metadata_json r') = Some (JInt c) ∧
    dict_get "total_interrupted" (Run.metadata_json r') = Some (JInt i) ∧
    total (Run.total_discovered r') + total (Run.total_unreachable r')
    + total (Run.total_reachable_no_management r') + total (Run.total_authentication_failed r')
    + total (Run.total_partial_discovery r') + total (Run.total_unverified r') + c + i
    = Z.of_nat (length results).
Proof.
  intros r' total. exists (counts results ResultState.CANCELLED),
    (counts results ResultState.INTERRUPTED).
  subst r'. unfold finalized_run. cbn -[dict_get dict_set].
  rewrite dict_get_set_ne, !dict_get_set by discriminate. split_and!; [done..|].
  pose proof (count_of_total (map (λ st : DiscoveryResultState, Some (value st)) members)
    (result_states results)) as Htot. unfold result_states in Htot at 3.
  rewrite length_map in Htot. rewrite <-Htot; [cbn; unfold counts; cbn; lia| |].
  - apply NoDup_fmap_2; [|by apply (bool_decide_unpack _); vm_compute].
    intros a b [= Hab]. by apply value_inj.
  - intros x Hx. apply list_elem_of_fmap in Hx as (y & -> & Hy). destruct (Hst y Hy) as [st ->].
    apply list_elem_of_fmap. exists st. split; [done|apply members_all].
Qed.

(** ** Witnesses *)

(** A parent over two addresses, the first of which has a finished result. *)
Definition parent_job : Job.DiscoveryJobRecord := running_job 1 11 None 7.

Definition scope_run : Run.DiscoveryRunRecord :=
  Run.set_metadata_json [("expected_addresses"%string, JList [JStr "10.0.0.1"; JStr "10.0.0.2"])]
    (new_child_run 50 "acme" "lab" "10.0.0.0" 1 0 0).

Definition first_result : result :=
  set_result_state (Some "discovered"%string)
    (set_state "succeeded" (new_child_result 60 "acme" 1 70 "10.0.0.1" scope_target None)).

Definition fanout_db : DB := {|
  targets := {[11%N := scope_target]}; profiles := ∅; runs := {[50%N := scope_run]};
  jobs := job_table [parent_job; finished_job 70 12 7]; device_results := {[60%N := first_result]};
  attempts := ∅; evidence := ∅ |}.

Lemma fanout_session_wf : session_wf false (open_session fanout_db [other_claims 70]).
Proof.
  apply open_session_wf; [apply job_table_wf; solve_demo_wf|vm_compute; reflexivity|].
  apply Forall_singleton, rely_update. intros j. apply claimed_step.
Qed.


Lemma finalized_run_conserves_witness :
  let r' := finalized_run 1 [first_result] 0 scope_run in
  let total o := from_option (λ n, n) 0 o in
  ∃ c i, dict_get "total_cancelled" (Run.metadata_json r') = Some (JInt c) ∧
    dict_get "total_interrupted" (Run.metadata_json r') = Some (JInt i) ∧
    total (Run.total_discovered r') + total (Run.total_unreachable r')
    + total (Run.total_reachable_no_management r') + total (Run.total_authentication_failed r')
    + total (Run.total_partial_discovery r') + total (Run.total_unverified r') + c + i = 1.
Proof.
  apply (finalized_run_conserves 1 [first_result] 0 scope_run).
  intros x [-> | []%not_elem_of_nil]%elem_of_cons. by exists ResultState.DISCOVERED.
Defined.
