(* ===== verification/Redaction.v ===== *)
(** * Redaction of messages before they are stored

    The regular-expression substitutions of [_safe_failure_message]
    ([discovery/multi_transport.py], [discovery/execution.py]) and of
    [_sanitize_payload], as scanners: a rule matches at the head of a string
    and returns the replacement and the rest, and [re_sub] replaces from left
    to right, which is what [re.sub] does.  No pattern here needs
    backtracking: its alternatives start differently and its repetitions are
    followed by characters they do not contain. *)

From S2P Require Import Prelude Json.
#[local] Open Scope Z_scope.

(** ** Scanners *)

Fixpoint drop_while (p : ascii → bool) (s : string) : string :=
  match s with
  | EmptyString => EmptyString
  | String c s' => if p c then drop_while p s' else s
  end.

(** Match [word] at the head of [s], ignoring case: the text and the rest. *)
Fixpoint strip_word (word s : string) : option (string * string) :=
  match word with
  | EmptyString => Some (EmptyString, s)
  | String w word' =>
      match s with
      | EmptyString => None
      | String c s' =>
          if ascii_lower c ≟ w then
            '(text, rest) ← strip_word word' s'; Some (String c text, rest)
          else None
      end
  end.

(** The first of the words that matches. *)
Fixpoint strip_any (words : list string) (s : string) : option (string * string) :=
  match words with
  | [] => None
  | w :: words' => match strip_word w s with Some m => Some m | None => strip_any words' s end
  end.

Definition rule := string → option (string * string).

Fixpoint sub_fuel (r : rule) (fuel : nat) (s : string) : string :=
  match fuel with
  | O => s
  | S fuel' =>
      match r s with
      | Some (rep, rest) => rep +:+ sub_fuel r fuel' rest
      | None => match s with
                | EmptyString => EmptyString
                | String c s' => String c (sub_fuel r fuel' s')
                end
      end
  end.

(** [re.sub(pattern, replacement, s)]; every step consumes a character. *)
Definition re_sub (r : rule) (s : string) : string := sub_fuel r (String.length s) s.

(** ** The patterns *)

(** [[^\s,;]]. *)
Definition value_char (c : ascii) : bool :=
  negb (is_space c || (c ≟ ","%char) || (c ≟ ";"%char)).

(** [(password|secret|token|api[_-]?key|auth[_-]?pass|enable[_-]?pass|community)]. *)
Definition secret_words : list string :=
  ["password"; "secret"; "token"; "api_key"; "api-key"; "apikey"; "auth_pass"; "auth-pass";
   "authpass"; "enable_pass"; "enable-pass"; "enablepass"; "community"]%string.

(** [word\s*[:=]\s*([^\s,;]+)] becomes [word=[REDACTED]]. *)
Definition assignment_rule : rule := λ s,
  '(name, rest) ← strip_any secret_words s;
  match drop_while is_space rest with
  | String c rest =>
      if (c ≟ ":"%char) || (c ≟ "="%char) then
        match drop_while is_space rest with
        | String d rest' =>
            if value_char d
            then Some (name +:+ "=[REDACTED]", drop_while value_char rest')
            else None
        | EmptyString => None
        end
      else None
  | EmptyString => None
  end.

(** [[A-Z0-9_]] ignoring case. *)
Definition name_char (c : ascii) : bool :=
  let n := Ascii.N_of_ascii (ascii_lower c) in
  ((97 <=? n) && (n <=? 122) || (48 <=? n) && (n <=? 57) || (n =? 95))%N.

(** [(NOP_SECRET_[A-Z0-9_]+|vault:[^\s,;]+|credential:[^\s,;]+)] becomes
    [[REDACTED]]. *)
Definition one_or_more (p : ascii → bool) (s : string) : option string :=
  match s with
  | String c s' => if p c then Some (drop_while p s') else None
  | EmptyString => None
  end.

Definition reference_rule : rule := λ s,
  match strip_word "nop_secret_" s with
  | Some (_, rest) => r ← one_or_more name_char rest; Some ("[REDACTED]"%string, r)
  | None =>
      '(_, rest) ← strip_any ["vault:"; "credential:"]%string s;
      r ← one_or_more value_char rest; Some ("[REDACTED]"%string, r)
  end.

(** The message both [_safe_failure_message] functions build: stripped,
    redacted twice and cut. *)
Definition redacted (limit : nat) (message : string) : string :=
  str_take limit (re_sub reference_rule (re_sub assignment_rule (str_strip message))).

(** [MultiTransportDiscoveryOrchestrator._safe_failure_message]. *)
Definition safe_failure_message (value : option string) : option string :=
  match value with
  | None => None
  | Some v =>
      if str_truthy (str_strip v) then
        let m := redacted 500 v in if str_truthy m then Some m else None
      else None
  end.

(** [DiscoveryExecutionService._safe_failure_message]. *)
Definition safe_execution_message (message : string) : string :=
  if str_truthy (str_strip message) then
    let m := redacted 1000 message in
    if str_truthy m then m else "Discovery execution failed."
  else "Discovery execution failed."%string.

(** [(password|secret)\s+([^\s]+)] becomes the word and [[REDACTED]]. *)
Definition cli_secret_rule : rule := λ s,
  '(name, rest) ← strip_any ["password"; "secret"]%string s;
  r ← one_or_more is_space rest;
  r ← one_or_more (λ c, negb (is_space c)) r;
  Some (name +:+ " [REDACTED]", r).

(** [(password|secret|token|credential|api_key|auth_pass|enable_pass|community)]
    anywhere in a key. *)
Definition sensitive_key_words : list string :=
  ["password"; "secret"; "token"; "credential"; "api_key"; "auth_pass"; "enable_pass";
   "community"]%string.

Definition sensitive_key (k : string) : bool :=
  existsb (λ w, str_in w (str_lower k)) sensitive_key_words.

(** [DiscoveryExecutionService._sanitize_payload]. *)
Fixpoint sanitize_payload (data : json) : json :=
  match data with
  | JDict d =>
      JDict ((fix go (d : list (string * json)) : list (string * json) :=
        match d with
        | [] => []
        | (k, v) :: d' =>
            (k, if sensitive_key k then JStr "[REDACTED]" else sanitize_payload v) :: go d'
        end) d)
  | JList l =>
      JList ((fix go (l : list json) : list json :=
        match l with
        | [] => []
        | x :: l' => sanitize_payload x :: go l'
        end) l)
  | JStr s => JStr (re_sub cli_secret_rule s)
  | _ => data
  end.

(** ** Scanning strings *)

Lemma sapp_nil_r (s : string) : s +:+ "" = s.
Proof. induction s as [|c s IH]; [done|]. change (String c (s +:+ "") = String c s). by rewrite IH. Qed.

Lemma scons_app c (s t : string) : String c s +:+ t = String c (s +:+ t).
Proof. done. Qed.

Lemma sapp_assoc (a b c : string) : (a +:+ b) +:+ c = a +:+ (b +:+ c).
Proof.
  induction a as [|x a IH]; [done|].
  change (String x ((a +:+ b) +:+ c) = String x (a +:+ (b +:+ c))). by rewrite IH.
Qed.

Lemma slength_app (a b : string) :
  String.length (a +:+ b) = (String.length a + String.length b)%nat.
Proof.
  induction a as [|x a IH]; [done|].
  change (S (String.length (a +:+ b)) = S (String.length a + String.length b)). by rewrite IH.
Qed.

Lemma drop_while_app p (a b : string) :
  drop_while p (a +:+ b) = if str_all p a then drop_while p b else drop_while p a +:+ b.
Proof.
  induction a as [|c a IH]; [done|].
  change (String c a +:+ b) with (String c (a +:+ b)). cbn. by destruct (p c).
Qed.

Lemma drop_while_all p s : str_all p s = true → drop_while p s = ""%string.
Proof. induction s as [|c s IH]; cbn; [done|]. by destruct (p c). Qed.

Lemma drop_while_length p s : (String.length (drop_while p s) <= String.length s)%nat.
Proof. induction s as [|c s IH]; cbn; [done|]. destruct (p c); cbn; lia. Qed.

Lemma drop_while_suffix p s : ∃ t, s = t +:+ drop_while p s.
Proof.
  induction s as [|c s [t IH]]; [by exists ""%string|]. cbn.
  destruct (p c); [|by exists ""%string]. exists (String c t). cbn. by rewrite IH at 1.
Qed.

Lemma drop_while_head p s c t : drop_while p s = String c t → p c = false.
Proof. induction s as [|d s IH]; cbn; [done|]. destruct (p d) eqn:E; [done|]. by intros [= -> _]. Qed.

Lemma strip_word_Some word s text rest :
  strip_word word s = Some (text, rest) → s = text +:+ rest ∧ String.length text = String.length word.
Proof.
  revert s text rest. induction word as [|w word IH]; intros s text rest; cbn.
  - by intros [= <- <-].
  - destruct s as [|c s]; [done|]. destruct (_ ≟ _); [|done].
    destruct (strip_word word s) as [[t r]|] eqn:E; cbn; [|done]. intros [= <- <-].
    apply IH in E as [-> <-]. done.
Qed.

(** A word that cannot contain the character [d] is matched before it. *)
Lemma strip_word_app word d (a b : string) :
  str_all (λ c, negb (c ≟ d)) word = true → ascii_lower d = d →
  strip_word word (a +:+ String d b) =
  '(text, rest) ← strip_word word a; Some (text, rest +:+ String d b).
Proof.
  intros Hw Hd. revert a. induction word as [|w word IH]; intros a; [done|].
  cbn in Hw. apply andb_true_iff in Hw as [Hwd Hw]. specialize (IH Hw).
  destruct a as [|c a].
  - change ("" +:+ String d b) with (String d b). cbn. rewrite Hd.
    apply negb_true_iff in Hwd. rewrite eqb_false in Hwd.
    assert ((d ≟ w) = false) as -> by (rewrite eqb_false; congruence). done.
  - change (String c a +:+ String d b) with (String c (a +:+ String d b)). cbn.
    destruct (ascii_lower c ≟ w); [|reflexivity]. rewrite IH.
    destruct (strip_word word a) as [[t r]|]; reflexivity.
Qed.

Lemma strip_any_app words d (a b : string) :
  forallb (str_all (λ c, negb (c ≟ d))) words = true → ascii_lower d = d →
  strip_any words (a +:+ String d b) =
  '(text, rest) ← strip_any words a; Some (text, rest +:+ String d b).
Proof.
  intros Hw Hd. induction words as [|w words IH]; [done|].
  cbn in Hw |- *. apply andb_true_iff in Hw as [Hw Hws].
  rewrite strip_word_app by done.
  destruct (strip_word w a) as [[t r]|]; [reflexivity|]. by apply IH.
Qed.

Lemma strip_any_Some words s text rest :
  strip_any words s = Some (text, rest) → s = text +:+ rest.
Proof.
  induction words as [|w words IH]; cbn; [done|].
  destruct (strip_word w s) as [[t r]|] eqn:E; [|done]. intros [= <- <-].
  by apply strip_word_Some in E as [-> _].
Qed.

(** Two strings a rule treats alike are replaced alike. *)
Section Related.
Context (r : rule) (Q : string → string → Prop).
Hypothesis Hlen : ∀ s1 s2, Q s1 s2 → s1 ≠ ""%string ∧ s2 ≠ ""%string.
Hypothesis Hshrink : ∀ s rep rest, r s = Some (rep, rest) →
  (String.length rest < String.length s)%nat.
Hypothesis Hstep : ∀ s1 s2, Q s1 s2 →
  (∃ rep t1 t2, r s1 = Some (rep, t1) ∧ r s2 = Some (rep, t2) ∧ (Q t1 t2 ∨ t1 = t2)) ∨
  (r s1 = None ∧ r s2 = None ∧ ∃ c t1 t2, s1 = String c t1 ∧ s2 = String c t2 ∧ Q t1 t2).

Lemma sub_fuel_enough n m s :
  (String.length s <= n)%nat → (String.length s <= m)%nat → sub_fuel r n s = sub_fuel r m s.
Proof.
  revert m s. induction n as [|n IH]; intros m s Hn Hm.
  - destruct s; [|cbn in Hn; lia]. destruct m; [done|]. cbn.
    destruct (r "") as [[rep rest]|] eqn:E; [|done]. apply Hshrink in E. cbn in E. lia.
  - destruct m as [|m].
    + destruct s; [|cbn in Hm; lia]. cbn.
      destruct (r "") as [[rep rest]|] eqn:E; [|done]. apply Hshrink in E. cbn in E. lia.
    + cbn. destruct (r s) as [[rep rest]|] eqn:E.
      * apply Hshrink in E. f_equal. apply IH; lia.
      * destruct s as [|c s]; [done|]. f_equal. cbn in Hn, Hm. apply IH; lia.
Qed.

Lemma re_sub_related s1 s2 : Q s1 s2 → re_sub r s1 = re_sub r s2.
Proof.
  unfold re_sub. intros HQ.
  remember (Nat.max (String.length s1) (String.length s2)) as n eqn:Hn.
  rewrite (sub_fuel_enough _ n) by lia. rewrite (sub_fuel_enough (String.length s2) n) by lia.
  assert (String.length s1 <= n ∧ String.length s2 <= n)%nat as [H1 H2] by lia. clear Hn.
  revert s1 s2 HQ H1 H2. induction n as [|n IH]; intros s1 s2 HQ H1 H2.
  { destruct (Hlen _ _ HQ) as [Hne _]. destruct s1; [done|cbn in H1; lia]. }
  cbn. destruct (Hstep _ _ HQ)
    as [(rep & t1 & t2 & E1 & E2 & Ht)|(-> & -> & c & t1 & t2 & -> & -> & Ht)].
  - rewrite E1, E2. apply Hshrink in E1, E2. f_equal.
    destruct Ht as [Ht| ->]; [apply IH; [done|lia|lia]|done].
  - f_equal. cbn in H1, H2. apply IH; [done|lia|lia].
Qed.
End Related.

Lemma assignment_rule_shrinks s rep rest :
  assignment_rule s = Some (rep, rest) → (String.length rest < String.length s)%nat.
Proof.
  unfold assignment_rule. destruct (strip_any _ s) as [[name r]|] eqn:E; cbn; [|done].
  apply strip_any_Some in E as ->. destruct (drop_while is_space r) as [|c r1] eqn:E1; [done|].
  destruct (_ || _); [|done]. destruct (drop_while is_space r1) as [|d r2] eqn:E2; [done|].
  destruct (value_char d); [|done]. intros [= _ <-]. rewrite slength_app.
  pose proof (drop_while_length is_space r) as H1. rewrite E1 in H1.
  pose proof (drop_while_length is_space r1) as H2. rewrite E2 in H2.
  pose proof (drop_while_length value_char r2). cbn in *. lia.
Qed.

(** ** A secret value does not reach the stored message *)

#[local] Arguments value_char : simpl never.
#[local] Arguments is_space : simpl never.

Section Hidden.
Context (kw post : string).
Context (Hkw : kw ∈ secret_words).
Hypothesis Hpost : match post with EmptyString => True | String c _ => value_char c = false end.

Definition is_value (v : string) : Prop := v ≠ ""%string ∧ str_all value_char v = true.

Definition secret_tail (v : string) : string := String "="%char (v +:+ post).

(** The characters of a word are neither blanks nor punctuation. *)
Definition word_char (c : ascii) : bool :=
  value_char c && negb (is_space c) && negb (c ≟ ":"%char) && negb (c ≟ "="%char).

Lemma kw_chars : str_all word_char kw = true ∧ kw ≠ ""%string.
Proof.
  assert (forallb (λ w, str_all word_char w && str_truthy w) secret_words = true) as Hall
    by (vm_compute; reflexivity).
  rewrite forallb_forall in Hall. apply list_elem_of_In in Hkw. apply Hall in Hkw.
  apply andb_true_iff in Hkw as [? ?]. split; [done|]. by destruct kw.
Qed.

Lemma kw_strip (t : string) :
  strip_any secret_words (kw +:+ String "="%char t) = Some (kw, String "="%char t).
Proof.
  revert Hkw. clear Hpost. unfold secret_words at 1. rewrite !elem_of_cons, elem_of_nil.
  intros Hcases. repeat destruct Hcases as [->|Hcases]; [reflexivity..|done].
Qed.

Lemma word_value : str_all value_char kw = true.
Proof.
  destruct kw_chars as [H _]. revert H. generalize kw. intros k. induction k as [|c k IH]; cbn; [done|].
  intros [Hc Hk]%andb_true_iff. unfold word_char in Hc. rewrite !andb_true_iff in Hc.
  rewrite IH by done. by destruct Hc as [[[-> _] _] _].
Qed.

(** Blanks before the word are dropped without reaching it. *)
Lemma drop_before_word p u :
  (∀ c, word_char c = true → p c = false) →
  ∃ u', ∀ t, drop_while p (u +:+ kw +:+ t) = u' +:+ kw +:+ t.
Proof.
  intros Hp. induction u as [|c u [u' IH]].
  - exists ""%string. intros t. destruct kw_chars as [Hc Hn]. destruct kw as [|c k] eqn:Ek; [done|].
    cbn in Hc. apply andb_true_iff in Hc as [Hc _].
    change (drop_while p (String c (k +:+ t)) = String c (k +:+ t)). cbn. by rewrite Hp.
  - destruct (p c) eqn:E; [exists u'|exists (String c u)]; intros t;
      change (String c u +:+ kw +:+ t) with (String c (u +:+ kw +:+ t)); cbn; by rewrite E.
Qed.

(** Cutting [u +:+ kw] leaves the word whole or cuts into it. *)
Lemma cut_word u n r :
  u +:+ kw = n +:+ r → (∃ u', r = u' +:+ kw) ∨ (∃ k, kw = k +:+ r ∧ k ≠ ""%string).
Proof.
  revert n. induction u as [|c u IH]; intros n.
  - change ("" +:+ kw) with kw. intros ->. destruct n as [|d n].
    + left. by exists ""%string.
    + right. by exists (String d n).
  - destruct n as [|d n].
    + change ("" +:+ r) with r. intros <-. left. by exists (String c u).
    + change (String c (u +:+ kw) = String d (n +:+ r) → 
        (∃ u', r = u' +:+ kw) ∨ (∃ k, kw = k +:+ r ∧ k ≠ ""%string)).
      intros [= _ H]. eauto.
Qed.

Lemma word_char_spec c :
  word_char c = true → is_space c = false ∧ ((c ≟ ":"%char) || (c ≟ "="%char)) = false ∧
    value_char c = true.
Proof.
  unfold word_char. rewrite !andb_true_iff, !negb_true_iff. intros [[[? ?] ->] ->]. done.
Qed.

(** A value ends where [post] begins. *)
Lemma value_end x v :
  str_all value_char x = true → is_value v → drop_while value_char (x +:+ v +:+ post) = post.
Proof.
  intros Hx [_ Hv]. rewrite drop_while_app, Hx, drop_while_app, Hv.
  destruct post; [done|]. cbn. by rewrite Hpost.
Qed.

Lemma value_start v :
  is_value v → ∃ c v', v +:+ post = String c (v' +:+ post) ∧ value_char c = true ∧
    is_space c = false ∧ str_all value_char v' = true.
Proof.
  intros [Hn Hv]. destruct v as [|c v]; [done|]. cbn in Hv. apply andb_true_iff in Hv as [Hc Hv].
  exists c, v. split_and!; try done. unfold value_char in Hc.
  apply negb_true_iff, orb_false_iff in Hc as [[? _]%orb_false_iff _]. done.
Qed.

(** The value part of a match, wherever it begins. *)
Lemma value_step u :
  (∀ v, is_value v → match drop_while is_space (u +:+ kw +:+ secret_tail v) with
                     | String d _ => value_char d = false | _ => False end) ∨
  (∀ v, is_value v → ∃ d t, drop_while is_space (u +:+ kw +:+ secret_tail v) = String d t ∧
     value_char d = true ∧ drop_while value_char t = post) ∨
  (∃ u', ∀ v, is_value v → ∃ d t, drop_while is_space (u +:+ kw +:+ secret_tail v) = String d t ∧
     value_char d = true ∧ drop_while value_char t = u' +:+ kw +:+ secret_tail v).
Proof.
  destruct (drop_before_word is_space u) as [u1 Hu1]; [by intros c [? _]%word_char_spec|].
  assert (∀ w v, is_value v → str_all value_char w = true →
    drop_while value_char (w +:+ secret_tail v) = post) as Hend.
  { intros w v Hv Hw. rewrite drop_while_app, Hw. unfold secret_tail.
    change (drop_while value_char ("" +:+ v +:+ post) = post). by apply value_end. }
  destruct u1 as [|d u2].
  - right; left. intros v Hv. rewrite Hu1. destruct kw_chars as [Hc Hn].
    pose proof word_value as Hw. destruct kw as [|d k]; [done|].
    cbn in Hc, Hw. apply andb_true_iff in Hc as [Hd _], Hw as [_ Hk].
    exists d, (k +:+ secret_tail v). split_and!; [done|by apply word_char_spec|by apply Hend].
  - destruct (value_char d) eqn:Ed; [right|left; intros v Hv; rewrite Hu1; exact Ed].
    destruct (str_all value_char u2) eqn:Ea; [left|right].
    + intros v Hv. rewrite Hu1. exists d, (u2 +:+ kw +:+ secret_tail v).
      split_and!; [done|done|]. rewrite drop_while_app, Ea. apply Hend; [done|apply word_value].
    + exists (drop_while value_char u2). intros v Hv. rewrite Hu1.
      exists d, (u2 +:+ kw +:+ secret_tail v). split_and!; [done|done|].
      by rewrite drop_while_app, Ea.
Qed.

(** What follows the matched word decides the rule. *)
Definition after_word (name rest : string) : option (string * string) :=
  match drop_while is_space rest with
  | String c rest =>
      if (c ≟ ":"%char) || (c ≟ "="%char) then
        match drop_while is_space rest with
        | String d rest' =>
            if value_char d
            then Some (name +:+ "=[REDACTED]", drop_while value_char rest')
            else None
        | EmptyString => None
        end
      else None
  | EmptyString => None
  end.

(** A function of the value that is the same for every value, but for the
    value itself in the rest. *)
Definition same_step (f : string → option (string * string)) : Prop :=
  (∀ v, is_value v → f v = None) ∨
  (∃ rep, ∀ v, is_value v → f v = Some (rep, post)) ∨
  (∃ rep u', ∀ v, is_value v → f v = Some (rep, u' +:+ kw +:+ secret_tail v)).

Lemma after_word_tail name v :
  is_value v → after_word name (secret_tail v) = Some (name +:+ "=[REDACTED]", post).
Proof.
  intros Hv. destruct (value_start v Hv) as (c & v' & Hv1 & Hc & Hsp & Hv').
  change (after_word name (secret_tail v)) with
    (match drop_while is_space (v +:+ post) with
     | String d rest =>
         if value_char d then Some (name +:+ "=[REDACTED]", drop_while value_char rest) else None
     | EmptyString => None
     end).
  rewrite Hv1. cbn. rewrite Hsp, Hc.
  rewrite drop_while_app, Hv'. destruct post; [done|]. cbn. by rewrite Hpost.
Qed.

Lemma after_word_far name u : same_step (λ v, after_word name (u +:+ kw +:+ secret_tail v)).
Proof.
  unfold same_step, after_word.
  destruct (drop_before_word is_space u) as [u2 Hu2]; [by intros c [? _]%word_char_spec|].
  destruct u2 as [|d u3].
  { left. intros v Hv. rewrite Hu2. destruct kw_chars as [Hc Hn]. destruct kw as [|d k]; [done|].
    cbn in Hc. apply andb_true_iff in Hc as [(_ & Hd & _)%word_char_spec _].
    change ("" +:+ String d k +:+ secret_tail v) with (String d (k +:+ secret_tail v)).
    cbv iota.
    by rewrite Hd. }
  destruct ((d ≟ ":"%char) || (d ≟ "="%char)) eqn:Ed;
    [|left; intros v Hv; rewrite Hu2, scons_app; cbv iota; by rewrite Ed].
  destruct (value_step u3) as [H1|[H1|[u' H1]]]; [left|right; left|right; right].
  - intros v Hv. rewrite Hu2, scons_app. cbv iota. rewrite Ed. specialize (H1 v Hv).
    destruct (drop_while is_space (u3 +:+ _)); [done|]. by rewrite H1.
  - exists (name +:+ "=[REDACTED]"). intros v Hv. rewrite Hu2, scons_app. cbv iota. rewrite Ed.
    destruct (H1 v Hv) as (e & t & -> & He & Ht). by rewrite He, Ht.
  - exists (name +:+ "=[REDACTED]"), u'. intros v Hv. rewrite Hu2, scons_app. cbv iota. rewrite Ed.
    destruct (H1 v Hv) as (e & t & -> & He & Ht). by rewrite He, Ht.
Qed.

Lemma assignment_step u : same_step (λ v, assignment_rule (u +:+ kw +:+ secret_tail v)).
Proof.
  assert (∀ v, assignment_rule (u +:+ kw +:+ secret_tail v) =
    '(n, r) ← strip_any secret_words (u +:+ kw); after_word n (r +:+ secret_tail v)) as Hs.
  { intros v. rewrite <-sapp_assoc. unfold assignment_rule, secret_tail.
    rewrite strip_any_app by done. by destruct (strip_any _ (u +:+ kw)) as [[n r]|]. }
  destruct (strip_any secret_words (u +:+ kw)) as [[n r]|] eqn:E;
    [|left; intros v _; by rewrite Hs].
  destruct (cut_word u n r (strip_any_Some _ _ _ _ E)) as [[u1 ->]|(k & Hk & _)].
  - destruct (after_word_far n u1) as [H1|[[rep H1]|(rep & u' & H1)]];
      [left|right; left; exists rep|right; right; exists rep, u'];
      intros v Hv; rewrite Hs; cbn; rewrite sapp_assoc; auto.
  - destruct r as [|d r].
    + right; left. exists (n +:+ "=[REDACTED]"). intros v Hv. rewrite Hs.
      by apply after_word_tail.
    + left. intros v Hv. rewrite Hs. destruct kw_chars as [Hc _]. rewrite Hk, str_all_app in Hc.
      cbn in Hc. apply andb_true_iff in Hc as [_ [(Hsp & Hd & _)%word_char_spec _]%andb_true_iff].
      cbn [mbind option_bind]. unfold after_word. rewrite scons_app. cbn [drop_while].
      by rewrite Hsp, Hd.
Qed.

(** Two messages that differ in the value only. *)
Definition differ (v v' s s' : string) : Prop :=
  ∃ u, s = u +:+ kw +:+ secret_tail v ∧ s' = u +:+ kw +:+ secret_tail v'.

Lemma assignment_hides v v' s s' :
  is_value v → is_value v' → differ v v' s s' →
  re_sub assignment_rule s = re_sub assignment_rule s'.
Proof.
  intros Hv Hv'. apply re_sub_related; [|apply assignment_rule_shrinks|].
  - intros s1 s2 (u & -> & ->). destruct kw_chars as [_ Hn].
    split; destruct u; [destruct kw|..|destruct kw|]; done.
  - intros s1 s2 (u & -> & ->). destruct u as [|c u].
    + left. exists (kw +:+ "=[REDACTED]"), post, post.
      assert (∀ w, is_value w →
        assignment_rule (kw +:+ secret_tail w) = Some (kw +:+ "=[REDACTED]", post)) as Hw.
      { intros w Hw. unfold assignment_rule, secret_tail. rewrite kw_strip.
        by apply (after_word_tail kw). }
      split_and!; [by apply Hw|by apply Hw|by right].
    + destruct (assignment_step (String c u)) as [H1|[[rep H1]|(rep & u' & H1)]].
      * right. split_and!; [by apply H1|by apply H1|].
        exists c, (u +:+ kw +:+ secret_tail v), (u +:+ kw +:+ secret_tail v').
        split_and!; [done|done|by exists u].
      * left. exists rep, post, post. split_and!; [by apply H1|by apply H1|by right].
      * left. exists rep, (u' +:+ kw +:+ secret_tail v), (u' +:+ kw +:+ secret_tail v').
        split_and!; [by apply H1|by apply H1|left; by exists u'].
Qed.
End Hidden.

Lemma str_lstrip_drop s : str_lstrip s = drop_while is_space s.
Proof. induction s as [|c s IH]; [done|]. cbn. by destruct (is_space c). Qed.

Lemma str_rstrip_app a b :
  str_rstrip (a +:+ b) = if str_truthy (str_rstrip b) then a +:+ str_rstrip b else str_rstrip a.
Proof.
  induction a as [|c a IH].
  - change ("" +:+ b) with b. change ("" +:+ str_rstrip b) with (str_rstrip b).
    by destruct (str_rstrip b).
  - rewrite scons_app. cbn. rewrite IH.
    destruct (str_rstrip b) as [|d t]; [done|]. cbn [str_truthy]. by destruct a.
Qed.

Lemma str_rstrip_value v : str_all value_char v = true → str_rstrip v = v.
Proof.
  induction v as [|c v IH]; [done|]. cbn. intros [Hc Hv]%andb_true_iff. rewrite (IH Hv).
  destruct v; [|done]. unfold value_char in Hc.
  apply negb_true_iff, orb_false_iff in Hc as [[-> _]%orb_false_iff _]. done.
Qed.

Lemma str_rstrip_head c s : str_rstrip (String c s) = ""%string ∨ ∃ t, str_rstrip (String c s) = String c t.
Proof. cbn. destruct (str_rstrip s); [destruct (is_space c)|]; eauto. Qed.

(** Stripping keeps the message around its secret. *)
Lemma strip_differ kw post u :
  kw ∈ secret_words →
  match post with EmptyString => True | String c _ => value_char c = false end →
  ∃ u' post', match post' with EmptyString => True | String c _ => value_char c = false end ∧
    ∀ v, is_value v →
      str_strip (u +:+ kw +:+ secret_tail post v) = u' +:+ kw +:+ secret_tail post' v.
Proof.
  intros Hkw Hpost.
  destruct (drop_before_word kw Hkw is_space u) as [u' Hu]; [by intros c [? _]%word_char_spec|].
  exists u', (str_rstrip post). split.
  - destruct post as [|c post]; [done|].
    destruct (str_rstrip_head c post) as [->|[t ->]]; done.
  - intros v [Hn Hv]. unfold str_strip. rewrite str_lstrip_drop, Hu. unfold secret_tail.
    change (String "=" (v +:+ post)) with ("=" +:+ (v +:+ post)).
    change (String "=" (v +:+ str_rstrip post)) with ("=" +:+ (v +:+ str_rstrip post)).
    rewrite <-!sapp_assoc. rewrite str_rstrip_app.
    destruct (str_truthy (str_rstrip post)) eqn:E; [done|].
    assert (str_rstrip post = ""%string) as -> by (by destruct (str_rstrip post)).
    rewrite str_rstrip_app, str_rstrip_value, sapp_nil_r by done. by destruct v.
Qed.

Lemma redacted_hides limit kw post u v v' :
  kw ∈ secret_words →
  match post with EmptyString => True | String c _ => value_char c = false end →
  is_value v → is_value v' →
  redacted limit (u +:+ kw +:+ secret_tail post v) = redacted limit (u +:+ kw +:+ secret_tail post v') ∧
  ∀ w, is_value w → str_truthy (str_strip (u +:+ kw +:+ secret_tail post w)) = true.
Proof.
  intros Hkw Hpost Hv Hv'. destruct (strip_differ kw post u Hkw Hpost) as (u' & post' & Hp & Hs).
  split.
  - unfold redacted. rewrite !Hs by done. f_equal. f_equal.
    eapply (assignment_hides kw post'); [done|done|exact Hv|exact Hv'|]. by exists u'.
  - intros w Hw. rewrite Hs by done. destruct u'; [|done].
    destruct (kw_chars kw Hkw) as [_ Hn]. by destruct kw.
Qed.

(** The stored failure message does not depend on a secret's value: for a
    message that assigns a value to a secret word, every other value gives the
    same stored message, in the orchestrator and in the execution service. *)
Theorem failure_message_hides_secret kw post u v v' (Hkw : kw ∈ secret_words)
    (Hpost : match post with EmptyString => True | String c _ => value_char c = false end)
    (Hv : is_value v) (Hv' : is_value v') :
  let message w := u +:+ kw +:+ "=" +:+ w +:+ post in
  safe_failure_message (Some (message v)) = safe_failure_message (Some (message v')) ∧
  safe_execution_message (message v) = safe_execution_message (message v').
Proof.
  intros message. subst message. cbv beta.
  change ("=" +:+ v +:+ post) with (secret_tail post v).
  change ("=" +:+ v' +:+ post) with (secret_tail post v').
  unfold safe_failure_message, safe_execution_message.
  destruct (redacted_hides 500 kw post u v v' Hkw Hpost Hv Hv') as [H500 Htr].
  destruct (redacted_hides 1000 kw post u v v' Hkw Hpost Hv Hv') as [H1000 _].
  by rewrite !Htr, H500, H1000.
Qed.

Lemma failure_message_hides_secret_witness :
  safe_failure_message (Some "login failed: api_key=hunter2, host 10.0.0.1"%string)
  = safe_failure_message (Some "login failed: api_key=x, host 10.0.0.1"%string).
Proof.
  refine (proj1 (failure_message_hides_secret "api_key" ", host 10.0.0.1" "login failed: "
    "hunter2" "x" _ _ _ _)).
  - by apply list_elem_of_In; vm_compute; auto 10.
  - reflexivity.
  - split; [discriminate|reflexivity].
  - split; [discriminate|reflexivity].
Defined.

(** ** Evidence payloads *)

(** Payloads that differ only under sensitive keys. *)
Inductive same_public : json → json → Prop :=
  | public_refl j : same_public j j
  | public_list l l' : Forall2 same_public l l' → same_public (JList l) (JList l')
  | public_dict d d' :
      Forall2 (λ e e', e.1 = e'.1 ∧ (sensitive_key e.1 = true ∨ same_public e.2 e'.2)) d d' →
      same_public (JDict d) (JDict d').

Lemma sanitize_list l : sanitize_payload (JList l) = JList (map sanitize_payload l).
Proof. reflexivity. Qed.

Lemma sanitize_dict d :
  sanitize_payload (JDict d) =
  JDict (map (λ e, (e.1, if sensitive_key e.1 then JStr "[REDACTED]" else sanitize_payload e.2)) d).
Proof. cbn. f_equal. induction d as [|[k x] d IH]; [done|]. cbn. by rewrite IH. Qed.

(** Sanitised evidence does not depend on what the payload holds under
    sensitive keys, at any depth. *)
Theorem sanitize_payload_hides a b (Hab : same_public a b) :
  sanitize_payload a = sanitize_payload b.
Proof.
  revert b Hab. induction a as [|x|x|x|x|l IH|d IH] using json_deep_ind; intros b Hab;
    inversion Hab as [|? l' Hl|? d' Hd]; subst; try done.
  - rewrite !sanitize_list. f_equal. clear Hab.
    induction Hl as [|x y l l' Hxy Hl IHl]; [done|]. apply Forall_cons in IH as [Hx IH].
    cbn. by rewrite (Hx y Hxy), IHl.
  - rewrite !sanitize_dict. f_equal. clear Hab.
    induction Hd as [|[k x] [k' y] d d' [Hk Hxy] Hd IHd]; [done|].
    apply Forall_cons in IH as [Hx IH]. cbn [fst snd compose] in Hk, Hxy, Hx. subst k'. cbn [map fst snd]. rewrite (IHd IH).
    destruct (sensitive_key k) eqn:E; [done|]. destruct Hxy as [?|Hxy]; [congruence|]. by rewrite (Hx y Hxy).
Qed.

Lemma sanitize_payload_hides_witness :
  sanitize_payload (JDict [("hostname"%string, JStr "r1"); ("snmp_community"%string, JStr "public")])
  = sanitize_payload (JDict [("hostname"%string, JStr "r1"); ("snmp_community"%string, JStr "s3cr3t")]).
Proof.
  apply sanitize_payload_hides, public_dict.
  constructor; [|constructor; [|constructor]]; cbn [fst snd]; split; auto using public_refl.
Defined.
