(* ===== verification/MultiTransport.v ===== *)
(** * Multi-transport discovery with fallback ([discovery/multi_transport.py])

    The orchestrator that tries the configured transports of a device in
    order until one identifies it.  A collector is an interface of the
    program; here it is what the orchestrator calls on it, as computations on
    the session ([TransportAttemptConfig]).  Every attempt is a row of its own
    ([DiscoveryTransportAttemptRepository]), opened when the attempt starts and
    closed with its outcome. *)

From S2P Require Import Prelude Vocabulary Effects Json Records Session Contracts Probing.
From S2P Require Import ResultStates Redaction.

#[local] Open Scope Z_scope.

(** ** The repository of attempts *)

(** [int((end - start).total_seconds() * 1000)] on microseconds. *)
Definition duration_ms (started_at completed_at : datetime) : Z :=
  Z.quot (completed_at - started_at) 1000.

(** [DiscoveryTransportAttemptRepository.start]. *)
Definition start (tenant_id : string) (device_result_id : UUID) (transport : string)
    (attempt_order : Z) (correlation_id : option string)
    : DbM Attempt.DiscoveryTransportAttemptRecord :=
  id <- uuid4 ;;
  started_at <- utc_now ;;
  let record := {|
    Attempt.id := id; Attempt.tenant_id := tenant_id;
    Attempt.device_result_id := device_result_id; Attempt.transport := transport;
    Attempt.attempt_order := attempt_order; Attempt.result := "running";
    Attempt.failure_code := None; Attempt.failure_message := None;
    Attempt.started_at := started_at; Attempt.completed_at := None;
    Attempt.duration_ms := None; Attempt.correlation_id := correlation_id |} in
  put_attempt record ;;;
  ret record.

(** [DiscoveryTransportAttemptRepository.finish]. *)
Definition finished_attempt (result : string) (failure_code failure_message : option string)
    (completed_at : datetime) (r : Attempt.DiscoveryTransportAttemptRecord)
    : Attempt.DiscoveryTransportAttemptRecord :=
  r |> Attempt.set_result result
    |> Attempt.set_failure_code failure_code
    |> Attempt.set_failure_message failure_message
    |> Attempt.set_completed_at (Some completed_at)
    |> Attempt.set_duration_ms (Some (Z.max 0 (duration_ms (Attempt.started_at r) completed_at))).

Definition finish (record : Attempt.DiscoveryTransportAttemptRecord) (result : string)
    (failure_code failure_message : option string)
    : DbM Attempt.DiscoveryTransportAttemptRecord :=
  completed_at <- utc_now ;;
  let record := finished_attempt result failure_code failure_message completed_at record in
  put_attempt record ;;;
  ret record.

(** ** The orchestrator *)

Record TransportAttemptConfig := {
  transport_name : string;
  capability : TransportCapability;
  health_check : DbM unit;
  collect : DbM json;
  is_insecure : bool;
  validate_payload : option (dict → DbM (option dict));
}.

Record TransportAttemptResult := {
  attempted_transport : string;
  attempt_order : Z;
  success : bool;
  failure_code : option DiscoveryFailureCode;
  failure_message : option string;
  started_at : datetime;
  completed_at : datetime;
  attempt_duration_ms : Z;
  payload : option dict;
  device_info : option dict;
}.

Record MultiTransportDiscoveryResult := {
  result_address : string;
  result_state : DiscoveryResultState;
  selected_transport : option string;
  result_attempts : list TransportAttemptResult;
  discovery_payload : option dict;
  result_device_info : option dict;
  result_started_at : datetime;
  result_completed_at : datetime;
}.

Definition was_discovered (r : MultiTransportDiscoveryResult) : bool :=
  result_state r ≟ ResultState.DISCOVERED.

(** ** Classification of an exception *)

(** [any(term in message for term in terms)]. *)
Definition mentions (terms : list string) (message : string) : bool :=
  existsb (λ term, str_in term message) terms.

(** [MultiTransportDiscoveryOrchestrator._classify_exception]. *)
Definition classify_exception (exc : exn) : DiscoveryFailureCode :=
  let message := str_lower (exn_str exc) in
  let exc_type := str_lower (type_name exc) in
  if isinstance exc CredentialResolutionError then FailureCode.CREDENTIAL_RESOLUTION_FAILED
  else if isinstance exc TransportAuthenticationError then FailureCode.AUTHENTICATION_FAILED
  else if isinstance exc TransportDependencyError || isinstance exc TransportUnavailableError
    then FailureCode.TRANSPORT_UNAVAILABLE
  else if mentions ["authentication"; "unauthorized"; "credential"; "login"; "auth"]%string message
    then FailureCode.AUTHENTICATION_FAILED
  else if str_in "refused" message || (exc_type ≟ "connectionrefusederror"%string)
    then FailureCode.CONNECTION_REFUSED
  else if mentions ["timeout"; "timed out"]%string message
          || mem exc_type ["timeouterror"; "asyncio.timeouterror"]%string
    then FailureCode.CONNECTION_TIMEOUT
  else if mentions ["connection"; "network"; "unreachable"]%string message
    then FailureCode.CONNECTION_FAILED
  else if str_in "transport" message then FailureCode.TRANSPORT_UNAVAILABLE
  else FailureCode.DISCOVERY_FAILED.

(** ** One attempt *)

(** The device information a payload carries. *)
Definition extract_device_info (d : dict) : option dict :=
  match dict_get "device_info" d, dict_get "facts" d with
  | Some (JDict i), _ => Some i
  | _, Some (JDict f) => Some f
  | _, _ =>
      let extracted := omap (λ key,
          match dict_get key d with
          | Some JNull | None => None
          | Some v => Some (key, v)
          end) ["hostname"; "platform"; "vendor"; "model"; "serial_number"]%string in
      if is_nil extracted then None else Some extracted
  end.

Definition has_device_info (d : dict) : bool :=
  existsb (λ key, dict_has key d)
    ["device_info"; "facts"; "inventory"; "hostname"; "platform"]%string.

Definition succeeded_attempt (config : TransportAttemptConfig) (order : Z)
    (started completed : datetime) (d : dict) (info : option dict) : TransportAttemptResult := {|
  attempted_transport := transport_name config; attempt_order := order; success := true;
  failure_code := None; failure_message := None; started_at := started;
  completed_at := completed; attempt_duration_ms := duration_ms started completed;
  payload := Some d; device_info := info |}.

Definition failed_attempt (config : TransportAttemptConfig) (order : Z)
    (started completed : datetime) (code : DiscoveryFailureCode) (message : option string)
    : TransportAttemptResult := {|
  attempted_transport := transport_name config; attempt_order := order; success := false;
  failure_code := Some code; failure_message := message; started_at := started;
  completed_at := completed; attempt_duration_ms := duration_ms started completed;
  payload := None; device_info := None |}.

(** What the payload identifies: the validated identity first, then what can
    be read off it. *)
Definition identify (config : TransportAttemptConfig) (d : dict) : DbM (option (option dict)) :=
  info <- match validate_payload config with
          | Some validate => validate d
          | None => ret None
          end ;;
  match info with
  | Some info => ret (Some (Some info))
  | None =>
      let success := from_option truthy false (dict_get "success" d) in
      ret (if has_device_info d || success then Some (extract_device_info d) else None)
  end.

(** [MultiTransportDiscoveryOrchestrator._execute_transport_attempt]. *)
Definition execute_transport_attempt (config : TransportAttemptConfig) (order : Z)
    (attempt_started : datetime) : DbM TransportAttemptResult :=
  try_except
    (health_check config ;;;
     data <- collect config ;;
     found <- match data with
              | JDict (e :: d) => info <- identify config (e :: d) ;; ret (pair (e :: d) <$> info)
              | _ => ret None
              end ;;
     completed <- utc_now ;;
     match found with
     | Some (d, info) => ret (succeeded_attempt config order attempt_started completed d info)
     | None =>
         ret (failed_attempt config order attempt_started completed FailureCode.DISCOVERY_FAILED
                (Some "Collector did not return device identification data"%string))
     end)
    (λ exc,
       if isinstance exc Exception_ then
         completed <- utc_now ;;
         ret (failed_attempt config order attempt_started completed (classify_exception exc)
                (safe_failure_message (Some (exn_str exc))))
       else reraise exc).

(** ** The chain *)

(** [except Exception: pass] around the audit writes. *)
Definition suppress {A} (m : DbM A) : DbM (option A) :=
  try_except (a <- m ;; ret (Some a))
    (λ exc, if isinstance exc Exception_ then ret None else reraise exc).

(** What the loop over the configurations leaves. *)
Record fallback := {
  f_attempts : list TransportAttemptResult;
  f_indicators : indicators;
  f_selected : option string;
  f_payload : option dict;
  f_device_info : option dict;
}.

Definition finish_record (record : option Attempt.DiscoveryTransportAttemptRecord)
    (result : string) (failure_code failure_message : option string) : DbM unit :=
  match record with
  | Some r => _ <- suppress (finish r result failure_code failure_message) ;; ret tt
  | None => ret tt
  end.

Fixpoint attempt_loop (device_result : option DeviceResult.DiscoveryDeviceResultRecord)
    (configs : list TransportAttemptConfig) (order : Z) (i : indicators) : DbM fallback :=
  match configs with
  | [] =>
      ret {| f_attempts := []; f_indicators := i; f_selected := None; f_payload := None;
             f_device_info := None |}
  | config :: rest =>
      attempt_started <- utc_now ;;
      record <- match device_result with
                | Some r =>
                    suppress (start (DeviceResult.tenant_id r) (DeviceResult.id r)
                                (transport_name config) order (DeviceResult.correlation_id r))
                | None => ret None
                end ;;
      result <- execute_transport_attempt config order attempt_started ;;
      if success result then
        finish_record record "success" None None ;;;
        ret {| f_attempts := [result]; f_indicators := note_success i;
               f_selected := Some (transport_name config); f_payload := payload result;
               f_device_info := device_info result |}
      else
        let code := value <$> failure_code result in
        finish_record record "failed" code (safe_failure_message (failure_message result)) ;;;
        chain <- attempt_loop device_result rest (order + 1) (note_failure i code) ;;
        ret {| f_attempts := result :: f_attempts chain; f_indicators := f_indicators chain;
               f_selected := f_selected chain; f_payload := f_payload chain;
               f_device_info := f_device_info chain |}
  end.

(** The services [_probe_services_for_host] asks for. *)
Definition services_to_probe (configs : list TransportAttemptConfig) : list TransportService :=
  fold_left (λ acc config,
    match get_service_for_capability (capability config) with
    | Some s => if mem s acc then acc else acc ++ [s]
    | None => acc
    end) configs [].

(** [_reorder_transports_by_availability]. *)
Definition config_available (available : list TransportService) (config : TransportAttemptConfig)
    : bool :=
  match get_service_for_capability (capability config) with
  | Some s => mem s available
  | None => false
  end.

Definition reorder_transports (configs : list TransportAttemptConfig)
    (available : list TransportService) : list TransportAttemptConfig :=
  List.filter (config_available available) configs ++
  List.filter (λ c, negb (config_available available c)) configs.

(** The configuration of the orchestrator; its prober is an argument. *)
Record Orchestrator := {
  prober : string → list TransportService → DbM HostProbeResult;
  enable_service_probing : bool;
  allow_reorder_transports : bool;
}.

(** The order the configurations are tried in. *)
Definition attempt_configs (self : Orchestrator) (addr : string)
    (configs : list TransportAttemptConfig) (probe_services : option bool)
    : DbM (list TransportAttemptConfig) :=
  let should_probe := from_option (λ b, b) (enable_service_probing self) probe_services in
  if should_probe && (1 <? Z.of_nat (length configs)) then
    try_except
      (probe_result <- prober self addr (services_to_probe configs) ;;
       let available := get_available_services probe_result in
       ret (if allow_reorder_transports self then reorder_transports configs available else configs))
      (λ exc, if isinstance exc Exception_ then ret configs else reraise exc)
  else ret configs.

(** [MultiTransportDiscoveryOrchestrator.discover_with_fallback]. *)
Definition discover_with_fallback (self : Orchestrator) (addr : string)
    (transport_configs : list TransportAttemptConfig)
    (device_result : option DeviceResult.DiscoveryDeviceResultRecord)
    (probe_services : option bool) : DbM MultiTransportDiscoveryResult :=
  started <- utc_now ;;
  configs <- attempt_configs self addr transport_configs probe_services ;;
  chain <- attempt_loop device_result configs 1 no_indicator ;;
  completed <- utc_now ;;
  ret {| result_address := addr;
         result_state := from_failure_and_success (f_indicators chain);
         selected_transport := f_selected chain; result_attempts := f_attempts chain;
         discovery_payload := f_payload chain; result_device_info := f_device_info chain;
         result_started_at := started; result_completed_at := completed |}.
