(* ===== verification/FallbackTheorems.v ===== *)
(** * Correctness of the fallback chain

    The attempts of a discovery are a prefix of the configured transports, in
    order, ended by the first success; the reported state is the one the
    failure codes decide; and no failure of a collector escapes. *)

From S2P Require Import Prelude Vocabulary Effects Json Records Contracts Probing ResultStates.
From S2P Require Import Session MultiTransport Redaction Demo.
#[local] Open Scope Z_scope.

Ltac unbind H :=
  apply bind_inv in H as [(? & ? & ? & H)|(? & _ & H)]; [|discriminate H].

Lemma execute_transport_attempt_Ret config order started s r s' :
  execute_transport_attempt config order started s = (Ret r, s') →
  attempted_transport r = transport_name config ∧ attempt_order r = order ∧
  (success r = true → is_not_none (payload r) = true) ∧
  (success r = false → is_not_none (failure_code r) = true).
Proof.
  unfold execute_transport_attempt, try_except. intros H.
  match type of H with (match ?m with _ => _ end) = _ => destruct m as [[a|e] s1] eqn:E end.
  - injection H as <- <-. unbind E. unbind E. unbind E. unbind E.
    repeat case_match; injection E as <- _; done.
  - destruct (isinstance e Exception_); [|done]. unbind H. injection H as <- _. done.
Qed.

(** What the loop leaves when it returns. *)
Record chain_spec (configs : list TransportAttemptConfig) (order : Z) (i : indicators)
    (chain : fallback) : Prop := {
  cs_prefix : map attempted_transport (f_attempts chain) =
    take (length (f_attempts chain)) (map transport_name configs);
  cs_order : map attempt_order (f_attempts chain) =
    map (λ k, order + Z.of_nat k) (seq 0 (length (f_attempts chain)));
  cs_outcome :
    (∃ failed r, f_attempts chain = failed ++ [r] ∧ Forall (λ a, success a = false) failed ∧
       success r = true ∧ f_selected chain = Some (attempted_transport r) ∧
       f_payload chain = payload r ∧ is_not_none (payload r) = true ∧
       f_indicators chain =
         note_success (note_failures i (map (λ a, value <$> failure_code a) failed))) ∨
    (length (f_attempts chain) = length configs ∧
     Forall (λ a, success a = false) (f_attempts chain) ∧
     f_selected chain = None ∧ f_payload chain = None ∧
     f_indicators chain =
       note_failures i (map (λ a, value <$> failure_code a) (f_attempts chain)));
  cs_codes : Forall (λ a, success a = false → is_not_none (failure_code a) = true)
    (f_attempts chain);
}.

Lemma attempt_loop_Ret device_result configs order i s chain s' :
  attempt_loop device_result configs order i s = (Ret chain, s') →
  chain_spec configs order i chain.
Proof.
  revert order i s chain s'. induction configs as [|c configs IH]; intros order i s chain s' H.
  { injection H as <- _. split; [done|done|right; done|done]. }
  cbn [attempt_loop] in H. unbind H. unbind H. unbind H.
  match goal with E : execute_transport_attempt _ _ _ _ = _ |- _ =>
    apply execute_transport_attempt_Ret in E as (Hname & Hord & Hpay & Hcode) end.
  match type of Hord with attempt_order ?x = _ => rename x into r end.
  destruct (success r) eqn:Hs.
  - unbind H. injection H as <- _. cbn. split; cbn.
    + by rewrite Hname, take_0.
    + by rewrite Hord, Z.add_0_r.
    + left. exists [], r. split_and!; auto. by rewrite Hname.
    + constructor; [congruence|done].
  - unbind H. unbind H. injection H as <- _.
    match goal with E : attempt_loop _ _ _ _ _ = _ |- _ => apply IH in E as [Hp Ho Hout Hc] end.
    split; cbn.
    + by rewrite Hname, Hp at 1.
    + rewrite Hord, Z.add_0_r, Ho, <-fmap_S_seq, map_map. f_equal. apply map_ext. intros k. lia.
    + destruct Hout as [(failed & r' & Hf & Hall & Hs' & Hsel & Hpl & Hpn & Hi)|(Hlen & Hall & Hsel & Hpl & Hi)].
      * left. exists (r :: failed), r'. split_and!; auto; by rewrite Hf.
      * right. split_and!; auto.
    + constructor; auto.
Qed.

Lemma filter_partition {A} (f : A → bool) (l : list A) :
  List.filter f l ++ List.filter (λ x, negb (f x)) l ≡ₚ l.
Proof.
  induction l as [|x l IH]; [done|]. cbn. destruct (f x); cbn.
  - by rewrite IH.
  - by rewrite <-Permutation_middle, IH.
Qed.

Lemma attempt_configs_Ret self addr configs probe s cs s' :
  attempt_configs self addr configs probe s = (Ret cs, s') →
  cs ≡ₚ configs ∧ (allow_reorder_transports self = false → cs = configs).
Proof.
  unfold attempt_configs. destruct (_ && _); [|by intros [= <- _]].
  unfold try_except. intros H.
  match type of H with (match ?m with _ => _ end) = _ => destruct m as [[a|e] s1] eqn:E end.
  - injection H as <- <-. unbind E. injection E as <- _.
    destruct (allow_reorder_transports self); [|done]. split; [apply filter_partition|done].
  - destruct (isinstance e Exception_); [|done]. by injection H as <- _.
Qed.

Lemma failures_not_discovered i codes :
  is_fully_discovered i = false → from_failure_and_success (note_failures i codes) ≠ ResultState.DISCOVERED.
Proof.
  intros Hi. destruct (note_failures_spec i codes) as (_ & _ & _ & _ & Hd).
  unfold from_failure_and_success. rewrite Hd, Hi. by repeat case_match.
Qed.

(** C7. A discovery that returns tried a prefix of its transports, in policy
    order unless reordering is enabled (and then in a permutation of it), and
    stopped at the first success: it is discovered exactly when an attempt
    succeeded, which is then the last one, selected with its payload; otherwise
    every transport was tried and nothing is selected. *)
Theorem discover_with_fallback_spec self addr configs device_result probe s r s'
    (H : discover_with_fallback self addr configs device_result probe s = (Ret r, s')) :
  ∃ tried, tried ≡ₚ configs ∧ (allow_reorder_transports self = false → tried = configs) ∧
    map attempted_transport (result_attempts r)
      = take (length (result_attempts r)) (map transport_name tried) ∧
    map attempt_order (result_attempts r)
      = map (λ k, 1 + Z.of_nat k) (seq 0 (length (result_attempts r))) ∧
    (was_discovered r = true ↔ ∃ a, a ∈ result_attempts r ∧ success a = true) ∧
    (was_discovered r = true → ∃ failed a, result_attempts r = failed ++ [a] ∧
       Forall (λ a, success a = false) failed ∧ success a = true ∧
       selected_transport r = Some (attempted_transport a) ∧
       discovery_payload r = payload a ∧ is_not_none (payload a) = true) ∧
    (was_discovered r = false → length (result_attempts r) = length configs ∧
       selected_transport r = None ∧ discovery_payload r = None).
Proof.
  unfold discover_with_fallback in H. unbind H. unbind H. unbind H. unbind H.
  injection H as <- _.
  match goal with E : attempt_configs _ _ _ _ _ = (Ret ?cs, _) |- _ =>
    apply attempt_configs_Ret in E as [Hperm Hsame]; exists cs end.
  match goal with E : attempt_loop _ _ _ _ _ = _ |- _ => apply attempt_loop_Ret in E as [Hp Ho Hout _] end.
  unfold was_discovered. cbn. rewrite eqb_true.
  split; [done|]. split; [done|]. split; [done|]. split; [done|].
  destruct Hout as [(failed & a & Hf & Hall & Hs & Hsel & Hpl & Hpn & Hi)|(Hlen & Hall & Hsel & Hpl & Hi)].
  - rewrite Hi. change (from_failure_and_success (note_success _)) with ResultState.DISCOVERED.
    rewrite eqb_refl. split; [|split; [eauto 10|done]].
    split; [|done]. intros _. exists a. rewrite Hf. split; [|done]. apply elem_of_app.
    right. apply list_elem_of_here.
  - epose proof (failures_not_discovered no_indicator _ eq_refl) as Hnd. rewrite <-Hi in Hnd.
    split; [|split; [done|]].
    + split; [done|]. intros (a & Ha & Hs). rewrite Forall_forall in Hall.
      by rewrite (Hall a Ha) in Hs.
    + intros _. rewrite Hlen, (Permutation_length Hperm). done.
Qed.

(** ** Containment of failures *)

(** A computation that raises nothing but [Exception]s. *)
Definition contained {A} (m : DbM A) : Prop :=
  ∀ s e s', m s = (Raise e, s') → isinstance e Exception_ = true.

(** A computation that does not raise. *)
Definition total {A} (m : DbM A) : Prop := ∀ s, ∃ a s', m s = (Ret a, s').

Record config_contained (c : TransportAttemptConfig) : Prop := {
  cc_health : contained (health_check c);
  cc_collect : contained (collect c);
  cc_validate : ∀ validate d, validate_payload c = Some validate → contained (validate d);
}.

Lemma contained_bind {A B} (m : DbM A) (k : A → DbM B) :
  contained m → (∀ a, contained (k a)) → contained (bind m k).
Proof.
  intros Hm Hk s e s' H. apply bind_inv in H as [(a & s1 & _ & H)|(e' & H & [= <-])]; [by eapply Hk|].
  by eapply Hm.
Qed.

Lemma contained_total {A} (m : DbM A) : total m → contained m.
Proof. intros Hm s e s' H. destruct (Hm s) as (a & s1 & E). congruence. Qed.

Lemma total_bind {A B} (m : DbM A) (k : A → DbM B) :
  total m → (∀ a, total (k a)) → total (bind m k).
Proof.
  intros Hm Hk s. destruct (Hm s) as (a & s1 & E). rewrite (bind_Ret _ _ _ _ _ E). apply Hk.
Qed.

Lemma total_ret {A} (a : A) : total (ret (S := Session) a).
Proof. intros s; do 2 eexists; reflexivity. Qed.

Lemma total_try {A} (m : DbM A) (h : exn → DbM A) :
  contained m → (∀ e, isinstance e Exception_ = true → total (h e)) → total (try_except m h).
Proof.
  intros Hm Hh s. unfold try_except. destruct (m s) as [[a|e] s1] eqn:E; [eauto|].
  apply (Hh e), (Hm _ _ _ E).
Qed.

Lemma total_utc_now : total utc_now.
Proof. intros s; do 2 eexists; reflexivity. Qed.

Lemma total_uuid4 : total uuid4.
Proof. intros s; do 2 eexists; reflexivity. Qed.

Lemma total_put_attempt r : total (put_attempt r).
Proof. intros s; do 2 eexists; reflexivity. Qed.

Ltac total_auto :=
  repeat first
    [ apply total_ret | apply total_utc_now | apply total_uuid4 | apply total_put_attempt
    | apply total_bind; [|intros ?] ].

Lemma total_start t d tr o c : total (start t d tr o c).
Proof. unfold start. total_auto. Qed.

Lemma total_finish r res fc fm : total (finish r res fc fm).
Proof. unfold finish. total_auto. Qed.

Lemma total_suppress {A} (m : DbM A) : total m → total (suppress m).
Proof.
  intros Hm. apply total_try.
  - apply contained_total, total_bind; [done|]. intros a. apply total_ret.
  - intros e ->. apply total_ret.
Qed.

Lemma total_finish_record r res fc fm : total (finish_record r res fc fm).
Proof.
  destruct r; [|apply total_ret]. apply total_bind; [|intros; apply total_ret].
  apply total_suppress, total_finish.
Qed.

Lemma total_attempt config order started :
  config_contained config → total (execute_transport_attempt config order started).
Proof.
  intros [Hh Hc Hv]. apply total_try.
  - apply contained_bind; [done|]. intros _. apply contained_bind; [done|]. intros data.
    apply contained_bind.
    + destruct data as [| | | | | |[|e d]]; try apply contained_total, total_ret.
      apply contained_bind; [|intros; apply contained_total, total_ret].
      unfold identify. apply contained_bind.
      * destruct (validate_payload config) eqn:E; [by eapply Hv|apply contained_total, total_ret].
      * intros [info|]; apply contained_total, total_ret.
    + intros found. apply contained_total, total_bind; [apply total_utc_now|].
      intros c. destruct found as [[d info]|]; apply total_ret.
  - intros e ->. apply total_bind; [apply total_utc_now|]. intros. apply total_ret.
Qed.

Lemma total_attempt_loop device_result configs order i :
  Forall config_contained configs → total (attempt_loop device_result configs order i).
Proof.
  intros Hc. revert order i. induction Hc as [|c configs Hc _ IH]; intros order i; [apply total_ret|].
  cbn [attempt_loop]. apply total_bind; [apply total_utc_now|]. intros started.
  apply total_bind; [destruct device_result; [apply total_suppress, total_start|apply total_ret]|].
  intros record. apply total_bind; [by apply total_attempt|]. intros r.
  destruct (success r); (apply total_bind; [apply total_finish_record|]); intros _;
    [apply total_ret|]. apply total_bind; [apply IH|]. intros. apply total_ret.
Qed.

(** ** What an attempt reports *)

(** The attempt reports an exception: it failed, under the code and with the message of
    the exception, cleaned of secrets. *)
Definition reports_failure (e : exn) (a : TransportAttemptResult) : Prop :=
  success a = false ∧ failure_code a = Some (classify_exception e) ∧
  failure_message a = safe_failure_message (Some (exn_str e)) ∧ payload a = None.

(** A collected document identifies a device: the validator says so, or it carries a
    device or calls itself a success. *)
Definition identifies (info : option dict) (d : dict) : bool :=
  is_not_none info || has_device_info d || from_option truthy false (dict_get "success" d).

(** What the transport did in [s], and the attempt that tells it. *)
Inductive observed (c : TransportAttemptConfig) (s : Session) (a : TransportAttemptResult) : Prop :=
  | unhealthy e s1 :
      health_check c s = (Raise e, s1) → reports_failure e a → observed c s a
  | uncollected x s1 e s2 :
      health_check c s = (Ret x, s1) → collect c s1 = (Raise e, s2) → reports_failure e a →
      observed c s a
  | invalid x s1 d s2 validate e s3 :
      health_check c s = (Ret x, s1) → collect c s1 = (Ret (JDict d), s2) → d ≠ [] →
      validate_payload c = Some validate → validate d s2 = (Raise e, s3) →
      reports_failure e a → observed c s a
  | unidentified x s1 data s2 :
      health_check c s = (Ret x, s1) → collect c s1 = (Ret data, s2) →
      (∀ d, data = JDict d → d ≠ [] →
         has_device_info d = false ∧ from_option truthy false (dict_get "success" d) = false ∧
         ∀ validate, validate_payload c = Some validate → ∃ s3, validate d s2 = (Ret None, s3)) →
      success a = false → failure_code a = Some FailureCode.DISCOVERY_FAILED → payload a = None →
      observed c s a
  | identified x s1 d s2 info s3 :
      health_check c s = (Ret x, s1) → collect c s1 = (Ret (JDict d), s2) → d ≠ [] →
      match validate_payload c with
      | Some validate => validate d s2 = (Ret info, s3)
      | None => info = None
      end →
      identifies info d = true → success a = true → payload a = Some d → failure_code a = None →
      device_info a = from_option Some (extract_device_info d) info →
      observed c s a.

Lemma identify_cases c d s r s' :
  identify c d s = (r, s') →
  (∃ validate e, validate_payload c = Some validate ∧ validate d s = (Raise e, s') ∧ r = Raise e) ∨
  (has_device_info d = false ∧ from_option truthy false (dict_get "success" d) = false ∧
   (∀ validate, validate_payload c = Some validate → ∃ s3, validate d s = (Ret None, s3)) ∧
   r = Ret None) ∨
  (∃ info, match validate_payload c with
           | Some validate => validate d s = (Ret info, s')
           | None => info = None
           end ∧ identifies info d = true ∧
           r = Ret (Some (from_option Some (extract_device_info d) info))).
Proof.
  unfold identify. intros [(info & s1 & E & H)|(e & E & ->)]%bind_inv.
  - right. assert (s1 = s' ∧ r = Ret (match info with
      | Some info => Some (Some info)
      | None => if has_device_info d || from_option truthy false (dict_get "success" d)
                then Some (extract_device_info d) else None end)) as [-> ->]
      by (destruct info; by injection H as <- <-).
    assert (match validate_payload c with
            | Some validate => validate d s = (Ret info, s') | None => info = None end) as Hv
      by (destruct (validate_payload c); [done|by injection E]).
    destruct info as [i|]; [right; by exists (Some i)|].
    destruct (_ || _) eqn:Ei.
    + right. exists None. by unfold identifies.
    + left. apply orb_false_iff in Ei as [-> ->]. split_and!; [done..| |done].
      intros validate Hval. rewrite Hval in Hv. eauto.
  - left. destruct (validate_payload c) as [v|]; [eauto|discriminate E].
Qed.

Lemma execute_transport_attempt_observed c order started s a s' :
  execute_transport_attempt c order started s = (Ret a, s') → observed c s a.
Proof.
  unfold execute_transport_attempt, try_except. intros H.
  match type of H with (match ?m with _ => _ end) = _ => destruct m as [[r|e] s4] eqn:E end.
  - injection H as <- <-. unbind E. unbind E. unbind E. unbind E.
    destruct x1 as [| | | | | |[|k d]];
      try (match goal with H1 : _ = (Ret x3, _) |- _ => injection H1 as <- _ end;
           injection E as <- _; eapply unidentified; try done; by intros ? [= <-]).
    match goal with H1 : _ = (Ret x3, _) |- _ => unbind H1; injection H1 as <- _ end.
    match goal with H1 : identify _ _ _ = _ |- _ =>
      apply identify_cases in H1 as [(v & e & _ & _ & [=])|[(Hd & Hs & Hv & [= ->])|(info & Hv & Hi & [= ->])]]
      end; injection E as <- _.
    + eapply unidentified; try done. intros ? [= <-] _. done.
    + by eapply identified.
  - destruct (isinstance e Exception_); [|done].
    assert (reports_failure e a) as Hr by (by unbind H; injection H as <- _).
    apply bind_inv in E as [(x & s1 & E1 & E)|(e' & E1 & [= <-])]; [|by eapply unhealthy].
    apply bind_inv in E as [(data & s2 & E2 & E)|(e' & E2 & [= <-])]; [|by eapply uncollected].
    apply bind_inv in E as [(found & s3 & _ & E)|(e' & E & [= <-])].
    { apply bind_inv in E as [(t & s5 & _ & E)|(e' & [=] & _)]. by destruct found as [[]|]. }
    destruct data as [| | | | | |[|k d]]; try discriminate E.
    apply bind_inv in E as [(info & s5 & _ & [=])|(e' & E & [= <-])].
    apply identify_cases in E as [(v & e' & Hv & Ev & [= <-])|[(_ & _ & _ & [=])|(? & _ & _ & [=])]].
    by eapply (invalid c s a x s1 (k :: d) s2 v).
Qed.

Lemma attempt_loop_observed device_result configs order i s chain s' :
  attempt_loop device_result configs order i s = (Ret chain, s') →
  Forall2 (λ c a, attempted_transport a = transport_name c ∧ ∃ s0, observed c s0 a)
    (take (length (f_attempts chain)) configs) (f_attempts chain).
Proof.
  revert order i s chain s'. induction configs as [|c configs IH]; intros order i s chain s' H.
  { injection H as <- _. constructor. }
  cbn [attempt_loop] in H. unbind H. unbind H. unbind H.
  match goal with E : execute_transport_attempt _ _ _ _ = _ |- _ =>
    pose proof E as Hobs; apply execute_transport_attempt_observed in Hobs;
    apply execute_transport_attempt_Ret in E as (Hname & _) end.
  match type of Hname with attempted_transport ?x = _ => rename x into r end.
  destruct (success r) eqn:Hs; unbind H; [injection H as <- _|unbind H; injection H as <- _].
  - cbn. rewrite take_0. constructor; [eauto|constructor].
  - cbn. constructor; [eauto|]. by eapply IH.
Qed.

(** C8. A discovery always answers, and its attempts tell what the transports did: a
    health check, a collection or a validation that raises an exception makes the attempt
    fail with the code and the message of that exception; data that identify no device
    make it fail as a discovery; only a collected document that identifies a device makes
    it succeed, with that document.  A probe that raises leaves the order as configured. *)
Theorem discover_with_fallback_total self addr configs device_result probe s
    (Hc : Forall config_contained configs)
    (Hp : ∀ addr services, contained (prober self addr services)) :
  ∃ r s' tried, discover_with_fallback self addr configs device_result probe s = (Ret r, s') ∧
    tried ≡ₚ configs ∧
    Forall2 (λ c a, attempted_transport a = transport_name c ∧ ∃ s0, observed c s0 a)
      (take (length (result_attempts r)) tried) (result_attempts r) ∧
    ((∀ s0, ∃ e s1, prober self addr (services_to_probe configs) s0 = (Raise e, s1)) →
     tried = configs).
Proof.
  assert (total (attempt_configs self addr configs probe)) as Hac.
  { unfold attempt_configs. destruct (_ && _); [|apply total_ret]. apply total_try.
    - apply contained_bind; [apply Hp|]. intros. apply contained_total, total_ret.
    - intros e ->. apply total_ret. }
  unfold discover_with_fallback. destruct (Hac (snd (utc_now s))) as (cs & s1 & Ecs).
  erewrite bind_Ret by reflexivity. rewrite (bind_Ret _ _ _ _ _ Ecs).
  assert (cs ≡ₚ configs) as Hperm by (by apply attempt_configs_Ret in Ecs as [? _]).
  assert (Forall config_contained cs) as Hcs by (by rewrite Hperm).
  destruct (total_attempt_loop device_result cs 1 no_indicator Hcs s1) as (chain & s2 & E).
  rewrite (bind_Ret _ _ _ _ _ E). eexists _, _, cs. split; [reflexivity|].
  split; [done|]. split; [by eapply attempt_loop_observed|].
  intros Hraise. revert Ecs. unfold attempt_configs. destruct (_ && _); [|by intros [= <- _]].
  destruct (Hraise (snd (utc_now s))) as (e & s3 & Ee).
  unfold try_except. rewrite (bind_Raise _ _ _ _ _ Ee).
  destruct (isinstance e Exception_); by intros [= <- _].
Qed.

(** ** Witnesses *)

(** An SSH transport that refuses the connection and an SNMP one that
    identifies the device. *)
Definition refusing : TransportAttemptConfig := {|
  transport_name := "ssh"; capability := Transport.SSH;
  health_check := raise ConnectionRefusedError "refused, password=hunter2";
  collect := ret JNull; is_insecure := false; validate_payload := None |}.

Definition answering : TransportAttemptConfig := {|
  transport_name := "snmp"; capability := Transport.SNMP; health_check := ret tt;
  collect := ret (JDict [("hostname"%string, JStr "r1")]); is_insecure := false;
  validate_payload := None |}.

Definition orchestrator : Orchestrator := {|
  prober := λ _ _, raise RuntimeError "no route"; enable_service_probing := true;
  allow_reorder_transports := true |}.

Lemma discover_with_fallback_spec_witness :
  match discover_with_fallback orchestrator "10.0.0.1" [refusing; answering] None None demo_session with
  | (Ret r, _) => ∃ failed a, result_attempts r = failed ++ [a] ∧ success a = true
  | _ => False
  end.
Proof.
  destruct (discover_with_fallback orchestrator "10.0.0.1" [refusing; answering] None None demo_session)
    as [[r|e] s'] eqn:E; [|vm_compute in E; discriminate].
  destruct (discover_with_fallback_spec _ _ _ _ _ _ _ _ E) as (tried & _ & _ & _ & _ & _ & Hd & _).
  destruct Hd as (failed & a & Hf & _ & Ha & _); [|by exists failed, a].
  vm_compute in E. injection E as <- _. reflexivity.
Defined.

Lemma discover_with_fallback_total_witness :
  ∃ r s' tried, discover_with_fallback orchestrator "10.0.0.1" [refusing; answering] None None demo_session
    = (Ret r, s') ∧
    tried ≡ₚ [refusing; answering] ∧
    Forall2 (λ c a, attempted_transport a = transport_name c ∧ ∃ s0, observed c s0 a)
      (take (length (result_attempts r)) tried) (result_attempts r) ∧
    ((∀ s0, ∃ e s1, prober orchestrator "10.0.0.1" (services_to_probe [refusing; answering]) s0
       = (Raise e, s1)) → tried = [refusing; answering]).
Proof.
  apply discover_with_fallback_total.
  - repeat apply Forall_cons_2; [| |apply Forall_nil_2]; (split;
      [intros s e s' [= <- <-]; reflexivity || intros s e s' H; discriminate H
      |intros s e s' H; discriminate H|intros v d H; discriminate H]).
  - intros addr services s e s' [= <- <-]. reflexivity.
Defined.
