(* ===== verification/EvidenceStore.v ===== *)
(** * Discovery evidence ([discovery/contracts.py], [DiscoveryEvidenceRepository])

    Evidence is an immutable payload with its provenance and the SHA-256 hash
    of its canonical JSON text.  The digest is the standard library's, a
    parameter here ([Digest]). *)

From S2P Require Import Prelude Vocabulary Effects Json Records Session JobRepository Fanout.
From S2P Require Import Demo.
From stdpp Require Import sorting.
#[local] Open Scope Z_scope.

(** [hashlib.sha256(text.encode()).hexdigest()]. *)
Class Digest := sha256_hexdigest : string → string.

(** ** Canonical JSON: [json.dumps(payload, sort_keys=True, separators=(",", ":"))]

    [ensure_ascii] is the default: every character outside the printable ASCII ones is
    escaped. *)

Definition json_escape (c : ascii) : string :=
  let n := Ascii.N_of_ascii c in
  if (c ≟ double_quote) || (c ≟ "\"%char) then String "\"%char (String c EmptyString)
  else if (n =? 10)%N then "\n"
  else if (n =? 13)%N then "\r"
  else if (n =? 9)%N then "\t"
  else if (n =? 8)%N then "\b"
  else if (n =? 12)%N then "\f"
  else if (n <? 32)%N || (127 <=? n)%N then
    "\u00" +:+ String (hex_digit (n / 16)) (String (hex_digit (n mod 16)) EmptyString)
  else String c EmptyString.

Fixpoint json_escapes (s : string) : string :=
  match s with
  | EmptyString => EmptyString
  | String c s' => json_escape c +:+ json_escapes s'
  end.

Definition dumps_str (s : string) : string :=
  String double_quote (json_escapes s +:+ String double_quote EmptyString).

(** Items of an object by key. *)
Definition key_le (a b : string * string) : Prop := String.le a.1 b.1.
#[export] Instance key_le_dec : RelDecision key_le.
Proof. intros a b. unfold key_le. apply _. Defined.
#[export] Instance key_le_total : Total key_le.
Proof. intros a b. unfold key_le. apply (total String.le). Qed.
#[export] Instance key_le_trans : Transitive key_le.
Proof. intros a b c. unfold key_le. apply (transitivity (R := String.le)). Qed.

Definition dumps_items (items : list (string * string)) : string :=
  "{" +:+ String.concat "," (map (λ e, dumps_str e.1 +:+ ":" +:+ e.2)
                               (merge_sort key_le items)) +:+ "}".

Section Canonical.
Context `{FloatRepr} `{Digest}.

Fixpoint canonical_json (j : json) : string :=
  match j with
  | JNull => "null"
  | JBool true => "true"
  | JBool false => "false"
  | JInt z => pretty z
  | JFloat q => float_repr q
  | JStr s => dumps_str s
  | JList l =>
      "[" +:+ String.concat "," ((fix go l := match l with
        | [] => []
        | x :: l' => canonical_json x :: go l'
        end) l) +:+ "]"
  | JDict d =>
      dumps_items ((fix go (d : list (string * json)) := match d with
        | [] => []
        | (k, x) :: d' => (k, canonical_json x) :: go d'
        end) d)
  end.

(** [_payload_hash] and [DiscoveryEvidence.compute_hash]. *)
Definition payload_hash (payload : dict) : string :=
  sha256_hexdigest (canonical_json (JDict payload)).

(** ** Evidence values *)

Record DiscoveryTraceability := {
  trace_tenant_id : string;
  trace_target_id : UUID;
  trace_job_id : UUID;
  trace_run_id : UUID;
}.

(** [DiscoveryTraceability.__post_init__]. *)
Definition check_traceability (t : DiscoveryTraceability) : outcome DiscoveryTraceability :=
  if negb (str_truthy (str_strip (trace_tenant_id t))) then
    raise_ ValueError "Tenant ID is required for discovery traceability."
  else Ret t.

Record DiscoveryEvidence := {
  ev_id : UUID;
  ev_trace : DiscoveryTraceability;
  ev_collector_name : string;
  ev_platform : string;
  ev_transport : string;
  ev_type : string;
  ev_command_or_probe : string;
  ev_payload : dict;
  ev_captured_at : datetime;
  ev_sequence : Z;
  ev_parser_version : option string;
  ev_normalization_version : option string;
  ev_content_hash : string;
}.

Definition with_content_hash (h : string) (e : DiscoveryEvidence) : DiscoveryEvidence := {|
  ev_id := ev_id e; ev_trace := ev_trace e; ev_collector_name := ev_collector_name e;
  ev_platform := ev_platform e; ev_transport := ev_transport e; ev_type := ev_type e;
  ev_command_or_probe := ev_command_or_probe e; ev_payload := ev_payload e;
  ev_captured_at := ev_captured_at e; ev_sequence := ev_sequence e;
  ev_parser_version := ev_parser_version e;
  ev_normalization_version := ev_normalization_version e; ev_content_hash := h |}.

(** [DiscoveryEvidence.__post_init__]; timestamps of the model are
    timezone-aware. *)
Definition check_evidence (e : DiscoveryEvidence) : outcome DiscoveryEvidence :=
  if ev_sequence e <? 0 then raise_ ValueError "Evidence sequence cannot be negative."
  else if negb (str_truthy (str_strip (ev_collector_name e)))
          || negb (str_truthy (str_strip (ev_type e))) then
    raise_ ValueError "Evidence collector and type are required."
  else if str_truthy (ev_content_hash e) then Ret e
  else Ret (with_content_hash (payload_hash (ev_payload e)) e).

(** [DiscoveryEvidence.verify_hash]. *)
Definition verify_hash (e : DiscoveryEvidence) : bool :=
  ev_content_hash e ≟ payload_hash (ev_payload e).

(** ** The repository *)

(** [DiscoveryEvidenceRepository.create]. *)
Definition create_evidence (e : DiscoveryEvidence) (collector_version : option string)
    : DbM Evidence.DiscoveryEvidenceRecord :=
  let t := ev_trace e in
  let tenant_id := trace_tenant_id t in
  job <- get_job (trace_job_id t) ;;
  target <- get_target (trace_target_id t) ;;
  run <- get_run (trace_run_id t) ;;
  match job, target, run with
  | None, _, _ => raise DiscoveryResourceNotFoundError "Discovery job was not found."
  | Some j, None, _ =>
      if negb (Job.tenant_id j ≟ tenant_id)
      then raise DiscoveryResourceNotFoundError "Discovery job was not found."
      else raise DiscoveryResourceNotFoundError "Discovery target was not found."
  | Some j, Some g, run =>
      if negb (Job.tenant_id j ≟ tenant_id)
      then raise DiscoveryResourceNotFoundError "Discovery job was not found."
      else if negb (Target.tenant_id g ≟ tenant_id)
      then raise DiscoveryResourceNotFoundError "Discovery target was not found."
      else match run with
      | None => raise DiscoveryResourceNotFoundError "Discovery run was not found."
      | Some r =>
          if negb (mem (Run.tenant_id r) [None; Some tenant_id])
          then raise DiscoveryResourceNotFoundError "Discovery run was not found."
          else if negb (Job.target_id j ≟ Target.id g) || negb (Job.run_id j ≟ Run.id r)
          then raise DiscoveryPersistenceError
                 "Evidence relationships do not match the discovery job."
          else if negb (payload_hash (ev_payload e) ≟ ev_content_hash e)
          then raise DiscoveryPersistenceError "Evidence payload hash does not match."
          else
            created_at <- utc_now ;;
            let record := {|
              Evidence.id := ev_id e; Evidence.created_at := created_at;
              Evidence.tenant_id := tenant_id; Evidence.job_id := trace_job_id t;
              Evidence.target_id := trace_target_id t; Evidence.run_id := trace_run_id t;
              Evidence.evidence_type := ev_type e; Evidence.source := ev_collector_name e;
              Evidence.observed_at := ev_captured_at e; Evidence.payload := ev_payload e;
              Evidence.payload_hash := payload_hash (ev_payload e);
              Evidence.collector := ev_collector_name e;
              Evidence.collector_version := collector_version;
              Evidence.command_or_probe := ev_command_or_probe e;
              Evidence.sequence := ev_sequence e;
              Evidence.parser_version := ev_parser_version e;
              Evidence.normalization_version := ev_normalization_version e |} in
            put_evidence record ;;;
            ret record
      end
  end.
End Canonical.

(** ** Properties *)

(** The same payload with the items of its objects in any order. *)
Inductive same_items : json → json → Prop :=
  | items_refl j : same_items j j
  | items_list l l' : Forall2 same_items l l' → same_items (JList l) (JList l')
  | items_dict d d1 d2 :
      NoDup (map fst d) → Forall2 (λ e e', e.1 = e'.1 ∧ same_items e.2 e'.2) d d1 →
      d1 ≡ₚ d2 → same_items (JDict d) (JDict d2).

Section Properties.
Context `{FloatRepr} `{Digest}.

Lemma canonical_list l :
  canonical_json (JList l) = "[" +:+ String.concat "," (map canonical_json l) +:+ "]".
Proof. reflexivity. Qed.

Lemma canonical_dict d :
  canonical_json (JDict d) = dumps_items (map (λ e, (e.1, canonical_json e.2)) d).
Proof. cbn. f_equal. induction d as [|[k x] d IH]; [done|]. cbn. by rewrite IH. Qed.

(** Objects are listed by key whatever order they came in. *)
Lemma dumps_items_perm items items' :
  NoDup (map fst items) → items ≡ₚ items' → dumps_items items = dumps_items items'.
Proof.
  intros Hnd Hp. unfold dumps_items. do 3 f_equal. f_equal.
  assert (merge_sort key_le items ≡ₚ merge_sort key_le items') as Hm
    by by rewrite !merge_sort_Permutation.
  assert (NoDup (map fst (merge_sort key_le items))) as Hnd'
    by by rewrite merge_sort_Permutation.
  assert (∀ l, Sorted key_le (merge_sort key_le l)) as Hs
    by (intros l; apply Sorted_merge_sort; apply _).
  apply (StronglySorted_unique_strong key_le); [|by apply Sorted_StronglySorted; [apply _|]..|done].
  intros [k1 x1] [k2 x2] H1 H2 H12 H21. unfold key_le in H12, H21. cbn in H12, H21.
  assert (k1 = k2) as -> by (by apply (anti_symm String.le)).
  rewrite <-Hm in H2. f_equal.
  apply list_elem_of_lookup in H1 as [i Hi], H2 as [k Hk].
  assert (i = k) as ->; [|congruence].
  eapply NoDup_lookup; [exact Hnd'| |]; rewrite list_lookup_fmap;
    [by rewrite Hi|by rewrite Hk].
Qed.

(** The content hash of evidence depends on what the payload says and not
  on how its objects are ordered, at any depth. *)
Theorem payload_hash_canonical d d' (Hd : same_items (JDict d) (JDict d')) :
  payload_hash d = payload_hash d'.
Proof.
  unfold payload_hash. f_equal. revert Hd. generalize (JDict d) (JDict d'). clear d d'.
  intros a. induction a as [|x|x|x|x|l IH|d IH] using json_deep_ind; intros b Hab;
    inversion Hab as [|? l' Hl|? d1 d2 Hnd Hd Hp]; subst; try done.
  - rewrite !canonical_list. do 3 f_equal. clear Hab.
    induction Hl as [|x y l l' Hxy Hl IHl]; [done|]. apply Forall_cons in IH as [Hx IH].
    cbn [map]. by rewrite (Hx y Hxy), (IHl IH).
  - rewrite !canonical_dict.
    assert (map (λ e, (e.1, canonical_json e.2)) d = map (λ e, (e.1, canonical_json e.2)) d1) as ->.
    { clear Hnd Hp Hab. induction Hd as [|[k x] [k' y] d d1 [Hk Hxy] Hd IHd]; [done|].
      apply Forall_cons in IH as [Hx IH]. cbn [fst snd compose] in Hk, Hxy, Hx. subst k'.
      cbn [map fst snd]. by rewrite (Hx y Hxy), (IHd IH). }
    apply dumps_items_perm; [|by rewrite Hp].
    rewrite map_map. cbn. replace (map (λ e, e.1) d1) with (map fst d); [done|].
    clear -Hd. induction Hd as [|e e' d d1 [Hk _] _ IHd]; [done|]. cbn. by rewrite Hk, IHd.
Qed.

(** Evidence is stored only for a job, target and run of its own tenant
  that belong together, with a payload that matches its hash; the record is
  the evidence's, and the job table is untouched. *)
Theorem create_evidence_guarded e version s r s'
    (Hr : create_evidence e version s = (Ret r, s')) :
  (∃ j g n, jobs (view s) !! trace_job_id (ev_trace e) = Some j ∧
     targets (view s) !! trace_target_id (ev_trace e) = Some g ∧
     runs (view s) !! trace_run_id (ev_trace e) = Some n ∧
     Job.tenant_id j = Evidence.tenant_id r ∧ Target.tenant_id g = Evidence.tenant_id r ∧
     Job.target_id j = Target.id g ∧ Job.run_id j = Run.id n) ∧
  Evidence.payload_hash r = payload_hash (Evidence.payload r) ∧
  verify_hash e = true ∧
  evidence (view s') = <[ev_id e := r]> (evidence (view s)) ∧
  jobs (view s') = jobs (view s).
Proof.
  revert Hr. unfold create_evidence, get_job, get_target, get_run.
  do 3 (erewrite bind_Ret by reflexivity).
  destruct (jobs (view s) !! _) as [j|] eqn:Ej; [|done].
  destruct (targets (view s) !! _) as [g|] eqn:Eg.
  2: { by destruct (negb _). }
  destruct (negb (Job.tenant_id j ≟ _)) eqn:E1; [done|].
  destruct (negb (Target.tenant_id g ≟ _)) eqn:E2; [done|].
  destruct (runs (view s) !! _) as [n|] eqn:En; [|done].
  destruct (negb (mem _ _)) eqn:E3; [done|].
  destruct (_ || _) eqn:E4; [done|]. destruct (negb (payload_hash _ ≟ _)) eqn:E5; [done|].
  erewrite bind_Ret by reflexivity. erewrite bind_Ret by reflexivity. intros [= <- <-]. cbn.
  apply orb_false_iff in E4 as [E4a E4b].
  rewrite negb_false_iff in E1, E2, E4a, E4b, E5.
  rewrite eqb_true in E1, E2, E5. rewrite eqb_true in E4a, E4b.
  split_and!; [by exists j, g, n|done| |done|done].
  unfold verify_hash. rewrite eqb_true. by rewrite E5.
Qed.
End Properties.

(** ** Witnesses *)

#[local] Instance demo_float_repr : FloatRepr := λ _, "0.0"%string.
#[local] Instance demo_digest : Digest := λ s, "sha256:" +:+ s.

Definition demo_payload : dict := [("hostname", JStr "r1"); ("facts", JDict [("a", JInt 1); ("b", JNull)])]%string.
Definition demo_payload' : dict := [("facts", JDict [("b", JNull); ("a", JInt 1)]); ("hostname", JStr "r1")]%string.

Lemma payload_hash_canonical_witness : payload_hash demo_payload = payload_hash demo_payload'.
Proof.
  apply payload_hash_canonical.
  apply (items_dict _ [("hostname", JStr "r1"); ("facts", JDict [("b", JNull); ("a", JInt 1)])]%string).
  - by apply (bool_decide_unpack _); vm_compute.
  - repeat apply Forall2_cons_2; [|split; [done|]|done].
    + split; [done|constructor].
    + apply (items_dict _ [("a", JInt 1); ("b", JNull)]%string);
        [by apply (bool_decide_unpack _); vm_compute| |apply Permutation_swap].
      repeat apply Forall2_cons_2; try (split; [done|constructor]). done.
  - apply Permutation_swap.
Defined.

Definition evidence_db : DB := {|
  targets := {[11%N := scope_target]}; profiles := ∅;
  runs := {[50%N := new_child_run 50 "acme" "lab" "10.0.0.0" 1 0 0]};
  jobs := job_table [running_job 1 11 None 7]; device_results := ∅; attempts := ∅;
  evidence := ∅ |}.

Definition demo_evidence : DiscoveryEvidence :=
  let e := {|
    ev_id := 70%N;
    ev_trace := {| trace_tenant_id := "acme"; trace_target_id := 11%N; trace_job_id := 1%N;
                   trace_run_id := 50%N |};
    ev_collector_name := "cisco"; ev_platform := "ios"; ev_transport := "ssh";
    ev_type := "raw_discovery"; ev_command_or_probe := "collector.collect";
    ev_payload := demo_payload; ev_captured_at := 0; ev_sequence := 0;
    ev_parser_version := None; ev_normalization_version := None; ev_content_hash := "" |} in
  match check_evidence e with Ret e' => e' | Raise _ => e end.

Lemma create_evidence_guarded_witness :
  match create_evidence demo_evidence None (open_session evidence_db []) with
  | (Ret r, s') => Evidence.payload_hash r = payload_hash (Evidence.payload r) ∧
                   verify_hash demo_evidence = true
  | _ => False
  end.
Proof.
  destruct (create_evidence demo_evidence None (open_session evidence_db [])) as [[r|e] s'] eqn:E;
    [|vm_compute in E; discriminate].
  destruct (create_evidence_guarded _ _ _ _ _ E) as (_ & Hh & Hv & _). split; assumption.
Defined.
