(* ===== verification/Execution.v ===== *)
(** * Execution of one discovery job ([discovery/execution.py])

    [DiscoveryExecutionService]: resolution of target, collector and transport
    chain, the single-transport and the multi-transport execution, and the
    handlers that turn every failure into a durable outcome.  Collectors, the
    parsing pipeline and the snapshot store are interfaces of the service
    ([Collector], [Services]); everything the service itself decides is here. *)

From S2P Require Import Prelude Vocabulary Effects Json Records Contracts TransportPolicy.
From S2P Require Import ResultStates Session JobRepository Fanout Cancellation.
From S2P Require Import MultiTransport Redaction EvidenceStore.
#[local] Open Scope Z_scope.

(** ** Collaborators *)

(** [CollectorCapability]. *)
Module Capability.
Inductive CollectorCapability :=
  | SSH | TELNET | SNMP | HTTP | HTTPS | CDP | LLDP | CONFIG_BACKUP | INTERFACES
  | VLANS | MAC_TABLE | ARP_TABLE | POWER | POE.

#[export] Instance CollectorCapability_eq_dec : EqDecision CollectorCapability.
Proof. solve_decision. Defined.

Definition CollectorCapability_value (c : CollectorCapability) : string :=
  match c with
  | SSH => "SSH" | TELNET => "TELNET" | SNMP => "SNMP" | HTTP => "HTTP" | HTTPS => "HTTPS"
  | CDP => "CDP" | LLDP => "LLDP" | CONFIG_BACKUP => "CONFIG_BACKUP"
  | INTERFACES => "INTERFACES" | VLANS => "VLANS" | MAC_TABLE => "MAC_TABLE"
  | ARP_TABLE => "ARP_TABLE" | POWER => "POWER" | POE => "POE"
  end.

#[export] Program Instance CollectorCapability_StrEnum : StrEnum CollectorCapability := {|
  value := CollectorCapability_value;
  members := [SSH; TELNET; SNMP; HTTP; HTTPS; CDP; LLDP; CONFIG_BACKUP; INTERFACES; VLANS;
              MAC_TABLE; ARP_TABLE; POWER; POE];
|}.
Next Obligation. solve_members. Qed.
Next Obligation. solve_value_inj. Qed.
End Capability.
Export (hints) Capability.
Abbreviation CollectorCapability := Capability.CollectorCapability.

(** [TRANSPORT_TO_COLLECTOR_CAPABILITY.get(name)]. *)
Definition TRANSPORT_TO_COLLECTOR_CAPABILITY (name : string) : option CollectorCapability :=
  if name ≟ "ssh" then Some Capability.SSH
  else if name ≟ "telnet" then Some Capability.TELNET
  else if name ≟ "snmp" then Some Capability.SNMP
  else if name ≟ "http" then Some Capability.HTTP
  else if name ≟ "https" then Some Capability.HTTPS
  else None.

(** What a collector's context gives it: the target, and the cooperative
    cancellation check of the job it works for. *)
Record CollectorContext := {
  ctx_identifier : string;
  ctx_address : string;
  ctx_tenant_id : string;
  ctx_capabilities : list CollectorCapability;
  ctx_run_id : UUID;
  ctx_metadata : dict;
  ctx_cancellation_check : DbM unit;
}.

(** A normalised device: its attributes by name. *)
Abbreviation device := dict.

(** [BaseCollector], with the optional [parser] attribute of the Cisco ones. *)
Record Collector := {
  collector_name : string;
  collector_capabilities : list CollectorCapability;
  c_health_check : CollectorContext → DbM unit;
  c_collect : CollectorContext → DbM json;
  c_normalize : CollectorContext → dict → DbM (list device);
  c_parser : option (option string);
}.

(** [CollectorRegistry]: a [dict] by name, in registration order. *)
Definition CollectorRegistry := list (string * Collector).

Definition registry_get (r : CollectorRegistry) (name : string) : option Collector :=
  snd <$> List.find (λ e, fst e ≟ name) r.

Definition registry_select (r : CollectorRegistry) (caps : list CollectorCapability)
    : list Collector :=
  List.filter (λ c, forallb (λ cap, mem cap (collector_capabilities c)) caps) (map snd r).

(** What the service is built with. *)
Record Services := {
  collector_registry : CollectorRegistry;
  orchestrator : Orchestrator;
  (* [process_collector_payload]: source, parser name, run, metadata, payload *)
  process : string → option string → UUID → dict → dict → DbM (list device);
  (* [SnapshotRepository.add_live_snapshot]: devices, run, tenant *)
  add_live_snapshot : list device → UUID → string → DbM unit;
}.

Record DiscoveryExecutionOutcome := {
  outcome_job : Job.DiscoveryJobRecord;
  executed : bool;
  evidence_count : Z;
}.

Section Execution.
Context `{FloatRepr} `{Digest} `{IpLibrary}.

Definition fail {A} (code : DiscoveryFailureCode) (message : string) : DbM A :=
  raise (DiscoveryExecutionFailureError code) message.

(** [DiscoveryExecutionService._resolve_target]. *)
Definition target_view (target : Target.DiscoveryTargetRecord) : DiscoveryTargetRecordView :=
  let md := Target.metadata_json target in
  let md := match Target.platform_hint target with
            | Some p => dict_setdefault "platform_family" (JStr p) md | None => md end in
  let md := match Target.preferred_transport target with
            | Some t => dict_setdefault "transport_name" (JStr t) md | None => md end in
  let md := dict_set "credential_reference" (JStr (Target.credential_reference target)) md in
  let md := dict_set "credential_profile_id"
              (match Target.credential_profile_id target with
               | Some p => JStr p | None => JNull end) md in
  let md := dict_set "allow_insecure_telnet" (JBool (Target.allow_insecure_telnet target)) md in
  let md := dict_set "allow_insecure_http"
              (JBool (truthy (dict_get_default "allow_insecure_http" (JBool false) md)
                      || Target.allow_insecure_http target)) md in
  let md := dict_setdefault "allowed_fallback_transports"
              (JList (map JStr (Target.allowed_fallback_transports target))) md in
  {| view_id := Target.id target; view_tenant_id := Target.tenant_id target;
     view_identifier := Target.identifier target; view_address := Target.address target;
     view_enabled := Target.enabled target; view_metadata := md |}.

Definition resolve_target (job : Job.DiscoveryJobRecord) (tenant_id : string)
    : DbM DiscoveryTargetRecordView :=
  target <- get_target (Job.target_id job) ;;
  match target with
  | Some t =>
      if Target.tenant_id t ≟ tenant_id then ret (target_view t)
      else fail FailureCode.TARGET_NOT_FOUND "Discovery target was not found."
  | None => fail FailureCode.TARGET_NOT_FOUND "Discovery target was not found."
  end.

(** [DiscoveryExecutionService._raise_if_cancelled]. *)
Definition raise_if_cancelled (tenant_id : string) (job_id : UUID)
    (parent_job_id : option UUID) (lease_lost : DbM bool) : DbM unit :=
  lost <- lease_lost ;;
  if lost : bool then raise DiscoveryLeaseLostError ""
  else
    cancelled <- cancellation_requested tenant_id job_id ;;
    if cancelled : bool then raise DiscoveryCancellationRequestedError ""
    else
      match parent_job_id with
      | None => ret tt
      | Some parent_id =>
          parent_cancelled <- cancellation_requested tenant_id parent_id ;;
          if negb parent_cancelled then ret tt
          else
            parent <- get tenant_id parent_id ;;
            match parent ≫= λ p, pair p <$> Job.cancellation_requested_by p with
            | Some (p, requested_by) =>
                _ <- request_cancellation tenant_id job_id requested_by
                       (or_str (Job.cancellation_reason p) "Cancelled by operator.") ;;
                raise DiscoveryCancellationRequestedError ""
            | None => raise DiscoveryCancellationRequestedError ""
            end
      end.

(** [DiscoveryExecutionService._failure_code]. *)
Definition failure_code_of (exc : exn) : DiscoveryFailureCode :=
  match exn_cls exc with
  | DiscoveryExecutionFailureError code => code
  | _ =>
      let message := str_lower (exn_str exc) in
      if isinstance exc CredentialResolutionError || isinstance exc SecretProviderError
        then FailureCode.CREDENTIAL_RESOLUTION_FAILED
      else if isinstance exc TransportDependencyError || isinstance exc TransportUnavailableError
        then FailureCode.TRANSPORT_UNAVAILABLE
      else if isinstance exc TimeoutError then FailureCode.DISCOVERY_TIMEOUT
      else if isinstance exc DiscoveryPersistenceError
        then FailureCode.EVIDENCE_PERSISTENCE_FAILED
      else if mentions ["authentication"; "unauthorized"; "credential"]%string message
        then FailureCode.AUTHENTICATION_FAILED
      else if mentions ["timeout"; "timed out"]%string message
        then FailureCode.CONNECTION_TIMEOUT
      else if str_in "refused" message then FailureCode.CONNECTION_REFUSED
      else if mentions ["transport"; "connection"]%string message
        then FailureCode.TRANSPORT_UNAVAILABLE
      else FailureCode.DISCOVERY_FAILED
  end.

(** [DiscoveryExecutionService._payload_string]. *)
Definition payload_string (payload : dict) (key : string) (fallback : json) : option string :=
  match dict_get_default key fallback payload with
  | JNull => None
  | v => Some (py_str v)
  end.

(** The result row of a child job within a tenant. *)
Definition find_device_result (tenant_id : string) (child_job_id : UUID)
    : DbM (option DeviceResult.DiscoveryDeviceResultRecord) :=
  query (λ d,
    List.find (λ r, (DeviceResult.child_job_id r ≟ child_job_id)
                    && (DeviceResult.tenant_id r ≟ tenant_id)) (rows (device_results d))).

(** A fresh result row. *)
Definition new_device_result (id : UUID) (tenant_id : string) (parent_id child_id : UUID)
    (correlation_id : option string) (addr state : string) (started : option datetime)
    : DeviceResult.DiscoveryDeviceResultRecord := {|
  DeviceResult.id := id; DeviceResult.tenant_id := tenant_id;
  DeviceResult.discovery_job_id := parent_id; DeviceResult.child_job_id := child_id;
  DeviceResult.address := addr; DeviceResult.hostname := None; DeviceResult.vendor := None;
  DeviceResult.platform := None; DeviceResult.state := state;
  DeviceResult.result_state := None; DeviceResult.selected_transport := None;
  DeviceResult.failure_code := None; DeviceResult.failure_message := None;
  DeviceResult.started_at := started; DeviceResult.completed_at := None;
  DeviceResult.correlation_id := correlation_id |}.

(** The result state of a failed job
    ([_ensure_device_result_for_failure]). *)
Definition failure_result_state (code : DiscoveryFailureCode) : DiscoveryResultState :=
  if mem code [FailureCode.CONNECTION_FAILED; FailureCode.CONNECTION_TIMEOUT;
               FailureCode.HOST_UNREACHABLE; FailureCode.DISCOVERY_TIMEOUT]
    then ResultState.UNREACHABLE
  else if mem code [FailureCode.AUTHENTICATION_FAILED] then ResultState.AUTHENTICATION_FAILED
  else ResultState.REACHABLE_NO_MANAGEMENT.

(** [started_at=job.started_at or datetime.now(UTC)]. *)
Definition started_or_now (job : Job.DiscoveryJobRecord) : DbM datetime :=
  match Job.started_at job with Some t => ret t | None => utc_now end.

(** [DiscoveryExecutionService._ensure_device_result_for_failure]. *)
Definition ensure_device_result_for_failure (job : Job.DiscoveryJobRecord)
    (target : DiscoveryTargetRecordView) (code : DiscoveryFailureCode)
    (message selected : option string) : DbM DeviceResult.DiscoveryDeviceResultRecord :=
  existing <- find_device_result (view_tenant_id target) (Job.id job) ;;
  completed <- utc_now ;;
  let values r :=
    r |> DeviceResult.set_address (view_address target)
      |> DeviceResult.set_state (value FAILED)
      |> DeviceResult.set_result_state (Some (value (failure_result_state code)))
      |> DeviceResult.set_selected_transport selected
      |> DeviceResult.set_failure_code (Some (value code))
      |> DeviceResult.set_failure_message message
      |> DeviceResult.set_completed_at (Some completed) in
  r <- match existing with
       | Some r => ret (values r)
       | None =>
           started <- started_or_now job ;;
           id <- uuid4 ;;
           ret (values (new_device_result id (view_tenant_id target) (Job.id job) (Job.id job)
                          (Job.correlation_id job) (view_address target) (value FAILED)
                          (Some started)))
       end ;;
  put_device_result r ;;;
  ret r.

(** [getattr(device, name, None)] of a text attribute. *)
Definition device_str (name : string) (devices : list device) : option string :=
  match devices with
  | [] => None
  | d :: _ => match dict_get name d with Some (JStr s) => Some s | _ => None end
  end.

(** [DiscoveryExecutionService._record_device_result]. *)
Definition record_device_result (job : Job.DiscoveryJobRecord)
    (target : DiscoveryTargetRecordView) (devices : list device)
    (selected : option string) (result_state : option string) : DbM unit :=
  existing <- find_device_result (view_tenant_id target) (Job.id job) ;;
  completed <- utc_now ;;
  let values r :=
    r |> DeviceResult.set_address
           (or_str (device_str "management_ip" devices) (view_address target))
      |> DeviceResult.set_hostname (device_str "name" devices)
      |> DeviceResult.set_vendor (device_str "manufacturer" devices)
      |> DeviceResult.set_platform (device_str "platform" devices)
      |> DeviceResult.set_state (value SUCCEEDED)
      |> DeviceResult.set_selected_transport selected
      |> DeviceResult.set_failure_code None
      |> DeviceResult.set_failure_message None
      |> DeviceResult.set_result_state
           (Some (or_str result_state (value ResultState.DISCOVERED)))
      |> DeviceResult.set_completed_at (Some completed) in
  match existing with
  | Some r => put_device_result (values r)
  | None =>
      id <- uuid4 ;;
      put_device_result (values
        (new_device_result id (view_tenant_id target) (Job.id job) (Job.id job)
           (Job.correlation_id job) (view_address target) (value SUCCEEDED)
           (Job.started_at job)))
  end.

(** [DiscoveryExecutionService._finalize_single_device_run]. *)
Definition finalized_single_run (st : DiscoveryResultState) (finished_at : datetime)
    (r : Run.DiscoveryRunRecord) : Run.DiscoveryRunRecord :=
  let count st' := Some (if st ≟ st' then 1 else 0) in
  r |> Run.set_total_scanned (Some 1)
    |> Run.set_total_discovered (count ResultState.DISCOVERED)
    |> Run.set_total_unreachable (count ResultState.UNREACHABLE)
    |> Run.set_total_reachable_no_management (count ResultState.REACHABLE_NO_MANAGEMENT)
    |> Run.set_total_authentication_failed (count ResultState.AUTHENTICATION_FAILED)
    |> Run.set_total_partial_discovery (count ResultState.PARTIAL_DISCOVERY)
    |> Run.set_status (if st ≟ ResultState.DISCOVERED
                       then value RunStatus.SUCCEEDED else value RunStatus.FAILED)
    |> Run.set_finished_at (Some finished_at).

Definition finalize_single_device_run (run_id : UUID) (st : DiscoveryResultState) : DbM unit :=
  run <- get_run run_id ;;
  match run with
  | None => ret tt
  | Some r =>
      finished_at <- utc_now ;;
      put_run (finalized_single_run st finished_at r)
  end.

(** [DiscoveryExecutionService._build_evidence]. *)
Definition build_evidence (job : Job.DiscoveryJobRecord) (target : DiscoveryTargetRecordView)
    (collector : Collector) (payload : dict) : DbM DiscoveryEvidence :=
  let md key := dict_get_default key (JStr "unknown") (view_metadata target) in
  let sanitized := match sanitize_payload (JDict payload) with
                   | JDict d => d
                   | other => [("data"%string, other)]
                   end in
  trace <- of_outcome (check_traceability
    {| trace_tenant_id := view_tenant_id target; trace_target_id := view_id target;
       trace_job_id := Job.id job; trace_run_id := Job.run_id job |}) ;;
  captured_at <- utc_now ;;
  id <- uuid4 ;;
  of_outcome (check_evidence
    {| ev_id := id; ev_trace := trace; ev_collector_name := collector_name collector;
       ev_platform := py_str (dict_get_default "platform_family" (md "platform_family") payload);
       ev_transport := py_str (dict_get_default "transport" (md "transport_name") payload);
       ev_type := "raw_discovery"; ev_command_or_probe := "collector.collect";
       ev_payload := sanitized; ev_captured_at := captured_at; ev_sequence := 0;
       ev_parser_version := None; ev_normalization_version := None; ev_content_hash := "" |}).

(** [DiscoveryExecutionService._start_transport_attempt]. *)
Definition start_transport_attempt (job : Job.DiscoveryJobRecord)
    (target : DiscoveryTargetRecordView) : DbM Attempt.DiscoveryTransportAttemptRecord :=
  existing <- find_device_result (view_tenant_id target) (Job.id job) ;;
  result <- match existing with
            | Some r => ret r
            | None =>
                started <- utc_now ;;
                id <- uuid4 ;;
                let r := new_device_result id (view_tenant_id target) (Job.id job) (Job.id job)
                           (Job.correlation_id job) (view_address target) (value RUNNING)
                           (Some started) in
                put_device_result r ;;;
                ret r
            end ;;
  start (view_tenant_id target) (DeviceResult.id result)
    (py_str (dict_get_default "transport_name" (JStr "unknown") (view_metadata target))) 1
    (Job.correlation_id job).

(** The requested capabilities the program knows. *)
Definition requested_capabilities_of (job : Job.DiscoveryJobRecord) : list CollectorCapability :=
  match dict_get_default "capabilities" (JList []) (Job.requested_capabilities job) with
  | JList l => first_occurrences (omap (λ v, of_value (py_str v)) l)
  | _ => []
  end.

Definition requested_collector (job : Job.DiscoveryJobRecord) : option string :=
  match dict_get_default "collector_name" JNull (Job.requested_capabilities job) with
  | JStr n => if str_truthy n then Some n else None
  | _ => None
  end.

(** The context [build_context] makes of the discovery context. *)
Definition collector_context (job : Job.DiscoveryJobRecord) (target : DiscoveryTargetRecordView)
    (identifier : string) (md : dict) (collector : Collector) (check : DbM unit)
    : CollectorContext := {|
  ctx_identifier := identifier; ctx_address := view_address target;
  ctx_tenant_id := view_tenant_id target;
  ctx_capabilities := collector_capabilities collector; ctx_run_id := Job.run_id job;
  ctx_metadata := dict_merge md [("job_id"%string, JStr (uuid_str (Job.id job)))];
  ctx_cancellation_check := check |}.

(** [DiscoveryExecutionService._resolve_collector]. *)
Definition resolve_collector (self : Services) (job : Job.DiscoveryJobRecord)
    (target : DiscoveryTargetRecordView) (check : DbM unit)
    : DbM (Collector * CollectorContext) :=
  collector <- match requested_collector job with
               | Some name =>
                   match registry_get (collector_registry self) name with
                   | Some c => ret c
                   | None => fail FailureCode.UNSUPPORTED_PLATFORM
                               "No supported collector was found for the target."
                   end
               | None =>
                   match registry_select (collector_registry self)
                           (requested_capabilities_of job) with
                   | c :: _ => ret c
                   | [] => fail FailureCode.UNSUPPORTED_CAPABILITY
                             "No collector supports the requested capabilities."
                   end
               end ;;
  ret (collector, collector_context job target (view_identifier target) (view_metadata target)
                    collector check).

(** ** The multi-transport chain *)

(** [_record_unsupported_credential_attempt]. *)
Definition record_unsupported_credential_attempt (job : Job.DiscoveryJobRecord)
    (target : DiscoveryTargetRecordView) (transport : string) : DbM unit :=
  _ <- suppress (
    device_result <- find_device_result (view_tenant_id target) (Job.id job) ;;
    match device_result with
    | None => ret tt
    | Some r =>
        existing <- query (λ d,
          List.find (λ a, (Attempt.device_result_id a ≟ DeviceResult.id r)
                          && (Attempt.transport a ≟ transport)) (rows (attempts d))) ;;
        match existing with
        | Some _ => ret tt
        | None =>
            a <- start (view_tenant_id target) (DeviceResult.id r) transport 0
                   (Job.correlation_id job) ;;
            _ <- finish a "failed" (Some (value FailureCode.UNSUPPORTED_CREDENTIAL)) None ;;
            ret tt
        end
    end) ;;
  ret tt.

(** The identity a Cisco collector's normaliser finds in a payload. *)
Definition validated_identity (collector : Collector) (ctx : CollectorContext) (payload : dict)
    : DbM (option dict) :=
  devices <- c_normalize collector ctx payload ;;
  ret match devices with
      | [] => None
      | device :: _ =>
          let identity := omap (λ field,
            let v := dict_get_default field JNull device in
            if truthy v then Some (field, v) else None)
            ["model"; "serial_number"; "software_version"; "product_id"; "base_mac";
             "uptime"; "hardware_revision"]%string in
          if is_nil identity then None else Some identity
      end.

(** The collector of one transport: the requested one, or the first that
    has its capability, or the first of all. *)
Definition transport_collector (self : Services) (job : Job.DiscoveryJobRecord)
    (caps : list CollectorCapability) : option Collector :=
  match requested_collector job ≫= registry_get (collector_registry self) with
  | Some c => Some c
  | None =>
      match registry_select (collector_registry self) caps with
      | c :: _ => Some c
      | [] => hd_error (registry_select (collector_registry self) [])
      end
  end.

Definition transport_config (self : Services) (job : Job.DiscoveryJobRecord)
    (target : DiscoveryTargetRecordView) (check : DbM unit) (entry : TransportPolicyEntry)
    : option (TransportAttemptConfig * Collector) :=
  let name := TransportPolicy.transport_name entry in
  let caps := match TRANSPORT_TO_COLLECTOR_CAPABILITY (str_lower name) with
              | Some cap => [cap]
              | None => requested_capabilities_of job
              end in
  collector ← transport_collector self job caps;
  let ctx := collector_context job target (view_identifier target +:+ ":" +:+ name)
               (dict_merge (view_metadata target) [("transport_name"%string, JStr name)])
               collector check in
  Some ({| transport_name := name; capability := TransportPolicy.capability entry;
           health_check := c_health_check collector ctx; collect := c_collect collector ctx;
           is_insecure := TransportPolicy.is_insecure entry;
           validate_payload := match c_parser collector with
                               | Some _ => Some (validated_identity collector ctx)
                               | None => None
                               end |}, collector).

(** [DiscoveryExecutionService._build_transport_configs]; the collector of
    each configuration is kept beside it. *)
Fixpoint build_transport_configs (self : Services) (job : Job.DiscoveryJobRecord)
    (target : DiscoveryTargetRecordView) (policy : MultiTransportPolicy) (check : DbM unit)
    (entries : list TransportPolicyEntry) : DbM (list (TransportAttemptConfig * Collector)) :=
  match entries with
  | [] => ret []
  | entry :: entries =>
      config <- (if negb (credential_compatible entry) then
                   record_unsupported_credential_attempt job target
                     (TransportPolicy.transport_name entry) ;;;
                   ret None
                 else if (TransportPolicy.capability entry ≟ Transport.TELNET)
                           && negb (allow_insecure policy)
                         || (TransportPolicy.capability entry ≟ Transport.HTTP)
                           && negb (allow_insecure_http policy)
                   then ret None
                 else ret (transport_config self job target check entry)) ;;
      rest <- build_transport_configs self job target policy check entries ;;
      ret match config with Some c => c :: rest | None => rest end
  end.

(** The failure code and message of an unsuccessful chain. *)
Definition last_failure (attempts : list TransportAttemptResult)
    : option (DiscoveryFailureCode * option string) :=
  hd_error (omap (λ a,
    if success a then None
    else code ← failure_code a; Some (code, failure_message a)) (rev attempts)).

Definition workflow_failures : list DiscoveryFailureCode :=
  [FailureCode.DISCOVERY_FAILED; FailureCode.COLLECTOR_FAILED; FailureCode.PARSER_FAILED;
   FailureCode.NORMALIZATION_FAILED; FailureCode.EVIDENCE_PERSISTENCE_FAILED;
   FailureCode.SNAPSHOT_PERSISTENCE_FAILED].

Definition chain_failure (r : MultiTransportDiscoveryResult) : DiscoveryFailureCode * string :=
  let last := last_failure (result_attempts r) in
  match result_state r with
  | ResultState.UNREACHABLE =>
      (FailureCode.CONNECTION_FAILED, "Host was unreachable for all configured transports.")
  | ResultState.REACHABLE_NO_MANAGEMENT =>
      match last with
      | Some (code, message) =>
          if mem code workflow_failures
          then (code, or_str message "Discovery failed on a reachable host.")
          else (FailureCode.TRANSPORT_UNAVAILABLE,
                "Host is reachable but no configured management transport succeeded.")
      | None =>
          (FailureCode.TRANSPORT_UNAVAILABLE,
           "Host is reachable but no configured management transport succeeded.")
      end
  | ResultState.AUTHENTICATION_FAILED =>
      (FailureCode.AUTHENTICATION_FAILED,
       "Authentication failed for all applicable management transports.")
  | ResultState.PARTIAL_DISCOVERY =>
      (FailureCode.DISCOVERY_FAILED,
       "Partial discovery data collected but full discovery did not complete.")
  | _ =>
      match last with
      | Some (code, message) => (code, or_str message "Discovery did not complete successfully.")
      | None => (FailureCode.DISCOVERY_FAILED, "Discovery did not complete successfully.")
      end
  end%string.

Definition profile_in (d : DB) (tenant_id : string) (profile_id : UUID)
    : option Profile.CredentialProfileRecord :=
  p ← profiles d !! profile_id;
  if Profile.tenant_id p ≟ tenant_id then Some p else None.

(** Steps 2 of [_execute_multi_transport]: the result row of the job. *)
Definition open_device_result (tenant_id : string) (job : Job.DiscoveryJobRecord)
    (target : DiscoveryTargetRecordView) (parent_job_id : option UUID)
    : DbM DeviceResult.DiscoveryDeviceResultRecord :=
  existing <- find_device_result tenant_id (Job.id job) ;;
  started <- utc_now ;;
  r <- match existing with
       | Some r => ret (DeviceResult.set_started_at (Some started) r)
       | None =>
           id <- uuid4 ;;
           ret (new_device_result id tenant_id (from_option (λ p, p) (Job.id job) parent_job_id)
                  (Job.id job) (Job.correlation_id job) (view_address target) (value RUNNING)
                  (Some started))
       end ;;
  put_device_result r ;;;
  ret r.

(** Attribute assignments on the loaded result object. *)
Definition amend_device_result (tenant_id : string) (job : Job.DiscoveryJobRecord)
    (f : DeviceResult.DiscoveryDeviceResultRecord → DeviceResult.DiscoveryDeviceResultRecord)
    : DbM unit :=
  r <- find_device_result tenant_id (Job.id job) ;;
  match r with Some r => put_device_result (f r) | None => ret tt end.

(** Step 6: evidence, snapshot, result and transition of a discovered
    device. *)
Definition persist_discovery (self : Services) (tenant_id : string) (job : Job.DiscoveryJobRecord)
    (target : DiscoveryTargetRecordView) (check : DbM unit)
    (configs : list (TransportAttemptConfig * Collector)) (selected : option string)
    (payload : dict) (st : DiscoveryResultState) : DbM DiscoveryExecutionOutcome :=
  let platform := payload_string payload "platform_family"
    (dict_get_default "platform_family" JNull (view_metadata target)) in
  _ <- record_selection tenant_id (Job.id job) selected platform ;;
  check ;;;
  let chosen := List.find (λ c, Some (transport_name (fst c)) ≟ selected) configs in
  match (match chosen with Some c => Some c | None => hd_error (rev configs) end) with
  | None => raise (OtherError "IndexError") "list index out of range"
  | Some (_, collector) =>
      e <- build_evidence job target collector payload ;;
      _ <- create_evidence e None ;;
      commit ;;;
      check ;;;
      devices <- process self (view_identifier target) (p ← c_parser collector; p)
                   (Job.run_id job) (view_metadata target) payload ;;
      check ;;;
      add_live_snapshot self devices (Job.run_id job) tenant_id ;;;
      record_device_result job target devices selected (Some (value st)) ;;;
      completed <- transition tenant_id (Job.id job) SUCCEEDED None None true None ;;
      finalize_single_device_run (Job.run_id job) ResultState.DISCOVERED ;;;
      commit ;;;
      amend_device_result tenant_id job (DeviceResult.set_state (value SUCCEEDED)) ;;;
      ret {| outcome_job := completed; executed := true; evidence_count := 1 |}
  end.

(** Step 7: the failure of a chain. *)
Definition fail_chain (tenant_id : string) (job : Job.DiscoveryJobRecord)
    (target : DiscoveryTargetRecordView) (mt : MultiTransportDiscoveryResult)
    : DbM DiscoveryExecutionOutcome :=
  let '(code, message) := chain_failure mt in
  amend_device_result tenant_id job (λ r,
    r |> DeviceResult.set_state (value FAILED)
      |> DeviceResult.set_failure_code (Some (value code))
      |> DeviceResult.set_failure_message (Some message)
      |> DeviceResult.set_result_state (Some (value (result_state mt)))) ;;;
  failed <- mark_failed_after_rollback tenant_id (Job.id job) (value code) message None ;;
  finalize_single_device_run (Job.run_id job) (result_state mt) ;;;
  _ <- ensure_device_result_for_failure job target code (Some message) (selected_transport mt) ;;
  commit ;;;
  ret {| outcome_job := failed; executed := true; evidence_count := 0 |}.

(** [DiscoveryExecutionService._execute_multi_transport]. *)
Definition execute_multi_transport (self : Services) (tenant_id : string)
    (job : Job.DiscoveryJobRecord) (target : DiscoveryTargetRecordView)
    (parent_job_id : option UUID) (lease_lost : DbM bool) : DbM DiscoveryExecutionOutcome :=
  let check := raise_if_cancelled tenant_id (Job.id job) parent_job_id lease_lost in
  db <- query (λ d, d) ;;
  policy <- of_outcome (resolve_transport_policy (profile_in db) target) ;;
  device_result <- open_device_result tenant_id job target parent_job_id ;;
  configs <- build_transport_configs self job target policy check (transports policy) ;;
  if is_nil configs then
    commit ;;;
    fail FailureCode.UNSUPPORTED_CAPABILITY
      "No transport configurations available for the credential profile."
  else
    mt <- discover_with_fallback (orchestrator self) (view_address target) (map fst configs)
            (Some device_result) (Some false) ;;
    commit ;;;
    amend_device_result tenant_id job (λ r,
      r |> DeviceResult.set_result_state (Some (value (result_state mt)))
        |> DeviceResult.set_selected_transport (selected_transport mt)
        |> DeviceResult.set_completed_at (Some (result_completed_at mt))) ;;;
    match discovery_payload mt with
    | Some payload =>
        if was_discovered mt then
          persisted <- try_except
            (o <- persist_discovery self tenant_id job target check configs
                    (selected_transport mt) payload (result_state mt) ;;
             ret (Some o))
            (λ exc,
               if isinstance exc DiscoveryCancellationRequestedError
                  || isinstance exc DiscoveryLeaseLostError
                  || negb (isinstance exc Exception_)
               then reraise exc
               else ret None) ;;
          match persisted with
          | Some o => ret o
          | None => fail_chain tenant_id job target mt
          end
        else fail_chain tenant_id job target mt
    | None => fail_chain tenant_id job target mt
    end.

(** ** The single-transport execution and its handlers *)

(** The claim, or the ownership check of a job claimed before; [inr] is the
    answer for a job somebody else has. *)
Definition take_job (tenant_id : string) (job_id owner : UUID) (lease_seconds : float)
    (already_claimed : bool) : DbM (Job.DiscoveryJobRecord + DiscoveryExecutionOutcome) :=
  try_except
    (if already_claimed then
       job <- owned_running_job tenant_id job_id owner ;;
       match job with
       | Some j => ret (inl j)
       | None => raise InvalidDiscoveryTransitionError
                   "Discovery job is not owned by this worker."
       end
     else
       job <- claim tenant_id job_id (Some owner) lease_seconds ;;
       commit ;;;
       ret (inl job))
    (λ exc,
       if isinstance exc InvalidDiscoveryTransitionError then
         rollback ;;;
         existing <- get tenant_id job_id ;;
         match existing with
         | None => raise DiscoveryResourceNotFoundError "Discovery job was not found."
         | Some j => ret (inr {| outcome_job := j; executed := false; evidence_count := 0 |})
         end
       else reraise exc).

(** [payload] is copied into a [dict]. *)
Definition collect_payload (collector : Collector) (ctx : CollectorContext) : DbM dict :=
  data <- c_collect collector ctx ;;
  match data with
  | JDict d => ret d
  | _ => raise TypeError "cannot convert dictionary update sequence"
  end.

(** From the started attempt to the succeeded job. *)
Definition run_collector (self : Services) (tenant_id : string) (job : Job.DiscoveryJobRecord)
    (target : DiscoveryTargetRecordView) (check : DbM unit) (owner : UUID)
    (collector : Collector) (ctx : CollectorContext)
    (attempt : Attempt.DiscoveryTransportAttemptRecord) : DbM DiscoveryExecutionOutcome :=
  let md key := dict_get_default key JNull (view_metadata target) in
  check ;;;
  c_health_check collector ctx ;;;
  check ;;;
  payload <- collect_payload collector ctx ;;
  _ <- finish attempt "success" None None ;;
  let transport := payload_string payload "transport" (md "transport_name") in
  _ <- record_selection tenant_id (Job.id job) transport
         (payload_string payload "platform_family" (md "platform_family")) ;;
  check ;;;
  e <- build_evidence job target collector payload ;;
  _ <- create_evidence e None ;;
  commit ;;;
  check ;;;
  devices <- process self (view_identifier target) (p ← c_parser collector; p)
               (Job.run_id job) (ctx_metadata ctx) payload ;;
  check ;;;
  add_live_snapshot self devices (Job.run_id job) tenant_id ;;;
  record_device_result job target devices transport (Some (value ResultState.DISCOVERED)) ;;;
  check ;;;
  completed <- transition tenant_id (Job.id job) SUCCEEDED None None true (Some owner) ;;
  commit ;;;
  ret {| outcome_job := completed; executed := true; evidence_count := 1 |}.

(** [attempt] as the handlers see it: [None] before it was started. *)
Definition finish_attempt (attempt : option Attempt.DiscoveryTransportAttemptRecord)
    (result : string) (code message : option string) : DbM unit :=
  match attempt with
  | Some a => _ <- finish a result code message ;; ret tt
  | None => ret tt
  end.

(** The result row of a cancelled job. *)
Definition cancel_device_result (tenant_id : string) (job : Job.DiscoveryJobRecord) : DbM unit :=
  target <- resolve_target job tenant_id ;;
  existing <- find_device_result (view_tenant_id target) (Job.id job) ;;
  match existing with
  | Some r =>
      completed <- utc_now ;;
      put_device_result (r |> DeviceResult.set_state (value CANCELLED)
                           |> DeviceResult.set_completed_at (Some completed))
  | None =>
      started <- started_or_now job ;;
      completed <- utc_now ;;
      id <- uuid4 ;;
      put_device_result
        (new_device_result id (view_tenant_id target) (Job.id job) (Job.id job)
           (Job.correlation_id job) (view_address target) (value CANCELLED) (Some started)
         |> DeviceResult.set_completed_at (Some completed)
         |> DeviceResult.set_result_state (Some (value ResultState.UNREACHABLE)))
  end.

(** [except DiscoveryCancellationRequestedError]. *)
Definition on_cancelled (tenant_id : string) (job : Job.DiscoveryJobRecord) (owner : UUID)
    (attempt : option Attempt.DiscoveryTransportAttemptRecord) : DbM DiscoveryExecutionOutcome :=
  finish_attempt attempt "cancelled" (Some (value FailureCode.CANCELLED)) None ;;;
  _ <- suppress (cancel_device_result tenant_id job) ;;
  cancelled <- finalise_cancellation tenant_id (Job.id job) (Some owner) ;;
  commit ;;;
  ret {| outcome_job := cancelled; executed := true; evidence_count := 0 |}.

(** [except DiscoveryLeaseLostError]. *)
Definition on_lease_lost (tenant_id : string) (job : Job.DiscoveryJobRecord)
    : DbM DiscoveryExecutionOutcome :=
  rollback ;;;
  current <- get tenant_id (Job.id job) ;;
  match current with
  | None => raise DiscoveryResourceNotFoundError "Discovery job was not found."
  | Some j => ret {| outcome_job := j; executed := false; evidence_count := 0 |}
  end.

(** [except Exception as exc]. *)
Definition on_failure (tenant_id : string) (job : Job.DiscoveryJobRecord) (owner : UUID)
    (attempt : option Attempt.DiscoveryTransportAttemptRecord) (exc : exn)
    : DbM DiscoveryExecutionOutcome :=
  cancel <- cancellation_requested tenant_id (Job.id job) ;;
  if cancel : bool then
    finish_attempt attempt "cancelled" (Some (value FailureCode.CANCELLED)) None ;;;
    cancelled <- finalise_cancellation tenant_id (Job.id job) (Some owner) ;;
    commit ;;;
    ret {| outcome_job := cancelled; executed := true; evidence_count := 0 |}
  else
    let code := failure_code_of exc in
    let message := safe_execution_message (exn_str exc) in
    finish_attempt attempt "failed" (Some (value code)) (Some message) ;;;
    target <- resolve_target job tenant_id ;;
    try_except
      (failed <- mark_failed_after_rollback tenant_id (Job.id job) (value code) message
                   (Some owner) ;;
       _ <- ensure_device_result_for_failure job target code (Some message)
              (Some (py_str (dict_get_default "transport_name" (JStr "unknown")
                               (view_metadata target)))) ;;
       commit ;;;
       ret {| outcome_job := failed; executed := true; evidence_count := 0 |})
      (λ exc', if isinstance exc' Exception_ then rollback ;;; reraise exc' else reraise exc').

Definition handle (tenant_id : string) (job : Job.DiscoveryJobRecord) (owner : UUID)
    (attempt : option Attempt.DiscoveryTransportAttemptRecord) (exc : exn)
    : DbM DiscoveryExecutionOutcome :=
  if isinstance exc DiscoveryCancellationRequestedError
    then on_cancelled tenant_id job owner attempt
  else if isinstance exc DiscoveryLeaseLostError then on_lease_lost tenant_id job
  else if isinstance exc Exception_ then on_failure tenant_id job owner attempt exc
  else reraise exc.

(** What the [try] block does before an attempt is started: it may already
    answer ([inr]). *)
Definition prepare (self : Services) (tenant_id : string) (job : Job.DiscoveryJobRecord)
    (parent_job_id : option UUID) (lease_lost : DbM bool)
    : DbM (DiscoveryTargetRecordView * Collector * CollectorContext
           * Attempt.DiscoveryTransportAttemptRecord + DiscoveryExecutionOutcome) :=
  let check := raise_if_cancelled tenant_id (Job.id job) parent_job_id lease_lost in
  target <- resolve_target job tenant_id ;;
  check ;;;
  if negb (view_enabled target) then
    fail FailureCode.TARGET_DISABLED "Discovery target is disabled."
  else
    let md key := dict_get_default key JNull (view_metadata target) in
    if negb (json_none (md "credential_profile_id"%string))
       || truthy (md "allowed_fallback_transports"%string) then
      o <- execute_multi_transport self tenant_id job target parent_job_id lease_lost ;;
      ret (inr o)
    else
      chosen <- resolve_collector self job target check ;;
      attempt <- start_transport_attempt job target ;;
      ret (inl (target, fst chosen, snd chosen, attempt)).

(** [DiscoveryExecutionService.execute].  The handlers of its [try] block see
    the attempt exactly when the exception was raised after its start. *)
Definition execute (self : Services) (tenant_id : string) (job_id : UUID)
    (parent_job_id execution_owner : option UUID) (lease_seconds : float)
    (already_claimed : bool) (lease_lost : DbM bool) : DbM DiscoveryExecutionOutcome :=
  owner <- match execution_owner with Some o => ret o | None => uuid4 end ;;
  taken <- take_job tenant_id job_id owner lease_seconds already_claimed ;;
  match taken with
  | inr o => ret o
  | inl job =>
      let check := raise_if_cancelled tenant_id job_id parent_job_id lease_lost in
      prepared <- try_except
        (prepare self tenant_id job parent_job_id lease_lost)
        (λ exc, o <- handle tenant_id job owner None exc ;; ret (inr o)) ;;
      match prepared with
      | inr o => ret o
      | inl (target, collector, ctx, attempt) =>
          try_except (run_collector self tenant_id job target check owner collector ctx attempt)
            (handle tenant_id job owner (Some attempt))
      end
  end.
End Execution.
