(* ===== verification/Worker.v ===== *)
(** * The discovery worker ([discovery/worker.py], [DiscoveryFanoutService.execute])

    The in-process worker that recovers expired work, claims queued roots,
    keeps their leases alive and executes them, and the execution of a fan-out
    parent.  Tasks that the event loop interleaves are given as separate
    computations on the shared database: a heartbeat is one beat, and the
    children of a parent run to completion one after the other. *)

From S2P Require Import Prelude Vocabulary Effects Json Records Contracts TransportPolicy.
From S2P Require Import ResultStates Session JobRepository Fanout Cancellation Redaction.
From S2P Require Import EvidenceStore Execution.
#[local] Open Scope Z_scope.

(** [except Exception: ...]; a [CancelledError] passes. *)
Definition except_exception {A} (m : DbM A) (h : exn → DbM A) : DbM A :=
  try_except m (λ exc, if isinstance exc Exception_ then h exc else reraise exc).

(** A session of its own: it starts from the committed tables and [close]
    discards what was not committed. *)
Definition with_session {A} (m : DbM A) : DbM A :=
  rollback ;;; try_finally m rollback.

(** [DiscoveryJobWorker.__post_init__]. *)
Record WorkerConfig := {
  lease_seconds : float;
  heartbeat_interval_seconds : float;
  claim_limit : nat;
}.

Definition check_config (c : WorkerConfig) : outcome WorkerConfig :=
  if Qle_bool (lease_seconds c) (heartbeat_interval_seconds c * 2) then
    raise_ ValueError "Discovery heartbeat interval must be less than half the lease."
  else Ret c.

Section Worker.
Context `{FloatRepr} `{Digest} `{IpLibrary}.

(** ** Fan-out execution *)

(** [DiscoveryFanoutService._cancel_child]. *)
Definition cancel_child (parent child : Job.DiscoveryJobRecord)
    (result : DeviceResult.DiscoveryDeviceResultRecord) : DbM unit :=
  let reason := or_str (Job.cancellation_reason parent) "Cancelled by operator." in
  let finish state :=
    completed <- utc_now ;;
    put_device_result
      (result |> DeviceResult.set_state state
              |> DeviceResult.set_failure_code (Some "CANCELLED"%string)
              |> DeviceResult.set_failure_message (Some reason)
              |> DeviceResult.set_result_state (Some "cancelled"%string)
              |> DeviceResult.set_completed_at (Some completed)) ;;;
    commit in
  match Job.cancellation_requested_by parent with
  | Some requested_by =>
      state <- try_except
        (c <- request_cancellation (Job.tenant_id parent) (Job.id child) requested_by reason ;;
         ret (Some (Job.state (fst c))))
        (λ exc, if isinstance exc DiscoveryCancellationConflictError then ret None
                else reraise exc) ;;
      match state with
      | Some st => finish st
      | None => ret tt
      end
  | None => finish "cancelled"%string
  end.

(** The result state of a finished child ([run_child]). *)
Definition child_result_state (job : Job.DiscoveryJobRecord) : DiscoveryResultState :=
  let code := from_option (λ c, c) ""%string (Job.failure_code job) in
  if Job.state job ≟ "succeeded"%string then ResultState.DISCOVERED
  else if mem code ["AUTHENTICATION_FAILED"]%string then ResultState.AUTHENTICATION_FAILED
  else if code ≟ "TRANSPORT_UNAVAILABLE"%string then ResultState.UNVERIFIED
  else if mem code ["CONNECTION_REFUSED"; "UNSUPPORTED_CAPABILITY"; "UNSUPPORTED_CREDENTIAL";
                    "UNSUPPORTED_PLATFORM"]%string
    then ResultState.REACHABLE_NO_MANAGEMENT
  else if mem code ["CONNECTION_FAILED"; "CONNECTION_TIMEOUT"; "HOST_UNREACHABLE";
                    "DISCOVERY_TIMEOUT"]%string
    then ResultState.UNREACHABLE
  else ResultState.REACHABLE_NO_MANAGEMENT.

Definition child_outcome (job : Job.DiscoveryJobRecord) (completed_at : datetime)
    (r : DeviceResult.DiscoveryDeviceResultRecord) : DeviceResult.DiscoveryDeviceResultRecord :=
  let r := r |> DeviceResult.set_state (Job.state job)
             |> DeviceResult.set_selected_transport (Job.selected_transport job)
             |> DeviceResult.set_failure_code (Job.failure_code job)
             |> DeviceResult.set_failure_message (Job.failure_message job)
             |> DeviceResult.set_completed_at (Some completed_at) in
  match DeviceResult.result_state r with
  | Some _ => r
  | None => DeviceResult.set_result_state (Some (value (child_result_state job))) r
  end.

(** [run_child] of [DiscoveryFanoutService.execute]; the parent object is
    the one the service loaded, whose cancellation columns are refreshed by
    the query. *)
Definition run_child (self : Services) (tenant_id : string) (parent_job_id owner : UUID)
    (lease : float) (lease_lost : DbM bool)
    (child : Job.DiscoveryJobRecord) (result : DeviceResult.DiscoveryDeviceResultRecord)
    : DbM unit :=
  cancelled <- cancellation_requested tenant_id parent_job_id ;;
  if cancelled : bool then
    parent <- get_job parent_job_id ;;
    match parent with
    | Some p => cancel_child p child result
    | None => ret tt
    end
  else
    started <- utc_now ;;
    put_device_result (result |> DeviceResult.set_state "discovering"
                              |> DeviceResult.set_started_at (Some started)) ;;;
    commit ;;;
    outcome <- execute self tenant_id (Job.id child) (Some parent_job_id) (Some owner) lease
                 false lease_lost ;;
    refreshed <- query (λ d, device_results d !! DeviceResult.id result) ;;
    completed <- utc_now ;;
    match refreshed with
    | Some r => put_device_result (child_outcome (outcome_job outcome) completed r)
    | None => raise (OtherError "InvalidRequestError") "Could not refresh instance"
    end ;;;
    commit.

(** [_persist_expected_addresses]. *)
Definition persist_expected_addresses (parent : Job.DiscoveryJobRecord) (addresses : list string)
    : DbM unit :=
  run <- get_run (Job.run_id parent) ;;
  match run with
  | None => ret tt
  | Some r =>
      if dict_has "expected_addresses" (Run.metadata_json r) then ret tt
      else put_run (Run.set_metadata_json
             (dict_set "expected_addresses" (JList (map JStr addresses)) (Run.metadata_json r)) r)
  end.

(** [DiscoveryFanoutService.execute]. *)
Definition execute_fanout (self : Services) (tenant_id : string) (parent_job_id : UUID)
    (execution_owner : option UUID) (lease : float) (max_targets : Z) (lease_lost : DbM bool)
    : DbM (list DeviceResult.DiscoveryDeviceResultRecord) :=
  owner <- match execution_owner with Some o => ret o | None => uuid4 end ;;
  parent <- get_job parent_job_id ;;
  match parent with
  | None => raise ValueError "Discovery parent job was not found."
  | Some parent =>
      if negb (Job.tenant_id parent ≟ tenant_id) then
        raise ValueError "Discovery parent job was not found."
      else
        target <- get_target (Job.target_id parent) ;;
        match target with
        | None => raise ValueError "Discovery scope target was not found."
        | Some target =>
            cancelled <- cancellation_requested tenant_id parent_job_id ;;
            if cancelled : bool then
              reconcile_parent_job tenant_id parent_job_id false max_targets
            else
              scope <- of_outcome (scope_of target) ;;
              addresses <- of_outcome (expand scope max_targets) ;;
              persist_expected_addresses parent addresses ;;;
              commit ;;;
              children <- map_m (create_child tenant_id parent target) addresses ;;
              commit ;;;
              for_each children (λ c,
                run_child self tenant_id parent_job_id owner lease lease_lost (fst c) (snd c)) ;;;
              cancelled <- cancellation_requested tenant_id parent_job_id ;;
              _ <- reconcile_parent_job tenant_id parent_job_id (negb cancelled) max_targets ;;
              map_m (λ c,
                r <- query (λ d, device_results d !! DeviceResult.id (snd c)) ;;
                ret (from_option (λ r, r) (snd c) r)) children
        end
  end.

(** ** The worker loop *)

(** [recover_expired_jobs]. *)
Definition recover_expired_jobs : DbM unit :=
  expired <- with_session
    (now <- utc_now ;; recover_expired_owned_jobs now) ;;
  for_each expired (λ '(tenant_id, job_id),
    if job_id ≟ PROTECTED_DISCOVERY_JOB_ID then ret tt
    else with_session (except_exception
      (now <- utc_now ;;
       _ <- recover_expired_owned_job tenant_id job_id now ;;
       commit)
      (λ _, rollback))).

(** [claim_queued_jobs]. *)
Definition claim_one (c : WorkerConfig) (tenant_id : string) (job_id : UUID)
    : DbM (list (string * UUID * UUID)) :=
  if job_id ≟ PROTECTED_DISCOVERY_JOB_ID then ret []
  else
    owner <- uuid4 ;;
    with_session (except_exception
      (_ <- claim tenant_id job_id (Some owner) (lease_seconds c) ;;
       commit ;;;
       ret [(tenant_id, job_id, owner)])
      (λ _, rollback ;;; ret [])).

Definition claim_queued_jobs (c : WorkerConfig) : DbM (list (string * UUID * UUID)) :=
  candidates <- with_session (list_queued_roots (claim_limit c)) ;;
  claimed <- map_m (λ '(tenant_id, job_id), claim_one c tenant_id job_id) candidates ;;
  ret (concat claimed).

(** [_abandon_if_owned]. *)
Definition abandon_if_owned (tenant_id : string) (job_id owner : UUID) : DbM unit :=
  with_session (except_exception
    (_ <- abandon_owned_job tenant_id job_id owner HEARTBEAT_LOST_MESSAGE ;; commit)
    (λ _, rollback)).

(** One beat of [_heartbeat]: whether the lease is lost. *)
Definition heartbeat (c : WorkerConfig) (tenant_id : string) (job_id owner : UUID) : DbM bool :=
  renewed <- except_exception
    (with_session
       (renewed <- renew_lease tenant_id job_id owner (lease_seconds c) ;;
        commit ;;;
        ret renewed))
    (λ _, ret false) ;;
  if renewed : bool then ret false
  else abandon_if_owned tenant_id job_id owner ;;; ret true.

(** [_fail_owned_job]. *)
Definition fail_owned_job (tenant_id : string) (job_id owner : UUID) (exc : exn) : DbM unit :=
  with_session (except_exception
    (current <- get tenant_id job_id ;;
     match current with
     | None => ret tt
     | Some job =>
         if negb (Job.state job ≟ value RUNNING)
            || negb (Job.execution_owner job ≟ Some owner) then ret tt
         else
           let message := or_str (Some (str_strip (exn_str exc))) "Discovery execution failed." in
           _ <- transition tenant_id job_id FAILED (Some (value FailureCode.DISCOVERY_FAILED))
                  (Some (str_take 1000 message)) false (Some owner) ;;
           target <- query (λ d, targets d !! Job.target_id job) ;;
           match target with
           | Some t =>
               if (Target.tenant_id t ≟ tenant_id) && is_fanout_scope (Target.scope_type t) then
                 _ <- reconcile_parent_job tenant_id job_id true DEFAULT_MAX_TARGETS ;; ret tt
               else commit
           | None => commit
           end
     end)
    (λ _, rollback)).

(** [execute_discovery_job]. *)
Definition finish_fanout (tenant_id : string) (job_id owner : UUID)
    (results : list DeviceResult.DiscoveryDeviceResultRecord) : DbM unit :=
  cancelled <- cancellation_requested tenant_id job_id ;;
  (if cancelled : bool then
     _ <- finalise_cancellation tenant_id job_id (Some owner) ;; ret tt
   else
     let final_state :=
       if existsb (λ r, DeviceResult.state r ≟ "succeeded"%string) results
       then SUCCEEDED else FAILED in
     _ <- transition tenant_id job_id final_state None None true (Some owner) ;; ret tt) ;;;
  commit.

Definition execute_discovery_job (self : Services) (tenant_id : string) (job_id owner : UUID)
    (lease : float) (already_claimed : bool) (lease_lost : DbM bool)
    : DbM (option Job.DiscoveryJobRecord) :=
  with_session
    (job <- get tenant_id job_id ;;
     match job with
     | None => ret None
     | Some job =>
         if Job.state job ≟ value CANCELLED then ret (Some job)
         else
           target <- query (λ d, targets d !! Job.target_id job) ;;
           if from_option (λ t, (Target.tenant_id t ≟ tenant_id)
                                && is_fanout_scope (Target.scope_type t)) false target then
             answer <- try_except
               (when (negb already_claimed)
                  (_ <- claim tenant_id job_id (Some owner) lease ;; commit) ;;;
                results <- execute_fanout self tenant_id job_id (Some owner) lease
                             DEFAULT_MAX_TARGETS lease_lost ;;
                finish_fanout tenant_id job_id owner results ;;;
                ret None)
               (λ exc,
                  if isinstance exc InvalidDiscoveryTransitionError then
                    rollback ;;;
                    current <- get tenant_id job_id ;;
                    match current with
                    | Some c =>
                        if Job.state c ≟ value CANCELLED then ret (Some c)
                        else
                          cancelled <- cancellation_requested tenant_id job_id ;;
                          if negb cancelled then reraise exc
                          else
                            _ <- finalise_cancellation tenant_id job_id (Some owner) ;;
                            commit ;;;
                            ret None
                    | None => reraise exc
                    end
                  else reraise exc) ;;
             match answer with
             | Some c => ret (Some c)
             | None => get tenant_id job_id
             end
           else
             outcome <- execute self tenant_id job_id None (Some owner) lease already_claimed
                          lease_lost ;;
             ret (Some (outcome_job outcome))
     end).

(** [_run_owned_job]; [lease_lost] reads the heartbeat's event and [stopping]
    the worker's. *)
Definition run_owned_job (self : Services) (c : WorkerConfig) (tenant_id : string)
    (job_id owner : UUID) (lease_lost stopping : DbM bool) : DbM unit :=
  try_finally
    (except_exception
       (_ <- execute_discovery_job self tenant_id job_id owner (lease_seconds c) true
               (lost <- lease_lost ;; stop <- stopping ;; ret (lost || stop)) ;;
        ret tt)
       (λ exc,
          lost <- lease_lost ;;
          when (negb lost) (fail_owned_job tenant_id job_id owner exc)))
    (lost <- lease_lost ;;
     when lost (abandon_if_owned tenant_id job_id owner)).

(** [DiscoveryJobWorker.run]: one turn of the loop.  The jobs it claimed are
    run one after the other. *)
Definition poll (self : Services) (c : WorkerConfig) (lease_lost : UUID → DbM bool)
    (stopping : DbM bool) : DbM unit :=
  claimed <- except_exception (recover_expired_jobs ;;; claim_queued_jobs c)
               (λ _, ret []) ;;
  for_each claimed (λ '(tenant_id, job_id, owner),
    run_owned_job self c tenant_id job_id owner (lease_lost owner) stopping).

(** The loop, for at most [turns] turns: it ends when [stopping] is set. *)
Fixpoint run (self : Services) (c : WorkerConfig) (lease_lost : UUID → DbM bool)
    (stopping : DbM bool) (turns : nat) : DbM unit :=
  match turns with
  | O => ret tt
  | S turns =>
      stop <- stopping ;;
      if stop : bool then ret tt
      else poll self c lease_lost stopping ;;; run self c lease_lost stopping turns
  end.
End Worker.
