(* ===== verification/ExecutionTheorems.v ===== *)
(** * Correctness of execution and of the worker

    Executions and worker steps keep the job table's invariant whatever their
    collectors do to the other tables; an execution that reports to have run
    leaves the job finished; what the worker claims it owns. *)

From S2P Require Import Prelude ResultStates Vocabulary Effects Json Records Contracts.
From S2P Require Import TransportPolicy.
From S2P Require Import Session JobRepository Fanout Cancellation Durability.
From S2P Require Import Durability JobBehaviour MultiTransport Redaction.
From S2P Require Import FallbackTheorems EvidenceStore Execution Worker Demo IPv4.
From S2P Require Import FanoutTheorems.

#[local] Open Scope Z_scope.

(** ** Collaborators that leave the job table alone *)

Record collector_respects (c : Collector) : Prop := {
  cr_health : ∀ ctx, preserves (respects false) (ctx_cancellation_check ctx) →
    preserves (respects false) (c_health_check c ctx);
  cr_collect : ∀ ctx, preserves (respects false) (ctx_cancellation_check ctx) →
    preserves (respects false) (c_collect c ctx);
  cr_normalize : ∀ ctx payload, preserves (respects false) (ctx_cancellation_check ctx) →
    preserves (respects false) (c_normalize c ctx payload);
}.

Record services_respect (self : Services) : Prop := {
  sr_collectors : ∀ name c, (name, c) ∈ collector_registry self → collector_respects c;
  sr_prober : ∀ addr services, preserves (respects false) (prober (orchestrator self) addr services);
  sr_process : ∀ source parser run md payload,
    preserves (respects false) (process self source parser run md payload);
  sr_snapshot : ∀ devices run tenant,
    preserves (respects false) (add_live_snapshot self devices run tenant);
}.

(** ** The orchestrator *)

Record config_respects (c : TransportAttemptConfig) : Prop := {
  gr_health : preserves (respects false) (health_check c);
  gr_collect : preserves (respects false) (collect c);
  gr_validate : ∀ validate d, validate_payload c = Some validate →
    preserves (respects false) (validate d);
}.

#[local] Hint Unfold suppress start finish except_exception : preserves.

Lemma preserves_attempt config order started :
  config_respects config →
  preserves (respects false) (execute_transport_attempt config order started).
Proof.
  intros [Hh Hc Hv]. unfold execute_transport_attempt, identify. operation.
Qed.

Lemma preserves_attempt_loop device_result configs order i :
  Forall config_respects configs →
  preserves (respects false) (attempt_loop device_result configs order i).
Proof.
  intros Hc. revert order i. induction Hc as [|c configs Hc _ IH]; intros order i;
    cbn [attempt_loop]; unfold finish_record; operation; auto using preserves_attempt.
Qed.

Lemma preserves_discover self addr configs device_result probe :
  Forall config_respects configs →
  (∀ addr services, preserves (respects false) (prober self addr services)) →
  preserves (respects false) (discover_with_fallback self addr configs device_result probe).
Proof.
  intros Hc Hp. unfold discover_with_fallback.
  preserves_step; [apply _|preserves_step|intros started].
  apply (preserves_bind_Ret _ (Forall config_respects)).
  - unfold attempt_configs. operation.
  - intros s cs s' E. apply attempt_configs_Ret in E as [E _]. by rewrite E.
  - intros cs Hcs. operation. by apply preserves_attempt_loop.
Qed.

(** ** Steps of an execution *)

Section Execution.
Context {HF : FloatRepr} {HD : Digest} {HI : IpLibrary}.

#[local] Hint Unfold fail find_device_result resolve_target cancellation_requested
  ensure_device_result_for_failure started_or_now record_device_result
  finalize_single_device_run build_evidence start_transport_attempt open_device_result
  amend_device_result create_evidence owned_running_job finish_attempt
  cancel_device_result record_unsupported_credential_attempt collect_payload : preserves.

(** Every collector the service hands out is a registered one. *)
Lemma registry_get_registered r name c :
  registry_get r name = Some c → ∃ n, (n, c) ∈ r.
Proof.
  unfold registry_get. rewrite fmap_Some. intros ([n c'] & H & ->).
  apply List.find_some in H as [H _]. exists n. by apply list_elem_of_In.
Qed.

Lemma registry_select_registered r caps c :
  c ∈ registry_select r caps → ∃ n, (n, c) ∈ r.
Proof.
  unfold registry_select. rewrite list_elem_of_In, List.filter_In, in_map_iff.
  intros [([n c'] & <- & H) _]. exists n. by apply list_elem_of_In.
Qed.

Lemma transport_collector_registered self job caps c :
  transport_collector self job caps = Some c → ∃ n, (n, c) ∈ collector_registry self.
Proof.
  unfold transport_collector.
  destruct (requested_collector job ≫= registry_get (collector_registry self)) as [c'|] eqn:E.
  - intros [= <-]. apply bind_Some in E as (name & _ & E). eauto using registry_get_registered.
  - destruct (registry_select (collector_registry self) caps) as [|c' l] eqn:E'.
    + intros H. apply registry_select_registered with (caps := []).
      destruct (registry_select (collector_registry self) []); [done|].
      injection H as <-. apply list_elem_of_here.
    + intros [= <-]. apply registry_select_registered with (caps := caps).
      rewrite E'. apply list_elem_of_here.
Qed.

Lemma preserves_raise_if_cancelled tenant_id job_id parent lease_lost :
  preserves (respects false) lease_lost →
  preserves (respects false) (raise_if_cancelled tenant_id job_id parent lease_lost).
Proof. intros Hl. unfold raise_if_cancelled. operation. Qed.

(** Contexts and configurations the service builds call only its check. *)
Lemma transport_config_respects self job target check entry c collector :
  services_respect self → preserves (respects false) check →
  transport_config self job target check entry = Some (c, collector) → config_respects c.
Proof.
  intros Hs Hcheck H. unfold transport_config in H.
  destruct (transport_collector _ _ _) as [col|] eqn:E; [|done]. cbn in H. injection H as <- <-.
  apply transport_collector_registered in E as [n E]. destruct (sr_collectors _ Hs _ _ E) as [Hh Hc Hn].
  split; cbn; [by apply Hh|by apply Hc|]. intros validate d.
  destruct (c_parser col); [|done]. intros [= <-]. unfold validated_identity. operation.
Qed.

Lemma build_transport_configs_respect self job target policy check entries s configs s' :
  services_respect self → preserves (respects false) check →
  build_transport_configs self job target policy check entries s = (Ret configs, s') →
  Forall config_respects (map fst configs).
Proof.
  intros Hs Hcheck. revert s configs s'.
  induction entries as [|e entries IH]; intros s configs s' H; cbn in H.
  { by injection H as <- _. }
  unbind H. unbind H. injection H as <- _.
  match goal with E : build_transport_configs _ _ _ _ _ _ _ = _ |- _ => apply IH in E; rename E into Hrest end.
  match goal with |- context [match ?x with _ => _ end] => destruct x as [[c col]|] eqn:? end; [|done]. subst. cbn. constructor; [|done].
  match goal with E : (if _ then _ else _) _ = (Ret (Some _), _) |- _ => rename E into Hc end.
  destruct (negb _); [by unbind Hc|]. destruct (_ || _); [done|]. injection Hc as Hc _.
  by eapply transport_config_respects.
Qed.

Lemma preserves_build_transport_configs self job target policy check entries :
  preserves (respects false)
    (build_transport_configs self job target policy check entries).
Proof.
  induction entries as [|e entries IH]; cbn [build_transport_configs]; operation.
Qed.

Section Steps.
Context (self : Services) (Hself : services_respect self).

Lemma preserves_persist_discovery tenant_id job target check configs selected payload st :
  preserves (respects false) check →
  preserves (respects false)
    (persist_discovery self tenant_id job target check configs selected payload st).
Proof.
  intros Hcheck. destruct Hself as [_ _ Hp Hs]. unfold persist_discovery. operation.
Qed.

Lemma preserves_fail_chain tenant_id job target mt :
  preserves (respects false) (fail_chain tenant_id job target mt).
Proof. unfold fail_chain. operation. Qed.

#[local] Hint Resolve preserves_raise_if_cancelled preserves_persist_discovery
  preserves_fail_chain preserves_build_transport_configs : preserves.

Lemma preserves_execute_multi_transport tenant_id job target parent lease_lost :
  preserves (respects false) lease_lost →
  preserves (respects false)
    (execute_multi_transport self tenant_id job target parent lease_lost).
Proof.
  intros Hl. unfold execute_multi_transport.
  do 3 (preserves_step; [apply _|operation|intros ?]).
  eapply (preserves_bind_Ret _ (λ cs, Forall config_respects (map fst cs))).
  - operation.
  - intros s cs s' E. eapply build_transport_configs_respect, E; [done|].
    by apply preserves_raise_if_cancelled.
  - intros cs Hcs. destruct (is_nil cs); [operation|].
    preserves_step; [apply _|..].
    + apply preserves_discover; [done|]. apply (sr_prober _ Hself).
    + operation.
Qed.

(** What [resolve_collector] answers may be run. *)
Definition runnable (p : Collector * CollectorContext) : Prop :=
  collector_respects (fst p) ∧ preserves (respects false) (ctx_cancellation_check (snd p)).

Lemma resolve_collector_runnable job target check s p s' :
  preserves (respects false) check →
  resolve_collector self job target check s = (Ret p, s') → runnable p.
Proof.
  intros Hcheck H. unfold resolve_collector in H. unbind H. injection H as <- _.
  split; [cbn|done].
  assert (∃ n, (n, x) ∈ collector_registry self) as [n Hn];
    [|by apply (sr_collectors _ Hself) in Hn].
  match goal with E : _ = (Ret x, _) |- _ => rename E into Hx end.
  destruct (requested_collector job) as [name|].
  - destruct (registry_get _ name) eqn:E; [|done]. injection Hx as -> _.
    eauto using registry_get_registered.
  - destruct (registry_select _ _) eqn:E; [done|]. injection Hx as -> _.
    eapply registry_select_registered. rewrite E. apply list_elem_of_here.
Qed.

Lemma preserves_resolve_collector job target check :
  preserves (respects false) (resolve_collector self job target check).
Proof. unfold resolve_collector. operation. Qed.

#[local] Hint Resolve preserves_execute_multi_transport preserves_resolve_collector : preserves.

Lemma preserves_take_job tenant_id job_id owner lease already_claimed :
  preserves (respects false) (take_job tenant_id job_id owner lease already_claimed).
Proof. unfold take_job. operation. Qed.

Lemma preserves_run_collector tenant_id job target check owner collector ctx attempt :
  runnable (collector, ctx) → preserves (respects false) check →
  preserves (respects false)
    (run_collector self tenant_id job target check owner collector ctx attempt).
Proof.
  intros [[Hh Hc _] Hctx] Hcheck. destruct Hself as [_ _ Hp Hs].
  unfold run_collector. operation.
Qed.

Lemma preserves_handle tenant_id job owner attempt exc :
  preserves (respects false) (handle tenant_id job owner attempt exc).
Proof. unfold handle, on_cancelled, on_lease_lost, on_failure. operation. Qed.

Lemma prepare_runnable tenant_id job parent lease_lost s target c ctx a s' :
  preserves (respects false) lease_lost →
  prepare self tenant_id job parent lease_lost s = (Ret (inl (target, c, ctx, a)), s') →
  runnable (c, ctx).
Proof.
  intros Hl H. unfold prepare in H. unbind H. unbind H.
  destruct (negb (view_enabled x)); [done|]. destruct (_ || _); [by unbind H|].
  unbind H. unbind H. injection H as _ <- <- _ _.
  match goal with E : resolve_collector _ _ _ _ _ = (Ret ?p, _) |- _ =>
    destruct p; eapply resolve_collector_runnable, E end.
  by apply preserves_raise_if_cancelled.
Qed.

Lemma preserves_prepare tenant_id job parent lease_lost :
  preserves (respects false) lease_lost →
  preserves (respects false) (prepare self tenant_id job parent lease_lost).
Proof. intros Hl. unfold prepare. operation. Qed.

#[local] Hint Resolve preserves_take_job preserves_handle preserves_prepare : preserves.

Lemma preserves_execute tenant_id job_id parent owner lease already_claimed lease_lost :
  preserves (respects false) lease_lost →
  preserves (respects false)
    (execute self tenant_id job_id parent owner lease already_claimed lease_lost).
Proof.
  intros Hl. unfold execute.
  preserves_step; [apply _|operation|intros o].
  preserves_step; [apply _|operation|intros taken].
  destruct taken as [job|]; [|operation].
  apply (preserves_bind_Ret _ (λ p, match p with
    | inl (_, c, ctx, _) => runnable (c, ctx) | inr _ => True end)).
  - operation.
  - intros s p s' E. unfold try_except in E.
    destruct (prepare _ _ _ _ _ s) as [[p'|e] s1] eqn:Ep.
    + injection E as <- _. destruct p' as [[[[target c] ctx] a]|]; [|done].
      by eapply prepare_runnable.
    + unbind E. injection E as <- _. done.
  - intros [[[[target c] ctx] a]|o']; [|operation]. intros Hrun. preserves_step; [apply _|..].
    + apply preserves_run_collector; [done|]. by apply preserves_raise_if_cancelled.
    + operation.
Qed.

(** ** Steps of the worker *)

#[local] Hint Resolve preserves_execute : preserves.
#[local] Hint Unfold with_session cancel_child run_child persist_expected_addresses
  recover_expired_owned_jobs list_queued_roots claim_one abandon_if_owned fail_owned_job
  finish_fanout except_exception : preserves.

Lemma preserves_execute_fanout tenant_id parent_id owner lease max_targets lease_lost :
  preserves (respects false) lease_lost →
  preserves (respects false)
    (execute_fanout self tenant_id parent_id owner lease max_targets lease_lost).
Proof. intros Hl. unfold execute_fanout. operation. Qed.

Lemma preserves_recover_expired_jobs : preserves (respects false) recover_expired_jobs.
Proof. unfold recover_expired_jobs. operation. Qed.

Lemma preserves_claim_one c tenant_id job_id :
  preserves (respects false) (claim_one c tenant_id job_id).
Proof. operation. Qed.

Lemma preserves_claim_queued_jobs c : preserves (respects false) (claim_queued_jobs c).
Proof. unfold claim_queued_jobs. operation. Qed.

Lemma preserves_heartbeat c tenant_id job_id owner :
  preserves (respects false) (heartbeat c tenant_id job_id owner).
Proof. unfold heartbeat. operation. Qed.

#[local] Hint Resolve preserves_execute_fanout : preserves.
Lemma preserves_execute_discovery_job tenant_id job_id owner lease claimed lease_lost :
  preserves (respects false) lease_lost →
  preserves (respects false)
    (execute_discovery_job self tenant_id job_id owner lease claimed lease_lost).
Proof. intros Hl. unfold execute_discovery_job. operation. Qed.

Lemma preserves_run_owned_job c tenant_id job_id owner lease_lost stopping :
  preserves (respects false) lease_lost → preserves (respects false) stopping →
  preserves (respects false) (run_owned_job self c tenant_id job_id owner lease_lost stopping).
Proof.
  intros Hl Hs. unfold run_owned_job. operation. apply preserves_execute_discovery_job. operation.
Qed.

#[local] Hint Resolve preserves_recover_expired_jobs preserves_claim_queued_jobs
  preserves_run_owned_job : preserves.
Lemma preserves_run c lease_lost stopping turns :
  (∀ o, preserves (respects false) (lease_lost o)) → preserves (respects false) stopping →
  preserves (respects false) (run self c lease_lost stopping turns).
Proof.
  intros Hl Hs. induction turns as [|turns IH]; cbn [run]; unfold poll;
    operation.
Qed.
End Steps.
End Execution.

(** * What an execution answers

    An execution that reports to have run the job leaves the job finished,
    durably, and answers the committed row.  [answers] is a partial-correctness
    logic over the computations [ExecutionTheorems] shows to keep the session
    well formed. *)

(** ** Answers from well-formed sessions *)

Definition answers {A} (m : DbM A) (Q : A → Session → Prop) : Prop :=
  ∀ s a s', session_wf false s → m s = (Ret a, s') → Q a s'.

Section Answers.
Context {A B : Type}.

Lemma answers_ret (a : A) Q : (∀ s, session_wf false s → Q a s) → answers (ret a) Q.
Proof. intros HQ s a' s' Hs [= <- <-]. auto. Qed.

Lemma answers_raise c msg Q : answers (raise (A := A) c msg) Q.
Proof. done. Qed.

Lemma answers_reraise e Q : answers (reraise (A := A) e) Q.
Proof. done. Qed.

Lemma preserves_Ret (m : DbM A) s r s' :
  preserves (respects false) m → session_wf false s → m s = (r, s') → session_wf false s'.
Proof. intros Hm Hs E. destruct (Hm s Hs) as [Hs' _]. by rewrite E in Hs'. Qed.

Lemma answers_bind (P : A → Session → Prop) (m : DbM A) (k : A → DbM B) Q :
  preserves (respects false) m → answers m P →
  (∀ a s b s', session_wf false s → P a s → k a s = (Ret b, s') → Q b s') →
  answers (bind m k) Q.
Proof.
  intros Hm HP Hk s b s' Hs H. apply bind_inv in H as [(a & s1 & E & H)|(? & _ & [=])].
  eapply Hk; [by eapply preserves_Ret|by eapply HP|exact H].
Qed.

Lemma answers_pure (P : A → Prop) (m : DbM A) (k : A → DbM B) Q :
  preserves (respects false) m → answers m (λ a _, P a) → (∀ a, P a → answers (k a) Q) →
  answers (bind m k) Q.
Proof.
  intros Hm HP Hk. eapply answers_bind; [done|exact HP|]. intros a s b s' Hs Ha. by apply Hk.
Qed.

Lemma answers_then (m : DbM A) (k : A → DbM B) Q :
  preserves (respects false) m → (∀ a, answers (k a) Q) → answers (bind m k) Q.
Proof.
  intros Hm Hk. eapply (answers_bind (λ _ _, True)); [done|done|].
  intros a s b s' Hs _. by apply Hk.
Qed.

Lemma answers_try (m : DbM A) h Q :
  preserves (respects false) m → answers m Q → (∀ e, answers (h e) Q) →
  answers (try_except m h) Q.
Proof.
  intros Hm HQ Hh s a s' Hs H. unfold try_except in H.
  destruct (m s) as [[a'|e] s1] eqn:E.
  - injection H as <- <-. by eapply HQ.
  - eapply (Hh e); [by eapply preserves_Ret|exact H].
Qed.
End Answers.

(** ** Statements after the final write *)

(** The view's jobs stay as they are. *)
Definition same_jobs (s s' : Session) : Prop := jobs (view s') = jobs (view s).

#[export] Instance same_jobs_preorder : PreOrder same_jobs.
Proof. split; [done|]. intros a b c. unfold same_jobs. congruence. Qed.

Lemma same_utc_now : preserves same_jobs utc_now.
Proof. done. Qed.

Lemma same_uuid4 : preserves same_jobs uuid4.
Proof. done. Qed.

Lemma same_query {A} (f : DB → A) : preserves same_jobs (query f).
Proof. done. Qed.

Lemma same_on_view f : (∀ d, jobs (f d) = jobs d) → preserves same_jobs (on_view f).
Proof. intros Hf s. apply Hf. Qed.

Lemma same_commit : preserves same_jobs commit.
Proof. done. Qed.

#[export] Hint Resolve same_utc_now same_uuid4 same_query same_commit : preserves.
#[export] Hint Extern 1 (preserves same_jobs (on_view _)) =>
  apply same_on_view; reflexivity : preserves.

Section Outcome.
Context {HF : FloatRepr} {HD : Digest} {HI : IpLibrary}.
Context (self : Services) (Hself : services_respect self).

#[local] Hint Unfold find_device_result ensure_device_result_for_failure started_or_now
  finalize_single_device_run amend_device_result : preserves.

Definition finished (j : Job.DiscoveryJobRecord) : Prop :=
  ∃ st : DiscoveryJobStatus, Job.state j = value st ∧ is_terminal st = true.

(** The row of the transaction, and the durable row. *)
Definition in_view (job_id : UUID) (j : Job.DiscoveryJobRecord) (s : Session) : Prop :=
  jobs (view s) !! job_id = Some j ∧ finished j.

Definition settled (job_id : UUID) (o : DiscoveryExecutionOutcome) (s : Session) : Prop :=
  executed o = true →
  jobs (committed s) !! job_id = Some (outcome_job o) ∧ finished (outcome_job o).

Lemma transition_answers tenant_id job_id target code message require owner :
  is_terminal target = true →
  answers (transition tenant_id job_id target code message require owner) (in_view job_id).
Proof.
  intros Ht s j s' Hs H.
  destruct (transition_cases _ _ _ _ _ _ _ _ _ _ _ Hs H)
    as [[e [=]]|(cur & now & s1 & j1 & _ & _ & _ & _ & _ & [= ->] & ->)].
  split; [apply lookup_insert_eq|]. exists target. split; [|done].
  unfold transition_values. rewrite Ht. by destruct code, message.
Qed.

Lemma finalise_cancellation_answers tenant_id job_id owner :
  answers (finalise_cancellation tenant_id job_id owner) (in_view job_id).
Proof.
  intros s j s' Hs H. unfold finalise_cancellation in H.
  erewrite bind_Ret in H by apply get_spec.
  destruct (jobs (view s) !! job_id) as [j0|] eqn:E; [|done].
  destruct (_ ≟ tenant_id); [|done].
  destruct (Job.state j0 ≟ value CANCELLED) eqn:Ec.
  - injection H as <- <-. split; [done|]. exists CANCELLED. by rewrite eqb_true in Ec.
  - destruct (is_none _); [done|].
    eapply (transition_answers tenant_id job_id CANCELLED); [done|exact Hs|exact H].
Qed.

Lemma mark_failed_answers tenant_id job_id code message owner :
  answers (mark_failed_after_rollback tenant_id job_id code message owner) (in_view job_id).
Proof.
  unfold mark_failed_after_rollback. apply answers_then; [auto with preserves|].
  intros _. by apply transition_answers.
Qed.

(** A statement after the final write. *)
Lemma view_step {A B} job_id j (m : DbM A) (k : A → DbM B) s b s' :
  preserves same_jobs m → in_view job_id j s → bind m k s = (Ret b, s') →
  ∃ a s1, in_view job_id j s1 ∧ k a s1 = (Ret b, s').
Proof.
  intros Hm [Hj Hf] H. apply bind_inv in H as [(a & s1 & E & H)|(? & _ & [=])].
  exists a, s1. split; [|done]. split; [|done]. specialize (Hm s). rewrite E in Hm.
  unfold same_jobs in Hm. cbn in Hm. by rewrite Hm.
Qed.

(** The commit after the final write. *)
Lemma commit_step {B} job_id j (k : unit → DbM B) s b s' :
  in_view job_id j s → bind commit k s = (Ret b, s') →
  ∃ s1, jobs (committed s1) !! job_id = Some j ∧ finished j ∧ k tt s1 = (Ret b, s').
Proof. intros [Hj Hf] H. by exists (snd (commit s)). Qed.

(** What follows the final write, up to the answer. *)
Ltac after_write Hv H :=
  lazymatch type of H with
  | bind commit _ _ = _ =>
      apply (commit_step _ _ _ _ _ _ Hv) in H as (? & ? & ? & H)
  | bind ?m _ _ = _ =>
      let Hm := fresh in assert (preserves same_jobs m) as Hm by operation;
      apply (view_step _ _ _ _ _ _ _ Hm Hv) in H as (? & ? & ? & H);
      clear Hv Hm; rename select (in_view _ _ _) into Hv; after_write Hv H
  end.

Lemma fail_chain_answers tenant_id job target mt :
  answers (fail_chain tenant_id job target mt) (settled (Job.id job)).
Proof.
  unfold fail_chain. destruct (chain_failure mt) as [code message].
  apply answers_then; [operation|intros _].
  eapply answers_bind; [operation|apply mark_failed_answers|].
  intros j s o s' Hs Hv H. after_write Hv H. injection H as <- <-. by intros _.
Qed.

(** The answer of a final write followed by its tail. *)
Ltac final_write lemma :=
  eapply answers_bind; [operation|apply lemma; reflexivity|];
  let Hv := fresh in let H := fresh in intros ? ? ? ? ? Hv H;
  after_write Hv H; try unbind H; injection H as <- <-; by intros _.

#[local] Hint Resolve preserves_raise_if_cancelled preserves_persist_discovery
  preserves_fail_chain preserves_build_transport_configs preserves_execute_multi_transport
  preserves_resolve_collector preserves_take_job preserves_handle preserves_prepare : preserves.
#[local] Hint Unfold build_evidence create_evidence record_device_result finish_attempt
  cancel_device_result resolve_target cancellation_requested suppress start finish fail : preserves.

Lemma amend_committed tenant_id job f s r s' :
  amend_device_result tenant_id job f s = (r, s') → committed s' = committed s.
Proof.
  unfold amend_device_result, find_device_result, query, gets, bind. cbn.
  destruct (List.find _ _); by intros [= _ <-].
Qed.

Lemma persist_discovery_answers tenant_id job target check configs selected payload st :
  preserves (respects false) check →
  answers (persist_discovery self tenant_id job target check configs selected payload st)
    (settled (Job.id job)).
Proof.
  intros Hcheck. destruct Hself as [_ _ Hp Hsn]. unfold persist_discovery.
  apply answers_then; [operation|intros _]. apply answers_then; [operation|intros _].
  destruct (match List.find _ _ with Some c => Some c | None => _ end) as [[c col]|]; [|done].
  do 8 (apply answers_then; [operation|intros ?]).
  eapply answers_bind; [operation|by apply transition_answers|].
  intros j s o s' Hs Hv H. after_write Hv H. unbind H.
  match goal with E : amend_device_result _ _ _ _ = _ |- _ => apply amend_committed in E as Hc end.
  injection H as <- <-. intros _. by rewrite Hc.
Qed.

Lemma execute_multi_transport_answers tenant_id job target parent lease_lost :
  preserves (respects false) lease_lost →
  answers (execute_multi_transport self tenant_id job target parent lease_lost)
    (settled (Job.id job)).
Proof.
  intros Hl. unfold execute_multi_transport, open_device_result.
  do 3 (apply answers_then; [operation|intros ?]).
  apply (answers_pure (λ cs, Forall config_respects (map fst cs))).
  { operation. }
  { intros s cs s' Hs E. eapply build_transport_configs_respect, E; [done|].
    by apply preserves_raise_if_cancelled. }
  intros configs Hcs. destruct (is_nil configs); [apply answers_then; [operation|done]|].
  apply answers_then; [by apply preserves_discover, Hself|intros mt].
  do 2 (apply answers_then; [operation|intros _]).
  destruct (discovery_payload mt) as [payload|]; [|apply fail_chain_answers].
  destruct (was_discovered mt); [|apply fail_chain_answers].
  eapply (answers_bind (λ p s', from_option (λ o, settled (Job.id job) o s') True p));
    [operation| |].
  - apply answers_try; [operation| |].
    + eapply answers_bind; [operation|apply persist_discovery_answers; operation|].
      intros o s o' s' _ Hset [= <- <-]. done.
    + intros e. destruct (_ || _); [apply answers_reraise|by apply answers_ret].
  - intros [o|] s o' s' Hs Hset H; [by injection H as <- <-|]. by eapply fail_chain_answers.
Qed.

(** The handlers. *)
Lemma cancellation_answers tenant_id job_id owner :
  answers
    (cancelled <- finalise_cancellation tenant_id job_id owner ;;
     commit ;;;
     ret {| outcome_job := cancelled; executed := true; evidence_count := 0 |})%py
    (settled job_id).
Proof.
  eapply answers_bind; [operation|apply finalise_cancellation_answers|].
  intros j s o s' Hs Hv H. after_write Hv H. injection H as <- <-. by intros _.
Qed.

Lemma handle_answers tenant_id job owner attempt exc :
  answers (handle tenant_id job owner attempt exc) (settled (Job.id job)).
Proof.
  unfold handle. destruct (isinstance exc DiscoveryCancellationRequestedError).
  { unfold on_cancelled. do 2 (apply answers_then; [operation|intros _]).
    apply cancellation_answers. }
  destruct (isinstance exc DiscoveryLeaseLostError).
  { unfold on_lease_lost. do 2 (apply answers_then; [operation|intros ?]).
    destruct a0; [|done]. by apply answers_ret. }
  destruct (isinstance exc Exception_); [|apply answers_reraise].
  unfold on_failure. apply answers_then; [operation|intros [|]].
  { apply answers_then; [operation|intros _]. apply cancellation_answers. }
  do 2 (apply answers_then; [operation|intros ?]).
  apply answers_try; [operation| |].
  - eapply answers_bind; [operation|apply mark_failed_answers|].
    intros j s o s' Hs Hv H. after_write Hv H. injection H as <- <-. by intros _.
  - intros e. destruct (isinstance e Exception_); [|apply answers_reraise].
    apply answers_then; [operation|intros _]. apply answers_reraise.
Qed.

(** The attempt itself. *)
Lemma run_collector_answers tenant_id job target check owner collector ctx attempt :
  runnable (collector, ctx) → preserves (respects false) check →
  answers (run_collector self tenant_id job target check owner collector ctx attempt)
    (settled (Job.id job)).
Proof.
  intros [[Hh Hc _] Hctx] Hcheck. destruct Hself as [_ _ Hp Hsn].
  unfold run_collector, collect_payload.
  do 16 (apply answers_then; [operation|intros ?]).
  eapply answers_bind; [operation|by apply transition_answers|].
  intros j s o s' Hs Hv H. after_write Hv H. injection H as <- <-. by intros _.
Qed.

(** What was taken is the job that was asked for. *)
Lemma take_job_answers tenant_id job_id owner lease already_claimed :
  answers (take_job tenant_id job_id owner lease already_claimed)
    (λ t _, match t with inl j => Job.id j = job_id | inr o => executed o = false end).
Proof.
  unfold take_job. apply answers_try; [operation| |].
  - destruct already_claimed.
    + intros s t s' Hs H. unfold owned_running_job in H. unbind H.
      destruct x as [j|]; [|done]. injection H as <- _.
      match goal with E : query _ _ = _ |- _ => injection E as E _ end.
      destruct (jobs (view s) !! job_id) as [j'|] eqn:Hj; [|done].
      cbn in *. destruct (_ && _); [|done]. simplify_eq.
      by apply (tw_key _ (sw_view _ _ Hs)).
    + intros s t s' Hs H. unbind H. unbind H. injection H as <- _.
      match goal with E : claim _ _ _ _ _ = _ |- _ =>
        apply (claim_Ret _ _ _ _ _ _ _ _ Hs) in E as (Hj & _ & Hs1) end.
      by apply (tw_key _ (sw_view _ _ Hs1)).
  - intros e. destruct (isinstance e _); [|apply answers_reraise].
    do 2 (apply answers_then; [operation|intros ?]).
    destruct a0; [by apply answers_ret|done].
Qed.

Lemma prepare_answers tenant_id job parent lease_lost :
  preserves (respects false) lease_lost →
  answers (prepare self tenant_id job parent lease_lost)
    (λ p s', match p with
             | inl (_, c, ctx, _) => runnable (c, ctx)
             | inr o => settled (Job.id job) o s' end).
Proof.
  intros Hl s p s' Hs H. pose proof H as H'. destruct p as [[[[target c] ctx] a]|o].
  { by eapply prepare_runnable. }
  unfold prepare in H. unbind H. unbind H. destruct (negb _); [done|].
  destruct (_ || _); [|do 2 unbind H; by injection H].
  unbind H. injection H as <- <-.
  eapply execute_multi_transport_answers; [done| |eassumption].
  do 2 (eapply preserves_Ret; [| |eassumption]; [operation|]). done.
Qed.

Lemma execute_answers tenant_id job_id parent owner lease already_claimed lease_lost :
  preserves (respects false) lease_lost →
  answers (execute self tenant_id job_id parent owner lease already_claimed lease_lost)
    (settled job_id).
Proof.
  intros Hl. unfold execute.
  apply answers_then; [operation|intros o].
  eapply answers_pure; [operation|apply take_job_answers|intros [job|out] Ht];
    [|apply answers_ret; intros s _ He; congruence].
  subst job_id. eapply answers_bind; [operation| |].
  - apply answers_try; [operation|by apply prepare_answers|intros e].
    eapply answers_bind; [operation|apply handle_answers|].
    intros out s out' s' _ Hset [= <- <-]. exact Hset.
  - intros [[[[target c] ctx] a]|out] s out' s' Hs Hp H; [|by injection H as <- <-].
    revert Hs H. apply answers_try; [| |intros e; apply handle_answers].
    + apply preserves_run_collector; [done..|]. by apply preserves_raise_if_cancelled.
    + apply run_collector_answers; [done|]. by apply preserves_raise_if_cancelled.
Qed.
End Outcome.

(** C2. An execution that reports to have run the job leaves it finished,
    whatever its collectors did or raised and whatever other transactions
    committed meanwhile: the committed row of the job is the one it answers, in a
    terminal state, and no row went backwards. *)
Theorem executed_job_is_settled {HF : FloatRepr} {HD : Digest} {HI : IpLibrary} self tenant_id job_id
    parent owner lease already_claimed lease_lost s o s'
    (Hself : services_respect self) (Hl : preserves (respects false) lease_lost)
    (Hs : session_wf false s)
    (H : execute self tenant_id job_id parent owner lease already_claimed lease_lost s = (Ret o, s'))
    (He : executed o = true) :
  jobs (committed s') !! job_id = Some (outcome_job o) ∧
  (∃ st : DiscoveryJobStatus, Job.state (outcome_job o) = value st ∧ is_terminal st = true) ∧
  table_evolves false (jobs (committed s)) (jobs (committed s')).
Proof.
  destruct (execute_answers self Hself tenant_id job_id parent owner lease already_claimed
    lease_lost Hl s o s' Hs H He) as [Hj Hf].
  split; [done|]. split; [done|].
  destruct (preserves_execute self Hself tenant_id job_id parent owner lease already_claimed
    lease_lost Hl s Hs) as [_ Hev]. by rewrite H in Hev.
Qed.

(** ** Witness *)

#[local] Existing Instance demo_float_repr.
#[local] Existing Instance demo_digest.

(** A collector that identifies a device, and the services around it. *)
Definition demo_collector : Collector := {|
  collector_name := "cisco_ios"; collector_capabilities := [Capability.SSH];
  c_health_check := λ ctx, ctx_cancellation_check ctx;
  c_collect := λ _, ret (JDict [("hostname"%string, JStr "r1")]);
  c_normalize := λ _ _, ret []; c_parser := None |}.

Definition demo_services : Services := {|
  collector_registry := [("cisco_ios"%string, demo_collector)];
  orchestrator := FallbackTheorems.orchestrator;
  process := λ _ _ _ _ _, ret [[("name"%string, JStr "r1")]];
  add_live_snapshot := λ _ _ _, ret tt |}.

Lemma demo_services_respect : services_respect demo_services.
Proof.
  split; cbn; intros; try apply preserves_ret; try apply preserves_raise; try apply _.
  rename select (_ ∈ _) into H. apply list_elem_of_singleton in H. injection H as -> ->.
  split; cbn; intros; [done|apply preserves_ret; apply _..].
Qed.

(** A job of the single host 10.0.0.9, on the single-transport path. *)
Definition host_target : Target.DiscoveryTargetRecord :=
  scope_target |> Target.set_metadata_json [("transport_name"%string, JStr "ssh")].

Definition execution_session : Session :=
  open_session (set_targets {[11%N := host_target]}
    (set_runs {[50%N := new_child_run 50 "acme" "lab" "10.0.0.9" 1 0 0]}
      (set_jobs (job_table [queued_job 1 11 None]) empty_db))) [].

Lemma execution_session_wf : session_wf false execution_session.
Proof.
  apply open_session_wf; [apply job_table_wf; solve_demo_wf|vm_compute; reflexivity|done].
Qed.

Lemma executed_job_is_settled_witness :
  match execute demo_services "acme" 1%N None (Some 7%N) 60%Q false (ret false) execution_session with
  | (Ret o, s') => jobs (committed s') !! 1%N = Some (outcome_job o) ∧
                   Job.state (outcome_job o) = value SUCCEEDED
  | _ => False
  end.
Proof.
  destruct (execute _ _ _ _ _ _ _ _ execution_session) as [[o|e] s'] eqn:E;
    [|vm_compute in E; discriminate].
  split.
  - apply (executed_job_is_settled demo_services "acme" 1%N None (Some 7%N) 60%Q false (ret false)
      execution_session o s' demo_services_respect (preserves_ret _ false) execution_session_wf E).
    vm_compute in E. injection E as <- _. reflexivity.
  - vm_compute in E. injection E as <- _. reflexivity.
Defined.
