(* ===== verification/WorkerTheorems.v ===== *)
(** * What the worker guarantees

    The loop keeps the job table's invariant; a claim it reports is a durable
    lease of its own; without competition a poll claims its whole work list; and
    the two places that name a failed job's result agree on all codes but one. *)

From S2P Require Import Prelude ResultStates Vocabulary Effects Json Records Contracts.
From S2P Require Import TransportPolicy Session JobRepository Durability Fanout Cancellation.
From S2P Require Import Durability JobBehaviour MultiTransport Redaction.
From S2P Require Import MultiTransport FallbackTheorems EvidenceStore Execution Worker.
From S2P Require Import ExecutionTheorems IPv4 FanoutTheorems Demo.
#[local] Open Scope Z_scope.

Section Loop.
Context {HF : FloatRepr} {HD : Digest} {HI : IpLibrary}.

(** C3. However many turns the worker takes, whatever its collectors do to the
    other tables and whatever other transactions commit, every committed job
    row stays well formed, keeps its identity and never moves back in its
    lifecycle, and no two active jobs share tenant and target. *)
Theorem worker_keeps_job_table self c lease_lost stopping turns s
    (Hself : services_respect self)
    (Hl : ∀ o, preserves (respects false) (lease_lost o))
    (Hst : preserves (respects false) stopping) (Hs : session_wf false s) :
  let t := jobs (committed s) in
  let t' := jobs (committed (snd (run self c lease_lost stopping turns s))) in
  (∀ k j, t' !! k = Some j → Job.id j = k ∧ job_wf j) ∧ index_holds t' = true ∧
  (∀ k j, t !! k = Some j → ∃ j', t' !! k = Some j' ∧ identity_of j' = identity_of j ∧
     job_rank j <= job_rank j' ∧ Job.attempts j <= Job.attempts j').
Proof.
  destruct (preserves_run self Hself c lease_lost stopping turns Hl Hst s Hs)
    as [[_ [Hk Hr] _ Hi _ _ _] He].
  split; [eauto|]. split; [done|]. intros k j Hj.
  destruct (He k j Hj) as (j' & Hj' & [H1 H2 H3 _ _]). eauto 10.
Qed.
End Loop.

(** ** Claims *)

(** The row is durably this owner's. *)
Definition owned_by (tenant_id : string) (job_id owner : UUID) (s : Session) : Prop :=
  ∃ j, jobs (committed s) !! job_id = Some j ∧ Job.tenant_id j = tenant_id ∧
    Job.state j = value RUNNING ∧ Job.execution_owner j = Some owner ∧
    is_not_none (Job.lease_expires_at j) = true.


Lemma claim_owned strict tenant_id job_id owner lease s j s' :
  session_wf strict s → claim tenant_id job_id (Some owner) lease s = (Ret j, s') →
  owned_by tenant_id job_id owner (snd (commit s')).
Proof.
  intros Hs H.
  destruct (claim_cases _ _ _ _ _ _ _ _ Hs H)
    as [[e [=]]|(o & now & s1 & j1 & Ho & _ & _ & _ & Hc & _ & ->)].
  rewrite (Ho owner eq_refl). apply claimable_key in Hc as [_ Ht].
  eexists. split; [apply lookup_insert_eq|]. by split.
Qed.

(** A claim attempt by the worker, in a session of its own. *)
Lemma claim_one_spec c tenant_id job_id s :
  job_id ≠ PROTECTED_DISCOVERY_JOB_ID →
  let owner := uuids s (drawn s) in
  let s0 := snd (rollback (snd (uuid4 s))) in
  claim_one c tenant_id job_id s =
  match claim tenant_id job_id (Some owner) (lease_seconds c) s0 with
  | (Ret _, s1) => (Ret [(tenant_id, job_id, owner)], snd (rollback (snd (commit s1))))
  | (Raise e, s1) =>
      if isinstance e Exception_ then (Ret [], snd (rollback (snd (rollback s1))))
      else (Raise e, snd (rollback s1))
  end.
Proof.
  intros Hp. unfold claim_one. rewrite <-eqb_false in Hp. rewrite Hp.
  unfold with_session, except_exception, try_except, try_finally, bind, modify, rollback, commit,
    ret, reraise. cbn -[isinstance]. unfold modify.
  destruct (claim _ _ _ _ _) as [[j|e] s1]; [done|]. by destruct (isinstance e Exception_).
Qed.

(** A claim the worker reports is durable: the committed row is running
    under the reported owner and a lease; at most one claim is reported, and
    the protected job is never claimed. *)
Theorem claim_one_owns c tenant_id job_id s l s'
    (Hs : session_wf false s) (H : claim_one c tenant_id job_id s = (Ret l, s')) :
  l = [] ∨ (job_id ≠ PROTECTED_DISCOVERY_JOB_ID ∧
            ∃ owner, l = [(tenant_id, job_id, owner)] ∧ owned_by tenant_id job_id owner s').
Proof.
  destruct (decide (job_id = PROTECTED_DISCOVERY_JOB_ID)) as [->|Hp].
  { by injection H as <- _; left. }
  rewrite claim_one_spec in H by done. cbn zeta in H.
  destruct (claim _ _ _ _ _) as [[j|e] s1] eqn:E.
  - right. split; [done|]. injection H as <- <-. eexists. split; [done|].
    eapply claim_owned in E; [exact E|].
    destruct (preserves_uuid4 false s Hs) as [H1 _]. by apply (preserves_rollback false _ H1).
  - destruct (isinstance e Exception_); [|done]. injection H as <- _. auto.
Qed.

(** ** A poll without competition *)

(** A queued root is claimed when nobody competes for it. *)
Lemma claim_one_alone c tenant_id job_id s j :
  session_wf false s → interference s = [] → Qle_bool (lease_seconds c) 0 = false →
  jobs (committed s) !! job_id = Some j → queued_root j = true → Job.tenant_id j = tenant_id →
  ∃ owner s', claim_one c tenant_id job_id s = (Ret [(tenant_id, job_id, owner)], s') ∧
    owned_by tenant_id job_id owner s' ∧ interference s' = [] ∧ session_wf false s' ∧
    ∀ k, k ≠ job_id → jobs (committed s') !! k = jobs (committed s) !! k.
Proof.
  intros Hs Hi Hl Hj Hq Ht.
  pose proof (tw_key _ (sw_committed _ _ Hs) _ _ Hj) as Hid.
  unfold queued_root in Hq. rewrite !andb_true_iff, negb_true_iff in Hq.
  destruct Hq as [[[[[Hst _] Hp] Ho] Hle] Hh]. rewrite Hid, eqb_false in Hp.
  set (s0 := snd (rollback (snd (uuid4 s)))).
  assert (session_wf false s0) as Hs0.
  { destruct (preserves_uuid4 false s Hs) as [H1 _]. by apply (preserves_rollback false _ H1). }
  assert (claimable tenant_id job_id j = true) as Hc.
  { unfold claimable. by rewrite Hid, Ht, !eqb_refl, Hst, Ho, Hle, Hh. }
  assert (session_wf false (snd (claim_one c tenant_id job_id s))) as Hs'.
  { apply (preserves_claim_one c tenant_id job_id s Hs). }
  rewrite (claim_one_spec c tenant_id job_id s Hp) in Hs' |- *. fold s0 in Hs' |- *.
  cbn zeta in Hs' |- *.
  assert (snd (concurrent_commit (snd (utc_now s0))) = snd (utc_now s0)) as Hcc.
  { unfold concurrent_commit. change (interference (snd (utc_now s0))) with (interference s).
    by rewrite Hi. }
  destruct (claim tenant_id job_id _ _ s0) as [r s1] eqn:E.
  rewrite (claim_body false tenant_id job_id _ _ s0 Hs0 Hp Hl), Hcc in E by eauto.
  change (jobs (view (snd (utc_now s0)))) with (jobs (committed s)) in E.
  rewrite Hj, Hc in E. injection E as <- <-. cbn in Hs'.
  eexists _, _. split; [reflexivity|]. split_and!; [|done|done|].
  - eexists. split; [apply lookup_insert_eq|]. by split.
  - intros k Hk. cbn. by rewrite lookup_insert_ne.
Qed.

Lemma claim_all_alone c js s :
  session_wf false s → interference s = [] → Qle_bool (lease_seconds c) 0 = false →
  NoDup (map Job.id js) →
  (∀ j, j ∈ js → queued_root j = true ∧ jobs (committed s) !! Job.id j = Some j) →
  ∃ ls s', map_m (λ '(tenant_id, job_id), claim_one c tenant_id job_id)
             (map (λ j, (Job.tenant_id j, Job.id j)) js) s = (Ret ls, s') ∧
    map (λ '(tenant_id, job_id, _), (tenant_id, job_id)) (concat ls)
      = map (λ j, (Job.tenant_id j, Job.id j)) js ∧
    (∀ tenant_id job_id owner, (tenant_id, job_id, owner) ∈ concat ls →
       owned_by tenant_id job_id owner s') ∧
    (∀ k, k ∉ map Job.id js → jobs (committed s') !! k = jobs (committed s) !! k).
Proof.
  intros Hs Hi Hl. revert s Hs Hi. induction js as [|j js IH]; intros s Hs Hi Hn Hjs.
  { exists [], s. split_and!; [done|done| |done]. intros t i o Hin. by apply not_elem_of_nil in Hin. }
  cbn in Hn. apply NoDup_cons in Hn as [Hni Hn].
  destruct (Hjs j) as [Hq Hj]; [apply list_elem_of_here|].
  destruct (claim_one_alone c _ _ s j Hs Hi Hl Hj Hq eq_refl)
    as (o & s1 & E & Hown & Hi1 & Hs1 & Hrest).
  destruct (IH s1 Hs1 Hi1 Hn) as (ls & s' & E' & Hmap & Hall & Hother).
  { intros j' Hj'. destruct (Hjs j') as [? Hl']; [by apply list_elem_of_further|].
    split; [done|]. rewrite Hrest; [done|]. intros He. apply Hni. rewrite <-He.
    by apply list_elem_of_fmap_2. }
  exists ([(Job.tenant_id j, Job.id j, o)] :: ls), s'. split; [|split; [|split]].
  - cbn [map map_m]. rewrite (bind_Ret _ _ _ _ _ E), (bind_Ret _ _ _ _ _ E'). done.
  - cbn. by rewrite Hmap.
  - intros t i w Hin. cbn in Hin. apply elem_of_cons in Hin as [[= -> -> ->]|Hin]; [|auto].
    destruct Hown as (r & Hr & Hown). exists r. by rewrite Hother.
  - intros k Hk. cbn in Hk. apply not_elem_of_cons in Hk as [Hk1 Hk2].
    by rewrite Hother, Hrest.
Qed.

(** Without competition a poll claims its whole work list: every queued
    root among the oldest [claim_limit] is then durably running under the
    owner the worker reports for it. *)
Theorem claim_queued_jobs_live c s roots s1
    (Hs : session_wf false s) (Hi : interference s = [])
    (Hl : Qle_bool (lease_seconds c) 0 = false)
    (Hr : list_queued_roots (claim_limit c) (snd (rollback s)) = (Ret roots, s1)) :
  ∃ claimed s', claim_queued_jobs c s = (Ret claimed, s') ∧
    map (λ '(tenant_id, job_id, _), (tenant_id, job_id)) claimed = roots ∧
    ∀ tenant_id job_id owner, (tenant_id, job_id, owner) ∈ claimed →
      owned_by tenant_id job_id owner s'.
Proof.
  assert (session_wf false (snd (rollback s))) as Hs0 by (by apply preserves_rollback).
  destruct (queued_roots_distinct (claim_limit c) (snd (rollback s)) (sw_view _ _ Hs0))
    as (js & Hlist & Hn & Hjs).
  rewrite Hr in Hlist. injection Hlist as -> ->.
  destruct (claim_all_alone c js (snd (rollback (snd (rollback s)))))
    as (ls & s' & E & Hmap & Hall & _); [by apply preserves_rollback|done..|].
  exists (concat ls), s'. split; [|done]. unfold claim_queued_jobs.
  assert (with_session (list_queued_roots (claim_limit c)) s
    = (Ret (map (λ j, (Job.tenant_id j, Job.id j)) js), snd (rollback (snd (rollback s))))) as Ew.
  { unfold with_session. erewrite bind_Ret by reflexivity. unfold try_finally.
    change (snd (rollback s)) with (set_locked ∅ (set_view (committed s) s)) in Hr.
    by rewrite Hr. }
  rewrite (bind_Ret _ _ _ _ _ Ew), (bind_Ret _ _ _ _ _ E). done.
Qed.

(** ** The result of a failed job *)

(** The two classifications of a failed job's device agree on every failure
    code but [TRANSPORT_UNAVAILABLE]: execution records such a device as reachable
    without management, the fan-out as unverified. *)
Theorem failure_results_agree (job : Job.DiscoveryJobRecord) (code : DiscoveryFailureCode)
    (Hst : Job.state job = value FAILED) (Hc : Job.failure_code job = Some (value code)) :
  (child_result_state job = failure_result_state code ↔ code ≠ FailureCode.TRANSPORT_UNAVAILABLE) ∧
  (code = FailureCode.TRANSPORT_UNAVAILABLE →
     child_result_state job = ResultState.UNVERIFIED ∧
     failure_result_state code = ResultState.REACHABLE_NO_MANAGEMENT).
Proof.
  unfold child_result_state. rewrite Hst, Hc.
  split; [split|intros ->; by vm_compute]; destruct code; try done; by vm_compute.
Qed.

(** The worker accepts exactly the configurations whose lease survives a
    missed heartbeat: with one beat lost, the next comes before the lease runs
    out. *)
Theorem check_config_spec c :
  (check_config c = Ret c ∧ (heartbeat_interval_seconds c * 2 < lease_seconds c)%Q) ∨
  ((∃ msg, check_config c = Raise (Exn ValueError msg)) ∧
   (lease_seconds c <= heartbeat_interval_seconds c * 2)%Q).
Proof.
  unfold check_config. destruct (Qle_bool _ _) eqn:E.
  - right. split; [by eexists|]. by apply Qle_bool_iff.
  - left. split; [done|]. apply Qnot_le_lt. rewrite <-Qle_bool_iff. congruence.
Qed.

(** ** Witnesses *)

#[local] Existing Instance demo_float_repr.
#[local] Existing Instance demo_digest.

Definition demo_config : WorkerConfig := {|
  lease_seconds := 60%Q; heartbeat_interval_seconds := 15%Q; claim_limit := 4 |}.

(** Two turns of the worker, whose jobs ask a heartbeat whether their lease is
    lost, next to a worker that claims. *)
Definition contended_session : Session :=
  open_session (view execution_session) [other_claims 1; other_claims 2].

Lemma worker_keeps_job_table_witness :
  let lease_lost o := heartbeat demo_config "acme" 1%N o in
  index_holds (jobs (committed
    (snd (run demo_services demo_config lease_lost (ret false) 2 contended_session)))) = true.
Proof.
  intros lease_lost.
  apply (worker_keeps_job_table demo_services demo_config lease_lost (ret false) 2 contended_session).
  - apply demo_services_respect.
  - intros o. apply preserves_heartbeat.
  - apply preserves_ret, _.
  - apply open_session_wf; [apply job_table_wf; solve_demo_wf|vm_compute; reflexivity|].
    repeat apply Forall_cons_2; try apply Forall_nil_2; apply rely_update; intros j; apply claimed_step.
Defined.

Lemma claim_one_owns_witness :
  match claim_one demo_config "acme" 1%N execution_session with
  | (Ret l, s') => ∃ owner, l = [("acme"%string, 1%N, owner)] ∧ owned_by "acme" 1%N owner s'
  | _ => False
  end.
Proof.
  destruct (claim_one demo_config "acme" 1%N execution_session) as [[l|e] s'] eqn:E;
    [|vm_compute in E; discriminate].
  destruct (claim_one_owns _ _ _ _ _ _ execution_session_wf E) as [->|[_ H]]; [|exact H].
  vm_compute in E. discriminate.
Defined.

Lemma claim_queued_jobs_live_witness :
  ∃ owner s', claim_queued_jobs demo_config execution_session = (Ret [("acme"%string, 1%N, owner)], s')
    ∧ owned_by "acme" 1%N owner s'.
Proof.
  destruct (claim_queued_jobs_live demo_config execution_session [("acme"%string, 1%N)]
    (snd (rollback execution_session)) execution_session_wf eq_refl eq_refl)
    as (l & s' & E & Hm & Hall); [vm_compute; reflexivity|].
  destruct l as [|[[t i] o] [|]]; try discriminate Hm. injection Hm as -> ->.
  exists o, s'. split; [exact E|]. apply Hall, list_elem_of_here.
Defined.

Lemma failure_results_agree_witness :
  let job := transition_values FAILED 5 (Some (value FailureCode.HOST_UNREACHABLE)) None
               (running_job 1 11 None 7) in
  child_result_state job = failure_result_state FailureCode.HOST_UNREACHABLE.
Proof.
  intros job.
  apply (failure_results_agree job FailureCode.HOST_UNREACHABLE); [reflexivity|reflexivity|discriminate].
Defined.
