(* ===== verification/Resilience.v ===== *)
(** * Resilience of the transports

    Three machines every transport call goes through, the circuit breaker, the token bucket
    and the retries, and the pool its sessions are kept in; each with its invariant and what
    it guarantees. *)

From Stdlib Require Import Lqa Qminmax.
From S2P Require Import Prelude Vocabulary Effects.

(** * The transport circuit breaker ([transports/circuit_breaker.py])

    The state machine that stops requests after repeated failures and probes
    again after a recovery time.  Each method takes the instant it reads the
    clock at. *)
#[local] Open Scope Z_scope.

Inductive CircuitBreakerState := CLOSED | OPEN | HALF_OPEN.

#[export] Instance CircuitBreakerState_eq_dec : EqDecision CircuitBreakerState.
Proof. solve_decision. Defined.

Record CircuitBreaker := {
  failure_threshold : Z;
  recovery_timeout_seconds : float;
  half_open_success_threshold : Z;
  state : CircuitBreakerState;
  failure_count : Z;
  half_open_success_count : Z;
  opened_at : option datetime;
}.

Definition eta_breaker (b : CircuitBreaker) : CircuitBreaker := {|
  failure_threshold := failure_threshold b;
  recovery_timeout_seconds := recovery_timeout_seconds b;
  half_open_success_threshold := half_open_success_threshold b;
  state := state b; failure_count := failure_count b;
  half_open_success_count := half_open_success_count b; opened_at := opened_at b |}.

Definition set_state v (b : CircuitBreaker) : CircuitBreaker :=
  ltac:(record_with eta_breaker state b v).
Definition set_failure_count v (b : CircuitBreaker) : CircuitBreaker :=
  ltac:(record_with eta_breaker failure_count b v).
Definition set_half_open_success_count v (b : CircuitBreaker) : CircuitBreaker :=
  ltac:(record_with eta_breaker half_open_success_count b v).
Definition set_opened_at v (b : CircuitBreaker) : CircuitBreaker :=
  ltac:(record_with eta_breaker opened_at b v).

(** A breaker as the constructor makes it. *)
Definition new_breaker (threshold : Z) (recovery : float) (half_open : Z) : CircuitBreaker := {|
  failure_threshold := threshold; recovery_timeout_seconds := recovery;
  half_open_success_threshold := half_open; state := CLOSED; failure_count := 0;
  half_open_success_count := 0; opened_at := None |}.

(** [Resilience.allow_request]. *)
Definition allow_request (now : datetime) (b : CircuitBreaker) : bool * CircuitBreaker :=
  match state b with
  | CLOSED => (true, b)
  | OPEN =>
      match opened_at b with
      | None => (false, b)
      | Some t =>
          if timedelta_seconds (recovery_timeout_seconds b) <=? now - t
          then (true, b |> set_state HALF_OPEN |> set_half_open_success_count 0)
          else (false, b)
      end
  | HALF_OPEN => (true, b)
  end.

(** [Resilience.record_success]. *)
Definition record_success (b : CircuitBreaker) : CircuitBreaker :=
  let b := set_failure_count 0 b in
  match state b with
  | HALF_OPEN =>
      let b := set_half_open_success_count (half_open_success_count b + 1) b in
      if half_open_success_threshold b <=? half_open_success_count b
      then b |> set_state CLOSED |> set_half_open_success_count 0
      else b
  | _ => b
  end.

(** [Resilience.record_failure]. *)
Definition record_failure (now : datetime) (b : CircuitBreaker) : CircuitBreaker :=
  let b := b |> set_failure_count (failure_count b + 1) |> set_half_open_success_count 0 in
  if failure_threshold b <=? failure_count b
  then b |> set_state OPEN |> set_opened_at (Some now)
  else b.

(** Failures at the given instants, oldest first. *)
Definition record_failures (ts : list datetime) (b : CircuitBreaker) : CircuitBreaker :=
  fold_left (λ b t, record_failure t b) ts b.

(** ** Invariant *)

(** The calls of the manager on its breaker. *)
Inductive breaker_call := Allow (now : datetime) | Success | Failure (now : datetime).

Definition breaker_run (b : CircuitBreaker) (c : breaker_call) : CircuitBreaker :=
  match c with
  | Allow now => snd (allow_request now b)
  | Success => record_success b
  | Failure now => record_failure now b
  end.

Record breaker_wf (b : CircuitBreaker) : Prop := {
  bw_count : 0 <= failure_count b;
  bw_half : 0 <= half_open_success_count b;
  bw_closed : state b = CLOSED → failure_count b < failure_threshold b;
  bw_opened : state b ≠ CLOSED → is_not_none (opened_at b) = true;
  bw_probing : state b = HALF_OPEN →
    half_open_success_count b < half_open_success_threshold b;
}.

Lemma new_breaker_wf threshold recovery half_open :
  0 < threshold → breaker_wf (new_breaker threshold recovery half_open).
Proof. by split; cbn; try lia. Qed.

Lemma breaker_run_params b c :
  failure_threshold (breaker_run b c) = failure_threshold b ∧
  half_open_success_threshold (breaker_run b c) = half_open_success_threshold b ∧
  recovery_timeout_seconds (breaker_run b c) = recovery_timeout_seconds b.
Proof.
  destruct c; cbn; unfold allow_request, record_success, record_failure; cbn;
    repeat case_match; done.
Qed.

Lemma breaker_run_wf b c :
  0 < failure_threshold b → 0 < half_open_success_threshold b →
  breaker_wf b → breaker_wf (breaker_run b c).
Proof.
  destruct b as [ft rt ht st fc hs op]. cbn. intros Hf Hh [H1 H2 H3 H4 H5]; cbn in *.
  destruct st, c; cbn; unfold allow_request, record_success, record_failure; cbn;
    repeat case_match; cbn in *; split; cbn; naive_solver lia.
Qed.

Lemma breaker_runs_wf cs b :
  0 < failure_threshold b → 0 < half_open_success_threshold b → breaker_wf b →
  breaker_wf (fold_left breaker_run cs b) ∧
  failure_threshold (fold_left breaker_run cs b) = failure_threshold b ∧
  half_open_success_threshold (fold_left breaker_run cs b) = half_open_success_threshold b ∧
  recovery_timeout_seconds (fold_left breaker_run cs b) = recovery_timeout_seconds b.
Proof.
  revert b. induction cs as [|c cs IH]; intros b Hf Hh Hb; [done|].
  destruct (breaker_run_params b c) as (E1 & E2 & E3). cbn.
  destruct (IH (breaker_run b c)) as (Hw & F1 & F2 & F3); rewrite ?E1, ?E2; auto using breaker_run_wf.
  split; [done|]. by rewrite F1, F2, F3, E1, E2, E3.
Qed.

(** ** Failures in a row *)

Lemma record_failures_params ts b :
  failure_threshold (record_failures ts b) = failure_threshold b ∧
  half_open_success_threshold (record_failures ts b) = half_open_success_threshold b ∧
  recovery_timeout_seconds (record_failures ts b) = recovery_timeout_seconds b ∧
  failure_count (record_failures ts b) = failure_count b + Z.of_nat (length ts).
Proof.
  revert b. induction ts as [|t ts IH]; intros b; cbn [record_failures fold_left length]; [by split_and!; try lia|].
  destruct (IH (record_failure t b)) as (E1 & E2 & E3 & E4). unfold record_failures in *.
  rewrite E1, E2, E3, E4. unfold record_failure. cbn. case_match; cbn; split_and!; done || lia.
Qed.

(** Failures in a row trip the breaker: as soon as they reach the
    threshold, whatever happened before, it is open since the last of them and
    refuses every request, unchanged, until the recovery time has passed; the
    first request after that is let through as a probe, whose failure opens it
    again and whose success, where one suffices, closes it with no failure left. *)
Theorem breaker_trips_and_recovers cs b0 ts t now
    (Hf : 0 < failure_threshold b0) (Hh : 0 < half_open_success_threshold b0)
    (Hb : breaker_wf b0) (Hn : failure_threshold b0 <= Z.of_nat (length (ts ++ [t]))) :
  let b := record_failures (ts ++ [t]) (fold_left breaker_run cs b0) in
  let due := timedelta_seconds (recovery_timeout_seconds b0) <=? now - t in
  let probe := b |> set_state HALF_OPEN |> set_half_open_success_count 0 in
  state b = OPEN ∧ opened_at b = Some t ∧
  allow_request now b = (if due then (true, probe) else (false, b)) ∧
  (∀ later, state (record_failure later probe) = OPEN ∧
            opened_at (record_failure later probe) = Some later) ∧
  (half_open_success_threshold b0 = 1 →
   state (record_success probe) = CLOSED ∧ failure_count (record_success probe) = 0).
Proof.
  destruct (breaker_runs_wf cs b0 Hf Hh Hb) as ([Hc0 _ _ _ _] & F1 & F2 & F3).
  set (b1 := fold_left breaker_run cs b0) in *.
  destruct (record_failures_params ts b1) as (E1 & E2 & E3 & E4).
  rewrite length_app in Hn. cbn in Hn.
  intros b due probe.
  assert (b = record_failure t (record_failures ts b1)) as Hbt.
  { subst b. unfold record_failures. by rewrite fold_left_app. }
  assert (failure_threshold b1 <= failure_count (record_failures ts b1) + 1) as Htrip by lia.
  assert (state b = OPEN ∧ opened_at b = Some t ∧ failure_threshold b <= failure_count b ∧
    recovery_timeout_seconds b = recovery_timeout_seconds b0 ∧
    half_open_success_threshold b = half_open_success_threshold b0) as (Hst & Hop & Hge & Hr & Hhs).
  { rewrite Hbt. unfold record_failure. cbn. rewrite E1.
    destruct (Z.leb_spec (failure_threshold b1) (failure_count (record_failures ts b1) + 1)); [|lia].
    cbn. rewrite E1, E2, E3. done. }
  split; [done|]. split; [done|]. split; [|split].
  - unfold allow_request. rewrite Hst, Hop, Hr. done.
  - intros later. unfold record_failure. cbn.
    destruct (Z.leb_spec (failure_threshold b) (failure_count b + 1)); [done|lia].
  - intros H1. unfold record_success. cbn. rewrite Hhs, H1. done.
Qed.

(** A probe that needs more than one success: its first success clears the
    failures, so that one failure after it leaves the breaker letting everything
    through. *)
Lemma half_open_survives_failure :
  let b := fold_left breaker_run [Failure 0; Allow 40000000; Success; Failure 41000000]
             (new_breaker 2 30%Q 2 |> set_failure_count 1) in
  state b = HALF_OPEN ∧ fst (allow_request 41000000 b) = true.
Proof. vm_compute. done. Qed.

Lemma breaker_trips_and_recovers_witness :
  let b := record_failures ([1; 2] ++ [3]) (new_breaker 3 30%Q 1) in
  state b = OPEN ∧ fst (allow_request 29000003 b) = false ∧ fst (allow_request 30000003 b) = true.
Proof.
  assert (breaker_wf (new_breaker 3 30%Q 1)) as Hb by (by apply new_breaker_wf).
  destruct (breaker_trips_and_recovers [] (new_breaker 3 30%Q 1) [1; 2] 3 29000003
    ltac:(done) ltac:(done) Hb ltac:(done)) as (H1 & _ & H2 & _).
  destruct (breaker_trips_and_recovers [] (new_breaker 3 30%Q 1) [1; 2] 3 30000003
    ltac:(done) ltac:(done) Hb ltac:(done)) as (_ & _ & H3 & _).
  split; [exact H1|]. cbn [fold_left] in H2, H3. split; [rewrite H2|rewrite H3]; reflexivity.
Defined.

(** * The token bucket ([transports/rate_limiter.py])

    [time.monotonic()] is a rational number of seconds that each method reads
    once; [asyncio.sleep] ends no earlier than it was asked to, and how much
    later is an argument of [acquire]. *)

Record RateLimiter := {
  tokens_per_second : float;
  capacity : float;
  tokens : float;
  last_refill : float;
}.

(** [Resilience.__post_init__]. *)
Definition new_limiter (rate : float) (cap : option float) (now : float) : outcome RateLimiter :=
  if Qle_bool rate 0 then raise_ ValueError "Token rate must be positive."
  else
    let c := from_option (λ c, c) rate cap in
    if Qle_bool c 0 then raise_ ValueError "Capacity must be positive."
    else Ret {| tokens_per_second := rate; capacity := c; tokens := c; last_refill := now |}.

(** [min(a, b)]. *)
Definition qmin (a b : float) : float := if Qle_bool a b then a else b.

(** [Resilience._refill]. *)
Definition refill (now : float) (l : RateLimiter) : RateLimiter := {|
  tokens_per_second := tokens_per_second l; capacity := capacity l;
  tokens := qmin (capacity l) (tokens l + (now - last_refill l) * tokens_per_second l)%Q;
  last_refill := now |}.

Definition take_tokens (n : float) (l : RateLimiter) : RateLimiter := {|
  tokens_per_second := tokens_per_second l; capacity := capacity l;
  tokens := (tokens l - n)%Q; last_refill := last_refill l |}.

(** [Resilience.try_acquire]. *)
Definition try_acquire (now n : float) (l : RateLimiter) : outcome bool * RateLimiter :=
  if Qle_bool n 0 then (raise_ ValueError "Token count must be positive.", l)
  else
    let l := refill now l in
    if Qle_bool n (tokens l) then (Ret true, take_tokens n l) else (Ret false, l).

(** [Resilience.acquire]: the loop, from the instant [now], for at most [turns]
    turns; [late k] is what the [k]-th sleep exceeds its duration by.  The answer
    is the instant it returns at and the bucket it leaves. *)
Fixpoint acquire_loop (turns : nat) (late : nat → float) (now n : float) (l : RateLimiter)
    : option (float * RateLimiter) :=
  match turns with
  | O => None
  | S turns =>
      let l := refill now l in
      if Qle_bool n (tokens l) then Some (now, take_tokens n l)
      else
        let deficit := (n - tokens l)%Q in
        acquire_loop turns (λ k, late (S k))
          (now + deficit / tokens_per_second l + late O)%Q n l
  end.

Definition acquire (turns : nat) (late : nat → float) (now n : float) (l : RateLimiter)
    : option (outcome (float * RateLimiter)) :=
  if Qle_bool n 0 then Some (raise_ ValueError "Token count must be positive.")
  else Ret <$> acquire_loop turns late now n l.

(** ** Invariant *)

#[local] Open Scope Q_scope.

Record limiter_wf (l : RateLimiter) : Prop := {
  lw_rate : 0 < tokens_per_second l;
  lw_capacity : 0 < capacity l;
  lw_tokens : 0 <= tokens l <= capacity l;
}.

Lemma qmin_spec a b : (qmin a b == a /\ a <= b) \/ (qmin a b == b /\ b < a).
Proof.
  unfold qmin. destruct (Qle_bool a b) eqn:E.
  - left. split; [reflexivity|]. by apply Qle_bool_iff.
  - right. split; [reflexivity|]. apply Qnot_le_lt. rewrite <-Qle_bool_iff. congruence.
Qed.

Lemma Qle_bool_false a b : Qle_bool a b = false ↔ b < a.
Proof.
  split.
  - intros E. apply Qnot_le_lt. rewrite <-Qle_bool_iff. congruence.
  - intros Hlt. destruct (Qle_bool a b) eqn:E; [|done]. apply Qle_bool_iff in E. lra.
Qed.

Lemma new_limiter_wf rate cap now l : new_limiter rate cap now = Ret l → limiter_wf l.
Proof.
  unfold new_limiter. destruct (Qle_bool rate 0) eqn:E1; [done|].
  destruct (Qle_bool (from_option _ _ _) 0) eqn:E2; [done|]. intros H. injection H as <-.
  apply Qle_bool_false in E1, E2. split; cbn; lra.
Qed.

Lemma refill_wf now l :
  limiter_wf l → last_refill l <= now →
  limiter_wf (refill now l) ∧ tokens l <= tokens (refill now l) ∧
  tokens (refill now l) <= tokens l + (now - last_refill l) * tokens_per_second l.
Proof.
  intros [Hr Hc Ht] Hn.
  assert (0 <= (now - last_refill l) * tokens_per_second l) by (apply Qmult_le_0_compat; lra).
  destruct (qmin_spec (capacity l) (tokens l + (now - last_refill l) * tokens_per_second l))
    as [[E ?]|[E ?]]; (split; [split|]); cbn; rewrite ?E; lra.
Qed.

Lemma take_wf n l : limiter_wf l → 0 < n → n <= tokens l → limiter_wf (take_tokens n l).
Proof. intros [? ? ?] ? ?. split; cbn; lra. Qed.

(** ** The rate is kept *)

(** Calls of [try_acquire], with the tokens they were granted. *)
Fixpoint granted (calls : list (float * float)) (l : RateLimiter) : float * RateLimiter :=
  match calls with
  | [] => (0, l)
  | (now, n) :: calls =>
      let '(r, l) := try_acquire now n l in
      let '(g, l) := granted calls l in
      (match r with Ret true => n + g | _ => g end, l)
  end.

(** The instants of the calls do not decrease. *)
Fixpoint in_order (now : float) (calls : list (float * float)) : Prop :=
  match calls with
  | [] => True
  | (t, _) :: calls => now <= t ∧ in_order t calls
  end.

(** The last instant of a sequence of calls. *)
Definition last_instant (now : float) (calls : list (float * float)) : float :=
  from_option fst now (last calls).

Lemma try_acquire_balance now n l :
  limiter_wf l → last_refill l <= now →
  let '(r, l') := try_acquire now n l in
  limiter_wf l' ∧ tokens_per_second l' = tokens_per_second l ∧ capacity l' = capacity l ∧
  last_refill l' <= now ∧ last_refill l <= last_refill l' ∧
  (match r with Ret true => n | _ => 0 end) + tokens l'
    <= tokens l + (last_refill l' - last_refill l) * tokens_per_second l.
Proof.
  intros Hl Hn. unfold try_acquire. destruct (Qle_bool n 0) eqn:En.
  { unfold raise_. cbn. split_and!; try done; lra. }
  apply Qle_bool_false in En. destruct (refill_wf now l Hl Hn) as (Hw & _ & Hle).
  destruct (Qle_bool n (tokens (refill now l))) eqn:Et.
  - apply Qle_bool_iff in Et. split_and!; try done; [by apply take_wf| |]; cbn in *; lra.
  - split_and!; try done; cbn in *; lra.
Qed.

Lemma granted_balance calls : ∀ l now,
  limiter_wf l → last_refill l <= now → in_order now calls →
  let '(g, l') := granted calls l in
  limiter_wf l' ∧ tokens_per_second l' = tokens_per_second l ∧
  last_refill l <= last_refill l' ∧ last_refill l' <= last_instant now calls ∧
  now <= last_instant now calls ∧
  g + tokens l' <= tokens l + (last_refill l' - last_refill l) * tokens_per_second l.
Proof.
  induction calls as [|[t n] calls IH]; intros l now Hl Hn Ho.
  { cbn. unfold last_instant. cbn. split_and!; try done; lra. }
  cbn [in_order granted] in *. destruct Ho as [Ht Ho].
  assert (last_refill l <= t) as Hlt by lra.
  pose proof (try_acquire_balance t n l Hl Hlt) as Hone.
  destruct (try_acquire t n l) as [r l1]. destruct Hone as (Hw1 & Hr1 & _ & Hle1 & Hge1 & Hb1).
  specialize (IH l1 t Hw1 Hle1 Ho). destruct (granted calls l1) as [g l2].
  destruct IH as (Hw2 & Hr2 & Hge2 & Hle2 & Hlast & Hb2).
  assert (last_instant now ((t, n) :: calls) = last_instant t calls) as ->.
  { unfold last_instant. rewrite last_cons. by destruct (last calls). }
  rewrite Hr1 in Hr2, Hb2. split_and!; try done; try lra.
  destruct r as [[]|]; cbn in *; lra.
Qed.

(** The limiter keeps its rate: over any sequence of requests, the tokens
    granted never exceed what the bucket held at first plus the rate times the
    time that has passed since. *)
Theorem rate_is_kept calls l now
    (Hl : limiter_wf l) (Hn : last_refill l <= now) (Ho : in_order now calls) :
  fst (granted calls l)
    <= tokens l + (last_instant now calls - last_refill l) * tokens_per_second l.
Proof.
  pose proof (granted_balance calls l now Hl Hn Ho) as H.
  destruct (granted calls l) as [g l']. destruct H as ([_ _ Ht] & _ & _ & Hle & _ & Hb).
  assert ((last_refill l' - last_refill l) * tokens_per_second l
    <= (last_instant now calls - last_refill l) * tokens_per_second l).
  { apply Qmult_le_compat_r; [lra|]. destruct Hl; lra. }
  cbn. lra.
Qed.

(** ** Waiting ends *)

Lemma acquire_loop_enough late now n l turns :
  limiter_wf l → last_refill l <= now → 0 < n → n <= capacity l →
  (∀ k, 0 <= late k) →
  ∃ t l', acquire_loop (S (S turns)) late now n l = Some (t, l') ∧ limiter_wf l' ∧ now <= t ∧
    t <= now + n / tokens_per_second l + late O.
Proof.
  intros Hl Hn H0 Hcap Hlate. destruct (refill_wf now l Hl Hn) as (Hw & _ & _).
  assert (0 < tokens_per_second l) as Hrate by (destruct Hl; lra).
  assert (0 <= n / tokens_per_second l) as Hnr.
  { apply Qle_shift_div_l; [done|]. lra. }
  cbn [acquire_loop]. set (l1 := refill now l) in *.
  destruct (Qle_bool n (tokens l1)) eqn:E1.
  { apply Qle_bool_iff in E1. exists now, (take_tokens n l1). specialize (Hlate O).
    split_and!; [done|by apply take_wf|lra|lra]. }
  apply Qle_bool_false in E1. change (tokens_per_second l1) with (tokens_per_second l).
  set (d := (n - tokens l1) / tokens_per_second l).
  assert (0 <= d) as Hd by (apply Qle_shift_div_l; [done|]; lra).
  assert (d * tokens_per_second l == n - tokens l1) as Hdr by (unfold d; field; lra).
  assert (d <= n / tokens_per_second l) as Hdn.
  { destruct Hw as [_ _ Ht]. unfold d. apply Qle_shift_div_l; [done|]. fold d. rewrite Hdr. lra. }
  set (t := now + d + late O). pose proof (Hlate O) as Hl0.
  assert (last_refill l1 <= t) as Ht1 by (subst l1 t; cbn; lra).
  destruct (refill_wf t l1 Hw Ht1) as (Hw2 & _ & _).
  assert (n <= tokens (refill t l1)) as Henough.
  { change (tokens (refill t l1))
      with (qmin (capacity l) (tokens l1 + (t - now) * tokens_per_second l)).
    destruct (qmin_spec (capacity l) (tokens l1 + (t - now) * tokens_per_second l))
      as [[E ?]|[E ?]]; rewrite E; [done|].
    assert (d * tokens_per_second l <= (t - now) * tokens_per_second l); [|lra].
    apply Qmult_le_compat_r; [subst t; lra|lra]. }
  destruct (Qle_bool n (tokens (refill t l1))) eqn:E2;
    [|apply Qle_bool_false in E2; lra].
  exists t, (take_tokens n (refill t l1)). split_and!; [done|by apply take_wf|subst t; lra|].
  subst t. lra.
Qed.

Lemma acquire_loop_never late n turns : ∀ now l,
  capacity l < n → acquire_loop turns late now n l = None.
Proof.
  induction turns as [|turns IH] in late |- *; intros now l Hc; [done|]. cbn [acquire_loop].
  destruct (Qle_bool n (tokens (refill now l))) eqn:E; [|by apply IH].
  apply Qle_bool_iff in E. change (tokens (refill now l))
    with (qmin (capacity l) (tokens l + (now - last_refill l) * tokens_per_second l)) in E.
  destruct (qmin_spec (capacity l) (tokens l + (now - last_refill l) * tokens_per_second l))
    as [[Em ?]|[Em ?]]; rewrite Em in E; lra.
Qed.

(** [acquire] returns exactly when the bucket can ever hold what is asked:
    then two turns of its loop are enough and it waits no longer than the tokens
    take to arrive; otherwise no number of turns suffices.  In particular a
    limiter whose rate is below one token per second and that was given no
    capacity never grants a single token. *)
Theorem acquire_terminates_iff l now n late
    (Hl : limiter_wf l) (Hn : last_refill l <= now) (H0 : 0 < n) (Hlate : ∀ k, 0 <= late k) :
  ((∃ turns r, acquire turns late now n l = Some r) ↔ n <= capacity l) ∧
  (n <= capacity l → ∃ t l', acquire 2 late now n l = Some (Ret (t, l')) ∧ limiter_wf l' ∧
     now <= t ∧ t <= now + n / tokens_per_second l + late O).
Proof.
  assert (Qle_bool n 0 = false) as E0 by (by apply Qle_bool_false).
  assert (n <= capacity l → ∃ t l', acquire 2 late now n l = Some (Ret (t, l')) ∧ limiter_wf l' ∧
     now <= t ∧ t <= now + n / tokens_per_second l + late O) as Hyes.
  { intros Hc. destruct (acquire_loop_enough late now n l 0 Hl Hn H0 Hc Hlate)
      as (t & l' & E & Hw & Ht). exists t, l'. split; [|by split].
    unfold acquire. by rewrite E0, E. }
  split; [split|exact Hyes].
  - intros (turns & r & E). unfold acquire in E. rewrite E0 in E.
    destruct (Qlt_le_dec (capacity l) n) as [Hc|Hc]; [|done].
    by rewrite (acquire_loop_never late n turns now l Hc) in E.
  - intros Hc. destruct (Hyes Hc) as (t & l' & E & _). eauto.
Qed.

(** ** Witnesses *)

(** Two tokens a second, at most two at a time. *)
Definition demo_limiter : RateLimiter :=
  {| tokens_per_second := 2; capacity := 2; tokens := 2; last_refill := 0 |}.

Lemma demo_limiter_wf : limiter_wf demo_limiter.
Proof. split; cbn; lra. Qed.

Lemma rate_is_kept_witness :
  fst (granted [(0, 2); (0, 1); (1 # 2, 1); (1, 2); (2, 1)] demo_limiter) <= 6.
Proof.
  assert (in_order 0 [(0, 2); (0, 1); (1 # 2, 1); (1, 2); (2, 1)]) as Ho
    by (cbn; repeat split; lra).
  pose proof (rate_is_kept _ demo_limiter 0 demo_limiter_wf ltac:(cbn; lra) Ho) as H.
  eapply Qle_trans; [exact H|]. vm_compute. discriminate.
Defined.

Lemma acquire_terminates_iff_witness :
  (∃ t l', acquire 2 (λ _, 0) 0 (3 # 2) demo_limiter = Some (Ret (t, l')) ∧ t <= 3 # 4) ∧
  ¬ (∃ turns r, acquire turns (λ _, 0) 0 3 demo_limiter = Some r).
Proof.
  split.
  - destruct (acquire_terminates_iff demo_limiter 0 (3 # 2) (λ _, 0) demo_limiter_wf)
      as [_ H]; [cbn; lra|lra|intros; lra|].
    destruct H as (t & l' & E & _ & _ & Ht); [cbn; lra|]. exists t, l'. split; [exact E|].
    eapply Qle_trans; [exact Ht|]. vm_compute. discriminate.
  - destruct (acquire_terminates_iff demo_limiter 0 3 (λ _, 0) demo_limiter_wf)
      as [H _]; [cbn; lra|lra|intros; lra|].
    intros Hr. apply H in Hr. cbn in Hr. lra.
Defined.

(** * Retries of transport operations ([transports/retry.py], [transports/_support.py])

    The backoff policy and the retry loop.  [retry_async] and [retry_sync] are
    the same loop, with [asyncio.sleep] and [time.sleep]; a sleep only adds to
    the log of pauses of the state. *)

#[local] Open Scope Z_scope.

Record TransportRetryPolicy := {
  max_attempts : Z;
  base_delay_seconds : float;
  max_delay_seconds : float;
  retryable_exceptions : list exn_class;
  retryable_status_codes : list Z;
}.

(** The defaults of the class. *)
Definition default_policy : TransportRetryPolicy := {|
  max_attempts := 3; base_delay_seconds := 1 # 2; max_delay_seconds := 8;
  retryable_exceptions := [ConnectionError; TimeoutError];
  retryable_status_codes := [429; 500; 502; 503; 504] |}.

(** [TransportRetryPolicy.should_retry_status]. *)
Definition should_retry_status (p : TransportRetryPolicy) (status_code : Z) : bool :=
  mem status_code (retryable_status_codes p).

(** [TransportRetryPolicy.should_retry_exception]. *)
Definition should_retry_exception (p : TransportRetryPolicy) (e : exn) : bool :=
  existsb (isinstance e) (retryable_exceptions p).

(** [TransportRetryPolicy.delay_for_attempt]. *)
Definition delay_for_attempt (p : TransportRetryPolicy) (attempt : Z) : outcome float :=
  if attempt <? 1 then raise_ ValueError "Attempt number must be at least 1."
  else
    let delay := (base_delay_seconds p * inject_Z (2 ^ (attempt - 1)))%Q in
    Ret (if Qle_bool delay (max_delay_seconds p) then delay else max_delay_seconds p).

(** ** The loop *)

(** The state of the operation and the pauses made so far. *)
Record Paused (S : Type) := { world : S; pauses : list float }.
Arguments world {S} _.
Arguments pauses {S} _.
Arguments Build_Paused {S} _ _.

Section Retry.
Context {S A : Type}.

Definition operate (op : M S A) : M (Paused S) A := λ s,
  let '(r, w) := op (world s) in (r, Build_Paused w (pauses s)).

Definition sleep (d : float) : M (Paused S) unit :=
  modify (λ s, Build_Paused (world s) (pauses s ++ [d])).

Fixpoint retry_loop (p : TransportRetryPolicy) (op : M S A) (turns : nat) (attempt : Z)
    : M (Paused S) A :=
  match turns with
  | O => raise TransportConfigurationError "Retry loop exhausted."
  | Datatypes.S turns =>
      try_except (operate op) (λ exc,
        if (max_attempts p <=? attempt) || negb (should_retry_exception p exc)
        then reraise exc
        else
          d <- of_outcome (delay_for_attempt p attempt) ;;
          sleep d ;;;
          retry_loop p op turns (attempt + 1))
  end.

(** [retry_sync] and [retry_async]: the range has [max_attempts] elements. *)
Definition retry_sync (policy : option TransportRetryPolicy) (op : M S A) : M (Paused S) A :=
  match policy with
  | None => operate op
  | Some p => retry_loop p op (Z.to_nat (max_attempts p)) 1
  end.

(** ** Properties *)

(** [n] runs of the operation, each of which fails in a way that is retried. *)
Fixpoint retried (p : TransportRetryPolicy) (op : M S A) (n : nat) (s : S) : option S :=
  match n with
  | O => Some s
  | Datatypes.S n =>
      match op s with
      | (Raise e, s') => if should_retry_exception p e then retried p op n s' else None
      | (Ret _, _) => None
      end
  end.

(** The pauses after the attempts [attempt], ..., [attempt + n - 1]. *)
Fixpoint backoff (p : TransportRetryPolicy) (attempt : Z) (n : nat) : list float :=
  match n with
  | O => []
  | Datatypes.S n =>
      match delay_for_attempt p attempt with
      | Ret d => d :: backoff p (attempt + 1) n
      | Raise _ => []
      end
  end.

Lemma delay_for_attempt_Ret p attempt :
  1 <= attempt → ∃ d, delay_for_attempt p attempt = Ret d ∧ (d <= max_delay_seconds p)%Q.
Proof.
  intros Ha. unfold delay_for_attempt. destruct (Z.ltb_spec attempt 1); [lia|].
  eexists. split; [done|]. destruct (Qle_bool _ _) eqn:E; [by apply Qle_bool_iff|].
  apply Qle_refl.
Qed.

Lemma backoff_bounded p n attempt :
  1 <= attempt →
  length (backoff p attempt n) = n ∧ Forall (λ d, d <= max_delay_seconds p)%Q (backoff p attempt n).
Proof.
  revert attempt. induction n as [|n IH]; intros attempt Ha; [done|]. cbn.
  destruct (delay_for_attempt_Ret p attempt Ha) as (d & -> & Hd).
  destruct (IH (attempt + 1) ltac:(lia)) as [Hl Hall]. cbn. split; [by rewrite Hl|]. by constructor.
Qed.

Lemma retry_loop_spec p op turns : ∀ attempt s,
  1 <= attempt → max_attempts p = attempt + Z.of_nat turns →
  ∃ n w r w',
    retry_loop p op (Datatypes.S turns) attempt s
      = (r, Build_Paused w' (pauses s ++ backoff p attempt n)) ∧
    retried p op n (world s) = Some w ∧ op w = (r, w') ∧ (n <= turns)%nat ∧
    match r with Ret _ => True | Raise e => should_retry_exception p e = false ∨ n = turns end.
Proof.
  induction turns as [|turns IH]; intros attempt s Ha Hm; cbn [retry_loop];
    unfold try_except, operate; destruct (op (world s)) as [[a|e] w1] eqn:E; cbn [world].
  1,3: exists O, (world s), (Ret a), w1; rewrite app_nil_r; split_and!; done || lia.
  - replace (max_attempts p <=? attempt) with true by (symmetry; apply Z.leb_le; lia). cbn.
    exists O, (world s), (Raise e), w1. rewrite app_nil_r. split_and!; auto.
  - destruct (Z.leb_spec (max_attempts p) attempt); [lia|]. cbn [orb].
    destruct (should_retry_exception p e) eqn:Er; cbn [negb].
    2:{ exists O, (world s), (Raise e), w1. rewrite app_nil_r. split_and!; auto with lia. }
    destruct (delay_for_attempt_Ret p attempt Ha) as (d & Ed & _).
    destruct (IH (attempt + 1) (Build_Paused w1 (pauses s ++ [d]))) as
      (n & w & r & w' & Hrun & Hn & Hop & Hle & Hr); [lia|lia|].
    exists (Datatypes.S n), w, r, w'. split_and!; [|cbn; by rewrite E, Er|done|lia|].
    + rewrite Ed. cbn [backoff]. rewrite Ed.
      etrans; [exact Hrun|]. cbn. by rewrite <-app_assoc.
    + destruct r; [done|]. destruct Hr; [by left|right; lia].
Qed.

(** The retry loop runs the operation until it first succeeds, fails in a way
    the policy does not retry, or has been run [max_attempts] times, and answers
    what that run did; it pauses before every further run, never longer than the
    policy's bound.  A policy of no attempts raises without running anything. *)
Theorem retry_sync_spec p op s :
  (max_attempts p < 1 → ∃ msg,
     retry_sync (Some p) op s = (Raise (Exn TransportConfigurationError msg), s)) ∧
  (1 <= max_attempts p → ∃ n w r w',
     retried p op n (world s) = Some w ∧ op w = (r, w') ∧
     retry_sync (Some p) op s = (r, Build_Paused w' (pauses s ++ backoff p 1 n)) ∧
     Z.of_nat n < max_attempts p ∧
     match r with
     | Ret _ => True
     | Raise e => should_retry_exception p e = false ∨ Z.of_nat n + 1 = max_attempts p
     end ∧
     length (backoff p 1 n) = n ∧ Forall (λ d, d <= max_delay_seconds p)%Q (backoff p 1 n)).
Proof.
  split; intros Hm; unfold retry_sync.
  - replace (Z.to_nat (max_attempts p)) with O by lia. by eexists.
  - destruct (Z.to_nat (max_attempts p)) as [|turns] eqn:Et; [lia|].
    destruct (retry_loop_spec p op turns 1 s) as (n & w & r & w' & Hrun & Hn & Hop & Hle & Hr);
      [lia|lia|].
    exists n, w, r, w'. split_and!; try done; try lia; try (by apply backoff_bounded).
    destruct r; [done|]. destruct Hr; [by left|right; lia].
Qed.
End Retry.

(** * The connection pool and the transport manager
    ([transports/connection_pool.py], [transports/session.py], [transports/manager.py])

    Sessions are opened lazily and kept by key.  [get_or_create] checks the size
    of the pool before it awaits the opening of a new session, and the lock it
    holds is the key's own: calls for different keys interleave there, so a call
    is two atomic parts ([look_up], [store]) with the opening between them. *)

(** ** Sessions *)

(** [TransportSession]: the times a session was opened and closed at. *)
Record TransportSession := {
  session_id : string;
  session_opened_at : option datetime;
  session_closed_at : option datetime;
}.

Definition is_open (s : TransportSession) : bool :=
  is_not_none (session_opened_at s) && is_none (session_closed_at s).

(** [TransportSession.open]. *)
Definition open_at (now : datetime) (s : TransportSession) : TransportSession :=
  if is_open s then s
  else {| session_id := session_id s; session_opened_at := Some now; session_closed_at := None |}.

(** [TransportSession.mark_closed]. *)
Definition mark_closed (now : datetime) (s : TransportSession) : TransportSession :=
  {| session_id := session_id s; session_opened_at := session_opened_at s;
     session_closed_at := Some now |}.

(** [TransportSession.ensure_open]. *)
Definition ensure_open (s : TransportSession) : outcome unit :=
  if is_open s then Ret tt else raise_ RuntimeError "Transport session is not open.".

(** ** The pool *)

Record ConnectionPool := {
  max_size : Z;
  sessions : gmap string TransportSession;
}.

Definition set_sessions m (p : ConnectionPool) : ConnectionPool :=
  {| max_size := max_size p; sessions := m |}.

Definition pool_size (p : ConnectionPool) : Z := Z.of_nat (size (sessions p)).

(** Before the await: the cached session, or [None] for leave to create one. *)
Definition look_up (key : string) (p : ConnectionPool) : outcome (option TransportSession) :=
  match sessions p !! key with
  | Some s => Ret (Some s)
  | None =>
      if max_size p <=? pool_size p then raise_ RuntimeError "Connection pool is full."
      else Ret None
  end.

(** After it. *)
Definition store (key : string) (s : TransportSession) (p : ConnectionPool) : ConnectionPool :=
  set_sessions (<[key := s]> (sessions p)) p.

Definition drop (key : string) (p : ConnectionPool) : ConnectionPool :=
  set_sessions (delete key (sessions p)) p.

Lemma look_up_cached key p s : look_up key p = Ret (Some s) → sessions p !! key = Some s.
Proof. unfold look_up. repeat case_match; naive_solver. Qed.

Lemma look_up_room key p :
  look_up key p = Ret None → sessions p !! key = None ∧ pool_size p < max_size p.
Proof.
  unfold look_up. destruct (sessions p !! key); [done|].
  destruct (Z.leb_spec (max_size p) (pool_size p)); done.
Qed.

(** ** Interleaved calls *)

(** The pool, and the keys whose locks are held by calls that are opening. *)
Record pool_state := { pool : ConnectionPool; opening : gset string }.

(** The steps of concurrent calls: a call gets leave to create, its session is
    open, its opening failed, or a session is released. *)
Inductive pool_step : pool_state → pool_state → Prop :=
  | step_begin key p o :
      key ∉ o → look_up key p = Ret None →
      pool_step {| pool := p; opening := o |} {| pool := p; opening := {[key]} ∪ o |}
  | step_opened key s p o :
      key ∈ o →
      pool_step {| pool := p; opening := o |} {| pool := store key s p; opening := o ∖ {[key]} |}
  | step_failed key p o :
      key ∈ o →
      pool_step {| pool := p; opening := o |} {| pool := p; opening := o ∖ {[key]} |}
  | step_released key p o :
      key ∉ o →
      pool_step {| pool := p; opening := o |} {| pool := drop key p; opening := o |}.

(** Steps that never have more than [tasks] calls opening. *)
Inductive pool_reach (tasks : Z) (start : pool_state) : pool_state → Prop :=
  | reach_start : pool_reach tasks start start
  | reach_step a b :
      pool_reach tasks start a → pool_step a b → Z.of_nat (size (opening b)) <= tasks →
      pool_reach tasks start b.

Definition empty_pool (n : Z) : pool_state :=
  {| pool := {| max_size := n; sessions := ∅ |}; opening := ∅ |}.

(** Sessions and openings together. *)
Definition in_use (s : pool_state) : Z := pool_size (pool s) + Z.of_nat (size (opening s)).

Lemma step_max_size a b : pool_step a b → max_size (pool b) = max_size (pool a).
Proof. by destruct 1. Qed.

Lemma size_remove_key (o : gset string) key :
  key ∈ o → Z.of_nat (size (o ∖ {[key]})) = Z.of_nat (size o) - 1.
Proof.
  intros Hk. rewrite size_difference by set_solver. rewrite size_singleton.
  assert (size ({[key]} : gset string) ≤ size o)%nat as Hle by (apply subseteq_size; set_solver).
  rewrite size_singleton in Hle. lia.
Qed.

Lemma size_store key s p : pool_size (store key s p) <= pool_size p + 1.
Proof.
  unfold pool_size, store. cbn. rewrite map_size_insert. case_match; unfold id; lia.
Qed.

Lemma size_drop key p : pool_size (drop key p) <= pool_size p.
Proof. unfold pool_size, drop. cbn. rewrite map_size_delete. case_match; unfold id; lia. Qed.

Lemma step_in_use tasks a b :
  pool_step a b → Z.of_nat (size (opening b)) <= tasks →
  in_use b <= in_use a ∨ in_use b <= max_size (pool b) - 1 + tasks.
Proof.
  unfold in_use. destruct 1 as [key p o Hk Hl|key s p o Hk|key p o Hk|key p o Hk]; cbn; intros Ht.
  - right. apply look_up_room in Hl as [_ Hl].
    rewrite size_union by set_solver. rewrite size_singleton. rewrite size_union in Ht by set_solver.
    rewrite size_singleton in Ht. lia.
  - left. rewrite size_remove_key by done. pose proof (size_store key s p). lia.
  - left. rewrite size_remove_key by done. lia.
  - left. pose proof (size_drop key p). lia.
Qed.

(** However the calls interleave, the pool holds at most [max_size - 1]
    sessions more than there are calls opening one at the same time: used by one
    task at a time it respects [max_size]. *)
Theorem pool_size_bound n tasks s
    (Hn : 0 < n) (Ht : 0 < tasks) (Hr : pool_reach tasks (empty_pool n) s) :
  pool_size (pool s) <= n - 1 + tasks ∧ (tasks = 1 → pool_size (pool s) <= n).
Proof.
  enough (in_use s <= n - 1 + tasks ∧ max_size (pool s) = n) as [Hu _]
    by (unfold in_use in Hu; split; [|intros ->]; lia).
  induction Hr as [|a b Hr [IH Hm] Hst Hb].
  { split; [|done]. unfold in_use, pool_size, empty_pool. cbn [pool opening sessions].
    rewrite map_size_empty, size_empty. lia. }
  pose proof (step_max_size a b Hst) as Hmb.
  destruct (step_in_use tasks a b Hst Hb) as [H|H]; split; congruence || lia.
Qed.

Definition demo_session (key : string) : TransportSession :=
  {| session_id := key; session_opened_at := Some 0; session_closed_at := None |}.

(** The bound is reached: two calls for different keys overfill a pool of one. *)
Lemma pool_overfills :
  ∃ s, pool_reach 2 (empty_pool 1) s ∧ pool_size (pool s) = 2.
Proof.
  eexists. split.
  - eapply reach_step; [eapply reach_step; [eapply reach_step; [eapply reach_step;
      [apply reach_start| |]| |]| |]| |].
    + apply (step_begin "a"); [set_solver|done].
    + vm_compute. discriminate.
    + apply (step_begin "b"); [set_solver|done].
    + vm_compute. discriminate.
    + apply (step_opened "a" (demo_session "a")). set_solver.
    + vm_compute. discriminate.
    + apply (step_opened "b" (demo_session "b")). set_solver.
    + vm_compute. discriminate.
  - by vm_compute.
Qed.

Lemma pool_size_bound_witness :
  let start := empty_pool 1 in
  let full := {| pool := store "a" (demo_session "a") (pool start); opening := ∅ |} in
  pool_reach 1 start full ∧ pool_size (pool full) <= 1.
Proof.
  intros start full.
  assert (pool_reach 1 start full) as Hr.
  { eapply reach_step; [eapply reach_step; [apply reach_start| |]| |].
    - apply (step_begin "a"); [set_solver|done].
    - vm_compute. discriminate.
    - replace full with {| pool := store "a" (demo_session "a") (pool start);
        opening := ({["a"]} ∪ ∅) ∖ {["a"]} |} by (unfold full; f_equal; set_solver).
      apply (step_opened "a"). set_solver.
    - vm_compute. discriminate. }
  split; [exact Hr|]. by apply (pool_size_bound 1 1 full).
Defined.
