(* ===== verification/Texts.v ===== *)
(** * Texts: integers written and read, and the pieces of a text

    What the program uses of [str] beyond Prelude, each with the lemmas on it. *)

From S2P Require Import Prelude.

(** * Decimal integers as text

    [str(n)] is stdpp's [pretty]; here is what reads integers back: [str.isdigit],
    [int(text)] and the runs of digits that [re.findall(r"\d+", text)] finds. *)
#[local] Open Scope Z_scope.

Definition digit_of (c : ascii) : option Z :=
  let n := Ascii.N_of_ascii c in
  if ((48 <=? n) && (n <=? 57))%N then Some (Z.of_N n - 48) else None.

Definition is_digit (c : ascii) : bool := is_not_none (digit_of c).

(** [s.isdigit()]. *)
Definition isdigit (s : string) : bool := str_truthy s && str_all is_digit s.

(** The number a run of digits continues [acc] to. *)
Fixpoint digits_value (acc : Z) (s : string) : option Z :=
  match s with
  | EmptyString => Some acc
  | String c s' => match digit_of c with Some d => digits_value (10 * acc + d) s' | None => None end
  end.

(** [int(s)] of a run of digits. *)
Definition int_of_digits (s : string) : option Z :=
  if isdigit s then digits_value 0 s else None.

(** The longest run of digits, in which single underscores may separate digits:
    the number it continues [acc] to, its length and the rest. *)
Fixpoint digitpart (acc : Z) (n : nat) (s : string) : Z * nat * string :=
  match s with
  | EmptyString => (acc, n, s)
  | String c s' =>
      match digit_of c with
      | Some d => digitpart (10 * acc + d) (S n) s'
      | None =>
          match n, s' with
          | S _, String c' s'' =>
              if c ≟ "_"%char then
                match digit_of c' with
                | Some d => digitpart (10 * acc + d) (S n) s''
                | None => (acc, n, s)
                end
              else (acc, n, s)
          | _, _ => (acc, n, s)
          end
      end
  end.

Definition unsigned_literal (s : string) : option Z :=
  match digitpart 0 0 s with
  | (v, S _, EmptyString) => Some v
  | _ => None
  end.

(** A leading sign: whether it is a minus, and the rest. *)
Definition signed (s : string) : bool * string :=
  match s with
  | String c s' => if c ≟ "-"%char then (true, s') else if c ≟ "+"%char then (false, s') else (false, s)
  | EmptyString => (false, s)
  end.

(** [int(s)]: blanks around, a sign, a literal; [None] is the [ValueError]. *)
Definition py_int (s : string) : option Z :=
  let '(neg, s) := signed (str_strip s) in
  (if neg : bool then Z.opp else id) <$> unsigned_literal s.

(** What [float(s)] answers: a number, an infinity or no number. *)
Inductive pyfloat := Finite (q : float) | Infinite (negative : bool) | NotANumber.

(** The exponent of a decimal literal, and nothing after it. *)
Definition exponent_part (s : string) : option Z :=
  match s with
  | EmptyString => Some 0
  | String c s' =>
      if ascii_lower c ≟ "e"%char then
        let '(neg, s') := signed s' in
        (if neg : bool then Z.opp else id) <$> unsigned_literal s'
      else None
  end.

Definition unsigned_decimal (s : string) : option float :=
  let '(whole, n, rest) := digitpart 0 0 s in
  let '(digits, places, rest) :=
    match rest with
    | String c rest' => if c ≟ "."%char then digitpart whole 0 rest' else (whole, O, rest)
    | EmptyString => (whole, O, rest)
    end in
  match (n + places)%nat with
  | O => None
  | _ => (λ e, inject_Z digits * Qpower 10 (e - Z.of_nat places))%Q <$> exponent_part rest
  end.

(** [float(s)]; [None] is the [ValueError]. *)
Definition py_float (s : string) : option pyfloat :=
  let '(neg, s) := signed (str_strip s) in
  if mem (str_lower s) ["inf"; "infinity"] then Some (Infinite neg)
  else if str_lower s ≟ "nan" then Some NotANumber
  else (λ q, Finite (if neg : bool then - q else q)%Q) <$> unsigned_decimal s.

(** [a < b] on floats. *)
Definition float_ltb (a b : pyfloat) : bool :=
  match a, b with
  | Finite p, Finite q => negb (Qle_bool q p)
  | NotANumber, _ | _, NotANumber => false
  | Infinite n, Finite _ => n
  | Finite _, Infinite n => negb n
  | Infinite n, Infinite m => n && negb m
  end.

(** [re.findall(r"\d+", s)], each run as the integer it denotes; [cur] is the
    run being read. *)
Fixpoint digit_runs (cur : option Z) (s : string) : list Z :=
  match s with
  | EmptyString => match cur with Some n => [n] | None => [] end
  | String c s' =>
      match digit_of c with
      | Some d => digit_runs (Some (10 * from_option id 0 cur + d)) s'
      | None => (match cur with Some n => [n] | None => [] end) ++ digit_runs None s'
      end
  end.

(** ** Reading back what was printed *)

Lemma digit_of_bound c d : digit_of c = Some d → 0 <= d <= 9.
Proof.
  unfold digit_of. destruct (_ && _) eqn:E; [|done]. intros [= <-].
  apply andb_true_iff in E as [H1%N.leb_le H2%N.leb_le]. lia.
Qed.

Lemma digit_of_pretty (n : N) : (n < 10)%N → digit_of (pretty_N_char n) = Some (Z.of_N n).
Proof.
  intros Hn. assert (n = 0 ∨ n = 1 ∨ n = 2 ∨ n = 3 ∨ n = 4 ∨ n = 5 ∨ n = 6 ∨ n = 7 ∨ n = 8 ∨ n = 9)%N
    as H by lia. by repeat destruct H as [->|H]; subst.
Qed.

Lemma digits_value_go (x : N) s : digits_value 0 (pretty_N_go x s) = digits_value (Z.of_N x) s.
Proof.
  revert s. induction (N.lt_wf_0 x) as [x _ IH]; intros s.
  destruct (N.eq_dec x 0%N) as [->|Hx]; [by rewrite pretty_N_go_0|].
  rewrite pretty_N_go_step, IH by (lia || (apply N.div_lt; lia)). cbn [digits_value].
  rewrite digit_of_pretty by (apply N.mod_lt; lia). f_equal.
  pose proof (N.div_mod x 10). lia.
Qed.

Lemma all_digits_go (x : N) s : str_all is_digit s = true → str_all is_digit (pretty_N_go x s) = true.
Proof.
  revert s. induction (N.lt_wf_0 x) as [x _ IH]; intros s Hs.
  destruct (N.eq_dec x 0%N) as [->|Hx]; [by rewrite pretty_N_go_0|].
  rewrite pretty_N_go_step by lia. apply IH; [apply N.div_lt; lia|].
  cbn. unfold is_digit. by rewrite digit_of_pretty by (apply N.mod_lt; lia).
Qed.

Lemma digits_value_pretty (x : N) : digits_value 0 (pretty x) = Some (Z.of_N x).
Proof.
  unfold pretty, pretty_N. case_decide; [by subst|]. by rewrite digits_value_go.
Qed.

Lemma isdigit_pretty (x : N) : isdigit (pretty x) = true.
Proof.
  unfold isdigit. apply andb_true_iff. split.
  - destruct (pretty x) eqn:E; [|done]. pose proof (digits_value_pretty x) as H. rewrite E in H.
    cbn in H. assert (x = 0%N) as -> by (injection H; lia). done.
  - unfold pretty, pretty_N. case_decide; [done|]. by apply all_digits_go.
Qed.

Lemma pretty_Z_of_N (z : Z) : 0 <= z → pretty z = pretty (Z.to_N z).
Proof. by destruct z. Qed.

(** [int(str(n)) = n] for a natural number. *)
Lemma int_of_digits_pretty (z : Z) : 0 <= z → int_of_digits (pretty z) = Some z.
Proof.
  intros Hz. rewrite pretty_Z_of_N by done. unfold int_of_digits.
  rewrite isdigit_pretty, digits_value_pretty. by rewrite Z2N.id.
Qed.

Lemma digits_value_total s acc : str_all is_digit s = true → 0 <= acc →
  ∃ z, digits_value acc s = Some z ∧ acc <= z.
Proof.
  revert acc. induction s as [|c s IH]; cbn; intros acc Hs Ha; [by exists acc|].
  apply andb_true_iff in Hs as [Hc Hs]. unfold is_digit in Hc.
  destruct (digit_of c) as [d|] eqn:Ed; [|done]. apply digit_of_bound in Ed.
  destruct (IH (10 * acc + d) Hs ltac:(lia)) as (z & -> & Hz). exists z. split; [done|lia].
Qed.

(** A run of digits is a natural number. *)
Lemma int_of_digits_total s : isdigit s = true → ∃ z, int_of_digits s = Some z ∧ 0 <= z.
Proof.
  intros Hs. unfold int_of_digits. rewrite Hs. unfold isdigit in Hs.
  apply andb_true_iff in Hs as [_ Hs]. by apply digits_value_total.
Qed.

Lemma int_of_digits_nonneg s z : int_of_digits s = Some z → 0 <= z.
Proof.
  intros Hz. destruct (isdigit s) eqn:E; [|by unfold int_of_digits in Hz; rewrite E in Hz].
  destruct (int_of_digits_total s E) as (z' & Hz' & ?). congruence.
Qed.

Lemma isdigit_no_char c s : is_digit c = false → isdigit s = true → str_mem c s = false.
Proof.
  intros Hc [_ Hs]%andb_true_iff. induction s as [|d s IH]; [done|]. cbn in *.
  apply andb_true_iff in Hs as [Hd Hs]. rewrite IH by done. rewrite orb_false_r.
  apply eqb_false. intros ->. congruence.
Qed.

(** ** Comparison of tuples of integers *)

(** [a < b] on tuples. *)
Fixpoint seq_ltb (a b : list Z) : bool :=
  match a, b with
  | _, [] => false
  | [], _ :: _ => true
  | x :: a', y :: b' => (x <? y) || ((x =? y) && seq_ltb a' b')
  end.

(** [a <= b]. *)
Definition seq_leb (a b : list Z) : bool := negb (seq_ltb b a).

Lemma seq_ltb_irrefl a : seq_ltb a a = false.
Proof. induction a as [|x a IH]; [done|]. cbn. by rewrite Z.ltb_irrefl, Z.eqb_refl, IH. Qed.

Lemma seq_ltb_trans a b c : seq_ltb a b = true → seq_ltb b c = true → seq_ltb a c = true.
Proof.
  revert b c. induction a as [|x a IH]; intros [|y b] [|z c]; cbn; try done.
  destruct (Z.ltb_spec x y), (Z.ltb_spec y z), (Z.ltb_spec x z), (Z.eqb_spec x y),
    (Z.eqb_spec y z), (Z.eqb_spec x z); cbn; try done || lia. apply IH.
Qed.

Lemma seq_ltb_total a b : seq_ltb a b = true ∨ a = b ∨ seq_ltb b a = true.
Proof.
  revert b. induction a as [|x a IH]; intros [|y b]; cbn; auto.
  destruct (Z.ltb_spec x y), (Z.ltb_spec y x), (Z.eqb_spec x y), (Z.eqb_spec y x); cbn; auto; try lia.
  subst. destruct (IH b) as [?|[->|?]]; auto.
Qed.

Lemma seq_leb_total a b : seq_leb a b = true ∨ seq_leb b a = true.
Proof.
  unfold seq_leb. destruct (seq_ltb b a) eqn:E1, (seq_ltb a b) eqn:E2; auto.
  pose proof (seq_ltb_trans _ _ _ E1 E2) as H. by rewrite seq_ltb_irrefl in H.
Qed.

Lemma seq_leb_trans a b c : seq_leb a b = true → seq_leb b c = true → seq_leb a c = true.
Proof.
  unfold seq_leb. rewrite !negb_true_iff. intros H1 H2.
  destruct (seq_ltb c a) eqn:E; [|done].
  destruct (seq_ltb_total a b) as [H|[->|H]]; [|congruence..].
  rewrite (seq_ltb_trans c a b) in H2; done.
Qed.

(** ** Stable sorting *)

Section Sort.
Context {A : Type} (le : A → A → bool).

Fixpoint insert_stable (x : A) (l : list A) : list A :=
  match l with
  | [] => [x]
  | y :: l' => if le x y then x :: l else y :: insert_stable x l'
  end.

(** [sorted(xs, key=...)]: equal elements keep their order. *)
Definition stable_sort (l : list A) : list A := fold_right insert_stable [] l.

Lemma insert_stable_perm x l : insert_stable x l ≡ₚ x :: l.
Proof.
  induction l as [|y l IH]; cbn; [done|]. destruct (le x y); [done|].
  rewrite IH. by constructor.
Qed.

Lemma stable_sort_perm l : stable_sort l ≡ₚ l.
Proof. induction l as [|x l IH]; cbn; [done|]. by rewrite insert_stable_perm, IH. Qed.

Context (le_total : ∀ x y, le x y = true ∨ le y x = true).
Context (le_trans : ∀ x y z, le x y = true → le y z = true → le x z = true).

(** The first element is below all others, and before those it is equal to. *)
Lemma stable_sort_head l x xs :
  stable_sort l = x :: xs →
  (∀ y, y ∈ l → le x y = true) ∧
  ∃ l1 l2, l = l1 ++ x :: l2 ∧ ∀ y, y ∈ l1 → le y x = false.
Proof.
  revert x xs. induction l as [|z l IH]; intros x xs; [done|].
  assert (le z z = true) as Hzz by (by destruct (le_total z z)).
  cbn [stable_sort fold_right]. fold (stable_sort l).
  destruct (stable_sort l) as [|y ys] eqn:E; cbn [insert_stable].
  - intros [= <- <-]. pose proof (stable_sort_perm l) as Hp. rewrite E in Hp.
    apply Permutation_nil_l in Hp. subst l. split.
    + intros y ->%list_elem_of_singleton. done.
    + exists [], []. split; [done|]. by intros y ?%elem_of_nil.
  - destruct (IH _ _ eq_refl) as [Hle (l1 & l2 & -> & Hl1)].
    destruct (le z y) eqn:Ezy; intros [= <- <-].
    + split; [|by exists [], (l1 ++ y :: l2); split; [|intros ? ?%elem_of_nil]].
      intros w [->|Hw]%elem_of_cons; [done|]. eapply le_trans; [exact Ezy|]. auto.
    + split.
      * intros w [->|Hw]%elem_of_cons; [|auto].
        by destruct (le_total z y) as [H|H]; [congruence|].
      * exists (z :: l1), l2. split; [done|]. intros w [->|Hw]%elem_of_cons; auto.
Qed.
End Sort.

(** * Lines and words of a text ([str.splitlines], [str.split], [str.partition]) *)

(** ** Lines *)

(** The ASCII line boundaries of [splitlines]. *)
Definition is_linebreak (c : ascii) : bool :=
  let n := Ascii.N_of_ascii c in
  ((10 <=? n) && (n <=? 13) || (28 <=? n) && (n <=? 30))%N.

Definition newline : ascii := "010"%char.
Definition carriage_return : ascii := "013"%char.

(** [s.splitlines()]; a carriage return and a newline are one boundary. *)
Fixpoint splitlines (s : string) : list string :=
  match s with
  | EmptyString => []
  | String c s' =>
      if is_linebreak c then
        EmptyString ::
        match s' with
        | String d s'' =>
            if (c ≟ carriage_return) && (d ≟ newline) then splitlines s'' else splitlines s'
        | EmptyString => []
        end
      else
        match splitlines s' with
        | [] => [String c EmptyString]
        | line :: lines => String c line :: lines
        end
  end.

(** ** Words *)

(** [s.split()]. *)
Fixpoint words (s : string) : list string :=
  match s with
  | EmptyString => []
  | String c s' =>
      if is_space c then words s'
      else match s' with
           | String d _ =>
               if is_space d then String c EmptyString :: words s'
               else match words s' with
                    | w :: ws => String c w :: ws
                    | [] => [String c EmptyString]
                    end
           | EmptyString => [String c EmptyString]
           end
  end.

(** [s.partition(c)]: the text before and after the first [c]; [None] when there is
    none. *)
Fixpoint partition_at (c : ascii) (s : string) : option (string * string) :=
  match s with
  | EmptyString => None
  | String d s' =>
      if d ≟ c then Some (EmptyString, s')
      else match partition_at c s' with
           | Some (before, after) => Some (String d before, after)
           | None => None
           end
  end.

(** [s.split(c, 1)[0]] and [s.split(c, 1)[-1]]. *)
Definition before_first (c : ascii) (s : string) : string := from_option fst s (partition_at c s).
Definition after_first (c : ascii) (s : string) : string := from_option snd s (partition_at c s).

(** [s.rsplit(c, 1)[-1]]. *)
Definition after_last (c : ascii) (s : string) : string := List.last (str_split c s) EmptyString.

(** [s.startswith((p1, ..., pn))]. *)
Definition starts_with (prefixes : list string) (s : string) : bool :=
  existsb (λ p, String.prefix p s) prefixes.

(** [s.endswith(c)], and [s[:-1]]. *)
Fixpoint str_init_last (s : string) : option (string * ascii) :=
  match s with
  | EmptyString => None
  | String c s' =>
      match str_init_last s' with
      | Some (init, last) => Some (String c init, last)
      | None => Some (EmptyString, c)
      end
  end.

(** [s.replace(a, b)] for single characters. *)
Definition replace_char (a b : ascii) : string → string := str_map (λ c, if c ≟ a then b else c).

(** [s.strip(c)]. *)
Fixpoint lstrip_char (c : ascii) (s : string) : string :=
  match s with
  | EmptyString => EmptyString
  | String d s' => if d ≟ c then lstrip_char c s' else s
  end.

Fixpoint rstrip_char (c : ascii) (s : string) : string :=
  match s with
  | EmptyString => EmptyString
  | String d s' =>
      match rstrip_char c s' with
      | EmptyString => if d ≟ c then EmptyString else String d EmptyString
      | t => String d t
      end
  end.

Definition strip_char (c : ascii) (s : string) : string := rstrip_char c (lstrip_char c s).

(** ** Laws *)

(** A word: not empty and without blanks. *)
Definition is_word (s : string) : bool := str_truthy s && str_all (λ c, negb (is_space c)) s.

(** Blanks only. *)
Definition is_blank (s : string) : bool := str_all is_space s.

(** A line: without line boundaries. *)
Definition is_line (s : string) : bool := str_all (λ c, negb (is_linebreak c)) s.

Lemma str_all_impl (p q : ascii → bool) s :
  (∀ c, p c = true → q c = true) → str_all p s = true → str_all q s = true.
Proof.
  intros Hpq. induction s as [|c s IH]; [done|]. cbn. rewrite !andb_true_iff. naive_solver.
Qed.

Lemma is_linebreak_space c : is_linebreak c = true → is_space c = true.
Proof.
  unfold is_linebreak, is_space. rewrite !orb_true_iff, !andb_true_iff, !N.leb_le. lia.
Qed.

Lemma words_blank s t : is_blank s = true → words (s +:+ t) = words t.
Proof.
  unfold is_blank. induction s as [|c s IH]; [done|].
  change (String c s +:+ t) with (String c (s +:+ t)). cbn. intros [-> Hs]%andb_true_iff. auto.
Qed.

Lemma words_cons w s c :
  is_word w = true → is_space c = true → words (w +:+ String c s) = w :: words s.
Proof.
  unfold is_word. intros [Ht Hw]%andb_true_iff Hc. revert Ht Hw.
  induction w as [|d w IH]; [done|]. intros _. cbn [str_all].
  intros [Hd Hw]%andb_true_iff. apply negb_true_iff in Hd.
  change (String d w +:+ String c s) with (String d (w +:+ String c s)).
  destruct w as [|e w].
  - change ("" +:+ String c s) with (String c s). cbn. by rewrite Hd, Hc.
  - change (String e w +:+ String c s) with (String e (w +:+ String c s)) in *.
    cbn [words]. rewrite Hd. cbn [str_all] in Hw. pose proof Hw as [He _]%andb_true_iff.
    apply negb_true_iff in He. rewrite He.
    specialize (IH eq_refl Hw). cbn [words] in IH. rewrite He in IH. by rewrite IH.
Qed.

Lemma words_last w : is_word w = true → words w = [w].
Proof.
  unfold is_word. intros [Ht Hw]%andb_true_iff. revert Ht Hw.
  induction w as [|d w IH]; [done|]. intros _. cbn [str_all].
  intros [Hd Hw]%andb_true_iff. apply negb_true_iff in Hd.
  destruct w as [|e w]; cbn [words]; rewrite Hd; [done|].
  cbn [str_all] in Hw. pose proof Hw as [He _]%andb_true_iff.
  apply negb_true_iff in He. rewrite He.
  specialize (IH eq_refl Hw). cbn [words] in IH. rewrite He in IH. by rewrite IH.
Qed.

Lemma words_concat ws :
  Forall (λ w, is_word w = true) ws → words (String.concat " " ws) = ws.
Proof.
  induction ws as [|w ws IH]; [done|]. intros [Hw Hws]%Forall_cons.
  destruct ws as [|v ws]; [by apply words_last|].
  change (String.concat " " (w :: v :: ws)) with (w +:+ String " " (String.concat " " (v :: ws))).
  rewrite words_cons by done. by rewrite IH.
Qed.

Lemma splitlines_cons line s :
  is_line line = true → splitlines (line +:+ String newline s) = line :: splitlines s.
Proof.
  unfold is_line. induction line as [|c line IH].
  - intros _. change ("" +:+ String newline s) with (String newline s). cbn. by destruct s.
  - cbn [str_all]. intros [Hc Hl]%andb_true_iff. apply negb_true_iff in Hc.
    change (String c line +:+ String newline s) with (String c (line +:+ String newline s)).
    cbn [splitlines]. by rewrite Hc, IH.
Qed.

(** Lines, each ended by a newline. *)
Fixpoint unlines (lines : list string) : string :=
  match lines with
  | [] => EmptyString
  | line :: lines => line +:+ String newline (unlines lines)
  end.

Lemma splitlines_unlines lines :
  Forall (λ l, is_line l = true) lines → splitlines (unlines lines) = lines.
Proof.
  induction lines as [|l lines IH]; [done|]. intros [Hl Hls]%Forall_cons. cbn.
  by rewrite splitlines_cons, IH.
Qed.

Lemma partition_at_app c s t :
  str_mem c s = false → partition_at c (s +:+ String c t) = Some (s, t).
Proof.
  induction s as [|d s IH].
  - intros _. change ("" +:+ String c t) with (String c t). cbn. by rewrite eqb_refl.
  - cbn [str_mem]. intros [Hd Hs]%orb_false_iff.
    change (String d s +:+ String c t) with (String d (s +:+ String c t)). cbn.
    rewrite Hd. by rewrite IH.
Qed.

Lemma partition_at_None c s : str_mem c s = false → partition_at c s = None.
Proof.
  induction s as [|d s IH]; [done|]. cbn. intros [Hd Hs]%orb_false_iff. by rewrite Hd, IH.
Qed.

(** * Identifiers as text *)

Lemma hex_value_digit (n : N) : (n < 16)%N → hex_value (hex_digit n) = Some n ∧ hex_digit n ≠ "-"%char
  ∧ is_space (hex_digit n) = false.
Proof.
  intros Hn. assert (n = 0 ∨ n = 1 ∨ n = 2 ∨ n = 3 ∨ n = 4 ∨ n = 5 ∨ n = 6 ∨ n = 7 ∨ n = 8 ∨ n = 9
    ∨ n = 10 ∨ n = 11 ∨ n = 12 ∨ n = 13 ∨ n = 14 ∨ n = 15)%N as H by lia.
  by repeat destruct H as [->|H]; subst.
Qed.

Lemma hex_acc_digits k (n acc : N) d rest : (n < 16 ^ N.of_nat k)%N →
  hex_acc acc d (hex_digits k n +:+ rest) = hex_acc (acc * 16 ^ N.of_nat k + n) (k + d) rest.
Proof.
  revert n acc d rest. induction k as [|k IH]; intros n acc d rest Hn.
  - change (N.of_nat 0) with 0%N in *. rewrite N.pow_0_r in *. assert (n = 0%N) as -> by lia.
    by rewrite N.mul_1_r, N.add_0_r.
  - cbn [hex_digits]. rewrite str_app_assoc.
    rewrite Nat2N.inj_succ, N.pow_succ_r' in *.
    assert (n mod 16 < 16)%N as Hm by (apply N.mod_lt; lia).
    rewrite IH by (apply N.Div0.div_lt_upper_bound; lia).
    destruct (hex_value_digit (n mod 16) Hm) as (Hv & Hd & _).
    rewrite str_app_cons. change (EmptyString +:+ rest) with rest. cbn [hex_acc].
    rewrite (proj2 (eqb_false _ _) Hd), Hv. f_equal.
    pose proof (N.div_mod n 16). lia.
Qed.

Lemma substring_0_all s : String.substring 0 (String.length s) s = s.
Proof. induction s as [|c s IH]; [done|]. cbn. by rewrite IH. Qed.

Lemma substring_split s i a b :
  String.substring i (a + b) s = String.substring i a s +:+ String.substring (i + a) b s.
Proof.
  revert i a. induction s as [|c s IH]; intros i a.
  - by destruct i, a, b.
  - destruct i as [|i].
    + destruct a as [|a]; [by destruct b|]. change (Datatypes.S a + b)%nat with (Datatypes.S (a + b)).
      cbn [String.substring Nat.add]. rewrite str_app_cons. f_equal. apply (IH O).
    + cbn [String.substring Nat.add]. apply IH.
Qed.

Lemma length_hex_digits k n : String.length (hex_digits k n) = k.
Proof.
  revert n. induction k as [|k IH]; intros n; [done|]. cbn [hex_digits].
  rewrite str_length_app, IH. cbn. lia.
Qed.

Lemma hex_acc_app acc d a b :
  hex_acc acc d (a +:+ b) = hex_acc acc d a ≫= λ '(n, k), hex_acc n k b.
Proof.
  revert acc d. induction a as [|c a IH]; intros acc d; [done|]. rewrite str_app_cons. cbn [hex_acc].
  destruct (c ≟ "-"%char); [apply IH|]. destruct (hex_value c); [apply IH|done].
Qed.

Lemma hex_acc_dash acc d a b : hex_acc acc d (a +:+ "-" +:+ b) = hex_acc acc d (a +:+ b).
Proof. rewrite !hex_acc_app. by destruct (hex_acc acc d a) as [[]|]. Qed.

(** [UUID(str(u)) = u]. *)
Lemma parse_uuid_str (u : UUID) : (u < 2 ^ 128)%N → parse_uuid (uuid_str u) = Some u.
Proof.
  intros Hu. unfold parse_uuid, uuid_str. cbv zeta. set (s := hex_digits 32 u).
  assert (hex_acc 0 0 (String.substring 0 8 s +:+ "-" +:+ String.substring 8 4 s +:+ "-" +:+
    String.substring 12 4 s +:+ "-" +:+ String.substring 16 4 s +:+ "-" +:+ String.substring 20 12 s)
    = hex_acc 0 0 s) as ->.
  { rewrite hex_acc_dash.
    rewrite <- (str_app_assoc (String.substring 0 8 s)).
    rewrite <- (substring_split s 0 8 4 : String.substring 0 12 s = _ +:+ String.substring 8 4 s).
    rewrite hex_acc_dash.
    rewrite <- (str_app_assoc (String.substring 0 12 s)).
    rewrite <- (substring_split s 0 12 4 : String.substring 0 16 s = _ +:+ String.substring 12 4 s).
    rewrite hex_acc_dash.
    rewrite <- (str_app_assoc (String.substring 0 16 s)).
    rewrite <- (substring_split s 0 16 4 : String.substring 0 20 s = _ +:+ String.substring 16 4 s).
    rewrite hex_acc_dash.
    rewrite <- (substring_split s 0 20 12 : String.substring 0 32 s = _ +:+ String.substring 20 12 s).
    rewrite <- (length_hex_digits 32 u : String.length s = 32%nat). by rewrite substring_0_all. }
  unfold s. pose proof (hex_acc_digits 32 u 0 0 EmptyString) as H.
  rewrite str_app_nil_r in H. rewrite H by exact Hu. cbn [hex_acc N.add]. by rewrite N.mul_0_l.
Qed.
