(* ===== verification/JsonText.v ===== *)
(** * Reading JSON text ([json.loads]) and the round trip with [json.dumps]

    The standard library's decoder as tokens, passwords and caches use it: [raw_decode]
    with the strict string scanner, the number expression and the two delimiters' loops.
    A text of the model holds code points below 256, and a float is finite: [None] is a
    [JSONDecodeError], or one of the values that are not held ([\u0100] and above,
    [NaN] and the infinities).  The theorem reads back what [canonical_json] writes. *)

From S2P Require Import Prelude Effects Json EvidenceStore Texts.
From stdpp Require Import sorting.

#[local] Open Scope Z_scope.

(** ** Scanning *)

(** [WHITESPACE]: [[ \t\n\r]*]. *)
Definition is_json_space (c : ascii) : bool :=
  let n := Ascii.N_of_ascii c in (n =? 32)%N || (n =? 9)%N || (n =? 10)%N || (n =? 13)%N.

Fixpoint skip_ws (s : string) : string :=
  match s with
  | String c s' => if is_json_space c then skip_ws s' else s
  | EmptyString => EmptyString
  end.

(** The text after [prefix]. *)
Fixpoint strip_prefix (prefix s : string) : option string :=
  match prefix, s with
  | EmptyString, _ => Some s
  | String a prefix', String b s' => if a ≟ b then strip_prefix prefix' s' else None
  | String _ _, EmptyString => None
  end.

(** [BACKSLASH] of [json.decoder], without [u]. *)
Definition unescape (c : ascii) : option ascii :=
  if (c ≟ double_quote) || (c ≟ "\"%char) || (c ≟ "/"%char) then Some c
  else if c ≟ "b"%char then Some "008"%char
  else if c ≟ "f"%char then Some "012"%char
  else if c ≟ "n"%char then Some "010"%char
  else if c ≟ "r"%char then Some "013"%char
  else if c ≟ "t"%char then Some "009"%char
  else None.

(** Four hexadecimal digits. *)
Definition decode_uXXXX (a b c d : ascii) : option ascii :=
  match hex_value a, hex_value b, hex_value c, hex_value d with
  | Some x, Some y, Some z, Some w =>
      let n := (((x * 16 + y) * 16 + z) * 16 + w)%N in
      if (n <? 256)%N then Some (Ascii.ascii_of_N n) else None
  | _, _, _, _ => None
  end.

Definition cons_fst (c : ascii) (r : option (string * string)) : option (string * string) :=
  match r with Some (t, rest) => Some (String c t, rest) | None => None end.

(** [scanstring] after the opening quote: the text and what follows the closing one. *)
Fixpoint scanstring (s : string) : option (string * string) :=
  match s with
  | EmptyString => None
  | String c s' =>
      if c ≟ double_quote then Some (EmptyString, s')
      else if c ≟ "\"%char then
        match s' with
        | EmptyString => None
        | String e s'' =>
            if e ≟ "u"%char then
              match s'' with
              | String h1 (String h2 (String h3 (String h4 rest))) =>
                  match decode_uXXXX h1 h2 h3 h4 with
                  | Some x => cons_fst x (scanstring rest)
                  | None => None
                  end
              | _ => None
              end
            else match unescape e with
                 | Some x => cons_fst x (scanstring s'')
                 | None => None
                 end
        end
      else if (Ascii.N_of_ascii c <? 32)%N then None
      else cons_fst c (scanstring s')
  end.

(** The longest run of digits. *)
Fixpoint take_digits (s : string) : string * string :=
  match s with
  | String c s' => if is_digit c then let (ds, rest) := take_digits s' in (String c ds, rest)
                   else (EmptyString, s)
  | EmptyString => (EmptyString, EmptyString)
  end.

(** The parts of [NUMBER_RE]: [0] or a run that does not start with it, a fraction, an
    exponent; a part that does not match is left in the text. *)
Definition int_part (s : string) : option (string * string) :=
  match s with
  | String "0"%char s' => Some ("0"%string, s')
  | _ => let (ds, rest) := take_digits s in if str_truthy ds then Some (ds, rest) else None
  end.

Definition frac_part (s : string) : string * string :=
  match s with
  | String "."%char s' =>
      let (ds, rest) := take_digits s' in
      if str_truthy ds then (String "."%char ds, rest) else (EmptyString, s)
  | _ => (EmptyString, s)
  end.

Definition exp_part (s : string) : string * string :=
  match s with
  | String e s' =>
      if (e ≟ "e"%char) || (e ≟ "E"%char) then
        let (sign, digits) := match s' with
          | String "+"%char t => ("+"%string, t)
          | String "-"%char t => ("-"%string, t)
          | _ => (EmptyString, s')
          end in
        let (ds, rest) := take_digits digits in
        if str_truthy ds then (String e (sign +:+ ds), rest) else (EmptyString, s)
      else (EmptyString, s)
  | EmptyString => (EmptyString, s)
  end.

(** [_match_number]: an [int] without fraction and exponent, a [float] with one. *)
Definition scan_number (s : string) : option (json * string) :=
  let (negative, body) := match s with
    | String "-"%char t => (true, t)
    | _ => (false, s)
    end in
  match int_part body with
  | None => None
  | Some (integer, rest1) =>
      let (frac, rest2) := frac_part rest1 in
      let (exp, rest3) := exp_part rest2 in
      if str_truthy frac || str_truthy exp then
        match unsigned_decimal (integer +:+ frac +:+ exp) with
        | Some q => Some (JFloat (if negative then (- q)%Q else q), rest3)
        | None => None
        end
      else
        match int_of_digits integer with
        | Some z => Some (JInt (if negative then - z else z), rest3)
        | None => None
        end
  end.

(** ** Values *)

Section Loops.
Variable scan_once : string → option (json * string).

(** [JSONArray] after its first element's position is known: elements separated by
    commas up to the closing bracket. *)
Fixpoint scan_elements (fuel : nat) (acc : list json) (s : string) : option (json * string) :=
  match fuel with
  | O => None
  | S fuel' =>
      match scan_once s with
      | None => None
      | Some (x, rest) =>
          match skip_ws rest with
          | String "]"%char rest' => Some (JList (acc ++ [x]), rest')
          | String ","%char rest' => scan_elements fuel' (acc ++ [x]) (skip_ws rest')
          | _ => None
          end
      end
  end.

Definition scan_array (fuel : nat) (s : string) : option (json * string) :=
  match skip_ws s with
  | String "]"%char rest => Some (JList [], rest)
  | t => scan_elements fuel [] t
  end.

(** [JSONObject]: pairs separated by commas up to the closing brace; [dict(pairs)] keeps
    the last value of a repeated key at the place of the first. *)
Fixpoint scan_members (fuel : nat) (acc : dict) (s : string) : option (json * string) :=
  match fuel with
  | O => None
  | S fuel' =>
      match s with
      | String q s1 =>
          if q ≟ double_quote then
            match scanstring s1 with
            | None => None
            | Some (k, s2) =>
                match skip_ws s2 with
                | String ":"%char s3 =>
                    match scan_once (skip_ws s3) with
                    | None => None
                    | Some (x, rest) =>
                        match skip_ws rest with
                        | String "}"%char rest' => Some (JDict (dict_set k x acc), rest')
                        | String ","%char rest' =>
                            scan_members fuel' (dict_set k x acc) (skip_ws rest')
                        | _ => None
                        end
                    end
                | _ => None
                end
            end
          else None
      | EmptyString => None
      end
  end.

Definition scan_object (fuel : nat) (s : string) : option (json * string) :=
  match skip_ws s with
  | String "}"%char rest => Some (JDict [], rest)
  | t => scan_members fuel [] t
  end.
End Loops.

Definition constant (word : string) (j : json) (s : string) : option (json * string) :=
  match strip_prefix word s with Some rest => Some (j, rest) | None => None end.

(** [scan_once]: the value at the start of the text and what follows it.  Every call
    below consumes a character, so the length of the text is enough fuel. *)
Fixpoint scan_once (fuel : nat) (s : string) : option (json * string) :=
  match fuel with
  | O => None
  | S fuel' =>
      match s with
      | EmptyString => None
      | String c s' =>
          if c ≟ double_quote then
            match scanstring s' with Some (t, rest) => Some (JStr t, rest) | None => None end
          else if c ≟ "{"%char then scan_object (scan_once fuel') fuel' s'
          else if c ≟ "["%char then scan_array (scan_once fuel') fuel' s'
          else if c ≟ "n"%char then constant "null" JNull s
          else if c ≟ "t"%char then constant "true" (JBool true) s
          else if c ≟ "f"%char then constant "false" (JBool false) s
          else scan_number s
      end
  end.

(** [json.loads]: one value between blanks. *)
Definition json_loads (s : string) : option json :=
  match scan_once (Datatypes.S (String.length s)) (skip_ws s) with
  | Some (j, rest) => if str_truthy (skip_ws rest) then None else Some j
  | None => None
  end.

(** ** Writing: [json.dumps]

    [separators=("," + space, ":" + space)], and the order of an object's items:
    insertion order, or by key with [sort_keys]. *)
Section Dumps.
Context `{FloatRepr}.
Variable space : string.
Variable order : list (string * string) → list (string * string).

Fixpoint json_dumps (j : json) : string :=
  match j with
  | JNull => "null"
  | JBool true => "true"
  | JBool false => "false"
  | JInt z => pretty z
  | JFloat q => float_repr q
  | JStr s => dumps_str s
  | JList l => "[" +:+ String.concat ("," +:+ space) (map json_dumps l) +:+ "]"
  | JDict d =>
      "{" +:+ String.concat ("," +:+ space)
        (map (λ e, dumps_str e.1 +:+ ":" +:+ space +:+ e.2)
           (order (map (λ e, (e.1, json_dumps e.2)) d))) +:+ "}"
  end.
End Dumps.

(** [canonical_json] is the compact text with sorted keys. *)
Lemma canonical_json_dumps `{FloatRepr} j :
  canonical_json j = json_dumps EmptyString (merge_sort key_le) j.
Proof.
  induction j as [|[]|z|q|s|l IH|d IH] using json_deep_ind; try reflexivity.
  - rewrite canonical_list. cbn [json_dumps]. do 3 f_equal.
    apply map_ext_in. intros x Hx. rewrite Forall_forall in IH. by apply IH, list_elem_of_In.
  - rewrite canonical_dict. cbn [json_dumps]. unfold dumps_items. do 5 f_equal.
    apply map_ext_in. intros e He. f_equal. rewrite Forall_forall in IH.
    by apply (IH e), list_elem_of_In.
Qed.

(** Double quotes, written as single ones. *)
Definition requote : string → string := replace_char "'"%char double_quote.

Example loads_object :
  json_loads (requote " {'a': [1, -20, 0.5, 1e2], 'b': {}, 'a': 'x\u0041\n'} ")
  = Some (JDict [("a", JStr ("xA" +:+ String newline EmptyString)); ("b", JDict [])]).
Proof. vm_compute. reflexivity. Qed.

Example loads_refused :
  map (json_loads ∘ requote) [EmptyString; "01"; "1."; "[1,]"; "{1:2}"; "nul"; "{} x"; "'a"]%string
  = [None; None; None; None; None; None; None; None].
Proof. vm_compute. reflexivity. Qed.

(** * [json.loads] reads back what [json.dumps] writes

    For values without floats, whose text is the interpreter's: the decoder of
    [JsonText] returns the value that [canonical_json] printed, up to the order of the
    items of its objects, which is the order Python's [==] forgets. *)

(** No floats, and no object with a repeated key: what a [dict] of the model is. *)
Fixpoint plain (j : json) : bool :=
  match j with
  | JFloat _ => false
  | JList l => forallb plain l
  | JDict d => bool_decide (NoDup (map fst d)) && forallb (λ e, plain e.2) d
  | _ => true
  end.

Lemma forallb_Forall_true {A} (p : A → bool) l : forallb p l = true ↔ Forall (λ x, p x = true) l.
Proof. rewrite forallb_forall, Forall_forall. by setoid_rewrite list_elem_of_In. Qed.

(** ** Strings *)

Lemma scanstring_escape c t : scanstring (json_escape c +:+ t) = cons_fst c (scanstring t).
Proof. destruct c as [[] [] [] [] [] [] [] []]; reflexivity. Qed.

Lemma scanstring_dumps s rest :
  scanstring (json_escapes s +:+ String double_quote rest) = Some (s, rest).
Proof.
  induction s as [|c s IH]; [reflexivity|]. cbn [json_escapes].
  rewrite str_app_assoc, scanstring_escape, IH. reflexivity.
Qed.

(** ** Numbers *)

(** What follows a value of an array or an object, or the end of the text. *)
Definition value_end (s : string) : bool :=
  match s with
  | EmptyString => true
  | String c _ => (c ≟ ","%char) || (c ≟ "]"%char) || (c ≟ "}"%char)
  end.

Lemma value_end_cases s : value_end s = true →
  s = EmptyString ∨ ∃ c t, s = String c t ∧ (c = "," ∨ c = "]" ∨ c = "}")%char.
Proof.
  destruct s as [|c t]; [by left|]. cbn. rewrite !orb_true_iff, !eqb_true.
  intros H. right. exists c, t. tauto.
Qed.

Lemma take_digits_all ds rest : str_all is_digit ds = true → value_end rest = true →
  take_digits (ds +:+ rest) = (ds, rest).
Proof.
  intros Hds Hr. induction ds as [|c ds IH].
  - change (EmptyString +:+ rest) with rest.
    destruct (value_end_cases _ Hr) as [->|(c & t & -> & [->|[->| ->]])]; reflexivity.
  - cbn in Hds. apply andb_true_iff in Hds as [Hc Hds]. rewrite str_app_cons. cbn [take_digits]. by rewrite Hc, (IH Hds).
Qed.

(** A positive number does not start with a zero. *)
Lemma pretty_go_head (x : N) s : (0 < x)%N →
  ∃ c t, pretty_N_go x s = String c t ∧ is_digit c = true ∧ c ≠ "0"%char.
Proof.
  revert s. induction (N.lt_wf_0 x) as [x _ IH]; intros s Hx.
  rewrite pretty_N_go_step by done. destruct (N.eq_dec (x / 10)%N 0%N) as [E|E].
  - rewrite E, pretty_N_go_0. eexists _, _. split; [reflexivity|].
    assert (0 < x < 10)%N as Hx' by (apply N.div_small_iff in E; lia).
    rewrite N.mod_small by lia.
    assert (x = 1 ∨ x = 2 ∨ x = 3 ∨ x = 4 ∨ x = 5 ∨ x = 6 ∨ x = 7 ∨ x = 8 ∨ x = 9)%N as H by lia.
    by repeat destruct H as [->|H]; subst.
  - apply IH; [by apply N.div_lt|]. by apply N.neq_0_lt_0.
Qed.

Lemma pretty_head (x : N) : x = 0%N ∨ ∃ c t, pretty x = String c t ∧ is_digit c = true ∧ c ≠ "0"%char.
Proof.
  unfold pretty, pretty_N. case_decide as E; [by left|right]. apply pretty_go_head. lia.
Qed.

Lemma int_part_other s : (∀ t, s ≠ String "0"%char t) →
  int_part s = let (ds, rest) := take_digits s in if str_truthy ds then Some (ds, rest) else None.
Proof.
  intros H. destruct s as [|[[] [] [] [] [] [] [] []] t]; try reflexivity. by destruct (H t).
Qed.

Lemma int_part_pretty (x : N) rest : value_end rest = true →
  int_part (pretty x +:+ rest) = Some (pretty x, rest).
Proof.
  intros Hr. destruct (pretty_head x) as [->|(c & t & E & Hc & Hz)]; [reflexivity|].
  rewrite int_part_other.
  - rewrite take_digits_all; [by rewrite E| |done].
    pose proof (isdigit_pretty x) as H. unfold isdigit in H. by apply andb_true_iff in H as [_ H].
  - intros t'. rewrite E, str_app_cons. congruence.
Qed.

Lemma frac_part_end rest : value_end rest = true → frac_part rest = (EmptyString, rest).
Proof. by intros [->|(c & t & -> & [->|[->| ->]])]%value_end_cases. Qed.

Lemma exp_part_end rest : value_end rest = true → exp_part rest = (EmptyString, rest).
Proof. by intros [->|(c & t & -> & [->|[->| ->]])]%value_end_cases. Qed.

Definition signed_number (negative : bool) (body : string) : option (json * string) :=
  match int_part body with
  | None => None
  | Some (integer, rest1) =>
      let (frac, rest2) := frac_part rest1 in
      let (exp, rest3) := exp_part rest2 in
      if str_truthy frac || str_truthy exp then
        match unsigned_decimal (integer +:+ frac +:+ exp) with
        | Some q => Some (JFloat (if negative then (- q)%Q else q), rest3)
        | None => None
        end
      else
        match int_of_digits integer with
        | Some z => Some (JInt (if negative then - z else z), rest3)
        | None => None
        end
  end.

Lemma scan_number_sign s : scan_number s =
  match s with
  | String "-"%char t => signed_number true t
  | _ => signed_number false s
  end.
Proof. destruct s as [|[[] [] [] [] [] [] [] []] t]; reflexivity. Qed.

Lemma signed_number_pretty negative (x : N) rest : value_end rest = true →
  signed_number negative (pretty x +:+ rest)
  = Some (JInt (if negative then - Z.of_N x else Z.of_N x), rest).
Proof.
  intros Hr. unfold signed_number. rewrite int_part_pretty, frac_part_end, exp_part_end by done.
  cbn [str_truthy orb]. unfold int_of_digits. by rewrite isdigit_pretty, digits_value_pretty.
Qed.

Lemma pretty_digit_head (x : N) : ∃ c t, pretty x = String c t ∧ is_digit c = true.
Proof.
  destruct (pretty_head x) as [->|(c & t & E & Hc & _)]; [by eexists _, _|by exists c, t].
Qed.

Lemma scan_number_pretty (z : Z) rest : value_end rest = true →
  scan_number (pretty z +:+ rest) = Some (JInt z, rest).
Proof.
  intros Hr. rewrite scan_number_sign. destruct (Z_lt_le_dec z 0) as [Hz|Hz].
  - destruct z as [|p|p]; [lia|lia|]. change (pretty (Z.neg p)) with ("-" +:+ pretty (N.pos p)).
    rewrite str_app_cons. exact (signed_number_pretty true (N.pos p) rest Hr).
  - rewrite (pretty_Z_of_N z Hz).
    destruct (pretty_digit_head (Z.to_N z)) as (c & t & E & Hc).
    pose proof (signed_number_pretty false (Z.to_N z) rest Hr) as H. rewrite Z2N.id in H by done.
    rewrite E, str_app_cons in H |- *.
    destruct (decide (c = "-"%char)) as [->|Hn]; [done|].
    destruct c as [[] [] [] [] [] [] [] []]; exact H || by destruct Hn.
Qed.

(** ** Lists of texts *)

Fixpoint texts_length (ts : list string) : nat :=
  match ts with [] => O | t :: ts' => (Datatypes.S (String.length t) + texts_length ts')%nat end.

Lemma concat_cons sep t u ts :
  String.concat sep (t :: u :: ts) = t +:+ sep +:+ String.concat sep (u :: ts).
Proof. reflexivity. Qed.

Lemma length_concat space ts : (texts_length ts <= Datatypes.S (String.length (String.concat ("," +:+ space) ts)))%nat.
Proof.
  induction ts as [|t [|u ts] IH]; cbn [texts_length] in *; [lia|cbn; lia|].
  rewrite concat_cons, !str_length_app. cbn [String.length]. lia.
Qed.

Lemma count_texts ts : (List.length ts <= texts_length ts)%nat.
Proof. induction ts as [|t ts IH]; cbn; lia. Qed.

Lemma texts_length_elem t ts : t ∈ ts → (String.length t < texts_length ts)%nat.
Proof. induction 1 as [t ts|t u ts _ IH]; cbn; lia. Qed.

(** A value's text does not start with a blank or the end of its container. *)
Definition value_start (s : string) : bool :=
  match s with
  | String c _ => negb (is_json_space c || (c ≟ "]"%char) || (c ≟ "}"%char))
  | EmptyString => false
  end.

Lemma skip_ws_start s rest : value_start s = true → skip_ws (s +:+ rest) = s +:+ rest.
Proof.
  destruct s as [|c s]; [done|]. cbn [value_start]. rewrite negb_true_iff, !orb_false_iff.
  intros [[Hc _] _]. rewrite str_app_cons. cbn [skip_ws]. by rewrite Hc.
Qed.

Lemma skip_ws_end rest : value_end rest = true → skip_ws rest = rest.
Proof. by intros [->|(c & t & -> & [->|[->| ->]])]%value_end_cases. Qed.

Lemma digit_start c t : is_digit c = true → value_start (String c t) = true.
Proof.
  destruct c as [[] [] [] [] [] [] [] []]; intros H; vm_compute in H; done.
Qed.

Lemma skip_ws_blank space t : str_all is_json_space space = true → skip_ws (space +:+ t) = skip_ws t.
Proof.
  induction space as [|c space IH]; [done|]. cbn [str_all]. intros [Hc Hs]%andb_true_iff.
  rewrite str_app_cons. cbn [skip_ws]. rewrite Hc. by apply IH.
Qed.

Section RoundTrip.
Context `{FloatRepr}.
Variable space : string.
Hypothesis space_blank : str_all is_json_space space = true.
Variable order : list (string * string) → list (string * string).
Hypothesis order_perm : ∀ items, order items ≡ₚ items.

#[local] Abbreviation text := (json_dumps space order).
#[local] Abbreviation separated := (String.concat ("," +:+ space)).

Lemma text_start j : plain j = true → value_start (text j) = true.
Proof.
  destruct j as [|[]|z|q|s|l|d]; try done; intros _.
  cbn [text]. destruct (Z_lt_le_dec z 0) as [Hz|Hz].
  - destruct z as [|p|p]; [lia|lia|done].
  - rewrite (pretty_Z_of_N z Hz). destruct (pretty_digit_head (Z.to_N z)) as (c & t & -> & Hc).
      by apply digit_start.
Qed.

Lemma skip_ws_concat j l rest : plain j = true →
  skip_ws (separated (map text (j :: l)) +:+ rest)
  = separated (map text (j :: l)) +:+ rest.
Proof.
  intros Hj. pose proof (text_start j Hj) as H1.
  destruct l as [|k l]; cbn [map]; [by apply skip_ws_start|].
  rewrite concat_cons, str_app_assoc. by apply skip_ws_start.
Qed.

(** The value read from the text of [j], whatever ends it. *)
Definition reads_back (fuel : nat) (j : json) : Prop :=
  ∀ rest, value_end rest = true →
  ∃ j', scan_once fuel (text j +:+ rest) = Some (j', rest) ∧ same_items j j'.

Lemma scan_elements_text fuel n acc j l rest :
  Forall (reads_back fuel) (j :: l) → Forall (λ x, plain x = true) (j :: l) → (length l < n)%nat →
  ∃ l', scan_elements (scan_once fuel) n acc
          (separated (map text (j :: l)) +:+ String "]"%char rest)
        = Some (JList (acc ++ l'), rest) ∧ Forall2 same_items (j :: l) l'.
Proof.
  revert j acc n. induction l as [|k l IH]; intros j acc n Hj Hp Hn; destruct n as [|n]; try lia;
    apply Forall_cons in Hj as [Hj Hl]; apply Forall_cons in Hp as [_ Hp].
  - destruct (Hj (String "]"%char rest) eq_refl) as (j' & E & Hs). exists [j'].
    split; [|by repeat constructor]. cbn [map String.concat scan_elements]. by rewrite E.
  - cbn [length] in Hn.
    change (separated (map text (j :: k :: l)))
      with (text j +:+ ("," +:+ space) +:+ separated (map text (k :: l))).
    rewrite !str_app_assoc.
    set (tail := separated (map text (k :: l)) +:+ String "]"%char rest).
    destruct (Hj (String ","%char (space +:+ tail)) eq_refl) as (j' & Ej & Hj').
    destruct (IH k (acc ++ [j']) n Hl Hp ltac:(lia)) as (l' & E & Hs).
    exists (j' :: l'). split; [|by constructor]. cbn [scan_elements].
    change ("," +:+ ?t) with (String ","%char t). fold tail. rewrite Ej.
    cbn [skip_ws]. change (is_json_space ","%char) with false. cbn iota.
    rewrite skip_ws_blank by done. unfold tail. rewrite skip_ws_concat by (by apply Forall_cons in Hp as [? _]).
    rewrite E. by rewrite <- app_assoc.
Qed.

Definition member (e : string * json) : string := dumps_str e.1 +:+ ":" +:+ space +:+ text e.2.

Definition same_member (e e' : string * json) : Prop := e.1 = e'.1 ∧ same_items e.2 e'.2.

(** An object's text lists some order of its items. *)
Lemma text_members d :
  ∃ d2, d2 ≡ₚ d ∧ text (JDict d) = "{" +:+ separated (map member d2) +:+ "}".
Proof.
  set (f := λ e : string * json, (e.1, text e.2)).
  destruct (Permutation_map_inv f d (order_perm (map f d))) as (d2 & E & Hp).
  exists d2. split; [by symmetry|]. cbn [json_dumps]. fold f. rewrite E, map_map. reflexivity.
Qed.

Lemma scan_member_head fuel n acc k t :
  scan_members (scan_once fuel) (Datatypes.S n) acc (dumps_str k +:+ String ":"%char t) =
  match scan_once fuel (skip_ws t) with
  | None => None
  | Some (x, rest) =>
      match skip_ws rest with
      | String "}"%char rest' => Some (JDict (dict_set k x acc), rest')
      | String ","%char rest' => scan_members (scan_once fuel) n (dict_set k x acc) (skip_ws rest')
      | _ => None
      end
  end.
Proof.
  unfold dumps_str. rewrite str_app_cons, str_app_assoc, str_app_cons. cbn [scan_members].
  change (EmptyString +:+ ?u) with u. by rewrite scanstring_dumps.
Qed.

Lemma dict_set_new k x (acc : dict) : k ∉ map fst acc → dict_set k x acc = acc ++ [(k, x)].
Proof.
  induction acc as [|[k' y] acc IH]; cbn; [done|]. rewrite not_elem_of_cons. intros [Hk Ha].
  destruct (k ≟ k') eqn:E; [by rewrite eqb_true in E; subst|]. by rewrite IH.
Qed.

Lemma skip_ws_members e d rest :
  skip_ws (separated (map member (e :: d)) +:+ rest) = separated (map member (e :: d)) +:+ rest.
Proof. by destruct d. Qed.

Lemma scan_members_text fuel n acc e d rest :
  Forall (reads_back fuel ∘ snd) (e :: d) → Forall (λ e, plain e.2 = true) (e :: d) →
  NoDup (map fst acc ++ map fst (e :: d)) → (length d < n)%nat →
  ∃ d', scan_members (scan_once fuel) n acc
          (separated (map member (e :: d)) +:+ String "}"%char rest)
        = Some (JDict (acc ++ d'), rest) ∧ Forall2 same_member (e :: d) d'.
Proof.
  revert e acc n. induction d as [|e2 d IH]; intros [k x] acc n Hj Hp Hnd Hn;
    destruct n as [|n]; try lia;
    apply Forall_cons in Hj as [Hj Hl]; apply Forall_cons in Hp as [Hx Hp]; cbn [snd compose] in *;
    assert (k ∉ map fst acc) as Hk
      by (intros Hin; apply NoDup_app in Hnd as (_ & Hnd & _); by apply (Hnd k Hin); left).
  - destruct (Hj (String "}"%char rest) eq_refl) as (x' & E & Hs). exists [(k, x')].
    split; [|by repeat constructor]. cbn [map String.concat].
    unfold member. cbn [fst snd]. rewrite !str_app_assoc. change (":" +:+ ?t) with (String ":"%char t).
    rewrite scan_member_head, skip_ws_blank, skip_ws_start, E by first [done|by apply text_start].
    cbn [skip_ws]. change (is_json_space "}"%char) with false. cbn iota. by rewrite dict_set_new.
  - cbn [length] in Hn.
    change (separated (map member ((k, x) :: e2 :: d)))
      with (member (k, x) +:+ ("," +:+ space) +:+ separated (map member (e2 :: d))).
    unfold member at 1. cbn [fst snd]. rewrite !str_app_assoc.
    change (":" +:+ ?t) with (String ":"%char t).
    rewrite scan_member_head, skip_ws_blank, skip_ws_start by first [done|by apply text_start].
    set (tail := separated (map member (e2 :: d)) +:+ String "}"%char rest).
    destruct (Hj (String ","%char (space +:+ tail)) eq_refl) as (x' & Ej & Hj').
    destruct (IH e2 (acc ++ [(k, x')]) n Hl Hp) as (d' & E & Hs); [|lia|].
    { rewrite map_app, <- app_assoc. exact Hnd. }
    exists ((k, x') :: d'). split; [|by repeat constructor].
    change ("," +:+ ?t) with (String ","%char t). fold tail. rewrite Ej.
    cbn [skip_ws]. change (is_json_space ","%char) with false. cbn iota.
    rewrite skip_ws_blank by done. unfold tail. rewrite skip_ws_members, dict_set_new, E by done. by rewrite <- app_assoc.
Qed.

(** A container's first loop gets the text after its blanks. *)
Lemma scan_array_elements (scan : string → option (json * string)) n t : value_start t = true →
  ∀ rest, scan_array scan n (t +:+ rest) = scan_elements scan n [] (t +:+ rest).
Proof.
  intros Ht rest. unfold scan_array. rewrite skip_ws_start by done.
  destruct t as [|c t]; [done|]. cbn [value_start] in Ht. rewrite str_app_cons.
  destruct c as [[] [] [] [] [] [] [] []]; try reflexivity. done.
Qed.

Lemma scan_object_members scan n e d rest :
  scan_object scan n (separated (map member (e :: d)) +:+ rest)
  = scan_members scan n [] (separated (map member (e :: d)) +:+ rest).
Proof. by destruct d. Qed.

Lemma start_length s : value_start s = true → (1 <= String.length s)%nat.
Proof. destruct s; [done|cbn; lia]. Qed.

Lemma scan_once_number fuel c t : is_digit c || (c ≟ "-"%char) = true →
  scan_once (Datatypes.S fuel) (String c t) = scan_number (String c t).
Proof. destruct c as [[] [] [] [] [] [] [] []]; intros Hc; (reflexivity || by vm_compute in Hc). Qed.

Lemma reads_back_int fuel z : reads_back (Datatypes.S fuel) (JInt z).
Proof.
  intros rest Hr. exists (JInt z). split; [|constructor].
  rewrite <- (scan_number_pretty z rest Hr). cbn [text].
  assert (∃ c t, pretty z = String c t ∧ is_digit c || (c ≟ "-"%char) = true) as (c & t & -> & Hc).
  { destruct (Z_lt_le_dec z 0) as [Hz|Hz].
    - destruct z as [|p|p]; [lia|lia|]. by exists "-"%char, (pretty (N.pos p)).
    - rewrite (pretty_Z_of_N z Hz). destruct (pretty_digit_head (Z.to_N z)) as (c & t & -> & Hc).
      exists c, t. by rewrite Hc. }
  rewrite str_app_cons. by apply scan_once_number.
Qed.

Lemma reads_back_str fuel s : reads_back (Datatypes.S fuel) (JStr s).
Proof.
  intros rest Hr. exists (JStr s). split; [|constructor]. cbn [text]. unfold dumps_str.
  rewrite str_app_cons, str_app_assoc. change (String double_quote EmptyString +:+ rest)
    with (String double_quote rest).
  change (scan_once (Datatypes.S fuel) (String double_quote ?t))
    with (match scanstring t with Some (u, rest) => Some (JStr u, rest) | None => None end).
  by rewrite scanstring_dumps.
Qed.

Lemma reads_back_list fuel l : (texts_length (map text l) <= Datatypes.S fuel)%nat →
  Forall (λ x, plain x = true) l → Forall (reads_back fuel) l →
  reads_back (Datatypes.S fuel) (JList l).
Proof.
  intros Hf Hp Hl rest Hr. change (text (JList l)) with ("[" +:+ separated (map text l) +:+ "]").
  rewrite !str_app_assoc.
  change (scan_once (Datatypes.S fuel) ("[" +:+ ?t)) with (scan_array (scan_once fuel) fuel t).
  change ("]" +:+ rest) with (String "]"%char rest).
  destruct l as [|x l]; [by exists (JList []); split; [|constructor]|].
  assert (value_start (text x) = true) as Hx by (apply Forall_cons in Hp as [? _]; by apply text_start).
  destruct (scan_elements_text fuel fuel [] x l rest Hl Hp) as (l' & E & Hs).
  { cbn [map texts_length] in Hf. pose proof (count_texts (map text l)) as Hc.
    rewrite length_map in Hc. apply start_length in Hx. lia. }
  exists (JList l'). split; [|by constructor]. cbn [app] in E. rewrite <- E.
  destruct l; [by apply scan_array_elements|].
  cbn [map]. rewrite concat_cons, str_app_assoc. by apply scan_array_elements.
Qed.

Lemma reads_back_dict fuel d : (texts_length (map member d) <= Datatypes.S fuel)%nat →
  NoDup (map fst d) → Forall (λ e, plain e.2 = true) d → Forall (reads_back fuel ∘ snd) d →
  ∀ rest, value_end rest = true →
  ∃ d', scan_object (scan_once fuel) fuel (separated (map member d) +:+ String "}"%char rest)
        = Some (JDict d', rest) ∧ Forall2 same_member d d'.
Proof.
  intros Hf Hnd Hp Hl rest Hr. destruct d as [|e d]; [by exists []|].
  destruct (scan_members_text fuel fuel [] e d rest Hl Hp Hnd) as (d' & E & Hs).
  { cbn [map texts_length] in Hf. pose proof (count_texts (map member d)) as Hc.
    rewrite length_map in Hc. unfold member at 1, dumps_str in Hf. rewrite str_length_app in Hf.
    cbn [String.length] in Hf. lia. }
  exists d'. split; [|done]. by rewrite scan_object_members.
Qed.

(** The items of the object, in its own order. *)
Lemma same_items_dict d d2 d' : NoDup (map fst d) → d2 ≡ₚ d → Forall2 same_member d2 d' →
  same_items (JDict d) (JDict d').
Proof.
  intros Hnd Hp Hs. destruct (Permutation_Forall2 Hp Hs) as (d1 & Hp1 & Hs1).
  by apply items_dict with d1.
Qed.

Lemma text_reads_back j : plain j = true →
  ∀ fuel, (String.length (text j) < fuel)%nat → reads_back fuel j.
Proof.
  induction j as [|[]|z|q|s|l IH|d IH] using json_deep_ind; intros Hp fuel Hf;
    (destruct fuel as [|fuel]; [lia|]); try done;
    try (intros rest Hr; eexists; split; [reflexivity|constructor]; fail).
  - apply reads_back_int.
  - apply reads_back_str.
  - cbn [plain] in Hp. apply forallb_Forall_true in Hp.
    change (text (JList l)) with ("[" +:+ separated (map text l) +:+ "]") in Hf.
    rewrite !str_length_app in Hf. cbn [String.length] in Hf.
    pose proof (length_concat space (map text l)) as Hlen.
    apply reads_back_list; [lia|exact Hp|].
    rewrite Forall_forall in IH, Hp |- *. intros x Hx. apply IH; auto.
    assert (text x ∈ map text l) as Hin by by apply list_elem_of_fmap_2.
    apply texts_length_elem in Hin. lia.
  - cbn [plain] in Hp. apply andb_true_iff in Hp as [Hnd Hp].
    apply bool_decide_eq_true in Hnd. apply forallb_Forall_true in Hp.
    destruct (text_members d) as (d2 & Hd2 & E). rewrite E, !str_length_app in Hf.
    cbn [String.length] in Hf. pose proof (length_concat space (map member d2)) as Hlen.
    intros rest Hr. rewrite E, !str_app_assoc.
    change (scan_once (Datatypes.S fuel) ("{" +:+ ?t)) with (scan_object (scan_once fuel) fuel t).
    change ("}" +:+ rest) with (String "}"%char rest).
    destruct (reads_back_dict fuel d2) with (rest := rest) as (d' & -> & Hs); try done.
    + lia.
    + by rewrite Hd2.
    + by rewrite Hd2.
    + rewrite Forall_forall in IH, Hp |- *. intros e He. cbn [compose].
      assert (e ∈ d) as Hed by by rewrite <- Hd2. apply IH; auto.
      assert (member e ∈ map member d2) as Hin by by apply list_elem_of_fmap_2.
      apply texts_length_elem in Hin. unfold member in Hin at 1. rewrite !str_length_app in Hin. lia.
    + exists (JDict d'). split; [done|]. by apply same_items_dict with d2.
Qed.

(** [json.loads(json.dumps(x))] is a value equal to [x] up to the order of the items
    of its objects, for every [x] without floats: the decoder never fails on, and never
    misreads, what the encoder wrote, with or without blanks after the separators, with
    [sort_keys] or not, with any characters in the strings and any nesting. *)
Theorem json_roundtrip (j : json) (Hj : plain j = true) :
  ∃ j', json_loads (text j) = Some j' ∧ same_items j j'.
Proof.
  destruct (text_reads_back j Hj (Datatypes.S (String.length (text j))) ltac:(lia)
    EmptyString eq_refl) as (j' & E & Hs). exists j'. split; [|done].
  unfold json_loads. pose proof (skip_ws_start _ EmptyString (text_start j Hj)) as Hws.
  rewrite str_app_nil_r in Hws, E. by rewrite Hws, E.
Qed.
End RoundTrip.

#[local] Instance no_floats : FloatRepr := λ _, EmptyString.

Lemma json_roundtrip_witness :
  let j := JDict [("sub", JStr (requote "o'x"));
                  ("n", JList [JInt (-3); JNull; JDict [("b", JInt 0); ("a", JBool true)]])] in
  plain j = true ∧
  ∃ j', json_loads (json_dumps " " id j) = Some j' ∧ same_items j j'.
Proof.
  split; [reflexivity|].
  apply json_roundtrip; [reflexivity|reflexivity|reflexivity].
Defined.

(** ** Items of objects that say the same *)

Lemma dict_get_elem k v (d : dict) : NoDup (map fst d) → dict_get k d = Some v ↔ (k, v) ∈ d.
Proof.
  induction d as [|[k' w] d IH]; cbn; [by split; [|intros ?%elem_of_nil]|].
  rewrite NoDup_cons, elem_of_cons. intros [Hn Hd]. destruct (k ≟ k') eqn:E; pybool.
  - subst. split; [intros [= <-]; by left|]. intros [[= <-]|Hin]; [done|].
    destruct Hn. by apply (list_elem_of_fmap_2 fst _ _ Hin).
  - rewrite IH by done. split; [by right|]. intros [[= -> ->]|Hin]; [done|done].
Qed.

(** An object that says the same has the same items, up to what they say. *)
Lemma same_items_get d j k v : same_items (JDict d) j → dict_get k d = Some v →
  ∃ d' v', j = JDict d' ∧ dict_get k d' = Some v' ∧ same_items v v'.
Proof.
  intros Hs Hv. inversion Hs as [|?|? d1 d2 Hnd Hf Hp]; subst.
  { exists d, v. by repeat constructor. }
  assert (map fst d = map fst d1) as Hk.
  { clear -Hf. induction Hf as [|e e' d d1 [Hk _] _ IH]; [done|]. cbn. by rewrite Hk, IH. }
  assert (NoDup (map fst d2)) as Hnd2 by (rewrite <- Hp; by rewrite <- Hk).
  apply dict_get_elem in Hv; [|done]. apply list_elem_of_lookup in Hv as [i Hi].
  destruct (Forall2_lookup_l _ _ _ _ _ Hf Hi) as ([k' v'] & Hi' & Hkk & Hvv). cbn in Hkk, Hvv. subst k'.
  exists d2, v'. split; [done|]. split; [|done]. apply dict_get_elem; [done|].
  rewrite <- Hp. by apply list_elem_of_lookup_2 in Hi'.
Qed.

Lemma same_items_str_get d d' k t : same_items (JDict d) (JDict d') → dict_get k d = Some (JStr t) →
  dict_get k d' = Some (JStr t).
Proof.
  intros Hs Hk. destruct (same_items_get _ _ _ _ Hs Hk) as (d2 & v & [= <-] & -> & Hv). by inversion Hv.
Qed.

Lemma same_items_int_get d d' k z : same_items (JDict d) (JDict d') → dict_get k d = Some (JInt z) →
  dict_get k d' = Some (JInt z).
Proof.
  intros Hs Hk. destruct (same_items_get _ _ _ _ Hs Hk) as (d2 & v & [= <-] & -> & Hv). by inversion Hv.
Qed.
