(* ===== verification/Credentials.v ===== *)
(** * Credentials and secrets ([transports/credentials.py], [transports/secret_provider.py])

    Credential sets, the resolution of an opaque reference through the tenant's profile
    and the secret provider, and the choice of the provider.  The loader of profiles and
    the provider are interfaces: computations on a state of their own. *)

From S2P Require Import Prelude Vocabulary Effects Json Dicts Texts Records.
#[local] Open Scope Z_scope.

(** ** Credential sets *)

Inductive TransportCredentials :=
  | UsernamePasswordCredentials (username password : string)
  | TokenCredentials (token scheme : string)
  | SNMPv2cCredentials (community : string)
  | SNMPv3Credentials (username security_level : string)
      (auth_protocol auth_secret privacy_protocol privacy_secret : option string).

(** [as_dict]. *)
Definition as_dict (c : TransportCredentials) : list (string * string) :=
  match c with
  | UsernamePasswordCredentials u p => [("username", u); ("password", p)]
  | TokenCredentials token scheme => [("Authorization", scheme +:+ " " +:+ token)]
  | SNMPv2cCredentials community => [("community", community)]
  | SNMPv3Credentials u level ap a pp p =>
      omap (λ e, (λ v, (e.1, v)) <$> e.2)
        [("username", Some u); ("security_level", Some level); ("auth_protocol", ap);
         ("auth_secret", a); ("privacy_protocol", pp); ("privacy_secret", p)]
  end.

(** [CredentialReference]: the text of its [credential_id]. *)
Record CredentialReference := {
  credential_id : string;
  credential_transport : string;
  credential_tenant_id : string;
}.

(** ** The environment provider *)

(** [re.sub(r"[^A-Za-z0-9_\-]", "_", cleaned)], by character. *)
Definition is_key_char (c : ascii) : bool :=
  let n := Ascii.N_of_ascii c in
  ((65 <=? n) && (n <=? 90) || (97 <=? n) && (n <=? 122) || (48 <=? n) && (n <=? 57))%N
  || (c ≟ "_"%char) || (c ≟ "-"%char).

Definition environment_key (cleaned : string) : string :=
  str_upper (str_map (λ c, if is_key_char c then c else "_"%char) cleaned).

(** [EnvironmentSecretProvider.resolve_secret]. *)
Definition environment_secret (prefix : string) (getenv : string → option string)
    (reference : string) : outcome string :=
  if negb (str_truthy prefix) then
    raise_ ProviderConfigurationError "Environment secret provider prefix is not configured."
  else
    let cleaned := str_strip reference in
    if negb (str_truthy cleaned) then
      raise_ InvalidSecretReferenceError "Secret reference is invalid."
    else
      let key := environment_key cleaned in
      if negb (str_truthy (strip_char "_" key)) then
        raise_ InvalidSecretReferenceError "Secret reference is invalid."
      else
        match getenv (prefix +:+ key) with
        | Some v => Ret v
        | None => raise_ SecretNotFoundError "Requested secret was not found."
        end.

(** ** The choice of a provider *)

(** [_normalized]. *)
Definition normalized_setting (v : option string) : option string :=
  let cleaned := str_lower (str_strip (from_option (λ s, s) "" v)) in
  if str_truthy cleaned then Some cleaned else None.

(** [_is_non_production]. *)
Definition is_non_production (app_env : option string) : bool :=
  mem (from_option (λ s, s) "development" (normalized_setting app_env)) ["development"; "test"].

(** [_unsupported_production_backend], which never returns. *)
Definition unsupported_backend {A} (backend : string) : outcome A :=
  if mem backend ["hashicorp_vault"; "vault"] then
    raise_ ProviderConfigurationError
      "HashiCorp Vault secret provider is not implemented for this deployment."
  else
    raise_ ProviderConfigurationError "SECRET_PROVIDER is not a supported production backend.".

(** [build_secret_provider]; the one provider there is reads the environment. *)
Definition build_secret_provider (app_env secret_provider : option string)
    (getenv : string → option string) : outcome (string → outcome string) :=
  let backend := normalized_setting secret_provider in
  if is_non_production app_env then
    let selected := from_option (λ s, s) "environment" backend in
    if selected ≟ "environment" then Ret (environment_secret "NOP_SECRET_" getenv)
    else unsupported_backend selected
  else
    match backend with
    | None => raise_ ProviderConfigurationError
                "SECRET_PROVIDER is required outside development and test."
    | Some b =>
        if b ≟ "environment" then
          raise_ ProviderConfigurationError
            "The environment secret provider cannot be used outside development and test."
        else unsupported_backend b
    end.

(** ** Resolving a reference *)

(** The aliases of [_transport_kind]. *)
Definition TRANSPORT_KINDS : list (string * string) := [
  ("ssh", "ssh"); ("paramiko", "ssh"); ("netmiko", "ssh"); ("telnet", "telnet");
  ("snmp", "snmp"); ("snmpv2c", "snmp"); ("snmpv3", "snmp"); ("pysnmp", "snmp");
  ("http", "http"); ("https", "http"); ("httpx", "http")].

(** [secret_value.split("::")]. *)
Fixpoint split_double (c : ascii) (s : string) : list string :=
  match s with
  | EmptyString => [EmptyString]
  | String a s' =>
      let later := match split_double c s' with
                   | [] => [String a EmptyString]
                   | w :: ws => String a w :: ws
                   end in
      match s' with
      | String b s'' => if (a ≟ c) && (b ≟ c) then EmptyString :: split_double c s'' else later
      | EmptyString => later
      end
  end.

(** The SNMPv3 credentials a secret describes. *)
Definition snmp_v3 (username secret : string) : TransportCredentials :=
  let parts := if str_truthy secret then split_double ":" secret else [] in
  SNMPv3Credentials username
    (match parts with p :: _ => if str_truthy p then p else "authNoPriv" | [] => "authNoPriv" end)
    (nth_error parts 1) (nth_error parts 2) (nth_error parts 3) (nth_error parts 4).

Section Provider.
Context {S : Type}.

Record ProfileSecretCredentialProvider := {
  resolve_secret : string → M S string;
  profile_loader : string → UUID → M S (option Profile.CredentialProfileRecord);
}.

Definition unresolved {A} (message : string) : M S A := raise CredentialResolutionError message.

(** [_profile_id] and [_transport_kind]. *)
Definition profile_id_of (reference : CredentialReference) : M S UUID :=
  match parse_uuid (credential_id reference) with
  | Some id => ret id
  | None => unresolved "Credential profile was not found."
  end.

Definition transport_kind (transport : string) : M S string :=
  match get (str_lower (str_strip transport)) TRANSPORT_KINDS with
  | Some kind => ret kind
  | None => unresolved "Credential profile does not support the selected transport."
  end.

Context (self : ProfileSecretCredentialProvider).

Definition profile_secret (profile : Profile.CredentialProfileRecord) : M S string :=
  resolve_secret self (Profile.provider_reference profile).

(** A user name, and then the password, as three of the transports want it. *)
Definition password_for (profile : Profile.CredentialProfileRecord) (missing : string)
    : M S TransportCredentials :=
  let username := from_option (λ u, u) "" (Profile.username profile) in
  if negb (str_truthy username) then unresolved missing
  else
    password <- profile_secret profile ;;
    ret (UsernamePasswordCredentials username password).

(** [resolve_reference] for each kind of transport. *)
Definition ssh_credentials (profile : Profile.CredentialProfileRecord) (credential_type : string)
    : M S TransportCredentials :=
  if negb (mem credential_type ["ssh_password"; "telnet_password"; "ssh_key"]) then
    unresolved "Credential profile is not compatible with SSH."
  else if credential_type ≟ "ssh_key" then
    token <- profile_secret profile ;; ret (TokenCredentials token "SSH-KEY")
  else password_for profile "Credential profile username is required for SSH.".

Definition telnet_credentials (profile : Profile.CredentialProfileRecord) (credential_type : string)
    : M S TransportCredentials :=
  if negb (mem credential_type ["ssh_password"; "telnet_password"]) then
    unresolved "Credential profile is not compatible with Telnet."
  else password_for profile "Credential profile username is required for Telnet.".

Definition snmp_credentials (profile : Profile.CredentialProfileRecord) (credential_type : string)
    : M S TransportCredentials :=
  if credential_type ≟ "snmp_v2c" then
    community <- profile_secret profile ;; ret (SNMPv2cCredentials community)
  else if credential_type ≟ "snmp_v3" then
    let username := from_option (λ u, u) "" (Profile.username profile) in
    if negb (str_truthy username) then
      unresolved "Credential profile username is required for SNMPv3."
    else
      secret_value <- profile_secret profile ;; ret (snmp_v3 username secret_value)
  else unresolved "Credential profile is not compatible with SNMP.".

Definition http_credentials (profile : Profile.CredentialProfileRecord) (credential_type : string)
    : M S TransportCredentials :=
  if credential_type ≟ "http_basic" then
    password_for profile "Credential profile username is required for HTTP/HTTPS basic auth."
  else if credential_type ≟ "http_token" then
    token <- profile_secret profile ;; ret (TokenCredentials token "Bearer")
  else unresolved "Credential profile is not compatible with HTTP/HTTPS.".

Definition kind_credentials (kind : string) (profile : Profile.CredentialProfileRecord)
    : M S TransportCredentials :=
  let credential_type :=
    str_lower (str_strip (from_option (λ t, t) "" (Profile.credential_type profile))) in
  if kind ≟ "ssh" then ssh_credentials profile credential_type
  else if kind ≟ "telnet" then telnet_credentials profile credential_type
  else if kind ≟ "snmp" then snmp_credentials profile credential_type
  else if kind ≟ "http" then http_credentials profile credential_type
  else unresolved "Credential profile is not compatible with the selected transport.".

(** [ProfileSecretCredentialProvider.resolve_reference]. *)
Definition resolve_reference (reference : CredentialReference) : M S TransportCredentials :=
  profile_id <- profile_id_of reference ;;
  profile <- profile_loader self (credential_tenant_id reference) profile_id ;;
  match profile with
  | None => unresolved "Credential profile was not found."
  | Some profile =>
      if negb (Profile.enabled profile) then unresolved "Credential profile was not found."
      else
        kind <- transport_kind (credential_transport reference) ;;
        match Profile.transport_types profile with
        | None => raise TypeError "'NoneType' object is not iterable"
        | Some types =>
            if negb (mem kind (map (λ t, str_lower (str_strip t)) types))
            then unresolved "Credential profile does not support the selected transport."
            else kind_credentials kind profile
        end
  end.
End Provider.
Arguments ProfileSecretCredentialProvider S : clear implicits.

(** ** What a reference gives access to *)

(** The kinds of credentials by transport and type of profile: how a secret is used. *)
Definition credentials_for (kind : string) (p : Profile.CredentialProfileRecord) (secret : string)
    : option TransportCredentials :=
  let type := str_lower (str_strip (from_option (λ t, t) "" (Profile.credential_type p))) in
  let with_username (f : string → TransportCredentials) :=
    match Profile.username p with
    | Some u => if str_truthy u then Some (f u) else None
    | None => None
    end in
  let password := with_username (λ u, UsernamePasswordCredentials u secret) in
  if kind ≟ "ssh" then
    if type ≟ "ssh_key" then Some (TokenCredentials secret "SSH-KEY")
    else if mem type ["ssh_password"; "telnet_password"] then password else None
  else if kind ≟ "telnet" then
    if mem type ["ssh_password"; "telnet_password"] then password else None
  else if kind ≟ "snmp" then
    if type ≟ "snmp_v2c" then Some (SNMPv2cCredentials secret)
    else if type ≟ "snmp_v3" then with_username (λ u, snmp_v3 u secret) else None
  else if kind ≟ "http" then
    if type ≟ "http_basic" then password
    else if type ≟ "http_token" then Some (TokenCredentials secret "Bearer") else None
  else None.

Definition listed (kind : string) (p : Profile.CredentialProfileRecord) : bool :=
  mem kind (map (λ t, str_lower (str_strip t)) (from_option id [] (Profile.transport_types p))).

(** The messages of a refusal; none has a secret, a user name or a reference in it. *)
Definition refusals : list string := [
  "Credential profile was not found.";
  "Credential profile does not support the selected transport.";
  "Credential profile is not compatible with SSH.";
  "Credential profile username is required for SSH.";
  "Credential profile is not compatible with Telnet.";
  "Credential profile username is required for Telnet.";
  "Credential profile is not compatible with SNMP.";
  "Credential profile username is required for SNMPv3.";
  "Credential profile is not compatible with HTTP/HTTPS.";
  "Credential profile username is required for HTTP/HTTPS basic auth.";
  "Credential profile is not compatible with the selected transport."].

Section Spec.
Context {S : Type} (self : ProfileSecretCredentialProvider S).

Definition refused (r : outcome TransportCredentials) : Prop :=
  (∃ message, message ∈ refusals ∧ r = raise_ CredentialResolutionError message)
  ∨ r = raise_ TypeError "'NoneType' object is not iterable".

(** A profile either refuses without asking for the secret, or asks once for the secret
    it refers to. *)
Definition asks_once (kind : string) (p : Profile.CredentialProfileRecord)
    (m : M S TransportCredentials) : Prop :=
  ∀ w, (refused (m w).1 ∧ (m w).2 = w ∧ ∀ secret, credentials_for kind p secret = None) ∨
    match resolve_secret self (Profile.provider_reference p) w with
    | (Ret secret, w') => ∃ c, m w = (Ret c, w') ∧ credentials_for kind p secret = Some c
    | (Raise e, w') => m w = (Raise e, w')
    end.

Lemma asks_refusing kind p message :
  message ∈ refusals → (∀ secret, credentials_for kind p secret = None) →
  asks_once kind p (unresolved message).
Proof. intros Hm Hn w. left. split; [left; by exists message|done]. Qed.

Lemma asks_asking kind p f :
  (∀ secret, credentials_for kind p secret = Some (f secret)) →
  asks_once kind p (secret <- profile_secret self p ;; ret (f secret)).
Proof.
  intros Hf w. right. unfold profile_secret, bind.
  destruct (resolve_secret self _ w) as [[secret|e] w']; [|done]. by exists (f secret).
Qed.

Lemma asks_username kind p missing f :
  missing ∈ refusals →
  (∀ secret, credentials_for kind p secret =
     match Profile.username p with
     | Some u => if str_truthy u then Some (f u secret) else None
     | None => None
     end) →
  asks_once kind p
    (let username := from_option (λ u, u) "" (Profile.username p) in
     if negb (str_truthy username) then unresolved missing
     else secret <- profile_secret self p ;; ret (f username secret)).
Proof.
  intros Hm Hf. destruct (Profile.username p) as [u|]; [|by apply asks_refusing].
  cbn [from_option]. destruct (str_truthy u) eqn:E; cbn [negb].
  - by apply asks_asking.
  - by apply asks_refusing.
Qed.

Ltac refusal := apply mem_true; reflexivity.
Ltac by_table E := intros; unfold credentials_for; rewrite ?E; reflexivity.

Lemma ssh_asks p :
  asks_once "ssh" p
    (ssh_credentials self p (str_lower (str_strip (from_option (λ t, t) "" (Profile.credential_type p))))).
Proof.
  set (type := str_lower _). unfold ssh_credentials.
  assert (∀ secret, credentials_for "ssh" p secret =
    if type ≟ "ssh_key" then Some (TokenCredentials secret "SSH-KEY")
    else if mem type ["ssh_password"; "telnet_password"] then
      match Profile.username p with
      | Some u => if str_truthy u then Some (UsernamePasswordCredentials u secret) else None
      | None => None end
    else None) as Hspec by done.
  destruct (mem type ["ssh_password"; "telnet_password"; "ssh_key"]) eqn:E3; cbn [negb].
  - destruct (type ≟ "ssh_key") eqn:Ek; [by apply asks_asking|].
    assert (mem type ["ssh_password"; "telnet_password"] = true) as E2.
    { apply mem_true in E3. apply mem_true. apply eqb_false in Ek. set_solver. }
    rewrite E2 in Hspec. by apply asks_username; [refusal|].
  - apply asks_refusing; [refusal|]. intros secret. rewrite Hspec.
    apply mem_false in E3. destruct (type ≟ "ssh_key") eqn:Ek; [rewrite eqb_true in Ek; set_solver|].
    destruct (mem _ _) eqn:E2; [apply mem_true in E2; set_solver|done].
Qed.

Lemma telnet_asks p :
  asks_once "telnet" p
    (telnet_credentials self p (str_lower (str_strip (from_option (λ t, t) "" (Profile.credential_type p))))).
Proof.
  set (type := str_lower _). unfold telnet_credentials.
  assert (∀ secret, credentials_for "telnet" p secret =
    if mem type ["ssh_password"; "telnet_password"] then
      match Profile.username p with
      | Some u => if str_truthy u then Some (UsernamePasswordCredentials u secret) else None
      | None => None end
    else None) as Hspec by done.
  destruct (mem type _) eqn:E2; cbn [negb].
  - by apply asks_username; [refusal|].
  - by apply asks_refusing; [refusal|].
Qed.

Lemma snmp_asks p :
  asks_once "snmp" p
    (snmp_credentials self p (str_lower (str_strip (from_option (λ t, t) "" (Profile.credential_type p))))).
Proof.
  set (type := str_lower _). unfold snmp_credentials.
  assert (∀ secret, credentials_for "snmp" p secret =
    if type ≟ "snmp_v2c" then Some (SNMPv2cCredentials secret)
    else if type ≟ "snmp_v3" then
      match Profile.username p with
      | Some u => if str_truthy u then Some (snmp_v3 u secret) else None
      | None => None end
    else None) as Hspec by done.
  destruct (type ≟ "snmp_v2c"); [by apply asks_asking|].
  destruct (type ≟ "snmp_v3"); [by apply asks_username; [refusal|]|].
  by apply asks_refusing; [refusal|].
Qed.

Lemma http_asks p :
  asks_once "http" p
    (http_credentials self p (str_lower (str_strip (from_option (λ t, t) "" (Profile.credential_type p))))).
Proof.
  set (type := str_lower _). unfold http_credentials.
  assert (∀ secret, credentials_for "http" p secret =
    if type ≟ "http_basic" then
      match Profile.username p with
      | Some u => if str_truthy u then Some (UsernamePasswordCredentials u secret) else None
      | None => None end
    else if type ≟ "http_token" then Some (TokenCredentials secret "Bearer") else None) as Hspec by done.
  destruct (type ≟ "http_basic"); [by apply asks_username; [refusal|]|].
  destruct (type ≟ "http_token"); [by apply asks_asking|].
  by apply asks_refusing; [refusal|].
Qed.

Lemma kind_credentials_spec kind p : asks_once kind p (kind_credentials self kind p).
Proof.
  unfold kind_credentials. cbv zeta.
  destruct (kind ≟ "ssh") eqn:E1; [rewrite eqb_true in E1; subst; apply ssh_asks|].
  destruct (kind ≟ "telnet") eqn:E2; [rewrite eqb_true in E2; subst; apply telnet_asks|].
  destruct (kind ≟ "snmp") eqn:E3; [rewrite eqb_true in E3; subst; apply snmp_asks|].
  destruct (kind ≟ "http") eqn:E4; [rewrite eqb_true in E4; subst; apply http_asks|].
  apply asks_refusing; [refusal|]. intros. unfold credentials_for. by rewrite E1, E2, E3, E4.
Qed.

(** C36. A credential reference gives access to one secret at most: the one of an enabled
    profile that the loader has for the reference's tenant and identifier, that lists
    the kind of the transport, and whose type is compatible with it; then the result is
    the credentials of that type, or the provider's own error.  In every other case the
    provider is not asked, and the error says nothing but which rule refused, or that the
    profile has no list of transports. *)
Theorem resolve_reference_spec reference w :
  match resolve_reference self reference w with
  | (r, w') =>
      (refused r ∧
       (w' = w ∨ ∃ id p, parse_uuid (credential_id reference) = Some id ∧
          profile_loader self (credential_tenant_id reference) id w = (Ret p, w'))) ∨
      (∃ id e, parse_uuid (credential_id reference) = Some id ∧ r = Raise e ∧
         profile_loader self (credential_tenant_id reference) id w = (Raise e, w')) ∨
      (∃ id p kind w1,
         parse_uuid (credential_id reference) = Some id ∧
         profile_loader self (credential_tenant_id reference) id w = (Ret (Some p), w1) ∧
         Profile.enabled p = true ∧
         get (str_lower (str_strip (credential_transport reference))) TRANSPORT_KINDS = Some kind ∧
         listed kind p = true ∧
         match resolve_secret self (Profile.provider_reference p) w1 with
         | (Ret secret, w2) => w' = w2 ∧ ∃ c, r = Ret c ∧ credentials_for kind p secret = Some c
         | (Raise e, w2) => w' = w2 ∧ r = Raise e
         end)
  end.
Proof.
  assert (∀ message, message ∈ refusals → refused (raise_ CredentialResolutionError message)) as Hr
    by (intros m Hm; left; by exists m).
  unfold resolve_reference, profile_id_of, transport_kind, unresolved.
  destruct (parse_uuid (credential_id reference)) as [id|]; unfold bind at 1; cbn [ret raise];
    [|left; split; [apply Hr; refusal|by left]].
  unfold bind at 1.
  destruct (profile_loader self _ id w) as [[[p|]|e] w1] eqn:El.
  2:{ cbn. left. split; [apply Hr; refusal|]. right. by exists id, None. }
  2:{ right. left. by exists id, e. }
  destruct (Profile.enabled p) eqn:Een; cbn [negb].
  2:{ cbn. left. split; [apply Hr; refusal|]. right. by exists id, (Some p). }
  destruct (get _ TRANSPORT_KINDS) as [kind|] eqn:Ek; unfold bind at 1; cbn [ret raise].
  2:{ left. split; [apply Hr; refusal|]. right. by exists id, (Some p). }
  destruct (Profile.transport_types p) as [types|] eqn:Ett.
  2:{ cbn. left. split; [by right|]. right. by exists id, (Some p). }
  replace (mem kind (map _ types)) with (listed kind p) by (unfold listed; by rewrite Ett).
  destruct (listed kind p) eqn:Et; cbn [negb].
  2:{ cbn. left. split; [apply Hr; refusal|]. right. by exists id, (Some p). }
  pose proof (kind_credentials_spec kind p w1) as H.
  destruct (kind_credentials self kind p w1) as [r w'] eqn:E. cbn in H.
  destruct H as [(H & -> & _)|H].
  - left. split; [done|]. right. by exists id, (Some p).
  - right. right. exists id, p, kind, w1. split_and!; [done..|].
    destruct (resolve_secret self _ w1) as [[secret|e] w2].
    + destruct H as (c & [= -> ->] & Hc). eauto.
    + by injection H as -> ->.
Qed.
End Spec.

(** Outside development and test there is no provider at all. *)
Lemma production_fails_closed app_env secret_provider getenv :
  is_non_production app_env = false →
  ∃ message, build_secret_provider app_env secret_provider getenv
    = raise_ ProviderConfigurationError message.
Proof.
  intros H. unfold build_secret_provider, unsupported_backend. rewrite H.
  destruct (normalized_setting secret_provider) as [b|]; [|eauto].
  destruct (b ≟ "environment"); [eauto|]. destruct (mem b _); eauto.
Qed.

(** A key is a name the shell accepts, and different references can share one. *)
Lemma environment_key_chars s :
  str_all (λ c, is_key_char c && (ascii_upper c ≟ c)) (environment_key s) = true.
Proof.
  unfold environment_key, str_upper. induction s as [|c s IH]; [done|]. cbn. rewrite IH, andb_true_r.
  destruct c as [[] [] [] [] [] [] [] []]; reflexivity.
Qed.

Example references_share_a_key : environment_key "core/switch" = environment_key "core switch".
Proof. reflexivity. Qed.

(** ** SNMPv3 secrets *)

Lemma split_double_none c s : str_mem c s = false → split_double c s = [s].
Proof.
  induction s as [|a s IH]; [done|]. cbn [str_mem]. intros [Ha Hs]%orb_false_iff.
  cbn [split_double]. rewrite (IH Hs), Ha. by destruct s.
Qed.

Lemma split_double_app c s t :
  str_mem c s = false → split_double c (s +:+ String c (String c t)) = s :: split_double c t.
Proof.
  induction s as [|a s IH].
  - intros _. change ("" +:+ String c (String c t)) with (String c (String c t)).
    cbn [split_double]. by rewrite eqb_refl.
  - cbn [str_mem]. intros [Ha Hs]%orb_false_iff.
    change (String a s +:+ String c (String c t)) with (String a (s +:+ String c (String c t))).
    cbn [split_double]. rewrite (IH Hs), Ha. by destruct (s +:+ _).
Qed.

(** A secret that is [level::protocol::secret::protocol::secret], none with a colon, is
    read as what it says. *)
Lemma snmp_v3_reads username level ap a pp p :
  str_truthy level = true → Forall (λ s, str_mem ":" s = false) [level; ap; a; pp; p] →
  snmp_v3 username (level +:+ "::" +:+ ap +:+ "::" +:+ a +:+ "::" +:+ pp +:+ "::" +:+ p) =
  SNMPv3Credentials username level (Some ap) (Some a) (Some pp) (Some p).
Proof.
  intros Hl H. repeat (apply Forall_cons in H as [? H]). unfold snmp_v3.
  assert (∀ s, str_truthy (level +:+ s) = true) as -> by (intros s; by destruct level).
  assert (∀ s t, str_mem ":" s = false →
    split_double ":" (s +:+ "::" +:+ t) = s :: split_double ":" t) as Hs
    by (intros s t; apply split_double_app).
  rewrite !Hs, split_double_none by done. cbn [nth_error]. by rewrite Hl.
Qed.

(** ** An instance *)

(** A store with one profile, and a provider that answers everything with ["pw"]. *)
Definition demo_profile (types : list string) (type : string) : Profile.CredentialProfileRecord := {|
  Profile.id := 1%N; Profile.tenant_id := "t"; Profile.name := "p"; Profile.description := None;
  Profile.vendor := None; Profile.platform := None; Profile.credential_type := Some type;
  Profile.username := Some "admin"; Profile.transport_types := Some types;
  Profile.provider_reference := "core"; Profile.secret_status := "configured";
  Profile.enabled := true; Profile.created_at := 0; Profile.updated_at := 0 |}.

Definition demo_provider (p : Profile.CredentialProfileRecord)
    : ProfileSecretCredentialProvider unit := {|
  resolve_secret _ := ret "pw";
  profile_loader tenant id := ret (if (tenant ≟ "t") && (id ≟ 1%N) then Some p else None) |}.

Definition demo_reference (tenant transport : string) : CredentialReference := {|
  credential_id := uuid_str 1%N; credential_transport := transport;
  credential_tenant_id := tenant |}.

Definition resolved (types : list string) (type tenant transport : string)
    : outcome TransportCredentials :=
  (resolve_reference (demo_provider (demo_profile types type)) (demo_reference tenant transport) tt).1.

Example resolves :
  resolved ["ssh"] "ssh_password" "t" "netmiko" = Ret (UsernamePasswordCredentials "admin" "pw").
Proof. vm_compute. reflexivity. Qed.

Example other_tenant_refused :
  resolved ["ssh"] "ssh_password" "u" "netmiko"
    = raise_ CredentialResolutionError "Credential profile was not found.".
Proof. vm_compute. reflexivity. Qed.

(** A profile for HTTPS alone serves no transport: the kind of [https] is [http]. *)
Example https_profile_refused :
  resolved ["https"] "http_basic" "t" "https"
    = raise_ CredentialResolutionError "Credential profile does not support the selected transport.".
Proof. vm_compute. reflexivity. Qed.

(** The name under which the Cisco collector looks for Telnet has no kind. *)
Example telnetlib_refused :
  resolved ["telnet"] "telnet_password" "t" "telnetlib"
    = raise_ CredentialResolutionError "Credential profile does not support the selected transport.".
Proof. vm_compute. reflexivity. Qed.
