(* ===== verification/TransportManager.v ===== *)
(** * The transport manager ([transports/manager.py], [transports/registry.py])

    Opening a session through the circuit breaker, the rate limiter, the
    registry and the pool, by one task.  Transports, credential providers and
    the wait for the limiter are interfaces: computations on the manager's
    world. *)

From S2P Require Import Prelude Vocabulary Effects Json Resilience.
From S2P Require Import Credentials Resilience.
Import Transport.
#[local] Open Scope Z_scope.

(** What the manager's methods read and change; [outside] is the rest of the
    world. *)
Record World (R : Type) := {
  breaker : CircuitBreaker;
  connections : ConnectionPool;
  clock : nat → datetime;
  ticks : nat;
  outside : R;
}.
Arguments breaker {R} _.
Arguments connections {R} _.
Arguments clock {R} _ _.
Arguments ticks {R} _.
Arguments outside {R} _.

Section Manager.
Context {R : Type}.

Definition eta_world (w : World R) : World R := {|
  breaker := breaker w; connections := connections w; clock := clock w; ticks := ticks w;
  outside := outside w |}.

Definition set_breaker v (w : World R) : World R := ltac:(record_with eta_world (@breaker R) w v).
Definition set_connections v (w : World R) : World R :=
  ltac:(record_with eta_world (@connections R) w v).
Definition set_ticks v (w : World R) : World R := ltac:(record_with eta_world (@ticks R) w v).

(** [datetime.now(UTC)]. *)
Definition now : M (World R) datetime := λ w,
  (Ret (clock w (ticks w)), set_ticks (S (ticks w)) w).

(** [TransportTimeout], [TransportTarget] and [TransportContext]. *)
Record TransportTimeout := {
  connect_seconds : option float;
  read_seconds : option float;
  write_seconds : option float;
  total_seconds : option float;
}.

Definition default_timeout : TransportTimeout := {|
  connect_seconds := Some 10%Q; read_seconds := Some 30%Q; write_seconds := Some 30%Q;
  total_seconds := None |}.

Record TransportTarget := {
  target_identifier : string;
  target_address : string;
  target_metadata : dict;
  credential_reference : option CredentialReference;
}.

Record TransportContext := {
  context_target : TransportTarget;
  context_capabilities : list TransportCapability;
  credentials : option TransportCredentials;
  session_timeout : option TransportTimeout;
  session_retry_policy : option TransportRetryPolicy;
  session_metadata : dict;
}.

(** [BaseTransport], and the [open] of the sessions it creates. *)
Record BaseTransport := {
  name : string;
  capabilities : list TransportCapability;
  health_check : TransportContext → M (World R) unit;
  create_session : TransportContext → M (World R) TransportSession;
  open_session_of : TransportSession → M (World R) TransportSession;
}.

Record TransportManager := {
  registry : list (string * BaseTransport);
  (* [rate_limiter.acquire()], or nothing without a limiter *)
  throttle : M (World R) unit;
  (* [credential_provider.resolve_reference] and [credential_resolver.resolve] *)
  credential_provider : option (CredentialReference → M (World R) (option TransportCredentials));
  credential_resolver : option (TransportContext → M (World R) (option TransportCredentials));
  (* [timeout] and [retry_policy], which the contexts are given *)
  timeout : TransportTimeout;
  retry_policy : TransportRetryPolicy;
  (* [TransportSession.close] *)
  close : TransportSession → M (World R) unit;
}.

(** [TransportRegistry.register]: a dict keyed by the transports' names. *)
Fixpoint register (t : BaseTransport) (transports : list (string * BaseTransport))
    : list (string * BaseTransport) :=
  match transports with
  | [] => [(name t, t)]
  | (n, t') :: rest => if n ≟ name t then (n, t) :: rest else (n, t') :: register t rest
  end.

(** [TransportRegistry.get] and [TransportRegistry.select]. *)
Definition resolve (self : TransportManager) (n : string) : M (World R) BaseTransport :=
  match List.find (λ e, fst e ≟ n) (registry self) with
  | Some (_, t) => ret t
  | None => raise TransportUnavailableError ("Unknown transport: " +:+ n)
  end.

Definition select (self : TransportManager) (caps : list TransportCapability)
    : list BaseTransport :=
  List.filter (λ t, forallb (λ c, mem c (capabilities t)) caps) (map snd (registry self)).

(** [TransportManager.select_ordered]: of the transports with the same name the
    dict keeps the last. *)
Definition select_ordered (self : TransportManager) (caps : list TransportCapability)
    (ordered_names : list string) : list BaseTransport :=
  let selected := select self caps in
  omap (λ n, List.find (λ t, name t ≟ n) (rev selected)) ordered_names.

(** [TransportManager.resolve_credentials] and [build_context]. *)
Definition resolve_credentials (self : TransportManager) (target : TransportTarget)
    (caps : list TransportCapability) : M (World R) (option TransportCredentials) :=
  match credential_provider self, credential_reference target with
  | Some provider, Some reference => provider reference
  | _, _ =>
      match credential_resolver self with
      | None => ret None
      | Some resolver =>
          resolver {| context_target := target; context_capabilities := caps;
                      credentials := None; session_timeout := None;
                      session_retry_policy := None; session_metadata := [] |}
      end
  end.

Definition build_context (self : TransportManager) (target : TransportTarget)
    (caps : list TransportCapability) : M (World R) TransportContext :=
  c <- resolve_credentials self target caps ;;
  ret {| context_target := target; context_capabilities := caps; credentials := c;
         session_timeout := Some (timeout self); session_retry_policy := Some (retry_policy self);
         session_metadata := [] |}.

(** [TransportManager._pool_key]. *)
Definition pool_key (transport_name identifier : string) : string :=
  transport_name +:+ ":" +:+ identifier.

(** [Resilience.get_or_create] by one task. *)
Definition get_or_create (key : string) (transport : BaseTransport) (ctx : TransportContext)
    : M (World R) TransportSession :=
  p <- gets connections ;;
  found <- of_outcome (look_up key p) ;;
  match found with
  | Some s => ret s
  | None =>
      s <- create_session transport ctx ;;
      s <- open_session_of transport s ;;
      modify (λ w, set_connections (store key s (connections w)) w) ;;;
      ret s
  end.

Definition note_failure : M (World R) unit :=
  t <- now ;; modify (λ w, set_breaker (record_failure t (breaker w)) w).

(** [TransportManager.open_session] up to its [try]: the limiter, the registry and
    the context; [capabilities or transport.capabilities]. *)
Definition prepare_session (self : TransportManager) (transport_name : string)
    (target : TransportTarget) (caps : option (list TransportCapability))
    : M (World R) (BaseTransport * TransportContext) :=
  throttle self ;;;
  transport <- resolve self transport_name ;;
  ctx <- build_context self target
           (match caps with Some (c :: cs) => c :: cs | _ => capabilities transport end) ;;
  ret (transport, ctx).

Definition open_session (self : TransportManager) (transport_name : string)
    (target : TransportTarget) (caps : option (list TransportCapability))
    : M (World R) TransportSession :=
  t <- now ;;
  b <- gets breaker ;;
  let '(allowed, b) := allow_request t b in
  modify (set_breaker b) ;;;
  if negb allowed then raise RuntimeError "Transport circuit breaker is open."
  else
    '(transport, ctx) <- prepare_session self transport_name target caps ;;
    session <- try_except
      (health_check transport ctx ;;;
       get_or_create (pool_key transport_name (target_identifier target)) transport ctx)
      (λ exc, if isinstance exc Exception_ then note_failure ;;; reraise exc else reraise exc) ;;
    modify (λ w, set_breaker (record_success (breaker w)) w) ;;;
    ret session.

(** [Resilience.release], of [TransportManager.close_session]: the session is
    out of the pool before it is closed. *)
Definition release (self : TransportManager) (key : string) : M (World R) unit :=
  p <- gets connections ;;
  match sessions p !! key with
  | None => ret tt
  | Some s => modify (λ w, set_connections (drop key (connections w)) w) ;;; close self s
  end.

Definition close_session (self : TransportManager) (transport_name : string)
    (target : TransportTarget) : M (World R) unit :=
  release self (pool_key transport_name (target_identifier target)).

(** [Resilience.close_all], of [TransportManager.close_all]; [keys] are those of the
    pool's dict, in its order. *)
Definition close_all (self : TransportManager) (keys : list string) : M (World R) unit :=
  for_each keys (release self).

(** ** The registry *)

(** A registry that [register] filled. *)
Definition registered (ts : list BaseTransport) : list (string * BaseTransport) :=
  fold_left (λ l t, register t l) ts [].

Lemma find_app {A} (p : A → bool) l1 l2 :
  List.find p (l1 ++ l2) = match List.find p l1 with Some x => Some x | None => List.find p l2 end.
Proof. induction l1 as [|x l1 IH]; [done|]. cbn. by destruct (p x). Qed.

Lemma find_register n t l :
  List.find (λ e, fst e ≟ n) (register t l) =
    if name t ≟ n then Some (name t, t) else List.find (λ e, fst e ≟ n) l.
Proof.
  induction l as [|[n' t'] l IH]; cbn; [done|].
  destruct (n' ≟ name t) eqn:E1; cbn.
  - rewrite eqb_true in E1. subst n'. by destruct (name t ≟ n).
  - destruct (n' ≟ n) eqn:E2; [|done]. rewrite eqb_true in E2. subst n'.
    destruct (name t ≟ n) eqn:E3; [|done]. rewrite eqb_true in E3. subst n.
    by rewrite eqb_refl in E1.
Qed.

Lemma register_names t l x : x ∈ map fst (register t l) → x = name t ∨ x ∈ map fst l.
Proof.
  induction l as [|[n' t'] l IH]; cbn; [set_solver|].
  destruct (n' ≟ name t) eqn:E1; cbn; [set_solver|].
  set_solver.
Qed.

Lemma register_keys t l :
  NoDup (map fst l) → Forall (λ e, name (snd e) = fst e) l →
  NoDup (map fst (register t l)) ∧ Forall (λ e, name (snd e) = fst e) (register t l).
Proof.
  induction l as [|[n' t'] l IH]; cbn; intros Hd Hf.
  { split; [apply NoDup_singleton|by repeat constructor]. }
  apply NoDup_cons in Hd as [Hn Hd]. apply Forall_cons in Hf as [Hx Hf].
  destruct (n' ≟ name t) eqn:E1; cbn.
  - rewrite eqb_true in E1. split; [by apply NoDup_cons|by constructor].
  - destruct (IH Hd Hf) as [IH1 IH2]. split; [|by constructor].
    apply NoDup_cons. split; [|done]. intros [->|?]%register_names; [|done].
    by rewrite eqb_refl in E1.
Qed.

Lemma registered_snoc ts t : registered (ts ++ [t]) = register t (registered ts).
Proof. unfold registered. by rewrite fold_left_app. Qed.

Lemma registered_keys ts :
  NoDup (map fst (registered ts)) ∧ Forall (λ e, name (snd e) = fst e) (registered ts).
Proof.
  induction ts as [|t ts [IH1 IH2]] using rev_ind; [split; constructor|].
  rewrite registered_snoc. by apply register_keys.
Qed.

Lemma find_registered n ts :
  List.find (λ e, fst e ≟ n) (registered ts) =
    (λ t, (name t, t)) <$> List.find (λ t, name t ≟ n) (rev ts).
Proof.
  induction ts as [|t ts IH] using rev_ind; [done|].
  rewrite registered_snoc, find_register, rev_app_distr. cbn. rewrite IH.
  by destruct (name t ≟ n).
Qed.

Lemma find_none_named n (l : list (string * BaseTransport)) f :
  n ∉ map fst l → Forall (λ e, name (snd e) = fst e) l →
  List.find (λ t, name t ≟ n) (rev (List.filter f (map snd l))) = None.
Proof.
  intros Hn Hf. destruct (List.find _ _) as [t|] eqn:E; [|done]. exfalso.
  apply List.find_some in E as [E Et]. rewrite eqb_true in Et.
  apply in_rev, filter_In in E as [E _]. apply in_map_iff in E as ([n' t'] & <- & E).
  apply Hn. apply list_elem_of_In, in_map_iff. exists (n', t'). split; [|done].
  rewrite Forall_forall in Hf. specialize (Hf _ (proj2 (list_elem_of_In _ _) E)). cbn in *. congruence.
Qed.

Lemma find_selected n f l :
  NoDup (map fst l) → Forall (λ e, name (snd e) = fst e) l →
  List.find (λ t, name t ≟ n) (rev (List.filter f (map snd l))) =
    match List.find (λ e, fst e ≟ n) l with
    | Some (_, t) => if f t then Some t else None
    | None => None
    end.
Proof.
  induction l as [|[n' t'] l IH]; cbn; intros Hd Hf; [done|].
  apply NoDup_cons in Hd as [Hn Hd]. apply Forall_cons in Hf as [Hx Hf]. cbn in Hn, Hx.
  destruct (n' ≟ n) eqn:E1.
  - rewrite eqb_true in E1. subst n n'.
    destruct (f t'); cbn; rewrite ?find_app, find_none_named by done; [|done].
    cbn. by rewrite eqb_refl.
  - destruct (f t'); cbn; rewrite ?find_app, IH by done; [|done].
    cbn. rewrite Hx, E1. by repeat case_match.
Qed.

(** A registry answers for a name with the transport registered last under
    it, and fails for a name never registered; the selection for capabilities in
    a policy order has, in that order, exactly the transports of those names
    that offer all the capabilities. *)
Theorem registry_answers self ts n caps names w (Hr : registry self = registered ts) :
  resolve self n w =
    (match List.find (λ t, name t ≟ n) (rev ts) with
     | Some t => Ret t
     | None => raise_ TransportUnavailableError ("Unknown transport: " +:+ n)
     end, w) ∧
  select_ordered self caps names =
    omap (λ n,
      match List.find (λ t, name t ≟ n) (rev ts) with
      | Some t => if forallb (λ c, mem c (capabilities t)) caps then Some t else None
      | None => None
      end) names.
Proof.
  split.
  - unfold resolve. rewrite Hr, find_registered. by destruct (List.find _ (rev ts)).
  - unfold select_ordered, select. rewrite Hr. destruct (registered_keys ts) as [Hd Hf].
    induction names as [|m names IH]; [done|]. cbn.
    rewrite find_selected, find_registered by done.
    destruct (List.find (λ t, name t ≟ m) (rev ts)); cbn;
      [case_match|]; by rewrite <-IH.
Qed.

(** Closing all sessions empties the pool of the keys, if closing a session touches
    nothing of the pool and does not fail. *)
Lemma close_all_empties self keys w :
  (∀ s w, ∃ w', close self s w = (Ret tt, w') ∧ connections w' = connections w) →
  ∃ w', close_all self keys w = (Ret tt, w') ∧
    ∀ k, sessions (connections w') !! k = if mem k keys then None else sessions (connections w) !! k.
Proof.
  intros Hclose. unfold close_all. revert w. induction keys as [|key keys IH]; intros w; cbn.
  { by exists w. }
  assert (∃ w1, release self key w = (Ret tt, w1) ∧
    sessions (connections w1) = delete key (sessions (connections w))) as (w1 & E & H1).
  { unfold release, bind at 1, gets. destruct (sessions (connections w) !! key) as [s|] eqn:Es.
    - unfold bind, modify. destruct (Hclose s (set_connections (drop key (connections w)) w))
        as (w1 & -> & Hw). exists w1. split; [done|]. by rewrite Hw.
    - exists w. split; [done|]. by rewrite delete_id. }
  rewrite (bind_Ret _ _ _ _ _ E). destruct (IH w1) as (w' & -> & H). exists w'. split; [done|].
  intros k. rewrite H, H1. unfold mem.
  destruct (decide (k = key)) as [->|Hk].
  - rewrite (bool_decide_true (key ∈ key :: keys)) by set_solver. rewrite lookup_delete_eq.
    by case_match.
  - rewrite lookup_delete_ne by done.
    rewrite (bool_decide_ext (k ∈ key :: keys) (k ∈ keys)) by set_solver. done.
Qed.

(** ** What the collaborators may touch *)

(** Breaker and pool stay as they are. *)
Definition apart (w w' : World R) : Prop :=
  breaker w' = breaker w ∧ connections w' = connections w.

#[export] Instance apart_preorder : PreOrder apart.
Proof. split; [done|]. intros a b c [] []. split; congruence. Qed.

Record manager_apart (self : TransportManager) : Prop := {
  ma_throttle : preserves apart (throttle self);
  ma_provider : ∀ f r, credential_provider self = Some f → preserves apart (f r);
  ma_resolver : ∀ f c, credential_resolver self = Some f → preserves apart (f c);
  ma_transports : ∀ n t, (n, t) ∈ registry self →
    (∀ c, preserves apart (health_check t c)) ∧ (∀ c, preserves apart (create_session t c)) ∧
    (∀ s, preserves apart (open_session_of t s));
}.

Lemma preserves_now : preserves apart now.
Proof. done. Qed.

Lemma preserves_resolve self n : preserves apart (resolve self n).
Proof. unfold resolve. preserves_auto. Qed.

Lemma resolve_Ret self n w t w' :
  resolve self n w = (Ret t, w') → w' = w ∧ ∃ n', (n', t) ∈ registry self.
Proof.
  unfold resolve. destruct (List.find _ _) as [[n' t']|] eqn:E; [|done]. intros [= <- <-].
  split; [done|]. exists n'. apply List.find_some in E as [E _]. by apply list_elem_of_In.
Qed.

Lemma preserves_build_context self target caps :
  manager_apart self → preserves apart (build_context self target caps).
Proof.
  intros [_ Hp Hr _]. unfold build_context, resolve_credentials. preserves_auto; eauto.
Qed.

(** Only the pool's entry for the key may change, from nothing to the session
    returned. *)
Lemma get_or_create_spec self n transport key ctx w r w' :
  manager_apart self → (n, transport) ∈ registry self →
  get_or_create key transport ctx w = (r, w') →
  breaker w' = breaker w ∧
  match r with
  | Raise _ => connections w' = connections w
  | Ret s =>
      (sessions (connections w) !! key = Some s ∧ connections w' = connections w) ∨
      (sessions (connections w) !! key = None ∧ pool_size (connections w) < max_size (connections w)
       ∧ connections w' = store key s (connections w))
  end.
Proof.
  intros Ha Hin H. destruct (ma_transports _ Ha _ _ Hin) as (_ & Hc & Ho). unfold get_or_create in H.
  erewrite bind_Ret in H by reflexivity.
  destruct (look_up key (connections w)) as [[s|]|e] eqn:El;
    [erewrite bind_Ret in H by reflexivity..|erewrite bind_Raise in H by reflexivity].
  - injection H as <- <-. apply look_up_cached in El. auto.
  - apply look_up_room in El as [Hk Hm].
    apply bind_inv in H as [(s & w1 & E1 & H)|(e & E1 & ->)];
      specialize (Hc ctx w); rewrite E1 in Hc; destruct Hc as [Hb1 Hp1]; cbn in Hb1, Hp1; [|auto].
    apply bind_inv in H as [(s' & w2 & E2 & H)|(e & E2 & ->)];
      specialize (Ho s w1); rewrite E2 in Ho; destruct Ho as [Hb2 Hp2]; cbn in Hb2, Hp2.
    + injection H as <- <-. cbn. split; [congruence|]. right. by rewrite Hp2, Hp1.
    + split; congruence.
  - by injection H as <- <-.
Qed.

Lemma prepare_session_spec self n target caps w r w' :
  manager_apart self → prepare_session self n target caps w = (r, w') →
  apart w w' ∧
  match r with Ret (transport, _) => ∃ n', (n', transport) ∈ registry self | Raise _ => True end.
Proof.
  intros Ha H. split.
  { assert (preserves apart (prepare_session self n target caps)) as Hp.
    { unfold prepare_session. pose proof preserves_build_context. pose proof preserves_resolve.
      pose proof (ma_throttle _ Ha). preserves_auto; eauto. }
    specialize (Hp w). by rewrite H in Hp. }
  destruct r as [[transport ctx]|e]; [|done]. unfold prepare_session in H.
  apply bind_inv in H as [([] & w1 & _ & H)|(e & _ & H)]; [|done].
  apply bind_inv in H as [(t & w2 & E & H)|(e & _ & H)]; [|done].
  apply bind_inv in H as [(c & w3 & _ & H)|(e & _ & H)]; [|done].
  injection H as <- <- <-. by apply resolve_Ret in E as [_ ?].
Qed.

(** What the [try] of [open_session] does to breaker and pool. *)
Lemma attempt_session_spec self n transport key ctx w r w' :
  manager_apart self → (n, transport) ∈ registry self →
  try_except (health_check transport ctx ;;; get_or_create key transport ctx)
    (λ exc, if isinstance exc Exception_ then note_failure ;;; reraise exc else reraise exc) w
    = (r, w') →
  match r with
  | Raise e =>
      connections w' = connections w ∧
      if isinstance e Exception_ then ∃ t, breaker w' = record_failure t (breaker w)
      else breaker w' = breaker w
  | Ret s =>
      breaker w' = breaker w ∧
      ((sessions (connections w) !! key = Some s ∧ connections w' = connections w) ∨
       (sessions (connections w) !! key = None ∧ pool_size (connections w) < max_size (connections w)
        ∧ connections w' = store key s (connections w)))
  end.
Proof.
  intros Ha Hin. unfold try_except.
  destruct ((health_check transport ctx ;;; get_or_create key transport ctx) w)
    as [r1 w1] eqn:E.
  assert (breaker w1 = breaker w ∧
    match r1 with
    | Raise _ => connections w1 = connections w
    | Ret s =>
        (sessions (connections w) !! key = Some s ∧ connections w1 = connections w) ∨
        (sessions (connections w) !! key = None ∧
         pool_size (connections w) < max_size (connections w)
         ∧ connections w1 = store key s (connections w))
    end) as [Hb Hc].
  { destruct (ma_transports _ Ha _ _ Hin) as (Hh & _ & _). specialize (Hh ctx w).
    apply bind_inv in E as [([] & w2 & E1 & E)|(e & E1 & ->)];
      rewrite E1 in Hh; destruct Hh as [Hb Hp]; cbn in Hb, Hp; [|done].
    eapply get_or_create_spec in E; [|done..]. rewrite Hb, Hp in E. done. }
  destruct r1 as [s|e].
  - intros H. injection H as <- <-. done.
  - destruct (isinstance e Exception_) eqn:Ee; intros H; injection H as <- <-; rewrite Ee.
    + cbn. split; [done|]. eexists. by rewrite Hb.
    + done.
Qed.

(** Opening a session goes by the breaker.  When the breaker refuses, the
    error is raised at once and nothing else is called; when it allows, a session
    returned is the pooled one of the key, or a new one for which the pool had
    room and which is the pool's only new entry, and the breaker records one
    success; an error leaves the pool as it was, and counts as a failure exactly
    when it is an [Exception] of the attempt itself, not of the limiter, the
    registry or the credentials. *)
Theorem open_session_spec self n target caps w r w'
    (Ha : manager_apart self) (H : open_session self n target caps w = (r, w')) :
  let key := pool_key n (target_identifier target) in
  let '(allowed, b) := allow_request (clock w (ticks w)) (breaker w) in
  let w1 := set_breaker b (set_ticks (S (ticks w)) w) in
  if negb allowed
  then r = raise_ RuntimeError "Transport circuit breaker is open." ∧ w' = w1
  else
    match r with
    | Ret s =>
        breaker w' = record_success b ∧
        ((sessions (connections w) !! key = Some s ∧ connections w' = connections w) ∨
         (sessions (connections w) !! key = None ∧
          pool_size (connections w) < max_size (connections w) ∧
          connections w' = store key s (connections w)))
    | Raise e =>
        connections w' = connections w ∧
        if is_ret (fst (prepare_session self n target caps w1)) && isinstance e Exception_
        then ∃ t, breaker w' = record_failure t b
        else breaker w' = b
    end.
Proof.
  intros key. unfold open_session in H.
  erewrite bind_Ret in H by reflexivity. erewrite bind_Ret in H by reflexivity.
  cbn [breaker set_ticks] in H.
  destruct (allow_request _ _) as [allowed b]. erewrite bind_Ret in H by reflexivity.
  cbv zeta. set (w1 := set_breaker b (set_ticks (S (ticks w)) w)) in *.
  destruct allowed; cbn [negb] in H |- *; [|by injection H as <- <-].
  destruct (prepare_session self n target caps w1) as [r1 w2] eqn:E1.
  pose proof (prepare_session_spec _ _ _ _ _ _ _ Ha E1) as [[Hb2 Hp2] Hr].
  change (breaker w1) with b in Hb2. change (connections w1) with (connections w) in Hp2.
  destruct r1 as [[transport ctx]|e]; cbn [is_ret fst andb].
  - destruct Hr as [n' Hin]. erewrite bind_Ret in H by exact E1. cbv iota beta in H.
    apply bind_inv in H as [(s & w3 & E2 & H)|(e & E2 & ->)].
    + eapply attempt_session_spec in E2 as [Hb3 Hp3]; [|done..]. injection H as <- <-.
      rewrite Hp2 in Hp3. cbn. split; [congruence|]. exact Hp3.
    + eapply attempt_session_spec in E2 as [Hp3 Hb3]; [|done..].
      rewrite Hb2 in Hb3. split; [congruence|]. exact Hb3.
  - erewrite bind_Raise in H by exact E1. injection H as <- <-. split; congruence.
Qed.
End Manager.

(** ** An instance *)

(** A transport without health check whose sessions open at the instant 7. *)
Definition demo_transport (n : string) (caps : list TransportCapability) (healthy : bool)
    : @BaseTransport unit := {|
  name := n; capabilities := caps;
  health_check := λ _,
    if healthy then ret tt else raise TransportHealthCheckError "unhealthy";
  create_session := λ ctx, ret {|
    session_id := target_identifier (context_target ctx);
    session_opened_at := None; session_closed_at := None |};
  open_session_of := λ s, ret (open_at 7 s);
|}.

Definition demo_manager (ts : list BaseTransport) : @TransportManager unit := {|
  registry := registered ts; throttle := ret tt;
  credential_provider := None; credential_resolver := None; timeout := default_timeout;
  retry_policy := default_policy; close := λ _, ret tt;
|}.

Definition demo_world : World unit := {|
  breaker := new_breaker 1 30%Q 1; connections := {| max_size := 1; sessions := ∅ |};
  clock := λ k, Z.of_nat k; ticks := 0; outside := tt;
|}.

Definition demo_target : TransportTarget := {|
  target_identifier := "r1"; target_address := "10.0.0.1"; target_metadata := [];
  credential_reference := None;
|}.

Lemma demo_transport_apart n caps healthy :
  (∀ c, preserves apart (health_check (demo_transport n caps healthy) c)) ∧
  (∀ c, preserves apart (create_session (demo_transport n caps healthy) c)) ∧
  (∀ s, preserves apart (open_session_of (demo_transport n caps healthy) s)).
Proof. split_and!; intros x w; cbn; [by destruct healthy|done..]. Qed.

Lemma demo_manager_apart n caps healthy :
  manager_apart (demo_manager [demo_transport n caps healthy]).
Proof.
  split; [done..|]. intros m t Hin. cbn in Hin.
  apply list_elem_of_singleton in Hin. injection Hin as -> ->. apply demo_transport_apart.
Qed.

(** A healthy transport fills the pool; an unhealthy one trips a breaker of
    threshold one, and the next request is refused. *)
Lemma open_session_spec_witness :
  let healthy := demo_manager [demo_transport "ssh" [SSH] true] in
  let unhealthy := demo_manager [demo_transport "ssh" [SSH] false] in
  let w1 := (open_session unhealthy "ssh" demo_target None demo_world).2 in
  (∃ s, (open_session healthy "ssh" demo_target None demo_world).1 = Ret s ∧ is_open s = true) ∧
  state (breaker w1) = OPEN ∧
  (open_session unhealthy "ssh" demo_target None w1).1 =
    raise_ RuntimeError "Transport circuit breaker is open.".
Proof.
  intros healthy unhealthy w1. split; [|split].
  - eexists. split; [reflexivity|reflexivity].
  - pose proof (open_session_spec unhealthy "ssh" demo_target None demo_world
      (raise_ TransportHealthCheckError "unhealthy") w1 (demo_manager_apart _ _ _)
      ltac:(vm_compute; reflexivity)) as [_ [t Ht]].
    rewrite Ht. reflexivity.
  - pose proof (open_session_spec unhealthy "ssh" demo_target None w1 _ _
      (demo_manager_apart _ _ _) (surjective_pairing _)) as H.
    vm_compute in H. apply H.
Defined.

Lemma registry_answers_witness :
  let old := demo_transport "ssh" [SSH] true in
  let new := demo_transport "ssh" [SSH; SNMP] true in
  let telnet := demo_transport "telnet" [TELNET] true in
  map name (select_ordered (demo_manager [old; telnet; new]) [SNMP] ["telnet"; "ssh"]) = ["ssh"].
Proof.
  intros old new telnet.
  destruct (registry_answers (demo_manager [old; telnet; new]) [old; telnet; new] "ssh" [SNMP]
    ["telnet"; "ssh"] demo_world eq_refl) as [_ ->].
  reflexivity.
Defined.
