(* ===== verification/Adapters.v ===== *)
(** * The transport adapters ([transports/_support.py], [transports/ssh/], [telnet/],
    [snmp/], [http/])

    What each transport makes of a context: the parameters its session connects with.
    The client libraries are interfaces; the Telnet login, which the repository drives
    itself, is a computation on a connection. *)

From S2P Require Import Prelude Vocabulary Effects Json Dicts Texts Credentials.
From S2P Require Import Resilience TransportManager.
Import Transport.
#[local] Open Scope Z_scope.

(** ** Helpers *)

(** [extract_username_password]. *)
Definition extract_username_password (c : option TransportCredentials)
    : option string * option string :=
  match c with
  | Some (UsernamePasswordCredentials u p) => (Some u, Some p)
  | Some (TokenCredentials token _) => (Some token, None)
  | _ => (None, None)
  end.

(** [credential_headers]. *)
Definition credential_headers (c : option TransportCredentials) : list (string * string) :=
  match c with None => [] | Some c => as_dict c end.

(** [metadata_string], [metadata_optional_string] and [metadata_int]; a Boolean is an
    integer. *)
Definition metadata_string (metadata : dict) (key default : string) : outcome string :=
  match dict_get_default key (JStr default) metadata with
  | JStr s => Ret s
  | _ => raise_ TransportConfigurationError ("Metadata value '" +:+ key +:+ "' must be a string.")
  end.

Definition metadata_optional_string (metadata : dict) (key : string) : outcome (option string) :=
  match dict_get key metadata with
  | None | Some JNull => Ret None
  | Some (JStr s) => Ret (Some s)
  | Some _ => raise_ TransportConfigurationError
                ("Metadata value '" +:+ key +:+ "' must be a string when provided.")
  end.

Definition metadata_int (metadata : dict) (key : string) (default : Z) : outcome Z :=
  match dict_get_default key (JInt default) metadata with
  | JInt n => Ret n
  | JBool b => Ret (if b then 1 else 0)
  | JStr s =>
      match py_int s with
      | Some n => Ret n
      | None => raise_ ValueError ("invalid literal for int() with base 10: " +:+ str_repr s)
      end
  | _ => raise_ TransportConfigurationError ("Metadata value '" +:+ key +:+ "' must be an integer.")
  end.

(** The scheme [urllib.parse.urlparse] finds in an address, or its [ValueError]. *)
Class UrlParse := url_scheme : string → outcome string.

(** [s.rstrip("/")] is [rstrip_char]. *)
Definition normalize_base_url {HU : UrlParse} (address : string) : outcome string :=
  match url_scheme address with
  | Raise e => Raise e
  | Ret scheme =>
      if str_truthy scheme then Ret (rstrip_char "/" address)
      else if negb (str_truthy address) then
        raise_ TransportConfigurationError "HTTP target address is required."
      else Ret (rstrip_char "/" ("https://" +:+ address))
  end.

(** ** The five transports *)

Record TransportAdapter := {
  transport_name : string;
  transport_capabilities : list TransportCapability;
}.

Definition NetmikoSSHTransport := {| transport_name := "netmiko"; transport_capabilities := [SSH] |}.
Definition ParamikoSSHTransport := {| transport_name := "paramiko"; transport_capabilities := [SSH] |}.
Definition TelnetTransport := {| transport_name := "telnet"; transport_capabilities := [TELNET] |}.
Definition PySnmpTransport := {| transport_name := "pysnmp"; transport_capabilities := [SNMP] |}.
Definition HttpxTransport := {| transport_name := "httpx"; transport_capabilities := [HTTP] |}.

(** The transports the application registers, in order ([_build_runtime_services]). *)
Definition application_transports : list TransportAdapter :=
  [NetmikoSSHTransport; ParamikoSSHTransport; TelnetTransport; PySnmpTransport; HttpxTransport].

Definition connect_timeout (ctx : TransportContext) : option float :=
  match session_timeout ctx with Some t => connect_seconds t | None => None end.

(** The health checks: an address, and for paramiko and pysnmp a positive timeout. *)
Definition require_address (label : string) (ctx : TransportContext) : outcome unit :=
  if str_truthy (target_address (context_target ctx)) then Ret tt
  else raise_ TransportHealthCheckError (label +:+ " target address is required.").

Definition require_timeout (label : string) (ctx : TransportContext) : outcome unit :=
  match connect_timeout ctx with
  | Some t => if Qle_bool t 0
              then raise_ TransportConfigurationError (label +:+ " connect timeout must be positive.")
              else Ret tt
  | None => Ret tt
  end.

Definition netmiko_health_check (ctx : TransportContext) : outcome unit := require_address "SSH" ctx.
Definition telnet_health_check (ctx : TransportContext) : outcome unit := require_address "Telnet" ctx.
Definition paramiko_health_check (ctx : TransportContext) : outcome unit :=
  match require_address "SSH" ctx with Ret _ => require_timeout "SSH" ctx | Raise e => Raise e end.
Definition pysnmp_health_check (ctx : TransportContext) : outcome unit :=
  match require_address "SNMP" ctx with Ret _ => require_timeout "SNMP" ctx | Raise e => Raise e end.

(** [except TransportConfigurationError]: any other error of the address passes. *)
Definition httpx_health_check {HU : UrlParse} (ctx : TransportContext) : outcome unit :=
  match normalize_base_url (target_address (context_target ctx)) with
  | Ret _ => Ret tt
  | Raise e => if isinstance e TransportConfigurationError
               then raise_ TransportHealthCheckError (exn_str e) else Raise e
  end.

(** *** Sessions: what [create_session] gives them to connect with *)

Record SSHSession := {
  ssh_session_id : string;
  ssh_hostname : string;
  device_type : option string;
  ssh_port : Z;
  ssh_username : option string;
  ssh_password : option string;
  ssh_secret : option string;
  ssh_timeout_seconds : option float;
  ssh_retry_policy : option TransportRetryPolicy;
}.

Definition netmiko_session (ctx : TransportContext) : outcome SSHSession :=
  let '(username, password) := extract_username_password (credentials ctx) in
  match metadata_int (session_metadata ctx) "port" 22,
        metadata_string (session_metadata ctx) "device_type" "autodetect",
        metadata_optional_string (session_metadata ctx) "secret" with
  | Raise e, _, _ => Raise e
  | Ret _, Raise e, _ => Raise e
  | Ret _, Ret _, Raise e => Raise e
  | Ret port, Ret device_type, Ret secret => Ret {|
      ssh_session_id := target_identifier (context_target ctx);
      ssh_hostname := target_address (context_target ctx);
      device_type := Some device_type; ssh_port := port;
      ssh_username := username; ssh_password := password; ssh_secret := secret;
      ssh_timeout_seconds := connect_timeout ctx;
      ssh_retry_policy := session_retry_policy ctx |}
  end.

(** The [connect_kwargs] of [NetmikoSSHSession.open]: the values that are not [None]. *)
Definition netmiko_kwargs (s : SSHSession) : dict :=
  omap (λ e, match e.2 with JNull => None | v => Some (e.1, v) end)
    [("device_type", opt_str (device_type s)); ("host", JStr (ssh_hostname s));
     ("port", JInt (ssh_port s)); ("username", opt_str (ssh_username s));
     ("password", opt_str (ssh_password s)); ("secret", opt_str (ssh_secret s));
     ("timeout", match ssh_timeout_seconds s with Some t => JFloat t | None => JNull end)].

Definition paramiko_session (ctx : TransportContext) : outcome SSHSession :=
  let '(username, password) := extract_username_password (credentials ctx) in
  match metadata_int (session_metadata ctx) "port" 22 with
  | Raise e => Raise e
  | Ret port => Ret {|
      ssh_session_id := target_identifier (context_target ctx);
      ssh_hostname := target_address (context_target ctx);
      device_type := None; ssh_port := port;
      ssh_username := username; ssh_password := password; ssh_secret := None;
      ssh_timeout_seconds := connect_timeout ctx;
      ssh_retry_policy := session_retry_policy ctx |}
  end.

Record SNMPSession := {
  snmp_session_id : string;
  snmp_hostname : string;
  snmp_port : Z;
  snmp_community : string;
  snmp_timeout_seconds : option float;
  snmp_retries : Z;
  snmp_retry_policy : option TransportRetryPolicy;
}.

Definition pysnmp_session (ctx : TransportContext) : outcome SNMPSession :=
  let given := match credentials ctx with Some (SNMPv2cCredentials c) => Some c | _ => None end in
  let community := match given with
                   | Some c => Ret (Some c)
                   | None => metadata_optional_string (session_metadata ctx) "community"
                   end in
  match community, metadata_int (session_metadata ctx) "port" 161 with
  | Raise e, _ => Raise e
  | Ret _, Raise e => Raise e
  | Ret community, Ret port => Ret {|
      snmp_session_id := target_identifier (context_target ctx);
      snmp_hostname := target_address (context_target ctx); snmp_port := port;
      snmp_community := from_option (λ c, c) "public" community;
      snmp_timeout_seconds := connect_timeout ctx; snmp_retries := 1;
      snmp_retry_policy := session_retry_policy ctx |}
  end.

Record HTTPSession := {
  http_session_id : string;
  base_url : string;
  (* the [httpx.Timeout]: total, connect, read, write, pool *)
  http_timeout : option float * option float * option float * option float * option float;
  http_headers : list (string * string);
  (* [httpx.BasicAuth] *)
  http_auth : option (string * string);
  http_retry_policy : option TransportRetryPolicy;
  verify_certificates : bool;
  follow_redirects : bool;
}.

(** [build_httpx_timeout]: with a default of 30 seconds for all five, or for the total. *)
Definition build_httpx_timeout (t : option TransportTimeout) :=
  match t with
  | None => (Some 30%Q, Some 30%Q, Some 30%Q, Some 30%Q, Some 30%Q)
  | Some t => (Some (from_option (λ s, s) 30%Q (total_seconds t)), connect_seconds t,
               read_seconds t, write_seconds t, total_seconds t)
  end.

(** [headers.pop(key, None)]. *)
Definition pop_header (key : string) (headers : list (string * string))
    : option string * list (string * string) :=
  (get key headers, List.filter (λ e, negb (e.1 ≟ key)) headers).

Definition httpx_session {HU : UrlParse} (default_headers : list (string * string))
    (ctx : TransportContext) : outcome HTTPSession :=
  match normalize_base_url (target_address (context_target ctx)) with
  | Raise e => Raise e
  | Ret url =>
      let headers := put_all (credential_headers (credentials ctx)) default_headers in
      let '(headers, auth) :=
        if is_not_none (credentials ctx) && negb (has "Authorization" headers) then
          let '(username, headers) := pop_header "username" headers in
          let '(password, headers) := pop_header "password" headers in
          (headers,
           if is_not_none username || is_not_none password
           then Some (from_option (λ u, u) "" username, from_option (λ p, p) "" password)
           else None)
        else (headers, None) in
      Ret {| http_session_id := target_identifier (context_target ctx); base_url := url;
             http_timeout := build_httpx_timeout (session_timeout ctx);
             http_headers := headers; http_auth := auth;
             http_retry_policy := session_retry_policy ctx;
             verify_certificates := true; follow_redirects := true |}
  end.

(** [HttpxHTTPSession.request]: the status codes whose error the retry policy sees. *)
Definition raises_for_status (status_code : Z) : bool := mem status_code [429; 500; 502; 503; 504].

(** ** The Telnet login *)

Record TelnetSession := {
  telnet_session_id : string;
  telnet_hostname : string;
  telnet_port : Z;
  telnet_username : option string;
  telnet_password : option string;
  telnet_timeout_seconds : option float;
  prompt : string;
  username_prompt : string;
  password_prompt : string;
  telnet_retry_policy : option TransportRetryPolicy;
}.

Definition telnet_session (ctx : TransportContext) : outcome TelnetSession :=
  let '(username, password) := extract_username_password (credentials ctx) in
  match metadata_int (session_metadata ctx) "port" 23 with
  | Raise e => Raise e
  | Ret port => Ret {|
      telnet_session_id := target_identifier (context_target ctx);
      telnet_hostname := target_address (context_target ctx); telnet_port := port;
      telnet_username := username; telnet_password := password;
      telnet_timeout_seconds := connect_timeout ctx;
      prompt := "#"; username_prompt := "Username:"; password_prompt := "Password:";
      telnet_retry_policy := session_retry_policy ctx |}
  end.

Section Telnet.
Context {S : Type}.

(** [telnetlib.Telnet]: its methods, in a thread, with the session's timeout. *)
Record TelnetConnection := {
  connect : M S unit;
  read_until : string → M S string;
  write_line : string → M S unit;
  hang_up : M S unit;
}.

Definition login_rejected (response : string) : bool :=
  existsb (λ marker, str_in marker (str_lower response))
    ["authentication failed"; "login invalid"; "invalid password"; "access denied"].

(** The exchange in the [try] of [TelnetSession.open]. *)
Definition login_exchange (conn : TelnetConnection) (s : TelnetSession) (username password : string)
    : M S unit :=
  username_response <- read_until conn (username_prompt s) ;;
  if negb (str_in (username_prompt s) username_response) then
    raise TransportConnectionError "Telnet username prompt was not received."
  else
    write_line conn username ;;;
    password_response <- read_until conn (password_prompt s) ;;
    if negb (str_in (password_prompt s) password_response) then
      raise TransportConnectionError "Telnet password prompt was not received."
    else
      write_line conn password ;;;
      login_response <- read_until conn (prompt s) ;;
      if login_rejected login_response then
        raise TransportAuthenticationError "Telnet device rejected authentication."
      else if negb (str_in (prompt s) login_response) then
        raise TransportConnectionError
          "Telnet command prompt was not received after authentication."
      else ret tt.

(** The [operation] of [TelnetSession.open]: [except Exception] hangs up. *)
Definition telnet_login (conn : TelnetConnection) (s : TelnetSession) (username password : string)
    : M S unit :=
  connect conn ;;;
  try_except (login_exchange conn s username password)
    (λ exc, if isinstance exc Exception_ then hang_up conn ;;; reraise exc else reraise exc).

(** [TelnetSession.open] of a session that is not open; [telnetlib] can be missing. *)
Definition telnet_open (import_telnetlib : outcome unit) (conn : TelnetConnection) (s : TelnetSession)
    : M (Paused S) unit :=
  match telnet_username s, telnet_password s with
  | Some username, Some password =>
      of_outcome import_telnetlib ;;;
      retry_sync (telnet_retry_policy s) (telnet_login conn s username password)
  | _, _ => raise TransportConfigurationError "Telnet username and password are required."
  end.
End Telnet.
Arguments TelnetConnection S : clear implicits.

(** ** The order of the login *)

(** What happens on a line, with what the device answers; the device is a function of
    what happened before. *)
Inductive telnet_event :=
  | Connected
  | Asked (until : string) (answer : outcome string)
  | Wrote (line : string)
  | HungUp.

Section Line.
Context (answer : list telnet_event → string → outcome string).
Context (accepts : list telnet_event → telnet_event → outcome unit).

Definition happens (e : telnet_event) : M (list telnet_event) unit := λ l, (accepts l e, l ++ [e]).

Definition line : TelnetConnection (list telnet_event) := {|
  connect := happens Connected;
  read_until until := λ l, (answer l until, l ++ [Asked until (answer l until)]);
  write_line text := happens (Wrote text);
  hang_up := happens HungUp |}.

(** The steps of a login. *)
Definition login_steps (s : TelnetSession) (username password : string)
    (a1 a2 a3 : outcome string) : list telnet_event :=
  [Asked (username_prompt s) a1; Wrote username; Asked (password_prompt s) a2; Wrote password;
   Asked (prompt s) a3].

Definition answered (text : string) (a : outcome string) : Prop :=
  match a with Ret response => str_in text response = true | Raise _ => False end.

Lemma login_exchange_steps s username password l :
  match login_exchange line s username password l with
  | (r, l') =>
      ∃ n a1 a2 a3, l' = l ++ take n (login_steps s username password a1 a2 a3) ∧
        ((1 < n)%nat → answered (username_prompt s) a1) ∧
        ((3 < n)%nat → answered (password_prompt s) a2) ∧
        (r = Ret tt → (n = 5)%nat ∧ answered (prompt s) a3 ∧
           match a3 with Ret response => login_rejected response = false | Raise _ => False end)
  end.
Proof.
  unfold login_exchange, bind, line, happens. cbn [read_until write_line].
  destruct (answer l (username_prompt s)) as [r1|e1].
  2:{ exists 1%nat, (Raise e1), (Raise e1), (Raise e1). split_and!; try lia; done. }
  destruct (str_in (username_prompt s) r1) eqn:P1; cbn [negb].
  2:{ exists 1%nat, (Ret r1), (Ret r1), (Ret r1). split_and!; try lia; done. }
  set (l1 := l ++ [Asked (username_prompt s) (Ret r1)]).
  destruct (accepts l1 (Wrote username)) as [[]|e].
  2:{ exists 2%nat, (Ret r1), (Ret r1), (Ret r1).
      split_and!; try lia; [|done..]. unfold l1. by rewrite <- (assoc _). }
  set (l2 := l1 ++ [Wrote username]).
  assert (∀ a2 a3, l2 ++ [Asked (password_prompt s) a2]
    = l ++ take 3 (login_steps s username password (Ret r1) a2 a3)) as H3.
  { intros. unfold l2, l1. by rewrite <- !(assoc _). }
  destruct (answer l2 (password_prompt s)) as [r2|e2].
  2:{ exists 3%nat, (Ret r1), (Raise e2), (Raise e2). split_and!; try lia; [by apply H3|done..]. }
  destruct (str_in (password_prompt s) r2) eqn:P2; cbn [negb].
  2:{ exists 3%nat, (Ret r1), (Ret r2), (Ret r2). split_and!; try lia; [by apply H3|done..]. }
  set (l3 := l2 ++ [Asked (password_prompt s) (Ret r2)]).
  assert (∀ a3, l3 ++ [Wrote password]
    = l ++ take 4 (login_steps s username password (Ret r1) (Ret r2) a3)) as H4.
  { intros. unfold l3. rewrite (H3 _ a3). by rewrite <- (assoc _). }
  destruct (accepts l3 (Wrote password)) as [[]|e].
  2:{ exists 4%nat, (Ret r1), (Ret r2), (Ret r2). split_and!; try lia; [by apply H4|done..]. }
  set (l4 := l3 ++ [Wrote password]).
  assert (∀ a3, l4 ++ [Asked (prompt s) a3]
    = l ++ take 5 (login_steps s username password (Ret r1) (Ret r2) a3)) as H5.
  { intros. unfold l4. rewrite (H4 a3). by rewrite <- (assoc _). }
  destruct (answer l4 (prompt s)) as [r3|e3].
  2:{ exists 5%nat, (Ret r1), (Ret r2), (Raise e3). split_and!; try lia; [by apply H5|done..]. }
  destruct (login_rejected r3) eqn:P3; [|destruct (str_in (prompt s) r3) eqn:P4]; cbn [negb];
    exists 5%nat, (Ret r1), (Ret r2), (Ret r3);
    (split_and!; [by apply H5|done|done|]); intros ?; done.
Qed.

(** Telnet credentials are only sent after their prompts.  Whatever the device answers
    and whichever operation fails, a login runs a prefix of its five steps, in order: the
    user name is written only after an answer with the user name prompt, the password only
    after one with the password prompt.  It succeeds exactly by running all of them, with
    the command prompt in an answer that rejects nothing, and leaves the line up; after
    any [Exception] of the exchange the line is hung up. *)
Theorem telnet_login_order s username password l :
  match telnet_login line s username password l with
  | (r, l') =>
      (∃ e, r = Raise e ∧ l' = l ++ [Connected]) ∨
      ∃ n a1 a2 a3 closing,
        l' = l ++ [Connected] ++ take n (login_steps s username password a1 a2 a3) ++ closing ∧
        ((1 < n)%nat → answered (username_prompt s) a1) ∧
        ((3 < n)%nat → answered (password_prompt s) a2) ∧
        match r with
        | Ret _ =>
            (n = 5)%nat ∧ closing = [] ∧ answered (prompt s) a3 ∧
            match a3 with Ret response => login_rejected response = false | Raise _ => False end
        | Raise e => closing = [HungUp] ∨ (closing = [] ∧ isinstance e Exception_ = false)
        end
  end.
Proof.
  unfold telnet_login, bind at 1. cbn [connect line]. unfold happens at 1.
  destruct (accepts l Connected) as [[]|e]; [|left; by exists e].
  pose proof (login_exchange_steps s username password (l ++ [Connected])) as H.
  unfold try_except. destruct (login_exchange _ _ _ _ _) as [[[]|e] l'].
  - right. destruct H as (n & a1 & a2 & a3 & -> & H1 & H2 & H3).
    destruct (H3 eq_refl) as (-> & Ha & Hr). exists 5%nat, a1, a2, a3, [].
    rewrite app_nil_r, <- (assoc _). by split_and!.
  - destruct H as (n & a1 & a2 & a3 & -> & H1 & H2 & _).
    destruct (isinstance e Exception_) eqn:E; [|right].
    + assert (∀ l', ∃ e', (hang_up line ;;; reraise (A := ()) e) l' = (Raise e', l' ++ [HungUp])) as Hh.
      { intros l'. unfold bind. cbn [hang_up line]. unfold happens, reraise.
        destruct (accepts l' HungUp); eauto. }
      destruct (Hh ((l ++ [Connected]) ++ take n (login_steps s username password a1 a2 a3)))
        as (e' & ->). right. exists n, a1, a2, a3, [HungUp]. rewrite <- !(assoc _). repeat split; auto.
    + exists n, a1, a2, a3, []. rewrite app_nil_r, <- (assoc _). split_and!; auto.
Qed.
End Line.

(** ** What the sessions get *)

(** A context the manager builds has no metadata: its sessions connect to the default
    ports, whatever the metadata of the target says. *)
Lemma built_contexts_use_defaults {R} (m : TransportManager (R := R)) target caps w ctx w' :
  build_context m target caps w = (Ret ctx, w') →
  (∃ s, netmiko_session ctx = Ret s ∧ ssh_port s = 22 ∧ device_type s = Some "autodetect" ∧
     ssh_secret s = None) ∧
  (∃ s, paramiko_session ctx = Ret s ∧ ssh_port s = 22) ∧
  (∃ s, telnet_session ctx = Ret s ∧ telnet_port s = 23) ∧
  (∃ s, pysnmp_session ctx = Ret s ∧ snmp_port s = 161).
Proof.
  unfold build_context. intros [(c & w1 & _ & [= <- _])|(? & _ & ?)]%bind_inv; [|done].
  unfold netmiko_session, paramiko_session, telnet_session, pysnmp_session. cbn.
  destruct (extract_username_password c).
  destruct c as [[]|]; cbn; split_and!; eauto 6.
Qed.

Definition demo_context (c : TransportCredentials) : TransportContext := {|
  context_target := {| target_identifier := "sw"; target_address := "10.0.0.1";
                       target_metadata := []; credential_reference := None |};
  context_capabilities := []; credentials := Some c; session_timeout := Some default_timeout;
  session_retry_policy := None; session_metadata := [] |}.

(** An SSH key is sent as the user name, without a password. *)
Example ssh_key_is_the_username :
  match netmiko_session (demo_context (TokenCredentials "PRIVATE KEY" "SSH-KEY")) with
  | Ret s => dict_get "username" (netmiko_kwargs s) = Some (JStr "PRIVATE KEY") ∧
             dict_get "password" (netmiko_kwargs s) = None
  | Raise _ => False
  end.
Proof. vm_compute. done. Qed.

(** SNMPv3 credentials are ignored: the session asks with the community [public]. *)
Example snmp_v3_is_public :
  snmp_community <$> match pysnmp_session (demo_context (snmp_v3 "u" "authPriv::SHA::a::AES::p")) with
                     | Ret s => Some s | Raise _ => None end = Some "public".
Proof. vm_compute. done. Qed.

(** A scheme as [urlparse] finds it in these addresses: before the first colon. *)
#[local] Instance demo_scheme : UrlParse := λ address,
  Ret (match partition_at ":" address with Some (scheme, _) => scheme | None => "" end).

(** A port makes the host a scheme, and the address its own base URL. *)
Example host_and_port_is_a_url :
  normalize_base_url "switch.example" = Ret "https://switch.example" ∧
  normalize_base_url "switch.example:8443" = Ret "switch.example:8443".
Proof. vm_compute. done. Qed.

(** A Telnet login that succeeds, and what was sent. *)
Example telnet_login_succeeds :
  let answers (l : list telnet_event) (until : string) := Ret ("..." +:+ until) in
  match telnet_session (demo_context (UsernamePasswordCredentials "u" "p")) with
  | Ret s => telnet_login (line answers (λ _ _, Ret tt)) s "u" "p" [] =
      (Ret tt, [Connected; Asked "Username:" (Ret "...Username:"); Wrote "u";
                Asked "Password:" (Ret "...Password:"); Wrote "p"; Asked "#" (Ret "...#")])
  | Raise _ => False
  end.
Proof. vm_compute. done. Qed.
