(* ===== verification/Inventories.v ===== *)
(** * Inventories

    The two inventories the comparison works on: the canonical source of truth
    read from NetBox ([inventory/entities.py], [inventory/dto.py]) and the live
    snapshots ([snapshot/entities.py]), with the merge of snapshots and their
    validation ([snapshot/validation.py]).  One module per class, because the
    classes share field names.  The Pydantic twins of the snapshot entities
    ([snapshot/models.py]) have the same fields and are not repeated. *)

From S2P Require Import Prelude Vocabulary Effects Json Dicts Texts.
#[local] Open Scope Z_scope.

(** ** The source of truth *)

(** A site. *)
Module Site.
Record Site := {
  name : string;
  slug : string;
  region : option string;
  location : option string;
  facility : option string;
  description : option string;
}.
End Site.

(** A rack. *)
Module Rack.
Record Rack := {
  name : string;
  site_name : string;
  facility_id : option string;
  u_height : option Z;
  role : option string;
  description : option string;
}.
End Rack.

(** A manufacturer. *)
Module Manufacturer.
Record Manufacturer := {
  name : string;
  slug : string;
}.
End Manufacturer.

(** A device type. *)
Module DeviceType.
Record DeviceType := {
  manufacturer : Manufacturer.Manufacturer;
  model : string;
  slug : string;
  part_number : option string;
  u_height : option Z;
  is_full_depth : option bool;
}.
End DeviceType.

(** A platform. *)
Module Platform.
Record Platform := {
  name : string;
  slug : string;
  manufacturer_name : option string;
  napalm_driver : option string;
}.
End Platform.

(** A role. *)
Module Role.
Record Role := {
  name : string;
  slug : string;
  color : option string;
}.
End Role.

(** An interface. *)
Module Interface.
Record Interface := {
  name : string;
  device_name : string;
  type : option string;
  enabled : bool;
  mac_address : option string;
  description : option string;
}.
End Interface.

(** An IP address. *)
Module IPAddress.
Record IPAddress := {
  address : string;
  family : Z;
  status : option string;
  dns_name : option string;
  assigned_object_type : option string;
  assigned_object_name : option string;
  device_name : option string;
}.
End IPAddress.

(** A VLAN. *)
Module VLAN.
Record VLAN := {
  vid : Z;
  name : string;
  site_name : option string;
  status : option string;
  role : option string;
}.
End VLAN.

(** A device. *)
Module Device.
Record Device := {
  name : string;
  site_name : option string;
  rack_name : option string;
  device_type : DeviceType.DeviceType;
  role : option Role.Role;
  platform : option Platform.Platform;
  serial : option string;
  status : option string;
  primary_ip : option string;
  interfaces : list Interface.Interface;
  ip_addresses : list IPAddress.IPAddress;
}.
End Device.

(** The inventory read from NetBox. *)
Module NetBox.
Record NetBoxInventorySnapshot := {
  sites : list Site.Site;
  racks : list Rack.Rack;
  devices : list Device.Device;
  interfaces : list Interface.Interface;
  ip_addresses : list IPAddress.IPAddress;
  vlans : list VLAN.VLAN;
  platforms : list Platform.Platform;
  manufacturers : list Manufacturer.Manufacturer;
  device_types : list DeviceType.DeviceType;
  roles : list Role.Role;
}.
End NetBox.

(** ** Live snapshots *)

Definition SNAPSHOT_SCHEMA_VERSION : string := "1.0.0".

(** A live interface. *)
Module InterfaceSnapshot.
Record InterfaceSnapshot := {
  device_id : string;
  name : string;
  captured_at : datetime;
  version : string;
  admin_status : option string;
  oper_status : option string;
  description : option string;
  mac_address : option string;
  speed_mbps : option Z;
  poe_status : option string;
}.
End InterfaceSnapshot.

(** A live VLAN. *)
Module VLANSnapshot.
Record VLANSnapshot := {
  vlan_id : Z;
  name : string;
  captured_at : datetime;
  version : string;
  device_id : option string;
  status : option string;
}.
End VLANSnapshot.

(** An entry of a MAC table. *)
Module MACTableSnapshot.
Record MACTableSnapshot := {
  mac_address : string;
  device_id : string;
  interface_name : string;
  captured_at : datetime;
  version : string;
  vlan_id : option Z;
  last_seen : option datetime;
}.
End MACTableSnapshot.

(** A neighbor. *)
Module NeighborSnapshot.
Record NeighborSnapshot := {
  local_device_id : string;
  local_interface : string;
  remote_device_id : string;
  remote_interface : option string;
  protocol : option string;
  captured_at : datetime;
  version : string;
}.
End NeighborSnapshot.

(** A power supply. *)
Module PowerSnapshot.
Record PowerSnapshot := {
  device_id : string;
  source : string;
  captured_at : datetime;
  version : string;
  status : option string;
  available_watts : option pyfloat;
  consumed_watts : option pyfloat;
  poe_enabled : option bool;
}.
End PowerSnapshot.

(** A live device. *)
Module DeviceSnapshot.
Record DeviceSnapshot := {
  device_id : string;
  name : string;
  captured_at : datetime;
  version : string;
  manufacturer : option string;
  model : option string;
  serial_number : option string;
  product_id : option string;
  management_ip : option string;
  base_mac : option string;
  software_version : option string;
  uptime : option string;
  hardware_revision : option string;
  platform : option string;
  stack_members : list string;
  interfaces : list InterfaceSnapshot.InterfaceSnapshot;
  vlans : list VLANSnapshot.VLANSnapshot;
  mac_table : list MACTableSnapshot.MACTableSnapshot;
  neighbors : list NeighborSnapshot.NeighborSnapshot;
  power : option PowerSnapshot.PowerSnapshot;
}.
End DeviceSnapshot.

(** A live inventory. *)
Module Live.
Record LiveInventorySnapshot := {
  devices : list DeviceSnapshot.DeviceSnapshot;
  snapshot_id : UUID;
  captured_at : datetime;
  version : string;
  source : option string;
}.
End Live.

(** [InventorySnapshot.merge]; the fresh identity and the present instant are what
    the constructor's defaults draw. *)
Definition merged_devices (snapshots : list Live.LiveInventorySnapshot)
    : list DeviceSnapshot.DeviceSnapshot :=
  values (dict_of (map (λ d, (DeviceSnapshot.device_id d, d)) (flat_map Live.devices snapshots))).

Definition merge (fresh : UUID) (now : datetime) (snapshots : list Live.LiveInventorySnapshot)
    : Live.LiveInventorySnapshot :=
  match snapshots with
  | [] => {| Live.devices := []; Live.snapshot_id := fresh; Live.captured_at := now;
             Live.version := SNAPSHOT_SCHEMA_VERSION; Live.source := None |}
  | first :: _ => {|
      Live.devices := merged_devices snapshots;
      Live.snapshot_id := fresh;
      Live.captured_at :=
        fold_left (λ t s, if t <? Live.captured_at s then Live.captured_at s else t)
          snapshots (Live.captured_at first);
      Live.version := fold_left (λ _ s, Live.version s) snapshots (Live.version first);
      Live.source :=
        fold_left (λ o s, match Live.source s with Some x => Some x | None => o end)
          snapshots (Live.source first) |}
  end.

(** ** Validation ([snapshot/validation.py])

    Instants are aware here, so the check of a missing time zone cannot fail;
    the clock is read once for a whole snapshot. *)

Section Validation.
Context {R : Type} (now : datetime).

Definition validate_timestamp (context : string) (timestamp : datetime) : M R unit :=
  when (now + timedelta_seconds 1 <? timestamp)
    (raise SnapshotValidationError (context +:+ " cannot be in the future.")).

Definition validate_device_identity (context device_id : string) : M R unit :=
  when (negb (str_truthy (str_strip device_id)))
    (raise SnapshotValidationError (context +:+ " must include a device identity.")).

Definition validate_version (context expected_version actual_version : string) : M R unit :=
  when (negb (actual_version ≟ expected_version))
    (raise SnapshotValidationError
       (context +:+ " expected version " +:+ str_repr expected_version +:+ " but received " +:+
        str_repr actual_version +:+ ".")).

Definition validate_interface (i : InterfaceSnapshot.InterfaceSnapshot) : M R unit :=
  validate_device_identity "Interface snapshot" (InterfaceSnapshot.device_id i) ;;;
  validate_timestamp "Interface snapshot timestamp" (InterfaceSnapshot.captured_at i).

Definition validate_vlan (v : VLANSnapshot.VLANSnapshot) : M R unit :=
  validate_timestamp "VLAN snapshot timestamp" (VLANSnapshot.captured_at v).

Definition validate_mac_table (e : MACTableSnapshot.MACTableSnapshot) : M R unit :=
  validate_device_identity "MAC table snapshot" (MACTableSnapshot.device_id e) ;;;
  validate_timestamp "MAC table snapshot timestamp" (MACTableSnapshot.captured_at e).

Definition validate_neighbor (n : NeighborSnapshot.NeighborSnapshot) : M R unit :=
  validate_device_identity "Neighbor snapshot" (NeighborSnapshot.local_device_id n) ;;;
  validate_device_identity "Neighbor snapshot" (NeighborSnapshot.remote_device_id n) ;;;
  validate_timestamp "Neighbor snapshot timestamp" (NeighborSnapshot.captured_at n).

Definition validate_power (p : PowerSnapshot.PowerSnapshot) : M R unit :=
  validate_device_identity "Power snapshot" (PowerSnapshot.device_id p) ;;;
  validate_timestamp "Power snapshot timestamp" (PowerSnapshot.captured_at p).

Definition validate_device (d : DeviceSnapshot.DeviceSnapshot) : M R unit :=
  validate_device_identity "Device snapshot" (DeviceSnapshot.device_id d) ;;;
  validate_timestamp "Device snapshot timestamp" (DeviceSnapshot.captured_at d) ;;;
  for_each (DeviceSnapshot.interfaces d) validate_interface ;;;
  for_each (DeviceSnapshot.vlans d) validate_vlan ;;;
  for_each (DeviceSnapshot.mac_table d) validate_mac_table ;;;
  for_each (DeviceSnapshot.neighbors d) validate_neighbor ;;;
  match DeviceSnapshot.power d with None => ret tt | Some p => validate_power p end.

Fixpoint validate_devices (seen : list string) (ds : list DeviceSnapshot.DeviceSnapshot)
    : M R unit :=
  match ds with
  | [] => ret tt
  | d :: rest =>
      validate_device d ;;;
      if mem (DeviceSnapshot.device_id d) seen
      then raise SnapshotValidationError
             ("Inventory snapshot contains duplicate device identity: " +:+
              DeviceSnapshot.device_id d)
      else validate_devices (DeviceSnapshot.device_id d :: seen) rest
  end.

Definition validate_snapshot_integrity (s : Live.LiveInventorySnapshot) : M R unit :=
  validate_version "Inventory snapshot" SNAPSHOT_SCHEMA_VERSION (Live.version s) ;;;
  validate_timestamp "Inventory snapshot timestamp" (Live.captured_at s) ;;;
  validate_devices [] (Live.devices s).

(** ** What validation accepts *)

Definition identified (id : string) : Prop := str_truthy (str_strip id) = true.
Definition observed (t : datetime) : Prop := t <= now + timedelta_seconds 1.

(** A device as validation wants it. *)
Record device_valid (d : DeviceSnapshot.DeviceSnapshot) : Prop := {
  dv_id : identified (DeviceSnapshot.device_id d);
  dv_time : observed (DeviceSnapshot.captured_at d);
  dv_interfaces : Forall (λ i, identified (InterfaceSnapshot.device_id i) ∧
    observed (InterfaceSnapshot.captured_at i)) (DeviceSnapshot.interfaces d);
  dv_vlans : Forall (λ v, observed (VLANSnapshot.captured_at v)) (DeviceSnapshot.vlans d);
  dv_macs : Forall (λ e, identified (MACTableSnapshot.device_id e) ∧
    observed (MACTableSnapshot.captured_at e)) (DeviceSnapshot.mac_table d);
  dv_neighbors : Forall (λ n, identified (NeighborSnapshot.local_device_id n) ∧
    identified (NeighborSnapshot.remote_device_id n) ∧
    observed (NeighborSnapshot.captured_at n)) (DeviceSnapshot.neighbors d);
  dv_power : ∀ p, DeviceSnapshot.power d = Some p →
    identified (PowerSnapshot.device_id p) ∧ observed (PowerSnapshot.captured_at p);
}.

(** A snapshot as validation wants it. *)
Record snapshot_valid (s : Live.LiveInventorySnapshot) : Prop := {
  sv_version : Live.version s = SNAPSHOT_SCHEMA_VERSION;
  sv_time : observed (Live.captured_at s);
  sv_devices : Forall device_valid (Live.devices s);
  sv_ids : NoDup (map DeviceSnapshot.device_id (Live.devices s));
}.

Lemma checks_identity ctx id : checks (validate_device_identity ctx id) (identified id).
Proof. eapply checks_iff; [apply checks_when|]. apply negb_false_iff. Qed.

Lemma checks_timestamp ctx t : checks (validate_timestamp ctx t) (observed t).
Proof. eapply checks_iff; [apply checks_when|]. apply Z.ltb_ge. Qed.

Lemma checks_device d : checks (validate_device d) (device_valid d).
Proof.
  eapply checks_iff.
  - unfold validate_device. repeat apply checks_bind;
      [apply checks_identity|apply checks_timestamp|apply checks_for_each; intros..|].
    + apply checks_bind; [apply checks_identity|apply checks_timestamp].
    + apply checks_timestamp.
    + apply checks_bind; [apply checks_identity|apply checks_timestamp].
    + repeat apply checks_bind; apply checks_identity || apply checks_timestamp.
    + instantiate (1 := ∀ p, DeviceSnapshot.power d = Some p →
        identified (PowerSnapshot.device_id p) ∧ observed (PowerSnapshot.captured_at p)).
      destruct (DeviceSnapshot.power d) as [p|].
      * eapply checks_iff; [apply checks_bind; [apply checks_identity|apply checks_timestamp]|].
        naive_solver.
      * by eapply checks_iff; [apply checks_ret|].
  - split; [intros (?&?&?&?&?&?&?); by split|intros []; tauto].
Qed.

Lemma checks_devices seen ds :
  checks (validate_devices seen ds)
    (Forall device_valid ds ∧ NoDup (map DeviceSnapshot.device_id ds) ∧
     Forall (λ d, DeviceSnapshot.device_id d ∉ seen) ds).
Proof.
  revert seen. induction ds as [|d ds IH]; intros seen; cbn [validate_devices map].
  { eapply checks_iff; [apply checks_ret|]. split; [|done]. intros _. repeat constructor. }
  eapply checks_iff.
  { apply checks_bind; [apply checks_device|].
    apply checks_if; [apply checks_raise|apply IH]. }
  rewrite NoDup_cons, !Forall_cons. destruct (mem _ seen) eqn:E; pybool; [tauto|].
  rewrite Forall_not_seen.
  tauto.
Qed.

Lemma checks_snapshot s : checks (validate_snapshot_integrity s) (snapshot_valid s).
Proof.
  eapply checks_iff.
  { unfold validate_snapshot_integrity. repeat apply checks_bind;
      [apply checks_when|apply checks_timestamp|apply checks_devices]. }
  rewrite negb_false_iff, eqb_true. split.
  - intros (?&?&?&?&?). by split.
  - intros []. split_and!; try done. apply Forall_forall. intros x _. apply not_elem_of_nil.
Qed.
End Validation.

(** ** Merging *)

Lemma merged_devices_last snapshots d :
  d ∈ merged_devices snapshots ↔
  last_with DeviceSnapshot.device_id (DeviceSnapshot.device_id d)
    (flat_map Live.devices snapshots) = Some d.
Proof. apply elem_of_values_index_by. Qed.

Lemma fold_left_invariant {A B} (P : A → Prop) (f : A → B → A) l a :
  P a → (∀ a b, b ∈ l → P a → P (f a b)) → P (fold_left f l a).
Proof.
  revert a. induction l as [|b l IH]; intros a Ha Hf; cbn; [done|].
  apply IH; [apply Hf; [set_solver|done]|]. intros a' b' Hb. apply Hf. set_solver.
Qed.

(** Merging snapshots that pass validation gives a snapshot that passes it, in
    which every device identity observed occurs once, as it was observed last. *)
Theorem merge_of_valid {R} fresh now snapshots (w : R)
    (H : Forall (λ s, (validate_snapshot_integrity now s w).1 = Ret tt) snapshots) :
  validate_snapshot_integrity now (merge fresh now snapshots) w = (Ret tt, w) ∧
  (snapshots ≠ [] → ∀ d,
     d ∈ Live.devices (merge fresh now snapshots) ↔
     last_with DeviceSnapshot.device_id (DeviceSnapshot.device_id d)
       (flat_map Live.devices snapshots) = Some d).
Proof.
  assert (Forall (snapshot_valid now) snapshots) as Hv.
  { eapply Forall_impl; [exact H|]. intros s. apply checks_snapshot. }
  split; [|by destruct snapshots; intros; [|apply merged_devices_last]].
  enough (snapshot_valid now (merge fresh now snapshots)) as Hm.
  { destruct (checks_snapshot now (merge fresh now snapshots) w) as [Hs Hr].
    apply Hr in Hm. destruct (validate_snapshot_integrity _ _ _); cbn in *; congruence. }
  rewrite Forall_forall in Hv.
  destruct snapshots as [|s ss]; [|].
  { split; [done| |constructor|constructor]. unfold observed. cbn [merge Live.captured_at].
    change (timedelta_seconds 1) with 1000000. lia. }
  destruct (Hv s ltac:(set_solver)) as [Hver Ht _ _]. split.
  - apply (fold_left_invariant (λ v, v = SNAPSHOT_SCHEMA_VERSION)); [done|].
    intros _ x Hx _. by apply Hv.
  - apply (fold_left_invariant (observed now)); [done|].
    intros t x Hx ?. destruct (_ <? _); [by apply Hv|done].
  - apply Forall_forall. intros d Hd. apply merged_devices_last, last_with_Some in Hd as [Hd _].
    apply list_elem_of_In, in_flat_map in Hd as (x & Hx & Hd).
    apply list_elem_of_In in Hx, Hd. destruct (Hv x Hx) as [_ _ Hds _].
    rewrite Forall_forall in Hds. auto.
  - apply NoDup_index_by.
Qed.

(** ** An instance *)

Definition demo_live_device (id name : string) (at_ : datetime) : DeviceSnapshot.DeviceSnapshot := {|
  DeviceSnapshot.device_id := id; DeviceSnapshot.name := name;
  DeviceSnapshot.captured_at := at_; DeviceSnapshot.version := SNAPSHOT_SCHEMA_VERSION;
  DeviceSnapshot.manufacturer := None; DeviceSnapshot.model := None;
  DeviceSnapshot.serial_number := None; DeviceSnapshot.product_id := None;
  DeviceSnapshot.management_ip := None; DeviceSnapshot.base_mac := None;
  DeviceSnapshot.software_version := None; DeviceSnapshot.uptime := None;
  DeviceSnapshot.hardware_revision := None; DeviceSnapshot.platform := None;
  DeviceSnapshot.stack_members := []; DeviceSnapshot.interfaces := [];
  DeviceSnapshot.vlans := []; DeviceSnapshot.mac_table := []; DeviceSnapshot.neighbors := [];
  DeviceSnapshot.power := None;
|}.

Definition demo_live (at_ : datetime) (ds : list DeviceSnapshot.DeviceSnapshot)
    : Live.LiveInventorySnapshot := {|
  Live.devices := ds; Live.snapshot_id := 1%N; Live.captured_at := at_;
  Live.version := SNAPSHOT_SCHEMA_VERSION; Live.source := None |}.

(** A device seen twice is kept as seen last. *)
Lemma merge_of_valid_witness :
  let s1 := demo_live 5 [demo_live_device "a" "old" 5; demo_live_device "b" "b" 5] in
  let s2 := demo_live 3 [demo_live_device "a" "new" 3] in
  validate_snapshot_integrity 9 (merge 7%N 9 [s1; s2]) tt = (Ret tt, tt) ∧
  map DeviceSnapshot.name (Live.devices (merge 7%N 9 [s1; s2])) = ["new"; "b"] ∧
  demo_live_device "a" "new" 3 ∈ Live.devices (merge 7%N 9 [s1; s2]).
Proof.
  intros s1 s2.
  destruct (merge_of_valid 7%N 9 [s1; s2] tt ltac:(repeat constructor)) as [H1 H2].
  split; [exact H1|]. split; [reflexivity|]. apply H2; [done|reflexivity].
Defined.
