(* ===== verification/SnapshotModels.v ===== *)
(** * The models of both inventories as JSON ([snapshot/models.py], [inventory/])

    Snapshots are stored as JSON payloads and validated when they are read back.  A class
    [Model] pairs what [asdict] and [model_dump] write with what [model_validate] accepts,
    with the law that ties the two; the models of the live snapshots and of the canonical
    inventory are its instances.  Pydantic accepts values of a field's own type as they
    are; what it makes of values of another type is a parameter ([LaxFields]). *)

From S2P Require Import Prelude Vocabulary Effects Json EvidenceStore Dicts Texts JsonText.
From S2P Require Import Contracts Inventories.
#[local] Open Scope Z_scope.

(** [str(datetime)], and the texts a [datetime] field reads. *)
Class DatetimeText := {
  datetime_str : datetime → string;
  parse_datetime : string → option datetime;
  parse_datetime_str t : parse_datetime (datetime_str t) = Some t;
}.

(** What a field makes of a value of another type. *)
Class LaxFields := {
  lax_int : json → option Z;
  lax_float : json → option pyfloat;
  lax_bool : json → option bool;
  lax_datetime : json → option datetime;
}.

Definition invalid_input {A} (message : string) : outcome A := raise_ ValidationError message.

(** Values of a type as JSON: [json.loads] may have read them in another order of items.
    [held] says which values the JSON values of the model hold: no infinite float. *)
Class Model (A : Type) := {
  dump : A → json;
  validate : json → outcome A;
  held : A → bool;
  validate_dump a j : held a = true → same_items (dump a) j → validate j = Ret a;
}.

(** Types whose values are not written as [null]. *)
Class NotNull (A : Type) `{Model A} := dump_not_null (a : A) : held a = true → dump a ≠ JNull.

Lemma same_items_JStr s j : same_items (JStr s) j → j = JStr s.
Proof. by inversion 1. Qed.
Lemma same_items_JInt z j : same_items (JInt z) j → j = JInt z.
Proof. by inversion 1. Qed.
Lemma same_items_JBool b j : same_items (JBool b) j → j = JBool b.
Proof. by inversion 1. Qed.
Lemma same_items_JFloat q j : same_items (JFloat q) j → j = JFloat q.
Proof. by inversion 1. Qed.
Lemma same_items_JNull j : same_items JNull j → j = JNull.
Proof. by inversion 1. Qed.
Lemma same_items_JList l j : same_items (JList l) j → ∃ l', j = JList l' ∧ Forall2 same_items l l'.
Proof.
  inversion 1; subst; [|by eauto]. exists l. split; [done|]. clear. induction l; by repeat constructor.
Qed.
Lemma same_items_not_null a j : same_items a j → a ≠ JNull → j ≠ JNull.
Proof. by inversion 1. Qed.

(** ** Fields *)

Definition other_type {A} (v : option A) (message : string) : outcome A :=
  match v with Some v => Ret v | None => invalid_input message end.

#[export] Instance str_model : Model string.
Proof.
  refine {| dump := JStr; held _ := true;
            validate j := match j with JStr s => Ret s
                          | _ => invalid_input "Input should be a valid string" end |}.
  abstract (by intros a j _ ->%same_items_JStr).
Defined.
#[export] Instance str_not_null : NotNull string.
Proof. done. Qed.

Section Fields.
Context {HD : DatetimeText} {HL : LaxFields}.

#[export] Instance int_model : Model Z.
Proof.
  refine {| dump := JInt; held _ := true;
            validate j := match j with JInt z => Ret z
                          | _ => other_type (lax_int j) "Input should be a valid integer" end |}.
  abstract (by intros a j _ ->%same_items_JInt).
Defined.
#[export] Instance int_not_null : NotNull Z.
Proof. done. Qed.

#[export] Instance float_model : Model pyfloat.
Proof.
  refine {| dump f := match f with Finite q => JFloat q | _ => JNull end;
            held f := match f with Finite _ => true | _ => false end;
            validate j := match j with JFloat q => Ret (Finite q)
                          | _ => other_type (lax_float j) "Input should be a valid number" end |}.
  abstract (intros [q|?|] j Hh Hs; [by apply same_items_JFloat in Hs as ->|done..]).
Defined.
#[export] Instance float_not_null : NotNull pyfloat.
Proof. by intros []. Qed.

#[export] Instance bool_model : Model bool.
Proof.
  refine {| dump := JBool; held _ := true;
            validate j := match j with JBool b => Ret b
                          | _ => other_type (lax_bool j) "Input should be a valid boolean" end |}.
  abstract (by intros a j _ ->%same_items_JBool).
Defined.
#[export] Instance bool_not_null : NotNull bool.
Proof. done. Qed.

End Fields.

(** Instants: [json.dumps(..., default=str)] writes their text.  [datetime] is [Z] here, so
    this is not an instance of the class but the field of its own. *)
Section Instants.
Context {HD : DatetimeText} {HL : LaxFields}.

Definition dump_datetime (t : datetime) : json := JStr (datetime_str t).

Definition validate_datetime (j : json) : outcome datetime :=
  match j with
  | JStr s => other_type (parse_datetime s) "Input should be a valid datetime"
  | _ => other_type (lax_datetime j) "Input should be a valid datetime"
  end.

Lemma validate_datetime_dump t j : same_items (dump_datetime t) j → validate_datetime j = Ret t.
Proof.
  intros ->%same_items_JStr. unfold validate_datetime. by rewrite parse_datetime_str.
Qed.

Definition dump_datetime_opt (t : option datetime) : json :=
  match t with Some t => dump_datetime t | None => JNull end.
Definition validate_datetime_opt (j : json) : outcome (option datetime) :=
  match j with JNull => Ret None | _ => let! t := validate_datetime j in Ret (Some t) end.

Lemma validate_datetime_opt_dump t j :
  same_items (dump_datetime_opt t) j → validate_datetime_opt j = Ret t.
Proof.
  destruct t as [t|]; [|by intros ->%same_items_JNull].
  intros Hs. pose proof (validate_datetime_dump _ _ Hs) as E.
  apply same_items_JStr in Hs as ->. unfold validate_datetime_opt. by rewrite E.
Qed.
End Instants.

(** [T | None], and [tuple[T, ...]]. *)
#[export] Instance option_model {A} `{HA : Model A} `{!NotNull A} : Model (option A).
Proof.
  refine {| dump o := match o with Some a => dump a | None => JNull end;
            held o := match o with Some a => held a | None => true end;
            validate j := match j with
                          | JNull => Ret None
                          | _ => let! a := validate j in Ret (Some a)
                          end |}.
  abstract (intros [a|] j Hh Hs; [|by apply same_items_JNull in Hs as ->];
    pose proof (same_items_not_null _ _ Hs (dump_not_null a Hh)); rewrite (validate_dump _ _ Hh Hs);
    by destruct j).
Defined.

Fixpoint validate_each {A} `{Model A} (l : list json) : outcome (list A) :=
  match l with
  | [] => Ret []
  | j :: l => let! a := validate j in let! rest := validate_each l in Ret (a :: rest)
  end.

Lemma validate_each_dump {A} `{Model A} (l : list A) l' :
  forallb held l = true → Forall2 same_items (map dump l) l' → validate_each l' = Ret l.
Proof.
  revert l'. induction l as [|a l IH]; intros l' Hh Hs; inversion Hs; subst; [done|].
  cbn in Hh |- *. apply andb_true_iff in Hh as [Ha Hl].
  erewrite validate_dump by done. cbn. by rewrite (IH _ Hl ltac:(eassumption)).
Qed.

#[export] Instance list_model {A} `{Model A} : Model (list A).
Proof.
  refine {| dump l := JList (map dump l); held l := forallb held l;
            validate j := match j with
                          | JList l => validate_each l
                          | _ => invalid_input "Input should be a valid tuple"
                          end |}.
  abstract (intros l j Hh (l' & -> & Hs)%same_items_JList; by apply validate_each_dump).
Defined.

(** ** Objects *)

(** A model that forbids extra fields. *)
Definition object_of (names : list string) (j : json) : outcome dict :=
  match j with
  | JDict d => if forallb (λ e, mem e.1 names) d then Ret d
               else invalid_input "Extra inputs are not permitted"
  | _ => invalid_input "Input should be a valid dictionary"
  end.

(** A field without a default, and one with a default. *)
Definition required {A} (read : json → outcome A) (name : string) (d : dict) : outcome A :=
  match dict_get name d with Some j => read j | None => invalid_input "Field required" end.
Definition optional {A} (read : json → outcome A) (default : A) (name : string) (d : dict) : outcome A :=
  match dict_get name d with Some j => read j | None => Ret default end.

Definition same_fields (fields d : dict) : Prop :=
  ∀ k v, dict_get k fields = Some v → ∃ v', dict_get k d = Some v' ∧ same_items v v'.

Lemma same_items_keys d j : same_items (JDict d) j → ∃ d', j = JDict d' ∧ map fst d ≡ₚ map fst d'.
Proof.
  inversion 1 as [|?|? d1 d2 Hnd Hf Hp]; subst; [by exists d|]. exists d2. split; [done|].
  rewrite <- Hp. clear -Hf. induction Hf as [|e e' d d1 [Hk _] _ IH]; [done|]. cbn. by rewrite Hk, IH.
Qed.

Lemma object_of_dump names fields j :
  same_items (JDict fields) j → forallb (λ e, mem e.1 names) fields = true →
  ∃ d, object_of names j = Ret d ∧ same_fields fields d.
Proof.
  intros Hs Hn. destruct (same_items_keys _ _ Hs) as (d & -> & Hk). exists d. split.
  - unfold object_of. replace (forallb _ d) with true; [done|]. symmetry.
    assert (∀ l : dict, forallb (λ e, mem e.1 names) l = forallb (λ k, mem k names) (map fst l)) as E.
    { induction l as [|e l IH]; [done|]. cbn. by rewrite IH. }
    rewrite E in Hn |- *. apply forallb_forall. intros k Hin. apply (proj1 (forallb_forall _ _) Hn).
    by rewrite Hk.
  - intros k v Hv. destruct (same_items_get _ _ _ _ Hs Hv) as (d' & v' & [= <-] & ? & ?). eauto.
Qed.

Lemma required_dump {A} (read : json → outcome A) name fields d x a :
  same_fields fields d → dict_get name fields = Some x → (∀ j, same_items x j → read j = Ret a) →
  required read name d = Ret a.
Proof. intros Hf Hx Hr. unfold required. destruct (Hf _ _ Hx) as (v & -> & Hs). eauto. Qed.

Lemma optional_dump {A} (read : json → outcome A) default name fields d x a :
  same_fields fields d → dict_get name fields = Some x → (∀ j, same_items x j → read j = Ret a) →
  optional read default name d = Ret a.
Proof. intros Hf Hx Hr. unfold optional. destruct (Hf _ _ Hx) as (v & -> & Hs). eauto. Qed.

(** The law of a record: every field reads back what it wrote. *)
Ltac read_back := intros; first [ eapply validate_dump; [|eassumption]; assumption
                                | by apply validate_datetime_dump
                                | by apply validate_datetime_opt_dump ].

Ltac model_law writer reader :=
  let a := fresh "a" in let j := fresh "j" in let Hh := fresh "Hh" in let Hs := fresh "Hs" in
  let d := fresh "d" in let Hf := fresh "Hf" in
  intros a j Hh Hs; cbv beta in Hh;
  repeat match goal with H : _ && _ = true |- _ => apply andb_true_iff in H as [? ?] end;
  unfold writer in Hs; unfold reader; eapply object_of_dump in Hs as (d & -> & Hf); [|reflexivity];
  cbn [let_ok];
  repeat (first
    [ erewrite (required_dump _ _ _ d) by (first [exact Hf | reflexivity | read_back])
    | erewrite (optional_dump _ _ _ _ d) by (first [exact Hf | reflexivity | read_back]) ];
    cbn [let_ok]);
  destruct a; reflexivity.

(** ** The live snapshots ([snapshot/models.py]) *)

Section Live.
Context {HD : DatetimeText} {HL : LaxFields}.

Definition dump_interface (a : InterfaceSnapshot.InterfaceSnapshot) : json := JDict [
  ("device_id", dump (InterfaceSnapshot.device_id a)); ("name", dump (InterfaceSnapshot.name a));
  ("captured_at", dump_datetime (InterfaceSnapshot.captured_at a));
  ("version", dump (InterfaceSnapshot.version a));
  ("admin_status", dump (InterfaceSnapshot.admin_status a));
  ("oper_status", dump (InterfaceSnapshot.oper_status a));
  ("description", dump (InterfaceSnapshot.description a));
  ("mac_address", dump (InterfaceSnapshot.mac_address a));
  ("speed_mbps", dump (InterfaceSnapshot.speed_mbps a));
  ("poe_status", dump (InterfaceSnapshot.poe_status a))].

(** [InterfaceSnapshotModel]. *)
Definition InterfaceSnapshotModel (j : json) : outcome InterfaceSnapshot.InterfaceSnapshot :=
  let! d := object_of [ "device_id"; "name"; "captured_at"; "version"; "admin_status";
    "oper_status"; "description"; "mac_address"; "speed_mbps"; "poe_status"] j in
  let! device_id := required validate "device_id" d in
  let! name := required validate "name" d in
  let! captured_at := required validate_datetime "captured_at" d in
  let! version := optional validate SNAPSHOT_SCHEMA_VERSION "version" d in
  let! admin_status := optional validate None "admin_status" d in
  let! oper_status := optional validate None "oper_status" d in
  let! description := optional validate None "description" d in
  let! mac_address := optional validate None "mac_address" d in
  let! speed_mbps := optional validate None "speed_mbps" d in
  let! poe_status := optional validate None "poe_status" d in
  Ret {| InterfaceSnapshot.device_id := device_id; InterfaceSnapshot.name := name;
         InterfaceSnapshot.captured_at := captured_at; InterfaceSnapshot.version := version;
         InterfaceSnapshot.admin_status := admin_status;
         InterfaceSnapshot.oper_status := oper_status;
         InterfaceSnapshot.description := description;
         InterfaceSnapshot.mac_address := mac_address; InterfaceSnapshot.speed_mbps := speed_mbps;
         InterfaceSnapshot.poe_status := poe_status |}.

#[export] Instance interface_snapshot_model : Model InterfaceSnapshot.InterfaceSnapshot.
Proof.
  refine {| dump := dump_interface; validate := InterfaceSnapshotModel;
            held a :=  held (InterfaceSnapshot.device_id a) && held (InterfaceSnapshot.name a) &&
              held (InterfaceSnapshot.version a) && held (InterfaceSnapshot.admin_status a) &&
              held (InterfaceSnapshot.oper_status a) && held (InterfaceSnapshot.description a) &&
              held (InterfaceSnapshot.mac_address a) && held (InterfaceSnapshot.speed_mbps a) &&
              held (InterfaceSnapshot.poe_status a) |}.
  abstract model_law dump_interface InterfaceSnapshotModel.
Defined.
#[export] Instance interface_snapshot_model_not_null : NotNull InterfaceSnapshot.InterfaceSnapshot.
Proof. done. Qed.

Definition dump_vlan (a : VLANSnapshot.VLANSnapshot) : json := JDict [
  ("vlan_id", dump (VLANSnapshot.vlan_id a)); ("name", dump (VLANSnapshot.name a));
  ("captured_at", dump_datetime (VLANSnapshot.captured_at a));
  ("version", dump (VLANSnapshot.version a)); ("device_id", dump (VLANSnapshot.device_id a));
  ("status", dump (VLANSnapshot.status a))].

(** [VLANSnapshotModel]. *)
Definition VLANSnapshotModel (j : json) : outcome VLANSnapshot.VLANSnapshot :=
  let! d := object_of [ "vlan_id"; "name"; "captured_at"; "version"; "device_id"; "status"] j in
  let! vlan_id := required validate "vlan_id" d in
  let! name := required validate "name" d in
  let! captured_at := required validate_datetime "captured_at" d in
  let! version := optional validate SNAPSHOT_SCHEMA_VERSION "version" d in
  let! device_id := optional validate None "device_id" d in
  let! status := optional validate None "status" d in
  Ret {| VLANSnapshot.vlan_id := vlan_id; VLANSnapshot.name := name;
         VLANSnapshot.captured_at := captured_at; VLANSnapshot.version := version;
         VLANSnapshot.device_id := device_id; VLANSnapshot.status := status |}.

#[export] Instance vlan_snapshot_model : Model VLANSnapshot.VLANSnapshot.
Proof.
  refine {| dump := dump_vlan; validate := VLANSnapshotModel;
            held a :=  held (VLANSnapshot.vlan_id a) && held (VLANSnapshot.name a) &&
              held (VLANSnapshot.version a) && held (VLANSnapshot.device_id a) &&
              held (VLANSnapshot.status a) |}.
  abstract model_law dump_vlan VLANSnapshotModel.
Defined.
#[export] Instance vlan_snapshot_model_not_null : NotNull VLANSnapshot.VLANSnapshot.
Proof. done. Qed.

Definition dump_mac_table (a : MACTableSnapshot.MACTableSnapshot) : json := JDict [
  ("mac_address", dump (MACTableSnapshot.mac_address a));
  ("device_id", dump (MACTableSnapshot.device_id a));
  ("interface_name", dump (MACTableSnapshot.interface_name a));
  ("captured_at", dump_datetime (MACTableSnapshot.captured_at a));
  ("version", dump (MACTableSnapshot.version a)); ("vlan_id", dump (MACTableSnapshot.vlan_id a));
  ("last_seen", dump_datetime_opt (MACTableSnapshot.last_seen a))].

(** [MACTableSnapshotModel]. *)
Definition MACTableSnapshotModel (j : json) : outcome MACTableSnapshot.MACTableSnapshot :=
  let! d := object_of [ "mac_address"; "device_id"; "interface_name"; "captured_at"; "version";
    "vlan_id"; "last_seen"] j in
  let! mac_address := required validate "mac_address" d in
  let! device_id := required validate "device_id" d in
  let! interface_name := required validate "interface_name" d in
  let! captured_at := required validate_datetime "captured_at" d in
  let! version := optional validate SNAPSHOT_SCHEMA_VERSION "version" d in
  let! vlan_id := optional validate None "vlan_id" d in
  let! last_seen := optional validate_datetime_opt None "last_seen" d in
  Ret {| MACTableSnapshot.mac_address := mac_address; MACTableSnapshot.device_id := device_id;
         MACTableSnapshot.interface_name := interface_name;
         MACTableSnapshot.captured_at := captured_at; MACTableSnapshot.version := version;
         MACTableSnapshot.vlan_id := vlan_id; MACTableSnapshot.last_seen := last_seen |}.

#[export] Instance mac_table_snapshot_model : Model MACTableSnapshot.MACTableSnapshot.
Proof.
  refine {| dump := dump_mac_table; validate := MACTableSnapshotModel;
            held a :=  held (MACTableSnapshot.mac_address a) &&
              held (MACTableSnapshot.device_id a) && held (MACTableSnapshot.interface_name a) &&
              held (MACTableSnapshot.version a) && held (MACTableSnapshot.vlan_id a) |}.
  abstract model_law dump_mac_table MACTableSnapshotModel.
Defined.
#[export] Instance mac_table_snapshot_model_not_null : NotNull MACTableSnapshot.MACTableSnapshot.
Proof. done. Qed.

Definition dump_neighbor (a : NeighborSnapshot.NeighborSnapshot) : json := JDict [
  ("local_device_id", dump (NeighborSnapshot.local_device_id a));
  ("local_interface", dump (NeighborSnapshot.local_interface a));
  ("remote_device_id", dump (NeighborSnapshot.remote_device_id a));
  ("remote_interface", dump (NeighborSnapshot.remote_interface a));
  ("protocol", dump (NeighborSnapshot.protocol a));
  ("captured_at", dump_datetime (NeighborSnapshot.captured_at a));
  ("version", dump (NeighborSnapshot.version a))].

(** [NeighborSnapshotModel]. *)
Definition NeighborSnapshotModel (j : json) : outcome NeighborSnapshot.NeighborSnapshot :=
  let! d := object_of [ "local_device_id"; "local_interface"; "remote_device_id";
    "remote_interface"; "protocol"; "captured_at"; "version"] j in
  let! local_device_id := required validate "local_device_id" d in
  let! local_interface := required validate "local_interface" d in
  let! remote_device_id := required validate "remote_device_id" d in
  let! remote_interface := optional validate None "remote_interface" d in
  let! protocol := optional validate None "protocol" d in
  let! captured_at := required validate_datetime "captured_at" d in
  let! version := optional validate SNAPSHOT_SCHEMA_VERSION "version" d in
  Ret {| NeighborSnapshot.local_device_id := local_device_id;
         NeighborSnapshot.local_interface := local_interface;
         NeighborSnapshot.remote_device_id := remote_device_id;
         NeighborSnapshot.remote_interface := remote_interface;
         NeighborSnapshot.protocol := protocol; NeighborSnapshot.captured_at := captured_at;
         NeighborSnapshot.version := version |}.

#[export] Instance neighbor_snapshot_model : Model NeighborSnapshot.NeighborSnapshot.
Proof.
  refine {| dump := dump_neighbor; validate := NeighborSnapshotModel;
            held a :=  held (NeighborSnapshot.local_device_id a) &&
              held (NeighborSnapshot.local_interface a) &&
              held (NeighborSnapshot.remote_device_id a) &&
              held (NeighborSnapshot.remote_interface a) && held (NeighborSnapshot.protocol a) &&
              held (NeighborSnapshot.version a) |}.
  abstract model_law dump_neighbor NeighborSnapshotModel.
Defined.
#[export] Instance neighbor_snapshot_model_not_null : NotNull NeighborSnapshot.NeighborSnapshot.
Proof. done. Qed.

Definition dump_power (a : PowerSnapshot.PowerSnapshot) : json := JDict [
  ("device_id", dump (PowerSnapshot.device_id a)); ("source", dump (PowerSnapshot.source a));
  ("captured_at", dump_datetime (PowerSnapshot.captured_at a));
  ("version", dump (PowerSnapshot.version a)); ("status", dump (PowerSnapshot.status a));
  ("available_watts", dump (PowerSnapshot.available_watts a));
  ("consumed_watts", dump (PowerSnapshot.consumed_watts a));
  ("poe_enabled", dump (PowerSnapshot.poe_enabled a))].

(** [PowerSnapshotModel]. *)
Definition PowerSnapshotModel (j : json) : outcome PowerSnapshot.PowerSnapshot :=
  let! d := object_of [ "device_id"; "source"; "captured_at"; "version"; "status";
    "available_watts"; "consumed_watts"; "poe_enabled"] j in
  let! device_id := required validate "device_id" d in
  let! source := required validate "source" d in
  let! captured_at := required validate_datetime "captured_at" d in
  let! version := optional validate SNAPSHOT_SCHEMA_VERSION "version" d in
  let! status := optional validate None "status" d in
  let! available_watts := optional validate None "available_watts" d in
  let! consumed_watts := optional validate None "consumed_watts" d in
  let! poe_enabled := optional validate None "poe_enabled" d in
  Ret {| PowerSnapshot.device_id := device_id; PowerSnapshot.source := source;
         PowerSnapshot.captured_at := captured_at; PowerSnapshot.version := version;
         PowerSnapshot.status := status; PowerSnapshot.available_watts := available_watts;
         PowerSnapshot.consumed_watts := consumed_watts;
         PowerSnapshot.poe_enabled := poe_enabled |}.

#[export] Instance power_snapshot_model : Model PowerSnapshot.PowerSnapshot.
Proof.
  refine {| dump := dump_power; validate := PowerSnapshotModel;
            held a :=  held (PowerSnapshot.device_id a) && held (PowerSnapshot.source a) &&
              held (PowerSnapshot.version a) && held (PowerSnapshot.status a) &&
              held (PowerSnapshot.available_watts a) && held (PowerSnapshot.consumed_watts a) &&
              held (PowerSnapshot.poe_enabled a) |}.
  abstract model_law dump_power PowerSnapshotModel.
Defined.
#[export] Instance power_snapshot_model_not_null : NotNull PowerSnapshot.PowerSnapshot.
Proof. done. Qed.

Definition dump_device (a : DeviceSnapshot.DeviceSnapshot) : json := JDict [
  ("device_id", dump (DeviceSnapshot.device_id a)); ("name", dump (DeviceSnapshot.name a));
  ("captured_at", dump_datetime (DeviceSnapshot.captured_at a));
  ("version", dump (DeviceSnapshot.version a));
  ("manufacturer", dump (DeviceSnapshot.manufacturer a));
  ("model", dump (DeviceSnapshot.model a));
  ("serial_number", dump (DeviceSnapshot.serial_number a));
  ("product_id", dump (DeviceSnapshot.product_id a));
  ("management_ip", dump (DeviceSnapshot.management_ip a));
  ("base_mac", dump (DeviceSnapshot.base_mac a));
  ("software_version", dump (DeviceSnapshot.software_version a));
  ("uptime", dump (DeviceSnapshot.uptime a));
  ("hardware_revision", dump (DeviceSnapshot.hardware_revision a));
  ("platform", dump (DeviceSnapshot.platform a));
  ("stack_members", dump (DeviceSnapshot.stack_members a));
  ("interfaces", dump (DeviceSnapshot.interfaces a)); ("vlans", dump (DeviceSnapshot.vlans a));
  ("mac_table", dump (DeviceSnapshot.mac_table a));
  ("neighbors", dump (DeviceSnapshot.neighbors a)); ("power", dump (DeviceSnapshot.power a))].

(** [DeviceSnapshotModel]. *)
Definition DeviceSnapshotModel (j : json) : outcome DeviceSnapshot.DeviceSnapshot :=
  let! d := object_of [ "device_id"; "name"; "captured_at"; "version"; "manufacturer"; "model";
    "serial_number"; "product_id"; "management_ip"; "base_mac"; "software_version"; "uptime";
    "hardware_revision"; "platform"; "stack_members"; "interfaces"; "vlans"; "mac_table";
    "neighbors"; "power"] j in
  let! device_id := required validate "device_id" d in
  let! name := required validate "name" d in
  let! captured_at := required validate_datetime "captured_at" d in
  let! version := optional validate SNAPSHOT_SCHEMA_VERSION "version" d in
  let! manufacturer := optional validate None "manufacturer" d in
  let! model := optional validate None "model" d in
  let! serial_number := optional validate None "serial_number" d in
  let! product_id := optional validate None "product_id" d in
  let! management_ip := optional validate None "management_ip" d in
  let! base_mac := optional validate None "base_mac" d in
  let! software_version := optional validate None "software_version" d in
  let! uptime := optional validate None "uptime" d in
  let! hardware_revision := optional validate None "hardware_revision" d in
  let! platform := optional validate None "platform" d in
  let! stack_members := optional validate [] "stack_members" d in
  let! interfaces := optional validate [] "interfaces" d in
  let! vlans := optional validate [] "vlans" d in
  let! mac_table := optional validate [] "mac_table" d in
  let! neighbors := optional validate [] "neighbors" d in
  let! power := optional validate None "power" d in
  Ret {| DeviceSnapshot.device_id := device_id; DeviceSnapshot.name := name;
         DeviceSnapshot.captured_at := captured_at; DeviceSnapshot.version := version;
         DeviceSnapshot.manufacturer := manufacturer; DeviceSnapshot.model := model;
         DeviceSnapshot.serial_number := serial_number; DeviceSnapshot.product_id := product_id;
         DeviceSnapshot.management_ip := management_ip; DeviceSnapshot.base_mac := base_mac;
         DeviceSnapshot.software_version := software_version; DeviceSnapshot.uptime := uptime;
         DeviceSnapshot.hardware_revision := hardware_revision;
         DeviceSnapshot.platform := platform; DeviceSnapshot.stack_members := stack_members;
         DeviceSnapshot.interfaces := interfaces; DeviceSnapshot.vlans := vlans;
         DeviceSnapshot.mac_table := mac_table; DeviceSnapshot.neighbors := neighbors;
         DeviceSnapshot.power := power |}.

#[export] Instance device_snapshot_model : Model DeviceSnapshot.DeviceSnapshot.
Proof.
  refine {| dump := dump_device; validate := DeviceSnapshotModel;
            held a :=  held (DeviceSnapshot.device_id a) && held (DeviceSnapshot.name a) &&
              held (DeviceSnapshot.version a) && held (DeviceSnapshot.manufacturer a) &&
              held (DeviceSnapshot.model a) && held (DeviceSnapshot.serial_number a) &&
              held (DeviceSnapshot.product_id a) && held (DeviceSnapshot.management_ip a) &&
              held (DeviceSnapshot.base_mac a) && held (DeviceSnapshot.software_version a) &&
              held (DeviceSnapshot.uptime a) && held (DeviceSnapshot.hardware_revision a) &&
              held (DeviceSnapshot.platform a) && held (DeviceSnapshot.stack_members a) &&
              held (DeviceSnapshot.interfaces a) && held (DeviceSnapshot.vlans a) &&
              held (DeviceSnapshot.mac_table a) && held (DeviceSnapshot.neighbors a) &&
              held (DeviceSnapshot.power a) |}.
  abstract model_law dump_device DeviceSnapshotModel.
Defined.
#[export] Instance device_snapshot_model_not_null : NotNull DeviceSnapshot.DeviceSnapshot.
Proof. done. Qed.

(** [InventorySnapshotModel]; [fresh] is the identity it draws when the payload has none. *)
Definition dump_live (a : Live.LiveInventorySnapshot) : json := JDict [
  ("devices", dump (Live.devices a)); ("snapshot_id", JStr (uuid_str (Live.snapshot_id a)));
  ("captured_at", dump_datetime (Live.captured_at a)); ("version", dump (Live.version a));
  ("source", dump (Live.source a))].

Definition validate_uuid (j : json) : outcome UUID :=
  match j with
  | JStr s => other_type (parse_uuid s) "Input should be a valid UUID"
  | _ => invalid_input "UUID input should be a string, bytes or UUID object"
  end.

Definition InventorySnapshotModel (fresh : UUID) (j : json) : outcome Live.LiveInventorySnapshot :=
  let! d := object_of ["devices"; "snapshot_id"; "captured_at"; "version"; "source"] j in
  let! devices := optional validate [] "devices" d in
  let! snapshot_id := optional validate_uuid fresh "snapshot_id" d in
  let! captured_at := required validate_datetime "captured_at" d in
  let! version := optional validate SNAPSHOT_SCHEMA_VERSION "version" d in
  let! source := optional validate None "source" d in
  Ret {| Live.devices := devices; Live.snapshot_id := snapshot_id; Live.captured_at := captured_at;
         Live.version := version; Live.source := source |}.

(** What a payload holds of a snapshot: identities of 128 bits, finite numbers. *)
Definition held_live (a : Live.LiveInventorySnapshot) : bool :=
  held (Live.devices a) && held (Live.version a) && held (Live.source a)
  && (Live.snapshot_id a <? 2 ^ 128)%N.

Lemma validate_uuid_dump u j : (u <? 2 ^ 128)%N = true → same_items (JStr (uuid_str u)) j →
  validate_uuid j = Ret u.
Proof.
  intros Hu%N.ltb_lt ->%same_items_JStr. unfold validate_uuid. by rewrite parse_uuid_str.
Qed.

Lemma live_read_back fresh a j : held_live a = true → same_items (dump_live a) j →
  InventorySnapshotModel fresh j = Ret a.
Proof.
  intros [[[Hh ?]%andb_true_iff ?]%andb_true_iff Hu]%andb_true_iff Hs. unfold dump_live in Hs.
  unfold InventorySnapshotModel. eapply object_of_dump in Hs as (d & -> & Hf); [|reflexivity].
  cbn [let_ok].
  repeat (first
    [ erewrite (required_dump _ _ _ d) by (first [exact Hf | reflexivity | read_back])
    | erewrite (optional_dump _ _ _ _ d)
        by (first [exact Hf | reflexivity | read_back | intros; by eapply validate_uuid_dump]) ];
    cbn [let_ok]).
  by destruct a.
Qed.
End Live.

(** ** The canonical inventory ([inventory/entities.py], [inventory/dto.py]) *)

Section NetBox.
Context {HD : DatetimeText} {HL : LaxFields}.

Definition dump_site (a : Site.Site) : json := JDict [ ("name", dump (Site.name a));
  ("slug", dump (Site.slug a)); ("region", dump (Site.region a));
  ("location", dump (Site.location a)); ("facility", dump (Site.facility a));
  ("description", dump (Site.description a))].

(** [Site]. *)
Definition SiteModel (j : json) : outcome Site.Site :=
  let! d := object_of [ "name"; "slug"; "region"; "location"; "facility"; "description"] j in
  let! name := required validate "name" d in
  let! slug := required validate "slug" d in
  let! region := optional validate None "region" d in
  let! location := optional validate None "location" d in
  let! facility := optional validate None "facility" d in
  let! description := optional validate None "description" d in
  Ret {| Site.name := name; Site.slug := slug; Site.region := region; Site.location := location;
         Site.facility := facility; Site.description := description |}.

#[export] Instance site_model : Model Site.Site.
Proof.
  refine {| dump := dump_site; validate := SiteModel;
            held a :=  held (Site.name a) && held (Site.slug a) && held (Site.region a) &&
              held (Site.location a) && held (Site.facility a) && held (Site.description a) |}.
  abstract model_law dump_site SiteModel.
Defined.
#[export] Instance site_model_not_null : NotNull Site.Site.
Proof. done. Qed.

Definition dump_rack (a : Rack.Rack) : json := JDict [ ("name", dump (Rack.name a));
  ("site_name", dump (Rack.site_name a)); ("facility_id", dump (Rack.facility_id a));
  ("u_height", dump (Rack.u_height a)); ("role", dump (Rack.role a));
  ("description", dump (Rack.description a))].

(** [Rack]. *)
Definition RackModel (j : json) : outcome Rack.Rack :=
  let! d := object_of [ "name"; "site_name"; "facility_id"; "u_height"; "role";
    "description"] j in
  let! name := required validate "name" d in
  let! site_name := required validate "site_name" d in
  let! facility_id := optional validate None "facility_id" d in
  let! u_height := optional validate None "u_height" d in
  let! role := optional validate None "role" d in
  let! description := optional validate None "description" d in
  Ret {| Rack.name := name; Rack.site_name := site_name; Rack.facility_id := facility_id;
         Rack.u_height := u_height; Rack.role := role; Rack.description := description |}.

#[export] Instance rack_model : Model Rack.Rack.
Proof.
  refine {| dump := dump_rack; validate := RackModel;
            held a :=  held (Rack.name a) && held (Rack.site_name a) &&
              held (Rack.facility_id a) && held (Rack.u_height a) && held (Rack.role a) &&
              held (Rack.description a) |}.
  abstract model_law dump_rack RackModel.
Defined.
#[export] Instance rack_model_not_null : NotNull Rack.Rack.
Proof. done. Qed.

Definition dump_manufacturer (a : Manufacturer.Manufacturer) : json := JDict [
  ("name", dump (Manufacturer.name a)); ("slug", dump (Manufacturer.slug a))].

(** [Manufacturer]. *)
Definition ManufacturerModel (j : json) : outcome Manufacturer.Manufacturer :=
  let! d := object_of [ "name"; "slug"] j in
  let! name := required validate "name" d in
  let! slug := required validate "slug" d in
  Ret {| Manufacturer.name := name; Manufacturer.slug := slug |}.

#[export] Instance manufacturer_model : Model Manufacturer.Manufacturer.
Proof.
  refine {| dump := dump_manufacturer; validate := ManufacturerModel;
            held a :=  held (Manufacturer.name a) && held (Manufacturer.slug a) |}.
  abstract model_law dump_manufacturer ManufacturerModel.
Defined.
#[export] Instance manufacturer_model_not_null : NotNull Manufacturer.Manufacturer.
Proof. done. Qed.

Definition dump_device_type (a : DeviceType.DeviceType) : json := JDict [
  ("manufacturer", dump (DeviceType.manufacturer a)); ("model", dump (DeviceType.model a));
  ("slug", dump (DeviceType.slug a)); ("part_number", dump (DeviceType.part_number a));
  ("u_height", dump (DeviceType.u_height a));
  ("is_full_depth", dump (DeviceType.is_full_depth a))].

(** [DeviceType]. *)
Definition DeviceTypeModel (j : json) : outcome DeviceType.DeviceType :=
  let! d := object_of [ "manufacturer"; "model"; "slug"; "part_number"; "u_height";
    "is_full_depth"] j in
  let! manufacturer := required validate "manufacturer" d in
  let! model := required validate "model" d in
  let! slug := required validate "slug" d in
  let! part_number := optional validate None "part_number" d in
  let! u_height := optional validate None "u_height" d in
  let! is_full_depth := optional validate None "is_full_depth" d in
  Ret {| DeviceType.manufacturer := manufacturer; DeviceType.model := model;
         DeviceType.slug := slug; DeviceType.part_number := part_number;
         DeviceType.u_height := u_height; DeviceType.is_full_depth := is_full_depth |}.

#[export] Instance devicetype_model : Model DeviceType.DeviceType.
Proof.
  refine {| dump := dump_device_type; validate := DeviceTypeModel;
            held a :=  held (DeviceType.manufacturer a) && held (DeviceType.model a) &&
              held (DeviceType.slug a) && held (DeviceType.part_number a) &&
              held (DeviceType.u_height a) && held (DeviceType.is_full_depth a) |}.
  abstract model_law dump_device_type DeviceTypeModel.
Defined.
#[export] Instance devicetype_model_not_null : NotNull DeviceType.DeviceType.
Proof. done. Qed.

Definition dump_platform (a : Platform.Platform) : json := JDict [
  ("name", dump (Platform.name a)); ("slug", dump (Platform.slug a));
  ("manufacturer_name", dump (Platform.manufacturer_name a));
  ("napalm_driver", dump (Platform.napalm_driver a))].

(** [Platform]. *)
Definition PlatformModel (j : json) : outcome Platform.Platform :=
  let! d := object_of [ "name"; "slug"; "manufacturer_name"; "napalm_driver"] j in
  let! name := required validate "name" d in
  let! slug := required validate "slug" d in
  let! manufacturer_name := optional validate None "manufacturer_name" d in
  let! napalm_driver := optional validate None "napalm_driver" d in
  Ret {| Platform.name := name; Platform.slug := slug;
         Platform.manufacturer_name := manufacturer_name;
         Platform.napalm_driver := napalm_driver |}.

#[export] Instance platform_model : Model Platform.Platform.
Proof.
  refine {| dump := dump_platform; validate := PlatformModel;
            held a :=  held (Platform.name a) && held (Platform.slug a) &&
              held (Platform.manufacturer_name a) && held (Platform.napalm_driver a) |}.
  abstract model_law dump_platform PlatformModel.
Defined.
#[export] Instance platform_model_not_null : NotNull Platform.Platform.
Proof. done. Qed.

Definition dump_role (a : Role.Role) : json := JDict [ ("name", dump (Role.name a));
  ("slug", dump (Role.slug a)); ("color", dump (Role.color a))].

(** [Role]. *)
Definition RoleModel (j : json) : outcome Role.Role :=
  let! d := object_of [ "name"; "slug"; "color"] j in
  let! name := required validate "name" d in
  let! slug := required validate "slug" d in
  let! color := optional validate None "color" d in
  Ret {| Role.name := name; Role.slug := slug; Role.color := color |}.

#[export] Instance role_model : Model Role.Role.
Proof.
  refine {| dump := dump_role; validate := RoleModel;
            held a :=  held (Role.name a) && held (Role.slug a) && held (Role.color a) |}.
  abstract model_law dump_role RoleModel.
Defined.
#[export] Instance role_model_not_null : NotNull Role.Role.
Proof. done. Qed.

Definition dump_netbox_interface (a : Interface.Interface) : json := JDict [
  ("name", dump (Interface.name a)); ("device_name", dump (Interface.device_name a));
  ("type", dump (Interface.type a)); ("enabled", dump (Interface.enabled a));
  ("mac_address", dump (Interface.mac_address a));
  ("description", dump (Interface.description a))].

(** [Interface]. *)
Definition InterfaceModel (j : json) : outcome Interface.Interface :=
  let! d := object_of [ "name"; "device_name"; "type"; "enabled"; "mac_address";
    "description"] j in
  let! name := required validate "name" d in
  let! device_name := required validate "device_name" d in
  let! type := optional validate None "type" d in
  let! enabled := optional validate true "enabled" d in
  let! mac_address := optional validate None "mac_address" d in
  let! description := optional validate None "description" d in
  Ret {| Interface.name := name; Interface.device_name := device_name; Interface.type := type;
         Interface.enabled := enabled; Interface.mac_address := mac_address;
         Interface.description := description |}.

#[export] Instance interface_model : Model Interface.Interface.
Proof.
  refine {| dump := dump_netbox_interface; validate := InterfaceModel;
            held a :=  held (Interface.name a) && held (Interface.device_name a) &&
              held (Interface.type a) && held (Interface.enabled a) &&
              held (Interface.mac_address a) && held (Interface.description a) |}.
  abstract model_law dump_netbox_interface InterfaceModel.
Defined.
#[export] Instance interface_model_not_null : NotNull Interface.Interface.
Proof. done. Qed.

Definition dump_ip_address (a : IPAddress.IPAddress) : json := JDict [
  ("address", dump (IPAddress.address a)); ("family", dump (IPAddress.family a));
  ("status", dump (IPAddress.status a)); ("dns_name", dump (IPAddress.dns_name a));
  ("assigned_object_type", dump (IPAddress.assigned_object_type a));
  ("assigned_object_name", dump (IPAddress.assigned_object_name a));
  ("device_name", dump (IPAddress.device_name a))].

(** [IPAddress]. *)
Definition IPAddressModel (j : json) : outcome IPAddress.IPAddress :=
  let! d := object_of [ "address"; "family"; "status"; "dns_name"; "assigned_object_type";
    "assigned_object_name"; "device_name"] j in
  let! address := required validate "address" d in
  let! family := required validate "family" d in
  let! status := optional validate None "status" d in
  let! dns_name := optional validate None "dns_name" d in
  let! assigned_object_type := optional validate None "assigned_object_type" d in
  let! assigned_object_name := optional validate None "assigned_object_name" d in
  let! device_name := optional validate None "device_name" d in
  Ret {| IPAddress.address := address; IPAddress.family := family; IPAddress.status := status;
         IPAddress.dns_name := dns_name; IPAddress.assigned_object_type := assigned_object_type;
         IPAddress.assigned_object_name := assigned_object_name;
         IPAddress.device_name := device_name |}.

#[export] Instance ipaddress_model : Model IPAddress.IPAddress.
Proof.
  refine {| dump := dump_ip_address; validate := IPAddressModel;
            held a :=  held (IPAddress.address a) && held (IPAddress.family a) &&
              held (IPAddress.status a) && held (IPAddress.dns_name a) &&
              held (IPAddress.assigned_object_type a) &&
              held (IPAddress.assigned_object_name a) && held (IPAddress.device_name a) |}.
  abstract model_law dump_ip_address IPAddressModel.
Defined.
#[export] Instance ipaddress_model_not_null : NotNull IPAddress.IPAddress.
Proof. done. Qed.

Definition dump_netbox_vlan (a : VLAN.VLAN) : json := JDict [ ("vid", dump (VLAN.vid a));
  ("name", dump (VLAN.name a)); ("site_name", dump (VLAN.site_name a));
  ("status", dump (VLAN.status a)); ("role", dump (VLAN.role a))].

(** [VLAN]. *)
Definition VLANModel (j : json) : outcome VLAN.VLAN :=
  let! d := object_of [ "vid"; "name"; "site_name"; "status"; "role"] j in
  let! vid := required validate "vid" d in
  let! name := required validate "name" d in
  let! site_name := optional validate None "site_name" d in
  let! status := optional validate None "status" d in
  let! role := optional validate None "role" d in
  Ret {| VLAN.vid := vid; VLAN.name := name; VLAN.site_name := site_name; VLAN.status := status;
         VLAN.role := role |}.

#[export] Instance vlan_model : Model VLAN.VLAN.
Proof.
  refine {| dump := dump_netbox_vlan; validate := VLANModel;
            held a :=  held (VLAN.vid a) && held (VLAN.name a) && held (VLAN.site_name a) &&
              held (VLAN.status a) && held (VLAN.role a) |}.
  abstract model_law dump_netbox_vlan VLANModel.
Defined.
#[export] Instance vlan_model_not_null : NotNull VLAN.VLAN.
Proof. done. Qed.

Definition dump_netbox_device (a : Device.Device) : json := JDict [ ("name", dump (Device.name a));
  ("site_name", dump (Device.site_name a)); ("rack_name", dump (Device.rack_name a));
  ("device_type", dump (Device.device_type a)); ("role", dump (Device.role a));
  ("platform", dump (Device.platform a)); ("serial", dump (Device.serial a));
  ("status", dump (Device.status a)); ("primary_ip", dump (Device.primary_ip a));
  ("interfaces", dump (Device.interfaces a)); ("ip_addresses", dump (Device.ip_addresses a))].

(** [Device]. *)
Definition DeviceModel (j : json) : outcome Device.Device :=
  let! d := object_of [ "name"; "site_name"; "rack_name"; "device_type"; "role"; "platform";
    "serial"; "status"; "primary_ip"; "interfaces"; "ip_addresses"] j in
  let! name := required validate "name" d in
  let! site_name := optional validate None "site_name" d in
  let! rack_name := optional validate None "rack_name" d in
  let! device_type := required validate "device_type" d in
  let! role := optional validate None "role" d in
  let! platform := optional validate None "platform" d in
  let! serial := optional validate None "serial" d in
  let! status := optional validate None "status" d in
  let! primary_ip := optional validate None "primary_ip" d in
  let! interfaces := optional validate [] "interfaces" d in
  let! ip_addresses := optional validate [] "ip_addresses" d in
  Ret {| Device.name := name; Device.site_name := site_name; Device.rack_name := rack_name;
         Device.device_type := device_type; Device.role := role; Device.platform := platform;
         Device.serial := serial; Device.status := status; Device.primary_ip := primary_ip;
         Device.interfaces := interfaces; Device.ip_addresses := ip_addresses |}.

#[export] Instance device_model : Model Device.Device.
Proof.
  refine {| dump := dump_netbox_device; validate := DeviceModel;
            held a :=  held (Device.name a) && held (Device.site_name a) &&
              held (Device.rack_name a) && held (Device.device_type a) && held (Device.role a) &&
              held (Device.platform a) && held (Device.serial a) && held (Device.status a) &&
              held (Device.primary_ip a) && held (Device.interfaces a) &&
              held (Device.ip_addresses a) |}.
  abstract model_law dump_netbox_device DeviceModel.
Defined.
#[export] Instance device_model_not_null : NotNull Device.Device.
Proof. done. Qed.

Definition dump_netbox (a : NetBox.NetBoxInventorySnapshot) : json := JDict [
  ("sites", dump (NetBox.sites a)); ("racks", dump (NetBox.racks a));
  ("devices", dump (NetBox.devices a)); ("interfaces", dump (NetBox.interfaces a));
  ("ip_addresses", dump (NetBox.ip_addresses a)); ("vlans", dump (NetBox.vlans a));
  ("platforms", dump (NetBox.platforms a)); ("manufacturers", dump (NetBox.manufacturers a));
  ("device_types", dump (NetBox.device_types a)); ("roles", dump (NetBox.roles a))].

(** [InventorySnapshot]. *)
Definition NetBoxInventorySnapshotModel (j : json) : outcome NetBox.NetBoxInventorySnapshot :=
  let! d := object_of [ "sites"; "racks"; "devices"; "interfaces"; "ip_addresses"; "vlans";
    "platforms"; "manufacturers"; "device_types"; "roles"] j in
  let! sites := optional validate [] "sites" d in
  let! racks := optional validate [] "racks" d in
  let! devices := optional validate [] "devices" d in
  let! interfaces := optional validate [] "interfaces" d in
  let! ip_addresses := optional validate [] "ip_addresses" d in
  let! vlans := optional validate [] "vlans" d in
  let! platforms := optional validate [] "platforms" d in
  let! manufacturers := optional validate [] "manufacturers" d in
  let! device_types := optional validate [] "device_types" d in
  let! roles := optional validate [] "roles" d in
  Ret {| NetBox.sites := sites; NetBox.racks := racks; NetBox.devices := devices;
         NetBox.interfaces := interfaces; NetBox.ip_addresses := ip_addresses;
         NetBox.vlans := vlans; NetBox.platforms := platforms;
         NetBox.manufacturers := manufacturers; NetBox.device_types := device_types;
         NetBox.roles := roles |}.

#[export] Instance netbox_model : Model NetBox.NetBoxInventorySnapshot.
Proof.
  refine {| dump := dump_netbox; validate := NetBoxInventorySnapshotModel;
            held a :=  held (NetBox.sites a) && held (NetBox.racks a) &&
              held (NetBox.devices a) && held (NetBox.interfaces a) &&
              held (NetBox.ip_addresses a) && held (NetBox.vlans a) &&
              held (NetBox.platforms a) && held (NetBox.manufacturers a) &&
              held (NetBox.device_types a) && held (NetBox.roles a) |}.
  abstract model_law dump_netbox NetBoxInventorySnapshotModel.
Defined.
#[export] Instance netbox_model_not_null : NotNull NetBox.NetBoxInventorySnapshot.
Proof. done. Qed.

End NetBox.

(** ** The mapper ([snapshot/mapper.py])

    The entities have the fields of the models; the mapper copies each of them. *)

Definition interface_entity (a : InterfaceSnapshot.InterfaceSnapshot) : InterfaceSnapshot.InterfaceSnapshot :=
  {| InterfaceSnapshot.device_id := InterfaceSnapshot.device_id a;
     InterfaceSnapshot.name := InterfaceSnapshot.name a;
     InterfaceSnapshot.captured_at := InterfaceSnapshot.captured_at a;
     InterfaceSnapshot.version := InterfaceSnapshot.version a;
     InterfaceSnapshot.admin_status := InterfaceSnapshot.admin_status a;
     InterfaceSnapshot.oper_status := InterfaceSnapshot.oper_status a;
     InterfaceSnapshot.description := InterfaceSnapshot.description a;
     InterfaceSnapshot.mac_address := InterfaceSnapshot.mac_address a;
     InterfaceSnapshot.speed_mbps := InterfaceSnapshot.speed_mbps a;
     InterfaceSnapshot.poe_status := InterfaceSnapshot.poe_status a |}.

Definition vlan_entity (a : VLANSnapshot.VLANSnapshot) : VLANSnapshot.VLANSnapshot :=
  {| VLANSnapshot.vlan_id := VLANSnapshot.vlan_id a; VLANSnapshot.name := VLANSnapshot.name a;
     VLANSnapshot.captured_at := VLANSnapshot.captured_at a;
     VLANSnapshot.version := VLANSnapshot.version a;
     VLANSnapshot.device_id := VLANSnapshot.device_id a;
     VLANSnapshot.status := VLANSnapshot.status a |}.

Definition mac_table_entity (a : MACTableSnapshot.MACTableSnapshot) : MACTableSnapshot.MACTableSnapshot :=
  {| MACTableSnapshot.mac_address := MACTableSnapshot.mac_address a;
     MACTableSnapshot.device_id := MACTableSnapshot.device_id a;
     MACTableSnapshot.interface_name := MACTableSnapshot.interface_name a;
     MACTableSnapshot.captured_at := MACTableSnapshot.captured_at a;
     MACTableSnapshot.version := MACTableSnapshot.version a;
     MACTableSnapshot.vlan_id := MACTableSnapshot.vlan_id a;
     MACTableSnapshot.last_seen := MACTableSnapshot.last_seen a |}.

Definition neighbor_entity (a : NeighborSnapshot.NeighborSnapshot) : NeighborSnapshot.NeighborSnapshot :=
  {| NeighborSnapshot.local_device_id := NeighborSnapshot.local_device_id a;
     NeighborSnapshot.local_interface := NeighborSnapshot.local_interface a;
     NeighborSnapshot.remote_device_id := NeighborSnapshot.remote_device_id a;
     NeighborSnapshot.remote_interface := NeighborSnapshot.remote_interface a;
     NeighborSnapshot.protocol := NeighborSnapshot.protocol a;
     NeighborSnapshot.captured_at := NeighborSnapshot.captured_at a;
     NeighborSnapshot.version := NeighborSnapshot.version a |}.

Definition power_entity (a : PowerSnapshot.PowerSnapshot) : PowerSnapshot.PowerSnapshot :=
  {| PowerSnapshot.device_id := PowerSnapshot.device_id a;
     PowerSnapshot.source := PowerSnapshot.source a;
     PowerSnapshot.captured_at := PowerSnapshot.captured_at a;
     PowerSnapshot.version := PowerSnapshot.version a;
     PowerSnapshot.status := PowerSnapshot.status a;
     PowerSnapshot.available_watts := PowerSnapshot.available_watts a;
     PowerSnapshot.consumed_watts := PowerSnapshot.consumed_watts a;
     PowerSnapshot.poe_enabled := PowerSnapshot.poe_enabled a |}.

(** [SnapshotMapper._device_entity] and [to_entity]. *)
Definition device_entity (a : DeviceSnapshot.DeviceSnapshot) : DeviceSnapshot.DeviceSnapshot :=
  {| DeviceSnapshot.device_id := DeviceSnapshot.device_id a;
     DeviceSnapshot.name := DeviceSnapshot.name a;
     DeviceSnapshot.captured_at := DeviceSnapshot.captured_at a;
     DeviceSnapshot.version := DeviceSnapshot.version a;
     DeviceSnapshot.manufacturer := DeviceSnapshot.manufacturer a;
     DeviceSnapshot.model := DeviceSnapshot.model a;
     DeviceSnapshot.serial_number := DeviceSnapshot.serial_number a;
     DeviceSnapshot.product_id := DeviceSnapshot.product_id a;
     DeviceSnapshot.management_ip := DeviceSnapshot.management_ip a;
     DeviceSnapshot.base_mac := DeviceSnapshot.base_mac a;
     DeviceSnapshot.software_version := DeviceSnapshot.software_version a;
     DeviceSnapshot.uptime := DeviceSnapshot.uptime a;
     DeviceSnapshot.hardware_revision := DeviceSnapshot.hardware_revision a;
     DeviceSnapshot.platform := DeviceSnapshot.platform a;
     DeviceSnapshot.stack_members := DeviceSnapshot.stack_members a;
     DeviceSnapshot.interfaces := map interface_entity (DeviceSnapshot.interfaces a);
     DeviceSnapshot.vlans := map vlan_entity (DeviceSnapshot.vlans a);
     DeviceSnapshot.mac_table := map mac_table_entity (DeviceSnapshot.mac_table a);
     DeviceSnapshot.neighbors := map neighbor_entity (DeviceSnapshot.neighbors a);
     DeviceSnapshot.power := power_entity <$> DeviceSnapshot.power a |}.

Definition to_entity (a : Live.LiveInventorySnapshot) : Live.LiveInventorySnapshot :=
  {| Live.devices := map device_entity (Live.devices a); Live.snapshot_id := Live.snapshot_id a;
     Live.captured_at := Live.captured_at a; Live.version := Live.version a;
     Live.source := Live.source a |}.

Lemma map_id_ext {A} (f : A → A) l : (∀ a, f a = a) → map f l = l.
Proof. intros Hf. induction l as [|a l IH]; [done|]. cbn. by rewrite Hf, IH. Qed.

Lemma device_entity_id a : device_entity a = a.
Proof.
  destruct a as [? ? ? ? ? ? ? ? ? ? ? ? ? ? ? ? ? ? ? power]. unfold device_entity. cbn.
  rewrite !map_id_ext by (by intros []). by destruct power as [[]|].
Qed.

(** The mapper loses nothing. *)
Lemma to_entity_id a : to_entity a = a.
Proof. destruct a. unfold to_entity. cbn. by rewrite map_id_ext by apply device_entity_id. Qed.
