(* ===== verification/Comparison.v ===== *)
(** * Inventory comparison ([comparison/])

    The engine that compares the canonical inventory with a live snapshot: the
    matcher pairs devices, six comparators list the differences, a registry
    keeps one difference per key and a filter may drop some.  The identity and
    the detection time that a difference, an evidence item or a finding draws at
    its creation ([uuid4], [datetime.now]) take no part in a comparison and are
    left out of the records. *)

From stdpp Require Import sorting.
From S2P Require Import Prelude Vocabulary Effects Json Dicts Inventories.
#[local] Open Scope Z_scope.

(** ** Differences ([comparison/diff.py], [comparison/registry.py]) *)

Inductive DifferenceType :=
  MISSING | UNEXPECTED | MODIFIED | CONFLICT | DUPLICATE | UNSUPPORTED | UNKNOWN.

#[export] Instance DifferenceType_eq_dec : EqDecision DifferenceType.
Proof. solve_decision. Defined.

Definition DifferenceType_value (t : DifferenceType) : string :=
  match t with
  | MISSING => "missing"
  | UNEXPECTED => "unexpected"
  | MODIFIED => "modified"
  | CONFLICT => "conflict"
  | DUPLICATE => "duplicate"
  | UNSUPPORTED => "unsupported"
  | UNKNOWN => "unknown"
  end.

#[export] Program Instance DifferenceType_StrEnum : StrEnum DifferenceType := {|
  value := DifferenceType_value;
  members := [MISSING; UNEXPECTED; MODIFIED; CONFLICT; DUPLICATE; UNSUPPORTED; UNKNOWN];
|}.
Next Obligation. solve_members. Qed.
Next Obligation. solve_value_inj. Qed.

Record Difference := {
  difference_type : DifferenceType;
  subject_type : string;
  subject_id : string;
  field_name : option string;
  expected : json;
  observed : json;
  description : option string;
  metadata : dict;
}.

(** [Difference.key]. *)
Definition key (d : Difference) : string :=
  value (difference_type d) +:+ ":" +:+ subject_type d +:+ ":" +:+ subject_id d +:+ ":" +:+
  from_option id "" (field_name d).

(** [DifferenceBuilder]. *)
Definition missing (subject_type subject_id : string) (expected : json) (description : string) := {|
  difference_type := MISSING; subject_type := subject_type; subject_id := subject_id;
  field_name := None; expected := expected; observed := JNull;
  description := Some description; metadata := [] |}.

Definition unexpected (subject_type subject_id : string) (observed : json) (description : string) := {|
  difference_type := UNEXPECTED; subject_type := subject_type; subject_id := subject_id;
  field_name := None; expected := JNull; observed := observed;
  description := Some description; metadata := [] |}.

Definition modified (subject_type subject_id field_name : string) (expected observed : json) := {|
  difference_type := MODIFIED; subject_type := subject_type; subject_id := subject_id;
  field_name := Some field_name; expected := expected; observed := observed;
  description :=
    Some (subject_type +:+ " " +:+ subject_id +:+ " field " +:+ field_name +:+ " differs.");
  metadata := [] |}.

Definition duplicate (subject_type subject_id : string) (observed : json) (description : string) := {|
  difference_type := DUPLICATE; subject_type := subject_type; subject_id := subject_id;
  field_name := None; expected := JNull; observed := observed;
  description := Some description; metadata := [] |}.

Definition unsupported (subject_type subject_id : string) (observed : json) (description : string) := {|
  difference_type := UNSUPPORTED; subject_type := subject_type; subject_id := subject_id;
  field_name := None; expected := JNull; observed := observed;
  description := Some description; metadata := [] |}.

(** [DifferenceRegistry]: [add], [extend] and [all]. *)
Abbreviation DifferenceRegistry := (list (string * Difference)).

Definition add (d : Difference) (r : DifferenceRegistry) : DifferenceRegistry := put (key d) d r.
Definition extend (ds : list Difference) (r : DifferenceRegistry) : DifferenceRegistry :=
  fold_left (λ r d, add d r) ds r.

(** [DifferenceFilter.apply]. *)
Record DifferenceFilter := {
  include_types : list DifferenceType;
  exclude_types : list DifferenceType;
  subject_types : list string;
}.

Definition accepts (f : DifferenceFilter) (d : Difference) : bool :=
  if negb (is_nil (include_types f)) && negb (mem (difference_type d) (include_types f)) then false
  else if mem (difference_type d) (exclude_types f) then false
  else if negb (is_nil (subject_types f)) && negb (mem (subject_type d) (subject_types f)) then false
  else true.

Definition apply_filter (f : DifferenceFilter) (ds : list Difference) : list Difference :=
  List.filter (accepts f) ds.

(** ** Matching ([comparison/matcher.py]) *)

(** [_normalize]: [value.strip().casefold()]. *)
Definition normalize (s : string) : string := str_lower (str_strip s).
Definition normalize_opt (o : option string) : string := from_option normalize "" o.

Record InventoryMatch := {
  matched_devices : list (Device.Device * DeviceSnapshot.DeviceSnapshot);
  missing_devices : list Device.Device;
  unexpected_devices : list DeviceSnapshot.DeviceSnapshot;
  duplicate_netbox_device_names : list string;
  duplicate_live_device_names : list string;
}.

(** [_duplicates]: the sets of values seen and of those seen again. *)
Definition duplicates_loop (vs : list string) : list string * list string :=
  fold_left (λ '(seen, dups) v,
    if negb (str_truthy v) then (seen, dups)
    else
      (if mem v seen then seen else v :: seen,
       if mem v seen && negb (mem v dups) then v :: dups else dups)) vs ([], []).

Definition duplicates (vs : list string) : list string :=
  merge_sort String.le (snd (duplicates_loop vs)).

Definition live_by_name (ds : list DeviceSnapshot.DeviceSnapshot) :=
  index_by (λ d, normalize (DeviceSnapshot.name d)) ds.

Definition live_by_serial (ds : list DeviceSnapshot.DeviceSnapshot) (serial : string)
    : option DeviceSnapshot.DeviceSnapshot :=
  List.find (λ d, normalize_opt (DeviceSnapshot.serial_number d) ≟ normalize serial) ds.

(** The live device the loop finds for a NetBox device. *)
Definition live_device_for (ds : list DeviceSnapshot.DeviceSnapshot) (d : Device.Device)
    : option DeviceSnapshot.DeviceSnapshot :=
  match get (normalize (Device.name d)) (live_by_name ds) with
  | Some l => Some l
  | None =>
      match Device.serial d with
      | Some serial => if str_truthy serial then live_by_serial ds serial else None
      | None => None
      end
  end.

(** [InventoryMatcher.match]. *)
Definition match_loop (live : list DeviceSnapshot.DeviceSnapshot) (netbox : list Device.Device)
    : list (Device.Device * DeviceSnapshot.DeviceSnapshot) * list Device.Device
      * list DeviceSnapshot.DeviceSnapshot :=
  fold_left (λ '(matched, missing, unexpected) d,
    match live_device_for live d with
    | None => (matched, missing ++ [d], unexpected)
    | Some l =>
        (matched ++ [(d, l)], missing,
         List.filter (λ x, negb (DeviceSnapshot.device_id x ≟ DeviceSnapshot.device_id l)) unexpected)
    end) netbox ([], [], live).

Definition match_inventories (netbox : NetBox.NetBoxInventorySnapshot)
    (live : Live.LiveInventorySnapshot) : InventoryMatch :=
  let '(matched, missing, unexpected) := match_loop (Live.devices live) (NetBox.devices netbox) in
  {| matched_devices := matched; missing_devices := missing; unexpected_devices := unexpected;
     duplicate_netbox_device_names :=
       duplicates (map (λ d, normalize (Device.name d)) (NetBox.devices netbox));
     duplicate_live_device_names :=
       duplicates (map (λ d, normalize (DeviceSnapshot.name d)) (Live.devices live)) |}.

(** [identity_match_method] and [identities_match]. *)
Definition same_identity (a b : option string) : bool :=
  match a, b with
  | Some a, Some b => str_truthy a && str_truthy b && (normalize a ≟ normalize b)
  | _, _ => false
  end.

Definition identity_match_method (expected_name expected_serial observed_name observed_serial
    : option string) : option string :=
  if same_identity expected_name observed_name then Some "name"
  else if same_identity expected_serial observed_serial then Some "serial"
  else None.

Definition identities_match (expected_name expected_serial observed_name observed_serial
    : option string) : bool :=
  is_not_none (identity_match_method expected_name expected_serial observed_name observed_serial).

(** ** Comparators ([comparison/comparator.py]) *)

Definition json_opt (o : option string) : json := match o with Some s => JStr s | None => JNull end.

(** [IdentityComparator.compare]. *)
Definition identity_differences (m : InventoryMatch) : list Difference :=
  map (λ n, duplicate "device" n (JStr n)
         ("NetBox contains duplicate device identity " +:+ n +:+ "."))
    (duplicate_netbox_device_names m) ++
  map (λ n, duplicate "device" n (JStr n)
         ("Live snapshot contains duplicate device identity " +:+ n +:+ "."))
    (duplicate_live_device_names m).

(** [DeviceComparator._append_modified]: what it appends. *)
Definition device_field (subject_id field_name : string) (expected observed : option string)
    : list Difference :=
  let expected_value := normalize_opt expected in
  let observed_value := normalize_opt observed in
  if negb (str_truthy expected_value) || negb (str_truthy observed_value)
     || (expected_value ≟ observed_value) then []
  else [modified "device" subject_id field_name (json_opt expected) (json_opt observed)].

(** [DeviceComparator._compare_matched_device]. *)
Definition compare_matched_device (d : Device.Device) (l : DeviceSnapshot.DeviceSnapshot)
    : list Difference :=
  let subject_id := Device.name d in
  device_field subject_id "serial" (Device.serial d) (DeviceSnapshot.serial_number l) ++
  device_field subject_id "primary_ip" (Device.primary_ip d) (DeviceSnapshot.management_ip l) ++
  device_field subject_id "model" (Some (DeviceType.model (Device.device_type d)))
    (DeviceSnapshot.model l).

(** [DeviceComparator.compare]. *)
Definition device_differences (m : InventoryMatch) : list Difference :=
  map (λ d, missing "device" (Device.name d) (JStr (Device.name d))
         ("NetBox device " +:+ Device.name d +:+ " is missing live.")) (missing_devices m) ++
  map (λ l, unexpected "device" (DeviceSnapshot.name l) (JStr (DeviceSnapshot.name l))
         ("Live device " +:+ DeviceSnapshot.name l +:+ " is not present in NetBox."))
    (unexpected_devices m) ++
  flat_map (λ '(d, l), compare_matched_device d l) (matched_devices m).

(** [PlatformComparator]. *)
Definition platform_matches (expected observed : option string) : bool :=
  match expected, observed with
  | Some e, Some o => str_in (normalize e) (normalize o)
  | _, _ => true
  end.

Definition platform_differences (m : InventoryMatch) : list Difference :=
  flat_map (λ '(d, l),
    let expected := Platform.name <$> Device.platform d in
    let observed := DeviceSnapshot.platform l in
    if negb (platform_matches expected observed)
    then [modified "platform" (Device.name d) "platform" (json_opt expected) (json_opt observed)]
    else []) (matched_devices m).

(** [InterfaceComparator]. *)
Definition interface_field (subject_id field_name : string) (expected observed : option string)
    : list Difference :=
  match expected, observed with
  | Some e, Some o =>
      if negb (str_truthy e) || negb (str_truthy o) then []
      else if normalize e ≟ normalize o then []
      else [modified "interface" subject_id field_name (JStr e) (JStr o)]
  | _, _ => []
  end.

Definition interface_enabled (subject_id : string) (n : Interface.Interface)
    (l : InterfaceSnapshot.InterfaceSnapshot) : list Difference :=
  let expected_admin := if Interface.enabled n then "up" else "down" in
  match InterfaceSnapshot.admin_status l with
  | Some s =>
      if str_truthy s && negb (s ≟ expected_admin)
      then [modified "interface" subject_id "enabled" (JBool (Interface.enabled n)) (JStr s)]
      else []
  | None => []
  end.

Definition compare_interface (subject_id : string) (n : Interface.Interface)
    (l : InterfaceSnapshot.InterfaceSnapshot) : list Difference :=
  interface_enabled subject_id n l ++
  interface_field subject_id "mac_address" (Interface.mac_address n) (InterfaceSnapshot.mac_address l) ++
  interface_field subject_id "description" (Interface.description n) (InterfaceSnapshot.description l).

Definition netbox_interfaces (d : Device.Device) :=
  index_by (λ i, normalize (Interface.name i)) (Device.interfaces d).
Definition live_interfaces (l : DeviceSnapshot.DeviceSnapshot) :=
  index_by (λ i, normalize (InterfaceSnapshot.name i)) (DeviceSnapshot.interfaces l).

Definition device_interface_differences (d : Device.Device) (l : DeviceSnapshot.DeviceSnapshot)
    : list Difference :=
  flat_map (λ '(k, n),
    let subject_id := Device.name d +:+ ":" +:+ Interface.name n in
    match get k (live_interfaces l) with
    | None => [missing "interface" subject_id (JStr (Interface.name n))
                 ("NetBox interface " +:+ subject_id +:+ " is missing live.")]
    | Some i => compare_interface subject_id n i
    end) (netbox_interfaces d) ++
  flat_map (λ '(k, i),
    if has k (netbox_interfaces d) then []
    else [unexpected "interface" (Device.name d +:+ ":" +:+ InterfaceSnapshot.name i)
            (JStr (InterfaceSnapshot.name i))
            ("Live interface " +:+ InterfaceSnapshot.name i +:+ " is not in NetBox.")])
    (live_interfaces l).

Definition interface_differences (m : InventoryMatch) : list Difference :=
  flat_map (λ '(d, l), device_interface_differences d l) (matched_devices m).

(** [VLANComparator]. *)
Definition compare_vlan (n : VLAN.VLAN) (l : VLANSnapshot.VLANSnapshot) : list Difference :=
  let vid := pretty (VLAN.vid n) in
  (if normalize (VLAN.name n) ≟ normalize (VLANSnapshot.name l) then []
   else [modified "vlan" vid "name" (JStr (VLAN.name n)) (JStr (VLANSnapshot.name l))]) ++
  match VLAN.status n, VLANSnapshot.status l with
  | Some e, Some o =>
      if str_truthy e && str_truthy o then
        if normalize e ≟ normalize o then []
        else [modified "vlan" vid "status" (JStr e) (JStr o)]
      else []
  | _, _ => []
  end.

Definition live_vlans (live : Live.LiveInventorySnapshot) : list VLANSnapshot.VLANSnapshot :=
  flat_map DeviceSnapshot.vlans (Live.devices live).

Definition vlan_differences (netbox : NetBox.NetBoxInventorySnapshot)
    (live : Live.LiveInventorySnapshot) : list Difference :=
  let netbox_vlans := index_by VLAN.vid (NetBox.vlans netbox) in
  let live_vlans := index_by VLANSnapshot.vlan_id (live_vlans live) in
  flat_map (λ '(vid, n),
    match get vid live_vlans with
    | None => [missing "vlan" (pretty vid) (JStr (VLAN.name n))
                 ("NetBox VLAN " +:+ pretty vid +:+ " is missing live.")]
    | Some l => compare_vlan n l
    end) netbox_vlans ++
  flat_map (λ '(vid, l),
    if has vid netbox_vlans then []
    else [unexpected "vlan" (pretty vid) (JStr (VLANSnapshot.name l))
            ("Live VLAN " +:+ pretty vid +:+ " is not present in NetBox.")]) live_vlans.

(** [NeighborComparator]. *)
Definition unsupported_neighbor (device_name : string) (n : NeighborSnapshot.NeighborSnapshot)
    : Difference :=
  unsupported "neighbor"
    (device_name +:+ ":" +:+ NeighborSnapshot.local_interface n +:+ ":" +:+
     NeighborSnapshot.remote_device_id n)
    (JStr (NeighborSnapshot.remote_device_id n))
    ("Live neighbor was observed, but canonical NetBox neighbor " +:+
     "inventory is not modeled yet.").

Definition neighbor_differences (live : Live.LiveInventorySnapshot) : list Difference :=
  flat_map (λ d, map (unsupported_neighbor (DeviceSnapshot.name d)) (DeviceSnapshot.neighbors d))
    (Live.devices live).

(** ** Findings ([comparison/evidence.py], [compliance/findings/]) *)

Inductive SeverityLevel := CRITICAL | HIGH | MEDIUM | LOW | INFO.

#[export] Instance SeverityLevel_eq_dec : EqDecision SeverityLevel.
Proof. solve_decision. Defined.

Record Severity := { level : SeverityLevel; score : Z; label : option string }.

Record Evidence := {
  source : string;
  evidence_description : string;
  reference : option string;
  details : dict;
}.

Record Recommendation := {
  summary : string;
  rationale : option string;
  steps : list string;
}.

Record Finding := {
  rule_id : UUID;
  title : string;
  severity : Severity;
  finding_description : option string;
  evidence : list Evidence;
  recommendation : option Recommendation;
  observed_state : dict;
  expected_state : dict;
}.

(** [uuid.uuid5(NAMESPACE_URL, name)]. *)
Class NameUUID := uuid5_url : string → UUID.

(** [str.title()] of a word in lower case. *)
Definition str_title (s : string) : string :=
  match s with String c s' => String (ascii_upper c) (str_lower s') | EmptyString => EmptyString end.

(** [EvidenceGenerator.from_difference]. *)
Definition evidence_from_difference (d : Difference) : Evidence := {|
  source := "comparison-engine";
  evidence_description := or_str (description d) "Inventory difference detected.";
  reference := Some (key d);
  details := [("difference_type", JStr (value (difference_type d)));
              ("subject_type", JStr (subject_type d)); ("subject_id", JStr (subject_id d));
              ("field_name", json_opt (field_name d)); ("expected", expected d);
              ("observed", observed d); ("metadata", JDict (metadata d))] |}.

(** [ComparisonEngine._severity] and [_title]. *)
Definition severity_of (t : DifferenceType) : Severity :=
  match t with
  | MISSING | CONFLICT => {| level := HIGH; score := 80; label := Some "High" |}
  | UNEXPECTED | MODIFIED => {| level := MEDIUM; score := 50; label := Some "Medium" |}
  | DUPLICATE => {| level := HIGH; score := 75; label := Some "High" |}
  | UNSUPPORTED | UNKNOWN => {| level := INFO; score := 10; label := Some "Info" |}
  end.

Definition title_of (d : Difference) : string :=
  str_title (value (difference_type d)) +:+ " " +:+ subject_type d +:+ " drift: " +:+ subject_id d.

Section Engine.
Context `{NameUUID}.

(** [ComparisonEngine._finding_from_difference]. *)
Definition finding_from_difference (d : Difference) : Finding := {|
  rule_id := uuid5_url ("nop-comparison:" +:+ value (difference_type d));
  title := title_of d;
  severity := severity_of (difference_type d);
  finding_description := description d;
  evidence := [evidence_from_difference d];
  recommendation := Some {|
    summary := "Review NetBox source-of-truth and live device state.";
    rationale := Some "Inventory drift must be reconciled before compliance scoring.";
    steps := ["Confirm NetBox inventory is authoritative."; "Validate live device inventory.";
              "Plan an approved correction outside this application."] |};
  observed_state := [("value", observed d); ("difference_type", JStr (value (difference_type d)))];
  expected_state := [("value", expected d)] |}.

(** ** The engine ([comparison/engine.py], [comparison/result.py]) *)

Record ComparisonMetrics := {
  total_differences : Z;
  total_findings : Z;
  missing_count : Z;
  unexpected_count : Z;
  modified_count : Z;
  conflict_count : Z;
  duplicate_count : Z;
  unsupported_count : Z;
  unknown_count : Z;
}.

Record InventoryComparisonResult := {
  differences : list Difference;
  findings : list Finding;
  metrics : ComparisonMetrics;
}.

(** [ComparisonMetrics.from_differences]. *)
Definition metrics_from_differences (ds : list Difference) (fs : list Finding)
    : ComparisonMetrics :=
  let counts t := count_of t (map difference_type ds) in
  {| total_differences := Z.of_nat (length ds); total_findings := Z.of_nat (length fs);
     missing_count := counts MISSING; unexpected_count := counts UNEXPECTED;
     modified_count := counts MODIFIED; conflict_count := counts CONFLICT;
     duplicate_count := counts DUPLICATE; unsupported_count := counts UNSUPPORTED;
     unknown_count := counts UNKNOWN |}.

(** What the comparators return, in the order they are registered. *)
Definition all_differences (netbox : NetBox.NetBoxInventorySnapshot)
    (live : Live.LiveInventorySnapshot) : list Difference :=
  let m := match_inventories netbox live in
  identity_differences m ++ device_differences m ++ interface_differences m ++
  vlan_differences netbox live ++ neighbor_differences live ++ platform_differences m.

(** [ComparisonEngine.compare]. *)
Definition compare (difference_filter : option DifferenceFilter)
    (netbox : NetBox.NetBoxInventorySnapshot) (live : Live.LiveInventorySnapshot)
    : InventoryComparisonResult :=
  let m := match_inventories netbox live in
  let registry := []
    |> extend (identity_differences m)
    |> extend (device_differences m)
    |> extend (interface_differences m)
    |> extend (vlan_differences netbox live)
    |> extend (neighbor_differences live)
    |> extend (platform_differences m) in
  let ds := values registry in
  let ds := match difference_filter with Some f => apply_filter f ds | None => ds end in
  let fs := map finding_from_difference ds in
  {| differences := ds; findings := fs; metrics := metrics_from_differences ds fs |}.

(** [InventoryComparisonResult.is_compliant]. *)
Definition is_compliant (r : InventoryComparisonResult) : bool := is_nil (differences r).
End Engine.
