(* ===== verification/ComparisonTheorems.v ===== *)
(** * Correctness of the inventory comparison

    [in_sync] says without loops, dictionaries or difference records when two
    inventories agree; the engine reports no difference exactly then.  What it
    reports otherwise is one difference per key, the last one found, each with
    its finding and counted once. *)

From stdpp Require Import sorting.
From S2P Require Import Prelude Vocabulary Effects Json Dicts Inventories Comparison.
#[local] Open Scope Z_scope.

(** ** The specification *)

(** Texts that are both present and differ are a drift. *)
Definition texts_agree (e o : option string) : Prop :=
  normalize_opt e = "" ∨ normalize_opt o = "" ∨ normalize_opt e = normalize_opt o.

(** The same, where a blank text counts as present. *)
Definition fields_agree (e o : option string) : Prop :=
  match e, o with
  | Some e, Some o => e = "" ∨ o = "" ∨ normalize e = normalize o
  | _, _ => True
  end.

Record interfaces_agree (n : Interface.Interface) (l : InterfaceSnapshot.InterfaceSnapshot) : Prop := {
  ia_admin : from_option id "" (InterfaceSnapshot.admin_status l) ∈
    [""; if Interface.enabled n then "up" else "down"];
  ia_mac : fields_agree (Interface.mac_address n) (InterfaceSnapshot.mac_address l);
  ia_description : fields_agree (Interface.description n) (InterfaceSnapshot.description l);
}.

Record vlans_agree (n : VLAN.VLAN) (l : VLANSnapshot.VLANSnapshot) : Prop := {
  va_name : normalize (VLAN.name n) = normalize (VLANSnapshot.name l);
  va_status : fields_agree (VLAN.status n) (VLANSnapshot.status l);
}.

(** Two collections agree key by key, each represented by its last element. *)
Definition agree_by {K A B} `{EqDecision K} (f : A → K) (g : B → K) (R : A → B → Prop)
    (xs : list A) (ys : list B) : Prop :=
  ∀ k, match last_with f k xs, last_with g k ys with
       | None, None => True
       | Some x, Some y => R x y
       | _, _ => False
       end.

Record devices_agree (d : Device.Device) (l : DeviceSnapshot.DeviceSnapshot) : Prop := {
  da_serial : texts_agree (Device.serial d) (DeviceSnapshot.serial_number l);
  da_ip : texts_agree (Device.primary_ip d) (DeviceSnapshot.management_ip l);
  da_model : texts_agree (Some (DeviceType.model (Device.device_type d))) (DeviceSnapshot.model l);
  da_platform : ∀ p o, Device.platform d = Some p → DeviceSnapshot.platform l = Some o →
    str_in (normalize (Platform.name p)) (normalize o) = true;
  da_interfaces : agree_by (λ i, normalize (Interface.name i))
    (λ i, normalize (InterfaceSnapshot.name i)) interfaces_agree
    (Device.interfaces d) (DeviceSnapshot.interfaces l);
}.

(** The live device that answers for a NetBox device: the last of its name, or
    else the first with its serial number. *)
Definition counterpart (live : list DeviceSnapshot.DeviceSnapshot) (d : Device.Device)
    : option DeviceSnapshot.DeviceSnapshot :=
  match last_with (λ l, normalize (DeviceSnapshot.name l)) (normalize (Device.name d)) live with
  | Some l => Some l
  | None =>
      if str_truthy (from_option id "" (Device.serial d))
      then List.find (λ l, normalize_opt (DeviceSnapshot.serial_number l) ≟
                           normalize_opt (Device.serial d)) live
      else None
  end.

Definition unrepeated (names : list string) : Prop := ∀ n, n ≠ "" → count_of n names <= 1.

(** The inventories agree. *)
Record in_sync (netbox : NetBox.NetBoxInventorySnapshot) (live : Live.LiveInventorySnapshot)
    : Prop := {
  is_names : unrepeated (map (λ d, normalize (Device.name d)) (NetBox.devices netbox));
  is_live_names : unrepeated (map (λ d, normalize (DeviceSnapshot.name d)) (Live.devices live));
  is_devices : ∀ d, d ∈ NetBox.devices netbox →
    ∃ l, counterpart (Live.devices live) d = Some l ∧ devices_agree d l;
  is_live_devices : ∀ l, l ∈ Live.devices live → ∃ d l', d ∈ NetBox.devices netbox ∧
    counterpart (Live.devices live) d = Some l' ∧
    DeviceSnapshot.device_id l = DeviceSnapshot.device_id l';
  is_vlans : agree_by VLAN.vid VLANSnapshot.vlan_id vlans_agree
    (NetBox.vlans netbox) (live_vlans live);
  is_neighbors : ∀ l, l ∈ Live.devices live → DeviceSnapshot.neighbors l = [];
}.

(** ** Empty lists of differences *)

Lemma flat_map_nil {A B} (f : A → list B) l : flat_map f l = [] ↔ ∀ x, x ∈ l → f x = [].
Proof.
  induction l as [|x l IH]; cbn; [split; [intros _ ? []%elem_of_nil|done]|].
  rewrite app_nil, IH. set_solver.
Qed.

Lemma map_nil {A B} (f : A → B) l : map f l = [] ↔ l = [].
Proof. by destruct l. Qed.

Lemma if_nil {A} (b : bool) (x : A) : (if b then [] else [x]) = [] ↔ b = true.
Proof. by destruct b. Qed.

Lemma str_truthy_false s : str_truthy s = false ↔ s = "".
Proof. by destruct s. Qed.

Lemma normalize_empty : normalize "" = "".
Proof. done. Qed.

Lemma device_field_nil id f e o : device_field id f e o = [] ↔ texts_agree e o.
Proof.
  unfold device_field, texts_agree. rewrite if_nil. pybool. rewrite !str_truthy_false. tauto.
Qed.

Lemma interface_field_nil id f e o : interface_field id f e o = [] ↔ fields_agree e o.
Proof.
  unfold interface_field, fields_agree. destruct e as [e|], o as [o|]; try done.
  destruct (negb (str_truthy e) || negb (str_truthy o)) eqn:E; pybool.
  - rewrite !str_truthy_false in E. tauto.
  - rewrite if_nil. pybool. destruct E as [He Ho]. split; [tauto|].
    intros [->|[->|?]]; done.
Qed.

Lemma interface_enabled_nil id n l :
  interface_enabled id n l = [] ↔
  from_option Datatypes.id "" (InterfaceSnapshot.admin_status l) ∈
    [""; if Interface.enabled n then "up" else "down"].
Proof.
  unfold interface_enabled. destruct (InterfaceSnapshot.admin_status l) as [s|]; cbn.
  - rewrite elem_of_cons, list_elem_of_singleton, <-str_truthy_false.
    destruct (str_truthy s); cbn; [|naive_solver]. destruct (s ≟ _) eqn:E; cbn; pybool; naive_solver.
  - split; [set_solver|done].
Qed.

Lemma compare_interface_nil id n l : compare_interface id n l = [] ↔ interfaces_agree n l.
Proof.
  unfold compare_interface.
  rewrite !app_nil, !interface_field_nil, interface_enabled_nil.
  split; [intros (?&?&?); by split|intros []; tauto].
Qed.

Lemma compare_vlan_nil n l : compare_vlan n l = [] ↔ vlans_agree n l.
Proof.
  unfold compare_vlan. rewrite app_nil, if_nil, eqb_true.
  assert (match VLAN.status n, VLANSnapshot.status l with
    | Some e, Some o =>
        if str_truthy e && str_truthy o then
          if normalize e ≟ normalize o then []
          else [modified "vlan" (pretty (VLAN.vid n)) "status" (JStr e) (JStr o)]
        else []
    | _, _ => []
    end = [] ↔ fields_agree (VLAN.status n) (VLANSnapshot.status l)) as ->.
  { unfold fields_agree. destruct (VLAN.status n) as [e|], (VLANSnapshot.status l) as [o|]; try done.
    destruct (str_truthy e && str_truthy o) eqn:E; pybool.
    - rewrite if_nil, eqb_true. destruct E. split; [tauto|]. intros [->|[->|?]]; done.
    - rewrite !str_truthy_false in E. tauto. }
  split; [intros []; by split|intros []; tauto].
Qed.

(** The two loops of the interface and VLAN comparators. *)
Lemma joined_nil {K A B D} `{EqDecision K} (f : A → K) (g : B → K) xs ys
    (gone : K → A → D) (extra : K → B → D) (cmp : K → A → B → list D) R :
  (∀ k x y, cmp k x y = [] ↔ R x y) →
  flat_map (λ '(k, x), match get k (index_by g ys) with
                       | None => [gone k x]
                       | Some y => cmp k x y
                       end) (index_by f xs) ++
  flat_map (λ '(k, y), if has k (index_by f xs) then [] else [extra k y]) (index_by g ys) = [] ↔
  agree_by f g R xs ys.
Proof.
  intros Hc. rewrite app_nil, !flat_map_nil. unfold agree_by. split.
  - intros [H1 H2] k. destruct (last_with f k xs) as [x|] eqn:Ex.
    + apply elem_of_index_by, H1 in Ex. cbn in Ex. rewrite get_index_by in Ex.
      destruct (last_with g k ys); [by apply Hc in Ex|done].
    + destruct (last_with g k ys) as [y|] eqn:Ey; [|done].
      apply elem_of_index_by, H2 in Ey. cbn in Ey. unfold has in Ey.
      by rewrite get_index_by, Ex in Ey.
  - intros H. split; intros [k z] Hz; apply elem_of_index_by in Hz; specialize (H k);
      rewrite Hz in H.
    + rewrite get_index_by. destruct (last_with g k ys); [by apply Hc|done].
    + unfold has. rewrite get_index_by. by destruct (last_with f k xs).
Qed.

Lemma device_interface_differences_nil d l :
  device_interface_differences d l = [] ↔
  agree_by (λ i, normalize (Interface.name i)) (λ i, normalize (InterfaceSnapshot.name i))
    interfaces_agree (Device.interfaces d) (DeviceSnapshot.interfaces l).
Proof.
  apply (joined_nil _ _ _ _
    (λ _ n, missing "interface" (Device.name d +:+ ":" +:+ Interface.name n)
      (JStr (Interface.name n)) _)
    (λ _ i, unexpected "interface" _ (JStr (InterfaceSnapshot.name i)) _)
    (λ _ n i, compare_interface (Device.name d +:+ ":" +:+ Interface.name n) n i)).
  intros _ n i. apply compare_interface_nil.
Qed.

Lemma vlan_differences_nil netbox live :
  vlan_differences netbox live = [] ↔
  agree_by VLAN.vid VLANSnapshot.vlan_id vlans_agree (NetBox.vlans netbox) (live_vlans live).
Proof.
  apply (joined_nil _ _ _ _
    (λ vid n, missing "vlan" (pretty vid) (JStr (VLAN.name n)) _)
    (λ vid l, unexpected "vlan" (pretty vid) (JStr (VLANSnapshot.name l)) _)
    (λ _ n l, compare_vlan n l)).
  intros _. apply compare_vlan_nil.
Qed.

(** ** The matcher *)

Lemma live_device_for_counterpart ds d : live_device_for ds d = counterpart ds d.
Proof.
  unfold live_device_for, counterpart, live_by_name, live_by_serial. rewrite get_index_by.
  by destruct (Device.serial d).
Qed.

(** The live devices of the matched pairs. *)
Definition taken (live : list DeviceSnapshot.DeviceSnapshot) (netbox : list Device.Device)
    (l : DeviceSnapshot.DeviceSnapshot) : bool :=
  existsb (λ d, match counterpart live d with
                | Some l' => DeviceSnapshot.device_id l ≟ DeviceSnapshot.device_id l'
                | None => false
                end) netbox.

Lemma filter_all {A} (l : list A) : List.filter (λ _, true) l = l.
Proof. induction l as [|x l IH]; [done|]. cbn. by rewrite IH. Qed.

(** The loop pairs every NetBox device with its counterpart or lists it as
    missing, in order, and leaves the live devices nobody took. *)
Lemma match_loop_spec live netbox :
  match_loop live netbox =
  (omap (λ d, (d,.) <$> counterpart live d) netbox,
   List.filter (λ d, is_none (counterpart live d)) netbox,
   List.filter (λ l, negb (taken live netbox l)) live).
Proof.
  unfold match_loop. induction netbox as [|d netbox IH] using rev_ind.
  { cbn. by rewrite filter_all. }
  rewrite fold_left_app, IH. cbn [fold_left]. rewrite live_device_for_counterpart.
  rewrite omap_app, List.filter_app. cbn [List.filter omap list_omap].
  assert (List.filter (λ l, negb (taken live (netbox ++ [d]) l)) live =
    List.filter (λ l, negb (taken live netbox l) &&
      match counterpart live d with
      | Some l' => negb (DeviceSnapshot.device_id l ≟ DeviceSnapshot.device_id l')
      | None => true
      end) live) as ->.
  { apply List.filter_ext. intros l. unfold taken. rewrite existsb_app. cbn.
    rewrite orb_false_r, negb_orb. by destruct (counterpart live d). }
  destruct (counterpart live d) as [l|]; cbn.
  - by rewrite filter_filter, app_nil_r.
  - rewrite app_nil_r. f_equal. apply List.filter_ext. intros x. by rewrite andb_true_r.
Qed.

Lemma filter_nil {A} (p : A → bool) l : List.filter p l = [] ↔ ∀ x, x ∈ l → p x = false.
Proof.
  induction l as [|x l IH]; cbn; [split; [intros _ ? []%elem_of_nil|done]|].
  destruct (p x) eqn:E; [|rewrite IH; set_solver].
  split; [done|]. intros H. specialize (H x ltac:(set_solver)). congruence.
Qed.

Lemma taken_true live netbox l :
  taken live netbox l = true ↔ ∃ d l', d ∈ netbox ∧ counterpart live d = Some l' ∧
    DeviceSnapshot.device_id l = DeviceSnapshot.device_id l'.
Proof.
  unfold taken. rewrite existsb_exists. split.
  - intros (d & Hd & E). destruct (counterpart live d) as [l'|] eqn:El; [|done].
    rewrite eqb_true in E. exists d, l'. by rewrite list_elem_of_In.
  - intros (d & l' & Hd & El & E). exists d. rewrite <-list_elem_of_In, El, E, eqb_refl. done.
Qed.

(** ** Repeated names *)

Lemma count_of_snoc {A} `{EqDecision A} (k x : A) xs :
  count_of k (xs ++ [x]) = count_of k xs + if decide (x = k) then 1 else 0.
Proof.
  induction xs as [|y xs IH]; cbn.
  - rewrite count_of_cons, count_of_nil. lia.
  - rewrite !count_of_cons, IH. lia.
Qed.

Lemma duplicates_loop_spec vs :
  (∀ x, x ∈ fst (duplicates_loop vs) ↔ x ≠ "" ∧ 0 < count_of x vs) ∧
  (∀ x, x ∈ snd (duplicates_loop vs) ↔ x ≠ "" ∧ 1 < count_of x vs).
Proof.
  unfold duplicates_loop. induction vs as [|v vs [IH1 IH2]] using rev_ind.
  { split; intros x; cbn; rewrite elem_of_nil, count_of_nil; lia. }
  rewrite fold_left_app. cbn [fold_left]. destruct (fold_left _ vs _) as [seen dups].
  cbn [fst snd] in IH1, IH2. destruct (str_truthy v) eqn:Ev; cbn [negb fst snd].
  - assert (v ≠ "") by (by intros ->).
    destruct (mem v seen) eqn:Es, (mem v dups) eqn:Ed; cbn [andb negb fst snd];
      pybool; rewrite IH1 in Es; rewrite IH2 in Ed;
      split; intros x; rewrite ?elem_of_cons, ?IH1, ?IH2, count_of_snoc;
      pose proof (count_of_nonneg x vs);
      (destruct (decide (v = x)) as [->|Hne]; [|rewrite Z.add_0_r]);
      intuition (congruence || lia).
  - apply str_truthy_false in Ev as ->.
    split; intros x; rewrite ?IH1, ?IH2, count_of_snoc; case_decide; subst;
      intuition (congruence || lia).
Qed.

Lemma duplicates_nil vs : duplicates vs = [] ↔ unrepeated vs.
Proof.
  unfold duplicates, unrepeated.
  assert (merge_sort String.le (snd (duplicates_loop vs)) = [] ↔ snd (duplicates_loop vs) = []) as ->.
  { pose proof (merge_sort_Permutation String.le (snd (duplicates_loop vs))) as Hp.
    split; intros E; [|by rewrite E]. rewrite E in Hp. by apply Permutation_nil_l in Hp. }
  split.
  - intros E n Hn. destruct (duplicates_loop_spec vs) as [_ H]. specialize (H n).
    rewrite E, elem_of_nil in H. destruct (Z.le_gt_cases (count_of n vs) 1); [done|].
    exfalso. apply H. split; [done|lia].
  - intros H. destruct (snd (duplicates_loop vs)) as [|n ns] eqn:E; [done|].
    destruct (duplicates_loop_spec vs) as [_ Hd]. specialize (Hd n). rewrite E in Hd.
    destruct (proj1 Hd ltac:(set_solver)) as [Hn Hc]. specialize (H n Hn). lia.
Qed.

(** ** The registry *)

Lemma extend_put_all ds r : extend ds r = put_all (map (λ d, (key d, d)) ds) r.
Proof.
  revert r. induction ds as [|d ds IH]; intros r; [done|]. unfold extend in *. cbn. by rewrite IH.
Qed.

Lemma extend_app ds1 ds2 r : extend ds2 (extend ds1 r) = extend (ds1 ++ ds2) r.
Proof. unfold extend. by rewrite fold_left_app. Qed.

Section Engine.
Context {HN : NameUUID}.

Lemma compare_differences f netbox live :
  differences (compare f netbox live) =
  match f with
  | Some f => apply_filter f (values (index_by key (all_differences netbox live)))
  | None => values (index_by key (all_differences netbox live))
  end.
Proof.
  unfold compare. cbn [differences]. by rewrite !extend_app, extend_put_all.
Qed.

Lemma identity_differences_nil m :
  identity_differences m = [] ↔
  duplicate_netbox_device_names m = [] ∧ duplicate_live_device_names m = [].
Proof. unfold identity_differences. by rewrite app_nil, !map_nil. Qed.

Lemma compare_matched_device_nil d l :
  compare_matched_device d l = [] ↔
  texts_agree (Device.serial d) (DeviceSnapshot.serial_number l) ∧
  texts_agree (Device.primary_ip d) (DeviceSnapshot.management_ip l) ∧
  texts_agree (Some (DeviceType.model (Device.device_type d))) (DeviceSnapshot.model l).
Proof. unfold compare_matched_device. by rewrite !app_nil, !device_field_nil. Qed.

(** A matched pair contributes no difference exactly when it agrees. *)
Lemma matched_pair_nil d l :
  compare_matched_device d l = [] ∧ device_interface_differences d l = [] ∧
  platform_matches (Platform.name <$> Device.platform d) (DeviceSnapshot.platform l) = true ↔
  devices_agree d l.
Proof.
  rewrite compare_matched_device_nil, device_interface_differences_nil.
  assert (platform_matches (Platform.name <$> Device.platform d) (DeviceSnapshot.platform l) = true ↔
    ∀ p o, Device.platform d = Some p → DeviceSnapshot.platform l = Some o →
      str_in (normalize (Platform.name p)) (normalize o) = true) as ->.
  { unfold platform_matches.
    destruct (Device.platform d), (DeviceSnapshot.platform l); cbn; naive_solver. }
  split; [intros ((?&?&?)&?&?); by split|intros []; tauto].
Qed.

Lemma all_differences_nil netbox live : all_differences netbox live = [] ↔ in_sync netbox live.
Proof.
  unfold all_differences, match_inventories. rewrite match_loop_spec.
  set (m := Build_InventoryMatch _ _ _ _ _).
  rewrite !app_nil, identity_differences_nil, vlan_differences_nil.
  unfold device_differences, interface_differences, platform_differences, neighbor_differences.
  rewrite !app_nil, !map_nil, !flat_map_nil. subst m. cbn [matched_devices missing_devices
    unexpected_devices duplicate_netbox_device_names duplicate_live_device_names].
  rewrite !duplicates_nil, !filter_nil.
  assert (∀ P : Device.Device * DeviceSnapshot.DeviceSnapshot → Prop,
    (∀ x, x ∈ omap (λ d, (d,.) <$> counterpart (Live.devices live) d) (NetBox.devices netbox) → P x) ↔
    (∀ d l, d ∈ NetBox.devices netbox → counterpart (Live.devices live) d = Some l → P (d, l)))
    as Hpairs.
  { intros P. split.
    - intros H d l Hd Hl. apply H, list_elem_of_omap. exists d. by rewrite Hl.
    - intros H [d l] (d' & Hd & E)%list_elem_of_omap.
      destruct (counterpart _ d') eqn:El; [|done]. injection E as -> ->. auto. }
  rewrite !Hpairs. split.
  - intros ((Hn1 & Hn2) & (Hmiss & Hunexp & Hdev) & Hif & Hvlan & Hnb & Hplat).
    split; try done.
    + intros d Hd. specialize (Hmiss d Hd).
      destruct (counterpart (Live.devices live) d) as [l|] eqn:El; [|done]. exists l.
      split; [done|]. apply matched_pair_nil. split_and!; auto.
      specialize (Hplat d l Hd El). cbn in Hplat. by destruct (platform_matches _ _).
    + intros l Hl. apply taken_true. specialize (Hunexp l Hl). by apply negb_false_iff in Hunexp.
    + intros l Hl. specialize (Hnb l Hl). by apply map_nil in Hnb.
  - intros [Hn1 Hn2 Hdev Hlive Hvlan Hnb].
    assert (∀ d l, d ∈ NetBox.devices netbox → counterpart (Live.devices live) d = Some l →
      devices_agree d l) as Hagree.
    { intros d l Hd Hl. destruct (Hdev d Hd) as (l' & Hl' & ?). congruence. }
    split_and!; try done.
    + intros d Hd. destruct (Hdev d Hd) as (l & -> & _). done.
    + intros l Hl. apply negb_false_iff, taken_true. auto.
    + intros d l Hd Hl. by apply matched_pair_nil, Hagree.
    + intros d l Hd Hl. by apply matched_pair_nil, Hagree.
    + intros l Hl. by rewrite (Hnb l Hl).
    + intros d l Hd Hl. pose proof (proj2 (matched_pair_nil d l) (Hagree d l Hd Hl)) as (_ & _ & E).
      cbn. by rewrite E.
Qed.
End Engine.

Section Results.
Context {HN : NameUUID}.

(** C12. The comparison implements its specification: without a filter it finds
    the inventories compliant exactly when they are in sync. *)
Theorem compare_refines_in_sync netbox live :
  is_compliant (compare None netbox live) = true ↔ in_sync netbox live.
Proof.
  unfold is_compliant. rewrite compare_differences, <-all_differences_nil.
  assert (∀ l : list Difference, is_nil l = true ↔ l = []) as -> by (by intros []).
  unfold values. rewrite map_nil. unfold index_by. by rewrite dict_of_nil, map_nil.
Qed.

Definition sum_of_counts (m : ComparisonMetrics) : Z :=
  missing_count m + unexpected_count m + modified_count m + conflict_count m +
  duplicate_count m + unsupported_count m + unknown_count m.

Lemma metrics_total ds fs :
  sum_of_counts (metrics_from_differences ds fs) = Z.of_nat (length ds).
Proof.
  unfold sum_of_counts, metrics_from_differences. cbn [missing_count unexpected_count
    modified_count conflict_count duplicate_count unsupported_count unknown_count].
  rewrite <-(length_map difference_type ds), <-(count_of_total members (map difference_type ds)).
  - cbn [members DifferenceType_StrEnum map fold_right]. lia.
  - repeat constructor; set_solver.
  - intros x _. apply members_all.
Qed.

Lemma NoDup_filter_map {A B} (f : A → B) (p : A → bool) l :
  NoDup (map f l) → NoDup (map f (List.filter p l)).
Proof.
  induction l as [|x l IH]; cbn; [done|]. intros [Hn Hd]%NoDup_cons.
  destruct (p x); cbn; [|auto]. apply NoDup_cons. split; [|auto].
  intros (y & E & Hy)%list_elem_of_fmap. apply Hn. rewrite E. apply list_elem_of_fmap.
  exists y. split; [done|]. apply list_elem_of_In, filter_In in Hy as [Hy _].
  by apply list_elem_of_In.
Qed.

(** The differences reported have distinct keys, and are, for each key, the last
    one the comparators found, where the filter accepts it; each has its finding,
    of the severity of its type and with its evidence, and the counters of the
    metrics add up to the number of differences and of findings. *)
Theorem compare_accounts f netbox live :
  let r := compare f netbox live in
  NoDup (map key (differences r)) ∧
  (∀ d, d ∈ differences r ↔
     last_with key (key d) (all_differences netbox live) = Some d ∧
     match f with Some f => accepts f d = true | None => True end) ∧
  findings r = map finding_from_difference (differences r) ∧
  sum_of_counts (metrics r) = Z.of_nat (length (differences r)) ∧
  total_differences (metrics r) = Z.of_nat (length (differences r)) ∧
  total_findings (metrics r) = Z.of_nat (length (differences r)).
Proof.
  intros r. split_and!.
  - subst r. rewrite compare_differences.
    destruct f; [apply NoDup_filter_map|]; apply NoDup_index_by.
  - intros d. subst r. rewrite compare_differences, <-elem_of_values_index_by.
    destruct f as [f|]; [|tauto]. unfold apply_filter.
    by rewrite !list_elem_of_In, filter_In.
  - done.
  - apply metrics_total.
  - done.
  - subst r. unfold compare. cbn [metrics differences total_findings metrics_from_differences].
    by rewrite length_map.
Qed.
End Results.

(** ** Instances *)

Definition demo_device (name : string) (serial : option string) : Device.Device := {|
  Device.name := name; Device.site_name := None; Device.rack_name := None;
  Device.device_type := {|
    DeviceType.manufacturer := {| Manufacturer.name := "Cisco"; Manufacturer.slug := "cisco" |};
    DeviceType.model := "C9300"; DeviceType.slug := "c9300"; DeviceType.part_number := None;
    DeviceType.u_height := None; DeviceType.is_full_depth := None |};
  Device.role := None; Device.platform := None; Device.serial := serial; Device.status := None;
  Device.primary_ip := None; Device.interfaces := []; Device.ip_addresses := [];
|}.

Definition demo_netbox (ds : list Device.Device) : NetBox.NetBoxInventorySnapshot := {|
  NetBox.sites := []; NetBox.racks := []; NetBox.devices := ds; NetBox.interfaces := [];
  NetBox.ip_addresses := []; NetBox.vlans := []; NetBox.platforms := [];
  NetBox.manufacturers := []; NetBox.device_types := []; NetBox.roles := [];
|}.

(** Case and surrounding blanks do not matter; a renamed device is both missing
    and unexpected. *)
Example demo_compared :
  all_differences (demo_netbox [demo_device "Core-1" None])
    (demo_live 5 [demo_live_device "x" " core-1 " 5]) = [] ∧
  map key (all_differences (demo_netbox [demo_device "core-1" None])
    (demo_live 5 [demo_live_device "x" "core-2" 5])) =
    ["missing:device:core-1:"; "unexpected:device:core-2:"].
Proof. split; vm_compute; reflexivity. Qed.

(** A blank serial number passes the test of presence and matches any live device
    without one: a device that is missing live is paired with a stranger. *)
Lemma blank_serial_matches :
  live_device_for [demo_live_device "x" "stranger" 5] (demo_device "core-1" (Some " ")) =
    Some (demo_live_device "x" "stranger" 5).
Proof. vm_compute. reflexivity. Qed.
