(* ===== verification/Policies.v ===== *)
(** * Policies ([policies/])

    Versions, the policy definition with its validation and compilation into an
    evaluation package, and the resolution of packages into the compliance
    policies the evaluation runs ([policies/evaluation.py]).  Packages inherit
    from other packages by identity; the walk over them shares one set of
    visited identities between all its branches. *)

From S2P Require Import Prelude Vocabulary Effects Json Dicts Texts.
#[local] Open Scope Z_scope.

(** ** Versions ([PolicyVersion]) *)

Inductive PolicyVersion := Version (major minor patch : Z) (history : list PolicyVersion).

Definition major (v : PolicyVersion) : Z := let 'Version a _ _ _ := v in a.
Definition minor (v : PolicyVersion) : Z := let 'Version _ b _ _ := v in b.
Definition patch (v : PolicyVersion) : Z := let 'Version _ _ c _ := v in c.
Definition history (v : PolicyVersion) : list PolicyVersion := let 'Version _ _ _ h := v in h.

(** [__iter__], the comparisons and [as_string]. *)
Definition version_tuple (v : PolicyVersion) : list Z := [major v; minor v; patch v].
Definition version_ltb (v w : PolicyVersion) : bool := seq_ltb (version_tuple v) (version_tuple w).
Definition version_leb (v w : PolicyVersion) : bool := seq_leb (version_tuple v) (version_tuple w).
Definition as_string (v : PolicyVersion) : string :=
  pretty (major v) +:+ "." +:+ pretty (minor v) +:+ "." +:+ pretty (patch v).

(** [PolicyVersion.create]. *)
Definition create_version (text : string) (hist : option (list PolicyVersion))
    : outcome PolicyVersion :=
  match str_split "."%char text with
  | [a; b; c] =>
      match int_of_digits a, int_of_digits b, int_of_digits c with
      | Some x, Some y, Some z => Ret (Version x y z (from_option id [] hist))
      | _, _, _ => raise_ InvalidVersionError ("Invalid version: " +:+ text)
      end
  | _ => raise_ InvalidVersionError ("Invalid version: " +:+ text)
  end.

(** ** Policies ([Policy]) *)

Inductive PolicyLifecycle := DRAFT | REVIEW | APPROVED | PUBLISHED | DEPRECATED | ARCHIVED.
Inductive VersionChange := MAJOR | MINOR | PATCH.

#[export] Instance PolicyLifecycle_eq_dec : EqDecision PolicyLifecycle.
Proof. solve_decision. Defined.
#[export] Instance VersionChange_eq_dec : EqDecision VersionChange.
Proof. solve_decision. Defined.

(** [RuleReference] and [BaselineReference]. *)
Record Reference := {
  reference_key : string;
  reference_name : string;
  reference_description : option string;
}.

Record PolicyAssignment := { scope : string; assigned : string }.

Record PolicyMetadata := {
  created_at : datetime;
  updated_at : option datetime;
  owner : option string;
  tags : list string;
}.

Module Policy.
Record Policy := {
  id : UUID;
  key : string;
  name : string;
  version : PolicyVersion;
  lifecycle : PolicyLifecycle;
  metadata : PolicyMetadata;
  rules : list Reference;
  baselines : list Reference;
  assignments : list PolicyAssignment;
  inheritance : list UUID;
  inheritance_scope : string;
  previous_version : option PolicyVersion;
  version_history : list PolicyVersion;
}.

Definition eta (p : Policy) : Policy := {|
  id := id p; key := key p; name := name p; version := version p; lifecycle := lifecycle p;
  metadata := metadata p; rules := rules p; baselines := baselines p;
  assignments := assignments p; inheritance := inheritance p;
  inheritance_scope := inheritance_scope p; previous_version := previous_version p;
  version_history := version_history p |}.

Definition set_version v (p : Policy) : Policy := ltac:(record_with eta version p v).
Definition set_lifecycle v (p : Policy) : Policy := ltac:(record_with eta lifecycle p v).
Definition with_inheritance v (p : Policy) : Policy := ltac:(record_with eta inheritance p v).
Definition with_baselines v (p : Policy) : Policy := ltac:(record_with eta baselines p v).
Definition with_assignments v (p : Policy) : Policy := ltac:(record_with eta assignments p v).
Definition set_previous_version v (p : Policy) : Policy := ltac:(record_with eta previous_version p v).
Definition set_version_history v (p : Policy) : Policy := ltac:(record_with eta version_history p v).
End Policy.

Module Package.
Record PolicyPackage := {
  policy_id : UUID;
  policy_key : string;
  version : PolicyVersion;
  rules : list Reference;
  baselines : list Reference;
  assignments : list PolicyAssignment;
  inherited_ids : list UUID;
  compiled_at : datetime;
}.
End Package.
Abbreviation PolicyPackage := Package.PolicyPackage.

(** [Policy.transition_to]. *)
Definition transition_to (lifecycle : PolicyLifecycle) (p : Policy.Policy) : outcome Policy.Policy :=
  if Policy.lifecycle p ≟ PUBLISHED
  then raise_ PolicyValidationError "Published policies are immutable"
  else Ret (Policy.set_lifecycle lifecycle p).

(** [Policy.bump_version]. *)
Definition next_version (change : VersionChange) (v : PolicyVersion) (hist : list PolicyVersion)
    : PolicyVersion :=
  match change with
  | MAJOR => Version (major v) 0 0 hist
  | MINOR => Version (major v) (minor v + 1) 0 hist
  | PATCH => Version (major v) (minor v) (patch v + 1) hist
  end.

Definition bump_version (change : VersionChange) (p : Policy.Policy) : Policy.Policy :=
  let hist := Policy.version_history p ++ [Policy.version p] in
  let next := next_version change (Policy.version p) hist in
  p |> Policy.set_version next
    |> Policy.set_previous_version (Some (Policy.version p))
    |> Policy.set_version_history (hist ++ [next]).

(** ** Validation ([policies/validation.py]) *)

Definition VALID_SCOPES : list string :=
  ["organization"; "site"; "building"; "floor"; "rack"; "vendor"; "platform"; "device_type";
   "device"].

Section Validator.
Context {R : Type}.

Definition validate_versions (p : Policy.Policy) : M R unit :=
  when (negb (str_truthy (as_string (Policy.version p))))
    (raise ValueError "policy version cannot be empty").

Definition validate_rule_references (p : Policy.Policy) : M R unit :=
  let keys := map reference_key (Policy.rules p) in
  when (negb (length keys ≟ length (first_occurrences keys)))
    (raise PolicyValidationError "Duplicate rule references are not allowed").

(** [_walk_inheritance]: every walk pops what it pushed, so it starts on the empty
    stack; [visited] holds integers, to which no [UUID] is equal. *)
Definition walk_inheritance (p : Policy.Policy) (current_id : UUID) (stack : list UUID) : M R unit :=
  if mem current_id stack
  then raise CircularInheritanceError "Circular inheritance detected"
  else if current_id ≟ Policy.id p
  then raise CircularInheritanceError "Circular inheritance detected"
  else ret tt.

Definition validate_inheritance (p : Policy.Policy) : M R unit :=
  for_each (Policy.inheritance p) (λ parent, walk_inheritance p parent []).

Definition validate_baselines (p : Policy.Policy) : M R unit :=
  when (existsb (λ b, reference_key b ≟ "missing") (Policy.baselines p))
    (raise MissingBaselineError "A policy baseline is missing").

Definition validate_assignments (p : Policy.Policy) : M R unit :=
  for_each (Policy.assignments p) (λ a,
    when (negb (str_truthy (str_strip (assigned a))))
      (raise InvalidAssignmentError "Assignment values are required") ;;;
    when (negb (mem (scope a) VALID_SCOPES))
      (raise InvalidAssignmentError "Assignment scope is invalid")).

(** [PolicyValidator.validate]. *)
Definition validate (p : Policy.Policy) : M R unit :=
  validate_versions p ;;;
  validate_rule_references p ;;;
  validate_inheritance p ;;;
  validate_baselines p ;;;
  validate_assignments p.

(** ** Compilation ([policies/compiler.py], [policies/engine.py]) *)

(** [InheritanceResolver.resolve]: in the order of the identities' texts. *)
Definition str_leb (a b : string) : bool := negb (String.ltb b a).

Definition sorted_inheritance (p : Policy.Policy) : list UUID :=
  stable_sort (λ a b, str_leb (uuid_str a) (uuid_str b)) (Policy.inheritance p).

Definition package_of (now : datetime) (inherited : list UUID) (p : Policy.Policy) : PolicyPackage := {|
  Package.policy_id := Policy.id p; Package.policy_key := Policy.key p;
  Package.version := Policy.version p; Package.rules := Policy.rules p;
  Package.baselines := Policy.baselines p; Package.assignments := Policy.assignments p;
  Package.inherited_ids := inherited; Package.compiled_at := now |}.

(** [PolicyCompiler.compile]. *)
Definition compile (now : datetime) (p : Policy.Policy) : M R PolicyPackage :=
  if Policy.lifecycle p ≟ PUBLISHED
  then raise PolicyValidationError "Published policies cannot be recompiled"
  else validate p ;;; ret (package_of now (sorted_inheritance p) p).

(** [PolicyEngine.compile]. *)
Definition engine_compile (now : datetime) (p : Policy.Policy) : M R PolicyPackage :=
  validate p ;;; ret (package_of now (Policy.inheritance p) p).
End Validator.

(** [InMemoryPolicyRepository]. *)
Abbreviation PolicyRepository := (list (string * Policy.Policy)).

Definition add (p : Policy.Policy) (r : PolicyRepository) : PolicyRepository :=
  put (Policy.key p) p r.
Definition find_policy (policy_id : UUID) (r : PolicyRepository) : option Policy.Policy :=
  List.find (λ p, Policy.id p ≟ policy_id) (values r).
Definition update (existing updated : Policy.Policy) : M PolicyRepository Policy.Policy :=
  if Policy.lifecycle existing ≟ PUBLISHED
  then raise PolicyValidationError "Published policies cannot be modified"
  else modify (put (Policy.key existing) updated) ;;; ret updated.

(** ** Compliance policies ([compliance/policies/models.py], [compliance/rules/]) *)

Module Baseline.
Record Baseline := {
  id : UUID;
  name : string;
  description : option string;
  scope : option string;
  version : string;
  expected_state : dict;
  created_at : datetime;
}.
End Baseline.

Module Rule.
Record RuleMetadata := {
  version : string;
  status : string;
  owner : option string;
  metadata_description : option string;
  tags : list string;
  references : list string;
  created_at : datetime;
}.

Record Rule := {
  id : UUID;
  key : string;
  name : string;
  metadata : RuleMetadata;
  description : option string;
  baseline : option Baseline.Baseline;
  expected_state : dict;
}.
End Rule.
Abbreviation Rule := Rule.Rule.

Module Compliance.
Record CompliancePolicy := {
  id : UUID;
  name : string;
  description : option string;
  rules : list Rule;
  baselines : list Baseline.Baseline;
  enabled : bool;
  tags : list string;
  created_at : datetime;
}.
End Compliance.
Abbreviation CompliancePolicy := Compliance.CompliancePolicy.

(** [EvaluationRuleRegistry]: [register] and [get]. *)
Abbreviation RuleRegistry := (list (string * Rule)).

Definition register (r : Rule) : M RuleRegistry unit :=
  rules <- gets id ;;
  if has (Rule.key r) rules
  then raise RuleRegistrationError
         ("Rule " +:+ str_repr (Rule.key r) +:+ " is already registered.")
  else modify (put (Rule.key r) r).

Definition get_rule (rules : RuleRegistry) (k : string) : outcome Rule :=
  match get k rules with
  | Some r => Ret r
  | None => raise_ RuleRegistrationError ("Unknown evaluation rule: " +:+ str_repr k)
  end.

(** ** Resolution ([PolicyPackageResolver]) *)

Definition package_by_id (packages : list PolicyPackage) : list (UUID * PolicyPackage) :=
  index_by Package.policy_id packages.

Definition ASSIGNMENT_TO_TAG : list (string * string) := map (λ s, (s, s)) VALID_SCOPES.

(** [_assignment_to_tag]. *)
Definition assignment_to_tag (a : PolicyAssignment) : option string :=
  match get (scope a) ASSIGNMENT_TO_TAG with
  | None => None
  | Some k =>
      if negb (str_truthy (str_strip (assigned a))) then None
      else Some (k +:+ ":" +:+ str_strip (assigned a))
  end.

Section Resolver.
Context (by_id : list (UUID * PolicyPackage)).

(** [_resolve_inherited_packages]: the packages in order and the visited set it
    leaves; [fuel] bounds the depth of the calls, [None] is fuel run out.  The
    loop over the parents calls [rec] for a package. *)
Fixpoint resolve_parents
    (rec : list UUID → PolicyPackage → option (list PolicyPackage * list UUID))
    (visited : list UUID) (ids : list UUID) : option (list PolicyPackage * list UUID) :=
  match ids with
  | [] => Some ([], visited)
  | parent_id :: ids =>
      if mem parent_id visited then resolve_parents rec visited ids
      else
        let visited := parent_id :: visited in
        match get parent_id by_id with
        | None => resolve_parents rec visited ids
        | Some parent =>
            match rec visited parent with
            | None => None
            | Some (above, visited) =>
                match resolve_parents rec visited ids with
                | None => None
                | Some (rest, visited) => Some (above ++ [parent] ++ rest, visited)
                end
            end
        end
  end.

Fixpoint resolve_inherited (fuel : nat) (visited : list UUID) (package : PolicyPackage)
    : option (list PolicyPackage * list UUID) :=
  match fuel with
  | O => None
  | S fuel =>
      match resolve_parents (resolve_inherited fuel) visited (Package.inherited_ids package) with
      | None => None
      | Some (ordered, visited) => Some (ordered ++ [package], visited)
      end
  end.

(** From an empty visited set, with as much fuel as there are identities. *)
Definition inherited_packages (package : PolicyPackage) : list PolicyPackage :=
  match resolve_inherited (S (length by_id)) [] package with
  | Some (ordered, _) => ordered
  | None => []
  end.

(** [_build_policy]; the registry's error is no [KeyError] and passes through. *)
Definition rule_keys (package : PolicyPackage) : list string :=
  first_occurrences (map reference_key (flat_map Package.rules (inherited_packages package))).

Definition collect_rules (rules : RuleRegistry) (ks : list string) : outcome (list Rule) :=
  (map_m (S := unit) (λ k, of_outcome (get_rule rules k)) ks tt).1.

Definition build_policy (rules : RuleRegistry) (package : PolicyPackage) : outcome CompliancePolicy :=
  match collect_rules rules (rule_keys package) with
  | Raise e => Raise e
  | Ret rs => Ret {|
      Compliance.id := Package.policy_id package;
      Compliance.name := Package.policy_key package;
      Compliance.description :=
        Some ("Compiled policy package " +:+ Package.policy_key package +:+ "@" +:+
              as_string (Package.version package));
      Compliance.rules := rs;
      Compliance.baselines := [];
      Compliance.enabled := true;
      Compliance.tags := omap assignment_to_tag (Package.assignments package);
      Compliance.created_at := Package.compiled_at package |}
  end.
End Resolver.

(** [packages_by_key]: [setdefault(key, []).append(package)]. *)
Definition packages_by_key (packages : list PolicyPackage) : list (string * list PolicyPackage) :=
  group_by (λ p, Some (Package.policy_key p)) packages.

(** The entry [sort(key=version, reverse=True)] puts first. *)
Definition sorted_entries (entries : list PolicyPackage) : list PolicyPackage :=
  stable_sort (λ p q, version_leb (Package.version q) (Package.version p)) entries.

(** [resolve_with_versions]. *)
Definition resolve_entry (rules : RuleRegistry) (by_id : list (UUID * PolicyPackage))
    (entries : list PolicyPackage) : M unit (CompliancePolicy * string) :=
  match sorted_entries entries with
  | [] => raise (OtherError "IndexError") "list index out of range"
  | selected :: _ =>
      policy <- of_outcome (build_policy by_id rules selected) ;;
      ret (policy, as_string (Package.version selected))
  end.

Definition resolve_with_versions (rules : RuleRegistry) (packages : list PolicyPackage)
    : outcome (list (CompliancePolicy * string)) :=
  (map_m (λ e, resolve_entry rules (package_by_id packages) (snd e))
     (packages_by_key packages) tt).1.
