(* ===== verification/PolicyTheorems.v ===== *)
(** * Correctness of versions, validation and package resolution *)

From S2P Require Import Prelude Vocabulary Effects Json Dicts Texts Policies.
#[local] Open Scope Z_scope.

(** ** Versions *)

Lemma no_dot z : 0 <= z → str_mem "."%char (pretty z) = false.
Proof.
  intros Hz. rewrite pretty_Z_of_N by done. by apply isdigit_no_char, isdigit_pretty.
Qed.

Lemma create_as_string a b c hist hs :
  0 <= a → 0 <= b → 0 <= c →
  create_version (as_string (Version a b c hist)) hs = Ret (Version a b c (from_option id [] hs)).
Proof.
  intros Ha Hb Hc. unfold create_version, as_string. cbn [major minor patch].
  change (pretty a +:+ "." +:+ pretty b +:+ "." +:+ pretty c)
    with (pretty a +:+ String "." (pretty b +:+ String "." (pretty c))).
  rewrite str_split_app by auto using no_dot. rewrite str_split_app by auto using no_dot.
  rewrite str_split_none by auto using no_dot. by rewrite !int_of_digits_pretty.
Qed.

(** Versions survive their text: a version with natural components is read back
    from the text it prints, with the history asked for; and whatever text the
    constructor accepts denotes such a version, while every other is refused as an
    invalid version. *)
Theorem version_roundtrip text v hist
    (Hv : 0 <= major v ∧ 0 <= minor v ∧ 0 <= patch v) :
  create_version (as_string v) (Some (history v)) = Ret v ∧
  match create_version text hist with
  | Ret w => history w = from_option id [] hist ∧
      0 <= major w ∧ 0 <= minor w ∧ 0 <= patch w ∧
      create_version (as_string w) hist = Ret w
  | Raise e => exn_cls e = InvalidVersionError
  end.
Proof.
  split.
  { destruct v as [a b c h], Hv as (?&?&?). by apply create_as_string. }
  unfold create_version at 1.
  destruct (str_split _ text) as [|a [|b [|c [|]]]]; try done.
  destruct (int_of_digits a) eqn:Ea, (int_of_digits b) eqn:Eb, (int_of_digits c) eqn:Ec; try done.
  apply int_of_digits_nonneg in Ea, Eb, Ec. split_and!; try done. by apply create_as_string.
Qed.

Lemma version_roundtrip_witness :
  create_version (as_string (Version 1 20 3 [])) (Some []) = Ret (Version 1 20 3 []) ∧
  match create_version "01.2.3" None with
  | Ret w => as_string w = "1.2.3" ∧ create_version (as_string w) None = Ret w
  | Raise e => exn_cls e = InvalidVersionError
  end.
Proof.
  destruct (version_roundtrip "01.2.3" (Version 1 20 3 []) None ltac:(cbn; lia)) as [H1 H2].
  split; [exact H1|]. vm_compute in H2 |- *. split; [reflexivity|apply H2].
Defined.

(** A major bump keeps the major number and clears the rest: the policy's new
    version is below its old one. *)
Lemma major_bump_goes_back v hist :
  0 < minor v → version_ltb (next_version MAJOR v hist) v = true.
Proof.
  intros Hm. unfold version_ltb. cbn. rewrite Z.ltb_irrefl, Z.eqb_refl. cbn.
  by destruct (Z.ltb_spec 0 (minor v)); [|lia].
Qed.

(** ** Validation *)

Lemma first_occurrences_length {A} `{EqDecision A} (l : list A) :
  length (first_occurrences l) = length l ↔ NoDup l.
Proof.
  assert (first_occurrences l ⊆+ l) as Hs.
  { apply NoDup_submseteq; [apply NoDup_first_occurrences|].
    intros x. by rewrite elem_of_first_occurrences. }
  split.
  - intros E. apply submseteq_length_Permutation in Hs; [|lia]. rewrite <-Hs.
    apply NoDup_first_occurrences.
  - intros Hd. apply Permutation_length, NoDup_Permutation; [apply NoDup_first_occurrences|done|].
    apply elem_of_first_occurrences.
Qed.

(** A policy as the validator wants it. *)
Record policy_valid (p : Policy.Policy) : Prop := {
  pv_rules : NoDup (map reference_key (Policy.rules p));
  pv_inheritance : Policy.id p ∉ Policy.inheritance p;
  pv_baselines : "missing" ∉ map reference_key (Policy.baselines p);
  pv_assignments : Forall (λ a, str_strip (assigned a) ≠ "" ∧ scope a ∈ VALID_SCOPES)
    (Policy.assignments p);
}.

Section Validator.
Context {R : Type}.

Lemma as_string_nonempty v : str_truthy (as_string v) = true.
Proof. unfold as_string. by destruct (pretty (major v)). Qed.

Lemma checks_walk p u : checks (S := R) (walk_inheritance p u []) (u ≠ Policy.id p).
Proof.
  unfold walk_inheritance. replace (mem u []) with false by (symmetry; apply mem_false, not_elem_of_nil).
  destruct (u ≟ Policy.id p) eqn:E; pybool.
  - by eapply checks_iff; [apply checks_raise|].
  - by eapply checks_iff; [apply checks_ret|].
Qed.

Lemma checks_policy p : checks (S := R) (validate p) (policy_valid p).
Proof.
  eapply checks_iff.
  { unfold validate. repeat apply checks_bind.
    - apply checks_when.
    - apply checks_when.
    - apply checks_for_each. intros u. apply checks_walk.
    - apply checks_when.
    - apply checks_for_each. intros a. apply checks_bind; apply checks_when. }
  rewrite as_string_nonempty. cbn [negb]. rewrite negb_false_iff, eqb_true.
  assert (∀ l : list Reference, existsb (λ b, reference_key b ≟ "missing") l = false ↔
    "missing" ∉ map reference_key l) as Hb.
  { intros l. induction l as [|b l IH]; cbn; [split; [intros _; apply not_elem_of_nil|done]|].
    rewrite orb_false_iff, IH, eqb_false, not_elem_of_cons. naive_solver. }
  assert (∀ a : PolicyAssignment, negb (str_truthy (str_strip (assigned a))) = false ∧
    negb (mem (scope a) VALID_SCOPES) = false ↔
    str_strip (assigned a) ≠ "" ∧ scope a ∈ VALID_SCOPES) as Ha.
  { intros a. rewrite !negb_false_iff, mem_true. destruct (str_strip (assigned a)); cbn; naive_solver. }
  rewrite Hb. split.
  - intros (_ & Hl & Hi & Hm & Hs). split; [by apply first_occurrences_length| |done|].
    + rewrite Forall_forall in Hi. intros H. by apply (Hi _ H).
    + eapply Forall_impl; [exact Hs|]. intros a. apply Ha.
  - intros [Hl Hi Hm Hs]. split_and!; [done| |..|done|].
    + symmetry. by apply first_occurrences_length.
    + apply Forall_forall. intros u Hu ->. done.
    + eapply Forall_impl; [exact Hs|]. intros a. apply Ha.
Qed.
End Validator.

(** A policy is compiled exactly when it is not published and is well formed:
    distinct rule references, no inheritance from itself, no missing baseline, and
    assignments with a value and a known scope.  The package carries the policy's
    parts unchanged, its parents in the order of their identities' texts; a refusal
    is a policy validation error and nothing else changes. *)
Theorem compile_spec {R} now p (w : R) :
  let '(r, w') := compile now p w in
  w' = w ∧
  (is_ret r = true ↔ Policy.lifecycle p ≠ PUBLISHED ∧ policy_valid p) ∧
  match r with
  | Ret g =>
      Package.policy_id g = Policy.id p ∧ Package.policy_key g = Policy.key p ∧
      Package.version g = Policy.version p ∧ Package.rules g = Policy.rules p ∧
      Package.assignments g = Policy.assignments p ∧
      Package.inherited_ids g ≡ₚ Policy.inheritance p ∧ Package.compiled_at g = now
  | Raise e => isinstance e PolicyValidationError = true
  end.
Proof.
  unfold compile. destruct (Policy.lifecycle p ≟ PUBLISHED) eqn:E; pybool.
  { split_and!; try done. split; [done|tauto]. }
  destruct (checks_policy (R := R) p w) as [Hw Hp]. unfold bind.
  assert (raises_only (S := R) PolicyValidationError (validate p)) as Hr.
  { unfold validate, validate_versions. rewrite as_string_nonempty.
    unfold validate_rule_references, validate_inheritance, walk_inheritance,
      validate_baselines, validate_assignments. cbn [negb when]. raises_only_auto. }
  destruct (validate p w) as [[[]|e] w1] eqn:Ev; cbn in Hw, Hp |- *; subst w1.
  - split_and!; try done; [|apply stable_sort_perm]. split; [|done]. intros _. split; [done|].
    by apply Hp.
  - split_and!; try done; [|by eapply Hr]. split; [done|]. intros [_ H]. by apply Hp in H.
Qed.

(** ** Inheritance *)

Section Inheritance.
Context (by_id : list (UUID * PolicyPackage)).
Implicit Types (p q : PolicyPackage) (visited ids : list UUID).

(** One package names another, known one as its parent. *)
Definition inherits p q : Prop := ∃ u, u ∈ Package.inherited_ids p ∧ get u by_id = Some q.

(** The identities a walk can still enter. *)
Definition unvisited visited : nat :=
  length (List.filter (λ u, negb (mem u visited)) (keys by_id)).

Lemma get_key u q : get u by_id = Some q → u ∈ keys by_id.
Proof.
  induction by_id as [|[u' q'] d IH]; cbn; [done|]. destruct (u' ≟ u) eqn:E; pybool; [|set_solver].
  intros _. subst. set_solver.
Qed.

Lemma filter_length_mono {A} (f g : A → bool) l :
  (∀ x, f x = true → g x = true) → (length (List.filter f l) ≤ length (List.filter g l))%nat.
Proof.
  intros H. induction l as [|x l IH]; cbn; [done|].
  destruct (f x) eqn:E; [rewrite (H x E); cbn; lia|]. destruct (g x); cbn; lia.
Qed.

Lemma filter_length_strict {A} (f g : A → bool) l x :
  (∀ y, f y = true → g y = true) → x ∈ l → f x = false → g x = true →
  (length (List.filter f l) < length (List.filter g l))%nat.
Proof.
  intros H Hx Hf Hg. induction l as [|y l IH]; [by apply elem_of_nil in Hx|].
  pose proof (filter_length_mono f g l H). apply elem_of_cons in Hx as [<-|Hx]; cbn.
  - rewrite Hf, Hg. cbn. lia.
  - specialize (IH Hx). destruct (f y) eqn:E; [rewrite (H y E); cbn; lia|].
    destruct (g y); cbn; lia.
Qed.

Lemma unvisited_mono visited visited' :
  visited ⊆ visited' → (unvisited visited' ≤ unvisited visited)%nat.
Proof.
  intros H. apply filter_length_mono. intros u. rewrite !negb_true_iff, !mem_false. set_solver.
Qed.

Lemma unvisited_cons u q visited :
  get u by_id = Some q → u ∉ visited → (unvisited (u :: visited) < unvisited visited)%nat.
Proof.
  intros Hu%get_key Hn. apply filter_length_strict with u; [|done|..].
  - intros v. rewrite !negb_true_iff, !mem_false. set_solver.
  - apply negb_false_iff, mem_true. set_solver.
  - by apply negb_true_iff, mem_false.
Qed.

Lemma unvisited_bound visited : (unvisited visited ≤ length by_id)%nat.
Proof.
  unfold unvisited, keys. etrans; [apply List.filter_length_le|]. by rewrite length_map.
Qed.

(** ** Termination *)

(** A call enters only identities not visited, so the fuel lasts. *)
Lemma resolve_inherited_total fuel visited p :
  (unvisited visited < fuel)%nat →
  ∃ out visited', resolve_inherited by_id fuel visited p = Some (out, visited') ∧
    visited ⊆ visited'.
Proof.
  revert visited p. induction fuel as [|fuel IH]; intros visited p Hf; [lia|].
  cbn [resolve_inherited].
  assert (∀ ids visited, (unvisited visited ≤ fuel)%nat → ∃ out visited',
    resolve_parents by_id (resolve_inherited by_id fuel) visited ids = Some (out, visited') ∧
    visited ⊆ visited') as Hids.
  { clear visited p Hf. induction ids as [|u ids IHids]; intros visited Hf; cbn; [by eauto|].
    destruct (mem u visited) eqn:Eu; [by apply IHids|]. apply mem_false in Eu.
    destruct (get u by_id) as [q|] eqn:Eq.
    - pose proof (unvisited_cons u q visited Eq Eu).
      destruct (IH (u :: visited) q ltac:(lia)) as (out & v1 & -> & Hv1).
      pose proof (unvisited_mono (u :: visited) v1 Hv1).
      destruct (IHids v1 ltac:(lia)) as (out2 & v2 & -> & Hv2).
      do 2 eexists. split; [done|]. set_solver.
    - destruct (IHids (u :: visited)) as (out & v1 & -> & Hv1).
      { pose proof (unvisited_mono visited (u :: visited) ltac:(set_solver)). lia. }
      do 2 eexists. split; [done|]. set_solver. }
  destruct (Hids (Package.inherited_ids p) visited ltac:(lia)) as (out & v1 & -> & Hv1). eauto.
Qed.

(** More fuel does not change the answer. *)
Lemma resolve_parents_more rec rec' visited ids r :
  (∀ v p r, rec v p = Some r → rec' v p = Some r) →
  resolve_parents by_id rec visited ids = Some r → resolve_parents by_id rec' visited ids = Some r.
Proof.
  intros Hrec. revert visited r. induction ids as [|u ids IH]; intros visited r; cbn; [done|].
  destruct (mem u visited); [apply IH|]. destruct (get u by_id) as [q|]; [|apply IH].
  destruct (rec (u :: visited) q) as [[above v1]|] eqn:E; [|done].
  rewrite (Hrec _ _ _ E). destruct (resolve_parents _ rec v1 ids) as [[rest v2]|] eqn:E2; [|done].
  by rewrite (IH _ _ E2).
Qed.

Lemma resolve_inherited_more fuel fuel' visited p r :
  resolve_inherited by_id fuel visited p = Some r → (fuel ≤ fuel')%nat →
  resolve_inherited by_id fuel' visited p = Some r.
Proof.
  revert fuel' visited p r. induction fuel as [|fuel IH]; intros fuel' visited p r; cbn; [done|].
  destruct fuel' as [|fuel']; [lia|]. intros H Hle. cbn.
  destruct (resolve_parents _ _ visited _) as [[ordered v1]|] eqn:E; [|done].
  eapply (resolve_parents_more _ (resolve_inherited by_id fuel')) in E;
    [by rewrite E|]. intros. eapply IH; [done|lia].
Qed.

(** ** What the walk collects *)

(** What a call leaves behind for the identities it visited. *)
Record walked visited (out : list PolicyPackage) visited' : Prop := {
  wk_grows : visited ⊆ visited';
  wk_entered : ∀ u q, u ∈ visited' → u ∉ visited → get u by_id = Some q →
    q ∈ out ∧ Package.inherited_ids q ⊆ visited';
}.

Lemma resolve_inherited_walked fuel visited p out visited' :
  resolve_inherited by_id fuel visited p = Some (out, visited') →
  walked visited out visited' ∧ Package.inherited_ids p ⊆ visited' ∧ p ∈ out ∧
  ∀ q, q ∈ out → rtc inherits p q.
Proof.
  revert visited p out visited'. induction fuel as [|fuel IH]; intros visited p out visited'; [done|].
  cbn [resolve_inherited].
  assert (∀ ids visited out visited',
    resolve_parents by_id (resolve_inherited by_id fuel) visited ids = Some (out, visited') →
    walked visited out visited' ∧ ids ⊆ visited' ∧
    ∀ q, q ∈ out → ∃ u p, u ∈ ids ∧ get u by_id = Some p ∧ rtc inherits p q) as Hids.
  { clear p visited out visited'.
    induction ids as [|u ids IHids]; intros visited out visited'; cbn.
    { intros [= <- <-]. split; [split; [done|set_solver]|].
      split; [set_solver|]. by intros q ?%elem_of_nil. }
    destruct (mem u visited) eqn:Eu; pybool.
    { intros H. destruct (IHids _ _ _ H) as (Hw & Hi & Ho). pose proof (wk_grows _ _ _ Hw).
      split; [done|]. split; [set_solver|]. intros q Hq. destruct (Ho q Hq) as (u' & p & ? & ?).
      exists u', p. split; [set_solver|done]. }
    destruct (get u by_id) as [p|] eqn:Ep.
    - destruct (resolve_inherited by_id fuel (u :: visited) p) as [[above v1]|] eqn:E1; [|done].
      destruct (resolve_parents by_id _ v1 ids) as [[rest v2]|] eqn:E2; [|done].
      intros [= <- <-]. destruct (IH _ _ _ _ E1) as ([Hg1 He1] & Hi1 & Hp & Ho1).
      destruct (IHids _ _ _ E2) as ([Hg2 He2] & Hi2 & Ho2). split_and!.
      + split; [set_solver|]. intros u' q Hu' Hn Hq. destruct (decide (u' ∈ v1)) as [Hv|Hv].
        * destruct (decide (u' = u)) as [->|Hne]; [rewrite Ep in Hq; injection Hq as <-; set_solver|].
          destruct (He1 u' q Hv ltac:(set_solver) Hq). set_solver.
        * destruct (He2 u' q Hu' Hv Hq). set_solver.
      + set_solver.
      + intros q. rewrite !elem_of_app, elem_of_cons. intros [Hq|[->|Hq]].
        * exists u, p. split; [set_solver|]. auto.
        * exists u, p. split; [set_solver|]. split; [done|apply rtc_refl].
        * destruct (Ho2 q Hq) as (u' & p' & ? & ?). exists u', p'. split; [set_solver|done].
    - intros H. destruct (IHids _ _ _ H) as ([Hg He] & Hi & Ho). split_and!.
      + split; [set_solver|]. intros u' q Hu' Hn Hq. destruct (decide (u' = u)) as [->|Hne]; [congruence|].
        apply (He u' q); [done|set_solver|done].
      + set_solver.
      + intros q Hq. destruct (Ho q Hq) as (u' & p & ? & ?). exists u', p. split; [set_solver|done]. }
  destruct (resolve_parents by_id _ visited _) as [[ordered v1]|] eqn:E; [|done].
  intros [= <- <-]. destruct (Hids _ _ _ _ E) as ([Hg He] & Hi & Ho). split_and!.
  - split; [done|]. intros u q Hu Hn Hq. destruct (He u q Hu Hn Hq). set_solver.
  - done.
  - set_solver.
  - intros q. rewrite elem_of_app, list_elem_of_singleton. intros [Hq| ->]; [|apply rtc_refl].
    destruct (Ho q Hq) as (u & q' & ? & ? & ?). eapply rtc_l; [|done]. by exists u.
Qed.

(** C15. The walk over inherited packages ends, cycles or not, within as many calls as
    there are identities, and collects the package itself and exactly the packages
    it inherits from, directly or through others; so the rules of a compiled policy
    are the rules of all of those, each once. *)
Theorem inheritance_complete p :
  (∀ fuel, (length by_id < fuel)%nat →
     ∃ visited, resolve_inherited by_id fuel [] p = Some (inherited_packages by_id p, visited)) ∧
  (∀ q, q ∈ inherited_packages by_id p ↔ rtc inherits p q) ∧
  NoDup (rule_keys by_id p) ∧
  (∀ k, k ∈ rule_keys by_id p ↔
     ∃ q r, rtc inherits p q ∧ r ∈ Package.rules q ∧ reference_key r = k).
Proof.
  pose proof (unvisited_bound []) as Hb.
  destruct (resolve_inherited_total (S (length by_id)) [] p ltac:(lia)) as (out & v & E & _).
  assert (inherited_packages by_id p = out) as Hout by (unfold inherited_packages; by rewrite E).
  destruct (resolve_inherited_walked _ _ _ _ _ E) as ([_ He] & Hi & Hp & Ho).
  assert (∀ q, q ∈ inherited_packages by_id p ↔ rtc inherits p q) as Hiff.
  { intros q. rewrite Hout. split; [apply Ho|]. intros Hr.
    enough (q ∈ out ∧ Package.inherited_ids q ⊆ v) by tauto.
    revert q Hr. apply (rtc_ind_r (λ q, q ∈ out ∧ Package.inherited_ids q ⊆ v)); [done|].
    intros q1 q2 _ (u & Hu & Hg) [_ IH]. apply (He u q2); [set_solver|apply not_elem_of_nil|done]. }
  split_and!; [|done|apply NoDup_first_occurrences|].
  - intros fuel Hf. exists v. rewrite Hout. eapply resolve_inherited_more; [exact E|lia].
  - intros k. unfold rule_keys. rewrite elem_of_first_occurrences, list_elem_of_fmap. split.
    + intros (r & -> & Hr%list_elem_of_In%in_flat_map). destruct Hr as (q & Hq & Hr).
      exists q, r. rewrite list_elem_of_In. split; [|done]. by apply Hiff, list_elem_of_In.
    + intros (q & r & Hq & Hr & <-). exists r. split; [done|].
      apply list_elem_of_In, in_flat_map. exists q. rewrite <-!list_elem_of_In. split; [|done].
      by apply Hiff.
Qed.
End Inheritance.

(** ** Selection of versions *)

Lemma version_leb_total v w : version_leb v w = true ∨ version_leb w v = true.
Proof. apply seq_leb_total. Qed.

Lemma version_leb_trans u v w :
  version_leb u v = true → version_leb v w = true → version_leb u w = true.
Proof. apply seq_leb_trans. Qed.

(** The packages of a key, in order. *)
Definition of_key (k : string) (packages : list PolicyPackage) : list PolicyPackage :=
  List.filter (λ p, Package.policy_key p ≟ k) packages.

Lemma packages_by_key_spec packages :
  keys (packages_by_key packages) = first_occurrences (map Package.policy_key packages) ∧
  ∀ k, get k (packages_by_key packages) =
    match of_key k packages with [] => None | l => Some l end.
Proof.
  unfold packages_by_key. split.
  - by rewrite keys_group_by, omap_Some.
  - intros k. rewrite get_group_by. unfold of_key.
    assert (∀ l, List.filter (λ x, bool_decide (Some (Package.policy_key x) = Some k)) l =
      List.filter (λ p, Package.policy_key p ≟ k) l) as ->; [|done].
    intros l. apply List.filter_ext. intros x. unfold eqb. apply bool_decide_ext. naive_solver.
Qed.

(** Where the steps do not depend on the state. *)
Lemma map_m_outcome {A B} (f : A → M unit B) xs :
  match (map_m f xs tt).1 with
  | Ret ys => Forall2 (λ x y, f x tt = (Ret y, tt)) xs ys
  | Raise e => ∃ x, x ∈ xs ∧ f x tt = (Raise e, tt)
  end.
Proof.
  induction xs as [|x xs IH]; cbn; [constructor|]. unfold bind.
  destruct (f x tt) as [[y|e] []] eqn:E; cbn; [|exists x; split; [set_solver|done]].
  destruct (map_m f xs tt) as [[ys|e] []]; cbn in *; [by constructor|].
  destruct IH as (x' & ? & ?). exists x'. split; [set_solver|done].
Qed.

Lemma build_policy_Raise by_id rules p e :
  build_policy by_id rules p = Raise e → exn_cls e = RuleRegistrationError.
Proof.
  unfold build_policy, collect_rules.
  pose proof (map_m_outcome (λ k, of_outcome (get_rule rules k)) (rule_keys by_id p)) as H.
  destruct (map_m _ _ tt) as [[rs|e'] s]; cbn in *; [done|]. intros [= <-].
  destruct H as (k & _ & H). unfold of_outcome, get_rule in H.
  destruct (get k rules); [done|]. by injection H as <-.
Qed.

Lemma Forall2_weaken {A B} (P Q : A → B → Prop) l k :
  Forall2 P l k → (∀ x y, x ∈ l → P x y → Q x y) → Forall2 Q l k.
Proof.
  induction 1 as [|x y l k Hx Hl IH]; intros H; constructor; [apply H; [set_solver|done]|].
  apply IH. intros x' y' ?. apply H. set_solver.
Qed.

(** What an entry of the resolution is for a policy key. *)
Definition selected rules packages (k : string) (entry : CompliancePolicy * string) : Prop :=
  ∃ p, p ∈ packages ∧ Package.policy_key p = k ∧
    (∀ q, q ∈ packages → Package.policy_key q = k →
       version_leb (Package.version q) (Package.version p) = true) ∧
    build_policy (package_by_id packages) rules p = Ret entry.1 ∧
    entry.2 = as_string (Package.version p).

Lemma resolve_entry_selected rules packages k entry :
  k ∈ map Package.policy_key packages →
  resolve_entry rules (package_by_id packages) (of_key k packages) tt = (Ret entry, tt) →
  selected rules packages k entry.
Proof.
  intros Hk. unfold resolve_entry, sorted_entries.
  destruct (stable_sort _ (of_key k packages)) as [|p ps] eqn:E; [done|].
  apply stable_sort_head in E as [Hmax (l1 & l2 & El & _)];
    [|intros; apply version_leb_total|intros x y z ? ?; by eapply version_leb_trans].
  assert (∀ q, q ∈ of_key k packages ↔ q ∈ packages ∧ Package.policy_key q = k) as Hof.
  { intros q. unfold of_key. by rewrite !list_elem_of_In, filter_In, eqb_true. }
  destruct (proj1 (Hof p)) as [Hp Hpk]; [rewrite El; set_solver|].
  unfold bind, of_outcome. destruct (build_policy _ rules p) as [policy|e] eqn:Eb; [|done].
  intros [= <-]. exists p. split_and!; try done. intros q Hq Hqk. apply Hmax, Hof. done.
Qed.

(** Resolving packages answers one compliance policy per policy key, in the order
    the keys first occur, each built from a package of that key whose version no
    other package of the key exceeds; it fails only for a rule the registry does
    not know. *)
Theorem resolve_selects_latest rules packages :
  match resolve_with_versions rules packages with
  | Ret entries =>
      Forall2 (selected rules packages)
        (first_occurrences (map Package.policy_key packages)) entries
  | Raise e => exn_cls e = RuleRegistrationError
  end.
Proof.
  unfold resolve_with_versions. destruct (packages_by_key_spec packages) as [Hkeys Hget].
  assert (NoDup (keys (packages_by_key packages))) as Hd
    by (rewrite Hkeys; apply NoDup_first_occurrences).
  assert (∀ k l, (k, l) ∈ packages_by_key packages →
    l = of_key k packages ∧ k ∈ map Package.policy_key packages ∧ l ≠ []) as Hin.
  { intros k l Hkl. assert (k ∈ keys (packages_by_key packages)) as Hk
      by (apply list_elem_of_fmap; by exists (k, l)).
    apply elem_of_dict in Hkl; [|done]. rewrite Hget in Hkl.
    rewrite Hkeys, elem_of_first_occurrences in Hk.
    destruct (of_key k packages) eqn:E; [done|]. by injection Hkl as <-. }
  pose proof (map_m_outcome (λ e, resolve_entry rules (package_by_id packages) (snd e))
    (packages_by_key packages)) as H.
  destruct (map_m _ _ tt) as [[entries|e] s]; cbn in *.
  - rewrite <-Hkeys. unfold keys. apply Forall2_fmap_l. eapply Forall2_weaken; [exact H|].
    intros [k l] entry Hkl He. cbn in *. destruct (Hin k l Hkl) as (-> & Hk & _).
    by apply resolve_entry_selected.
  - destruct H as ([k l] & Hkl & H). cbn in H. destruct (Hin k l Hkl) as (-> & Hk & Hne).
    unfold resolve_entry in H. destruct (sorted_entries (of_key k packages)) eqn:Es.
    { unfold sorted_entries in Es.
      pose proof (stable_sort_perm
        (λ p q, version_leb (Package.version q) (Package.version p)) (of_key k packages)) as Hp.
      rewrite Es in Hp. apply Permutation_nil_l in Hp. congruence. }
    unfold bind, of_outcome in H. destruct (build_policy _ rules _) eqn:Eb; [done|].
    injection H as <-. by eapply build_policy_Raise.
Qed.

(** ** Instances *)

Definition demo_package (u : UUID) (k : string) (v : PolicyVersion) (rule_keys : list string)
    (parents : list UUID) : PolicyPackage := {|
  Package.policy_id := u; Package.policy_key := k; Package.version := v;
  Package.rules := map (λ r, {| reference_key := r; reference_name := r;
                                reference_description := None |}) rule_keys;
  Package.baselines := []; Package.assignments := []; Package.inherited_ids := parents;
  Package.compiled_at := 0 |}.

(** A cycle of two packages is walked once. *)
Example cyclic_inheritance :
  let a := demo_package 1 "a" (Version 1 0 0 []) ["r1"] [2%N] in
  let b := demo_package 2 "b" (Version 1 0 0 []) ["r2"] [1%N] in
  rule_keys (package_by_id [a; b]) a = ["r1"; "r2"].
Proof. reflexivity. Qed.

(** The parent of a package is whichever version of it comes last in the input, not
    the version that is selected for its own key. *)
Lemma parent_is_last_not_latest :
  let base1 := demo_package 1 "base" (Version 1 0 0 []) ["old"] [] in
  let base2 := demo_package 1 "base" (Version 2 0 0 []) ["new"] [] in
  let child := demo_package 2 "child" (Version 1 0 0 []) [] [1%N] in
  head (sorted_entries [base2; base1]) = Some base2 ∧
  rule_keys (package_by_id [base2; base1; child]) child = ["old"].
Proof. split; reflexivity. Qed.
