(* ===== verification/Evaluation.v ===== *)
(** * Compliance evaluation ([evaluation/]) and decisions ([decision/])

    Policies select rules by scope tags, rules are executed against the
    differences of a comparison, and their results are scored, aggregated per
    policy and turned into decisions.  [re.search] is the class [Regex]: the
    patterns are policy data.  Arithmetic on scores is exact. *)

From S2P Require Import Prelude Vocabulary Effects Json Dicts Texts Inventories Comparison.
From S2P Require Import Policies.
#[local] Open Scope Z_scope.

(** [re.search(pattern, text) is not None]; [Raise] is [re.error]. *)
Class Regex := re_search : string → string → outcome bool.

Inductive RuleType :=
  EQUALS | NOT_EQUALS | EXISTS | MISSING_ | REGEX | CONTAINS | GREATER_THAN | LESS_THAN
  | VERSION_COMPARE | BOOLEAN_COMPARE.

#[export] Instance RuleType_eq_dec : EqDecision RuleType.
Proof. solve_decision. Defined.

Definition RuleType_value (t : RuleType) : string :=
  match t with
  | EQUALS => "equals"
  | NOT_EQUALS => "not_equals"
  | EXISTS => "exists"
  | MISSING_ => "missing"
  | REGEX => "regex"
  | CONTAINS => "contains"
  | GREATER_THAN => "greater_than"
  | LESS_THAN => "less_than"
  | VERSION_COMPARE => "version_compare"
  | BOOLEAN_COMPARE => "boolean_compare"
  end.

#[export] Program Instance RuleType_StrEnum : StrEnum RuleType := {|
  value := RuleType_value;
  members := [EQUALS; NOT_EQUALS; EXISTS; MISSING_; REGEX; CONTAINS; GREATER_THAN; LESS_THAN;
              VERSION_COMPARE; BOOLEAN_COMPARE];
|}.
Next Obligation. solve_members. Qed.
Next Obligation. solve_value_inj. Qed.

Inductive EvaluationStatus := COMPLIANT | NON_COMPLIANT | WAIVED | NOT_APPLICABLE | ERROR.

#[export] Instance EvaluationStatus_eq_dec : EqDecision EvaluationStatus.
Proof. solve_decision. Defined.

Definition EvaluationStatus_value (s : EvaluationStatus) : string :=
  match s with
  | COMPLIANT => "compliant"
  | NON_COMPLIANT => "non_compliant"
  | WAIVED => "waived"
  | NOT_APPLICABLE => "not_applicable"
  | ERROR => "error"
  end.

#[export] Program Instance EvaluationStatus_StrEnum : StrEnum EvaluationStatus := {|
  value := EvaluationStatus_value;
  members := [COMPLIANT; NON_COMPLIANT; WAIVED; NOT_APPLICABLE; ERROR];
|}.
Next Obligation. solve_members. Qed.
Next Obligation. solve_value_inj. Qed.

(** ** Context ([evaluation/context.py]) *)

Module Waiver.
Record EvaluationException := {
  key : string;
  reason : string;
  approved_by : string;
  subject_type : option string;
  subject_id : option string;
  rule_key : option string;
  expires_at : option datetime;
  approved_at : datetime;
}.
End Waiver.
Abbreviation EvaluationException := Waiver.EvaluationException.

(** A constraint that is absent or met. *)
Definition unless_given (o : option string) (s : string) : bool :=
  match o with Some t => t ≟ s | None => true end.

(** [EvaluationException.applies_to]. *)
Definition applies_to (now : datetime) (w : EvaluationException) (rule_key : string) (d : Difference)
    : bool :=
  match Waiver.expires_at w with
  | Some t => negb (t <=? now)
  | None => true
  end
  && unless_given (Waiver.rule_key w) rule_key
  && unless_given (Waiver.subject_type w) (subject_type d)
  && unless_given (Waiver.subject_id w) (subject_id d).

Record EvaluationContext := {
  comparison_result : InventoryComparisonResult;
  context_metadata : dict;
  exceptions : list EvaluationException;
}.

Module Result.
Record RuleEvaluationResult := {
  rule_id : UUID;
  rule_key : string;
  difference : Difference;
  status : EvaluationStatus;
  passed : bool;
  risk_score : Z;
  severity : Severity;
  evidence : list Evidence;
  recommendation : option Recommendation;
  exception : option EvaluationException;
  message : option string;
}.
End Result.
Abbreviation RuleEvaluationResult := Result.RuleEvaluationResult.

Module PolicyResult.
Record PolicyEvaluationResult := {
  policy_id : UUID;
  policy_key : string;
  version : string;
  status : EvaluationStatus;
  risk_score : Z;
  compliance_score : Z;
  rule_results : list RuleEvaluationResult;
}.
End PolicyResult.
Abbreviation PolicyEvaluationResult := PolicyResult.PolicyEvaluationResult.

Module Metrics.
Record EvaluationMetrics := {
  total_rules : Z;
  evaluated_rules : Z;
  compliant : Z;
  non_compliant : Z;
  waived : Z;
  not_applicable : Z;
  errors : Z;
  risk_score : Z;
  compliance_score : Z;
}.
End Metrics.

Module Outcome.
Record EvaluationDecision := {
  status : EvaluationStatus;
  risk_score : Z;
  compliance_score : Z;
  severity : Severity;
  recommendations : list Recommendation;
  evidence : list Evidence;
  rule_results : list RuleEvaluationResult;
  policy_results : list PolicyEvaluationResult;
  metrics : Metrics.EvaluationMetrics;
}.
End Outcome.
Abbreviation EvaluationDecision := Outcome.EvaluationDecision.

(** ** Scoring ([evaluation/scoring.py]) *)

Definition clamp (v : Z) : Z := Z.max 0 (Z.min 100 v).

Definition risk_weight (t : DifferenceType) : Z :=
  match t with
  | MISSING => 80
  | CONFLICT => 85
  | DUPLICATE => 75
  | MODIFIED => 50
  | UNEXPECTED => 45
  | UNSUPPORTED => 15
  | UNKNOWN => 25
  end.

(** [RiskCalculator.severity_for_score]. *)
Definition severity_for_score (s : Z) : Severity :=
  let s := clamp s in
  if 90 <=? s then {| level := CRITICAL; score := s; label := Some "Critical" |}
  else if 70 <=? s then {| level := HIGH; score := s; label := Some "High" |}
  else if 40 <=? s then {| level := MEDIUM; score := s; label := Some "Medium" |}
  else if 0 <? s then {| level := LOW; score := s; label := Some "Low" |}
  else {| level := INFO; score := 0; label := Some "Info" |}.

(** [ComplianceScoreCalculator.score]; [round] rounds to even. *)
Definition compliance_score (risk_scores : list Z) : Z :=
  match risk_scores with
  | [] => 100
  | _ =>
      let total := fold_left Z.add risk_scores 0 in
      let average := (inject_Z total / inject_Z (Z.of_nat (length risk_scores)))%Q in
      Z.max 0 (Z.min 100 (round_half_even (100 - average)%Q))
  end.

(** ** Policy selection ([evaluation/policy.py]) *)

(** [tag.split(":", 1)] of a tag that has a colon. *)
Fixpoint split_tag (tag : string) : option (string * string) :=
  match tag with
  | EmptyString => None
  | String c rest =>
      if c ≟ ":"%char then Some (EmptyString, rest)
      else match split_tag rest with Some (k, v) => Some (String c k, v) | None => None end
  end.

Definition tag_scopes : list string := ["site"; "role"; "platform"; "vendor"; "device_type"].

(** The metadata key behind a tag. *)
Definition tag_metadata (tag : string) : string := if tag ≟ "role" then "device_role" else tag.

Section Evaluation.
Context {HF : FloatRepr} {HR : Regex} (now : datetime).

(** [EvaluationContext._text]. *)
Definition context_text (ctx : EvaluationContext) (k : string) : option string :=
  match dict_get k (context_metadata ctx) with
  | None | Some JNull => None
  | Some v => let text := str_strip (py_str v) in if str_truthy text then Some text else None
  end.

(** [PolicyEvaluator._tags_apply]. *)
Definition tags_apply (tags : list string) (ctx : EvaluationContext) : bool :=
  let required := dict_of (omap split_tag tags) in
  forallb (λ s,
    match get s required with
    | Some v => bool_decide (Some v = context_text ctx (tag_metadata s))
    | None => true
    end) tag_scopes.

Definition rule_applies (r : Rule) (ctx : EvaluationContext) : bool :=
  tags_apply (Rule.tags (Rule.metadata r)) ctx.

(** [PolicyEvaluator.applicable_rules_with_source]. *)
Definition add_applicable (ctx : EvaluationContext) (p : CompliancePolicy)
    (acc : list (Rule * CompliancePolicy)) (r : Rule) : list (Rule * CompliancePolicy) :=
  if rule_applies r ctx && negb (mem (Rule.key r) (map (Rule.key ∘ fst) acc))
  then acc ++ [(r, p)] else acc.

Definition applicable_rules_with_source (policies : list CompliancePolicy) (ctx : EvaluationContext)
    : list (Rule * CompliancePolicy) :=
  fold_left (λ acc p,
    if negb (Compliance.enabled p) || negb (tags_apply (Compliance.tags p) ctx) then acc
    else fold_left (add_applicable ctx p) (Compliance.rules p) acc) policies [].

(** ** Rule execution ([evaluation/executor.py]) *)

(** [RiskCalculator.score]. *)
Definition risk_score (r : Rule) (d : Difference) : outcome Z :=
  match dict_get "risk_score" (Rule.expected_state r) with
  | None | Some JNull => Ret (risk_weight (difference_type d))
  | Some v =>
      match py_int (py_str v) with
      | Some n => Ret (clamp n)
      | None => raise_ ValueError ("invalid literal for int() with base 10: " +:+ str_repr (py_str v))
      end
  end.

(** [_rule_type]. *)
Definition rule_type (r : Rule) : outcome RuleType :=
  let v := dict_get_default "rule_type" (JStr (value EQUALS)) (Rule.expected_state r) in
  match of_value (py_str v) with
  | Some t => Ret t
  | None => raise_ RuleEvaluationError ("Unsupported rule type: " +:+ py_repr v)
  end.

Definition normalize_value (v : json) : string :=
  match v with JNull => "" | _ => str_lower (str_strip (py_str v)) end.

Definition compare_with (op : pyfloat → pyfloat → bool) (e o : json) : outcome bool :=
  if json_none e || json_none o then Ret false
  else
    match py_float (py_str o), py_float (py_str e) with
    | Some x, Some y => Ret (op x y)
    | None, _ => raise_ ValueError ("could not convert string to float: " +:+ str_repr (py_str o))
    | _, None => raise_ ValueError ("could not convert string to float: " +:+ str_repr (py_str e))
    end.

Definition bool_of (v : json) : option bool :=
  match v with
  | JBool b => Some b
  | JNull => None
  | _ =>
      let s := str_lower (str_strip (py_str v)) in
      if mem s ["true"; "yes"; "enabled"; "up"; "1"] then Some true
      else if mem s ["false"; "no"; "disabled"; "down"; "0"] then Some false
      else None
  end.

(** The handlers of [_evaluate]. *)
Definition handler (t : RuleType) (e o : json) : outcome bool :=
  match t with
  | EQUALS => Ret (normalize_value e ≟ normalize_value o)
  | NOT_EQUALS => Ret (negb (normalize_value e ≟ normalize_value o))
  | EXISTS => Ret (negb (json_none o) && negb (str_strip (py_str o) ≟ ""))
  | MISSING_ => Ret (json_none o || (str_strip (py_str o) ≟ ""))
  | REGEX => if json_none e || json_none o then Ret false else re_search (py_str e) (py_str o)
  | CONTAINS => Ret (str_in (py_str e) (py_str o))
  | GREATER_THAN => compare_with (λ x y, float_ltb y x) e o
  | LESS_THAN => compare_with float_ltb e o
  | VERSION_COMPARE =>
      if json_none e || json_none o then Ret false
      else Ret (seq_leb (digit_runs None (py_str e)) (digit_runs None (py_str o)))
  | BOOLEAN_COMPARE => Ret (bool_decide (bool_of e = bool_of o))
  end.

(** [_evaluate]: an [Exception] of the handler becomes a [RuleEvaluationError]. *)
Definition evaluate_rule (t : RuleType) (r : Rule) (d : Difference) : outcome bool :=
  let e := dict_get_default "expected" (expected d) (Rule.expected_state r) in
  match handler t e (observed d) with
  | Raise exc =>
      if isinstance exc Exception_
      then raise_ RuleEvaluationError ("Rule " +:+ str_repr (value t) +:+ " failed to evaluate.")
      else Raise exc
  | r => r
  end.

(** [_evidence]; the identity of the difference is not in the model. *)
Definition rule_evidence (r : Rule) (d : Difference) (passed : bool) : Evidence := {|
  source := "evaluation-engine";
  evidence_description :=
    "Rule " +:+ Rule.key r +:+ " " +:+ (if passed then "passed" else "failed") +:+ " for " +:+
    key d +:+ ".";
  reference := Some ("evaluation:" +:+ Rule.key r +:+ ":" +:+ key d);
  details := [("rule_id", JStr (uuid_str (Rule.id r))); ("rule_key", JStr (Rule.key r));
              ("difference_key", JStr (key d)); ("expected", expected d);
              ("observed", observed d); ("passed", JBool passed)] |}.

(** [RecommendationBuilder.build] ([evaluation/remediation.py]). *)
Definition SeverityLevel_value (l : SeverityLevel) : string :=
  match l with
  | CRITICAL => "critical"
  | HIGH => "high"
  | MEDIUM => "medium"
  | LOW => "low"
  | INFO => "info"
  end.

Definition build_recommendation (r : Rule) (d : Difference) (s : Severity) : Recommendation := {|
  summary := "Remediate " +:+ subject_type d +:+ " drift for " +:+ subject_id d +:+ ".";
  rationale := Some ("Rule " +:+ Rule.key r +:+ " failed with severity " +:+
                     or_str (label s) (SeverityLevel_value (level s)) +:+ ".");
  steps := ["Validate NetBox source-of-truth data."; "Validate live observed device state.";
            "Apply an approved operational change outside this platform.";
            "Run discovery and comparison again."] |}.

(** [_waived]. *)
Definition waived (r : Rule) (d : Difference) (w : EvaluationException) : RuleEvaluationResult := {|
  Result.rule_id := Rule.id r; Result.rule_key := Rule.key r; Result.difference := d;
  Result.status := WAIVED; Result.passed := true; Result.risk_score := 0;
  Result.severity := severity_for_score 0; Result.evidence := [rule_evidence r d true];
  Result.recommendation := None; Result.exception := Some w;
  Result.message := Some ("Rule waived by " +:+ Waiver.approved_by w +:+ ": " +:+ Waiver.reason w) |}.

(** [RuleExecutor.execute]. *)
Definition execute_rule (r : Rule) (d : Difference) (w : option EvaluationException)
    : M unit RuleEvaluationResult :=
  t <- of_outcome (rule_type r) ;;
  match w with
  | Some w => ret (waived r d w)
  | None =>
      passed <- of_outcome (evaluate_rule t r d) ;;
      risk <- of_outcome (if passed : bool then Ret 0 else risk_score r d) ;;
      let s := severity_for_score risk in
      ret {|
        Result.rule_id := Rule.id r; Result.rule_key := Rule.key r; Result.difference := d;
        Result.status := if passed then COMPLIANT else NON_COMPLIANT;
        Result.passed := passed; Result.risk_score := risk; Result.severity := s;
        Result.evidence := [rule_evidence r d passed];
        Result.recommendation := if passed then None else Some (build_recommendation r d s);
        Result.exception := None;
        Result.message := Some (if passed then "Rule passed." else "Rule failed.") |}
  end.

(** ** The engine ([evaluation/engine.py]) *)

(** [expected_state.get(k)] is absent, or equal to a text. *)
Definition constraint_met (v : option json) (s : option string) : bool :=
  match v with
  | None | Some JNull => true
  | Some (JStr t) => bool_decide (Some t = s)
  | Some _ => false
  end.

(** [_rules_for_difference]. *)
Definition rules_for_difference (rules : list Rule) (d : Difference) : list Rule :=
  List.filter (λ r,
    let state := Rule.expected_state r in
    constraint_met (dict_get "subject_type" state) (Some (subject_type d)) &&
    constraint_met (dict_get "field_name" state) (field_name d) &&
    match dict_get "difference_type" state with
    | None | Some JNull => true
    | Some v => py_str v ≟ value (difference_type d)
    end) rules.

(** [_exception_for]. *)
Definition exception_for (ctx : EvaluationContext) (r : Rule) (d : Difference)
    : option EvaluationException :=
  List.find (λ w, applies_to now w (Rule.key r) d) (exceptions ctx).

(** [_status]. *)
Definition status_of (rs : list RuleEvaluationResult) : EvaluationStatus :=
  if is_nil rs then NOT_APPLICABLE
  else if existsb (λ r, Result.status r ≟ NON_COMPLIANT) rs then NON_COMPLIANT
  else if forallb (λ r, Result.status r ≟ WAIVED) rs then WAIVED
  else COMPLIANT.

(** [max(risk_scores, default=0)]. *)
Definition max_default (l : list Z) : Z :=
  match l with [] => 0 | x :: l => fold_left Z.max l x end.

(** [_metrics]. *)
Definition evaluation_metrics (total_rules : Z) (rs : list RuleEvaluationResult) (risk compliance : Z)
    : Metrics.EvaluationMetrics :=
  let count s := count_of s (map Result.status rs) in {|
    Metrics.total_rules := total_rules; Metrics.evaluated_rules := Z.of_nat (length rs);
    Metrics.compliant := count COMPLIANT; Metrics.non_compliant := count NON_COMPLIANT;
    Metrics.waived := count WAIVED; Metrics.not_applicable := count NOT_APPLICABLE;
    Metrics.errors := count ERROR; Metrics.risk_score := risk;
    Metrics.compliance_score := compliance |}.

(** [_policy_results]: results grouped by their rule's policy. *)
Definition results_by_policy (policy_for_rule : list (string * CompliancePolicy))
    (rs : list RuleEvaluationResult) : list (UUID * list RuleEvaluationResult) :=
  group_by (λ r, Compliance.id <$> get (Result.rule_key r) policy_for_rule) rs.

Definition policy_by_id (policy_for_rule : list (string * CompliancePolicy))
    (rs : list RuleEvaluationResult) : list (UUID * CompliancePolicy) :=
  index_by Compliance.id (omap (λ r, get (Result.rule_key r) policy_for_rule) rs).

Definition policy_result (package_versions : list (UUID * string))
    (policies : list (UUID * CompliancePolicy)) (entry : UUID * list RuleEvaluationResult)
    : option PolicyEvaluationResult :=
  let '(policy_id, rs) := entry in
  (λ p, {|
    PolicyResult.policy_id := Compliance.id p; PolicyResult.policy_key := Compliance.name p;
    PolicyResult.version := from_option id "unknown" (get policy_id package_versions);
    PolicyResult.status := status_of rs;
    PolicyResult.risk_score := max_default (map Result.risk_score rs);
    PolicyResult.compliance_score := compliance_score (map Result.risk_score rs);
    PolicyResult.rule_results := rs |}) <$> get policy_id policies.

Definition policy_results (package_versions : list (UUID * string))
    (policy_for_rule : list (string * CompliancePolicy)) (rs : list RuleEvaluationResult)
    : list PolicyEvaluationResult :=
  omap (policy_result package_versions (policy_by_id policy_for_rule rs))
    (results_by_policy policy_for_rule rs).

(** [_resolve_policy_packages]: the policies given as objects come first. *)
Definition resolve_policy_packages (registry : RuleRegistry)
    (policies : list (CompliancePolicy + PolicyPackage))
    : outcome (list CompliancePolicy * list (UUID * string)) :=
  let packages := omap (λ p, match p with inr g => Some g | inl _ => None end) policies in
  let objects := omap (λ p, match p with inl o => Some o | inr _ => None end) policies in
  match packages with
  | [] => Ret (objects, [])
  | _ =>
      match resolve_with_versions registry packages with
      | Raise e => Raise e
      | Ret compiled =>
          Ret (objects ++ map fst compiled,
               dict_of (map (λ e, (Compliance.id (fst e), snd e)) compiled))
      end
  end.

(** The loop over differences and their rules. *)
Definition rule_results_for (ctx : EvaluationContext) (rules : list Rule) (ds : list Difference)
    : M unit (list RuleEvaluationResult) :=
  map_m (λ '(d, r), execute_rule r d (exception_for ctx r d))
    (flat_map (λ d, map (λ r, (d, r)) (rules_for_difference rules d)) ds).

(** [EvaluationEngine.evaluate]. *)
Definition evaluate (registry : RuleRegistry) (ctx : EvaluationContext)
    (policies : list (CompliancePolicy + PolicyPackage)) : M unit EvaluationDecision :=
  '(policies, package_versions) <- of_outcome (resolve_policy_packages registry policies) ;;
  let entries := applicable_rules_with_source policies ctx in
  let rules := map fst entries in
  let policy_for_rule := dict_of (map (λ e, (Rule.key (fst e), snd e)) entries) in
  rs <- rule_results_for ctx rules (differences (comparison_result ctx)) ;;
  let scores := map Result.risk_score rs in
  let risk := max_default scores in
  let compliance := compliance_score scores in
  ret {|
    Outcome.status := status_of rs;
    Outcome.risk_score := risk;
    Outcome.compliance_score := compliance;
    Outcome.severity := severity_for_score risk;
    Outcome.recommendations := omap Result.recommendation rs;
    Outcome.evidence := flat_map Result.evidence rs;
    Outcome.rule_results := rs;
    Outcome.policy_results := policy_results package_versions policy_for_rule rs;
    Outcome.metrics := evaluation_metrics (Z.of_nat (length rules)) rs risk compliance |}.
End Evaluation.

(** ** Decisions ([decision/engine.py]) *)

Inductive DecisionStatus := PASS | FAIL | WARNING | UNKNOWN_ | NOT_APPLICABLE_.

#[export] Instance DecisionStatus_eq_dec : EqDecision DecisionStatus.
Proof. solve_decision. Defined.

Record DecisionReason := {
  reason_code : string;
  reason_message : string;
  reason_details : option string;
}.

Record DecisionRule := {
  decided_rule_id : UUID;
  decided_rule_key : string;
  decided_rule_status : EvaluationStatus;
  decided_rule_risk : Z;
  decided_rule_confidence : Z;
  decided_rule_reason : string;
}.

Record DecisionContext := {
  evaluation_id : UUID;
  evaluation_timestamp : datetime;
  decision_timestamp : datetime;
  decided_policies : list PolicyEvaluationResult;
  evaluator_version : string;
}.

Module Decision.
Record DecisionResult := {
  policy_id : UUID;
  policy_version : string;
  evaluation_id : UUID;
  evaluation_timestamp : datetime;
  decision_timestamp : datetime;
  decision_status : DecisionStatus;
  confidence : Z;
  reasoning : string;
  triggered_rules : list string;
  evaluator_version : string;
  reasons : list DecisionReason;
  rules : list DecisionRule;
}.
End Decision.

(** [_determine_status]. *)
Definition determine_status (p : PolicyEvaluationResult) : DecisionStatus :=
  let rs := PolicyResult.rule_results p in
  if is_nil rs then NOT_APPLICABLE_
  else if existsb (λ r, Result.status r ≟ NON_COMPLIANT) rs then FAIL
  else if existsb (λ r, Result.status r ≟ ERROR) rs then WARNING
  else if mem (PolicyResult.status p) [COMPLIANT; WAIVED] then PASS
  else UNKNOWN_.

(** [_policy_reasons]. *)
Definition policy_reasons (p : PolicyEvaluationResult) (s : DecisionStatus) : list DecisionReason :=
  let rs := PolicyResult.rule_results p in
  let count st := pretty (count_of st (map Result.status rs)) in
  match s with
  | NOT_APPLICABLE_ => [{| reason_code := "policy_not_applicable";
      reason_message := "No policy rules were applicable during evaluation.";
      reason_details := Some "The policy did not apply to the evaluated inventory." |}]
  | FAIL => [{| reason_code := "policy_failure";
      reason_message := "One or more evaluated rules are non-compliant.";
      reason_details := Some (count NON_COMPLIANT +:+ " rule(s) failed compliance.") |}]
  | WARNING => [{| reason_code := "policy_warning";
      reason_message := "The evaluation encountered errors that prevent a fully passing decision.";
      reason_details := Some (count ERROR +:+ " rule(s) returned errors.") |}]
  | PASS => [{| reason_code := "policy_pass";
      reason_message := "The evaluation result is compliant or waived.";
      reason_details := Some "All evaluated rules support a passing decision." |}]
  | UNKNOWN_ => [{| reason_code := "policy_unknown";
      reason_message :=
        "The decision engine could not determine a stable decision from evaluation results.";
      reason_details :=
        Some ("Policy evaluation status: " +:+ value (PolicyResult.status p) +:+ ".") |}]
  end.

(** [_confidence] of a decision and of a rule's status. *)
Definition decision_confidence (s : DecisionStatus) : Z :=
  match s with NOT_APPLICABLE_ => 0 | FAIL => 100 | WARNING => 50 | PASS => 100 | UNKNOWN_ => 25 end.

Definition rule_confidence (s : EvaluationStatus) : Z :=
  match s with
  | NOT_APPLICABLE => 0
  | NON_COMPLIANT => 100
  | ERROR => 50
  | COMPLIANT | WAIVED => 100
  end.

(** [_rule_reason] and [_summarize_rule]. *)
Definition rule_reason (s : EvaluationStatus) : string :=
  match s with
  | NON_COMPLIANT => "Rule evaluated as non-compliant."
  | ERROR => "Rule evaluation produced an error."
  | WAIVED => "Rule evaluation was waived."
  | COMPLIANT => "Rule evaluated as compliant."
  | NOT_APPLICABLE => "Rule was not applicable."
  end.

Definition summarize_rule (r : RuleEvaluationResult) : DecisionRule := {|
  decided_rule_id := Result.rule_id r; decided_rule_key := Result.rule_key r;
  decided_rule_status := Result.status r; decided_rule_risk := Result.risk_score r;
  decided_rule_confidence := rule_confidence (Result.status r);
  decided_rule_reason := rule_reason (Result.status r) |}.

(** [_build_decision] and [decide]. *)
Definition build_decision (ctx : DecisionContext) (p : PolicyEvaluationResult)
    : Decision.DecisionResult :=
  let s := determine_status p in
  let reasons := policy_reasons p s in {|
    Decision.policy_id := PolicyResult.policy_id p;
    Decision.policy_version := PolicyResult.version p;
    Decision.evaluation_id := evaluation_id ctx;
    Decision.evaluation_timestamp := evaluation_timestamp ctx;
    Decision.decision_timestamp := decision_timestamp ctx;
    Decision.decision_status := s;
    Decision.confidence := decision_confidence s;
    Decision.reasoning := String.concat " " (map reason_message reasons);
    Decision.triggered_rules := map Result.rule_key (PolicyResult.rule_results p);
    Decision.evaluator_version := evaluator_version ctx;
    Decision.reasons := reasons;
    Decision.rules := map summarize_rule (PolicyResult.rule_results p) |}.

Definition decide (ctx : DecisionContext) : list Decision.DecisionResult :=
  map (build_decision ctx) (decided_policies ctx).
