(* ===== verification/EvaluationTheorems.v ===== *)
(** * Correctness of evaluation and decisions *)

From Stdlib Require Import Lqa.
From S2P Require Import Prelude Vocabulary Effects Json Dicts Texts Inventories Comparison.
From S2P Require Import ComparisonTheorems Policies PolicyTheorems Evaluation.
#[local] Open Scope Z_scope.

(** ** Scores *)

Lemma clamp_bounds v : 0 <= clamp v <= 100.
Proof. unfold clamp. lia. Qed.

Lemma risk_score_bounds {HF : FloatRepr} r d n : risk_score r d = Ret n → 0 <= n <= 100.
Proof.
  unfold risk_score. intros H. repeat case_match; simplify_eq; try apply clamp_bounds;
    unfold risk_weight; case_match; lia.
Qed.

Lemma fold_add_shift l a : fold_left Z.add l a = a + fold_left Z.add l 0.
Proof.
  revert a. induction l as [|x l IH]; intros a; cbn [fold_left]; [lia|]. rewrite (IH (a + x)), (IH (0 + x)). lia.
Qed.

Lemma sum_bounds l :
  Forall (λ x, 0 <= x <= 100) l → 0 <= fold_left Z.add l 0 <= 100 * Z.of_nat (length l).
Proof.
  induction 1 as [|x l Hx Hl IH]; [done|]. cbn [fold_left length]. rewrite fold_add_shift. lia.
Qed.

(** The clamping of the compliance score never cuts: it is the average risk's
    complement, rounded. *)
Lemma compliance_score_exact l :
  l ≠ [] → Forall (λ x, 0 <= x <= 100) l →
  compliance_score l =
    round_half_even (100 - inject_Z (fold_left Z.add l 0%Z) / inject_Z (Z.of_nat (length l)))%Q ∧
  0 <= compliance_score l <= 100.
Proof.
  intros Hne Hl. pose proof (sum_bounds l Hl) as [H0 H1].
  unfold compliance_score. destruct l as [|x l]; [done|]. set (xs := x :: l) in *.
  set (n := Z.of_nat (length xs)) in *. set (s := fold_left Z.add xs 0) in *.
  assert (0 < n) as Hn by (subst n xs; cbn; lia).
  assert (0 <= round_half_even (100 - inject_Z s / inject_Z n)%Q <= 100) as Hr.
  { apply round_half_even_bounds. cbv zeta.
    assert (0 < inject_Z n)%Q as Hnq by (by rewrite <-(Zlt_Qlt 0)).
    assert (0 <= inject_Z s)%Q by (by rewrite <-(Zle_Qle 0)).
    assert (inject_Z s <= 100 * inject_Z n)%Q by (rewrite <-(inject_Z_mult 100); by rewrite <-Zle_Qle).
    assert (0 <= inject_Z s / inject_Z n)%Q by (apply Qle_shift_div_l; lra).
    assert (inject_Z s / inject_Z n <= 100)%Q by (apply Qle_shift_div_r; lra).
    change (inject_Z 0) with 0%Q. change (inject_Z 100) with 100%Q. lra. }
  cbv zeta. fold s n. lia.
Qed.

Lemma compliance_score_bounds l :
  Forall (λ x, 0 <= x <= 100) l → 0 <= compliance_score l <= 100.
Proof.
  intros Hl. destruct l as [|x l]; [done|]. by apply compliance_score_exact.
Qed.

Lemma max_default_spec l :
  Forall (λ x, 0 <= x <= 100) l →
  0 <= max_default l <= 100 ∧ (∀ x, x ∈ l → x <= max_default l) ∧
  (max_default l ≠ 0 → max_default l ∈ l).
Proof.
  intros Hl. destruct l as [|x l]; [split; [done|split; [by intros ? ?%elem_of_nil|done]]|].
  cbn [max_default]. apply Forall_cons in Hl as [Hx Hl].
  assert (∀ l a, a <= fold_left Z.max l a ∧ (∀ y, y ∈ l → y <= fold_left Z.max l a) ∧
    (fold_left Z.max l a = a ∨ fold_left Z.max l a ∈ l)) as Hmax.
  { clear. induction l as [|y l IH]; intros a; cbn; [split_and!; [lia|by intros ? ?%elem_of_nil|auto]|].
    destruct (IH (Z.max a y)) as (H1 & H2 & H3). split_and!; [lia| |].
    - intros z [->|Hz]%elem_of_cons; [lia|auto].
    - rewrite elem_of_cons. destruct H3 as [->|H3]; [|auto].
      destruct (Z.max_spec a y) as [[_ ->]|[_ ->]]; auto. }
  destruct (Hmax l x) as (H1 & H2 & H3). rewrite Forall_forall in Hl. split_and!.
  - lia.
  - destruct H3 as [->|H3]; [lia|]. by apply Hl.
  - intros y [->|Hy]%elem_of_cons; auto.
  - intros _. rewrite elem_of_cons. destruct H3 as [->|]; auto.
Qed.

Lemma severity_for_score_levels n :
  0 <= n <= 100 →
  severity_for_score n =
    if 90 <=? n then {| level := CRITICAL; score := n; label := Some "Critical" |}
    else if 70 <=? n then {| level := HIGH; score := n; label := Some "High" |}
    else if 40 <=? n then {| level := MEDIUM; score := n; label := Some "Medium" |}
    else if 0 <? n then {| level := LOW; score := n; label := Some "Low" |}
    else {| level := INFO; score := 0; label := Some "Info" |}.
Proof.
  intros Hn. unfold severity_for_score. assert (clamp n = n) as -> by (unfold clamp; lia). done.
Qed.

(** ** Rule results *)

(** A result as the executor makes it. *)
Record result_wf (r : RuleEvaluationResult) : Prop := {
  rw_status : Result.status r ∈ [COMPLIANT; NON_COMPLIANT; WAIVED];
  rw_risk : 0 <= Result.risk_score r <= 100;
  rw_harmless : Result.status r ≠ NON_COMPLIANT → Result.risk_score r = 0;
  rw_passed : Result.passed r = negb (Result.status r ≟ NON_COMPLIANT);
  rw_severity : Result.severity r = severity_for_score (Result.risk_score r);
  rw_recommendation : is_not_none (Result.recommendation r) = (Result.status r ≟ NON_COMPLIANT);
  rw_exception : is_not_none (Result.exception r) = (Result.status r ≟ WAIVED);
}.

Section Evaluation.
Context {HF : FloatRepr} {HR : Regex} {HN : NameUUID} (now : datetime).

Lemma execute_rule_wf r d w res s s' :
  execute_rule r d w s = (Ret res, s') →
  result_wf res ∧ Result.rule_key res = Rule.key r ∧ Result.difference res = d ∧
  (Result.status res = WAIVED ↔ is_not_none w = true).
Proof.
  unfold execute_rule. intros H.
  apply bind_inv in H as [(t & s1 & _ & H)|(e & _ & H)]; [|done].
  destruct w as [w|].
  { injection H as <- <-. split; [|done].
    split; cbn; done || set_solver || lia. }
  apply bind_inv in H as [(passed & s2 & _ & H)|(e & _ & H)]; [|done].
  apply bind_inv in H as [(risk & s3 & Hr & H)|(e & _ & H)]; [|done].
  injection H as <- <-. injection Hr as Hr <-. destruct passed.
  - injection Hr as <-. split; [|done]. split; cbn; done || set_solver || lia.
  - apply risk_score_bounds in Hr. split; [|done]. split; cbn; done || set_solver.
Qed.

(** The pairs the engine executes: each difference with each rule meant for it. *)
Definition executions (rules : list Rule) (ds : list Difference) : list (Difference * Rule) :=
  flat_map (λ d, map (λ r, (d, r)) (rules_for_difference rules d)) ds.

(** How a result answers for its pair. *)
Definition answers_for (ctx : EvaluationContext) (dr : Difference * Rule) (res : RuleEvaluationResult)
    : Prop :=
  result_wf res ∧ Result.rule_key res = Rule.key dr.2 ∧ Result.difference res = dr.1 ∧
  (Result.status res = WAIVED ↔
     existsb (λ w, applies_to now w (Rule.key dr.2) dr.1) (exceptions ctx) = true).

Lemma find_existsb {A} (p : A → bool) l : is_not_none (List.find p l) = existsb p l.
Proof. induction l as [|x l IH]; cbn; [done|]. by destruct (p x). Qed.

Lemma rule_results_for_answers ctx rules ds rs :
  rule_results_for now ctx rules ds tt = (Ret rs, tt) →
  Forall2 (answers_for ctx) (executions rules ds) rs.
Proof.
  unfold rule_results_for. intros H.
  pose proof (map_m_outcome (λ '(d, r), execute_rule r d (exception_for now ctx r d))
    (executions rules ds)) as Hm.
  unfold executions in *. rewrite H in Hm. cbn in Hm.
  eapply Forall2_weaken; [exact Hm|]. intros [d r] res _ Hx. cbn in Hx.
  apply execute_rule_wf in Hx as (Hwf & Hk & Hd & Hw). unfold answers_for. cbn.
  split_and!; try done. rewrite Hw. unfold exception_for. by rewrite find_existsb.
Qed.

Lemma map_status_counts rs :
  Forall result_wf rs →
  count_of COMPLIANT (map Result.status rs) + count_of NON_COMPLIANT (map Result.status rs) +
  count_of WAIVED (map Result.status rs) = Z.of_nat (length rs) ∧
  count_of NOT_APPLICABLE (map Result.status rs) = 0 ∧ count_of ERROR (map Result.status rs) = 0.
Proof.
  intros Hrs. rewrite Forall_forall in Hrs. split_and!.
  - rewrite <-(length_map Result.status rs),
      <-(count_of_total [COMPLIANT; NON_COMPLIANT; WAIVED] (map Result.status rs)).
    + cbn [map fold_right]. lia.
    + repeat constructor; set_solver.
    + intros s (r & -> & Hr)%list_elem_of_fmap. by apply Hrs.
  - apply count_of_zero. intros (r & E & Hr)%list_elem_of_fmap.
    pose proof (rw_status _ (Hrs r Hr)). rewrite <-E in *. set_solver.
  - apply count_of_zero. intros (r & E & Hr)%list_elem_of_fmap.
    pose proof (rw_status _ (Hrs r Hr)). rewrite <-E in *. set_solver.
Qed.

Lemma status_of_spec rs :
  (status_of rs = NOT_APPLICABLE ↔ rs = []) ∧
  (status_of rs = NON_COMPLIANT ↔ ∃ r, r ∈ rs ∧ Result.status r = NON_COMPLIANT) ∧
  (status_of rs = WAIVED ↔ rs ≠ [] ∧ ∀ r, r ∈ rs → Result.status r = WAIVED).
Proof.
  unfold status_of.
  assert (existsb (λ r, Result.status r ≟ NON_COMPLIANT) rs = true ↔
    ∃ r, r ∈ rs ∧ Result.status r = NON_COMPLIANT) as He.
  { rewrite existsb_exists. split; intros (r & Hr & E); exists r;
      rewrite list_elem_of_In, eqb_true in *; done. }
  assert (forallb (λ r, Result.status r ≟ WAIVED) rs = true ↔
    ∀ r, r ∈ rs → Result.status r = WAIVED) as Hw.
  { rewrite forallb_forall. split; intros H r Hr; specialize (H r);
      rewrite ?list_elem_of_In, ?eqb_true in *; auto. }
  destruct rs as [|r0 rs]; cbn [is_nil].
  { split; [done|]. split; [split; [done|]|split; [done|]].
    - intros (r & Hr & _). by apply elem_of_nil in Hr.
    - by intros []. }
  destruct (existsb _ (r0 :: rs)).
  - split; [done|]. split; [by split; [intros _; apply He|]|]. split; [done|].
    intros [_ H]. destruct (proj1 He eq_refl) as (r & Hr & E). rewrite (H r Hr) in E. done.
  - destruct (forallb _ (r0 :: rs)).
    + split; [done|]. split; [split; [done|intros H; by apply He in H]|].
      split; [|done]. intros _. split; [done|]. by apply Hw.
    + split; [done|]. split; [split; [done|intros H; by apply He in H]|].
      split; [done|]. intros [_ H]. by apply Hw in H.
Qed.

(** ** Errors *)

(** What may end an evaluation: an evaluation error, a risk score that is no
    integer, or what is no [Exception]. *)
Definition evaluation_failure (e : exn) : Prop :=
  isinstance e EvaluationError = true ∨ exn_cls e = ValueError ∨ isinstance e Exception_ = false.

Lemma rule_type_failure r e : rule_type r = Raise e → evaluation_failure e.
Proof. unfold rule_type. destruct (of_value _); [done|]. intros [= <-]. by left. Qed.

Lemma evaluate_rule_failure t r d e : evaluate_rule t r d = Raise e → evaluation_failure e.
Proof.
  unfold evaluate_rule. destruct (handler t _ _) as [b|exc]; [done|].
  destruct (isinstance exc Exception_) eqn:E; intros [= <-]; [by left|by right; right].
Qed.

Lemma risk_score_failure r d e : risk_score r d = Raise e → evaluation_failure e.
Proof.
  unfold risk_score, raise_. intros H. repeat case_match; simplify_eq; by right; left.
Qed.

Lemma execute_rule_failure r d w s e s' : execute_rule r d w s = (Raise e, s') → evaluation_failure e.
Proof.
  unfold execute_rule. intros H.
  apply bind_inv in H as [(t & s1 & _ & H)|(e' & H & [= ->])];
    [|injection H as H _; by eapply rule_type_failure].
  destruct w as [w|]; [done|].
  apply bind_inv in H as [(passed & s2 & _ & H)|(e' & H & [= ->])];
    [|injection H as H _; by eapply evaluate_rule_failure].
  apply bind_inv in H as [(risk & s3 & _ & H)|(e' & H & [= ->])]; [done|].
  injection H as H _. destruct passed; [done|]. by eapply risk_score_failure.
Qed.

Lemma resolve_policy_packages_failure registry ps e :
  resolve_policy_packages registry ps = Raise e → evaluation_failure e.
Proof.
  unfold resolve_policy_packages. destruct (omap _ ps) as [|g gs]; [done|].
  pose proof (resolve_selects_latest registry (g :: gs)) as H.
  destruct (resolve_with_versions registry (g :: gs)); [done|]. intros [= <-].
  left. unfold isinstance. by rewrite H.
Qed.

(** ** The evaluation *)

(** The rules of an evaluation with their policies, and the versions of those that
    come from packages. *)
Lemma evaluate_Ret registry ctx ps :
  match (evaluate now registry ctx ps tt).1 with
  | Raise e => evaluation_failure e
  | Ret dec =>
      ∃ policies versions rs,
        let entries := applicable_rules_with_source policies ctx in
        resolve_policy_packages registry ps = Ret (policies, versions) ∧
        Forall2 (answers_for ctx)
          (executions (map fst entries) (differences (comparison_result ctx))) rs ∧
        Outcome.rule_results dec = rs ∧ Outcome.status dec = status_of rs ∧
        Outcome.risk_score dec = max_default (map Result.risk_score rs) ∧
        Outcome.compliance_score dec = compliance_score (map Result.risk_score rs) ∧
        Outcome.severity dec = severity_for_score (Outcome.risk_score dec) ∧
        Outcome.policy_results dec = policy_results versions
          (dict_of (map (λ e, (Rule.key (fst e), snd e)) entries)) rs ∧
        Outcome.metrics dec = evaluation_metrics (Z.of_nat (length (map fst entries))) rs
          (Outcome.risk_score dec) (Outcome.compliance_score dec)
  end.
Proof.
  unfold evaluate. destruct (resolve_policy_packages registry ps) as [[policies versions]|e] eqn:Er.
  2:{ cbn. by eapply resolve_policy_packages_failure. }
  erewrite bind_Ret by reflexivity. cbv beta iota zeta.
  set (entries := applicable_rules_with_source policies ctx).
  set (ds := differences (comparison_result ctx)).
  destruct (rule_results_for now ctx (map fst entries) ds tt) as [[rs|e] []] eqn:E.
  - erewrite bind_Ret by exact E. cbn [fst ret].
    exists policies, versions, rs. split; [done|]. split; [by apply rule_results_for_answers|].
    split_and!; reflexivity.
  - erewrite bind_Raise by exact E. cbn [fst]. unfold rule_results_for in E.
    pose proof (map_m_outcome (λ '(d, r), execute_rule r d (exception_for now ctx r d))
      (executions (map fst entries) ds)) as Hm.
    unfold executions in Hm. rewrite E in Hm. cbn in Hm. destruct Hm as ([d r] & _ & Hx).
    by eapply execute_rule_failure.
Qed.

Lemma answers_wf ctx l rs : Forall2 (answers_for ctx) l rs → Forall result_wf rs.
Proof. induction 1 as [|x r l rs [Hr _]]; by constructor. Qed.

(** C14. An evaluation that answers has, in order, one result for every difference and
    every applicable rule meant for it: waived exactly when an exception that has
    not expired covers the pair, and otherwise passed, or failed with a risk and a
    recommendation.  Its scores lie between 0 and 100, its risk is the highest of
    the results, and the counters of its metrics account for every result; an
    evaluation that does not answer ends with an evaluation error or a bad score. *)
Theorem evaluation_accounts registry ctx ps :
  match (evaluate now registry ctx ps tt).1 with
  | Raise e => evaluation_failure e
  | Ret dec =>
      let rs := Outcome.rule_results dec in
      let m := Outcome.metrics dec in
      (∃ policies versions,
         resolve_policy_packages registry ps = Ret (policies, versions) ∧
         Forall2 (answers_for ctx)
           (executions (map fst (applicable_rules_with_source policies ctx))
             (differences (comparison_result ctx))) rs) ∧
      Outcome.status dec = status_of rs ∧
      0 <= Outcome.risk_score dec <= 100 ∧ 0 <= Outcome.compliance_score dec <= 100 ∧
      (∀ r, r ∈ rs → 0 <= Result.risk_score r <= Outcome.risk_score dec) ∧
      Metrics.compliant m + Metrics.non_compliant m + Metrics.waived m = Z.of_nat (length rs) ∧
      Metrics.evaluated_rules m = Z.of_nat (length rs) ∧
      Metrics.not_applicable m = 0 ∧ Metrics.errors m = 0
  end.
Proof.
  pose proof (evaluate_Ret registry ctx ps) as H.
  destruct (evaluate now registry ctx ps tt).1 as [dec|e]; [|done]. cbv zeta.
  destruct H as (policies & versions & rs & Hp & Ha & Hrs & Hst & Hrisk & Hcomp & _ & _ & Hm).
  rewrite Hm, Hst, Hcomp, Hrisk, Hrs. pose proof (answers_wf _ _ _ Ha) as Hwf.
  assert (Forall (λ x, 0 <= x <= 100) (map Result.risk_score rs)) as Hr.
  { apply Forall_fmap. eapply Forall_impl; [exact Hwf|]. by intros r []. }
  destruct (max_default_spec _ Hr) as (H1 & H2 & _).
  destruct (map_status_counts rs Hwf) as (C1 & C2 & C3).
  split_and!; try done; try lia.
  - by exists policies, versions.
  - apply compliance_score_bounds, Hr.
  - by apply compliance_score_bounds.
  - rewrite Forall_forall in Hwf. intros r Hin. split; [by apply Hwf|].
    apply H2, list_elem_of_fmap. eauto.
Qed.
End Evaluation.

(** ** Policies and decisions *)

Section Decisions.
Context {HF : FloatRepr} {HR : Regex} {HN : NameUUID} (now : datetime).

(** A policy result made of a group of rule results. *)
Definition result_of_group (e : UUID * list RuleEvaluationResult) (p : PolicyEvaluationResult) : Prop :=
  PolicyResult.policy_id p = e.1 ∧ PolicyResult.rule_results p = e.2 ∧
  PolicyResult.status p = status_of e.2.

Lemma policy_result_of_group versions pfr rs e :
  e ∈ results_by_policy pfr rs →
  ∃ p, policy_result versions (policy_by_id pfr rs) e = Some p ∧ result_of_group e p.
Proof.
  destruct e as [u g]. intros [Hne Hg]%elem_of_group_by.
  destruct g as [|r g]; [done|].
  assert (r ∈ rs ∧ Compliance.id <$> get (Result.rule_key r) pfr = Some u) as [Hr Hu].
  { assert (r ∈ r :: g) as Hin by set_solver. rewrite Hg in Hin.
    apply list_elem_of_In, filter_In in Hin as [Hin Hk].
    apply bool_decide_eq_true in Hk. by apply list_elem_of_In in Hin. }
  destruct (get (Result.rule_key r) pfr) as [q|] eqn:Eq; [|done]. injection Hu as <-.
  destruct (last_with_present Compliance.id (omap (λ r, get (Result.rule_key r) pfr) rs) q)
    as [q' Hq'].
  { apply list_elem_of_omap. by exists r. }
  unfold policy_result, policy_by_id. rewrite get_index_by, Hq'. eexists. split; [done|].
  apply last_with_Some in Hq' as [_ Hid]. done.
Qed.

Lemma policy_results_groups versions pfr rs :
  Forall2 result_of_group (results_by_policy pfr rs) (policy_results versions pfr rs).
Proof.
  unfold policy_results. pose proof (policy_result_of_group versions pfr rs) as H. revert H.
  generalize (policy_by_id pfr rs). intros pbi.
  induction (results_by_policy pfr rs) as [|e groups IH]; intros H; cbn; [constructor|].
  destruct (H e ltac:(set_solver)) as (p & -> & Hp). constructor; [done|]. apply IH. set_solver.
Qed.

Lemma executions_rule rules ds d r : (d, r) ∈ executions rules ds → r ∈ rules.
Proof.
  unfold executions. intros (d' & Hd & Hr)%list_elem_of_In%in_flat_map.
  apply in_map_iff in Hr as (r' & [= <- <-] & Hr).
  unfold rules_for_difference in Hr. apply filter_In in Hr as [Hr _]. by apply list_elem_of_In.
Qed.

(** Every result comes from a rule, and so from a policy. *)
Lemma results_have_policies ctx entries ds rs :
  Forall2 (answers_for now ctx) (executions (map fst entries) ds) rs →
  ∀ r, r ∈ rs → is_Some (Compliance.id <$>
    get (Result.rule_key r) (dict_of (map (λ e, (Rule.key (fst e), snd e)) entries))).
Proof.
  intros H r Hr. apply list_elem_of_lookup in Hr as [i Hi].
  destruct (Forall2_lookup_r _ _ _ _ _ H Hi) as ([d ru] & Hx & (_ & Hk & _)). cbn in Hk.
  apply list_elem_of_lookup_2, executions_rule, list_elem_of_fmap in Hx as ([ru' p] & -> & He).
  cbn in Hk. rewrite Hk, get_dict_of.
  destruct (last_of (Rule.key ru') _) eqn:E; [by eexists|]. exfalso.
  apply last_of_None in E. apply E. unfold keys. rewrite map_map.
  apply list_elem_of_fmap. by exists (ru', p).
Qed.

Lemma determine_status_wf p :
  Forall result_wf (PolicyResult.rule_results p) → PolicyResult.rule_results p ≠ [] →
  PolicyResult.status p = status_of (PolicyResult.rule_results p) →
  determine_status p = if PolicyResult.status p ≟ NON_COMPLIANT then FAIL else PASS.
Proof.
  intros Hwf Hne Hst. unfold determine_status, status_of in *.
  set (rs := PolicyResult.rule_results p) in *.
  assert (existsb (λ r, Result.status r ≟ ERROR) rs = false) as ->.
  { apply not_true_is_false. intros (r & Hr & E)%existsb_exists.
    rewrite Forall_forall in Hwf. rewrite eqb_true in E.
    pose proof (rw_status _ (Hwf r (proj2 (list_elem_of_In _ _) Hr))). rewrite E in *. set_solver. }
  destruct rs; [done|]. cbn [is_nil] in *. rewrite Hst.
  destruct (existsb _ _); [done|]. by destruct (forallb _ _).
Qed.

(** C13. An evaluation that answers has one policy result per policy concerned, together
    holding every rule result once; and the decision on a policy follows its
    results: it fails exactly if one of them is non-compliant and passes otherwise,
    with full confidence, so that the evaluation is non-compliant exactly when some
    policy fails.  No decision is a warning, unknown or not applicable. *)
Theorem decisions_follow registry ctx ps evaluation_id evaluated decided version :
  match (evaluate now registry ctx ps tt).1 with
  | Raise _ => True
  | Ret dec =>
      let prs := Outcome.policy_results dec in
      let decisions := decide {|
        evaluation_id := evaluation_id; evaluation_timestamp := evaluated;
        decision_timestamp := decided; decided_policies := prs; evaluator_version := version |} in
      NoDup (map PolicyResult.policy_id prs) ∧
      flat_map PolicyResult.rule_results prs ≡ₚ Outcome.rule_results dec ∧
      map Decision.decision_status decisions =
        map (λ p, if existsb (λ r, Result.status r ≟ NON_COMPLIANT) (PolicyResult.rule_results p)
                  then FAIL else PASS) prs ∧
      Forall (λ d, Decision.confidence d = 100) decisions ∧
      (Outcome.status dec = NON_COMPLIANT ↔ FAIL ∈ map Decision.decision_status decisions)
  end.
Proof.
  pose proof (evaluate_Ret now registry ctx ps) as H.
  destruct (evaluate now registry ctx ps tt).1 as [dec|e]; [|done]. cbv zeta.
  destruct H as (policies & versions & rs & _ & Ha & Hrs & Hst & _ & _ & _ & Hpr & _).
  set (pfr := dict_of _) in Hpr. set (prs := Outcome.policy_results dec) in *.
  pose proof (policy_results_groups versions pfr rs) as Hg. rewrite <-Hpr in Hg.
  assert (flat_map snd (results_by_policy pfr rs) ≡ₚ rs) as Hperm
    by exact (group_by_perm _ rs (results_have_policies _ _ _ _ Ha)).
  assert (map PolicyResult.policy_id prs = keys (results_by_policy pfr rs)) as Hids.
  { clear -Hg. induction Hg as [|e p es ps' [Hp _] Hg IH]; cbn; [done|]. by rewrite Hp, IH. }
  assert (flat_map PolicyResult.rule_results prs = flat_map snd (results_by_policy pfr rs)) as Hflat.
  { clear -Hg. induction Hg as [|e p es ps' (_ & Hp & _) Hg IH]; cbn; [done|]. by rewrite Hp, IH. }
  rewrite <-Hflat in Hperm. pose proof (answers_wf _ _ _ _ Ha) as Hwf. rewrite Forall_forall in Hwf.
  assert (∀ p, p ∈ prs → determine_status p =
    if existsb (λ r, Result.status r ≟ NON_COMPLIANT) (PolicyResult.rule_results p)
    then FAIL else PASS) as Hdec.
  { intros p Hp. pose proof Hp as Hin. apply list_elem_of_lookup in Hp as [i Hi].
    destruct (Forall2_lookup_r _ _ _ _ _ Hg Hi) as ([u g] & Hx & (_ & Hres & Hs)). cbn in Hres, Hs.
    apply list_elem_of_lookup_2, elem_of_group_by in Hx as [Hne _]. rewrite <-Hres in *.
    rewrite determine_status_wf; [|..|done|done].
    - rewrite Hs. unfold status_of. destruct (PolicyResult.rule_results p); [done|]. cbn [is_nil].
      destruct (existsb _ _); [done|]. by destruct (forallb _ _).
    - apply Forall_forall. intros r Hr. apply Hwf. rewrite <-Hperm.
      apply list_elem_of_In, in_flat_map. exists p. by rewrite <-!list_elem_of_In. }
  split_and!.
  - rewrite Hids. unfold results_by_policy. rewrite keys_group_by. apply NoDup_first_occurrences.
  - by rewrite Hrs.
  - unfold decide. cbn [decided_policies]. rewrite map_map. apply list_fmap_ext. intros i p Hi.
    cbn. apply Hdec. by eapply list_elem_of_lookup_2.
  - apply Forall_forall. intros d (p & -> & Hp)%list_elem_of_fmap. cbn.
    rewrite Hdec by done. by destruct (existsb _ _).
  - rewrite Hst. destruct (status_of_spec rs) as (_ & -> & _). split.
    + intros (r & Hr & E). rewrite <-Hperm in Hr.
      apply list_elem_of_In, in_flat_map in Hr as (p & Hp & Hr).
      apply list_elem_of_fmap. eexists (build_decision _ p). split; cycle 1.
      { apply list_elem_of_fmap. exists p. split; [done|]. by apply list_elem_of_In. }
      cbn. rewrite Hdec by (by apply list_elem_of_In).
      rewrite (proj2 (existsb_exists _ _)); [done|]. exists r. by rewrite eqb_true.
    + intros (d & Hd & (p & -> & Hp)%list_elem_of_fmap)%list_elem_of_fmap. cbn in Hd.
      rewrite Hdec in Hd by done.
      destruct (existsb _ (PolicyResult.rule_results p)) eqn:Ex; [|done].
      apply existsb_exists in Ex as (r & Hr & E). rewrite eqb_true in E. exists r.
      split; [|done]. rewrite <-Hperm. apply list_elem_of_In, in_flat_map. exists p.
      by rewrite <-list_elem_of_In.
Qed.

(** ** The whole pipeline *)

(** Inventories that are in sync evaluate, under any policies that resolve, to no
    risk and a full score, with no rule executed and no policy decided. *)
Theorem in_sync_is_clean netbox live context_metadata exceptions registry ps
    (Hs : in_sync netbox live)
    (Hp : is_ret (resolve_policy_packages registry ps) = true) :
  let ctx := {| comparison_result := compare None netbox live;
                context_metadata := context_metadata; exceptions := exceptions |} in
  ∃ dec, evaluate now registry ctx ps tt = (Ret dec, tt) ∧
    Outcome.status dec = NOT_APPLICABLE ∧ Outcome.risk_score dec = 0 ∧
    Outcome.compliance_score dec = 100 ∧ Outcome.rule_results dec = [] ∧
    Outcome.policy_results dec = [].
Proof.
  intros ctx. apply all_differences_nil in Hs.
  assert (differences (comparison_result ctx) = []) as Hd.
  { cbn [comparison_result ctx]. rewrite compare_differences, Hs. done. }
  unfold evaluate. destruct (resolve_policy_packages registry ps) as [[policies versions]|e]; [|done].
  erewrite bind_Ret by reflexivity. cbv beta iota zeta. rewrite Hd.
  erewrite bind_Ret by reflexivity. eexists. split; [reflexivity|]. done.
Qed.
End Decisions.

(** ** Instances *)

(** A device whose name differs by case and blanks, and no policies at all. *)
Lemma in_sync_is_clean_witness :
  let HF : FloatRepr := λ _, "" in
  let HR : Regex := λ _ _, Ret false in
  let HN : NameUUID := λ _, 0%N in
  let netbox := demo_netbox [demo_device "Core-1" None] in
  let live := demo_live 5 [demo_live_device "x" " core-1 " 5] in
  in_sync netbox live ∧
  ∃ dec, evaluate 0 [] {| comparison_result := compare None netbox live;
                          context_metadata := []; exceptions := [] |} [] tt = (Ret dec, tt) ∧
    Outcome.compliance_score dec = 100.
Proof.
  intros HF HR HN netbox live.
  assert (in_sync netbox live) as Hs by (apply all_differences_nil; vm_compute; reflexivity).
  split; [exact Hs|].
  destruct (in_sync_is_clean 0 netbox live [] [] [] [] Hs eq_refl) as (dec & He & _ & _ & Hc & _).
  exists dec. by split.
Defined.

(** The tags an assignment to an organization, a building, a floor, a rack or a
    device produces restrict nothing: they apply in every context. *)
Lemma unread_scopes_apply {HF : FloatRepr} s v ctx :
  s ∈ ["organization"; "building"; "floor"; "rack"; "device"] →
  tags_apply (omap assignment_to_tag [{| scope := s; assigned := v |}]) ctx = true.
Proof.
  intros Hs. cbn. unfold assignment_to_tag. cbn [scope assigned].
  rewrite !elem_of_cons, elem_of_nil in Hs.
  destruct Hs as [->|[->|[->|[->|[->|[]]]]]]; destruct (str_truthy _); done.
Qed.
