(* ===== verification/Normalization.v ===== *)
(** * Parsing and normalization ([parsers/], [normalization/])

    The registry and pipeline of parsers and the engine that turns what a parser
    emits into a live snapshot.  Parsers and normalization rules are plug-ins:
    computations on the state of the caller.  A rule returns nothing and acts by
    changing the dictionaries of the records in place, so here it returns the
    result as it leaves it. *)

From S2P Require Import Prelude Vocabulary Effects Json Dicts Texts Inventories.
#[local] Open Scope Z_scope.

(** ** Parsers *)

Inductive ParserInputFormat := TEXT | JSON | XML | KEY_VALUE.

#[export] Instance ParserInputFormat_eq_dec : EqDecision ParserInputFormat.
Proof. solve_decision. Defined.

Definition ParserInputFormat_value (f : ParserInputFormat) : string :=
  match f with TEXT => "text" | JSON => "json" | XML => "xml" | KEY_VALUE => "key_value" end.

#[export] Program Instance ParserInputFormat_StrEnum : StrEnum ParserInputFormat := {|
  value := ParserInputFormat_value;
  members := [TEXT; JSON; XML; KEY_VALUE];
|}.
Next Obligation. solve_members. Qed.
Next Obligation. solve_value_inj. Qed.

Module ParserContext.
Record ParserContext := {
  source : string;
  input_format : ParserInputFormat;
  parser_name : option string;
  run_id : UUID;
  metadata : dict;
}.
End ParserContext.
Abbreviation ParserContext := ParserContext.ParserContext.

Record ParsedRecord := { kind : string; payload : dict }.

Module Parsed.
Record ParserResult := {
  parser_name : string;
  source : string;
  input_format : ParserInputFormat;
  records : list ParsedRecord;
  captured_at : datetime;
  metadata : dict;
}.
End Parsed.
Abbreviation ParserResult := Parsed.ParserResult.

Module Parser.
Record BaseParser (S : Type) := {
  name : string;
  supported_formats : list ParserInputFormat;
  parse : ParserContext → json → M S ParserResult;
}.
Arguments name {S} _.
Arguments supported_formats {S} _.
Arguments parse {S} _ _ _.
End Parser.
Abbreviation BaseParser := Parser.BaseParser.

Section Parsers.
Context {S : Type}.

(** [BaseParser.supports]. *)
Definition supports (p : BaseParser S) (input_format : ParserInputFormat) : bool :=
  mem input_format (Parser.supported_formats p).

Definition ParserRegistry := list (string * BaseParser S).

Definition register_parser (p : BaseParser S) : M ParserRegistry unit :=
  parsers <- gets id ;;
  if has (Parser.name p) parsers
  then raise ParserRegistrationError ("Parser '" +:+ Parser.name p +:+ "' is already registered.")
  else modify (put (Parser.name p) p).

Definition get_parser (parsers : ParserRegistry) (name : string) : outcome (BaseParser S) :=
  match get name parsers with
  | Some p => Ret p
  | None => raise_ ParserRegistrationError ("Unknown parser: " +:+ name)
  end.

Definition select_parsers (parsers : ParserRegistry) (input_format : ParserInputFormat)
    : list (BaseParser S) :=
  List.filter (λ p, supports p input_format) (values parsers).

(** [ParserPipeline._resolve_parser]. *)
Definition resolve_parser (parsers : ParserRegistry) (ctx : ParserContext)
    : outcome (BaseParser S) :=
  match ParserContext.parser_name ctx with
  | Some name => get_parser parsers name
  | None =>
      match select_parsers parsers (ParserContext.input_format ctx) with
      | [] => raise_ ParserConfigurationError
                ("No parser registered for format '" +:+ value (ParserContext.input_format ctx) +:+ "'.")
      | p :: _ => Ret p
      end
  end.

(** [ParserPipeline.parse]. *)
Definition pipeline_parse (parsers : ParserRegistry) (ctx : ParserContext) (raw_output : json)
    : M S ParserResult :=
  p <- of_outcome (resolve_parser parsers ctx) ;;
  try_except (Parser.parse p ctx raw_output) (λ e,
    if isinstance e Exception_
    then raise ParserExecutionError ("Parser '" +:+ Parser.name p +:+ "' failed.")
    else reraise e).
End Parsers.
Arguments ParserRegistry S : clear implicits.

(** ** Values of a payload ([normalization/mapper.py]) *)

Section Values.
Context {HF : FloatRepr}.

(** [str(payload.get(k, default)).strip()]. *)
Definition text_or (default k : string) (d : dict) : string :=
  str_strip (py_str (dict_get_default k (JStr default) d)).
Definition text_of (k : string) (d : dict) : string := text_or "" k d.

Definition optional_text (v : option json) : option string :=
  match v with
  | None | Some JNull => None
  | Some v => let text := str_strip (py_str v) in if str_truthy text then Some text else None
  end.

Definition optional_int (v : option json) : option Z :=
  match v with
  | None | Some JNull => None
  | Some v => py_int (str_strip (py_str v))
  end.

Definition optional_float (v : option json) : option pyfloat :=
  match v with
  | None | Some JNull => None
  | Some v => py_float (str_strip (py_str v))
  end.

Definition optional_bool (v : option json) : option bool :=
  match v with
  | Some (JBool b) => Some b
  | None | Some JNull => None
  | Some v =>
      let normalized := str_lower (str_strip (py_str v)) in
      if mem normalized ["true"; "yes"; "enabled"; "on"; "1"] then Some true
      else if mem normalized ["false"; "no"; "disabled"; "off"; "0"] then Some false
      else None
  end.

(** The items of a list, or the keys of a dict. *)
Definition stack_members_of (v : option json) : list string :=
  let members items := List.filter str_truthy (map str_strip items) in
  match v with
  | Some (JStr s) => members [s]
  | Some (JList l) => members (map py_str l)
  | Some (JDict d) => members (map fst d)
  | _ => []
  end.
End Values.

(** ** Mapping records to snapshots *)

Section Mapper.
Context {HF : FloatRepr} {S : Type} {HC : Clock S}.

(** A loop that builds an object for every record it does not skip; the object
    takes the time it is made as [captured_at]. *)
Fixpoint collect {A} (build : ParsedRecord → option (datetime → A)) (rs : list ParsedRecord)
    : M S (list A) :=
  match rs with
  | [] => ret []
  | r :: rs =>
      match build r with
      | None => collect build rs
      | Some make => t <- utc_now ;; xs <- collect build rs ;; ret (make t :: xs)
      end
  end.

Definition of_kind (k : string) (r : ParsedRecord) : bool := kind r ≟ k.

(** The record is of the kind and names the device. *)
Definition belongs (k field device_id : string) (r : ParsedRecord) : bool :=
  of_kind k r && (text_of field (payload r) ≟ device_id).

Definition interface_of (device_id : string) (r : ParsedRecord)
    : option (datetime → InterfaceSnapshot.InterfaceSnapshot) :=
  let p := payload r in
  let name := text_of "name" p in
  if negb (belongs "interface" "device_id" device_id r) || negb (str_truthy name) then None
  else Some (λ now, {|
    InterfaceSnapshot.device_id := device_id;
    InterfaceSnapshot.name := name;
    InterfaceSnapshot.captured_at := now;
    InterfaceSnapshot.version := SNAPSHOT_SCHEMA_VERSION;
    InterfaceSnapshot.admin_status := optional_text (dict_get "admin_status" p);
    InterfaceSnapshot.oper_status := optional_text (dict_get "oper_status" p);
    InterfaceSnapshot.description := optional_text (dict_get "description" p);
    InterfaceSnapshot.mac_address := optional_text (dict_get "mac_address" p);
    InterfaceSnapshot.speed_mbps := optional_int (dict_get "speed_mbps" p);
    InterfaceSnapshot.poe_status := optional_text (dict_get "poe_status" p) |}).

Definition vlan_of (device_id : string) (r : ParsedRecord)
    : option (datetime → VLANSnapshot.VLANSnapshot) :=
  let p := payload r in
  if negb (belongs "vlan" "device_id" device_id r) then None
  else
    match optional_int (dict_get "vlan_id" p) with
    | None => None
    | Some vlan_id =>
        let name := text_of "name" p in
        if negb (str_truthy name) then None
        else Some (λ now, {|
          VLANSnapshot.vlan_id := vlan_id;
          VLANSnapshot.name := name;
          VLANSnapshot.captured_at := now;
          VLANSnapshot.version := SNAPSHOT_SCHEMA_VERSION;
          VLANSnapshot.device_id := Some device_id;
          VLANSnapshot.status := optional_text (dict_get "status" p) |})
    end.

Definition neighbor_of (device_id : string) (r : ParsedRecord)
    : option (datetime → NeighborSnapshot.NeighborSnapshot) :=
  let p := payload r in
  let local_interface := text_of "local_interface" p in
  let remote_device_id := text_of "remote_device_id" p in
  if negb (belongs "neighbor" "local_device_id" device_id r) then None
  else if negb (str_truthy local_interface) || negb (str_truthy remote_device_id) then None
  else Some (λ now, {|
    NeighborSnapshot.local_device_id := device_id;
    NeighborSnapshot.local_interface := local_interface;
    NeighborSnapshot.remote_device_id := remote_device_id;
    NeighborSnapshot.remote_interface := optional_text (dict_get "remote_interface" p);
    NeighborSnapshot.protocol := optional_text (dict_get "protocol" p);
    NeighborSnapshot.captured_at := now;
    NeighborSnapshot.version := SNAPSHOT_SCHEMA_VERSION |}).

(** The first power record of the device. *)
Definition power_of (device_id : string) (rs : list ParsedRecord)
    : M S (option PowerSnapshot.PowerSnapshot) :=
  match List.find (belongs "power" "device_id" device_id) rs with
  | None => ret None
  | Some r =>
      let p := payload r in
      let source := text_or "poe" "source" p in
      now <- utc_now ;;
      ret (Some {|
        PowerSnapshot.device_id := device_id;
        PowerSnapshot.source := if str_truthy source then source else "poe";
        PowerSnapshot.captured_at := now;
        PowerSnapshot.version := SNAPSHOT_SCHEMA_VERSION;
        PowerSnapshot.status := optional_text (dict_get "status" p);
        PowerSnapshot.available_watts := optional_float (dict_get "available_watts" p);
        PowerSnapshot.consumed_watts := optional_float (dict_get "consumed_watts" p);
        PowerSnapshot.poe_enabled := optional_bool (dict_get "poe_enabled" p) |})
  end.

Definition device_of (rs : list ParsedRecord) (r : ParsedRecord) : M S DeviceSnapshot.DeviceSnapshot :=
  let p := payload r in
  let device_id := text_of "device_id" p in
  let name := text_of "name" p in
  interfaces <- collect (interface_of device_id) rs ;;
  vlans <- collect (vlan_of device_id) rs ;;
  neighbors <- collect (neighbor_of device_id) rs ;;
  power <- power_of device_id rs ;;
  now <- utc_now ;;
  ret {|
    DeviceSnapshot.device_id := device_id;
    DeviceSnapshot.name := name;
    DeviceSnapshot.captured_at := now;
    DeviceSnapshot.version := SNAPSHOT_SCHEMA_VERSION;
    DeviceSnapshot.manufacturer := optional_text (dict_get "manufacturer" p);
    DeviceSnapshot.model := optional_text (dict_get "model" p);
    DeviceSnapshot.serial_number := optional_text (dict_get "serial_number" p);
    DeviceSnapshot.product_id := optional_text (dict_get "product_id" p);
    DeviceSnapshot.management_ip := optional_text (dict_get "management_ip" p);
    DeviceSnapshot.base_mac := optional_text (dict_get "base_mac" p);
    DeviceSnapshot.software_version := optional_text (dict_get "software_version" p);
    DeviceSnapshot.uptime := optional_text (dict_get "uptime" p);
    DeviceSnapshot.hardware_revision := optional_text (dict_get "hardware_revision" p);
    DeviceSnapshot.platform := optional_text (dict_get "platform" p);
    DeviceSnapshot.stack_members := stack_members_of (dict_get "stack_members" p);
    DeviceSnapshot.interfaces := interfaces;
    DeviceSnapshot.vlans := vlans;
    DeviceSnapshot.mac_table := [];
    DeviceSnapshot.neighbors := neighbors;
    DeviceSnapshot.power := power |}.

(** [NormalizationMapper.to_snapshot]; [fresh] is the identity [uuid4] gives. *)
Definition to_snapshot (fresh : UUID) (result : ParserResult) : M S Live.LiveInventorySnapshot :=
  devices <- map_m (device_of (Parsed.records result))
               (List.filter (of_kind "device") (Parsed.records result)) ;;
  ret {|
    Live.devices := devices;
    Live.snapshot_id := fresh;
    Live.captured_at := Parsed.captured_at result;
    Live.version := SNAPSHOT_SCHEMA_VERSION;
    Live.source := Some (Parsed.source result) |}.

(** ** Validation and rules *)

(** [NormalizationValidator.validate_parsed_result]; instants are aware here. *)
Definition validate_parsed_result (allow_empty_records : bool) (result : ParserResult)
    : M S unit :=
  now <- utc_now ;;
  when (now + timedelta_seconds 1 <? Parsed.captured_at result)
    (raise ParserValidationError "Parser result timestamp cannot be in the future.") ;;;
  when (negb allow_empty_records && is_nil (Parsed.records result))
    (raise ParserValidationError "Parser result must contain at least one record.").

(** [NormalizationValidator.validate_snapshot], its loop with the identities seen. *)
Fixpoint validate_device_ids (seen : list string) (ds : list DeviceSnapshot.DeviceSnapshot)
    : M S unit :=
  match ds with
  | [] => ret tt
  | d :: ds =>
      let device_id := DeviceSnapshot.device_id d in
      when (negb (str_truthy (str_strip device_id)))
        (raise ParserValidationError "Normalized snapshot contains an empty device id.") ;;;
      if mem device_id seen
      then raise ParserValidationError
             ("Normalized snapshot contains duplicate device id: " +:+ device_id)
      else validate_device_ids (device_id :: seen) ds
  end.

Definition validate_snapshot (s : Live.LiveInventorySnapshot) : M S unit :=
  validate_device_ids [] (Live.devices s).

Record NormalizationRule := {
  rule_name : string;
  apply_rule : ParserResult → M S ParserResult;
}.

(** [RuleRegistry.register]. *)
Definition register_rule (r : NormalizationRule) (rules : list (string * NormalizationRule)) :=
  put (rule_name r) r rules.

(** [RuleRegistry.apply_all], with the result as the rules leave it. *)
Fixpoint apply_all (rules : list NormalizationRule) (result : ParserResult)
    : M S (list string * ParserResult) :=
  match rules with
  | [] => ret ([], result)
  | r :: rules =>
      result <- apply_rule r result ;;
      rest <- apply_all rules result ;;
      ret (rule_name r :: fst rest, snd rest)
  end.

Record NormalizationEngine := {
  allow_empty_records : bool;
  rule_registry : list (string * NormalizationRule);
}.

Record NormalizationResult := {
  snapshot : Live.LiveInventorySnapshot;
  applied_rules : list string;
  normalized_at : datetime;
}.

(** [NormalizationEngine.normalize]. *)
Definition normalize_result (self : NormalizationEngine) (fresh : UUID) (result : ParserResult)
    : M S NormalizationResult :=
  validate_parsed_result (allow_empty_records self) result ;;;
  applied <- apply_all (values (rule_registry self)) result ;;
  s <- to_snapshot fresh (snd applied) ;;
  validate_snapshot s ;;;
  now <- utc_now ;;
  ret {| snapshot := s; applied_rules := fst applied; normalized_at := now |}.
End Mapper.
Arguments NormalizationRule S : clear implicits.
Arguments NormalizationEngine S : clear implicits.
