(* ===== verification/NormalizationTheorems.v ===== *)
(** * Correctness of the normalization

    A normalized snapshot passes the integrity validation of snapshots, and
    records are distributed among the devices without loss or repetition. *)

From S2P Require Import Prelude Vocabulary Effects Json Dicts Texts Inventories.
From S2P Require Import Normalization.
#[local] Open Scope Z_scope.

(** ** Stripped texts *)

Lemma str_rstrip_idemp s : str_rstrip (str_rstrip s) = str_rstrip s.
Proof.
  induction s as [|c s IH]; [done|]. cbn. destruct (str_rstrip s) as [|c' t] eqn:E.
  - destruct (is_space c) eqn:Ec; cbn; [done|]. by rewrite Ec.
  - cbn [str_rstrip] in *. by rewrite IH.
Qed.

Lemma str_lstrip_rstrip s : str_lstrip s = s → str_lstrip (str_rstrip s) = str_rstrip s.
Proof.
  destruct s as [|c s]; [done|]. cbn. destruct (is_space c) eqn:Ec; intros H.
  - exfalso. assert (String.length (str_lstrip s) <= String.length s)%nat as Hl.
    { clear. induction s as [|c s IH]; cbn; [lia|]. destruct (is_space c); cbn; lia. }
    rewrite H in Hl. cbn in Hl. lia.
  - destruct (str_rstrip s); cbn; by rewrite Ec.
Qed.

Lemma str_lstrip_idemp s : str_lstrip (str_lstrip s) = str_lstrip s.
Proof.
  induction s as [|c s IH]; [done|]. cbn. destruct (is_space c) eqn:Ec; [done|].
  cbn. by rewrite Ec.
Qed.

Lemma str_strip_idemp s : str_strip (str_strip s) = str_strip s.
Proof.
  unfold str_strip. rewrite (str_lstrip_rstrip (str_lstrip s)) by apply str_lstrip_idemp.
  apply str_rstrip_idemp.
Qed.

(** ** Building the objects *)

Section Mapper.
Context {HF : FloatRepr} {S : Type} {HC : Clock S} {HL : ClockForward S}.
Implicit Types (s : S) (rs : list ParsedRecord).

(** An object made between two states. *)
Definition made {A} s s' (make : datetime → A) (x : A) : Prop :=
  ∃ t, instant s <= t <= instant s' ∧ x = make t.

Lemma made_weaken {A} s0 s s' s1 (make : datetime → A) x :
  forward s0 s → forward s' s1 → made s s' make x → made s0 s1 make x.
Proof. unfold forward. intros ?? (t & ? & ->). exists t. split; [lia|done]. Qed.

Lemma collect_spec {A} (build : ParsedRecord → option (datetime → A)) rs s :
  ∃ xs s', collect build rs s = (Ret xs, s') ∧ forward s s' ∧
    Forall2 (made s s') (omap build rs) xs.
Proof.
  revert s. induction rs as [|r rs IH]; intros s; cbn.
  { exists [], s. split_and!; [done|unfold forward; lia|constructor]. }
  destruct (build r) as [make|]; [|apply IH].
  unfold bind at 1. cbn. destruct (IH (tick s)) as (xs & s' & E & Hf & H).
  rewrite (bind_Ret _ _ _ _ _ E). exists (make (instant s) :: xs), s'.
  pose proof (tick_forward s) as Ht. unfold forward in *. split_and!; [done|lia|].
  constructor; [exists (instant s); split; [lia|done]|].
  eapply Forall2_impl; [exact H|]. intros ??. apply made_weaken; unfold forward; lia.
Qed.

(** What a device snapshot is made of. *)
Record device_made rs s s' (r : ParsedRecord) (d : DeviceSnapshot.DeviceSnapshot) : Prop := {
  dm_id : DeviceSnapshot.device_id d = text_of "device_id" (payload r);
  dm_name : DeviceSnapshot.name d = text_of "name" (payload r);
  dm_time : instant s <= DeviceSnapshot.captured_at d <= instant s';
  dm_interfaces : Forall2 (made s s') (omap (interface_of (DeviceSnapshot.device_id d)) rs)
    (DeviceSnapshot.interfaces d);
  dm_vlans : Forall2 (made s s') (omap (vlan_of (DeviceSnapshot.device_id d)) rs)
    (DeviceSnapshot.vlans d);
  dm_macs : DeviceSnapshot.mac_table d = [];
  dm_neighbors : Forall2 (made s s') (omap (neighbor_of (DeviceSnapshot.device_id d)) rs)
    (DeviceSnapshot.neighbors d);
  dm_power : ∀ p, DeviceSnapshot.power d = Some p →
    PowerSnapshot.device_id p = DeviceSnapshot.device_id d ∧
    instant s <= PowerSnapshot.captured_at p <= instant s';
}.

Lemma device_made_weaken rs s0 s s' s1 r d :
  forward s0 s → forward s' s1 → device_made rs s s' r d → device_made rs s0 s1 r d.
Proof.
  intros H0 H1 [????? ? ? Hp]. split; try done;
    try (eapply Forall2_impl; [eassumption|]; intros ??; by apply made_weaken);
    unfold forward in *; [lia|].
  intros p Hq. destruct (Hp p Hq). split; [done|lia].
Qed.

Lemma power_of_spec device_id rs s :
  ∃ o s', power_of device_id rs s = (Ret o, s') ∧ forward s s' ∧
    ∀ p, o = Some p → PowerSnapshot.device_id p = device_id ∧
      instant s <= PowerSnapshot.captured_at p <= instant s'.
Proof.
  unfold power_of. destruct (List.find _ rs).
  - eexists _, (tick s). split; [reflexivity|]. pose proof (tick_forward s).
    unfold forward. split; [done|]. intros ? [= <-]. cbn. split; [done|lia].
  - exists None, s. unfold forward. split_and!; [done|lia|done].
Qed.

Lemma device_of_spec rs r s :
  ∃ d s', device_of rs r s = (Ret d, s') ∧ forward s s' ∧ device_made rs s s' r d.
Proof.
  unfold device_of.
  destruct (collect_spec (interface_of (text_of "device_id" (payload r))) rs s)
    as (il & s1 & EF1 & F1 & Hi). rewrite (bind_Ret _ _ _ _ _ EF1). cbv beta.
  destruct (collect_spec (vlan_of (text_of "device_id" (payload r))) rs s1)
    as (vs & s2 & EF2 & F2 & Hv). rewrite (bind_Ret _ _ _ _ _ EF2). cbv beta.
  destruct (collect_spec (neighbor_of (text_of "device_id" (payload r))) rs s2)
    as (ns & s3 & EF3 & F3 & Hn). rewrite (bind_Ret _ _ _ _ _ EF3). cbv beta.
  destruct (power_of_spec (text_of "device_id" (payload r)) rs s3)
    as (p & s4 & EF4 & F4 & Hp). rewrite (bind_Ret _ _ _ _ _ EF4). cbv beta.
  unfold bind. cbn. eexists _, (tick s4). split; [reflexivity|].
  pose proof (tick_forward s4). unfold forward in *. split; [lia|].
  split; cbn; try done; try lia;
    try (eapply Forall2_impl; [eassumption|]; intros ??; apply made_weaken; unfold forward; lia).
  intros q Hq. destruct (Hp q Hq). split; [done|lia].
Qed.

Lemma to_snapshot_spec fresh res s :
  ∃ n s', to_snapshot fresh res s = (Ret n, s') ∧ forward s s' ∧
    Live.captured_at n = Parsed.captured_at res ∧ Live.version n = SNAPSHOT_SCHEMA_VERSION ∧
    Live.source n = Some (Parsed.source res) ∧
    Forall2 (device_made (Parsed.records res) s s')
      (List.filter (of_kind "device") (Parsed.records res)) (Live.devices n).
Proof.
  unfold to_snapshot.
  assert (∀ l s, ∃ ds s', map_m (device_of (Parsed.records res)) l s = (Ret ds, s') ∧
    forward s s' ∧ Forall2 (device_made (Parsed.records res) s s') l ds) as H.
  { clear s. intros l. induction l as [|r l IH]; intros s; cbn.
    { exists [], s. split_and!; [done|unfold forward; lia|constructor]. }
    destruct (device_of_spec (Parsed.records res) r s) as (d & s1 & EF1 & F1 & Hd).
    rewrite (bind_Ret _ _ _ _ _ EF1). cbv beta.
    destruct (IH s1) as (ds & s2 & EF2 & F2 & Hds). rewrite (bind_Ret _ _ _ _ _ EF2). exists (d :: ds), s2.
    split_and!; [done|by etrans|]. constructor.
    - eapply device_made_weaken; [reflexivity|exact F2|done].
    - eapply Forall2_impl; [exact Hds|]. intros ??. by apply device_made_weaken. }
  destruct (H (List.filter (of_kind "device") (Parsed.records res)) s)
    as (ds & s' & E & F & Hds). rewrite (bind_Ret _ _ _ _ _ E).
  eexists _, s'. split; [reflexivity|]. done.
Qed.

(** ** Validation *)

Lemma checks_device_ids seen ds :
  checks (S := S) (validate_device_ids seen ds)
    (Forall (λ d, identified (DeviceSnapshot.device_id d)) ds ∧
     NoDup (map DeviceSnapshot.device_id ds) ∧
     Forall (λ d, DeviceSnapshot.device_id d ∉ seen) ds).
Proof.
  revert seen. induction ds as [|d ds IH]; intros seen; cbn [validate_device_ids map].
  { eapply checks_iff; [apply checks_ret|]. split; [|done]. intros _. repeat constructor. }
  eapply checks_iff.
  { apply checks_bind; [apply checks_when|]. apply checks_if; [apply checks_raise|apply IH]. }
  unfold identified at 1. rewrite NoDup_cons, !Forall_cons, negb_false_iff.
  destruct (mem _ seen) eqn:E; pybool; [tauto|].
  rewrite Forall_not_seen.
  unfold identified. tauto.
Qed.

Lemma raises_only_device_ids seen ds :
  raises_only (S := S) ParserValidationError (validate_device_ids seen ds).
Proof.
  revert seen. induction ds as [|d ds IH]; intros seen; cbn [validate_device_ids];
    raises_only_auto. apply IH.
Qed.

(** ** Rules *)

(** A rule changes the payloads and the metadata in place, and nothing else. *)
Record in_place (res res' : ParserResult) : Prop := {
  ip_source : Parsed.source res' = Parsed.source res;
  ip_time : Parsed.captured_at res' = Parsed.captured_at res;
  ip_kinds : map kind (Parsed.records res') = map kind (Parsed.records res);
}.

#[export] Instance in_place_preorder : PreOrder in_place.
Proof. split; [by split|]. intros ??? [] []. split; congruence. Qed.

Definition well_behaved (r : NormalizationRule S) : Prop :=
  ∀ res s, forward s (apply_rule r res s).2 ∧
    ∀ res', (apply_rule r res s).1 = Ret res' → in_place res res'.

(** The exception of a rule. *)
Definition raised_by (rules : list (NormalizationRule S)) (e : exn) : Prop :=
  ∃ r res s, r ∈ rules ∧ (apply_rule r res s).1 = Raise e.

Lemma apply_all_spec rules res s :
  (∀ r, r ∈ rules → well_behaved r) →
  forward s (apply_all rules res s).2 ∧
  match (apply_all rules res s).1 with
  | Ret (names, res') => names = map rule_name rules ∧ in_place res res'
  | Raise e => raised_by rules e
  end.
Proof.
  revert res s. induction rules as [|r rules IH]; intros res s Hr; cbn.
  { unfold forward. split; [lia|]. split; [done|reflexivity]. }
  destruct (Hr r ltac:(set_solver) res s) as [F Hip]. unfold bind at 1 3.
  destruct (apply_rule r res s) as [[res1|e] s1] eqn:E; cbn in F, Hip.
  - specialize (Hip res1 eq_refl). destruct (IH res1 s1 ltac:(set_solver)) as [F1 H1].
    unfold bind. destruct (apply_all rules res1 s1) as [[[names res']|e] s2]; cbn in *.
    + destruct H1 as [-> ?]. split; [by etrans|]. split; [done|by etrans].
    + split; [by etrans|]. destruct H1 as (r' & res' & s' & ? & ?).
      exists r', res', s'. split; [set_solver|done].
  - split; [done|]. exists r, res, s. split; [set_solver|]. by rewrite E.
Qed.

(** ** The engine *)

(** What an answer of the engine comes from. *)
Record normalized (self : NormalizationEngine S) res s s' (n : NormalizationResult)
    (res' : ParserResult) : Prop := {
  nm_rules : applied_rules n = map rule_name (values (rule_registry self));
  nm_applied : ∃ s1, (apply_all (values (rule_registry self)) res s1).1 = Ret (applied_rules n, res');
  nm_in_place : in_place res res';
  nm_time : Live.captured_at (snapshot n) = Parsed.captured_at res;
  nm_observed : Parsed.captured_at res <= instant s' + timedelta_seconds 1;
  nm_nonempty : allow_empty_records self = false → Parsed.records res ≠ [];
  nm_version : Live.version (snapshot n) = SNAPSHOT_SCHEMA_VERSION;
  nm_source : Live.source (snapshot n) = Some (Parsed.source res);
  nm_devices : Forall2 (device_made (Parsed.records res') s s')
    (List.filter (of_kind "device") (Parsed.records res')) (Live.devices (snapshot n));
  nm_identified : Forall (λ d, identified (DeviceSnapshot.device_id d)) (Live.devices (snapshot n));
  nm_distinct : NoDup (map DeviceSnapshot.device_id (Live.devices (snapshot n)));
}.

Lemma normalize_result_spec self fresh res s :
  (∀ r, r ∈ values (rule_registry self) → well_behaved r) →
  match normalize_result self fresh res s with
  | (Ret n, s') => ∃ res', normalized self res s s' n res'
  | (Raise e, _) => isinstance e ParserValidationError = true ∨ raised_by (values (rule_registry self)) e
  end.
Proof.
  intros Hrules. unfold normalize_result, validate_parsed_result.
  unfold bind at 1. unfold bind at 1. cbn. pose proof (tick_forward s) as Ht.
  destruct (_ <? _) eqn:Eobs; cbn; [by left|].
  destruct (negb _ && _) eqn:Ene; cbn; [by left|].
  destruct (apply_all_spec (values (rule_registry self)) res (tick s) Hrules) as [F1 H1].
  unfold bind at 1. destruct (apply_all _ _ _) as [[[names res']|e] s1] eqn:E1; cbn in *; [|by right].
  destruct H1 as [-> Hip].
  destruct (to_snapshot_spec fresh res' s1) as (n & s2 & E2 & F2 & Hc & Hv & Hs & Hd).
  rewrite (bind_Ret _ _ _ _ _ E2). unfold bind at 1, validate_snapshot.
  destruct (checks_device_ids [] (Live.devices n) s2) as [Hsame Hids].
  destruct (validate_device_ids [] (Live.devices n) s2) as [[[]|e] s3] eqn:E3; cbn in *; subst s3.
  - destruct (proj1 Hids eq_refl) as (Hid & Hnd & _). exists res'. pose proof (tick_forward s2) as Ht2.
    destruct Hip. unfold forward in *. apply Z.ltb_ge in Eobs. split; cbn; try congruence; try done.
    + exists (tick s). by rewrite E1.
    + lia.
    + intros Ha Hr. rewrite Ha, Hr in Ene. done.
    + eapply Forall2_impl; [exact Hd|]. intros r d.
      apply device_made_weaken; unfold forward; lia.
  - left. by eapply raises_only_device_ids.
Qed.
End Mapper.

(** ** Normalized snapshots are valid *)

Section Valid.
Context {HF : FloatRepr} {S : Type} {HC : Clock S} {HL : ClockForward S}.
Implicit Types (s : S) (rs : list ParsedRecord).

Lemma Forall2_made {A} (P : A → Prop) s s' ms xs :
  Forall2 (made s s') ms xs →
  (∀ make t, make ∈ ms → instant s <= t <= instant s' → P (make t)) → Forall P xs.
Proof.
  intros H HP. apply Forall_forall. intros x [i Hi]%list_elem_of_lookup.
  destruct (Forall2_lookup_r _ _ _ _ _ H Hi) as (make & Hm & t & Ht & ->).
  apply HP; [by eapply list_elem_of_lookup_2|done].
Qed.

Lemma interface_of_id id r make t :
  interface_of id r = Some make → InterfaceSnapshot.device_id (make t) = id ∧
    InterfaceSnapshot.captured_at (make t) = t.
Proof. unfold interface_of. destruct (_ || _); [done|]. by intros [= <-]. Qed.

Lemma vlan_of_time id r make t : vlan_of id r = Some make → VLANSnapshot.captured_at (make t) = t.
Proof.
  unfold vlan_of. destruct (negb _); [done|]. destruct (optional_int _); [|done].
  destruct (negb _); [done|]. by intros [= <-].
Qed.

Lemma neighbor_of_ids id r make t :
  neighbor_of id r = Some make → NeighborSnapshot.local_device_id (make t) = id ∧
    identified (NeighborSnapshot.remote_device_id (make t)) ∧
    NeighborSnapshot.captured_at (make t) = t.
Proof.
  unfold neighbor_of. destruct (negb (belongs _ _ _ _)); [done|]. destruct (_ || _) eqn:E; [done|].
  intros [= <-]. cbn. split_and!; try done. pybool. unfold identified, text_of, text_or.
  rewrite str_strip_idemp. apply E.
Qed.

Lemma device_made_valid rs s s' r d now :
  device_made rs s s' r d → instant s' <= now → identified (DeviceSnapshot.device_id d) →
  device_valid now d.
Proof.
  intros [_ _ Ht Hi Hv Hm Hn Hp] Hnow Hid.
  assert (∀ t, instant s <= t <= instant s' → observed now t) as Hobs.
  { intros t ?. unfold observed. assert (0 <= timedelta_seconds 1) by done. lia. }
  split; [done|by apply Hobs|..].
  - eapply Forall2_made; [exact Hi|]. intros make t (r' & _ & Hr')%list_elem_of_omap ?.
    destruct (interface_of_id _ _ _ t Hr') as [-> ->]. auto.
  - eapply Forall2_made; [exact Hv|]. intros make t (r' & _ & Hr')%list_elem_of_omap ?.
    rewrite (vlan_of_time _ _ _ t Hr'). auto.
  - rewrite Hm. constructor.
  - eapply Forall2_made; [exact Hn|]. intros make t (r' & _ & Hr')%list_elem_of_omap ?.
    destruct (neighbor_of_ids _ _ _ t Hr') as (-> & ? & ->). auto.
  - intros p Hpd. destruct (Hp p Hpd) as [-> ?]. auto.
Qed.

Lemma normalized_valid (self : NormalizationEngine S) res s s' n res' :
  normalized self res s s' n res' →
  validate_snapshot_integrity (instant s') (snapshot n) s' = (Ret tt, s').
Proof.
  intros [Hr _ _ Ht Ho _ Hv Hs Hd Hid Hnd].
  destruct (checks_snapshot (R := S) (instant s') (snapshot n) s') as [Hsame Hok].
  destruct (validate_snapshot_integrity _ _ _) as [o w]. cbn in *. subst w. f_equal.
  apply Hok. split; [done|by rewrite Ht| |done].
  apply Forall_forall. intros d Hin. rewrite Forall_forall in Hid. pose proof (Hid d Hin) as Hidd.
  apply list_elem_of_lookup in Hin as [i Hi].
  destruct (Forall2_lookup_r _ _ _ _ _ Hd Hi) as (r & _ & Hdm).
  by eapply device_made_valid; [exact Hdm|reflexivity|].
Qed.

(** Whatever the rules change in the payloads, a normalized snapshot passes the
    integrity validation of snapshots at the time it is returned; it has the source
    and the time of the parser result, and names the rules in their order.  A
    refusal is a parser validation error or the exception of a rule. *)
Theorem normalize_valid (self : NormalizationEngine S) fresh res s
    (Hrules : ∀ r, r ∈ values (rule_registry self) → well_behaved r) :
  match normalize_result self fresh res s with
  | (Ret n, s') =>
      validate_snapshot_integrity (instant s') (snapshot n) s' = (Ret tt, s') ∧
      Live.source (snapshot n) = Some (Parsed.source res) ∧
      Live.captured_at (snapshot n) = Parsed.captured_at res ∧
      applied_rules n = map rule_name (values (rule_registry self))
  | (Raise e, _) =>
      isinstance e ParserValidationError = true ∨ raised_by (values (rule_registry self)) e
  end.
Proof.
  pose proof (normalize_result_spec self fresh res s Hrules) as H.
  destruct (normalize_result _ _ _ _) as [[n|e] s']; [|done].
  destruct H as (res' & Hn). split_and!; try apply Hn. by eapply normalized_valid.
Qed.
End Valid.

(** ** Records find their devices *)

Section Placement.
Context {HF : FloatRepr} {S : Type} {HC : Clock S} {HL : ClockForward S}.

Lemma split_by_owner {K} (ids : list string) (l : list (string * K)) :
  NoDup ids →
  flat_map (λ i, List.filter (λ k, fst k ≟ i) l) ids ≡ₚ List.filter (λ k, mem (fst k) ids) l.
Proof.
  induction ids as [|i ids IH]; intros Hnd; cbn.
  { induction l as [|k l IHl]; cbn; [done|]. destruct (mem _ []) eqn:E; pybool; [by apply elem_of_nil in E|done]. }
  apply NoDup_cons in Hnd as [Hi Hnd]. rewrite (IH Hnd). clear IH Hnd.
  induction l as [|k l IHl]; cbn; [done|].
  assert (mem (fst k) (i :: ids) = (fst k ≟ i) || mem (fst k) ids) as ->.
  { apply eq_true_iff_eq. pybool. by rewrite elem_of_cons. }
  destruct (fst k ≟ i) eqn:E, (mem (fst k) ids) eqn:Em; pybool; subst; try done; cbn.
  - by constructor.
  - rewrite <-IHl. by rewrite Permutation_middle.
Qed.

Lemma placed {A D K} (build : string → ParsedRecord → option (datetime → A))
    (entry : ParsedRecord → option (string * K)) (key : A → string * K)
    (id : D → string) (parts : D → list A) (s s' : S) rs ds :
  (∀ i r, build i r = None → ∀ k, entry r = Some k → fst k ≠ i) →
  (∀ i r make t, build i r = Some make → entry r = Some (key (make t)) ∧ fst (key (make t)) = i) →
  (∀ d, d ∈ ds → Forall2 (made s s') (omap (build (id d)) rs) (parts d)) →
  NoDup (map id ds) →
  flat_map (λ d, map key (parts d)) ds ≡ₚ
    List.filter (λ k, mem (fst k) (map id ds)) (omap entry rs).
Proof.
  intros Hnone Hsome Hds Hnd. rewrite <-(split_by_owner _ _ Hnd).
  assert (∀ d, d ∈ ds → map key (parts d) = List.filter (λ k, fst k ≟ id d) (omap entry rs)) as H.
  { intros d Hd. specialize (Hds d Hd). revert Hds. generalize (parts d). clear -Hnone Hsome.
    induction rs as [|r rs IH]; intros xs H; cbn in *.
    { by apply Forall2_nil_inv_l in H as ->. }
    destruct (build (id d) r) as [make|] eqn:E.
    - apply Forall2_cons_inv_l in H as (x & xs' & (t & _ & ->) & H & ->). cbn.
      destruct (Hsome _ _ _ t E) as [-> Hf]. cbn. rewrite Hf, eqb_refl. f_equal. by apply IH.
    - destruct (entry r) as [k|] eqn:Ek; [|by apply IH]. cbn.
      rewrite (proj2 (eqb_false _ _) (Hnone _ _ E _ Ek)). by apply IH. }
  clear -H. induction ds as [|d ds IH]; cbn; [done|].
  rewrite (H d) by set_solver. f_equiv. apply IH. set_solver.
Qed.

(** The device a record names and what identifies the object it describes, for the
    records that are not skipped. *)
Definition interface_entry (r : ParsedRecord) : option (string * string) :=
  let name := text_of "name" (payload r) in
  if of_kind "interface" r && str_truthy name
  then Some (text_of "device_id" (payload r), name) else None.

Definition vlan_entry (r : ParsedRecord) : option (string * (Z * string)) :=
  let name := text_of "name" (payload r) in
  match optional_int (dict_get "vlan_id" (payload r)) with
  | Some vlan_id =>
      if of_kind "vlan" r && str_truthy name
      then Some (text_of "device_id" (payload r), (vlan_id, name)) else None
  | None => None
  end.

Definition neighbor_entry (r : ParsedRecord) : option (string * (string * string)) :=
  let local_interface := text_of "local_interface" (payload r) in
  let remote_device_id := text_of "remote_device_id" (payload r) in
  if of_kind "neighbor" r && str_truthy local_interface && str_truthy remote_device_id
  then Some (text_of "local_device_id" (payload r), (local_interface, remote_device_id)) else None.

(** An object is built from a record exactly when the record has an entry. *)
Ltac by_entries :=
  clear; intros i r; intros; unfold interface_of, interface_entry, vlan_of, vlan_entry,
    neighbor_of, neighbor_entry, belongs in *;
  repeat case_match; pybool; destruct_and?; destruct_or?; simplify_eq; try done; cbn; congruence.

(** C31. A normalized snapshot has the devices of the device records as the rules
    leave them, in order; and the interfaces, VLANs and neighbors of its devices are, each once, those that
    the records describe for a device of the snapshot. *)
Theorem normalize_places_records (self : NormalizationEngine S) fresh res s
    (Hrules : ∀ r, r ∈ values (rule_registry self) → well_behaved r) :
  match (normalize_result self fresh res s).1 with
  | Raise _ => True
  | Ret n => ∃ s1 res',
      (apply_all (values (rule_registry self)) res s1).1 = Ret (applied_rules n, res') ∧
      in_place res res' ∧
      let rs := Parsed.records res' in
      let ds := Live.devices (snapshot n) in
      let ids := map DeviceSnapshot.device_id ds in
      ids = map (λ r, text_of "device_id" (payload r)) (List.filter (of_kind "device") rs) ∧
      flat_map (λ d, map (λ i, (InterfaceSnapshot.device_id i, InterfaceSnapshot.name i))
                  (DeviceSnapshot.interfaces d)) ds ≡ₚ
        List.filter (λ k, mem (fst k) ids) (omap interface_entry rs) ∧
      flat_map (λ d, map (λ v, (from_option id "" (VLANSnapshot.device_id v),
                                (VLANSnapshot.vlan_id v, VLANSnapshot.name v)))
                  (DeviceSnapshot.vlans d)) ds ≡ₚ
        List.filter (λ k, mem (fst k) ids) (omap vlan_entry rs) ∧
      flat_map (λ d, map (λ x, (NeighborSnapshot.local_device_id x,
                                (NeighborSnapshot.local_interface x,
                                 NeighborSnapshot.remote_device_id x)))
                  (DeviceSnapshot.neighbors d)) ds ≡ₚ
        List.filter (λ k, mem (fst k) ids) (omap neighbor_entry rs)
  end.
Proof.
  pose proof (normalize_result_spec self fresh res s Hrules) as H.
  destruct (normalize_result _ _ _ _) as [[n|e] s']; [|done]. cbn [fst].
  destruct H as (res' & [_ [s1 Ha] Hip _ _ _ _ _ Hd _ Hnd]). exists s1, res'.
  split; [done|]. split; [done|]. cbv zeta.
  assert (∀ d, d ∈ Live.devices (snapshot n) →
    ∃ r, device_made (Parsed.records res') s s' r d) as Hm.
  { intros d [i Hi]%list_elem_of_lookup.
    destruct (Forall2_lookup_r _ _ _ _ _ Hd Hi) as (r & _ & ?). eauto. }
  split_and!.
  - revert Hd. generalize (List.filter (of_kind "device") (Parsed.records res')).
    generalize (Live.devices (snapshot n)). clear. intros ds rs H.
    induction H as [|r d rs ds [Hid] H IH]; cbn; [done|]. by rewrite Hid, IH.
  - eapply (placed interface_of); [by_entries..|intros d [? []]%Hm; done|done].
  - eapply (placed vlan_of); [by_entries..|intros d [? []]%Hm; done|done].
  - eapply (placed neighbor_of); [by_entries..|intros d [? []]%Hm; done|done].
Qed.
End Placement.

(** ** An instance *)

Section Demo.
#[local] Instance demo_repr : FloatRepr := λ _, "".
#[local] Instance demo_clock : Clock Z := {| instant := id; tick := Z.succ |}.
#[local] Instance demo_forward : ClockForward Z.
Proof. intros s. cbn. lia. Qed.

Definition demo_rule : NormalizationRule Z := {|
  rule_name := "platform";
  apply_rule res := ret {|
    Parsed.parser_name := Parsed.parser_name res;
    Parsed.source := Parsed.source res;
    Parsed.input_format := Parsed.input_format res;
    Parsed.records := map (λ r, {| kind := kind r;
      payload := dict_setdefault "platform" (JStr "ios") (payload r) |}) (Parsed.records res);
    Parsed.captured_at := Parsed.captured_at res;
    Parsed.metadata := Parsed.metadata res |};
|}.

Lemma demo_rule_well_behaved : well_behaved demo_rule.
Proof.
  intros res s. split; [reflexivity|]. intros res' [= <-]. split; cbn; [done..|].
  by rewrite map_map.
Qed.

Definition demo_engine : NormalizationEngine Z := {|
  allow_empty_records := false; rule_registry := [("platform", demo_rule)] |}.

Definition demo_record (k : string) (fields : list (string * string)) : ParsedRecord := {|
  kind := k; payload := map (λ '(f, v), (f, JStr v)) fields |}.

Definition demo_result : ParserResult := {|
  Parsed.parser_name := "p"; Parsed.source := "10.0.0.1"; Parsed.input_format := JSON;
  Parsed.records := [
    demo_record "device" [("device_id", " sw1 "); ("name", "core")];
    demo_record "device" [("device_id", "sw2"); ("name", "edge")];
    demo_record "interface" [("device_id", "sw1"); ("name", "Gi0/1")];
    demo_record "interface" [("device_id", "sw2"); ("name", "Gi0/1")];
    demo_record "interface" [("device_id", "sw1"); ("name", " ")];
    demo_record "interface" [("device_id", "gone"); ("name", "Gi0/3")];
    demo_record "neighbor" [("local_device_id", "sw1"); ("local_interface", "Gi0/1");
                            ("remote_device_id", "sw2")]];
  Parsed.captured_at := 5; Parsed.metadata := [];
|}.

Lemma demo_rules r : r ∈ values (rule_registry demo_engine) → well_behaved r.
Proof. cbn. intros ->%list_elem_of_singleton. apply demo_rule_well_behaved. Qed.

(** Two devices and one neighbor, at instants that are not in the future. *)
Lemma normalize_valid_witness :
  match normalize_result demo_engine 1%N demo_result 9 with
  | (Ret n, s') =>
      validate_snapshot_integrity (instant s') (snapshot n) s' = (Ret tt, s') ∧
      applied_rules n = ["platform"] ∧
      map DeviceSnapshot.platform (Live.devices (snapshot n)) = [Some "ios"; Some "ios"]
  | (Raise _, _) => False
  end.
Proof.
  pose proof (normalize_valid demo_engine 1%N demo_result 9 demo_rules) as H.
  vm_compute in H |- *. destruct H as (H & _ & _ & _). split_and!; done.
Defined.

(** Two interface records are skipped: one has no name, one no device. *)
Lemma normalize_places_records_witness :
  match (normalize_result demo_engine 1%N demo_result 9).1 with
  | Ret n =>
      flat_map (λ d, map (λ i, (InterfaceSnapshot.device_id i, InterfaceSnapshot.name i))
        (DeviceSnapshot.interfaces d)) (Live.devices (snapshot n)) ≡ₚ
      [("sw1", "Gi0/1"); ("sw2", "Gi0/1")]
  | Raise _ => False
  end.
Proof.
  pose proof (normalize_places_records demo_engine 1%N demo_result 9 demo_rules) as H.
  destruct (normalize_result demo_engine 1%N demo_result 9).1 as [n|e] eqn:E;
    [|vm_compute in E; discriminate].
  destruct H as (s1 & res' & Ha & _ & Hids & H & _).
  injection Ha as _ <-. rewrite Hids in H. exact H.
Defined.

(** An identity or a name that is [None] becomes the text of [None]. *)
Lemma none_is_a_name : text_of "device_id" [("device_id", JNull)] = "None".
Proof. reflexivity. Qed.
End Demo.
