(* ===== verification/PriorityQueue.v ===== *)
(** * The priority queues of jobs ([collectors/runtime/job.py], [jobs/queue.py])

    Both queues put [(priority, next(sequence), job)] into an [asyncio.PriorityQueue],
    whose [get] takes out the least entry; an entry is a tuple, compared by
    priority and then by sequence number.  The entries are kept here in the order
    they were put. *)

From S2P Require Import Prelude Texts.
#[local] Open Scope Z_scope.

Record PriorityQueue (A : Type) := { entries : list (Z * Z * A); sequence : Z }.
Arguments entries {A} _.
Arguments sequence {A} _.

Section Queue.
Context {A : Type}.
Implicit Types (q : PriorityQueue A) (e : Z * Z * A).

Definition priority_of e : Z := fst (fst e).
Definition seq_of e : Z := snd (fst e).

(** [e < e'] on tuples: the sequence numbers are distinct, so that the jobs are
    never compared. *)
Definition entry_ltb e e' : bool :=
  (priority_of e <? priority_of e') ||
  ((priority_of e =? priority_of e') && (seq_of e <? seq_of e')).

Definition empty_queue : PriorityQueue A := {| entries := []; sequence := 0 |}.

Definition put_job (priority : Z) (job : A) q : PriorityQueue A := {|
  entries := entries q ++ [(priority, sequence q, job)];
  sequence := sequence q + 1 |}.

(** The least entry, and the others. *)
Fixpoint take_least (es : list (Z * Z * A)) : option ((Z * Z * A) * list (Z * Z * A)) :=
  match es with
  | [] => None
  | e :: es =>
      match take_least es with
      | None => Some (e, [])
      | Some (m, rest) => if entry_ltb m e then Some (m, e :: rest) else Some (e, es)
      end
  end.

(** [get]; [None] is a caller that waits. *)
Definition get_job q : option (A * PriorityQueue A) :=
  match take_least (entries q) with
  | None => None
  | Some ((_, _, job), rest) => Some (job, {| entries := rest; sequence := sequence q |})
  end.

Definition empty q : bool := is_nil (entries q).
Definition qsize q : Z := Z.of_nat (length (entries q)).

(** The jobs that repeated [get]s answer, [fuel] at most. *)
Fixpoint drain (fuel : nat) q : list A :=
  match fuel with
  | O => []
  | S fuel => match get_job q with Some (job, q') => job :: drain fuel q' | None => [] end
  end.

(** ** Invariant: entries are in the order of their numbers *)

Definition seq_sorted (es : list (Z * Z * A)) : Prop :=
  ∀ i j e e', es !! i = Some e → es !! j = Some e' → (i < j)%nat → seq_of e < seq_of e'.

Record queue_wf q : Prop := {
  qw_sorted : seq_sorted (entries q);
  qw_below : Forall (λ e, seq_of e < sequence q) (entries q);
}.

Lemma seq_sorted_cons e es :
  seq_sorted (e :: es) ↔ Forall (λ e', seq_of e < seq_of e') es ∧ seq_sorted es.
Proof.
  split.
  - intros H. split.
    + apply Forall_lookup. intros j e' Hj. eapply (H O (S j)); [done|exact Hj|lia].
    + intros i j a b Hi Hj ?. eapply (H (S i) (S j)); [exact Hi|exact Hj|lia].
  - intros [Hf Hs] i j a b Hi Hj Hij. destruct i as [|i], j as [|j]; cbn in *; try lia.
    + injection Hi as ->. rewrite Forall_lookup in Hf. eauto.
    + eapply (Hs i j); [exact Hi|exact Hj|lia].
Qed.

(** The entry taken is the first of those with the least priority, and the others
    keep their order. *)
Lemma take_least_spec es m rest :
  seq_sorted es → take_least es = Some (m, rest) →
  ∃ before after, es = before ++ m :: after ∧ rest = before ++ after ∧
    Forall (λ e, priority_of m < priority_of e) before ∧
    Forall (λ e, priority_of m <= priority_of e) after.
Proof.
  revert m rest. induction es as [|e es IH]; intros m rest Hs; [done|]. cbn.
  apply seq_sorted_cons in Hs as [He Hs].
  destruct (take_least es) as [[m' rest']|] eqn:E.
  - destruct (IH _ _ Hs eq_refl) as (b & a & -> & -> & Hb & Ha).
    assert (seq_of e < seq_of m') as Hlt.
    { rewrite Forall_app, Forall_cons in He. tauto. }
    unfold entry_ltb. destruct (_ || _) eqn:Eb; intros [= <- <-].
    + exists (e :: b), a. split_and!; [done..| |done]. constructor; [|done].
      pybool. destruct Eb as [?|[_ Hc]]; lia.
    + exists [], (b ++ m' :: a). split_and!; [done..|constructor|].
      assert (priority_of e <= priority_of m').
      { pybool. destruct Eb as [? Eb]. lia. }
      rewrite Forall_app, Forall_cons. split_and!; [|done|].
      * eapply Forall_impl; [exact Hb|]. cbn. lia.
      * eapply Forall_impl; [exact Ha|]. cbn. lia.
  - intros [= <- <-]. exists [], es. split_and!; [done| |constructor|].
    all: destruct es as [|e' es]; [done|]; cbn in E; destruct (take_least es) as [[]|];
      [destruct (entry_ltb _ _)|]; done.
Qed.

Lemma seq_sorted_remove b m a : seq_sorted (b ++ m :: a) → seq_sorted (b ++ a).
Proof.
  induction b as [|e b IH]; cbn.
  - intros H. by apply seq_sorted_cons in H as [_ ?].
  - rewrite !seq_sorted_cons, !Forall_app, Forall_cons. naive_solver.
Qed.

Lemma seq_sorted_snoc es e :
  seq_sorted es → Forall (λ e', seq_of e' < seq_of e) es → seq_sorted (es ++ [e]).
Proof.
  induction es as [|x es IH]; cbn; intros Hs Hf.
  - apply seq_sorted_cons. split; [constructor|]. by intros [] j ??.
  - apply seq_sorted_cons in Hs as [??]. apply Forall_cons in Hf as [??]. apply seq_sorted_cons.
    split; [|by apply IH]. apply Forall_app. split; [done|by constructor].
Qed.

Lemma empty_queue_wf : queue_wf empty_queue.
Proof. split; [|constructor]. by intros [] j ??. Qed.

Lemma put_job_wf p job q : queue_wf q → queue_wf (put_job p job q).
Proof.
  intros [Hs Hb]. split; cbn.
  - apply seq_sorted_snoc; done.
  - apply Forall_app. split; [|constructor; [cbn; lia|constructor]].
    eapply Forall_impl; [exact Hb|]. cbn. lia.
Qed.

(** What [get] does to a well-formed queue. *)
Lemma get_job_spec q job q' :
  queue_wf q → get_job q = Some (job, q') →
  queue_wf q' ∧ ∃ before after p s,
    entries q = before ++ (p, s, job) :: after ∧ entries q' = before ++ after ∧
    sequence q' = sequence q ∧
    Forall (λ e, p < priority_of e) before ∧ Forall (λ e, p <= priority_of e) after.
Proof.
  intros [Hs Hb]. unfold get_job. destruct (take_least _) as [[[[p s] j] rest]|] eqn:E; [|done].
  intros [= -> <-]. destruct (take_least_spec _ _ _ Hs E) as (b & a & He & -> & H1 & H2).
  split; [|by exists b, a, p, s]. rewrite He in *. split; cbn; [by eapply seq_sorted_remove|].
  rewrite Forall_app, Forall_cons in Hb. apply Forall_app. tauto.
Qed.

Lemma get_job_None q : get_job q = None ↔ entries q = [].
Proof.
  unfold get_job. destruct (entries q) as [|e es]; [done|]. split; [|done]. cbn.
  destruct (take_least es) as [[[[??]?]?]|]; [destruct (entry_ltb _ e)|]; try done;
    by destruct e as [[??]?].
Qed.
End Queue.

(** ** Draining a queue is a stable sort *)

Section Drain.
Context {A : Type}.
Implicit Types (xs : list (Z * A)).

Definition by_priority (x y : Z * A) : bool := fst x <=? fst y.

(** Priorities and jobs of the entries. *)
Definition contents (es : list (Z * Z * A)) : list (Z * A) :=
  map (λ e, (priority_of e, snd e)) es.

Lemma sort_first b x a :
  Forall (λ y, fst x < fst y) b → Forall (λ y, fst x <= fst y) a →
  stable_sort by_priority (b ++ x :: a) = x :: stable_sort by_priority (b ++ a).
Proof.
  intros Hb Ha. assert (stable_sort by_priority (x :: a) = x :: stable_sort by_priority a) as E.
  { cbn. fold (stable_sort by_priority a). pose proof (stable_sort_perm by_priority a) as Hp.
    destruct (stable_sort by_priority a) as [|y ys]; cbn; [done|].
    unfold by_priority. destruct (fst x <=? fst y) eqn:El; [done|].
    rewrite <-Hp, Forall_cons in Ha. apply Z.leb_gt in El. lia. }
  induction Hb as [|y b Hy Hb IH]; [exact E|]. cbn [app stable_sort fold_right].
  fold (stable_sort by_priority (b ++ x :: a)). fold (stable_sort by_priority (b ++ a)).
  rewrite IH. cbn [insert_stable]. unfold by_priority at 1.
  by replace (fst y <=? fst x) with false by (symmetry; apply Z.leb_gt; lia).
Qed.

(** Whatever has been put and taken before, draining a queue answers every job in
    it once, in the order of a stable sort by priority: a lower number first, and
    among equals the one put first. *)
Theorem drain_sorted (q : PriorityQueue A) n
    (Hq : queue_wf q) (Hn : (length (entries q) <= n)%nat) :
  drain n q = map snd (stable_sort by_priority (contents (entries q))).
Proof.
  revert q Hq Hn. induction n as [|n IH]; intros q Hq Hn.
  - destruct (entries q); [done|cbn in Hn; lia].
  - cbn [drain]. destruct (get_job q) as [[job q']|] eqn:E.
    + destruct (get_job_spec _ _ _ Hq E) as (Hq' & b & a & p & s & He & He' & _ & Hb & Ha).
      rewrite He in Hn. rewrite length_app in Hn. cbn in Hn.
      rewrite IH; [|done|rewrite He', length_app; lia].
      rewrite He, He'. unfold contents. rewrite !map_app. cbn [map].
      rewrite sort_first; [done|..]; apply Forall_map; eapply Forall_impl; [exact Hb|cbn; lia|exact Ha|cbn; lia].
    + by apply get_job_None in E as ->.
Qed.
End Drain.

(** Jobs put in with priorities 1, 0, 1 and 0. *)
Lemma drain_sorted_witness :
  let q := put_job 0 "d" (put_job 1 "c" (put_job 0 "b" (put_job 1 "a" empty_queue))) in
  queue_wf q ∧ drain 4 q = ["b"; "d"; "a"; "c"].
Proof.
  intros q. assert (queue_wf q) as H by (repeat apply put_job_wf; apply empty_queue_wf).
  split; [exact H|]. rewrite (drain_sorted q 4 H (le_n 4)). reflexivity.
Defined.
