(* ===== verification/CollectorRuntime.v ===== *)
(** * The collector runtime ([collectors/runtime/], [collectors/execution/])

    Jobs, their queue and state machine, and the executor that runs a collector
    with a timeout and retries.  Collectors, parsers, the snapshot store and the
    event loop's timers are interfaces: computations on the world of the transport
    manager, whose outside holds the job being executed and the metrics. *)

From Stdlib Require Import Qminmax.
From S2P Require Import Prelude Vocabulary Effects Json Dicts Inventories Normalization.
From S2P Require Import PriorityQueue Resilience TransportManager Execution.
#[local] Open Scope Z_scope.

(** ** Models ([collectors/execution/]) *)

Inductive CollectorExecutionStatus :=
  PENDING | QUEUED | RUNNING | RETRYING | SUCCEEDED | FAILED | CANCELLED | TIMED_OUT.

#[export] Instance CollectorExecutionStatus_eq_dec : EqDecision CollectorExecutionStatus.
Proof. solve_decision. Defined.

Module Progress.
Record CollectorExecutionProgress := {
  total_steps : Z;
  completed_steps : Z;
  current_step : string;
  message : option string;
  updated_at : datetime;
}.

Definition initial_progress (now : datetime) : CollectorExecutionProgress := {|
  total_steps := 4; completed_steps := 0; current_step := "pending"; message := None;
  updated_at := now |}.

Definition percent_complete (p : CollectorExecutionProgress) : float :=
  if total_steps p <=? 0 then 0%Q
  else Qmin 100 (inject_Z (completed_steps p) / inject_Z (total_steps p) * 100)%Q.

Definition advance_progress (step : string) (msg : option string) (now : datetime)
    (p : CollectorExecutionProgress) : CollectorExecutionProgress := {|
  total_steps := total_steps p;
  completed_steps := Z.min (total_steps p) (completed_steps p + 1);
  current_step := step; message := msg; updated_at := now |}.
End Progress.
Abbreviation CollectorExecutionProgress := Progress.CollectorExecutionProgress.

Module State.
Record CollectorExecutionState := {
  status : CollectorExecutionStatus;
  attempts : Z;
  progress : CollectorExecutionProgress;
  started_at : option datetime;
  finished_at : option datetime;
  error_message : option string;
  cancelled_at : option datetime;
}.

Definition eta (s : CollectorExecutionState) : CollectorExecutionState := {|
  status := status s; attempts := attempts s; progress := progress s;
  started_at := started_at s; finished_at := finished_at s;
  error_message := error_message s; cancelled_at := cancelled_at s |}.

Definition set_status v s : CollectorExecutionState := ltac:(record_with eta status s v).
Definition set_attempts v s : CollectorExecutionState := ltac:(record_with eta attempts s v).
Definition set_progress v s : CollectorExecutionState := ltac:(record_with eta progress s v).
Definition set_started_at v s : CollectorExecutionState := ltac:(record_with eta started_at s v).
Definition set_finished_at v s : CollectorExecutionState := ltac:(record_with eta finished_at s v).
Definition set_error_message v s : CollectorExecutionState := ltac:(record_with eta error_message s v).
Definition set_cancelled_at v s : CollectorExecutionState := ltac:(record_with eta cancelled_at s v).

Definition initial (now : datetime) : CollectorExecutionState := {|
  status := PENDING; attempts := 0; progress := Progress.initial_progress now; started_at := None;
  finished_at := None; error_message := None; cancelled_at := None |}.
End State.
Abbreviation CollectorExecutionState := State.CollectorExecutionState.

(** [DiscoveryTarget], without the credential references, which nothing here reads. *)
Module Target.
Record DiscoveryTarget := {
  identifier : string;
  address : string;
  tenant_id : option string;
  vendor : option string;
  platform : option string;
  preferred_transport : option TransportCapability;
  allowed_fallback_transports : list TransportCapability;
  metadata : dict;
  capabilities : list CollectorCapability;
}.
End Target.
Abbreviation DiscoveryTarget := Target.DiscoveryTarget.

Module RuntimeContext.
Record CollectorRuntimeContext := {
  target : DiscoveryTarget;
  required_capabilities : list CollectorCapability;
  preferred_collector_name : option string;
  preferred_transport_name : option string;
  parser_name : option string;
  max_attempts : Z;
  timeout_seconds : option float;
  retry_delay_seconds : float;
  metadata : dict;
  run_id : UUID;
  correlation_id : option string;
  created_at : datetime;
}.
End RuntimeContext.
Abbreviation CollectorRuntimeContext := RuntimeContext.CollectorRuntimeContext.

(** [CollectorContext] of [collectors/context.py]. *)
Module Given.
Record CollectorContext := {
  target : DiscoveryTarget;
  capabilities : list CollectorCapability;
  run_id : UUID;
  discovered_at : datetime;
  metadata : dict;
}.
End Given.

Module CollectorJob.
Record CollectorJob := {
  context : CollectorRuntimeContext;
  priority : Z;
  id : UUID;
  state : CollectorExecutionState;
  created_at : datetime;
  (* [cancellation_event.is_set()] *)
  is_cancelled : bool;
}.

Definition eta (j : CollectorJob) : CollectorJob := {|
  context := context j; priority := priority j; id := id j; state := state j;
  created_at := created_at j; is_cancelled := is_cancelled j |}.

Definition set_state v j : CollectorJob := ltac:(record_with eta state j v).
Definition set_is_cancelled v j : CollectorJob := ltac:(record_with eta is_cancelled j v).
End CollectorJob.
Abbreviation CollectorJob := CollectorJob.CollectorJob.

Module RuntimeMetrics.
Record CollectorRuntimeMetrics := {
  submitted : Z;
  started : Z;
  succeeded : Z;
  failed : Z;
  cancelled : Z;
  retried : Z;
  timed_out : Z;
  last_started_at : option datetime;
  last_finished_at : option datetime;
  total_duration_seconds : float;
  updated_at : datetime;
}.

Definition eta (m : CollectorRuntimeMetrics) : CollectorRuntimeMetrics := {|
  submitted := submitted m; started := started m; succeeded := succeeded m; failed := failed m;
  cancelled := cancelled m; retried := retried m; timed_out := timed_out m;
  last_started_at := last_started_at m; last_finished_at := last_finished_at m;
  total_duration_seconds := total_duration_seconds m; updated_at := updated_at m |}.

Definition set_submitted v m : CollectorRuntimeMetrics := ltac:(record_with eta submitted m v).
Definition set_started v m : CollectorRuntimeMetrics := ltac:(record_with eta started m v).
Definition set_succeeded v m : CollectorRuntimeMetrics := ltac:(record_with eta succeeded m v).
Definition set_failed v m : CollectorRuntimeMetrics := ltac:(record_with eta failed m v).
Definition set_cancelled v m : CollectorRuntimeMetrics := ltac:(record_with eta cancelled m v).
Definition set_retried v m : CollectorRuntimeMetrics := ltac:(record_with eta retried m v).
Definition set_timed_out v m : CollectorRuntimeMetrics := ltac:(record_with eta timed_out m v).
Definition set_last_started_at v m : CollectorRuntimeMetrics :=
  ltac:(record_with eta last_started_at m v).
Definition set_last_finished_at v m : CollectorRuntimeMetrics :=
  ltac:(record_with eta last_finished_at m v).
Definition set_total_duration_seconds v m : CollectorRuntimeMetrics :=
  ltac:(record_with eta total_duration_seconds m v).
Definition set_updated_at v m : CollectorRuntimeMetrics := ltac:(record_with eta updated_at m v).

Definition success_rate (m : CollectorRuntimeMetrics) : float :=
  let finished := succeeded m + failed m + cancelled m + timed_out m in
  if finished <=? 0 then 0%Q else (inject_Z (succeeded m) / inject_Z finished)%Q.
End RuntimeMetrics.
Abbreviation CollectorRuntimeMetrics := RuntimeMetrics.CollectorRuntimeMetrics.

(** [CollectorExecutionResult]; the fields nothing sets keep their defaults. *)
Module ExecutionResult.
Record CollectorExecutionResult := {
  job_id : UUID;
  collector_name : string;
  target : DiscoveryTarget;
  status : CollectorExecutionStatus;
  snapshot : option Live.LiveInventorySnapshot;
  transport_name : option string;
  parser_name : option string;
  attempts : Z;
  metadata : dict;
  started_at : datetime;
  finished_at : datetime;
}.

(** [max(0.0, (finished_at - started_at).total_seconds())]. *)
Definition duration_seconds (r : CollectorExecutionResult) : float :=
  Qmax 0 (inject_Z (finished_at r - started_at r) / 1000000)%Q.
End ExecutionResult.
Abbreviation CollectorExecutionResult := ExecutionResult.CollectorExecutionResult.

(** ** The world of the runtime *)

(** The job being executed, the runtime's metrics and queue, and everything else. *)
Record Runtime (R : Type) := {
  job : CollectorJob;
  metrics : CollectorRuntimeMetrics;
  queue : PriorityQueue CollectorJob;
  (* [CollectorRuntimeLifecycle.started] *)
  started : bool;
  rest : R;
}.
Arguments job {R} _.
Arguments metrics {R} _.
Arguments queue {R} _.
Arguments started {R} _.
Arguments rest {R} _.

Section Runtime.
Context {R : Type}.

Definition eta_runtime (r : Runtime R) : Runtime R := {|
  job := job r; metrics := metrics r; queue := queue r; started := started r;
  rest := rest r |}.

Definition set_job v (r : Runtime R) : Runtime R := ltac:(record_with eta_runtime (@job R) r v).
Definition set_metrics v (r : Runtime R) : Runtime R :=
  ltac:(record_with eta_runtime (@metrics R) r v).
Definition set_queue v (r : Runtime R) : Runtime R :=
  ltac:(record_with eta_runtime (@queue R) r v).
Definition set_started v (r : Runtime R) : Runtime R :=
  ltac:(record_with eta_runtime (@started R) r v).
Definition set_rest v (r : Runtime R) : Runtime R := ltac:(record_with eta_runtime (@rest R) r v).

Abbreviation W := (World (Runtime R)).

Definition set_outside v (w : W) : W := {|
  breaker := breaker w; connections := connections w; clock := clock w; ticks := ticks w;
  outside := v |}.

Definition the_job (w : W) : CollectorJob := job (outside w).
Definition the_metrics (w : W) : CollectorRuntimeMetrics := metrics (outside w).

(** The world's clock, for the components that only need a clock. *)
#[export] Instance world_clock : Clock W := {|
  instant w := clock w (ticks w);
  tick w := set_ticks (Datatypes.S (ticks w)) w |}.

Definition update_job (f : CollectorJob → CollectorJob) : M W unit :=
  modify (λ w, set_outside (set_job (f (the_job w)) (outside w)) w).
Definition update_state (f : CollectorExecutionState → CollectorExecutionState) : M W unit :=
  update_job (λ j, CollectorJob.set_state (f (CollectorJob.state j)) j).
Definition update_metrics (f : CollectorRuntimeMetrics → CollectorRuntimeMetrics) : M W unit :=
  modify (λ w, set_outside (set_metrics (f (the_metrics w)) (outside w)) w).

(** *** [CollectorExecutionState] *)

Definition set_status (s : CollectorExecutionStatus) : M W unit := update_state (State.set_status s).

Definition advance (step : string) (message : option string) : M W unit :=
  t <- now ;;
  update_state (λ s, State.set_progress (Progress.advance_progress step message t (State.progress s)) s).

Definition increment_attempts : M W unit :=
  update_state (λ s, State.set_attempts (State.attempts s + 1) s).

Definition mark_queued : M W unit := set_status QUEUED.

Definition mark_running : M W unit :=
  t <- now ;;
  update_state (State.set_started_at (Some t)) ;;;
  set_status RUNNING ;;;
  advance "running" (Some "Collector execution started.").

Definition mark_retrying (message : option string) : M W unit :=
  set_status RETRYING ;;; advance "retrying" message.

Definition mark_succeeded : M W unit :=
  t <- now ;;
  update_state (State.set_finished_at (Some t)) ;;;
  set_status SUCCEEDED ;;;
  advance "completed" (Some "Collector execution completed.").

Definition mark_failed (message : string) : M W unit :=
  t <- now ;;
  update_state (State.set_finished_at (Some t)) ;;;
  update_state (State.set_error_message (Some message)) ;;;
  set_status FAILED ;;;
  advance "failed" (Some message).

Definition mark_cancelled (message : option string) : M W unit :=
  t <- now ;;
  update_state (State.set_finished_at (Some t)) ;;;
  update_state (State.set_cancelled_at (Some t)) ;;;
  update_state (State.set_error_message message) ;;;
  set_status CANCELLED ;;;
  advance "cancelled" message.

Definition mark_timed_out (message : option string) : M W unit :=
  t <- now ;;
  update_state (State.set_finished_at (Some t)) ;;;
  update_state (State.set_error_message message) ;;;
  set_status TIMED_OUT ;;;
  advance "timed_out" message.

(** [CollectorJob.cancel]. *)
Definition cancel (reason : option string) : M W unit :=
  update_job (CollectorJob.set_is_cancelled true) ;;; mark_cancelled reason.

(** *** [CollectorRuntimeMetrics] *)

Definition record_submitted : M W unit :=
  update_metrics (λ m, RuntimeMetrics.set_submitted (RuntimeMetrics.submitted m + 1) m) ;;;
  t <- now ;; update_metrics (RuntimeMetrics.set_updated_at t).

Definition record_started : M W unit :=
  update_metrics (λ m, RuntimeMetrics.set_started (RuntimeMetrics.started m + 1) m) ;;;
  t <- now ;;
  update_metrics (λ m, RuntimeMetrics.set_updated_at t (RuntimeMetrics.set_last_started_at (Some t) m)).

(** [last_finished_at] and [updated_at]. *)
Definition stamp_finished : M W unit :=
  t <- now ;;
  update_metrics (λ m,
    RuntimeMetrics.set_updated_at t (RuntimeMetrics.set_last_finished_at (Some t) m)).

Definition record_succeeded (duration_seconds : float) : M W unit :=
  update_metrics (λ m, RuntimeMetrics.set_succeeded (RuntimeMetrics.succeeded m + 1) m) ;;;
  update_metrics (λ m, RuntimeMetrics.set_total_duration_seconds
    (RuntimeMetrics.total_duration_seconds m + duration_seconds)%Q m) ;;;
  stamp_finished.

Definition record_failed : M W unit :=
  update_metrics (λ m, RuntimeMetrics.set_failed (RuntimeMetrics.failed m + 1) m) ;;;
  stamp_finished.

Definition record_cancelled : M W unit :=
  update_metrics (λ m, RuntimeMetrics.set_cancelled (RuntimeMetrics.cancelled m + 1) m) ;;;
  stamp_finished.

Definition record_retry : M W unit :=
  update_metrics (λ m, RuntimeMetrics.set_retried (RuntimeMetrics.retried m + 1) m) ;;;
  t <- now ;; update_metrics (RuntimeMetrics.set_updated_at t).

Definition record_timed_out : M W unit :=
  update_metrics (λ m, RuntimeMetrics.set_timed_out (RuntimeMetrics.timed_out m + 1) m) ;;;
  stamp_finished.
End Runtime.
Abbreviation RuntimeWorld R := (World (Runtime R)).

(** ** The executor ([collectors/runtime/executor.py]) *)

(** [BaseCollector] as the runtime uses it. *)
Module Collector.
Record BaseCollector (S : Type) := {
  name : string;
  capabilities : list CollectorCapability;
  health_check : Given.CollectorContext → M S unit;
  collect : Given.CollectorContext → M S dict;
}.
Arguments name {S} _.
Arguments capabilities {S} _.
Arguments health_check {S} _ _.
Arguments collect {S} _ _.
End Collector.
Abbreviation BaseCollector := Collector.BaseCollector.

(** The event loop: [asyncio.sleep], and the state in which the timer of
    [asyncio.wait_for] interrupts a computation started in a state, when it fires
    before the computation ends. *)
Record Timers (S : Type) := { asleep : float → M S unit; fires : float → S → option S }.
Arguments asleep {S} _ _.
Arguments fires {S} _ _ _.

(** [asyncio.wait_for(m, timeout)]. *)
Definition wait_for {S A} (timers : Timers S) (timeout : float) (m : M S A) : M S A := λ s,
  match fires timers timeout s with
  | Some s' => (Raise (Exn TimeoutError ""), s')
  | None => m s
  end.

Section Executor.
Context {HF : FloatRepr} {R Model : Type}.
Abbreviation W := (RuntimeWorld R).

Record CollectorExecutor := {
  collector_registry : list (string * BaseCollector W);
  transport_manager : TransportManager (R := Runtime R);
  parser_pipeline : ParserRegistry W;
  normalization_engine : NormalizationEngine W;
  (* [SnapshotMapper.to_model], the validation of a Pydantic model *)
  to_model : Live.LiveInventorySnapshot → outcome Model;
  (* [SnapshotRepository.save] *)
  save : Model → M W unit;
  timers : Timers W;
  uuid4 : M W UUID;
}.

Context (self : CollectorExecutor).

(** [CollectorRegistry.get] and [CollectorRegistry.select]. *)
Definition get_collector (name : string) : outcome (BaseCollector W) :=
  match get name (collector_registry self) with
  | Some c => Ret c
  | None => raise_ KeyError ("Unknown collector: " +:+ name)
  end.

Definition select_collectors (caps : list CollectorCapability) : list (BaseCollector W) :=
  List.filter (λ c, forallb (λ cap, mem cap (Collector.capabilities c)) caps)
    (values (collector_registry self)).

(** [_resolve_collector]. *)
Definition resolve_collector (ctx : CollectorRuntimeContext) : M W (BaseCollector W) :=
  match RuntimeContext.preferred_collector_name ctx with
  | Some name =>
      try_except (of_outcome (get_collector name)) (λ e,
        if isinstance e KeyError
        then raise CollectorNotFoundError ("Unknown collector: " +:+ name)
        else reraise e)
  | None =>
      match select_collectors (RuntimeContext.required_capabilities ctx) with
      | [] => raise CollectorNotFoundError "No collector matched the requested capabilities."
      | c :: _ => ret c
      end
  end.

(** [_collector_transport_capabilities]: the transports with the value of one of the
    collector's capabilities. *)
Definition collector_transport_capabilities (c : BaseCollector W) : list TransportCapability :=
  List.filter (λ t, existsb (λ cap, value t ≟ value cap) (Collector.capabilities c)) members.

(** [_resolve_transport]. *)
Definition resolve_transport (c : BaseCollector W) (ctx : CollectorRuntimeContext)
    : M W (option string * list TransportCapability) :=
  let caps := collector_transport_capabilities c in
  match RuntimeContext.preferred_transport_name ctx with
  | Some name =>
      transport <- try_except (resolve (transport_manager self) name) (λ e,
        if isinstance e KeyError
        then raise TransportSelectionError ("Unknown transport: " +:+ name)
        else reraise e) ;;
      if negb (forallb (λ cap, mem cap (TransportManager.capabilities transport)) caps)
      then raise TransportSelectionError
             "Preferred transport does not satisfy collector requirements."
      else ret (Some (TransportManager.name transport), TransportManager.capabilities transport)
  | None =>
      if is_nil caps then ret (None, [])
      else
        match select (transport_manager self) caps with
        | [] => raise TransportSelectionError
                  "No transport matched the collector capability requirements."
        | t :: _ => ret (Some (TransportManager.name t), TransportManager.capabilities t)
        end
  end.

(** [CollectorRuntimeContext.build_collector_context]. *)
Definition build_collector_context (ctx : CollectorRuntimeContext) (c : BaseCollector W)
    (transport_name : option string) (caps : list TransportCapability) : Given.CollectorContext :=
  let set k (v : option json) d := match v with Some v => dict_set k v d | None => d end in
  {| Given.target := RuntimeContext.target ctx;
     Given.capabilities := Collector.capabilities c;
     Given.run_id := RuntimeContext.run_id ctx;
     Given.discovered_at := RuntimeContext.created_at ctx;
     Given.metadata :=
       RuntimeContext.metadata ctx
       |> set "transport_name" (JStr <$> transport_name)
       |> set "transport_capabilities"
            (if is_nil caps then None else Some (JList (map (λ cap, JStr (value cap)) caps)))
       |> set "parser_name" (JStr <$> RuntimeContext.parser_name ctx)
       |> set "run_id" (Some (JStr (uuid_str (RuntimeContext.run_id ctx))))
       |> set "correlation_id" (JStr <$> RuntimeContext.correlation_id ctx) |}.

(** [process_collector_payload]: what was parsed, what was normalized, and the model. *)
Definition process_collector_payload (source : string) (parser_name : option string)
    (run_id : UUID) (metadata raw_payload : dict)
    : M W (ParserResult * NormalizationResult * Model) :=
  parsed <- pipeline_parse (parser_pipeline self)
    {| ParserContext.source := source; ParserContext.input_format := JSON;
       ParserContext.parser_name := parser_name; ParserContext.run_id := run_id;
       ParserContext.metadata := metadata |} (JDict raw_payload) ;;
  fresh <- uuid4 self ;;
  normalized <- normalize_result (normalization_engine self) fresh parsed ;;
  model <- of_outcome (to_model self (snapshot normalized)) ;;
  ret (parsed, normalized, model).

(** [_run_once]. *)
Definition run_once (collector : BaseCollector W) (transport_name : option string)
    (caps : list TransportCapability) (started_at : datetime) : M W CollectorExecutionResult :=
  ctx <- gets (CollectorJob.context ∘ the_job) ;;
  let given := build_collector_context ctx collector transport_name caps in
  let target := RuntimeContext.target ctx in
  match transport_name with
  | Some name =>
      open_session (transport_manager self) name
        {| target_identifier := Target.identifier target;
           target_address := Target.address target;
           target_metadata := Target.metadata target; credential_reference := None |}
        (Some caps) ;;; ret tt
  | None => ret tt
  end ;;;
  Collector.health_check collector given ;;;
  raw_payload <- Collector.collect collector given ;;
  processed <- process_collector_payload (Target.identifier target)
    (RuntimeContext.parser_name ctx) (RuntimeContext.run_id ctx) (RuntimeContext.metadata ctx)
    raw_payload ;;
  let '(parsed, normalized, model) := processed in
  save self model ;;;
  finished_at <- now ;;
  j <- gets the_job ;;
  ret {| ExecutionResult.job_id := CollectorJob.id j;
         ExecutionResult.collector_name := Collector.name collector;
         ExecutionResult.target := target;
         ExecutionResult.status := SUCCEEDED;
         ExecutionResult.snapshot := Some (snapshot normalized);
         ExecutionResult.transport_name := transport_name;
         ExecutionResult.parser_name := Some (Parsed.parser_name parsed);
         ExecutionResult.attempts := State.attempts (CollectorJob.state j);
         ExecutionResult.metadata := RuntimeContext.metadata ctx;
         ExecutionResult.started_at := started_at;
         ExecutionResult.finished_at := finished_at |}.

(** [_sleep]. *)
Definition sleep (delay_seconds : float) : M W unit :=
  when (negb (Qle_bool delay_seconds 0)) (asleep (timers self) delay_seconds).

(** One attempt, under the timeout of the context. *)
Definition attempt_once (ctx : CollectorRuntimeContext) (collector : BaseCollector W)
    (transport_name : option string) (caps : list TransportCapability)
    : M W CollectorExecutionResult :=
  increment_attempts ;;;
  mark_running ;;;
  record_started ;;;
  started_at <- now ;;
  match RuntimeContext.timeout_seconds ctx with
  | None => run_once collector transport_name caps started_at
  | Some t => wait_for (timers self) t (run_once collector transport_name caps started_at)
  end.

(** The [except] clauses, in order; [again] is the rest of the loop, if any. *)
Definition on_exception (ctx : CollectorRuntimeContext) (again : option (M W CollectorExecutionResult))
    (exc : exn) : M W CollectorExecutionResult :=
  if isinstance exc CancelledError then
    cancel (Some "Collector execution cancelled.") ;;;
    record_cancelled ;;;
    raise CollectorExecutionCancelledError "Collector execution cancelled."
  else if isinstance exc CollectorExecutionCancelledError then
    mark_cancelled (Some "Collector execution cancelled.") ;;;
    record_cancelled ;;;
    reraise exc
  else if isinstance exc TimeoutError then
    mark_timed_out (Some (exn_str exc)) ;;;
    record_timed_out ;;;
    match again with
    | Some again =>
        mark_retrying (Some "Retrying after timeout.") ;;;
        record_retry ;;;
        sleep (RuntimeContext.retry_delay_seconds ctx) ;;;
        again
    | None => raise CollectorExecutionTimeoutError "Collector execution timed out."
    end
  else if isinstance exc CollectorExecutionError then reraise exc
  else if isinstance exc Exception_ then
    match again with
    | Some again =>
        mark_retrying (Some (exn_str exc)) ;;;
        record_retry ;;;
        sleep (RuntimeContext.retry_delay_seconds ctx) ;;;
        again
    | None =>
        mark_failed (exn_str exc) ;;;
        record_failed ;;;
        raise CollectorRetryExhaustedError "Collector execution retries were exhausted."
    end
  else reraise exc.

(** The loop, with the number of attempts left after the present one. *)
Fixpoint attempts_loop (ctx : CollectorRuntimeContext) (collector : BaseCollector W)
    (transport_name : option string) (caps : list TransportCapability) (more : nat)
    : M W CollectorExecutionResult :=
  r <- catching (attempt_once ctx collector transport_name caps) ;;
  match r with
  | Ret result =>
      mark_succeeded ;;;
      record_succeeded (ExecutionResult.duration_seconds result) ;;;
      ret result
  | Raise exc =>
      on_exception ctx
        (match more with
         | O => None
         | Datatypes.S more => Some (attempts_loop ctx collector transport_name caps more)
         end) exc
  end.

(** [max(1, context.max_attempts)] attempts: this many after the first. *)
Definition retries (ctx : CollectorRuntimeContext) : nat :=
  Z.to_nat (Z.max 1 (RuntimeContext.max_attempts ctx) - 1).

(** [execute]. *)
Definition execute : M W CollectorExecutionResult :=
  j <- gets the_job ;;
  if CollectorJob.is_cancelled j
  then raise CollectorExecutionCancelledError "Collector job was cancelled."
  else
    let ctx := CollectorJob.context j in
    collector <- resolve_collector ctx ;;
    transport <- resolve_transport collector ctx ;;
    attempts_loop ctx collector (fst transport) (snd transport) (retries ctx).

(** ** Queue, scheduler, dispatcher and engine *)

(** [CollectorScheduler.schedule]; [fresh] is the identity of the new job. *)
Definition schedule (ctx : CollectorRuntimeContext) (priority : Z) : M W CollectorJob :=
  fresh <- uuid4 self ;;
  updated_at <- now ;;
  created_at <- now ;;
  let j := {| CollectorJob.context := ctx; CollectorJob.priority := priority;
              CollectorJob.id := fresh;
              CollectorJob.state := State.set_status QUEUED (State.initial updated_at);
              CollectorJob.created_at := created_at; CollectorJob.is_cancelled := false |} in
  modify (λ w, set_outside (set_queue (put_job priority j (queue (outside w))) (outside w)) w) ;;;
  ret j.

(** [CollectorRuntimeEngine.submit]. *)
Definition submit (ctx : CollectorRuntimeContext) (priority : Z) : M W CollectorJob :=
  record_submitted ;;; schedule ctx priority.

(** [CollectorRuntimeEngine.run_job]. *)
Definition run_job (j : CollectorJob) : M W CollectorExecutionResult :=
  update_job (λ _, j) ;;; execute.

(** [CollectorDispatcher.run_once]; [None] is a dispatcher that waits for a job. *)
Definition run_next : M W (option CollectorExecutionResult) :=
  q <- gets (λ w, queue (outside w)) ;;
  match get_job q with
  | None => ret None
  | Some (j, q') =>
      modify (λ w, set_outside (set_queue q' (outside w)) w) ;;;
      r <- run_job j ;; ret (Some r)
  end.

(** [CollectorRuntimeLifecycle]: hooks run in the order of their registration, and at
    the end in the reverse order. *)
Record CollectorRuntimeLifecycle := {
  startup_hooks : list (M W unit);
  shutdown_hooks : list (M W unit);
}.

Definition on_startup (hook : M W unit) (l : CollectorRuntimeLifecycle) : CollectorRuntimeLifecycle :=
  {| startup_hooks := startup_hooks l ++ [hook]; shutdown_hooks := shutdown_hooks l |}.
Definition on_shutdown (hook : M W unit) (l : CollectorRuntimeLifecycle) : CollectorRuntimeLifecycle :=
  {| startup_hooks := startup_hooks l; shutdown_hooks := shutdown_hooks l ++ [hook] |}.

Definition note_started (b : bool) : M W unit :=
  modify (λ w, set_outside (set_started b (outside w)) w).

Definition start (l : CollectorRuntimeLifecycle) : M W unit :=
  for_each (startup_hooks l) id ;;; note_started true.
Definition stop (l : CollectorRuntimeLifecycle) : M W unit :=
  for_each (rev (shutdown_hooks l)) id ;;; note_started false.
End Executor.
Arguments CollectorExecutor R Model : clear implicits.
Arguments CollectorRuntimeLifecycle R : clear implicits.
