(* ===== verification/CollectorRuntimeTheorems.v ===== *)
(** * Correctness of the collector runtime

    Every attempt of an execution is counted once, as what it came to; the loop
    ends after at most the attempts the context allows. *)

From S2P Require Import Prelude Vocabulary Effects Json Dicts Texts Inventories.
From S2P Require Import Normalization.
From S2P Require Import PriorityQueue Resilience TransportManager Execution.
From S2P Require Import CollectorRuntime.
#[local] Open Scope Z_scope.

(** ** What is counted *)

Record Counts := {
  c_attempts : Z;
  c_started : Z;
  c_succeeded : Z;
  c_failed : Z;
  c_cancelled : Z;
  c_retried : Z;
  c_timed_out : Z;
}.

(** What an attempt came to. *)
Inductive fate := Succeeds | Cancels | TimesOut | Errors | Passes.

#[export] Instance fate_eq_dec : EqDecision fate.
Proof. solve_decision. Defined.

Definition fate_of {A} (o : outcome A) : fate :=
  match o with
  | Ret _ => Succeeds
  | Raise e =>
      if isinstance e CancelledError || isinstance e CollectorExecutionCancelledError then Cancels
      else if isinstance e TimeoutError then TimesOut
      else if isinstance e CollectorExecutionError then Passes
      else if isinstance e Exception_ then Errors
      else Passes
  end.

Definition retryable (f : fate) : Prop := f = TimesOut ∨ f = Errors.

Definition occurrences (f : fate) (fs : list fate) : Z :=
  Z.of_nat (length (List.filter (λ g, g ≟ f) fs)).

(** The counters after attempts with these fates: each but the last was retried, the
    last too when the pause before the next was interrupted; an error that is not
    retried is a failure. *)
Definition charge (fs : list fate) (interrupted : bool) (c : Counts) : Counts :=
  let n := Z.of_nat (length fs) in {|
  c_attempts := c_attempts c + n;
  c_started := c_started c + n;
  c_succeeded := c_succeeded c + occurrences Succeeds fs;
  c_failed := c_failed c + (if negb interrupted && bool_decide (last fs = Some Errors) then 1 else 0);
  c_cancelled := c_cancelled c + occurrences Cancels fs;
  c_retried := c_retried c + (if interrupted then n else n - 1);
  c_timed_out := c_timed_out c + occurrences TimesOut fs |}.

Section Counting.
Context {R : Type}.
Abbreviation W := (RuntimeWorld R).
Implicit Types w : W.

Definition counts w : Counts := {|
  c_attempts := State.attempts (CollectorJob.state (the_job w));
  c_started := RuntimeMetrics.started (the_metrics w);
  c_succeeded := RuntimeMetrics.succeeded (the_metrics w);
  c_failed := RuntimeMetrics.failed (the_metrics w);
  c_cancelled := RuntimeMetrics.cancelled (the_metrics w);
  c_retried := RuntimeMetrics.retried (the_metrics w);
  c_timed_out := RuntimeMetrics.timed_out (the_metrics w) |}.

Definition status_of w : CollectorExecutionStatus := State.status (CollectorJob.state (the_job w)).

(** What runs meanwhile may cancel the job, and counts nothing. *)
Definition spares w w' : Prop := counts w' = counts w.

#[export] Instance spares_preorder : PreOrder spares.
Proof. split; [done|]. unfold spares. congruence. Qed.

Definition sparing {A} (m : M W A) : Prop := preserves spares m.

End Counting.
Arguments counts {R} w : simpl never.

(** ** Collaborators *)

(** The collaborators of an executor count nothing, and nor does what runs until a
    timer fires. *)
Record well_behaved_services {R Model} {HF : FloatRepr} (self : CollectorExecutor R Model) : Prop := {
  ws_collectors : ∀ c ctx, c ∈ values (collector_registry self) →
    sparing (Collector.health_check c ctx) ∧ sparing (Collector.collect c ctx);
  ws_throttle : sparing (throttle (transport_manager self));
  ws_transports : ∀ t, t ∈ values (registry (transport_manager self)) →
    (∀ ctx, sparing (health_check t ctx)) ∧ (∀ ctx, sparing (create_session t ctx)) ∧
    (∀ s, sparing (open_session_of t s));
  ws_provider : ∀ p ref, credential_provider (transport_manager self) = Some p → sparing (p ref);
  ws_resolver : ∀ p ctx, credential_resolver (transport_manager self) = Some p → sparing (p ctx);
  ws_parsers : ∀ p ctx raw, p ∈ values (parser_pipeline self) →
    sparing (Parser.parse p ctx raw);
  ws_rules : ∀ r res, r ∈ values (rule_registry (normalization_engine self)) → sparing (apply_rule r res);
  ws_save : ∀ m, sparing (save self m);
  ws_uuid4 : sparing (uuid4 self);
  ws_asleep : ∀ t, sparing (asleep (timers self) t);
  ws_fires : ∀ t w w', fires (timers self) t w = Some w' → spares w w';
}.

Section Executor.
Context {HF : FloatRepr} {R Model : Type} (self : CollectorExecutor R Model).
Context (Hself : well_behaved_services self).
Abbreviation W := (RuntimeWorld R).
Implicit Types w : W.

Lemma sparing_now : sparing (R := R) now.
Proof. done. Qed.

Lemma sparing_utc_now : sparing (R := R) utc_now.
Proof. done. Qed.

Lemma sparing_modify (f : W → W) : (∀ w, counts (f w) = counts w) → sparing (modify f).
Proof. intros Hf w. apply Hf. Qed.

Ltac sparing_step :=
  match goal with
  | |- sparing _ => unfold sparing
  | |- preserves spares now => apply sparing_now
  | |- preserves spares utc_now => apply sparing_utc_now
  | |- preserves spares (modify _) => apply sparing_modify; reflexivity
  | |- _ => preserves_step
  end.
Ltac sparing_auto := repeat sparing_step.

Lemma resolve_values n w t w' :
  resolve (transport_manager self) n w = (Ret t, w') → t ∈ values (registry (transport_manager self)).
Proof.
  unfold resolve. destruct (List.find _ _) as [[n' t']|] eqn:E; [|done]. intros [= -> _].
  apply find_some in E as [E _]. apply list_elem_of_In in E. apply list_elem_of_fmap. by exists (n', t).
Qed.

Lemma sparing_prepare n target caps : sparing (prepare_session (transport_manager self) n target caps).
Proof.
  destruct Hself as [_ Ht _ Hp Hr _ _ _ _ _ _].
  unfold prepare_session, resolve, build_context, resolve_credentials. sparing_auto;
    first [apply Ht | by eapply Hp | by eapply Hr].
Qed.

Lemma prepare_values n target caps w t ctx w' :
  prepare_session (transport_manager self) n target caps w = (Ret (t, ctx), w') →
  t ∈ values (registry (transport_manager self)).
Proof.
  unfold prepare_session. intros [(? & w1 & _ & H)|(? & _ & [=])]%bind_inv.
  apply bind_inv in H as [(t' & w2 & Hr & H)|(? & _ & [=])].
  apply bind_inv in H as [(? & ? & _ & [= -> -> _])|(? & _ & [=])]. by eapply resolve_values.
Qed.

Lemma sparing_open_session n target caps : sparing (open_session (transport_manager self) n target caps).
Proof.
  unfold open_session, sparing. do 2 (apply preserves_bind; [apply _|done|intros ?]).
  destruct (allow_request _ _). apply preserves_bind; [apply _|by apply sparing_modify|intros _].
  destruct (negb _); [sparing_auto|].
  apply (preserves_bind_Ret _ (λ tc, tc.1 ∈ values (registry (transport_manager self)))).
  - apply sparing_prepare.
  - intros w [t ctx] w'. apply prepare_values.
  - intros [t ctx] Ht. unfold note_failure, get_or_create. sparing_auto;
      by apply (ws_transports _ Hself t Ht).
Qed.

Lemma sparing_pipeline_parse ctx raw : sparing (pipeline_parse (parser_pipeline self) ctx raw).
Proof.
  unfold pipeline_parse. unfold sparing.
  apply (preserves_bind_Ret _ (λ p, p ∈ values (parser_pipeline self))).
  - sparing_auto.
  - intros w p w' [= H _]. unfold resolve_parser, get_parser in H.
    destruct (ParserContext.parser_name ctx).
    + destruct (get _ _) eqn:E; simplify_eq. by eapply get_values.
    + destruct (select_parsers _ _) as [|p' ps] eqn:E; [done|]. injection H as ->.
      assert (p ∈ p :: ps) as Hp by set_solver. rewrite <-E in Hp.
      apply list_elem_of_In, filter_In in Hp as [Hp _]. by apply list_elem_of_In.
  - intros p Hp. sparing_auto. by apply (ws_parsers _ Hself).
Qed.

Lemma sparing_apply_all rules res :
  (∀ r, r ∈ rules → r ∈ values (rule_registry (normalization_engine self))) → sparing (apply_all rules res).
Proof.
  revert res. induction rules as [|r rules IH]; intros res Hr; cbn; sparing_auto.
  - apply (ws_rules _ Hself). set_solver.
  - apply IH. set_solver.
Qed.

Lemma sparing_collect {A} (build : _ → option (_ → A)) rs : sparing (R := R) (Normalization.collect build rs).
Proof. induction rs as [|r rs IH]; cbn; sparing_auto; done. Qed.

Lemma sparing_device_ids seen ds : sparing (R := R) (validate_device_ids seen ds).
Proof. revert seen. induction ds as [|d ds IH]; intros seen; cbn [validate_device_ids]; sparing_auto; apply IH. Qed.

Lemma sparing_normalize fresh res : sparing (normalize_result (normalization_engine self) fresh res).
Proof.
  unfold normalize_result, validate_parsed_result, to_snapshot, device_of, power_of, validate_snapshot.
  sparing_auto; first [by apply sparing_apply_all | apply sparing_collect | apply sparing_device_ids].
Qed.

Lemma sparing_run_once c n caps t :
  c ∈ values (collector_registry self) → sparing (run_once self c n caps t).
Proof.
  intros Hc. unfold run_once, process_collector_payload.
  sparing_auto; first [apply sparing_open_session | by apply (ws_collectors _ Hself)
    | apply sparing_pipeline_parse | apply (ws_uuid4 _ Hself) | apply sparing_normalize
    | apply (ws_save _ Hself)].
Qed.

(** ** The runtime's own statements *)

Lemma then_ {A} (m : M W unit) (k : M W A) w : (m w).1 = Ret tt → (m ;;; k) w = k (m w).2.
Proof. unfold bind. destruct (m w) as [o w']. by intros [= ->]. Qed.

Lemma now_then {A} (k : datetime → M W A) w : (t <- now ;; k t) w = k (instant w) (tick w).
Proof. done. Qed.

Lemma mark_running_ok w : (mark_running w).1 = Ret tt ∧ counts (mark_running w).2 = counts w.
Proof. done. Qed.

Lemma mark_retrying_ok msg w : (mark_retrying msg w).1 = Ret tt ∧ counts (mark_retrying msg w).2 = counts w.
Proof. done. Qed.

Lemma mark_succeeded_ok w : (mark_succeeded w).1 = Ret tt ∧
  counts (mark_succeeded w).2 = counts w ∧ status_of (mark_succeeded w).2 = SUCCEEDED.
Proof. done. Qed.

Lemma mark_failed_ok msg w : (mark_failed msg w).1 = Ret tt ∧
  counts (mark_failed msg w).2 = counts w ∧ status_of (mark_failed msg w).2 = FAILED.
Proof. done. Qed.

Lemma mark_cancelled_ok msg w : (mark_cancelled msg w).1 = Ret tt ∧
  counts (mark_cancelled msg w).2 = counts w ∧ status_of (mark_cancelled msg w).2 = CANCELLED.
Proof. done. Qed.

Lemma mark_timed_out_ok msg w : (mark_timed_out msg w).1 = Ret tt ∧
  counts (mark_timed_out msg w).2 = counts w ∧ status_of (mark_timed_out msg w).2 = TIMED_OUT.
Proof. done. Qed.

Lemma cancel_ok msg w : (cancel msg w).1 = Ret tt ∧
  counts (cancel msg w).2 = counts w ∧ status_of (cancel msg w).2 = CANCELLED.
Proof. done. Qed.

(** ** One attempt *)

(** The counters when an attempt has started. *)
Definition begun (c : Counts) : Counts := {|
  c_attempts := c_attempts c + 1; c_started := c_started c + 1;
  c_succeeded := c_succeeded c; c_failed := c_failed c; c_cancelled := c_cancelled c;
  c_retried := c_retried c; c_timed_out := c_timed_out c |}.

(** What a computation returns, and the state it returns in. *)
Definition ensures {S A} (m : M S A) (Q : A → S → Prop) : Prop := ∀ s a s', m s = (Ret a, s') → Q a s'.

Lemma ensures_bind {S A B} (m : M S A) (k : A → M S B) Q :
  (∀ a, ensures (k a) Q) → ensures (bind m k) Q.
Proof. intros Hk s b s' [(a & s1 & _ & H)|(? & _ & [=])]%bind_inv. by eapply Hk. Qed.

(** The result names the attempts made. *)
Definition reports (r : CollectorExecutionResult) w : Prop :=
  ExecutionResult.status r = SUCCEEDED ∧ ExecutionResult.attempts r = c_attempts (counts w).

Lemma run_once_reports c n caps t : ensures (run_once self c n caps t) reports.
Proof.
  unfold run_once. do 5 (apply ensures_bind; intros ?). destruct a3 as [[parsed normalized] model].
  apply ensures_bind; intros ?. apply ensures_bind; intros finished.
  intros w r w' [= <- <-]. done.
Qed.

Lemma attempt_once_spec ctx c n caps w :
  c ∈ values (collector_registry self) →
  counts (attempt_once self ctx c n caps w).2 = begun (counts w) ∧
  ensures (attempt_once self ctx c n caps) reports.
Proof.
  intros Hc. assert (∃ t w0, counts w0 = begun (counts w) ∧
    attempt_once self ctx c n caps w =
      match RuntimeContext.timeout_seconds ctx with
      | None => run_once self c n caps t
      | Some d => wait_for (timers self) d (run_once self c n caps t)
      end w0) as (t & w0 & Hw0 & ->).
  { unfold attempt_once. rewrite then_ by done. set (w1 := (increment_attempts w).2).
    destruct (mark_running_ok w1) as [H1 H2]. rewrite then_ by done.
    set (w2 := (mark_running w1).2) in *. rewrite then_ by done. rewrite now_then.
    eexists _, _. split; [|reflexivity].
    change (counts (tick (record_started w2).2)) with
      (Build_Counts (c_attempts (counts w2)) (c_started (counts w2) + 1) (c_succeeded (counts w2))
         (c_failed (counts w2)) (c_cancelled (counts w2)) (c_retried (counts w2)) (c_timed_out (counts w2))).
    by rewrite H2. }
  split.
  - rewrite <-Hw0. destruct (RuntimeContext.timeout_seconds ctx) as [d|].
    + unfold wait_for. destruct (fires _ _ _) eqn:E; [by apply (ws_fires _ Hself) in E|].
      by apply sparing_run_once.
    + by apply sparing_run_once.
  - unfold attempt_once. do 4 (apply ensures_bind; intros ?).
    destruct (RuntimeContext.timeout_seconds ctx) as [d|]; [|apply run_once_reports].
    intros w1 r w2. unfold wait_for. destruct (fires _ _ _); [done|]. apply run_once_reports.
Qed.

(** ** The loop *)

(** How an execution ends whose last attempt came to [final], unless it is
    interrupted in a pause: the result is the attempt's own, a cancellation, a
    timeout or an error becomes the exception that says so, and any other
    exception passes through as it is. *)
Definition ends_as (final : outcome CollectorExecutionResult)
    (o : outcome CollectorExecutionResult) w' : Prop :=
  match fate_of final with
  | Succeeds => o = final ∧ status_of w' = SUCCEEDED ∧ ∃ r, o = Ret r ∧ reports r w'
  | Cancels => status_of w' = CANCELLED ∧
      ∃ e, o = Raise e ∧ isinstance e CollectorExecutionCancelledError = true
  | TimesOut => status_of w' = TIMED_OUT ∧ ∃ e, o = Raise e ∧ exn_cls e = CollectorExecutionTimeoutError
  | Errors => status_of w' = FAILED ∧ ∃ e, o = Raise e ∧ exn_cls e = CollectorRetryExhaustedError
  | Passes => o = final
  end.

Section Loop.
Context (ctx : CollectorRuntimeContext) (c : BaseCollector W) (n : option string)
  (caps : list TransportCapability).

(** The outcomes of the attempts made from a state on, the first in that state and
    each other one when its predecessor has been counted and a retry with it. *)
Inductive made : W → list (outcome CollectorExecutionResult) → Prop :=
  | made_last w o w1 : attempt_once self ctx c n caps w = (o, w1) → made w [o]
  | made_more w o w1 w2 os :
      attempt_once self ctx c n caps w = (o, w1) →
      counts w2 = charge [fate_of o] true (counts w) →
      made w2 os → made w (o :: os).

(** The attempts of a loop that may retry [more] times. *)
Record loop_spec (more : nat) w (o : outcome CollectorExecutionResult) w'
    (earlier : list (outcome CollectorExecutionResult)) (final : outcome CollectorExecutionResult)
    (interrupted : bool) : Prop := {
  ls_made : made w (earlier ++ [final]);
  ls_counts : counts w' = charge (map fate_of (earlier ++ [final])) interrupted (counts w);
  ls_earlier : Forall retryable (map fate_of earlier);
  ls_bound : (length earlier <= more)%nat;
  ls_exhausted : interrupted = false → retryable (fate_of final) → length earlier = more;
  ls_interrupted : interrupted = true →
    retryable (fate_of final) ∧ (length earlier < more)%nat ∧ ∃ e, o = Raise e;
  ls_ends : interrupted = false → ends_as final o w';
}.

(** Another attempt before those of a loop. *)
Lemma loop_spec_retry more f w w0 w1 o w' earlier final interrupted :
  attempt_once self ctx c n caps w = (f, w0) →
  retryable (fate_of f) →
  counts w1 = charge [fate_of f] true (counts w) →
  loop_spec more w1 o w' earlier final interrupted →
  loop_spec (Datatypes.S more) w o w' (f :: earlier) final interrupted.
Proof.
  intros Hf0 Hf Hw1 [Hm Hc He Hb Hx Hi Hends]. split; cbn [app length map]; try done; try lia.
  - by eapply made_more.
  - rewrite Hc, Hw1. unfold charge. rewrite map_app. cbn [map].
    set (es := map fate_of earlier). set (fl := fate_of final).
    assert (last (fate_of f :: es ++ [fl]) = last (es ++ [fl])) as ->.
    { by destruct es. }
    destruct (counts w) as [a st su fa ca re ti]. cbn.
    assert (∀ g, occurrences g (fate_of f :: es ++ [fl]) =
      occurrences g [fate_of f] + occurrences g (es ++ [fl])) as Hocc.
    { intros g. unfold occurrences. cbn. destruct (fate_of f ≟ g); cbn; lia. }
    rewrite !Hocc. destruct Hf as [-> | ->]; f_equal;
      unfold occurrences; cbn; try (destruct interrupted); lia.
  - by constructor.
  - intros H1 H2. rewrite Hx; done.
  - intros H1. destruct (Hi H1) as (? & ? & ?). split_and!; [done|lia|done].
Qed.

(** A loop that makes one attempt. *)
Lemma loop_spec_last more w w1 o w' f interrupted :
  attempt_once self ctx c n caps w = (f, w1) →
  counts w' = charge [fate_of f] interrupted (counts w) →
  (interrupted = false → (retryable (fate_of f) → more = O) ∧ ends_as f o w') →
  (interrupted = true → retryable (fate_of f) ∧ more ≠ O ∧ ∃ e, o = Raise e) →
  loop_spec more w o w' [] f interrupted.
Proof.
  intros Hm Hc Hf Ht. split; cbn; try done; try lia.
  - by eapply made_last.
  - intros H ?. symmetry. by apply Hf.
  - intros H. destruct (Ht H) as (? & ? & ?). split_and!; [done|lia|done].
  - intros H. by apply Hf.
Qed.

(** The pause before another attempt: it is interrupted, or the loop goes on. *)
Lemma retry_spec again more f w w1 w0 :
  attempt_once self ctx c n caps w = (f, w1) →
  retryable (fate_of f) → counts w0 = charge [fate_of f] true (counts w) →
  (∀ w1, ∃ earlier final interrupted,
     loop_spec more w1 (again w1).1 (again w1).2 earlier final interrupted) →
  let run := sleep self (RuntimeContext.retry_delay_seconds ctx) ;;; again in
  ∃ earlier final interrupted,
    loop_spec (Datatypes.S more) w (run w0).1 (run w0).2 earlier final interrupted.
Proof.
  intros Hm Hf Hw0 Hagain. cbv zeta. unfold bind.
  assert (sparing (sleep self (RuntimeContext.retry_delay_seconds ctx))) as Hs.
  { unfold sleep. sparing_auto. apply (ws_asleep _ Hself). }
  specialize (Hs w0). destruct (sleep _ _ _) as [[[]|e] w2]; cbn in Hs.
  - destruct (Hagain w2) as (earlier & final & i & H). exists (f :: earlier), final, i.
    eapply loop_spec_retry; [done|done| |exact H]. by rewrite Hs.
  - exists [], f, true. eapply loop_spec_last; [done|by rewrite <-Hw0|done|]. cbn. intros _.
    split_and!; [done..|]. by exists e.
Qed.

(** The counters a statement changes. *)
Lemma record_ok w :
  (∀ d, counts (record_succeeded d w).2 =
     let 'Build_Counts a b c d e f g := counts w in Build_Counts a b (c + 1) d e f g) ∧
  counts (record_failed w).2 =
    (let 'Build_Counts a b c d e f g := counts w in Build_Counts a b c (d + 1) e f g) ∧
  counts (record_cancelled w).2 =
    (let 'Build_Counts a b c d e f g := counts w in Build_Counts a b c d (e + 1) f g) ∧
  counts (record_retry w).2 =
    (let 'Build_Counts a b c d e f g := counts w in Build_Counts a b c d e (f + 1) g) ∧
  counts (record_timed_out w).2 =
    (let 'Build_Counts a b c d e f g := counts w in Build_Counts a b c d e f (g + 1)).
Proof. done. Qed.

Ltac count :=
  match goal with H : counts ?w = begun (counts ?w0) |- _ =>
    rewrite H; destruct (counts w0); unfold charge
  end;
  repeat match goal with
  | |- context [occurrences ?f ?fs] =>
      let n := eval vm_compute in (occurrences f fs) in change (occurrences f fs) with n
  | |- context [bool_decide ?P] =>
      let b := eval vm_compute in (bool_decide P) in change (bool_decide P) with b
  end; unfold begun; cbn; f_equal; lia.

Lemma on_success more w w1 r d :
  attempt_once self ctx c n caps w = (Ret r, w1) →
  counts w1 = begun (counts w) → reports r w1 →
  let run := mark_succeeded ;;; record_succeeded d ;;; ret r in
  loop_spec more w (run w1).1 (run w1).2 [] (Ret r) false.
Proof.
  intros Hm Hw1 [Hst Hat]. cbv zeta. destruct (mark_succeeded_ok w1) as (H1 & H2 & H3).
  rewrite then_ by done. set (w2 := (mark_succeeded w1).2) in *. rewrite then_ by done.
  destruct (record_ok w2) as [Hr _]. cbn [ret fst snd]. eapply loop_spec_last; [done| |intros _|done].
  - rewrite Hr, H2. cbn [fate_of]. count.
  - split; [by intros [? | ?]|]. split_and!; [done|exact H3|]. exists r. split; [done|]. split; [done|].
    rewrite Hat, Hr, H2. by destruct (counts w1).
Qed.

Ltac fated f :=
  match goal with e : exn |- _ =>
    assert (fate_of (A := CollectorExecutionResult) (Raise e) = f) as Hf;
      [unfold fate_of; repeat match goal with E : isinstance e _ = _ |- _ => rewrite E end; reflexivity|]
  end.

(** What follows an attempt that raised. *)
Lemma on_exception_spec again more e w w1 :
  attempt_once self ctx c n caps w = (Raise e, w1) →
  counts w1 = begun (counts w) →
  match again with
  | None => more = O
  | Some again => ∃ m, more = Datatypes.S m ∧ ∀ w, ∃ earlier final interrupted,
      loop_spec m w (again w).1 (again w).2 earlier final interrupted
  end →
  ∃ earlier final interrupted,
    loop_spec more w (on_exception self ctx again e w1).1 (on_exception self ctx again e w1).2
      earlier final interrupted.
Proof.
  intros Hm Hw1 Hagain. unfold on_exception.
  destruct (isinstance e CancelledError) eqn:E1.
  { fated Cancels. destruct (cancel_ok (Some "Collector execution cancelled.") w1) as (H1 & H2 & H3).
    rewrite then_ by done. set (w2 := (cancel _ w1).2) in *. rewrite then_ by done.
    destruct (record_ok w2) as (_ & _ & Hr & _).
    exists [], (Raise e), false. eapply loop_spec_last; rewrite ?Hf; [done| |intros _|done].
    - cbn [raise fst snd]. rewrite Hr, H2. count.
    - split; [by intros [?|?]|]. unfold ends_as. rewrite Hf. split; [exact H3|]. by eexists. }
  destruct (isinstance e CollectorExecutionCancelledError) eqn:E2.
  { fated Cancels. destruct (mark_cancelled_ok (Some "Collector execution cancelled.") w1) as (H1 & H2 & H3).
    rewrite then_ by done. set (w2 := (mark_cancelled _ w1).2) in *. rewrite then_ by done.
    destruct (record_ok w2) as (_ & _ & Hr & _).
    exists [], (Raise e), false. eapply loop_spec_last; rewrite ?Hf; [done| |intros _|done].
    - cbn [reraise fst snd]. rewrite Hr, H2. count.
    - split; [by intros [?|?]|]. unfold ends_as. rewrite Hf. split; [exact H3|]. by eexists. }
  destruct (isinstance e TimeoutError) eqn:E3.
  { fated TimesOut. destruct (mark_timed_out_ok (Some (exn_str e)) w1) as (H1 & H2 & H3).
    rewrite then_ by done. set (w2 := (mark_timed_out _ w1).2) in *. rewrite then_ by done.
    destruct (record_ok w2) as (_ & _ & _ & _ & Hr). set (w3 := (record_timed_out w2).2) in *.
    destruct again as [again|].
    - destruct Hagain as (m & -> & Hagain).
      destruct (mark_retrying_ok (Some "Retrying after timeout.") w3) as [H4 H5].
      rewrite then_ by done. set (w4 := (mark_retrying _ w3).2) in *. rewrite then_ by done.
      destruct (record_ok w4) as (_ & _ & _ & Hr4 & _).
      eapply retry_spec; [exact Hm|rewrite Hf; by left| |done]. rewrite Hf. rewrite Hr4, H5, Hr, H2. count.
    - subst more. exists [], (Raise e), false. eapply loop_spec_last; rewrite ?Hf; [done| |intros _|done].
      + cbn [raise fst snd]. rewrite Hr, H2. count.
      + split; [done|]. unfold ends_as. rewrite Hf. split; [exact H3|]. by eexists. }
  destruct (isinstance e CollectorExecutionError) eqn:E4.
  { fated Passes. exists [], (Raise e), false. eapply loop_spec_last; rewrite ?Hf; [done| |intros _|done].
    - cbn [reraise fst snd]. count.
    - split; [by intros [?|?]|]. unfold ends_as. by rewrite Hf. }
  destruct (isinstance e Exception_) eqn:E5.
  { fated Errors. destruct again as [again|].
    - destruct Hagain as (m & -> & Hagain).
      destruct (mark_retrying_ok (Some (exn_str e)) w1) as [H4 H5].
      rewrite then_ by done. set (w4 := (mark_retrying _ w1).2) in *. rewrite then_ by done.
      destruct (record_ok w4) as (_ & _ & _ & Hr4 & _).
      eapply retry_spec; [exact Hm|rewrite Hf; by right| |done]. rewrite Hf. rewrite Hr4, H5. count.
    - subst more. destruct (mark_failed_ok (exn_str e) w1) as (H1 & H2 & H3).
      rewrite then_ by done. set (w2 := (mark_failed _ w1).2) in *. rewrite then_ by done.
      destruct (record_ok w2) as (_ & Hr & _).
      exists [], (Raise e), false. eapply loop_spec_last; rewrite ?Hf; [done| |intros _|done].
      + cbn [raise fst snd]. rewrite Hr, H2. count.
      + split; [done|]. unfold ends_as. rewrite Hf. split; [exact H3|]. by eexists. }
  fated Passes.
  exists [], (Raise e), false. eapply loop_spec_last; rewrite ?Hf; [done| |intros _|done].
  - cbn [reraise fst snd]. count.
  - split; [by intros [?|?]|]. unfold ends_as. by rewrite Hf.
Qed.

Lemma attempts_loop_spec more w :
  c ∈ values (collector_registry self) →
  ∃ earlier final interrupted,
    loop_spec more w (attempts_loop self ctx c n caps more w).1
      (attempts_loop self ctx c n caps more w).2 earlier final interrupted.
Proof.
  intros Hc. revert w. induction more as [|more IH]; intros w.
  all: destruct (attempt_once_spec ctx c n caps w Hc) as [Hcnt Hrep].
  all: cbn [attempts_loop]; unfold catching;
    destruct (attempt_once self ctx c n caps w) as [[r|e] w1] eqn:E; cbn in Hcnt;
    (erewrite bind_Ret by (by rewrite E)); cbv beta iota.
  1, 3: exists [], (Ret r), false; eapply on_success; [done|done|by eapply Hrep].
  - by eapply on_exception_spec.
  - eapply on_exception_spec; [done|done|]. by exists more.
Qed.
End Loop.

(** ** Executions *)

Lemma resolve_collector_spec ctx w :
  (resolve_collector self ctx w).2 = w ∧
  match (resolve_collector self ctx w).1 with
  | Ret c => c ∈ values (collector_registry self)
  | Raise e => exn_cls e = CollectorNotFoundError
  end.
Proof.
  unfold resolve_collector, get_collector. destruct (RuntimeContext.preferred_collector_name ctx).
  - unfold try_except, of_outcome. destruct (get _ _) eqn:E; cbn; [|done].
    split; [done|by eapply get_values].
  - destruct (select_collectors _ _) as [|c cs] eqn:E; cbn; [done|]. split; [done|].
    assert (c ∈ c :: cs) as Hc by set_solver. rewrite <-E in Hc. unfold select_collectors in Hc.
    apply list_elem_of_In, filter_In in Hc as [Hc _]. by apply list_elem_of_In.
Qed.

Lemma resolve_transport_spec c ctx w :
  (resolve_transport self c ctx w).2 = w ∧
  ∀ e, (resolve_transport self c ctx w).1 = Raise e →
    exn_cls e = TransportSelectionError ∨ exn_cls e = TransportUnavailableError.
Proof.
  unfold resolve_transport, resolve. destruct (RuntimeContext.preferred_transport_name ctx).
  - unfold bind, try_except. destruct (List.find _ _) as [[n t]|]; cbn.
    + destruct (negb _); cbn; [|done]. split; [done|]. intros e [= <-]. by left.
    + split; [done|]. intros e [= <-]. by right.
  - destruct (is_nil _); cbn; [done|]. destruct (select _ _) as [|t ts]; cbn; [|done].
    split; [done|]. intros e [= <-]. by left.
Qed.

End Executor.

(** ** Instances *)

Section Demo.
#[local] Instance demo_float_repr : FloatRepr := λ _, "".
Abbreviation W := (RuntimeWorld unit).

Definition demo_parser : BaseParser W := {|
  Parser.name := "json"; Parser.supported_formats := [JSON];
  Parser.parse ctx _ := ret {|
    Parsed.parser_name := "json"; Parsed.source := ParserContext.source ctx;
    Parsed.input_format := JSON;
    Parsed.records := [{| kind := "device"; payload := [("device_id", JStr "sw1")] |}];
    Parsed.captured_at := 0; Parsed.metadata := [] |};
|}.

(** One collector, no transports, no rules, timers that never fire. *)
Definition demo_executor (collect : Given.CollectorContext → M W dict)
    : CollectorExecutor unit Live.LiveInventorySnapshot := {|
  collector_registry := [("c", {|
    Collector.name := "c"; Collector.capabilities := [Capability.INTERFACES];
    Collector.health_check _ := ret tt; Collector.collect := collect |})];
  transport_manager := {|
    registry := []; throttle := ret tt; credential_provider := None;
    credential_resolver := None; timeout := default_timeout;
    retry_policy := Resilience.default_policy; close _ := ret tt |};
  parser_pipeline := [("json", demo_parser)];
  normalization_engine := {| allow_empty_records := false; rule_registry := [] |};
  to_model := Ret;
  save _ := ret tt;
  timers := {| asleep _ := ret tt; fires _ _ := None |};
  uuid4 := ret 1%N |}.

Definition demo_context (max_attempts : Z) : CollectorRuntimeContext := {|
  RuntimeContext.target := {|
    Target.identifier := "t"; Target.address := "10.0.0.1"; Target.tenant_id := None;
    Target.vendor := None; Target.platform := None; Target.preferred_transport := None;
    Target.allowed_fallback_transports := []; Target.metadata := []; Target.capabilities := [] |};
  RuntimeContext.required_capabilities := []; RuntimeContext.preferred_collector_name := None;
  RuntimeContext.preferred_transport_name := None; RuntimeContext.parser_name := None;
  RuntimeContext.max_attempts := max_attempts; RuntimeContext.timeout_seconds := None;
  RuntimeContext.retry_delay_seconds := 0%Q; RuntimeContext.metadata := [];
  RuntimeContext.run_id := 7%N; RuntimeContext.correlation_id := None;
  RuntimeContext.created_at := 0 |}.

Definition demo_world (max_attempts : Z) : W := {|
  breaker := new_breaker 5 30%Q 1;
  connections := {| max_size := 4; sessions := ∅ |};
  clock := Z.of_nat; ticks := 0;
  outside := {|
    job := {| CollectorJob.context := demo_context max_attempts; CollectorJob.priority := 0;
              CollectorJob.id := 3%N; CollectorJob.state := State.initial 0;
              CollectorJob.created_at := 0; CollectorJob.is_cancelled := false |};
    metrics := {| RuntimeMetrics.submitted := 1; RuntimeMetrics.started := 0;
                  RuntimeMetrics.succeeded := 0; RuntimeMetrics.failed := 0;
                  RuntimeMetrics.cancelled := 0; RuntimeMetrics.retried := 0;
                  RuntimeMetrics.timed_out := 0; RuntimeMetrics.last_started_at := None;
                  RuntimeMetrics.last_finished_at := None;
                  RuntimeMetrics.total_duration_seconds := 0%Q; RuntimeMetrics.updated_at := 0 |};
    queue := empty_queue; started := true; rest := tt |} |}.

(** A collector that is refused in the first attempt. *)
Definition flaky : Given.CollectorContext → M W dict := λ _ w,
  if State.attempts (CollectorJob.state (the_job w)) =? 1
  then (Raise (Exn ConnectionRefusedError "refused"), w) else (Ret [], w).

Lemma flaky_well_behaved : well_behaved_services (demo_executor flaky).
Proof.
  split; try done; try set_solver.
  - intros c ctx ->%list_elem_of_singleton. split; [done|]. intros w. cbn. unfold flaky.
    by destruct (_ =? 1).
  - intros p ctx raw ->%list_elem_of_singleton. done.
Qed.


Definition state_after (collect : Given.CollectorContext → M W dict) (max_attempts : Z)
    : CollectorExecutionState :=
  CollectorJob.state (the_job (execute (demo_executor collect) (demo_world max_attempts)).2).

(** A job that is cancelled while its collector runs ends as succeeded. *)
Example cancelled_while_running_succeeds :
  let collect _ := cancel (R := unit) (Some "stop") ;;; ret [] in
  is_ret (execute (demo_executor collect) (demo_world 1)).1 = true ∧
  State.status (state_after collect 1) = SUCCEEDED.
Proof. vm_compute. done. Qed.

(** An execution error leaves the job running. *)
Example execution_error_leaves_running :
  let collect _ := raise CollectorExecutionStateError "bad state" in
  is_ret (execute (demo_executor collect) (demo_world 3)).1 = false ∧
  State.status (state_after collect 3) = RUNNING.
Proof. vm_compute. done. Qed.

(** Every attempt advances the progress twice: after one retry the job is reported
    as complete while its second attempt runs. *)
Example complete_while_running :
  let collect : Given.CollectorContext → M W dict := λ _ w,
    if State.attempts (CollectorJob.state (the_job w)) =? 1
    then (Raise (Exn ConnectionRefusedError "refused"), w)
    else if (State.attempts (CollectorJob.state (the_job w)) =? 2)
    then (Raise (Exn ConnectionRefusedError "refused"), w)
    else (Raise (Exn CollectorExecutionStateError
           (pretty (Progress.completed_steps (State.progress (CollectorJob.state (the_job w)))))), w) in
  (execute (demo_executor collect) (demo_world 3)).1 = Raise (Exn CollectorExecutionStateError "4").
Proof. vm_compute. reflexivity. Qed.
End Demo.
