(* ===== verification/AuditTrail.v ===== *)
(** * The event bus ([events/])

    Handlers are registered by event name, or for every event under ["*"]; publishing
    calls all of them and only then raises.  A handler is a computation on the
    state of the publisher. *)

From stdpp Require Import sorting.
From S2P Require Import Prelude Vocabulary Effects Json Dicts Texts EvidenceStore JsonText.

#[local] Open Scope Z_scope.

Record BaseEvent := { event_name : string; event_payload : dict; occurred_at : datetime }.

Section Bus.
Context {S : Type}.

Definition EventHandler := BaseEvent → M S unit.
Definition EventHandlerRegistry := list (string * list EventHandler).

(** [EventBus.subscribe], through [EventHandlerRegistry.register]. *)
Definition subscribe (name : string) (handler : EventHandler) (r : EventHandlerRegistry)
    : EventHandlerRegistry := append_to name handler r.

Definition handlers_for (name : string) (r : EventHandlerRegistry) : list EventHandler :=
  from_option id [] (get name r) ++ from_option id [] (get "*" r).

Definition clear (_ : EventHandlerRegistry) : EventHandlerRegistry := [].

(** One turn of the loop of [EventDispatcher.publish]: the error it appends. *)
Definition handle (event : BaseEvent) (handler : EventHandler) : M S (list exn) :=
  try_except (handler event ;;; ret []) (λ exc,
    if isinstance exc Exception_ then ret [exc] else reraise exc).

(** [EventDispatcher.publish]. *)
Definition publish (r : EventHandlerRegistry) (event : BaseEvent) : M S unit :=
  errors <- map_m (handle event) (handlers_for (event_name event) r) ;;
  if is_nil (concat errors) then ret tt
  else raise EventError ("Failed to dispatch event '" +:+ event_name event +:+ "'.").

(** ** Subscriptions *)

(** A registry after subscriptions, in their order. *)
Definition subscribed (subs : list (string * EventHandler)) : EventHandlerRegistry :=
  fold_left (λ r '(name, handler), subscribe name handler r) subs [].

Definition handlers_of (name : string) (subs : list (string * EventHandler)) : list EventHandler :=
  map snd (List.filter (λ s, fst s ≟ name) subs).

Lemma get_subscribed name subs :
  from_option id [] (get name (subscribed subs)) = handlers_of name subs.
Proof.
  unfold subscribed, handlers_of. induction subs as [|[n h] subs IH] using rev_ind; [done|].
  rewrite fold_left_app, List.filter_app, map_app. cbn. unfold subscribe at 1, append_to.
  rewrite get_put. destruct (n ≟ name) eqn:E; cbn.
  - pybool. subst. by rewrite IH.
  - by rewrite IH, app_nil_r.
Qed.

(** A handler that raises, if it does, an [Exception]. *)
Definition ordinary (handler : EventHandler) : Prop :=
  ∀ event s e, (handler event s).1 = Raise e → isinstance e Exception_ = true.

Lemma handle_spec event handler s :
  ordinary handler →
  (handle event handler s).2 = (handler event s).2 ∧
  ∃ errors, (handle event handler s).1 = Ret errors ∧
    (errors = [] ↔ is_ret (handler event s).1 = true).
Proof.
  intros Ho. specialize (Ho event s). unfold handle, try_except, bind.
  destruct (handler event s) as [[[]|e] s']; cbn in *.
  - split; [done|]. by exists [].
  - rewrite (Ho e eq_refl). cbn. split; [done|]. by exists [e].
Qed.

(** The outcomes of the handlers, each started where the one before ended. *)
Fixpoint outcomes (event : BaseEvent) (hs : list EventHandler) (s : S) : list (outcome unit) :=
  match hs with
  | [] => []
  | h :: hs => (h event s).1 :: outcomes event hs (h event s).2
  end.

(** Publishing an event calls every handler subscribed to its name and then every
    handler subscribed to all events, in the order of subscription, each exactly
    once and whatever the others raise; it raises an event error exactly when one
    of them raised. *)
Theorem publish_reaches_all subs event s
    (Ho : ∀ name h, (name, h) ∈ subs → ordinary h) :
  let hs := handlers_of (event_name event) subs ++ handlers_of "*" subs in
  let '(o, s') := publish (subscribed subs) event s in
  s' = fold_left (λ s h, (h event s).2) hs s ∧
  match o with
  | Ret _ => forallb is_ret (outcomes event hs s) = true
  | Raise e => exn_cls e = EventError ∧ forallb is_ret (outcomes event hs s) = false
  end.
Proof.
  cbv zeta. unfold publish, handlers_for. rewrite !get_subscribed.
  set (hs := handlers_of _ _ ++ _).
  assert (∀ h, h ∈ hs → ordinary h) as Hhs.
  { intros h [H|H]%elem_of_app; apply list_elem_of_fmap in H as ([n h'] & -> & H);
      apply list_elem_of_In, filter_In in H as [H _]; by eapply Ho, list_elem_of_In. }
  assert (∀ s, (map_m (handle event) hs s).2 = fold_left (λ s h, (h event s).2) hs s ∧
    ∃ errors, (map_m (handle event) hs s).1 = Ret errors ∧
      is_nil (concat errors) = forallb is_ret (outcomes event hs s)) as H.
  { clear s. induction hs as [|h hs IH]; intros s; cbn; [split; [done|by exists []]|].
    destruct (handle_spec event h s (Hhs h ltac:(set_solver))) as (H1 & errors & H2 & H3).
    unfold bind at 1 3. destruct (handle event h s) as [o s1]. cbn in H1, H2. subst o s1.
    destruct (IH ltac:(set_solver) (h event s).2) as (H1 & rest & H2 & H4). unfold bind.
    destruct (map_m _ _ _) as [o s1]. cbn in H1, H2. subst o s1. cbn. split; [done|].
    exists (errors :: rest). split; [done|]. cbn. rewrite <-H4.
    destruct errors; cbn.
    - by rewrite (proj1 H3 eq_refl).
    - destruct (is_ret _); [|done]. by discriminate (proj2 H3 eq_refl). }
  destruct (H s) as (H1 & errors & H2 & H3). unfold bind.
  destruct (map_m _ _ _) as [o s1]. cbn in H1, H2. subst o s1.
  rewrite H3. by destruct (forallb _ _).
Qed.
End Bus.
Arguments EventHandler S : clear implicits.
Arguments EventHandlerRegistry S : clear implicits.

(** Two handlers of which the first raises, and one for all events. *)
Lemma publish_reaches_all_witness :
  let note (n : Z) : EventHandler (list Z) := λ _ l, (Ret tt, l ++ [n]) in
  let broken : EventHandler (list Z) := λ _ l, (Raise (Exn RuntimeError ""), l ++ [0]) in
  let event := {| event_name := "run"; event_payload := []; occurred_at := 0 |} in
  let '(o, s') := publish (subscribed [("*", note 9); ("run", broken); ("run", note 1); ("other", note 7)])
                    event [] in
  is_ret o = false ∧ s' = [0; 1; 9].
Proof.
  intros note broken event.
  pose proof (publish_reaches_all [("*", note 9); ("run", broken); ("run", note 1); ("other", note 7)]
    event []) as H. cbv zeta in H.
  assert (is_ret (publish (subscribed [("*", note 9); ("run", broken); ("run", note 1); ("other", note 7)])
    event []).1 = false) as Ho by reflexivity.
  destruct (publish _ _ _) as [o s']. cbn [fst] in Ho. split; [exact Ho|].
  destruct H as [H _]; [|exact H].
  intros n h Hin ev s e He. rewrite !elem_of_cons, elem_of_nil in Hin.
  destruct Hin as [[= -> ->]|[[= -> ->]|[[= -> ->]|[[= -> ->]|[]]]]]; cbn in He; try discriminate.
  by injection He as <-.
Defined.

(** * Audit records ([audit/])

    An audit record is created with the sensitive keys of its metadata left out at any
    depth, and handed to the repository the service was built with.  The repository is a
    port of the application ([AuditRepository]); [audit/infrastructure] implements it over
    its table ([AuditTable]). *)

(** A state that hands out identifiers: [uuid4()]. *)
Class Uuids (S : Type) := fresh_uuid : M S UUID.

(** ** Sanitization ([audit/domain/models.py]) *)

Definition SENSITIVE_MARKERS : list string :=
  ["password"; "secret"; "token"; "authorization"; "jwt"; "credential"; "cookie"; "private_key"].

(** [_is_sensitive_key]. *)
Definition is_sensitive_key (key : string) : bool :=
  existsb (λ marker, str_in marker (str_lower key)) SENSITIVE_MARKERS.

#[local] Arguments is_sensitive_key : simpl never.

(** [_sanitize_value]. *)
Fixpoint sanitize_value (value : json) : json :=
  match value with
  | JDict d =>
      JDict ((fix go (d : dict) : dict :=
        match d with
        | [] => []
        | (k, v) :: d' => if is_sensitive_key k then go d' else (k, sanitize_value v) :: go d'
        end) d)
  | JList l => JList (map sanitize_value l)
  | _ => value
  end.

(** The comprehension over the metadata of [AuditRecord.create]. *)
Definition sanitize_metadata (metadata : dict) : dict :=
  map (λ e, (e.1, sanitize_value e.2)) (List.filter (λ e, negb (is_sensitive_key e.1)) metadata).

Record AuditRecord := {
  au_id : UUID;
  au_event_type : string;
  au_timestamp : datetime;
  au_actor_id : option UUID;
  au_tenant_id : option string;
  au_resource_type : option string;
  au_resource_id : option string;
  au_outcome : option string;
  au_request_id : option string;
  au_metadata : dict;
  au_source : option string;
  au_category : option string;
  au_created_at : datetime;
}.

(** The keyword arguments of [AuditService.record], of [AuditRecord.create] and of
    [AuditRepository.create]; only [event_type] is required. *)
Record AuditArguments := {
  arg_event_type : string;
  arg_actor_id : option UUID;
  arg_tenant_id : option string;
  arg_resource_type : option string;
  arg_resource_id : option string;
  arg_outcome : option string;
  arg_request_id : option string;
  arg_metadata : option dict;
  arg_source : option string;
  arg_category : option string;
}.

Section Audit.
Context {S : Type} `{!Clock S, !Uuids S}.

(** [AuditRecord.create]. *)
Definition create_record (a : AuditArguments) (timestamp : option datetime) : M S AuditRecord :=
  let sanitized_metadata := sanitize_metadata (from_option id [] (arg_metadata a)) in
  now <- match timestamp with Some t => ret t | None => utc_now end ;;
  id <- fresh_uuid ;;
  ret {| au_id := id; au_event_type := arg_event_type a; au_timestamp := now;
         au_actor_id := arg_actor_id a; au_tenant_id := arg_tenant_id a;
         au_resource_type := arg_resource_type a; au_resource_id := arg_resource_id a;
         au_outcome := arg_outcome a; au_request_id := arg_request_id a;
         au_metadata := sanitized_metadata; au_source := arg_source a;
         au_category := arg_category a; au_created_at := now |}.

(** ** The service ([audit/application/services.py]) *)

(** [AuditRepository.create]. *)
Definition AuditRepository : Type := AuditArguments → M S AuditRecord.

Record AuditService := {
  repository : option AuditRepository;
  repository_factory : option (M S AuditRepository);
}.

(** [_repository_instance]. *)
Definition repository_instance (svc : AuditService) : M S (option AuditRepository) :=
  match repository svc with
  | Some r => ret (Some r)
  | None =>
      match repository_factory svc with
      | None => ret None
      | Some factory => r <- factory ;; ret (Some r)
      end
  end.

(** [AuditService.record]. *)
Definition record (svc : AuditService) (a : AuditArguments) : M S AuditRecord :=
  r <- create_record a None ;;
  repo <- repository_instance svc ;;
  match repo with
  | None => ret r
  | Some create =>
      create {| arg_event_type := au_event_type r; arg_actor_id := au_actor_id r;
                arg_tenant_id := au_tenant_id r; arg_resource_type := au_resource_type r;
                arg_resource_id := au_resource_id r; arg_outcome := au_outcome r;
                arg_request_id := au_request_id r; arg_metadata := Some (au_metadata r);
                arg_source := au_source r; arg_category := au_category r |}
  end.

(** [AuditService.record_security_event]: the caller's source and category are not
    parameters. *)
Definition record_security_event (svc : AuditService) (a : AuditArguments) : M S AuditRecord :=
  record svc {| arg_event_type := arg_event_type a; arg_actor_id := arg_actor_id a;
    arg_tenant_id := arg_tenant_id a; arg_resource_type := arg_resource_type a;
    arg_resource_id := arg_resource_id a; arg_outcome := arg_outcome a;
    arg_request_id := arg_request_id a; arg_metadata := arg_metadata a;
    arg_source := Some "security"; arg_category := Some "security" |}.

(** [AuditService.record_api_activity]. *)
Definition record_api_activity (svc : AuditService) (a : AuditArguments) : M S AuditRecord :=
  record svc {| arg_event_type := arg_event_type a; arg_actor_id := arg_actor_id a;
    arg_tenant_id := arg_tenant_id a;
    arg_resource_type := Some (or_str (arg_resource_type a) "api");
    arg_resource_id := arg_resource_id a; arg_outcome := arg_outcome a;
    arg_request_id := arg_request_id a; arg_metadata := arg_metadata a;
    arg_source := Some "api"; arg_category := Some "activity" |}.

(** [AuditService.record_policy_change]. *)
Definition record_policy_change (svc : AuditService) (policy_id : option UUID)
    (policy_key : option string) (action : string) (actor_id : option UUID)
    (tenant_id request_id : option string) (metadata : option dict) : M S AuditRecord :=
  record svc {| arg_event_type := "policy.changed"; arg_actor_id := actor_id;
    arg_tenant_id := tenant_id; arg_resource_type := Some "policy";
    arg_resource_id := match policy_id with Some u => Some (uuid_str u) | None => policy_key end;
    arg_outcome := Some action; arg_request_id := request_id;
    arg_metadata := Some (dict_set "policy_key" (opt_str policy_key)
      (dict_set "policy_action" (JStr action) (from_option id [] metadata)));
    arg_source := Some "policy"; arg_category := Some "governance" |}.

(** [AuditService.attach_event_bus]: every event of the bus is recorded. *)
Definition audit_handler (svc : AuditService) : EventHandler S := λ event,
  record svc {| arg_event_type := event_name event; arg_actor_id := None; arg_tenant_id := None;
    arg_resource_type := None; arg_resource_id := None; arg_outcome := None;
    arg_request_id := None; arg_metadata := Some (event_payload event);
    arg_source := Some "event_bus"; arg_category := Some "integration" |} ;;; ret tt.

Definition attach_event_bus (svc : AuditService) (bus : EventHandlerRegistry S) : EventHandlerRegistry S :=
  subscribe "*" (audit_handler svc) bus.
End Audit.

Arguments AuditRepository : clear implicits.
Arguments AuditService : clear implicits.

(** ** The table ([audit/infrastructure/], [audit/api/router.py], [audit/middleware.py]) *)

Module AuditTable.
Record AuditRecordModel := {
  id : UUID;
  event_type : string;
  timestamp : datetime;
  actor_id : option UUID;
  tenant_id : option string;
  resource_type : option string;
  resource_id : option string;
  outcome_ : option string;
  request_id : option string;
  metadata_payload : string;
  source : option string;
  category : option string;
  created_at : datetime;
}.
End AuditTable.
Abbreviation AuditRecordModel := AuditTable.AuditRecordModel.

(** The session of the repository, whose every operation commits. *)
Record AuditState := {
  audit_rows : list AuditRecordModel;
  audit_clock : nat → datetime;
  audit_ticks : nat;
  audit_uuids : nat → UUID;
  audit_drawn : nat;
}.

#[export] Instance audit_state_clock : Clock AuditState := {
  instant := λ s, audit_clock s (audit_ticks s);
  tick := λ s, {| audit_rows := audit_rows s; audit_clock := audit_clock s;
                  audit_ticks := Datatypes.S (audit_ticks s); audit_uuids := audit_uuids s;
                  audit_drawn := audit_drawn s |} }.
#[export] Instance audit_state_uuids : Uuids AuditState := λ s,
  (Ret (audit_uuids s (audit_drawn s)),
   {| audit_rows := audit_rows s; audit_clock := audit_clock s; audit_ticks := audit_ticks s;
      audit_uuids := audit_uuids s; audit_drawn := Datatypes.S (audit_drawn s) |}).

Section Table.
Context {HF : FloatRepr}.
Abbreviation AuditM := (M AuditState).

(** [json.loads(row.metadata_payload or "{}")]; only objects are written there, and metadata
    that is none is not represented. *)
Definition stored_metadata (payload : string) : outcome dict :=
  match json_loads (if str_truthy payload then payload else "{}") with
  | Some (JDict d) => Ret d
  | _ => raise_ ValueError "JSONDecodeError"
  end.

(** The [AuditRecord] of a row. *)
Definition record_of_row (row : AuditRecordModel) : outcome AuditRecord :=
  match stored_metadata (AuditTable.metadata_payload row) with
  | Raise e => Raise e
  | Ret metadata => Ret {|
      au_id := AuditTable.id row; au_event_type := AuditTable.event_type row;
      au_timestamp := AuditTable.timestamp row; au_actor_id := AuditTable.actor_id row;
      au_tenant_id := AuditTable.tenant_id row; au_resource_type := AuditTable.resource_type row;
      au_resource_id := AuditTable.resource_id row; au_outcome := AuditTable.outcome_ row;
      au_request_id := AuditTable.request_id row; au_metadata := metadata;
      au_source := AuditTable.source row; au_category := AuditTable.category row;
      au_created_at := AuditTable.created_at row |}
  end.

(** The row of the arguments. *)
Definition audit_row (id : UUID) (timestamp created_at : datetime) (a : AuditArguments) : AuditRecordModel := {|
  AuditTable.id := id; AuditTable.event_type := arg_event_type a; AuditTable.timestamp := timestamp;
  AuditTable.actor_id := arg_actor_id a; AuditTable.tenant_id := arg_tenant_id a;
  AuditTable.resource_type := arg_resource_type a; AuditTable.resource_id := arg_resource_id a;
  AuditTable.outcome_ := arg_outcome a; AuditTable.request_id := arg_request_id a;
  AuditTable.metadata_payload := json_dumps " " Datatypes.id (JDict (from_option Datatypes.id [] (arg_metadata a)));
  AuditTable.source := arg_source a; AuditTable.category := arg_category a;
  AuditTable.created_at := created_at |}.

(** The lengths of the columns, which the database checks. *)
Definition fits (n : nat) (text : option string) : bool :=
  from_option (λ t, (String.length t <=? n)%nat) true text.

Definition row_fits (row : AuditRecordModel) : bool :=
  fits 255 (Some (AuditTable.event_type row)) && fits 255 (AuditTable.tenant_id row) &&
  fits 255 (AuditTable.resource_type row) && fits 512 (AuditTable.resource_id row) &&
  fits 255 (AuditTable.outcome_ row) && fits 255 (AuditTable.request_id row) &&
  fits 4096 (Some (AuditTable.metadata_payload row)) && fits 255 (AuditTable.source row) &&
  fits 255 (AuditTable.category row).

(** [SQLAlchemyAuditRepository.create]: the identity and the times are drawn again. *)
Definition create_audit (a : AuditArguments) : AuditM AuditRecord :=
  id <- fresh_uuid ;;
  timestamp <- utc_now ;;
  created_at <- utc_now ;;
  let row := audit_row id timestamp created_at a in
  if negb (row_fits row) then raise (OtherError "DataError") "value too long for type character varying"
  else
    modify (λ s, {| audit_rows := audit_rows s ++ [row]; audit_clock := audit_clock s;
                    audit_ticks := audit_ticks s; audit_uuids := audit_uuids s;
                    audit_drawn := audit_drawn s |}) ;;;
    of_outcome (record_of_row row).

(** [SQLAlchemyAuditRepository.list]. *)
Definition audited_later (a b : AuditRecordModel) : Prop := AuditTable.created_at b <= AuditTable.created_at a.
#[export] Instance audited_later_dec : RelDecision audited_later.
Proof. intros a b. unfold audited_later. apply _. Defined.

Definition list_audit (limit : nat) : AuditM (list AuditRecord) :=
  rows <- gets (λ s, take limit (merge_sort audited_later (audit_rows s))) ;;
  map_m (λ row, of_outcome (record_of_row row)) rows.

(** [get_audit_service]. *)
Definition get_audit_service : AuditService AuditState :=
  {| repository := Some create_audit; repository_factory := None |}.

(** [list_records]: without the identity and the time of creation. *)
Definition audit_item (isoformat : datetime → string) (r : AuditRecord) : dict := [
  ("event_type", JStr (au_event_type r)); ("timestamp", JStr (isoformat (au_timestamp r)));
  ("actor_id", opt_str (uuid_str <$> au_actor_id r)); ("tenant_id", opt_str (au_tenant_id r));
  ("resource_type", opt_str (au_resource_type r)); ("resource_id", opt_str (au_resource_id r));
  ("outcome", opt_str (au_outcome r)); ("request_id", opt_str (au_request_id r));
  ("metadata", JDict (au_metadata r)); ("source", opt_str (au_source r));
  ("category", opt_str (au_category r))].

Definition list_records (isoformat : datetime → string) : AuditM (list dict) :=
  records <- list_audit 20 ;;
  ret (map (audit_item isoformat) records).
End Table.

(** [AuditMiddleware.dispatch]; the headers are found whatever the case of their names. *)
Record HttpRequest := {
  request_header : string → option string;
  request_method : string;
  request_path : string;
  request_query : list (string * string);
}.

Section Middleware.
Context {S Response : Type} `{!Clock S, !Uuids S}.

Definition dispatch_audited (audit_service : AuditService S) (status_code : Response → Z)
    (call_next : HttpRequest → M S Response) (request : HttpRequest) : M S Response :=
  response <- call_next request ;;
  record_api_activity audit_service {|
    arg_event_type := "api.activity"; arg_actor_id := None;
    arg_tenant_id := request_header request "x-tenant-id";
    arg_resource_type := Some "route"; arg_resource_id := Some (request_path request);
    arg_outcome := Some (pretty (status_code response));
    arg_request_id := request_header request "x-request-id";
    arg_metadata := Some [("method", JStr (request_method request)); ("path", JStr (request_path request));
      ("query_params", JDict (map (λ e, (e.1, JStr e.2)) (request_query request)))];
    arg_source := None; arg_category := None |} ;;;
  ret response.
End Middleware.

(** ** What sanitization keeps *)

(** A place inside a value: keys of objects and positions of lists. *)
Inductive step := Key (k : string) | At (i : nat).

Fixpoint value_at (path : list step) (v : json) : option json :=
  match path with
  | [] => Some v
  | Key k :: path' => match v with JDict d => dict_get k d ≫= value_at path' | _ => None end
  | At i :: path' => match v with JList l => l !! i ≫= value_at path' | _ => None end
  end.

Definition public_step (s : step) : bool :=
  match s with Key k => negb (is_sensitive_key k) | At _ => true end.

Lemma sanitize_metadata_dict d : sanitize_value (JDict d) = JDict (sanitize_metadata d).
Proof.
  cbn. f_equal. unfold sanitize_metadata. induction d as [|[k v] d IH]; [done|]. cbn.
  destruct (is_sensitive_key k); cbn; [exact IH|]. by rewrite IH.
Qed.

Lemma dict_get_sanitized k d :
  dict_get k (sanitize_metadata d) = if is_sensitive_key k then None else sanitize_value <$> dict_get k d.
Proof.
  unfold sanitize_metadata. induction d as [|[k' v] d IH]; cbn; [by destruct (is_sensitive_key k)|].
  destruct (is_sensitive_key k') eqn:Es; cbn.
  - rewrite IH. destruct (is_sensitive_key k) eqn:Ek; [done|].
    destruct (k ≟ k') eqn:E; [|done]. pybool. congruence.
  - destruct (k ≟ k') eqn:E; [|exact IH]. pybool. subst. by rewrite Es.
Qed.

(** The metadata of an audit record is the caller's with every entry under a sensitive
    key left out, at any depth inside objects and lists, and nothing else changed: a place
    that is reached through insensitive keys only holds the caller's value (itself
    sanitized), and no other place holds anything. *)
Theorem sanitized_places (d : dict) (path : list step) :
  value_at path (JDict (sanitize_metadata d)) =
  if forallb public_step path then sanitize_value <$> value_at path (JDict d) else None.
Proof.
  rewrite <-sanitize_metadata_dict. generalize (JDict d). clear d.
  induction path as [|[k|i] path IH]; intros v; [done| |].
  - destruct v; try (cbn; by destruct (_ && _)). rewrite sanitize_metadata_dict. cbn [value_at].
    rewrite dict_get_sanitized. cbn [forallb public_step].
    destruct (is_sensitive_key k); [done|]. cbn [negb andb].
    destruct (dict_get k d) as [w|]; [apply IH|]. cbn. by destruct (forallb _ _).
  - destruct v; try (cbn; by destruct (forallb _ _)). cbn [sanitize_value value_at forallb public_step andb].
    rewrite list_lookup_fmap.
    destruct (l !! i) as [w|]; [apply IH|]. cbn. by destruct (forallb _ _).
Qed.

Section Recorded.
Context {S : Type} `{!Clock S, !Uuids S}.

(** A service without a repository answers with the record and keeps nothing. *)
Lemma record_without_repository (svc : AuditService S) a s :
  repository svc = None → repository_factory svc = None →
  record svc a s = create_record a None s.
Proof.
  intros H1 H2. unfold record, bind. destruct (create_record a None s) as [[r|e] s'] eqn:E; [|done].
  unfold repository_instance. by rewrite H1, H2.
Qed.
End Recorded.

Example sanitized_metadata :
  sanitize_metadata [("username", JStr "ada"); ("Access_Token", JStr "x");
    ("context", JList [JDict [("cookie", JInt 1); ("host", JStr "sw1")]])]
  = [("username", JStr "ada"); ("context", JList [JDict [("host", JStr "sw1")]])].
Proof. reflexivity. Qed.

(** ** The trail reads back *)

Section Trail.
Context {HF : FloatRepr}.

(** The newest row leads a listing. *)
Lemma newest_first (row : AuditRecordModel) rows :
  Forall (λ r, AuditTable.created_at r < AuditTable.created_at row) rows →
  head (merge_sort audited_later (rows ++ [row])) = Some row.
Proof.
  intros Hold.
  assert (Transitive audited_later) by (intros a b c; unfold audited_later; lia).
  assert (Total audited_later) by (intros a b; unfold audited_later; lia).
  pose proof (merge_sort_Permutation audited_later (rows ++ [row])) as Hp.
  pose proof (StronglySorted_merge_sort audited_later (rows ++ [row])) as Hs.
  destruct (merge_sort _ _) as [|h t]; [by apply Permutation_nil, app_nil in Hp as [_ ?]|].
  cbn. f_equal. assert (h ∈ rows ++ [row]) as Hh by (rewrite <-Hp; by left).
  apply elem_of_app in Hh as [Hh|Hh%list_elem_of_singleton]; [|done]. exfalso.
  assert (row ∈ h :: t) as Hr by (rewrite Hp; apply elem_of_app; right; by left).
  rewrite Forall_forall in Hold. specialize (Hold _ Hh).
  apply elem_of_cons in Hr as [<-|Hr]; [lia|]. apply StronglySorted_inv in Hs as [_ Hs].
  rewrite Forall_forall in Hs. specialize (Hs _ Hr). unfold audited_later in Hs. lia.
Qed.

(** Sanitizing keeps metadata plain. *)
Lemma plain_sanitized j : plain j = true → plain (sanitize_value j) = true.
Proof.
  induction j as [|[]|z|q|t|l IH|d IH] using json_deep_ind; intros Hp; try done.
  - cbn [sanitize_value plain] in *. rewrite forallb_Forall_true in Hp |- *. apply Forall_map.
    rewrite Forall_forall in IH, Hp |- *. intros x Hx. by apply IH, Hp.
  - rewrite sanitize_metadata_dict. cbn [plain] in Hp |- *. apply andb_true_iff in Hp as [Hnd Hp].
    apply bool_decide_eq_true in Hnd. unfold sanitize_metadata. apply andb_true_iff. split.
    + apply bool_decide_eq_true. rewrite map_map. cbn [fst].
      eapply sublist_NoDup; [exact Hnd|]. clear. induction d as [|e d IH]; [done|]. cbn.
      destruct (negb _); [by constructor|by apply sublist_cons].
    + rewrite forallb_Forall_true in Hp |- *. apply Forall_map. rewrite Forall_forall in IH, Hp |- *.
      intros e He. apply list_elem_of_In, filter_In in He as [He%list_elem_of_In _].
      cbn [fst snd]. apply IH; [done|by apply (Hp e)].
Qed.

(** The arguments as the service passes them on. *)
Definition sanitized_arguments (a : AuditArguments) : AuditArguments := {|
  arg_event_type := arg_event_type a; arg_actor_id := arg_actor_id a; arg_tenant_id := arg_tenant_id a;
  arg_resource_type := arg_resource_type a; arg_resource_id := arg_resource_id a;
  arg_outcome := arg_outcome a; arg_request_id := arg_request_id a;
  arg_metadata := Some (sanitize_metadata (from_option id [] (arg_metadata a)));
  arg_source := arg_source a; arg_category := arg_category a |}.

(** What the database and the service make of the arguments. *)
Lemma create_audit_spec a s :
  let row := audit_row (audit_uuids s (audit_drawn s)) (audit_clock s (audit_ticks s)) (audit_clock s (1 + audit_ticks s)) a in
  let drawn rows := {| audit_rows := rows; audit_clock := audit_clock s; audit_ticks := 2 + audit_ticks s;
                       audit_uuids := audit_uuids s; audit_drawn := 1 + audit_drawn s |} in
  create_audit a s =
  if row_fits (audit_row 0%N 0 0 a) then (record_of_row row, drawn (audit_rows s ++ [row]))
  else (raise_ (OtherError "DataError") "value too long for type character varying", drawn (audit_rows s)).
Proof.
  cbv zeta. change (row_fits (audit_row 0%N 0 0 a)) with (row_fits (audit_row (audit_uuids s (audit_drawn s))
    (audit_clock s (audit_ticks s)) (audit_clock s (1 + audit_ticks s)) a)).
  unfold create_audit, bind, fresh_uuid, audit_state_uuids, utc_now. cbv zeta beta iota.
  cbn [audit_drawn audit_uuids audit_ticks audit_clock instant tick audit_state_clock Nat.add].
  destruct (row_fits _); reflexivity.
Qed.

Lemma record_audit a s :
  record get_audit_service a s = create_audit (sanitized_arguments a) (tick (fresh_uuid s).2).
Proof. reflexivity. Qed.

(** What a caller says of an event, but for its metadata. *)
Definition said (a : AuditArguments) :=
  (arg_event_type a, arg_actor_id a, arg_tenant_id a, arg_resource_type a, arg_resource_id a,
   arg_outcome a, arg_request_id a, arg_source a, arg_category a).

Definition answers (r : AuditRecord) :=
  (au_event_type r, au_actor_id r, au_tenant_id r, au_resource_type r, au_resource_id r,
   au_outcome r, au_request_id r, au_source r, au_category r).

(** C30. What is recorded is found: a record whose texts fit their columns adds one row to the
    trail and answers all that the caller said of the event, its actor, tenant, resource,
    outcome, request, source and category, under a new identity and the times of its creation,
    with the metadata that sanitizing leaves, through the text in the database and back; if
    the clock has moved on since the rows before, it leads the next listing.  A record that
    does not fit raises and adds nothing. *)
Theorem audit_trail_reads_back a s :
  plain (JDict (from_option id [] (arg_metadata a))) = true →
  Forall (λ r, AuditTable.created_at r < audit_clock s (2 + audit_ticks s)) (audit_rows s) →
  ∃ o s', record get_audit_service a s = (o, s') ∧
  if row_fits (audit_row 0%N 0 0 (sanitized_arguments a)) then
    ∃ r row, o = Ret r ∧ audit_rows s' = audit_rows s ++ [row] ∧
      answers r = said a ∧
      au_id r = audit_uuids s (1 + audit_drawn s) ∧
      au_timestamp r = audit_clock s (1 + audit_ticks s) ∧
      au_created_at r = audit_clock s (2 + audit_ticks s) ∧
      same_items (JDict (sanitize_metadata (from_option id [] (arg_metadata a)))) (JDict (au_metadata r)) ∧
      ∃ records, list_audit 1 s' = (Ret records, s') ∧ records = [r]
  else is_ret o = false ∧ audit_rows s' = audit_rows s.
Proof.
  intros Hp Hold. destruct (row_fits _) eqn:Hfits.
  2: { eexists _, _. rewrite record_audit, create_audit_spec, Hfits. by split. }
  set (md := from_option id [] (arg_metadata a)) in *.
  assert (plain (JDict (sanitize_metadata md)) = true) as Hps.
  { rewrite <-sanitize_metadata_dict. by apply plain_sanitized. }
  destruct (json_roundtrip " " eq_refl id (λ _, reflexivity _) _ Hps) as (j & Ej & Hj).
  assert (∃ d', j = JDict d') as [d' ->] by (inversion Hj; eauto).
  set (row := audit_row (audit_uuids s (1 + audit_drawn s)) (audit_clock s (1 + audit_ticks s))
                (audit_clock s (2 + audit_ticks s)) (sanitized_arguments a)).
  set (s' := {| audit_rows := audit_rows s ++ [row]; audit_clock := audit_clock s;
    audit_ticks := 3 + audit_ticks s; audit_uuids := audit_uuids s; audit_drawn := 2 + audit_drawn s |}).
  assert (stored_metadata (AuditTable.metadata_payload row) = Ret d') as Em.
  { unfold stored_metadata. change (str_truthy (AuditTable.metadata_payload row)) with true.
    change (AuditTable.metadata_payload row) with (json_dumps " " id (JDict (sanitize_metadata md))). cbv iota. by rewrite Ej. }
  destruct (record_of_row row) as [r|e] eqn:Er; [|unfold record_of_row in Er; by rewrite Em in Er].
  exists (Ret r), s'. split.
  { rewrite record_audit, create_audit_spec, Hfits. transitivity (record_of_row row, s'); [reflexivity|by rewrite Er]. }
  exists r, row. split; [done|]. split; [done|]. assert (au_metadata r = d') as Hmd.
  { unfold record_of_row in Er. rewrite Em in Er. by injection Er as <-. }
  rewrite Hmd. unfold record_of_row in Er. rewrite Em in Er. injection Er as Hr.
  rewrite <-Hr. split_and!; try done.
  eexists. split; [|reflexivity]. unfold list_audit. erewrite bind_Ret by reflexivity.
  pose proof (newest_first row (audit_rows s) Hold) as Hh. change (audit_rows s') with (audit_rows s ++ [row]).
  destruct (merge_sort _ _) as [|h t]; [done|]. injection Hh as ->. cbn [take map_m].
  unfold record_of_row at 1. rewrite Em. by rewrite take_0.
Qed.
End Trail.

(** A trail with one record, and one that is added a second later. *)
Module TrailExamples.
#[local] Instance no_floats : FloatRepr := λ _, EmptyString.

Definition logged : AuditArguments := {|
  arg_event_type := "auth.login"; arg_actor_id := Some 7%N; arg_tenant_id := Some "acme";
  arg_resource_type := None; arg_resource_id := None; arg_outcome := Some "success";
  arg_request_id := None; arg_source := None; arg_category := None;
  arg_metadata := Some [("user", JStr "ada"); ("password", JStr "pw")] |}.
Definition empty_trail : AuditState := {|
  audit_rows := []; audit_clock := Z.of_nat; audit_ticks := O;
  audit_uuids := N.of_nat; audit_drawn := O |}.

Lemma audit_trail_reads_back_witness :
  ∃ r s', record get_audit_service logged empty_trail = (Ret r, s') ∧ list_audit 1 s' = (Ret [r], s').
Proof.
  destruct (audit_trail_reads_back logged empty_trail) as (o & s' & E & r & row & -> & _ & _ & _ & _ & _ & _ & records & El & ->);
    [reflexivity|constructor|].
  exists r, s'. split; [exact E|exact El].
Defined.

(** What a reader of the route sees of it. *)
Example listed_record :
  (map (λ d, (dict_get "event_type" d, dict_get "metadata" d)) <$>
    match (list_records (λ _, "") (record get_audit_service logged empty_trail).2).1 with
    | Ret items => Some items | Raise _ => None end)
  = Some [(Some (JStr "auth.login"), Some (JDict [("user", JStr "ada")]))].
Proof. vm_compute. reflexivity. Qed.
End TrailExamples.
