(* ===== verification/DiscoveryEngine.v ===== *)
(** * The discovery engine ([discovery/engine.py], [pipeline.py], [registry.py], [filters.py],
      [statistics.py], [scheduler.py])

    The path that runs discovery in memory: a scheduler hands contexts to the engine, which
    looks up a pipeline by name; the pipeline asks its collectors for snapshots, merges and
    validates them, and counts.  The statistics of a pipeline are one object that all results
    of its runs share, so they live in a store, and pipelines and results hold references. *)

From S2P Require Import Prelude Vocabulary Effects Json Dicts Texts AuditTrail.
From S2P Require Import Inventories Execution CollectorRuntime.
#[local] Open Scope Z_scope.

(** ** Contexts ([discovery/context.py]) *)

Module Discovery.
Record DiscoveryContext := {
  target : DiscoveryTarget;
  required_capabilities : list CollectorCapability;
  pipeline_name : string;
  run_id : UUID;
  correlation_id : option string;
  metadata : dict;
  started_at : datetime;
}.
End Discovery.
Abbreviation DiscoveryContext := Discovery.DiscoveryContext.

(** ** Filters *)

Inductive DiscoveryFilter :=
  | CapabilityDiscoveryFilter (capabilities : list CollectorCapability)
  | AndDiscoveryFilter (filters : list DiscoveryFilter)
  | OrDiscoveryFilter (filters : list DiscoveryFilter)
  | NotDiscoveryFilter (filter : DiscoveryFilter).

(** [capabilities.issubset(others)]. *)
Definition issubset (capabilities others : list CollectorCapability) : bool :=
  forallb (λ c, mem c others) capabilities.

Fixpoint matches (self : DiscoveryFilter) (context : DiscoveryContext) : bool :=
  match self with
  | CapabilityDiscoveryFilter capabilities =>
      issubset capabilities
        (Discovery.required_capabilities context ++ Target.capabilities (Discovery.target context))
  | AndDiscoveryFilter filters => forallb (λ f, matches f context) filters
  | OrDiscoveryFilter filters => existsb (λ f, matches f context) filters
  | NotDiscoveryFilter filter => negb (matches filter context)
  end.

(** ** Statistics *)

Module Statistics.
Record DiscoveryStatistics := {
  total_targets : Z;
  processed_targets : Z;
  discovered_targets : Z;
  successful_targets : Z;
  failed_targets : Z;
  skipped_targets : Z;
  started_at : datetime;
  completed_at : option datetime;
}.
Definition eta (s : DiscoveryStatistics) : DiscoveryStatistics := {|
  total_targets := total_targets s; processed_targets := processed_targets s;
  discovered_targets := discovered_targets s; successful_targets := successful_targets s;
  failed_targets := failed_targets s; skipped_targets := skipped_targets s;
  started_at := started_at s; completed_at := completed_at s |}.
Definition set_total_targets v s : DiscoveryStatistics := ltac:(record_with eta total_targets s v).
Definition set_processed_targets v s : DiscoveryStatistics := ltac:(record_with eta processed_targets s v).
Definition set_discovered_targets v s : DiscoveryStatistics := ltac:(record_with eta discovered_targets s v).
Definition set_successful_targets v s : DiscoveryStatistics := ltac:(record_with eta successful_targets s v).
Definition set_failed_targets v s : DiscoveryStatistics := ltac:(record_with eta failed_targets s v).
Definition set_skipped_targets v s : DiscoveryStatistics := ltac:(record_with eta skipped_targets s v).
Definition set_started_at v s : DiscoveryStatistics := ltac:(record_with eta started_at s v).
Definition set_completed_at v s : DiscoveryStatistics := ltac:(record_with eta completed_at s v).
End Statistics.
Abbreviation DiscoveryStatistics := Statistics.DiscoveryStatistics.

(** [duration_seconds], as an exact number of seconds. *)
Definition duration_seconds (s : DiscoveryStatistics) : option Q :=
  (λ completed, (inject_Z (completed - Statistics.started_at s) / 1000000)%Q)
    <$> Statistics.completed_at s.

(** The store of statistics objects next to the state [S] of everything else. *)
Record Store (S : Type) := { objects : nat → DiscoveryStatistics; outside : S }.
Arguments objects {S} _ _.
Arguments outside {S} _.

(** ** Collectors and pipelines *)

(** [BaseCollector] as a pipeline uses it; its methods know nothing of statistics. *)
Module Source.
Record BaseCollector (S : Type) := {
  name : string;
  capabilities : list CollectorCapability;
  health_check : Given.CollectorContext → M S unit;
  discover : Given.CollectorContext → M S (list DiscoveryTarget);
  collect : Given.CollectorContext → list DiscoveryTarget → M S dict;
  normalize : Given.CollectorContext → dict → list DiscoveryTarget → M S Live.LiveInventorySnapshot;
}.
Arguments name {S} _.
Arguments capabilities {S} _.
Arguments health_check {S} _ _.
Arguments discover {S} _ _.
Arguments collect {S} _ _ _.
Arguments normalize {S} _ _ _ _.
End Source.

Record DiscoveryPipeline (S : Type) := {
  collector_registry : list (string * Source.BaseCollector S);
  snapshot_repository : option (Live.LiveInventorySnapshot → M S unit);
  filters : list DiscoveryFilter;
  (* the reference of the statistics object *)
  statistics : nat;
}.
Arguments collector_registry {S} _.
Arguments snapshot_repository {S} _.
Arguments filters {S} _.
Arguments statistics {S} _.

Section Engine.
Context {S : Type} `{!Clock S, !Uuids S}.
Abbreviation EngineM := (M (Store S)).

(** A computation that leaves the store alone. *)
Definition lift {A} (m : M S A) : EngineM A := λ w,
  let '(r, s) := m (outside w) in (r, {| objects := objects w; outside := s |}).

Definition on_statistics (ref : nat) (f : DiscoveryStatistics → DiscoveryStatistics) : EngineM unit :=
  modify (λ w, {| objects := λ r, if (r =? ref)%nat then f (objects w r) else objects w r;
                  outside := outside w |}).

Definition mark_started (ref : nat) : EngineM unit :=
  now <- lift utc_now ;;
  on_statistics ref (λ s, Statistics.set_completed_at None (Statistics.set_started_at now s)).
Definition mark_total (ref : nat) (count : Z) : EngineM unit :=
  on_statistics ref (Statistics.set_total_targets count).
Definition mark_processed (ref : nat) : EngineM unit :=
  on_statistics ref (λ s, Statistics.set_processed_targets (Statistics.processed_targets s + 1) s).
Definition mark_discovered (ref : nat) (count : Z) : EngineM unit :=
  on_statistics ref (λ s, Statistics.set_discovered_targets (Statistics.discovered_targets s + count) s).
Definition mark_success (ref : nat) : EngineM unit :=
  on_statistics ref (λ s, Statistics.set_successful_targets (Statistics.successful_targets s + 1) s).
Definition mark_failure (ref : nat) : EngineM unit :=
  on_statistics ref (λ s, Statistics.set_failed_targets (Statistics.failed_targets s + 1) s).
Definition mark_skipped (ref : nat) : EngineM unit :=
  on_statistics ref (λ s, Statistics.set_skipped_targets (Statistics.skipped_targets s + 1) s).
Definition mark_completed (ref : nat) : EngineM unit :=
  now <- lift utc_now ;;
  on_statistics ref (Statistics.set_completed_at (Some now)).

(** [BaseCollector.build_context]: the metadata of the context over those of the target. *)
Definition build_context (c : Source.BaseCollector S) (context : DiscoveryContext) : Given.CollectorContext := {|
  Given.target := Discovery.target context; Given.capabilities := Source.capabilities c;
  Given.run_id := Discovery.run_id context; Given.discovered_at := Discovery.started_at context;
  Given.metadata := fold_left (λ d e, dict_set e.1 e.2 d) (Discovery.metadata context)
                      (Target.metadata (Discovery.target context)) |}.

(** [CollectorRegistry.select]. *)
Definition select (capabilities : list CollectorCapability) (registry : list (string * Source.BaseCollector S))
    : list (Source.BaseCollector S) :=
  List.filter (λ c, issubset capabilities (Source.capabilities c)) (values registry).

(** What one collector contributes. *)
Definition collect_snapshot (context : DiscoveryContext) (collector : Source.BaseCollector S)
    : M S Live.LiveInventorySnapshot :=
  let collector_context := build_context collector context in
  Source.health_check collector collector_context ;;;
  discovered_targets <- Source.discover collector collector_context ;;
  raw_result <- Source.collect collector collector_context discovered_targets ;;
  Source.normalize collector collector_context raw_result discovered_targets.

(** [InventorySnapshot.merge] and [InventorySnapshot.empty] with the identity they draw, and
    the instant if there is nothing to merge. *)
Definition merge_snapshots (snapshots : list Live.LiveInventorySnapshot) : M S Live.LiveInventorySnapshot :=
  fresh <- fresh_uuid ;;
  now <- match snapshots with [] => utc_now | _ => ret 0 end ;;
  ret (merge fresh now snapshots).

(** [SnapshotMapper.to_model]: the model has the fields of the entity, and validating values
    of the fields' own types leaves them as they are. *)
Definition to_model (snapshot : Live.LiveInventorySnapshot) : Live.LiveInventorySnapshot := snapshot.

(** One turn of the loop over the collectors. *)
Definition collect_counted (ref : nat) (context : DiscoveryContext) (collector : Source.BaseCollector S)
    : EngineM Live.LiveInventorySnapshot :=
  snapshot <- lift (collect_snapshot context collector) ;;
  mark_discovered ref 1 ;;;
  ret snapshot.

(** [DiscoveryPipeline.execute]. *)
Definition execute (self : DiscoveryPipeline S) (context : DiscoveryContext) : EngineM Live.LiveInventorySnapshot :=
  let ref := statistics self in
  mark_total ref 1 ;;;
  mark_started ref ;;;
  mark_processed ref ;;;
  if negb (is_nil (filters self)) && negb (forallb (λ f, matches f context) (filters self)) then
    mark_skipped ref ;;;
    mark_completed ref ;;;
    lift (merge_snapshots [])
  else
    snapshots <- map_m (collect_counted ref context)
      (select (Discovery.required_capabilities context) (collector_registry self)) ;;
    snapshot <- lift (merge_snapshots snapshots) ;;
    let snapshot_model := to_model snapshot in
    lift (now <- utc_now ;; validate_snapshot_integrity now snapshot_model) ;;;
    match snapshot_repository self with
    | Some save => lift (save snapshot_model)
    | None => ret tt
    end ;;;
    mark_success ref ;;;
    mark_completed ref ;;;
    ret snapshot.

(** ** Registry, engine and scheduler *)

(** What is registered under a name: a pipeline or any other object. *)
Definition DiscoveryRegistry : Type := list (string * option (DiscoveryPipeline S)).

Definition register (name : string) (pipeline : option (DiscoveryPipeline S)) (self : DiscoveryRegistry)
    : DiscoveryRegistry := put name pipeline self.

Definition get_pipeline (name : string) (self : DiscoveryRegistry) : outcome (option (DiscoveryPipeline S)) :=
  match get name self with
  | Some pipeline => Ret pipeline
  | None => raise_ KeyError ("Unknown discovery pipeline: " +:+ name)
  end.

Definition pipeline_names (self : DiscoveryRegistry) : list string := map fst self.

Record DiscoveryRunResult := {
  result_pipeline : string;
  result_snapshot : Live.LiveInventorySnapshot;
  result_statistics : nat;
}.

(** [_resolve_pipeline]. *)
Definition resolve_pipeline (registry : DiscoveryRegistry) (name : string) : outcome (DiscoveryPipeline S) :=
  match get_pipeline name registry with
  | Ret (Some pipeline) => Ret pipeline
  | Ret None => raise_ TypeError ("Discovery registry entry '" +:+ name +:+ "' is invalid.")
  | Raise e => Raise e
  end.

(** [DiscoveryEngine.run]. *)
Definition run (registry : DiscoveryRegistry) (context : DiscoveryContext) : EngineM DiscoveryRunResult :=
  pipeline <- of_outcome (resolve_pipeline registry (Discovery.pipeline_name context)) ;;
  snapshot <- execute pipeline context ;;
  ret {| result_pipeline := Discovery.pipeline_name context; result_snapshot := snapshot;
         result_statistics := statistics pipeline |}.

(** [DiscoveryScheduler.run]. *)
Definition run_all (registry : DiscoveryRegistry) (contexts : list DiscoveryContext)
    : EngineM (list DiscoveryRunResult) := map_m (run registry) contexts.
End Engine.
Arguments DiscoveryRegistry S : clear implicits.

(** ** What the statistics tell *)

Section Accounts.
Context {S : Type} `{!Clock S, !Uuids S}.
Implicit Types (w : Store S) (s : DiscoveryStatistics).

Lemma lift_objects {A} (m : M S A) w : objects (lift m w).2 = objects w.
Proof. unfold lift. by destruct (m (outside w)). Qed.

(** Objects other than [ref] are as they were. *)
Definition elsewhere (ref : nat) w w' : Prop := ∀ k, k ≠ ref → objects w' k = objects w k.

Lemma on_statistics_object ref f w :
  on_statistics ref f w = (Ret tt, (on_statistics ref f w).2) ∧
  objects (on_statistics ref f w).2 ref = f (objects w ref) ∧ elsewhere ref w (on_statistics ref f w).2.
Proof.
  split; [done|]. split; [cbn; by rewrite Nat.eqb_refl|].
  intros k Hk. cbn. by apply Nat.eqb_neq in Hk as ->.
Qed.

(** What collecting adds to the counters of the pipeline. *)
Definition discovered_more (n : Z) s s' : Prop :=
  s' = Statistics.set_discovered_targets (Statistics.discovered_targets s + n) s.

Lemma discovered_more_trans a b s1 s2 s3 :
  discovered_more a s1 s2 → discovered_more b s2 s3 → discovered_more (a + b) s1 s3.
Proof. unfold discovered_more. intros -> ->. destruct s1. cbn. by rewrite Z.add_assoc. Qed.

Lemma discovered_none s : discovered_more 0 s s.
Proof. unfold discovered_more. rewrite Z.add_0_r. by destruct s. Qed.

Lemma collect_counted_spec ref context c w :
  match collect_counted ref context c w with
  | (Ret _, w') => elsewhere ref w w' ∧ discovered_more 1 (objects w ref) (objects w' ref)
  | (Raise _, w') => objects w' = objects w
  end.
Proof.
  unfold collect_counted, bind at 1. pose proof (lift_objects (collect_snapshot context c) w) as Hl.
  destruct (lift (collect_snapshot context c) w) as [[snapshot|e] w1]; cbn [snd] in Hl; [|done].
  destruct (on_statistics_object ref
    (λ s, Statistics.set_discovered_targets (Statistics.discovered_targets s + 1) s) w1) as (E & Ho & He).
  erewrite bind_Ret by exact E. cbn [ret]. rewrite Hl in Ho. split; [|exact Ho]. intros k Hk. rewrite <-Hl. by apply He.
Qed.

Lemma collecting ref context cs w :
  match map_m (collect_counted ref context) cs w with
  | (Ret snapshots, w') => length snapshots = length cs ∧
      elsewhere ref w w' ∧ discovered_more (Z.of_nat (length cs)) (objects w ref) (objects w' ref)
  | (Raise _, w') => elsewhere ref w w' ∧
      ∃ n, 0 <= n < Z.of_nat (length cs) ∧ discovered_more n (objects w ref) (objects w' ref)
  end.
Proof.
  revert w. induction cs as [|c cs IH]; intros w.
  - cbn. split; [done|]. split; [done|apply discovered_none].
  - cbn [map_m]. unfold bind at 1. pose proof (collect_counted_spec ref context c w) as H1.
    destruct (collect_counted ref context c w) as [[snapshot|e] w1].
    2: { split; [intros k _; by rewrite H1|]. exists 0. rewrite H1. cbn [length].
         split; [lia|apply discovered_none]. }
    destruct H1 as [He1 H1]. specialize (IH w1). unfold bind. destruct (map_m _ cs w1) as [[snapshots|e] w2].
    + destruct IH as (Hlen & He & H2). cbn [ret length]. split; [by rewrite Hlen|].
      split; [intros k Hk; rewrite He by done; by apply He1|].
      replace (Z.of_nat (Datatypes.S (length cs))) with (1 + Z.of_nat (length cs)) by lia. by eapply discovered_more_trans.
    + destruct IH as (He & n & Hn & H2). split; [intros k Hk; rewrite He by done; by apply He1|].
      exists (1 + n). cbn [length]. split; [lia|]. by eapply discovered_more_trans.
Qed.

(** Reading the clock and changing the object of a pipeline never fail. *)
Lemma lift_now w : lift utc_now w = (Ret (instant (outside w)), {| objects := objects w; outside := tick (outside w) |}).
Proof. reflexivity. Qed.

Lemma mark_completed_spec ref w :
  ∃ w' now, mark_completed ref w = (Ret tt, w') ∧ elsewhere ref w w' ∧
    objects w' ref = Statistics.set_completed_at (Some now) (objects w ref).
Proof.
  set (now := instant (outside w)). set (w1 := {| objects := objects w; outside := tick (outside w) |}).
  destruct (on_statistics_object ref (Statistics.set_completed_at (Some now)) w1) as (E & Ho & He).
  eexists _, now. split; [|split; [exact He|exact Ho]]. unfold mark_completed. by erewrite bind_Ret by apply lift_now.
Qed.

(** A run that begins. *)
Definition begun (s s' : DiscoveryStatistics) : Prop :=
  Statistics.total_targets s' = 1 ∧ Statistics.completed_at s' = None ∧
  Statistics.processed_targets s' = Statistics.processed_targets s + 1 ∧
  Statistics.discovered_targets s' = Statistics.discovered_targets s ∧
  Statistics.successful_targets s' = Statistics.successful_targets s ∧
  Statistics.skipped_targets s' = Statistics.skipped_targets s ∧
  Statistics.failed_targets s' = Statistics.failed_targets s.

Lemma beginning {A} ref (k : M (Store S) A) w :
  ∃ w', (mark_total ref 1 ;;; mark_started ref ;;; mark_processed ref ;;; k) w = k w' ∧
    elsewhere ref w w' ∧ begun (objects w ref) (objects w' ref).
Proof.
  eexists. split; [reflexivity|]. split.
  - intros i Hi. cbn. by apply Nat.eqb_neq in Hi as ->.
  - cbn. by rewrite Nat.eqb_refl.
Qed.

(** A run that is over, and whether it answered. *)
Definition run_over (answered : bool) (s s' : DiscoveryStatistics) : Prop :=
  Statistics.total_targets s' = 1 ∧
  Statistics.processed_targets s' = Statistics.processed_targets s + 1 ∧
  Statistics.failed_targets s' = Statistics.failed_targets s ∧
  Statistics.successful_targets s' + Statistics.skipped_targets s'
    = Statistics.successful_targets s + Statistics.skipped_targets s + (if answered then 1 else 0) ∧
  (Statistics.completed_at s' ≠ None ↔ answered = true).

Lemma elsewhere_trans ref w1 w2 w3 : elsewhere ref w1 w2 → elsewhere ref w2 w3 → elsewhere ref w1 w3.
Proof. intros H1 H2 k Hk. by rewrite H2, H1. Qed.

(** Identifiers are always drawn. *)
Definition draws_identifiers : Prop := ∀ s : S, is_ret (fresh_uuid s).1 = true.

Lemma merging snapshots w : draws_identifiers →
  ∃ snapshot w', lift (merge_snapshots snapshots) w = (Ret snapshot, w') ∧ objects w' = objects w.
Proof.
  intros Hf. pose proof (lift_objects (merge_snapshots snapshots) w) as Hl.
  unfold lift, merge_snapshots, bind in *. specialize (Hf (outside w)).
  destruct (fresh_uuid (outside w)) as [[fresh|e] s1]; [|done]. by destruct snapshots; eexists _, _.
Qed.

(** What is left after the collectors answered. *)
Lemma concluding ref (save : option (Live.LiveInventorySnapshot → M S unit)) snapshot model w :
  let m := lift (now <- utc_now ;; validate_snapshot_integrity now model) ;;;
    match save with Some save => lift (save model) | None => ret tt end ;;;
    mark_success ref ;;; mark_completed ref ;;; ret (A := Live.LiveInventorySnapshot) snapshot in
  match m w with
  | (Ret a, w') => a = snapshot ∧ elsewhere ref w w' ∧ ∃ now, objects w' ref =
      Statistics.set_completed_at (Some now)
        (Statistics.set_successful_targets (Statistics.successful_targets (objects w ref) + 1) (objects w ref))
  | (Raise _, w') => objects w' = objects w
  end.
Proof.
  intros m. unfold m, bind at 1.
  pose proof (lift_objects (now <- utc_now ;; validate_snapshot_integrity now model) w) as H1.
  destruct (lift _ w) as [[[]|e] w1]; cbn [snd] in H1; [|done]. unfold bind at 1.
  assert (objects (match save with Some save => lift (save model) | None => ret tt end w1).2 = objects w1) as H2.
  { destruct save; [apply lift_objects|done]. }
  destruct (match save with Some save => lift (save model) | None => ret tt end w1) as [[[]|e] w2];
    cbn [snd] in H2; [|by rewrite H2].
  destruct (on_statistics_object ref
    (λ s, Statistics.set_successful_targets (Statistics.successful_targets s + 1) s) w2) as (E3 & Ho3 & He3).
  erewrite bind_Ret by exact E3. set (w3 := (on_statistics ref _ w2).2) in *.
  destruct (mark_completed_spec ref w3) as (w4 & now & E4 & He4 & Ho4).
  erewrite bind_Ret by exact E4. cbn [ret]. split; [done|].
  rewrite H1 in H2. split.
  - intros k Hk. rewrite He4, He3 by done. by rewrite H2.
  - exists now. by rewrite Ho4, Ho3, H2.
Qed.

Lemma execute_account self context w : draws_identifiers →
  let ref := statistics self in
  match execute self context w with
  | (r, w') => elsewhere ref w w' ∧ run_over (is_ret r) (objects w ref) (objects w' ref)
  end.
Proof.
  intros Hf ref. unfold execute. fold ref.
  match goal with |- context [mark_total ref 1 ;;; mark_started ref ;;; mark_processed ref ;;; ?k] =>
    destruct (beginning ref k w) as (w1 & -> & He1 & Ht & Hc & Hp & Hd & Hs & Hk & Hfl) end.
  destruct (_ && _).
  - destruct (on_statistics_object ref
      (λ s, Statistics.set_skipped_targets (Statistics.skipped_targets s + 1) s) w1) as (E2 & Ho2 & He2).
    erewrite bind_Ret by exact E2. set (w2 := (on_statistics ref _ w1).2) in *.
    destruct (mark_completed_spec ref w2) as (w3 & now & E3 & He3 & Ho3). erewrite bind_Ret by exact E3.
    destruct (merging [] w3 Hf) as (snapshot & w4 & -> & Ho4). rewrite Ho4. cbn [is_ret]. split.
    + intros i Hi. by rewrite Ho4, He3, He2, He1.
    + rewrite Ho3, Ho2. unfold run_over. cbn. rewrite Ht, Hp, Hs, Hk, Hfl. split_and!; try lia; done.
  - unfold bind at 1. pose proof (collecting ref context
      (select (Discovery.required_capabilities context) (collector_registry self)) w1) as Hcol.
    destruct (map_m _ _ w1) as [[snapshots|e] w2].
    2: { destruct Hcol as (He2 & n & _ & Hmore). cbn [is_ret]. split; [by eapply elsewhere_trans|].
         rewrite Hmore. unfold run_over. cbn. rewrite Ht, Hp, Hs, Hk, Hfl, Hc. split_and!; try lia; done. }
    destruct Hcol as (_ & He2 & Hmore). destruct (merging snapshots w2 Hf) as (snapshot & w3 & E3 & Ho3).
    erewrite bind_Ret by exact E3. cbv zeta.
    pose proof (concluding ref (snapshot_repository self) snapshot (to_model snapshot) w3) as Hend. cbv zeta in Hend.
    match goal with |- context [let (_, _) := ?m w3 in _] => destruct (m w3) as [[a|e] w4] end; cbn [is_ret].
    + destruct Hend as (_ & He4 & now & Ho4). split.
      * intros i Hi. by rewrite He4, Ho3, He2, He1.
      * rewrite Ho4, Ho3, Hmore. unfold run_over. cbn. rewrite Ht, Hp, Hs, Hk, Hfl. split_and!; try lia; done.
    + split.
      * intros i Hi. by rewrite Hend, Ho3, He2, He1.
      * rewrite Hend, Ho3, Hmore. unfold run_over. cbn. rewrite Ht, Hp, Hs, Hk, Hfl, Hc. split_and!; try lia; done.
Qed.

(** The results that refer to an object of statistics. *)
Definition results_of (ref : nat) (results : list DiscoveryRunResult) : Z :=
  Z.of_nat (length (List.filter (λ r, (result_statistics r =? ref)%nat) results)).

(** From [s] to [s'] [n] runs answered and [lost] did not. *)
Definition account (n lost : Z) (s s' : DiscoveryStatistics) : Prop :=
  Statistics.processed_targets s' = Statistics.processed_targets s + n + lost ∧
  Statistics.successful_targets s' + Statistics.skipped_targets s'
    = Statistics.successful_targets s + Statistics.skipped_targets s + n ∧
  Statistics.failed_targets s' = Statistics.failed_targets s.

Lemma account_none s : account 0 0 s s.
Proof. unfold account. lia. Qed.

Lemma account_trans n m k l s1 s2 s3 : account n k s1 s2 → account m l s2 s3 → account (n + m) (k + l) s1 s3.
Proof. unfold account. lia. Qed.

Lemma run_account registry context w : draws_identifiers →
  match run registry context w with
  | (Ret result, w') => result_pipeline result = Discovery.pipeline_name context ∧
      ∀ ref, account (results_of ref [result]) 0 (objects w ref) (objects w' ref)
  | (Raise _, w') => ∃ lost, ∀ ref, account 0 (if (ref =? lost)%nat then 1 else 0) (objects w ref) (objects w' ref)
      ∨ objects w' = objects w
  end.
Proof.
  intros Hf. unfold run. destruct (resolve_pipeline registry _) as [self|e].
  2: { exists O. intros ref. by right. }
  erewrite bind_Ret by reflexivity. pose proof (execute_account self context w Hf) as H. cbv zeta in H.
  unfold bind. destruct (execute self context w) as [[snapshot|e] w']; destruct H as [He (_ & Hp & Hfl & Hs & _)].
  - cbn [ret]. split; [done|]. intros ref. unfold results_of. cbn [List.filter result_statistics].
    destruct (statistics self =? ref)%nat eqn:E.
    + apply Nat.eqb_eq in E as <-. unfold account. cbn [length is_ret] in *. lia.
    + apply Nat.eqb_neq in E. rewrite He by done. apply account_none.
  - exists (statistics self). intros ref. left. destruct (ref =? statistics self)%nat eqn:E.
    + apply Nat.eqb_eq in E as ->. unfold account. cbn [is_ret] in *. lia.
    + apply Nat.eqb_neq in E. rewrite He by done. apply account_none.
Qed.

(** A scheduler that answers has run the pipeline of every context once, in order, and the
    statistics of each pipeline account for its runs, every one as a success or as skipped; if
    it raises, at most the run that raised is missing from them, and no run is ever counted
    as failed. *)
Theorem runs_account registry contexts w : draws_identifiers →
  match run_all registry contexts w with
  | (Ret results, w') =>
      map result_pipeline results = map Discovery.pipeline_name contexts ∧
      ∀ ref, account (results_of ref results) 0 (objects w ref) (objects w' ref)
  | (Raise _, w') => ∀ ref, ∃ n lost, 0 <= n ∧ 0 <= lost <= 1 ∧ account n lost (objects w ref) (objects w' ref)
  end.
Proof.
  intros Hf. unfold run_all. revert w. induction contexts as [|context contexts IH]; intros w.
  - cbn. split; [done|]. intros ref. apply account_none.
  - cbn [map_m]. unfold bind at 1. pose proof (run_account registry context w Hf) as H1.
    destruct (run registry context w) as [[result|e] w1].
    2: { destruct H1 as [lost H1]. intros ref. destruct (H1 ref) as [Ha|Heq].
         - exists 0, (if (ref =? lost)%nat then 1 else 0). split; [lia|]. split; [destruct (ref =? lost)%nat; lia|done].
         - exists 0, 0. split; [lia|]. split; [lia|]. rewrite Heq. apply account_none. }
    destruct H1 as [Hname H1]. specialize (IH w1). unfold bind. destruct (map_m _ contexts w1) as [[results|e] w2].
    + destruct IH as [Hnames IH]. cbn [ret map]. split; [by rewrite Hname, Hnames|]. intros ref.
      replace (results_of ref (result :: results)) with (results_of ref [result] + results_of ref results).
      2: { unfold results_of. cbn [List.filter]. destruct (_ =? ref)%nat; cbn [length]; lia. }
      replace 0 with (0 + 0) by lia. eapply account_trans; [apply H1|apply IH].
    + intros ref. destruct (IH ref) as (n & lost & Hn & Hlost & Ha).
      exists (results_of ref [result] + n), (0 + lost). split; [unfold results_of; lia|].
      split; [lia|]. eapply account_trans; [apply H1|exact Ha].
Qed.
End Accounts.

(** ** Filters are the Boolean algebra they are named after *)

Lemma matches_demorgan filters context :
  matches (NotDiscoveryFilter (AndDiscoveryFilter filters)) context
  = matches (OrDiscoveryFilter (map NotDiscoveryFilter filters)) context.
Proof. cbn. induction filters as [|f fs IH]; [done|]. cbn. rewrite negb_andb. by f_equal. Qed.

(** ** On a pipeline *)

Module EngineExamples.
(** A clock and a supply that count. *)
#[local] Instance counting_clock : Clock nat := {| instant := Z.of_nat; tick := S |}.
#[local] Instance counting_ids : Uuids nat := λ s, (Ret (N.of_nat s), S s).

Definition empty_snapshot : Live.LiveInventorySnapshot := {|
  Live.devices := []; Live.snapshot_id := 1%N; Live.captured_at := 0;
  Live.version := SNAPSHOT_SCHEMA_VERSION; Live.source := None |}.
Definition collector (answer : outcome Live.LiveInventorySnapshot) : Source.BaseCollector nat := {|
  Source.name := "c"; Source.capabilities := []; Source.health_check _ := ret tt;
  Source.discover _ := ret []; Source.collect _ _ := ret []; Source.normalize _ _ _ := of_outcome answer |}.
Definition pipeline (answer : outcome Live.LiveInventorySnapshot) : DiscoveryPipeline nat := {|
  collector_registry := [("c", collector answer)]; snapshot_repository := None; filters := []; statistics := O |}.
Definition new_statistics : DiscoveryStatistics := {|
  Statistics.total_targets := 0; Statistics.processed_targets := 0; Statistics.discovered_targets := 0;
  Statistics.successful_targets := 0; Statistics.failed_targets := 0; Statistics.skipped_targets := 0;
  Statistics.started_at := 0; Statistics.completed_at := None |}.
Definition start : Store nat := {| objects _ := new_statistics; outside := 1%nat |}.
Definition a_context : DiscoveryContext := {|
  Discovery.target := {| Target.identifier := "t"; Target.address := "10.0.0.1"; Target.tenant_id := None;
    Target.vendor := None; Target.platform := None; Target.preferred_transport := None;
    Target.allowed_fallback_transports := []; Target.metadata := []; Target.capabilities := [] |};
  Discovery.required_capabilities := []; Discovery.pipeline_name := "default"; Discovery.run_id := 0%N;
  Discovery.correlation_id := None; Discovery.metadata := []; Discovery.started_at := 0 |}.

Lemma runs_account_witness :
  ∃ results w', run_all [("default", Some (pipeline (Ret empty_snapshot)))] [a_context; a_context] start
      = (Ret results, w') ∧
    account 2 0 (objects start O) (objects w' O).
Proof.
  pose proof (runs_account [("default", Some (pipeline (Ret empty_snapshot)))] [a_context; a_context] start
    (λ s, eq_refl)) as H.
  assert (match (run_all [("default", Some (pipeline (Ret empty_snapshot)))] [a_context; a_context] start).1 with
          | Ret results => results_of O results = 2 | Raise _ => False end) as Hn by (vm_compute; reflexivity).
  destruct (run_all _ _ start) as [[results|e] w'] eqn:E; cbn [fst] in Hn; [|destruct Hn].
  exists results, w'. split; [reflexivity|]. destruct H as [_ H]. specialize (H O). rewrite Hn in H. exact H.
Defined.

(** A run that raises is in no counter but that of the targets processed. *)
Example failed_run_not_counted :
  let '(r, w') := execute (pipeline (raise_ TimeoutError "")) a_context start in
  (is_ret r, Statistics.processed_targets (objects w' O), Statistics.failed_targets (objects w' O)) = (false, 1, 0).
Proof. reflexivity. Qed.

(** The first result shows what later runs did. *)
Example results_share_statistics :
  match run_all [("default", Some (pipeline (Ret empty_snapshot)))] [a_context; a_context] start with
  | (Ret (first :: _), w') => Statistics.processed_targets (objects w' (result_statistics first)) = 2
                              ∧ Statistics.total_targets (objects w' (result_statistics first)) = 1
  | _ => False
  end.
Proof. vm_compute. by split. Qed.
End EngineExamples.
