(* ===== verification/History.v ===== *)
(** * Immutable history ([persistence/repositories.py], [persistence/models.py])

    The tables of snapshots, comparison results, findings and evidence, the three
    repositories over them and the comparison of stored snapshots
    ([comparison/snapshot_service.py]).  Rows are only added: the models refuse updates and
    deletions.  Tables list their rows in the order they were added, which is also the
    order of a query without [ORDER BY]; the [created_at] of a row is drawn when it is
    built, and left out where nothing reads it.  A commit checks the foreign keys and the
    primary keys. *)

From S2P Require Import Prelude Vocabulary Effects Json EvidenceStore Dicts Texts JsonText.
From S2P Require Import Contracts Inventories SnapshotModels Comparison AuditTrail Records.
From stdpp Require Import sorting.
#[local] Open Scope Z_scope.

(** ** Rows *)

Module Snapshot.
Record SnapshotRecord := {
  id : UUID; created_at : datetime; source : string; tenant_id : string;
  source_label : option string; captured_at : datetime; schema_version : string;
  discovery_run_id : option UUID; payload : json;
}.
End Snapshot.

Module SnapshotDevice.
Record SnapshotDeviceRecord := {
  id : UUID; created_at : datetime; snapshot_id : UUID; device_id : string; name : string;
  manufacturer : option string; model : option string; serial_number : option string;
  product_id : option string; management_ip : option string; platform : option string;
  payload : json;
}.
End SnapshotDevice.

Module SnapshotInterface.
Record SnapshotInterfaceRecord := {
  id : UUID; snapshot_device_id : UUID; name : string; admin_status : option string;
  oper_status : option string; description : option string; mac_address : option string;
  speed_mbps : option Z; poe_status : option string;
}.
End SnapshotInterface.

Module SnapshotVLAN.
Record SnapshotVLANRecord := {
  id : UUID; snapshot_device_id : UUID; vlan_id : Z; name : string; status : option string;
}.
End SnapshotVLAN.

Module SnapshotNeighbor.
Record SnapshotNeighborRecord := {
  id : UUID; snapshot_device_id : UUID; local_interface : string; remote_device_id : string;
  remote_interface : option string; protocol : option string;
}.
End SnapshotNeighbor.

Module ComparisonRow.
Record ComparisonResultRecord := {
  id : UUID; created_at : datetime; expected_snapshot_id : UUID; observed_snapshot_id : UUID;
  compared_at : datetime; metrics : json;
}.
End ComparisonRow.

Module FindingRow.
Record FindingRecord := {
  id : UUID; created_at : datetime; comparison_result_id : UUID; finding_id : UUID; rule_id : UUID;
  title : string; severity : string; description : option string; expected_state : json;
  observed_state : json;
}.
End FindingRow.

Module EvidenceRow.
Record EvidenceRecord := {
  id : UUID; finding_record_id : UUID; evidence_id : UUID; source : string; description : string;
  reference : option string; captured_at : datetime; details : json;
}.
End EvidenceRow.

Module SyncJob.
Record NetBoxSyncJobRecord := {
  id : UUID; created_at : datetime; status : string; started_at : datetime;
  finished_at : option datetime; error_message : option string;
}.
End SyncJob.

Abbreviation RunRow := Run.DiscoveryRunRecord.
Abbreviation SnapshotRow := Snapshot.SnapshotRecord.
Abbreviation DeviceRow := SnapshotDevice.SnapshotDeviceRecord.
Abbreviation InterfaceRow := SnapshotInterface.SnapshotInterfaceRecord.
Abbreviation VLANRow := SnapshotVLAN.SnapshotVLANRecord.
Abbreviation NeighborRow := SnapshotNeighbor.SnapshotNeighborRecord.
Abbreviation ComparisonRecord := ComparisonRow.ComparisonResultRecord.
Abbreviation FindingRecord := FindingRow.FindingRecord.
Abbreviation EvidenceRecord := EvidenceRow.EvidenceRecord.
Abbreviation SyncJobRow := SyncJob.NetBoxSyncJobRecord.

(** [SnapshotSource]. *)
Inductive SnapshotSource := NETBOX | LIVE.
Definition SnapshotSource_value (s : SnapshotSource) : string :=
  match s with NETBOX => "netbox" | LIVE => "live" end.

(** ** Tables and sessions *)

Record Tables := {
  t_runs : list RunRow;
  t_snapshots : list SnapshotRow;
  t_devices : list DeviceRow;
  t_interfaces : list InterfaceRow;
  t_vlans : list VLANRow;
  t_neighbors : list NeighborRow;
  t_comparisons : list ComparisonRecord;
  t_findings : list FindingRecord;
  t_evidence : list EvidenceRecord;
  t_sync_jobs : list SyncJobRow;
}.

(** The rows of [b] after those of [a]. *)
Definition tables_app (a b : Tables) : Tables := {|
  t_runs := t_runs a ++ t_runs b;
  t_snapshots := t_snapshots a ++ t_snapshots b;
  t_devices := t_devices a ++ t_devices b;
  t_interfaces := t_interfaces a ++ t_interfaces b;
  t_vlans := t_vlans a ++ t_vlans b;
  t_neighbors := t_neighbors a ++ t_neighbors b;
  t_comparisons := t_comparisons a ++ t_comparisons b;
  t_findings := t_findings a ++ t_findings b;
  t_evidence := t_evidence a ++ t_evidence b;
  t_sync_jobs := t_sync_jobs a ++ t_sync_jobs b |}.

Definition no_rows : Tables := {|
  t_runs := []; t_snapshots := []; t_devices := []; t_interfaces := []; t_vlans := [];
  t_neighbors := []; t_comparisons := []; t_findings := []; t_evidence := []; t_sync_jobs := [] |}.

Definition eta_tables (t : Tables) : Tables := {|
  t_runs := t_runs t; t_snapshots := t_snapshots t; t_devices := t_devices t;
  t_interfaces := t_interfaces t; t_vlans := t_vlans t; t_neighbors := t_neighbors t;
  t_comparisons := t_comparisons t; t_findings := t_findings t; t_evidence := t_evidence t;
  t_sync_jobs := t_sync_jobs t |}.
Definition set_t_runs v (t : Tables) : Tables := ltac:(record_with eta_tables t_runs t v).
Definition set_t_snapshots v (t : Tables) : Tables := ltac:(record_with eta_tables t_snapshots t v).
Definition set_t_devices v (t : Tables) : Tables := ltac:(record_with eta_tables t_devices t v).
Definition set_t_interfaces v (t : Tables) : Tables := ltac:(record_with eta_tables t_interfaces t v).
Definition set_t_vlans v (t : Tables) : Tables := ltac:(record_with eta_tables t_vlans t v).
Definition set_t_neighbors v (t : Tables) : Tables := ltac:(record_with eta_tables t_neighbors t v).
Definition set_t_comparisons v (t : Tables) : Tables := ltac:(record_with eta_tables t_comparisons t v).
Definition set_t_findings v (t : Tables) : Tables := ltac:(record_with eta_tables t_findings t v).
Definition set_t_evidence v (t : Tables) : Tables := ltac:(record_with eta_tables t_evidence t v).
Definition set_t_sync_jobs v (t : Tables) : Tables := ltac:(record_with eta_tables t_sync_jobs t v).

(** A session: the tables as its transaction sees them, and as they are committed. *)
Record HistoryState := {
  tables : Tables;
  saved : Tables;
  history_clock : nat → datetime;
  history_ticks : nat;
  history_uuids : nat → UUID;
  history_drawn : nat;
}.

Definition eta_history (s : HistoryState) : HistoryState := {|
  tables := tables s; saved := saved s; history_clock := history_clock s;
  history_ticks := history_ticks s; history_uuids := history_uuids s;
  history_drawn := history_drawn s |}.
Definition set_tables v (s : HistoryState) : HistoryState := ltac:(record_with eta_history tables s v).
Definition set_saved v (s : HistoryState) : HistoryState := ltac:(record_with eta_history saved s v).
Definition set_history_ticks v (s : HistoryState) : HistoryState := ltac:(record_with eta_history history_ticks s v).
Definition set_history_drawn v (s : HistoryState) : HistoryState := ltac:(record_with eta_history history_drawn s v).

Abbreviation HistoryM := (M HistoryState).

#[export] Instance history_clock_instance : Clock HistoryState := {
  instant := λ s, history_clock s (history_ticks s);
  tick := λ s, set_history_ticks (Datatypes.S (history_ticks s)) s }.

#[export] Instance history_uuids_instance : Uuids HistoryState := λ s,
  (Ret (history_uuids s (history_drawn s)), set_history_drawn (Datatypes.S (history_drawn s)) s).

(** [session.add] of an object graph. *)
Definition add_rows (rows : Tables) : HistoryM unit := modify (λ s, set_tables (tables_app (tables s) rows) s).

Definition history_query {A} (f : Tables → A) : HistoryM A := gets (λ s, f (tables s)).

(** What the database requires of the rows. *)
Definition ids_of (t : Tables) : list (list UUID) := [
  map Run.id (t_runs t); map Snapshot.id (t_snapshots t); map SnapshotDevice.id (t_devices t);
  map SnapshotInterface.id (t_interfaces t); map SnapshotVLAN.id (t_vlans t);
  map SnapshotNeighbor.id (t_neighbors t); map ComparisonRow.id (t_comparisons t);
  map FindingRow.id (t_findings t); map EvidenceRow.id (t_evidence t); map SyncJob.id (t_sync_jobs t)].

Definition refers {A B} (key : A → UUID) (rows : list A) (id : B → UUID) (parents : list B) : bool :=
  forallb (λ a, mem (key a) (map id parents)) rows.

Definition foreign_keys (t : Tables) : bool :=
  forallb (λ s, match Snapshot.discovery_run_id s with
                | Some r => mem r (map Run.id (t_runs t)) | None => true end) (t_snapshots t)
  && refers SnapshotDevice.snapshot_id (t_devices t) Snapshot.id (t_snapshots t)
  && refers SnapshotInterface.snapshot_device_id (t_interfaces t) SnapshotDevice.id (t_devices t)
  && refers SnapshotVLAN.snapshot_device_id (t_vlans t) SnapshotDevice.id (t_devices t)
  && refers SnapshotNeighbor.snapshot_device_id (t_neighbors t) SnapshotDevice.id (t_devices t)
  && refers ComparisonRow.expected_snapshot_id (t_comparisons t) Snapshot.id (t_snapshots t)
  && refers ComparisonRow.observed_snapshot_id (t_comparisons t) Snapshot.id (t_snapshots t)
  && refers FindingRow.comparison_result_id (t_findings t) ComparisonRow.id (t_comparisons t)
  && refers EvidenceRow.finding_record_id (t_evidence t) FindingRow.id (t_findings t).

Definition sound (t : Tables) : bool :=
  forallb (λ ids, bool_decide (NoDup ids)) (ids_of t) && foreign_keys t.

Definition commit_history : HistoryM unit := λ s,
  if sound (tables s) then (Ret tt, set_saved (tables s) s)
  else (raise_ IntegrityError "constraint failed", s).

Definition rollback_history : HistoryM unit := modify (λ s, set_tables (saved s) s).

(** [PersistenceUnitOfWork] around a body that does not commit itself: an exception rolls
    back, an end commits, and what a commit raises becomes a [TransactionError]. *)
Definition unit_of_work {A} (body : HistoryM A) : HistoryM A :=
  a <- try_except body (λ exc, rollback_history ;;; reraise exc) ;;
  try_except commit_history (λ exc,
    if isinstance exc Exception_
    then raise TransactionError "Failed to commit persistence unit of work." else reraise exc) ;;;
  ret a.

Section Repositories.
Context {HF : FloatRepr} {HD : DatetimeText} {HL : LaxFields}.

(** [_json_safe]: [json.loads(json.dumps(value, default=str))]. *)
Definition json_safe (value : json) : HistoryM json :=
  match json_loads (json_dumps " " id value) with
  | Some j => ret j
  | None => raise ValueError "JSONDecodeError"
  end.

(** ** [HistoryRepository] *)

Definition create_discovery_run (target_identifier : string) (target_address : option string)
    (metadata : option dict) : HistoryM RunRow :=
  id <- fresh_uuid ;;
  created_at <- Effects.utc_now ;;
  started_at <- Effects.utc_now ;;
  let record := {|
    Run.id := id; Run.created_at := created_at; Run.target_identifier := target_identifier;
    Run.target_address := target_address; Run.tenant_id := None; Run.status := "started";
    Run.started_at := started_at; Run.finished_at := None;
    Run.metadata_json := from_option (λ m, m) [] metadata;
    Run.total_scanned := Some 0; Run.total_discovered := Some 0; Run.total_unreachable := Some 0;
    Run.total_reachable_no_management := Some 0; Run.total_authentication_failed := Some 0;
    Run.total_partial_discovery := Some 0; Run.total_unverified := Some 0 |} in
  add_rows (set_t_runs [record] no_rows) ;;;
  ret record.

Definition get_discovery_run (id : UUID) : HistoryM (option RunRow) :=
  history_query (λ t, List.find (λ r, Run.id r ≟ id) (t_runs t)).

Definition started_later (a b : RunRow) : Prop := Run.started_at b <= Run.started_at a.
#[export] Instance started_later_dec : RelDecision started_later.
Proof. intros a b. unfold started_later. apply _. Defined.

Definition list_discovery_runs : HistoryM (list RunRow) :=
  history_query (λ t, merge_sort started_later (t_runs t)).

(** [timeline]: [sorted(..., reverse=True)] keeps the order of records created together. *)
Definition record_created (r : RunRow + ComparisonRecord) : datetime :=
  match r with inl run => Run.created_at run | inr c => ComparisonRow.created_at c end.

Definition compared_later (a b : ComparisonRecord) : Prop :=
  ComparisonRow.compared_at b <= ComparisonRow.compared_at a.
#[export] Instance compared_later_dec : RelDecision compared_later.
Proof. intros a b. unfold compared_later. apply _. Defined.

Definition record_later (a b : RunRow + ComparisonRecord) : Prop := record_created b <= record_created a.
#[export] Instance record_later_dec : RelDecision record_later.
Proof. intros a b. unfold record_later. apply _. Defined.

Definition timeline : HistoryM (list (RunRow + ComparisonRecord)) :=
  discovery_runs <- list_discovery_runs ;;
  comparisons <- history_query (λ t, merge_sort compared_later (t_comparisons t)) ;;
  ret (merge_sort record_later (map inl discovery_runs ++ map inr comparisons)).

(** ** [SnapshotRepository]: storing *)

Definition interface_row (device_row : UUID) (i : InterfaceSnapshot.InterfaceSnapshot)
    : HistoryM InterfaceRow :=
  id <- fresh_uuid ;;
  ret {| SnapshotInterface.id := id; SnapshotInterface.snapshot_device_id := device_row;
    SnapshotInterface.name := InterfaceSnapshot.name i;
    SnapshotInterface.admin_status := InterfaceSnapshot.admin_status i;
    SnapshotInterface.oper_status := InterfaceSnapshot.oper_status i;
    SnapshotInterface.description := InterfaceSnapshot.description i;
    SnapshotInterface.mac_address := InterfaceSnapshot.mac_address i;
    SnapshotInterface.speed_mbps := InterfaceSnapshot.speed_mbps i;
    SnapshotInterface.poe_status := InterfaceSnapshot.poe_status i |}.

Definition vlan_row (device_row : UUID) (v : VLANSnapshot.VLANSnapshot) : HistoryM VLANRow :=
  id <- fresh_uuid ;;
  ret {| SnapshotVLAN.id := id; SnapshotVLAN.snapshot_device_id := device_row;
    SnapshotVLAN.vlan_id := VLANSnapshot.vlan_id v; SnapshotVLAN.name := VLANSnapshot.name v;
    SnapshotVLAN.status := VLANSnapshot.status v |}.

Definition neighbor_row (device_row : UUID) (n : NeighborSnapshot.NeighborSnapshot)
    : HistoryM NeighborRow :=
  id <- fresh_uuid ;;
  ret {| SnapshotNeighbor.id := id; SnapshotNeighbor.snapshot_device_id := device_row;
    SnapshotNeighbor.local_interface := NeighborSnapshot.local_interface n;
    SnapshotNeighbor.remote_device_id := NeighborSnapshot.remote_device_id n;
    SnapshotNeighbor.remote_interface := NeighborSnapshot.remote_interface n;
    SnapshotNeighbor.protocol := NeighborSnapshot.protocol n |}.

(** [_device_record]: the rows of one device of the snapshot. *)
Definition device_record (snapshot : UUID) (d : DeviceSnapshot.DeviceSnapshot) : HistoryM Tables :=
  id <- fresh_uuid ;;
  created_at <- Effects.utc_now ;;
  payload <- json_safe (dump d) ;;
  interfaces <- map_m (interface_row id) (DeviceSnapshot.interfaces d) ;;
  vlans <- map_m (vlan_row id) (DeviceSnapshot.vlans d) ;;
  neighbors <- map_m (neighbor_row id) (DeviceSnapshot.neighbors d) ;;
  let row := {|
    SnapshotDevice.id := id; SnapshotDevice.created_at := created_at;
    SnapshotDevice.snapshot_id := snapshot; SnapshotDevice.device_id := DeviceSnapshot.device_id d;
    SnapshotDevice.name := DeviceSnapshot.name d;
    SnapshotDevice.manufacturer := DeviceSnapshot.manufacturer d;
    SnapshotDevice.model := DeviceSnapshot.model d;
    SnapshotDevice.serial_number := DeviceSnapshot.serial_number d;
    SnapshotDevice.product_id := DeviceSnapshot.product_id d;
    SnapshotDevice.management_ip := DeviceSnapshot.management_ip d;
    SnapshotDevice.platform := DeviceSnapshot.platform d; SnapshotDevice.payload := payload |} in
  ret (no_rows |> set_t_devices [row] |> set_t_interfaces interfaces |> set_t_vlans vlans
       |> set_t_neighbors neighbors).

(** [add_live_snapshot]. *)
Definition add_live_snapshot (snapshot : Live.LiveInventorySnapshot) (run_id : option UUID)
    (tenant : string) : HistoryM SnapshotRow :=
  id <- fresh_uuid ;;
  created_at <- Effects.utc_now ;;
  payload <- json_safe (dump_live snapshot) ;;
  let record := {|
    Snapshot.id := id; Snapshot.created_at := created_at;
    Snapshot.source := SnapshotSource_value LIVE; Snapshot.tenant_id := tenant;
    Snapshot.source_label := Live.source snapshot; Snapshot.captured_at := Live.captured_at snapshot;
    Snapshot.schema_version := Live.version snapshot; Snapshot.discovery_run_id := run_id;
    Snapshot.payload := payload |} in
  devices <- map_m (device_record id) (Live.devices snapshot) ;;
  add_rows (fold_left tables_app devices (set_t_snapshots [record] no_rows)) ;;;
  ret record.

(** [_netbox_device_record]. *)
Definition netbox_interface_row (device_row : UUID) (i : Interface.Interface) : HistoryM InterfaceRow :=
  id <- fresh_uuid ;;
  ret {| SnapshotInterface.id := id; SnapshotInterface.snapshot_device_id := device_row;
    SnapshotInterface.name := Interface.name i;
    SnapshotInterface.admin_status := Some (if Interface.enabled i then "up" else "down");
    SnapshotInterface.oper_status := None; SnapshotInterface.description := Interface.description i;
    SnapshotInterface.mac_address := Interface.mac_address i; SnapshotInterface.speed_mbps := None;
    SnapshotInterface.poe_status := None |}.

Definition netbox_device_record (snapshot : UUID) (d : Device.Device)
    (interfaces : list Interface.Interface) : HistoryM Tables :=
  id <- fresh_uuid ;;
  created_at <- Effects.utc_now ;;
  payload <- json_safe (dump d) ;;
  rows <- map_m (netbox_interface_row id) interfaces ;;
  let row := {|
    SnapshotDevice.id := id; SnapshotDevice.created_at := created_at;
    SnapshotDevice.snapshot_id := snapshot; SnapshotDevice.device_id := Device.name d;
    SnapshotDevice.name := Device.name d;
    SnapshotDevice.manufacturer := Some (Manufacturer.name (DeviceType.manufacturer (Device.device_type d)));
    SnapshotDevice.model := Some (DeviceType.model (Device.device_type d));
    SnapshotDevice.serial_number := Device.serial d; SnapshotDevice.product_id := None;
    SnapshotDevice.management_ip := Device.primary_ip d;
    SnapshotDevice.platform := Platform.name <$> Device.platform d;
    SnapshotDevice.payload := payload |} in
  ret (no_rows |> set_t_devices [row] |> set_t_interfaces rows).

(** [interfaces_by_device]: by the name of the device they have, in order. *)
Definition interfaces_of (snapshot : NetBox.NetBoxInventorySnapshot) (device_name : string)
    : list Interface.Interface :=
  List.filter (λ i, str_truthy (Interface.device_name i) && (Interface.device_name i ≟ device_name))
    (NetBox.interfaces snapshot).

(** [add_netbox_snapshot]. *)
Definition add_netbox_snapshot (snapshot : NetBox.NetBoxInventorySnapshot) (tenant : string)
    : HistoryM SnapshotRow :=
  id <- fresh_uuid ;;
  captured_at <- Effects.utc_now ;;
  created_at <- Effects.utc_now ;;
  payload <- json_safe (dump snapshot) ;;
  let record := {|
    Snapshot.id := id; Snapshot.created_at := created_at;
    Snapshot.source := SnapshotSource_value NETBOX; Snapshot.tenant_id := tenant;
    Snapshot.source_label := Some "netbox"; Snapshot.captured_at := captured_at;
    Snapshot.schema_version := "netbox-canonical-v1"; Snapshot.discovery_run_id := None;
    Snapshot.payload := payload |} in
  devices <- map_m (λ d, netbox_device_record id d (interfaces_of snapshot (Device.name d)))
    (NetBox.devices snapshot) ;;
  add_rows (fold_left tables_app devices (set_t_snapshots [record] no_rows)) ;;;
  ret record.

(** ** [SnapshotRepository]: the jobs of the NetBox synchronization *)

Definition create_sync_job (job_id : UUID) : HistoryM SyncJobRow :=
  created_at <- Effects.utc_now ;;
  started_at <- Effects.utc_now ;;
  let job := {| SyncJob.id := job_id; SyncJob.created_at := created_at; SyncJob.status := "queued";
    SyncJob.started_at := started_at; SyncJob.finished_at := None; SyncJob.error_message := None |} in
  add_rows (set_t_sync_jobs [job] no_rows) ;;;
  ret job.

Definition get_sync_job (job_id : UUID) : HistoryM (option SyncJobRow) :=
  history_query (λ t, List.find (λ j, SyncJob.id j ≟ job_id) (t_sync_jobs t)).

Definition job_created_later (a b : SyncJobRow) : Prop := SyncJob.created_at b <= SyncJob.created_at a.
#[export] Instance job_created_later_dec : RelDecision job_created_later.
Proof. intros a b. unfold job_created_later. apply _. Defined.

Definition get_latest_sync_job : HistoryM (option SyncJobRow) :=
  history_query (λ t, head (merge_sort job_created_later (t_sync_jobs t))).

(** ** [SnapshotRepository]: reading *)

Definition get_snapshot (id : UUID) : HistoryM (option SnapshotRow) :=
  history_query (λ t, List.find (λ s, Snapshot.id s ≟ id) (t_snapshots t)).

Definition created_later (a b : SnapshotRow) : Prop := Snapshot.created_at b <= Snapshot.created_at a.
#[export] Instance created_later_dec : RelDecision created_later.
Proof. intros a b. unfold created_later. apply _. Defined.

Definition list_snapshots : HistoryM (list SnapshotRow) :=
  history_query (λ t, merge_sort created_later (t_snapshots t)).

Definition list_by_source (source : SnapshotSource) : HistoryM (list SnapshotRow) :=
  history_query (λ t, List.filter (λ s, Snapshot.source s ≟ SnapshotSource_value source) (t_snapshots t)).

(** [get_latest]. *)
Definition get_latest (source : string) : HistoryM (option SnapshotRow) :=
  let source_value := str_lower source in
  history_query (λ t, head (merge_sort created_later
    (List.filter (λ s, Snapshot.source s ≟ source_value) (t_snapshots t)))).

Definition device_created_later (a b : DeviceRow) : Prop :=
  SnapshotDevice.created_at b <= SnapshotDevice.created_at a.
#[export] Instance device_created_later_dec : RelDecision device_created_later.
Proof. intros a b. unfold device_created_later. apply _. Defined.

(** The snapshot a device joins. *)
Definition snapshot_of (t : Tables) (d : DeviceRow) : option SnapshotRow :=
  List.find (λ s, Snapshot.id s ≟ SnapshotDevice.snapshot_id d) (t_snapshots t).

Definition get_latest_live_devices : HistoryM (list DeviceRow) :=
  history_query (λ t, merge_sort device_created_later
    (List.filter (λ d, match snapshot_of t d with
                       | Some s => Snapshot.source s ≟ SnapshotSource_value LIVE
                       | None => false
                       end) (t_devices t))).

(** [if device_id: ... where(device_id == device_id)]. *)
Definition with_device_id (device_id : option string) (d : DeviceRow) : bool :=
  match device_id with
  | Some id => negb (str_truthy id) || (SnapshotDevice.device_id d ≟ id)
  | None => true
  end.

Definition devices_in (t : Tables) (snapshot_id : UUID) (device_id : option string) : list DeviceRow :=
  List.filter (λ d, (SnapshotDevice.snapshot_id d ≟ snapshot_id) && with_device_id device_id d) (t_devices t).

Definition get_snapshot_devices (snapshot_id : UUID) (device_id : option string) : HistoryM (list DeviceRow) :=
  history_query (λ t, devices_in t snapshot_id device_id).

(** Rows of a table that joins the devices. *)
Definition children_in {A} (key : A → UUID) (rows : Tables → list A) (t : Tables) (snapshot_id : UUID)
    (device_id : option string) : list A :=
  List.filter (λ a, existsb (λ d, SnapshotDevice.id d ≟ key a) (devices_in t snapshot_id device_id)) (rows t).

Definition get_snapshot_interfaces (snapshot_id : UUID) (device_id : option string)
    : HistoryM (list InterfaceRow) :=
  history_query (λ t, children_in SnapshotInterface.snapshot_device_id t_interfaces t snapshot_id device_id).
Definition get_snapshot_vlans (snapshot_id : UUID) (device_id : option string) : HistoryM (list VLANRow) :=
  history_query (λ t, children_in SnapshotVLAN.snapshot_device_id t_vlans t snapshot_id device_id).
Definition get_snapshot_neighbors (snapshot_id : UUID) (device_id : option string)
    : HistoryM (list NeighborRow) :=
  history_query (λ t, children_in SnapshotNeighbor.snapshot_device_id t_neighbors t snapshot_id device_id).

(** ** [FindingRepository] *)

(** What the engine drew when it made a result, its findings and their evidence. *)
Record ResultIdentity := {
  result_compared_at : datetime;
  finding_identity : nat → UUID;
  evidence_identity : nat → nat → UUID * datetime;
}.

Definition SeverityLevel_value (l : SeverityLevel) : string :=
  match l with
  | CRITICAL => "critical" | HIGH => "high" | MEDIUM => "medium" | LOW => "low" | INFO => "info"
  end.

Definition dump_metrics (m : ComparisonMetrics) : json := JDict [
  ("total_differences", JInt (total_differences m)); ("total_findings", JInt (total_findings m));
  ("missing", JInt (missing_count m)); ("unexpected", JInt (unexpected_count m));
  ("modified", JInt (modified_count m)); ("conflict", JInt (conflict_count m));
  ("duplicate", JInt (duplicate_count m)); ("unsupported", JInt (unsupported_count m));
  ("unknown", JInt (unknown_count m))].

Definition evidence_row (finding_row : UUID) (drawn : UUID * datetime) (e : Evidence)
    : HistoryM EvidenceRecord :=
  id <- fresh_uuid ;;
  details <- json_safe (JDict (Comparison.details e)) ;;
  ret {| EvidenceRow.id := id; EvidenceRow.finding_record_id := finding_row;
    EvidenceRow.evidence_id := drawn.1; EvidenceRow.source := Comparison.source e;
    EvidenceRow.description := evidence_description e; EvidenceRow.reference := reference e;
    EvidenceRow.captured_at := drawn.2; EvidenceRow.details := details |}.

Definition finding_rows (identity : ResultIdentity) (result_id : UUID) (p : nat * Finding) : HistoryM Tables :=
  let '(n, f) := p in
  id <- fresh_uuid ;;
  created_at <- Effects.utc_now ;;
  expected <- json_safe (JDict (Comparison.expected_state f)) ;;
  observed <- json_safe (JDict (Comparison.observed_state f)) ;;
  evidence <- map_m (λ '(k, e), evidence_row id (evidence_identity identity n k) e)
                (zip (seq 0 (length (Comparison.evidence f))) (Comparison.evidence f)) ;;
  let row := {|
    FindingRow.id := id; FindingRow.created_at := created_at; FindingRow.comparison_result_id := result_id;
    FindingRow.finding_id := finding_identity identity n; FindingRow.rule_id := Comparison.rule_id f;
    FindingRow.title := Comparison.title f;
    FindingRow.severity := SeverityLevel_value (level (severity f));
    FindingRow.description := finding_description f; FindingRow.expected_state := expected;
    FindingRow.observed_state := observed |} in
  ret (no_rows |> set_t_findings [row] |> set_t_evidence evidence).

(** [add_comparison_result]. *)
Definition add_comparison_result (identity : ResultIdentity) (result : InventoryComparisonResult)
    (expected_snapshot_id observed_snapshot_id : UUID) : HistoryM ComparisonRecord :=
  id <- fresh_uuid ;;
  created_at <- Effects.utc_now ;;
  metrics <- json_safe (dump_metrics (Comparison.metrics result)) ;;
  let record := {|
    ComparisonRow.id := id; ComparisonRow.created_at := created_at;
    ComparisonRow.expected_snapshot_id := expected_snapshot_id;
    ComparisonRow.observed_snapshot_id := observed_snapshot_id;
    ComparisonRow.compared_at := result_compared_at identity; ComparisonRow.metrics := metrics |} in
  findings <- map_m (finding_rows identity id)
                (zip (seq 0 (length (Comparison.findings result))) (Comparison.findings result)) ;;
  add_rows (fold_left tables_app findings (set_t_comparisons [record] no_rows)) ;;;
  ret record.

Definition get_comparison_result (id : UUID) : HistoryM (option ComparisonRecord) :=
  history_query (λ t, List.find (λ c, ComparisonRow.id c ≟ id) (t_comparisons t)).

(** The [findings] of a result and the [evidence] of a finding. *)
Definition findings_of (t : Tables) (c : ComparisonRecord) : list FindingRecord :=
  List.filter (λ f, FindingRow.comparison_result_id f ≟ ComparisonRow.id c) (t_findings t).
Definition evidence_of (t : Tables) (f : FindingRecord) : list EvidenceRecord :=
  List.filter (λ e, EvidenceRow.finding_record_id e ≟ FindingRow.id f) (t_evidence t).

Definition list_findings : HistoryM (list FindingRecord) := history_query t_findings.

(** [list_by_device]: [expected_state ->> 'device_id']. *)
Definition list_by_device (device_id : string) : HistoryM (list FindingRecord) :=
  history_query (λ t, List.filter (λ f,
    match FindingRow.expected_state f with
    | JDict d => match dict_get "device_id" d with
                 | Some (JStr s) => s ≟ device_id
                 | Some JNull | None => false
                 | Some v => json_dumps " " id v ≟ device_id
                 end
    | _ => false
    end) (t_findings t)).

Definition get_latest_comparison : HistoryM (option ComparisonRecord) :=
  history_query (λ t, head (merge_sort compared_later (t_comparisons t))).

(** ** Comparing stored snapshots ([comparison/snapshot_service.py]) *)

Definition incomparable {A} (message : string) : HistoryM A := raise SnapshotComparisonError message.

(** [SnapshotComparisonService.compare]; [fresh] is the identity a payload without one gets. *)
Definition compare_snapshots {HU : NameUUID} (identity : ResultIdentity) (fresh : UUID)
    (expected_snapshot_id observed_snapshot_id : UUID) (tenant : string) : HistoryM UUID :=
  expected <- get_snapshot expected_snapshot_id ;;
  observed <- get_snapshot observed_snapshot_id ;;
  match expected, observed with
  | Some expected, Some observed =>
      if negb (Snapshot.source expected ≟ SnapshotSource_value NETBOX) then
        incomparable "Expected snapshot must have source 'netbox'."
      else if negb (Snapshot.source observed ≟ SnapshotSource_value LIVE) then
        incomparable "Observed snapshot must have source 'live'."
      else
        match Snapshot.discovery_run_id observed with
        | None => incomparable "Observed live snapshot is not tenant-scoped."
        | Some run_id =>
            run <- get_discovery_run run_id ;;
            if negb (match run with Some r => Run.tenant_id r ≟ Some tenant | None => false end) then
              incomparable "Observed snapshot is not available to this tenant."
            else
              inventories <- try_except
                (expected_inventory <- of_outcome (validate (Snapshot.payload expected)) ;;
                 observed_inventory <- of_outcome (InventorySnapshotModel fresh (Snapshot.payload observed)) ;;
                 ret (expected_inventory, to_entity observed_inventory))
                (λ exc, if isinstance exc ValueError
                        then incomparable "Requested snapshot payload is invalid." else reraise exc) ;;
              let result := compare None inventories.1 inventories.2 in
              record <- add_comparison_result identity result (Snapshot.id expected) (Snapshot.id observed) ;;
              commit_history ;;;
              ret (ComparisonRow.id record)
        end
  | _, _ => incomparable "Requested snapshot was not found."
  end.
End Repositories.
