(* ===== verification/HistoryApi.v ===== *)
(** * The API over the history ([api/v1/])

    The routers that read what the history keeps: [inventory.py], [snapshots.py],
    [devices.py], [findings.py], [comparison.py] and [history.py].  A response is the record
    its schema declares; FastAPI checks the page numbers of a request before a handler
    runs. *)

From S2P Require Import Prelude Vocabulary Effects Json EvidenceStore Dicts Texts JsonText.
From S2P Require Import Contracts Inventories SnapshotModels Comparison Policies AuditTrail.
From S2P Require Import Records History.
From stdpp Require Import sorting.
#[local] Open Scope Z_scope.

Definition http_error {A} (status_code : Z) (detail : string) : HistoryM A :=
  raise (HTTPException status_code) detail.

(** [PaginatedResponse]. *)
Record PaginatedResponse (TItem : Type) := {
  page_items : list TItem; page_number : Z; page_size_of : Z; page_total : Z; page_has_next : bool;
}.
Arguments page_items {_}.
Arguments page_number {_}.
Arguments page_size_of {_}.
Arguments page_total {_}.
Arguments page_has_next {_}.

(** [Query(ge=1)] and [Query(ge=1, le=200)]. *)
Definition check_page_query (page page_size : Z) : HistoryM unit :=
  when ((page <? 1) || (page_size <? 1) || (200 <? page_size)) (http_error 422 "Unprocessable Entity").

(** [items[start:end]] for a page. *)
Definition page_slice {A} (page page_size : Z) (l : list A) : list A :=
  take (Z.to_nat page_size) (drop (Z.to_nat ((page - 1) * page_size)) l).

Definition page_of {A B} (to_response : A → B) (page page_size : Z) (l : list A) : PaginatedResponse B := {|
  page_items := map to_response (page_slice page page_size l);
  page_number := page; page_size_of := page_size; page_total := Z.of_nat (length l);
  page_has_next := (page - 1) * page_size + page_size <? Z.of_nat (length l) |}.

(** ** Inventories ([inventory.py], [schemas/inventory.py]) *)

Module DeviceItem.
Record DeviceSnapshotItem := {
  device_id : string; name : string; manufacturer : option string; model : option string;
  serial_number : option string; product_id : option string; management_ip : option string;
  platform : option string;
}.
End DeviceItem.

Definition device_item (d : DeviceRow) : DeviceItem.DeviceSnapshotItem := {|
  DeviceItem.device_id := SnapshotDevice.device_id d; DeviceItem.name := SnapshotDevice.name d;
  DeviceItem.manufacturer := SnapshotDevice.manufacturer d; DeviceItem.model := SnapshotDevice.model d;
  DeviceItem.serial_number := SnapshotDevice.serial_number d;
  DeviceItem.product_id := SnapshotDevice.product_id d;
  DeviceItem.management_ip := SnapshotDevice.management_ip d;
  DeviceItem.platform := SnapshotDevice.platform d |}.

Record InventoryListResponse := {
  inventory_source : string; inventory_snapshot_id : UUID; inventory_captured_at : datetime;
  inventory_device_count : Z; inventory_page : PaginatedResponse DeviceItem.DeviceSnapshotItem;
  inventory_manufacturers : list string; inventory_platforms : list string;
}.

Inductive InventorySortField := by_name | by_model | by_serial_number | by_platform | by_management_ip.

(** The query parameters of both listings. *)
Record InventoryQuery := {
  q_page : Z; q_page_size : Z; q_search : option string; q_manufacturer : option string;
  q_platform : option string; q_sort_by : InventorySortField; q_descending : bool;
}.

(** [(value or "").casefold()], and [value.strip().casefold() if value else ""]. *)
Definition casefold_opt (value : option string) : string := str_lower (from_option id "" value).
Definition normalized_query (value : option string) : string :=
  match value with Some s => if str_truthy s then str_lower (str_strip s) else "" | None => "" end.

Definition inventory_values (d : DeviceRow) : list (option string) := [
  Some (SnapshotDevice.device_id d); Some (SnapshotDevice.name d); SnapshotDevice.manufacturer d;
  SnapshotDevice.model d; SnapshotDevice.serial_number d; SnapshotDevice.product_id d;
  SnapshotDevice.management_ip d; SnapshotDevice.platform d].

(** [matches]. *)
Definition inventory_matches (q : InventoryQuery) (d : DeviceRow) : bool :=
  let normalized_search := normalized_query (q_search q) in
  let normalized_manufacturer := normalized_query (q_manufacturer q) in
  let normalized_platform := normalized_query (q_platform q) in
  (negb (str_truthy normalized_search)
   || existsb (λ value, str_in normalized_search (casefold_opt value)) (inventory_values d))
  && (negb (str_truthy normalized_manufacturer)
      || (casefold_opt (SnapshotDevice.manufacturer d) ≟ normalized_manufacturer))
  && (negb (str_truthy normalized_platform)
      || (casefold_opt (SnapshotDevice.platform d) ≟ normalized_platform)).

Definition inventory_key (field : InventorySortField) (d : DeviceRow) : string :=
  casefold_opt match field with
  | by_name => Some (SnapshotDevice.name d)
  | by_model => SnapshotDevice.model d
  | by_serial_number => SnapshotDevice.serial_number d
  | by_platform => SnapshotDevice.platform d
  | by_management_ip => SnapshotDevice.management_ip d
  end.

(** Before in the listing: [reverse=True] keeps the order of devices with one key. *)
Definition inventory_before (q : InventoryQuery) (a b : DeviceRow) : Prop :=
  let ka := inventory_key (q_sort_by q) a in let kb := inventory_key (q_sort_by q) b in
  (if q_descending q then str_leb kb ka else str_leb ka kb) = true.
#[export] Instance inventory_before_dec q : RelDecision (inventory_before q).
Proof. intros a b. unfold inventory_before. apply _. Defined.

Definition text_before (a b : string) : Prop := str_leb a b = true.
#[export] Instance text_before_dec : RelDecision text_before.
Proof. intros a b. unfold text_before. apply _. Defined.

(** [sorted({value for ... if value})]. *)
Definition distinct_values (values : list (option string)) : list string :=
  merge_sort text_before (remove_dups (List.filter str_truthy (omap id values))).

(** [_inventory_response]. *)
Definition inventory_response (q : InventoryQuery) (snapshot : SnapshotRow) (devices : list DeviceRow)
    : InventoryListResponse :=
  let filtered_devices := merge_sort (inventory_before q) (List.filter (inventory_matches q) devices) in
  {| inventory_source := Snapshot.source snapshot; inventory_snapshot_id := Snapshot.id snapshot;
     inventory_captured_at := Snapshot.captured_at snapshot;
     inventory_device_count := Z.of_nat (length devices);
     inventory_page := page_of device_item (q_page q) (q_page_size q) filtered_devices;
     inventory_manufacturers := distinct_values (map SnapshotDevice.manufacturer devices);
     inventory_platforms := distinct_values (map SnapshotDevice.platform devices) |}.

(** The constraints of the query parameters. *)
Definition check_inventory_query (q : InventoryQuery) : HistoryM unit :=
  let longer n (o : option string) := from_option (λ s, n <? Z.of_nat (String.length s)) false o in
  when (longer 200 (q_search q) || longer 255 (q_manufacturer q) || longer 255 (q_platform q))
    (http_error 422 "Unprocessable Entity") ;;;
  check_page_query (q_page q) (q_page_size q).

Definition list_netbox_inventory (q : InventoryQuery) : HistoryM InventoryListResponse :=
  check_inventory_query q ;;;
  snapshot <- get_latest "netbox" ;;
  match snapshot with
  | None => http_error 404 "No NetBox snapshot found. Run discovery first."
  | Some snapshot =>
      all_devices <- get_snapshot_devices (Snapshot.id snapshot) None ;;
      ret (inventory_response q snapshot all_devices)
  end.

Definition list_live_inventory (q : InventoryQuery) : HistoryM InventoryListResponse :=
  check_inventory_query q ;;;
  snapshot <- get_latest "live" ;;
  match snapshot with
  | None => http_error 404 "No live snapshot found. Run discovery first."
  | Some snapshot =>
      all_devices <- get_snapshot_devices (Snapshot.id snapshot) None ;;
      ret (inventory_response q snapshot all_devices)
  end.

(** ** Snapshots ([snapshots.py], [schemas/snapshots.py]) *)

Record SnapshotResponse := {
  sr_id : UUID; sr_source : string; sr_device_count : Z; sr_interface_count : Z; sr_vlan_count : Z;
  sr_neighbor_count : Z; sr_captured_at : datetime;
}.

Record InterfaceResponse := {
  ir_name : string; ir_admin_status : option string; ir_oper_status : option string;
  ir_description : option string; ir_mac_address : option string; ir_speed_mbps : option Z;
  ir_poe_status : option string;
}.

Record VlanResponse := { vr_vlan_id : Z; vr_name : string; vr_status : option string }.

Record NeighborResponse := {
  nr_neighbor_id : string; nr_remote_device_id : string; nr_remote_interface : option string;
  nr_local_interface : option string; nr_protocol : option string;
}.

(** [InterfaceListResponse], [VlanListResponse] and [NeighborListResponse]. *)
Record ChildListResponse (TItem : Type) := {
  cl_snapshot_id : UUID; cl_device_id : string; cl_count : Z; cl_items : list TItem;
}.
Arguments cl_snapshot_id {_}.
Arguments cl_device_id {_}.
Arguments cl_count {_}.
Arguments cl_items {_}.

Record SnapshotDeviceListResponse := {
  dl_snapshot_id : UUID; dl_source : string; dl_device_count : Z;
  dl_items : list DeviceItem.DeviceSnapshotItem;
}.

Definition count_of_rows {A} (l : list A) : Z := Z.of_nat (length l).

(** [repo.get], or 404. *)
Definition found_snapshot (snapshot_id : UUID) : HistoryM SnapshotRow :=
  snapshot <- get_snapshot snapshot_id ;;
  match snapshot with
  | None => http_error 404 "Snapshot not found."
  | Some snapshot => ret snapshot
  end.

Definition get_snapshot_route (snapshot_id : UUID) : HistoryM SnapshotResponse :=
  snapshot <- found_snapshot snapshot_id ;;
  devices <- get_snapshot_devices snapshot_id None ;;
  interfaces <- get_snapshot_interfaces snapshot_id None ;;
  vlans <- get_snapshot_vlans snapshot_id None ;;
  neighbors <- get_snapshot_neighbors snapshot_id None ;;
  ret {| sr_id := Snapshot.id snapshot; sr_source := Snapshot.source snapshot;
    sr_device_count := count_of_rows devices; sr_interface_count := count_of_rows interfaces;
    sr_vlan_count := count_of_rows vlans; sr_neighbor_count := count_of_rows neighbors;
    sr_captured_at := Snapshot.captured_at snapshot |}.

Definition list_snapshot_devices (snapshot_id : UUID) : HistoryM SnapshotDeviceListResponse :=
  snapshot <- found_snapshot snapshot_id ;;
  devices <- get_snapshot_devices snapshot_id None ;;
  ret {| dl_snapshot_id := snapshot_id; dl_source := Snapshot.source snapshot;
    dl_device_count := count_of_rows devices; dl_items := map device_item devices |}.

(** The snapshot and the device are found, or 404. *)
Definition found_device (snapshot_id : UUID) (device_id : string) : HistoryM unit :=
  found_snapshot snapshot_id ;;;
  devices <- get_snapshot_devices snapshot_id (Some device_id) ;;
  match devices with
  | [] => http_error 404 ("Device " +:+ device_id +:+ " not found in snapshot.")
  | _ => ret tt
  end.

Definition interface_response (i : InterfaceRow) : InterfaceResponse := {|
  ir_name := SnapshotInterface.name i; ir_admin_status := SnapshotInterface.admin_status i;
  ir_oper_status := SnapshotInterface.oper_status i; ir_description := SnapshotInterface.description i;
  ir_mac_address := SnapshotInterface.mac_address i; ir_speed_mbps := SnapshotInterface.speed_mbps i;
  ir_poe_status := SnapshotInterface.poe_status i |}.

Definition list_device_interfaces (snapshot_id : UUID) (device_id : string)
    : HistoryM (ChildListResponse InterfaceResponse) :=
  found_device snapshot_id device_id ;;;
  interfaces <- get_snapshot_interfaces snapshot_id (Some device_id) ;;
  ret {| cl_snapshot_id := snapshot_id; cl_device_id := device_id;
    cl_count := count_of_rows interfaces; cl_items := map interface_response interfaces |}.

Definition vlan_response (v : VLANRow) : VlanResponse := {|
  vr_vlan_id := SnapshotVLAN.vlan_id v; vr_name := SnapshotVLAN.name v;
  vr_status := SnapshotVLAN.status v |}.

Definition list_device_vlans (snapshot_id : UUID) (device_id : string)
    : HistoryM (ChildListResponse VlanResponse) :=
  found_device snapshot_id device_id ;;;
  vlans <- get_snapshot_vlans snapshot_id (Some device_id) ;;
  ret {| cl_snapshot_id := snapshot_id; cl_device_id := device_id;
    cl_count := count_of_rows vlans; cl_items := map vlan_response vlans |}.

Definition neighbor_response (n : NeighborRow) : NeighborResponse := {|
  nr_neighbor_id := SnapshotNeighbor.remote_device_id n;
  nr_remote_device_id := SnapshotNeighbor.remote_device_id n;
  nr_remote_interface := SnapshotNeighbor.remote_interface n;
  nr_local_interface := Some (SnapshotNeighbor.local_interface n);
  nr_protocol := SnapshotNeighbor.protocol n |}.

Definition list_device_neighbors (snapshot_id : UUID) (device_id : string)
    : HistoryM (ChildListResponse NeighborResponse) :=
  found_device snapshot_id device_id ;;;
  neighbors <- get_snapshot_neighbors snapshot_id (Some device_id) ;;
  ret {| cl_snapshot_id := snapshot_id; cl_device_id := device_id;
    cl_count := count_of_rows neighbors; cl_items := map neighbor_response neighbors |}.

(** ** Devices ([devices.py], [schemas/devices.py], [schemas/comparison.py]) *)

Module HistoryItem.
Record DeviceHistoryItem := {
  id : UUID; device_id : string; name : string; model : option string; serial_number : option string;
  platform : option string; created_at : datetime;
}.
End HistoryItem.

Record DeviceHistoryResponse := { dh_device_id : string; dh_items : list HistoryItem.DeviceHistoryItem }.

Module State.
Record ComparisonState := {
  device_id : string; name : option string; manufacturer : option string; model : option string;
  serial_number : option string; product_id : option string; management_ip : option string;
  platform : option string;
}.
End State.

Record VarianceSummary := {
  field_name : string; expected_value : json; observed_value : json; difference_type : string;
}.

Record DeviceComparisonResponse := {
  dc_device_id : string; dc_comparison_result_id : UUID; dc_compared_at : datetime;
  dc_expected_state : option State.ComparisonState; dc_observed_state : option State.ComparisonState;
  dc_variances : list VarianceSummary;
}.

Definition normalize_device_identity (value : option string) : string :=
  match value with None => "" | Some value => str_lower (str_strip value) end.

(** [_match_device_by_identity]: the first field that any device matches decides. *)
Definition match_device_by_identity (devices : list DeviceRow)
    (device_id name serial_number : option string) : option DeviceRow :=
  let found_by (raw : option string) (matches : string → DeviceRow → bool) :=
    match raw with None => None | Some value => List.find (matches value) devices end in
  match found_by device_id (λ value d, SnapshotDevice.device_id d ≟ value) with
  | Some d => Some d
  | None =>
      match found_by name (λ value d, normalize_device_identity (Some (SnapshotDevice.name d)) ≟
                                normalize_device_identity (Some value)) with
      | Some d => Some d
      | None => found_by serial_number (λ value d,
                  normalize_device_identity (SnapshotDevice.serial_number d) ≟
                  normalize_device_identity (Some value))
      end
  end.

Definition history_item (d : DeviceRow) : HistoryItem.DeviceHistoryItem := {|
  HistoryItem.id := SnapshotDevice.id d; HistoryItem.device_id := SnapshotDevice.device_id d;
  HistoryItem.name := SnapshotDevice.name d; HistoryItem.model := SnapshotDevice.model d;
  HistoryItem.serial_number := SnapshotDevice.serial_number d;
  HistoryItem.platform := SnapshotDevice.platform d;
  HistoryItem.created_at := SnapshotDevice.created_at d |}.

Definition get_device_history (device_id : string) (page page_size : Z) : HistoryM DeviceHistoryResponse :=
  check_page_query page page_size ;;;
  snapshots <- list_by_source LIVE ;;
  items <- history_query (λ t, flat_map (λ snapshot,
    List.filter (λ d, SnapshotDevice.device_id d ≟ device_id) (devices_in t (Snapshot.id snapshot) None))
    snapshots) ;;
  match items with
  | [] => http_error 404 "Device history not found"
  | _ => ret {| dh_device_id := device_id; dh_items := map history_item (page_slice page page_size items) |}
  end.

(** The device among the observed ones: by the requested identity and, when the expected
    device is known, by what it is called. *)
Definition observed_among (devices : list DeviceRow) (device_id : string) (expected : option DeviceRow)
    : option DeviceRow :=
  match match_device_by_identity devices (Some device_id)
          (Some (from_option SnapshotDevice.name device_id expected))
          (expected ≫= SnapshotDevice.serial_number) with
  | Some d => Some d
  | None =>
      expected ≫= λ e, match_device_by_identity devices None (Some (SnapshotDevice.name e))
                         (SnapshotDevice.serial_number e)
  end.

Section Device.
Context {HF : FloatRepr}.

Definition dict_of (j : json) : option dict := match j with JDict d => Some d | _ => None end.

(** Evidence of one of the [target_names]. *)
Definition about_targets (target_names : list string) (e : EvidenceRecord) : bool :=
  match dict_of (EvidenceRow.details e) with
  | None => false
  | Some details =>
      let subject_id :=
        normalize_device_identity (Some (py_str (dict_get_default "subject_id" JNull details))) in
      str_truthy subject_id
      && existsb (λ target_name, (subject_id ≟ target_name) || String.prefix (target_name +:+ ":") subject_id)
           target_names
  end.

(** [str(value or default)]. *)
Definition str_or (value : json) (default : string) : string :=
  if truthy value then py_str value else default.

(** The variance of a finding with its evidence. *)
Definition variance_of (observed_device : option DeviceRow) (f : FindingRecord)
    (evidence : list EvidenceRecord) : option VarianceSummary :=
  match dict_of (FindingRow.expected_state f), dict_of (FindingRow.observed_state f) with
  | Some expected_state, Some observed_state =>
      let diff_type := str_or (dict_get_default "difference_type"
        (dict_get_default "difference_type" JNull observed_state) expected_state) "UNKNOWN" in
      if bool_decide (observed_device ≠ None) && (str_lower diff_type ≟ "missing") then None
      else
        let evidence_details :=
          from_option id [] (head (omap (λ e, dict_of (EvidenceRow.details e)) evidence)) in
        Some {|
          field_name := str_or (dict_get_default "field_name"
            (dict_get_default "field_name" JNull expected_state) evidence_details) "unknown";
          expected_value := dict_get_default "value" JNull expected_state;
          observed_value := dict_get_default "value" JNull observed_state;
          difference_type := diff_type |}
  | _, _ => None
  end.

(** A field both devices have and differ in, when no variance is about it. *)
Definition modified_field (existing : list string) (names : list string) (field : string)
    (expected observed : option string) : list VarianceSummary :=
  let text o := from_option id "" o in
  if str_truthy (text expected) && str_truthy (text observed)
     && negb (normalize_device_identity expected ≟ normalize_device_identity observed)
     && forallb (λ name, negb (mem name existing)) names
  then [{| field_name := field; expected_value := opt_str expected; observed_value := opt_str observed;
           difference_type := "modified" |}]
  else [].

Definition device_variances (device_id : string) (expected_device observed_device : option DeviceRow)
    (from_findings : list VarianceSummary) : list VarianceSummary :=
  let variances := from_findings ++
    match expected_device, observed_device with
    | Some e, Some o =>
        let existing_fields := map field_name from_findings in
        modified_field existing_fields ["serial_number"; "serial"] "serial_number"
          (SnapshotDevice.serial_number e) (SnapshotDevice.serial_number o)
        ++ modified_field existing_fields ["model"] "model"
             (SnapshotDevice.model e) (SnapshotDevice.model o)
    | _, _ => []
    end in
  match observed_device, variances with
  | None, [] => [{| field_name := "device";
                    expected_value := JStr (from_option SnapshotDevice.name device_id expected_device);
                    observed_value := JNull; difference_type := "missing" |}]
  | _, _ => variances
  end.

Definition comparison_state (d : DeviceRow) : State.ComparisonState := {|
  State.device_id := SnapshotDevice.device_id d; State.name := Some (SnapshotDevice.name d);
  State.manufacturer := SnapshotDevice.manufacturer d; State.model := SnapshotDevice.model d;
  State.serial_number := SnapshotDevice.serial_number d; State.product_id := SnapshotDevice.product_id d;
  State.management_ip := SnapshotDevice.management_ip d; State.platform := SnapshotDevice.platform d |}.

(** The devices of a snapshot that may be gone. *)
Definition devices_of_snapshot (snapshot : option SnapshotRow) : HistoryM (list DeviceRow) :=
  match snapshot with
  | None => ret []
  | Some snapshot => get_snapshot_devices (Snapshot.id snapshot) None
  end.

Definition compare_device (device_id : string) (run_id : option UUID) : HistoryM DeviceComparisonResponse :=
  comparison <- match run_id with
                | Some run_id => get_comparison_result run_id
                | None => get_latest_comparison
                end ;;
  match comparison with
  | None => http_error 404 "No comparison found. Run discovery first."
  | Some comparison =>
      expected_snapshot <- get_snapshot (ComparisonRow.expected_snapshot_id comparison) ;;
      observed_snapshot <- get_snapshot (ComparisonRow.observed_snapshot_id comparison) ;;
      expected_devices <- devices_of_snapshot expected_snapshot ;;
      let expected_device :=
        match_device_by_identity expected_devices (Some device_id) (Some device_id) None in
      observed_devices <- devices_of_snapshot observed_snapshot ;;
      observed_device <-
        match observed_among observed_devices device_id expected_device with
        | Some d => ret (Some d)
        | None =>
            live_devices <- get_latest_live_devices ;;
            ret (observed_among live_devices device_id expected_device)
        end ;;
      match expected_device, observed_device with
      | None, None => http_error 404 ("Device " +:+ device_id +:+ " not found in any snapshot.")
      | _, _ =>
          let name_of (d : DeviceRow) := normalize_device_identity (Some (SnapshotDevice.name d)) in
          let target_names := normalize_device_identity (Some device_id)
            :: omap (fmap name_of) [expected_device; observed_device] in
          findings <- history_query (λ t, List.filter (λ e, existsb (about_targets target_names) e.2)
            (map (λ f, (f, evidence_of t f)) (findings_of t comparison))) ;;
          ret {| dc_device_id := device_id; dc_comparison_result_id := ComparisonRow.id comparison;
            dc_compared_at := ComparisonRow.compared_at comparison;
            dc_expected_state := comparison_state <$> expected_device;
            dc_observed_state := comparison_state <$> observed_device;
            dc_variances := device_variances device_id expected_device observed_device
              (omap (λ e, variance_of observed_device e.1 e.2) findings) |}
      end
  end.
End Device.

(** ** Findings, comparisons and runs ([findings.py], [comparison.py], [history.py]) *)

Module EvidenceItem.
Record EvidenceResponse := {
  id : UUID; source : string; description : string; reference : option string; details : json;
  captured_at : datetime;
}.
End EvidenceItem.

Module FindingItem.
Record FindingResponse := {
  id : UUID; finding_id : UUID; rule_id : string; title : string; severity : string;
  description : string; expected_state : json; observed_state : json;
  evidence : list EvidenceItem.EvidenceResponse; created_at : datetime;
}.
End FindingItem.

(** [value or {}]. *)
Definition or_empty (value : json) : json := if truthy value then value else JDict [].

Definition evidence_response (e : EvidenceRecord) : EvidenceItem.EvidenceResponse := {|
  EvidenceItem.id := EvidenceRow.id e; EvidenceItem.source := EvidenceRow.source e;
  EvidenceItem.description := EvidenceRow.description e; EvidenceItem.reference := EvidenceRow.reference e;
  EvidenceItem.details := or_empty (EvidenceRow.details e);
  EvidenceItem.captured_at := EvidenceRow.captured_at e |}.

(** [_to_response]. *)
Definition finding_response (t : Tables) (f : FindingRecord) : FindingItem.FindingResponse := {|
  FindingItem.id := FindingRow.id f; FindingItem.finding_id := FindingRow.finding_id f;
  FindingItem.rule_id := uuid_str (FindingRow.rule_id f); FindingItem.title := FindingRow.title f;
  FindingItem.severity := FindingRow.severity f;
  FindingItem.description := from_option id "" (FindingRow.description f);
  FindingItem.expected_state := or_empty (FindingRow.expected_state f);
  FindingItem.observed_state := or_empty (FindingRow.observed_state f);
  FindingItem.evidence := map evidence_response (evidence_of t f);
  FindingItem.created_at := FindingRow.created_at f |}.

Definition list_findings_route (page page_size : Z) : HistoryM (PaginatedResponse FindingItem.FindingResponse) :=
  check_page_query page page_size ;;;
  findings <- list_findings ;;
  history_query (λ t, page_of (finding_response t) page page_size findings).

Definition get_finding (finding_id : UUID) : HistoryM FindingItem.FindingResponse :=
  findings <- list_findings ;;
  match List.find (λ f, FindingRow.id f ≟ finding_id) findings with
  | None => http_error 404 "Finding not found"
  | Some f => history_query (λ t, finding_response t f)
  end.

Record ComparisonResultResponse := {
  cr_id : UUID; cr_status : string; cr_expected_snapshot_id : UUID; cr_observed_snapshot_id : UUID;
  cr_compared_at : datetime; cr_metrics : json; cr_findings : list (UUID * UUID);
}.

(** [_comparison_response]; a finding is its [id] and [rule_id]. *)
Definition comparison_response (t : Tables) (c : ComparisonRecord) : ComparisonResultResponse := {|
  cr_id := ComparisonRow.id c; cr_status := "completed";
  cr_expected_snapshot_id := ComparisonRow.expected_snapshot_id c;
  cr_observed_snapshot_id := ComparisonRow.observed_snapshot_id c;
  cr_compared_at := ComparisonRow.compared_at c; cr_metrics := or_empty (ComparisonRow.metrics c);
  cr_findings := map (λ f, (FindingRow.id f, FindingRow.rule_id f)) (findings_of t c) |}.

Definition get_comparison_route (run_id : UUID) : HistoryM ComparisonResultResponse :=
  record <- get_comparison_result run_id ;;
  match record with
  | None => http_error 404 "Comparison result not found"
  | Some c => history_query (λ t, comparison_response t c)
  end.

(** [compare_existing_snapshots], once the permission is checked. *)
Definition compare_existing_snapshots {HF : FloatRepr} {HD : DatetimeText} {HL : LaxFields} {HN : NameUUID}
    (identity : ResultIdentity) (fresh expected_snapshot_id observed_snapshot_id : UUID) (tenant_id : string)
    : HistoryM ComparisonResultResponse :=
  result_id <- try_except
    (compare_snapshots identity fresh expected_snapshot_id observed_snapshot_id tenant_id)
    (λ exc, if isinstance exc SnapshotComparisonError
            then rollback_history ;;; http_error 422 (exn_str exc) else reraise exc) ;;
  record <- get_comparison_result result_id ;;
  match record with
  | None => http_error 500 "Internal Server Error"
  | Some c => history_query (λ t, comparison_response t c)
  end.

Module RunItem.
Record DiscoveryRunSummary := {
  id : UUID; target_identifier : string; target_address : option string; status : string;
  metadata : json; created_at : datetime; started_at : datetime; finished_at : option datetime;
}.
End RunItem.

(** [_to_summary]. *)
Definition run_summary (r : RunRow) : RunItem.DiscoveryRunSummary := {|
  RunItem.id := Run.id r; RunItem.target_identifier := Run.target_identifier r;
  RunItem.target_address := Run.target_address r; RunItem.status := Run.status r;
  RunItem.metadata := or_empty (JDict (Run.metadata_json r)); RunItem.created_at := Run.created_at r;
  RunItem.started_at := Run.started_at r; RunItem.finished_at := Run.finished_at r |}.

Definition list_discovery_runs_route (page page_size : Z)
    : HistoryM (PaginatedResponse RunItem.DiscoveryRunSummary) :=
  check_page_query page page_size ;;;
  runs <- list_discovery_runs ;;
  ret (page_of run_summary page page_size runs).
