(* ===== verification/Analytics.v ===== *)
(** * Historical analytics ([analytics/])

    Trends, aggregates, forecasts, anomalies and recommendations over the runs and findings
    of the past.  An instant counts microseconds from the first of January 1970; the
    calendar functions of [datetime] the package uses are defined on it. *)

From Stdlib Require Import Qabs Lqa.
From S2P Require Import Prelude Vocabulary Effects Json EvidenceStore Dicts Texts Policies.
From stdpp Require Import sorting.
#[local] Open Scope Z_scope.

(** ** The calendar *)

Module Calendar.
Definition second : Z := 1000000.
Definition day : Z := 86400 * second.

(** Days since the epoch, and the time of the day. *)
Definition days (t : datetime) : Z := t / day.
Definition time_of_day (t : datetime) : Z := t mod day.

(** The proleptic Gregorian calendar, by eras of 400 years that begin in March. *)
Definition civil_of_days (n : Z) : Z * Z * Z :=
  let z := n + 719468 in
  let era := z / 146097 in
  let doe := z mod 146097 in
  let yoe := (doe - doe / 1460 + doe / 36524 - doe / 146096) / 365 in
  let doy := doe - (365 * yoe + yoe / 4 - yoe / 100) in
  let mp := (5 * doy + 2) / 153 in
  let m := if mp <? 10 then mp + 3 else mp - 9 in
  (yoe + era * 400 + (if m <=? 2 then 1 else 0), m, doy - (153 * mp + 2) / 5 + 1).

Definition days_of_civil (y m d : Z) : Z :=
  let y' := if m <=? 2 then y - 1 else y in
  let era := y' / 400 in
  let yoe := y' mod 400 in
  let doy := (153 * (if 2 <? m then m - 3 else m + 9) + 2) / 5 + d - 1 in
  era * 146097 + (yoe * 365 + yoe / 4 - yoe / 100 + doy) - 719468.

Definition year (t : datetime) : Z := let '(y, _, _) := civil_of_days (days t) in y.
Definition month (t : datetime) : Z := let '(_, m, _) := civil_of_days (days t) in m.
Definition day_of_month (t : datetime) : Z := let '(_, _, d) := civil_of_days (days t) in d.

(** [weekday()]: Monday is 0; the epoch was a Thursday. *)
Definition weekday (t : datetime) : Z := (days t + 3) mod 7.

(** [timedelta(days=n)]. *)
Definition timedelta_days (n : Z) : Z := n * day.

(** [replace(month=..., day=...)], for days every month has or the caller knows. *)
Definition replace_day (d : Z) (t : datetime) : datetime :=
  days_of_civil (year t) (month t) d * day + time_of_day t.
Definition replace_month_day (m d : Z) (t : datetime) : datetime :=
  days_of_civil (year t) m d * day + time_of_day t.
Definition midnight (t : datetime) : datetime := days t * day.

(** [strftime]: [%m] and [%d], and [%U], the weeks that begin on Sundays. *)
Definition two_digits (n : Z) : string := (if n <? 10 then "0" else "") +:+ pretty n.
Definition week_of_year (t : datetime) : Z :=
  let yday := days t - days_of_civil (year t) 1 1 in
  (yday + 7 - (weekday t + 1) mod 7) / 7.
Definition year_text (t : datetime) : string := pretty (year t).
Definition year_month (t : datetime) : string := year_text t +:+ "-" +:+ two_digits (month t).
Definition year_month_day (t : datetime) : string := year_month t +:+ "-" +:+ two_digits (day_of_month t).
Definition year_week (t : datetime) : string := year_text t +:+ "-W" +:+ two_digits (week_of_year t).
End Calendar.

(** ** Data ([analytics/context.py], [analytics/metadata.py], [analytics/models.py]) *)

Inductive AggregationGranularity := DAILY | WEEKLY | MONTHLY | QUARTERLY | YEARLY | CUSTOM.
#[export] Instance granularity_eq_dec : EqDecision AggregationGranularity.
Proof. solve_decision. Defined.

Inductive BaselineDirection :=
  | CURRENT_VS_PREVIOUS | CURRENT_VS_BASELINE | CURRENT_VS_FIRST_RUN | CURRENT_VS_SELECTED_RUN.

(** [float | int]. *)
Inductive number := AsInt (z : Z) | AsFloat (q : float).
Definition to_float (n : number) : float := match n with AsInt z => inject_Z z | AsFloat q => q end.

Module HistoricalRun.
Record HistoricalRunEntry := {
  run_id : UUID; started_at : datetime; completed_at : datetime; total_devices : Z;
  successful_targets : Z; total_targets : Z; compliance_score : number; critical_findings : Z;
  major_findings : Z; minor_findings : Z; missing_devices : Z; extra_devices : Z;
  changed_devices : Z; discovered_devices : Z; inventory_accuracy : option float;
  netbox_sync : option float; risk_score : option float;
}.
End HistoricalRun.
Abbreviation HistoricalRunEntry := HistoricalRun.HistoricalRunEntry.

Module HistoricalFinding.
Record HistoricalFindingEntry := {
  finding_id : UUID; run_id : UUID; title : string; severity : string; resolved : bool;
  created_at : datetime; resolved_at : option datetime; device_id : option string;
  platform : option string; vendor : option string;
}.
End HistoricalFinding.
Abbreviation HistoricalFindingEntry := HistoricalFinding.HistoricalFindingEntry.

Record HistoricalAnalyticsContext := {
  ctx_runs : list HistoricalRunEntry; ctx_findings : list HistoricalFindingEntry;
}.

Module Bucket.
Record AggregationBucket := {
  granularity : AggregationGranularity; start : datetime; stop : datetime; period_label : string;
  count : Z; compliance_score : float; risk_score : float; discovered_devices : Z;
}.
End Bucket.

Module Baseline.
Record BaselineComparison := {
  direction : BaselineDirection; current_run_id : UUID; baseline_run_id : UUID;
  compliance_delta : float; risk_delta : float;
}.
End Baseline.

Module Point.
Record ComparisonPoint := {
  previous_run_id : UUID; current_run_id : UUID; compliance_delta : float; risk_delta : float;
  discovered_delta : Z;
}.
End Point.

Module Stats.
Record AnalyticsStatistics := {
  device_growth : Z; vendor_distribution : list (string * Z); platform_distribution : list (string * Z);
  discovery_success_trend : float; compliance_trend : float; inventory_trend : Z; findings_trend : Z;
  risk_trend : float;
}.
End Stats.

Module Risk.
Record RiskAnalysis := {
  risk_delta : float; severity_movement : list (string * Z); risk_concentration : float;
  top_recurring_findings : list (string * Z); unstable_devices : list string;
  unstable_platforms : list string;
}.
End Risk.

Record TimelineEntry := {
  entry_kind : string; entry_timestamp : datetime; entry_label : string; entry_value : float;
}.

Inductive AnalyticsRecommendationCategory := COMPLIANCE | RISK | DISCOVERY | INVENTORY | OPERATIONAL.
Inductive AnalyticsRecommendationPriority := LOW_PRIORITY | MEDIUM_PRIORITY | HIGH_PRIORITY | CRITICAL_PRIORITY.
Inductive AnalyticsRecommendationAction := INVESTIGATE | REMEDIATE | MONITOR | ESCALATE.

Record AnalyticsRecommendation := {
  rec_category : AnalyticsRecommendationCategory; rec_action : AnalyticsRecommendationAction;
  rec_priority : AnalyticsRecommendationPriority; rec_message : string; rec_subject : string;
  rec_reason : string;
}.

Record AnalyticsTimelineEntry := {
  at_timestamp : datetime; at_title : string; at_details : string; at_severity : string;
}.

Record AnalyticsAnomaly := {
  anomaly_title : string; anomaly_severity : string; anomaly_details : string; anomaly_score : float;
}.

Record AnalyticsReport := {
  compliance_trend : string; risk_trend : string; discovery_trend : string; finding_evolution : float;
  recommendations : list AnalyticsRecommendation; anomalies : list AnalyticsAnomaly;
  timeline : list AnalyticsTimelineEntry; report_summary : string; report_metadata : dict;
}.

(** [run.risk_score or 0.0]. *)
Definition risk_of (r : HistoricalRunEntry) : float := from_option id 0%Q (HistoricalRun.risk_score r).
Definition compliance_of (r : HistoricalRunEntry) : float := to_float (HistoricalRun.compliance_score r).

Definition count_items {A} (l : list A) : Z := Z.of_nat (length l).
Definition sum_floats (l : list float) : float := fold_right Qplus 0%Q l.
Definition average (l : list float) : float := (sum_floats l / inject_Z (count_items l))%Q.

(** [round(x, n)]. *)
Definition round_digits (n : Z) (x : float) : float :=
  let scale := inject_Z (10 ^ n) in (inject_Z (round_half_even (x * scale)) / scale)%Q.

(** [max(a, b)] and [abs] of floats. *)
Definition float_max (a b : float) : float := if Qle_bool b a then a else b.
Definition float_gt (a b : float) : bool := negb (Qle_bool a b).

(** [Counter]: the items in the order they first came. *)
Fixpoint count_one (k : string) (counts : list (string * Z)) : list (string * Z) :=
  match counts with
  | [] => [(k, 1)]
  | (k', n) :: rest => if k ≟ k' then (k', n + 1) :: rest else (k', n) :: count_one k rest
  end.
Definition counter (keys : list string) : list (string * Z) := fold_left (λ c k, count_one k c) keys [].

(** ** Trends ([trends.py]) *)

Definition steps (series : list float) : list float :=
  match series with [] => [] | _ :: rest => zip_with (λ a b, Qabs (b - a)) series rest end.

Definition classify_trend (series : list float) : string :=
  match series, last series with
  | baseline :: _ :: _, Some latest =>
      let delta := (latest - baseline)%Q in
      let avg := average series in
      if Qeq_bool avg 0 then "stable"
      else if float_gt (sum_floats (steps series) / inject_Z (Z.max (count_items series - 1) 1))%Q
                (float_max ((1 # 10) * Qabs avg)%Q 2) then "volatile"
      else if Qle_bool (Qabs delta) (float_max 1 (Qabs avg * (3 # 100))%Q) then "stable"
      else if float_gt delta 0 then "increasing"
      else "decreasing"
  | _, _ => "stable"
  end.

Definition calculate_finding_evolution (total_findings resolved_findings : Z) : float :=
  if total_findings <=? 0 then 0%Q
  else round_digits 3 (inject_Z resolved_findings / inject_Z total_findings)%Q.

(** ** Forecasts ([forecasting.py], [regression.py], [scoring.py]) *)

Definition slice {A} (i j : nat) (l : list A) : list A := take (j - i) (drop i l).

Definition moving_average (series : list float) (window : Z) : list float :=
  let window := Z.to_nat (if window <=? 0 then 1 else window) in
  map (λ index, let start := (index + 1 - window)%nat in average (slice start (index + 1)%nat series))
    (seq 0 (length series)).

Definition offsets (horizon : Z) : list float :=
  map (λ k, inject_Z (Z.of_nat k)) (seq 1 (Z.to_nat horizon)).

Definition linear_projection (series : list float) (horizon : Z) : list float :=
  match series, last series with
  | first :: _ :: _, Some final =>
      let slope := ((final - first) / inject_Z (Z.max (count_items series - 1) 1))%Q in
      map (λ offset, (final + slope * offset)%Q) (offsets horizon)
  | _, _ => series
  end.

Definition trend_projection (series : list float) (horizon : Z) : list float :=
  match rev series with
  | final :: prior :: _ => map (λ offset, (final + (final - prior) * offset)%Q) (offsets horizon)
  | _ => series
  end.

Definition fit_linear_regression (x_values y_values : list float) : float * float :=
  if negb (length x_values =? length y_values)%nat then (0, 0)%Q
  else
    match x_values, y_values with
    | [], _ | _, [] => (0, 0)%Q
    | [_], y :: _ => (0%Q, y)
    | _, _ =>
        let x_mean := average x_values in
        let y_mean := average y_values in
        let numerator := sum_floats (zip_with (λ x y, ((x - x_mean) * (y - y_mean))%Q) x_values y_values) in
        let denominator := sum_floats (map (λ x, ((x - x_mean) * (x - x_mean))%Q) x_values) in
        if Qeq_bool denominator 0 then (0%Q, y_mean)
        else let slope := (numerator / denominator)%Q in (slope, (y_mean - slope * x_mean)%Q)
    end.

Definition score_risk (value : number) : float := round_digits 3 (to_float value).

(** ** Aggregation ([aggregation.py]) *)

Definition started_before (a b : HistoricalRunEntry) : Prop :=
  HistoricalRun.started_at a <= HistoricalRun.started_at b.
#[export] Instance started_before_dec : RelDecision started_before.
Proof. intros a b. unfold started_before. apply _. Defined.

(** [_bucket_end] and [_period_label]. *)
Definition bucket_end (value : datetime) (g : AggregationGranularity) : datetime :=
  match g with
  | WEEKLY => value + Calendar.timedelta_days 6
  | MONTHLY => Calendar.replace_day 28 value + Calendar.timedelta_days 4
  | QUARTERLY =>
      let quarter_end := (Calendar.month value - 1) / 3 * 3 + 3 in
      Calendar.replace_month_day quarter_end 28 value + Calendar.timedelta_days 4
  | YEARLY => Calendar.replace_month_day 12 31 value
  | DAILY | CUSTOM => value
  end.

Definition period_label (value : datetime) (g : AggregationGranularity) : string :=
  match g with
  | WEEKLY => Calendar.year_week value
  | MONTHLY => Calendar.year_month value
  | QUARTERLY => Calendar.year_text value +:+ "-Q%q"
  | YEARLY => Calendar.year_text value
  | DAILY | CUSTOM => Calendar.year_month_day value
  end.

(** [_rolling_window]; [runs[-window:]]. *)
Definition rolling_window_of {A} (runs : list A) (window : Z) : list A :=
  if count_items runs <=? window then runs
  else if window <=? 0 then drop (Z.to_nat (- window)) runs
  else drop (length runs - Z.to_nat window) runs.

(** The bucket at the cursor: a given [start] or [end] admits every run on its side. *)
Definition bucket_runs (ordered_runs : list HistoricalRunEntry) (start stop : option datetime)
    (rolling_window : option Z) (cursor bucket_stop : datetime) : list HistoricalRunEntry :=
  let runs := List.filter (λ run,
    (bool_decide (start ≠ None) || (cursor <=? HistoricalRun.started_at run))
    && (bool_decide (stop ≠ None) || (HistoricalRun.started_at run <? bucket_stop))) ordered_runs in
  match rolling_window with
  | None => runs
  | Some w => rolling_window_of runs (if w ≟ 0 then 1 else w)
  end.

Definition bucket_of (g : AggregationGranularity) (cursor bucket_stop : datetime)
    (runs : list HistoricalRunEntry) : Bucket.AggregationBucket := {|
  Bucket.granularity := g; Bucket.start := cursor; Bucket.stop := bucket_stop;
  Bucket.period_label := period_label cursor g; Bucket.count := count_items runs;
  Bucket.compliance_score := average (map compliance_of runs);
  Bucket.risk_score := average (map risk_of runs);
  Bucket.discovered_devices := foldr Z.add 0 (map HistoricalRun.discovered_devices runs) |}.

(** The loop of [aggregate_runs]; [None] when the fuel is out. *)
Fixpoint aggregate_loop (fuel : nat) (ordered_runs : list HistoricalRunEntry) (g : AggregationGranularity)
    (start stop : option datetime) (rolling_window : option Z) (cursor final : datetime)
    : option (list Bucket.AggregationBucket) :=
  if cursor <=? final then
    match fuel with
    | O => None
    | Datatypes.S fuel =>
        let bucket_stop := bucket_end cursor g in
        let runs := bucket_runs ordered_runs start stop rolling_window cursor bucket_stop in
        rest ← aggregate_loop fuel ordered_runs g start stop rolling_window (bucket_stop + 1) final;
        Some (match runs with [] => rest | _ => bucket_of g cursor bucket_stop runs :: rest end)
    end
  else Some [].

Definition aggregate_runs (runs : list HistoricalRunEntry) (g : AggregationGranularity)
    (start stop : option datetime) (rolling_window : option Z) : option (list Bucket.AggregationBucket) :=
  let ordered_runs := merge_sort started_before runs in
  match ordered_runs, last ordered_runs with
  | first :: _, Some latest =>
      let cursor := from_option id (HistoricalRun.started_at first) start in
      let final := from_option id (HistoricalRun.started_at latest) stop in
      aggregate_loop (Z.to_nat (final - cursor + 1)) ordered_runs g start stop rolling_window cursor final
  | _, _ => Some []
  end.

(** ** Filters and groups ([filtering.py], [grouping.py]) *)

Definition filter_runs_by_date (runs : list HistoricalRunEntry) (start stop : option datetime)
    : list HistoricalRunEntry :=
  let selected := match start with
    | Some start => List.filter (λ r, start <=? HistoricalRun.started_at r) runs
    | None => runs
    end in
  match stop with
  | Some stop => List.filter (λ r, HistoricalRun.started_at r <=? stop) selected
  | None => selected
  end.

Definition filter_findings_by_severity (findings : list HistoricalFindingEntry) (severity : string)
    : list HistoricalFindingEntry :=
  List.filter (λ f, str_lower (HistoricalFinding.severity f) ≟ str_lower severity) findings.

Definition group_runs_by_vendor (runs : list HistoricalRunEntry) : list (string * Z) :=
  counter (map (λ _, "default") runs).

Definition group_findings_by_severity (findings : list HistoricalFindingEntry) : list (string * Z) :=
  counter (map (λ f, str_lower (HistoricalFinding.severity f)) findings).

(** ** Comparisons and statistics ([baseline.py], [comparison.py], [statistics.py]) *)

Definition compare_to_baseline (current baseline : HistoricalRunEntry) (direction : BaselineDirection)
    : Baseline.BaselineComparison := {|
  Baseline.direction := direction; Baseline.current_run_id := HistoricalRun.run_id current;
  Baseline.baseline_run_id := HistoricalRun.run_id baseline;
  Baseline.compliance_delta := (compliance_of current - compliance_of baseline)%Q;
  Baseline.risk_delta := (risk_of current - risk_of baseline)%Q |}.

Definition comparison_point (previous current : HistoricalRunEntry) : Point.ComparisonPoint := {|
  Point.previous_run_id := HistoricalRun.run_id previous;
  Point.current_run_id := HistoricalRun.run_id current;
  Point.compliance_delta := (compliance_of current - compliance_of previous)%Q;
  Point.risk_delta := (risk_of current - risk_of previous)%Q;
  Point.discovered_delta :=
    HistoricalRun.discovered_devices current - HistoricalRun.discovered_devices previous |}.

Definition build_comparison_points (runs : list HistoricalRunEntry) : list Point.ComparisonPoint :=
  zip_with comparison_point runs (tail runs).

Definition calculate_statistics (runs : list HistoricalRunEntry) (findings : list HistoricalFindingEntry)
    : Stats.AnalyticsStatistics :=
  match runs, last runs with
  | earliest :: _, Some latest => {|
      Stats.device_growth := HistoricalRun.total_devices latest - HistoricalRun.total_devices earliest;
      Stats.vendor_distribution := [("default", count_items runs)];
      Stats.platform_distribution := [("default", count_items runs)];
      Stats.discovery_success_trend :=
        if HistoricalRun.total_targets latest ≟ 0 then 0%Q
        else (inject_Z (HistoricalRun.successful_targets latest)
              / inject_Z (HistoricalRun.total_targets latest))%Q;
      Stats.compliance_trend := (compliance_of latest - compliance_of earliest)%Q;
      Stats.inventory_trend :=
        HistoricalRun.discovered_devices latest - HistoricalRun.discovered_devices earliest;
      Stats.findings_trend := count_items findings;
      Stats.risk_trend := (risk_of latest - risk_of earliest)%Q |}
  | _, _ => {|
      Stats.device_growth := 0; Stats.vendor_distribution := []; Stats.platform_distribution := [];
      Stats.discovery_success_trend := 0%Q; Stats.compliance_trend := 0%Q; Stats.inventory_trend := 0;
      Stats.findings_trend := 0; Stats.risk_trend := 0%Q |}
  end.

(** ** Risk ([risk.py], [anomalies.py], [recommendations.py]) *)

(** By falling count, then by title. *)
Definition more_recurring (a b : string * Z) : Prop :=
  b.2 < a.2 ∨ (a.2 = b.2 ∧ str_leb a.1 b.1 = true).
#[export] Instance more_recurring_dec : RelDecision more_recurring.
Proof. intros a b. unfold more_recurring. apply _. Defined.

Definition label_before (a b : string) : Prop := str_leb a b = true.
#[export] Instance label_before_dec : RelDecision label_before.
Proof. intros a b. unfold label_before. apply _. Defined.

(** [sorted({value ... if value}, key=str)]. *)
Definition sorted_labels (values : list (option string)) : list string :=
  merge_sort label_before (remove_dups (List.filter str_truthy (omap id values))).

Definition calculate_risk_analysis (runs : list HistoricalRunEntry) (findings : list HistoricalFindingEntry)
    : Risk.RiskAnalysis :=
  match rev runs with
  | [] => {|
      Risk.risk_delta := 0%Q; Risk.severity_movement := []; Risk.risk_concentration := 0%Q;
      Risk.top_recurring_findings := []; Risk.unstable_devices := []; Risk.unstable_platforms := [] |}
  | latest :: earlier =>
      let previous := match earlier with p :: _ => p | [] => latest end in
      {| Risk.risk_delta := (risk_of latest - risk_of previous)%Q;
         Risk.severity_movement := counter (map (λ f, str_lower (HistoricalFinding.severity f)) findings);
         Risk.risk_concentration := (inject_Z (count_items findings) / inject_Z (Z.max (count_items runs) 1))%Q;
         Risk.top_recurring_findings := take 3 (merge_sort more_recurring
           (counter (List.filter str_truthy (map HistoricalFinding.title findings))));
         Risk.unstable_devices := sorted_labels (map HistoricalFinding.device_id findings);
         Risk.unstable_platforms := sorted_labels (map HistoricalFinding.platform findings) |}
  end.

(** The latest value and the one before it, when the first differs by more than [bound]. *)
Definition swing (values : list float) (bound : float) : option float :=
  match rev values with
  | latest :: prior :: _ =>
      let delta := (latest - prior)%Q in if float_gt (Qabs delta) bound then Some delta else None
  | _ => None
  end.

Definition detect_anomalies (risk_values compliance_values : list float) : list AnalyticsAnomaly :=
  match swing risk_values (2 # 10) with
  | Some delta => [{| anomaly_title := "Risk swing"; anomaly_severity := "high";
      anomaly_details := "Risk score changed materially between the latest runs.";
      anomaly_score := delta |}]
  | None => []
  end ++
  match swing compliance_values 8 with
  | Some delta => [{| anomaly_title := "Compliance swing"; anomaly_severity := "medium";
      anomaly_details := "Compliance score changed materially in the latest run.";
      anomaly_score := delta |}]
  | None => []
  end.

Definition recommend (c : AnalyticsRecommendationCategory) (a : AnalyticsRecommendationAction)
    (p : AnalyticsRecommendationPriority) (message subject reason : string) : AnalyticsRecommendation := {|
  rec_category := c; rec_action := a; rec_priority := p; rec_message := message; rec_subject := subject;
  rec_reason := reason |}.

Definition build_recommendations_from_risk (risk_delta : float) (recurring_findings : list (string * Z))
    : list AnalyticsRecommendation :=
  let recommendations :=
    (if float_gt risk_delta 0
     then [recommend RISK REMEDIATE HIGH_PRIORITY "Risk increased across historical runs." "risk" "risk-delta"]
     else []) ++
    match recurring_findings with
    | [] => []
    | _ => [recommend COMPLIANCE INVESTIGATE MEDIUM_PRIORITY
              "Recurring findings suggest a persistent issue cluster." "findings" "recurring-findings"]
    end in
  match recommendations with
  | [] => [recommend OPERATIONAL MONITOR LOW_PRIORITY
             "Historical activity remains within expectations." "history" "stable"]
  | _ => recommendations
  end.

(** ** The engine ([timeline.py], [engine.py], [service.py], [repository.py]) *)

Definition short_id (u : UUID) : string := String.substring 0 8 (uuid_str u).

Definition entry_before (a b : TimelineEntry) : Prop := entry_timestamp a <= entry_timestamp b.
#[export] Instance entry_before_dec : RelDecision entry_before.
Proof. intros a b. unfold entry_before. apply _. Defined.

Definition build_timeline (context : HistoricalAnalyticsContext) : list TimelineEntry :=
  merge_sort entry_before
    (map (λ run, {| entry_kind := "discovery"; entry_timestamp := HistoricalRun.started_at run;
                    entry_label := "Discovery run " +:+ short_id (HistoricalRun.run_id run);
                    entry_value := compliance_of run |}) (ctx_runs context) ++
     map (λ f, {| entry_kind := "finding"; entry_timestamp := HistoricalFinding.created_at f;
                  entry_label := HistoricalFinding.title f;
                  entry_value := if HistoricalFinding.resolved f then 1%Q else 0%Q |}) (ctx_findings context)).

Section Engine.
Context {HF : FloatRepr}.

(** [str(number)] and [str(bool)] in a formatted text. *)
Definition number_text (n : number) : string :=
  match n with AsInt z => pretty z | AsFloat q => float_repr q end.
Definition bool_text (b : bool) : string := if b then "True" else "False".

(** [HistoricalAnalyticsEngine._build_recommendations]. *)
Definition engine_recommendations (latest_run : HistoricalRunEntry) (findings : list HistoricalFindingEntry)
    : list AnalyticsRecommendation :=
  let recommendations :=
    (if from_option (λ score, float_gt score (4 # 10)) false (HistoricalRun.risk_score latest_run)
     then [recommend RISK REMEDIATE HIGH_PRIORITY
             "Risk score climbed in the latest run; inspect the affected devices." "latest-run" "risk-increase"]
     else []) ++
    (if existsb (λ f, negb (HistoricalFinding.resolved f)) findings
     then [recommend COMPLIANCE INVESTIGATE MEDIUM_PRIORITY
             "Open findings remain in history; focus remediation efforts on recurring issues."
             "findings" "open-findings"]
     else []) in
  match recommendations with
  | [] => [recommend OPERATIONAL MONITOR LOW_PRIORITY
             "Historical patterns remain stable; continue monitoring for regressions." "history" "stable"]
  | _ => recommendations
  end.

Definition at_before (a b : AnalyticsTimelineEntry) : Prop := at_timestamp a <= at_timestamp b.
#[export] Instance at_before_dec : RelDecision at_before.
Proof. intros a b. unfold at_before. apply _. Defined.

Definition run_entry (run : HistoricalRunEntry) : AnalyticsTimelineEntry := {|
  at_timestamp := HistoricalRun.started_at run;
  at_title := "Run " +:+ short_id (HistoricalRun.run_id run);
  at_details := "Compliance " +:+ number_text (HistoricalRun.compliance_score run) +:+ ", risk "
    +:+ float_repr (risk_of run) +:+ ", devices " +:+ pretty (HistoricalRun.total_devices run);
  at_severity := "info" |}.

Definition finding_entry (f : HistoricalFindingEntry) : AnalyticsTimelineEntry := {|
  at_timestamp := HistoricalFinding.created_at f; at_title := "Finding " +:+ HistoricalFinding.title f;
  at_details := "Severity " +:+ HistoricalFinding.severity f +:+ "; resolved="
    +:+ bool_text (HistoricalFinding.resolved f);
  at_severity := if str_lower (HistoricalFinding.severity f) ≟ "critical" then "critical" else "warning" |}.

(** [HistoricalAnalyticsEngine._build_timeline]. *)
Definition engine_timeline (context : HistoricalAnalyticsContext) : list AnalyticsTimelineEntry :=
  merge_sort at_before (map run_entry (ctx_runs context) ++ map finding_entry (ctx_findings context)).

Definition engine_summary (context : HistoricalAnalyticsContext) (latest_run : HistoricalRunEntry) : string :=
  "Historical analytics reviewed " +:+ pretty (count_items (ctx_runs context)) +:+ " runs and "
  +:+ pretty (count_items (ctx_findings context)) +:+ " findings. The latest run reached "
  +:+ number_text (HistoricalRun.compliance_score latest_run) +:+ "% compliance with risk "
  +:+ float_repr (risk_of latest_run) +:+ ".".

(** [analyze]. *)
Definition analyze (context : HistoricalAnalyticsContext) : AnalyticsReport :=
  match last (ctx_runs context) with
  | None => {|
      compliance_trend := "stable"; risk_trend := "stable"; discovery_trend := "stable";
      finding_evolution := 0%Q; recommendations := []; anomalies := []; timeline := [];
      report_summary := "No historical runs available."; report_metadata := [] |}
  | Some latest_run =>
      let compliance_values := map compliance_of (ctx_runs context) in
      let risk_values := map risk_of (ctx_runs context) in
      let discovery_values := map (λ r, inject_Z (HistoricalRun.discovered_devices r)) (ctx_runs context) in
      let total_findings := count_items (ctx_findings context) in
      let resolved_findings := count_items (List.filter HistoricalFinding.resolved (ctx_findings context)) in
      {| compliance_trend := classify_trend compliance_values; risk_trend := classify_trend risk_values;
         discovery_trend := classify_trend discovery_values;
         finding_evolution := calculate_finding_evolution total_findings resolved_findings;
         recommendations := engine_recommendations latest_run (ctx_findings context);
         anomalies := detect_anomalies risk_values compliance_values;
         timeline := engine_timeline context; report_summary := engine_summary context latest_run;
         report_metadata := [("run_count", JInt (count_items (ctx_runs context)));
                             ("finding_count", JInt total_findings);
                             ("resolved_count", JInt resolved_findings)] |}
  end.
End Engine.

(** ** The calendar is right, and the loop of the aggregation ends *)

(** [lia] with division by constants. *)
#[local] Ltac Zify.zify_post_hook ::= Z.to_euclidean_division_equations.

(** The days of an era less its leap days, and the first day of a year of the era. *)
Definition common_days (doe : Z) : Z := doe - doe / 1460 + doe / 36524 - doe / 146096.
Definition year_start (yoe : Z) : Z := 365 * yoe + yoe / 4 - yoe / 100.

Lemma common_days_step d : 0 <= d < 146096 → common_days d <= common_days (d + 1).
Proof.
  intros Hd. destruct (decide (d = 146095)) as [->|Hne]; [done|]. unfold common_days.
  rewrite (Z.div_small d 146096), (Z.div_small (d + 1) 146096) by lia.
  assert ((d + 1) / 1460 <= d / 1460 + 1) by lia. assert (d / 36524 <= (d + 1) / 36524) by lia. lia.
Qed.

Lemma common_days_mono a b : 0 <= a <= b → b <= 146096 → common_days a <= common_days b.
Proof.
  intros Ha Hb.
  assert (∀ k : nat, a + Z.of_nat k <= 146096 → common_days a <= common_days (a + Z.of_nat k)) as Hk.
  { induction k as [|k IH]; intros Hk; [by rewrite Z.add_0_r|].
    rewrite Nat2Z.inj_succ, <- Z.add_1_r, Z.add_assoc in Hk |- *.
    transitivity (common_days (a + Z.of_nat k)); [apply IH; lia|apply common_days_step; lia]. }
  specialize (Hk (Z.to_nat (b - a))). rewrite Z2Nat.id in Hk by lia.
  replace (a + (b - a)) with b in Hk by lia. by apply Hk.
Qed.

Fixpoint all_below (fuel : nat) (p : Z → bool) (i : Z) : bool :=
  match fuel with O => true | Datatypes.S fuel => p i && all_below fuel p (i + 1) end.

Lemma all_below_spec fuel p i : all_below fuel p i = true →
  ∀ j, i <= j < i + Z.of_nat fuel → p j = true.
Proof.
  revert i. induction fuel as [|fuel IH]; intros i H j Hj; [lia|]. cbn in H.
  apply andb_true_iff in H as [Hi H]. destruct (decide (i = j)) as [->|]; [done|].
  apply (IH _ H). lia.
Qed.

(** Year by year, the era's years begin where [common_days] passes a multiple of 365. *)
Lemma year_starts yoe : 0 <= yoe < 400 →
  365 * yoe <= common_days (year_start yoe) ∧
  common_days (year_start (yoe + 1) - 1) <= 365 * yoe + 364.
Proof.
  intros Hy.
  assert (all_below 400 (λ y, (365 * y <=? common_days (year_start y))
    && (common_days (year_start (y + 1) - 1) <=? 365 * y + 364)) 0 = true) as Hall by (vm_compute; reflexivity).
  pose proof (all_below_spec _ _ _ Hall yoe ltac:(lia)) as H. cbv beta in H. lia.
Qed.

Lemma year_of_era doe : 0 <= doe < 146097 →
  let yoe := common_days doe / 365 in 0 <= yoe < 400 ∧ year_start yoe <= doe <= year_start yoe + 365.
Proof.
  intros Hd. cbv zeta. set (yoe := common_days doe / 365).
  pose proof (Z.div_mod (common_days doe) 365 ltac:(lia)) as Hm.
  pose proof (Z.mod_pos_bound (common_days doe) 365 ltac:(lia)) as Hb. fold yoe in Hm.
  pose proof (common_days_mono 0 doe ltac:(lia) ltac:(lia)) as H0.
  pose proof (common_days_mono doe 146096 ltac:(lia) ltac:(lia)) as H1.
  change (common_days 0) with 0 in H0. change (common_days 146096) with 145999 in H1.
  assert (0 <= yoe < 400) as Hy by lia. split; [done|].
  assert (year_start yoe <= doe) as Hlow.
  { destruct (decide (yoe = 0)) as [E|]; [rewrite E; change (year_start 0) with 0; lia|].
    destruct (decide (year_start yoe <= doe)); [done|exfalso].
    pose proof (year_starts (yoe - 1) ltac:(lia)) as [_ Hs].
    replace (yoe - 1 + 1) with yoe in Hs by lia.
    assert (year_start yoe <= 146097) by (unfold year_start; lia).
    pose proof (common_days_mono doe (year_start yoe - 1) ltac:(lia) ltac:(lia)). lia. }
  split; [done|]. destruct (decide (doe <= year_start yoe + 365)); [done|exfalso].
  assert (year_start (yoe + 1) <= doe) as Hnext by (unfold year_start in *; lia).
  assert (yoe + 1 < 400) as Hlt.
  { destruct (decide (yoe = 399)) as [E|]; [|lia]. rewrite E in n.
    change (year_start 399) with 145731 in n. lia. }
  pose proof (year_starts (yoe + 1) ltac:(lia)) as [Hs _].
  assert (0 <= year_start (yoe + 1)) by (unfold year_start; lia).
  pose proof (common_days_mono (year_start (yoe + 1)) doe ltac:(lia) ltac:(lia)). lia.
Qed.

(** The day before the first of March of a year; dates from then on. *)
Definition march_start (y : Z) : Z := y / 400 * 146097 + year_start (y mod 400) - 719468.

Lemma civil_from_march y m d : 2 < m →
  Calendar.days_of_civil y m d = march_start y + (153 * (m - 3) + 2) / 5 + d - 1.
Proof.
  intros Hm. unfold Calendar.days_of_civil, march_start, year_start.
  destruct (m <=? 2) eqn:E1, (2 <? m) eqn:E2; clear - Hm E1 E2; lia.
Qed.

Lemma civil_to_march y m d : m <= 2 →
  Calendar.days_of_civil (y + 1) m d = march_start y + (153 * (m + 9) + 2) / 5 + d - 1.
Proof.
  intros Hm. unfold Calendar.days_of_civil, march_start, year_start. rewrite Z.add_simpl_r.
  destruct (m <=? 2) eqn:E1, (2 <? m) eqn:E2; clear - Hm E1 E2; lia.
Qed.

Lemma march_start_next y : march_start y + 365 <= march_start (y + 1).
Proof.
  unfold march_start, year_start. pose proof (Z.div_mod y 400 ltac:(lia)) as Hy.
  pose proof (Z.mod_pos_bound y 400 ltac:(lia)) as Hb. set (e := y / 400) in *. set (r := y mod 400) in *.
  replace (y + 1) with (r + 1 + e * 400) by lia. rewrite Z.div_add, Z.mod_add by lia. clearbody e r.
  destruct (decide (r = 399)) as [->|].
  - change ((399 + 1) / 400) with 1. change ((399 + 1) mod 400) with 0. lia.
  - rewrite (Z.div_small (r + 1) 400), (Z.mod_small (r + 1) 400) by lia. lia.
Qed.

Lemma march_start_era yoe e : 0 <= yoe < 400 →
  march_start (yoe + e * 400) = e * 146097 + year_start yoe - 719468.
Proof.
  intros Hy. unfold march_start.
  rewrite Z.div_add, Z.mod_add, Z.div_small, Z.mod_small by lia. lia.
Qed.

(** A day is the day of its date, and lies before the ends of its quarter and its year. *)
Lemma civil_roundtrip n : let '(y, m, d) := Calendar.civil_of_days n in
  1 <= m <= 12 ∧ 1 <= d <= 31 ∧ Calendar.days_of_civil y m d = n ∧
  n <= Calendar.days_of_civil y 12 31 ∧ n < Calendar.days_of_civil y ((m - 1) / 3 * 3 + 3) 28 + 4.
Proof.
  unfold Calendar.civil_of_days. fold (common_days ((n + 719468) mod 146097)).
  set (e := (n + 719468) / 146097). set (doe := (n + 719468) mod 146097).
  pose proof (Z.mod_pos_bound (n + 719468) 146097 ltac:(lia)) as Hb.
  pose proof (Z.div_mod (n + 719468) 146097 ltac:(lia)) as Hdiv. fold e doe in Hb, Hdiv.
  destruct (year_of_era doe Hb) as [Hy Hdoy]. set (yoe := common_days doe / 365) in *.
  fold (year_start yoe). set (doy := doe - year_start yoe) in *.
  assert (0 <= doy <= 365) as Hdoy' by (unfold doy; lia).
  set (mp := (5 * doy + 2) / 153) in *. assert (0 <= mp <= 11) as Hmp by (unfold mp; lia).
  assert (0 <= doy - (153 * mp + 2) / 5 <= 30) as Hd by (unfold mp; lia).
  assert (n = march_start (yoe + e * 400) + doy) as Hn by (rewrite march_start_era by done; unfold doy; lia).
  clearbody yoe e. clear Hdoy Hb Hdiv Hy. clearbody doy. clear doe. set (y := yoe + e * 400) in *. clearbody y.
  pose proof (march_start_next y) as Hnext.
  destruct (mp <? 10) eqn:Em.
  - replace (if mp + 3 <=? 2 then 1 else 0) with 0 by (destruct (mp + 3 <=? 2) eqn:?; lia). rewrite Z.add_0_r.
    rewrite !civil_from_march by lia. replace (mp + 3 - 3) with mp by lia.
    assert (mp ∈ [0; 1; 2; 3; 4; 5; 6; 7; 8; 9]) as Hin by (clear - Hmp Em; set_unfold; lia).
    clearbody mp. set_unfold in Hin.
    repeat destruct Hin as [->|Hin]; try done; clear - Hn Hd Hdoy'; lia.
  - replace (if mp - 9 <=? 2 then 1 else 0) with 1 by (destruct (mp - 9 <=? 2) eqn:?; lia).
    rewrite civil_to_march, !civil_from_march by lia. replace (mp - 9 + 9) with mp by lia.
    split; [lia|]. split; [lia|]. split; [lia|]. split; lia.
Qed.

Lemma time_of_day_spec t : t = Calendar.days t * Calendar.day + Calendar.time_of_day t.
Proof. unfold Calendar.days, Calendar.time_of_day. pose proof (Z.div_mod t Calendar.day). unfold Calendar.day, Calendar.second in *. lia. Qed.

(** The end of a bucket is not before its start. *)
Lemma bucket_end_after t g : t <= bucket_end t g.
Proof.
  pose proof (time_of_day_spec t) as Ht. pose proof (civil_roundtrip (Calendar.days t)) as Hc.
  unfold bucket_end, Calendar.replace_day, Calendar.replace_month_day, Calendar.timedelta_days,
    Calendar.month, Calendar.year.
  destruct (Calendar.civil_of_days (Calendar.days t)) as [[y m] d].
  destruct Hc as (Hm & Hd & Hn & Hy & Hq).
  assert (Calendar.days_of_civil y m 28 = Calendar.days t + 28 - d) as H28.
  { rewrite <- Hn. unfold Calendar.days_of_civil. lia. }
  assert (0 < Calendar.day) as Hday by done.
  assert (∀ a, Calendar.days t <= a → t <= a * Calendar.day + Calendar.time_of_day t) as Hmono.
  { intros a Ha. rewrite Ht at 1. apply Z.add_le_mono_r, Z.mul_le_mono_nonneg_r; lia. }
  destruct g; try (clear -Hday; lia).
  - rewrite H28. specialize (Hmono (Calendar.days t + 28 - d + 4)). lia.
  - specialize (Hmono (Calendar.days_of_civil y ((m - 1) / 3 * 3 + 3) 28 + 4)). lia.
  - by apply Hmono.
Qed.

Lemma aggregate_loop_total fuel runs g start stop w cursor final :
  final - cursor + 1 <= Z.of_nat fuel →
  ∃ buckets, aggregate_loop fuel runs g start stop w cursor final = Some buckets.
Proof.
  revert cursor. induction fuel as [|fuel IH]; intros cursor Hf; cbn.
  { destruct (cursor <=? final) eqn:E; [lia|by eexists]. }
  destruct (cursor <=? final) eqn:E; [|by eexists].
  pose proof (bucket_end_after cursor g).
  destruct (IH (bucket_end cursor g + 1)) as [rest ->]; [lia|]. by eexists.
Qed.

(** The buckets of the loop cover the time from the cursor on, in order. *)
Fixpoint buckets_in_order (from : datetime) (buckets : list Bucket.AggregationBucket) : Prop :=
  match buckets with
  | [] => True
  | b :: rest => from <= Bucket.start b ∧ Bucket.start b <= Bucket.stop b ∧ 0 < Bucket.count b ∧
      buckets_in_order (Bucket.stop b + 1) rest
  end.

Lemma buckets_in_order_weaken from from' buckets : from <= from' →
  buckets_in_order from' buckets → buckets_in_order from buckets.
Proof. destruct buckets; [done|]. cbn. intros ? (? & ? & ? & ?). split_and!; [lia|done..]. Qed.

Lemma aggregate_loop_order fuel runs g start stop w cursor final buckets :
  aggregate_loop fuel runs g start stop w cursor final = Some buckets →
  buckets_in_order cursor buckets ∧ Forall (λ b, Bucket.start b <= final ∧ Bucket.granularity b = g) buckets.
Proof.
  revert cursor buckets. induction fuel as [|fuel IH]; intros cursor buckets; cbn.
  { destruct (cursor <=? final); [done|]. by intros [= <-]. }
  destruct (cursor <=? final) eqn:E; [|by intros [= <-]].
  destruct (aggregate_loop fuel _ _ _ _ _ _ _) as [rest|] eqn:Er; [|done]. cbn.
  apply IH in Er as [Ho Hf]. pose proof (bucket_end_after cursor g).
  destruct (bucket_runs _ _ _ _ _ _) as [|r rs] eqn:Eb; intros [= <-].
  - split; [|done]. eapply buckets_in_order_weaken; [|done]. lia.
  - cbn. split; [split_and!; [lia|done|unfold count_items; cbn; lia|done]|].
    constructor; [|done]. cbn. split; [lia|done].
Qed.


(** ** The theorems *)

(** The aggregation of runs always ends, whatever the calendar makes of a bucket's end:
    every bucket has at least one run, starts in the asked range, is not empty in time, and
    starts after the one before it has ended. *)
Theorem aggregate_runs_total runs g start stop w :
  ∃ buckets, aggregate_runs runs g start stop w = Some buckets ∧
    Forall (λ b, Bucket.granularity b = g ∧ from_option (λ t, t <= Bucket.start b) True start ∧
      from_option (λ t, Bucket.start b <= t) True stop) buckets ∧
    match buckets with [] => True | b :: _ => buckets_in_order (Bucket.start b) buckets end.
Proof.
  unfold aggregate_runs. destruct (merge_sort started_before runs) as [|first rest] eqn:Es; [by exists []|].
  destruct (last (first :: rest)) as [latest|] eqn:El; [|by exists []]. cbv zeta.
  set (cursor := from_option id (HistoricalRun.started_at first) start).
  set (final := from_option id (HistoricalRun.started_at latest) stop).
  destruct (aggregate_loop_total (Z.to_nat (final - cursor + 1)) (first :: rest) g start stop w cursor final)
    as [buckets E]; [lia|].
  exists buckets. split; [exact E|]. apply aggregate_loop_order in E as [Ho Hf].
  split; [|destruct buckets; [done|]; cbn in Ho |- *; destruct Ho as (? & ? & ? & ?); by split_and!].
  assert (∀ from, cursor <= from → buckets_in_order from buckets →
    Forall (λ b, Bucket.start b <= final ∧ Bucket.granularity b = g) buckets →
    Forall (λ b, Bucket.granularity b = g ∧ from_option (λ t, t <= Bucket.start b) True start ∧
      from_option (λ t, Bucket.start b <= t) True stop) buckets) as Hall.
  { clear Ho Hf. induction buckets as [|b bs IH]; intros from Hfrom Hord Hfs; [constructor|].
    destruct Hord as (? & ? & _ & Hord). apply Forall_cons in Hfs as [[Hb Hg] Hfs].
    constructor; [|apply (IH (Bucket.stop b + 1)); [lia|done|done]].
    split; [done|]. unfold cursor, final in *. destruct start, stop; cbn in *; split_and!; done || lia. }
  by apply (Hall cursor).
Qed.

(** A day's bucket ends at the instant it starts, so that without a range no run is in any:
    the default aggregation is always empty, after one turn of the loop for every
    microsecond between the first and the last run. *)
Lemma bucket_runs_daily runs w cursor : bucket_runs runs None None w cursor cursor = [].
Proof.
  unfold bucket_runs. cbv zeta. match goal with |- context [List.filter ?p runs] => set (admits := p) end.
  assert (List.filter admits runs = []) as ->.
  { unfold admits. clear. induction runs as [|r runs IH]; [done|]. cbn.
    destruct (cursor <=? _) eqn:E1, (_ <? cursor) eqn:E2; cbn; lia || done. }
  destruct w as [w|]; [|done].
  unfold rolling_window_of. destruct (_ <=? _); [done|]. destruct (_ <=? 0); by rewrite drop_nil.
Qed.

Lemma aggregate_daily_empty runs w : aggregate_runs runs DAILY None None w = Some [].
Proof.
  unfold aggregate_runs. destruct (merge_sort started_before runs) as [|first rest]; [done|].
  destruct (last (first :: rest)) as [latest|]; [|done]. cbn [from_option].
  set (all := first :: rest). clearbody all.
  generalize (HistoricalRun.started_at latest) as final. generalize (HistoricalRun.started_at first) as cursor.
  intros cursor final.
  assert (∀ fuel cursor, final - cursor + 1 <= Z.of_nat fuel →
    aggregate_loop fuel all DAILY None None w cursor final = Some []) as Hloop; [|apply Hloop; lia].
  induction fuel as [|fuel IH]; intros c Hc; cbn; destruct (c <=? final) eqn:E; try done; [lia|].
  rewrite IH by lia. cbn. by rewrite bucket_runs_daily.
Qed.

(** *** Regression *)

Lemma sum_floats_cons x l : sum_floats (x :: l) = (x + sum_floats l)%Q.
Proof. done. Qed.

Lemma sum_line a b xs : (sum_floats (map (λ x, a * x + b) xs)
  == a * sum_floats xs + b * inject_Z (count_items xs))%Q.
Proof.
  unfold count_items. induction xs as [|x xs IH]; [cbn; ring|].
  cbn [map length]. rewrite !sum_floats_cons, IH, Nat2Z.inj_succ, <- Z.add_1_r, inject_Z_plus. ring.
Qed.

Lemma sum_scaled a (f g : float → float) xs : (∀ x, f x == a * g x)%Q →
  (sum_floats (map f xs) == a * sum_floats (map g xs))%Q.
Proof.
  intros Hf. induction xs as [|x xs IH]; [cbn; ring|]. cbn [map]. rewrite !sum_floats_cons, IH, Hf. ring.
Qed.

Lemma zip_with_map_r {A B C} (h : A → B → C) (f : A → B) xs :
  zip_with h xs (map f xs) = map (λ x, h x (f x)) xs.
Proof. induction xs as [|x xs IH]; [done|]. cbn. by rewrite IH. Qed.

Lemma count_items_pos {A} (x : A) xs : ¬ (inject_Z (count_items (x :: xs)) == 0)%Q.
Proof. unfold count_items. cbn. unfold Qeq. cbn. lia. Qed.

Lemma fit_spec xs ys : length xs = length ys → (2 <= length xs)%nat →
  let numerator := sum_floats (zip_with (λ x y, ((x - average xs) * (y - average ys))%Q) xs ys) in
  let denominator := sum_floats (map (λ x, ((x - average xs) * (x - average xs))%Q) xs) in
  fit_linear_regression xs ys =
  if Qeq_bool denominator 0 then (0%Q, average ys)
  else (numerator / denominator, average ys - numerator / denominator * average xs)%Q.
Proof.
  intros Hl H2. unfold fit_linear_regression. rewrite Hl, Nat.eqb_refl. cbn [negb].
  destruct xs as [|x1 [|x2 xs]], ys as [|y1 [|y2 ys]]; cbn in Hl, H2; lia || done.
Qed.

(** Points on a line are fitted by that line: with at least two points whose first
    coordinates are not all their own mean, the regression returns the slope and the
    intercept. *)
Theorem regression_of_line a b xs :
  (2 <= length xs)%nat →
  ¬ (sum_floats (map (λ x, (x - average xs) * (x - average xs)) xs) == 0)%Q →
  let '(slope, intercept) := fit_linear_regression xs (map (λ x, (a * x + b)%Q) xs) in
  (slope == a ∧ intercept == b)%Q.
Proof.
  intros Hlen Hvar. rewrite fit_spec by (by rewrite ?length_map). cbv zeta.
  assert (¬ (inject_Z (count_items xs) == 0)%Q) as Hn by (destruct xs; [cbn in Hlen; lia|apply count_items_pos]).
  assert (average (map (λ x, a * x + b) xs) == a * average xs + b)%Q as Hmean.
  { unfold average. rewrite sum_line. replace (count_items (map _ xs)) with (count_items xs)
      by (unfold count_items; by rewrite length_map). by field. }
  destruct (Qeq_bool _ 0) eqn:E; [by apply Qeq_bool_eq in E|]. rewrite zip_with_map_r.
  assert (sum_floats (map (λ x, (x - average xs) * (a * x + b - average (map (λ x, a * x + b) xs))) xs)
    == a * sum_floats (map (λ x, (x - average xs) * (x - average xs)) xs))%Q as Hnum.
  { apply sum_scaled. intros x. rewrite Hmean. ring. }
  rewrite Hnum, Hmean. split; by field.
Qed.

Lemma regression_of_line_witness :
  let '(slope, intercept) := fit_linear_regression [0; 1; 3]%Q (map (λ x, (2 * x + 1)%Q) [0; 1; 3]%Q) in
  (slope == 2 ∧ intercept == 1)%Q.
Proof. apply regression_of_line; [cbn; lia|]. vm_compute. discriminate. Defined.

(** *** Time lines *)

(** The time line has an entry for every run and every finding, in the order of time. *)
Lemma timeline_complete (HF : FloatRepr) context :
  engine_timeline context ≡ₚ map run_entry (ctx_runs context) ++ map finding_entry (ctx_findings context) ∧
  Sorted at_before (engine_timeline context).
Proof.
  split; [apply merge_sort_Permutation|]. apply Sorted_merge_sort.
  intros a b. unfold at_before. lia.
Qed.

(** *** Trends *)

(** A trend is one of four words; only a series whose last value is above its first is
    increasing, and only one whose last value is below is decreasing. *)
Lemma classify_trend_spec series :
  classify_trend series ∈ ["stable"; "increasing"; "decreasing"; "volatile"] ∧
  ∀ baseline latest, head series = Some baseline → last series = Some latest →
    (classify_trend series = "increasing" → baseline < latest)%Q ∧
    (classify_trend series = "decreasing" → latest < baseline)%Q.
Proof.
  destruct series as [|x [|y series]]; [by split; [left|]|by split; [left|]|].
  unfold classify_trend. destruct (last (x :: y :: series)) as [z|] eqn:El; [|by rewrite last_None in El].
  set (avg := average _). set (vol := sum_floats _). clearbody avg vol.
  cbv beta zeta.
  destruct (Qeq_bool avg 0); [split; [by left|]; intros ? ? _ _; by split|].
  destruct (float_gt _ _); [split; [by do 3 right; left|]; intros ? ? _ _; by split|].
  destruct (Qle_bool (Qabs (z - x)) _) eqn:Ec; [split; [by left|]; intros ? ? _ _; by split|].
  destruct (float_gt (z - x) 0) eqn:Ed; unfold float_gt in Ed.
  - split; [by right; left|]. intros ? ? [= <-] [= <-]. split; [|done]. intros _.
    apply negb_true_iff in Ed. apply Qnot_le_lt. intros Hle.
    assert (Qle_bool (z - x) 0 = true); [|congruence]. apply Qle_bool_iff. lra.
  - split; [by do 2 right; left|]. intros ? ? [= <-] [= <-]. split; [done|]. intros _.
    apply negb_false_iff, Qle_bool_iff in Ed. apply Qnot_le_lt. intros Hle.
    assert (Qle_bool (Qabs (z - x)) (float_max 1 (Qabs avg * (3 # 100))) = true); [|congruence].
    apply Qle_bool_iff. rewrite Qabs_neg by done.
    unfold float_max. destruct (Qle_bool _ 1) eqn:E1.
    + lra.
    + apply Qle_trans with 1%Q; [lra|]. apply Qlt_le_weak, Qnot_le_lt. intros H1%Qle_bool_iff. congruence.
Qed.
