(* ===== verification/Dashboard.v ===== *)
(** * The dashboard ([dashboard/])

    Figures, aggregates and trends composed from what the history keeps, and the routes
    over them ([api/v1/dashboard.py]). *)

From Stdlib Require Import Qabs Lqa.
From S2P Require Import Prelude Vocabulary Effects Json EvidenceStore Dicts Texts JsonText.
From S2P Require Import Contracts SnapshotModels Records History Analytics.
From stdpp Require Import sorting.
#[local] Open Scope Z_scope.

(** ** Models ([dashboard/models.py]) *)

Module Kpi.
Record DashboardKpiSummary := {
  total_devices : option Z; reachable_devices : option Z; unreachable_devices : option Z;
  discovery_success_pct : option float; netbox_accuracy_pct : option float; missing_devices : json;
  extra_devices : json; modified_devices : json; findings_total : json; critical_findings : option Z;
  major_findings : option Z; minor_findings : option Z; latest_run_id : option UUID;
  latest_run_started_at : option datetime; latest_run_finished_at : option datetime;
  unsupported_metrics : list string;
}.
End Kpi.

Module Aggregate.
Record DashboardAggregateBucket := {
  period_label : string; start : datetime; stop : datetime; discovery_success_pct : option float;
  total_devices : option Z; missing_devices : json; extra_devices : json; modified_devices : json;
  findings_total : json;
}.
End Aggregate.
Abbreviation AggregateBucket := Aggregate.DashboardAggregateBucket.

Module Trend.
Record DashboardTrendEntry := {
  metric : string; baseline_value : option float; current_value : option float; trend : string;
  direction : string; period_start : option datetime; period_end : option datetime;
}.
End Trend.

Record DashboardTrendsResponse := {
  discovery_success_trend : Trend.DashboardTrendEntry; device_count_trend : Trend.DashboardTrendEntry;
  findings_count_trend : Trend.DashboardTrendEntry; drift_trend : Trend.DashboardTrendEntry;
}.

(** ** The repository ([dashboard/repository.py]) *)

Section Dashboard.
Context {HF : FloatRepr}.

Definition filter_date (value : datetime) (start stop : option datetime) : bool :=
  from_option (λ s, s <=? value) true start && from_option (λ e, value <=? e) true stop.

(** The filters are texts here; a key that is missing reads as [None]. *)
Definition matches_metadata (metadata : dict) (filters : option (list (string * string))) : bool :=
  match filters with
  | None => true
  | Some filters =>
      forallb (λ '(key, value), str_lower (py_str (dict_get_default key JNull metadata)) ≟ str_lower value) filters
  end.

(** The run of a snapshot, and what [getattr(run, "metadata_json", {}) or {}] reads. *)
Definition run_metadata (t : Tables) (s : SnapshotRow) : dict :=
  match Snapshot.discovery_run_id s with
  | None => []
  | Some id => from_option Run.metadata_json [] (List.find (λ r, Run.id r ≟ id) (t_runs t))
  end.

Definition find_snapshot (t : Tables) (id : UUID) : option SnapshotRow :=
  List.find (λ s, Snapshot.id s ≟ id) (t_snapshots t).

Definition dashboard_runs (start stop : option datetime) (filters : option (list (string * string)))
    : HistoryM (list RunRow) :=
  runs <- list_discovery_runs ;;
  ret (List.filter (λ r, filter_date (Run.started_at r) start stop
                         && matches_metadata (Run.metadata_json r) filters) runs).

Definition list_live_snapshots (start stop : option datetime) (filters : option (list (string * string)))
    : HistoryM (list SnapshotRow) :=
  snapshots <- list_by_source LIVE ;;
  history_query (λ t, List.filter (λ s, filter_date (Snapshot.captured_at s) start stop
                                        && matches_metadata (run_metadata t s) filters) snapshots).

(** The metadata of a comparison are those of the run of its expected snapshot, which the
    foreign key says exists. *)
Definition comparison_metadata (t : Tables) (c : ComparisonRecord) : dict :=
  from_option (run_metadata t) [] (find_snapshot t (ComparisonRow.expected_snapshot_id c)).

Definition list_comparison_results (start stop : option datetime) (filters : option (list (string * string)))
    : HistoryM (list ComparisonRecord) :=
  history_query (λ t, List.filter (λ c, filter_date (ComparisonRow.compared_at c) start stop
                                        && matches_metadata (comparison_metadata t c) filters)
    (merge_sort compared_later (t_comparisons t))).

Definition get_latest_comparison_result (filters : option (list (string * string)))
    : HistoryM (option ComparisonRecord) :=
  comparisons <- list_comparison_results None None filters ;;
  ret (head comparisons).

Definition list_findings_for_comparison (comparison_id : UUID) : HistoryM (list FindingRecord) :=
  comparison <- get_comparison_result comparison_id ;;
  match comparison with
  | None => ret []
  | Some c => history_query (λ t, findings_of t c)
  end.

(** ** The service ([dashboard/service.py]) *)

Definition build_metadata_filter (site device_role platform : option string) : option (list (string * string)) :=
  let entry key (value : option string) := from_option (λ v, [(key, v)]) [] value in
  match entry "site" site ++ entry "device_role" device_role ++ entry "platform" platform with
  | [] => None
  | filters => Some filters
  end.

Definition unsupported_kpis : list string :=
  ["successful_targets"; "failed_targets"; "skipped_targets"; "total_targets"; "discovery_success_pct";
   "unreachable_devices"].

(** Critical, major and minor findings. *)
Definition count_severity (findings : list FindingRecord) : Z * Z * Z :=
  fold_left (λ '(critical, major, minor) f,
    let severity := str_lower (FindingRow.severity f) in
    if severity ≟ "critical" then (critical + 1, major, minor)
    else if severity ≟ "high" then (critical, major + 1, minor)
    else (critical, major, minor + 1)) findings (0, 0, 0).

(** [comparison.metrics or {}], and its [.get]. *)
Definition metrics_of (c : ComparisonRecord) : dict :=
  match ComparisonRow.metrics c with JDict d => d | _ => [] end.
Definition metric_value (name : string) (c : ComparisonRecord) : json := dict_get_default name JNull (metrics_of c).

(** [int(value)]; [None] when it raises [TypeError] or [ValueError]. *)
Definition int_of_json (j : json) : option Z :=
  match j with
  | JInt z => Some z
  | JBool b => Some (if b then 1 else 0)
  | JFloat q => Some (if Qle_bool 0 q then Qfloor q else - Qfloor (- q))
  | JStr s => py_int s
  | _ => None
  end.

Definition netbox_accuracy (c : ComparisonRecord) (total_devices : option Z) : option float :=
  match total_devices with
  | None => None
  | Some total =>
      if total ≟ 0 then None
      else
        missing_value ← int_of_json (metric_value "missing" c);
        modified_value ← int_of_json (metric_value "modified" c);
        let accurate := Z.max (total - missing_value - modified_value) 0 in
        Some (round_digits 2 (inject_Z accurate / inject_Z total * 100)%Q)
  end.

Definition devices_count (t : Tables) (s : SnapshotRow) : Z := count_items (devices_in t (Snapshot.id s) None).

Definition current_kpis (site device_role platform : option string) (start_date end_date : option datetime)
    : HistoryM Kpi.DashboardKpiSummary :=
  let filters := build_metadata_filter site device_role platform in
  live_snapshots <- list_live_snapshots start_date end_date filters ;;
  comparison <- get_latest_comparison_result filters ;;
  history_query (λ t,
    let total := devices_count t <$> head live_snapshots in
    let severities := (λ c, count_severity (findings_of t c)) <$> comparison in
    let metric name := from_option (metric_value name) JNull comparison in
    {| Kpi.total_devices := total; Kpi.reachable_devices := total; Kpi.unreachable_devices := None;
       Kpi.discovery_success_pct := None;
       Kpi.netbox_accuracy_pct := comparison ≫= λ c, netbox_accuracy c total;
       Kpi.missing_devices := metric "missing"; Kpi.extra_devices := metric "unexpected";
       Kpi.modified_devices := metric "modified"; Kpi.findings_total := metric "total_findings";
       Kpi.critical_findings := (λ x, x.1.1) <$> severities; Kpi.major_findings := (λ x, x.1.2) <$> severities;
       Kpi.minor_findings := snd <$> severities; Kpi.latest_run_id := None;
       Kpi.latest_run_started_at := None; Kpi.latest_run_finished_at := None;
       Kpi.unsupported_metrics := unsupported_kpis |}).

(** ** Aggregates *)

Definition bucket_label (timestamp : datetime) (g : AggregationGranularity) : string :=
  match g with
  | WEEKLY => Calendar.year_week timestamp
  | MONTHLY => Calendar.year_month timestamp
  | _ => Calendar.year_month_day timestamp
  end.

Definition bucket_start (timestamp : datetime) (g : AggregationGranularity) : datetime :=
  match g with
  | WEEKLY => timestamp - Calendar.timedelta_days (Calendar.weekday timestamp)
  | MONTHLY => Calendar.replace_day 1 timestamp
  | _ => Calendar.midnight timestamp
  end.

Definition bucket_stop (timestamp : datetime) (g : AggregationGranularity) : datetime :=
  match g with
  | WEEKLY => bucket_start timestamp g + (Calendar.timedelta_days 7 - 1)
  | MONTHLY =>
      Calendar.replace_day 1 (Calendar.replace_day 28 timestamp + Calendar.timedelta_days 4) - 1
  | _ => bucket_start timestamp g + (Calendar.timedelta_days 1 - 1)
  end.

(** [a + b] of metrics, and [_sum_nullable]. *)
Definition as_number (j : json) : option number :=
  match j with
  | JInt z => Some (AsInt z) | JBool b => Some (AsInt (if b then 1 else 0)) | JFloat q => Some (AsFloat q)
  | _ => None
  end.

Definition json_add (a b : json) : outcome json :=
  match a, b with
  | JStr s, JStr s' => Ret (JStr (s +:+ s'))
  | JList l, JList l' => Ret (JList (l ++ l'))
  | _, _ =>
      match as_number a, as_number b with
      | Some (AsInt x), Some (AsInt y) => Ret (JInt (x + y))
      | Some x, Some y => Ret (JFloat (to_float x + to_float y)%Q)
      | _, _ => raise_ TypeError "unsupported operand type(s) for +"
      end
  end.

Definition sum_nullable (value addition : json) : outcome json :=
  match value, addition with
  | JNull, _ => Ret addition
  | _, JNull => Ret value
  | _, _ => json_add value addition
  end.

(** The number of devices of the observed snapshot, when it is there. *)
Definition observed_devices (t : Tables) (c : ComparisonRecord) : option Z :=
  devices_count t <$> find_snapshot t (ComparisonRow.observed_snapshot_id c).

Definition bucket_key (g : AggregationGranularity) (c : ComparisonRecord) : string * datetime * datetime :=
  let at_ := ComparisonRow.compared_at c in (bucket_label at_ g, bucket_start at_ g, bucket_stop at_ g).

Definition key_of (b : AggregateBucket) : string * datetime * datetime :=
  (Aggregate.period_label b, Aggregate.start b, Aggregate.stop b).

Definition new_bucket (t : Tables) (g : AggregationGranularity) (c : ComparisonRecord) : AggregateBucket :=
  let '(label, start, stop) := bucket_key g c in {|
    Aggregate.period_label := label; Aggregate.start := start; Aggregate.stop := stop;
    Aggregate.discovery_success_pct := None; Aggregate.total_devices := observed_devices t c;
    Aggregate.missing_devices := metric_value "missing" c;
    Aggregate.extra_devices := metric_value "unexpected" c;
    Aggregate.modified_devices := metric_value "modified" c;
    Aggregate.findings_total := metric_value "total_findings" c |}.

Definition add_to_bucket (t : Tables) (b : AggregateBucket) (c : ComparisonRecord) : outcome AggregateBucket :=
  let! missing := sum_nullable (Aggregate.missing_devices b) (metric_value "missing" c) in
  let! extra := sum_nullable (Aggregate.extra_devices b) (metric_value "unexpected" c) in
  let! modified := sum_nullable (Aggregate.modified_devices b) (metric_value "modified" c) in
  let! findings := sum_nullable (Aggregate.findings_total b) (metric_value "total_findings" c) in
  Ret {| Aggregate.period_label := Aggregate.period_label b; Aggregate.start := Aggregate.start b;
         Aggregate.stop := Aggregate.stop b;
         Aggregate.discovery_success_pct := Aggregate.discovery_success_pct b;
         Aggregate.total_devices := from_option Some (Aggregate.total_devices b) (observed_devices t c);
         Aggregate.missing_devices := missing; Aggregate.extra_devices := extra;
         Aggregate.modified_devices := modified; Aggregate.findings_total := findings |}.

(** One comparison into the dictionary of buckets, which lists them as they came. *)
Fixpoint into_buckets (t : Tables) (g : AggregationGranularity) (c : ComparisonRecord)
    (buckets : list AggregateBucket) : outcome (list AggregateBucket) :=
  match buckets with
  | [] => Ret [new_bucket t g c]
  | b :: rest =>
      if bool_decide (key_of b = bucket_key g c) then let! b' := add_to_bucket t b c in Ret (b' :: rest)
      else let! rest' := into_buckets t g c rest in Ret (b :: rest')
  end.

Fixpoint all_into_buckets (t : Tables) (g : AggregationGranularity) (cs : list ComparisonRecord)
    (buckets : list AggregateBucket) : outcome (list AggregateBucket) :=
  match cs with
  | [] => Ret buckets
  | c :: cs => let! buckets' := into_buckets t g c buckets in all_into_buckets t g cs buckets'
  end.

Definition starts_before (a b : AggregateBucket) : Prop := Aggregate.start a <= Aggregate.start b.
#[export] Instance starts_before_dec : RelDecision starts_before.
Proof. intros a b. unfold starts_before. apply _. Defined.

Definition aggregated_statistics (g : AggregationGranularity) (site device_role platform : option string)
    (start_date end_date : option datetime) : HistoryM (list AggregateBucket) :=
  let filters := build_metadata_filter site device_role platform in
  comparisons <- list_comparison_results start_date end_date filters ;;
  t <- history_query id ;;
  buckets <- of_outcome (all_into_buckets t g (rev comparisons) []) ;;
  ret (merge_sort starts_before buckets).

(** ** Trends *)

Definition extract_device_count_series (t : Tables) (comparisons : list ComparisonRecord) : list float :=
  map inject_Z (omap (observed_devices t) (rev comparisons)).

Definition extract_findings_count_series (t : Tables) (comparisons : list ComparisonRecord) : list float :=
  map (λ c, inject_Z (count_items (findings_of t c))) (rev comparisons).

(** The drift of one comparison: what is not [None], added to zero. *)
Definition drift_of (c : ComparisonRecord) : outcome json :=
  let add drift name :=
    match metric_value name c with JNull => Ret drift | value => json_add drift value end in
  let! drift := add (JInt 0) "missing" in
  let! drift := add drift "unexpected" in
  add drift "modified".

Definition number_or_zero (j : json) : float := from_option to_float 0%Q (as_number j).

Fixpoint extract_drift_series (comparisons : list ComparisonRecord) : outcome (list float) :=
  match comparisons with
  | [] => Ret []
  | c :: cs =>
      let! drift := drift_of c in
      let! rest := extract_drift_series cs in
      Ret (number_or_zero drift :: rest)
  end.

Definition trend_direction (values : list float) : string :=
  match values, last values with
  | first :: _ :: _, Some latest =>
      if float_gt latest first then "up" else if float_gt first latest then "down" else "flat"
  | _, _ => "flat"
  end.

Definition build_trend_entry (name : string) (values : list float) (start_date end_date : option datetime)
    : Trend.DashboardTrendEntry := {|
  Trend.metric := name; Trend.baseline_value := head values; Trend.current_value := last values;
  Trend.trend := classify_trend values; Trend.direction := trend_direction values;
  Trend.period_start := start_date; Trend.period_end := end_date |}.

Definition trends (site device_role platform : option string) (start_date end_date : option datetime)
    : HistoryM DashboardTrendsResponse :=
  let filters := build_metadata_filter site device_role platform in
  comparisons <- list_comparison_results start_date end_date filters ;;
  t <- history_query id ;;
  drift_series <- of_outcome (extract_drift_series (rev comparisons)) ;;
  ret {| discovery_success_trend := build_trend_entry "discovery_success" [] start_date end_date;
         device_count_trend := build_trend_entry "device_count" (extract_device_count_series t comparisons)
                                 start_date end_date;
         findings_count_trend := build_trend_entry "findings_count"
                                   (extract_findings_count_series t comparisons) start_date end_date;
         drift_trend := build_trend_entry "drift" drift_series start_date end_date |}.
End Dashboard.

(** ** The routes ([api/v1/dashboard.py], [schemas/dashboard.py]) *)

Module KpiResponse.
Record DashboardKpiSummaryResponse := {
  total_devices : option Z; reachable_devices : option Z; unreachable_devices : option Z;
  discovery_success_pct : option float; netbox_accuracy_pct : option float; missing_devices : option Z;
  extra_devices : option Z; modified_devices : option Z; findings_total : option Z;
  critical_findings : option Z; major_findings : option Z; minor_findings : option Z;
  latest_run_id : option UUID; latest_run_started_at : option datetime;
  latest_run_finished_at : option datetime; unsupported_metrics : list string;
}.
End KpiResponse.

Module AggregateResponse.
Record DashboardAggregateBucketResponse := {
  period_label : string; start : datetime; stop : datetime; discovery_success_pct : option float;
  total_devices : option Z; missing_devices : option Z; extra_devices : option Z;
  modified_devices : option Z; findings_total : option Z;
}.
End AggregateResponse.

(** The query of all three: [DashboardKpiRequest]. *)
Record DashboardKpiRequest := {
  request_site : option string; request_device_role : option string; request_platform : option string;
  request_start_date : option datetime; request_end_date : option datetime;
}.

(** [DashboardGranularity]: three of the granularities of the service. *)
Definition granularity_of (text : string) : outcome AggregationGranularity :=
  if text ≟ "daily" then Ret DAILY else if text ≟ "weekly" then Ret WEEKLY
  else if text ≟ "monthly" then Ret MONTHLY
  else raise_ (HTTPException 422) "Input should be 'daily', 'weekly' or 'monthly'".

(** [DashboardTrendMetric] and the literals of a trend and of its direction. *)
Definition trend_metrics : list string := ["discovery_success"; "device_count"; "findings_count"; "drift"].
Definition trend_literals : list string := ["stable"; "increasing"; "decreasing"; "volatile"].
Definition direction_literals : list string := ["up"; "down"; "flat"].

Section Routes.
Context {HF : FloatRepr} {HL : LaxFields}.

(** A field [int | None]. *)
Definition count_field (j : json) : outcome (option Z) :=
  match j with
  | JNull => Ret None
  | JInt z => Ret (Some z)
  | _ => match lax_int j with Some z => Ret (Some z) | None => invalid_input "Input should be a valid integer" end
  end.

Definition get_dashboard_kpis (payload : DashboardKpiRequest) : HistoryM KpiResponse.DashboardKpiSummaryResponse :=
  summary <- current_kpis (request_site payload) (request_device_role payload) (request_platform payload)
    (request_start_date payload) (request_end_date payload) ;;
  missing <- of_outcome (count_field (Kpi.missing_devices summary)) ;;
  extra <- of_outcome (count_field (Kpi.extra_devices summary)) ;;
  modified <- of_outcome (count_field (Kpi.modified_devices summary)) ;;
  findings <- of_outcome (count_field (Kpi.findings_total summary)) ;;
  ret {| KpiResponse.total_devices := Kpi.total_devices summary;
    KpiResponse.reachable_devices := Kpi.reachable_devices summary;
    KpiResponse.unreachable_devices := Kpi.unreachable_devices summary;
    KpiResponse.discovery_success_pct := Kpi.discovery_success_pct summary;
    KpiResponse.netbox_accuracy_pct := Kpi.netbox_accuracy_pct summary;
    KpiResponse.missing_devices := missing; KpiResponse.extra_devices := extra;
    KpiResponse.modified_devices := modified; KpiResponse.findings_total := findings;
    KpiResponse.critical_findings := Kpi.critical_findings summary;
    KpiResponse.major_findings := Kpi.major_findings summary;
    KpiResponse.minor_findings := Kpi.minor_findings summary;
    KpiResponse.latest_run_id := Kpi.latest_run_id summary;
    KpiResponse.latest_run_started_at := Kpi.latest_run_started_at summary;
    KpiResponse.latest_run_finished_at := Kpi.latest_run_finished_at summary;
    KpiResponse.unsupported_metrics := Kpi.unsupported_metrics summary |}.

Definition aggregate_response (b : AggregateBucket) : outcome AggregateResponse.DashboardAggregateBucketResponse :=
  let! missing := count_field (Aggregate.missing_devices b) in
  let! extra := count_field (Aggregate.extra_devices b) in
  let! modified := count_field (Aggregate.modified_devices b) in
  let! findings := count_field (Aggregate.findings_total b) in
  Ret {| AggregateResponse.period_label := Aggregate.period_label b; AggregateResponse.start := Aggregate.start b;
    AggregateResponse.stop := Aggregate.stop b;
    AggregateResponse.discovery_success_pct := Aggregate.discovery_success_pct b;
    AggregateResponse.total_devices := Aggregate.total_devices b; AggregateResponse.missing_devices := missing;
    AggregateResponse.extra_devices := extra; AggregateResponse.modified_devices := modified;
    AggregateResponse.findings_total := findings |}.

Definition get_dashboard_aggregates (payload : DashboardKpiRequest) (granularity : string)
    : HistoryM (list AggregateResponse.DashboardAggregateBucketResponse) :=
  g <- of_outcome (granularity_of granularity) ;;
  items <- aggregated_statistics g (request_site payload) (request_device_role payload) (request_platform payload)
    (request_start_date payload) (request_end_date payload) ;;
  map_m (λ b, of_outcome (aggregate_response b)) items.

(** [DashboardTrendEntryResponse] of an entry: the entry, if its texts are among the literals. *)
Definition trend_entry_response (e : Trend.DashboardTrendEntry) : outcome Trend.DashboardTrendEntry :=
  if mem (Trend.metric e) trend_metrics && mem (Trend.trend e) trend_literals
     && mem (Trend.direction e) direction_literals
  then Ret e else invalid_input "Input should be one of the literals".

Definition get_dashboard_trends (payload : DashboardKpiRequest) : HistoryM DashboardTrendsResponse :=
  answer <- trends (request_site payload) (request_device_role payload) (request_platform payload)
    (request_start_date payload) (request_end_date payload) ;;
  success <- of_outcome (trend_entry_response (discovery_success_trend answer)) ;;
  devices <- of_outcome (trend_entry_response (device_count_trend answer)) ;;
  findings <- of_outcome (trend_entry_response (findings_count_trend answer)) ;;
  drift <- of_outcome (trend_entry_response (drift_trend answer)) ;;
  ret {| discovery_success_trend := success; device_count_trend := devices; findings_count_trend := findings;
         drift_trend := drift |}.

(** An entry the service builds for one of its metrics always passes the response model. *)
Lemma trend_entry_valid name values start_date end_date : name ∈ trend_metrics →
  trend_entry_response (build_trend_entry name values start_date end_date) =
    Ret (build_trend_entry name values start_date end_date).
Proof.
  intros Hn. unfold trend_entry_response, build_trend_entry. cbn [Trend.metric Trend.trend Trend.direction].
  assert (mem (classify_trend values) trend_literals = true) as ->
    by (unfold classify_trend; repeat case_match; reflexivity).
  assert (mem (trend_direction values) direction_literals = true) as ->
    by (unfold trend_direction; repeat case_match; reflexivity).
  by rewrite (proj2 (mem_true _ _) Hn).
Qed.

(** The route answers whatever the service does. *)
Lemma trends_route payload s :
  get_dashboard_trends payload s =
  trends (request_site payload) (request_device_role payload) (request_platform payload)
    (request_start_date payload) (request_end_date payload) s.
Proof.
  unfold get_dashboard_trends, bind at 1. destruct (trends _ _ _ _ _ s) as [[a|e] s'] eqn:E; [|done].
  unfold trends in E. cbv zeta in E. apply bind_inv in E as [(cs & s1 & _ & E)|(e & _ & [=])].
  apply bind_inv in E as [(t & s2 & _ & E)|(e & _ & [=])].
  apply bind_inv in E as [(d & s3 & _ & E)|(e & _ & [=])]. injection E as <- <-.
  cbn [discovery_success_trend device_count_trend findings_count_trend drift_trend].
  rewrite !trend_entry_valid by (rewrite <- mem_true; reflexivity). reflexivity.
Qed.
End Routes.

(** ** Theorems *)

Section DashboardTheorems.
Context {HF : FloatRepr}.

(** The metrics a comparison stores are integers; one that is absent reads as [None]. *)
Definition counted (j : json) : bool := match j with JInt _ | JNull => true | _ => false end.
Definition amount (j : json) : Z := match j with JInt z => z | _ => 0 end.
Definition counted_metrics (c : ComparisonRecord) : bool :=
  forallb (λ name, counted (metric_value name c)) ["missing"; "unexpected"; "modified"; "total_findings"].

(** The four sums of a bucket, and of a comparison. *)
Definition bucket_values (b : AggregateBucket) : list json := [
  Aggregate.missing_devices b; Aggregate.extra_devices b; Aggregate.modified_devices b;
  Aggregate.findings_total b].
Definition comparison_values (c : ComparisonRecord) : list json :=
  map (λ name, metric_value name c) ["missing"; "unexpected"; "modified"; "total_findings"].

Lemma sum_nullable_counted a b : counted a = true → counted b = true →
  ∃ s, sum_nullable a b = Ret s ∧ counted s = true ∧ amount s = amount a + amount b.
Proof.
  destruct a as [| |x| | | |], b as [| |y| | | |]; try done; intros _ _; eexists; (split; [reflexivity|]);
    split; try done; cbn; lia.
Qed.

Definition counted_bucket (b : AggregateBucket) : bool := forallb counted (bucket_values b).

(** The sums of the comparisons [cs], position by position. *)
Definition amounts (js : list json) : list Z := map amount js.
Definition sums (cs : list ComparisonRecord) : list Z :=
  foldr (zip_with Z.add) [0; 0; 0; 0] (map (λ c, amounts (comparison_values c)) cs).

Lemma zip_add_assoc (a b c : list Z) :
  zip_with Z.add a (zip_with Z.add b c) = zip_with Z.add (zip_with Z.add a b) c.
Proof.
  revert b c. induction a as [|x a IH]; intros [|y b] [|z c]; try done. cbn. f_equal; [lia|apply IH].
Qed.

Lemma zip_add_comm (a b : list Z) : zip_with Z.add a b = zip_with Z.add b a.
Proof. revert b. induction a as [|x a IH]; intros [|y b]; try done. cbn. f_equal; [lia|apply IH]. Qed.

Lemma sums_snoc cs c : sums (cs ++ [c]) = zip_with Z.add (sums cs) (amounts (comparison_values c)).
Proof.
  unfold sums. rewrite map_app, foldr_app. induction cs as [|d cs IH].
  - apply zip_add_comm.
  - cbn [map foldr]. cbn [map foldr] in IH. rewrite IH. apply zip_add_assoc.
Qed.

Lemma add_to_bucket_spec t b c : counted_bucket b = true → counted_metrics c = true →
  ∃ b', add_to_bucket t b c = Ret b' ∧ key_of b' = key_of b ∧ counted_bucket b' = true ∧
    amounts (bucket_values b') = zip_with Z.add (amounts (bucket_values b)) (amounts (comparison_values c)) ∧
    Aggregate.total_devices b' = from_option Some (Aggregate.total_devices b) (observed_devices t c).
Proof.
  unfold counted_bucket, counted_metrics, bucket_values. cbn [forallb]. rewrite !andb_true_iff.
  intros (H1 & H2 & H3 & H4 & _) (G1 & G2 & G3 & G4 & _).
  destruct (sum_nullable_counted _ _ H1 G1) as (s1 & E1 & C1 & A1).
  destruct (sum_nullable_counted _ _ H2 G2) as (s2 & E2 & C2 & A2).
  destruct (sum_nullable_counted _ _ H3 G3) as (s3 & E3 & C3 & A3).
  destruct (sum_nullable_counted _ _ H4 G4) as (s4 & E4 & C4 & A4).
  unfold add_to_bucket. rewrite E1, E2, E3, E4. eexists. split; [reflexivity|]. split; [done|].
  cbn. rewrite C1, C2, C3, C4, A1, A2, A3, A4. done.
Qed.

(** The sums over all buckets. *)
Definition total (bs : list AggregateBucket) : list Z :=
  foldr (zip_with Z.add) [0; 0; 0; 0] (map (λ b, amounts (bucket_values b)) bs).

Lemma total_snoc bs b : total (bs ++ [b]) = zip_with Z.add (total bs) (amounts (bucket_values b)).
Proof.
  unfold total. rewrite map_app, foldr_app. induction bs as [|d bs IH].
  - apply zip_add_comm.
  - cbn [map foldr]. cbn [map foldr] in IH. rewrite IH. apply zip_add_assoc.
Qed.

Lemma total_amend l b b' r v :
  amounts (bucket_values b') = zip_with Z.add (amounts (bucket_values b)) v →
  total (l ++ b' :: r) = zip_with Z.add (total (l ++ b :: r)) v.
Proof.
  intros Hb. unfold total. rewrite !map_app. cbn [map].
  induction (map (λ b, amounts (bucket_values b)) l) as [|x xs IH]; cbn [app foldr].
  - rewrite Hb, <-!zip_add_assoc. f_equal. apply zip_add_comm.
  - rewrite IH. apply zip_add_assoc.
Qed.

(** The devices of the last comparison that has any. *)
Definition last_devices (t : Tables) (cs : list ComparisonRecord) : option Z :=
  last (omap (observed_devices t) cs).

Lemma last_devices_snoc t cs c :
  last_devices t (cs ++ [c]) = from_option Some (last_devices t cs) (observed_devices t c).
Proof.
  unfold last_devices. rewrite omap_app. cbn. destruct (observed_devices t c) as [d|]; cbn.
  - apply last_snoc.
  - by rewrite app_nil_r.
Qed.

(** What the buckets say of the comparisons that went into them. *)
Record buckets_account (t : Tables) (g : AggregationGranularity) (cs : list ComparisonRecord)
    (bs : list AggregateBucket) : Prop := {
  acc_distinct : NoDup (map key_of bs);
  acc_keys k : k ∈ map key_of bs ↔ ∃ c, c ∈ cs ∧ bucket_key g c = k;
  acc_sums b : b ∈ bs → amounts (bucket_values b)
    = sums (List.filter (λ c, bool_decide (bucket_key g c = key_of b)) cs);
  acc_devices b : b ∈ bs → Aggregate.total_devices b
    = last_devices t (List.filter (λ c, bool_decide (bucket_key g c = key_of b)) cs);
  acc_total : total bs = sums cs;
}.

Lemma new_bucket_key t g c : key_of (new_bucket t g c) = bucket_key g c.
Proof. done. Qed.

Lemma filter_snoc_in {A} (p : A → bool) cs c : p c = true → List.filter p (cs ++ [c]) = List.filter p cs ++ [c].
Proof. intros Hp. rewrite List.filter_app. cbn. by rewrite Hp. Qed.
Lemma filter_snoc_out {A} (p : A → bool) cs c : p c = false → List.filter p (cs ++ [c]) = List.filter p cs.
Proof. intros Hp. rewrite List.filter_app. cbn. rewrite Hp. apply app_nil_r. Qed.

(** A bucket is amended where its key is, or comes last. *)
Lemma into_buckets_spec t g c bs : Forall (λ b, counted_bucket b = true) bs → counted_metrics c = true →
  ∃ bs', into_buckets t g c bs = Ret bs' ∧
    ((bucket_key g c ∉ map key_of bs ∧ bs' = bs ++ [new_bucket t g c]) ∨
     ∃ l b b' r, bs = l ++ b :: r ∧ bs' = l ++ b' :: r ∧ key_of b = bucket_key g c ∧
       add_to_bucket t b c = Ret b').
Proof.
  intros Hbs Hc. induction Hbs as [|b bs Hb _ (bs' & E & IH)]; cbn.
  { eexists. split; [done|]. left. split; [apply not_elem_of_nil|done]. }
  destruct (bool_decide _) eqn:Ek.
  - apply bool_decide_eq_true_1 in Ek. destruct (add_to_bucket_spec t b c Hb Hc) as (b' & Eb & _).
    rewrite Eb. eexists. split; [done|]. right. by exists [], b, b', bs.
  - apply bool_decide_eq_false_1 in Ek. rewrite E. eexists. split; [done|].
    destruct IH as [[Hn ->]|(l & b0 & b' & r & -> & -> & Hk & Ea)].
    + left. split; [|done]. rewrite not_elem_of_cons. split; [congruence|done].
    + right. by exists (b :: l), b0, b', r.
Qed.

(** No comparison before has the key of a new bucket. *)
Lemma new_bucket_empty g c cs (ks : list (string * datetime * datetime)) :
  (∀ k, k ∈ ks ↔ ∃ d, d ∈ cs ∧ bucket_key g d = k) → bucket_key g c ∉ ks →
  List.filter (λ d, bool_decide (bucket_key g d = bucket_key g c)) cs = [].
Proof.
  intros Hkeys Hn. assert (∀ ds, (∀ d, d ∈ ds → d ∈ cs) →
    List.filter (λ d, bool_decide (bucket_key g d = bucket_key g c)) ds = []) as Hnil; [|by apply Hnil].
  induction ds as [|d ds IH]; intros Hd; [done|]. cbn.
  rewrite bool_decide_eq_false_2; [apply IH; intros; apply Hd; by right|].
  intros Ed. apply Hn, Hkeys. exists d. split; [apply Hd; by left|done].
Qed.

(** A bucket with the key of the one amended is the amended one. *)
Lemma amended_unique l b b' r x :
  NoDup (map key_of (l ++ b :: r)) → key_of b' = key_of b →
  x ∈ l ++ b' :: r → key_of x = key_of b → x = b'.
Proof.
  rewrite map_app. intros Hnd Hkey Hx Ex.
  apply elem_of_app in Hx as [Hx|[->|Hx]%elem_of_cons]; [|done|];
    apply (list_elem_of_fmap_2 key_of) in Hx; rewrite Ex in Hx;
    apply NoDup_app in Hnd as (_ & Hdis & [Hnr _]%NoDup_cons); [|done].
  destruct (Hdis _ Hx). by left.
Qed.

Lemma into_buckets_account t g c cs bs :
  Forall (λ b, counted_bucket b = true) bs → counted_metrics c = true → buckets_account t g cs bs →
  ∃ bs', into_buckets t g c bs = Ret bs' ∧ Forall (λ b, counted_bucket b = true) bs' ∧
    buckets_account t g (cs ++ [c]) bs'.
Proof.
  intros Hbs Hc [Hnd Hkeys Hsums Hdevs Htot]. destruct (into_buckets_spec t g c bs Hbs Hc) as (bs' & E & Hcase).
  exists bs'. split; [done|]. destruct Hcase as [[Hn ->]|(l & b & b' & r & -> & -> & Hk & Ea)].
  - pose proof (new_bucket_empty g c cs _ Hkeys Hn) as Hnil.
    assert (∀ x, x ∈ bs → List.filter (λ d, bool_decide (bucket_key g d = key_of x)) (cs ++ [c])
      = List.filter (λ d, bool_decide (bucket_key g d = key_of x)) cs) as Hold.
    { intros x Hx. apply filter_snoc_out, bool_decide_eq_false_2. intros Ex. apply Hn.
      rewrite Ex. by apply list_elem_of_fmap_2. }
    split; [apply Forall_app; split; [done|by constructor]|]. split.
    + rewrite map_app. apply NoDup_app. split; [done|]. split; [|apply NoDup_singleton].
      intros k Hin ->%list_elem_of_singleton. done.
    + intros k. rewrite map_app, elem_of_app, Hkeys. cbn [map].
      rewrite list_elem_of_singleton, new_bucket_key. split.
      * intros [(d & Hd & <-)| ->]; [exists d|exists c]; (split; [|done]); apply elem_of_app; [by left|right; by left].
      * intros (d & [Hd|Hd%list_elem_of_singleton]%elem_of_app & <-); [left; eauto|right; by subst].
    + intros x [Hx| ->%list_elem_of_singleton]%elem_of_app; [by rewrite Hold, Hsums|].
      rewrite new_bucket_key, filter_snoc_in by (by apply bool_decide_eq_true_2).
      by rewrite sums_snoc, Hnil.
    + intros x [Hx| ->%list_elem_of_singleton]%elem_of_app; [by rewrite Hold, Hdevs|].
      rewrite new_bucket_key, filter_snoc_in by (by apply bool_decide_eq_true_2).
      rewrite last_devices_snoc, Hnil. cbn. by destruct (observed_devices t c).
    + rewrite total_snoc, sums_snoc, Htot. done.
  - apply Forall_app in Hbs as [Hl [Hb Hr]%Forall_cons].
    destruct (add_to_bucket_spec t b c Hb Hc) as (b1 & E1 & Hkey & Hcount & Hamount & Hdev).
    rewrite Ea in E1. injection E1 as <-.
    assert (map key_of (l ++ b' :: r) = map key_of (l ++ b :: r)) as Hmap by (rewrite !map_app; cbn; by rewrite Hkey).
    assert (∀ x, x ∈ l ++ b' :: r → x = b' ∨ x ∈ l ++ b :: r ∧
      List.filter (λ d, bool_decide (bucket_key g d = key_of x)) (cs ++ [c])
      = List.filter (λ d, bool_decide (bucket_key g d = key_of x)) cs) as Hold.
    { intros x Hx. destruct (decide (key_of x = key_of b)) as [Ex|Ex]; [left; by eapply amended_unique|right].
      split; [|apply filter_snoc_out, bool_decide_eq_false_2; congruence].
      apply elem_of_app in Hx as [Hx|[->|Hx]%elem_of_cons]; [by apply elem_of_app; left|congruence|].
      apply elem_of_app. right. by right. }
    assert (b ∈ l ++ b :: r) as Hbin by (apply elem_of_app; right; by left).
    assert (List.filter (λ d, bool_decide (bucket_key g d = key_of b')) (cs ++ [c])
      = List.filter (λ d, bool_decide (bucket_key g d = key_of b)) cs ++ [c]) as Hnew.
    { rewrite Hkey. apply filter_snoc_in. by apply bool_decide_eq_true_2. }
    split; [by apply Forall_app; split; [|constructor]|]. split; [by rewrite Hmap|..].
    + intros k. rewrite Hmap, Hkeys. split.
      * intros (d & Hd & <-). exists d. rewrite elem_of_app. auto.
      * intros (d & [Hd|Hd%list_elem_of_singleton]%elem_of_app & <-); [eauto|subst d].
        apply Hkeys. rewrite <- Hk. by apply list_elem_of_fmap_2.
    + intros x Hx. destruct (Hold x Hx) as [->|[Hx' Hf]]; [|by rewrite Hf, Hsums].
      by rewrite Hnew, sums_snoc, Hamount, (Hsums b Hbin).
    + intros x Hx. destruct (Hold x Hx) as [->|[Hx' Hf]]; [|by rewrite Hf, Hdevs].
      by rewrite Hnew, last_devices_snoc, Hdev, (Hdevs b Hbin).
    + by rewrite sums_snoc, (total_amend _ _ _ _ _ Hamount), Htot.
Qed.

Lemma all_into_buckets_account t g cs : ∀ done bs,
  Forall (λ b, counted_bucket b = true) bs → Forall (λ c, counted_metrics c = true) cs →
  buckets_account t g done bs →
  ∃ bs', all_into_buckets t g cs bs = Ret bs' ∧ buckets_account t g (done ++ cs) bs'.
Proof.
  induction cs as [|c cs IH]; intros ds bs Hb Hcs Ha; cbn.
  { exists bs. by rewrite app_nil_r. }
  apply Forall_cons in Hcs as [Hc Hcs].
  destruct (into_buckets_account t g c ds bs Hb Hc Ha) as (bs1 & E & Hb1 & Ha1). rewrite E. cbn.
  destruct (IH (ds ++ [c]) bs1 Hb1 Hcs Ha1) as (bs' & E' & Ha'). exists bs'. split; [done|].
  by rewrite <- app_assoc in Ha'.
Qed.

(** *** Periods *)

(** The periods an instant falls into, by their labels, starts and ends: its day, from
    midnight; seven days from a Monday, but at the time of the day of the instant; the
    month, from its first day to the day before the first of the next month, again at the
    time of the day of the instant. *)
Definition falls_into (g : AggregationGranularity) (t : datetime) (k : string * datetime * datetime) : Prop :=
  let '(label, start, stop) := k in
  match g with
  | WEEKLY =>
      label = Calendar.year_week t ∧ start <= t < start + Calendar.timedelta_days 7 ∧
      Calendar.weekday start = 0 ∧ Calendar.time_of_day start = Calendar.time_of_day t ∧
      stop = start + Calendar.timedelta_days 7 - 1
  | MONTHLY =>
      label = Calendar.year_month t ∧
      start = t - Calendar.timedelta_days (Calendar.day_of_month t - 1) ∧
      let later := start + Calendar.timedelta_days 31 in
      stop + 1 = later - Calendar.timedelta_days (Calendar.day_of_month later - 1)
  | _ =>
      label = Calendar.year_month_day t ∧ start <= t <= stop ∧ Calendar.time_of_day start = 0 ∧
      stop = start + Calendar.timedelta_days 1 - 1
  end.

#[export] Instance falls_into_dec g t k : Decision (falls_into g t k).
Proof. destruct k as [[label start] stop], g; apply _. Defined.

Lemma first_of_month t : Calendar.replace_day 1 t = t - Calendar.timedelta_days (Calendar.day_of_month t - 1).
Proof.
  unfold Calendar.replace_day, Calendar.timedelta_days, Calendar.year, Calendar.month, Calendar.day_of_month.
  pose proof (civil_roundtrip (Calendar.days t)) as H. pose proof (time_of_day_spec t) as Ht.
  destruct (Calendar.civil_of_days (Calendar.days t)) as [[y m] d]. destruct H as (_ & _ & H & _).
  assert (Calendar.days_of_civil y m 1 = Calendar.days t - d + 1) as ->; [|lia].
  rewrite <- H. unfold Calendar.days_of_civil. lia.
Qed.

Lemma day_28 t : Calendar.replace_day 28 t = Calendar.replace_day 1 t + Calendar.timedelta_days 27.
Proof.
  unfold Calendar.replace_day, Calendar.timedelta_days. generalize (Calendar.year t) (Calendar.month t). intros y m.
  assert (Calendar.days_of_civil y m 28 = Calendar.days_of_civil y m 1 + 27) as ->; [|lia].
  unfold Calendar.days_of_civil. lia.
Qed.

Lemma div_day t : ∃ p r, t / Calendar.day = p ∧ t mod Calendar.day = r ∧ t = Calendar.day * p + r ∧ 0 <= r < Calendar.day.
Proof. exists (t / Calendar.day), (t mod Calendar.day). split_and!; try done; [by apply Z.div_mod|by apply Z.mod_pos_bound..]. Qed.

Lemma midnight_unique start t :
  start <= t <= start + Calendar.timedelta_days 1 - 1 ∧ Calendar.time_of_day start = 0 ↔ start = Calendar.midnight t.
Proof.
  unfold Calendar.time_of_day, Calendar.midnight, Calendar.days, Calendar.timedelta_days.
  destruct (div_day t) as (p & r & -> & _ & Ht & Hr). destruct (div_day start) as (q & r' & _ & -> & Hs & Hr').
  assert (Calendar.day = 86400000000) as Hday by reflexivity. rewrite Hday in *. clear Hday. split; [lia|].
  intros E. split; [lia|]. assert (r' = 0 ∨ 86400000000 * (p - q) = r') as [?|E'] by lia; [done|].
  assert (p - q = 0 ∨ 1 <= p - q ∨ p - q <= -1) by lia. lia.
Qed.

(** The Monday before an instant, at its time of the day. *)
Lemma monday_unique start t :
  start <= t < start + Calendar.timedelta_days 7 ∧ Calendar.weekday start = 0 ∧
    Calendar.time_of_day start = Calendar.time_of_day t ↔
  start = t - Calendar.timedelta_days (Calendar.weekday t).
Proof.
  unfold Calendar.time_of_day, Calendar.weekday, Calendar.days, Calendar.timedelta_days.
  destruct (div_day t) as (p & r & -> & -> & Ht & Hr). destruct (div_day start) as (q & r' & -> & -> & Hs & Hr').
  pose proof (Z.div_mod (p + 3) 7 ltac:(lia)) as Hp. pose proof (Z.mod_pos_bound (p + 3) 7 ltac:(lia)) as Hp'.
  pose proof (Z.div_mod (q + 3) 7 ltac:(lia)) as Hq. pose proof (Z.mod_pos_bound (q + 3) 7 ltac:(lia)) as Hq'.
  assert (Calendar.day = 86400000000) as Hday by reflexivity. rewrite Hday in *. clear Hday.
  set (wp := (p + 3) mod 7) in *. set (wq := (q + 3) mod 7) in *.
  set (dp := (p + 3) / 7) in *. set (dq := (q + 3) / 7) in *. clearbody wp wq dp dq. split; [lia|].
  intros E. assert (86400000000 * (q - p + wp) = r - r') as E' by lia.
  assert (q - p + wp = 0 ∨ 1 <= q - p + wp ∨ q - p + wp <= -1) by lia.
  assert (q = p - wp) by lia. assert (r = r') by lia. split_and!; lia.
Qed.

(** The key of a comparison's bucket is the period it falls into. *)
Lemma falls_into_key g t k :
  falls_into g t k ↔ (bucket_label t g, bucket_start t g, bucket_stop t g) = k.
Proof.
  destruct k as [[label start] stop].
  assert (label = Calendar.year_month_day t ∧ start <= t <= stop ∧ Calendar.time_of_day start = 0 ∧
    stop = start + Calendar.timedelta_days 1 - 1 ↔
    (Calendar.year_month_day t, Calendar.midnight t, Calendar.midnight t + (Calendar.timedelta_days 1 - 1))
    = (label, start, stop)) as Hdaily.
  { rewrite !pair_equal_spec. split.
    - intros (-> & H1 & H2 & ->). assert (start = Calendar.midnight t) as -> by by apply midnight_unique.
      split_and!; [done|done|lia].
    - intros [[-> E] <-]. symmetry in E. rewrite <-E. apply midnight_unique in E as [H1 H2].
      split_and!; [done|lia..|done|lia]. }
  destruct g; try exact Hdaily; clear Hdaily.
  - unfold falls_into, bucket_label, bucket_stop, bucket_start. rewrite !pair_equal_spec. split.
    + intros (-> & H1 & H2 & H3 & ->).
      assert (start = t - Calendar.timedelta_days (Calendar.weekday t)) as -> by by apply monday_unique.
      split_and!; [done|done|lia].
    + intros [[-> E] <-]. symmetry in E. rewrite <-E. apply monday_unique in E as (H1 & H2 & H3).
      split_and!; [done|lia|lia|done|done|lia].
  - unfold falls_into, bucket_label, bucket_start, bucket_stop. cbv zeta.
    rewrite day_28, (first_of_month (_ + _ + _)).
    assert (∀ u, u + Calendar.timedelta_days 27 + Calendar.timedelta_days 4 = u + Calendar.timedelta_days 31) as ->
      by (intros u; unfold Calendar.timedelta_days; lia).
    rewrite (first_of_month t). rewrite !pair_equal_spec. split.
    + intros (-> & -> & H). split_and!; [done|done|lia].
    + intros [[-> <-] <-]. split_and!; [done|done|lia].
Qed.

(** C38. The aggregates of the dashboard add up.  For comparisons whose metrics are counts,
    as the ones that are stored, the answer is there and changes nothing: its periods,
    told apart by label, start and end, are distinct and ordered by their starts; every
    comparison that passes the filters falls into exactly one of them, and into each falls
    one; its four figures are the sums of those of its comparisons, and its devices those of
    the latest of them whose snapshot is there; over all periods the figures add up to those
    of all comparisons.  A day begins at midnight, a week and a month at the time of the day
    of the comparison: [week_in_two] shows three periods in one week. *)
Theorem aggregates_account g site device_role platform start_date end_date s :
  Forall (λ c, counted_metrics c = true) (t_comparisons (tables s)) →
  ∃ cs bs, list_comparison_results start_date end_date (build_metadata_filter site device_role platform) s
      = (Ret cs, s) ∧
    aggregated_statistics g site device_role platform start_date end_date s = (Ret bs, s) ∧
    NoDup (map key_of bs) ∧ Sorted starts_before bs ∧
    (∀ c, c ∈ cs → ∃ b, b ∈ bs ∧ falls_into g (ComparisonRow.compared_at c) (key_of b) ∧
       ∀ b', b' ∈ bs → falls_into g (ComparisonRow.compared_at c) (key_of b') → b' = b) ∧
    (∀ b, b ∈ bs →
       let members := List.filter (λ c, bool_decide (falls_into g (ComparisonRow.compared_at c) (key_of b))) (rev cs) in
       members ≠ [] ∧ amounts (bucket_values b) = sums members ∧
       Aggregate.total_devices b = last_devices (tables s) members) ∧
    total bs = sums (rev cs).
Proof.
  intros Hcs. unfold aggregated_statistics.
  set (filters := build_metadata_filter site device_role platform).
  unfold list_comparison_results, history_query, gets.
  set (cs := List.filter _ (merge_sort compared_later (t_comparisons (tables s)))).
  assert (Forall (λ c, counted_metrics c = true) (rev cs)) as Hrev.
  { apply Forall_forall. intros c Hc. apply (proj1 (Forall_forall _ _) Hcs).
    apply list_elem_of_In, in_rev in Hc. apply filter_In in Hc as [Hc _].
    apply list_elem_of_In in Hc. by rewrite merge_sort_Permutation in Hc. }
  destruct (all_into_buckets_account (tables s) g (rev cs) [] [] ltac:(done) Hrev) as (bs & E & Ha).
  { split; [constructor| |by intros ? ?%elem_of_nil|by intros ? ?%elem_of_nil|done].
    intros k. split; [by intros ?%elem_of_nil|by intros (? & ?%elem_of_nil & _)]. }
  exists cs, (merge_sort starts_before bs). split; [done|]. split.
  { unfold bind, of_outcome, ret. cbn. fold cs. by rewrite E. }
  pose proof (merge_sort_Permutation starts_before bs) as Hp. destruct Ha as [Hnd Hk Hs Hd Ht].
  assert (∀ c k, falls_into g (ComparisonRow.compared_at c) k ↔ bucket_key g c = k) as Hfalls
    by (intros c k; apply falls_into_key).
  assert (∀ b, List.filter (λ c, bool_decide (falls_into g (ComparisonRow.compared_at c) (key_of b))) (rev cs)
    = List.filter (λ c, bool_decide (bucket_key g c = key_of b)) (rev cs)) as Hmembers.
  { intros b. apply List.filter_ext. intros c. apply bool_decide_ext, Hfalls. }
  split; [by rewrite Hp|]. split; [apply Sorted_merge_sort; intros a b; unfold starts_before; lia|]. split; [|split].
  - intros c Hc. assert (bucket_key g c ∈ map key_of bs) as Hin.
    { apply Hk. exists c. split; [|done]. apply list_elem_of_In, (proj1 (in_rev _ _)). by apply list_elem_of_In. }
    apply list_elem_of_fmap in Hin as (b & Hb & Hin). exists b. split; [by rewrite Hp|]. split; [by apply Hfalls|].
    intros b' Hb' Hb2%Hfalls. rewrite Hp in Hb'. rewrite Hb in Hb2. symmetry in Hb2.
    clear - Hnd Hin Hb' Hb2. apply list_elem_of_lookup in Hin as [i Hi], Hb' as [j Hj].
    assert (i = j) as ->; [|congruence]. apply (NoDup_lookup _ _ _ (key_of b) Hnd).
    + by rewrite list_lookup_fmap, Hi.
    + rewrite list_lookup_fmap, Hj. cbn. by rewrite Hb2.
  - intros b Hb. cbv zeta. rewrite Hp in Hb. rewrite Hmembers. split; [|split; [by apply Hs|by apply Hd]].
    assert (key_of b ∈ map key_of bs) as (c & Hc & Hkc)%Hk by by apply list_elem_of_fmap_2.
    intros Hnil. assert (c ∈ List.filter (λ c, bool_decide (bucket_key g c = key_of b)) (rev cs)) as Hin.
    { apply list_elem_of_In, filter_In. split; [by apply list_elem_of_In|by apply bool_decide_eq_true_2]. }
    rewrite Hnil in Hin. by apply elem_of_nil in Hin.
  - change (rev cs) with ([] ++ rev cs). rewrite <- Ht. unfold total. clear - Hp. induction Hp; cbn [map foldr]; [done|by rewrite IHHp| |by rewrite IHHp1].
    rewrite !zip_add_assoc. f_equal. apply zip_add_comm.
Qed.

(** *** Accuracy *)

(** The accuracy of the inventory is a percentage: when nothing is counted below zero it
    lies between 0 and 100, is 100 when no device is missing or modified, and there is none
    without devices. *)
Theorem accuracy_is_percentage c total missing modified :
  metric_value "missing" c = JInt missing → metric_value "modified" c = JInt modified →
  0 <= missing → 0 <= modified → 0 <= total →
  match netbox_accuracy c (Some total) with
  | None => total = 0
  | Some accuracy => total ≠ 0 ∧ ((0 <= accuracy)%Q ∧ (accuracy <= 100)%Q) ∧
      (missing = 0 → modified = 0 → (accuracy == 100)%Q)
  end.
Proof.
  intros E1 E2 H1 H2 Ht. unfold netbox_accuracy. rewrite E1, E2. cbn [int_of_json mbind option_bind].
  destruct (total ≟ 0) eqn:E0; pybool; [done|]. split; [done|].
  unfold round_digits. change (inject_Z (10 ^ 2)) with 100%Q.
  set (accurate := Z.max (total - missing - modified) 0).
  set (q := (inject_Z accurate / inject_Z total * 100 * 100)%Q).
  assert (0 < inject_Z total)%Q as Hpos by (change 0%Q with (inject_Z 0); rewrite <- Zlt_Qlt; lia).
  assert ((0 <= q)%Q ∧ (q <= 10000)%Q) as [Hq0 Hq1].
  { assert ((0 <= inject_Z accurate / inject_Z total)%Q ∧ (inject_Z accurate / inject_Z total <= 1)%Q) as [].
    { split; [apply Qle_shift_div_l|apply Qle_shift_div_r]; try done; rewrite ?Qmult_0_l, ?Qmult_1_l;
        [change 0%Q with (inject_Z 0)|]; rewrite <- Zle_Qle; unfold accurate; lia. }
    unfold q. lra. }
  pose proof (round_half_even_bounds q 0 10000 (conj Hq0 Hq1)) as [Hr0 Hr1].
  rewrite Zle_Qle in Hr0, Hr1. split.
  - split; [apply Qle_shift_div_l|apply Qle_shift_div_r]; try done; rewrite ?Qmult_0_l; done.
  - intros -> ->. assert (accurate = total) as Ea by (unfold accurate; lia).
    assert (q == 10000)%Q as Eq by (unfold q; rewrite Ea; field; intros E; rewrite E in Hpos; by apply Qlt_irrefl in Hpos).
    assert (round_half_even q = 10000) as ->; [|done].
    assert (inject_Z 10000 <= q)%Q as Hge by by rewrite Eq. assert (q <= inject_Z 10000)%Q as Hle by by rewrite Eq.
    pose proof (round_half_even_bounds q 10000 10000 (conj Hge Hle)). lia.
Qed.

(** *** What the code does against its names *)

(** The devices counted are those of the live snapshot that was stored first. *)
Lemma kpis_count_first_snapshot s :
  match current_kpis None None None None None s with
  | (Ret k, _) => Kpi.total_devices k = devices_count (tables s) <$>
      List.find (λ x, Snapshot.source x ≟ "live") (t_snapshots (tables s))
  | _ => False
  end.
Proof.
  unfold current_kpis, list_live_snapshots, list_by_source, history_query, gets, bind. cbn. f_equal.
  induction (t_snapshots (tables s)) as [|x l IH]; [done|]. cbn. by destruct (Snapshot.source x ≟ "live").
Qed.
End DashboardTheorems.

(** Comparisons of one week share a bucket only when made at the same time of the day. *)
Lemma weekly_bucket_time t t' :
  bucket_start t WEEKLY = bucket_start t' WEEKLY → Calendar.time_of_day t = Calendar.time_of_day t'.
Proof.
  unfold bucket_start, Calendar.timedelta_days, Calendar.time_of_day. intros E.
  assert (∀ u w, u mod Calendar.day = (u - w * Calendar.day) mod Calendar.day) as Hmod.
  { intros u w. rewrite <- (Z.mod_add (u - w * Calendar.day) w Calendar.day) by done. f_equal. lia. }
  rewrite (Hmod t (Calendar.weekday t)), (Hmod t' (Calendar.weekday t')). by rewrite E.
Qed.

(** *** On a concrete history *)

Module DashboardExamples.
#[local] Instance no_floats : FloatRepr := λ _, EmptyString.

Definition a_comparison (id : UUID) (at_ : datetime) (missing findings : Z) : ComparisonRecord := {|
  ComparisonRow.id := id; ComparisonRow.created_at := at_; ComparisonRow.expected_snapshot_id := 0%N;
  ComparisonRow.observed_snapshot_id := 0%N; ComparisonRow.compared_at := at_;
  ComparisonRow.metrics := JDict [("missing", JInt missing); ("total_findings", JInt findings)] |}.

(** Two comparisons on the ninth of January 1970, one on the tenth. *)
Definition some_history : HistoryState := {|
  tables := set_t_comparisons [a_comparison 1%N (8 * Calendar.day + 5) 1 4;
    a_comparison 2%N (8 * Calendar.day + 3600 * Calendar.second) 2 5;
    a_comparison 3%N (9 * Calendar.day) 0 7] no_rows;
  saved := no_rows; history_clock := Z.of_nat; history_ticks := O;
  history_uuids := N.of_nat; history_drawn := O |}.

Lemma aggregates_account_witness :
  Forall (λ c, counted_metrics c = true) (t_comparisons (tables some_history)) ∧
  ∃ bs, aggregated_statistics DAILY None None None None None some_history = (Ret bs, some_history) ∧
    map (λ b, (Aggregate.period_label b, amount (Aggregate.findings_total b))) bs
    = [("1970-01-09", 9); ("1970-01-10", 7)].
Proof.
  assert (Forall (λ c, counted_metrics c = true) (t_comparisons (tables some_history))) as H by repeat constructor.
  split; [exact H|].
  destruct (aggregates_account DAILY None None None None None some_history H) as (cs & bs & _ & E & _).
  exists bs. split; [exact E|]. vm_compute in E. injection E as <-. reflexivity.
Defined.

Lemma accuracy_is_percentage_witness :
  let c := {| ComparisonRow.id := 1%N; ComparisonRow.created_at := 0; ComparisonRow.expected_snapshot_id := 0%N;
    ComparisonRow.observed_snapshot_id := 0%N; ComparisonRow.compared_at := 0;
    ComparisonRow.metrics := JDict [("missing", JInt 1); ("modified", JInt 1)] |} in
  ∃ accuracy, netbox_accuracy c (Some 3) = Some accuracy ∧ (0 <= accuracy)%Q ∧ (accuracy <= 100)%Q.
Proof.
  intros c. pose proof (accuracy_is_percentage c 3 1 1 eq_refl eq_refl ltac:(lia) ltac:(lia) ltac:(lia)) as H.
  destruct (netbox_accuracy c (Some 3)) as [a|]; [exists a; split; [reflexivity|apply H]|discriminate H].
Defined.

(** Two comparisons of one week, an hour apart, in two weekly periods. *)
Example week_in_two : match aggregated_statistics WEEKLY None None None None None some_history with
  | (Ret bs, _) => map Aggregate.period_label bs = ["1970-W01"; "1970-W01"; "1970-W01"]
  | _ => False
  end.
Proof. vm_compute. reflexivity. Qed.
End DashboardExamples.
