(* ===== verification/Reporting.v ===== *)
(** * Reports ([reporting/])

    Statistics, sections and recommendations over cached results, their document tree and
    its exports.  The theorems: every kind of report is built, rendered and written with its
    sections in order, the figures stay in their ranges, and both text formats read back:
    the CSV file cell by cell, the HTML page tag by tag with every text and value as it was. *)

From Stdlib Require Import Qabs Lqa.
From stdpp Require Import sorting.
From S2P Require Import Prelude Vocabulary Effects Json EvidenceStore Dicts Texts JsonText.
From S2P Require Import Contracts.
From S2P Require Import Analytics.
From S2P Require Import Inventories Comparison Policies Evaluation History.
#[local] Open Scope Z_scope.

(** ** Enumerations ([enums.py]) *)

Module ReportTypes.
Inductive ReportType :=
  EXECUTIVE_SUMMARY | INVENTORY | DISCOVERY | COMPLIANCE | DIFFERENCE | FINDING | HISTORICAL | TECHNICAL.
#[global] Instance report_type_eq_dec : EqDecision ReportType.
Proof. solve_decision. Defined.
Definition text (t : ReportType) : string :=
  match t with
  | EXECUTIVE_SUMMARY => "executive_summary" | INVENTORY => "inventory" | DISCOVERY => "discovery"
  | COMPLIANCE => "compliance" | DIFFERENCE => "difference" | FINDING => "finding"
  | HISTORICAL => "historical" | TECHNICAL => "technical"
  end.
End ReportTypes.
Abbreviation ReportType := ReportTypes.ReportType.

Module Formats.
Inductive ExportFormat := HTML | PDF | EXCEL | CSV | JSON.
#[global] Instance format_eq_dec : EqDecision ExportFormat.
Proof. solve_decision. Defined.
Definition text (f : ExportFormat) : string :=
  match f with HTML => "html" | PDF => "pdf" | EXCEL => "excel" | CSV => "csv" | JSON => "json" end.
End Formats.
Abbreviation ExportFormat := Formats.ExportFormat.

Module Sections.
Inductive SectionType :=
  EXECUTIVE_SUMMARY | INVENTORY | COMPLIANCE | FINDINGS | DISCREPANCIES | RECOMMENDATIONS | METRICS | APPENDIX.
#[global] Instance section_type_eq_dec : EqDecision SectionType.
Proof. solve_decision. Defined.
Definition text (t : SectionType) : string :=
  match t with
  | EXECUTIVE_SUMMARY => "executive_summary" | INVENTORY => "inventory" | COMPLIANCE => "compliance"
  | FINDINGS => "findings" | DISCREPANCIES => "discrepancies" | RECOMMENDATIONS => "recommendations"
  | METRICS => "metrics" | APPENDIX => "appendix"
  end.
End Sections.
Abbreviation SectionType := Sections.SectionType.

Inductive RecommendationCategory := OfCompliance | OfInventory | OfDiscovery | OfOperations.
Definition category_text (c : RecommendationCategory) : string :=
  match c with
  | OfCompliance => "compliance" | OfInventory => "inventory" | OfDiscovery => "discovery"
  | OfOperations => "operations"
  end.

Inductive RecommendationAction :=
  REMEDIATE_DRIFT | UPDATE_SOURCE_OF_TRUTH | INVESTIGATE | REVIEW_POLICY | SCHEDULE_MAINTENANCE
  | VERIFY_CONNECTIVITY.
Definition action_text (a : RecommendationAction) : string :=
  match a with
  | REMEDIATE_DRIFT => "remediate_drift" | UPDATE_SOURCE_OF_TRUTH => "update_source_of_truth"
  | INVESTIGATE => "investigate" | REVIEW_POLICY => "review_policy"
  | SCHEDULE_MAINTENANCE => "schedule_maintenance" | VERIFY_CONNECTIVITY => "verify_connectivity"
  end.

Module Priority.
Inductive RecommendationPriority := CRITICAL | HIGH | MEDIUM | LOW.
Definition text (p : RecommendationPriority) : string :=
  match p with CRITICAL => "critical" | HIGH => "high" | MEDIUM => "medium" | LOW => "low" end.
End Priority.

Module NodeTypes.
Inductive DocumentNodeType :=
  DOCUMENT | SECTION | HEADING | PARAGRAPH | TABLE | LIST | KEY_VALUE | METRIC | DIVIDER.
Definition text (t : DocumentNodeType) : string :=
  match t with
  | DOCUMENT => "document" | SECTION => "section" | HEADING => "heading" | PARAGRAPH => "paragraph"
  | TABLE => "table" | LIST => "list" | KEY_VALUE => "key_value" | METRIC => "metric"
  | DIVIDER => "divider"
  end.
End NodeTypes.
Abbreviation DocumentNodeType := NodeTypes.DocumentNodeType.

(** ** Values of a document

    What a section or an attribute holds; unlike JSON it tells tuples from lists. *)
Inductive pyvalue :=
  | VNone
  | VBool (b : bool)
  | VInt (z : Z)
  | VFloat (q : float)
  | VStr (s : string)
  | VTuple (l : list pyvalue)
  | VList (l : list pyvalue)
  | VDict (d : list (string * pyvalue)).

Abbreviation mapping := (list (string * pyvalue)).

Definition lookup_value (key : string) (d : mapping) : option pyvalue :=
  snd <$> List.find (λ e, e.1 ≟ key) d.

Definition vopt (o : option string) : pyvalue := from_option VStr VNone o.
Definition vopt_int (o : option Z) : pyvalue := from_option VInt VNone o.
Definition vuuid (o : option UUID) : pyvalue := vopt (uuid_str <$> o).

Fixpoint of_json (j : json) : pyvalue :=
  match j with
  | JNull => VNone | JBool b => VBool b | JInt z => VInt z | JFloat q => VFloat q | JStr s => VStr s
  | JList l => VList (map of_json l)
  | JDict d => VDict (map (λ e, (e.1, of_json e.2)) d)
  end.

(** What [json.dumps] sees of a value: a tuple is written as a list. *)
Fixpoint to_json (v : pyvalue) : json :=
  match v with
  | VNone => JNull | VBool b => JBool b | VInt z => JInt z | VFloat q => JFloat q | VStr s => JStr s
  | VTuple l | VList l => JList (map to_json l)
  | VDict d => JDict (map (λ e, (e.1, to_json e.2)) d)
  end.

Section Values.
Context {HF : FloatRepr}.

(** [repr(value)] and [str(value)]. *)
Fixpoint value_repr (v : pyvalue) : string :=
  match v with
  | VNone => "None"
  | VBool b => if b then "True" else "False"
  | VInt z => pretty z
  | VFloat q => float_repr q
  | VStr s => str_repr s
  | VTuple [x] => "(" +:+ value_repr x +:+ ",)"
  | VTuple l => "(" +:+ String.concat ", " (map value_repr l) +:+ ")"
  | VList l => "[" +:+ String.concat ", " (map value_repr l) +:+ "]"
  | VDict d => "{" +:+ String.concat ", " (map (λ e, str_repr e.1 +:+ ": " +:+ value_repr e.2) d) +:+ "}"
  end.

Definition value_str (v : pyvalue) : string := match v with VStr s => s | _ => value_repr v end.

(** [str(attributes.get(key, default))]. *)
Definition attribute_str (key default : string) (d : mapping) : string :=
  from_option value_str default (lookup_value key d).
End Values.

(** ** The context ([context.py], [metadata.py])

    A comparison comes with the identities its findings and evidence drew, a decision with
    those of its evidence. *)

Module DiscoveryRun.
Record DiscoveryRunSnapshot := {
  run_id : UUID; total_targets : Z; successful_targets : Z; failed_targets : Z; skipped_targets : Z;
  started_at : datetime; finished_at : option datetime; target_identifier : option string;
}.
End DiscoveryRun.

Module PastRun.
Record HistoricalRunSnapshot := {
  run_id : UUID; captured_at : datetime; total_devices : Z; missing_devices : Z; extra_devices : Z;
  changed_devices : Z; compliance_score : option Z; critical_findings : Z; major_findings : Z;
  minor_findings : Z;
}.
End PastRun.

Record CachedComparison := {
  cached_differences : list Difference; cached_findings : list Finding;
  cached_metrics : option ComparisonMetrics; cached_identity : ResultIdentity;
}.

Record CachedDecision := {
  cached_decision : EvaluationDecision; decision_metrics : option Metrics.EvaluationMetrics;
  decision_evidence_id : nat → UUID;
}.

Module Context_.
Record ReportContext := {
  netbox_inventory : option NetBox.NetBoxInventorySnapshot;
  live_snapshot : option Live.LiveInventorySnapshot;
  comparison_result : option CachedComparison;
  evaluation_decision : option CachedDecision;
  discovery_run : option DiscoveryRun.DiscoveryRunSnapshot;
  historical_runs : list PastRun.HistoricalRunSnapshot;
  run_id : option UUID; job_id : option UUID; site : option string; device_role : option string;
  platform : option string;
}.
End Context_.
Abbreviation ReportContext := Context_.ReportContext.

Module Metadata.
Record ReportMetadata := {
  title : string; report_type : ReportType; run_id : option UUID; job_id : option UUID;
  generated_at : option datetime; site : option string; device_role : option string;
  platform : option string; source : option string;
}.
End Metadata.
Abbreviation ReportMetadata := Metadata.ReportMetadata.

(** ** Statistics ([statistics.py]) *)

Module Figures.
Record ReportStatistics := {
  total_devices : Z; reachable_devices : Z; unreachable_devices : Z; discovery_success_pct : float;
  netbox_accuracy_pct : float; compliance_score : Z; critical_findings : Z; major_findings : Z;
  minor_findings : Z; device_type_counts : list (string * Z); vendor_counts : list (string * Z);
  platform_counts : list (string * Z); missing_devices : Z; extra_devices : Z; changed_devices : Z;
  interface_changes : Z; vlan_changes : Z; configuration_changes : Z;
}.
End Figures.
Abbreviation ReportStatistics := Figures.ReportStatistics.

Section Statistics.
Variable context : ReportContext.
Let netbox := Context_.netbox_inventory context.
Let live := Context_.live_snapshot context.
Let comparison := Context_.comparison_result context.

Definition netbox_count (inventory : NetBox.NetBoxInventorySnapshot) : Z :=
  count_items (NetBox.devices inventory).
Definition live_count (snapshot : Live.LiveInventorySnapshot) : Z := count_items (Live.devices snapshot).

Definition total_devices : Z :=
  match netbox, live with
  | Some inventory, _ => netbox_count inventory
  | None, Some snapshot => live_count snapshot
  | None, None => 0
  end.

Definition reachable_devices : Z :=
  match live, Context_.discovery_run context with
  | Some snapshot, _ => live_count snapshot
  | None, Some run => DiscoveryRun.successful_targets run
  | None, None => 0
  end.

(** [round((part / whole) * 100.0, 2)]. *)
Definition percentage (part whole : Z) : float :=
  round_digits 2 (inject_Z part / inject_Z whole * 100)%Q.

Definition discovery_success_pct : float :=
  let without := if live then 100%Q else 0%Q in
  match Context_.discovery_run context with
  | None => without
  | Some run =>
      if DiscoveryRun.total_targets run ≟ 0 then without
      else percentage (DiscoveryRun.successful_targets run) (DiscoveryRun.total_targets run)
  end.

Definition netbox_accuracy_pct : float :=
  let count := from_option netbox_count 0 netbox in
  if count ≟ 0 then 100%Q
  else
    match comparison ≫= cached_metrics with
    | None => percentage reachable_devices count
    | Some metrics =>
        percentage (Z.max (count - missing_count metrics - modified_count metrics) 0) count
    end.

Definition compliance_score : Z :=
  match Context_.evaluation_decision context, comparison with
  | Some decision, _ => Outcome.compliance_score (cached_decision decision)
  | None, Some result => match cached_differences result with [] => 100 | _ => 0 end
  | None, None => 0
  end.

Definition all_findings : list Finding := from_option cached_findings [] comparison.

(** [_finding_counts]: critical, major and minor. *)
Definition finding_counts : Z * Z * Z :=
  fold_left (λ '(critical, major, minor) f,
    match level (severity f) with
    | CRITICAL => (critical + 1, major, minor)
    | HIGH => (critical, major + 1, minor)
    | _ => (critical, major, minor + 1)
    end) all_findings (0, 0, 0).

(** [tuple(sorted(counter.items()))]. *)
Definition count_before (a b : string * Z) : Prop := str_leb a.1 b.1 = true.
#[export] Instance count_before_dec : RelDecision count_before.
Proof. intros a b. unfold count_before. apply _. Defined.
Definition counts_of (names : list string) : list (string * Z) := merge_sort count_before (counter names).

(** [value or "unknown"]. *)
Definition or_unknown (o : option string) : string := or_str o "unknown".

Definition device_counts (netbox_name : Device.Device → string)
    (live_name : DeviceSnapshot.DeviceSnapshot → option string) : list (string * Z) :=
  match netbox, live with
  | Some inventory, _ => counts_of (map netbox_name (NetBox.devices inventory))
  | None, Some snapshot => counts_of (map (λ d, or_unknown (live_name d)) (Live.devices snapshot))
  | None, None => counts_of []
  end.

Definition device_type_counts : list (string * Z) :=
  device_counts (λ d, DeviceType.model (Device.device_type d)) DeviceSnapshot.model.
Definition vendor_counts : list (string * Z) :=
  device_counts (λ d, Manufacturer.name (DeviceType.manufacturer (Device.device_type d)))
    DeviceSnapshot.manufacturer.
Definition platform_counts : list (string * Z) :=
  device_counts (λ d, from_option Platform.name "unknown" (Device.platform d)) DeviceSnapshot.platform.

Definition device_drift_counts : Z * Z * Z :=
  match comparison ≫= cached_metrics with
  | None => (0, 0, 0)
  | Some metrics => (missing_count metrics, unexpected_count metrics, modified_count metrics)
  end.

(** [_change_counts]: interfaces, VLANs and configuration. *)
Definition change_counts : Z * Z * Z :=
  fold_left (λ '(interfaces, vlans, configurations) d,
    if negb (difference_type d ≟ MODIFIED) then (interfaces, vlans, configurations)
    else
      let subject := str_lower (subject_type d) in
      if subject ≟ "interface" then (interfaces + 1, vlans, configurations)
      else if subject ≟ "vlan" then (interfaces, vlans + 1, configurations)
      else if mem subject ["device"; "configuration"; "config"] then (interfaces, vlans, configurations + 1)
      else (interfaces, vlans, configurations)) (from_option cached_differences [] comparison) (0, 0, 0).

(** [StatisticsCalculator.calculate]. *)
Definition calculate : ReportStatistics :=
  let '(critical, major, minor) := finding_counts in
  let '(missing, extra, changed) := device_drift_counts in
  let '(interface_changes, vlan_changes, config_changes) := change_counts in {|
    Figures.total_devices := total_devices; Figures.reachable_devices := reachable_devices;
    Figures.unreachable_devices := Z.max (total_devices - reachable_devices) 0;
    Figures.discovery_success_pct := discovery_success_pct;
    Figures.netbox_accuracy_pct := netbox_accuracy_pct; Figures.compliance_score := compliance_score;
    Figures.critical_findings := critical; Figures.major_findings := major;
    Figures.minor_findings := minor; Figures.device_type_counts := device_type_counts;
    Figures.vendor_counts := vendor_counts; Figures.platform_counts := platform_counts;
    Figures.missing_devices := missing; Figures.extra_devices := extra;
    Figures.changed_devices := changed; Figures.interface_changes := interface_changes;
    Figures.vlan_changes := vlan_changes; Figures.configuration_changes := config_changes |}.
End Statistics.

(** ** Models ([models.py]) *)

Module Advice.
Record ReportRecommendation := {
  recommendation_id : string; category : RecommendationCategory; action : RecommendationAction;
  priority : Priority.RecommendationPriority; subject_type : string; subject_id : string;
  reason_code : string; related_finding_ids : list UUID; related_difference_keys : list string;
  attributes : mapping;
}.
End Advice.
Abbreviation ReportRecommendation := Advice.ReportRecommendation.

Record ReportSection := { section_type : SectionType; section_title : string; section_data : mapping }.

Module Data.
Record ReportData := {
  report_type : ReportType; metadata : ReportMetadata; statistics : ReportStatistics;
  sections : list ReportSection; recommendations : list ReportRecommendation;
  generated_at : option datetime;
}.
End Data.
Abbreviation ReportData := Data.ReportData.

Inductive DocumentNode := Node (node_type : DocumentNodeType) (attributes : mapping) (children : list DocumentNode).
Definition node_type (n : DocumentNode) : DocumentNodeType := let '(Node t _ _) := n in t.
Definition attributes (n : DocumentNode) : mapping := let '(Node _ a _) := n in a.
Definition children (n : DocumentNode) : list DocumentNode := let '(Node _ _ c) := n in c.

Module Document.
Record RenderedDocument := {
  report_type : ReportType; metadata : ReportMetadata; root : DocumentNode;
  statistics : ReportStatistics; recommendations : list ReportRecommendation;
}.
End Document.
Abbreviation RenderedDocument := Document.RenderedDocument.

Record ExportResult := { format : ExportFormat; content : string; mime_type : string; filename : string }.

Module Template.
Record TemplateDefinition := {
  report_type : ReportType; title_key : string; sections : list SectionType; layout : string;
}.
End Template.
Abbreviation TemplateDefinition := Template.TemplateDefinition.

(** ** Sections ([sections/]) *)

(** The fifteen figures every view of the statistics lists. *)
Definition statistics_figures (s : ReportStatistics) : mapping := [
  ("total_devices", VInt (Figures.total_devices s)); ("reachable_devices", VInt (Figures.reachable_devices s));
  ("unreachable_devices", VInt (Figures.unreachable_devices s));
  ("discovery_success_pct", VFloat (Figures.discovery_success_pct s));
  ("netbox_accuracy_pct", VFloat (Figures.netbox_accuracy_pct s));
  ("compliance_score", VInt (Figures.compliance_score s));
  ("critical_findings", VInt (Figures.critical_findings s));
  ("major_findings", VInt (Figures.major_findings s)); ("minor_findings", VInt (Figures.minor_findings s));
  ("missing_devices", VInt (Figures.missing_devices s)); ("extra_devices", VInt (Figures.extra_devices s));
  ("changed_devices", VInt (Figures.changed_devices s));
  ("interface_changes", VInt (Figures.interface_changes s)); ("vlan_changes", VInt (Figures.vlan_changes s));
  ("configuration_changes", VInt (Figures.configuration_changes s))].

Section Building.
Context {HF : FloatRepr}.
Variable isoformat : datetime → string.

(** [SummaryGenerator.generate] ([summary.py]). *)
Definition headline (s : ReportStatistics) : string :=
  "compliance_score:" +:+ pretty (Figures.compliance_score s)
  +:+ "|netbox_accuracy:" +:+ float_repr (Figures.netbox_accuracy_pct s)
  +:+ "|devices:" +:+ pretty (Figures.total_devices s).

Definition build_highlights (s : ReportStatistics) : list string :=
  map (λ e, e.1 +:+ ":" +:+ value_str e.2) (take 12 (statistics_figures s)).

Definition summary_metrics (s : ReportStatistics) : mapping := [
  ("total_devices", VInt (Figures.total_devices s)); ("compliance_score", VInt (Figures.compliance_score s));
  ("netbox_accuracy_pct", VFloat (Figures.netbox_accuracy_pct s));
  ("discovery_success_pct", VFloat (Figures.discovery_success_pct s));
  ("critical_findings", VInt (Figures.critical_findings s));
  ("missing_devices", VInt (Figures.missing_devices s)); ("extra_devices", VInt (Figures.extra_devices s))].

(** [str(identity) if identity else None]. *)
Definition build_executive_summary_section (c : ReportContext) (s : ReportStatistics) : ReportSection := {|
  section_type := Sections.EXECUTIVE_SUMMARY; section_title := "section.executive_summary";
  section_data := [("headline", VStr (headline s)); ("highlights", VTuple (map VStr (build_highlights s)));
                   ("metrics", VDict (summary_metrics s)); ("run_id", vuuid (Context_.run_id c))] |}.

Definition netbox_device_row (d : Device.Device) : mapping := [
  ("name", VStr (Device.name d)); ("serial", vopt (Device.serial d));
  ("platform", vopt (Platform.name <$> Device.platform d));
  ("device_type", VStr (DeviceType.model (Device.device_type d)));
  ("manufacturer", VStr (Manufacturer.name (DeviceType.manufacturer (Device.device_type d))))].

Definition live_device_row (d : DeviceSnapshot.DeviceSnapshot) : mapping := [
  ("device_id", VStr (DeviceSnapshot.device_id d)); ("name", VStr (DeviceSnapshot.name d));
  ("serial_number", vopt (DeviceSnapshot.serial_number d)); ("platform", vopt (DeviceSnapshot.platform d));
  ("model", vopt (DeviceSnapshot.model d)); ("manufacturer", vopt (DeviceSnapshot.manufacturer d));
  ("management_ip", vopt (DeviceSnapshot.management_ip d))].

(** A tuple of dictionaries, and one of pairs. *)
Definition rows_of {A} (row : A → mapping) (l : list A) : pyvalue := VTuple (map (λ a, VDict (row a)) l).
Definition counts_value (counts : list (string * Z)) : pyvalue :=
  VTuple (map (λ e, VTuple [VStr e.1; VInt e.2]) counts).

Definition build_inventory_section (c : ReportContext) (s : ReportStatistics) : ReportSection := {|
  section_type := Sections.INVENTORY; section_title := "section.inventory";
  section_data := [
    ("netbox_devices", rows_of netbox_device_row (from_option NetBox.devices [] (Context_.netbox_inventory c)));
    ("live_devices", rows_of live_device_row (from_option Live.devices [] (Context_.live_snapshot c)));
    ("device_type_counts", counts_value (Figures.device_type_counts s));
    ("vendor_counts", counts_value (Figures.vendor_counts s));
    ("platform_counts", counts_value (Figures.platform_counts s))] |}.

Definition decision_metrics_value (m : Metrics.EvaluationMetrics) : mapping := [
  ("total_rules", VInt (Metrics.total_rules m)); ("evaluated_rules", VInt (Metrics.evaluated_rules m));
  ("compliant", VInt (Metrics.compliant m)); ("non_compliant", VInt (Metrics.non_compliant m));
  ("waived", VInt (Metrics.waived m)); ("not_applicable", VInt (Metrics.not_applicable m));
  ("errors", VInt (Metrics.errors m)); ("risk_score", VInt (Metrics.risk_score m));
  ("compliance_score", VInt (Metrics.compliance_score m))].

Definition rule_result_row (r : RuleEvaluationResult) : mapping := [
  ("rule_key", VStr (Result.rule_key r)); ("status", VStr (value (Result.status r)));
  ("passed", VBool (Result.passed r)); ("risk_score", VInt (Result.risk_score r));
  ("severity", VStr (SeverityLevel_value (level (Result.severity r))));
  ("subject_type", VStr (subject_type (Result.difference r)));
  ("subject_id", VStr (subject_id (Result.difference r)))].

Definition build_compliance_section (c : ReportContext) (s : ReportStatistics) : ReportSection :=
  let decision := Context_.evaluation_decision c in
  let of_decision {A} (f : EvaluationDecision → A) := (λ d, f (cached_decision d)) <$> decision in {|
  section_type := Sections.COMPLIANCE; section_title := "section.compliance";
  section_data := [
    ("status", vopt (of_decision (λ d, value (Outcome.status d))));
    ("risk_score", vopt_int (of_decision Outcome.risk_score));
    ("compliance_score", VInt (Figures.compliance_score s));
    ("metrics", from_option (λ m, VDict (decision_metrics_value m)) VNone (decision ≫= decision_metrics));
    ("rule_results", rows_of rule_result_row (from_option id [] (of_decision Outcome.rule_results)))] |}.

(** The findings of the comparison with the places their identities are drawn at. *)
Definition placed {A} (l : list A) : list (nat * A) := zip (seq 0 (length l)) l.

Definition finding_row (identity : ResultIdentity) (p : nat * Finding) : mapping :=
  let '(n, f) := p in [
  ("finding_id", VStr (uuid_str (finding_identity identity n)));
  ("rule_id", VStr (uuid_str (Comparison.rule_id f))); ("title", VStr (Comparison.title f));
  ("severity", VStr (SeverityLevel_value (level (severity f)))); ("severity_score", VInt (score (severity f)));
  ("description", vopt (finding_description f));
  ("evidence_count", VInt (count_items (Comparison.evidence f)))].

Definition build_findings_section (c : ReportContext) (s : ReportStatistics) : ReportSection := {|
  section_type := Sections.FINDINGS; section_title := "section.findings";
  section_data := [
    ("findings", from_option (λ r, rows_of (finding_row (cached_identity r)) (placed (cached_findings r)))
                   (VTuple []) (Context_.comparison_result c));
    ("critical_findings", VInt (Figures.critical_findings s));
    ("major_findings", VInt (Figures.major_findings s)); ("minor_findings", VInt (Figures.minor_findings s))] |}.

Definition difference_row (d : Comparison.Difference) : mapping := [
  ("difference_type", VStr (value (difference_type d))); ("subject_type", VStr (subject_type d));
  ("subject_id", VStr (subject_id d)); ("field_name", vopt (field_name d));
  ("expected", of_json (expected d)); ("observed", of_json (observed d));
  ("description", vopt (description d)); ("key", VStr (Comparison.key d))].

Definition build_discrepancies_section (c : ReportContext) (s : ReportStatistics) : ReportSection := {|
  section_type := Sections.DISCREPANCIES; section_title := "section.discrepancies";
  section_data := [
    ("differences", rows_of difference_row (from_option cached_differences [] (Context_.comparison_result c)));
    ("missing_devices", VInt (Figures.missing_devices s)); ("extra_devices", VInt (Figures.extra_devices s));
    ("changed_devices", VInt (Figures.changed_devices s));
    ("interface_changes", VInt (Figures.interface_changes s)); ("vlan_changes", VInt (Figures.vlan_changes s));
    ("configuration_changes", VInt (Figures.configuration_changes s))] |}.

Definition discovery_value (run : DiscoveryRun.DiscoveryRunSnapshot) : mapping := [
  ("run_id", VStr (uuid_str (DiscoveryRun.run_id run)));
  ("total_targets", VInt (DiscoveryRun.total_targets run));
  ("successful_targets", VInt (DiscoveryRun.successful_targets run));
  ("failed_targets", VInt (DiscoveryRun.failed_targets run));
  ("skipped_targets", VInt (DiscoveryRun.skipped_targets run));
  ("started_at", VStr (isoformat (DiscoveryRun.started_at run)));
  ("finished_at", vopt (isoformat <$> DiscoveryRun.finished_at run))].

Definition historical_row (entry : PastRun.HistoricalRunSnapshot) : mapping := [
  ("run_id", VStr (uuid_str (PastRun.run_id entry)));
  ("captured_at", VStr (isoformat (PastRun.captured_at entry)));
  ("total_devices", VInt (PastRun.total_devices entry)); ("missing_devices", VInt (PastRun.missing_devices entry));
  ("extra_devices", VInt (PastRun.extra_devices entry)); ("changed_devices", VInt (PastRun.changed_devices entry));
  ("compliance_score", vopt_int (PastRun.compliance_score entry));
  ("critical_findings", VInt (PastRun.critical_findings entry));
  ("major_findings", VInt (PastRun.major_findings entry));
  ("minor_findings", VInt (PastRun.minor_findings entry))].

Definition build_metrics_section (c : ReportContext) (s : ReportStatistics) : ReportSection := {|
  section_type := Sections.METRICS; section_title := "section.metrics";
  section_data := [
    ("statistics", VDict (statistics_figures s));
    ("discovery", from_option (λ run, VDict (discovery_value run)) VNone (Context_.discovery_run c));
    ("historical_runs", rows_of historical_row (Context_.historical_runs c))] |}.

Definition evidence_value (identity : UUID) (e : Evidence) (finding : pyvalue) : mapping := [
  ("evidence_id", VStr (uuid_str identity)); ("source", VStr (Comparison.source e));
  ("description", VStr (evidence_description e)); ("reference", vopt (reference e)); ("finding_id", finding)].

Definition finding_evidence (identity : ResultIdentity) (p : nat * Finding) : list mapping :=
  let '(n, f) := p in
  map (λ '(k, e), evidence_value (evidence_identity identity n k).1 e
                    (VStr (uuid_str (finding_identity identity n)))) (placed (Comparison.evidence f)).

Definition decision_evidence (d : CachedDecision) : list mapping :=
  map (λ '(n, e), evidence_value (decision_evidence_id d n) e VNone)
    (placed (Outcome.evidence (cached_decision d))).

Definition build_appendix_section (c : ReportContext) (s : ReportStatistics) : ReportSection := {|
  section_type := Sections.APPENDIX; section_title := "section.appendix";
  section_data := [
    ("evidence", rows_of id (
      from_option (λ r, flat_map (finding_evidence (cached_identity r)) (placed (cached_findings r))) []
        (Context_.comparison_result c)
      ++ from_option decision_evidence [] (Context_.evaluation_decision c)));
    ("run_id", vuuid (Context_.run_id c)); ("job_id", vuuid (Context_.job_id c));
    ("site", vopt (Context_.site c)); ("device_role", vopt (Context_.device_role c));
    ("platform", vopt (Context_.platform c)); ("total_devices", VInt (Figures.total_devices s))] |}.

(** ** Recommendations ([sections/recommendations.py]) *)

Definition priority_from_severity (l : SeverityLevel) : Priority.RecommendationPriority :=
  match l with
  | CRITICAL => Priority.CRITICAL | HIGH => Priority.HIGH | MEDIUM => Priority.MEDIUM | _ => Priority.LOW
  end.

Definition action_for_difference (t : DifferenceType) : RecommendationAction :=
  match t with
  | MISSING => INVESTIGATE | UNEXPECTED => UPDATE_SOURCE_OF_TRUTH | _ => REMEDIATE_DRIFT
  end.

Definition priority_for_difference (t : DifferenceType) : Priority.RecommendationPriority :=
  match t with
  | MISSING | CONFLICT => Priority.HIGH | UNEXPECTED => Priority.MEDIUM | _ => Priority.LOW
  end.

(** Each recommendation takes the identity [uuid4] draws for it. *)
Definition finding_advice (identity : ResultIdentity) (p : nat * Finding) (fresh : UUID) : ReportRecommendation :=
  let '(n, f) := p in {|
  Advice.recommendation_id := uuid_str fresh; Advice.category := OfCompliance;
  Advice.action := REMEDIATE_DRIFT; Advice.priority := priority_from_severity (level (severity f));
  Advice.subject_type := "finding"; Advice.subject_id := uuid_str (finding_identity identity n);
  Advice.reason_code := "finding." +:+ SeverityLevel_value (level (severity f));
  Advice.related_finding_ids := [finding_identity identity n]; Advice.related_difference_keys := [];
  Advice.attributes := [] |}.

Definition difference_advice (d : Comparison.Difference) (fresh : UUID) : ReportRecommendation := {|
  Advice.recommendation_id := uuid_str fresh; Advice.category := OfInventory;
  Advice.action := action_for_difference (difference_type d);
  Advice.priority := priority_for_difference (difference_type d);
  Advice.subject_type := subject_type d; Advice.subject_id := subject_id d;
  Advice.reason_code := "difference." +:+ value (difference_type d);
  Advice.related_finding_ids := []; Advice.related_difference_keys := [Comparison.key d];
  Advice.attributes := [] |}.

Definition discovery_advice (run : DiscoveryRun.DiscoveryRunSnapshot) (fresh : UUID) : ReportRecommendation := {|
  Advice.recommendation_id := uuid_str fresh; Advice.category := OfDiscovery;
  Advice.action := VERIFY_CONNECTIVITY; Advice.priority := Priority.HIGH;
  Advice.subject_type := "discovery_run"; Advice.subject_id := uuid_str (DiscoveryRun.run_id run);
  Advice.reason_code := "discovery.failed_targets"; Advice.related_finding_ids := [];
  Advice.related_difference_keys := [];
  Advice.attributes := [("failed_targets", VInt (DiscoveryRun.failed_targets run))] |}.

Definition build_recommendations (fresh : nat → UUID) (c : ReportContext) : list ReportRecommendation :=
  match Context_.comparison_result c with
  | None => []
  | Some r =>
      let advices :=
        map (finding_advice (cached_identity r)) (placed (cached_findings r))
        ++ map difference_advice (cached_differences r)
        ++ match Context_.discovery_run c with
           | Some run => if 0 <? DiscoveryRun.failed_targets run then [discovery_advice run] else []
           | None => []
           end in
      map (λ '(k, advice), advice (fresh k)) (placed advices)
  end.

Definition advice_row (a : ReportRecommendation) : mapping := [
  ("recommendation_id", VStr (Advice.recommendation_id a)); ("category", VStr (category_text (Advice.category a)));
  ("action", VStr (action_text (Advice.action a))); ("priority", VStr (Priority.text (Advice.priority a)));
  ("subject_type", VStr (Advice.subject_type a)); ("subject_id", VStr (Advice.subject_id a));
  ("reason_code", VStr (Advice.reason_code a));
  ("related_finding_ids", VList (map (λ u, VStr (uuid_str u)) (Advice.related_finding_ids a)));
  ("related_difference_keys", VList (map VStr (Advice.related_difference_keys a)));
  ("attributes", VDict (Advice.attributes a))].

Definition build_recommendations_section (c : ReportContext) (s : ReportStatistics)
    (advices : list ReportRecommendation) : ReportSection := {|
  section_type := Sections.RECOMMENDATIONS; section_title := "section.recommendations";
  section_data := [("recommendations", rows_of advice_row advices); ("count", VInt (count_items advices));
                   ("critical_findings", VInt (Figures.critical_findings s))] |}.

(** ** Templates ([templates.py]) *)

Definition section_key (t : SectionType) : string := "section." +:+ Sections.text t.

Definition sections_by_report : list (ReportType * list SectionType) := [
  (ReportTypes.EXECUTIVE_SUMMARY, [Sections.EXECUTIVE_SUMMARY; Sections.METRICS; Sections.RECOMMENDATIONS]);
  (ReportTypes.INVENTORY, [Sections.INVENTORY; Sections.METRICS; Sections.APPENDIX]);
  (ReportTypes.DISCOVERY,
    [Sections.EXECUTIVE_SUMMARY; Sections.INVENTORY; Sections.METRICS; Sections.APPENDIX]);
  (ReportTypes.COMPLIANCE,
    [Sections.EXECUTIVE_SUMMARY; Sections.COMPLIANCE; Sections.FINDINGS; Sections.RECOMMENDATIONS;
     Sections.METRICS]);
  (ReportTypes.DIFFERENCE, [Sections.DISCREPANCIES; Sections.METRICS; Sections.APPENDIX]);
  (ReportTypes.FINDING, [Sections.FINDINGS; Sections.RECOMMENDATIONS; Sections.APPENDIX]);
  (ReportTypes.HISTORICAL, [Sections.EXECUTIVE_SUMMARY; Sections.METRICS; Sections.APPENDIX]);
  (ReportTypes.TECHNICAL,
    [Sections.INVENTORY; Sections.COMPLIANCE; Sections.FINDINGS; Sections.DISCREPANCIES; Sections.METRICS;
     Sections.APPENDIX])].

(** Both registries are dictionaries: a key that is there keeps its place. *)
Definition registry (K V : Type) : Type := list (K * V).
Fixpoint put {K V} `{EqDecision K} (k : K) (v : V) (r : registry K V) : registry K V :=
  match r with
  | [] => [(k, v)]
  | (k', v') :: r' => if k' ≟ k then (k', v) :: r' else (k', v') :: put k v r'
  end.
Definition get_or_raise {K V} `{EqDecision K} (message : string) (k : K) (r : registry K V) : outcome V :=
  match List.find (λ e, e.1 ≟ k) r with Some e => Ret e.2 | None => raise_ KeyError message end.

Definition TemplateRegistry : Type := registry ReportType TemplateDefinition.

Definition register_template (t : TemplateDefinition) (r : TemplateRegistry) : TemplateRegistry :=
  put (Template.report_type t) t r.

Definition default_templates : TemplateRegistry :=
  fold_left (λ r '(report_type, sections), register_template {|
    Template.report_type := report_type; Template.title_key := "report." +:+ ReportTypes.text report_type;
    Template.sections := sections; Template.layout := "default" |} r) sections_by_report [].

Definition get_template (t : ReportType) (r : TemplateRegistry) : outcome TemplateDefinition :=
  get_or_raise ("No template registered for report type " +:+ ReportTypes.text t) t r.

(** ** Building ([builder.py]) *)

Definition section_builder (t : SectionType) : option (ReportContext → ReportStatistics → ReportSection) :=
  match t with
  | Sections.EXECUTIVE_SUMMARY => Some build_executive_summary_section
  | Sections.INVENTORY => Some build_inventory_section
  | Sections.COMPLIANCE => Some build_compliance_section
  | Sections.FINDINGS => Some build_findings_section
  | Sections.DISCREPANCIES => Some build_discrepancies_section
  | Sections.METRICS => Some build_metrics_section
  | Sections.APPENDIX => Some build_appendix_section
  | Sections.RECOMMENDATIONS => None
  end.

Definition build (templates : TemplateRegistry) (fresh : nat → UUID) (now : datetime)
    (t : ReportType) (c : ReportContext) : outcome ReportData :=
  let statistics := calculate c in
  let advices := build_recommendations fresh c in
  let! template := get_template t templates in
  let sections := omap (λ section_type,
    if section_type ≟ Sections.RECOMMENDATIONS then Some (build_recommendations_section c statistics advices)
    else (λ builder, builder c statistics) <$> section_builder section_type) (Template.sections template) in
  let metadata := {|
    Metadata.title := Template.title_key template; Metadata.report_type := t;
    Metadata.run_id := Context_.run_id c; Metadata.job_id := Context_.job_id c;
    Metadata.generated_at := Some now; Metadata.site := Context_.site c;
    Metadata.device_role := Context_.device_role c; Metadata.platform := Context_.platform c;
    Metadata.source := Some "cached_history" |} in
  Ret {| Data.report_type := t; Data.metadata := metadata; Data.statistics := statistics;
         Data.sections := sections; Data.recommendations := advices; Data.generated_at := Some now |}.

(** ** Rendering ([renderer.py]) *)

(** [_render_key_values] and [_render_nested]; a nested value is a tuple, list or dictionary. *)
Definition key_value (key : string) (v : pyvalue) : DocumentNode :=
  Node NodeTypes.KEY_VALUE [("key", VStr key); ("value", v)] [].

Fixpoint render_key_value (key : string) (v : pyvalue) : DocumentNode :=
  let nested nodes := Node NodeTypes.KEY_VALUE [("key", VStr key)] nodes in
  match v with
  | VTuple l | VList l => nested [Node NodeTypes.LIST [("items", VTuple l)] []]
  | VDict d => nested (map (λ e, render_key_value e.1 e.2) d)
  | _ => key_value key v
  end.

Definition render_key_values (d : mapping) : list DocumentNode := map (λ e, render_key_value e.1 e.2) d.

(** [_serialize_row]. *)
Definition serialize_row (item : pyvalue) : mapping := match item with VDict d => d | _ => [("value", item)] end.

Fixpoint row_cells (headers : list string) (row : mapping) : outcome (list pyvalue) :=
  match headers with
  | [] => Ret []
  | col :: headers =>
      match lookup_value col row with
      | None => raise_ KeyError col
      | Some cell => let! cells := row_cells headers row in Ret (cell :: cells)
      end
  end.

Fixpoint table_rows (headers : list string) (rows : list mapping) : outcome (list pyvalue) :=
  match rows with
  | [] => Ret []
  | row :: rows =>
      let! cells := row_cells headers row in
      let! rest := table_rows headers rows in
      Ret (VTuple cells :: rest)
  end.

(** One item of [_render_structured_payload]; only a list without items is not a table. *)
Definition render_payload (key : string) (v : pyvalue) : outcome DocumentNode :=
  match v with
  | VTuple l | VList l =>
      match map serialize_row l with
      | [] => Ret (Node NodeTypes.LIST [("key", VStr key); ("items", VTuple l)] [])
      | (first :: _) as rows =>
          let headers := map fst first in
          let! cells := table_rows headers rows in
          Ret (Node NodeTypes.TABLE
            [("key", VStr key); ("headers", VTuple (map VStr headers)); ("rows", VTuple cells)] [])
      end
  | VDict d => Ret (Node NodeTypes.KEY_VALUE [("key", VStr key)] (render_key_values d))
  | _ => Ret (key_value key v)
  end.

Fixpoint render_structured_payload (d : mapping) : outcome (list DocumentNode) :=
  match d with
  | [] => Ret []
  | (key, v) :: d =>
      let! node := render_payload key v in
      let! rest := render_structured_payload d in
      Ret (node :: rest)
  end.

Definition render_section_data (t : SectionType) (d : mapping) : outcome (list DocumentNode) :=
  if t ≟ Sections.EXECUTIVE_SUMMARY then Ret (render_key_values d) else render_structured_payload d.

Definition render_section (s : ReportSection) : outcome DocumentNode :=
  let! nodes := render_section_data (section_type s) (section_data s) in
  Ret (Node NodeTypes.SECTION
    [("title", VStr (section_key (section_type s))); ("section_type", VStr (Sections.text (section_type s)))]
    nodes).

Definition render_statistics (s : ReportStatistics) : list DocumentNode :=
  map (λ e, Node NodeTypes.METRIC [("key", VStr e.1); ("value", e.2)] []) (statistics_figures s).

Fixpoint render_sections (sections : list ReportSection) : outcome (list DocumentNode) :=
  match sections with
  | [] => Ret []
  | s :: sections =>
      let! node := render_section s in
      let! rest := render_sections sections in
      Ret (node :: rest)
  end.

Definition render (templates : TemplateRegistry) (d : ReportData) : outcome RenderedDocument :=
  let! _ := get_template (Data.report_type d) templates in
  let! section_nodes := render_sections (Data.sections d) in
  let statistics := Node NodeTypes.SECTION [("title", VStr "section.statistics")]
    (render_statistics (Data.statistics d)) in
  Ret {| Document.report_type := Data.report_type d; Document.metadata := Data.metadata d;
         Document.root := Node NodeTypes.DOCUMENT
           [("title", VStr (Metadata.title (Data.metadata d)));
            ("report_type", VStr (ReportTypes.text (Data.report_type d)))] (statistics :: section_nodes);
         Document.statistics := Data.statistics d; Document.recommendations := Data.recommendations d |}.
End Building.

(** ** Exporters ([exporters/]) *)

Section Exporters.
Context {HF : FloatRepr}.
Variable isoformat : datetime → string.

(** *** JSON ([_serialization.py], [json.py]) *)

(** [_serialize_attributes] turns tuples into lists, as [json.dumps] does at any depth. *)
Fixpoint node_to_dict (n : DocumentNode) : json :=
  let '(Node t attributes children) := n in
  JDict [("node_type", JStr (NodeTypes.text t)); ("attributes", to_json (VDict attributes));
         ("children", JList (map node_to_dict children))].

Definition metadata_dict (m : ReportMetadata) : json := JDict [
  ("title", JStr (Metadata.title m)); ("run_id", opt_str (uuid_str <$> Metadata.run_id m));
  ("generated_at", opt_str (isoformat <$> Metadata.generated_at m)); ("site", opt_str (Metadata.site m));
  ("device_role", opt_str (Metadata.device_role m)); ("platform", opt_str (Metadata.platform m))].

(** The columns of a recommendation that are exported. *)
Definition advice_columns (a : ReportRecommendation) : list (string * string) := [
  ("recommendation_id", Advice.recommendation_id a); ("category", category_text (Advice.category a));
  ("action", action_text (Advice.action a)); ("priority", Priority.text (Advice.priority a));
  ("subject_type", Advice.subject_type a); ("subject_id", Advice.subject_id a);
  ("reason_code", Advice.reason_code a)].

Definition document_to_dict (d : RenderedDocument) : json := JDict [
  ("report_type", JStr (ReportTypes.text (Document.report_type d)));
  ("metadata", metadata_dict (Document.metadata d));
  ("statistics", to_json (VDict (statistics_figures (Document.statistics d))));
  ("recommendations", JList (map (λ a, JDict (map (λ c, (c.1, JStr c.2)) (advice_columns a)))
                               (Document.recommendations d)));
  ("document", node_to_dict (Document.root d))].

(** [json.dumps(value, indent=2)]. *)
Definition new_line (level : nat) : string := String newline (Nat.iter level (String.append "  ") EmptyString).

Fixpoint dumps_indented (level : nat) (j : json) : string :=
  let block (opening closing : string) (items : list string) :=
    match items with
    | [] => opening +:+ closing
    | _ => opening +:+ new_line (Datatypes.S level)
             +:+ String.concat ("," +:+ new_line (Datatypes.S level)) items +:+ new_line level +:+ closing
    end in
  match j with
  | JNull => "null" | JBool b => if b then "true" else "false" | JInt z => pretty z
  | JFloat q => float_repr q | JStr s => dumps_str s
  | JList l => block "[" "]" (map (dumps_indented (Datatypes.S level)) l)
  | JDict d => block "{" "}" (map (λ e, dumps_str e.1 +:+ ": " +:+ dumps_indented (Datatypes.S level) e.2) d)
  end.

Definition export_json (d : RenderedDocument) : outcome ExportResult :=
  Ret {| format := Formats.JSON; content := dumps_indented 0 (document_to_dict d);
         mime_type := "application/json"; filename := ReportTypes.text (Document.report_type d) +:+ ".json" |}.

(** *** HTML ([html.py]) *)

(** [html.escape]: the five characters that have a meaning. *)
Definition escape_char (c : ascii) : string :=
  if c ≟ "&"%char then "&amp;" else if c ≟ "<"%char then "&lt;" else if c ≟ ">"%char then "&gt;"
  else if c ≟ double_quote then "&quot;" else if c ≟ "'"%char then "&#x27;" else String c EmptyString.

Fixpoint html_escape (s : string) : string :=
  match s with
  | EmptyString => EmptyString
  | String c s => escape_char c +:+ html_escape s
  end.

Definition escaped (key : string) (d : mapping) : string := html_escape (attribute_str key "" d).

Definition str_join (parts : list string) : string := String.concat EmptyString parts.

(** [f"<{tag}>{html.escape(str(item))}</{tag}>"] of every item, when they are a tuple. *)
Definition html_items (tag : string) (v : option pyvalue) : string :=
  match v with
  | Some (VTuple items) =>
      str_join (map (λ i, "<" +:+ tag +:+ ">" +:+ html_escape (value_str i) +:+ "</" +:+ tag +:+ ">") items)
  | _ => ""
  end.

Definition html_row (row : pyvalue) : string :=
  match row with VTuple _ => "<tr>" +:+ html_items "td" (Some row) +:+ "</tr>" | _ => "" end.

(** The level of a heading; [int] raises [ValueError] for a text that is no number. *)
Definition heading_level (d : mapping) : outcome Z :=
  match py_int (attribute_str "level" "3" d) with
  | Some level => Ret level
  | None => raise_ ValueError "invalid literal for int() with base 10"
  end.

Definition html_frame (t : DocumentNodeType) (d : mapping) (inner : string) : outcome string :=
  let group key := Ret ("<div class='kv-group' data-key='" +:+ key +:+ "'>" +:+ inner +:+ "</div>") in
  match t with
  | NodeTypes.DOCUMENT =>
      Ret ("<article data-report-type='" +:+ escaped "report_type" d +:+ "'><h1>" +:+ escaped "title" d
           +:+ "</h1>" +:+ inner +:+ "</article>")
  | NodeTypes.SECTION =>
      Ret ("<section data-title='" +:+ escaped "title" d +:+ "'><h2>" +:+ escaped "title" d +:+ "</h2>"
           +:+ inner +:+ "</section>")
  | NodeTypes.HEADING =>
      let! level := heading_level d in
      Ret ("<h" +:+ pretty level +:+ ">" +:+ escaped "text" d +:+ "</h" +:+ pretty level +:+ ">")
  | NodeTypes.PARAGRAPH => Ret ("<p>" +:+ escaped "text" d +:+ "</p>")
  | NodeTypes.METRIC =>
      Ret ("<div class='metric' data-key='" +:+ escaped "key" d +:+ "'><span>" +:+ escaped "key" d
           +:+ "</span><strong>" +:+ escaped "value" d +:+ "</strong></div>")
  | NodeTypes.KEY_VALUE =>
      match lookup_value "value" d with
      | Some _ =>
          Ret ("<div class='kv'><span>" +:+ escaped "key" d +:+ "</span><span>" +:+ escaped "value" d
               +:+ "</span></div>")
      | None => group (escaped "key" d)
      end
  | NodeTypes.LIST => Ret ("<ul>" +:+ html_items "li" (lookup_value "items" d) +:+ "</ul>")
  | NodeTypes.TABLE =>
      Ret ("<table><thead><tr>" +:+ html_items "th" (lookup_value "headers" d) +:+ "</tr></thead><tbody>"
           +:+ str_join (map html_row (match lookup_value "rows" d with Some (VTuple rows) => rows | _ => [] end))
           +:+ "</tbody></table>")
  | NodeTypes.DIVIDER => Ret "<hr />"
  end.

(** Only documents, sections and groups render what is under them. *)
Definition renders_children (t : DocumentNodeType) (d : mapping) : bool :=
  match t with
  | NodeTypes.DOCUMENT | NodeTypes.SECTION => true
  | NodeTypes.KEY_VALUE => match lookup_value "value" d with Some _ => false | None => true end
  | _ => false
  end.

Fixpoint render_node (n : DocumentNode) : outcome string :=
  let '(Node t d children) := n in
  let! inner :=
    if renders_children t d then
      (fix render_nodes nodes := match nodes with
        | [] => Ret EmptyString
        | n :: nodes => let! html := render_node n in let! rest := render_nodes nodes in Ret (html +:+ rest)
        end) children
    else Ret EmptyString in
  html_frame t d inner.

Fixpoint render_nodes (nodes : list DocumentNode) : outcome string :=
  match nodes with
  | [] => Ret EmptyString
  | n :: nodes => let! html := render_node n in let! rest := render_nodes nodes in Ret (html +:+ rest)
  end.

Definition html_page (d : RenderedDocument) : outcome string :=
  let! body := render_node (Document.root d) in
  Ret ("<!DOCTYPE html><html><head><meta charset='utf-8'><title>"
       +:+ html_escape (Metadata.title (Document.metadata d)) +:+ "</title></head><body>"
       +:+ body +:+ "</body></html>").

Definition export_html (d : RenderedDocument) : outcome ExportResult :=
  let! page := html_page d in
  Ret {| format := Formats.HTML; content := page; mime_type := "text/html";
         filename := ReportTypes.text (Document.report_type d) +:+ ".html" |}.

(** *** PDF ([pdf.py])

    The converter answers [None] when it is not there or fails the ways the code expects. *)
Definition fallback_pdf (html : string) : string :=
  "%PDF-1.4" +:+ String newline ("% Reporting engine fallback export" +:+ String newline html).

Definition export_pdf (weasyprint : string → outcome (option string)) (d : RenderedDocument)
    : outcome ExportResult :=
  let! html := html_page d in
  let! converted := weasyprint html in
  Ret {| format := Formats.PDF; content := from_option id (fallback_pdf html) converted;
         mime_type := "application/pdf";
         filename := ReportTypes.text (Document.report_type d) +:+ ".pdf" |}.

(** *** CSV ([csv.py])

    [csv.writer] with its defaults: a field with a comma, a quote or a line break is put in
    quotes, its own quotes doubled; rows end in a carriage return and a line feed. *)
Definition carriage_return : ascii := Ascii.ascii_of_nat 13.

Definition csv_special (c : ascii) : bool :=
  mem c [","%char; double_quote; carriage_return; newline].

Fixpoint double_quotes (s : string) : string :=
  match s with
  | EmptyString => EmptyString
  | String c s =>
      if c ≟ double_quote then String c (String c (double_quotes s)) else String c (double_quotes s)
  end.

Definition csv_field (s : string) : string :=
  if str_all (λ c, negb (csv_special c)) s then s
  else String double_quote (double_quotes s +:+ String double_quote EmptyString).

Definition csv_row (cells : list string) : string :=
  String.concat "," (map csv_field cells) +:+ String carriage_return (String newline EmptyString).

(** What the writer makes of an object: nothing of [None], [str] of the others. *)
Definition csv_cell (v : option pyvalue) : string :=
  match v with None | Some VNone => EmptyString | Some v => value_str v end.

Definition csv_statistics (s : ReportStatistics) : list (list string) :=
  map (λ e, ["statistics"; e.1; value_str e.2]) (statistics_figures s).

(** The cells of one row of a table, with their headers. *)
Definition csv_table_row (section : string) (headers : list pyvalue) (row : pyvalue) : list (list string) :=
  match row with
  | VTuple cells => zip_with (λ h c, [section; csv_cell (Some h); csv_cell (Some c)]) headers cells
  | _ => []
  end.

Definition csv_node (t : DocumentNodeType) (d : mapping) (section : string) : list (list string) :=
  let pair := [[section; csv_cell (lookup_value "key" d); csv_cell (lookup_value "value" d)]] in
  match t with
  | NodeTypes.METRIC => pair
  | NodeTypes.KEY_VALUE => match lookup_value "value" d with Some _ => pair | None => [] end
  | NodeTypes.TABLE =>
      match lookup_value "headers" d, lookup_value "rows" d with
      | Some (VTuple headers), Some (VTuple rows) => flat_map (csv_table_row section headers) rows
      | _, _ => []
      end
  | _ => []
  end.

Definition section_of (t : DocumentNodeType) (d : mapping) (section : string) : string :=
  match t with NodeTypes.SECTION => attribute_str "title" section d | _ => section end.

(** [_write_nodes]: the rows in the order they are written. *)
Fixpoint csv_nodes (section : string) (n : DocumentNode) : list (list string) :=
  let '(Node t d children) := n in
  let section := section_of t d section in
  csv_node t d section ++ flat_map (csv_nodes section) children.

Definition csv_rows (d : RenderedDocument) : list (list string) :=
  [["section"; "key"; "value"]] ++ csv_statistics (Document.statistics d)
  ++ csv_nodes "document" (Document.root d).

Definition export_csv (d : RenderedDocument) : outcome ExportResult :=
  Ret {| format := Formats.CSV; content := str_join (map csv_row (csv_rows d)); mime_type := "text/csv";
         filename := ReportTypes.text (Document.report_type d) +:+ ".csv" |}.

(** *** Excel ([excel.py])

    The sheets are handed to openpyxl, which may be missing. *)
Definition Sheet : Type := string * list (list pyvalue).

(** [_serialize_value]. *)
Definition serialize_value (v : pyvalue) : pyvalue :=
  match v with
  | VTuple l | VList l => VStr (String.concat ", " (map value_str l))
  | VDict d => VStr (String.concat ", " (map (λ e, e.1 +:+ "=" +:+ value_str e.2) d))
  | _ => v
  end.

(** [char.isalnum()] and [_sheet_name]. *)
Definition is_alnum (c : ascii) : bool :=
  let n := Ascii.N_of_ascii c in
  is_digit c || ((65 <=? n) && (n <=? 90))%N || ((97 <=? n) && (n <=? 122))%N.

Fixpoint cleaned (s : string) : string :=
  match s with
  | EmptyString => EmptyString
  | String c s => String (if is_alnum c then c else "_"%char) (cleaned s)
  end.

Definition sheet_name (title : string) (index : nat) : string :=
  let name := String.substring 0 25 (strip_char "_" (cleaned title)) in
  if str_truthy name then name else "Sheet" +:+ pretty (Z.of_nat index).

(** [tuple(row)] of a row: a text gives its characters and a dictionary its keys. *)
Definition as_tuple (v : pyvalue) : outcome (list pyvalue) :=
  match v with
  | VTuple l | VList l => Ret l
  | VStr s => Ret (map (λ c, VStr (String c EmptyString)) (String.list_ascii_of_string s))
  | VDict d => Ret (map (λ e, VStr e.1) d)
  | _ => raise_ TypeError "object is not iterable"
  end.

Fixpoint all_tuples (rows : list pyvalue) : outcome (list (list pyvalue)) :=
  match rows with
  | [] => Ret []
  | row :: rows => let! t := as_tuple row in let! rest := all_tuples rows in Ret (t :: rest)
  end.

Definition Table : Type := string * list pyvalue * list (list pyvalue).

Fixpoint collect_tables (section : string) (n : DocumentNode) : outcome (list Table) :=
  let '(Node t d children) := n in
  let current_section := section_of t d section in
  let! own := match t with
    | NodeTypes.TABLE =>
        let headers := match lookup_value "headers" d with Some (VTuple h) => h | _ => [] end in
        let! rows := all_tuples (match lookup_value "rows" d with Some (VTuple rows) => rows | _ => [] end) in
        Ret [(current_section, headers, rows)]
    | _ => Ret []
    end in
  let! below := (fix go nodes := match nodes with
    | [] => Ret []
    | n :: nodes =>
        let! tables := collect_tables current_section n in let! rest := go nodes in Ret (tables ++ rest)
    end) children in
  Ret (own ++ below).

Definition table_sheet (p : nat * Table) : Sheet :=
  let '(k, (title, headers, rows)) := p in
  (sheet_name title (k + 1), (if is_nil headers then [] else [map serialize_value headers])
                             ++ map (map serialize_value) rows).

Definition workbook (d : RenderedDocument) : outcome (list Sheet) :=
  let! tables := collect_tables "document" (Document.root d) in
  let columns := ["recommendation_id"; "category"; "action"; "priority"; "subject_type"; "subject_id";
                  "reason_code"] in
  Ret ([("Summary", [VStr "metric"; VStr "value"]
                    :: map (λ e, [VStr e.1; e.2]) (statistics_figures (Document.statistics d)))]
       ++ map table_sheet (placed tables)
       ++ [("Recommendations", map VStr columns
             :: map (λ a, map (λ c, VStr c.2) (advice_columns a)) (Document.recommendations d))]).

Definition export_excel (openpyxl : option (list Sheet → outcome string)) (d : RenderedDocument)
    : outcome ExportResult :=
  match openpyxl with
  | None => raise_ RuntimeError "openpyxl is required for Excel export"
  | Some save =>
      let! sheets := workbook d in
      let! bytes := save sheets in
      Ret {| format := Formats.EXCEL; content := bytes;
             mime_type := "application/vnd.openxmlformats-officedocument.spreadsheetml.sheet";
             filename := ReportTypes.text (Document.report_type d) +:+ ".xlsx" |}
  end.

(** *** The registry and the engine ([exporters/__init__.py], [engine.py]) *)

Definition ReportExporter : Type := ExportFormat * (RenderedDocument → outcome ExportResult).
Definition ExporterRegistry : Type := registry ExportFormat (RenderedDocument → outcome ExportResult).

Definition register_exporter (e : ReportExporter) (r : ExporterRegistry) : ExporterRegistry := put e.1 e.2 r.
Definition formats (r : ExporterRegistry) : list ExportFormat := map fst r.

Definition get_exporter (f : ExportFormat) (r : ExporterRegistry) : outcome (RenderedDocument → outcome ExportResult) :=
  get_or_raise ("No exporter registered for format " +:+ Formats.text f) f r.

Definition default_exporters (weasyprint : string → outcome (option string))
    (openpyxl : option (list Sheet → outcome string)) : ExporterRegistry :=
  [] |> register_exporter (Formats.HTML, export_html)
     |> register_exporter (Formats.PDF, export_pdf weasyprint)
     |> register_exporter (Formats.EXCEL, export_excel openpyxl)
     |> register_exporter (Formats.CSV, export_csv)
     |> register_exporter (Formats.JSON, export_json).

Definition export (exporters : ExporterRegistry) (d : RenderedDocument) (f : ExportFormat) : outcome ExportResult :=
  let! exporter := get_exporter f exporters in exporter d.

(** [ReportEngine.generate]. *)
Definition generate (templates : TemplateRegistry) (exporters : ExporterRegistry) (fresh : nat → UUID)
    (now : datetime) (t : ReportType) (c : ReportContext) (f : ExportFormat) : outcome ExportResult :=
  let! report_data := build isoformat templates fresh now t c in
  let! document := render templates report_data in
  export exporters document f.
End Exporters.

(** [ReportService.context_from_orchestration] ([service.py]); the identities are those the
    parts of the result drew. *)
Definition context_from_orchestration (netbox : option NetBox.NetBoxInventorySnapshot)
    (live : option Live.LiveInventorySnapshot) (comparison : option CachedComparison)
    (decision : option CachedDecision) (run : option DiscoveryRun.DiscoveryRunSnapshot)
    (run_id job_id : UUID) : ReportContext := {|
  Context_.netbox_inventory := netbox; Context_.live_snapshot := live;
  Context_.comparison_result := comparison; Context_.evaluation_decision := decision;
  Context_.discovery_run := run; Context_.historical_runs := []; Context_.run_id := Some run_id;
  Context_.job_id := Some job_id; Context_.site := None; Context_.device_role := None;
  Context_.platform := None |}.

(** ** Reading texts character by character *)

Section Reader.
Context {St Tok : Type} (step : St → ascii → list Tok * St).

Fixpoint run (st : St) (s : string) : list Tok * St :=
  match s with
  | EmptyString => ([], st)
  | String c s =>
      let '(tokens, st) := step st c in
      let '(rest, st) := run st s in (tokens ++ rest, st)
  end.

Lemma run_app st a b tokens st' : run st a = (tokens, st') →
  run st (a +:+ b) = let '(rest, st) := run st' b in (tokens ++ rest, st).
Proof.
  revert st tokens. induction a as [|c a IH]; intros st tokens; rewrite ?str_app_cons; cbn.
  - intros [= <- <-]. cbn. change (EmptyString +:+ b) with b. by destruct (run st b).
  - destruct (step st c) as [t1 st1]. destruct (run st1 a) as [t2 st2] eqn:E. intros [= <- <-].
    rewrite (IH _ _ E). destruct (run _ b). by rewrite app_assoc.
Qed.

(** A state that collects the characters for which [plain] holds. *)
Lemma run_plain (collect : string → St) (plain : ascii → bool) acc s :
  (∀ acc c, plain c = true → step (collect acc) c = ([], collect (acc +:+ String c EmptyString))) →
  str_all plain s = true → run (collect acc) s = ([], collect (acc +:+ s)).
Proof.
  intros Hstep. revert acc. induction s as [|c s IH]; intros acc; cbn.
  - intros _. by rewrite str_app_nil_r.
  - intros [Hc Hs]%andb_true_iff. rewrite Hstep by done. rewrite IH by done.
    by rewrite str_app_assoc.
Qed.
End Reader.

(** ** The CSV file reads back

    A reader of the format: fields in quotes or not, doubled quotes, rows that end in a
    carriage return and a line feed. *)

Inductive csv_state := FieldStart | Unquoted (acc : string) | Quoted (acc : string)
  | QuoteSeen (acc : string) | AfterReturn.
Inductive csv_event := Cell (s : string) | RowEnd | Malformed.

Definition plain_step (acc : string) (c : ascii) : list csv_event * csv_state :=
  if c ≟ ","%char then ([Cell acc], FieldStart)
  else if c ≟ carriage_return then ([Cell acc], AfterReturn)
  else ([], Unquoted (acc +:+ String c EmptyString)).

Definition csv_step (st : csv_state) (c : ascii) : list csv_event * csv_state :=
  match st with
  | FieldStart => if c ≟ double_quote then ([], Quoted EmptyString) else plain_step EmptyString c
  | Unquoted acc => plain_step acc c
  | Quoted acc => if c ≟ double_quote then ([], QuoteSeen acc) else ([], Quoted (acc +:+ String c EmptyString))
  | QuoteSeen acc =>
      if c ≟ double_quote then ([], Quoted (acc +:+ String c EmptyString))
      else if c ≟ ","%char then ([Cell acc], FieldStart)
      else if c ≟ carriage_return then ([Cell acc], AfterReturn)
      else ([Malformed], FieldStart)
  | AfterReturn => if c ≟ newline then ([RowEnd], FieldStart) else ([Malformed], FieldStart)
  end.

Fixpoint rows_of_events (cells : list string) (events : list csv_event) : option (list (list string)) :=
  match events with
  | [] => match cells with [] => Some [] | _ => None end
  | Cell s :: events => rows_of_events (cells ++ [s]) events
  | RowEnd :: events => rows ← rows_of_events [] events; Some (cells :: rows)
  | Malformed :: _ => None
  end.

Definition read_csv (text : string) : option (list (list string)) :=
  match run csv_step FieldStart text with
  | (events, FieldStart) => rows_of_events [] events
  | _ => None
  end.

(** A field is read whole, whatever separator ends it. *)
Lemma run_double_quotes acc s :
  run csv_step (Quoted acc) (double_quotes s) = ([], Quoted (acc +:+ s)).
Proof.
  revert acc. induction s as [|c s IH]; intros acc; cbn [double_quotes].
  - by rewrite str_app_nil_r.
  - destruct (c ≟ double_quote) eqn:Ec; cbn [run csv_step]; rewrite Ec; cbn [run csv_step]; rewrite ?Ec, IH.
    all: cbn [app]; by rewrite str_app_assoc.
Qed.

Definition separates (sep : ascii) : Prop := sep = ","%char ∨ sep = carriage_return.
Definition after (sep : ascii) : csv_state := if sep ≟ ","%char then FieldStart else AfterReturn.

Lemma run_separator st acc sep rest : separates sep →
  (st = FieldStart ∧ acc = EmptyString) ∨ st = Unquoted acc ∨ st = QuoteSeen acc →
  run csv_step st (String sep rest)
  = let '(events, st) := run csv_step (after sep) rest in (Cell acc :: events, st).
Proof.
  intros Hsep Hst. cbn [run].
  assert (csv_step st sep = ([Cell acc], after sep)) as ->; [|done].
  destruct Hst as [[-> ->]|[-> | ->]], Hsep as [-> | ->]; reflexivity.
Qed.

Lemma not_special c : negb (csv_special c) = true →
  c ≟ double_quote = false ∧ plain_step EmptyString c = ([], Unquoted (String c EmptyString)) ∧
  ∀ acc, plain_step acc c = ([], Unquoted (acc +:+ String c EmptyString)).
Proof.
  intros H%negb_true_iff.
  assert (∀ x, x ∈ [","%char; double_quote; carriage_return; newline] → c ≟ x = false) as Hx.
  { intros x Hx. destruct (c ≟ x) eqn:E; [|done]. exfalso. apply eqb_true in E as ->.
    apply not_true_iff_false in H. apply H. by apply mem_true. }
  assert (∀ acc, plain_step acc c = ([], Unquoted (acc +:+ String c EmptyString))) as Hp.
  { intros acc. unfold plain_step. rewrite !Hx by set_solver. done. }
  split; [apply Hx; set_solver|]. split; [apply Hp|done].
Qed.

Lemma run_field s sep rest : separates sep →
  run csv_step FieldStart (csv_field s +:+ String sep rest)
  = let '(events, st) := run csv_step (after sep) rest in (Cell s :: events, st).
Proof.
  intros Hsep. unfold csv_field. destruct (str_all _ s) eqn:Hs.
  - destruct s as [|c s].
    + change (EmptyString +:+ String sep rest) with (String sep rest).
      apply run_separator; [done|by left].
    + cbn [str_all] in Hs. apply andb_true_iff in Hs as [Hc Hs].
      apply not_special in Hc as (Hq & Hp & _). rewrite str_app_cons. cbn [run csv_step]. rewrite Hq, Hp.
      rewrite (run_app csv_step _ s _ [] (Unquoted (String c s))).
      2: { change (String c s) with (String c EmptyString +:+ s).
           apply (run_plain csv_step Unquoted (λ c, negb (csv_special c))); [|done].
           intros acc x Hx. apply not_special in Hx as (_ & _ & Hx). exact (Hx acc). }
      rewrite (run_separator _ (String c s)); [by destruct (run _ _ rest)|done|by right; left].
  - rewrite str_app_cons, str_app_assoc. cbn [run csv_step].
    change (double_quote ≟ double_quote) with true. cbv beta iota zeta.
    rewrite (run_app csv_step _ _ _ _ _ (run_double_quotes EmptyString s)).
    change (EmptyString +:+ s) with s. rewrite str_app_cons. cbn [run csv_step].
    change (double_quote ≟ double_quote) with true. cbv beta iota zeta.
    change (EmptyString +:+ ?x) with x.
    rewrite (run_separator _ s); [by destruct (run _ _ rest)|done|by right; right].
Qed.

Lemma run_row cells rest : cells ≠ [] →
  run csv_step FieldStart (csv_row cells +:+ rest)
  = let '(events, st) := run csv_step FieldStart rest in (map Cell cells ++ RowEnd :: events, st).
Proof.
  intros Hne. unfold csv_row. rewrite str_app_assoc, !str_app_cons.
  change (EmptyString +:+ rest) with rest.
  induction cells as [|s [|s' cells] IH]; [done|..].
  - cbn [map String.concat]. rewrite run_field by (by right).
    change (after carriage_return) with AfterReturn. cbn [run].
    change (csv_step AfterReturn newline) with ([RowEnd], FieldStart). cbv beta iota zeta. by destruct (run csv_step FieldStart rest).
  - cbn [map String.concat] in *. rewrite !str_app_assoc, str_app_cons.
    change (EmptyString +:+ ?x) with x.
    rewrite run_field by (by left). change (after ",") with FieldStart.
    rewrite IH by done. by destruct (run csv_step FieldStart rest).
Qed.

Lemma events_of_row acc cells events :
  rows_of_events acc (map Cell cells ++ RowEnd :: events)
  = rows ← rows_of_events [] events; Some ((acc ++ cells) :: rows).
Proof.
  revert acc. induction cells as [|s cells IH]; intros acc; cbn.
  - by rewrite app_nil_r.
  - rewrite IH. by rewrite <-app_assoc.
Qed.

(** Rows that have cells are read back, whatever the cells hold. *)
Lemma csv_rows_read rows : Forall (λ r, r ≠ []) rows →
  read_csv (str_join (map csv_row rows)) = Some rows.
Proof.
  unfold read_csv, str_join. induction 1 as [|r rows Hr _ IH]; [done|].
  assert (String.concat EmptyString (map csv_row (r :: rows))
          = csv_row r +:+ String.concat EmptyString (map csv_row rows)) as ->.
  { cbn. destruct (map csv_row rows); cbn; by rewrite ?str_app_nil_r. }
  rewrite run_row by done. destruct (run csv_step FieldStart _) as [events st].
  destruct st; try done. rewrite events_of_row, IH. done.
Qed.

(** ** The HTML page reads back

    A reader of tags and texts: the value of an attribute stands between single quotes,
    entities in texts and values are resolved, and whatever else a tag holds is its name. *)

Inductive piece := Name (s : string) | Value (s : string).
Inductive token := Tag (pieces : list piece) | Text (s : string).

(** Resolves the entities that [html.escape] writes. *)
Fixpoint html_unescape (s : string) : string :=
  match s with
  | EmptyString => EmptyString
  | String c s' =>
      if Ascii.eqb c "&"%char then
        match s' with
        | String "a" (String "m" (String "p" (String ";" r))) => String "&" (html_unescape r)
        | String "l" (String "t" (String ";" r)) => String "<" (html_unescape r)
        | String "g" (String "t" (String ";" r)) => String ">" (html_unescape r)
        | String "q" (String "u" (String "o" (String "t" (String ";" r)))) => String double_quote (html_unescape r)
        | String "#" (String "x" (String "2" (String "7" (String ";" r)))) => String "'" (html_unescape r)
        | _ => String c (html_unescape s')
        end
      else String c (html_unescape s')
  end.

Inductive html_state :=
  | InText (acc : string) | InTag (pieces : list piece) (acc : string) | InValue (pieces : list piece) (acc : string).

Definition text_token (t : string) : list token := match t with EmptyString => [] | _ => [Text t] end.
Definition name_piece (acc : string) : list piece := match acc with EmptyString => [] | _ => [Name acc] end.
Definition snoc (acc : string) (c : ascii) : string := acc +:+ String c EmptyString.

Definition html_step (st : html_state) (c : ascii) : list token * html_state :=
  match st with
  | InText acc =>
      if Ascii.eqb c "<"%char then (text_token (html_unescape acc), InTag [] EmptyString)
      else ([], InText (snoc acc c))
  | InTag pieces acc =>
      if Ascii.eqb c ">"%char then ([Tag (pieces ++ name_piece acc)], InText EmptyString)
      else if Ascii.eqb c "'"%char then ([], InValue (pieces ++ name_piece acc) EmptyString)
      else ([], InTag pieces (snoc acc c))
  | InValue pieces acc =>
      if Ascii.eqb c "'"%char then ([], InTag (pieces ++ [Value (html_unescape acc)]) EmptyString)
      else ([], InValue pieces (snoc acc c))
  end.

(** A page that ends between tags. *)
Definition read_html (page : string) : option (list token) :=
  match run html_step (InText EmptyString) page with
  | (tokens, InText EmptyString) => Some tokens
  | _ => None
  end.

Lemma unescape_escape s : html_unescape (html_escape s) = s.
Proof.
  induction s as [|c s IH]; [done|]. cbn [html_escape]. unfold escape_char.
  repeat match goal with
  | |- context [c ≟ ?x] =>
      let E := fresh in destruct (c ≟ x) eqn:E;
      [apply eqb_true in E as ->; rewrite !str_app_cons; change (EmptyString +:+ ?x) with x; cbn; by rewrite IH|]
  end.
  rewrite str_app_cons. change (EmptyString +:+ ?x) with x. cbn [html_unescape].
  assert (Ascii.eqb c "&" = false) as ->.
  { apply Ascii.eqb_neq. intros ->. done. }
  by rewrite IH.
Qed.

(** What is escaped holds none of the characters that end a text or a value. *)
Definition harmless (c : ascii) : bool := negb (Ascii.eqb c "<") && negb (Ascii.eqb c "'").

Lemma escape_harmless s : str_all harmless (html_escape s) = true.
Proof.
  induction s as [|c s IH]; [done|]. cbn [html_escape]. rewrite str_all_app, IH, andb_true_r.
  unfold escape_char.
  repeat match goal with |- context [c ≟ ?x] => let E := fresh in destruct (c ≟ x) eqn:E; [reflexivity|] end.
  cbn. rewrite andb_true_r. unfold harmless.
  destruct (Ascii.eqb_spec c "<"); [by subst|]. destruct (Ascii.eqb_spec c "'"); [by subst|]. done.
Qed.

Abbreviation reads := (run html_step (InText EmptyString)).

Lemma escape_empty s : html_escape s = EmptyString → s = EmptyString.
Proof. intros H. by rewrite <-(unescape_escape s), H. Qed.

(** A text is read when the tag after it opens, a value when its quote closes. *)
Lemma run_text t s :
  reads (html_escape t +:+ String "<" s)
  = let '(tokens, st) := run html_step (InTag [] EmptyString) s in (text_token t ++ tokens, st).
Proof.
  rewrite (run_app html_step _ (html_escape t) _ [] (InText (html_escape t))).
  - cbn [run html_step]. change (Ascii.eqb "<" "<") with true. cbv beta iota zeta. rewrite unescape_escape.
    by destruct (run _ _ s).
  - change (html_escape t) with (EmptyString +:+ html_escape t) at 2.
    apply (run_plain html_step InText harmless); [|apply escape_harmless].
    intros acc c [Hc _]%andb_true_iff. cbn. apply negb_true_iff in Hc. by rewrite Hc.
Qed.

Lemma run_value pieces v s :
  run html_step (InValue pieces EmptyString) (html_escape v +:+ String "'" s)
  = run html_step (InTag (pieces ++ [Value v]) EmptyString) s.
Proof.
  rewrite (run_app html_step _ (html_escape v) _ [] (InValue pieces (html_escape v))).
  - cbn [run html_step]. change (Ascii.eqb "'" "'") with true. cbv beta iota zeta. rewrite unescape_escape.
    by destruct (run _ _ s).
  - change (html_escape v) with (EmptyString +:+ html_escape v) at 2.
    apply (run_plain html_step (InValue pieces) harmless); [|apply escape_harmless].
    intros acc c [_ Hc]%andb_true_iff. cbn. apply negb_true_iff in Hc. by rewrite Hc.
Qed.

(** A fragment that is read to its end. *)
Definition fragment (html : string) (tokens : list token) : Prop := reads html = (tokens, InText EmptyString).

Lemma fragment_then html tokens s : fragment html tokens →
  reads (html +:+ s) = let '(rest, st) := reads s in (tokens ++ rest, st).
Proof. apply run_app. Qed.

(** What a page holds: the tags its tree calls for and the texts and values as they are. *)
Section Page.
Context {HF : FloatRepr}.

Definition tag (name : string) : token := Tag [Name name].
Definition element (name t : string) : list token := [tag name] ++ text_token t ++ [tag ("/" +:+ name)].
Definition attribute (key : string) (d : mapping) : string := attribute_str key "" d.

Definition item_tokens (name : string) (v : option pyvalue) : list token :=
  match v with
  | Some (VTuple items) => flat_map (λ i, element name (value_str i)) items
  | _ => []
  end.
Definition row_tokens (row : pyvalue) : list token :=
  match row with VTuple _ => [tag "tr"] ++ item_tokens "td" (Some row) ++ [tag "/tr"] | _ => [] end.
Definition heading_name (level : Z) : string := "h" +:+ pretty level.

Definition frame_tokens (t : DocumentNodeType) (d : mapping) (inner : list token) : list token :=
  match t with
  | NodeTypes.DOCUMENT =>
      [Tag [Name "article data-report-type="; Value (attribute "report_type" d)]]
      ++ element "h1" (attribute "title" d) ++ inner ++ [tag "/article"]
  | NodeTypes.SECTION =>
      [Tag [Name "section data-title="; Value (attribute "title" d)]] ++ element "h2" (attribute "title" d)
      ++ inner ++ [tag "/section"]
  | NodeTypes.HEADING =>
      from_option (λ level, element (heading_name level) (attribute "text" d)) [] (py_int (attribute_str "level" "3" d))
  | NodeTypes.PARAGRAPH => element "p" (attribute "text" d)
  | NodeTypes.METRIC =>
      [Tag [Name "div class="; Value "metric"; Name " data-key="; Value (attribute "key" d)]]
      ++ element "span" (attribute "key" d) ++ element "strong" (attribute "value" d) ++ [tag "/div"]
  | NodeTypes.KEY_VALUE =>
      match lookup_value "value" d with
      | Some _ =>
          [Tag [Name "div class="; Value "kv"]] ++ element "span" (attribute "key" d)
          ++ element "span" (attribute "value" d) ++ [tag "/div"]
      | None =>
          [Tag [Name "div class="; Value "kv-group"; Name " data-key="; Value (attribute "key" d)]]
          ++ inner ++ [tag "/div"]
      end
  | NodeTypes.LIST => [tag "ul"] ++ item_tokens "li" (lookup_value "items" d) ++ [tag "/ul"]
  | NodeTypes.TABLE =>
      [tag "table"; tag "thead"; tag "tr"] ++ item_tokens "th" (lookup_value "headers" d)
      ++ [tag "/tr"; tag "/thead"; tag "tbody"]
      ++ flat_map row_tokens (match lookup_value "rows" d with Some (VTuple rows) => rows | _ => [] end)
      ++ [tag "/tbody"; tag "/table"]
  | NodeTypes.DIVIDER => [tag "hr /"]
  end.

Fixpoint node_tokens (n : DocumentNode) : list token :=
  let '(Node t d children) := n in
  frame_tokens t d (if renders_children t d then flat_map node_tokens children else []).

Definition page_tokens (d : RenderedDocument) : list token :=
  [tag "!DOCTYPE html"; tag "html"; tag "head"; Tag [Name "meta charset="; Value "utf-8"]]
  ++ element "title" (Metadata.title (Document.metadata d)) ++ [tag "/head"; tag "body"]
  ++ node_tokens (Document.root d) ++ [tag "/body"; tag "/html"].

(** Reading on, one literal, text, value or part after the other. *)
Lemma reads_app a b ta st tb st' : reads a = (ta, st) → run html_step st b = (tb, st') →
  reads (a +:+ b) = (ta ++ tb, st').
Proof. intros Ha Hb. rewrite (run_app _ _ _ _ _ _ Ha). by rewrite Hb. Qed.

Lemma fragment_app a b ta tb : fragment a ta → fragment b tb → fragment (a +:+ b) (ta ++ tb).
Proof. apply reads_app. Qed.

Lemma fragment_concat {A} (f : A → string) (g : A → list token) l :
  Forall (λ a, fragment (f a) (g a)) l → fragment (str_join (map f l)) (flat_map g l).
Proof.
  unfold str_join. induction 1 as [|a l Ha _ IH]; [done|].
  assert (String.concat EmptyString (map f (a :: l)) = f a +:+ String.concat EmptyString (map f l)) as ->.
  { cbn. destruct (map f l); [by rewrite str_app_nil_r|done]. }
  by apply fragment_app.
Qed.

(** A tag without values, whose name holds none of the characters that end it. *)
Definition plain_name (name : string) : bool :=
  str_truthy name && str_all (λ c, negb (Ascii.eqb c ">") && negb (Ascii.eqb c "'")) name.

Lemma run_name pieces name s : plain_name name = true →
  run html_step (InTag pieces EmptyString) (name +:+ String ">" s)
  = let '(tokens, st) := reads s in (Tag (pieces ++ [Name name]) :: tokens, st).
Proof.
  intros [Ht Hn]%andb_true_iff.
  rewrite (run_app html_step _ name _ [] (InTag pieces name)).
  - cbn [run html_step]. change (Ascii.eqb ">" ">") with true. cbv beta iota zeta.
    destruct name; [done|]. by destruct (reads s).
  - change name with (EmptyString +:+ name) at 2.
    apply (run_plain html_step (InTag pieces) (λ c, negb (Ascii.eqb c ">") && negb (Ascii.eqb c "'"))); [|done].
    intros acc c [H1 H2]%andb_true_iff. cbn. apply negb_true_iff in H1, H2. by rewrite H1, H2.
Qed.

Lemma fragment_tag name s tokens : plain_name name = true → fragment s tokens →
  fragment (String "<" (name +:+ String ">" s)) (tag name :: tokens).
Proof.
  intros Hn Hs. unfold fragment. cbn [run html_step]. change (Ascii.eqb "<" "<") with true. cbv beta iota zeta.
  rewrite run_name by done. by rewrite Hs.
Qed.

Lemma fragment_text t name s tokens : plain_name name = true → fragment s tokens →
  fragment (html_escape t +:+ String "<" (name +:+ String ">" s)) (text_token t ++ tag name :: tokens).
Proof. intros Hn Hs. unfold fragment. rewrite run_text, run_name by done. by rewrite Hs. Qed.

Lemma fragment_element name t s tokens : plain_name name = true → plain_name ("/" +:+ name) = true →
  fragment s tokens →
  fragment (String "<" (name +:+ String ">" (html_escape t +:+ String "<" (("/" +:+ name) +:+ String ">" s))))
    (element name t ++ tokens).
Proof.
  intros Hn Hc Hs. unfold element. rewrite <-!app_assoc. by apply fragment_tag, fragment_text.
Qed.

(** A tag whose last piece is a value. *)
Lemma fragment_value opening pieces v s tokens :
  reads opening = ([], InValue pieces EmptyString) → fragment s tokens →
  fragment (opening +:+ html_escape v +:+ String "'" (String ">" s)) (Tag (pieces ++ [Value v]) :: tokens).
Proof.
  intros Ho Hs. unfold fragment. rewrite (run_app _ _ _ _ _ _ Ho), run_value.
  cbn [run html_step]. change (Ascii.eqb ">" ">") with true. cbv beta iota zeta. rewrite Hs.
  by rewrite app_nil_r.
Qed.

Lemma plain_pretty (z : Z) : str_all (λ c, negb (Ascii.eqb c ">") && negb (Ascii.eqb c "'")) (pretty z) = true.
Proof.
  assert (∀ n : N, str_all (λ c, negb (Ascii.eqb c ">") && negb (Ascii.eqb c "'")) (pretty n) = true) as Hn.
  { intros n. eapply str_all_impl; [|exact (proj2 (proj1 (andb_true_iff _ _) (isdigit_pretty n)))].
    intros c Hc. destruct (Ascii.eqb_spec c ">"); [by subst|]. by destruct (Ascii.eqb_spec c "'"); [subst|]. }
  destruct z as [|p|p]; [done|apply (Hn (N.pos p))|apply (Hn (N.pos p))].
Qed.

Lemma fragment_items name v : plain_name name = true → plain_name ("/" +:+ name) = true →
  fragment (html_items name v) (item_tokens name v).
Proof.
  intros Hn Hc. destruct v as [[| | | | |items| |]|]; try done. apply fragment_concat.
  apply Forall_true. intros i.
  rewrite <-(app_nil_r (element name (value_str i))).
  refine (fragment_element name _ EmptyString [] Hn Hc eq_refl).
Qed.

Lemma fragment_row row : fragment (html_row row) (row_tokens row).
Proof.
  destruct row; try done. refine (fragment_tag "tr" _ _ eq_refl _).
  by refine (fragment_app _ _ _ _ (fragment_items "td" _ eq_refl eq_refl) _).
Qed.

(** One node, when what is under it is read. *)
Lemma fragment_frame t d inner tokens html : fragment inner tokens →
  html_frame t d inner = Ret html → fragment html (frame_tokens t d tokens).
Proof.
  intros Hinner. destruct t; cbn [html_frame frame_tokens]; cbv beta zeta.
  - intros [= <-].
    refine (fragment_value "<article data-report-type='" _ _ _ _ eq_refl _).
    refine (fragment_element "h1" _ _ _ eq_refl eq_refl _). by refine (fragment_app _ _ _ _ Hinner _).
  - intros [= <-].
    refine (fragment_value "<section data-title='" _ _ _ _ eq_refl _).
    refine (fragment_element "h2" _ _ _ eq_refl eq_refl _). by refine (fragment_app _ _ _ _ Hinner _).
  - unfold heading_level. destruct (py_int _) as [level|]; [|done].
    cbn [let_ok from_option]. intros [= <-].
    rewrite <-(app_nil_r (element _ _)).
    refine (fragment_element (heading_name level) _ EmptyString [] _ _ eq_refl); apply plain_pretty.
  - intros [= <-]. rewrite <-(app_nil_r (element _ _)).
    by refine (fragment_element "p" _ EmptyString [] eq_refl eq_refl _).
  - intros [= <-]. refine (fragment_tag "table" _ _ eq_refl _). refine (fragment_tag "thead" _ _ eq_refl _).
    refine (fragment_tag "tr" _ _ eq_refl _).
    refine (fragment_app _ _ _ _ (fragment_items "th" _ eq_refl eq_refl) _).
    refine (fragment_tag "/tr" _ _ eq_refl _). refine (fragment_tag "/thead" _ _ eq_refl _).
    refine (fragment_tag "tbody" _ _ eq_refl _).
    refine (fragment_app _ "</tbody></table>" _ [tag "/tbody"; tag "/table"] _ eq_refl). apply fragment_concat, Forall_true, fragment_row.
  - intros [= <-]. refine (fragment_tag "ul" _ _ eq_refl _).
    by refine (fragment_app _ _ _ _ (fragment_items "li" _ eq_refl eq_refl) _).
  - destruct (lookup_value "value" d); intros [= <-].
    + refine (fragment_app "<div class='kv'>" _ [Tag [Name "div class="; Value "kv"]] _ eq_refl _).
      refine (fragment_element "span" _ _ _ eq_refl eq_refl _).
      by refine (fragment_element "span" _ _ _ eq_refl eq_refl _).
    + refine (fragment_value "<div class='kv-group' data-key='" _ _ _ _ eq_refl _).
      by refine (fragment_app _ _ _ _ Hinner _).
  - intros [= <-]. refine (fragment_value "<div class='metric' data-key='" _ _ _ _ eq_refl _).
    refine (fragment_element "span" _ _ _ eq_refl eq_refl _).
    by refine (fragment_element "strong" _ _ _ eq_refl eq_refl _).
  - by intros [= <-].
Qed.

(** Induction over a tree of nodes. *)
Lemma node_deep_ind (P : DocumentNode → Prop) :
  (∀ t d nodes, Forall P nodes → P (Node t d nodes)) → ∀ n, P n.
Proof.
  intros H. fix IH 1. intros [t d nodes]. apply H.
  induction nodes as [|n nodes IHn]; constructor; [apply IH|apply IHn].
Qed.

Lemma render_node_eq t d nodes :
  render_node (Node t d nodes)
  = let! inner := if renders_children t d then render_nodes nodes else Ret EmptyString in html_frame t d inner.
Proof. reflexivity. Qed.

Lemma fragment_nodes nodes html :
  Forall (λ n, ∀ html, render_node n = Ret html → fragment html (node_tokens n)) nodes →
  render_nodes nodes = Ret html → fragment html (flat_map node_tokens nodes).
Proof.
  intros Hall. revert html. induction Hall as [|n nodes Hn _ IH]; intros html; cbn [render_nodes flat_map].
  - by intros [= <-].
  - destruct (render_node n) as [h|]; [|done]. cbn [let_ok].
    destruct (render_nodes nodes) as [rest|]; [|done]. cbn [let_ok]. intros [= <-].
    apply fragment_app; [by apply Hn|by apply IH].
Qed.

Lemma fragment_node n html : render_node n = Ret html → fragment html (node_tokens n).
Proof.
  revert html. induction n as [t d nodes IH] using node_deep_ind. intros html. rewrite render_node_eq.
  cbn [node_tokens]. destruct (renders_children t d).
  - destruct (render_nodes nodes) as [inner|] eqn:E; [|done]. cbn [let_ok].
    apply fragment_frame. by apply fragment_nodes.
  - cbn [let_ok]. by apply fragment_frame.
Qed.

(** Only the level of a heading can keep a page from being written. *)
Lemma frame_error t d inner e : html_frame t d inner = Raise e → exn_cls e = ValueError.
Proof.
  destruct t; try done; cbn [html_frame].
  - unfold heading_level. destruct (py_int _); [done|]. by intros [= <-].
  - by destruct (lookup_value "value" d).
Qed.

Lemma nodes_error nodes e : Forall (λ n, ∀ e, render_node n = Raise e → exn_cls e = ValueError) nodes →
  render_nodes nodes = Raise e → exn_cls e = ValueError.
Proof.
  intros Hall. revert e. induction Hall as [|n nodes Hn _ IH]; intros e; cbn [render_nodes]; [done|].
  destruct (render_node n) as [h|e'] eqn:En; cbn [let_ok].
  - destruct (render_nodes nodes) as [rest|e'] eqn:Er; cbn [let_ok]; [done|]. intros [= <-]. by apply IH.
  - intros [= <-]. by apply Hn.
Qed.

Lemma node_error n e : render_node n = Raise e → exn_cls e = ValueError.
Proof.
  revert e. induction n as [t d nodes IH] using node_deep_ind. intros e. rewrite render_node_eq.
  destruct (renders_children t d); [|apply frame_error].
  destruct (render_nodes nodes) as [inner|e'] eqn:E; cbn [let_ok]; [apply frame_error|].
  intros [= <-]. by eapply nodes_error.
Qed.

(** C39. The HTML page of any document reads back: its tags are those the tree of the
    document calls for and nothing else, and every title, key, value, item and cell is found
    between them as it was, whatever characters it holds; the only other outcome is the error
    for a heading whose level is no number. *)
Theorem html_reads_back d :
  match html_page d with
  | Ret page => read_html page = Some (page_tokens d)
  | Raise e => exn_cls e = ValueError
  end.
Proof.
  unfold html_page. destruct (render_node (Document.root d)) as [body|e] eqn:E; cbn [let_ok].
  2: by eapply node_error.
  apply fragment_node in E. unfold read_html.
  match goal with |- context [reads ?page] => assert (fragment page (page_tokens d)) as Hpage end.
  { refine (fragment_app "<!DOCTYPE html><html><head><meta charset='utf-8'>" _
      [tag "!DOCTYPE html"; tag "html"; tag "head"; Tag [Name "meta charset="; Value "utf-8"]] _ eq_refl _).
    refine (fragment_element "title" (Metadata.title (Document.metadata d)) _ _ eq_refl eq_refl _).
    refine (fragment_app "</head><body>" _ [tag "/head"; tag "body"] _ eq_refl _).
    exact (fragment_app _ "</body></html>" _ [tag "/body"; tag "/html"] E eq_refl). }
  unfold fragment in Hpage. by rewrite Hpage.
Qed.
End Page.

(** ** The rows of the CSV file *)

Section Rows.
Context {HF : FloatRepr}.

Lemma csv_node_cells t d section : Forall (λ r, r ≠ []) (csv_node t d section).
Proof.
  assert (∀ cells : list string, cells ≠ [] → Forall (λ r, r ≠ []) [cells]) as H1 by (by constructor).
  destruct t; cbn [csv_node]; try (by apply H1); try by constructor.
  - destruct (lookup_value "headers" d) as [[]|]; try constructor.
    destruct (lookup_value "rows" d) as [[| | | | |rows| |]|]; try constructor.
    apply Forall_flat_map, Forall_true. intros row. destruct row as [| | | | |cells| |]; try constructor.
    cbn [csv_table_row]. revert cells. induction l as [|h l IH]; intros [|x cells]; cbn; constructor; [done|apply IH].
  - destruct (lookup_value "value" d); [by apply H1|constructor].
Qed.

Lemma csv_nodes_cells n section : Forall (λ r, r ≠ []) (csv_nodes section n).
Proof.
  revert section. induction n as [t d nodes IH] using node_deep_ind. intros section. cbn [csv_nodes].
  apply Forall_app_2; [apply csv_node_cells|]. apply Forall_flat_map.
  eapply Forall_impl; [exact IH|]. intros n Hn. apply Hn.
Qed.

(** The CSV file of any document reads back, row by row and cell by cell, under the usual
    reading of the format, whatever commas, quotes and line breaks its cells hold. *)
Theorem csv_reads_back d :
  match export_csv d with
  | Ret result => read_csv (content result) = Some (csv_rows d)
  | Raise _ => False
  end.
Proof.
  cbn [export_csv content]. apply csv_rows_read. unfold csv_rows.
  constructor; [done|]. apply Forall_app_2; [|apply csv_nodes_cells].
  unfold csv_statistics. apply Forall_map, Forall_true. done.
Qed.
End Rows.

(** ** Every report is generated *)

Section Generated.
Context {HF : FloatRepr}.
Variable isoformat : datetime → string.

(** The items of a list have the columns of its first one. *)
Definition uniform (v : pyvalue) : Prop :=
  match v with
  | VTuple l | VList l => ∃ columns, Forall (λ i, map fst (serialize_row i) = columns) l
  | _ => True
  end.

Lemma lookup_value_some key (d : mapping) : key ∈ map fst d → ∃ v, lookup_value key d = Some v.
Proof.
  unfold lookup_value. induction d as [|[k v] d IH]; cbn; [by intros ?%elem_of_nil|].
  intros Hk. destruct (k ≟ key) eqn:E; [by eexists|].
  apply eqb_false in E. apply elem_of_cons in Hk as [->|Hk]; [done|by apply IH].
Qed.

Lemma row_cells_ok headers (row : mapping) : Forall (λ h, h ∈ map fst row) headers →
  ∃ cells, row_cells headers row = Ret cells.
Proof.
  induction 1 as [|h headers Hh _ [cells IH]]; [by exists []|]. cbn [row_cells].
  apply lookup_value_some in Hh as [v ->]. rewrite IH. by eexists.
Qed.

Definition is_tuple (v : pyvalue) : bool := match v with VTuple _ => true | _ => false end.

Lemma table_rows_ok headers rows : Forall (λ row : mapping, map fst row = headers) rows →
  ∃ cells, table_rows headers rows = Ret cells ∧ forallb is_tuple cells = true.
Proof.
  induction 1 as [|row rows Hrow _ (rest & IH & Hrest)]; [by exists []|]. cbn [table_rows].
  destruct (row_cells_ok headers row) as [cells ->].
  { rewrite Hrow, Forall_forall. done. }
  cbn [let_ok]. rewrite IH. by eexists.
Qed.

(** A tree that every exporter can write: no heading, and tables whose rows are tuples. *)
Definition tuple_rows (d : mapping) : bool :=
  match lookup_value "rows" d with Some (VTuple rows) => forallb is_tuple rows | _ => true end.

Fixpoint writable (n : DocumentNode) : bool :=
  let '(Node t d nodes) := n in
  match t with
  | NodeTypes.HEADING => false
  | NodeTypes.TABLE => tuple_rows d && forallb writable nodes
  | _ => forallb writable nodes
  end.

Lemma writable_below t d nodes : writable (Node t d nodes) = true → t ≠ NodeTypes.HEADING ∧
  (t = NodeTypes.TABLE → tuple_rows d = true) ∧ forallb writable nodes = true.
Proof. destruct t; cbn; rewrite ?andb_true_iff; intuition done. Qed.

Lemma all_tuples_ok rows : forallb is_tuple rows = true → ∃ cells, all_tuples rows = Ret cells.
Proof.
  induction rows as [|row rows IH]; [by eexists|]. cbn. intros [Hr Hrows]%andb_true_iff.
  destruct row; try done. cbn. apply IH in Hrows as [cells ->]. by eexists.
Qed.

Lemma writable_tables n section : writable n = true → ∃ tables, collect_tables section n = Ret tables.
Proof.
  revert section. induction n as [t d nodes IH] using node_deep_ind. intros section Hn.
  apply writable_below in Hn as (_ & Ht & Hnodes). cbn [collect_tables]. cbv zeta.
  set (current := section_of t d section).
  match goal with |- context [let_ok ?own _] => assert (∃ o, own = Ret o) as [o ->] end.
  { destruct t; try by eexists. specialize (Ht eq_refl). unfold tuple_rows in Ht.
    destruct (lookup_value "rows" d) as [[]|]; try (by eexists).
    destruct (all_tuples_ok _ Ht) as [cells ->]. by eexists. }
  cbn [let_ok].
  match goal with |- context [let_ok ?below _] => assert (∃ b, below = Ret b) as [b ->]; [|by eexists] end.
  induction IH as [|n nodes Hn _ IH]; [by eexists|]. cbn in Hnodes. apply andb_true_iff in Hnodes as [H1 H2].
  destruct (Hn current H1) as [tables ->]. cbn [let_ok]. destruct (IH H2) as [rest ->]. by eexists.
Qed.

Lemma headless_page n : writable n = true → ∃ html, render_node n = Ret html.
Proof.
  induction n as [t d nodes IH] using node_deep_ind. intros Hn. rewrite render_node_eq.
  pose proof (writable_below _ _ _ Hn) as (Ht & _ & Hnodes).
  assert (∀ inner, ∃ html, html_frame t d inner = Ret html) as Hframe.
  { intros inner. destruct t; try done; cbn [html_frame]; try by eexists.
    destruct (lookup_value "value" d); by eexists. }
  destruct (renders_children t d); [|apply Hframe].
  assert (∃ inner, render_nodes nodes = Ret inner) as [inner ->]; [|apply Hframe].
  clear Hn Hframe. induction IH as [|n nodes Hn _ IH]; [by eexists|].
  cbn in Hnodes. apply andb_true_iff in Hnodes as [H1 H2]. cbn [render_nodes].
  apply Hn in H1 as [h ->]. apply IH in H2 as [rest ->]. by eexists.
Qed.

Lemma render_key_value_headless v key : writable (render_key_value key v) = true.
Proof.
  revert v key. fix IH 1. intros [| | | | |l|l|d] key; try reflexivity. cbn.
  induction d as [|[k v] d IHd]; [done|]. cbn. by rewrite IH.
Qed.

Lemma render_key_values_headless d : forallb writable (render_key_values d) = true.
Proof.
  unfold render_key_values. induction d as [|[k v] d IH]; [done|]. cbn [map forallb].
  by rewrite render_key_value_headless.
Qed.

Lemma render_payload_ok key v : uniform v → ∃ n, render_payload key v = Ret n ∧ writable n = true.
Proof.
  assert (∀ l, uniform (VList l) → ∃ n, match map serialize_row l with
    | [] => Ret (Node NodeTypes.LIST [("key", VStr key); ("items", VTuple l)] [])
    | (first :: _) as rows =>
        let headers := map fst first in
        let! cells := table_rows headers rows in
        Ret (Node NodeTypes.TABLE
          [("key", VStr key); ("headers", VTuple (map VStr headers)); ("rows", VTuple cells)] [])
    end = Ret n ∧ writable n = true) as Hlist.
  { intros l [columns Hl]. apply Forall_map with (f := serialize_row) (P := λ r, map fst r = columns) in Hl.
    destruct (map serialize_row l) as [|first rows] eqn:E; [by eexists|]. cbv zeta.
    assert (map fst first = columns) as Hfirst by (by inversion Hl).
    destruct (table_rows_ok _ _ Hl) as (cells & Hcells & Ht). rewrite Hfirst, Hcells. cbn [let_ok].
    eexists. split; [reflexivity|]. change (forallb is_tuple cells && true = true). by rewrite Ht. }
  destruct v; intros Hv; try (by eexists); try (by apply Hlist).
  eexists. split; [reflexivity|]. apply render_key_values_headless.
Qed.

Lemma render_section_ok s : Forall (λ e, uniform e.2) (section_data s) →
  ∃ nodes, render_section s = Ret (Node NodeTypes.SECTION
    [("title", VStr (section_key (section_type s))); ("section_type", VStr (Sections.text (section_type s)))]
    nodes) ∧ forallb writable nodes = true.
Proof.
  intros Hd. unfold render_section, render_section_data.
  destruct (section_type s ≟ _); [eexists; split; [reflexivity|apply render_key_values_headless]|].
  induction Hd as [|[key v] d Hv _ [nodes IH]]; [by exists []|]. cbn [render_structured_payload snd] in *.
  destruct (render_payload_ok key v Hv) as (n & -> & Hn). cbn [let_ok].
  destruct (render_structured_payload d) as [rest|]; cbn [let_ok] in IH |- *; [|by destruct IH].
  destruct IH as [[= <-] Hrest]. eexists. split; [reflexivity|]. cbn. by rewrite Hn.
Qed.

Lemma rows_uniform {A} (row : A → mapping) columns l :
  (∀ a, map fst (row a) = columns) → uniform (rows_of row l).
Proof. intros Hrow. exists columns. apply Forall_map, Forall_true. intros a. apply Hrow. Qed.

Lemma counts_uniform l : uniform (counts_value l).
Proof. exists ["value"]. by apply Forall_map, Forall_true. Qed.

Lemma uniform_opt o : uniform (vopt o).
Proof. by destruct o. Qed.
Lemma uniform_opt_int o : uniform (vopt_int o).
Proof. by destruct o. Qed.
Lemma uniform_dict {A} (f : A → mapping) o : uniform (from_option (λ a, VDict (f a)) VNone o).
Proof. by destruct o. Qed.
Lemma uniform_texts l : uniform (VTuple (map VStr l)).
Proof. exists ["value"]. by apply Forall_map, Forall_true. Qed.

Lemma findings_uniform o :
  uniform (from_option (λ r, rows_of (finding_row (cached_identity r)) (placed (cached_findings r))) (VTuple []) o).
Proof.
  destruct o as [r|]; cbn; [|by exists []]. eapply rows_uniform. intros [n f]. cbn. reflexivity.
Qed.

Lemma evidence_uniform c : uniform (rows_of id (
  from_option (λ r, flat_map (finding_evidence (cached_identity r)) (placed (cached_findings r))) []
    (Context_.comparison_result c) ++ from_option decision_evidence [] (Context_.evaluation_decision c))).
Proof.
  exists ["evidence_id"; "source"; "description"; "reference"; "finding_id"].
  apply Forall_map, Forall_app. split.
  - destruct (Context_.comparison_result c) as [r|]; cbn; [|constructor].
    apply Forall_flat_map, Forall_true. intros [n f]. by apply Forall_map, Forall_true; intros [k e].
  - destruct (Context_.evaluation_decision c) as [d|]; cbn; [|constructor].
    by apply Forall_map, Forall_true; intros [k e].
Qed.

Definition one_section (t : SectionType) (c : ReportContext) (s : ReportStatistics)
    (advices : list ReportRecommendation) : option ReportSection :=
  if t ≟ Sections.RECOMMENDATIONS then Some (build_recommendations_section c s advices)
  else (λ builder, builder c s) <$> section_builder isoformat t.

Lemma section_uniform t c s advices : ∃ section, one_section t c s advices = Some section ∧
  section_type section = t ∧ Forall (λ e, uniform e.2) (section_data section).
Proof.
  destruct t; (eexists; split; [reflexivity|]; split; [done|]); cbn [section_data];
    repeat (apply Forall_cons_2; [|]); try apply Forall_nil_2; cbn [snd]; try exact I;
    first [apply uniform_opt | apply uniform_opt_int | apply uniform_dict | apply uniform_texts
          | apply counts_uniform | apply findings_uniform | apply evidence_uniform
          | eapply rows_uniform; intros ?; cbn; reflexivity].
Qed.

(** The sections a kind of report has. *)
Definition report_sections (t : ReportType) : list SectionType :=
  from_option snd [] (List.find (λ e, e.1 ≟ t) sections_by_report).

Lemma default_template t : ∃ template, get_template t default_templates = Ret template ∧
  Template.sections template = report_sections t ∧ Template.title_key template = "report." +:+ ReportTypes.text t.
Proof. destruct t; by eexists. Qed.

Lemma sections_built c s advices ts : ∃ sections, omap (λ t, one_section t c s advices) ts = sections ∧
  map section_type sections = ts ∧ Forall (λ x, Forall (λ e, uniform e.2) (section_data x)) sections.
Proof.
  induction ts as [|t ts (sections & E & Ht & Hu)]; [by exists []|].
  destruct (section_uniform t c s advices) as (x & Ex & Hx & Hd).
  exists (x :: sections). cbn. rewrite Ex. change (list_omap ?f ?l) with (omap f l). rewrite E. cbn. rewrite Hx, Ht.
  split; [done|]. split; [done|]. by constructor.
Qed.

(** The node a section is rendered to. *)
Definition is_section (t : SectionType) (n : DocumentNode) : Prop :=
  node_type n = NodeTypes.SECTION ∧ lookup_value "title" (attributes n) = Some (VStr (section_key t)).

Lemma sections_rendered sections : Forall (λ x, Forall (λ e, uniform e.2) (section_data x)) sections →
  ∃ nodes, render_sections sections = Ret nodes ∧ Forall2 is_section (map section_type sections) nodes ∧
    forallb writable nodes = true.
Proof.
  induction 1 as [|x sections Hx _ (nodes & E & H2 & Hn)]; [by exists []|].
  destruct (render_section_ok x Hx) as (inner & Ex & Hi). cbn [render_sections map].
  rewrite Ex. cbn [let_ok]. rewrite E. eexists. split; [reflexivity|]. split; [by constructor|].
  cbn. by rewrite Hi.
Qed.

Lemma default_exporter weasyprint openpyxl f : get_exporter f (default_exporters isoformat weasyprint openpyxl)
  = Ret (match f with
         | Formats.HTML => export_html | Formats.PDF => export_pdf weasyprint
         | Formats.EXCEL => export_excel openpyxl | Formats.CSV => export_csv
         | Formats.JSON => export_json isoformat
         end).
Proof. by destruct f. Qed.

(** Every kind of report is generated from every context: its document is the section of
    the statistics followed by the sections of its template, in order, and the JSON, CSV and
    HTML exports of it succeed; the PDF and Excel exports do when the libraries behind them do. *)
Theorem report_generated fresh now t c :
  ∃ data document, build isoformat default_templates fresh now t c = Ret data ∧
    render default_templates data = Ret document ∧
    (∃ first nodes, children (Document.root document) = first :: nodes ∧
       children first = render_statistics (calculate c) ∧ Forall2 is_section (report_sections t) nodes) ∧
    ∀ weasyprint openpyxl f,
      match f with
      | Formats.EXCEL =>
          ∀ save, openpyxl = Some save → (∀ sheets, is_ret (save sheets) = true) →
          is_ret (generate isoformat default_templates (default_exporters isoformat weasyprint openpyxl)
                    fresh now t c f) = true
      | Formats.PDF =>
          ∀ page, html_page document = Ret page → is_ret (weasyprint page) = true →
          is_ret (generate isoformat default_templates (default_exporters isoformat weasyprint openpyxl)
                    fresh now t c f) = true
      | _ => is_ret (generate isoformat default_templates (default_exporters isoformat weasyprint openpyxl)
                       fresh now t c f) = true
      end.
Proof.
  destruct (default_template t) as (template & Et & Hs & _).
  destruct (sections_built c (calculate c) (build_recommendations fresh c) (report_sections t))
    as (sections & Eb & Hsections & Hu).
  destruct (sections_rendered sections Hu) as (nodes & Er & H2 & Hn).
  assert (∃ data, build isoformat default_templates fresh now t c = Ret data ∧ Data.report_type data = t ∧
    Data.sections data = sections ∧ Data.statistics data = calculate c) as (data & Hb & Ht & Hd & Hst).
  { unfold build. cbv zeta. rewrite Et. cbn [let_ok]. rewrite Hs.
    change (omap _ (report_sections t)) with
      (omap (λ t, one_section t c (calculate c) (build_recommendations fresh c)) (report_sections t)).
    rewrite Eb. by eexists. }
  assert (∃ document first, render default_templates data = Ret document ∧
    children (Document.root document) = first :: nodes ∧ children first = render_statistics (calculate c) ∧
    writable (Document.root document) = true) as (document & first & Hr & Hc & Hf & Hh).
  { unfold render. rewrite Ht, Et. cbn [let_ok]. rewrite Hd, Er. cbn [let_ok].
    eexists _, _. split; [reflexivity|]. split; [reflexivity|]. split; [by rewrite Hst|]. exact Hn. }
  destruct (headless_page _ Hh) as [body Hpage].
  exists data, document. split; [done|]. split; [done|]. split.
  { exists first, nodes. split; [done|]. split; [done|]. by rewrite <-Hsections. }
  intros weasyprint openpyxl f. unfold generate. rewrite Hb. cbn [let_ok]. rewrite Hr. cbn [let_ok].
  assert (∃ page, html_page document = Ret page) as [page Hp] by (unfold html_page; rewrite Hpage; by eexists).
  unfold export. rewrite default_exporter. cbn [let_ok].
  destruct f; try done; unfold export_html, export_pdf; rewrite ?Hp; [done|..].
  - intros page' [= <-]. cbn. by destruct (weasyprint page).
  - intros save -> Hsave. cbn. unfold workbook.
    destruct (writable_tables _ "document" Hh) as [tables ->]. cbn [let_ok].
    match goal with |- context [save ?sheets] => specialize (Hsave sheets); by destruct (save sheets) end.
Qed.
End Generated.

(** ** The figures account for what they count *)

Section Accounting.

Lemma counter_keys names counts : NoDup (map fst counts) →
  NoDup (map fst (fold_left (λ c k, count_one k c) names counts)).
Proof.
  assert (∀ k counts k', k' ∈ map fst (count_one k counts) → k' = k ∨ k' ∈ map fst counts) as Hin.
  { intros k. clear. induction counts as [|[j n] counts IH]; intros k'; cbn [count_one map fst].
    - intros Hk%list_elem_of_singleton. by left.
    - destruct (k ≟ j) eqn:E; [by right|]. cbn [map fst]. intros [->|Hk]%elem_of_cons; [right; by left|].
      destruct (IH _ Hk); [by left|right; by right]. }
  assert (∀ k counts, NoDup (map fst counts) → NoDup (map fst (count_one k counts))) as Hone.
  { intros k. clear -Hin. induction counts as [|[j n] counts IH]; cbn [count_one map fst]; intros Hnd.
    - constructor; [by intros ?%elem_of_nil|constructor].
    - apply NoDup_cons in Hnd as [Hj Hnd]. destruct (k ≟ j) eqn:E; cbn [map fst]; constructor; try done.
      + intros [->|Hc]%Hin; [by rewrite eqb_refl in E|done].
      + by apply IH. }
  revert counts. induction names as [|k names IH]; intros counts Hnd; [done|]. cbn. apply IH. by apply Hone.
Qed.

Lemma count_one_elem x counts k n : NoDup (map fst counts) →
  (k, n) ∈ count_one x counts ↔
    if base.decide (k = x) then x ∉ map fst counts ∧ n = 1 ∨ (x, n - 1) ∈ counts else (k, n) ∈ counts.
Proof.
  induction counts as [|[j m] counts IH]; cbn [count_one map fst]; intros Hnd.
  - rewrite list_elem_of_singleton, pair_equal_spec. case_decide as Hk.
    + split; [intros [_ ->]; left; split; [apply not_elem_of_nil|done]|].
      intros [[_ ->]|Hx]; [done|by apply elem_of_nil in Hx].
    + split; [by intros [? _]|by intros Hx%elem_of_nil].
  - apply NoDup_cons in Hnd as [Hj Hnd]. specialize (IH Hnd).
    assert (∀ v, (j, v) ∉ counts) as Hno.
    { intros v Hv. apply Hj. apply list_elem_of_fmap. by exists (j, v). }
    destruct (x ≟ j) eqn:E.
    + rewrite eqb_true in E. subst j. case_decide as Hk; rewrite !elem_of_cons, !pair_equal_spec.
      * subst k. split.
        -- intros [[_ ->]|Hv]; [right; left; split; [done|lia]|by apply Hno in Hv].
        -- intros [[Hn _]|[[_ Hv]|Hv]]; [destruct Hn; by left|left; split; [done|lia]|by apply Hno in Hv].
      * split; intros [[? _]|?]; [done|by right|done|by right].
    + apply eqb_false in E. case_decide as Hk; rewrite !elem_of_cons, !pair_equal_spec, IH.
      * subst k. split.
        -- intros [[? _]|[[Hn ->]|Hv]]; [done|left; split; [set_solver|done]|right; by right].
        -- intros [[Hn ->]|[[? _]|Hv]]; [right; left; split; [set_solver|done]|done|right; by right].
      * done.
Qed.

(** Counts of names: one for each name that occurs, in the order of the names. *)
Record tallies (counts : list (string * Z)) (names : list string) : Prop := {
  tl_counts k n : (k, n) ∈ counts ↔ 0 < n ∧ n = count_of k names;
  tl_once : NoDup (map fst counts);
  tl_sorted : Sorted count_before counts;
}.

Lemma counter_tallies names k n : (k, n) ∈ counter names ↔ 0 < n ∧ n = count_of k names.
Proof.
  assert (∀ k xs, 0 <= count_of (k : string) xs) as Hpos by (intros; unfold count_of; lia).
  revert k n. induction names as [|x names IH] using rev_ind; intros k n.
  { cbn. rewrite count_of_nil. split; [by intros ?%elem_of_nil|lia]. }
  unfold counter in *. rewrite fold_left_app. cbn [fold_left].
  rewrite count_one_elem by (apply counter_keys; constructor).
  assert (count_of k (names ++ [x]) = count_of k names + if base.decide (x = k) then 1 else 0) as ->.
  { unfold count_of. rewrite filter_app, length_app. cbn. case_decide; cbn; lia. }
  specialize (Hpos x names). case_decide as Hk.
  - subst k. rewrite decide_True by done. rewrite IH. split; [|intros [? ?]].
    + intros [[Hx ->]|[? ?]]; [|lia]. assert (count_of x names = 0) as ->; [|lia].
      destruct (base.decide (count_of x names = 0)); [done|]. destruct Hx. apply list_elem_of_fmap.
      exists (x, count_of x names). split; [done|]. apply IH. lia.
    + destruct (base.decide (count_of x names = 0)) as [E|]; [left|right; lia]. split; [|lia].
      intros ([k m] & -> & Hm)%list_elem_of_fmap. apply IH in Hm. cbn in E. lia.
  - rewrite decide_False by congruence. rewrite IH. split; intros [? ?]; lia.
Qed.

Lemma count_before_total : Total count_before.
Proof.
  intros a b. unfold count_before, str_leb, String.ltb. rewrite (String.compare_antisym b.1 a.1).
  destruct (String.compare a.1 b.1); cbn; auto.
Qed.

Lemma counts_tally names : tallies (counts_of names) names.
Proof.
  pose proof (merge_sort_Permutation count_before (counter names)) as Hp. unfold counts_of. split.
  - intros k n. rewrite Hp. apply counter_tallies.
  - rewrite Hp. apply counter_keys. constructor.
  - apply Sorted_merge_sort, count_before_total.
Qed.

(** How many there are with a property. *)
Definition how_many {A} (p : A → bool) (l : list A) : Z := count_items (List.filter p l).

Lemma how_many_cons {A} (p : A → bool) x l : how_many p (x :: l) = (if p x then 1 else 0) + how_many p l.
Proof. unfold how_many, count_items. cbn. destruct (p x); cbn [length]; lia. Qed.

Definition at_level (l : SeverityLevel) (f : Finding) : bool := bool_decide (level (severity f) = l).

Lemma findings_counted (fs : list Finding) critical major minor :
  fold_left (λ '(critical, major, minor) f,
    match level (severity f) with
    | CRITICAL => (critical + 1, major, minor) | HIGH => (critical, major + 1, minor)
    | _ => (critical, major, minor + 1)
    end) fs (critical, major, minor) =
  (critical + how_many (at_level CRITICAL) fs, major + how_many (at_level HIGH) fs,
   minor + how_many (λ f, negb (at_level CRITICAL f || at_level HIGH f)) fs).
Proof.
  revert critical major minor. induction fs as [|f fs IH]; intros critical major minor.
  - unfold how_many, count_items. cbn. rewrite !Z.add_0_r. done.
  - cbn [fold_left]. rewrite !how_many_cons. unfold at_level at 1 3 5 6.
    destruct (level (severity f)); rewrite IH, !pair_equal_spec; split_and!;
      repeat first [rewrite bool_decide_eq_true_2 by done | rewrite bool_decide_eq_false_2 by done]; cbn; lia.
Qed.

(** A modification of a subject with one of these names. *)
Definition modifies (subjects : list string) (d : Comparison.Difference) : bool :=
  bool_decide (difference_type d = MODIFIED ∧ str_lower (subject_type d) ∈ subjects).

Lemma modifies_spec subjects d :
  modifies subjects d = (difference_type d ≟ MODIFIED) && mem (str_lower (subject_type d)) subjects.
Proof.
  unfold modifies. apply eq_true_iff_eq. rewrite bool_decide_eq_true, andb_true_iff, eqb_true, mem_true. done.
Qed.

Lemma changes_counted (ds : list Comparison.Difference) i v k :
  fold_left (λ '(interfaces, vlans, configurations) d,
    if negb (difference_type d ≟ MODIFIED) then (interfaces, vlans, configurations)
    else
      let subject := str_lower (subject_type d) in
      if subject ≟ "interface" then (interfaces + 1, vlans, configurations)
      else if subject ≟ "vlan" then (interfaces, vlans + 1, configurations)
      else if mem subject ["device"; "configuration"; "config"] then (interfaces, vlans, configurations + 1)
      else (interfaces, vlans, configurations)) ds (i, v, k) =
  (i + how_many (modifies ["interface"]) ds, v + how_many (modifies ["vlan"]) ds,
   k + how_many (modifies ["device"; "configuration"; "config"]) ds).
Proof.
  revert i v k. induction ds as [|d ds IH]; intros i v k.
  { unfold how_many, count_items. cbn. rewrite !Z.add_0_r. done. }
  cbn [fold_left]. rewrite !how_many_cons, !modifies_spec. cbv zeta.
  destruct (difference_type d ≟ MODIFIED); cbn [negb andb]; [|by rewrite IH].
  set (subject := str_lower (subject_type d)).
  assert (∀ x, mem subject [x] = (subject ≟ x)) as Hone.
  { intros x. apply eq_true_iff_eq. rewrite mem_true, eqb_true. apply list_elem_of_singleton. }
  rewrite !Hone. destruct (subject ≟ "interface") eqn:E1.
  { rewrite eqb_true in E1. rewrite E1, IH, !pair_equal_spec.
    change ("interface" ≟ "vlan") with false. change (mem "interface" ["device"; "configuration"; "config"]) with false.
    split_and!; lia. }
  destruct (subject ≟ "vlan") eqn:E2.
  { rewrite eqb_true in E2. rewrite E2, IH, !pair_equal_spec.
    change (mem "vlan" ["device"; "configuration"; "config"]) with false. split_and!; lia. }
  destruct (mem subject _); rewrite IH, !pair_equal_spec; split_and!; lia.
Qed.

(** The devices a report counts: those of NetBox, else those that are live, each by a name of
    either. *)
Definition device_names (c : ReportContext) (netbox_name : Device.Device → string)
    (live_name : DeviceSnapshot.DeviceSnapshot → string) : list string :=
  match Context_.netbox_inventory c, Context_.live_snapshot c with
  | Some inventory, _ => map netbox_name (NetBox.devices inventory)
  | None, Some snapshot => map live_name (Live.devices snapshot)
  | None, None => []
  end.

Lemma devices_tally c netbox_name live_name :
  tallies (device_counts c netbox_name live_name)
    (device_names c netbox_name (λ d, or_str (live_name d) "unknown")).
Proof.
  unfold device_counts, device_names.
  destruct (Context_.netbox_inventory c); [|destruct (Context_.live_snapshot c)]; apply counts_tally.
Qed.

(** C40. The statistics of a report are the counts they are named after.  Findings of the
    comparison are critical at that level, major at the high one, and minor at any other.
    The devices are those of NetBox, or of the live snapshot without an inventory: in all,
    and one count for each model, each manufacturer and each platform that occurs, sorted by
    name, a live device without one counting as unknown.  The devices reached are the live
    ones, or the successful targets of the run; those not reached are what is missing to the
    total, never below zero.  Drift is what the metrics of the comparison say, and changes
    are its modifications of interfaces, of VLANs, and of devices or configurations. *)
Theorem statistics_account c :
  let s := calculate c in
  let findings := from_option cached_findings [] (Context_.comparison_result c) in
  let differences := from_option cached_differences [] (Context_.comparison_result c) in
  let names := device_names c in
  Figures.critical_findings s = how_many (at_level CRITICAL) findings ∧
  Figures.major_findings s = how_many (at_level HIGH) findings ∧
  Figures.minor_findings s = how_many (λ f, negb (at_level CRITICAL f || at_level HIGH f)) findings ∧
  Figures.total_devices s = count_items (names Device.name DeviceSnapshot.device_id) ∧
  tallies (Figures.device_type_counts s)
    (names (λ d, DeviceType.model (Device.device_type d)) (λ d, or_str (DeviceSnapshot.model d) "unknown")) ∧
  tallies (Figures.vendor_counts s)
    (names (λ d, Manufacturer.name (DeviceType.manufacturer (Device.device_type d)))
       (λ d, or_str (DeviceSnapshot.manufacturer d) "unknown")) ∧
  tallies (Figures.platform_counts s)
    (names (λ d, from_option Platform.name "unknown" (Device.platform d))
       (λ d, or_str (DeviceSnapshot.platform d) "unknown")) ∧
  Figures.reachable_devices s =
    match Context_.live_snapshot c, Context_.discovery_run c with
    | Some snapshot, _ => count_items (Live.devices snapshot)
    | None, Some run => DiscoveryRun.successful_targets run
    | None, None => 0
    end ∧
  Figures.unreachable_devices s = Z.max 0 (Figures.total_devices s - Figures.reachable_devices s) ∧
  (Figures.missing_devices s, Figures.extra_devices s, Figures.changed_devices s) =
    match Context_.comparison_result c ≫= cached_metrics with
    | Some m => (missing_count m, unexpected_count m, modified_count m)
    | None => (0, 0, 0)
    end ∧
  Figures.interface_changes s = how_many (modifies ["interface"]) differences ∧
  Figures.vlan_changes s = how_many (modifies ["vlan"]) differences ∧
  Figures.configuration_changes s = how_many (modifies ["device"; "configuration"; "config"]) differences.
Proof.
  cbv zeta. unfold calculate.
  assert (finding_counts c = _) as -> by apply (findings_counted (all_findings c) 0 0 0).
  assert (change_counts c = _) as -> by apply (changes_counted _ 0 0 0).
  destruct (device_drift_counts c) as [[missing extra] changed] eqn:Ed.
  cbn [Figures.critical_findings Figures.major_findings Figures.minor_findings Figures.device_type_counts
    Figures.vendor_counts Figures.platform_counts Figures.total_devices Figures.interface_changes
    Figures.vlan_changes Figures.configuration_changes Figures.unreachable_devices Figures.reachable_devices
    Figures.missing_devices Figures.extra_devices Figures.changed_devices].
  rewrite !Z.add_0_l. split_and!; try done; try apply devices_tally.
  - unfold total_devices, device_names, netbox_count, live_count, count_items.
    destruct (Context_.netbox_inventory c); [|destruct (Context_.live_snapshot c)]; cbn; rewrite ?length_map; done.
  - lia.
Qed.

(** The accuracy is no percentage when there is no comparison and more devices are live than
    NetBox has. *)
Lemma accuracy_exceeds (c : ReportContext) inventory snapshot :
  Context_.netbox_inventory c = Some inventory → Context_.live_snapshot c = Some snapshot →
  Context_.comparison_result c = None → netbox_count inventory = 1 → live_count snapshot = 2 →
  (netbox_accuracy_pct c == 200)%Q.
Proof.
  unfold netbox_accuracy_pct, reachable_devices. intros -> -> -> Hn Hl. cbn. rewrite Hn, Hl. reflexivity.
Qed.
End Accounting.
