(* ===== verification/HistoryTheorems.v ===== *)
(** * What the history keeps

    A snapshot that is stored is read back field by field, from its rows and from its
    payload; comparing stored snapshots is comparing the snapshots. *)

From S2P Require Import Prelude Vocabulary Effects Json EvidenceStore Dicts Texts JsonText.
From S2P Require Import Contracts Inventories SnapshotModels Comparison AuditTrail Records.
From S2P Require Import History.
From S2P Require Import HistoryApi.
From stdpp Require Import sorting.
#[local] Open Scope Z_scope.

(** ** Computations that draw identifiers and add no rows *)

Record quiet (s s' : HistoryState) : Prop := {
  quiet_tables : tables s' = tables s;
  quiet_saved : saved s' = saved s;
  quiet_uuids : history_uuids s' = history_uuids s;
}.

#[export] Instance quiet_preorder : PreOrder quiet.
Proof. split; [by intros s|]. intros a b c [? ? ?] [? ? ?]. split; congruence. Qed.

(** [m] ends, and its answer relates to the identifiers it drew. *)
Definition draws {A} (m : HistoryM A) (P : list UUID → A → Prop) : Prop :=
  ∀ s, ∃ a s' k, m s = (Ret a, s') ∧ quiet s s' ∧ history_drawn s' = (history_drawn s + k)%nat ∧
    P (map (history_uuids s) (seq (history_drawn s) k)) a.

Lemma draws_ret {A} (a : A) P : P [] a → draws (ret a) P.
Proof. intros HP s. exists a, s, O. split_and!; [done|reflexivity|by rewrite Nat.add_0_r|done]. Qed.

Lemma draws_bind {A B} (m : HistoryM A) (f : A → HistoryM B) P Q :
  draws m P → (∀ ids a, P ids a → draws (f a) (λ ids' b, Q (ids ++ ids') b)) → draws (x <- m ;; f x) Q.
Proof.
  intros Hm Hf s. destruct (Hm s) as (a & s1 & k & E & Hq & Hd & HP).
  destruct (Hf _ _ HP s1) as (b & s2 & k2 & E2 & Hq2 & Hd2 & HQ).
  exists b, s2, (k + k2)%nat. split_and!; [by rewrite (bind_Ret _ _ _ _ _ E)|by transitivity s1|lia|].
  rewrite seq_app, map_app. by rewrite Hd, (quiet_uuids _ _ Hq) in HQ.
Qed.

Lemma draws_mono {A} (m : HistoryM A) (P Q : list UUID → A → Prop) :
  draws m P → (∀ ids a, P ids a → Q ids a) → draws m Q.
Proof. intros Hm HPQ s. destruct (Hm s) as (a & s' & k & ? & ? & ? & ?). exists a, s', k. auto. Qed.

Lemma draws_fresh : draws fresh_uuid (λ ids u, ids = [u]).
Proof. intros s. eexists _, _, 1%nat. split_and!; [reflexivity|done|cbn; lia|done]. Qed.

Lemma draws_now : draws Effects.utc_now (λ ids _, ids = []).
Proof. intros s. eexists _, _, O. split_and!; [reflexivity|done|cbn; lia|done]. Qed.

Lemma draws_map_m {A B} (f : A → HistoryM B) xs P :
  (∀ x, x ∈ xs → draws (f x) (P x)) →
  draws (map_m f xs) (λ ids ys, ∃ idss, ids = concat idss ∧ Forall3 P xs idss ys).
Proof.
  induction xs as [|x xs IH]; intros Hf.
  { apply draws_ret. exists []. split; [done|constructor]. }
  cbn [map_m]. eapply draws_bind; [apply Hf; by left|]. intros ids y Hy.
  eapply draws_bind; [apply IH; intros; apply Hf; by right|]. intros ids' ys (idss & -> & Hs).
  apply draws_ret. exists (ids :: idss). cbn. rewrite app_nil_r. split; [done|by constructor].
Qed.

(** ** Rows that are added *)

(** [m] ends and adds the rows [T]; its answer and they relate to the identifiers it drew. *)
Definition adds {A} (m : HistoryM A) (P : list UUID → Tables → A → Prop) : Prop :=
  ∀ s, ∃ a s' k T, m s = (Ret a, s') ∧ tables s' = tables_app (tables s) T ∧ saved s' = saved s ∧
    P (map (history_uuids s) (seq (history_drawn s) k)) T a.

Lemma adds_bind {A B} (m : HistoryM A) (f : A → HistoryM B) P Q :
  draws m P → (∀ ids a, P ids a → adds (f a) (λ ids' T b, Q (ids ++ ids') T b)) → adds (x <- m ;; f x) Q.
Proof.
  intros Hm Hf s. destruct (Hm s) as (a & s1 & k & E & [Ht Hs Hu] & Hd & HP).
  destruct (Hf _ _ HP s1) as (b & s2 & k2 & T & E2 & Ht2 & Hs2 & HQ).
  exists b, s2, (k + k2)%nat, T. rewrite Ht in Ht2. rewrite Hs in Hs2.
  split_and!; [by rewrite (bind_Ret _ _ _ _ _ E)|done|done|].
  rewrite seq_app, map_app. by rewrite Hd, Hu in HQ.
Qed.

Lemma adds_rows {A} T (a : A) (P : list UUID → Tables → A → Prop) : P [] T a → adds (add_rows T ;;; ret a) P.
Proof. intros HP s. by eexists a, _, O, T. Qed.

Lemma fold_tables {A} (f : Tables → list A) : (∀ a b, f (tables_app a b) = f a ++ f b) →
  ∀ Ts T0, f (fold_left tables_app Ts T0) = f T0 ++ concat (map f Ts).
Proof.
  intros Hf Ts. induction Ts as [|T Ts IH]; intros T0; cbn; [by rewrite app_nil_r|].
  by rewrite IH, Hf, app_assoc.
Qed.

(** The tables of a list of blocks, and the identifiers drawn for them. *)
Lemma Forall3_blocks {A B} (tab : B → Tables) (ids_in : B → list UUID) (P : A → B → Prop) xs idss Ts :
  Forall3 (λ x ids T, ∃ b, T = tab b ∧ ids = ids_in b ∧ P x b) xs idss Ts →
  ∃ bs, Ts = map tab bs ∧ idss = map ids_in bs ∧ Forall2 P xs bs.
Proof.
  induction 1 as [|x ids T xs idss Ts (b & -> & -> & Hb) _ (bs & -> & -> & Hbs)]; [by exists []|].
  exists (b :: bs). split; [done|]. split; [done|by constructor].
Qed.

Lemma Forall2_concat {A B C} (P : A → B → Prop) (f : C → list A) xs yss :
  Forall2 (λ x ys, Forall2 P (f x) ys) xs yss → Forall2 P (concat (map f xs)) (concat yss).
Proof. induction 1; cbn; [constructor|]. by apply Forall2_app. Qed.

Lemma Forall2_elem_r {A B} (P : A → B → Prop) l k y : Forall2 P l k → y ∈ k → ∃ x, x ∈ l ∧ P x y.
Proof. induction 1 as [|x z l k ? _ IH]; set_solver. Qed.

Lemma filter_all_false {A} (p : A → bool) l : (∀ a, a ∈ l → p a = false) → List.filter p l = [].
Proof.
  induction l as [|a l IH]; intros Hp; [done|]. cbn. rewrite Hp by (by left).
  apply IH. intros b ?. apply Hp. by right.
Qed.

Lemma filter_all_true {A} (p : A → bool) l : (∀ a, a ∈ l → p a = true) → List.filter p l = l.
Proof.
  induction l as [|a l IH]; intros Hp; [done|]. cbn. rewrite Hp by (by left).
  f_equal. apply IH. intros b ?. apply Hp. by right.
Qed.


Lemma filter_mine {B C} (id : B → UUID) (mine : B → list C) (key : C → UUID) bs b :
  NoDup (map id bs) → (∀ b c, b ∈ bs → c ∈ mine b → key c = id b) → b ∈ bs →
  List.filter (λ c, key c ≟ id b) (concat (map mine bs)) = mine b.
Proof.
  induction bs as [|b' bs IH]; cbn; [by intros _ _ ?%elem_of_nil|].
  intros [Hn Hnd]%NoDup_cons Hm Hb. rewrite List.filter_app. apply elem_of_cons in Hb as [<-|Hb].
  - rewrite filter_all_true, filter_all_false; [apply app_nil_r| |].
    + intros c (l & Hl & Hc)%list_elem_of_In%in_concat. apply in_map_iff in Hl as (b' & <- & Hb').
      apply list_elem_of_In in Hb', Hc. apply Prelude.eqb_false. intros E. apply Hn.
      rewrite <- E, (Hm b' c) by (done || by right). by apply list_elem_of_fmap_2.
    + intros c Hc. apply Prelude.eqb_true. apply Hm; [by left|done].
  - rewrite filter_all_false, IH; [done|done| |done|].
    + intros b0 c ? ?. apply Hm; [by right|done].
    + intros c Hc. apply Prelude.eqb_false. rewrite (Hm b' c) by (done || by left). intros E. apply Hn.
      rewrite E. by apply list_elem_of_fmap_2.
Qed.

(** Rows of a table that say which parent they belong to, listed parent by parent. *)
Section Children.
Context {P C : Type} (id : P → UUID) (key : C → UUID).

Definition owned (parents : list P) (c : C) : bool := existsb (λ p, id p ≟ key c) parents.

Definition block (sel : P → bool) (e : P * list C) : list C := if sel e.1 then e.2 else [].

Lemma owned_filter sel parents p c : NoDup (map id parents) → p ∈ parents → key c = id p →
  owned (List.filter sel parents) c = sel p.
Proof.
  intros Hnd Hp Hc. unfold owned. destruct (sel p) eqn:E.
  - apply existsb_exists. exists p. split; [|by rewrite Hc; apply Prelude.eqb_refl].
    apply filter_In. split; [by apply list_elem_of_In|done].
  - apply not_true_iff_false. intros (q & [Hq Hs]%filter_In & Hk)%existsb_exists. pybool.
    assert (q = p) as ->; [|congruence]. rewrite Hc in Hk. apply list_elem_of_In in Hq.
    apply list_elem_of_lookup in Hp as [i Hi], Hq as [j Hj].
    assert (j = i) as ->; [|congruence].
    eapply (NoDup_lookup (map id parents)); [done| |]; rewrite list_lookup_fmap.
    + by rewrite Hj.
    + by rewrite Hi; cbn; rewrite Hk.
Qed.

Lemma filter_owned sel (blocks : list (P * list C)) :
  NoDup (map id (map fst blocks)) → Forall (λ e, Forall (λ c, key c = id e.1) e.2) blocks →
  List.filter (owned (List.filter sel (map fst blocks))) (concat (map snd blocks))
  = concat (map (block sel) blocks).
Proof.
  intros Hnd Hk.
  assert (∀ bs, (∀ e, e ∈ bs → e ∈ blocks) →
    List.filter (owned (List.filter sel (map fst blocks))) (concat (map snd bs))
    = concat (map (block sel) bs)) as Hall; [|by apply Hall].
  induction bs as [|e bs IH]; intros Hin; [done|]. cbn. rewrite List.filter_app, IH by (intros; apply Hin; by right).
  f_equal. assert (e ∈ blocks) as He by (apply Hin; by left).
  pose proof (proj1 (Forall_forall _ _) (proj1 (Forall_forall _ _) Hk e He)) as Hc.
  assert (e.1 ∈ map fst blocks) as He1 by (by apply (list_elem_of_fmap_2 fst)).
  unfold block. destruct (sel e.1) eqn:E; [apply filter_all_true|apply filter_all_false];
    intros c Hcin; rewrite <- E; eapply owned_filter; eauto.
Qed.
End Children.

(** ** A device of a live snapshot and its rows *)

Section Stored.
Context {HF : FloatRepr} {HD : DatetimeText} {HL : LaxFields}.

Lemma draws_json_safe j : plain j = true → draws (json_safe j) (λ ids j', ids = [] ∧ same_items j j').
Proof.
  intros Hj. destruct (json_roundtrip " " eq_refl id (λ l, reflexivity l) j Hj) as (j' & E & Hs).
  intros s. exists j', s, O. unfold json_safe. rewrite E. split_and!; [done|reflexivity|by rewrite Nat.add_0_r|done|done].
Qed.

Lemma draws_rows {A R} (make : UUID → A → R) (id : R → UUID) (Q : A → R → Prop) xs :
  (∀ u x, id (make u x) = u ∧ Q x (make u x)) →
  draws (map_m (λ x, u <- fresh_uuid ;; ret (make u x)) xs)
    (λ ids rows, ids = map id rows ∧ Forall2 Q xs rows).
Proof.
  intros Hmake. eapply draws_mono.
  - apply (draws_map_m _ _ (λ x ids row, ids = [id row] ∧ Q x row)). intros x _.
    eapply draws_bind; [apply draws_fresh|]. intros ids u ->. apply draws_ret.
    destruct (Hmake u x) as [Hu ?]. by rewrite Hu.
  - intros ids rows (idss & -> & Hs). induction Hs as [|x us row xs idss rows [-> HQ] _ [IH IHs]]; [done|].
    cbn in IH |- *. rewrite IH. by split; [|constructor].
Qed.

(** A row has the fields of what it stores, besides its keys. *)
Definition interface_stored (i : InterfaceSnapshot.InterfaceSnapshot) (r : InterfaceRow) : Prop :=
  r = {| SnapshotInterface.id := SnapshotInterface.id r;
    SnapshotInterface.snapshot_device_id := SnapshotInterface.snapshot_device_id r;
    SnapshotInterface.name := InterfaceSnapshot.name i;
    SnapshotInterface.admin_status := InterfaceSnapshot.admin_status i;
    SnapshotInterface.oper_status := InterfaceSnapshot.oper_status i;
    SnapshotInterface.description := InterfaceSnapshot.description i;
    SnapshotInterface.mac_address := InterfaceSnapshot.mac_address i;
    SnapshotInterface.speed_mbps := InterfaceSnapshot.speed_mbps i;
    SnapshotInterface.poe_status := InterfaceSnapshot.poe_status i |}.

Definition vlan_stored (v : VLANSnapshot.VLANSnapshot) (r : VLANRow) : Prop :=
  r = {| SnapshotVLAN.id := SnapshotVLAN.id r;
    SnapshotVLAN.snapshot_device_id := SnapshotVLAN.snapshot_device_id r;
    SnapshotVLAN.vlan_id := VLANSnapshot.vlan_id v; SnapshotVLAN.name := VLANSnapshot.name v;
    SnapshotVLAN.status := VLANSnapshot.status v |}.

Definition neighbor_stored (n : NeighborSnapshot.NeighborSnapshot) (r : NeighborRow) : Prop :=
  r = {| SnapshotNeighbor.id := SnapshotNeighbor.id r;
    SnapshotNeighbor.snapshot_device_id := SnapshotNeighbor.snapshot_device_id r;
    SnapshotNeighbor.local_interface := NeighborSnapshot.local_interface n;
    SnapshotNeighbor.remote_device_id := NeighborSnapshot.remote_device_id n;
    SnapshotNeighbor.remote_interface := NeighborSnapshot.remote_interface n;
    SnapshotNeighbor.protocol := NeighborSnapshot.protocol n |}.

Definition device_stored (d : DeviceSnapshot.DeviceSnapshot) (r : DeviceRow) : Prop :=
  validate (SnapshotDevice.payload r) = Ret d ∧
  r = {| SnapshotDevice.id := SnapshotDevice.id r; SnapshotDevice.created_at := SnapshotDevice.created_at r;
    SnapshotDevice.snapshot_id := SnapshotDevice.snapshot_id r;
    SnapshotDevice.device_id := DeviceSnapshot.device_id d; SnapshotDevice.name := DeviceSnapshot.name d;
    SnapshotDevice.manufacturer := DeviceSnapshot.manufacturer d;
    SnapshotDevice.model := DeviceSnapshot.model d;
    SnapshotDevice.serial_number := DeviceSnapshot.serial_number d;
    SnapshotDevice.product_id := DeviceSnapshot.product_id d;
    SnapshotDevice.management_ip := DeviceSnapshot.management_ip d;
    SnapshotDevice.platform := DeviceSnapshot.platform d;
    SnapshotDevice.payload := SnapshotDevice.payload r |}.

(** The rows of one device. *)
Record DeviceRows := {
  its_row : DeviceRow;
  its_interfaces : list InterfaceRow;
  its_vlans : list VLANRow;
  its_neighbors : list NeighborRow;
}.

Definition device_tables (b : DeviceRows) : Tables :=
  no_rows |> set_t_devices [its_row b] |> set_t_interfaces (its_interfaces b)
  |> set_t_vlans (its_vlans b) |> set_t_neighbors (its_neighbors b).

Definition device_ids (b : DeviceRows) : list UUID :=
  SnapshotDevice.id (its_row b) :: map SnapshotInterface.id (its_interfaces b)
  ++ map SnapshotVLAN.id (its_vlans b) ++ map SnapshotNeighbor.id (its_neighbors b).

Record rows_of_device (snapshot : UUID) (d : DeviceSnapshot.DeviceSnapshot) (b : DeviceRows) : Prop := {
  rows_device : device_stored d (its_row b);
  rows_snapshot : SnapshotDevice.snapshot_id (its_row b) = snapshot;
  rows_interfaces : Forall2 (λ i r, interface_stored i r ∧
    SnapshotInterface.snapshot_device_id r = SnapshotDevice.id (its_row b)) (DeviceSnapshot.interfaces d) (its_interfaces b);
  rows_vlans : Forall2 (λ v r, vlan_stored v r ∧
    SnapshotVLAN.snapshot_device_id r = SnapshotDevice.id (its_row b)) (DeviceSnapshot.vlans d) (its_vlans b);
  rows_neighbors : Forall2 (λ n r, neighbor_stored n r ∧
    SnapshotNeighbor.snapshot_device_id r = SnapshotDevice.id (its_row b)) (DeviceSnapshot.neighbors d) (its_neighbors b);
}.

Lemma draws_device_record snapshot d : held d = true → plain (dump d) = true →
  draws (device_record snapshot d)
    (λ ids T, ∃ b, T = device_tables b ∧ ids = device_ids b ∧ rows_of_device snapshot d b).
Proof.
  intros Hheld Hplain. unfold device_record.
  eapply draws_bind; [apply draws_fresh|]. intros ? id ->.
  eapply draws_bind; [apply draws_now|]. intros ? created ->.
  eapply draws_bind; [by apply draws_json_safe|]. intros ? payload [-> Hs].
  eapply draws_bind.
  { apply (draws_rows _ SnapshotInterface.id (λ i r, interface_stored i r ∧
      SnapshotInterface.snapshot_device_id r = id)). done. }
  intros ? rs [-> Hrs]. eapply draws_bind.
  { apply (draws_rows _ SnapshotVLAN.id (λ i r, vlan_stored i r ∧
      SnapshotVLAN.snapshot_device_id r = id)). done. }
  intros ? vs [-> Hvs]. eapply draws_bind.
  { apply (draws_rows _ SnapshotNeighbor.id (λ i r, neighbor_stored i r ∧
      SnapshotNeighbor.snapshot_device_id r = id)). done. }
  intros ? ns [-> Hns]. apply draws_ret.
  eexists {| its_interfaces := rs; its_vlans := vs; its_neighbors := ns |}.
  split; [reflexivity|]. split; [unfold device_ids; cbn; by rewrite app_nil_r|].
  split; cbn; [split; [by eapply validate_dump|]| | | |]; done.
Qed.

(** ** A live snapshot among the tables *)

Definition snapshot_tables (record : SnapshotRow) (bs : list DeviceRows) : Tables :=
  fold_left tables_app (map device_tables bs) (set_t_snapshots [record] no_rows).

(** The record has the fields of the snapshot, and its payload reads as the snapshot. *)
Definition snapshot_stored (snapshot : Live.LiveInventorySnapshot) (run_id : option UUID)
    (tenant : string) (r : SnapshotRow) : Prop :=
  (∀ fresh, InventorySnapshotModel fresh (Snapshot.payload r) = Ret snapshot) ∧
  r = {| Snapshot.id := Snapshot.id r; Snapshot.created_at := Snapshot.created_at r;
    Snapshot.source := "live"; Snapshot.tenant_id := tenant;
    Snapshot.source_label := Live.source snapshot; Snapshot.captured_at := Live.captured_at snapshot;
    Snapshot.schema_version := Live.version snapshot; Snapshot.discovery_run_id := run_id;
    Snapshot.payload := Snapshot.payload r |}.

Lemma plain_devices snapshot d : plain (dump_live snapshot) = true → d ∈ Live.devices snapshot →
  plain (dump d) = true.
Proof.
  intros Hp Hd. unfold dump_live in Hp. cbn [plain forallb snd map fst] in Hp.
  apply andb_true_iff in Hp as [_ [Hp _]%andb_true_iff].
  change (forallb plain (map dump (Live.devices snapshot)) = true) in Hp.
  apply forallb_Forall_true, Forall_map in Hp. by apply (proj1 (Forall_forall _ _) Hp).
Qed.

Lemma held_devices snapshot d : held_live snapshot = true → d ∈ Live.devices snapshot → held d = true.
Proof.
  intros [[[Hh _]%andb_true_iff _]%andb_true_iff _]%andb_true_iff Hd.
  apply (proj1 (forallb_forall _ _) Hh). by apply list_elem_of_In.
Qed.

Lemma adds_live_snapshot snapshot run_id tenant :
  held_live snapshot = true → plain (dump_live snapshot) = true →
  adds (add_live_snapshot snapshot run_id tenant) (λ ids T record, ∃ bs,
    T = snapshot_tables record bs ∧ ids = Snapshot.id record :: concat (map device_ids bs) ∧
    Forall2 (rows_of_device (Snapshot.id record)) (Live.devices snapshot) bs ∧
    snapshot_stored snapshot run_id tenant record).
Proof.
  intros Hheld Hplain. unfold add_live_snapshot.
  eapply adds_bind; [apply draws_fresh|]. intros ? id ->.
  eapply adds_bind; [apply draws_now|]. intros ? created ->.
  eapply adds_bind; [by apply draws_json_safe|]. intros ? payload [-> Hs]. cbv zeta.
  eapply adds_bind.
  { apply draws_map_m. intros d Hd.
    apply draws_device_record; [by eapply held_devices|by eapply plain_devices]. }
  intros ? Ts (idss & -> & HTs). apply adds_rows. cbn [Snapshot.id].
  apply Forall3_blocks in HTs as (bs & -> & -> & Hbs).
  exists bs. split; [done|]. split; [by rewrite app_nil_r|]. split; [done|].
  split; [intros; by apply live_read_back|done].
Qed.

(** *** Reading it back *)

Lemma snapshot_tables_eq record bs : snapshot_tables record bs = {|
  t_runs := []; t_snapshots := [record]; t_devices := map its_row bs;
  t_interfaces := concat (map its_interfaces bs); t_vlans := concat (map its_vlans bs);
  t_neighbors := concat (map its_neighbors bs); t_comparisons := []; t_findings := []; t_evidence := [];
  t_sync_jobs := [] |}.
Proof.
  assert (∀ T, fold_left tables_app (map device_tables bs) T = tables_app T {|
    t_runs := []; t_snapshots := []; t_devices := map its_row bs;
    t_interfaces := concat (map its_interfaces bs); t_vlans := concat (map its_vlans bs);
    t_neighbors := concat (map its_neighbors bs); t_comparisons := []; t_findings := []; t_evidence := [];
    t_sync_jobs := [] |}) as Hfold; [|by apply Hfold].
  induction bs as [|b bs IH]; intros []; cbn; [|rewrite IH];
    unfold tables_app; cbn; by rewrite <- ?app_assoc, ?app_nil_r.
Qed.

(** The devices of a snapshot that a request is about. *)
Definition asked_device (device_id : option string) (d : DeviceSnapshot.DeviceSnapshot) : bool :=
  match device_id with
  | Some id => negb (str_truthy id) || (DeviceSnapshot.device_id d ≟ id)
  | None => true
  end.

Lemma asked_device_row device_id d r : device_stored d r → with_device_id device_id r = asked_device device_id d.
Proof. by intros [_ ->]. Qed.

(** Identifiers that no row has yet. *)
Record fresh_ids (t : Tables) (ids : list UUID) : Prop := {
  fresh_distinct : NoDup ids;
  fresh_unused l u : l ∈ ids_of t → u ∈ ids → u ∉ l;
}.

Lemma refers_iff {A B} (key : A → UUID) rows (id : B → UUID) ps :
  refers key rows id ps = true ↔ ∀ a, a ∈ rows → key a ∈ map id ps.
Proof.
  unfold refers. rewrite forallb_forall. split; intros Hr a Ha.
  - apply list_elem_of_In in Ha. by apply mem_true, Hr.
  - apply list_elem_of_In in Ha. by apply mem_true, Hr.
Qed.

(** Every key is distinct in its table, and refers to a row that exists. *)
Record well_kept (t : Tables) : Prop := {
  kept_ids : ∀ l, l ∈ ids_of t → NoDup l;
  kept_runs : ∀ s r, s ∈ t_snapshots t → Snapshot.discovery_run_id s = Some r → r ∈ map Run.id (t_runs t);
  kept_devices : ∀ d, d ∈ t_devices t → SnapshotDevice.snapshot_id d ∈ map Snapshot.id (t_snapshots t);
  kept_interfaces : ∀ i, i ∈ t_interfaces t →
    SnapshotInterface.snapshot_device_id i ∈ map SnapshotDevice.id (t_devices t);
  kept_vlans : ∀ v, v ∈ t_vlans t → SnapshotVLAN.snapshot_device_id v ∈ map SnapshotDevice.id (t_devices t);
  kept_neighbors : ∀ n, n ∈ t_neighbors t →
    SnapshotNeighbor.snapshot_device_id n ∈ map SnapshotDevice.id (t_devices t);
  kept_expected : ∀ c, c ∈ t_comparisons t →
    ComparisonRow.expected_snapshot_id c ∈ map Snapshot.id (t_snapshots t);
  kept_observed : ∀ c, c ∈ t_comparisons t →
    ComparisonRow.observed_snapshot_id c ∈ map Snapshot.id (t_snapshots t);
  kept_findings : ∀ f, f ∈ t_findings t →
    FindingRow.comparison_result_id f ∈ map ComparisonRow.id (t_comparisons t);
  kept_evidence : ∀ e, e ∈ t_evidence t →
    EvidenceRow.finding_record_id e ∈ map FindingRow.id (t_findings t);
}.

Lemma sound_iff t : sound t = true ↔ well_kept t.
Proof.
  assert (forallb (λ s, match Snapshot.discovery_run_id s with
                | Some r => mem r (map Run.id (t_runs t)) | None => true end) (t_snapshots t) = true ↔
    ∀ s r, s ∈ t_snapshots t → Snapshot.discovery_run_id s = Some r → r ∈ map Run.id (t_runs t)) as Hruns.
  { rewrite forallb_forall. split.
    - intros Hr s r Hs%list_elem_of_In E. specialize (Hr _ Hs). rewrite E in Hr. by apply mem_true.
    - intros Hr s Hs%list_elem_of_In. destruct (Snapshot.discovery_run_id s) eqn:E; [|done].
      apply mem_true. eauto. }
  assert (forallb (λ ids, bool_decide (NoDup ids)) (ids_of t) = true ↔ ∀ l, l ∈ ids_of t → NoDup l) as Hids.
  { rewrite forallb_forall. split; intros Hd l Hl%list_elem_of_In.
    - by eapply bool_decide_eq_true_1, Hd.
    - by eapply bool_decide_eq_true_2, Hd. }
  unfold sound, foreign_keys. rewrite !andb_true_iff, Hruns, Hids, !refers_iff.
  split; [intros; destruct_and?; by split|intros []; by split_and!].
Qed.

(** What an unrelated row refers to stays found when rows are added. *)
Lemma kept_app t T : well_kept t →
  (∀ l, l ∈ ids_of (tables_app t T) → NoDup l) →
  (∀ s r, s ∈ t_snapshots T → Snapshot.discovery_run_id s = Some r → r ∈ map Run.id (t_runs t ++ t_runs T)) →
  (∀ d, d ∈ t_devices T → SnapshotDevice.snapshot_id d ∈ map Snapshot.id (t_snapshots t ++ t_snapshots T)) →
  (∀ i, i ∈ t_interfaces T →
    SnapshotInterface.snapshot_device_id i ∈ map SnapshotDevice.id (t_devices t ++ t_devices T)) →
  (∀ v, v ∈ t_vlans T → SnapshotVLAN.snapshot_device_id v ∈ map SnapshotDevice.id (t_devices t ++ t_devices T)) →
  (∀ n, n ∈ t_neighbors T →
    SnapshotNeighbor.snapshot_device_id n ∈ map SnapshotDevice.id (t_devices t ++ t_devices T)) →
  (∀ c, c ∈ t_comparisons T →
    ComparisonRow.expected_snapshot_id c ∈ map Snapshot.id (t_snapshots t ++ t_snapshots T)) →
  (∀ c, c ∈ t_comparisons T →
    ComparisonRow.observed_snapshot_id c ∈ map Snapshot.id (t_snapshots t ++ t_snapshots T)) →
  (∀ f, f ∈ t_findings T →
    FindingRow.comparison_result_id f ∈ map ComparisonRow.id (t_comparisons t ++ t_comparisons T)) →
  (∀ e, e ∈ t_evidence T →
    EvidenceRow.finding_record_id e ∈ map FindingRow.id (t_findings t ++ t_findings T)) →
  well_kept (tables_app t T).
Proof.
  intros [] **. split; cbn; try done;
    intros ? ** ; repeat match goal with H : _ ∈ _ ++ _ |- _ => apply elem_of_app in H as [?|?] end; eauto;
    rewrite map_app, elem_of_app; left; eauto.
Qed.

Lemma ids_of_app t T l : l ∈ ids_of (tables_app t T) →
  ∃ a b, l = a ++ b ∧ a ∈ ids_of t ∧ b ∈ ids_of T.
Proof.
  intros Hl. unfold ids_of in Hl. cbn [tables_app t_runs t_snapshots t_devices t_interfaces t_vlans
    t_neighbors t_comparisons t_findings t_evidence t_sync_jobs] in Hl. rewrite !map_app in Hl.
  repeat (apply elem_of_cons in Hl as [->|Hl]; [eexists _, _; split; [reflexivity|]; set_solver|]).
  by apply elem_of_nil in Hl.
Qed.

Lemma fresh_ids_app t T ids : (∀ l, l ∈ ids_of t → NoDup l) → fresh_ids t ids →
  (∀ l, l ∈ ids_of T → sublist l ids) → ∀ l, l ∈ ids_of (tables_app t T) → NoDup l.
Proof.
  intros Hk [Hnd Hun] Hsub l (a & b & -> & Ha & Hb)%ids_of_app. apply NoDup_app.
  pose proof (Hsub _ Hb) as Hs. split; [by apply Hk|]. split; [|by eapply sublist_NoDup].
  intros u Hu Hub. eapply Hun; [exact Ha| |exact Hu]. eapply elem_of_submseteq; [exact Hub|].
  by apply sublist_submseteq.
Qed.

Lemma sublist_concat_map {A B} (f g : A → list B) l :
  (∀ x, sublist (f x) (g x)) → sublist (concat (map f l)) (concat (map g l)).
Proof. intros Hs. induction l as [|x l IH]; [done|]. cbn. by apply sublist_app. Qed.

Lemma map_concat_map {A B C} (f : B → C) (g : A → list B) l :
  map f (concat (map g l)) = concat (map (λ x, map f (g x)) l).
Proof. by rewrite concat_map, map_map. Qed.

Section ReadBack.
Context (t : Tables) (record : SnapshotRow) (bs : list DeviceRows) (devices : list DeviceSnapshot.DeviceSnapshot).
Hypothesis Hkept : well_kept t.
Hypothesis Hfresh : fresh_ids t (Snapshot.id record :: concat (map device_ids bs)).
Hypothesis Hrows : Forall2 (rows_of_device (Snapshot.id record)) devices bs.

Let t' := tables_app t (snapshot_tables record bs).

Lemma snapshot_ids_sublist l : l ∈ ids_of (snapshot_tables record bs) →
  sublist l (Snapshot.id record :: concat (map device_ids bs)).
Proof.
  rewrite snapshot_tables_eq. unfold ids_of. cbn.
  assert (∀ {C} (f : DeviceRows → list C) (id : C → UUID), (∀ b, sublist (map id (f b)) (device_ids b)) →
    sublist (map id (concat (map f bs))) (Snapshot.id record :: concat (map device_ids bs))) as Hsub.
  { intros C f id Hf. rewrite map_concat_map. apply sublist_cons. by apply sublist_concat_map. }
  assert (map its_row bs = concat (map (λ b, [its_row b]) bs)) as ->.
  { clear. induction bs as [|b l IH]; [done|]. cbn. by rewrite IH. }
  intros Hl. repeat (apply elem_of_cons in Hl as [->|Hl]); [..|by apply elem_of_nil in Hl];
    try apply sublist_nil_l; try apply Hsub; unfold device_ids; intros; cbn;
    first [ apply sublist_skip, sublist_nil_l | apply sublist_cons ];
    eauto using sublist_inserts_l, sublist_inserts_r.
Qed.

Lemma snapshot_id_fresh : Snapshot.id record ∉ map Snapshot.id (t_snapshots t).
Proof. eapply fresh_unused; [done| |by left]. unfold ids_of. set_solver. Qed.

Lemma device_id_fresh b : b ∈ bs → SnapshotDevice.id (its_row b) ∉ map SnapshotDevice.id (t_devices t).
Proof.
  intros Hb. eapply fresh_unused; [done|unfold ids_of; set_solver|]. right.
  apply list_elem_of_In, in_concat. exists (device_ids b). split; [|by left].
  by apply in_map, list_elem_of_In.
Qed.

Lemma devices_distinct : NoDup (map SnapshotDevice.id (map its_row bs)).
Proof.
  eapply sublist_NoDup; [by eapply fresh_distinct|apply snapshot_ids_sublist].
  rewrite snapshot_tables_eq. unfold ids_of. cbn. set_solver.
Qed.

Lemma row_of_snapshot b : b ∈ bs → ∃ d, d ∈ devices ∧ rows_of_device (Snapshot.id record) d b.
Proof. by apply Forall2_elem_r. Qed.

Lemma devices_in_stored device_id :
  devices_in t' (Snapshot.id record) device_id = List.filter (with_device_id device_id) (map its_row bs).
Proof.
  unfold devices_in, t'. rewrite snapshot_tables_eq. cbn. rewrite List.filter_app.
  rewrite (filter_all_false _ (t_devices t)).
  - cbn. apply List.filter_ext_in. intros d (b & <- & Hb%list_elem_of_In)%in_map_iff.
    destruct (row_of_snapshot b Hb) as (d & _ & []). by rewrite rows_snapshot0, Prelude.eqb_refl.
  - intros d Hd. apply andb_false_iff. left. apply Prelude.eqb_false. intros E.
    apply snapshot_id_fresh. rewrite <- E. by eapply kept_devices.
Qed.

Lemma devices_in_other other device_id : other ≠ Snapshot.id record →
  devices_in t' other device_id = devices_in t other device_id.
Proof.
  intros Ho. unfold devices_in, t'. rewrite snapshot_tables_eq. cbn. rewrite List.filter_app.
  rewrite (filter_all_false _ (map its_row bs)); [apply app_nil_r|].
  intros d (b & <- & Hb%list_elem_of_In)%list_elem_of_In%in_map_iff.
  destruct (row_of_snapshot b Hb) as (d & _ & []). apply andb_false_iff. left.
  apply Prelude.eqb_false. congruence.
Qed.

(** The interfaces, VLANs and neighbours alike: [mine] are those of one device. *)
Section Kids.
Context {C : Type} (key : C → UUID) (kids : Tables → list C) (mine : DeviceRows → list C).
Hypothesis Hold : ∀ c, c ∈ kids t → key c ∈ map SnapshotDevice.id (t_devices t).
Hypothesis Happ : kids t' = kids t ++ concat (map mine bs).
Hypothesis Hmine : ∀ b c, b ∈ bs → c ∈ mine b → key c = SnapshotDevice.id (its_row b).

Lemma kid_of_row c : c ∈ concat (map mine bs) → ∃ b, b ∈ bs ∧ key c = SnapshotDevice.id (its_row b).
Proof.
  intros (l & Hl & Hc)%list_elem_of_In%in_concat. apply in_map_iff in Hl as (b & <- & Hb).
  apply list_elem_of_In in Hb, Hc. exists b. split; [done|by apply Hmine].
Qed.

Lemma children_in_stored device_id :
  children_in key kids t' (Snapshot.id record) device_id
  = concat (map (λ b, if with_device_id device_id (its_row b) then mine b else []) bs).
Proof.
  unfold children_in. rewrite devices_in_stored, Happ, List.filter_app, filter_all_false.
  - cbn. set (blocks := map (λ b, (its_row b, mine b)) bs).
    replace (map its_row bs) with (map fst blocks) by (unfold blocks; by rewrite map_map).
    replace (map mine bs) with (map snd blocks) by (unfold blocks; by rewrite map_map).
    setoid_rewrite (filter_owned SnapshotDevice.id key (with_device_id device_id) blocks).
    + unfold blocks. by rewrite map_map.
    + unfold blocks. rewrite !map_map. cbn. pose proof devices_distinct as Hd. by rewrite map_map in Hd.
    + unfold blocks. apply Forall_map, Forall_forall. intros b Hb. apply Forall_forall. intros c Hc.
      by apply Hmine.
  - intros c Hc. apply not_true_iff_false. intros (d & Hd & Hk)%existsb_exists. pybool.
    apply filter_In in Hd as [(b & <- & Hb%list_elem_of_In)%in_map_iff _].
    apply (device_id_fresh b Hb). rewrite Hk. by apply Hold.
Qed.

Lemma children_in_other other device_id : other ≠ Snapshot.id record →
  children_in key kids t' other device_id = children_in key kids t other device_id.
Proof.
  intros Ho. unfold children_in. rewrite devices_in_other, Happ, List.filter_app by done.
  rewrite (filter_all_false _ (concat _)); [apply app_nil_r|].
  intros c (b & Hb & Hc)%kid_of_row. apply not_true_iff_false. intros (d & Hd & Hk)%existsb_exists. pybool.
  apply (device_id_fresh b Hb). rewrite <- Hc, <- Hk. apply filter_In in Hd as [Hd _].
  by apply list_elem_of_In, in_map.
Qed.

Lemma children_stored {A} (stored : A → C → Prop) (parts : DeviceSnapshot.DeviceSnapshot → list A) device_id :
  (∀ d b, rows_of_device (Snapshot.id record) d b → Forall2 stored (parts d) (mine b)) →
  Forall2 stored
    (concat (map parts (List.filter (asked_device device_id) devices)))
    (children_in key kids t' (Snapshot.id record) device_id).
Proof.
  intros Hs. rewrite children_in_stored. revert Hrows. generalize devices bs. clear -Hs.
  induction 1 as [|d b ds bs Hb _ IH]; [constructor|]. cbn.
  rewrite (asked_device_row device_id d) by apply Hb. destruct (asked_device device_id d); [|done].
  by apply Forall2_app; [apply Hs|].
Qed.
End Kids.

Lemma devices_stored device_id :
  Forall2 device_stored
    (List.filter (asked_device device_id) devices)
    (devices_in t' (Snapshot.id record) device_id).
Proof.
  rewrite devices_in_stored. revert Hrows. generalize devices bs. clear.
  induction 1 as [|d b ds bs Hb _ IH]; [constructor|]. cbn.
  rewrite (asked_device_row device_id d) by apply Hb.
  destruct (asked_device device_id d); [constructor; [apply Hb|done]|done].
Qed.

Lemma interface_owner b c : b ∈ bs → c ∈ its_interfaces b →
  SnapshotInterface.snapshot_device_id c = SnapshotDevice.id (its_row b).
Proof.
  intros (d & _ & [])%row_of_snapshot Hc. by edestruct (Forall2_elem_r _ _ _ _ rows_interfaces0 Hc) as (? & _ & _ & ?).
Qed.
Lemma vlan_owner b c : b ∈ bs → c ∈ its_vlans b →
  SnapshotVLAN.snapshot_device_id c = SnapshotDevice.id (its_row b).
Proof.
  intros (d & _ & [])%row_of_snapshot Hc. by edestruct (Forall2_elem_r _ _ _ _ rows_vlans0 Hc) as (? & _ & _ & ?).
Qed.
Lemma neighbor_owner b c : b ∈ bs → c ∈ its_neighbors b →
  SnapshotNeighbor.snapshot_device_id c = SnapshotDevice.id (its_row b).
Proof.
  intros (d & _ & [])%row_of_snapshot Hc. by edestruct (Forall2_elem_r _ _ _ _ rows_neighbors0 Hc) as (? & _ & _ & ?).
Qed.

Lemma interfaces_added : t_interfaces t' = t_interfaces t ++ concat (map its_interfaces bs).
Proof. unfold t'. by rewrite snapshot_tables_eq. Qed.
Lemma interfaces_stored device_id :
  Forall2 interface_stored (concat (map DeviceSnapshot.interfaces (List.filter (asked_device device_id) devices)))
    (children_in SnapshotInterface.snapshot_device_id t_interfaces t' (Snapshot.id record) device_id).
Proof.
  apply (children_stored _ _ its_interfaces); [by apply kept_interfaces|apply interfaces_added|apply interface_owner|].
  intros d b []. by eapply Forall2_impl; [eassumption|intros ? ? []].
Qed.
Lemma interfaces_other other device_id : other ≠ Snapshot.id record →
  children_in SnapshotInterface.snapshot_device_id t_interfaces t' other device_id
  = children_in SnapshotInterface.snapshot_device_id t_interfaces t other device_id.
Proof. apply (children_in_other _ _ its_interfaces); [apply interfaces_added|apply interface_owner]. Qed.

Lemma vlans_added : t_vlans t' = t_vlans t ++ concat (map its_vlans bs).
Proof. unfold t'. by rewrite snapshot_tables_eq. Qed.
Lemma vlans_stored device_id :
  Forall2 vlan_stored (concat (map DeviceSnapshot.vlans (List.filter (asked_device device_id) devices)))
    (children_in SnapshotVLAN.snapshot_device_id t_vlans t' (Snapshot.id record) device_id).
Proof.
  apply (children_stored _ _ its_vlans); [by apply kept_vlans|apply vlans_added|apply vlan_owner|].
  intros d b []. by eapply Forall2_impl; [eassumption|intros ? ? []].
Qed.
Lemma vlans_other other device_id : other ≠ Snapshot.id record →
  children_in SnapshotVLAN.snapshot_device_id t_vlans t' other device_id
  = children_in SnapshotVLAN.snapshot_device_id t_vlans t other device_id.
Proof. apply (children_in_other _ _ its_vlans); [apply vlans_added|apply vlan_owner]. Qed.

Lemma neighbors_added : t_neighbors t' = t_neighbors t ++ concat (map its_neighbors bs).
Proof. unfold t'. by rewrite snapshot_tables_eq. Qed.
Lemma neighbors_stored device_id :
  Forall2 neighbor_stored (concat (map DeviceSnapshot.neighbors (List.filter (asked_device device_id) devices)))
    (children_in SnapshotNeighbor.snapshot_device_id t_neighbors t' (Snapshot.id record) device_id).
Proof.
  apply (children_stored _ _ its_neighbors); [by apply kept_neighbors|apply neighbors_added|apply neighbor_owner|].
  intros d b []. by eapply Forall2_impl; [eassumption|intros ? ? []].
Qed.
Lemma neighbors_other other device_id : other ≠ Snapshot.id record →
  children_in SnapshotNeighbor.snapshot_device_id t_neighbors t' other device_id
  = children_in SnapshotNeighbor.snapshot_device_id t_neighbors t other device_id.
Proof. apply (children_in_other _ _ its_neighbors); [apply neighbors_added|apply neighbor_owner]. Qed.

(** The tables stay well kept, so that a commit succeeds. *)
Lemma snapshot_kept :
  (∀ r, Snapshot.discovery_run_id record = Some r → r ∈ map Run.id (t_runs t)) → well_kept t'.
Proof.
  intros Hrun.
  assert (∀ C (key : C → UUID) mine, (∀ b c, b ∈ bs → c ∈ mine b → key c = SnapshotDevice.id (its_row b)) →
    ∀ c, c ∈ concat (map mine bs) → key c ∈ map SnapshotDevice.id (t_devices t ++ map its_row bs)) as Hkids.
  { intros C key mine Hm c (b & Hb & ->)%(kid_of_row key mine Hm).
    rewrite map_app, elem_of_app, map_map. right.
    by apply (list_elem_of_fmap_2 (λ b, SnapshotDevice.id (its_row b))). }
  apply kept_app; [done| |..]; rewrite ?snapshot_tables_eq; cbn; try (by intros ? ?%elem_of_nil).
  - eapply fresh_ids_app; [by apply kept_ids|done|]. rewrite <- snapshot_tables_eq. apply snapshot_ids_sublist.
  - intros ? r ->%list_elem_of_singleton Hr. rewrite app_nil_r. by apply Hrun.
  - intros d (b & <- & Hb%list_elem_of_In)%list_elem_of_In%in_map_iff.
    destruct (row_of_snapshot b Hb) as (d & _ & []). rewrite rows_snapshot0, map_app. set_solver.
  - apply Hkids, interface_owner.
  - apply Hkids, vlan_owner.
  - apply Hkids, neighbor_owner.
Qed.
End ReadBack.

(** The identifiers still to be drawn differ, and no row has one of them. *)
Record fresh_supply (s : HistoryState) : Prop := {
  supply_distinct i j : history_uuids s i = history_uuids s j → i = j;
  supply_unused k l : (history_drawn s <= k)%nat → l ∈ ids_of (tables s) → history_uuids s k ∉ l;
}.

Lemma supply_fresh s k : fresh_supply s →
  fresh_ids (tables s) (map (history_uuids s) (seq (history_drawn s) k)).
Proof.
  intros [Hinj Hun]. split.
  - apply NoDup_fmap_2_strong; [|apply NoDup_seq]. intros i j _ _. apply Hinj.
  - intros l u Hl (i & <- & Hi%list_elem_of_In)%list_elem_of_In%in_map_iff.
    apply elem_of_seq in Hi as [? _]. by apply Hun.
Qed.

Lemma find_stored {A} (key : A → UUID) rows x : key x ∉ map key rows →
  List.find (λ r, key r ≟ key x) (rows ++ [x]) = Some x.
Proof.
  induction rows as [|r rows IH]; cbn; [by rewrite Prelude.eqb_refl|].
  rewrite not_elem_of_cons. intros [Hne Hr]. destruct (key r ≟ key x) eqn:E; pybool; [congruence|].
  by apply IH.
Qed.

(** C16. A stored live snapshot is the snapshot: its payload validates back to it whatever
    order the database keeps the items in, its devices, interfaces, VLANs and neighbours
    are read in order with every field they have, all of them or those of one device;
    exactly one snapshot row is added, no run, comparison, finding, evidence or job, and no
    device, interface, VLAN or neighbour but those that are read back for it; what other
    snapshots read back is as before, and the commit succeeds. *)
Theorem stored_snapshot_reads_back snapshot run_id tenant s :
  well_kept (tables s) → fresh_supply s →
  held_live snapshot = true → plain (dump_live snapshot) = true →
  (∀ r, run_id = Some r → r ∈ map Run.id (t_runs (tables s))) →
  ∃ record s', add_live_snapshot snapshot run_id tenant s = (Ret record, s') ∧
    snapshot_stored snapshot run_id tenant record ∧
    get_snapshot (Snapshot.id record) s' = (Ret (Some record), s') ∧
    (∃ ds rs vs ns,
      get_snapshot_devices (Snapshot.id record) None s' = (Ret ds, s') ∧
      get_snapshot_interfaces (Snapshot.id record) None s' = (Ret rs, s') ∧
      get_snapshot_vlans (Snapshot.id record) None s' = (Ret vs, s') ∧
      get_snapshot_neighbors (Snapshot.id record) None s' = (Ret ns, s') ∧
      tables s' = tables_app (tables s) (no_rows |> set_t_snapshots [record] |> set_t_devices ds
        |> set_t_interfaces rs |> set_t_vlans vs |> set_t_neighbors ns)) ∧
    (∀ device_id, let asked := List.filter (asked_device device_id) (Live.devices snapshot) in
      ∃ ds rs vs ns,
        get_snapshot_devices (Snapshot.id record) device_id s' = (Ret ds, s') ∧
        get_snapshot_interfaces (Snapshot.id record) device_id s' = (Ret rs, s') ∧
        get_snapshot_vlans (Snapshot.id record) device_id s' = (Ret vs, s') ∧
        get_snapshot_neighbors (Snapshot.id record) device_id s' = (Ret ns, s') ∧
        Forall2 device_stored asked ds ∧
        Forall2 interface_stored (concat (map DeviceSnapshot.interfaces asked)) rs ∧
        Forall2 vlan_stored (concat (map DeviceSnapshot.vlans asked)) vs ∧
        Forall2 neighbor_stored (concat (map DeviceSnapshot.neighbors asked)) ns) ∧
    (∀ other device_id, other ≠ Snapshot.id record →
      (get_snapshot_devices other device_id s').1 = (get_snapshot_devices other device_id s).1 ∧
      (get_snapshot_interfaces other device_id s').1 = (get_snapshot_interfaces other device_id s).1 ∧
      (get_snapshot_vlans other device_id s').1 = (get_snapshot_vlans other device_id s).1 ∧
      (get_snapshot_neighbors other device_id s').1 = (get_snapshot_neighbors other device_id s).1) ∧
    commit_history s' = (Ret tt, set_saved (tables s') s').
Proof.
  intros Hk Hfree Hheld Hplain Hrun.
  destruct (adds_live_snapshot snapshot run_id tenant Hheld Hplain s)
    as (record & s' & k & T & E & Ht & _ & bs & -> & Hids & Hrows & Hr).
  pose proof (supply_fresh s k Hfree) as Hfresh. rewrite Hids in Hfresh.
  assert (∀ r, Snapshot.discovery_run_id record = Some r → r ∈ map Run.id (t_runs (tables s))) as Hrun'.
  { destruct Hr as [_ ->]. apply Hrun. }
  pose proof (snapshot_kept _ _ _ _ Hk Hfresh Hrows Hrun') as Hk'.
  exists record, s'. split; [done|]. split; [done|].
  assert (Snapshot.id record ∉ map Snapshot.id (t_snapshots (tables s))) as Hid by by eapply snapshot_id_fresh.
  unfold get_snapshot, get_snapshot_devices, get_snapshot_interfaces, get_snapshot_vlans,
    get_snapshot_neighbors, history_query, gets, commit_history. cbn. rewrite !Ht.
  split; [by rewrite snapshot_tables_eq; cbn; rewrite find_stored|].
  split.
  { eexists _, _, _, _. do 4 (split; [done|]).
    erewrite devices_in_stored, (children_in_stored _ _ _ _ Hk Hfresh Hrows _ t_interfaces its_interfaces),
      (children_in_stored _ _ _ _ Hk Hfresh Hrows _ t_vlans its_vlans),
      (children_in_stored _ _ _ _ Hk Hfresh Hrows _ t_neighbors its_neighbors)
      by eauto using kept_interfaces, kept_vlans, kept_neighbors, interfaces_added, vlans_added,
        neighbors_added, interface_owner, vlan_owner, neighbor_owner.
    rewrite snapshot_tables_eq. cbn. by rewrite filter_all_true. }
  split; [|split; [|by rewrite (proj2 (sound_iff _) Hk')]].
  - intros device_id. eexists _, _, _, _. do 4 (split; [done|]).
    by split_and!; [eapply devices_stored|eapply interfaces_stored|eapply vlans_stored|eapply neighbors_stored].
  - intros other device_id Ho.
    split_and!; f_equal; [by eapply devices_in_other|by eapply interfaces_other|
      by eapply vlans_other|by eapply neighbors_other].
Qed.

(** ** A comparison and its rows *)

Definition evidence_stored (drawn : UUID * datetime) (e : Evidence) (r : EvidenceRecord) : Prop :=
  same_items (JDict (Comparison.details e)) (EvidenceRow.details r) ∧
  r = {| EvidenceRow.id := EvidenceRow.id r; EvidenceRow.finding_record_id := EvidenceRow.finding_record_id r;
    EvidenceRow.evidence_id := drawn.1; EvidenceRow.source := Comparison.source e;
    EvidenceRow.description := evidence_description e; EvidenceRow.reference := reference e;
    EvidenceRow.captured_at := drawn.2; EvidenceRow.details := EvidenceRow.details r |}.

Definition finding_stored (finding_id : UUID) (f : Finding) (r : FindingRecord) : Prop :=
  same_items (JDict (Comparison.expected_state f)) (FindingRow.expected_state r) ∧
  same_items (JDict (Comparison.observed_state f)) (FindingRow.observed_state r) ∧
  r = {| FindingRow.id := FindingRow.id r; FindingRow.created_at := FindingRow.created_at r;
    FindingRow.comparison_result_id := FindingRow.comparison_result_id r;
    FindingRow.finding_id := finding_id; FindingRow.rule_id := Comparison.rule_id f;
    FindingRow.title := Comparison.title f; FindingRow.severity := SeverityLevel_value (level (severity f));
    FindingRow.description := finding_description f;
    FindingRow.expected_state := FindingRow.expected_state r;
    FindingRow.observed_state := FindingRow.observed_state r |}.

Definition plain_finding (f : Finding) : bool :=
  plain (JDict (Comparison.expected_state f)) && plain (JDict (Comparison.observed_state f))
  && forallb (λ e, plain (JDict (Comparison.details e))) (Comparison.evidence f).

(** The elements of a list with their positions, as [enumerate]. *)
Definition numbered {A} (l : list A) : list (nat * A) := zip (seq 0 (length l)) l.

Lemma numbered_elem {A} (l : list A) p : p ∈ numbered l → p.2 ∈ l.
Proof. destruct p. intros ?%list_elem_of_In%in_combine_r. by apply list_elem_of_In. Qed.

Record FindingRows := { its_finding : FindingRecord; its_evidence : list EvidenceRecord }.

Definition finding_tables (b : FindingRows) : Tables :=
  no_rows |> set_t_findings [its_finding b] |> set_t_evidence (its_evidence b).
Definition finding_ids (b : FindingRows) : list UUID :=
  FindingRow.id (its_finding b) :: map EvidenceRow.id (its_evidence b).

Record rows_of_finding (identity : ResultIdentity) (result : UUID) (p : nat * Finding) (b : FindingRows) : Prop := {
  rows_finding : finding_stored (finding_identity identity p.1) p.2 (its_finding b);
  rows_result : FindingRow.comparison_result_id (its_finding b) = result;
  rows_evidence : Forall2 (λ q r, evidence_stored (evidence_identity identity p.1 q.1) q.2 r ∧
    EvidenceRow.finding_record_id r = FindingRow.id (its_finding b))
    (numbered (Comparison.evidence p.2)) (its_evidence b);
}.

Lemma draws_evidence_row finding drawn e : plain (JDict (Comparison.details e)) = true →
  draws (evidence_row finding drawn e) (λ ids r, ids = [EvidenceRow.id r] ∧
    evidence_stored drawn e r ∧ EvidenceRow.finding_record_id r = finding).
Proof.
  intros Hp. eapply draws_bind; [apply draws_fresh|]. intros ? id ->.
  eapply draws_bind; [by apply draws_json_safe|]. intros ? details [-> Hs]. by apply draws_ret.
Qed.

Lemma draws_finding_rows identity result p : plain_finding p.2 = true →
  draws (finding_rows identity result p)
    (λ ids T, ∃ b, T = finding_tables b ∧ ids = finding_ids b ∧ rows_of_finding identity result p b).
Proof.
  destruct p as [n f]. intros [[He Ho]%andb_true_iff Hev]%andb_true_iff.
  eapply draws_bind; [apply draws_fresh|]. intros ? id ->.
  eapply draws_bind; [apply draws_now|]. intros ? created ->.
  eapply draws_bind; [by apply draws_json_safe|]. intros ? expected [-> Hse].
  eapply draws_bind; [by apply draws_json_safe|]. intros ? observed [-> Hso].
  eapply draws_bind.
  { apply (draws_map_m _ _ (λ q ids r, ids = [EvidenceRow.id r] ∧
      evidence_stored (evidence_identity identity n q.1) q.2 r ∧ EvidenceRow.finding_record_id r = id)).
    intros [k e] Hq%numbered_elem. apply draws_evidence_row.
    by apply (proj1 (forallb_forall _ _) Hev), list_elem_of_In. }
  intros ? evidence (idss & -> & Hs). apply draws_ret.
  eexists {| its_evidence := evidence |}. split; [reflexivity|].
  assert (concat idss = map EvidenceRow.id evidence ∧ Forall2 (λ q r,
    evidence_stored (evidence_identity identity n q.1) q.2 r ∧ EvidenceRow.finding_record_id r = id)
    (numbered (Comparison.evidence f)) evidence) as [Hids Hrows].
  { unfold numbered. clear -Hs.
    induction Hs as [|q us r qs idss rs [-> Hq] _ [IH IHs]]; [done|]. cbn in IH |- *. rewrite IH.
    split; [done|by constructor]. }
  split; [unfold finding_ids; cbn; by rewrite app_nil_r, Hids|]. by split.
Qed.

Definition comparison_tables (record : ComparisonRecord) (bs : list FindingRows) : Tables :=
  fold_left tables_app (map finding_tables bs) (set_t_comparisons [record] no_rows).

Lemma comparison_tables_eq record bs : comparison_tables record bs = {|
  t_runs := []; t_snapshots := []; t_devices := []; t_interfaces := []; t_vlans := []; t_neighbors := [];
  t_comparisons := [record]; t_findings := map its_finding bs; t_evidence := concat (map its_evidence bs);
  t_sync_jobs := [] |}.
Proof.
  assert (∀ T, fold_left tables_app (map finding_tables bs) T = tables_app T {|
    t_runs := []; t_snapshots := []; t_devices := []; t_interfaces := []; t_vlans := []; t_neighbors := [];
    t_comparisons := []; t_findings := map its_finding bs; t_evidence := concat (map its_evidence bs);
    t_sync_jobs := [] |}) as Hfold; [|by apply Hfold].
  induction bs as [|b bs IH]; intros []; cbn; [|rewrite IH];
    unfold tables_app; cbn; by rewrite <- ?app_assoc, ?app_nil_r.
Qed.

Definition comparison_stored (identity : ResultIdentity) (result : InventoryComparisonResult)
    (expected observed : UUID) (r : ComparisonRecord) : Prop :=
  same_items (dump_metrics (Comparison.metrics result)) (ComparisonRow.metrics r) ∧
  ComparisonRow.expected_snapshot_id r = expected ∧ ComparisonRow.observed_snapshot_id r = observed ∧
  ComparisonRow.compared_at r = result_compared_at identity.

Lemma adds_comparison_result identity result expected observed :
  forallb plain_finding (Comparison.findings result) = true →
  adds (add_comparison_result identity result expected observed) (λ ids T record, ∃ bs,
    T = comparison_tables record bs ∧ ids = ComparisonRow.id record :: concat (map finding_ids bs) ∧
    Forall2 (rows_of_finding identity (ComparisonRow.id record)) (numbered (Comparison.findings result)) bs ∧
    comparison_stored identity result expected observed record).
Proof.
  intros Hp. unfold add_comparison_result.
  eapply adds_bind; [apply draws_fresh|]. intros ? id ->.
  eapply adds_bind; [apply draws_now|]. intros ? created ->.
  eapply adds_bind; [by apply draws_json_safe|]. intros ? metrics [-> Hs]. cbv zeta.
  eapply adds_bind.
  { apply draws_map_m. intros p Hin%numbered_elem. apply draws_finding_rows.
    by apply (proj1 (forallb_forall _ _) Hp), list_elem_of_In. }
  intros ? Ts (idss & -> & HTs). apply adds_rows. cbn [ComparisonRow.id].
  apply Forall3_blocks in HTs as (bs & -> & -> & Hbs).
  exists bs. split; [done|]. split; [by rewrite app_nil_r|]. done.
Qed.

Section Recorded.
Context (t : Tables) (record : ComparisonRecord) (bs : list FindingRows).
Context (identity : ResultIdentity) (fs : list (nat * Finding)).
Hypothesis Hkept : well_kept t.
Hypothesis Hfresh : fresh_ids t (ComparisonRow.id record :: concat (map finding_ids bs)).
Hypothesis Hrows : Forall2 (rows_of_finding identity (ComparisonRow.id record)) fs bs.

Let t' := tables_app t (comparison_tables record bs).

Lemma comparison_ids_sublist l : l ∈ ids_of (comparison_tables record bs) →
  sublist l (ComparisonRow.id record :: concat (map finding_ids bs)).
Proof.
  rewrite comparison_tables_eq. unfold ids_of. cbn.
  assert (map its_finding bs = concat (map (λ b, [its_finding b]) bs)) as ->.
  { clear. induction bs as [|b l IH]; [done|]. cbn. by rewrite IH. }
  rewrite !map_concat_map.
  intros Hl. repeat (apply elem_of_cons in Hl as [->|Hl]); [..|by apply elem_of_nil in Hl];
    try apply sublist_nil_l; try (apply sublist_skip, sublist_nil_l);
    apply sublist_cons, sublist_concat_map; intros b; unfold finding_ids; cbn;
    [apply sublist_skip, sublist_nil_l|by apply sublist_cons].
Qed.

Lemma finding_of_result b : b ∈ bs → ∃ p, p ∈ fs ∧ rows_of_finding identity (ComparisonRow.id record) p b.
Proof. by apply Forall2_elem_r. Qed.

Lemma finding_ids_distinct : NoDup (map (λ b, FindingRow.id (its_finding b)) bs).
Proof.
  rewrite <- (map_map its_finding).
  eapply sublist_NoDup; [by eapply fresh_distinct|apply comparison_ids_sublist].
  rewrite comparison_tables_eq. unfold ids_of. cbn. set_solver.
Qed.

Lemma findings_of_recorded : findings_of t' record = map its_finding bs.
Proof.
  unfold findings_of, t'. rewrite comparison_tables_eq. cbn. rewrite List.filter_app.
  rewrite filter_all_false, filter_all_true; [done| |].
  - intros f (b & <- & Hb%list_elem_of_In)%list_elem_of_In%in_map_iff.
    destruct (finding_of_result b Hb) as (p & _ & []). by apply Prelude.eqb_true.
  - intros f Hf. apply Prelude.eqb_false. intros E.
    eapply (fresh_unused _ _ Hfresh (map ComparisonRow.id (t_comparisons t))); [unfold ids_of; set_solver|by left|].
    rewrite <- E. by apply kept_findings.
Qed.

Lemma finding_id_fresh b : b ∈ bs → FindingRow.id (its_finding b) ∉ map FindingRow.id (t_findings t).
Proof.
  intros Hb. eapply fresh_unused; [done|unfold ids_of; set_solver|]. right.
  apply list_elem_of_In, in_concat. exists (finding_ids b). split; [|by left].
  by apply in_map, list_elem_of_In.
Qed.

Lemma evidence_owner b e : b ∈ bs → e ∈ its_evidence b →
  EvidenceRow.finding_record_id e = FindingRow.id (its_finding b).
Proof.
  intros (p & _ & [])%finding_of_result He.
  by edestruct (Forall2_elem_r _ _ _ _ rows_evidence0 He) as (? & _ & _ & ?).
Qed.

Lemma evidence_of_recorded b : b ∈ bs → evidence_of t' (its_finding b) = its_evidence b.
Proof.
  intros Hb. unfold evidence_of, t'. rewrite comparison_tables_eq. cbn. rewrite List.filter_app.
  rewrite filter_all_false.
  - cbn. apply (filter_mine (λ b, FindingRow.id (its_finding b))); [apply finding_ids_distinct| |done].
    apply evidence_owner.
  - intros e He. apply Prelude.eqb_false. intros E. apply (finding_id_fresh b Hb). rewrite <- E.
    by apply kept_evidence.
Qed.

Lemma findings_of_other c : ComparisonRow.id c ≠ ComparisonRow.id record →
  findings_of t' c = findings_of t c.
Proof.
  intros Hc. unfold findings_of, t'. rewrite comparison_tables_eq. cbn. rewrite List.filter_app.
  rewrite (filter_all_false _ (map _ _)); [apply app_nil_r|].
  intros f (b & <- & Hb%list_elem_of_In)%list_elem_of_In%in_map_iff.
  destruct (finding_of_result b Hb) as (p & _ & []). apply Prelude.eqb_false. congruence.
Qed.

Lemma comparison_kept :
  ComparisonRow.expected_snapshot_id record ∈ map Snapshot.id (t_snapshots t) →
  ComparisonRow.observed_snapshot_id record ∈ map Snapshot.id (t_snapshots t) → well_kept t'.
Proof.
  intros He Ho. apply kept_app; [done| |..]; rewrite ?comparison_tables_eq; cbn; rewrite ?app_nil_r;
    try (by intros ? ?%elem_of_nil); try (by intros ? ->%list_elem_of_singleton).
  - eapply fresh_ids_app; [by apply kept_ids|done|]. rewrite <- comparison_tables_eq.
    apply comparison_ids_sublist.
  - by intros ? ? ?%elem_of_nil.
  - intros f (b & <- & Hb%list_elem_of_In)%list_elem_of_In%in_map_iff.
    destruct (finding_of_result b Hb) as (p & _ & []). rewrite rows_result0, map_app. set_solver.
  - intros e (l & Hl & Hc)%list_elem_of_In%in_concat. apply in_map_iff in Hl as (b & <- & Hb).
    apply list_elem_of_In in Hb, Hc. rewrite (evidence_owner b e Hb Hc), map_app, elem_of_app, map_map. right.
    by apply (list_elem_of_fmap_2 (λ b, FindingRow.id (its_finding b))).
Qed.
End Recorded.

(** ** Comparing stored snapshots *)

Section Comparing.
Context {HN : NameUUID}.

(** The row of a snapshot. *)
Definition stored_as (t : Tables) (id : UUID) (r : SnapshotRow) : Prop :=
  List.find (λ s, Snapshot.id s ≟ id) (t_snapshots t) = Some r.

(** The stored snapshots [n] and [l], the second taken by a run of the tenant. *)
Record comparable (t : Tables) (fresh e_id o_id : UUID) (tenant : string)
    (n : NetBox.NetBoxInventorySnapshot) (l : Live.LiveInventorySnapshot) : Prop := {
  cmp_expected : ∃ e, List.find (λ s, Snapshot.id s ≟ e_id) (t_snapshots t) = Some e ∧
    Snapshot.source e = "netbox" ∧ validate (Snapshot.payload e) = Ret n;
  cmp_observed : ∃ o r run, List.find (λ s, Snapshot.id s ≟ o_id) (t_snapshots t) = Some o ∧
    Snapshot.source o = "live" ∧ InventorySnapshotModel fresh (Snapshot.payload o) = Ret l ∧
    Snapshot.discovery_run_id o = Some r ∧ List.find (λ x, Run.id x ≟ r) (t_runs t) = Some run ∧
    Run.tenant_id run = Some tenant;
}.

Lemma compare_snapshots_comparable identity fresh e_id o_id tenant n l s :
  comparable (tables s) fresh e_id o_id tenant n l →
  compare_snapshots identity fresh e_id o_id tenant s
  = (record <- add_comparison_result identity (compare None n l) e_id o_id ;;
     commit_history ;;; ret (ComparisonRow.id record)) s.
Proof.
  intros [(e & He & Hes & Hen) (o & r & run & Ho & Hos & Hol & Hr & Hrun & Ht)].
  assert (Snapshot.id e = e_id) as Ee by by apply find_some in He as [_ ?]; pybool.
  assert (Snapshot.id o = o_id) as Eo by by apply find_some in Ho as [_ ?]; pybool.
  unfold compare_snapshots.
  erewrite bind_Ret by (unfold get_snapshot, history_query, gets; by rewrite He).
  erewrite bind_Ret by (unfold get_snapshot, history_query, gets; by rewrite Ho).
  rewrite Hes, Hos, Hr. cbn [negb SnapshotSource_value].
  rewrite !Prelude.eqb_refl. cbn [negb].
  erewrite bind_Ret by (unfold get_discovery_run, history_query, gets; by rewrite Hrun).
  cbv beta iota. rewrite Ht, Prelude.eqb_refl. cbn [negb].
  erewrite bind_Ret; [|unfold try_except, bind, of_outcome; rewrite Hen, Hol; reflexivity].
  by rewrite Ee, Eo, to_entity_id.
Qed.

(** Why a request to compare is refused: the first of the conditions that does not hold. *)
Inductive refused (t : Tables) (fresh e_id o_id : UUID) (tenant : string) : exn → Prop :=
  | refused_absent :
      (∀ e, e ∈ t_snapshots t → Snapshot.id e ≠ e_id) ∨ (∀ o, o ∈ t_snapshots t → Snapshot.id o ≠ o_id) →
      refused t fresh e_id o_id tenant (Exn SnapshotComparisonError "Requested snapshot was not found.")
  | refused_expected e o :
      stored_as t e_id e → stored_as t o_id o → Snapshot.source e ≠ "netbox" →
      refused t fresh e_id o_id tenant
        (Exn SnapshotComparisonError "Expected snapshot must have source 'netbox'.")
  | refused_observed e o :
      stored_as t e_id e → stored_as t o_id o → Snapshot.source e = "netbox" → Snapshot.source o ≠ "live" →
      refused t fresh e_id o_id tenant
        (Exn SnapshotComparisonError "Observed snapshot must have source 'live'.")
  | refused_unscoped e o :
      stored_as t e_id e → stored_as t o_id o → Snapshot.source e = "netbox" → Snapshot.source o = "live" →
      Snapshot.discovery_run_id o = None →
      refused t fresh e_id o_id tenant
        (Exn SnapshotComparisonError "Observed live snapshot is not tenant-scoped.")
  | refused_tenant e o r :
      stored_as t e_id e → stored_as t o_id o → Snapshot.source e = "netbox" → Snapshot.source o = "live" →
      Snapshot.discovery_run_id o = Some r →
      (∀ run, List.find (λ x, Run.id x ≟ r) (t_runs t) = Some run → Run.tenant_id run ≠ Some tenant) →
      refused t fresh e_id o_id tenant
        (Exn SnapshotComparisonError "Observed snapshot is not available to this tenant.")
  | refused_payload e o r run exc :
      stored_as t e_id e → stored_as t o_id o → Snapshot.source e = "netbox" → Snapshot.source o = "live" →
      Snapshot.discovery_run_id o = Some r → List.find (λ x, Run.id x ≟ r) (t_runs t) = Some run →
      Run.tenant_id run = Some tenant →
      (validate (A := NetBox.NetBoxInventorySnapshot) (Snapshot.payload e) = Raise exc ∨
       InventorySnapshotModel fresh (Snapshot.payload o) = Raise exc) →
      refused t fresh e_id o_id tenant
        (if isinstance exc ValueError
         then Exn SnapshotComparisonError "Requested snapshot payload is invalid." else exc).

Lemma find_none_id {A} (key : A → UUID) (l : list A) id :
  List.find (λ x, key x ≟ id) l = None → ∀ x, x ∈ l → key x ≠ id.
Proof.
  intros Hn x Hx%list_elem_of_In. apply Prelude.eqb_false. exact (find_none _ _ Hn x Hx).
Qed.

Lemma compare_snapshots_incomparable identity fresh e_id o_id tenant s :
  (∀ n l, ¬ comparable (tables s) fresh e_id o_id tenant n l) →
  ∃ exc, refused (tables s) fresh e_id o_id tenant exc ∧
    compare_snapshots identity fresh e_id o_id tenant s = (Raise exc, s).
Proof.
  intros Hno. unfold compare_snapshots, get_snapshot, get_discovery_run, history_query.
  unfold bind at 1 2, gets at 1 2. cbv beta iota.
  destruct (List.find _ (t_snapshots (tables s))) as [e|] eqn:He;
    [|eexists; split; [by apply refused_absent; left; apply find_none_id|done]].
  destruct (List.find (λ s, Snapshot.id s ≟ o_id) _) as [o|] eqn:Ho;
    [|eexists; split; [by apply refused_absent; right; apply find_none_id|done]].
  destruct (Snapshot.source e ≟ _) eqn:Es; cbn [negb];
    [|pybool; eexists; split; [by eapply refused_expected|done]].
  destruct (Snapshot.source o ≟ _) eqn:Eo; cbn [negb];
    [|pybool; eexists; split; [by eapply refused_observed|done]].
  pybool. destruct (Snapshot.discovery_run_id o) as [r|] eqn:Er;
    [|eexists; split; [by eapply refused_unscoped|done]].
  unfold bind at 1, gets at 1. cbv beta iota.
  destruct (List.find _ (t_runs (tables s))) as [run|] eqn:Hrun;
    [|eexists; split; [eapply refused_tenant; [done..|by rewrite Hrun]|done]].
  destruct (Run.tenant_id run ≟ _) eqn:Et; cbn [negb]; pybool;
    [|eexists; split; [eapply refused_tenant; [done..|rewrite Hrun; by intros ? [= <-]]|done]].
  assert (∀ exc, validate (A := NetBox.NetBoxInventorySnapshot) (Snapshot.payload e) = Raise exc ∨
    InventorySnapshotModel fresh (Snapshot.payload o) = Raise exc →
    refused (tables s) fresh e_id o_id tenant (if isinstance exc ValueError
      then Exn SnapshotComparisonError "Requested snapshot payload is invalid." else exc)) as Hpay.
  { intros exc Hexc. by eapply refused_payload. }
  destruct (validate (Snapshot.payload e)) as [n|exc] eqn:En.
  + destruct (InventorySnapshotModel fresh (Snapshot.payload o)) as [l|exc] eqn:El.
    { destruct (Hno n l). split; eauto 10. }
    specialize (Hpay exc (or_intror eq_refl)). eexists. split; [exact Hpay|].
    unfold bind, try_except, of_outcome. cbv beta iota. by destruct (isinstance exc ValueError).
  + specialize (Hpay exc (or_introl eq_refl)). eexists. split; [exact Hpay|].
    unfold bind, try_except, of_outcome. cbv beta iota. by destruct (isinstance exc ValueError).
Qed.

(** C17. Comparing two stored snapshots records, in one committed transaction, exactly the
    comparison of the inventories they hold: a result that names both, every finding of
    the engine in its order, every finding with its evidence; earlier results keep their
    findings; provided that the states and the evidence of the findings are JSON without
    floating point numbers.  Unless the first is a NetBox snapshot and the second a live one
    that a run of this tenant took, both with payloads that validate, nothing changes and
    the comparison is refused with the error of the first condition that does not hold. *)
Theorem comparison_is_recorded identity fresh e_id o_id tenant s :
  well_kept (tables s) → fresh_supply s →
  (∀ n l, comparable (tables s) fresh e_id o_id tenant n l →
    forallb plain_finding (Comparison.findings (compare None n l)) = true →
    ∃ record s', compare_snapshots identity fresh e_id o_id tenant s = (Ret (ComparisonRow.id record), s') ∧
      saved s' = tables s' ∧ well_kept (tables s') ∧
      get_comparison_result (ComparisonRow.id record) s' = (Ret (Some record), s') ∧
      comparison_stored identity (compare None n l) e_id o_id record ∧
      Forall2 (λ p r, finding_stored (finding_identity identity p.1) p.2 r ∧
          Forall2 (λ q e, evidence_stored (evidence_identity identity p.1 q.1) q.2 e)
            (numbered (Comparison.evidence p.2)) (evidence_of (tables s') r))
        (numbered (Comparison.findings (compare None n l))) (findings_of (tables s') record) ∧
      (∀ c, ComparisonRow.id c ≠ ComparisonRow.id record →
        findings_of (tables s') c = findings_of (tables s) c)) ∧
  ((∀ n l, ¬ comparable (tables s) fresh e_id o_id tenant n l) →
    ∃ exc, refused (tables s) fresh e_id o_id tenant exc ∧
      compare_snapshots identity fresh e_id o_id tenant s = (Raise exc, s)).
Proof.
  intros Hk Hfree. split.
  - intros n l Hc Hp. rewrite (compare_snapshots_comparable _ _ _ _ _ _ _ _ Hc).
    destruct (adds_comparison_result identity (compare None n l) e_id o_id Hp s)
      as (record & s1 & k & T & E & Ht & Hs & bs & -> & Hids & Hrows & Hr).
    pose proof (supply_fresh s k Hfree) as Hfresh. rewrite Hids in Hfresh.
    destruct Hc as [(e & He & _) (o & ? & ? & Ho & _)].
    assert (∀ id x, List.find (λ s, Snapshot.id s ≟ id) (t_snapshots (tables s)) = Some x →
      id ∈ map Snapshot.id (t_snapshots (tables s))) as Hin.
    { intros id row [Hx ?]%find_some. pybool. subst. by apply list_elem_of_In, in_map. }
    assert (well_kept (tables_app (tables s) (comparison_tables record bs))) as Hk'.
    { pose proof Hr as (_ & Ee & Eo & _).
      eapply comparison_kept; eauto; [rewrite Ee|rewrite Eo]; by eapply Hin. }
    exists record, (set_saved (tables s1) s1).
    rewrite (bind_Ret _ _ _ _ _ E). rewrite <- Ht in Hk'.
    erewrite bind_Ret by (unfold commit_history; by rewrite (proj2 (sound_iff _) Hk')).
    split; [done|]. split; [done|]. split; [done|]. cbn [tables set_saved]. rewrite !Ht.
    split; [|split; [done|split]].
    + unfold get_comparison_result, history_query, gets. cbn [tables set_saved]. rewrite Ht, comparison_tables_eq.
      cbn. rewrite find_stored; [done|]. eapply fresh_unused; [done|unfold ids_of; set_solver|by left].
    + rewrite (findings_of_recorded _ _ _ _ _ Hk Hfresh Hrows).
      apply Forall2_fmap_r. apply Forall2_same_length_lookup_2; [by eapply Forall2_length|].
      intros i p b Hp' Hb. pose proof (Forall2_lookup_lr _ _ _ _ _ _ Hrows Hp' Hb) as [? _ Hev].
      split; [done|]. rewrite (evidence_of_recorded _ _ _ _ _ Hk Hfresh Hrows).
      * by eapply Forall2_impl; [exact Hev|intros ? ? []].
      * apply list_elem_of_lookup. eauto.
    + intros c. by eapply findings_of_other.
  - apply compare_snapshots_incomparable.
Qed.
End Comparing.
End Stored.

(** ** One device, expected and observed ([devices.py]) *)

Section Device.
Context {HF : FloatRepr}.

Lemma variance_of_missing o f evidence v : o ≠ None → variance_of o f evidence = Some v →
  str_lower (difference_type v) ≠ "missing".
Proof.
  intros Ho Hv. unfold variance_of in Hv.
  destruct (dict_of (FindingRow.expected_state f)), (dict_of (FindingRow.observed_state f)); try done.
  cbv zeta in Hv. rewrite (bool_decide_eq_true_2 _ Ho) in Hv. cbn [andb] in Hv.
  destruct (str_lower _ ≟ _) eqn:E; [done|]. injection Hv as <-. by pybool.
Qed.

Lemma modified_field_in existing names field e o v :
  v ∈ modified_field existing names field e o → difference_type v = "modified".
Proof.
  unfold modified_field. destruct (_ && _); [|by intros ?%elem_of_nil]. by intros ->%list_elem_of_singleton.
Qed.

(** A field in which both devices differ is the field of some variance. *)
Lemma modified_field_told (vs : list VarianceSummary) names field e o : field ∈ names →
  str_truthy (from_option id "" e) = true → str_truthy (from_option id "" o) = true →
  normalize_device_identity e ≠ normalize_device_identity o →
  ∃ v, v ∈ vs ++ modified_field (map field_name vs) names field e o ∧ field_name v ∈ names.
Proof.
  intros Hf He Ho Hne. unfold modified_field. rewrite He, Ho.
  rewrite (proj2 (Prelude.eqb_false _ _) Hne). cbn [negb andb].
  destruct (forallb _ names) eqn:E.
  - eexists. split; [apply elem_of_app; right; by left|done].
  - assert (∃ n, n ∈ names ∧ n ∈ map field_name vs) as (n & Hn & Hin).
    { clear Hf. induction names as [|n names IH]; [done|]. cbn in E.
      apply andb_false_iff in E as [E|E].
      - pybool. exists n. split; [by left|done].
      - destruct (IH E) as (m & ? & ?). exists m. split; [by right|done]. }
    apply list_elem_of_In, in_map_iff in Hin as (v & <- & Hv).
    exists v. split; [apply elem_of_app; left; by apply list_elem_of_In|done].
Qed.

(** What the variances of two devices tell. *)
Record variances_tell (device_id : string) (e o : option DeviceRow) (vs : list VarianceSummary) : Prop := {
  tell_unseen : o = None → vs ≠ [];
  tell_seen v : o ≠ None → v ∈ vs → str_lower (difference_type v) ≠ "missing";
  tell_serial d d' : e = Some d → o = Some d' →
    str_truthy (from_option id "" (SnapshotDevice.serial_number d)) = true →
    str_truthy (from_option id "" (SnapshotDevice.serial_number d')) = true →
    normalize_device_identity (SnapshotDevice.serial_number d)
      ≠ normalize_device_identity (SnapshotDevice.serial_number d') →
    ∃ v, v ∈ vs ∧ field_name v ∈ ["serial_number"; "serial"];
  tell_model d d' : e = Some d → o = Some d' →
    str_truthy (from_option id "" (SnapshotDevice.model d)) = true →
    str_truthy (from_option id "" (SnapshotDevice.model d')) = true →
    normalize_device_identity (SnapshotDevice.model d) ≠ normalize_device_identity (SnapshotDevice.model d') →
    ∃ v, v ∈ vs ∧ field_name v = "model";
}.

Lemma device_variances_tell device_id e o findings :
  variances_tell device_id e o
    (device_variances device_id e o (omap (λ x, variance_of o x.1 x.2) findings)).
Proof.
  set (vs := omap _ findings).
  assert (∀ v, o ≠ None → v ∈ vs → str_lower (difference_type v) ≠ "missing") as Hvs.
  { intros v Ho ([f ev] & _ & Hv)%list_elem_of_omap. by eapply variance_of_missing. }
  unfold device_variances. split.
  - intros ->. destruct e; destruct (vs ++ []); done.
  - intros v Ho Hv. destruct o as [o|]; [|done]. cbv zeta in Hv. rewrite !elem_of_app in Hv.
    destruct Hv as [Hv|Hv]; [by apply Hvs|]. destruct e; [|by apply elem_of_nil in Hv].
    apply elem_of_app in Hv as [Hv|Hv]; by rewrite (modified_field_in _ _ _ _ _ _ Hv).
  - intros d d' -> -> He Ho Hne. cbv beta iota zeta.
    destruct (modified_field_told vs ["serial_number"; "serial"] "serial_number" _ _ ltac:(by left) He Ho Hne)
      as (v & Hv & Hn). exists v. split; [|done]. rewrite app_assoc, elem_of_app. by left.
  - intros d d' -> -> He Ho Hne. cbv beta iota zeta.
    destruct (modified_field_told vs ["model"] "model" _ _ ltac:(by left) He Ho Hne) as (v & Hv & Hn).
    exists v. split; [|by apply list_elem_of_singleton in Hn]. apply elem_of_app in Hv as [Hv|Hv];
      rewrite !elem_of_app; auto.
Qed.

(** Asking how a device compares changes nothing and ends in one of two ways: 404, when
    there is no comparison or no snapshot knows the device; or an answer that has at least
    one of the two devices, that never calls a device missing that is shown as observed,
    always lists a variance when none is, and always lists the serial number and the model
    when both devices have them and they differ after trimming and folding case. *)
Theorem compare_device_tells device_id run_id s :
  match compare_device device_id run_id s with
  | (Ret r, s') => s' = s ∧ ∃ e o, (e ≠ None ∨ o ≠ None) ∧
      dc_expected_state r = comparison_state <$> e ∧ dc_observed_state r = comparison_state <$> o ∧
      variances_tell device_id e o (dc_variances r)
  | (Raise exc, s') => s' = s ∧ exn_cls exc = HTTPException 404
  end.
Proof.
  assert (∀ o, devices_of_snapshot o s
    = (Ret (match o with Some x => devices_in (tables s) (Snapshot.id x) None | None => [] end), s)) as Hdevices.
  { by intros []. }
  unfold compare_device.
  assert (∃ c, match run_id with
    | Some run_id => get_comparison_result run_id | None => get_latest_comparison end s = (Ret c, s))
    as [c Hc] by (destruct run_id; by eexists).
  rewrite (bind_Ret _ _ _ _ _ Hc). destruct c as [c|]; [|done].
  do 2 (erewrite bind_Ret by reflexivity). cbv beta.
  rewrite (bind_Ret _ _ _ _ _ (Hdevices _)). cbv zeta. rewrite (bind_Ret _ _ _ _ _ (Hdevices _)).
  set (e := match_device_by_identity _ _ _ _).
  match goal with |- context [match ?m with Some d => ret (Some d) | None => _ end] => set (o1 := m) end.
  assert (∃ o, (match o1 with
    | Some d => ret (Some d)
    | None => live_devices <- get_latest_live_devices ;; ret (observed_among live_devices device_id e)
    end) s = (Ret o, s)) as [o Ho] by (destruct o1; by eexists).
  rewrite (bind_Ret _ _ _ _ _ Ho).
  destruct e as [e|], o as [o|]; try (erewrite bind_Ret by reflexivity); cbn [fst snd]; (split; [done|]);
    [exists (Some e), (Some o)|exists (Some e), None|exists None, (Some o)|done];
    (split; [by (left + right)|]; split; [done|]; split; [done|]; apply device_variances_tell).
Qed.
(** A finding of the engine has the expected value only, never a [device_id]: the findings of a
    device are none, whatever was found about it. *)
Lemma list_by_device_misses {HU : NameUUID} device_id s :
  (∀ r, r ∈ t_findings (tables s) → ∃ difference id,
    finding_stored id (Comparison.finding_from_difference difference) r) →
  list_by_device device_id s = (Ret [], s).
Proof.
  intros Hrows. unfold list_by_device, history_query, gets. do 2 f_equal. apply filter_all_false.
  intros r Hr. apply Hrows in Hr as (d & id & Hs & _).
  destruct (FindingRow.expected_state r) as [| | | | | |d'] eqn:E; try done.
  inversion Hs as [j Hj Hj2| |d0 d1 d2 _ Hd Hp H1 H2]; subst.
  - done.
  - inversion Hd as [|? [k v] ? ? [Hk _] Hd']; subst. cbn in Hk. subst k. inversion Hd'; subst.
    apply Permutation_singleton_l in Hp as <-. done.
Qed.
End Device.

(** ** On concrete snapshots *)

Module HistoryExamples.
#[local] Instance no_floats : FloatRepr := λ _, EmptyString.
#[local] Instance no_lax : LaxFields := {| lax_int _ := None; lax_float _ := None; lax_bool _ := None;
  lax_datetime _ := None |}.
#[local] Instance no_names : NameUUID := λ _, 0%N.

(** Instants as signed decimals. *)
#[local] Instance decimal_instants : DatetimeText.
Proof.
  refine {| datetime_str t := (if 0 <=? t then "+" else "-") +:+ pretty (Z.abs t);
            parse_datetime s := match s with
              | String "+" digits => int_of_digits digits
              | String "-" digits => Z.opp <$> int_of_digits digits
              | _ => None
              end |}.
  intros t. destruct (0 <=? t) eqn:E;
    [change ("+" +:+ pretty (Z.abs t)) with (String "+" (pretty (Z.abs t)))
    |change ("-" +:+ pretty (Z.abs t)) with (String "-" (pretty (Z.abs t)))];
    cbv beta iota; rewrite int_of_digits_pretty by lia; cbn; f_equal; lia.
Defined.

Definition an_interface : InterfaceSnapshot.InterfaceSnapshot := {|
  InterfaceSnapshot.device_id := "sw1"; InterfaceSnapshot.name := "Gi0/1"; InterfaceSnapshot.captured_at := 3;
  InterfaceSnapshot.version := "1"; InterfaceSnapshot.admin_status := Some "up";
  InterfaceSnapshot.oper_status := None; InterfaceSnapshot.description := Some "uplink";
  InterfaceSnapshot.mac_address := None; InterfaceSnapshot.speed_mbps := Some 1000;
  InterfaceSnapshot.poe_status := None |}.
Definition a_device (id : string) : DeviceSnapshot.DeviceSnapshot := {|
  DeviceSnapshot.device_id := id; DeviceSnapshot.name := id; DeviceSnapshot.captured_at := 3;
  DeviceSnapshot.version := "1"; DeviceSnapshot.manufacturer := Some "Cisco"; DeviceSnapshot.model := None;
  DeviceSnapshot.serial_number := Some "F1"; DeviceSnapshot.product_id := None;
  DeviceSnapshot.management_ip := Some "10.0.0.1"; DeviceSnapshot.base_mac := None;
  DeviceSnapshot.software_version := None; DeviceSnapshot.uptime := None;
  DeviceSnapshot.hardware_revision := None; DeviceSnapshot.platform := None;
  DeviceSnapshot.stack_members := []; DeviceSnapshot.interfaces := [an_interface];
  DeviceSnapshot.vlans := []; DeviceSnapshot.mac_table := []; DeviceSnapshot.neighbors := [];
  DeviceSnapshot.power := None |}.
Definition a_snapshot : Live.LiveInventorySnapshot := {|
  Live.devices := [a_device "sw1"; a_device "sw2"]; Live.snapshot_id := 7%N; Live.captured_at := 3;
  Live.version := "1"; Live.source := None |}.

Definition a_run : RunRow := {|
  Run.id := 1%N; Run.created_at := 0; Run.target_identifier := "net"; Run.target_address := None;
  Run.tenant_id := Some "acme"; Run.status := "completed"; Run.started_at := 0; Run.finished_at := None;
  Run.metadata_json := []; Run.total_scanned := None; Run.total_discovered := None;
  Run.total_unreachable := None; Run.total_reachable_no_management := None;
  Run.total_authentication_failed := None; Run.total_partial_discovery := None;
  Run.total_unverified := None |}.

(** No inventory at all in NetBox. *)
Definition empty_netbox : NetBox.NetBoxInventorySnapshot := {|
  NetBox.sites := []; NetBox.racks := []; NetBox.devices := []; NetBox.interfaces := [];
  NetBox.ip_addresses := []; NetBox.vlans := []; NetBox.platforms := []; NetBox.manufacturers := [];
  NetBox.device_types := []; NetBox.roles := [] |}.

Definition snapshot_row (id : UUID) (source : string) (run : option UUID) (payload : json) : SnapshotRow := {|
  Snapshot.id := id; Snapshot.created_at := 0; Snapshot.source := source; Snapshot.tenant_id := "acme";
  Snapshot.source_label := None; Snapshot.captured_at := 0; Snapshot.schema_version := "1";
  Snapshot.discovery_run_id := run; Snapshot.payload := payload |}.

Definition some_tables : Tables :=
  no_rows |> set_t_runs [a_run]
  |> set_t_snapshots [snapshot_row 2%N "netbox" None (dump empty_netbox);
                      snapshot_row 3%N "live" (Some 1%N) (dump_live a_snapshot)].

Definition a_session : HistoryState := {|
  tables := some_tables; saved := some_tables; history_clock := Z.of_nat; history_ticks := O;
  history_uuids := λ k, (100 + N.of_nat k)%N; history_drawn := O |}.

Lemma session_kept : well_kept (tables a_session).
Proof. apply sound_iff. vm_compute. reflexivity. Qed.

Lemma session_supply : fresh_supply a_session.
Proof.
  split; [cbn; lia|]. intros k l _ Hl Hin.
  assert (Forall (λ l, Forall (λ u, (u < 100)%N) l) (ids_of (tables a_session))) as Hsmall.
  { repeat constructor. }
  pose proof (proj1 (Forall_forall _ _) (proj1 (Forall_forall _ _) Hsmall l Hl) _ Hin) as Hk.
  cbn in Hk. lia.
Qed.

Definition an_identity : ResultIdentity := {|
  result_compared_at := 9; finding_identity n := N.of_nat n; evidence_identity n k := (N.of_nat k, 9) |}.

Lemma stored_snapshot_reads_back_witness :
  ∃ record s', add_live_snapshot a_snapshot (Some 1%N) "acme" a_session = (Ret record, s') ∧
    snapshot_stored a_snapshot (Some 1%N) "acme" record ∧
    ∃ rs, get_snapshot_interfaces (Snapshot.id record) (Some "sw2") s' = (Ret rs, s') ∧
      Forall2 interface_stored [an_interface] rs.
Proof.
  destruct (stored_snapshot_reads_back a_snapshot (Some 1%N) "acme" a_session session_kept session_supply)
    as (record & s' & E & Hr & _ & _ & Hread & _); [reflexivity|reflexivity|intros r [= <-]; by left|].
  exists record, s'. split; [exact E|]. split; [exact Hr|].
  destruct (Hread (Some "sw2")) as (ds & rs & vs & ns & _ & Hrs & _ & _ & _ & Hst & _).
  exists rs. split; [exact Hrs|exact Hst].
Defined.

Lemma snapshots_comparable : comparable (tables a_session) 0%N 2%N 3%N "acme" empty_netbox a_snapshot.
Proof. split; [eexists|eexists _, _, _]; split_and!; reflexivity. Qed.

Lemma comparison_is_recorded_witness :
  let result := compare None empty_netbox a_snapshot in
  length (Comparison.findings result) = 2%nat ∧
  ∃ record s', compare_snapshots an_identity 0%N 2%N 3%N "acme" a_session = (Ret (ComparisonRow.id record), s') ∧
    saved s' = tables s' ∧ length (findings_of (tables s') record) = 2%nat.
Proof.
  cbv zeta. split; [vm_compute; reflexivity|].
  destruct (proj1 (comparison_is_recorded an_identity 0%N 2%N 3%N "acme" a_session session_kept session_supply)
    _ _ snapshots_comparable) as (record & s' & E & Hs & _ & _ & _ & Hf & _); [vm_compute; reflexivity|].
  exists record, s'. split; [exact E|]. split; [exact Hs|].
  rewrite <- (Forall2_length _ _ _ Hf). vm_compute. reflexivity.
Defined.
End HistoryExamples.
