(* ===== verification/NetBoxSync.v ===== *)
(** * The routes of the NetBox integration ([api/v1/integrations.py])

    The status, the connection test and the synchronization, which one request submits and a
    background task carries out.  The theorems: a request submits a job exactly when none is
    active, and the task brings the job to an end with the snapshot stored or not at all. *)

From S2P Require Import Prelude Vocabulary Effects Json EvidenceStore Dicts Texts JsonText.
From S2P Require Import Contracts Inventories SnapshotModels Comparison Policies AuditTrail.
From S2P Require Import Records History HistoryTheorems.
From stdpp Require Import sorting.
#[local] Open Scope Z_scope.

(** ** Responses ([schemas/integrations.py]) *)

Record InventoryCounts := { count_devices : Z; count_interfaces : Z; count_addresses : Z; count_vlans : Z }.

Module Status.
Record NetBoxIntegrationStatusResponse := {
  configured : bool; connected : bool; tls_verified : bool; authenticated : bool;
  version : option string; hostname : option string; last_successful_sync : option datetime;
  current_sync_status : string; sync_started_at : option datetime; sync_completed_at : option datetime;
  sync_error : option string; inventory_counts : InventoryCounts;
}.
End Status.

Module TestResult.
Record NetBoxTestConnectionResponse := {
  connected : bool; tls_verified : bool; authenticated : bool; version : option string;
  hostname : option string; message : string;
}.
End TestResult.

Module SyncReply.
Record NetBoxSyncResponse := { job_id : UUID; status : string }.
End SyncReply.

(** What the routes read of the settings and of the answer of the health check. *)
Record NetBoxSettings := {
  netbox_base_url : option string; netbox_ca_cert : option string; netbox_token : option string;
  netbox_expected_version : option string;
}.
Record NetBoxHealth := {
  health_version : option string; health_api_version : option string; health_hostname : option string;
}.

Section Integration.
Context {HF : FloatRepr} {HD : DatetimeText} {HL : LaxFields}.
Variable settings : NetBoxSettings.
(** The audit service, and what the inventory service answers this time. *)
Variable audit_service : AuditService HistoryState.
Variable health : outcome NetBoxHealth.
Variable synchronize : outcome NetBox.NetBoxInventorySnapshot.
(** The status code and the detail of a [NetBoxResponseError]. *)
Variable response_status : exn → Z.
Variable response_detail : exn → string.

Definition truthy_opt (o : option string) : bool := from_option str_truthy false o.

(** [any(term in text for term in terms)]. *)
Definition mentions (terms : list string) (text : string) : bool := existsb (λ t, str_in t text) terms.

(** [_handle_netbox_error]. *)
Definition handle_netbox_error {A} (exc : exn) : HistoryM A :=
  let fail status_code code message := raise (NetBoxIntegrationError status_code code) message in
  if isinstance exc NetBoxResponseError then
    if mem (response_status exc) [401; 403] then
      fail 401 "NETBOX_AUTHENTICATION_FAILED"
        "NetBox Authentication Failed: The NetBox server is reachable, but authentication failed."
    else fail 502 "NETBOX_UNREACHABLE" ("NetBox response error: " +:+ response_detail exc)
  else if isinstance exc NetBoxTransportError then
    if mentions ["cert"; "ssl"; "verify"] (str_lower (exn_str exc)) then
      fail 502 "NETBOX_TLS_VALIDATION_FAILED"
        "NetBox Connection Failed: The NetBox server certificate could not be validated."
    else fail 503 "NETBOX_UNREACHABLE" "NetBox Unreachable: The NetBox API could not be reached."
  else if isinstance exc NetBoxVersionMismatchError then
    fail 502 "NETBOX_VERSION_MISMATCH" ("Unsupported NetBox Version: " +:+ exn_str exc)
  else if isinstance exc NetBoxValidationError then
    fail 502 "NETBOX_VERSION_MISMATCH" ("NetBox Validation Failed: " +:+ exn_str exc)
  else fail 500 "NETBOX_SYNC_FAILED" ("NetBox error: " +:+ exn_str exc).

(** The keyword arguments of the calls of [record_api_activity]. *)
Definition activity (event_type resource_type resource_id outcome_ : string) (actor_id : UUID)
    (metadata : dict) : AuditArguments := {|
  arg_event_type := event_type; arg_actor_id := Some actor_id; arg_tenant_id := None;
  arg_resource_type := Some resource_type; arg_resource_id := Some resource_id;
  arg_outcome := Some outcome_; arg_request_id := None; arg_metadata := Some metadata;
  arg_source := None; arg_category := None |}.

Definition sync_activity (outcome_ : string) (job_id actor_id : UUID) (extra : dict) : HistoryM unit :=
  record_api_activity audit_service
    (activity "netbox.inventory_sync" "netbox_sync" (uuid_str job_id) outcome_ actor_id
       (("job_id", JStr (uuid_str job_id)) :: extra)) ;;;
  ret tt.

(** ** Synchronizing *)

(** Assignments to the attributes of a job that is loaded. *)
Definition set_job (id : UUID) (change : SyncJobRow → SyncJobRow) (t : Tables) : Tables :=
  set_t_sync_jobs (map (λ j, if SyncJob.id j ≟ id then change j else j) (t_sync_jobs t)) t.
Definition update_job (id : UUID) (change : SyncJobRow → SyncJobRow) : HistoryM unit :=
  modify (λ s, set_tables (set_job id change (tables s)) s).

Definition as_running (now : datetime) (j : SyncJobRow) : SyncJobRow := {|
  SyncJob.id := SyncJob.id j; SyncJob.created_at := SyncJob.created_at j; SyncJob.status := "running";
  SyncJob.started_at := now; SyncJob.finished_at := SyncJob.finished_at j;
  SyncJob.error_message := SyncJob.error_message j |}.
Definition as_succeeded (now : datetime) (j : SyncJobRow) : SyncJobRow := {|
  SyncJob.id := SyncJob.id j; SyncJob.created_at := SyncJob.created_at j; SyncJob.status := "succeeded";
  SyncJob.started_at := SyncJob.started_at j; SyncJob.finished_at := Some now;
  SyncJob.error_message := SyncJob.error_message j |}.
Definition as_failed (now : datetime) (error : string) (j : SyncJobRow) : SyncJobRow := {|
  SyncJob.id := SyncJob.id j; SyncJob.created_at := SyncJob.created_at j; SyncJob.status := "failed";
  SyncJob.started_at := SyncJob.started_at j; SyncJob.finished_at := Some now;
  SyncJob.error_message := Some error |}.

(** The snapshot and its commit; an exception of either rolls back. *)
Definition store_snapshot (snapshot : NetBox.NetBoxInventorySnapshot) (tenant_id : string) : HistoryM unit :=
  try_except (add_netbox_snapshot snapshot tenant_id ;;; commit_history)
    (λ exc, if isinstance exc Exception_ then rollback_history ;;; reraise exc else reraise exc).

(** The body of the [try], and its handler. *)
Definition sync_body (job_id actor_id : UUID) (tenant_id : string) : HistoryM unit :=
  snapshot <- of_outcome synchronize ;;
  store_snapshot snapshot tenant_id ;;;
  finished_at <- Effects.utc_now ;;
  update_job job_id (as_succeeded finished_at) ;;;
  commit_history ;;;
  sync_activity "success" job_id actor_id
    [("device_count", JInt (Z.of_nat (length (NetBox.devices snapshot))))].

Definition sync_failed (job_id actor_id : UUID) (exc : exn) : HistoryM unit :=
  try_except
    (finished_at <- Effects.utc_now ;;
     update_job job_id (as_failed finished_at (exn_str exc)) ;;;
     commit_history)
    (λ e, if isinstance e Exception_ then rollback_history else reraise e) ;;;
  sync_activity "failed" job_id actor_id [("error", JStr (exn_str exc))].

Definition run_netbox_sync_background (job_id actor_id : UUID) (tenant_id : string) : HistoryM unit :=
  job <- get_sync_job job_id ;;
  match job with
  | None => ret tt
  | Some _ =>
      started_at <- Effects.utc_now ;;
      update_job job_id (as_running started_at) ;;;
      commit_history ;;;
      try_except (sync_body job_id actor_id tenant_id)
        (λ exc, if isinstance exc Exception_ then sync_failed job_id actor_id exc else reraise exc)
  end.

(** [synchronize_inventory]: the check and the creation, which an advisory lock of PostgreSQL
    keeps apart from those of other requests.  The task is added to those that run after the
    response. *)
Definition active_sync (j : SyncJobRow) : bool := mem (SyncJob.status j) ["queued"; "running"].

Definition synchronize_inventory (user_id : UUID) : HistoryM SyncReply.NetBoxSyncResponse :=
  active_job <- history_query (λ t, List.find active_sync (t_sync_jobs t)) ;;
  match active_job with
  | Some _ =>
      raise (NetBoxIntegrationError 409 "NETBOX_SYNC_ALREADY_RUNNING")
        "Another NetBox synchronization is already in progress."
  | None =>
      job_id <- fresh_uuid ;;
      create_sync_job job_id ;;;
      commit_history ;;;
      sync_activity "submitted" job_id user_id [] ;;;
      ret {| SyncReply.job_id := job_id; SyncReply.status := "queued" |}
  end.

(** ** Status and connection test *)

(** [len(payload.get(name, []))]. *)
Definition payload_length (name : string) (payload : dict) : outcome Z :=
  match dict_get_default name (JList []) payload with
  | JList l => Ret (Z.of_nat (length l))
  | JDict d => Ret (Z.of_nat (length d))
  | JStr s => Ret (Z.of_nat (String.length s))
  | _ => raise_ TypeError "object has no len()"
  end.

Definition inventory_counts (payload : json) : outcome InventoryCounts :=
  match payload with
  | JDict payload =>
      let! devices := payload_length "devices" payload in
      let! interfaces := payload_length "interfaces" payload in
      let! addresses := payload_length "ip_addresses" payload in
      let! vlans := payload_length "vlans" payload in
      Ret {| count_devices := devices; count_interfaces := interfaces; count_addresses := addresses;
             count_vlans := vlans |}
  | _ => Ret {| count_devices := 0; count_interfaces := 0; count_addresses := 0; count_vlans := 0 |}
  end.

(** [url.split("//")[-1].split(":")[0]]: what follows the last pair of slashes, up to a colon. *)
Fixpoint after_slashes (rest : string) (s : string) : string :=
  match s with
  | String "/" (String "/" s') => after_slashes s' s'
  | String _ s' => after_slashes rest s'
  | EmptyString => rest
  end.
Definition url_host (url : string) : string := List.hd EmptyString (str_split ":" (after_slashes url url)).

Definition get_status : HistoryM Status.NetBoxIntegrationStatusResponse :=
  latest_snapshot <- get_latest "netbox" ;;
  counts <- of_outcome (inventory_counts (from_option Snapshot.payload JNull latest_snapshot)) ;;
  latest_job <- get_latest_sync_job ;;
  let configured := truthy_opt (netbox_base_url settings) in
  ret {|
    Status.configured := configured; Status.connected := bool_decide (latest_snapshot ≠ None);
    Status.tls_verified := truthy_opt (netbox_ca_cert settings);
    Status.authenticated := truthy_opt (netbox_token settings);
    Status.version := netbox_expected_version settings;
    Status.hostname := if configured then url_host <$> netbox_base_url settings else None;
    Status.last_successful_sync := Snapshot.captured_at <$> latest_snapshot;
    Status.current_sync_status := from_option SyncJob.status "idle" latest_job;
    Status.sync_started_at := SyncJob.started_at <$> latest_job;
    Status.sync_completed_at := latest_job ≫= SyncJob.finished_at;
    Status.sync_error := latest_job ≫= SyncJob.error_message; Status.inventory_counts := counts |}.

Definition or_option (a b : option string) : option string := if truthy_opt a then a else b.

Definition test_connection (user_id : UUID) : HistoryM TestResult.NetBoxTestConnectionResponse :=
  let record outcome_ metadata :=
    record_api_activity audit_service
      (activity "netbox.connection_test" "netbox" "connection" outcome_ user_id metadata) in
  try_except
    (health_resp <- of_outcome health ;;
     let version := or_option (health_version health_resp) (health_api_version health_resp) in
     record "success" [("version", opt_str version); ("hostname", opt_str (health_hostname health_resp))] ;;;
     ret {| TestResult.connected := true; TestResult.tls_verified := truthy_opt (netbox_ca_cert settings);
            TestResult.authenticated := true; TestResult.version := version;
            TestResult.hostname := health_hostname health_resp;
            TestResult.message := "NetBox connection check successful." |})
    (λ exc, if isinstance exc Exception_
            then record "failed" [("error", JStr (exn_str exc))] ;;; handle_netbox_error exc
            else reraise exc).
End Integration.

(** ** Theorems *)

(** What leaves both views of the tables alone and raises ordinary exceptions only. *)
Definition untouched (s s' : HistoryState) : Prop := tables s' = tables s ∧ saved s' = saved s.

Definition quietly {A} (m : HistoryM A) (P : A → Prop) : Prop := ∀ s,
  match m s with
  | (Ret a, s') => untouched s s' ∧ P a
  | (Raise e, s') => untouched s s' ∧ isinstance e Exception_ = true
  end.

Lemma untouched_trans a b c : untouched a b → untouched b c → untouched a c.
Proof. unfold untouched. intuition congruence. Qed.

Lemma quietly_ret {A} (a : A) P : P a → quietly (ret a) P.
Proof. by intros Ha s. Qed.

Lemma quietly_bind {A B} (m : HistoryM A) (f : A → HistoryM B) P Q :
  quietly m P → (∀ a, P a → quietly (f a) Q) → quietly (x <- m ;; f x) Q.
Proof.
  intros Hm Hf s. specialize (Hm s). unfold bind. destruct (m s) as [[a|e] s1]; [|done].
  destruct Hm as [Hs Ha]. specialize (Hf a Ha s1). destruct (f a s1) as [[b|e] s2];
    (split; [eapply untouched_trans; [exact Hs|apply Hf]|apply Hf]).
Qed.

Lemma quietly_map {A B} (f : A → HistoryM B) P xs :
  (∀ x, quietly (f x) P) → quietly (map_m f xs) (Forall P).
Proof.
  intros Hf. induction xs as [|x xs IH]; [by apply quietly_ret|]. cbn.
  eapply quietly_bind; [apply Hf|]. intros y Hy. eapply quietly_bind; [exact IH|].
  intros ys Hys. apply quietly_ret. by constructor.
Qed.

Lemma quietly_fresh : quietly fresh_uuid (λ _, True).
Proof. by intros s. Qed.
Lemma quietly_now : quietly Effects.utc_now (λ _, True).
Proof. by intros s. Qed.

(** What adds rows for which [P] holds, or raises and adds none. *)
Definition appends {A} (m : HistoryM A) (P : A → Tables → Prop) : Prop := ∀ s,
  match m s with
  | (Ret a, s') => saved s' = saved s ∧ ∃ rows, P a rows ∧ tables s' = tables_app (tables s) rows
  | (Raise e, s') => untouched s s' ∧ isinstance e Exception_ = true
  end.

Lemma appends_rows {A} rows (a : A) (P : A → Tables → Prop) : P a rows → appends (add_rows rows ;;; ret a) P.
Proof. intros Ha s. split; [done|]. by exists rows. Qed.

Lemma appends_bind {A B} (m : HistoryM A) (f : A → HistoryM B) P Q :
  quietly m P → (∀ a, P a → appends (f a) Q) → appends (x <- m ;; f x) Q.
Proof.
  intros Hm Hf s. specialize (Hm s). unfold bind. destruct (m s) as [[a|e] s1]; [|done].
  destruct Hm as [[Ht Hs] Ha]. specialize (Hf a Ha s1). destruct (f a s1) as [[b|e] s2].
  - destruct Hf as (Hs2 & rows & HP & Ht2). rewrite Hs2, Hs. split; [done|]. exists rows. by rewrite Ht2, Ht.
  - destruct Hf as [Hu He]. split; [|done]. by eapply untouched_trans.
Qed.

(** Tables without snapshots and jobs. *)
Definition devices_only (t : Tables) : Prop := t_snapshots t = [] ∧ t_sync_jobs t = [].

Section Storing.
Context {HF : FloatRepr} {HD : DatetimeText} {HL : LaxFields}.

Lemma quietly_json j : quietly (json_safe j) (λ _, True).
Proof. intros s. unfold json_safe. destruct (json_loads _); done. Qed.

Lemma quietly_interface id i : quietly (netbox_interface_row id i) (λ _, True).
Proof. unfold netbox_interface_row. eapply quietly_bind; [apply quietly_fresh|]. intros u _. by apply quietly_ret. Qed.

Lemma quietly_device id d interfaces : quietly (netbox_device_record id d interfaces) devices_only.
Proof.
  unfold netbox_device_record.
  eapply quietly_bind; [apply quietly_fresh|]. intros u _. eapply quietly_bind; [apply quietly_now|]. intros now _.
  eapply quietly_bind; [apply quietly_json|]. intros payload _.
  eapply quietly_bind; [apply quietly_map; intros i; apply quietly_interface|]. intros rows _. by apply quietly_ret.
Qed.

Lemma fold_tables_app rows t : Forall devices_only rows →
  t_snapshots (fold_left tables_app rows t) = t_snapshots t ∧ t_sync_jobs (fold_left tables_app rows t) = t_sync_jobs t.
Proof.
  intros Hrows. revert t. induction Hrows as [|r rows [H1 H2] _ IH]; intros t; [done|]. cbn.
  destruct (IH (tables_app t r)) as [-> ->]. cbn. by rewrite H1, H2, !app_nil_r.
Qed.

(** The rows of a snapshot of NetBox: one snapshot, no job. *)
Record snapshot_rows (tenant : string) (record : SnapshotRow) (rows : Tables) : Prop := {
  rows_snapshot : t_snapshots rows = [record];
  rows_jobs : t_sync_jobs rows = [];
  record_source : Snapshot.source record = SnapshotSource_value NETBOX;
  record_tenant : Snapshot.tenant_id record = tenant;
}.

Lemma appends_snapshot snapshot tenant : appends (add_netbox_snapshot snapshot tenant) (snapshot_rows tenant).
Proof.
  unfold add_netbox_snapshot.
  eapply appends_bind; [apply quietly_fresh|]. intros id _. eapply appends_bind; [apply quietly_now|]. intros ? _.
  eapply appends_bind; [apply quietly_now|]. intros ? _. eapply appends_bind; [apply quietly_json|]. intros ? _.
  eapply appends_bind; [apply quietly_map; intros d; apply quietly_device|]. intros rows Hrows.
  apply appends_rows.
  constructor; [rewrite (proj1 (fold_tables_app _ _ Hrows))|rewrite (proj2 (fold_tables_app _ _ Hrows))|..]; done.
Qed.

(** A job keeps its identity, so a commit finds its tables as sound as they were. *)
Lemma sound_set_job id change t : (∀ j, SyncJob.id (change j) = SyncJob.id j) →
  sound (set_job id change t) = sound t.
Proof.
  intros Hid. assert (map SyncJob.id (t_sync_jobs (set_job id change t)) = map SyncJob.id (t_sync_jobs t)) as E.
  { unfold set_job. cbn. rewrite map_map. apply map_ext. intros j. by destruct (SyncJob.id j ≟ id). }
  revert E. unfold sound, ids_of, set_job. cbn. by intros ->.
Qed.

(** Either the rows of the snapshot are committed or the tables are as they were committed. *)
Lemma store_snapshot_spec snapshot tenant s : tables s = saved s →
  match store_snapshot snapshot tenant s with
  | (Ret _, s') => tables s' = saved s' ∧ ∃ record rows, snapshot_rows tenant record rows ∧
      saved s' = tables_app (saved s) rows ∧ sound (saved s') = true
  | (Raise e, s') => tables s' = saved s ∧ saved s' = saved s ∧ isinstance e Exception_ = true
  end.
Proof.
  intros Hclean. unfold store_snapshot, try_except, bind.
  pose proof (appends_snapshot snapshot tenant s) as Ha.
  destruct (add_netbox_snapshot snapshot tenant s) as [[record|e] s1].
  - destruct Ha as (Hs & rows & Hrows & Ht). unfold commit_history. destruct (sound (tables s1)) eqn:E.
    + cbn. split; [done|]. exists record, rows. by rewrite Ht, Hclean in E |- *.
    + unfold raise_. change (isinstance (Exn IntegrityError _) Exception_) with true. cbn. by rewrite Hs.
  - destruct Ha as [[Ht Hs] He]. rewrite He. cbn. by rewrite Hs.
Qed.

(** What it raises is what the adding or the commit raised. *)
Lemma store_snapshot_raises snapshot tenant s e s' :
  store_snapshot snapshot tenant s = (Raise e, s') →
  ((add_netbox_snapshot snapshot tenant ;;; commit_history) s).1 = Raise e.
Proof.
  unfold store_snapshot, try_except.
  destruct ((add_netbox_snapshot snapshot tenant ;;; commit_history) s) as [[a|e0] s0]; [done|].
  destruct (isinstance e0 Exception_); by intros [= <- _].
Qed.

(** The tables a run leaves committed when it has marked its job as running. *)
Definition running_tables (id : UUID) (s : HistoryState) : Tables :=
  set_job id (as_running (instant s)) (saved s).

(** What an assignment and a commit leave. *)
Definition committed (t : Tables) (s : HistoryState) : HistoryState := set_saved t (set_tables t s).

Lemma assign_commit {A} id change (k : HistoryM A) s :
  (∀ j, SyncJob.id (change j) = SyncJob.id j) → sound (tables s) = true →
  (update_job id change ;;; commit_history ;;; k) s = k (committed (set_job id change (tables s)) s).
Proof.
  intros Hid Hs. unfold update_job, modify, bind, commit_history, raise_. cbn.
  by rewrite sound_set_job, Hs.
Qed.
End Storing.

Section Settling.
Context {HF : FloatRepr} {HD : DatetimeText} {HL : LaxFields}.
Variable audit_service : AuditService HistoryState.

(** An audit service that answers and writes on a session of its own. *)
Definition audit_works : Prop := ∀ a s, ∃ r s',
  record_api_activity audit_service a s = (Ret r, s') ∧ untouched s s'.

Lemma sync_activity_works outcome_ id actor extra s : audit_works →
  ∃ s1, untouched s s1 ∧ sync_activity audit_service outcome_ id actor extra s = (Ret tt, s1).
Proof.
  intros Ha. destruct (Ha (activity "netbox.inventory_sync" "netbox_sync" (uuid_str id) outcome_ actor
    (("job_id", JStr (uuid_str id)) :: extra)) s) as (r & s1 & E & Hs).
  exists s1. split; [exact Hs|]. unfold sync_activity, bind. by rewrite E.
Qed.

(** An audit service that writes on a session of its own, whether it answers or raises. *)
Definition audit_apart : Prop := ∀ a s, untouched s (record_api_activity audit_service a s).2 ∧
  ∀ e, (record_api_activity audit_service a s).1 = Raise e → isinstance e Exception_ = true.

Lemma audit_works_apart : audit_works → audit_apart.
Proof. intros Ha a s. destruct (Ha a s) as (r & s' & -> & Hs). by split. Qed.

Lemma sync_activity_apart outcome_ id actor extra s : audit_apart →
  ∃ r s1, sync_activity audit_service outcome_ id actor extra s = (r, s1) ∧ untouched s s1 ∧
    (r = Ret tt ∨ ∃ e, r = Raise e ∧ isinstance e Exception_ = true).
Proof.
  intros Ha. unfold sync_activity, bind. destruct (Ha (activity "netbox.inventory_sync" "netbox_sync"
    (uuid_str id) outcome_ actor (("job_id", JStr (uuid_str id)) :: extra)) s) as [Hs He].
  destruct (record_api_activity _ _ s) as [[x|e] s1]; cbn -[isinstance] in Hs, He;
    (eexists _, s1; split; [reflexivity|]; split; [exact Hs|]); [by left|right; eauto].
Qed.

(** The handler: whatever the rows of the tables, the job is marked and committed; what
    escapes is what the audit of the failure raised. *)
Lemma sync_failed_spec id actor exc s : audit_apart → sound (tables s) = true →
  ∃ now r s1 s', sync_failed audit_service id actor exc s = (r, s') ∧ tables s' = saved s' ∧
    saved s' = set_job id (as_failed now (exn_str exc)) (tables s) ∧
    sync_activity audit_service "failed" id actor [("error", JStr (exn_str exc))] s1 = (r, s') ∧
    saved s1 = saved s'.
Proof.
  intros Ha Hs. set (now := instant s).
  set (s1 := committed (set_job id (as_failed now (exn_str exc)) (tables s)) (tick s)).
  assert ((finished_at <- Effects.utc_now ;;
     update_job id (as_failed finished_at (exn_str exc)) ;;; commit_history) s = (Ret tt, s1)) as E1.
  { unfold Effects.utc_now, bind, update_job, modify, commit_history. cbn.
    rewrite (sound_set_job id (as_failed _ _)) by done. by rewrite Hs. }
  destruct (sync_activity_apart "failed" id actor [("error", JStr (exn_str exc))] s1 Ha)
    as (r & s2 & E2 & [Ht Hu] & _).
  exists now, r, s1, s2. split; [|by rewrite Ht, Hu]. unfold sync_failed.
  erewrite bind_Ret by (unfold try_except; rewrite E1; reflexivity).
  exact E2.
Qed.

(** What a run leaves of the tables [before], which [store] found as the run had marked its
    job: the snapshot is stored and the job says so; or it is stored, but the audit of the
    success raised, and the job says it failed; or nothing is stored. *)
Inductive settled (synchronize : outcome NetBox.NetBoxInventorySnapshot) (id actor : UUID)
    (tenant : string) (s : HistoryState) (after : Tables) : Prop :=
  | sync_stored finished snapshot record rows s1 s2 :
      synchronize = Ret snapshot → snapshot_rows tenant record rows →
      after = set_job id (as_succeeded finished) (tables_app (running_tables id s) rows) →
      sync_activity audit_service "success" id actor
        [("device_count", JInt (Z.of_nat (length (NetBox.devices snapshot))))] s1 = (Ret tt, s2) →
      settled synchronize id actor tenant s after
  | sync_unrecorded finished failed snapshot record rows s1 e s2 :
      synchronize = Ret snapshot → snapshot_rows tenant record rows →
      sync_activity audit_service "success" id actor
        [("device_count", JInt (Z.of_nat (length (NetBox.devices snapshot))))] s1 = (Raise e, s2) →
      after = set_job id (as_failed failed (exn_str e))
        (set_job id (as_succeeded finished) (tables_app (running_tables id s) rows)) →
      settled synchronize id actor tenant s after
  | sync_refused failed e :
      (synchronize = Raise e ∨
       ∃ snapshot, synchronize = Ret snapshot ∧
         ((add_netbox_snapshot snapshot tenant ;;; commit_history)
            (committed (running_tables id s) (tick s))).1 = Raise e) →
      after = set_job id (as_failed failed (exn_str e)) (running_tables id s) →
      settled synchronize id actor tenant s after.

(** The body of the [try] succeeds with the snapshot, or raises with the snapshot stored,
    when the audit raised, or with nothing stored. *)
Lemma sync_body_spec synchronize id actor tenant s : audit_apart →
  (∀ e, synchronize = Raise e → isinstance e Exception_ = true) →
  tables s = saved s → sound (saved s) = true →
  ∃ r s', sync_body audit_service synchronize id actor tenant s = (r, s') ∧ sound (tables s') = true ∧
  ((∃ e, r = Raise e ∧ isinstance e Exception_ = true ∧ tables s' = saved s ∧
     (synchronize = Raise e ∨
      ∃ snapshot, synchronize = Ret snapshot ∧
        ((add_netbox_snapshot snapshot tenant ;;; commit_history) s).1 = Raise e)) ∨
   (∃ now snapshot record rows s1, synchronize = Ret snapshot ∧ snapshot_rows tenant record rows ∧
      tables s' = saved s' ∧ saved s' = set_job id (as_succeeded now) (tables_app (saved s) rows) ∧
      sync_activity audit_service "success" id actor
        [("device_count", JInt (Z.of_nat (length (NetBox.devices snapshot))))] s1 = (r, s') ∧
      (r = Ret tt ∨ ∃ e, r = Raise e ∧ isinstance e Exception_ = true))).
Proof.
  intros Ha Hexn Hclean Hs. unfold sync_body. destruct synchronize as [snapshot|e].
  2: { eexists _, s. split; [reflexivity|]. rewrite Hclean. split; [done|]. left. exists e.
       split_and!; auto. }
  erewrite bind_Ret by reflexivity. pose proof (store_snapshot_spec snapshot tenant s Hclean) as Hst.
  pose proof (store_snapshot_raises snapshot tenant s) as Herr.
  unfold bind at 1. destruct (store_snapshot snapshot tenant s) as [[u|e] s1].
  2: { destruct Hst as (Ht & Hsv & He). eexists _, s1. split; [reflexivity|]. rewrite Ht.
       split; [done|]. left. exists e. split_and!; auto. right. exists snapshot. split; [done|]. by eapply Herr. }
  destruct Hst as (Ht & record & rows & Hrows & Hsaved & Hsound).
  erewrite bind_Ret by reflexivity. rewrite assign_commit; [|done|].
  2: { cbn. by rewrite Ht. }
  match goal with |- context [sync_activity _ ?o ?i ?a ?x ?st] =>
    destruct (sync_activity_apart o i a x st Ha) as (r & s2 & E & [Ht2 Hs2] & Hr) end.
  cbn in Ht2, Hs2. eexists _, s2. split; [exact E|]. rewrite Ht2, Hs2. split.
  { rewrite sound_set_job by done. by rewrite Ht. }
  right. exists (instant s1), snapshot, record, rows. eexists. split_and!; try done.
  by rewrite Ht, Hsaved.
Qed.


(** ** Submission *)

Definition queued_job (id : UUID) (created started : datetime) : SyncJobRow := {|
  SyncJob.id := id; SyncJob.created_at := created; SyncJob.status := "queued";
  SyncJob.started_at := started; SyncJob.finished_at := None; SyncJob.error_message := None |}.

Lemma job_tables_kept t job : well_kept t → fresh_ids t [SyncJob.id job] →
  sound (tables_app t (set_t_sync_jobs [job] no_rows)) = true.
Proof.
  intros Hk Hf. apply sound_iff, kept_app; [exact Hk| |cbn; set_solver..].
  eapply fresh_ids_app; [by apply kept_ids|exact Hf|]. intros l Hl. unfold ids_of in Hl. cbn in Hl.
  repeat (apply elem_of_cons in Hl as [->|Hl]; [apply sublist_nil_l|]).
  by apply list_elem_of_singleton in Hl as ->.
Qed.

Lemma none_active jobs : List.find active_sync jobs = None → filter active_sync jobs = [].
Proof.
  intros Hf. induction jobs as [|j jobs IH]; [done|]. cbn in Hf. destruct (active_sync j) eqn:E; [done|].
  rewrite filter_cons_False; [by apply IH|rewrite E; by intros []].
Qed.

(** C19. A submission is refused with a conflict, changing nothing, exactly while a job is queued
    or running; otherwise one queued job is committed under a new identity, nothing else
    changes, and it is then the only active job. *)
Theorem sync_submission user s : audit_works →
  tables s = saved s → well_kept (saved s) → fresh_supply s →
  match List.find active_sync (t_sync_jobs (saved s)) with
  | Some _ => ∃ message, synchronize_inventory audit_service user s =
      (Raise (Exn (NetBoxIntegrationError 409 "NETBOX_SYNC_ALREADY_RUNNING") message), s)
  | None => ∃ id created started s',
      synchronize_inventory audit_service user s =
        (Ret {| SyncReply.job_id := id; SyncReply.status := "queued" |}, s') ∧
      id ∉ map SyncJob.id (t_sync_jobs (saved s)) ∧ tables s' = saved s' ∧
      saved s' = tables_app (saved s) (set_t_sync_jobs [queued_job id created started] no_rows) ∧
      filter active_sync (t_sync_jobs (saved s')) = [queued_job id created started]
  end.
Proof.
  intros Ha Hclean Hk Hsupply. unfold synchronize_inventory, history_query.
  erewrite bind_Ret by reflexivity. rewrite Hclean.
  destruct (List.find active_sync (t_sync_jobs (saved s))) as [j|] eqn:Hfind; [by eexists|].
  pose proof (supply_fresh s 1 Hsupply) as Hf. cbn in Hf. rewrite Hclean in Hf.
  set (id := history_uuids s (history_drawn s)) in *.
  erewrite bind_Ret by reflexivity. unfold create_sync_job.
  set (s1 := (fresh_uuid s).2). fold id.
  set (job := queued_job id (instant s1) (instant (tick s1))).
  set (after := tables_app (saved s) (set_t_sync_jobs [job] no_rows)).
  assert (sound after = true) as Hsound by (by apply job_tables_kept).
  set (s2 := set_tables after (tick (tick s1))).
  erewrite bind_Ret.
  2: { change (tables s1) with (tables s). unfold bind, Effects.utc_now, add_rows, modify, ret. cbn.
       rewrite Hclean. reflexivity. }
  fold job. erewrite bind_Ret.
  2: { unfold commit_history. change (tables _) with after at 1. rewrite Hsound. reflexivity. }
  match goal with |- context [sync_activity _ ?o ?i ?a ?x] =>
    destruct (sync_activity_works o i a x (committed after s2) Ha) as (s3 & [Ht Hs] & E) end.
  erewrite bind_Ret by exact E.
  exists id, (instant s1), (instant (tick s1)), s3. split; [done|].
  split. { intros Hin. destruct Hf as [_ Hun]. eapply Hun; [|left|exact Hin]. unfold ids_of. set_solver. }
  rewrite Ht, Hs. split; [done|]. split; [done|]. cbn. rewrite filter_app, none_active by done. done.
Qed.
End Settling.

(** ** On concrete tables *)

Module SyncExamples.
#[local] Existing Instances HistoryExamples.no_floats HistoryExamples.no_lax HistoryExamples.decimal_instants.

(** Without a repository the audit service only builds its record. *)
Definition silent : AuditService HistoryState := {| repository := None; repository_factory := None |}.

Lemma silent_works : audit_works silent.
Proof. intros a s. by eexists _, _. Qed.

(** A job that waits in tables without snapshots. *)
Definition waiting : SyncJobRow := queued_job 5%N 1 1.
Definition one_job : Tables := set_t_sync_jobs [waiting] no_rows.
Definition start_with (t : Tables) : HistoryState := {|
  tables := t; saved := t; history_clock := Z.of_nat; history_ticks := O;
  history_uuids := λ k, (100 + N.of_nat k)%N; history_drawn := O |}.


Lemma start_supply : fresh_supply (start_with no_rows).
Proof.
  split; [cbn; lia|]. intros k l _ Hl. unfold ids_of in Hl. cbn in Hl.
  repeat (apply elem_of_cons in Hl as [->|Hl]; [apply not_elem_of_nil|]). by apply elem_of_nil in Hl.
Qed.

Lemma sync_submission_witness :
  ∃ id created started s', synchronize_inventory silent 9%N (start_with no_rows) =
      (Ret {| SyncReply.job_id := id; SyncReply.status := "queued" |}, s') ∧
    filter active_sync (t_sync_jobs (saved s')) = [queued_job id created started].
Proof.
  destruct (sync_submission silent 9%N (start_with no_rows)) as (id & created & started & s' & E & _ & _ & _ & Hf);
    [exact silent_works|reflexivity|by apply sound_iff; vm_compute|exact start_supply|].
  exists id, created, started, s'. split; [exact E|exact Hf].
Defined.

(** A run that is cancelled while the service answers leaves its job running, and every later
    submission is then refused: what is caught is [Exception] only. *)
Lemma cancelled_sync_blocks :
  let s1 := (run_netbox_sync_background silent (raise_ CancelledError "") 5%N 9%N "acme" (start_with one_job)).2 in
  SyncJob.status <$> head (t_sync_jobs (saved s1)) = Some "running" ∧
  exn_cls <$> (match (synchronize_inventory silent 9%N s1).1 with Raise e => Some e | Ret _ => None end) =
    Some (NetBoxIntegrationError 409 "NETBOX_SYNC_ALREADY_RUNNING").
Proof. vm_compute. by split. Qed.

(** An audit repository that fails for a success: the snapshot is stored and the job says it
    failed. *)
Definition failing_audit : AuditService HistoryState := {|
  repository := Some (λ a, if arg_outcome a ≟ Some "success" then raise RuntimeError "no table"
                           else create_record a None);
  repository_factory := None |}.

Lemma stored_sync_marked_failed :
  let s1 := (run_netbox_sync_background failing_audit (Ret HistoryExamples.empty_netbox) 5%N 9%N "acme"
               (start_with one_job)).2 in
  (SyncJob.status <$> head (t_sync_jobs (saved s1)), length (t_snapshots (saved s1))) = (Some "failed", 1%nat).
Proof. vm_compute. reflexivity. Qed.
End SyncExamples.
