(* ===== verification/Application.v ===== *)
(** * The application ([core/application.py], [core/lifecycle.py])

    What surrounds the routes: the environment read at the start, the hooks and the
    recovery that bracket serving, the middlewares and the handlers every answer passes,
    and the notification channels and plugins of the container.  The wiring of
    [create_application] itself only passes the parts on to one another and is not
    repeated, nor are CORS, which is a library's, and the log of a request. *)

From S2P Require Import Prelude Vocabulary Effects Json EvidenceStore Dicts Texts JsonText.
From S2P Require Import ComparisonTheorems AuditTrail SnapshotModels History HistoryTheorems.
From S2P Require Import NetBoxSync.
#[local] Open Scope Z_scope.

(** ** The environment ([config/settings.py]) *)

Abbreviation Environment := (list (string * string)).

Definition quotes : list ascii := [double_quote; "'"%char].

(** [value[1:-1]] of a value that begins and ends with the same quote. *)
Definition unquote (value : string) : string :=
  match value, str_init_last value with
  | String c _, Some (_, d) =>
      if (c ≟ d) && mem c quotes then String.substring 1 (String.length value - 2) value else value
  | _, _ => value
  end.

(** What a line assigns, if it assigns anything. *)
Definition assignment (raw_line : string) : option (string * string) :=
  let line := str_strip raw_line in
  if negb (str_truthy line) || String.prefix "#" line then None
  else
    let line := if String.prefix "export " line then str_lstrip (String.substring 7 (String.length line) line) else line in
    match partition_at "="%char line with
    | None => None
    | Some (key, value) =>
        let key := str_strip key in
        if str_truthy key then Some (key, unquote (str_strip value)) else None
    end.

(** One turn of the loop, on the process environment and on what was loaded. *)
Definition load_line (override : bool) (acc : Environment * Environment) (raw_line : string)
    : Environment * Environment :=
  let '(environ, loaded) := acc in
  match assignment raw_line with
  | Some (key, value) =>
      if negb override && has key environ then acc
      else (put key value environ, put key value loaded)
  | None => acc
  end.

(** [load_runtime_environment]; [None] is a file that does not exist. *)
Definition load_runtime_environment (file : option string) (override : bool) (environ : Environment)
    : Environment * Environment :=
  match file with
  | None => (environ, [])
  | Some text => fold_left (load_line override) (splitlines text) (environ, [])
  end.

(** ** Hooks ([core/lifecycle.py]) *)

Section Lifecycle.
Context {S : Type}.

Record ApplicationLifecycleManager := {
  startup_hooks : list (M S unit);
  shutdown_hooks : list (M S unit);
}.

Definition register_startup (hook : M S unit) (m : ApplicationLifecycleManager) : ApplicationLifecycleManager :=
  {| startup_hooks := startup_hooks m ++ [hook]; shutdown_hooks := shutdown_hooks m |}.
Definition register_shutdown (hook : M S unit) (m : ApplicationLifecycleManager) : ApplicationLifecycleManager :=
  {| startup_hooks := startup_hooks m; shutdown_hooks := shutdown_hooks m ++ [hook] |}.

(** [_run_hooks]. *)
Definition run_hooks (hooks : list (M S unit)) : M S unit :=
  for_each hooks (λ hook, try_except hook (λ exc,
    if isinstance exc Exception_ then raise (OtherError "LifecycleError") "Application lifecycle hook failed."
    else reraise exc)).

Definition startup (m : ApplicationLifecycleManager) : M S unit := run_hooks (startup_hooks m).
Definition shutdown (m : ApplicationLifecycleManager) : M S unit := run_hooks (rev (shutdown_hooks m)).

(** [lifecycle_context] around a body. *)
Definition lifecycle_context {A} (m : ApplicationLifecycleManager) (body : M S A) : M S A :=
  startup m ;;; try_finally body (shutdown m).
End Lifecycle.
Arguments ApplicationLifecycleManager S : clear implicits.

(** ** Starting and stopping ([lifespan] of [create_application]) *)

Definition restarted_message : string := "System restarted during synchronization.".

(** The jobs of the synchronization that were left behind are ended; what this raises is
    swallowed.  Closing the session drops what was not committed. *)
Definition recover_stuck_syncs : HistoryM unit :=
  try_finally
    (try_except
       (stuck_jobs <- history_query (λ t, List.filter active_sync (t_sync_jobs t)) ;;
        for_each stuck_jobs (λ job,
          finished_at <- Effects.utc_now ;;
          update_job (SyncJob.id job) (as_failed finished_at restarted_message)) ;;;
        commit_history)
       (λ exc, if isinstance exc Exception_ then rollback_history else reraise exc))
    rollback_history.

(** The discovery worker of [lifespan], as a pair of computations. *)
Record LifespanWorker := { start_worker : HistoryM unit; stop_worker : HistoryM unit }.

Definition lifespan {A} (lifecycle : ApplicationLifecycleManager HistoryState)
    (worker : option LifespanWorker) (serving : HistoryM A) : HistoryM A :=
  lifecycle_context lifecycle (
    recover_stuck_syncs ;;;
    from_option start_worker (ret tt) worker ;;;
    try_finally serving (from_option stop_worker (ret tt) worker)).

(** ** Answers *)

(** A response; the names of headers are kept in lower case. *)
Record HttpResponse := {
  http_status : Z;
  http_headers : list (string * string);
  http_body : json;
}.

Definition set_header (name value : string) (r : HttpResponse) : HttpResponse :=
  {| http_status := http_status r; http_headers := put name value (http_headers r); http_body := http_body r |}.

(** [headers.setdefault]. *)
Definition default_header (name value : string) (r : HttpResponse) : HttpResponse :=
  if has name (http_headers r) then r else set_header name value r.

Definition json_response (status_code : Z) (content : dict) : HttpResponse :=
  {| http_status := status_code; http_headers := [("content-type", "application/json")]; http_body := JDict content |}.

(** [handle_http_error]. *)
Definition status_map : list (Z * string) := [
  (400, "bad_request"); (401, "unauthorized"); (403, "forbidden"); (404, "not_found");
  (409, "conflict"); (422, "validation_error")].

Definition handle_http_error (status_code : Z) (detail : string) : HttpResponse :=
  json_response status_code [("detail", JStr detail);
    ("error", JStr (from_option id "http_error" (get status_code status_map)))].

(** [handle_netbox_integration_error]; no route gives the error details. *)
Definition handle_netbox_integration_error (status_code : Z) (code message : string) : HttpResponse :=
  json_response status_code [("code", JStr code); ("message", JStr message); ("details", JNull)].

(** [handle_unexpected_error]. *)
Definition handle_unexpected_error : HttpResponse :=
  json_response 500 [("detail", JStr "Internal server error"); ("error", JStr "internal_server_error")].

Section Answers.
Context {S : Type} `{!Uuids S}.

(** [exc.errors()] of a request that does not validate: dictionaries whose values are
    JSON or other objects, such as the [ValueError] of a validator in [ctx], each with
    the exception [json.dumps] raises on it. *)
Variable request_errors : exn → list (list (string * (json + exn))).

(** [json.dumps] of the errors, as the constructor of [JSONResponse] calls it. *)
Fixpoint render_error (error : list (string * (json + exn))) : outcome dict :=
  match error with
  | [] => Ret []
  | (_, inr exc) :: _ => Raise exc
  | (field, inl value) :: error =>
      match render_error error with Ret d => Ret ((field, value) :: d) | Raise exc => Raise exc end
  end.

Fixpoint render_errors (errors : list (list (string * (json + exn)))) : outcome (list json) :=
  match errors with
  | [] => Ret []
  | error :: errors =>
      match render_error error with
      | Raise exc => Raise exc
      | Ret d => match render_errors errors with Ret ds => Ret (JDict d :: ds) | Raise exc => Raise exc end
      end
  end.

(** [handle_validation_error]. *)
Definition handle_validation_error (exc : exn) : outcome HttpResponse :=
  match render_errors (request_errors exc) with
  | Ret errors => Ret (json_response 422 [("detail", JList errors); ("error", JStr "validation_error")])
  | Raise e => Raise e
  end.

(** What the handler registered for the class of an exception comes to, but for the one
    of [Exception]. *)
Definition handler_for (exc : exn) : option (outcome HttpResponse) :=
  match exn_cls exc with
  | NetBoxIntegrationError status_code code =>
      Some (Ret (handle_netbox_integration_error status_code code (exn_str exc)))
  | OtherError "RequestValidationError" => Some (handle_validation_error exc)
  | HTTPException status_code => Some (Ret (handle_http_error status_code (exn_str exc)))
  | _ => None
  end.

Definition handled (route : HttpRequest → M S HttpResponse) (request : HttpRequest) : M S HttpResponse :=
  try_except (route request) (λ exc,
    match handler_for exc with Some response => of_outcome response | None => reraise exc end).

(** [request_logging_middleware], but for the log. *)
Definition mark_request (request_id path : string) (r : HttpResponse) : HttpResponse :=
  let r := set_header "x-request-id" request_id r in
  if String.prefix "/auth" path then set_header "x-auth-handled" "true" r else r.

Definition request_logging_middleware (call_next : HttpRequest → M S HttpResponse) (request : HttpRequest)
    : M S HttpResponse :=
  request_id <- (match request_header request "x-request-id" with
                 | Some given => if str_truthy given then ret given else id <- fresh_uuid ;; ret (uuid_str id)
                 | None => id <- fresh_uuid ;; ret (uuid_str id)
                 end) ;;
  response <- call_next request ;;
  ret (mark_request request_id (request_path request) response).

(** [security_headers_middleware]. *)
Definition secure (r : HttpResponse) : HttpResponse :=
  default_header "cache-control" "no-store" (default_header "x-content-type-options" "nosniff" r).

Definition security_headers_middleware (call_next : HttpRequest → M S HttpResponse) (request : HttpRequest)
    : M S HttpResponse :=
  response <- call_next request ;;
  ret (secure response).

(** The stack: the middleware added last is the outermost but for the one that answers
    unexpected exceptions, which surrounds them all. *)
Definition answer (route : HttpRequest → M S HttpResponse) (request : HttpRequest) : M S HttpResponse :=
  try_except (security_headers_middleware (request_logging_middleware (handled route)) request)
    (λ exc, if isinstance exc Exception_ then ret handle_unexpected_error else reraise exc).
End Answers.

(** ** Notifications ([notifications/]) *)

Record NotificationMessage := {
  message_channel : string;
  message_recipient : string;
  message_subject : string;
  message_body : string;
  message_event : BaseEvent;
  message_metadata : dict;
}.

Record WebhookDeliveryRequest := {
  webhook_url : string;
  webhook_payload : dict;
  webhook_headers : list (string * string);
}.

Record EmailMessage := {
  email_recipient : string;
  email_subject : string;
  email_body : string;
  email_metadata : dict;
}.

Section Notifications.
Context {S : Type} {HF : FloatRepr}.

Record NotificationService := {
  adapters : list (string * (NotificationMessage → M S unit));
  mappings : list (string * string);
}.

(** [_resolve_channel]: the first mapping of the event. *)
Definition resolve_channel (svc : NotificationService) (event : BaseEvent) : M S string :=
  match get (event_name event) (mappings svc) with
  | Some channel => ret channel
  | None => raise (OtherError "UnsupportedNotificationChannelError")
      ("No notification channel registered for event '" +:+ event_name event +:+ "'.")
  end.

(** [NotificationService.dispatch]. *)
Definition dispatch_notification (svc : NotificationService) (event : BaseEvent) : M S unit :=
  channel <- resolve_channel svc event ;;
  match get channel (adapters svc) with
  | None => raise (OtherError "UnsupportedNotificationChannelError")
      ("Notification channel '" +:+ channel +:+ "' is not registered.")
  | Some adapter => adapter {|
      message_channel := channel; message_recipient := ""; message_subject := event_name event;
      message_body := py_str (JDict (event_payload event)); message_event := event;
      message_metadata := [("event_name", JStr (event_name event))] |}
  end.

Definition register_mapping (name channel : string) (svc : NotificationService) : NotificationService :=
  {| adapters := adapters svc; mappings := mappings svc ++ [(name, channel)] |}.

(** [WebhookNotificationChannelAdapter.deliver], over a port. *)
Definition deliver_webhook (isoformat : datetime → string) (delivery : WebhookDeliveryRequest → M S unit)
    (message : NotificationMessage) : M S unit :=
  let event := message_event message in
  delivery {|
    webhook_url := message_recipient message;
    webhook_payload := [
      ("event", JDict [("name", JStr (event_name event)); ("payload", JDict (event_payload event));
                       ("occurred_at", JStr (isoformat (occurred_at event)))]);
      ("message", JStr (message_body message))];
    webhook_headers := [("Content-Type", "application/json")] |}.

(** [EmailNotificationChannelAdapter.deliver]. *)
Definition deliver_email (send : EmailMessage → M S unit) (message : NotificationMessage) : M S unit :=
  send {|
    email_recipient := message_recipient message; email_subject := message_subject message;
    email_body := message_body message;
    email_metadata := [("event_name", JStr (event_name (message_event message)))] |}.
End Notifications.
Arguments NotificationService S : clear implicits.

(** The adapters that record what they are given. *)
Definition record_request (r : WebhookDeliveryRequest) : M (list WebhookDeliveryRequest) unit :=
  modify (λ requests, requests ++ [r]).
Definition record_email (m : EmailMessage) : M (list EmailMessage) unit := modify (λ messages, messages ++ [m]).

(** ** Plugins ([core/plugins.py]) *)

Section Plugins.
Context {Plugin : Type} (plugin_name : Plugin → string).
Abbreviation PluginRegistry := (list (string * Plugin)).

Definition register_plugin (p : Plugin) (r : PluginRegistry) : outcome PluginRegistry :=
  if has (plugin_name p) r
  then raise_ (OtherError "PluginError") ("Plugin '" +:+ plugin_name p +:+ "' is already registered.")
  else Ret (put (plugin_name p) p r).

Definition get_plugin (name : string) (r : PluginRegistry) : outcome Plugin :=
  match get name r with
  | Some p => Ret p
  | None => raise_ (OtherError "PluginError") ("Plugin '" +:+ name +:+ "' is not registered.")
  end.

Definition list_plugins (r : PluginRegistry) : list Plugin := values r.
End Plugins.

(** ** What the environment ends up with *)

(** What one line makes of the value of a key. *)
Lemma load_line_get override environ loaded line k :
  get k (load_line override (environ, loaded) line).1 =
  match assignment line with
  | Some (key, value) =>
      if key ≟ k then if negb override && has k environ then get k environ else Some value
      else get k environ
  | None => get k environ
  end.
Proof.
  unfold load_line. destruct (assignment line) as [[key value]|]; [|done].
  destruct (key ≟ k) eqn:E.
  - rewrite eqb_true in E. subst key. destruct (negb override && has k environ); [done|].
    cbn [fst]. by rewrite get_put, Prelude.eqb_refl.
  - destruct (negb override && has key environ); [done|]. cbn [fst]. by rewrite get_put, E.
Qed.

Lemma load_lines_get override lines environ loaded k :
  get k (fold_left (load_line override) lines (environ, loaded)).1 =
  if override then
    match last_of k (omap assignment lines) with Some v => Some v | None => get k environ end
  else
    match get k environ with Some v => Some v | None => get k (omap assignment lines) end.
Proof.
  revert environ loaded. induction lines as [|line lines IH]; intros environ loaded.
  { cbn. destruct override; [done|]. by destruct (get k environ). }
  cbn [fold_left]. pose proof (load_line_get override environ loaded line k) as Hg.
  destruct (load_line override (environ, loaded) line) as [environ' loaded'] eqn:E. rewrite IH.
  cbn [fst] in Hg. rewrite Hg. change (omap assignment (line :: lines)) with
    (match assignment line with Some a => a :: omap assignment lines | None => omap assignment lines end).
  destruct (assignment line) as [[key value]|]; [|done]. destruct override; cbn [negb andb].
  - rewrite last_of_cons. destruct (last_of k (omap assignment lines)); [done|]. by destruct (key ≟ k).
  - unfold has. cbn [get]. destruct (key ≟ k); [|done]. by destruct (get k environ).
Qed.

(** A variable that is set keeps its value, unless the file may override it, and an unset
    one takes the first value the file gives it; with overriding the last one counts. *)
Lemma environment_precedence text override environ k :
  get k (load_runtime_environment (Some text) override environ).1 =
  let given := omap assignment (splitlines text) in
  if override then match last_of k given with Some v => Some v | None => get k environ end
  else match get k environ with Some v => Some v | None => get k given end.
Proof. apply load_lines_get. Qed.

(** ** What a client is answered *)

Section Answering.
Context {S : Type} `{!Uuids S}.
Variable request_errors : exn → list (list (string * (json + exn))).

(** The identity a request goes by: the one it carries, or a new one. *)
Definition carried (request : HttpRequest) : option string :=
  match request_header request "x-request-id" with
  | Some given => if str_truthy given then Some given else None
  | None => None
  end.

Definition identified (request : HttpRequest) (s : S) : outcome string * S :=
  match carried request with
  | Some given => (Ret given, s)
  | None => (id <- fresh_uuid ;; ret (uuid_str id)) s
  end.

(** The outcome of a route and of the handler of its exception. *)
Definition resolved (o : outcome HttpResponse) : outcome HttpResponse :=
  match o with
  | Ret response => Ret response
  | Raise exc => from_option id (Raise exc) (handler_for request_errors exc)
  end.

(** What becomes of it. *)
Definition answered (request_id path : string) (o : outcome HttpResponse) : outcome HttpResponse :=
  match resolved o with
  | Ret response => Ret (secure (mark_request request_id path response))
  | Raise exc => if isinstance exc Exception_ then Ret handle_unexpected_error else Raise exc
  end.

Lemma get_set_header name name' value r :
  get name (http_headers (set_header name' value r)) = if name' ≟ name then Some value else get name (http_headers r).
Proof. apply get_put. Qed.

Lemma has_default_header name name' value r :
  has name (http_headers (default_header name' value r)) = (name' ≟ name) || has name (http_headers r).
Proof.
  unfold default_header. destruct (has name' (http_headers r)) eqn:E; [|apply has_put].
  destruct (name' ≟ name) eqn:En; [|done]. rewrite eqb_true in En. by subst.
Qed.

Lemma get_default_header name name' value r : name' ≟ name = false →
  get name (http_headers (default_header name' value r)) = get name (http_headers r).
Proof.
  intros Hn. unfold default_header. destruct (has name' (http_headers r)); [done|]. by rewrite get_set_header, Hn.
Qed.

(** The marks of a response that passed both middlewares. *)
Definition marked (id : string) (response : HttpResponse) : Prop :=
  get "x-request-id" (http_headers response) = Some id ∧
  has "x-content-type-options" (http_headers response) = true ∧
  has "cache-control" (http_headers response) = true.

Lemma secure_marked id path r : marked id (secure (mark_request id path r)).
Proof.
  unfold marked, secure. rewrite !has_default_header, !get_default_header by reflexivity.
  split; [|split; [by rewrite orb_true_r|done]].
  unfold mark_request. destruct (String.prefix "/auth" path); by rewrite !get_set_header.
Qed.

(** A value of the errors of a request that JSON cannot express. *)
Definition unwritable (e : exn) (errors : list (list (string * (json + exn)))) : Prop :=
  ∃ error field, error ∈ errors ∧ (field, inr e) ∈ error.

Lemma render_error_spec error :
  match render_error error with
  | Ret d => error = map (λ '(field, value), (field, inl value)) d
  | Raise e => ∃ field, (field, inr e) ∈ error
  end.
Proof.
  induction error as [|[field [value|e]] error IH]; cbn; [done| |exists field; left].
  destruct (render_error error) as [d|e]; [by rewrite IH|]. destruct IH as [f Hf]. exists f. by right.
Qed.

Lemma render_errors_spec errors :
  match render_errors errors with
  | Ret ds => ∃ errors', ds = map JDict errors' ∧
      errors = map (map (λ '(field, value), (field, inl value))) errors'
  | Raise e => unwritable e errors
  end.
Proof.
  induction errors as [|error errors IH]; cbn; [by exists []|].
  pose proof (render_error_spec error) as Hd. destruct (render_error error) as [d|e].
  - destruct (render_errors errors) as [ds|e].
    + destruct IH as (errors' & -> & ->). exists (d :: errors'). by rewrite Hd.
    + destruct IH as (error' & field & He & Hf). exists error', field. split; [by right|done].
  - destruct Hd as [field Hf]. exists error, field. split; [left|done].
Qed.

(** C29. Every request is answered, but for exceptions that end the task itself. What
    the route returns, or the handler of its exception answers, carries the identity of
    the request and the headers that forbid sniffing and, unless the route says
    otherwise, storing; any other exception becomes one fixed response without them, so
    that nothing of it is disclosed. A request that does not validate is answered 422
    with its errors if JSON can express them; if one holds another object, such as the
    [ValueError] of a validator, the handler raises and the answer is the fixed one. *)
Theorem every_request_answered route request id s s1 : identified request s = (Ret id, s1) →
  let '(o, s2) := route request s1 in
  answer request_errors route request s = (answered id (request_path request) o, s2) ∧
  match answered id (request_path request) o with
  | Ret response =>
      (∃ r, resolved o = Ret r ∧ response = secure (mark_request id (request_path request) r) ∧
        marked id response) ∨
      (∃ exc, resolved o = Raise exc ∧ isinstance exc Exception_ = true ∧ response = handle_unexpected_error)
  | Raise exc => resolved o = Raise exc ∧ isinstance exc Exception_ = false
  end ∧
  ∀ exc, o = Raise exc → exn_cls exc = OtherError "RequestValidationError" →
    match resolved o with
    | Ret r => http_status r = 422 ∧ ∃ errors,
        request_errors exc = map (map (λ '(field, value), (field, inl value))) errors ∧
        http_body r = JDict [("detail", JList (map JDict errors)); ("error", JStr "validation_error")]
    | Raise e => unwritable e (request_errors exc)
    end.
Proof.
  intros Hid. destruct (route request s1) as [o s2] eqn:Hroute. split; [|split].
  - assert (request_logging_middleware (handled request_errors route) request s =
            (response <- handled request_errors route request ;;
             ret (mark_request id (request_path request) response)) s1) as Hlog.
    { unfold request_logging_middleware, identified, carried in *. unfold bind at 1.
      destruct (request_header request "x-request-id") as [given|]; [destruct (str_truthy given)|];
        try by rewrite Hid. by injection Hid as <- <-. }
    unfold answer, try_except, security_headers_middleware. unfold bind at 1. rewrite Hlog.
    unfold bind, handled, try_except. rewrite Hroute. unfold answered, resolved.
    destruct o as [response|exc]; [done|]. cbn -[isinstance].
    destruct (handler_for request_errors exc) as [[r|e]|]; [done|..]; cbn -[isinstance];
      by destruct (isinstance _ Exception_).
  - unfold answered. destruct (resolved o) as [r|exc].
    + left. exists r. split; [done|]. split; [done|]. apply secure_marked.
    + destruct (isinstance exc Exception_) eqn:E; [|done]. right. by exists exc.
  - intros exc -> Hexc. cbn [resolved]. unfold handler_for. rewrite Hexc. cbn [from_option].
    unfold handle_validation_error. pose proof (render_errors_spec (request_errors exc)) as Hr.
    destruct (render_errors (request_errors exc)) as [ds|e]; cbn; [|done].
    destruct Hr as (errors & -> & ?). split; [done|]. by exists errors.
Qed.
End Answering.

(** ** What a start recovers *)

Section Recovery.

(** The jobs after the loop: those that were selected are ended, at their times. *)
Definition ended_jobs (selected : list UUID) (ended : UUID → datetime) (jobs : list SyncJobRow) : list SyncJobRow :=
  map (λ j, if mem (SyncJob.id j) selected then as_failed (ended (SyncJob.id j)) restarted_message j else j) jobs.

Lemma ended_jobs_cons id now selected ended jobs : id ∉ selected →
  ended_jobs (id :: selected) (λ i, if i ≟ id then now else ended i) jobs =
  ended_jobs selected ended
    (map (λ j, if SyncJob.id j ≟ id then as_failed now restarted_message j else j) jobs).
Proof.
  intros Hn. unfold ended_jobs. rewrite map_map. apply map_ext. intros j.
  destruct (SyncJob.id j ≟ id) eqn:E; cbn [as_failed SyncJob.id].
  - rewrite eqb_true in E. rewrite E. assert (mem id (id :: selected) = true) as -> by (pybool; set_solver).
    assert (mem id selected = false) as -> by by pybool. done.
  - assert (mem (SyncJob.id j) (id :: selected) = mem (SyncJob.id j) selected) as ->; [|done].
    apply eq_true_iff_eq. pybool. rewrite elem_of_cons. naive_solver.
Qed.

Lemma end_jobs_spec selected s : NoDup (map SyncJob.id selected) →
  ∃ ended s', for_each selected (λ job,
      finished_at <- Effects.utc_now ;;
      update_job (SyncJob.id job) (as_failed finished_at restarted_message)) s = (Ret tt, s') ∧
    saved s' = saved s ∧
    tables s' = set_t_sync_jobs (ended_jobs (map SyncJob.id selected) ended (t_sync_jobs (tables s))) (tables s).
Proof.
  revert s. induction selected as [|job selected IH]; intros s Hnd.
  { exists (λ _, 0), s. split; [done|]. split; [done|]. unfold ended_jobs. cbn. rewrite map_id. by destruct (tables s). }
  cbn [map] in Hnd. apply NoDup_cons in Hnd as [Hn Hnd].
  set (now := instant s). set (s1 := set_tables (set_job (SyncJob.id job) (as_failed now restarted_message) (tables s)) (tick s)).
  destruct (IH s1 Hnd) as (ended & s' & E & Hsaved & Htables).
  exists (λ i, if i ≟ SyncJob.id job then now else ended i), s'. split; [exact E|]. split; [by rewrite Hsaved|].
  cbn [map]. rewrite ended_jobs_cons by done. rewrite Htables. reflexivity.
Qed.

Lemma active_ids jobs : NoDup (map SyncJob.id jobs) → ∀ j, j ∈ jobs →
  mem (SyncJob.id j) (map SyncJob.id (List.filter active_sync jobs)) = active_sync j.
Proof.
  intros Hnd j Hj. destruct (active_sync j) eqn:E.
  - pybool. apply list_elem_of_In, in_map, List.filter_In. by rewrite <- list_elem_of_In.
  - pybool. intros Hin. apply list_elem_of_In, in_map_iff in Hin as (j' & Hid & Hj').
    apply List.filter_In in Hj' as [Hj' E']. rewrite <- list_elem_of_In in Hj'.
    pose proof (last_with_unique SyncJob.id jobs j' Hnd Hj') as Hlast.
    rewrite Hid, (last_with_unique SyncJob.id jobs j Hnd Hj) in Hlast. injection Hlast as ->.
    by rewrite E in E'.
Qed.

Lemma sound_sync_jobs jobs t : map SyncJob.id jobs = map SyncJob.id (t_sync_jobs t) →
  sound (set_t_sync_jobs jobs t) = sound t.
Proof. unfold sound, ids_of. cbn. by intros ->. Qed.

(** C20. A start ends every job of the synchronization that was left queued or running, with the
    reason and its time, changes no other row, and commits; no job is active then, so that
    the next submission is not refused. *)
Theorem start_recovers s : tables s = saved s → sound (saved s) = true →
  ∃ ended s', recover_stuck_syncs s = (Ret tt, s') ∧ tables s' = saved s' ∧
    saved s' = set_t_sync_jobs (map (λ j, if active_sync j
      then as_failed (ended (SyncJob.id j)) restarted_message j else j) (t_sync_jobs (saved s))) (saved s) ∧
    List.find active_sync (t_sync_jobs (saved s')) = None.
Proof.
  intros Hclean Hs. set (jobs := t_sync_jobs (saved s)).
  assert (NoDup (map SyncJob.id jobs)) as Hnd.
  { apply sound_iff in Hs as [Hids _]. apply Hids. unfold ids_of. set_solver. }
  destruct (end_jobs_spec (List.filter active_sync jobs) s) as (ended & s1 & E & Hsaved & Htables).
  { by apply NoDup_filter_map. }
  assert (ended_jobs (map SyncJob.id (List.filter active_sync jobs)) ended jobs =
          map (λ j, if active_sync j then as_failed (ended (SyncJob.id j)) restarted_message j else j) jobs) as Hjobs.
  { apply map_ext_in. intros j Hj. rewrite active_ids; [done|exact Hnd|by apply list_elem_of_In]. }
  rewrite Hclean in Htables. fold jobs in Htables. rewrite Hjobs in Htables.
  assert (sound (tables s1) = true) as Hs1.
  { rewrite Htables, sound_sync_jobs; [done|]. fold jobs. rewrite map_map. apply map_ext. intros j.
    by destruct (active_sync j). }
  exists ended, (set_tables (tables s1) (set_saved (tables s1) s1)). split; [|split; [done|split; [exact Htables|]]].
  - unfold recover_stuck_syncs, try_finally, try_except, history_query. unfold bind at 1, gets.
    rewrite Hclean. fold jobs. unfold bind at 1. rewrite E. unfold commit_history. rewrite Hs1. reflexivity.
  - cbn. rewrite Htables. cbn. clear. induction jobs as [|j jobs IH]; [done|]. cbn.
    destruct (active_sync j) eqn:E; cbn; [exact IH|]. by rewrite E.
Qed.
End Recovery.

(** ** On concrete requests, jobs and messages *)

Module ApplicationExamples.
#[local] Existing Instances HistoryExamples.no_floats HistoryExamples.no_lax HistoryExamples.decimal_instants.

(** Identities are drawn from a counter. *)
#[local] Instance counted_uuids : Uuids nat := λ n, (Ret (N.of_nat n), Datatypes.S n).

Definition no_errors (_ : exn) : list (list (string * (json + exn))) := [].
Definition plain_request : HttpRequest := {|
  request_header := λ _, None; request_method := "GET"; request_path := "/api/v1/devices"; request_query := [] |}.
Definition failing_route (exc : exn) : HttpRequest → M nat HttpResponse := λ _, reraise exc.

Lemma every_request_answered_witness :
  answer no_errors (failing_route (Exn (HTTPException 404) "Device not found")) plain_request 7%nat =
    (Ret (secure (mark_request (uuid_str 7%N) "/api/v1/devices" (handle_http_error 404 "Device not found"))), 8%nat).
Proof.
  pose proof (every_request_answered no_errors (failing_route (Exn (HTTPException 404) "Device not found"))
    plain_request (uuid_str 7%N) 7%nat 8%nat eq_refl) as H.
  exact (proj1 H).
Defined.

(** The answer to an unexpected exception passes neither middleware: it has no identity and
    may be stored. *)
Lemma unexpected_error_unmarked :
  let r := (answer no_errors (failing_route (Exn KeyError "devices")) plain_request 7%nat).1 in
  r = Ret handle_unexpected_error ∧ get "x-request-id" (http_headers handle_unexpected_error) = None ∧
  has "cache-control" (http_headers handle_unexpected_error) = false.
Proof. by vm_compute. Qed.

(** A discovery target with a blank name: the validator's [ValueError] is in the errors, and
    the client is answered 500 without an identity where the handler means 422. *)
Definition blank_name (_ : exn) : list (list (string * (json + exn))) := [
  [("type", inl (JStr "value_error")); ("msg", inl (JStr "Value error, Value cannot be blank."));
   ("ctx", inr (Exn TypeError "Object of type ValueError is not JSON serializable"))]].

Lemma validator_error_unanswered :
  let invalid := Exn (OtherError "RequestValidationError") "" in
  (answer no_errors (failing_route invalid) plain_request 7%nat).1 =
    Ret (secure (mark_request (uuid_str 7%N) "/api/v1/devices"
      (json_response 422 [("detail", JList []); ("error", JStr "validation_error")]))) ∧
  (answer blank_name (failing_route invalid) plain_request 7%nat).1 = Ret handle_unexpected_error.
Proof. by vm_compute. Qed.

Lemma start_recovers_witness :
  ∃ s', recover_stuck_syncs (SyncExamples.start_with SyncExamples.one_job) = (Ret tt, s') ∧
    List.find active_sync (t_sync_jobs (saved s')) = None.
Proof.
  destruct (start_recovers (SyncExamples.start_with SyncExamples.one_job)) as (ended & s' & E & _ & _ & Hf);
    [reflexivity|reflexivity|]. by exists s'.
Defined.

(** A synchronization that was cancelled while it ran blocks all others until the next start. *)
Lemma restart_unblocks :
  let cancelled := (run_netbox_sync_background SyncExamples.silent (raise_ CancelledError "") 5%N 9%N "acme"
                      (SyncExamples.start_with SyncExamples.one_job)).2 in
  let submit s := is_ret (synchronize_inventory SyncExamples.silent 9%N s).1 in
  submit cancelled = false ∧ submit (recover_stuck_syncs cancelled).2 = true.
Proof. by vm_compute. Qed.

(** A lifespan whose serving fails: the hooks bracket it, the last one registered first at
    the end. *)
Definition note (n : UUID) : HistoryM unit := add_rows (set_t_sync_jobs [queued_job n 0 0] no_rows).
Definition noted (s : HistoryState) : list UUID := map SyncJob.id (t_sync_jobs (tables s)).

Lemma hooks_bracket :
  let hooks := register_shutdown (note 4%N) (register_shutdown (note 3%N) (register_startup (note 2%N)
    (register_startup (note 1%N) {| startup_hooks := []; shutdown_hooks := [] |}))) in
  let worker := {| start_worker := note 5%N; stop_worker := note 6%N |} in
  let '(o, s) := lifespan hooks (Some worker) (note 7%N ;;; raise (A := unit) RuntimeError "")
    (SyncExamples.start_with no_rows) in
  (is_ret o, noted s) = (false, [1%N; 2%N; 5%N; 7%N; 6%N; 4%N; 3%N]).
Proof. by vm_compute. Qed.

(** Messages have no recipient: a webhook is delivered to the empty address. *)
Definition job_submitted : BaseEvent := {| event_name := "job.submitted"; event_payload := []; occurred_at := 0 |}.

Lemma webhook_has_no_address :
  let svc := {| adapters := [("webhook", deliver_webhook (λ _, "now") record_request)];
                mappings := [("job.submitted", "webhook")] |} in
  map webhook_url (dispatch_notification svc job_submitted []).2 = [""].
Proof. by vm_compute. Qed.

(** Lines of an environment file: comments, blanks, exports and quotes. *)
Lemma environment_read :
  load_runtime_environment (Some (unlines ["# settings"; ""; "export NETBOX_URL = 'http://nb'"; "REDIS_URL=redis://b"; "=none"]))
    false [("REDIS_URL", "redis://a")] =
  ([("REDIS_URL", "redis://a"); ("NETBOX_URL", "http://nb")], [("NETBOX_URL", "http://nb")]).
Proof. by vm_compute. Qed.
End ApplicationExamples.
