(* ===== verification/Auth.v ===== *)
(** * Authentication and authorization ([auth/])

    The users, roles and permissions of [auth/infrastructure/models.py] with the
    repositories over them, the password and token services, [AuthenticationService] and
    [AuthorizationService], and the dependencies that guard the API routes
    ([auth/api/dependencies.py]).  PBKDF2 and SHA-256 are the standard library's digests,
    parameters here; salts, identifiers and clock readings are drawn from the state.
    Timestamps of the rows that nothing reads are left out.  The database checks the
    unique names and emails, and the keys of the association tables. *)

From S2P Require Import Prelude Vocabulary Effects Json EvidenceStore Texts JsonText.
From S2P Require Import Dicts AuditTrail.
From stdpp Require Import sorting.
#[local] Open Scope Z_scope.

(** ** Domain objects ([auth/domain/models.py]) *)

Record Permission := { perm_id : UUID; perm_name : string; perm_description : string }.
Record Role := {
  role_id : UUID; role_name : string; role_description : string; role_permissions : list Permission }.
Record User := {
  user_id : UUID; username : string; email : string; password_hash : string;
  is_active_user : bool; user_roles : list Role }.
Record TokenPair := { access_token : string; refresh_token : string; token_type : string }.

(** The metadata is the decoded text, and so any value. *)
Record AuditEvent := {
  event_id : UUID; event_type_of : string; event_subject_id : option UUID;
  event_actor_id : option UUID; event_metadata : json; event_created_at : datetime }.

(** ** Tables ([auth/infrastructure/models.py]) *)

Record AuthRole := {
  ar_id : UUID; ar_name : string; ar_description : string; ar_permission_ids : list UUID }.
Record AuthUser := {
  us_id : UUID; us_username : string; us_email : string; us_password_hash : string;
  us_is_active : bool; us_role_ids : list UUID }.
Record AuthAuditEvent := {
  ae_id : UUID; ae_event_type : string; ae_subject_id : option UUID; ae_actor_id : option UUID;
  ae_metadata_payload : string; ae_created_at : datetime }.

Record AuthState := {
  users : gmap UUID AuthUser;
  roles : gmap UUID AuthRole;
  permissions : gmap UUID Permission;
  audit_events : list AuthAuditEvent;
  auth_clock : nat → datetime;
  auth_ticks : nat;
  auth_uuids : nat → UUID;
  auth_drawn : nat;
  auth_salts : nat → string;
  auth_salted : nat;
}.

Definition eta_auth (s : AuthState) : AuthState := {|
  users := users s; roles := roles s; permissions := permissions s;
  audit_events := audit_events s; auth_clock := auth_clock s; auth_ticks := auth_ticks s;
  auth_uuids := auth_uuids s; auth_drawn := auth_drawn s; auth_salts := auth_salts s;
  auth_salted := auth_salted s |}.

Definition set_users v (s : AuthState) : AuthState := ltac:(record_with eta_auth users s v).
Definition set_roles v (s : AuthState) : AuthState := ltac:(record_with eta_auth roles s v).
Definition set_permissions v (s : AuthState) : AuthState := ltac:(record_with eta_auth permissions s v).
Definition set_audit_events v (s : AuthState) : AuthState := ltac:(record_with eta_auth audit_events s v).
Definition set_auth_ticks v (s : AuthState) : AuthState := ltac:(record_with eta_auth auth_ticks s v).
Definition set_auth_drawn v (s : AuthState) : AuthState := ltac:(record_with eta_auth auth_drawn s v).
Definition set_auth_salted v (s : AuthState) : AuthState := ltac:(record_with eta_auth auth_salted s v).

Abbreviation AuthM := (M AuthState).

#[export] Instance auth_state_clock : Clock AuthState := {
  instant := λ s, auth_clock s (auth_ticks s);
  tick := λ s, set_auth_ticks (Datatypes.S (auth_ticks s)) s }.

#[export] Instance auth_state_uuids : Uuids AuthState := λ s,
  (Ret (auth_uuids s (auth_drawn s)), set_auth_drawn (Datatypes.S (auth_drawn s)) s).

(** [secrets.token_bytes(16)]. *)
Definition token_bytes : AuthM string := λ s,
  (Ret (auth_salts s (auth_salted s)), set_auth_salted (Datatypes.S (auth_salted s)) s).

(** [int(time.time())], in seconds since the epoch. *)
Definition time_time : AuthM Z := now <- utc_now ;; ret (now / 1000000).

(** ** Repositories ([auth/infrastructure/repositories.py]) *)

(** [query.one_or_none()]. *)
Definition one_or_none {A} (rows : list A) : AuthM (option A) :=
  match rows with
  | [] => ret None
  | [row] => ret (Some row)
  | _ => raise (OtherError "MultipleResultsFound") "Multiple rows were found when one or none was required"
  end.

Definition rows_with {A} (p : A → bool) (t : gmap UUID A) : list A :=
  List.filter p (map snd (map_to_list t)).

(** [_roles_to_domain], and [_to_domain] of a role: the related rows. *)
Definition role_to_domain (s : AuthState) (row : AuthRole) : Role := {|
  role_id := ar_id row; role_name := ar_name row; role_description := ar_description row;
  role_permissions := omap (λ p, permissions s !! p) (ar_permission_ids row) |}.

Definition user_to_domain (s : AuthState) (row : AuthUser) : User := {|
  user_id := us_id row; username := us_username row; email := us_email row;
  password_hash := us_password_hash row; is_active_user := us_is_active row;
  user_roles := map (role_to_domain s) (omap (λ r, roles s !! r) (us_role_ids row)) |}.

Module Users.

(** [SQLAlchemyUserRepository.get]. *)
Definition get (id : UUID) : AuthM (option User) :=
  gets (λ s, user_to_domain s <$> users s !! id).

(** [SQLAlchemyUserRepository.get_by_username]. *)
Definition get_by_username (name : string) : AuthM (option User) :=
  rows <- gets (λ s, rows_with (λ u, us_username u ≟ name) (users s)) ;;
  row <- one_or_none rows ;;
  gets (λ s, user_to_domain s <$> row).

(** [_role_from_domain]: the id of the role's row, and the row to insert when there was none. *)
Definition role_from_domain (role : Role) : AuthM (UUID * option AuthRole) :=
  rows <- gets (λ s, rows_with (λ r, ar_name r ≟ role_name role) (roles s)) ;;
  existing <- one_or_none rows ;;
  match existing with
  | Some row => ret (ar_id row, None)
  | None =>
      id <- fresh_uuid ;;
      ret (id, Some {| ar_id := id; ar_name := role_name role; ar_description := "";
                       ar_permission_ids := [] |})
  end.

(** The constraints the insert has to satisfy: primary key, unique username and email, one
    row of [auth_user_roles] per user and role, unique names of the roles it brings. *)
Definition insertable (u : AuthUser) (new_roles : list AuthRole) (s : AuthState) : bool :=
  negb (is_not_none (users s !! us_id u)) &&
  is_nil (rows_with (λ v, (us_username v ≟ us_username u) || (us_email v ≟ us_email u)) (users s)) &&
  bool_decide (NoDup (us_role_ids u)) &&
  bool_decide (NoDup (map ar_name new_roles)) &&
  bool_decide (NoDup (map ar_id new_roles)) &&
  forallb (λ r, is_none (roles s !! ar_id r) && is_nil (rows_with (λ r', ar_name r' ≟ ar_name r) (roles s)))
    new_roles.

(** [SQLAlchemyUserRepository.create]. *)
Definition create (name mail hash : string) (new_roles : option (list Role)) : AuthM User :=
  related <- map_m role_from_domain (from_option id [] new_roles) ;;
  id <- fresh_uuid ;;
  let row := {| us_id := id; us_username := name; us_email := mail; us_password_hash := hash;
                us_is_active := true; us_role_ids := map fst related |} in
  let added := omap snd related in
  ok <- gets (insertable row added) ;;
  if negb ok then raise IntegrityError "UNIQUE constraint failed"
  else
    modify (λ s, set_users (<[id := row]> (users s))
                   (set_roles (fold_left (λ t r, <[ar_id r := r]> t) added (roles s)) s)) ;;;
    gets (λ s, user_to_domain s row).
End Users.

Module Roles.

(** [SQLAlchemyRoleRepository.get_by_name]. *)
Definition get_by_name (name : string) : AuthM (option Role) :=
  rows <- gets (λ s, rows_with (λ r, ar_name r ≟ name) (roles s)) ;;
  row <- one_or_none rows ;;
  gets (λ s, role_to_domain s <$> row).

(** [SQLAlchemyRoleRepository.create]. *)
Definition create (name description : string) : AuthM Role :=
  id <- fresh_uuid ;;
  let row := {| ar_id := id; ar_name := name; ar_description := description; ar_permission_ids := [] |} in
  ok <- gets (λ s, is_none (roles s !! id) && is_nil (rows_with (λ r, ar_name r ≟ name) (roles s))) ;;
  if negb ok then raise IntegrityError "UNIQUE constraint failed"
  else modify (λ s, set_roles (<[id := row]> (roles s)) s) ;;; gets (λ s, role_to_domain s row).

(** [SQLAlchemyRoleRepository.add_permission]. *)
Definition add_permission (role : Role) (permission : Permission) : AuthM unit :=
  role_rows <- gets (λ s, rows_with (λ r, ar_name r ≟ role_name role) (roles s)) ;;
  role_row <- one_or_none role_rows ;;
  permission_rows <- gets (λ s, rows_with (λ p, perm_name p ≟ perm_name permission) (permissions s)) ;;
  permission_row <- one_or_none permission_rows ;;
  match role_row, permission_row with
  | None, _ => raise ValueError "Role not found"
  | Some _, None => raise ValueError "Permission not found"
  | Some r, Some p =>
      when (negb (mem (perm_id p) (ar_permission_ids r)))
        (modify (λ s, set_roles (<[ar_id r := {| ar_id := ar_id r; ar_name := ar_name r;
           ar_description := ar_description r;
           ar_permission_ids := ar_permission_ids r ++ [perm_id p] |}]> (roles s)) s))
  end.
End Roles.

Module Permissions.

(** [SQLAlchemyPermissionRepository.get_by_name]. *)
Definition get_by_name (name : string) : AuthM (option Permission) :=
  rows <- gets (λ s, rows_with (λ p, perm_name p ≟ name) (permissions s)) ;;
  one_or_none rows.

(** [SQLAlchemyPermissionRepository.create]. *)
Definition create (name description : string) : AuthM Permission :=
  id <- fresh_uuid ;;
  let row := {| perm_id := id; perm_name := name; perm_description := description |} in
  ok <- gets (λ s, is_none (permissions s !! id) && is_nil (rows_with (λ p, perm_name p ≟ name) (permissions s))) ;;
  if negb ok then raise IntegrityError "UNIQUE constraint failed"
  else modify (λ s, set_permissions (<[id := row]> (permissions s)) s) ;;; ret row.
End Permissions.

Module AuditEvents.
Section AuditEvents.
Context {HF : FloatRepr}.

(** [SQLAlchemyAuditEventRepository._parse_metadata]; what is not JSON is kept as text. *)
Definition parse_metadata (metadata_payload : string) : json :=
  if negb (str_truthy metadata_payload) then JDict []
  else match json_loads metadata_payload with
       | Some j => j
       | None => JDict [("raw", JStr metadata_payload)]
       end.

(** The [AuditEvent] of a row. *)
Definition event_of (row : AuthAuditEvent) : AuditEvent := {|
  event_id := ae_id row; event_type_of := ae_event_type row;
  event_subject_id := ae_subject_id row; event_actor_id := ae_actor_id row;
  event_metadata := parse_metadata (ae_metadata_payload row);
  event_created_at := ae_created_at row |}.

(** [SQLAlchemyAuditEventRepository.create]. *)
Definition create (event_type : string) (subject_id actor_id : option UUID) (metadata : dict)
    : AuthM AuditEvent :=
  id <- fresh_uuid ;;
  now <- utc_now ;;
  let row := {| ae_id := id; ae_event_type := event_type;
    ae_subject_id := match subject_id with Some u => Some u | None => actor_id end;
    ae_actor_id := actor_id;
    ae_metadata_payload := json_dumps EmptyString (λ items, items) (JDict metadata);
    ae_created_at := now |} in
  modify (λ s, set_audit_events (audit_events s ++ [row]) s) ;;;
  ret (event_of row).

(** [SQLAlchemyAuditEventRepository.list]: the newest first. *)
Definition newer (a b : AuthAuditEvent) : Prop := ae_created_at b <= ae_created_at a.
#[export] Instance newer_dec : RelDecision newer.
Proof. intros a b. unfold newer. apply _. Defined.

Definition list (limit : nat) : AuthM (list AuditEvent) :=
  gets (λ s, map event_of (take limit (merge_sort newer (audit_events s)))).
End AuditEvents.
End AuditEvents.

(** ** Passwords ([PasswordHashingService]) *)

(** [hashlib.pbkdf2_hmac("sha256", password, salt, iterations)]. *)
Class Pbkdf2 := pbkdf2_sha256 : string → string → Z → string.

(** [bytes.hex] and [bytes.fromhex], which skips blanks between the bytes. *)
Fixpoint to_hex (s : string) : string :=
  match s with
  | EmptyString => EmptyString
  | String c s' =>
      let n := Ascii.N_of_ascii c in
      String (hex_digit (n / 16)) (String (hex_digit (n mod 16)) (to_hex s'))
  end.

Fixpoint from_hex (s : string) : option string :=
  match s with
  | EmptyString => Some EmptyString
  | String c s' =>
      if is_space c then from_hex s'
      else match s' with
           | String d s'' =>
               match hex_value c, hex_value d, from_hex s'' with
               | Some x, Some y, Some t => Some (String (Ascii.ascii_of_N (16 * x + y)) t)
               | _, _, _ => None
               end
           | EmptyString => None
           end
  end.

Definition is_ascii (s : string) : bool := str_all (λ c, (Ascii.N_of_ascii c <? 128)%N) s.

(** [hmac.compare_digest] of two texts. *)
Definition compare_digest (a b : string) : AuthM bool :=
  if is_ascii a && is_ascii b then ret (a ≟ b)
  else raise TypeError "comparing strings with non-ASCII characters is not supported".

(** [payload[key]] of a decoded value. *)
Definition item (payload : json) (key : string) : AuthM json :=
  match payload with
  | JDict d => match dict_get key d with Some v => ret v | None => raise KeyError key end
  | _ => raise TypeError "indices must be integers or slices, not str"
  end.

(** [json.loads]; what the decoder of the model cannot hold is refused here too. *)
Definition loads (s : string) : AuthM json :=
  match json_loads s with Some j => ret j | None => raise ValueError "JSONDecodeError" end.

Section Services.
Context {HF : FloatRepr} {HP : Pbkdf2} {HD : Digest}.

(** [pbkdf2_hmac] with a decoded iteration count. *)
Definition derive (password salt : string) (iterations : json) : AuthM string :=
  match iterations with
  | JInt n =>
      if n <? 1 then raise ValueError "iteration value must be greater than 0."
      else if 2147483647 <? n then raise (OtherError "OverflowError") "iteration value is too great."
      else ret (pbkdf2_sha256 password salt n)
  | JBool true => ret (pbkdf2_sha256 password salt 1)
  | JBool false => raise ValueError "iteration value must be greater than 0."
  | _ => raise TypeError "integer required"
  end.

(** [PasswordHashingService.hash_password]. *)
Definition hash_password (iterations : Z) (password : string) : AuthM string :=
  salt <- token_bytes ;;
  derived <- derive password salt (JInt iterations) ;;
  ret (json_dumps " " (λ items, items) (JDict
    [("alg", JStr "pbkdf2_sha256"); ("iterations", JInt iterations);
     ("salt", JStr (to_hex salt)); ("hash", JStr (to_hex derived))])).

(** [PasswordHashingService.verify_password]. *)
Definition verify_password (password hash : string) : AuthM bool :=
  payload <- loads hash ;;
  salt_text <- item payload "salt" ;;
  salt <- (match salt_text with
           | JStr t => match from_hex t with
                       | Some b => ret b
                       | None => raise ValueError "non-hexadecimal number found in fromhex() arg"
                       end
           | _ => raise TypeError "fromhex() argument must be str"
           end) ;;
  iterations <- item payload "iterations" ;;
  derived <- derive password salt iterations ;;
  stored <- item payload "hash" ;;
  match stored with
  | JStr t => compare_digest (to_hex derived) t
  | _ => raise TypeError "unsupported operand types(s) or combination of types"
  end.

(** ** Tokens ([TokenService]) *)

(** [token.rsplit(".", 1)]: the text before and after the last dot. *)
Fixpoint rsplit (c : ascii) (s : string) : option (string * string) :=
  match s with
  | EmptyString => None
  | String d s' =>
      match rsplit c s' with
      | Some (before, after) => Some (String d before, after)
      | None => if d ≟ c then Some (EmptyString, s') else None
      end
  end.

(** [TokenService.__init__]. *)
Definition token_secret (secret_key : option string) : string := or_str secret_key "development-secret".

Definition signature_of (secret_key body : string) : string := sha256_hexdigest (body +:+ secret_key).

(** [TokenService._sign]. *)
Definition sign (secret_key : string) (payload : dict) : string :=
  let body := json_dumps EmptyString (merge_sort key_le) (JDict payload) in
  body +:+ "." +:+ signature_of secret_key body.

(** [TokenService._verify]. *)
Definition verify (secret_key token : string) : AuthM dict :=
  match rsplit "."%char token with
  | None => raise ValueError "not enough values to unpack (expected 2, got 1)"
  | Some (body, signature) =>
      equal <- compare_digest signature (signature_of secret_key body) ;;
      if negb equal then raise ValueError "Invalid token signature"
      else
        payload <- loads body ;;
        match payload with
        | JDict d => ret d
        | _ => raise ValueError "Invalid token payload"
        end
  end.

(** [TokenService.encode]. *)
Definition encode (secret_key : string) (claims : dict) (expires_in_seconds : Z) : AuthM string :=
  now <- time_time ;;
  ret (sign secret_key (dict_set "exp" (JInt (now + expires_in_seconds))
                          (dict_set "iat" (JInt now) claims))).

(** [int(value)]. *)
Definition int_of (v : json) : AuthM Z :=
  match v with
  | JInt z => ret z
  | JBool b => ret (if b then 1 else 0)
  | JFloat q => ret (Z.quot (Qnum q) (Zpos (Qden q)))
  | JStr t => match py_int t with Some z => ret z | None => raise ValueError "invalid literal for int()" end
  | _ => raise TypeError "int() argument must be a string, a bytes-like object or a real number"
  end.

(** [TokenService.decode]. *)
Definition decode (secret_key token : string) : AuthM dict :=
  payload <- verify secret_key token ;;
  e <- item (JDict payload) "exp" ;;
  exp <- int_of e ;;
  now <- time_time ;;
  if exp <=? now then raise ValueError "Token expired" else ret payload.

(** ** [AuthenticationService] *)

Record AuthenticationService := {
  password_iterations : Z;
  token_secret_key : string;
  access_token_ttl_seconds : Z;
  refresh_token_ttl_seconds : Z;
  auth_audit_service : option (AuditService AuthState);
}.

Definition security_event (event_type resource_type resource_id outcome : string)
    (actor_id : UUID) (metadata : dict) : AuditArguments := {|
  arg_event_type := event_type; arg_actor_id := Some actor_id; arg_tenant_id := None;
  arg_resource_type := Some resource_type; arg_resource_id := Some resource_id;
  arg_outcome := Some outcome; arg_request_id := None; arg_metadata := Some metadata;
  arg_source := None; arg_category := None |}.

Definition audit_security (svc : option (AuditService AuthState)) (a : AuditArguments) : AuthM unit :=
  match svc with
  | Some audit => record_security_event audit a ;;; ret tt
  | None => ret tt
  end.

(** The loop of [register_user] over the role names. *)
Definition resolve_roles : list string → AuthM (list Role) :=
  map_m (λ role_name,
    role <- Roles.get_by_name role_name ;;
    match role with
    | None => raise ValueError ("Role not found: " +:+ role_name)
    | Some r => ret r
    end).

(** [AuthenticationService.register_user]. *)
Definition register_user (svc : AuthenticationService) (name mail password : string)
    (role_names : option (list string)) : AuthM User :=
  existing <- Users.get_by_username name ;;
  match existing with
  | Some _ => raise ValueError "User already exists"
  | None =>
      resolved_roles <- resolve_roles (from_option id [] role_names) ;;
      hash <- hash_password (password_iterations svc) password ;;
      user <- Users.create name mail hash (Some resolved_roles) ;;
      AuditEvents.create "user_registered" None (Some (user_id user)) [("username", JStr name)] ;;;
      audit_security (auth_audit_service svc)
        (security_event "user_registered" "user" (uuid_str (user_id user)) "success"
           (user_id user) [("username", JStr name)]) ;;;
      ret user
  end.

Definition token_claims (user : User) (type : string) : dict :=
  [("sub", JStr (uuid_str (user_id user))); ("type", JStr type); ("username", JStr (username user))].

Definition token_pair (access refresh : string) : TokenPair :=
  {| access_token := access; refresh_token := refresh; token_type := "bearer" |}.

(** [AuthenticationService.authenticate_user]. *)
Definition authenticate_user (svc : AuthenticationService) (name password : string) : AuthM TokenPair :=
  user <- Users.get_by_username name ;;
  match user with
  | None => raise ValueError "Invalid credentials"
  | Some user =>
      valid <- verify_password password (password_hash user) ;;
      if negb valid then raise ValueError "Invalid credentials"
      else if negb (is_active_user user) then raise ValueError "User is inactive"
      else
        access <- encode (token_secret_key svc) (token_claims user "access") (access_token_ttl_seconds svc) ;;
        refresh <- encode (token_secret_key svc) (token_claims user "refresh") (refresh_token_ttl_seconds svc) ;;
        AuditEvents.create "login" None (Some (user_id user)) [("username", JStr (username user))] ;;;
        audit_security (auth_audit_service svc)
          (security_event "authentication.success" "user" (uuid_str (user_id user)) "success"
             (user_id user) [("username", JStr (username user))]) ;;;
        ret (token_pair access refresh)
  end.

(** [UUID(str(claims["sub"]))]. *)
Definition subject (claims : dict) : AuthM UUID :=
  sub <- item (JDict claims) "sub" ;;
  match parse_uuid (py_str sub) with
  | Some u => ret u
  | None => raise ValueError "badly formed hexadecimal UUID string"
  end.

(** [claims.get("type") != type]. *)
Definition has_type (claims : dict) (type : string) : bool :=
  match dict_get "type" claims with Some (JStr t) => t ≟ type | _ => false end.

(** [AuthenticationService.refresh_access_token]; the new token's lifetime is not the
    configured one. *)
Definition refresh_access_token (svc : AuthenticationService) (token : string) : AuthM TokenPair :=
  claims <- decode (token_secret_key svc) token ;;
  if negb (has_type claims "refresh") then raise ValueError "Invalid token type"
  else
    id <- subject claims ;;
    user <- Users.get id ;;
    match user with
    | Some user =>
        if negb (is_active_user user) then raise ValueError "Invalid refresh token"
        else
          access <- encode (token_secret_key svc) (token_claims user "access") 900 ;;
          ret (token_pair access token)
    | None => raise ValueError "Invalid refresh token"
    end.

(** [AuthenticationService.get_current_user]. *)
Definition get_current_user (svc : AuthenticationService) (token : string) : AuthM (option User) :=
  claims <- try_except (c <- decode (token_secret_key svc) token ;; ret (Some c)) (λ exc,
    if isinstance exc ValueError then ret None else reraise exc) ;;
  match claims with
  | None => ret None
  | Some claims =>
      if negb (has_type claims "access") then ret None
      else id <- subject claims ;; Users.get id
  end.

(** ** [AuthorizationService] *)

Record AuthorizationService := {
  authz_audit_repository : bool;
  authz_audit_service : option (AuditService AuthState);
}.

(** The user holds the permission through one of its roles. *)
Definition permitted (user : User) (permission_name : string) : bool :=
  existsb (λ role, existsb (λ permission, perm_name permission ≟ permission_name)
                     (role_permissions role)) (user_roles user).

(** [AuthorizationService.authorize]; [authz_audit_repository] says whether it was built
    with a repository of audit events. *)
Definition authorize (svc : AuthorizationService) (user : User) (permission_name : string) : AuthM bool :=
  let authorized := permitted user permission_name in
  match authz_audit_service svc with
  | Some audit =>
      when (negb authorized)
        (record_security_event audit
           (security_event "authorization.denied" "permission" permission_name "denied"
              (user_id user) [("permission", JStr permission_name)]) ;;; ret tt)
  | None =>
      when (negb authorized && authz_audit_repository svc)
        (AuditEvents.create "authorization.denied" None (Some (user_id user))
           [("permission", JStr permission_name)] ;;; ret tt)
  end ;;;
  ret authorized.

(** ** API dependencies ([auth/api/dependencies.py]) *)

Record Settings := {
  auth_secret_key : string; settings_access_ttl : Z; settings_refresh_ttl : Z }.

(** [get_auth_service] and [get_authorization_service]. *)
Definition get_auth_service (settings : Settings) : AuthenticationService := {|
  password_iterations := 200000;
  token_secret_key := token_secret (Some (auth_secret_key settings));
  access_token_ttl_seconds := settings_access_ttl settings;
  refresh_token_ttl_seconds := settings_refresh_ttl settings;
  auth_audit_service := None |}.

Definition get_authorization_service : AuthorizationService :=
  {| authz_audit_repository := false; authz_audit_service := None |}.

(** [HTTPException]s of the dependencies. *)
Definition unauthorized (detail : string) : exn := Exn (HTTPException 401) detail.
Definition forbidden : exn := Exn (HTTPException 403) "Forbidden".

(** [get_current_user] of the API: the bearer token of the request, if it has one. *)
Definition current_user (svc : AuthenticationService) (credentials : option string) : AuthM User :=
  match credentials with
  | None => reraise (unauthorized "Missing token")
  | Some token =>
      user <- get_current_user svc token ;;
      match user with
      | None => reraise (unauthorized "Invalid token")
      | Some user => ret user
      end
  end.

(** [require_permission(permission_name)]. *)
Definition require_permission (svc : AuthenticationService) (authz : AuthorizationService)
    (permission_name : string) (credentials : option string) : AuthM User :=
  user <- current_user svc credentials ;;
  authorized <- authorize authz user permission_name ;;
  if negb authorized then reraise forbidden else ret user.

(** ** Routes ([auth/api/router.py]) *)

Record UserResponse := {
  ur_username : string; ur_email : string; ur_roles : list string; ur_permissions : list string }.

(** The response of [register_user] and [me]; the permission names are a set. *)
Definition user_response (user : User) : UserResponse := {|
  ur_username := username user; ur_email := email user;
  ur_roles := map role_name (user_roles user);
  ur_permissions := first_occurrences (concat (map (λ r, map perm_name (role_permissions r)) (user_roles user))) |}.

(** [except ValueError as exc: raise HTTPException(status, str(exc))]. *)
Definition as_http {A} (status : Z) (m : AuthM A) : AuthM A :=
  try_except m (λ exc,
    if isinstance exc ValueError then reraise (Exn (HTTPException status) (exn_str exc)) else reraise exc).

Definition register_route (svc : AuthenticationService) (name mail password : string)
    (role_names : list string) : AuthM UserResponse :=
  user <- as_http 400 (register_user svc name mail password (Some role_names)) ;;
  ret (user_response user).

Definition login_route (svc : AuthenticationService) (name password : string) : AuthM TokenPair :=
  as_http 401 (authenticate_user svc name password).

Definition me_route (svc : AuthenticationService) (credentials : option string) : AuthM UserResponse :=
  user <- current_user svc credentials ;; ret (user_response user).
(** ** Administration ([cli.py]) *)

Definition DEFAULT_ADMIN_ROLE_NAME : string := "admin".
Definition MIN_PASSWORD_LENGTH : nat := 8.
Definition DEFAULT_ADMIN_PERMISSIONS : list string := [
  "credential:read"; "credential:write"; "discovery:target:read"; "discovery:target:write";
  "discovery:job:submit"; "discovery:job:read"; "discovery:job:cancel"; "discovery:job:cancel:force";
  "discovery:evidence:read"; "inventory:read"; "inventory:write"].

(** The row of a name, which is created when there is none. *)
Definition ensure_role (name : string) : AuthM Role :=
  role <- Roles.get_by_name name ;;
  match role with Some r => ret r | None => Roles.create name "Administrator role" end.

Definition ensure_permission (name : string) : AuthM Permission :=
  permission <- Permissions.get_by_name name ;;
  match permission with
  | Some p => ret p
  | None => Permissions.create name ("Administrative access: " +:+ name)
  end.

(** [_ensure_admin_permissions]. *)
Definition ensure_admin_permissions (name : string) : AuthM unit :=
  role <- ensure_role name ;;
  for_each DEFAULT_ADMIN_PERMISSIONS (λ permission_name,
    permission <- ensure_permission permission_name ;;
    Roles.add_permission role permission).

(** The checks of [provision_admin_user], in order. *)
Definition check_admin (name mail password confirm_password : string) : AuthM unit :=
  if negb (str_truthy name) then raise ValueError "Username is required"
  else if negb (str_truthy mail) || negb (str_mem "@"%char mail)
    then raise ValueError "Valid email address is required"
  else if negb (str_truthy password) then raise ValueError "Password is required"
  else if negb (password ≟ confirm_password) then raise ValueError "Password confirmation does not match"
  else if (String.length password <? MIN_PASSWORD_LENGTH)%nat
    then raise ValueError "Password must be at least 8 characters"
  else ret tt.

(** The service [provision_admin_user] builds; the lifetimes are the defaults of its class. *)
Definition admin_auth_service (secret_key : string) : AuthenticationService := {|
  password_iterations := 200000; token_secret_key := token_secret (Some secret_key);
  access_token_ttl_seconds := 900; refresh_token_ttl_seconds := 2592000; auth_audit_service := None |}.

(** [provision_admin_user]. *)
Definition provision_admin_user (secret_key username email password confirm_password role_name_ : string)
    : AuthM User :=
  let name := str_strip username in
  let mail := str_strip email in
  check_admin name mail password confirm_password ;;;
  ensure_role role_name_ ;;;
  ensure_admin_permissions role_name_ ;;;
  existing_role <- Roles.get_by_name role_name_ ;;
  match existing_role with
  | None => raise RuntimeError "Administrator role could not be created."
  | Some r => register_user (admin_auth_service secret_key) name mail password (Some [role_name r])
  end.

(** [main] on [create-admin]: the exit code; what it prints is left out. *)
Definition create_admin (secret_key username email password confirm_password role_name_ : string) : AuthM Z :=
  try_except
    (provision_admin_user secret_key (str_strip username) (str_strip email) password confirm_password role_name_ ;;;
     ret 0)
    (λ exc, if isinstance exc ValueError then ret 1 else reraise exc).
End Services.
