(* ===== verification/AuthTheorems.v ===== *)
(** * What a login is worth

    The theorems of [Auth]: tokens, sessions, the guard of the API routes, accounts. *)

From S2P Require Import Prelude Vocabulary Effects Json EvidenceStore Texts JsonText.
From S2P Require Import Dicts AuditTrail Auth.
From stdpp Require Import sorting.
#[local] Open Scope Z_scope.

(** ** Bytes as text *)

Lemma to_hex_from_hex s : from_hex (to_hex s) = Some s.
Proof.
  induction s as [|c s IH]; [done|]. cbn [to_hex from_hex].
  assert (Ascii.N_of_ascii c < 256)%N as Hc by apply Ascii.N_ascii_bounded.
  set (n := Ascii.N_of_ascii c) in *.
  destruct (hex_value_digit (n / 16)) as (H1 & _ & H1'); [apply N.Div0.div_lt_upper_bound; lia|].
  destruct (hex_value_digit (n mod 16)) as (H2 & _ & _); [apply N.mod_lt; lia|].
  rewrite H1', H1, H2, IH. do 2 f_equal.
  replace (16 * (n / 16) + n mod 16)%N with n by (pose proof (N.div_mod n 16); lia).
  apply Ascii.ascii_N_embedding.
Qed.

(** ** Tokens *)

(** [hexdigest] answers in hexadecimal digits. *)
Class HexDigest (HD : Digest) := hexdigest_digits s :
  str_all (λ c, is_not_none (hex_value c)) (sha256_hexdigest s) = true.

Lemma hex_char c : is_not_none (hex_value c) = true →
  (c ≟ "."%char) = false ∧ (Ascii.N_of_ascii c <? 128)%N = true.
Proof. destruct c as [[] [] [] [] [] [] [] []]; intros H; by vm_compute in H. Qed.

Lemma rsplit_none s : str_all (λ c, is_not_none (hex_value c)) s = true → rsplit "."%char s = None.
Proof.
  induction s as [|c s IH]; cbn; [done|]. intros [Hc Hs]%andb_true_iff. rewrite IH by done.
  by rewrite (proj1 (hex_char c Hc)).
Qed.

Lemma rsplit_last body s : str_all (λ c, is_not_none (hex_value c)) s = true →
  rsplit "."%char (body +:+ "." +:+ s) = Some (body, s).
Proof.
  intros Hs. induction body as [|c body IH].
  - change (EmptyString +:+ "." +:+ s) with (String "."%char s). cbn [rsplit]. by rewrite rsplit_none.
  - rewrite str_app_cons. cbn [rsplit]. by rewrite IH.
Qed.

Lemma hex_ascii s : str_all (λ c, is_not_none (hex_value c)) s = true → is_ascii s = true.
Proof. intros Hs. eapply str_all_impl, Hs. intros c Hc. by apply hex_char. Qed.

Section Tokens.
Context {HF : FloatRepr} {HD : Digest} {HX : HexDigest HD}.

Lemma compare_digest_ascii a b s : is_ascii a = true → is_ascii b = true →
  compare_digest a b s = (Ret (a ≟ b), s).
Proof. intros Ha Hb. unfold compare_digest. by rewrite Ha, Hb. Qed.

(** A signed payload is read back by whoever has the key. *)
Lemma verify_sign key payload : plain (JDict payload) = true →
  ∃ d, same_items (JDict payload) (JDict d) ∧ ∀ s, verify key (sign key payload) s = (Ret d, s).
Proof.
  intros Hp. destruct (json_roundtrip EmptyString eq_refl (merge_sort key_le)
    (merge_sort_Permutation key_le) (JDict payload) Hp) as (j & E & Hs).
  assert (∃ d, j = JDict d) as [d ->] by (inversion Hs; subst; by eexists).
  exists d. split; [done|]. intros s. unfold sign, verify. cbv zeta.
  rewrite rsplit_last by apply hexdigest_digits.
  assert (is_ascii (signature_of key (json_dumps EmptyString (merge_sort key_le) (JDict payload))) = true)
    as Ha by apply hex_ascii, hexdigest_digits.
  rewrite (bind_Ret _ _ _ _ _ (compare_digest_ascii _ _ s Ha Ha)).
  rewrite Prelude.eqb_refl. cbn [negb].
  unfold loads. by rewrite E.
Qed.

Lemma keys_dict_set k v (d : dict) :
  map fst (dict_set k v d) = if bool_decide (k ∈ map fst d) then map fst d else map fst d ++ [k].
Proof.
  induction d as [|[k' w] d IH]; [done|]. cbn. destruct (k ≟ k') eqn:E; pybool.
  - subst. rewrite bool_decide_true by (rewrite elem_of_cons; auto). done.
  - cbn. rewrite IH. destruct (decide (k ∈ map fst d)) as [Hin|Hin].
    + rewrite !bool_decide_true by (rewrite ?elem_of_cons; auto). done.
    + rewrite !bool_decide_false by (rewrite ?elem_of_cons; naive_solver). done.
Qed.

Lemma plain_dict_set k v d : plain (JDict d) = true → plain v = true → plain (JDict (dict_set k v d)) = true.
Proof.
  cbn [plain]. rewrite !andb_true_iff, !bool_decide_eq_true. intros [Hn Hd] Hv. split.
  - rewrite keys_dict_set. case_bool_decide as Hin; [done|]. apply NoDup_app. split_and!; [done| |apply NoDup_singleton].
    intros x Hx ->%list_elem_of_singleton. done.
  - clear Hn. induction d as [|[k' w] d IH]; cbn; [by rewrite Hv|]. cbn in Hd.
    apply andb_true_iff in Hd as [Hw Hd]. destruct (k ≟ k'); cbn; [by rewrite Hv|]. by rewrite Hw, IH.
Qed.

(** The claims of a token issued at the second [issued]. *)
Definition issued_claims (claims : dict) (issued ttl : Z) : dict :=
  dict_set "exp" (JInt (issued + ttl)) (dict_set "iat" (JInt issued) claims).

Lemma token_lifetime_claims key claims ttl s (Hc : plain (JDict claims) = true) :
  let issued := instant s / 1000000 in
  ∃ token payload, encode key claims ttl s = (Ret token, tick s) ∧
    same_items (JDict (issued_claims claims issued ttl)) (JDict payload) ∧
    ∀ s', decode key token s' =
      (if issued + ttl <=? instant s' / 1000000 then raise_ ValueError "Token expired" else Ret payload, tick s').
Proof.
  intros issued. set (payload := issued_claims claims issued ttl).
  assert (plain (JDict payload) = true) as Hp by by repeat apply plain_dict_set.
  destruct (verify_sign key payload Hp) as (d & Hs & E).
  exists (sign key payload), d. split; [done|]. split; [done|]. intros s'. unfold decode.
  rewrite (bind_Ret _ _ _ _ _ (E s')).
  assert (dict_get "exp" d = Some (JInt (issued + ttl))) as Hexp.
  { eapply same_items_int_get; [exact Hs|]. apply dict_get_set_eq. }
  unfold item. rewrite Hexp. unfold time_time, utc_now, bind, ret. cbn [int_of ret].
  unfold ret. by destruct (issued + ttl <=? _).
Qed.
(** A token is worth its lifetime: what [encode] signs at the second [t] with a
    lifetime [ttl] is decoded, by any service with the same key and in any later state, to
    the same claims with [iat = t] and [exp = t + ttl] as long as the clock is before
    [t + ttl] seconds, and raises [ValueError("Token expired")] from then on. *)
Theorem token_lifetime key claims ttl s (Hc : plain (JDict claims) = true) :
  let issued := instant s / 1000000 in
  ∃ token payload, encode key claims ttl s = (Ret token, tick s) ∧
    same_items (JDict (issued_claims claims issued ttl)) (JDict payload) ∧
    ∀ s', decode key token s' =
      (if issued + ttl <=? instant s' / 1000000 then raise_ ValueError "Token expired" else Ret payload, tick s').
Proof. exact (token_lifetime_claims key claims ttl s Hc). Qed.
End Tokens.

(** ** Sessions *)

(** A computation that only reads. *)
Definition pure {A} (m : AuthM A) : Prop := preserves eq m.

Lemma pure_gets {A} (f : AuthState → A) : pure (gets f).
Proof. done. Qed.

Lemma pure_one_or_none {A} (rows : list A) : pure (one_or_none rows).
Proof. unfold pure, one_or_none. destruct rows as [|? [|]]; intros s; reflexivity. Qed.

Lemma pure_get_by_username name : pure (Users.get_by_username name).
Proof.
  unfold pure, Users.get_by_username. preserves_auto; [apply pure_one_or_none].
Qed.

Section Sessions.
Context {HF : FloatRepr} {HP : Pbkdf2} {HD : Digest} {HX : HexDigest HD}.

Lemma pure_item payload key : pure (item payload key).
Proof. unfold pure, item. preserves_auto. Qed.

Lemma pure_loads t : pure (loads t).
Proof. unfold pure, loads. preserves_auto. Qed.

Lemma pure_derive password salt n : pure (derive password salt n).
Proof. unfold pure, derive. preserves_auto. Qed.

Lemma pure_compare_digest a b : pure (compare_digest a b).
Proof. unfold pure, compare_digest. preserves_auto. Qed.

Lemma pure_verify_password password hash : pure (verify_password password hash).
Proof.
  unfold pure, verify_password. preserves_auto;
    first [apply pure_loads|apply pure_item|apply pure_derive|apply pure_compare_digest].
Qed.

(** What a token that decodes to [claims] until [expires] gives. *)
Definition good_until (svc : AuthenticationService) (token : string) (claims : dict) (expires : Z) : Prop :=
  ∀ s, decode (token_secret_key svc) token s =
    (if expires <=? instant s / 1000000 then raise_ ValueError "Token expired" else Ret claims, tick s).

Lemma subject_of claims (id : UUID) s : (id < 2 ^ 128)%N →
  dict_get "sub" claims = Some (JStr (uuid_str id)) → subject claims s = (Ret id, s).
Proof.
  intros Hid Hsub. unfold subject, item. rewrite Hsub. unfold bind, ret. cbn [py_str].
  by rewrite parse_uuid_str.
Qed.

Lemma current_user_of_token svc token claims expires (id : UUID) s : (id < 2 ^ 128)%N →
  good_until svc token claims expires → dict_get "sub" claims = Some (JStr (uuid_str id)) →
  get_current_user svc token s =
    (Ret (if negb (has_type claims "access") || (expires <=? instant s / 1000000) then None
          else user_to_domain s <$> users s !! id), tick s).
Proof.
  intros Hid Hg Hsub. unfold get_current_user, bind at 1, try_except, bind at 1. rewrite Hg.
  destruct (expires <=? _); [by rewrite orb_true_r|]. rewrite orb_false_r. cbn.
  destruct (has_type claims "access"); [|done]. cbn [negb].
  by rewrite (bind_Ret _ _ _ _ _ (subject_of claims id _ Hid Hsub)).
Qed.

Lemma refresh_with_access_token svc token claims expires s :
  good_until svc token claims expires → has_type claims "refresh" = false →
  ∃ msg, refresh_access_token svc token s = (raise_ ValueError msg, tick s).
Proof.
  intros Hg Ht. unfold refresh_access_token, bind at 1. rewrite Hg.
  destruct (expires <=? _); [by eexists|]. rewrite Ht. by eexists.
Qed.

Lemma token_claims_plain user type : plain (JDict (token_claims user type)) = true.
Proof. reflexivity. Qed.

Lemma encode_user svc user type ttl s token s' :
  encode (token_secret_key svc) (token_claims user type) ttl s = (Ret token, s') →
  s' = tick s ∧ ∃ claims, good_until svc token claims (instant s / 1000000 + ttl) ∧
    dict_get "sub" claims = Some (JStr (uuid_str (user_id user))) ∧
    dict_get "type" claims = Some (JStr type).
Proof.
  intros E. destruct (token_lifetime_claims (token_secret_key svc) (token_claims user type) ttl s
    (token_claims_plain user type)) as (t & claims & Ht & Hs & Hd).
  rewrite Ht in E. injection E as <- <-. split; [done|]. exists claims. split; [exact Hd|].
  split; eapply same_items_str_get; (exact Hs || reflexivity).
Qed.
End Sessions.

Section Guards.
Context {HF : FloatRepr} {HP : Pbkdf2} {HD : Digest} {HX : HexDigest HD}.

(** The rows are stored under their ids, which are 128 bits wide. *)
Definition keyed (s : AuthState) : Prop :=
  ∀ id u, users s !! id = Some u → us_id u = id ∧ (id < 2 ^ 128)%N.

Lemma rows_with_elem {A} (p : A → bool) (t : gmap UUID A) x :
  x ∈ rows_with p t ↔ p x = true ∧ ∃ id, t !! id = Some x.
Proof.
  unfold rows_with. rewrite list_elem_of_In, filter_In, in_map_iff. split.
  - intros [([id y] & <- & Hin) Hp]. split; [done|]. exists id. by apply elem_of_map_to_list, list_elem_of_In.
  - intros [Hp [id Hid]]. split; [|done]. exists (id, x). split; [done|].
    by apply list_elem_of_In, elem_of_map_to_list.
Qed.

Lemma one_or_none_Some {A} (rows : list A) s o s' :
  one_or_none rows s = (Ret o, s') → s' = s ∧ rows = from_option (λ r, [r]) [] o.
Proof. destruct rows as [|x [|]]; intros [=]; by subst. Qed.

Lemma get_by_username_Some name s u s' : Users.get_by_username name s = (Ret (Some u), s') →
  s' = s ∧ ∃ id row, users s !! id = Some row ∧ us_username row = name ∧ u = user_to_domain s row.
Proof.
  unfold Users.get_by_username. unfold bind at 1, gets at 1.
  intros [(o & s1 & E & Hr)|(e & E & [=])]%bind_inv.
  apply one_or_none_Some in E as [-> Hrows]. injection Hr as Ho <-. split; [done|].
  destruct o as [row|]; [|done]. cbn in Hrows, Ho. injection Ho as <-.
  assert (row ∈ rows_with (λ u, us_username u ≟ name) (users s)) as Hin by (rewrite Hrows; by left).
  apply rows_with_elem in Hin as [Hn [id Hid]]. pybool. by exists id, row.
Qed.

(** C23. What a login is worth.  When [authenticate_user] returns a pair of tokens, there
    is an active user of that name; for the configured number of seconds after the login's
    second, and no longer, the access token answers [get_current_user] with that user's row
    of the moment; the refresh token is never taken for an access token, and the access
    token is never exchanged by [refresh_access_token]. *)
Theorem login_session svc name password s pair s1
    (Hk : keyed s) (Hl : authenticate_user svc name password s = (Ret pair, s1)) :
  ∃ id row, users s !! id = Some row ∧ us_username row = name ∧ us_is_active row = true ∧
  ∀ s2, let expires := instant s / 1000000 + access_token_ttl_seconds svc in
    get_current_user svc (access_token pair) s2 =
      (Ret (if expires <=? instant s2 / 1000000 then None else user_to_domain s2 <$> users s2 !! id), tick s2) ∧
    get_current_user svc (refresh_token pair) s2 = (Ret None, tick s2) ∧
    ∃ msg, refresh_access_token svc (access_token pair) s2 = (raise_ ValueError msg, tick s2).
Proof.
  unfold authenticate_user in Hl. apply bind_inv in Hl as [(o & sa & Eu & Hl)|(e & _ & [=])].
  destruct o as [u|]; [|done].
  destruct (get_by_username_Some _ _ _ _ Eu) as (-> & id & row & Hrow & Hname & ->).
  apply bind_inv in Hl as [(valid & sb & Ev & Hl)|(e & _ & [=])].
  pose proof (pure_verify_password password (password_hash (user_to_domain s row)) s) as Hp.
  rewrite Ev in Hp. cbn [snd] in Hp. subst sb.
  destruct valid; [|done]. cbn [negb] in Hl.
  destruct (is_active_user (user_to_domain s row)) eqn:Ea; [|done]. cbn [negb] in Hl.
  apply bind_inv in Hl as [(at_ & sc & Et & Hl)|(e & _ & [=])].
  apply bind_inv in Hl as [(rt & sd & Er & Hl)|(e & _ & [=])].
  apply encode_user in Et as (-> & c1 & Hg1 & Hs1 & Ht1).
  apply encode_user in Er as (-> & c2 & Hg2 & Hs2 & Ht2).
  apply bind_inv in Hl as [(? & se & _ & Hl)|(e & _ & [=])].
  apply bind_inv in Hl as [(? & sf & _ & Hl)|(e & _ & [=])].
  injection Hl as <- <-. destruct (Hk id row Hrow) as [Hid Hb].
  cbn [user_id user_to_domain] in Hs1, Hs2. rewrite Hid in Hs1, Hs2.
  exists id, row. split; [done|]. split; [done|]. split; [done|]. intros s2 expires.
  cbn [access_token refresh_token token_pair].
  assert (has_type c1 "access" = true) as H1 by (unfold has_type; by rewrite Ht1).
  assert (has_type c1 "refresh" = false) as H2 by (unfold has_type; by rewrite Ht1).
  assert (has_type c2 "access" = false) as H3 by (unfold has_type; by rewrite Ht2).
  split_and!.
  - by rewrite (current_user_of_token _ _ _ _ _ s2 Hb Hg1 Hs1), H1.
  - by rewrite (current_user_of_token _ _ _ _ _ s2 Hb Hg2 Hs2), H3.
  - by apply (refresh_with_access_token _ _ _ _ s2 Hg1).
Qed.

Lemma verify_Ret key token s d s' : verify key token s = (Ret d, s') →
  s' = s ∧ ∃ body, rsplit "."%char token = Some (body, sha256_hexdigest (body +:+ key)) ∧
    json_loads body = Some (JDict d).
Proof.
  unfold verify. destruct (rsplit _ token) as [[body sig]|]; [|done].
  intros [(b & s1 & Ec & Hr)|(e & _ & [=])]%bind_inv.
  unfold compare_digest in Ec. destruct (_ && _); [|done]. injection Ec as <- <-.
  destruct (sig ≟ signature_of key body) eqn:E; [|done]. pybool. cbn [negb] in Hr.
  unfold loads in Hr. destruct (json_loads body) as [j|] eqn:El; [|done].
  cbn in Hr. destruct j; try done. injection Hr as <- <-. split; [done|].
  exists body. split; [|done]. by rewrite E.
Qed.

Lemma int_of_Ret v s z s' : int_of v s = (Ret z, s') → s' = s.
Proof. destruct v; cbn; try (intros [=]; done). by destruct (py_int s0); intros [=]. Qed.

Lemma decode_Ret key token s d s' : decode key token s = (Ret d, s') → s' = tick s ∧
  ∃ body v exp, rsplit "."%char token = Some (body, sha256_hexdigest (body +:+ key)) ∧
    json_loads body = Some (JDict d) ∧ dict_get "exp" d = Some v ∧ int_of v s = (Ret exp, s) ∧
    instant s / 1000000 < exp.
Proof.
  unfold decode. intros [(c & s1 & Ev & Hr)|(e & _ & [=])]%bind_inv.
  apply verify_Ret in Ev as (-> & body & Hb & Hj).
  unfold item in Hr. destruct (dict_get "exp" c) as [v|] eqn:Ee; [|done]. cbn [bind ret] in Hr.
  unfold bind at 1, ret in Hr. cbn in Hr.
  apply bind_inv in Hr as [(exp & s2 & Ei & Hr)|(e & _ & [=])].
  pose proof (int_of_Ret _ _ _ _ Ei). subst s2. unfold time_time, utc_now, bind, ret in Hr. cbn -[Z.leb] in Hr.
  destruct (exp <=? _) eqn:El; [done|]. injection Hr as <- <-. split; [done|].
  apply Z.leb_gt in El. exists body, v, exp. by split_and!.
Qed.

Lemma authorize_true svc u p s s' : authorize svc u p s = (Ret true, s') → permitted u p = true.
Proof.
  unfold authorize. intros [(x & s1 & _ & [= H _])|(e & _ & [=])]%bind_inv. done.
Qed.

(** C22. Who gets past the guard of the API.  When [require_permission] returns a user, the
    request carried a bearer token whose signature is the SHA-256 digest of its body and
    the secret key; the body is a JSON object of type [access] that expires after the
    clock's second and names that user; the user's row exists, as it stands now, and one of
    its roles grants the permission. *)
Theorem guarded_request svc authz permission credentials s u s'
    (Hr : require_permission svc authz permission credentials s = (Ret u, s')) :
  ∃ token body claims v expires row, credentials = Some token ∧
    rsplit "."%char token = Some (body, sha256_hexdigest (body +:+ token_secret_key svc)) ∧
    json_loads body = Some (JDict claims) ∧
    has_type claims "access" = true ∧
    dict_get "exp" claims = Some v ∧ int_of v s = (Ret expires, s) ∧ instant s / 1000000 < expires ∧
    (∃ sub, dict_get "sub" claims = Some sub ∧ (parse_uuid (py_str sub) ≫= λ id, users s !! id) = Some row) ∧
    u = user_to_domain s row ∧ permitted u permission = true.
Proof.
  unfold require_permission in Hr. apply bind_inv in Hr as [(u1 & s1 & Eu & Hr)|(e & _ & [=])].
  apply bind_inv in Hr as [(ok & s2 & Ea & Hr)|(e & _ & [=])].
  destruct ok; [|done]. injection Hr as <- <-. apply authorize_true in Ea.
  unfold current_user in Eu. destruct credentials as [token|]; [|done].
  apply bind_inv in Eu as [(o & s3 & Eg & Hr)|(e & _ & [=])]. destruct o as [u2|]; [|done].
  injection Hr as <- <-. unfold get_current_user in Eg.
  apply bind_inv in Eg as [(o & s4 & Et & Hr)|(e & _ & [=])]. destruct o as [claims|]; [|done].
  unfold try_except, bind in Et.
  destruct (decode (token_secret_key svc) token s) as [[d|e] s5] eqn:Ed.
  2: { by destruct (isinstance e ValueError). }
  injection Et as -> <-. apply decode_Ret in Ed as (-> & body & v & exp & Hb & Hj & Hv & Hi & Hlt).
  destruct (has_type claims "access") eqn:Ht; [|done]. cbn [negb] in Hr.
  unfold subject, item in Hr. destruct (dict_get "sub" claims) as [sub|] eqn:Es; [|done].
  unfold bind, ret in Hr. destruct (parse_uuid (py_str sub)) as [id|] eqn:Eid; [|done].
  unfold Users.get, gets in Hr. injection Hr as Hu _.
  change (users (tick s)) with (users s) in Hu.
  destruct (users s !! id) as [row|] eqn:Erow; [|done]. cbn in Hu. injection Hu as <-.
  exists token, body, claims, v, exp, row. split_and!; try done.
  exists sub. split; [done|]. by rewrite Eid.
Qed.
End Guards.

(** ** Accounts *)

Section Accounts.
Context {HF : FloatRepr} {HP : Pbkdf2} {HD : Digest} {HX : HexDigest HD}.

Lemma filter_perm {A} (p : A → bool) l l' : l ≡ₚ l' → List.filter p l ≡ₚ List.filter p l'.
Proof.
  induction 1 as [|x l l' H IH|x y l|l l' l'' H1 IH1 H2 IH2]; cbn.
  - done.
  - destruct (p x); by rewrite IH.
  - destruct (p x), (p y); done || by constructor.
  - by rewrite IH1.
Qed.

Lemma rows_with_insert {A} (p : A → bool) (t : gmap UUID A) id x : t !! id = None →
  rows_with p (<[id := x]> t) ≡ₚ (if p x then [x] else []) ++ rows_with p t.
Proof.
  intros Hn. unfold rows_with.
  rewrite (filter_perm p _ (x :: map snd (map_to_list t))) by by rewrite map_to_list_insert.
  cbn. by destruct (p x).
Qed.

Lemma singleton_row {A} (p : A → bool) (t : gmap UUID A) id x :
  t !! id = None → rows_with p t = [] → p x = true → rows_with p (<[id := x]> t) = [x].
Proof.
  intros Hn Hr Hx. apply Permutation_singleton_r. by rewrite rows_with_insert, Hr, Hx.
Qed.

Lemma to_hex_digits b : str_all (λ c, is_not_none (hex_value c)) (to_hex b) = true.
Proof.
  induction b as [|c b IH]; [done|]. cbn [to_hex str_all].
  assert (Ascii.N_of_ascii c < 256)%N as Hc by apply Ascii.N_ascii_bounded.
  destruct (hex_value_digit (Ascii.N_of_ascii c / 16)) as (-> & _); [apply N.Div0.div_lt_upper_bound; lia|].
  destruct (hex_value_digit (Ascii.N_of_ascii c mod 16)) as (-> & _); [apply N.mod_lt; lia|]. exact IH.
Qed.

Lemma to_hex_eqb a b : (to_hex a ≟ to_hex b) = (a ≟ b).
Proof.
  destruct (a ≟ b) eqn:E; pybool; [by subst|]. intros H. apply E.
  assert (Some a = Some b) as [=]; [|done]. by rewrite <- !to_hex_from_hex, H.
Qed.

(** The stored hash of a password verifies that password, and no password with another key. *)
Lemma verify_hashed n password other s hash s1 :
  hash_password n password s = (Ret hash, s1) →
  ∃ salt, ∀ s2, verify_password other hash s2 =
    (Ret (pbkdf2_sha256 other salt n ≟ pbkdf2_sha256 password salt n), s2).
Proof.
  unfold hash_password. intros [(salt & s3 & _ & H)|(e & _ & [=])]%bind_inv.
  unfold derive at 1 in H. destruct (n <? 1) eqn:E1; [done|].
  destruct (2147483647 <? n) eqn:E2; [done|].
  exists salt. intros s2.
  set (d := [("alg", JStr "pbkdf2_sha256"); ("iterations", JInt n); ("salt", JStr (to_hex salt));
     ("hash", JStr (to_hex (pbkdf2_sha256 password salt n)))]).
  assert (hash = json_dumps " " (λ items, items) (JDict d)) as -> by by injection H.
  destruct (json_roundtrip " " eq_refl (λ items, items) (λ items, Permutation_refl items)
    (JDict d) eq_refl) as (j & E & Hs).
  unfold verify_password, loads. rewrite E. clear E.
  assert (∃ d', j = JDict d') as [d' ->] by (inversion Hs; subst; by eexists).
  unfold item, bind, ret. cbn beta iota zeta.
  rewrite (same_items_str_get _ _ "salt" _ Hs eq_refl). cbn beta iota zeta.
  rewrite to_hex_from_hex. cbn beta iota zeta.
  rewrite (same_items_int_get _ _ "iterations" _ Hs eq_refl). unfold derive, ret. cbn beta iota zeta.
  rewrite E1, E2. cbn beta iota zeta.
  rewrite (same_items_str_get _ _ "hash" _ Hs eq_refl). cbn beta iota zeta.
  rewrite compare_digest_ascii by apply hex_ascii, to_hex_digits. by rewrite to_hex_eqb.
Qed.

Lemma create_inserts name mail hash new_roles s u s' :
  Users.create name mail hash new_roles s = (Ret u, s') →
  ∃ old row, old !! us_id row = None ∧ users s' = <[us_id row := row]> old ∧
    rows_with (λ v, us_username v ≟ name) old = [] ∧
    us_username row = name ∧ us_password_hash row = hash ∧ us_is_active row = true ∧
    u = user_to_domain s' row.
Proof.
  unfold Users.create. intros [(related & sa & _ & H)|(e & _ & [=])]%bind_inv.
  apply bind_inv in H as [(id & sb & _ & H)|(e & _ & [=])]. cbv zeta in H.
  set (row := {| us_id := id; us_username := name; us_email := mail; us_password_hash := hash;
                 us_is_active := true; us_role_ids := map fst related |}) in H.
  unfold bind at 1, gets at 1 in H. destruct (Users.insertable row (omap snd related) sb) eqn:Ei; [|done].
  cbn [negb] in H. unfold bind, modify, gets in H.
  assert (u = user_to_domain s' row ∧ s' = set_users (<[id := row]> (users sb))
    (set_roles (fold_left (λ t r, <[ar_id r := r]> t) (omap snd related) (roles sb)) sb)) as [-> ->]
    by (injection H as <- <-; done).
  exists (users sb), row. unfold Users.insertable in Ei. rewrite !andb_true_iff in Ei.
  destruct Ei as [[[[[Hid Hn] _] _] _] _]. split_and!; try done.
  - cbn [us_id row] in Hid |- *. by destruct (users sb !! id).
  - destruct (rows_with _ (users sb)) eqn:E in Hn; [|done].
    destruct (rows_with (λ v, us_username v ≟ name) (users sb)) as [|v l] eqn:E'; [done|].
    assert (v ∈ rows_with (λ v, us_username v ≟ name) (users sb)) as Hv by (rewrite E'; by left).
    apply rows_with_elem in Hv as [Hv1 Hv2].
    assert (v ∈ rows_with (λ v, (us_username v ≟ us_username row) || (us_email v ≟ us_email row)) (users sb)) as Hin.
    { apply rows_with_elem. split; [|done]. cbn [us_username row]. by rewrite Hv1. }
    rewrite E in Hin. by apply elem_of_nil in Hin.
Qed.

Lemma audit_event_users event_type subject actor metadata s r s' :
  AuditEvents.create event_type subject actor metadata s = (r, s') → users s' = users s.
Proof. by intros [= _ <-]. Qed.

(** The row of a registration, and where it is. *)
Lemma register_inserts svc name mail password role_names s u s1 :
  auth_audit_service svc = None →
  register_user svc name mail password role_names s = (Ret u, s1) →
  ∃ row sa hash sb, hash_password (password_iterations svc) password sa = (Ret hash, sb) ∧
    us_username row = name ∧ us_password_hash row = hash ∧ us_is_active row = true ∧
    username u = name ∧
    rows_with (λ v, us_username v ≟ name) (users s1) = [row].
Proof.
  intros Ha. unfold register_user. intros [(o & sa & _ & H)|(e & _ & [=])]%bind_inv.
  destruct o; [done|].
  apply bind_inv in H as [(rs & sb & _ & H)|(e & _ & [=])].
  apply bind_inv in H as [(hash & sc & Eh & H)|(e & _ & [=])].
  apply bind_inv in H as [(user & sd & Ec & H)|(e & _ & [=])].
  apply bind_inv in H as [(ae & se & Ee & H)|(e & _ & [=])]. apply audit_event_users in Ee.
  rewrite Ha in H. injection H as <- <-.
  apply create_inserts in Ec as (old & row & Hid & Hu & Hold & Hn & Hh & Hact & ->).
  exists row, sb, hash, sc. split_and!; try done.
  rewrite Ee, Hu. apply singleton_row; [done|done|]. by apply eqb_true.
Qed.

(** Whoever registers can log in.  After [register_user] returned, and as long as the
    rows of the users stay what they are, [authenticate_user] with the same name and
    password returns a pair of tokens, and with a password of another key raises
    [ValueError("Invalid credentials")]. *)
Theorem registered_user_logs_in svc name mail password role_names s u s1
    (Ha : auth_audit_service svc = None)
    (Hr : register_user svc name mail password role_names s = (Ret u, s1)) :
  username u = name ∧
  ∀ s2, users s2 = users s1 →
  (∃ pair s3, authenticate_user svc name password s2 = (Ret pair, s3)) ∧
  ∀ other, (∀ salt, pbkdf2_sha256 other salt (password_iterations svc)
                    ≠ pbkdf2_sha256 password salt (password_iterations svc)) →
    authenticate_user svc name other s2 = (raise_ ValueError "Invalid credentials", s2).
Proof.
  destruct (register_inserts _ _ _ _ _ _ _ _ Ha Hr)
    as (row & sa & hash & sb & Eh & Hn & Hh & Hact & Hu & Hrows).
  split; [done|]. intros s2 Hs2. rewrite <- Hs2 in Hrows.
  assert (Users.get_by_username name s2 = (Ret (Some (user_to_domain s2 row)), s2)) as Hget.
  { unfold Users.get_by_username, bind, gets. by rewrite Hrows. }
  unfold authenticate_user. split.
  - rewrite (bind_Ret _ _ _ _ _ Hget). cbn [password_hash user_to_domain is_active_user].
    destruct (verify_hashed _ _ password _ _ _ Eh) as [salt Hv]. rewrite Hh.
    rewrite (bind_Ret _ _ _ _ _ (Hv s2)), Prelude.eqb_refl, Hact. cbn [negb]. rewrite Ha.
    by eexists _, _.
  - intros other Hne. rewrite (bind_Ret _ _ _ _ _ Hget). cbn [password_hash user_to_domain].
    destruct (verify_hashed _ _ other _ _ _ Eh) as [salt Hv]. rewrite Hh.
    rewrite (bind_Ret _ _ _ _ _ (Hv s2)). by rewrite (proj2 (eqb_false _ _) (Hne salt)).
Qed.
End Accounts.

(** ** The administrator *)

Section Administrator.
Context {HF : FloatRepr} {HP : Pbkdf2} {HD : Digest} {HX : HexDigest HD}.

(** Roles and permissions are stored under their ids. *)
Definition keyed_grants (s : AuthState) : Prop :=
  (∀ id r, roles s !! id = Some r → ar_id r = id) ∧ (∀ id p, permissions s !! id = Some p → perm_id p = id).

(** A role of this name that holds these permissions. *)
Definition granted (name : string) (held : list string) (s : AuthState) : Prop :=
  keyed_grants s ∧ ∃ r, roles s !! ar_id r = Some r ∧ ar_name r = name ∧
    ∀ p, p ∈ held → ∃ pid perm, pid ∈ ar_permission_ids r ∧ permissions s !! pid = Some perm ∧ perm_name perm = p.

Lemma granted_frame name held s s' : roles s' = roles s → permissions s' = permissions s →
  granted name held s → granted name held s'.
Proof. unfold granted, keyed_grants. by intros -> ->. Qed.

Lemma the_row {A} (p : A → bool) (t : gmap UUID A) x o s s' :
  one_or_none (rows_with p t) s = (Ret o, s') → (∃ id, t !! id = Some x) → p x = true → o = Some x ∧ s' = s.
Proof.
  intros [-> Hrows]%one_or_none_Some Hid Hx. split; [|done].
  assert (x ∈ rows_with p t) as Hin by by apply rows_with_elem.
  rewrite Hrows in Hin. destruct o as [y|]; cbn in Hin; [|by apply elem_of_nil in Hin].
  by apply list_elem_of_singleton in Hin as ->.
Qed.

Lemma a_row {A} (p : A → bool) (t : gmap UUID A) x s s' :
  one_or_none (rows_with p t) s = (Ret (Some x), s') → p x = true ∧ (∃ id, t !! id = Some x) ∧ s' = s.
Proof.
  intros [-> Hrows]%one_or_none_Some. assert (x ∈ rows_with p t) as Hin by (rewrite Hrows; by left).
  apply rows_with_elem in Hin as [Hp Hid]. done.
Qed.

Lemma role_by_name name s o s' : Roles.get_by_name name s = (Ret o, s') → s' = s ∧
  ∃ row, o = role_to_domain s <$> row ∧
    one_or_none (rows_with (λ r, ar_name r ≟ name) (roles s)) s = (Ret row, s).
Proof.
  unfold Roles.get_by_name. unfold bind at 1, gets at 1.
  intros [(row & s1 & E & Hr)|(e & _ & [=])]%bind_inv. injection Hr as <- <-.
  pose proof (one_or_none_Some _ _ _ _ E) as [-> _]. split; [done|]. by exists row.
Qed.

Lemma create_role_spec name description s r s' : Roles.create name description s = (Ret r, s') →
  ∃ id, roles s !! id = None ∧ permissions s' = permissions s ∧ role_name r = name ∧
    roles s' = <[id := {| ar_id := id; ar_name := name; ar_description := description; ar_permission_ids := [] |}]> (roles s).
Proof.
  unfold Roles.create. cbv zeta. unfold bind at 1, fresh_uuid. cbn [auth_state_uuids].
  unfold bind at 1, gets at 1. set (id := auth_uuids s (auth_drawn s)). cbn [roles set_auth_drawn eta_auth].
  destruct (is_none (roles s !! id)) eqn:E; [|done]. destruct (is_nil _); cbn [negb andb]; [|done].
  intros [= <- <-]. exists id. split; [by destruct (roles s !! id)|done].
Qed.

Lemma create_permission_spec name description s p s' : Permissions.create name description s = (Ret p, s') →
  ∃ id, permissions s !! id = None ∧ roles s' = roles s ∧ perm_name p = name ∧ perm_id p = id ∧
    permissions s' = <[id := p]> (permissions s).
Proof.
  unfold Permissions.create. cbv zeta. unfold bind at 1, fresh_uuid. cbn [auth_state_uuids].
  unfold bind at 1, gets at 1. set (id := auth_uuids s (auth_drawn s)). cbn [permissions set_auth_drawn eta_auth].
  destruct (is_none (permissions s !! id)) eqn:E; [|done]. destruct (is_nil _); cbn [negb andb]; [|done].
  intros [= <- <-]. exists id. split; [by destruct (permissions s !! id)|done].
Qed.

(** Whether the role was there or is created, it is there with what it held. *)
Lemma ensure_role_granted name s r s' : keyed_grants s → ensure_role name s = (Ret r, s') →
  role_name r = name ∧ granted name [] s' ∧ ∀ held, granted name held s → granted name held s'.
Proof.
  intros Hk. unfold ensure_role. intros [(o & s1 & E & H)|(e & _ & [=])]%bind_inv.
  apply role_by_name in E as (-> & row & -> & E). destruct row as [row|]; cbn [fmap option_fmap option_map] in H.
  - injection H as <- <-. apply a_row in E as (Hn & [id Hid] & _). rewrite eqb_true in Hn.
    split; [done|]. split; [|done]. split; [done|]. exists row. split; [by rewrite (proj1 Hk _ _ Hid)|].
    split; [done|]. by intros p Hp%elem_of_nil.
  - apply create_role_spec in H as (id & Hid & Hp & Hn & Hr). split; [done|].
    assert (keyed_grants s') as Hk'.
    { split; [|by rewrite Hp; apply Hk]. rewrite Hr. intros i r' [[<- <-]|[_ Hi]]%lookup_insert_Some; [done|].
      by apply Hk. }
    split.
    + split; [done|]. exists {| ar_id := id; ar_name := name; ar_description := "Administrator role"; ar_permission_ids := [] |}.
      rewrite Hr. cbn [ar_id ar_name]. rewrite lookup_insert_eq. split; [done|]. split; [done|].
      by intros p Hin%elem_of_nil.
    + intros held [_ (r0 & Hr0 & Hn0 & Hh)]. split; [done|]. exists r0. rewrite Hr, Hp.
      rewrite lookup_insert_ne by (intros ->; congruence). done.
Qed.

Lemma ensure_permission_granted name s p s' : keyed_grants s → ensure_permission name s = (Ret p, s') →
  perm_name p = name ∧ ∀ role held, granted role held s → granted role held s'.
Proof.
  intros Hk. unfold ensure_permission. intros [(o & s1 & E & H)|(e & _ & [=])]%bind_inv.
  unfold Permissions.get_by_name, bind, gets in E. destruct o as [q|].
  - injection H as <- <-. apply a_row in E as (Hn & _ & ->). by rewrite eqb_true in Hn.
  - apply one_or_none_Some in E as [-> _].
    apply create_permission_spec in H as (id & Hid & Hr & Hn & Hpid & Hp). split; [done|].
    intros role held [_ (r0 & Hr0 & Hn0 & Hh)]. split.
    + split; [by rewrite Hr; apply Hk|]. rewrite Hp.
      intros i q [[<- <-]|[_ Hi]]%lookup_insert_Some; [done|]. by apply Hk.
    + exists r0. rewrite Hr. split; [done|]. split; [done|]. intros q Hq.
      destruct (Hh q Hq) as (pid & perm & Hin & Hperm & Hname). exists pid, perm. split; [done|]. split; [|done].
      rewrite Hp, lookup_insert_ne; [done|]. intros <-. congruence.
Qed.

(** A permission that is added joins those that were held. *)
Lemma add_permission_granted role permission held s s' : granted (role_name role) held s →
  Roles.add_permission role permission s = (Ret tt, s') →
  granted (role_name role) (perm_name permission :: held) s'.
Proof.
  intros [Hk (r & Hr & Hn & Hh)]. unfold Roles.add_permission. unfold bind at 1, gets at 1.
  intros [(o & s1 & E & H)|(e & _ & [=])]%bind_inv.
  apply (the_row _ _ r) in E as [-> ->]; [|by eexists|by apply eqb_true].
  unfold bind at 1, gets at 1 in H. apply bind_inv in H as [(o & s1 & E & H)|(e & _ & [=])].
  destruct o as [p|]; [|done]. apply a_row in E as (Hp & [id Hid] & ->). rewrite eqb_true in Hp.
  pose proof (proj2 Hk _ _ Hid) as Hpid. unfold when in H. destruct (mem (perm_id p) (ar_permission_ids r)) eqn:Em.
  - injection H as <-. split; [done|]. exists r. split; [done|]. split; [done|].
    intros q [->|Hq]%elem_of_cons; [|by apply Hh]. exists id, p. subst id. by rewrite <- mem_true.
  - injection H as <-. cbn [negb]. split.
    + split; cbn; [|apply Hk]. intros i r' [[<- <-]|[_ Hi]]%lookup_insert_Some; [done|]. by apply Hk.
    + exists {| ar_id := ar_id r; ar_name := ar_name r; ar_description := ar_description r;
               ar_permission_ids := ar_permission_ids r ++ [perm_id p] |}.
      cbn. rewrite lookup_insert_eq. split; [done|]. split; [done|].
      intros q [->|Hq]%elem_of_cons.
      * exists id, p. subst id. split; [set_solver|done].
      * destruct (Hh q Hq) as (pid & perm & Hin & Hrest). exists pid, perm. split; [set_solver|done].
Qed.

Lemma granted_weaken name held held' s : held' ⊆ held → granted name held s → granted name held' s.
Proof. intros Hsub [Hk (r & Hr & Hn & Hh)]. split; [done|]. exists r. naive_solver. Qed.

Lemma grant_all role names held s s' : granted (role_name role) held s →
  for_each names (λ permission_name,
    permission <- ensure_permission permission_name ;;
    Roles.add_permission role permission) s = (Ret tt, s') →
  granted (role_name role) (names ++ held) s'.
Proof.
  revert held s. induction names as [|name names IH]; intros held s Hg; cbn [for_each]; [by intros [= <-]|].
  intros [(u & s1 & E & H)|(e & _ & [=])]%bind_inv. destruct u.
  apply bind_inv in E as [(p & s2 & Ep & Ea)|(e & _ & [=])].
  destruct (ensure_permission_granted _ _ _ _ (proj1 Hg) Ep) as [Hp Hstep].
  apply (add_permission_granted _ _ _ _ _ (Hstep _ _ Hg)) in Ea. rewrite Hp in Ea.
  eapply granted_weaken; [|exact (IH _ _ Ea H)]. set_solver.
Qed.

Lemma ensure_admin_granted name s s' : keyed_grants s → ensure_admin_permissions name s = (Ret tt, s') →
  granted name DEFAULT_ADMIN_PERMISSIONS s'.
Proof.
  intros Hk. unfold ensure_admin_permissions. intros [(role & s1 & E & H)|(e & _ & [=])]%bind_inv.
  destruct (ensure_role_granted _ _ _ _ Hk E) as (Hn & Hg & _). rewrite <- Hn in Hg |- *.
  eapply granted_weaken; [|exact (grant_all _ _ _ _ _ Hg H)]. set_solver.
Qed.

(** Hashing a password changes neither roles nor permissions. *)
Definition same_grants (s s' : AuthState) : Prop := roles s' = roles s ∧ permissions s' = permissions s.

Lemma hash_same_grants n password s hash s' : hash_password n password s = (Ret hash, s') → same_grants s s'.
Proof.
  unfold hash_password. intros [(salt & s1 & E & H)|(e & _ & [=])]%bind_inv.
  injection E as _ <-. apply bind_inv in H as [(d & s2 & E & H)|(e & _ & [=])].
  pose proof (pure_derive password salt (JInt n) (set_auth_salted (Datatypes.S (auth_salted s)) s)) as Hp.
  rewrite E in Hp. cbn in Hp. injection H as _ <-. by rewrite <- Hp.
Qed.

Lemma create_with_role name mail hash role r s u s' : role_name role = ar_name r → roles s !! ar_id r = Some r →
  Users.create name mail hash (Some [role]) s = (Ret u, s') → user_roles u = [role_to_domain s r].
Proof.
  intros Hn Hr. unfold Users.create. intros [(related & sa & Er & H)|(e & _ & [=])]%bind_inv.
  assert (related = [(ar_id r, None)] ∧ sa = s) as [-> ->].
  { cbn [from_option map_m] in Er. apply bind_inv in Er as [(x & sc & Ex & Er)|(e & _ & [=])].
    unfold Users.role_from_domain in Ex. unfold bind at 1, gets at 1 in Ex.
    apply bind_inv in Ex as [(o & sd & Eo & Ex)|(e & _ & [=])].
    apply (the_row _ _ r) in Eo as [-> ->]; [|by eexists|by apply eqb_true].
    injection Ex as <- <-. by injection Er as <- <-. }
  unfold bind at 1, fresh_uuid in H. cbn [auth_state_uuids] in H. unfold bind at 1, gets at 1 in H.
  destruct (Users.insertable _ _ _); [|done]. injection H as <- _.
  cbn [user_to_domain user_roles us_role_ids map fst]. cbn. by rewrite Hr.
Qed.

(** A user who is registered with a role holds its permissions. *)
Lemma register_permits svc name mail password role held s u s1 : auth_audit_service svc = None →
  granted role held s → register_user svc name mail password (Some [role]) s = (Ret u, s1) →
  ∀ p, p ∈ held → permitted u p = true.
Proof.
  intros Ha Hg. unfold register_user. intros [(o & sa & E & H)|(e & _ & [=])]%bind_inv.
  pose proof (pure_get_by_username name s) as Hp. rewrite E in Hp. cbn in Hp. subst sa.
  destruct o; [done|]. apply bind_inv in H as [(rs & sb & Er & H)|(e & _ & [=])].
  destruct Hg as [Hk (r & Hr & Hn & Hh)].
  assert (rs = [role_to_domain s r] ∧ sb = s) as [-> ->].
  { unfold resolve_roles in Er. cbn [from_option map_m] in Er.
    apply bind_inv in Er as [(x & sc & Ex & Er)|(e & _ & [=])].
    apply bind_inv in Ex as [(o & sd & Eo & Ex)|(e & _ & [=])].
    apply role_by_name in Eo as (-> & row & -> & Eo).
    apply (the_row _ _ r) in Eo as [-> _]; [|by eexists|by apply eqb_true]. cbn in Ex, Er.
    injection Ex as <- <-. by injection Er as <- <-. }
  apply bind_inv in H as [(hash & sc & Eh & H)|(e & _ & [=])]. apply hash_same_grants in Eh as [Hroles Hperms].
  apply bind_inv in H as [(user & sd & Ec & H)|(e & _ & [=])].
  apply bind_inv in H as [(ae & se & _ & H)|(e & _ & [=])]. rewrite Ha in H. injection H as <- _.
  intros p Hp. destruct (Hh p Hp) as (pid & perm & Hin & Hperm & Hname).
  assert (user_roles user = [role_to_domain sc r]) as Hur.
  { eapply create_with_role; [|by rewrite Hroles|exact Ec]. done. }
  unfold permitted. rewrite Hur. cbn. rewrite orb_false_r, existsb_exists. exists perm. split; [|by apply eqb_true].
  apply list_elem_of_In, list_elem_of_omap. exists pid. by rewrite Hperms.
Qed.

Lemma check_admin_Ret name mail password confirm s u s' : check_admin name mail password confirm s = (Ret u, s') →
  s' = s ∧ password = confirm ∧ (MIN_PASSWORD_LENGTH <= String.length password)%nat.
Proof.
  unfold check_admin. destruct (negb (str_truthy name)); [done|].
  destruct (negb (str_truthy mail) || _); [done|]. destruct (negb (str_truthy password)); [done|].
  destruct (password ≟ confirm) eqn:Ec; [|done]. destruct (String.length password <? MIN_PASSWORD_LENGTH)%nat eqn:El; [done|].
  cbn [negb]. intros [= _ <-]. rewrite eqb_true in Ec. apply Nat.ltb_ge in El. done.
Qed.

(** C24. The command that creates an administrator.  When [provision_admin_user] returns, the
    user holds every default permission, whatever the role held before, so that the guard of
    no route that asks for one of them turns the user away, and the stripped name logs in
    with the password, which has the least length; [create_admin] answers 0. *)
Theorem administrator_provisioned secret_key name mail password confirm role s u s1
    (Hk : keyed_grants s)
    (Hp : provision_admin_user secret_key name mail password confirm role s = (Ret u, s1)) :
  username u = str_strip name ∧
  (∀ p, p ∈ DEFAULT_ADMIN_PERMISSIONS → permitted u p = true) ∧
  password = confirm ∧ (MIN_PASSWORD_LENGTH <= String.length password)%nat ∧
  ∃ pair s2, authenticate_user (admin_auth_service secret_key) (str_strip name) password s1 = (Ret pair, s2).
Proof.
  unfold provision_admin_user in Hp. cbv zeta in Hp.
  apply bind_inv in Hp as [(? & sa & Ec & Hp)|(e & _ & [=])].
  apply check_admin_Ret in Ec as (-> & Hconfirm & Hlen).
  apply bind_inv in Hp as [(r & sb & Er & Hp)|(e & _ & [=])].
  destruct (ensure_role_granted _ _ _ _ Hk Er) as (_ & [Hkb _] & _).
  apply bind_inv in Hp as [([] & sc & Eg & Hp)|(e & _ & [=])].
  apply ensure_admin_granted in Eg; [|exact Hkb].
  apply bind_inv in Hp as [(o & sd & Eo & Hp)|(e & _ & [=])].
  apply role_by_name in Eo as (-> & row & -> & Eo). destruct row as [row|]; [|done].
  apply a_row in Eo as (Hn & _ & _). rewrite eqb_true in Hn. cbn in Hp. rewrite Hn in Hp.
  destruct (registered_user_logs_in (admin_auth_service secret_key) _ _ _ _ _ _ _ eq_refl Hp) as [Hname Hlogin].
  split; [exact Hname|]. split; [exact (register_permits (admin_auth_service secret_key) _ _ _ _ _ _ _ _ eq_refl Eg Hp)|].
  split; [done|]. split; [done|]. exact (proj1 (Hlogin s1 eq_refl)).
Qed.
End Administrator.

(** ** A small installation *)

Module DemoAuth.
#[local] Instance demo_float : FloatRepr := λ _, EmptyString.
#[local] Instance demo_key : Pbkdf2 := λ password salt _, password +:+ salt.
#[local] Instance demo_digest : Digest := to_hex.
#[local] Instance demo_hex : HexDigest demo_digest := to_hex_digits.

Definition permission : Permission :=
  {| perm_id := 3%N; perm_name := "discovery:manage"; perm_description := "" |}.
Definition operator : AuthRole :=
  {| ar_id := 2%N; ar_name := "operator"; ar_description := ""; ar_permission_ids := [3%N] |}.

(** One second passes at every reading of the clock. *)
Definition empty_state : AuthState := {|
  users := ∅; roles := {[2%N := operator]}; permissions := {[3%N := permission]};
  audit_events := []; auth_clock := λ n, 1000000 * (1000 + Z.of_nat n); auth_ticks := 0;
  auth_uuids := λ n, (10 + N.of_nat n)%N; auth_drawn := 0; auth_salts := λ _, "salt"; auth_salted := 0 |}.

Definition service : AuthenticationService := {|
  password_iterations := 1; token_secret_key := "key"; access_token_ttl_seconds := 900;
  refresh_token_ttl_seconds := 2592000; auth_audit_service := None |}.

Definition ada (active : bool) : AuthUser := {|
  us_id := 10%N; us_username := "ada"; us_email := "ada@example.org";
  us_password_hash := requote
    "{'alg': 'pbkdf2_sha256', 'iterations': 1, 'salt': '73616c74', 'hash': '707773616c74'}";
  us_is_active := active; us_role_ids := [2%N] |}.

Definition with_ada (active : bool) : AuthState := set_users {[10%N := ada active]} empty_state.

Lemma with_ada_keyed active : keyed (with_ada active).
Proof. intros id u. cbn. intros [<- <-]%lookup_singleton_Some. done. Qed.

(** What a computation returns here. *)
Definition returned {A} (default : A) (r : outcome A * AuthState) : A :=
  match r.1 with Ret a => a | Raise _ => default end.

Definition pair : TokenPair :=
  returned (token_pair "" "") (authenticate_user service "ada" "pw" (with_ada true)).
End DemoAuth.
#[local] Existing Instances DemoAuth.demo_float DemoAuth.demo_key DemoAuth.demo_digest DemoAuth.demo_hex.

Lemma token_lifetime_witness :
  plain (JDict [("sub", JStr "x")]) = true ∧
  ∃ token payload, encode "key" [("sub", JStr "x")] 60 DemoAuth.empty_state
      = (Ret token, tick DemoAuth.empty_state) ∧
    same_items (JDict (issued_claims [("sub", JStr "x")] 1000 60)) (JDict payload) ∧
    ∀ s', decode "key" token s' =
      (if 1000 + 60 <=? instant s' / 1000000 then raise_ ValueError "Token expired" else Ret payload, tick s').
Proof.
  split; [reflexivity|]. exact (token_lifetime "key" [("sub", JStr "x")] 60 DemoAuth.empty_state eq_refl).
Defined.

Lemma login_session_witness :
  ∃ s1, keyed (DemoAuth.with_ada true) ∧
  authenticate_user DemoAuth.service "ada" "pw" (DemoAuth.with_ada true) = (Ret DemoAuth.pair, s1) ∧
  ∃ id row, users (DemoAuth.with_ada true) !! id = Some row ∧ us_username row = "ada" ∧ us_is_active row = true ∧
  ∀ s2, let expires := 1000 + 900 in
    get_current_user DemoAuth.service (access_token DemoAuth.pair) s2 =
      (Ret (if expires <=? instant s2 / 1000000 then None else user_to_domain s2 <$> users s2 !! id), tick s2) ∧
    get_current_user DemoAuth.service (refresh_token DemoAuth.pair) s2 = (Ret None, tick s2) ∧
    ∃ msg, refresh_access_token DemoAuth.service (access_token DemoAuth.pair) s2 = (raise_ ValueError msg, tick s2).
Proof.
  eexists. split; [apply DemoAuth.with_ada_keyed|]. split; [vm_compute; reflexivity|].
  eapply (login_session DemoAuth.service "ada" "pw" (DemoAuth.with_ada true)).
  - apply DemoAuth.with_ada_keyed.
  - vm_compute. reflexivity.
Defined.

Lemma guarded_request_witness :
  ∃ u s', require_permission DemoAuth.service get_authorization_service "discovery:manage"
      (Some (access_token DemoAuth.pair)) (DemoAuth.with_ada true) = (Ret u, s') ∧
    permitted u "discovery:manage" = true.
Proof.
  eexists _, _. split; [vm_compute; reflexivity|].
  edestruct (guarded_request DemoAuth.service get_authorization_service "discovery:manage"
    (Some (access_token DemoAuth.pair)) (DemoAuth.with_ada true)) as (? & ? & ? & ? & ? & ? & ? & ? & ? & ? & ? & ? & ? & ? & ? & Hp).
  - vm_compute. reflexivity.
  - exact Hp.
Defined.

Lemma registered_user_logs_in_witness :
  ∃ u s1, register_user DemoAuth.service "bob" "bob@example.org" "secret-pw" (Some ["operator"]) DemoAuth.empty_state
      = (Ret u, s1) ∧ auth_audit_service DemoAuth.service = None ∧
    username u = "bob" ∧ (∃ pair s3, authenticate_user DemoAuth.service "bob" "secret-pw" s1 = (Ret pair, s3)).
Proof.
  eexists _, _. split; [vm_compute; reflexivity|]. split; [reflexivity|].
  edestruct (registered_user_logs_in DemoAuth.service "bob" "bob@example.org" "secret-pw" (Some ["operator"])
    DemoAuth.empty_state) as [Hu Hl].
  - reflexivity.
  - vm_compute. reflexivity.
  - split; [exact Hu|]. by apply Hl.
Defined.

Lemma administrator_provisioned_witness :
  ∃ u s1, provision_admin_user "key" " root " "root@example.org" "correct horse" "correct horse"
      DEFAULT_ADMIN_ROLE_NAME DemoAuth.empty_state = (Ret u, s1) ∧
    username u = "root" ∧ permitted u "inventory:write" = true.
Proof.
  eexists _, _. split; [vm_compute; reflexivity|].
  edestruct (administrator_provisioned "key" " root " "root@example.org" "correct horse" "correct horse"
    DEFAULT_ADMIN_ROLE_NAME DemoAuth.empty_state) as (Hu & Hp & _).
  - split; cbn; intros id x [<- <-]%lookup_singleton_Some; reflexivity.
  - vm_compute. reflexivity.
  - split; [exact Hu|]. apply Hp. rewrite <- mem_true. reflexivity.
Defined.

(** A name that is taken: the command fails, but the role is created and its permissions are
    granted. *)
Example refused_administrator_leaves_role :
  let '(o, s) := create_admin "key" "ada" "root@example.org" "correct horse" "correct horse" "auditor"
    (DemoAuth.with_ada true) in
  (o, size (roles s)) = (Ret 1, 2%nat).
Proof. vm_compute. reflexivity. Qed.

(** [get_current_user] does not look at [is_active]: a deactivated user passes the guard
    until the token expires, while [refresh_access_token] refuses it. *)
Example deactivated_user_keeps_access :
  (is_ret (require_permission DemoAuth.service get_authorization_service "discovery:manage"
     (Some (access_token DemoAuth.pair)) (DemoAuth.with_ada false)).1,
   (refresh_access_token DemoAuth.service (refresh_token DemoAuth.pair) (DemoAuth.with_ada false)).1)
  = (true, raise_ ValueError "Invalid refresh token").
Proof. vm_compute. reflexivity. Qed.

(** A second account with the same email: [register_user] looks at the name only, and the
    error of the database is not the [ValueError] the route answers 400 for. *)
Example duplicate_email_is_not_400 :
  (register_route DemoAuth.service "bob" "ada@example.org" "secret-pw" [] (DemoAuth.with_ada true)).1
  = raise_ IntegrityError "UNIQUE constraint failed".
Proof. vm_compute. reflexivity. Qed.

(** A signature with a character outside ASCII is an error of [compare_digest] that
    [get_current_user] does not catch. *)
Example non_ascii_signature_is_not_401 :
  (current_user DemoAuth.service (Some ("{}." +:+ String "233"%char EmptyString)) DemoAuth.empty_state).1
  = raise_ TypeError "comparing strings with non-ASCII characters is not supported".
Proof. vm_compute. reflexivity. Qed.
