(* ===== verification/Orchestration.v ===== *)
(** * Orchestration runs ([orchestration/], [persistence/unit_of_work.py])

    A run synchronizes the expected inventory, collects the live one through the
    collector runtime, compares and evaluates them and persists the outcome in a
    unit of work.  The inventory service, the runtime and the unit of work are
    interfaces, records of computations on the run's world, which is the world of
    the collector runtime; [engine_runtime] is the runtime of CollectorRuntime.v
    behind its interface.  The cancellation token is shared: whatever runs in a
    step may set it. *)

From Stdlib Require Import Qminmax.
From S2P Require Import Prelude Vocabulary Effects Json Dicts Inventories Comparison Policies.
From S2P Require Import Evaluation AuditTrail TransportManager CollectorRuntime.
#[local] Open Scope Z_scope.

(** ** Models *)

Module Orch.
Inductive OrchestrationStatus := PENDING | RUNNING | RETRYING | SUCCEEDED | FAILED | CANCELLED.

#[export] Instance OrchestrationStatus_eq_dec : EqDecision OrchestrationStatus.
Proof. solve_decision. Defined.

(** [OrchestrationState]. *)
Record OrchestrationState := {
  status : OrchestrationStatus;
  attempts : Z;
  message : option string;
  started_at : option datetime;
  finished_at : option datetime;
  updated_at : datetime;
}.

Definition eta (s : OrchestrationState) : OrchestrationState := {|
  status := status s; attempts := attempts s; message := message s; started_at := started_at s;
  finished_at := finished_at s; updated_at := updated_at s |}.

Definition set_status v s : OrchestrationState := ltac:(record_with eta status s v).
Definition set_attempts v s : OrchestrationState := ltac:(record_with eta attempts s v).
Definition set_message v s : OrchestrationState := ltac:(record_with eta message s v).
Definition set_started_at v s : OrchestrationState := ltac:(record_with eta started_at s v).
Definition set_finished_at v s : OrchestrationState := ltac:(record_with eta finished_at s v).
Definition set_updated_at v s : OrchestrationState := ltac:(record_with eta updated_at s v).

(** [OrchestrationProgress]. *)
Record OrchestrationProgress := {
  step : string;
  completed_steps : Z;
  total_steps : Z;
  progress_message : option string;
  percent : float;
}.

(** [round(x, 2)]. *)
Definition round_2 (x : float) : float := (inject_Z (round_half_even (x * 100)) / 100)%Q.

Definition create_progress (step : string) (completed_steps total_steps : Z)
    (message : option string) : OrchestrationProgress := {|
  step := step; completed_steps := completed_steps; total_steps := total_steps;
  progress_message := message;
  percent := round_2 (if total_steps =? 0 then 100
                      else inject_Z completed_steps / inject_Z total_steps * 100)%Q |}.

(** [OrchestrationMetrics]; [snapshot] copies it. *)
Record OrchestrationMetrics := {
  submitted_runs : Z;
  succeeded_runs : Z;
  failed_runs : Z;
  cancelled_runs : Z;
  retried_runs : Z;
  collector_jobs : Z;
  persisted_records : Z;
  duration_seconds : float;
}.

Definition eta_metrics (m : OrchestrationMetrics) : OrchestrationMetrics := {|
  submitted_runs := submitted_runs m; succeeded_runs := succeeded_runs m;
  failed_runs := failed_runs m; cancelled_runs := cancelled_runs m;
  retried_runs := retried_runs m; collector_jobs := collector_jobs m;
  persisted_records := persisted_records m; duration_seconds := duration_seconds m |}.

Definition add_submitted m : OrchestrationMetrics :=
  ltac:(record_with eta_metrics submitted_runs m (submitted_runs m + 1)).
Definition add_succeeded m : OrchestrationMetrics :=
  ltac:(record_with eta_metrics succeeded_runs m (succeeded_runs m + 1)).
Definition add_failed m : OrchestrationMetrics :=
  ltac:(record_with eta_metrics failed_runs m (failed_runs m + 1)).
Definition add_cancelled m : OrchestrationMetrics :=
  ltac:(record_with eta_metrics cancelled_runs m (cancelled_runs m + 1)).
Definition add_retried m : OrchestrationMetrics :=
  ltac:(record_with eta_metrics retried_runs m (retried_runs m + 1)).
Definition add_collector_jobs n m : OrchestrationMetrics :=
  ltac:(record_with eta_metrics collector_jobs m (collector_jobs m + n)).
Definition add_persisted n m : OrchestrationMetrics :=
  ltac:(record_with eta_metrics persisted_records m (persisted_records m + n)).
Definition set_duration v m : OrchestrationMetrics :=
  ltac:(record_with eta_metrics duration_seconds m v).

(** [OrchestrationJob]; its context is an argument of what runs it. *)
Record OrchestrationJob := { id : UUID; state : OrchestrationState; priority : Z }.

Definition initial_state (now : datetime) : OrchestrationState := {|
  status := PENDING; attempts := 0; message := None; started_at := None; finished_at := None;
  updated_at := now |}.

(** What a run works on: its job, the reason in its cancellation token, the engine's
    metrics, and the rest. *)
Record World (R : Type) := {
  run_job : OrchestrationJob;
  token : option string;
  run_metrics : OrchestrationMetrics;
  run_rest : R;
}.
Arguments run_job {R} _.
Arguments token {R} _.
Arguments run_metrics {R} _.
Arguments run_rest {R} _.
End Orch.
Export (hints) Orch.
Abbreviation OrchestrationStatus := Orch.OrchestrationStatus.
Abbreviation OrchestrationState := Orch.OrchestrationState.
Abbreviation OrchestrationMetrics := Orch.OrchestrationMetrics.
Abbreviation OrchestrationProgress := Orch.OrchestrationProgress.

(** What [_persist] returns. *)
Record Persisted := {
  discovery_run_id : UUID;
  netbox_snapshot_id : UUID;
  live_snapshot_id : UUID;
  comparison_record_id : UUID;
}.

Module RunResult.
Record OrchestrationResult := {
  job_id : UUID;
  run_id : UUID;
  status : OrchestrationStatus;
  netbox_inventory : option NetBox.NetBoxInventorySnapshot;
  live_snapshot : option Live.LiveInventorySnapshot;
  comparison_result : option InventoryComparisonResult;
  evaluation_decision : option EvaluationDecision;
  persisted : option Persisted;
  error_message : option string;
  metrics : OrchestrationMetrics;
  completed_at : datetime;
}.
End RunResult.
Abbreviation OrchestrationResult := RunResult.OrchestrationResult.

(** ** Interfaces *)

(** [CollectorRuntimeProtocol]. *)
Record CollectorRuntimeProtocol (S : Type) := {
  start_runtime : M S unit;
  stop_runtime : M S unit;
  submit_context : CollectorRuntimeContext → M S CollectorJob;
  run_collector_job : CollectorJob → M S CollectorExecutionResult;
}.
Arguments start_runtime {S} _.
Arguments stop_runtime {S} _.
Arguments submit_context {S} _ _.
Arguments run_collector_job {S} _ _.

(** [CollectorRuntimeEngine] behind the protocol. *)
Definition engine_runtime {HF : FloatRepr} {R Model} (self : CollectorExecutor R Model)
    (l : CollectorRuntimeLifecycle R) : CollectorRuntimeProtocol (RuntimeWorld R) := {|
  start_runtime := start l;
  stop_runtime := stop l;
  submit_context ctx := submit self ctx 0;
  run_collector_job := CollectorRuntime.run_job self |}.

(** [PersistenceUnitOfWork] and the repositories it exposes, by the operations a run
    uses; a comparison record comes with the number of its findings. *)
Record UnitOfWork (S : Type) := {
  create_discovery_run : string → dict → M S UUID;
  add_netbox_snapshot : NetBox.NetBoxInventorySnapshot → M S UUID;
  add_live_snapshot : Live.LiveInventorySnapshot → UUID → M S UUID;
  add_comparison_result : InventoryComparisonResult → UUID → UUID → M S (UUID * Z);
  session_commit : M S unit;
  session_rollback : M S unit;
}.
Arguments create_discovery_run {S} _ _ _.
Arguments add_netbox_snapshot {S} _ _.
Arguments add_live_snapshot {S} _ _ _.
Arguments add_comparison_result {S} _ _ _ _.
Arguments session_commit {S} _.
Arguments session_rollback {S} _.

Section UnitOfWork.
Context {S : Type} (uow : UnitOfWork S).

(** [commit], [rollback] and the [with] statement. *)
Definition commit_unit : M S unit :=
  try_except (session_commit uow) (λ e,
    if isinstance e Exception_
    then raise TransactionError "Failed to commit persistence unit of work."
    else reraise e).

Definition rollback_unit : M S unit :=
  try_except (session_rollback uow) (λ e,
    if isinstance e Exception_
    then raise TransactionError "Failed to rollback persistence unit of work."
    else reraise e).

Definition with_unit_of_work {A} (body : M S A) : M S A :=
  r <- catching body ;;
  match r with
  | Ret a => commit_unit ;;; ret a
  | Raise e => rollback_unit ;;; reraise e
  end.
End UnitOfWork.

(** [OrchestrationContext]; the token is in the world. *)
Record OrchestrationContext (S : Type) := {
  collector_contexts : list CollectorRuntimeContext;
  policies : list (CompliancePolicy + PolicyPackage);
  run_exceptions : list EvaluationException;
  run_metadata : dict;
  context_run_id : UUID;
  max_attempts : Z;
  retry_delay_seconds : float;
  force_netbox_refresh : bool;
  progress_callback : option (OrchestrationProgress → M S unit);
  event_publisher : option (BaseEvent → M S unit);
}.
Arguments collector_contexts {S} _.
Arguments policies {S} _.
Arguments run_exceptions {S} _.
Arguments run_metadata {S} _.
Arguments context_run_id {S} _.
Arguments max_attempts {S} _.
Arguments retry_delay_seconds {S} _.
Arguments force_netbox_refresh {S} _.
Arguments progress_callback {S} _.
Arguments event_publisher {S} _.

(** ** The workflow ([orchestration/workflow.py], [orchestration/coordinator.py]) *)

Section Workflow.
Context {HF : FloatRepr} {HR : Regex} {HN : NameUUID} {R : Type}.
Abbreviation W := (RuntimeWorld (Orch.World R)).

Record WorkflowEngine := {
  (* [InventoryService.synchronize] *)
  synchronize : bool → M W NetBox.NetBoxInventorySnapshot;
  collector_runtime : CollectorRuntimeProtocol W;
  difference_filter : option DifferenceFilter;
  evaluation_rules : RuleRegistry;
  unit_of_work : UnitOfWork W;
  (* [asyncio.sleep] and [uuid4] *)
  pause : float → M W unit;
  new_uuid : M W UUID;
}.

Definition run_of (w : W) : Orch.World R := rest (outside w).
Definition orch_job (w : W) : Orch.OrchestrationJob := Orch.run_job (run_of w).
Definition orch_state (w : W) : OrchestrationState := Orch.state (orch_job w).
Definition orch_metrics (w : W) : OrchestrationMetrics := Orch.run_metrics (run_of w).
Definition token_reason (w : W) : option string := Orch.token (run_of w).

Definition set_run (v : Orch.World R) (w : W) : W := set_outside (set_rest v (outside w)) w.

Definition change_state (f : OrchestrationState → OrchestrationState) : M W unit :=
  modify (λ w, set_run {|
    Orch.run_job := {| Orch.id := Orch.id (orch_job w); Orch.state := f (orch_state w);
                       Orch.priority := Orch.priority (orch_job w) |};
    Orch.token := token_reason w; Orch.run_metrics := orch_metrics w;
    Orch.run_rest := Orch.run_rest (run_of w) |} w).

Definition change_metrics (f : OrchestrationMetrics → OrchestrationMetrics) : M W unit :=
  modify (λ w, set_run {|
    Orch.run_job := orch_job w; Orch.token := token_reason w;
    Orch.run_metrics := f (orch_metrics w); Orch.run_rest := Orch.run_rest (run_of w) |} w).

(** [CancellationToken.cancel]. *)
Definition cancel_run (reason : string) : M W unit :=
  modify (λ w, set_run {|
    Orch.run_job := orch_job w; Orch.token := Some reason;
    Orch.run_metrics := orch_metrics w; Orch.run_rest := Orch.run_rest (run_of w) |} w).

(** *** [OrchestrationState] *)

Definition touch : M W unit := t <- now ;; change_state (Orch.set_updated_at t).

Definition mark_running : M W unit :=
  change_state (Orch.set_status Orch.RUNNING) ;;;
  s <- gets orch_state ;;
  match Orch.started_at s with
  | Some _ => ret tt
  | None => t <- now ;; change_state (Orch.set_started_at (Some t))
  end ;;;
  touch.

Definition mark_retrying (message : string) : M W unit :=
  change_state (Orch.set_status Orch.RETRYING) ;;;
  change_state (Orch.set_message (Some message)) ;;;
  touch.

(** The common part of the final marks. *)
Definition finish : M W unit :=
  t <- now ;; change_state (Orch.set_finished_at (Some t)) ;;; touch.

Definition mark_succeeded : M W unit := change_state (Orch.set_status Orch.SUCCEEDED) ;;; finish.

Definition mark_failed (message : string) : M W unit :=
  change_state (Orch.set_status Orch.FAILED) ;;;
  change_state (Orch.set_message (Some message)) ;;;
  finish.

Definition mark_cancelled (message : string) : M W unit :=
  change_state (Orch.set_status Orch.CANCELLED) ;;;
  change_state (Orch.set_message (Some message)) ;;;
  finish.

Definition increment_attempts : M W unit :=
  change_state (λ s, Orch.set_attempts (Orch.attempts s + 1) s) ;;; touch.

(** *** Events and progress *)

(** [run_event]. *)
Definition run_event (name : string) (job : Orch.OrchestrationJob) (run_id : UUID)
    (payload : dict) (now : datetime) : BaseEvent := {|
  event_name := name;
  event_payload := dict_merge [("job_id", JStr (uuid_str (Orch.id job)));
                               ("run_id", JStr (uuid_str run_id))] payload;
  occurred_at := now |}.

Definition progress_payload (p : OrchestrationProgress) : dict := [
  ("step", JStr (Orch.step p));
  ("completed_steps", JInt (Orch.completed_steps p));
  ("total_steps", JInt (Orch.total_steps p));
  ("percent", JFloat (Orch.percent p));
  ("message", match Orch.progress_message p with Some m => JStr m | None => JNull end)].

Definition RUN_STARTED := "orchestration.run.started".
Definition RUN_PROGRESS := "orchestration.run.progress".
Definition RUN_SUCCEEDED := "orchestration.run.succeeded".
Definition RUN_FAILED := "orchestration.run.failed".
Definition RUN_CANCELLED := "orchestration.run.cancelled".

Context (self : WorkflowEngine) (ctx : OrchestrationContext W).

(** [_publish]. *)
Definition publish_run (name : string) (payload : dict) : M W unit :=
  match event_publisher ctx with
  | None => ret tt
  | Some publisher =>
      j <- gets orch_job ;;
      t <- now ;;
      publisher (run_event name j (context_run_id ctx) payload t)
  end.

(** [_progress]. *)
Definition report (step : string) (completed_steps : Z) (message : string) : M W unit :=
  let p := Orch.create_progress step completed_steps 6 (Some message) in
  match progress_callback ctx with Some callback => callback p | None => ret tt end ;;;
  publish_run RUN_PROGRESS (progress_payload p).

(** [_raise_if_cancelled]; [reason or "Run cancelled."]. *)
Definition raise_if_cancelled : M W unit :=
  reason <- gets token_reason ;;
  match reason with
  | None => ret tt
  | Some r => raise OrchestrationCancelledError (if str_truthy r then r else "Run cancelled.")
  end.

(** [_step_async] and [_step_sync]. *)
Definition in_step {A} (step : string) (completed_steps : Z) (operation : M W A) : M W A :=
  raise_if_cancelled ;;;
  report step (completed_steps - 1) ("Starting " +:+ step +:+ ".") ;;;
  v <- operation ;;
  raise_if_cancelled ;;;
  report step completed_steps ("Completed " +:+ step +:+ ".") ;;;
  ret v.

(** [DiscoveryCoordinator.collect]. *)
Fixpoint collect_contexts (ctxs : list CollectorRuntimeContext) : M W (list CollectorExecutionResult) :=
  match ctxs with
  | [] => ret []
  | c :: ctxs =>
      job <- submit_context (collector_runtime self) c ;;
      result <- run_collector_job (collector_runtime self) job ;;
      results <- collect_contexts ctxs ;;
      ret (result :: results)
  end.

Definition collect_live (ctxs : list CollectorRuntimeContext)
    : M W (Live.LiveInventorySnapshot * list CollectorExecutionResult) :=
  start_runtime (collector_runtime self) ;;;
  results <- try_finally (collect_contexts ctxs) (stop_runtime (collector_runtime self)) ;;
  fresh <- new_uuid self ;;
  t <- now ;;
  ret (merge fresh t (omap ExecutionResult.snapshot results), results).

(** [_persist]. *)
Definition persist (netbox : NetBox.NetBoxInventorySnapshot) (live : Live.LiveInventorySnapshot)
    (result : InventoryComparisonResult) : M W Persisted :=
  let uow := unit_of_work self in
  with_unit_of_work uow (
    run <- create_discovery_run uow (uuid_str (context_run_id ctx)) (run_metadata ctx) ;;
    expected <- add_netbox_snapshot uow netbox ;;
    observed <- add_live_snapshot uow live run ;;
    record <- add_comparison_result uow result expected observed ;;
    change_metrics (Orch.add_persisted (3 + snd record)) ;;;
    ret {| discovery_run_id := run; netbox_snapshot_id := expected;
           live_snapshot_id := observed; comparison_record_id := fst record |}).

(** The operation of the evaluation step, with the time at its start. *)
Definition evaluate_run (result : InventoryComparisonResult) : M W EvaluationDecision :=
  t <- now ;;
  of_outcome (evaluate t (evaluation_rules self)
    {| Evaluation.comparison_result := result; context_metadata := run_metadata ctx;
       exceptions := run_exceptions ctx |} (policies ctx) tt).1.

(** [_run_once]. *)
Definition run_once : M W OrchestrationResult :=
  first <- gets orch_state ;;
  netbox <- in_step "netbox_inventory" 1 (synchronize self (force_netbox_refresh ctx)) ;;
  collected <- in_step "collector_runtime" 2 (collect_live (collector_contexts ctx)) ;;
  let '(live, results) := collected in
  change_metrics (Orch.add_collector_jobs (Z.of_nat (length results))) ;;;
  compared <- in_step "comparison" 3 (ret (compare (difference_filter self) netbox live)) ;;
  decision <- in_step "evaluation" 4 (evaluate_run compared) ;;
  stored <- in_step "persistence" 5 (persist netbox live compared) ;;
  report "completed" 6 "Run completed." ;;;
  last <- gets orch_state ;;
  match Orch.started_at first, Orch.finished_at last with
  | Some t0, Some t1 =>
      change_metrics (Orch.set_duration (Qmax 0 (inject_Z (t1 - t0) / 1000000)%Q))
  | _, _ => ret tt
  end ;;;
  job <- gets orch_job ;;
  m <- gets orch_metrics ;;
  t <- now ;;
  ret {| RunResult.job_id := Orch.id job; RunResult.run_id := context_run_id ctx;
         RunResult.status := Orch.SUCCEEDED; RunResult.netbox_inventory := Some netbox;
         RunResult.live_snapshot := Some live; RunResult.comparison_result := Some compared;
         RunResult.evaluation_decision := Some decision; RunResult.persisted := Some stored;
         RunResult.error_message := None; RunResult.metrics := m; RunResult.completed_at := t |}.

(** [OrchestrationResult.failed]. *)
Definition failed_result (status : OrchestrationStatus) (error_message : string)
    : M W OrchestrationResult :=
  job <- gets orch_job ;;
  m <- gets orch_metrics ;;
  t <- now ;;
  ret {| RunResult.job_id := Orch.id job; RunResult.run_id := context_run_id ctx;
         RunResult.status := status; RunResult.netbox_inventory := None;
         RunResult.live_snapshot := None; RunResult.comparison_result := None;
         RunResult.evaluation_decision := None; RunResult.persisted := None;
         RunResult.error_message := Some error_message; RunResult.metrics := m;
         RunResult.completed_at := t |}.

(** The [except] clauses; [again] is the rest of the loop, if any. *)
Definition on_run_exception (again : option (M W OrchestrationResult)) (exc : exn)
    : M W OrchestrationResult :=
  let error := [("error", JStr (exn_str exc))] in
  if isinstance exc OrchestrationCancelledError then
    mark_cancelled (exn_str exc) ;;;
    change_metrics Orch.add_cancelled ;;;
    publish_run RUN_CANCELLED error ;;;
    failed_result Orch.CANCELLED (exn_str exc)
  else if isinstance exc Exception_ then
    match again with
    | Some again =>
        change_metrics Orch.add_retried ;;;
        mark_retrying (exn_str exc) ;;;
        when (negb (Qle_bool (retry_delay_seconds ctx) 0)) (pause self (retry_delay_seconds ctx)) ;;;
        again
    | None =>
        mark_failed (exn_str exc) ;;;
        change_metrics Orch.add_failed ;;;
        publish_run RUN_FAILED error ;;;
        failed_result Orch.FAILED (exn_str exc)
    end
  else reraise exc.

(** The loop, with the number of attempts left after the present one. *)
Fixpoint run_attempts (more : nat) : M W OrchestrationResult :=
  increment_attempts ;;;
  mark_running ;;;
  r <- catching run_once ;;
  match r with
  | Ret result =>
      mark_succeeded ;;;
      change_metrics Orch.add_succeeded ;;;
      publish_run RUN_SUCCEEDED [] ;;;
      ret result
  | Raise exc =>
      on_run_exception
        (match more with
         | O => None
         | S more => Some (run_attempts more)
         end) exc
  end.

Definition run_retries : nat := Z.to_nat (Z.max 1 (max_attempts ctx) - 1).

(** [WorkflowEngine.execute]. *)
Definition execute_run : M W OrchestrationResult :=
  change_metrics Orch.add_submitted ;;;
  publish_run RUN_STARTED [] ;;;
  run_attempts run_retries.

(** [OrchestrationEngine.run]: a new job for the context. *)
Definition run_context (priority : Z) : M W OrchestrationResult :=
  id <- new_uuid self ;;
  t <- now ;;
  modify (λ w, set_run {|
    Orch.run_job := {| Orch.id := id; Orch.state := Orch.initial_state t;
                       Orch.priority := priority |};
    Orch.token := token_reason w; Orch.run_metrics := orch_metrics w;
    Orch.run_rest := Orch.run_rest (run_of w) |} w) ;;;
  execute_run.
End Workflow.
Arguments WorkflowEngine R : clear implicits.
