(* ===== verification/OrchestrationTheorems.v ===== *)
(** * Correctness of orchestration runs

    A run comes to exactly one conclusion, counted once, after at most the
    attempts its context allows; a successful one composes the components; one
    that is cancelled before it starts touches nothing. *)

From S2P Require Import Prelude Vocabulary Effects Json Dicts Inventories Comparison Policies.
From S2P Require Import Resilience ComparisonTheorems Evaluation AuditTrail.
From S2P Require Import TransportManager CollectorRuntime CollectorRuntimeTheorems.
From S2P Require Import Orchestration.
#[local] Open Scope Z_scope.

(** ** What is counted *)

Record Tally := {
  t_attempts : Z;
  t_submitted : Z;
  t_succeeded : Z;
  t_failed : Z;
  t_cancelled : Z;
  t_retried : Z;
}.

Section Runs.
Context {HF : FloatRepr} {HR : Regex} {HN : NameUUID} {R : Type}.
Abbreviation W := (RuntimeWorld (Orch.World R)).
Implicit Types w : W.

Definition tally w : Tally := {|
  t_attempts := Orch.attempts (orch_state w);
  t_submitted := Orch.submitted_runs (orch_metrics w);
  t_succeeded := Orch.succeeded_runs (orch_metrics w);
  t_failed := Orch.failed_runs (orch_metrics w);
  t_cancelled := Orch.cancelled_runs (orch_metrics w);
  t_retried := Orch.retried_runs (orch_metrics w) |}.

Definition run_status w : OrchestrationStatus := Orch.status (orch_state w).
Definition is_cancelled w : Prop := token_reason w ≠ None.

(** What runs in a step or is called back leaves the run's job and metrics alone; it
    may cancel the run. *)
Record leaves_run w w' : Prop := {
  lr_job : orch_job w' = orch_job w;
  lr_metrics : orch_metrics w' = orch_metrics w;
  lr_token : is_cancelled w → is_cancelled w';
}.

#[export] Instance leaves_run_preorder : PreOrder leaves_run.
Proof. split; [by split|]. intros ??? [] []. split; [congruence..|tauto]. Qed.

Definition aside {A} (m : M W A) : Prop := preserves leaves_run m.

(** The collaborators of a run; a pause raises, if at all, no [Exception]. *)
Record well_behaved_run (self : WorkflowEngine R) (ctx : OrchestrationContext W) : Prop := {
  wr_synchronize : ∀ b, aside (synchronize self b);
  wr_start : aside (start_runtime (collector_runtime self));
  wr_stop : aside (stop_runtime (collector_runtime self));
  wr_submit : ∀ c, aside (submit_context (collector_runtime self) c);
  wr_job : ∀ j, aside (run_collector_job (collector_runtime self) j);
  wr_create : ∀ n d, aside (create_discovery_run (unit_of_work self) n d);
  wr_netbox : ∀ s, aside (add_netbox_snapshot (unit_of_work self) s);
  wr_live : ∀ s u, aside (add_live_snapshot (unit_of_work self) s u);
  wr_result : ∀ r u v, aside (add_comparison_result (unit_of_work self) r u v);
  wr_commit : aside (session_commit (unit_of_work self));
  wr_rollback : aside (session_rollback (unit_of_work self));
  wr_pause : ∀ t, aside (pause self t) ∧
    ∀ w e, (pause self t w).1 = Raise e → isinstance e Exception_ = false;
  wr_uuid : aside (new_uuid self);
  wr_callback : ∀ f p, progress_callback ctx = Some f → aside (f p);
  wr_publisher : ∀ f e, event_publisher ctx = Some f → aside (f e);
}.

(** ** Steps change no counter *)

(** The job, the counters of runs and the token, where cancelling is allowed. *)
Record keeps w w' : Prop := {
  kp_job : orch_job w' = orch_job w;
  kp_tally : tally w' = tally w;
  kp_token : is_cancelled w → is_cancelled w';
}.

#[export] Instance keeps_preorder : PreOrder keeps.
Proof. split; [by split|]. intros ??? [] []. split; [congruence..|tauto]. Qed.

Lemma aside_keeps {A} (m : M W A) : aside m → preserves keeps m.
Proof.
  intros H w. destruct (H w) as [Hj Hm Ht]. split; [done| |done].
  unfold tally, orch_state. by rewrite Hj, Hm.
Qed.

Lemma keeps_modify (f : W → W) :
  (∀ w, orch_job (f w) = orch_job w ∧ tally (f w) = tally w ∧ token_reason (f w) = token_reason w) →
  preserves keeps (modify f).
Proof.
  intros H w. destruct (H w) as (H1 & H2 & H3). split; [done..|].
  unfold is_cancelled. cbn. by rewrite H3.
Qed.

Lemma keeps_now : preserves keeps (now : M W _).
Proof. done. Qed.

Context (self : WorkflowEngine R) (ctx : OrchestrationContext W).
Context (Hself : well_behaved_run self ctx).

Ltac keeps_step :=
  match goal with
  | |- preserves keeps now => apply keeps_now
  | |- preserves keeps (modify _) => apply keeps_modify; done
  | |- preserves keeps (change_metrics _) => apply keeps_modify; done
  | |- _ => preserves_step
  end.
Ltac keeps_auto := repeat keeps_step.

Lemma keeps_publish name payload : preserves keeps (publish_run ctx name payload).
Proof. unfold publish_run. keeps_auto. apply aside_keeps. by eapply wr_publisher. Qed.

Lemma keeps_report step n msg : preserves keeps (report ctx step n msg).
Proof.
  unfold report. keeps_auto; [|apply keeps_publish].
  apply aside_keeps. by eapply wr_callback.
Qed.

Lemma keeps_in_step {A} step n (m : M W A) : preserves keeps m → preserves keeps (in_step ctx step n m).
Proof.
  intros Hm. unfold in_step, raise_if_cancelled. keeps_auto; first [done|apply keeps_report].
Qed.

Lemma keeps_collect ctxs : preserves keeps (collect_live self ctxs).
Proof.
  assert (preserves keeps (collect_contexts self ctxs)) as H.
  { induction ctxs as [|c ctxs IH]; cbn; keeps_auto;
      first [done | apply aside_keeps; first [apply (wr_submit _ _ Hself) | apply (wr_job _ _ Hself)]]. }
  unfold collect_live. keeps_auto;
    first [done | apply aside_keeps; first [apply (wr_start _ _ Hself)
      | apply (wr_stop _ _ Hself) | apply (wr_uuid _ _ Hself)]].
Qed.

Lemma keeps_persist nb lv r : preserves keeps (persist self ctx nb lv r).
Proof.
  destruct Hself. unfold persist, with_unit_of_work, commit_unit, rollback_unit.
  keeps_auto; apply aside_keeps; auto.
Qed.

Lemma keeps_run_once : preserves keeps (run_once self ctx).
Proof.
  destruct Hself. unfold run_once. keeps_auto;
    first [apply keeps_report | apply keeps_in_step; keeps_auto;
      first [by apply aside_keeps | apply keeps_collect | apply keeps_persist | unfold evaluate_run; keeps_auto]].
Qed.

(** ** What a successful run is made of *)

(** A component was asked in the course of the run and answered. *)
Definition answered {A} (m : M W A) (a : A) : Prop := ∃ w w', m w = (Ret a, w').

(** What is stored: a run, the two inventories, the second as one of that run, and the
    comparison of the two records, committed. *)
Definition stored_as (stored : Persisted) (nb : NetBox.NetBoxInventorySnapshot)
    (lv : Live.LiveInventorySnapshot) (result : InventoryComparisonResult) : Prop :=
  let uow := unit_of_work self in
  answered (create_discovery_run uow (uuid_str (context_run_id ctx)) (run_metadata ctx))
    (discovery_run_id stored) ∧
  answered (add_netbox_snapshot uow nb) (netbox_snapshot_id stored) ∧
  answered (add_live_snapshot uow lv (discovery_run_id stored)) (live_snapshot_id stored) ∧
  (∃ findings, answered (add_comparison_result uow result (netbox_snapshot_id stored)
     (live_snapshot_id stored)) (comparison_record_id stored, findings)) ∧
  answered (session_commit uow) tt.

(** Its parts are the answers of the components, each for the parts before it. *)
Definition composed (r : OrchestrationResult) : Prop :=
  ∃ nb lv dec stored results fresh t1 t2,
    RunResult.netbox_inventory r = Some nb ∧
    answered (synchronize self (force_netbox_refresh ctx)) nb ∧
    RunResult.live_snapshot r = Some lv ∧
    lv = merge fresh t1 (omap ExecutionResult.snapshot results) ∧
    answered (new_uuid self) fresh ∧
    Forall2 (λ c result, ∃ job, answered (submit_context (collector_runtime self) c) job ∧
      answered (run_collector_job (collector_runtime self) job) result)
      (collector_contexts ctx) results ∧
    RunResult.comparison_result r = Some (compare (difference_filter self) nb lv) ∧
    RunResult.evaluation_decision r = Some dec ∧
    (evaluate t2 (evaluation_rules self)
       {| Evaluation.comparison_result := compare (difference_filter self) nb lv;
          context_metadata := run_metadata ctx; exceptions := run_exceptions ctx |}
       (policies ctx) tt).1 = Ret dec ∧
    RunResult.persisted r = Some stored ∧
    stored_as stored nb lv (compare (difference_filter self) nb lv) ∧
    RunResult.run_id r = context_run_id ctx ∧ RunResult.error_message r = None.

Ltac step_inv H :=
  let w := fresh "w" in let H1 := fresh "H" in let H2 := fresh "H" in
  apply bind_inv in H as [(? & w & H1 & H2)|(? & _ & [=])].

Lemma in_step_Ret {A} step n (m : M W A) w v w' :
  in_step ctx step n m w = (Ret v, w') → ∃ w1 w2, m w1 = (Ret v, w2).
Proof.
  unfold in_step. intros [(? & w1 & _ & H)|(? & _ & [=])]%bind_inv.
  apply bind_inv in H as [(? & w2 & _ & H)|(? & _ & [=])].
  apply bind_inv in H as [(v' & w3 & Hv & H)|(? & _ & [=])].
  apply bind_inv in H as [(? & w4 & _ & H)|(? & _ & [=])].
  apply bind_inv in H as [(? & w5 & _ & H)|(? & _ & [=])].
  injection H as -> _. by eexists _, _.
Qed.

Lemma collect_live_Ret ctxs w lv results w' :
  collect_live self ctxs w = (Ret (lv, results), w') →
  (∃ fresh t, answered (new_uuid self) fresh ∧ lv = merge fresh t (omap ExecutionResult.snapshot results)) ∧
  Forall2 (λ c result, ∃ job, answered (submit_context (collector_runtime self) c) job ∧
    answered (run_collector_job (collector_runtime self) job) result) ctxs results.
Proof.
  assert (∀ ctxs w rs w', collect_contexts self ctxs w = (Ret rs, w') →
    Forall2 (λ c result, ∃ job, answered (submit_context (collector_runtime self) c) job ∧
      answered (run_collector_job (collector_runtime self) job) result) ctxs rs) as Hall.
  { clear. induction ctxs as [|c ctxs IH]; intros w rs w'; cbn; [by intros [= <- _]|].
    intros [(job & w1 & Hj & H)|(? & _ & [=])]%bind_inv.
    apply bind_inv in H as [(result & w2 & Hres & H)|(? & _ & [=])].
    apply bind_inv in H as [(rs' & w3 & H1 & H)|(? & _ & [=])].
    injection H as <- _. constructor; [|by eapply IH]. exists job. split; [by exists w, w1|by exists w1, w2]. }
  unfold collect_live. intros [(? & w1 & _ & H)|(? & _ & [=])]%bind_inv.
  apply bind_inv in H as [(rs & w2 & Hrs & H)|(? & _ & [=])].
  apply bind_inv in H as [(fresh & w3 & Hf & H)|(? & _ & [=])].
  apply bind_inv in H as [(t & w4 & _ & H)|(? & _ & [=])].
  injection H as <- <- _. split; [exists fresh, t; unfold answered; eauto|]. unfold try_finally in Hrs.
  destruct (collect_contexts _ _ _) as [[rs'|e] w5] eqn:E;
    destruct (stop_runtime _ _) as [[[]|e'] w6]; simplify_eq. by eapply Hall.
Qed.

Lemma persist_Ret nb lv result w stored w' :
  persist self ctx nb lv result w = (Ret stored, w') → stored_as stored nb lv result.
Proof.
  unfold persist, with_unit_of_work. intros [(o & w1 & Hbody & H)|(? & _ & [=])]%bind_inv.
  destruct o as [a|e]; [|apply bind_inv in H as [(? & ? & _ & [=])|(? & _ & [=])]].
  apply bind_inv in H as [([] & w2 & Hc & H)|(? & _ & [=])]. injection H as -> _.
  unfold catching in Hbody. destruct (bind _ _ w) as [o w3] eqn:E. injection Hbody as -> ->.
  apply bind_inv in E as [(run & w4 & H1 & E)|(? & _ & [=])].
  apply bind_inv in E as [(ex & w5 & H2 & E)|(? & _ & [=])].
  apply bind_inv in E as [(ob & w6 & H3 & E)|(? & _ & [=])].
  apply bind_inv in E as [([record n] & w7 & H4 & E)|(? & _ & [=])].
  apply bind_inv in E as [(? & w8 & _ & E)|(? & _ & [=])]. injection E as <- _.
  unfold commit_unit, try_except in Hc.
  destruct (session_commit _ _) as [[[]|e] w9] eqn:Ec; [|by destruct (isinstance e Exception_)].
  unfold stored_as, answered. cbn. split_and!; eauto.
Qed.

Lemma run_once_composed : ensures (run_once self ctx) (λ r _, composed r ∧ RunResult.status r = Orch.SUCCEEDED).
Proof.
  intros w r w'. unfold run_once. intros [(first & w1 & _ & H)|(? & _ & [=])]%bind_inv.
  apply bind_inv in H as [(nb & w2 & Hnb & H)|(? & _ & [=])].
  apply in_step_Ret in Hnb as (? & ? & Hnb).
  apply bind_inv in H as [([lv rs] & w3 & Hlv & H)|(? & _ & [=])].
  apply in_step_Ret in Hlv as (? & ? & ((fresh & t1 & Hf & Hlv) & Hall)%collect_live_Ret).
  apply bind_inv in H as [(? & w4 & _ & H)|(? & _ & [=])].
  apply bind_inv in H as [(cmp & w5 & Hcmp & H)|(? & _ & [=])].
  apply in_step_Ret in Hcmp as (? & ? & [= <- _]).
  apply bind_inv in H as [(dec & w6 & Hdec & H)|(? & _ & [=])].
  apply in_step_Ret in Hdec as (? & ? & Hdec).
  apply bind_inv in H as [(stored & w7 & Hst & H)|(? & _ & [=])].
  apply in_step_Ret in Hst as (? & ? & Hst%persist_Ret).
  apply bind_inv in H as [(? & w8 & _ & H)|(? & _ & [=])].
  apply bind_inv in H as [(? & w9 & _ & H)|(? & _ & [=])].
  apply bind_inv in H as [(? & w10 & _ & H)|(? & _ & [=])].
  apply bind_inv in H as [(job & w11 & _ & H)|(? & _ & [=])].
  apply bind_inv in H as [(m & w12 & _ & H)|(? & _ & [=])].
  apply bind_inv in H as [(t & w13 & _ & H)|(? & _ & [=])].
  injection H as <- _. split; [|done].
  unfold evaluate_run in Hdec. apply bind_inv in Hdec as [(t2 & ? & _ & Hdec)|(? & _ & [=])].
  injection Hdec as Hdec _. exists nb, lv, dec, stored, rs, fresh, t1, t2.
  split_and!; try done. by eexists _, _.
Qed.

#[local] Arguments isinstance : simpl never.

(** ** The loop *)

(** The counters after [n] attempts of which the last came to the conclusion. *)
Definition tallied (n : Z) (conclusion : OrchestrationStatus) (t : Tally) : Tally := {|
  t_attempts := t_attempts t + n;
  t_submitted := t_submitted t;
  t_succeeded := t_succeeded t + match conclusion with Orch.SUCCEEDED => 1 | _ => 0 end;
  t_failed := t_failed t + match conclusion with Orch.FAILED => 1 | _ => 0 end;
  t_cancelled := t_cancelled t + match conclusion with Orch.CANCELLED => 1 | _ => 0 end;
  t_retried := t_retried t + (n - 1) |}.

#[local] Ltac tally_lia Ht :=
  unfold tally in *; cbn in *; injection Ht as -> -> -> -> -> ->; cbn; unfold tallied; cbn; f_equal; lia.

(** A loop that may retry [more] times. *)
Definition concludes (more : nat) w (o : outcome OrchestrationResult) w' : Prop :=
  match o with
  | Ret r => ∃ n, 1 <= n <= Z.of_nat more + 1 ∧
      tally w' = tallied n (RunResult.status r) (tally w) ∧
      run_status w' = RunResult.status r ∧
      match RunResult.status r with
      | Orch.SUCCEEDED => composed r
      | Orch.CANCELLED => RunResult.persisted r = None
      | Orch.FAILED => RunResult.persisted r = None ∧ n = Z.of_nat more + 1
      | _ => False
      end
  | Raise e => isinstance e Exception_ = false ∨ event_publisher ctx ≠ None
  end.

Lemma publish_Raise name payload w e :
  (publish_run ctx name payload w).1 = Raise e → event_publisher ctx ≠ None.
Proof. unfold publish_run. by destruct (event_publisher ctx). Qed.

(** A statement that changes only the run's own records and returns. *)
Lemma then_run {A} (m : M W unit) (k : M W A) w : (m w).1 = Ret tt → (m ;;; k) w = k (m w).2.
Proof. unfold bind. destruct (m w) as [o w']. by intros [= ->]. Qed.

(** The end of an attempt: an event, and the result. *)
Lemma conclude more w w1 name payload (k : M W OrchestrationResult) status :
  run_status w1 = status → tally w1 = tallied 1 status (tally w) →
  (∀ w2, ∃ r w3, k w2 = (Ret r, w3) ∧ keeps w2 w3 ∧ RunResult.status r = status ∧
     match status with
     | Orch.SUCCEEDED => composed r
     | Orch.CANCELLED => RunResult.persisted r = None
     | Orch.FAILED => RunResult.persisted r = None ∧ more = O
     | _ => False
     end) →
  let run := publish_run ctx name payload ;;; k in
  concludes more w (run w1).1 (run w1).2.
Proof.
  intros Hs Ht Hk. cbv zeta. pose proof (keeps_publish name payload w1) as Hp. unfold bind.
  pose proof (publish_Raise name payload w1) as Hr.
  destruct (publish_run _ _ _ _) as [[[]|e] w2]; cbn [fst snd] in *; [|by right; eapply Hr].
  destruct (Hk w2) as (r & w3 & -> & Hk3 & <- & Hm). cbn.
  assert (keeps w1 w3) as [Hj Hty _] by (by etrans).
  exists 1. split; [lia|]. rewrite Hty, Ht. split; [done|]. split.
  - rewrite <-Hs. unfold run_status, orch_state. by rewrite Hj.
  - destruct (RunResult.status r); try done. destruct Hm as [? ->]. done.
Qed.

(** The attempt that is counted before it runs. *)
Lemma attempt_counted w :
  let w1 := (mark_running (increment_attempts w).2).2 in
  (increment_attempts w).1 = Ret tt ∧ (mark_running (increment_attempts w).2).1 = Ret tt ∧
  tally w1 = {| t_attempts := t_attempts (tally w) + 1; t_submitted := t_submitted (tally w);
                t_succeeded := t_succeeded (tally w); t_failed := t_failed (tally w);
                t_cancelled := t_cancelled (tally w); t_retried := t_retried (tally w) |} ∧
  token_reason w1 = token_reason w.
Proof.
  cbv zeta. unfold mark_running, bind at 1 2. cbn.
  destruct (Orch.started_at _) eqn:E; cbn; done.
Qed.

Lemma attempt_spec {A} (k : M W A) w :
  (increment_attempts ;;; mark_running ;;; k) w = k (mark_running (increment_attempts w).2).2.
Proof.
  destruct (attempt_counted w) as (H1 & H2 & _).
  rewrite (then_run increment_attempts _ w H1). by apply then_run.
Qed.

Lemma retry_counted msg w :
  tally (mark_retrying msg (change_metrics Orch.add_retried w).2).2 =
  {| t_attempts := t_attempts (tally w); t_submitted := t_submitted (tally w);
     t_succeeded := t_succeeded (tally w); t_failed := t_failed (tally w);
     t_cancelled := t_cancelled (tally w); t_retried := t_retried (tally w) + 1 |}.
Proof. done. Qed.

(** The exit from an attempt that failed with [exc] after [w] counted it. *)
Lemma on_run_exception_spec more w w1 exc (again : option (M W OrchestrationResult)) :
  tally w1 = {| t_attempts := t_attempts (tally w) + 1; t_submitted := t_submitted (tally w);
                t_succeeded := t_succeeded (tally w); t_failed := t_failed (tally w);
                t_cancelled := t_cancelled (tally w); t_retried := t_retried (tally w) |} →
  match again with
  | None => more = O
  | Some k => ∃ more', more = Datatypes.S more' ∧ ∀ w2, concludes more' w2 (k w2).1 (k w2).2
  end →
  concludes more w (on_run_exception self ctx again exc w1).1 (on_run_exception self ctx again exc w1).2.
Proof.
  intros Ht Hagain. unfold on_run_exception.
  destruct (isinstance exc OrchestrationCancelledError) eqn:Ec; [|destruct (isinstance exc Exception_) eqn:Ee].
  - rewrite then_run by done. rewrite then_run by done.
    eapply (conclude _ _ _ _ _ _ Orch.CANCELLED); [done|..].
    + tally_lia Ht.
    + intros w2. do 2 eexists. split; [done|]. done.
  - destruct again as [k|].
    + destruct Hagain as (more' & -> & Hk). rewrite then_run by done. rewrite then_run by done.
      set (w2 := (mark_retrying _ _).2).
      assert (tally w2 = {| t_attempts := t_attempts (tally w) + 1; t_submitted := t_submitted (tally w);
                t_succeeded := t_succeeded (tally w); t_failed := t_failed (tally w);
                t_cancelled := t_cancelled (tally w); t_retried := t_retried (tally w) + 1 |}) as Ht2.
      { unfold w2. by rewrite retry_counted, Ht. }
      clearbody w2. unfold bind.
      destruct (wr_pause _ _ Hself (retry_delay_seconds ctx)) as [Hp Hnot].
      assert (∀ o w3, when (negb (Qle_bool (retry_delay_seconds ctx) 0)) (pause self (retry_delay_seconds ctx)) w2 = (o, w3) →
        tally w3 = tally w2 ∧ match o with Ret _ => True | Raise e => isinstance e Exception_ = false end) as Hw.
      { intros o w3. unfold when. destruct (negb _); [|by intros [= <- <-]].
        intros E. specialize (Hp w2). specialize (Hnot w2). rewrite E in *. cbn in *.
        split; [unfold tally, orch_state; destruct Hp as [-> -> _]; done|].
        destruct o; [done|]. by apply Hnot. }
      destruct (when _ _ w2) as [[[]|e] w3]; destruct (Hw _ _ eq_refl) as [Hw3 He]; cbn; [|by left].
      specialize (Hk w3). destruct (k w3) as [[r|e] w4]; cbn in *; [|done].
      destruct Hk as (n & Hn & Hty & Hs & Hr). exists (n + 1). split; [lia|].
      split; [rewrite Hty, Hw3, Ht2; unfold tallied; cbn; f_equal; lia|]. split; [done|].
      destruct (RunResult.status r); try done. destruct Hr. split; [done|lia].
    + subst more. rewrite then_run by done. rewrite then_run by done.
      eapply (conclude _ _ _ _ _ _ Orch.FAILED); [done|..].
      * tally_lia Ht.
      * intros w2. do 2 eexists. split; [done|]. done.
  - cbn. by left.
Qed.

Lemma catching_bind {A B} (m : M W A) (k : outcome A → M W B) w :
  bind (catching m) k w = k (m w).1 (m w).2.
Proof. unfold bind, catching. by destruct (m w). Qed.

Lemma run_attempts_conclude more w :
  concludes more w (run_attempts self ctx more w).1 (run_attempts self ctx more w).2.
Proof.
  revert w. induction more as [|more IH]; intros w; cbn [run_attempts]; rewrite attempt_spec, catching_bind;
    destruct (attempt_counted w) as (_ & _ & Ht & _); set (w1 := (mark_running _).2) in *; clearbody w1;
    pose proof (keeps_run_once w1) as [_ Hk _];
    destruct (run_once self ctx w1) as [[r|e] w2] eqn:E; cbn [fst snd] in *.
  all: try (apply on_run_exception_spec; [by rewrite Hk|eauto]).
  all: destruct (run_once_composed _ _ _ E) as [Hc Hs]; rewrite !then_run by done;
    eapply (conclude _ _ _ _ _ _ Orch.SUCCEEDED); [done|rewrite <-Hk in Ht; tally_lia Ht|].
  all: intros w3; do 2 eexists; split; [done|]; split; [done|]; by rewrite Hs.
Qed.

Lemma execute_run_started w :
  let w1 := (change_metrics Orch.add_submitted w).2 in
  execute_run self ctx w = (publish_run ctx RUN_STARTED [] ;;; run_attempts self ctx (run_retries ctx)) w1 ∧
  tally w1 = {| t_attempts := t_attempts (tally w); t_submitted := t_submitted (tally w) + 1;
                t_succeeded := t_succeeded (tally w); t_failed := t_failed (tally w);
                t_cancelled := t_cancelled (tally w); t_retried := t_retried (tally w) |}.
Proof. done. Qed.

End Runs.

(** ** Cancelled before the start *)

Section Cancelled.
Context {HF : FloatRepr} {HR : Regex} {HN : NameUUID} {R : Type}.
Abbreviation W := (RuntimeWorld (Orch.World R)).
Implicit Types (w : W) (self : WorkflowEngine R).

Context (ctx : OrchestrationContext W).
Context (publisher_aside : ∀ f e, event_publisher ctx = Some f → aside (f e)).

Lemma run_once_cancelled self w reason :
  token_reason w = Some reason →
  run_once self ctx w =
    (Raise (Exn OrchestrationCancelledError (if str_truthy reason then reason else "Run cancelled.")), w).
Proof.
  intros H. unfold run_once, in_step, raise_if_cancelled, bind, gets. rewrite H. done.
Qed.

Lemma publish_keeps_cancelled name payload w :
  is_cancelled w → is_cancelled (publish_run ctx name payload w).2.
Proof.
  unfold publish_run. destruct (event_publisher ctx) as [f|]; [|done]. intros H. cbn.
  by eapply lr_token; [apply (publisher_aside f _ eq_refl)|].
Qed.

Lemma on_cancelled_spec self again msg w r w' :
  on_run_exception self ctx again (Exn OrchestrationCancelledError msg) w = (Ret r, w') →
  RunResult.status r = Orch.CANCELLED ∧ RunResult.error_message r = Some msg.
Proof.
  change (on_run_exception _ _ _ _) with (mark_cancelled msg ;;; change_metrics (R := R) Orch.add_cancelled ;;;
    publish_run ctx RUN_CANCELLED [("error", JStr msg)] ;;; failed_result ctx Orch.CANCELLED msg).
  rewrite !then_run by done. intros [(? & ? & _ & H)|(? & _ & [=])]%bind_inv. by injection H as <- _.
Qed.

Lemma run_attempts_cancelled self self' more w :
  is_cancelled w → run_attempts self ctx more w = run_attempts self' ctx more w ∧
  ∀ r w', run_attempts self ctx more w = (Ret r, w') → RunResult.status r = Orch.CANCELLED.
Proof.
  unfold is_cancelled. destruct (attempt_counted w) as (_ & _ & _ & <-).
  set (w1 := (mark_running (increment_attempts w).2).2). intros H.
  destruct (token_reason w1) as [reason|] eqn:Hr; [clear H|done].
  destruct more as [|more]; cbn [run_attempts]; rewrite !attempt_spec, !catching_bind;
    fold w1; rewrite !(run_once_cancelled _ _ _ Hr); cbn [fst snd]; (split; [done|]);
    intros r w' E; by apply on_cancelled_spec in E as [? _].
Qed.

(** A run that is cancelled before it starts calls no component: whatever the
    inventory service, the collector runtime, the filter, the rules and the unit of
    work are, the run behaves the same and leaves the same world, and it concludes as
    cancelled. *)
Theorem cancelled_run_calls_nothing self self' w :
  is_cancelled w →
  execute_run self ctx w = execute_run self' ctx w ∧
  ∀ r w', execute_run self ctx w = (Ret r, w') → RunResult.status r = Orch.CANCELLED.
Proof.
  intros H. unfold execute_run. rewrite !(then_run (change_metrics _)) by done.
  set (w1 := (change_metrics _ w).2). assert (is_cancelled w1) as H1 by exact H. clearbody w1.
  apply (publish_keeps_cancelled RUN_STARTED []) in H1. unfold bind.
  destruct (publish_run _ _ _ _) as [[[]|e] w2]; [by apply run_attempts_cancelled|done].
Qed.
End Cancelled.

(** ** Instances *)

Section Demo.
#[local] Instance demo_float_repr : FloatRepr := λ _, "".
#[local] Instance demo_regex : Regex := λ _ _, Ret false.
#[local] Instance demo_names : NameUUID := λ _, 0%N.
Abbreviation W := (RuntimeWorld (Orch.World unit)).

(** An inventory service that is unavailable in the first attempt. *)
Definition demo_engine : WorkflowEngine unit := {|
  synchronize _ w := if Orch.attempts (orch_state w) =? 1
    then (Raise (Exn NetBoxTransportError "unavailable"), w)
    else (Ret (demo_netbox [demo_device "core-1" None]), w);
  collector_runtime := {|
    start_runtime := ret tt; stop_runtime := ret tt;
    submit_context c := ret {|
      CollectorJob.context := c; CollectorJob.priority := 0; CollectorJob.id := 3%N;
      CollectorJob.state := State.initial 0; CollectorJob.created_at := 0;
      CollectorJob.is_cancelled := false |};
    run_collector_job j := ret {|
      ExecutionResult.job_id := CollectorJob.id j; ExecutionResult.collector_name := "c";
      ExecutionResult.target := RuntimeContext.target (CollectorJob.context j);
      ExecutionResult.status := SUCCEEDED;
      ExecutionResult.snapshot := Some (demo_live 5 [demo_live_device "x" "core-1" 5]);
      ExecutionResult.transport_name := None; ExecutionResult.parser_name := None;
      ExecutionResult.attempts := 1; ExecutionResult.metadata := [];
      ExecutionResult.started_at := 0; ExecutionResult.finished_at := 1 |} |};
  difference_filter := None;
  evaluation_rules := [];
  unit_of_work := {|
    create_discovery_run _ _ := ret 11%N; add_netbox_snapshot _ := ret 12%N;
    add_live_snapshot _ _ := ret 13%N; add_comparison_result _ _ _ := ret (14%N, 0);
    session_commit := ret tt; session_rollback := ret tt |};
  pause _ := ret tt;
  new_uuid := ret 9%N |}.

Definition demo_run_context : OrchestrationContext W := {|
  collector_contexts := [demo_context 1]; policies := []; run_exceptions := [];
  run_metadata := []; context_run_id := 7%N; max_attempts := 3; retry_delay_seconds := 1%Q;
  force_netbox_refresh := false; progress_callback := None; event_publisher := None |}.

Definition demo_run_world (token : option string) : W := {|
  breaker := new_breaker 5 30%Q 1;
  connections := {| max_size := 4; sessions := ∅ |};
  clock := Z.of_nat; ticks := 0;
  outside := let r := outside (demo_world 1) in
    {| job := job r; metrics := metrics r; queue := queue r; started := started r; rest := {|
    Orch.run_job := {| Orch.id := 3%N; Orch.state := Orch.initial_state 0; Orch.priority := 0 |};
    Orch.token := token;
    Orch.run_metrics := {|
      Orch.submitted_runs := 0; Orch.succeeded_runs := 0; Orch.failed_runs := 0;
      Orch.cancelled_runs := 0; Orch.retried_runs := 0; Orch.collector_jobs := 0;
      Orch.persisted_records := 0; Orch.duration_seconds := 0%Q |};
    Orch.run_rest := tt |} |} |}.

Lemma demo_run_well_behaved : well_behaved_run demo_engine demo_run_context.
Proof.
  split; try done. intros b w. cbn. by destruct (_ =? 1).
Qed.


Lemma cancelled_run_calls_nothing_witness :
  let self' : WorkflowEngine unit := {|
    synchronize _ := raise NetBoxTransportError "called";
    collector_runtime := collector_runtime demo_engine; difference_filter := None;
    evaluation_rules := []; unit_of_work := unit_of_work demo_engine;
    pause _ := ret tt; new_uuid := ret 9%N |} in
  is_cancelled (demo_run_world (Some "stop")) ∧
  execute_run demo_engine demo_run_context (demo_run_world (Some "stop")) =
    execute_run self' demo_run_context (demo_run_world (Some "stop")).
Proof.
  intros self'. split; [done|].
  apply (cancelled_run_calls_nothing demo_run_context); done.
Defined.

(** The duration of a run is taken before its end is known: it is never recorded. *)
Example duration_unrecorded :
  let w' := (execute_run demo_engine demo_run_context (demo_run_world None)).2 in
  run_status w' = Orch.SUCCEEDED ∧
  (∃ t0 t1, Orch.started_at (orch_state w') = Some t0 ∧ Orch.finished_at (orch_state w') = Some t1 ∧ t0 < t1) ∧
  Orch.duration_seconds (orch_metrics w') = 0%Q.
Proof. vm_compute. split_and!; [done| |done]. by do 2 eexists. Qed.

(** Records are counted as persisted before their commit, which may fail. *)
Example uncommitted_records_counted :
  let engine : WorkflowEngine unit := {|
    synchronize _ := ret (demo_netbox []); collector_runtime := collector_runtime demo_engine;
    difference_filter := None; evaluation_rules := [];
    unit_of_work := {|
      create_discovery_run _ _ := ret 11%N; add_netbox_snapshot _ := ret 12%N;
      add_live_snapshot _ _ := ret 13%N; add_comparison_result _ _ _ := ret (14%N, 0);
      session_commit := raise RuntimeError "disk full"; session_rollback := ret tt |};
    pause _ := ret tt; new_uuid := ret 9%N |} in
  let w' := (execute_run engine demo_run_context (demo_run_world None)).2 in
  run_status w' = Orch.FAILED ∧ Orch.persisted_records (orch_metrics w') = 9.
Proof. vm_compute. done. Qed.

(** A job that a run submits stays in the queue of the runtime after it ran. *)
Example submitted_jobs_stay_queued :
  let executor := demo_executor (λ _, ret []) in
  let run := job <- submit executor (demo_context 1) 0 ;; CollectorRuntime.run_job executor job in
  let w' := (run (demo_world 1)).2 in
  is_ret (run (demo_world 1)).1 = true ∧ length (PriorityQueue.entries (queue (outside w'))) = 1%nat.
Proof. vm_compute. done. Qed.
End Demo.
