(* ===== verification/Jobs.v ===== *)
(** * Background jobs ([jobs/])

    A job is an orchestration context that waits in a priority queue until a worker
    dispatches it to the orchestration engine.  The job objects are referred to by
    the queue, the repository and the caller alike: they live in a heap, by identity,
    and the queue and the repository hold identities.

    The engine, the publisher of events and the contexts are interfaces: [JobContext]
    is what the module uses of an orchestration context, whose cancellation token a
    job shares.  One worker is modelled: the semaphore of the dispatcher is free when
    it dispatches. *)

From stdpp Require Import sorting.
From S2P Require Import Prelude Vocabulary Effects Json Dicts AuditTrail PriorityQueue.
From S2P Require Import CollectorRuntime Orchestration.
#[local] Open Scope Z_scope.

(** ** Models ([jobs/state.py], [jobs/models.py], [jobs/metrics.py]) *)

Module BgJob.
Inductive JobStatus :=
  PENDING | QUEUED | RUNNING | RETRYING | COMPLETED | FAILED | CANCELLED | TIMED_OUT.

#[export] Instance JobStatus_eq_dec : EqDecision JobStatus.
Proof. solve_decision. Defined.

Definition JobStatus_value (s : JobStatus) : string :=
  match s with
  | PENDING => "pending" | QUEUED => "queued" | RUNNING => "running" | RETRYING => "retrying"
  | COMPLETED => "completed" | FAILED => "failed" | CANCELLED => "cancelled"
  | TIMED_OUT => "timed_out"
  end.

Record JobState := {
  status : JobStatus;
  attempts : Z;
  message : option string;
  created_at : datetime;
  queued_at : option datetime;
  started_at : option datetime;
  finished_at : option datetime;
  updated_at : datetime;
}.

Definition eta_state (s : JobState) : JobState := {|
  status := status s; attempts := attempts s; message := message s; created_at := created_at s;
  queued_at := queued_at s; started_at := started_at s; finished_at := finished_at s;
  updated_at := updated_at s |}.

Definition set_status v s : JobState := ltac:(record_with eta_state status s v).
Definition set_attempts v s : JobState := ltac:(record_with eta_state attempts s v).
Definition set_message v s : JobState := ltac:(record_with eta_state message s v).
Definition set_queued_at v s : JobState := ltac:(record_with eta_state queued_at s v).
Definition set_started_at v s : JobState := ltac:(record_with eta_state started_at s v).
Definition set_finished_at v s : JobState := ltac:(record_with eta_state finished_at s v).
Definition set_updated_at v s : JobState := ltac:(record_with eta_state updated_at s v).

Section Job.
Context {C : Type}.

Record JobRequest := { context : C; priority : Z; timeout_seconds : option float }.

(** [JobStateSnapshot] has the fields of [JobState], the status by its value. *)
Record JobHistoryRecord := {
  record_id : UUID;
  record_request : JobRequest;
  record_state : string * JobState;
  record_result : dict;
  record_created_at : datetime;
}.

Definition from_state (s : JobState) : string * JobState := (JobStatus_value (status s), s).

Record Job := { request : JobRequest; state : JobState; history : list JobHistoryRecord; born : datetime }.

Definition with_state (f : JobState → JobState) (j : Job) : Job := {|
  request := request j; state := f (state j); history := history j; born := born j |}.
Definition with_record (r : JobHistoryRecord) (j : Job) : Job := {|
  request := request j; state := state j; history := history j ++ [r]; born := born j |}.

Record JobMetrics := {
  submitted_jobs : Z;
  queued_jobs : Z;
  started_jobs : Z;
  completed_jobs : Z;
  failed_jobs : Z;
  cancelled_jobs : Z;
  timed_out_jobs : Z;
}.

Definition eta_metrics (m : JobMetrics) : JobMetrics := {|
  submitted_jobs := submitted_jobs m; queued_jobs := queued_jobs m;
  started_jobs := started_jobs m; completed_jobs := completed_jobs m;
  failed_jobs := failed_jobs m; cancelled_jobs := cancelled_jobs m;
  timed_out_jobs := timed_out_jobs m |}.

Definition record_submitted m : JobMetrics :=
  ltac:(record_with eta_metrics submitted_jobs m (submitted_jobs m + 1)).
Definition record_queued m : JobMetrics :=
  ltac:(record_with eta_metrics queued_jobs m (queued_jobs m + 1)).
Definition record_started m : JobMetrics :=
  ltac:(record_with eta_metrics started_jobs m (started_jobs m + 1)).
Definition record_completed m : JobMetrics :=
  ltac:(record_with eta_metrics completed_jobs m (completed_jobs m + 1)).
Definition record_failed m : JobMetrics :=
  ltac:(record_with eta_metrics failed_jobs m (failed_jobs m + 1)).
Definition record_cancelled m : JobMetrics :=
  ltac:(record_with eta_metrics cancelled_jobs m (cancelled_jobs m + 1)).
Definition record_timed_out m : JobMetrics :=
  ltac:(record_with eta_metrics timed_out_jobs m (timed_out_jobs m + 1)).

(** The objects of the module: jobs, queue, the dictionaries of
    [InMemoryJobRepository], metrics, and the stop event of the lifecycle. *)
Record Tables := {
  objects : UUID → Job;
  queue : PriorityQueue UUID;
  stored : list UUID;
  histories : list (UUID * list JobHistoryRecord);
  metrics : JobMetrics;
  stopped : bool;
}.

Definition eta (t : Tables) : Tables := {|
  objects := objects t; queue := queue t; stored := stored t; histories := histories t;
  metrics := metrics t; stopped := stopped t |}.
Definition set_objects v t : Tables := ltac:(record_with eta objects t v).
Definition set_queue v t : Tables := ltac:(record_with eta queue t v).
Definition set_stored v t : Tables := ltac:(record_with eta stored t v).
Definition set_histories v t : Tables := ltac:(record_with eta histories t v).
Definition set_metrics v t : Tables := ltac:(record_with eta metrics t v).
Definition set_stopped v t : Tables := ltac:(record_with eta stopped t v).
End Job.
Arguments JobRequest C : clear implicits.
Arguments JobHistoryRecord C : clear implicits.
Arguments Job C : clear implicits.
Arguments Tables C : clear implicits.
End BgJob.
Export (hints) BgJob.
Abbreviation JobStatus := BgJob.JobStatus.
Abbreviation JobTables := BgJob.Tables.

(** ** Interfaces *)

(** A world that holds the objects of the module. *)
Class HasJobs (C W : Type) `{!Clock W} := {
  tables : W → JobTables C;
  set_tables : JobTables C → W → W;
  tables_set : ∀ t w, tables (set_tables t w) = t;
  tables_tick : ∀ w, tables (tick w) = tables w;
}.

(** [OrchestrationContext] as the module uses it: the cancellation token, the
    callback and the publisher. *)
Class JobContext (C W : Type) := {
  cancel_reason : C → W → option string;
  cancel_token : C → string → M W unit;
  original_callback : C → option (OrchestrationProgress → M W unit);
  own_publisher : C → option (BaseEvent → M W unit);
}.

(** The token is not among the objects of the module. *)
Class JobContextLaws (C W : Type) `{!Clock W, !HasJobs C W, !JobContext C W} := {
  reason_set : ∀ c t w, cancel_reason c (set_tables t w) = cancel_reason c w;
  reason_tick : ∀ c w, cancel_reason c (tick w) = cancel_reason c w;
  cancel_sets : ∀ c r w, (cancel_token c r w).1 = Ret tt ∧
    tables (cancel_token c r w).2 = tables w ∧ cancel_reason c (cancel_token c r w).2 = Some r;
}.

(** [JobRepository]. *)
Record JobStore (W : Type) := {
  save_job : UUID → M W unit;
  get_stored : UUID → M W (option UUID);
  list_stored : M W (list UUID);
}.
Arguments save_job {W} _ _.
Arguments get_stored {W} _ _.
Arguments list_stored {W} _.

Section Jobs.
Context {C W : Type} `{!Clock W, !HasJobs C W, !JobContext C W}.
Abbreviation Publisher := (option (BaseEvent → M W unit)).

Definition change_tables (f : JobTables C → JobTables C) : M W unit :=
  modify (λ w, set_tables (f (tables w)) w).

Definition job_of (j : UUID) (w : W) : BgJob.Job C := BgJob.objects (tables w) j.
Definition job_state (j : UUID) (w : W) : BgJob.JobState := BgJob.state (job_of j w).
Definition job_metrics (w : W) : BgJob.JobMetrics := BgJob.metrics (tables w).
Definition job_context (j : UUID) (w : W) : C := BgJob.context (BgJob.request (job_of j w)).
Definition job_reason (j : UUID) (w : W) : option string := cancel_reason (job_context j w) w.

Definition change_job (j : UUID) (f : BgJob.Job C → BgJob.Job C) : M W unit :=
  change_tables (λ t, BgJob.set_objects
    (λ k, if k ≟ j then f (BgJob.objects t k) else BgJob.objects t k) t).
Definition change_job_state (j : UUID) (f : BgJob.JobState → BgJob.JobState) : M W unit :=
  change_job j (BgJob.with_state f).
Definition count_job (f : BgJob.JobMetrics → BgJob.JobMetrics) : M W unit :=
  change_tables (λ t, BgJob.set_metrics (f (BgJob.metrics t)) t).

(** *** [JobState] *)

Definition touch_job (j : UUID) : M W unit :=
  t <- utc_now ;; change_job_state j (BgJob.set_updated_at t).

Definition mark_job_queued (j : UUID) : M W unit :=
  change_job_state j (BgJob.set_status BgJob.QUEUED) ;;;
  s <- gets (job_state j) ;;
  match BgJob.queued_at s with
  | Some _ => ret tt
  | None => t <- utc_now ;; change_job_state j (BgJob.set_queued_at (Some t))
  end ;;;
  touch_job j.

Definition mark_job_running (j : UUID) : M W unit :=
  change_job_state j (BgJob.set_status BgJob.RUNNING) ;;;
  s <- gets (job_state j) ;;
  match BgJob.started_at s with
  | Some _ => ret tt
  | None => t <- utc_now ;; change_job_state j (BgJob.set_started_at (Some t))
  end ;;;
  touch_job j.

(** [mark_completed], [mark_failed], [mark_cancelled] and [mark_timed_out]. *)
Definition mark_job (status : JobStatus) (message : option string) (j : UUID) : M W unit :=
  change_job_state j (BgJob.set_status status) ;;;
  change_job_state j (BgJob.set_message message) ;;;
  t <- utc_now ;;
  change_job_state j (BgJob.set_finished_at (Some t)) ;;;
  touch_job j.

Definition increment_job_attempts (j : UUID) : M W unit :=
  change_job_state j (λ s, BgJob.set_attempts (BgJob.attempts s + 1) s) ;;;
  touch_job j.

(** *** [Job] *)

Definition cancel_object (reason : string) (j : UUID) : M W unit :=
  c <- gets (job_context j) ;;
  cancel_token c reason ;;;
  mark_job BgJob.CANCELLED (Some reason) j.

Definition record_history (new_uuid : M W UUID) (result : option dict) (j : UUID) : M W unit :=
  fresh <- new_uuid ;;
  job <- gets (job_of j) ;;
  t <- utc_now ;;
  change_job j (BgJob.with_record {|
    BgJob.record_id := fresh; BgJob.record_request := BgJob.request job;
    BgJob.record_state := BgJob.from_state (BgJob.state job);
    BgJob.record_result := from_option id [] result; BgJob.record_created_at := t |}).

(** *** Events ([jobs/notifications.py]) *)

Definition JOB_SUBMITTED := "job.submitted".
Definition JOB_QUEUED := "job.queued".
Definition JOB_STARTED := "job.started".
Definition JOB_PROGRESS := "job.progress".
Definition JOB_COMPLETED := "job.completed".
Definition JOB_FAILED := "job.failed".
Definition JOB_CANCELLED := "job.cancelled".
Definition JOB_TIMED_OUT := "job.timed_out".

Definition job_event (name : string) (j : UUID) (s : BgJob.JobState) (payload : dict)
    (now : datetime) : BaseEvent := {|
  event_name := name;
  event_payload := dict_merge [
    ("job_id", JStr (uuid_str j));
    ("status", JStr (BgJob.JobStatus_value (BgJob.status s)));
    ("attempts", JInt (BgJob.attempts s))] payload;
  occurred_at := now |}.

Definition publish_job_event (publisher : Publisher) (name : string) (j : UUID) (payload : dict)
    : M W unit :=
  match publisher with
  | None => ret tt
  | Some publish =>
      s <- gets (job_state j) ;;
      t <- utc_now ;;
      publish (job_event name j s payload t)
  end.

(** ** The queue ([jobs/queue.py]) *)

Definition enqueue (j : UUID) : M W unit :=
  mark_job_queued j ;;;
  job <- gets (job_of j) ;;
  change_tables (λ t, BgJob.set_queue
    (put_job (BgJob.priority (BgJob.request job)) j (BgJob.queue t)) t).

(** [get] of a queue that is not empty. *)
Definition dequeue : M W (option UUID) :=
  q <- gets (λ w, BgJob.queue (tables w)) ;;
  match get_job q with
  | Some (j, q') => change_tables (BgJob.set_queue q') ;;; ret (Some j)
  | None => ret None
  end.

(** ** The repository ([jobs/repository.py]) *)

Definition extend_history (j : UUID) (rs : list (BgJob.JobHistoryRecord C)) (t : JobTables C)
    : JobTables C :=
  BgJob.set_histories
    (put j (from_option id [] (get j (BgJob.histories t)) ++ rs) (BgJob.histories t)) t.

Definition save_in_memory (j : UUID) : M W unit :=
  change_tables (λ t,
    BgJob.set_stored (if mem j (BgJob.stored t) then BgJob.stored t else BgJob.stored t ++ [j]) t) ;;;
  job <- gets (job_of j) ;;
  change_tables (extend_history j (BgJob.history job)).

Definition append_history (j : UUID) (r : BgJob.JobHistoryRecord C) : M W unit :=
  change_tables (extend_history j [r]).

Definition InMemoryJobRepository : JobStore W := {|
  save_job := save_in_memory;
  get_stored j := gets (λ w, if mem j (BgJob.stored (tables w)) then Some j else None);
  list_stored := gets (λ w, BgJob.stored (tables w)) |}.

(** ** The dispatcher ([jobs/dispatcher.py]) *)

Record JobDispatcher := {
  (* [OrchestrationEngine.run], of a context with its callback and publisher *)
  engine_run : C → (OrchestrationProgress → M W unit) → Publisher → Z → M W OrchestrationResult;
  job_publisher : Publisher;
  job_timers : Timers W;
}.

Definition orchestration_payload (p : OrchestrationProgress) : dict := [
  ("step", JStr (Orch.step p));
  ("completed_steps", JInt (Orch.completed_steps p));
  ("total_steps", JInt (Orch.total_steps p));
  ("percent", JFloat (Orch.percent p));
  ("message", opt_str (Orch.progress_message p))].

Context (self : JobDispatcher).

(** [wrapped_progress] of [JobManager.submit_job]. *)
Definition wrapped_progress (j : UUID) (p : OrchestrationProgress) : M W unit :=
  c <- gets (job_context j) ;;
  match original_callback c with Some callback => callback p | None => ret tt end ;;;
  publish_job_event (job_publisher self) JOB_PROGRESS j (orchestration_payload p).

(** The context a job runs: the callback is wrapped and the publisher defaults to the
    manager's. *)
Definition run_engine (j : UUID) : M W OrchestrationResult :=
  job <- gets (job_of j) ;;
  let c := BgJob.context (BgJob.request job) in
  let run := engine_run self c (wrapped_progress j)
    (match own_publisher c with Some p => Some p | None => job_publisher self end)
    (BgJob.priority (BgJob.request job)) in
  match BgJob.timeout_seconds (BgJob.request job) with
  | Some timeout => wait_for (job_timers self) timeout run
  | None => run
  end.

(** [JobProgress]. *)
Record JobProgress := { progress_job : UUID; progress_of : OrchestrationProgress; timestamp : datetime }.

Definition from_orchestration (j : UUID) (p : OrchestrationProgress) : M W JobProgress :=
  t <- utc_now ;; ret {| progress_job := j; progress_of := p; timestamp := t |}.

(** [emit_job_progress] of [JobManager.submit_job], the callback a job is created with. *)
Definition emit_job_progress (j : UUID) (p : JobProgress) : M W unit :=
  publish_job_event (job_publisher self) JOB_PROGRESS j (orchestration_payload (progress_of p)).

Definition report_progress (callback : option (JobProgress → M W unit)) (j : UUID)
    (p : JobProgress) : M W unit :=
  match callback with Some f => f p | None => ret tt end ;;;
  publish_job_event (job_publisher self) JOB_PROGRESS j (orchestration_payload (progress_of p)).

(** The end of a job: its mark, its counter and its event. *)
Definition settle_job (j : UUID) (status : JobStatus) (message : option string)
    (count : BgJob.JobMetrics → BgJob.JobMetrics) (name : string) (payload : dict) : M W unit :=
  mark_job status message j ;;;
  count_job count ;;;
  publish_job_event (job_publisher self) name j payload.

Definition on_job_exception (j : UUID) (exc : exn) : M W OrchestrationResult :=
  if isinstance exc TimeoutError then
    settle_job j BgJob.TIMED_OUT (Some (exn_str exc)) BgJob.record_timed_out JOB_TIMED_OUT
      [("error", JStr (exn_str exc))] ;;;
    reraise exc
  else if isinstance exc CancelledError then
    reason <- gets (job_reason j) ;;
    mark_job BgJob.CANCELLED (Some (or_str reason "Job cancelled.")) j ;;;
    count_job BgJob.record_cancelled ;;;
    reason <- gets (job_reason j) ;;
    publish_job_event (job_publisher self) JOB_CANCELLED j [("reason", opt_str reason)] ;;;
    reraise exc
  else if isinstance exc Exception_ then
    settle_job j BgJob.FAILED (Some (exn_str exc)) BgJob.record_failed JOB_FAILED
      [("error", JStr (exn_str exc))] ;;;
    reraise exc
  else reraise exc.

Definition on_job_result (j : UUID) (result : OrchestrationResult) : M W OrchestrationResult :=
  let error := RunResult.error_message result in
  match RunResult.status result with
  | Orch.CANCELLED =>
      settle_job j BgJob.CANCELLED error BgJob.record_cancelled JOB_CANCELLED
        [("reason", opt_str error)]
  | Orch.FAILED =>
      settle_job j BgJob.FAILED (Some (or_str error "Job failed.")) BgJob.record_failed JOB_FAILED
        [("error", opt_str error)]
  | _ =>
      settle_job j BgJob.COMPLETED (Some "Job completed successfully.") BgJob.record_completed
        JOB_COMPLETED []
  end ;;;
  ret result.

Definition dispatch (j : UUID) : M W OrchestrationResult :=
  reason <- gets (job_reason j) ;;
  match reason with
  | Some r =>
      settle_job j BgJob.CANCELLED (Some (or_str reason "Job cancelled.")) BgJob.record_cancelled
        JOB_CANCELLED [("reason", JStr r)] ;;;
      raise CancelledError r
  | None =>
      count_job BgJob.record_started ;;;
      increment_job_attempts j ;;;
      mark_job_running j ;;;
      publish_job_event (job_publisher self) JOB_STARTED j [] ;;;
      r <- catching (run_engine j) ;;
      match r with
      | Ret result => on_job_result j result
      | Raise exc => on_job_exception j exc
      end
  end.

(** ** The worker ([jobs/worker.py]) *)

Context (repository : JobStore W).

(** One turn with a job: dispatched, whatever it raises, and saved. *)
Definition serve_job (j : UUID) : M W unit :=
  publish_job_event (job_publisher self) JOB_QUEUED j [] ;;;
  save_job repository j ;;;
  try_finally
    (try_except (dispatch j ;;; ret tt) (λ exc,
       if isinstance exc CancelledError then ret tt
       else if isinstance exc Exception_ then ret tt
       else reraise exc))
    (save_job repository j).

(** [run], for a number of turns; the answer tells whether the loop ended. *)
Fixpoint worker_run (polling_interval : float) (turns : nat) : M W bool :=
  match turns with
  | O => ret false
  | S turns =>
      s <- gets (λ w, BgJob.stopped (tables w)) ;;
      if (s : bool) then ret true
      else
        next <- dequeue ;;
        match next with
        | None => asleep (job_timers self) polling_interval
        | Some j => serve_job j
        end ;;;
        worker_run polling_interval turns
  end.

(** ** The manager ([jobs/manager.py]) *)

Context (new_uuid : M W UUID).

(** The states of a job from the defaults of its fields. *)
Definition new_job (request : BgJob.JobRequest C) (created updated born : datetime) : BgJob.Job C := {|
  BgJob.request := request;
  BgJob.state := {|
    BgJob.status := BgJob.PENDING; BgJob.attempts := 0; BgJob.message := None;
    BgJob.created_at := created; BgJob.queued_at := None; BgJob.started_at := None;
    BgJob.finished_at := None; BgJob.updated_at := updated |};
  BgJob.history := []; BgJob.born := born |}.

Definition submit_job (request : BgJob.JobRequest C) : M W UUID :=
  j <- new_uuid ;;
  created <- utc_now ;;
  updated <- utc_now ;;
  born <- utc_now ;;
  change_job j (λ _, new_job request created updated born) ;;;
  save_job repository j ;;;
  count_job BgJob.record_submitted ;;;
  publish_job_event (job_publisher self) JOB_SUBMITTED j [] ;;;
  enqueue j ;;;
  count_job BgJob.record_queued ;;;
  ret j.

(** [shutdown]: the workers stop before their next turn. *)
Definition shutdown : M W unit := change_tables (BgJob.set_stopped true).

Definition cancel_job (job_id reason : string) : M W unit :=
  match parse_uuid job_id with
  | None => raise ValueError "badly formed hexadecimal UUID string"
  | Some id =>
      found <- get_stored repository id ;;
      match found with
      | None => ret tt
      | Some j =>
          cancel_object reason j ;;;
          save_job repository j ;;;
          publish_job_event (job_publisher self) JOB_CANCELLED j [("reason", JStr reason)]
      end
  end.

(** ** The routes ([api/v1/jobs.py], [schemas/jobs.py]) *)

Record JobStatusResponse := {
  response_job : UUID;
  response_status : string;
  response_message : option string;
  response_created_at : datetime;
  response_updated_at : datetime;
  response_attempts : Z;
  response_progress : option float;
}.

(** [_progress]: known for a job whose history ends with a completion. *)
Definition job_progress (job : BgJob.Job C) : option float :=
  match last (BgJob.history job) with
  | Some latest => if (BgJob.record_state latest).1 ≟ "completed" then Some 100%Q else None
  | None => None
  end.

Definition job_status_response (j : UUID) (job : BgJob.Job C) : JobStatusResponse := {|
  response_job := j; response_status := BgJob.JobStatus_value (BgJob.status (BgJob.state job));
  response_message := BgJob.message (BgJob.state job); response_created_at := BgJob.born job;
  response_updated_at := BgJob.updated_at (BgJob.state job);
  response_attempts := BgJob.attempts (BgJob.state job); response_progress := job_progress job |}.

Definition get_job_status (job_id : UUID) : M W JobStatusResponse :=
  found <- get_stored repository job_id ;;
  match found with
  | None => raise (HTTPException 404) "Job not found"
  | Some j => job <- gets (job_of j) ;; ret (job_status_response j job)
  end.

(** The answer is the same whether there was a job to cancel or not. *)
Definition cancel_job_route (job_id : UUID) : M W (list (string * string)) :=
  cancel_job (uuid_str job_id) "Cancelled through API" ;;;
  ret [("status", "cancelled"); ("job_id", uuid_str job_id)].

Record JobListResponse := {
  job_items : list JobStatusResponse;
  job_page : Z;
  job_page_size : Z;
  job_total : Z;
  job_has_next : bool;
}.

(** [sorted(..., key=created_at, reverse=True)], which keeps the order of jobs created together. *)
Definition born_later (a b : UUID * BgJob.Job C) : Prop := BgJob.born b.2 <= BgJob.born a.2.
#[export] Instance born_later_dec : RelDecision born_later.
Proof. intros a b. unfold born_later. apply _. Defined.

(** [ge] and [le] of the page parameters. *)
Definition page_in_bounds (page page_size : Z) : bool := (1 <=? page) && (1 <=? page_size) && (page_size <=? 200).

Definition list_jobs_route (page page_size : Z) : M W JobListResponse :=
  if negb (page_in_bounds page page_size) then raise (HTTPException 422) "validation_error"
  else
    stored <- list_stored repository ;;
    jobs <- gets (λ w, map (λ j, (j, job_of j w)) stored) ;;
    let ordered := merge_sort born_later jobs in
    let start := (page - 1) * page_size in
    let end_ := start + page_size in
    ret {| job_items := map (λ e, job_status_response e.1 e.2)
             (take (Z.to_nat page_size) (drop (Z.to_nat start) ordered));
           job_page := page; job_page_size := page_size; job_total := Z.of_nat (length ordered);
           job_has_next := end_ <? Z.of_nat (length ordered) |}.
End Jobs.

(** [_collector_context_from_payload]; the identity and the time are what the defaults draw. *)
Definition target_from_payload (payload : dict) `{FloatRepr} : Target.DiscoveryTarget :=
  let target identifier address metadata := {|
    Target.identifier := identifier; Target.address := address; Target.tenant_id := None;
    Target.vendor := None; Target.platform := None; Target.preferred_transport := None;
    Target.allowed_fallback_transports := []; Target.metadata := metadata; Target.capabilities := [] |} in
  match dict_get "target" payload with
  | Some (JDict d) =>
      target (py_str (dict_get_default "identifier" (JStr "") d)) (py_str (dict_get_default "address" (JStr "") d))
        (List.filter (λ e, negb (mem e.1 ["identifier"; "address"])) d)
  | _ => target "" "" []
  end.

Section Submission.
Context {W : Type} `{!FloatRepr, !Clock W, !HasJobs (OrchestrationContext W) W, !JobContext (OrchestrationContext W) W}.
Variable dispatcher : @JobDispatcher (OrchestrationContext W) W.
Variable repository : JobStore W.
Variable new_uuid : M W UUID.

Definition collector_context_from_payload (payload : dict) : M W CollectorRuntimeContext :=
  run_id <- new_uuid ;;
  created_at <- utc_now ;;
  ret {| RuntimeContext.target := target_from_payload payload; RuntimeContext.required_capabilities := [];
         RuntimeContext.preferred_collector_name := None; RuntimeContext.preferred_transport_name := None;
         RuntimeContext.parser_name := None; RuntimeContext.max_attempts := 1;
         RuntimeContext.timeout_seconds := None; RuntimeContext.retry_delay_seconds := 0%Q;
         RuntimeContext.metadata := []; RuntimeContext.run_id := run_id;
         RuntimeContext.correlation_id := None; RuntimeContext.created_at := created_at |}.

(** [DiscoveryJobRequest] of [schemas/jobs.py]. *)
Record JobSubmission := {
  submitted_contexts : list dict;
  submitted_policies : list dict;
  submitted_metadata : dict;
  submitted_priority : Z;
  submitted_timeout : option float;
}.

Definition check_job_submission (r : JobSubmission) : outcome JobSubmission :=
  if (submitted_priority r <? 0) || negb (from_option (Qle_bool 0) true (submitted_timeout r))
  then raise_ ValidationError "Input should be greater than or equal to 0" else Ret r.

(** [submit_discovery_job]: the policies of the request are not passed on. *)
Definition submit_discovery_job (payload : JobSubmission) : M W UUID :=
  contexts <- map_m collector_context_from_payload (submitted_contexts payload) ;;
  run_id <- new_uuid ;;
  submit_job dispatcher repository new_uuid {|
    BgJob.context := {|
      collector_contexts := contexts; policies := []; run_exceptions := [];
      run_metadata := submitted_metadata payload; context_run_id := run_id; max_attempts := 1;
      retry_delay_seconds := 0%Q; force_netbox_refresh := false; progress_callback := None;
      event_publisher := None |};
    BgJob.priority := submitted_priority payload; BgJob.timeout_seconds := submitted_timeout payload |}.
End Submission.
