(* ===== verification/JobsTheorems.v ===== *)
(** * Correctness of background jobs

    A job that is dispatched ends in one final status, counted once; one that was
    cancelled before is never run; a worker drains its queue. *)

From S2P Require Import Prelude Vocabulary Effects Json Dicts AuditTrail PriorityQueue.
From S2P Require Import CollectorRuntime Orchestration Jobs.
#[local] Open Scope Z_scope.

Section Jobs.
Context {C W : Type} `{!Clock W, !HasJobs C W, !JobContext C W, !JobContextLaws C W}.
Implicit Types (w : W) (j k : UUID).

Definition job_status j w : JobStatus := BgJob.status (job_state j w).
Definition job_attempts j w : Z := BgJob.attempts (job_state j w).
Definition job_request j w : BgJob.JobRequest C := BgJob.request (job_of j w).
Definition job_queue w : PriorityQueue UUID := BgJob.queue (tables w).
Definition is_stopped w : bool := BgJob.stopped (tables w).

Definition settled (s : JobStatus) : bool :=
  match s with
  | BgJob.COMPLETED | BgJob.FAILED | BgJob.CANCELLED | BgJob.TIMED_OUT => true | _ => false
  end.

(** What the collaborators leave alone: they may cancel jobs that have not ended and
    write the repository. *)
Record leaves_jobs w w' : Prop := {
  lj_metrics : job_metrics w' = job_metrics w;
  lj_queue : job_queue w' = job_queue w;
  lj_stopped : is_stopped w' = is_stopped w;
  lj_request : ∀ k, job_request k w' = job_request k w;
  lj_attempts : ∀ k, job_attempts k w' = job_attempts k w;
  lj_settled : ∀ k, settled (job_status k w) = true → job_status k w' = job_status k w;
}.

#[export] Instance leaves_jobs_preorder : PreOrder leaves_jobs.
Proof.
  split; [by split|]. intros w1 w2 w3 [Hm Hq Hs Hr Ha H] [Hm' Hq' Hs' Hr' Ha' H'].
  split; [congruence..| | |]; intros k; [by rewrite Hr', Hr|by rewrite Ha', Ha|].
  intros Hk. by rewrite H'; rewrite H.
Qed.

Lemma job_of_change j f w k :
  job_of k (change_job j f w).2 = if k ≟ j then f (job_of k w) else job_of k w.
Proof. unfold job_of, change_job, change_tables. cbn. by rewrite tables_set. Qed.

Lemma job_of_tick w k : job_of k (tick w) = job_of k w.
Proof. unfold job_of. by rewrite tables_tick. Qed.

(** The rest of the tables, the tokens, and what never changes in a job. *)
Record same_rest w w' : Prop := {
  sr_metrics : job_metrics w' = job_metrics w;
  sr_queue : job_queue w' = job_queue w;
  sr_stopped : is_stopped w' = is_stopped w;
  sr_request : ∀ k, job_request k w' = job_request k w;
  sr_reason : ∀ c, cancel_reason c w' = cancel_reason c w;
}.

#[export] Instance same_rest_preorder : PreOrder same_rest.
Proof. split; [by split|]. intros ??? [] []. split; try congruence; intros c; etrans; eauto. Qed.

Lemma same_rest_state j f w : same_rest w (change_job_state j f w).2.
Proof.
  assert (∀ t, job_metrics (set_tables t w) = BgJob.metrics t ∧ job_queue (set_tables t w) = BgJob.queue t ∧
    is_stopped (set_tables t w) = BgJob.stopped t) as H.
  { intros t. unfold job_metrics, job_queue, is_stopped. by rewrite tables_set. }
  split; try (apply H); [|intros c; apply reason_set].
  intros k. unfold job_request, change_job_state. rewrite job_of_change. by destruct (k ≟ j).
Qed.

Lemma same_rest_tick w : same_rest w (tick w).
Proof.
  split; unfold job_metrics, job_queue, is_stopped, job_request, job_of; rewrite ?tables_tick; try done.
  intros c. apply reason_tick.
Qed.

(** The same, and the status and the attempts of every job. *)
Record same_status w w' : Prop := {
  ss_rest : same_rest w w';
  ss_status : ∀ k, job_status k w' = job_status k w;
  ss_attempts : ∀ k, job_attempts k w' = job_attempts k w;
}.

#[export] Instance same_status_preorder : PreOrder same_status.
Proof.
  split; [by split|]. intros ??? [] []. split; [by etrans|..]; intros k; etrans; eauto.
Qed.

Lemma state_of_change j f w k :
  job_state k (change_job_state j f w).2 = if k ≟ j then f (job_state k w) else job_state k w.
Proof. unfold job_state, change_job_state. rewrite job_of_change. by destruct (k ≟ j). Qed.

Lemma keep_status j f :
  (∀ s, BgJob.status (f s) = BgJob.status s ∧ BgJob.attempts (f s) = BgJob.attempts s) →
  preserves same_status (change_job_state j f).
Proof.
  intros Hf w. split; [apply same_rest_state|..]; intros k; unfold job_status, job_attempts;
    rewrite state_of_change; destruct (k ≟ j); (apply Hf || done).
Qed.

Lemma keep_status_now : preserves same_status (utc_now : M W _).
Proof.
  intros w. unfold utc_now. cbn.
  split; [apply same_rest_tick|..]; intros k; unfold job_status, job_attempts, job_state;
    by rewrite job_of_tick.
Qed.

Ltac keep_step :=
  match goal with
  | |- preserves same_status utc_now => apply keep_status_now
  | |- preserves same_status (change_job_state _ _) => apply keep_status; done
  | |- _ => preserves_step
  end.

Lemma keep_touch j : preserves same_status (touch_job j).
Proof. unfold touch_job. repeat keep_step. Qed.

(** A mark: the status of one job. *)
Record marked (j : UUID) (status : JobStatus) w w' : Prop := {
  mk_rest : same_rest w w';
  mk_status : job_status j w' = status;
  mk_others : ∀ k, k ≠ j → job_status k w' = job_status k w;
  mk_attempts : ∀ k, job_attempts k w' = job_attempts k w;
}.

Lemma marked_then j status w {A} (m : M W A) :
  preserves same_status m → marked j status w ((change_job_state j (BgJob.set_status status) ;;; m) w).2.
Proof.
  intros Hm. unfold bind. change (change_job_state _ _ w) with
    (@Ret unit tt, (change_job_state j (BgJob.set_status status) w).2).
  set (w1 := (change_job_state _ _ w).2). cbv beta iota.
  destruct (Hm w1) as [Hr Hs Ha]. split.
  - etrans; [apply same_rest_state|done].
  - rewrite Hs. unfold job_status, w1. by rewrite state_of_change, eqb_refl.
  - intros k Hk. rewrite Hs. unfold job_status, w1. rewrite state_of_change.
    by rewrite (proj2 (eqb_false k j)).
  - intros k. rewrite Ha. unfold job_attempts, w1. rewrite state_of_change. by destruct (k ≟ j).
Qed.

Lemma mark_job_spec status message j w :
  ∃ w', mark_job status message j w = (Ret tt, w') ∧ marked j status w w'.
Proof.
  eexists (mark_job status message j w).2. split; [done|]. apply marked_then.
  repeat keep_step. apply keep_touch.
Qed.

Lemma mark_running_spec j w :
  ∃ w', mark_job_running j w = (Ret tt, w') ∧ marked j BgJob.RUNNING w w'.
Proof.
  eexists (mark_job_running j w).2. split.
  - unfold mark_job_running, bind. cbn. by destruct (BgJob.started_at _).
  - apply marked_then. repeat keep_step. apply keep_touch.
Qed.

Lemma mark_queued_spec j w :
  ∃ w', mark_job_queued j w = (Ret tt, w') ∧ marked j BgJob.QUEUED w w'.
Proof.
  eexists (mark_job_queued j w).2. split.
  - unfold mark_job_queued, bind. cbn. by destruct (BgJob.queued_at _).
  - apply marked_then. repeat keep_step. apply keep_touch.
Qed.

(** Counters. *)
Lemma count_job_spec f w :
  let w' := (count_job f w).2 in
  count_job f w = (Ret tt, w') ∧ job_metrics w' = f (job_metrics w) ∧ job_queue w' = job_queue w ∧
  is_stopped w' = is_stopped w ∧ (∀ k, job_of k w' = job_of k w) ∧
  (∀ c, cancel_reason c w' = cancel_reason c w).
Proof.
  cbv zeta. unfold job_metrics, job_queue, is_stopped, job_of, count_job, change_tables. cbn.
  rewrite tables_set. split_and!; try done. intros c. apply reason_set.
Qed.

Lemma increment_spec j w :
  ∃ w', increment_job_attempts j w = (Ret tt, w') ∧ same_rest w w' ∧
    job_attempts j w' = job_attempts j w + 1 ∧ (∀ k, k ≠ j → job_attempts k w' = job_attempts k w) ∧
    (∀ k, job_status k w' = job_status k w).
Proof.
  eexists (increment_job_attempts j w).2. split; [done|].
  unfold increment_job_attempts, bind. change (change_job_state j ?f w) with (@Ret unit tt, (change_job_state j f w).2).
  set (w1 := (change_job_state _ _ w).2). cbv beta iota. destruct (keep_touch j w1) as [Hr Hs Ha].
  split; [etrans; [apply same_rest_state|done]|].
  rewrite Ha. split; [unfold job_attempts, w1; by rewrite state_of_change, eqb_refl|]. split.
  - intros k Hk. rewrite Ha. unfold job_attempts, w1. rewrite state_of_change.
    by rewrite (proj2 (eqb_false k j)).
  - intros k. rewrite Hs. unfold job_status, w1. rewrite state_of_change. by destruct (k ≟ j).
Qed.

(** ** Collaborators *)

Definition aside_jobs {A} (m : M W A) : Prop := preserves leaves_jobs m.

Record well_behaved_dispatcher (self : JobDispatcher (C := C) (W := W)) : Prop := {
  wd_engine : ∀ c callback publisher p,
    (∀ x, aside_jobs (callback x)) → (∀ f e, publisher = Some f → aside_jobs (f e)) →
    aside_jobs (engine_run self c callback publisher p);
  wd_publisher : ∀ f e, job_publisher self = Some f → aside_jobs (f e);
  wd_own : ∀ c f e, own_publisher (W := W) c = Some f → aside_jobs (f e);
  wd_callback : ∀ c f p, original_callback (W := W) c = Some f → aside_jobs (f p);
  wd_fires : ∀ t w w', fires (job_timers self) t w = Some w' → leaves_jobs w w';
  wd_asleep : ∀ t, aside_jobs (asleep (job_timers self) t) ∧
    ∀ w, is_ret (asleep (job_timers self) t w).1 = true;
}.

Context (self : JobDispatcher (C := C) (W := W)) (Hself : well_behaved_dispatcher self).

Lemma aside_now : aside_jobs (utc_now : M W _).
Proof.
  intros w. unfold utc_now. cbn. split; try intros k; unfold job_metrics, job_queue, is_stopped,
    job_request, job_attempts, job_status, job_state, job_of; by rewrite ?tables_tick.
Qed.

Lemma aside_publish name j payload : aside_jobs (publish_job_event (job_publisher self) name j payload).
Proof.
  unfold aside_jobs, publish_job_event. destruct (job_publisher self) as [f|] eqn:E; preserves_auto.
  - apply aside_now.
  - by eapply wd_publisher.
Qed.

Lemma aside_run_engine j : aside_jobs (run_engine self j).
Proof.
  unfold run_engine. intros w. unfold bind, gets. cbv beta iota zeta.
  set (c := BgJob.context _). set (m := engine_run _ _ _ _ _).
  assert (aside_jobs m) as Hm.
  { apply (wd_engine _ Hself).
    - intros x. unfold wrapped_progress, aside_jobs. preserves_auto; [|apply aside_publish].
      by eapply wd_callback.
    - intros f e. destruct (own_publisher c) eqn:E; [intros [= <-]; by eapply wd_own|].
      intros E'. by eapply wd_publisher. }
  destruct (BgJob.timeout_seconds _) as [t|]; [|apply Hm]. unfold wait_for.
  destruct (fires _ t w) eqn:E; [by eapply wd_fires|apply Hm].
Qed.

(** The publisher, if any, does not raise. *)
Definition quiet : Prop :=
  ∀ name j payload w, is_ret (publish_job_event (job_publisher self) name j payload w).1 = true.

Lemma quiet_None : job_publisher self = None → quiet.
Proof. intros H ????. unfold publish_job_event. by rewrite H. Qed.

(** ** The end of a job *)

Definition counted (s : JobStatus) : BgJob.JobMetrics → BgJob.JobMetrics :=
  match s with
  | BgJob.COMPLETED => BgJob.record_completed
  | BgJob.FAILED => BgJob.record_failed
  | BgJob.CANCELLED => BgJob.record_cancelled
  | BgJob.TIMED_OUT => BgJob.record_timed_out
  | _ => λ m, m
  end.

(** [w'] is [w] after the job came to the final [status]. *)
Record ended j status w w' : Prop := {
  en_status : job_status j w' = status;
  en_metrics : job_metrics w' = counted status (job_metrics w);
  en_attempts : ∀ k, job_attempts k w' = job_attempts k w;
  en_queue : job_queue w' = job_queue w;
  en_stopped : is_stopped w' = is_stopped w;
  en_request : ∀ k, job_request k w' = job_request k w;
  en_settled : ∀ k, k ≠ j → settled (job_status k w) = true → job_status k w' = job_status k w;
}.

Lemma settle_job_spec j status message name payload w o w' :
  settled status = true →
  settle_job self j status message (counted status) name payload w = (o, w') →
  ended j status w w' ∧ (quiet → o = Ret tt).
Proof.
  intros Hs. unfold settle_job, bind. destruct (mark_job_spec status message j w) as (w1 & -> & []).
  destruct (count_job_spec (counted status) w1) as (-> & Hm & Hq & Hst & Hj & _).
  set (w2 := (count_job _ w1).2) in *. clearbody w2. intros E.
  pose proof (aside_publish name j payload w2) as Ha. rewrite E in Ha. destruct Ha as [Ha1 Ha2 Ha3 Ha4 Ha5 Ha6].
  assert (∀ k, job_status k w2 = job_status k w1) as Hst2 by (intros k; unfold job_status, job_state; by rewrite Hj).
  destruct mk_rest0. cbn [snd] in *. split.
  - split.
    + rewrite Ha6; rewrite Hst2; congruence.
    + by rewrite Ha1, Hm, sr_metrics0.
    + intros k. rewrite Ha5, <-mk_attempts0. unfold job_attempts, job_state. by rewrite Hj.
    + congruence.
    + congruence.
    + intros k. rewrite Ha4, <-sr_request0. unfold job_request. by rewrite Hj.
    + intros k Hk Hsk. rewrite Ha6; rewrite Hst2, mk_others0; done.
  - intros Hp. specialize (Hp name j payload w2). rewrite E in Hp. by destruct o as [[]|].
Qed.

(** What the outcome of the engine makes of a job. *)
Definition outcome_status (o : outcome OrchestrationResult) : option JobStatus :=
  match o with
  | Ret r => Some match RunResult.status r with
                  | Orch.CANCELLED => BgJob.CANCELLED
                  | Orch.FAILED => BgJob.FAILED
                  | _ => BgJob.COMPLETED
                  end
  | Raise e =>
      if isinstance e TimeoutError then Some BgJob.TIMED_OUT
      else if isinstance e CancelledError then Some BgJob.CANCELLED
      else if isinstance e Exception_ then Some BgJob.FAILED
      else None
  end.

Lemma outcome_status_settled o st : outcome_status o = Some st → settled st = true.
Proof.
  destruct o as [r|e]; cbn [outcome_status]; [intros [= <-]; by destruct (RunResult.status r)|].
  destruct (isinstance e TimeoutError), (isinstance e CancelledError), (isinstance e Exception_);
    by intros [= <-].
Qed.

Lemma settle_then {A} j status message name payload (m : M W A) w o w' :
  settled status = true →
  (settle_job self j status message (counted status) name payload ;;; m) w = (o, w') →
  (∀ w, ∃ o', m w = (o', w)) →
  ended j status w w' ∧ (quiet → o = (m w').1).
Proof.
  intros Hs H Hm. unfold bind in H. destruct (settle_job _ _ _ _ _ _ _ w) as [o1 w1] eqn:E.
  destruct (settle_job_spec _ _ _ _ _ _ _ _ Hs E) as [He Ho]. destruct o1 as [[]|e].
  - destruct (Hm w1) as [o' Hm1]. rewrite Hm1 in H. injection H as <- <-. split; [done|]. by rewrite Hm1.
  - injection H as <- <-. split; [done|]. intros Hp. by specialize (Ho Hp).
Qed.

Lemma job_reason_kept j w w' : same_rest w w' → job_reason j w' = job_reason j w.
Proof.
  intros H. unfold job_reason, job_context. change (cancel_reason (BgJob.context (job_request j w')) w' =
    cancel_reason (BgJob.context (job_request j w)) w). by rewrite (sr_request _ _ H), (sr_reason _ _ H).
Qed.

Lemma conclude_job j oe w o w' :
  match oe with Ret r => on_job_result self j r | Raise e => on_job_exception self j e end w = (o, w') →
  match outcome_status oe with
  | Some st => ended j st w w' ∧ (quiet → o = oe)
  | None => o = oe ∧ w' = w
  end.
Proof.
  destruct oe as [r|e]; cbn [outcome_status].
  - unfold on_job_result. destruct (RunResult.status r); intros H;
      match type of H with context [settle_job _ _ ?st _ _ _ _] =>
        eapply (settle_then _ st) in H; [exact H|done|by eexists] end.
  - unfold on_job_exception. destruct (isinstance e TimeoutError);
      [|destruct (isinstance e CancelledError); [|destruct (isinstance e Exception_)]]; intros H.
    + eapply (settle_then _ BgJob.TIMED_OUT) in H; [exact H|done|by eexists].
    + eapply (settle_then _ BgJob.CANCELLED _ JOB_CANCELLED [("reason", opt_str (job_reason j w))] (reraise e));
        [done| |by eexists]. rewrite <-H. unfold settle_job, bind, gets.
      destruct (mark_job_spec BgJob.CANCELLED (Some (or_str (job_reason j w) "Job cancelled.")) j w) as (w1 & -> & Hm).
      change (counted BgJob.CANCELLED) with BgJob.record_cancelled.
      destruct (count_job_spec BgJob.record_cancelled w1) as (-> & _ & _ & _ & Hj & Hc).
      set (w2 := (count_job _ w1).2) in *. clearbody w2.
      assert (job_reason j w2 = job_reason j w) as ->; [|by destruct (publish_job_event _ _ _ _ _) as [[[]|] ?]].
      rewrite <-(job_reason_kept j w w1) by apply Hm. unfold job_reason, job_context. by rewrite Hj, Hc.
    + eapply (settle_then _ BgJob.FAILED) in H; [exact H|done|by eexists].
    + injection H as <- <-. done.
Qed.

(** ** Dispatching *)

(** Up to the engine: the job is counted as started and runs. *)
Lemma dispatch_started j w :
  job_reason j w = None →
  ∃ w1, dispatch self j w = (publish_job_event (job_publisher self) JOB_STARTED j [] ;;;
      r <- catching (run_engine self j) ;;
      match r with
      | Ret result => on_job_result self j result
      | Raise exc => on_job_exception self j exc
      end) w1 ∧
    job_metrics w1 = BgJob.record_started (job_metrics w) ∧ job_queue w1 = job_queue w ∧
    is_stopped w1 = is_stopped w ∧ (∀ k, job_request k w1 = job_request k w) ∧
    job_attempts j w1 = job_attempts j w + 1 ∧
    (∀ k, k ≠ j → settled (job_status k w) = true → job_status k w1 = job_status k w).
Proof.
  intros Hr. unfold dispatch. unfold bind at 1, gets. rewrite Hr.
  destruct (count_job_spec BgJob.record_started w) as (Hc & Hm & Hq & Hs & Hj & _).
  set (w2 := (count_job _ w).2) in *. clearbody w2.
  destruct (increment_spec j w2) as (w3 & Hi & H3 & Ha3 & _ & Hs3).
  destruct (mark_running_spec j w3) as (w4 & Hk & [H4 _ Ho4 Ha4]).
  exists w4. rewrite (bind_Ret _ _ _ _ _ Hc), (bind_Ret _ _ _ _ _ Hi), (bind_Ret _ _ _ _ _ Hk).
  destruct H3, H4. split_and!; [done|congruence..| | |].
  - intros k. rewrite sr_request1, sr_request0. unfold job_request. by rewrite Hj.
  - rewrite Ha4, Ha3. unfold job_attempts, job_state. by rewrite Hj.
  - intros k Hne _. rewrite Ho4, Hs3 by done. unfold job_status, job_state. by rewrite Hj.
Qed.

Lemma dispatch_spec j w o w' :
  job_reason j w = None → dispatch self j w = (o, w') →
  job_attempts j w' = job_attempts j w + 1 ∧
  job_queue w' = job_queue w ∧ is_stopped w' = is_stopped w ∧
  (∀ k, k ≠ j → settled (job_status k w) = true → job_status k w' = job_status k w) ∧
  ((∃ e w1, o = Raise e ∧
      (publish_job_event (job_publisher self) JOB_STARTED j [] w1).1 = Raise e ∧
      job_metrics w' = BgJob.record_started (job_metrics w)) ∨
   ∃ w1 oe w2, run_engine self j w1 = (oe, w2) ∧
     match outcome_status oe with
     | Some st => settled st = true ∧ job_status j w' = st ∧
         job_metrics w' = counted st (BgJob.record_started (job_metrics w)) ∧
         (quiet → o = oe)
     | None => o = oe ∧ job_metrics w' = BgJob.record_started (job_metrics w)
     end).
Proof.
  intros Hr. destruct (dispatch_started j w Hr) as (w1 & -> & Hm & Hq & Hs & Hreq & Ha & Hk).
  unfold bind at 1. pose proof (aside_publish JOB_STARTED j [] w1) as Hp.
  destruct (publish_job_event _ _ _ _ w1) as [[[]|e] w2] eqn:E; destruct Hp as [Hm2 Hq2 Hs2 _ Ha2 Hk2].
  - unfold bind, catching. pose proof (aside_run_engine j w2) as He.
    destruct (run_engine self j w2) as [oe w3] eqn:Ee. destruct He as [Hm3 Hq3 Hs3 _ Ha3 Hk3].
    cbn [snd] in *. intros Hc. apply (conclude_job _ oe) in Hc.
    pose proof (outcome_status_settled oe) as Hset. destruct (outcome_status oe) as [st|] eqn:Eo.
    + destruct Hc as [[] Ho]. split_and!; [congruence..| |].
      * intros k Hne Hsk. assert (job_status k w1 = job_status k w) as H1 by (by apply Hk).
        assert (job_status k w2 = job_status k w) as H2 by (rewrite Hk2; by rewrite ?H1).
        assert (job_status k w3 = job_status k w) as H3 by (rewrite Hk3; by rewrite ?H2).
        rewrite en_settled0; by rewrite ?H3.
      * right. exists w2, oe, w3. rewrite Eo. split_and!; [done|by apply Hset|done| |done]. congruence.
    + destruct Hc as [-> ->]. split_and!; [congruence..| |].
      * intros k Hne Hsk. assert (job_status k w1 = job_status k w) as H1 by (by apply Hk).
        assert (job_status k w2 = job_status k w) as H2 by (rewrite Hk2; by rewrite ?H1).
        rewrite Hk3; by rewrite ?H2.
      * right. exists w2, oe, w3. rewrite Eo. split_and!; [done..|]. congruence.
  - cbn [snd] in *. intros [= <- <-]. split_and!; [congruence..| |].
    + intros k Hne Hsk. assert (job_status k w1 = job_status k w) as H1 by (by apply Hk).
      rewrite Hk2; by rewrite ?H1.
    + left. exists e, w1. split; [done|]. split; [by rewrite E|congruence].
Qed.

(** Dispatching a job that is not cancelled counts it as started and one attempt,
    and hands it to the engine.  Whatever the engine does, the job then has the one
    final status its outcome stands for, and is counted once under it: completed,
    failed or cancelled as the result says, timed out, cancelled or failed as the
    exception says; unless the publisher raises the outcome is passed on.  Only an exception
    that is no [Exception], or a publisher that raises at the start, leaves the job
    uncounted.  Jobs that have ended keep their status. *)
Theorem dispatch_settles j w o w' :
  job_reason j w = None → dispatch self j w = (o, w') →
  job_attempts j w' = job_attempts j w + 1 ∧
  job_queue w' = job_queue w ∧ is_stopped w' = is_stopped w ∧
  (∀ k, k ≠ j → settled (job_status k w) = true → job_status k w' = job_status k w) ∧
  ((∃ e w1, o = Raise e ∧
      (publish_job_event (job_publisher self) JOB_STARTED j [] w1).1 = Raise e ∧
      job_metrics w' = BgJob.record_started (job_metrics w)) ∨
   ∃ w1 oe w2, run_engine self j w1 = (oe, w2) ∧
     match outcome_status oe with
     | Some st => settled st = true ∧ job_status j w' = st ∧
         job_metrics w' = counted st (BgJob.record_started (job_metrics w)) ∧
         (quiet → o = oe)
     | None => o = oe ∧ job_metrics w' = BgJob.record_started (job_metrics w)
     end).
Proof. apply dispatch_spec. Qed.

Lemma dispatch_cancelled_eq d j w r :
  job_reason j w = Some r →
  dispatch d j w =
    (settle_job d j BgJob.CANCELLED (Some (or_str (Some r) "Job cancelled.")) BgJob.record_cancelled
       JOB_CANCELLED [("reason", JStr r)] ;;; raise CancelledError r) w.
Proof. unfold dispatch, bind at 1, gets. by intros ->. Qed.

Lemma dispatch_cancelled j w r o w' :
  job_reason j w = Some r → dispatch self j w = (o, w') →
  ended j BgJob.CANCELLED w w' ∧ (quiet → o = Raise (Exn CancelledError r)).
Proof.
  intros Hr H. rewrite (dispatch_cancelled_eq _ _ _ _ Hr) in H.
  eapply (settle_then _ BgJob.CANCELLED) in H as [He Ho]; [|done|by eexists].
  split; [done|]. intros Hn. by rewrite (Ho Hn).
Qed.

(** A job that was cancelled before it is dispatched never reaches the engine:
    dispatching it does the same with any other engine.  It ends as cancelled and is
    counted so, once, without an attempt; the dispatch raises [CancelledError]. *)
Theorem cancelled_job_never_runs j w r other o w' :
  job_reason j w = Some r → job_publisher other = job_publisher self →
  dispatch self j w = (o, w') →
  dispatch other j w = (o, w') ∧
  job_status j w' = BgJob.CANCELLED ∧ job_attempts j w' = job_attempts j w ∧
  job_metrics w' = BgJob.record_cancelled (job_metrics w) ∧
  (quiet → o = Raise (Exn CancelledError r)).
Proof.
  intros Hr Hp H. split.
  2: { destruct (dispatch_cancelled _ _ _ _ _ Hr H) as [[] ?]. repeat (split; [done|]). done. }
  rewrite <-H, !(dispatch_cancelled_eq _ _ _ _ Hr). unfold settle_job. by rewrite Hp.
Qed.

(** ** The worker *)

Context (repository : JobStore W).

(** Collaborators of which the publisher does not raise. *)
Record reliable : Prop := {
  rb_save : ∀ j, aside_jobs (save_job repository j);
  rb_publisher : ∀ f e w, job_publisher self = Some f → is_ret (f e w).1 = true;
}.
Context (Hrel : reliable).

Definition ended_jobs w : Z :=
  let m := job_metrics w in
  BgJob.completed_jobs m + BgJob.failed_jobs m + BgJob.cancelled_jobs m + BgJob.timed_out_jobs m.

Lemma counted_ended st m :
  settled st = true →
  BgJob.completed_jobs (counted st m) + BgJob.failed_jobs (counted st m) +
    BgJob.cancelled_jobs (counted st m) + BgJob.timed_out_jobs (counted st m) =
  BgJob.completed_jobs m + BgJob.failed_jobs m + BgJob.cancelled_jobs m + BgJob.timed_out_jobs m + 1.
Proof. destruct st; try done; intros _; cbn; lia. Qed.

(** The exceptions that end a worker with a job in hand: of the engine, those that
    are neither an [Exception] nor a cancellation; of the repository, any. *)
Definition fatal (j : UUID) (e : exn) : Prop :=
  (∃ w, (run_engine self j w).1 = Raise e ∧ outcome_status (Raise e) = None) ∨
  (∃ w, (save_job repository j w).1 = Raise e).

(** After a turn with a job, which is lost unless it has ended. *)
Record turned (j : UUID) (lost : list UUID) w w' : Prop := {
  tn_lost : lost = [] ∧ settled (job_status j w') = true ∨ lost = [j];
  tn_ended : ended_jobs w' = ended_jobs w + 1 - Z.of_nat (length lost);
  tn_queue : job_queue w' = job_queue w;
  tn_stopped : is_stopped w' = is_stopped w;
  tn_kept : ∀ k, k ∉ lost → settled (job_status k w) = true → settled (job_status k w') = true;
}.

Lemma turned_before j lost w w1 w' : leaves_jobs w w1 → turned j lost w1 w' → turned j lost w w'.
Proof.
  intros [] []. split; try congruence.
  - unfold ended_jobs in *. congruence.
  - intros k Hk Hs. apply tn_kept0; [done|]. by rewrite lj_settled0.
Qed.

Lemma turned_after j lost w w1 w' : turned j lost w w1 → leaves_jobs w1 w' → turned j lost w w'.
Proof.
  intros [] []. split; try congruence.
  - destruct tn_lost0 as [[-> H]| ->]; [left|by right]. by rewrite lj_settled0.
  - unfold ended_jobs in *. congruence.
  - intros k Hk Hs. specialize (tn_kept0 k Hk Hs). by rewrite lj_settled0.
Qed.

Lemma turned_lost j w w' : leaves_jobs w w' → turned j [j] w w'.
Proof.
  intros []. split; [by right|unfold ended_jobs; rewrite lj_metrics0; cbn; lia|done..|].
  intros k _ Hs. by rewrite lj_settled0.
Qed.

Lemma reliable_quiet : quiet.
Proof.
  intros name j payload w. unfold publish_job_event. destruct (job_publisher self) as [f|] eqn:E; [|done].
  by apply (rb_publisher Hrel).
Qed.

Lemma timeout_is_exception e : isinstance e TimeoutError = true → isinstance e Exception_ = true.
Proof. destruct e as [[] ?]; done. Qed.

Lemma dispatch_serves j w o w' :
  dispatch self j w = (o, w') →
  ∃ lost, turned j lost w w' ∧
  match o with
  | Ret _ => lost = []
  | Raise e => isinstance e CancelledError || isinstance e Exception_ = true ∧ lost = [] ∨
      isinstance e CancelledError || isinstance e Exception_ = false ∧ fatal j e
  end.
Proof.
  intros H. destruct (job_reason j w) as [r|] eqn:Hr.
  - destruct (dispatch_cancelled _ _ _ _ _ Hr H) as [[] Ho]. exists []. split.
    + split; [left|unfold ended_jobs; rewrite en_metrics0; cbn; lia|congruence..|].
      * split; [done|]. by rewrite en_status0.
      * intros k _ Hk. destruct (decide (k = j)) as [->|Hne]; [by rewrite en_status0|by rewrite en_settled0].
    + rewrite (Ho reliable_quiet). by left.
  - destruct (dispatch_spec _ _ _ _ Hr H) as (_ & Hq & Hs & Hk & [(e & w1 & -> & Hp & _)|(w1 & oe & w2 & He & Ho)]).
    { pose proof (reliable_quiet JOB_STARTED j [] w1) as Hr'. by rewrite Hp in Hr'. }
    destruct (outcome_status oe) as [st|] eqn:Eo.
    + destruct Ho as (Hst & Hj & Hm & Ho). exists []. split.
      * split; [left; by rewrite Hj| |done..|].
        -- unfold ended_jobs. rewrite Hm, counted_ended by done. cbn. lia.
        -- intros k _ Hsk. destruct (decide (k = j)) as [->|Hne]; [by rewrite Hj|by rewrite Hk].
      * rewrite (Ho reliable_quiet). destruct oe as [r|e]; [done|]. left. split; [|done].
        cbn [outcome_status] in Eo. destruct (isinstance e TimeoutError) eqn:Et.
        { by rewrite (timeout_is_exception e Et), orb_true_r. }
        by destruct (isinstance e CancelledError), (isinstance e Exception_).
    + destruct Ho as [-> Hm]. exists [j]. split.
      * split; [by right|unfold ended_jobs; rewrite Hm; cbn; lia|done..|].
        intros k Hne Hsk. by rewrite Hk by set_solver.
      * destruct oe as [r|e]; [done|]. right. split.
        -- cbn [outcome_status] in Eo. by destruct (isinstance e TimeoutError), (isinstance e CancelledError), (isinstance e Exception_).
        -- left. exists w1. by rewrite He.
Qed.

(** A turn with a job. *)
#[local] Arguments isinstance : simpl never.

(** The last save of a turn. *)
Lemma save_after {A} j lost w w3 (o : outcome A) (m : M W A) w2 o' w' :
  m w2 = (o, w3) → turned j lost w w3 →
  try_finally m (save_job repository j) w2 = (o', w') →
  turned j lost w w' ∧ (o' = o ∨ ∃ e, o' = Raise e ∧ fatal j e).
Proof.
  intros Hm Ht H. unfold try_finally in H. rewrite Hm in H.
  pose proof (rb_save Hrel j w3) as Ha. destruct (save_job repository j w3) as [os w4] eqn:Es.
  cbn in Ha. assert (turned j lost w w4) by (by eapply turned_after).
  destruct o as [a|e], os as [[]|e'']; injection H as <- <-; (split; [done|]); try (by left); right;
    eexists; (split; [done|]); right; exists w3; by rewrite Es.
Qed.

Lemma serve_job_spec j w w' o :
  serve_job self repository j w = (o, w') →
  ∃ lost, turned j lost w w' ∧ match o with Ret _ => lost = [] | Raise e => fatal j e end.
Proof.
  unfold serve_job, bind at 1. pose proof (reliable_quiet JOB_QUEUED j [] w) as Hp.
  pose proof (aside_publish JOB_QUEUED j [] w) as H1.
  destruct (publish_job_event _ _ _ _ w) as [[[]|] w1]; [clear Hp|done]. cbn [snd] in H1. unfold bind at 1.
  pose proof (rb_save Hrel j w1) as H2.
  destruct (save_job _ _ w1) as [[[]|e] w2] eqn:Es; cbn [snd] in H2.
  2: { intros [= <- <-]. exists [j]. split; [apply turned_lost; by etrans|]. right. exists w1. by rewrite Es. }
  destruct (dispatch self j w2) as [od w3] eqn:E.
  destruct (dispatch_serves _ _ _ _ E) as (lost & Ht & Ho). intros H.
  apply (turned_before _ _ w) in Ht; [|by etrans].
  set (caught := match od with
    | Ret _ => Ret tt
    | Raise e => if isinstance e CancelledError || isinstance e Exception_ then Ret tt else Raise e
    end).
  eapply (save_after _ _ _ w3 caught) in H; [| |done].
  2: { unfold caught, try_except, bind. rewrite E. destruct od as [r|e]; cbn; [done|].
       destruct (isinstance e CancelledError); [done|]. by destruct (isinstance e Exception_). }
  destruct H as [Ht' Ho']. exists lost. split; [done|].
  destruct Ho' as [->|(e & -> & ?)]; [|done]. unfold caught. destruct od as [r|e]; cbn; [done|].
  by destruct Ho as [[-> ?]|[-> ?]].
Qed.

Lemma dequeue_spec w :
  queue_wf (job_queue w) →
  match entries (job_queue w) with
  | [] => dequeue w = (Ret None, w)
  | _ => ∃ j q w1, dequeue w = (Ret (Some j), w1) ∧ queue_wf q ∧ job_queue w1 = q ∧
      Permutation (map snd (entries (job_queue w))) (j :: map snd (entries q)) ∧
      is_stopped w1 = is_stopped w ∧ ended_jobs w1 = ended_jobs w ∧
      (∀ k, job_status k w1 = job_status k w)
  end.
Proof.
  intros Hq. unfold dequeue, bind, gets. fold (job_queue w).
  destruct (get_job (job_queue w)) as [[j q]|] eqn:E; cbv beta iota.
  - destruct (get_job_spec _ _ _ Hq E) as (Hq' & b & a & p & n & He & He' & _).
    destruct (entries (job_queue w)) as [|e es] eqn:Ee; [by destruct b|].
    eexists j, q, _. split; [reflexivity|]. split; [done|].
    unfold job_queue, is_stopped, ended_jobs, job_metrics, job_status, job_state, job_of, change_tables.
    cbn [modify snd]. rewrite tables_set. split; [done|]. split; [|done].
    rewrite He, He', !map_app. cbn [map snd]. symmetry. apply Permutation_middle.
  - apply get_job_None in E. by rewrite E.
Qed.

(** What a run of the worker leaves: the jobs taken from the queue have ended, but
    for one that may be lost with the worker. *)
Record ran w (o : outcome bool) w' (served lost : list UUID) : Prop := {
  rn_queue : map snd (entries (job_queue w)) ≡ₚ served ++ lost ++ map snd (entries (job_queue w'));
  rn_ended : ended_jobs w' = ended_jobs w + Z.of_nat (length served);
  rn_served : ∀ j, j ∈ served → j ∉ lost → settled (job_status j w') = true;
  rn_kept : ∀ k, k ∉ lost → settled (job_status k w) = true → settled (job_status k w') = true;
  rn_outcome : match o with
    | Ret b => b = false ∧ lost = [] ∧ entries (job_queue w') = []
    | Raise e => ∃ j, j ∈ map snd (entries (job_queue w)) ∧ fatal j e ∧ (lost = [] ∨ lost = [j])
    end;
}.

Lemma worker_run_spec interval turns w o w' :
  (length (entries (job_queue w)) <= turns)%nat → queue_wf (job_queue w) → is_stopped w = false →
  worker_run self repository interval turns w = (o, w') → ∃ served lost, ran w o w' served lost.
Proof.
  revert w. induction turns as [|turns IH]; intros w Hn Hq Hs; cbn [worker_run].
  { destruct (entries (job_queue w)) as [|e es] eqn:E; [|cbn in Hn; lia].
    intros [= <- <-]. exists [], []. split; rewrite ?E; try done; try set_solver; cbn; try lia. }
  unfold bind at 1, gets. fold (is_stopped w). rewrite Hs. cbv beta iota.
  pose proof (dequeue_spec w Hq) as Hd. unfold bind at 1.
  destruct (entries (job_queue w)) as [|e es] eqn:Ee.
  - rewrite Hd. unfold bind. destruct (wd_asleep _ Hself interval) as [Ha Hr].
    specialize (Ha w). specialize (Hr w). destruct (asleep _ _ w) as [[[]|] w1]; [|done]. cbn [snd] in Ha.
    destruct Ha. intros H. apply IH in H as (served & lost & []); [|rewrite lj_queue0, Ee; cbn; lia|congruence..].
    exists served, lost. rewrite lj_queue0 in *. split; [done| |done| |done].
    + rewrite rn_ended0. unfold ended_jobs. by rewrite lj_metrics0.
    + intros k Hk Hks. apply rn_kept0; [done|]. by rewrite lj_settled0.
  - destruct Hd as (j & q & w1 & -> & Hq1 & Hw1 & Hp & Hs1 & He1 & Hk1). rewrite <-Ee in Hp.
    assert (j ∈ map snd (entries (job_queue w))) as Hj by (rewrite Hp; left).
    assert (length (entries q) <= turns)%nat as Hl.
    { apply Permutation_length in Hp. rewrite Ee in Hp. cbn in Hp, Hn. rewrite !length_map in Hp. lia. }
    unfold bind. destruct (serve_job self repository j w1) as [os w2] eqn:E2.
    destruct (serve_job_spec _ _ _ _ E2) as (lost & [] & Hos). destruct os as [[]|ex].
    + subst lost. intros H. apply IH in H as (served & lost & []); [|rewrite tn_queue0, Hw1; done|by rewrite tn_queue0, Hw1|congruence].
      rewrite tn_queue0, Hw1 in *. exists (j :: served), lost. split.
      * rewrite Hp. cbn. by rewrite rn_queue0.
      * rewrite rn_ended0, tn_ended0, He1. cbn [length]. lia.
      * intros k [->|Hk]%elem_of_cons Hkl; [|by apply rn_served0]. apply rn_kept0; [done|].
        by destruct tn_lost0 as [[_ ?]|].
      * intros k Hkl Hks. apply rn_kept0; [done|]. apply tn_kept0; [set_solver|]. by rewrite Hk1.
      * destruct o as [b|e']; [done|]. destruct rn_outcome0 as (i & Hi & ?). exists i. split; [|done].
        rewrite Hp. by right.
    + intros [= <- <-]. exists (if is_nil lost then [j] else []), lost. rewrite <-Hw1, <-tn_queue0 in Hp. split.
      * rewrite Hp. destruct tn_lost0 as [[-> _]| ->]; done.
      * rewrite tn_ended0, He1. destruct tn_lost0 as [[-> _]| ->]; cbn; lia.
      * destruct tn_lost0 as [[-> ?]| ->]; cbn; [|set_solver]. by intros k ->%list_elem_of_singleton.
      * intros k Hkl Hks. apply tn_kept0; [done|]. by rewrite Hk1.
      * exists j. split; [done|]. split; [done|]. destruct tn_lost0 as [[-> _]| ->]; [by left|by right].
Qed.

(** C28. A worker that is not stopped empties its queue in as many turns as there are jobs
    in it, as long as the publisher of events does not raise: every one of them
    comes to a final status, and the jobs counted as completed, failed, cancelled or
    timed out increase by their number.  It survives whatever [Exception] or
    cancellation the engine raises.  Any other exception of the engine, and any of
    the repository, ends it with the job in hand: all jobs taken before have ended
    and are counted, those not taken are in the queue, and only that one may be in
    neither state. *)
Theorem worker_drains_queue interval turns w :
  (length (entries (job_queue w)) <= turns)%nat → queue_wf (job_queue w) → is_stopped w = false →
  let jobs := map snd (entries (job_queue w)) in
  let '(o, w') := worker_run self repository interval turns w in
  (o = Ret false ∧ entries (job_queue w') = [] ∧
   ended_jobs w' = ended_jobs w + Z.of_nat (length jobs) ∧
   ∀ j, j ∈ jobs → settled (job_status j w') = true) ∨
  (∃ e j served lost, o = Raise e ∧ fatal j e ∧ j ∈ jobs ∧ (lost = [] ∨ lost = [j]) ∧
   jobs ≡ₚ served ++ lost ++ map snd (entries (job_queue w')) ∧
   ended_jobs w' = ended_jobs w + Z.of_nat (length served) ∧
   ∀ k, k ∈ served → k ∉ lost → settled (job_status k w') = true).
Proof.
  intros Hn Hq Hs. cbv zeta. destruct (worker_run _ _ _ _ _) as [o w'] eqn:E.
  destruct (worker_run_spec _ _ _ _ _ Hn Hq Hs E) as (served & lost & []). destruct o as [b|e].
  - left. destruct rn_outcome0 as (-> & -> & Hq'). rewrite Hq', !app_nil_r in rn_queue0.
    split; [done|]. split; [done|]. split.
    + by rewrite (Permutation_length rn_queue0).
    + intros j Hj. apply rn_served0; [by rewrite <-rn_queue0|apply not_elem_of_nil].
  - right. destruct rn_outcome0 as (j & Hj & Hf & Hl). exists e, j, served, lost. by split_and!.
Qed.
End Jobs.

(** ** Instances *)

(** A world of the tables, tokens by number and a clock; a context is the number of its
    token. *)
Record DemoWorld := {
  d_tables : JobTables Z;
  d_tokens : Z → option string;
  d_ticks : Z;
}.

#[local] Instance demo_clock : Clock DemoWorld := {|
  instant := d_ticks;
  tick w := {| d_tables := d_tables w; d_tokens := d_tokens w; d_ticks := d_ticks w + 1 |} |}.

#[local] Instance demo_has_jobs : HasJobs Z DemoWorld := {|
  tables := d_tables;
  set_tables t w := {| d_tables := t; d_tokens := d_tokens w; d_ticks := d_ticks w |};
  tables_set _ _ := eq_refl; tables_tick _ := eq_refl |}.

#[local] Instance demo_job_context : JobContext Z DemoWorld := {|
  cancel_reason c w := d_tokens w c;
  cancel_token c r := modify (λ w, {| d_tables := d_tables w;
    d_tokens := λ k, if k ≟ c then Some r else d_tokens w k; d_ticks := d_ticks w |});
  original_callback _ := None;
  own_publisher _ := None |}.

#[local] Instance demo_context_laws : JobContextLaws Z DemoWorld.
Proof.
  split; [done..|]. intros c r w. split; [done|]. split; [done|]. cbn. by rewrite eqb_refl.
Qed.

Definition demo_result (status : OrchestrationStatus) : OrchestrationResult := {|
  RunResult.job_id := 0%N; RunResult.run_id := 0%N; RunResult.status := status;
  RunResult.netbox_inventory := None; RunResult.live_snapshot := None;
  RunResult.comparison_result := None; RunResult.evaluation_decision := None;
  RunResult.persisted := None; RunResult.error_message := None;
  RunResult.metrics := {|
    Orch.submitted_runs := 0; Orch.succeeded_runs := 0; Orch.failed_runs := 0;
    Orch.cancelled_runs := 0; Orch.retried_runs := 0; Orch.collector_jobs := 0;
    Orch.persisted_records := 0; Orch.duration_seconds := 0%Q |};
  RunResult.completed_at := 0 |}.

(** An engine that fails, raises or times out on some contexts. *)
Definition demo_dispatcher (publisher : option (BaseEvent → M DemoWorld unit))
    : JobDispatcher (C := Z) (W := DemoWorld) := {|
  engine_run c _ _ _ :=
    if c =? 1 then ret (demo_result Orch.FAILED)
    else if c =? 2 then raise RuntimeError "broken"
    else if c =? 3 then raise TimeoutError ""
    else ret (demo_result Orch.SUCCEEDED);
  job_publisher := publisher;
  job_timers := {| asleep _ := ret tt; fires _ _ := None |} |}.

Definition demo_start : DemoWorld := {|
  d_tables := {|
    BgJob.objects _ := new_job {| BgJob.context := 0; BgJob.priority := 0; BgJob.timeout_seconds := None |} 0 0 0;
    BgJob.queue := empty_queue; BgJob.stored := []; BgJob.histories := [];
    BgJob.metrics := {|
      BgJob.submitted_jobs := 0; BgJob.queued_jobs := 0; BgJob.started_jobs := 0;
      BgJob.completed_jobs := 0; BgJob.failed_jobs := 0; BgJob.cancelled_jobs := 0;
      BgJob.timed_out_jobs := 0 |};
    BgJob.stopped := false |};
  d_tokens _ := None; d_ticks := 0 |}.

(** Identities are the instants at which they are drawn. *)
Definition demo_uuid : M DemoWorld UUID := t <- utc_now ;; ret (Z.to_N t).

Definition demo_submit (publisher : option (BaseEvent → M DemoWorld unit)) (c priority : Z) : M DemoWorld UUID :=
  submit_job (demo_dispatcher publisher) InMemoryJobRepository demo_uuid
    {| BgJob.context := c; BgJob.priority := priority; BgJob.timeout_seconds := Some 5%Q |}.

(** Four jobs, the last of which is cancelled while it waits. *)
Definition demo_queued : DemoWorld :=
  ((demo_submit None 0 5 ;;; demo_submit None 1 1 ;;; demo_submit None 2 1 ;;;
    j <- demo_submit None 4 3 ;; cancel_object "stop" j) demo_start).2.

Lemma demo_dispatcher_well_behaved : well_behaved_dispatcher (demo_dispatcher None).
Proof.
  split; try done. intros c callback publisher p _ _ w. cbn.
  by destruct (c =? 1), (c =? 2), (c =? 3).
Qed.

Lemma demo_reliable : reliable (demo_dispatcher None) InMemoryJobRepository.
Proof.
  by split.
Qed.

Definition demo_statuses (w : DemoWorld) : list JobStatus :=
  map (λ j, job_status j w) (BgJob.stored (tables w)).

Example demo_drained :
  let w' := (worker_run (demo_dispatcher None) InMemoryJobRepository 0%Q 4 demo_queued).2 in
  demo_statuses demo_queued = [BgJob.QUEUED; BgJob.QUEUED; BgJob.QUEUED; BgJob.CANCELLED] ∧
  demo_statuses w' = [BgJob.COMPLETED; BgJob.FAILED; BgJob.FAILED; BgJob.CANCELLED].
Proof. vm_compute. done. Qed.

Lemma demo_queued_wf : queue_wf (job_queue demo_queued).
Proof.
  eassert (job_queue demo_queued = _) as -> by (vm_compute; reflexivity). split.
  - repeat (apply seq_sorted_cons; split; [repeat constructor; cbn; lia|]). by intros [] ?.
  - repeat constructor; cbn; lia.
Qed.

Lemma worker_drains_queue_witness :
  let '(o, w') := worker_run (demo_dispatcher None) InMemoryJobRepository 0%Q 4 demo_queued in
  o = Ret false ∧ entries (job_queue w') = [] ∧ ended_jobs w' = 4.
Proof.
  assert (length (entries (job_queue demo_queued)) <= 4)%nat as Hn by (vm_compute; lia).
  assert (is_stopped demo_queued = false) as Hs by (vm_compute; reflexivity).
  assert (ended_jobs demo_queued + Z.of_nat (length (map snd (entries (job_queue demo_queued)))) = 4) as H4
    by (vm_compute; reflexivity).
  pose proof (worker_drains_queue (demo_dispatcher None) demo_dispatcher_well_behaved
    InMemoryJobRepository demo_reliable 0%Q 4 demo_queued Hn demo_queued_wf Hs) as H. cbv zeta in H.
  rewrite H4 in H.
  assert (is_ret (worker_run (demo_dispatcher None) InMemoryJobRepository 0%Q 4 demo_queued).1 = true) as Hr
    by (vm_compute; reflexivity).
  destruct (worker_run _ _ _ _ _) as [o w'].
  destruct H as [(-> & Hq & He & _)|(e & j & served & lost & -> & _)]; [by split_and!|discriminate Hr].
Defined.

(** The second job in the queue fails. *)
Lemma dispatch_settles_witness :
  let j := nth 1 (BgJob.stored (tables demo_queued)) 0%N in
  job_reason j demo_queued = None ∧
  job_attempts j (dispatch (demo_dispatcher None) j demo_queued).2 = 1.
Proof.
  intros j. split; [vm_compute; reflexivity|].
  destruct (dispatch (demo_dispatcher None) j demo_queued) as [o w'] eqn:E.
  destruct (dispatch_settles (demo_dispatcher None) demo_dispatcher_well_behaved j demo_queued o w')
    as (Ha & _); [vm_compute; reflexivity|exact E|].
  cbn [snd]. rewrite Ha. vm_compute. reflexivity.
Defined.

Lemma cancelled_job_never_runs_witness :
  let j := nth 3 (BgJob.stored (tables demo_queued)) 0%N in
  job_reason j demo_queued = Some "stop" ∧
  job_attempts j (dispatch (demo_dispatcher None) j demo_queued).2 = 0.
Proof.
  intros j. split; [vm_compute; reflexivity|].
  destruct (dispatch (demo_dispatcher None) j demo_queued) as [o w'] eqn:E.
  destruct (cancelled_job_never_runs (demo_dispatcher None) demo_dispatcher_well_behaved j demo_queued
    "stop" (demo_dispatcher None) o w') as (_ & _ & Ha & _); [vm_compute; reflexivity|done|exact E|].
  cbn [snd]. rewrite Ha. vm_compute. reflexivity.
Defined.

(** A handler that raises when a job is taken from the queue ends the worker, and the
    job is never run. *)
Example queued_event_ends_worker :
  let broken := Some (λ e : BaseEvent, if event_name e ≟ JOB_QUEUED
    then raise (S := DemoWorld) EventError "handler failed" else ret tt) in
  let '(o, w') := worker_run (demo_dispatcher broken) InMemoryJobRepository 0%Q 1 demo_queued in
  is_ret o = false ∧ BgJob.stopped (tables w') = false ∧
  length (entries (job_queue w')) = 3%nat ∧ demo_statuses w' = demo_statuses demo_queued.
Proof. vm_compute. done. Qed.

(** Cancelling a job that has completed changes its outcome. *)
Example cancel_overwrites_completed :
  let w := (worker_run (demo_dispatcher None) InMemoryJobRepository 0%Q 4 demo_queued).2 in
  let j := nth 0 (BgJob.stored (tables w)) 0%N in
  let w' := (cancel_job (demo_dispatcher None) InMemoryJobRepository (uuid_str j) "too late" w).2 in
  job_status j w = BgJob.COMPLETED ∧ job_status j w' = BgJob.CANCELLED.
Proof. vm_compute. done. Qed.

(** Every save of a job appends its whole history again. *)
Example history_repeats :
  let j := nth 0 (BgJob.stored (tables demo_queued)) 0%N in
  let w := (record_history demo_uuid None j ;;; save_in_memory j ;;; save_in_memory j) demo_queued in
  length <$> get j (BgJob.histories (tables w.2)) = Some 2%nat.
Proof. vm_compute. done. Qed.
