(* ===== verification/Scheduler.v ===== *)
(** * Schedules of jobs ([scheduler/])

    The service keeps schedules in a repository and submits a job for each that is
    due.  The repository is an interface, [SchedulerRepository] with the laws
    [RepositorySpec]; the in-memory one and the one over the tables [schedules] and
    [schedule_executions] implement it.  The registry of workers is a dictionary of
    heartbeats. *)

From S2P Require Import Prelude Vocabulary Effects Json Dicts Orchestration Jobs.
#[local] Open Scope Z_scope.

(** ** Models ([scheduler/models.py]) *)

Inductive ScheduleState := ACTIVE | PAUSED | DISABLED.
Inductive ScheduleKind := DISCOVERY | REPORTING.
Inductive ScheduleType := INTERVAL | ONE_TIME | DAILY | WEEKLY | MONTHLY.

#[export] Instance ScheduleType_eq_dec : EqDecision ScheduleType.
Proof. solve_decision. Defined.

Definition ScheduleState_value (s : ScheduleState) : string :=
  match s with ACTIVE => "active" | PAUSED => "paused" | DISABLED => "disabled" end.
Definition ScheduleKind_value (k : ScheduleKind) : string :=
  match k with DISCOVERY => "discovery" | REPORTING => "reporting" end.
Definition ScheduleType_value (t : ScheduleType) : string :=
  match t with
  | INTERVAL => "interval" | ONE_TIME => "one_time" | DAILY => "daily" | WEEKLY => "weekly"
  | MONTHLY => "monthly"
  end.

(** The member of an enumeration with a value, as calling its class finds it. *)
Definition member_of {A} (value : A → string) (members : list A) (s : string) : outcome A :=
  match List.find (λ m, value m ≟ s) members with
  | Some m => Ret m
  | None => raise_ ValueError ("'" +:+ s +:+ "' is not a valid value")
  end.

Definition ScheduleState_of := member_of ScheduleState_value [ACTIVE; PAUSED; DISABLED].
Definition ScheduleKind_of := member_of ScheduleKind_value [DISCOVERY; REPORTING].
Definition ScheduleType_of := member_of ScheduleType_value [INTERVAL; ONE_TIME; DAILY; WEEKLY; MONTHLY].

Record Schedule := {
  id : UUID;
  name : string;
  kind : ScheduleKind;
  schedule_type : ScheduleType;
  enabled : bool;
  interval_seconds : option Z;
  start_at : option datetime;
  next_run_at : option datetime;
  last_run_at : option datetime;
  created_at : datetime;
  updated_at : datetime;
  state : ScheduleState;
  metadata : dict;
}.

Record ScheduleExecution := {
  execution_id : UUID;
  schedule_id : UUID;
  executed_at : datetime;
  status : string;
  detail : option string;
}.

(** [ExecutionResult]. *)
Record DispatchResult := {
  dispatched_id : UUID;
  executed : bool;
  result_status : string;
  result_detail : option string;
}.

Record SchedulerStatistics := {
  total_schedules : Z;
  enabled_schedules : Z;
  disabled_schedules : Z;
  active_workers : Z;
  stale_workers : Z;
}.

Record WorkerInfo := {
  worker_id : string;
  worker_kind : string;
  worker_status : string;
  registered_at : datetime;
  last_heartbeat_at : datetime;
  worker_metadata : dict;
}.

(** [ScheduleCreateRequest] and [ScheduleUpdateRequest] of the API. *)
Module Create.
Record ScheduleCreateRequest := {
  name : string;
  kind : string;
  schedule_type : string;
  enabled : bool;
  interval_seconds : option Z;
  start_at : option datetime;
  metadata : dict;
}.
End Create.

Record ScheduleUpdateRequest := { new_name : option string; new_enabled : option bool }.

(** ** Repositories ([scheduler/repository.py]) *)

Record SchedulerRepository (S : Type) := {
  save_schedule : Schedule → M S Schedule;
  get_schedule : UUID → M S (option Schedule);
  list_schedules : M S (list Schedule);
  delete_schedule : UUID → M S bool;
  append_execution : ScheduleExecution → M S ScheduleExecution;
  list_executions : UUID → M S (list ScheduleExecution);
}.
Arguments save_schedule {S} _ _.
Arguments get_schedule {S} _ _.
Arguments list_schedules {S} _.
Arguments delete_schedule {S} _ _.
Arguments append_execution {S} _ _.
Arguments list_executions {S} _ _.

(** *** [InMemorySchedulerRepository] *)

Record Memory := {
  schedules : list (UUID * Schedule);
  executions : list ScheduleExecution;
}.

Definition of_schedule (i : UUID) (e : ScheduleExecution) : bool := schedule_id e ≟ i.

(** [dict.pop(k, None)]. *)
Fixpoint pop {V} (k : UUID) (d : list (UUID * V)) : list (UUID * V) :=
  match d with
  | [] => []
  | (k', v) :: d => if k' ≟ k then d else (k', v) :: pop k d
  end.

Definition InMemorySchedulerRepository : SchedulerRepository Memory := {|
  save_schedule s :=
    modify (λ m, {| schedules := put (id s) s (schedules m); executions := executions m |}) ;;; ret s;
  get_schedule i := gets (λ m, get i (schedules m));
  list_schedules := gets (λ m, values (schedules m));
  delete_schedule i :=
    found <- gets (λ m, get i (schedules m)) ;;
    modify (λ m, {| schedules := pop i (schedules m); executions := executions m |}) ;;;
    ret (is_not_none found);
  append_execution e :=
    modify (λ m, {| schedules := schedules m; executions := executions m ++ [e] |}) ;;; ret e;
  list_executions i := gets (λ m, List.filter (of_schedule i) (executions m)) |}.

(** *** [SQLAlchemySchedulerRepository] over [scheduler/infrastructure/models.py] *)

Module Row.
Record ScheduleRecord := {
  id : UUID;
  name : string;
  kind : string;
  schedule_type : string;
  enabled : bool;
  interval_seconds : option Z;
  start_at : option datetime;
  next_run_at : option datetime;
  last_run_at : option datetime;
  created_at : datetime;
  updated_at : datetime;
  state : string;
  metadata_json : dict;
}.
End Row.
Abbreviation ScheduleRecord := Row.ScheduleRecord.

#[export] Instance ScheduleRecord_eq_dec : EqDecision ScheduleRecord.
Proof. solve_decision. Defined.

Record ScheduleExecutionRecord := {
  row_id : UUID;
  row_schedule_id : UUID;
  row_executed_at : datetime;
  row_status : string;
  row_detail : option string;
}.

(** The committed rows: every operation commits.  An [UPDATE] draws the time of its
    flush from the clock. *)
Record Database := {
  schedule_rows : list ScheduleRecord;
  execution_rows : list ScheduleExecutionRecord;
  flush_clock : nat → datetime;
  flushes : nat;
}.

Definition row_of (s : Schedule) : ScheduleRecord := {|
  Row.id := id s; Row.name := name s; Row.kind := ScheduleKind_value (kind s);
  Row.schedule_type := ScheduleType_value (schedule_type s); Row.enabled := enabled s;
  Row.interval_seconds := interval_seconds s; Row.start_at := start_at s;
  Row.next_run_at := next_run_at s; Row.last_run_at := last_run_at s;
  Row.created_at := created_at s; Row.updated_at := updated_at s;
  Row.state := ScheduleState_value (state s); Row.metadata_json := metadata s |}.

(** Python's [==] on values of a JSON column, by which a new value is a change:
    numbers and booleans compare by value, dictionaries in any order. *)
Definition number (j : json) : option Q :=
  match j with
  | JBool b => Some (if b then 1%Q else 0%Q)
  | JInt z => Some (inject_Z z)
  | JFloat q => Some q
  | _ => None
  end.

Fixpoint py_eq (a b : json) : bool :=
  match a, b with
  | JNull, JNull => true
  | JStr x, JStr y => x ≟ y
  | JList x, JList y =>
      (fix all x y := match x, y with
         | [], [] => true
         | a :: x, b :: y => py_eq a b && all x y
         | _, _ => false
         end) x y
  | JDict x, JDict y =>
      (length x =? length y)%nat &&
      (fix all x := match x with
         | [] => true
         | (k, a) :: x => match get k y with Some b => py_eq a b | None => false end && all x
         end) x
  | _, _ =>
      match number a, number b with Some x, Some y => Qeq_bool x y | _, _ => false end
  end.

(** The assignments to a row that is there: all columns but [created_at]. *)
Definition assigned_row (s : Schedule) (r : ScheduleRecord) : ScheduleRecord := {|
  Row.id := Row.id r; Row.name := name s; Row.kind := ScheduleKind_value (kind s);
  Row.schedule_type := ScheduleType_value (schedule_type s); Row.enabled := enabled s;
  Row.interval_seconds := interval_seconds s; Row.start_at := start_at s;
  Row.next_run_at := next_run_at s; Row.last_run_at := last_run_at s;
  Row.created_at := Row.created_at r; Row.updated_at := updated_at s;
  Row.state := ScheduleState_value (state s);
  Row.metadata_json :=
    if py_eq (JDict (Row.metadata_json r)) (JDict (metadata s)) then Row.metadata_json r else metadata s |}.

Definition stamped_row (now : datetime) (r : ScheduleRecord) : ScheduleRecord := {|
  Row.id := Row.id r; Row.name := Row.name r; Row.kind := Row.kind r;
  Row.schedule_type := Row.schedule_type r; Row.enabled := Row.enabled r;
  Row.interval_seconds := Row.interval_seconds r; Row.start_at := Row.start_at r;
  Row.next_run_at := Row.next_run_at r; Row.last_run_at := Row.last_run_at r;
  Row.created_at := Row.created_at r; Row.updated_at := now;
  Row.state := Row.state r; Row.metadata_json := Row.metadata_json r |}.

(** The row after the flush: no [UPDATE] without a change, and one that does not set
    [updated_at] to another value sets it to the time of the flush ([onupdate]). *)
Definition updated_row (now : datetime) (s : Schedule) (r : ScheduleRecord) : ScheduleRecord :=
  let r' := assigned_row s r in
  if decide (r' = r) then r
  else if Row.updated_at r' =? Row.updated_at r then stamped_row now r'
  else r'.

(** [_to_schedule] and [_to_execution]. *)
Definition to_schedule (r : ScheduleRecord) : outcome Schedule :=
  match ScheduleKind_of (Row.kind r), ScheduleType_of (Row.schedule_type r),
        ScheduleState_of (Row.state r) with
  | Ret k, Ret t, Ret st => Ret {|
      id := Row.id r; name := Row.name r; kind := k; schedule_type := t;
      enabled := Row.enabled r; interval_seconds := Row.interval_seconds r;
      start_at := Row.start_at r; next_run_at := Row.next_run_at r;
      last_run_at := Row.last_run_at r; created_at := Row.created_at r;
      updated_at := Row.updated_at r; state := st; metadata := Row.metadata_json r |}
  | Raise e, _, _ | _, Raise e, _ | _, _, Raise e => Raise e
  end.

Definition execution_row (e : ScheduleExecution) : ScheduleExecutionRecord := {|
  row_id := execution_id e; row_schedule_id := schedule_id e; row_executed_at := executed_at e;
  row_status := status e; row_detail := detail e |}.

Definition to_execution (r : ScheduleExecutionRecord) : ScheduleExecution := {|
  execution_id := row_id r; schedule_id := row_schedule_id r; executed_at := row_executed_at r;
  status := row_status r; detail := row_detail r |}.

(** [session.get(ScheduleRecord, id)]. *)
Definition find_row (i : UUID) (db : Database) : option ScheduleRecord :=
  List.find (λ r, Row.id r ≟ i) (schedule_rows db).

Definition set_rows schedules executions (db : Database) : Database :=
  {| schedule_rows := schedules; execution_rows := executions; flush_clock := flush_clock db;
     flushes := flushes db |}.

(** [datetime.now(UTC)] when a row is flushed. *)
Definition flush_time : M Database datetime := λ db,
  (Ret (flush_clock db (flushes db)),
   {| schedule_rows := schedule_rows db; execution_rows := execution_rows db;
      flush_clock := flush_clock db; flushes := Datatypes.S (flushes db) |}).

(** [session.get(ScheduleExecutionRecord, id)]. *)
Definition execution_taken (i : UUID) (db : Database) : bool :=
  List.existsb (λ r, row_id r ≟ i) (execution_rows db).

Fixpoint to_schedules (rs : list ScheduleRecord) : outcome (list Schedule) :=
  match rs with
  | [] => Ret []
  | r :: rs =>
      match to_schedule r, to_schedules rs with
      | Ret s, Ret ss => Ret (s :: ss)
      | Raise e, _ | _, Raise e => Raise e
      end
  end.

(** The identity of an execution is a primary key and its schedule a foreign key, and
    deleting a schedule deletes its executions.  A session whose commit was refused
    serves no other call: it is the session of one request. *)
Definition SQLAlchemySchedulerRepository : SchedulerRepository Database := {|
  save_schedule s :=
    row <- gets (find_row (id s)) ;;
    match row with
    | None =>
        modify (λ db, set_rows (schedule_rows db ++ [row_of s]) (execution_rows db) db) ;;;
        of_outcome (to_schedule (row_of s))
    | Some r =>
        now <- flush_time ;;
        modify (λ db, set_rows
          (map (λ r, if Row.id r ≟ id s then updated_row now s r else r) (schedule_rows db))
          (execution_rows db) db) ;;;
        of_outcome (to_schedule (updated_row now s r))
    end;
  get_schedule i :=
    row <- gets (find_row i) ;;
    match row with
    | None => ret None
    | Some r => s <- of_outcome (to_schedule r) ;; ret (Some s)
    end;
  list_schedules :=
    rs <- gets schedule_rows ;;
    of_outcome (to_schedules rs);
  delete_schedule i :=
    row <- gets (find_row i) ;;
    match row with
    | None => ret false
    | Some _ =>
        modify (λ db, set_rows
          (List.filter (λ r, negb (Row.id r ≟ i)) (schedule_rows db))
          (List.filter (λ r, negb (row_schedule_id r ≟ i)) (execution_rows db)) db) ;;;
        ret true
    end;
  append_execution e :=
    row <- gets (find_row (schedule_id e)) ;;
    match row with
    | None => raise IntegrityError "violates foreign key constraint"
    | Some _ =>
        taken <- gets (execution_taken (execution_id e)) ;;
        if (taken : bool) then raise IntegrityError "violates unique constraint"
        else
          modify (λ db, set_rows (schedule_rows db) (execution_rows db ++ [execution_row e]) db) ;;;
          ret (to_execution (execution_row e))
    end;
  list_executions i :=
    gets (λ db, map to_execution (List.filter (λ r, row_schedule_id r ≟ i) (execution_rows db))) |}.

(** ** Workers ([scheduler/registry.py]) *)

Definition minutes (n : Z) : Z := n * 60 * 1000000.
Definition seconds (n : Z) : Z := n * 1000000.

Record WorkerRegistry := {
  heartbeat_ttl : Z;
  workers : list (string * WorkerInfo);
  (* [_metrics] holds what registration puts there, zero counters *)
  worker_metrics : list (string * datetime);
}.

Section Workers.
Implicit Types self : WorkerRegistry.

(** [register_worker], with the times its constructors draw. *)
Definition register_worker (wid kind : string) (registered heartbeat updated : datetime) self
    : WorkerInfo * WorkerRegistry :=
  let worker := {|
    worker_id := wid; worker_kind := kind; worker_status := "alive";
    registered_at := registered; last_heartbeat_at := heartbeat; worker_metadata := [] |} in
  (worker, {| heartbeat_ttl := heartbeat_ttl self; workers := put wid worker (workers self);
              worker_metrics := put wid updated (worker_metrics self) |}).

(** [heartbeat] at a given time. *)
Definition heartbeat (wid : string) (timestamp : datetime) (registered beat updated : datetime) self
    : WorkerRegistry :=
  let '(worker, self) :=
    match get wid (workers self) with
    | Some worker => (worker, self)
    | None => register_worker wid "scheduler" registered beat updated self
    end in
  {| heartbeat_ttl := heartbeat_ttl self;
     workers := put wid {|
       worker_id := worker_id worker; worker_kind := worker_kind worker; worker_status := "alive";
       registered_at := registered_at worker; last_heartbeat_at := timestamp;
       worker_metadata := worker_metadata worker |} (workers self);
     worker_metrics := worker_metrics self |}.

(** [lease]: the expiry, if none is given. *)
Definition lease_expiry (expires_at : option datetime) (now : datetime) : datetime :=
  from_option (λ t, t) (now + minutes 5) expires_at.

Definition detect_stale_workers (now : datetime) self : list WorkerInfo :=
  List.filter (λ w, heartbeat_ttl self <? now - last_heartbeat_at w) (values (workers self)).

Definition list_workers self : list WorkerInfo := values (workers self).
End Workers.

(** ** The service ([scheduler/service.py]) *)

Section Service.
Context {S : Type} `{!Clock S}.

Record SchedulerService := {
  repository : SchedulerRepository S;
  job_manager : option (BgJob.JobRequest (OrchestrationContext S) → M S UUID);
  worker_registry : WorkerRegistry;
  (* [uuid4] *)
  draw_uuid : M S UUID;
}.

(** [n or 60]. *)
Definition interval_or_60 (n : option Z) : Z :=
  match n with Some 0 => 60 | Some n => n | None => 60 end.

(** [_compute_next_run]. *)
Definition compute_next_run (payload : Create.ScheduleCreateRequest) (start_at : datetime) : datetime :=
  let first := from_option (λ t, t) start_at (Create.start_at payload) in
  let t := Create.schedule_type payload in
  if t ≟ "one_time" then first
  else if t ≟ "daily" then first + minutes (24 * 60)
  else if t ≟ "weekly" then first + minutes (7 * 24 * 60)
  else if t ≟ "monthly" then first + minutes (30 * 24 * 60)
  else start_at + seconds (interval_or_60 (Create.interval_seconds payload)).

(** [_compute_next_run_from_existing] at a time. *)
Definition compute_next_run_from_existing (s : Schedule) (current : datetime) : datetime :=
  match schedule_type s with
  | ONE_TIME => from_option (λ t, t) current (next_run_at s)
  | DAILY => current + minutes (24 * 60)
  | WEEKLY => current + minutes (7 * 24 * 60)
  | MONTHLY => current + minutes (30 * 24 * 60)
  | INTERVAL => current + seconds (interval_or_60 (interval_seconds s))
  end.

(** A schedule with other fields. *)
Definition revised (s : Schedule) (name : string) (enabled : bool)
    (next last : option datetime) (updated : datetime) (state : ScheduleState) : Schedule := {|
  id := id s; name := name; kind := kind s; schedule_type := schedule_type s; enabled := enabled;
  interval_seconds := interval_seconds s; start_at := start_at s; next_run_at := next;
  last_run_at := last; created_at := created_at s; updated_at := updated; state := state;
  metadata := metadata s |}.

Context (self : SchedulerService).

Definition register_schedule (payload : Create.ScheduleCreateRequest) : M S Schedule :=
  now <- utc_now ;;
  kind <- of_outcome (ScheduleKind_of (Create.kind payload)) ;;
  type <- of_outcome (ScheduleType_of (Create.schedule_type payload)) ;;
  fresh <- draw_uuid self ;;
  created <- utc_now ;;
  updated <- utc_now ;;
  let start := from_option (λ t, t) now (Create.start_at payload) in
  save_schedule (repository self) {|
    id := fresh; name := Create.name payload; kind := kind; schedule_type := type;
    enabled := Create.enabled payload; interval_seconds := Create.interval_seconds payload;
    start_at := Some start; next_run_at := Some (compute_next_run payload start);
    last_run_at := None; created_at := created; updated_at := updated;
    state := if Create.enabled payload then ACTIVE else DISABLED;
    metadata := Create.metadata payload |}.

(** The lookup that [update_schedule], [pause_schedule] and [resume_schedule] begin
    with. *)
Definition existing_schedule (i : UUID) : M S Schedule :=
  found <- get_schedule (repository self) i ;;
  match found with
  | Some s => ret s
  | None => raise KeyError (uuid_str i)
  end.

Definition update_schedule (i : UUID) (payload : ScheduleUpdateRequest) : M S Schedule :=
  s <- existing_schedule i ;;
  now <- utc_now ;;
  save_schedule (repository self) (revised s
    (or_str (new_name payload) (name s))
    (from_option (λ b, b) (enabled s) (new_enabled payload))
    (next_run_at s) (last_run_at s) now
    (match new_enabled payload with Some false => DISABLED | _ => ACTIVE end)).

Definition pause_schedule (i : UUID) : M S Schedule :=
  s <- existing_schedule i ;;
  now <- utc_now ;;
  save_schedule (repository self)
    (revised s (name s) false (next_run_at s) (last_run_at s) now PAUSED).

Definition resume_schedule (i : UUID) : M S Schedule :=
  s <- existing_schedule i ;;
  current <- utc_now ;;
  now <- utc_now ;;
  save_schedule (repository self)
    (revised s (name s) true (Some (compute_next_run_from_existing s current)) (last_run_at s) now ACTIVE).

(** The request of a scheduled job: a context without collectors. *)
Definition job_request (s : Schedule) (run_id : UUID) : BgJob.JobRequest (OrchestrationContext S) := {|
  BgJob.context := {|
    collector_contexts := []; policies := []; run_exceptions := []; run_metadata := metadata s;
    context_run_id := run_id; max_attempts := 1; retry_delay_seconds := 0%Q;
    force_netbox_refresh := false; progress_callback := None; event_publisher := None |};
  BgJob.priority := 0; BgJob.timeout_seconds := None |}.

(** [schedule.enabled] and a next run that is not after [current]. *)
Definition is_due (current : datetime) (s : Schedule) : bool :=
  enabled s && match next_run_at s with Some t => t <=? current | None => false end.

(** The schedule after a run. *)
Definition advanced (current : datetime) (s : Schedule) : Schedule :=
  revised s (name s) (enabled s) (Some (compute_next_run_from_existing s current)) (Some current)
    current (state s).

Definition dispatched (s : Schedule) : DispatchResult := {|
  dispatched_id := id s; executed := true; result_status := "dispatched";
  result_detail := Some (ScheduleKind_value (kind s)) |}.

Definition dispatch_schedule (current : datetime) (s : Schedule) : M S DispatchResult :=
  match job_manager self with
  | Some submit => run <- draw_uuid self ;; submit (job_request s run) ;;; ret tt
  | None => ret tt
  end ;;;
  fresh <- draw_uuid self ;;
  append_execution (repository self) {|
    execution_id := fresh; schedule_id := id s; executed_at := current; status := "dispatched";
    detail := Some (ScheduleKind_value (kind s)) |} ;;;
  save_schedule (repository self) (advanced current s) ;;;
  ret (dispatched s).

Fixpoint dispatch_loop (current : datetime) (ss : list Schedule) : M S (list DispatchResult) :=
  match ss with
  | [] => ret []
  | s :: ss =>
      if is_due current s then
        r <- dispatch_schedule current s ;;
        rs <- dispatch_loop current ss ;;
        ret (r :: rs)
      else dispatch_loop current ss
  end.

Definition dispatch_due_jobs (now : option datetime) : M S (list DispatchResult) :=
  current <- match now with Some t => ret t | None => utc_now end ;;
  ss <- list_schedules (repository self) ;;
  dispatch_loop current ss.

Definition get_statistics : M S SchedulerStatistics :=
  ss <- list_schedules (repository self) ;;
  t <- utc_now ;;
  ret {|
    total_schedules := Z.of_nat (length ss);
    enabled_schedules := Z.of_nat (length (List.filter enabled ss));
    disabled_schedules := Z.of_nat (length (List.filter (λ s, negb (enabled s)) ss));
    active_workers := Z.of_nat (length (list_workers (worker_registry self)));
    stale_workers := Z.of_nat (length (detect_stale_workers t (worker_registry self))) |}.

(** ** The routes ([api/v1/scheduler.py], [schemas/scheduler.py]) *)

Record ScheduleResponse := {
  response_id : string;
  response_name : string;
  response_kind : string;
  response_type : string;
  response_enabled : bool;
  response_interval : option Z;
  response_next_run : option datetime;
  response_last_run : option datetime;
  response_state : string;
}.

(** [_serialize_schedule]. *)
Definition serialize_schedule (s : Schedule) : ScheduleResponse := {|
  response_id := uuid_str (id s); response_name := name s;
  response_kind := ScheduleKind_value (kind s);
  response_type := ScheduleType_value (schedule_type s); response_enabled := enabled s;
  response_interval := interval_seconds s; response_next_run := next_run_at s;
  response_last_run := last_run_at s; response_state := ScheduleState_value (state s) |}.

(** [ScheduleCreateRequest]: the name is not empty. *)
Definition check_schedule_request (payload : Create.ScheduleCreateRequest)
    : outcome Create.ScheduleCreateRequest :=
  if str_truthy (Create.name payload) then Ret payload
  else raise_ ValidationError "String should have at least 1 character".

Definition schedule_not_found {A} : M S A := raise (HTTPException 404) "Schedule not found".

(** [except KeyError as exc: raise HTTPException(404)]. *)
Definition not_found_on_key_error {A} (m : M S A) : M S A :=
  try_except m (λ exc, if isinstance exc KeyError then schedule_not_found else reraise exc).

Definition list_schedules_route : M S (list ScheduleResponse) :=
  schedules <- list_schedules (repository self) ;;
  ret (map serialize_schedule schedules).

Definition create_schedule (payload : Create.ScheduleCreateRequest) : M S ScheduleResponse :=
  schedule <- register_schedule payload ;;
  ret (serialize_schedule schedule).

Definition update_schedule_route (schedule_id : UUID) (payload : ScheduleUpdateRequest) : M S ScheduleResponse :=
  schedule <- not_found_on_key_error (update_schedule schedule_id payload) ;;
  ret (serialize_schedule schedule).

Definition delete_schedule_route (schedule_id : UUID) : M S unit :=
  deleted <- delete_schedule (repository self) schedule_id ;;
  if (deleted : bool) then ret tt else schedule_not_found.

Definition pause_schedule_route (schedule_id : UUID) : M S ScheduleResponse :=
  schedule <- not_found_on_key_error (pause_schedule schedule_id) ;;
  ret (serialize_schedule schedule).

Definition resume_schedule_route (schedule_id : UUID) : M S ScheduleResponse :=
  schedule <- not_found_on_key_error (resume_schedule schedule_id) ;;
  ret (serialize_schedule schedule).

(** The workers and the statistics are answered field by field. *)
Definition list_workers_route : list (string * string * string * datetime * datetime) :=
  map (λ w, (worker_id w, worker_kind w, worker_status w, registered_at w, last_heartbeat_at w))
    (list_workers (worker_registry self)).

Definition statistics_route : M S (list (string * Z)) :=
  stats <- get_statistics ;;
  ret [("total_schedules", total_schedules stats); ("enabled_schedules", enabled_schedules stats);
       ("disabled_schedules", disabled_schedules stats); ("active_workers", active_workers stats);
       ("stale_workers", stale_workers stats)].
End Service.
Arguments SchedulerService S : clear implicits.
