(* ===== verification/SchedulerTheorems.v ===== *)
(** * Correctness of the scheduler

    The contract of a schedule repository, the proofs that both repositories keep it,
    and what a pass over the due schedules does, for any repository that keeps it. *)

From stdpp Require Import gmap.
From S2P Require Import Prelude Vocabulary Effects Json Dicts Orchestration Jobs Scheduler.
#[local] Open Scope Z_scope.

(** ** The contract *)

(** What a repository holds, and the metadata of the jobs submitted so far. *)
Record Abstract := {
  a_schedules : gmap UUID Schedule;
  a_executions : list ScheduleExecution;
  a_submitted : list dict;
}.

Definition with_schedules (f : gmap UUID Schedule → gmap UUID Schedule) (a : Abstract) : Abstract :=
  {| a_schedules := f (a_schedules a); a_executions := a_executions a; a_submitted := a_submitted a |}.
Definition with_execution (e : ScheduleExecution) (a : Abstract) : Abstract :=
  {| a_schedules := a_schedules a; a_executions := a_executions a ++ [e]; a_submitted := a_submitted a |}.
Definition with_submission (d : dict) (a : Abstract) : Abstract :=
  {| a_schedules := a_schedules a; a_executions := a_executions a; a_submitted := a_submitted a ++ [d] |}.

(** A schedule that may be saved: one that is there keeps the time of its creation,
    metadata that equal the old are the old, and any change comes with another time
    of the update; a new one has a new identity. *)
Definition savable (s : Schedule) (a : Abstract) : Prop :=
  match a_schedules a !! id s with
  | Some old => created_at old = created_at s ∧
      (py_eq (JDict (metadata old)) (JDict (metadata s)) = true → metadata old = metadata s) ∧
      (s = old ∨ updated_at old ≠ updated_at s)
  | None => List.filter (of_schedule (id s)) (a_executions a) = []
  end.

Class RepositorySpec {S : Type} (repo : SchedulerRepository S) (repr : S → Abstract → Prop) := {
  rs_save s σ a : repr σ a → savable s a →
    ∃ σ', save_schedule repo s σ = (Ret s, σ') ∧ repr σ' (with_schedules <[id s := s]> a);
  rs_get i σ a : repr σ a → get_schedule repo i σ = (Ret (a_schedules a !! i), σ);
  rs_list σ a : repr σ a →
    ∃ l, list_schedules repo σ = (Ret l, σ) ∧ l ≡ₚ (map_to_list (a_schedules a)).*2;
  rs_delete i σ a : repr σ a →
    ∃ σ', delete_schedule repo i σ = (Ret (is_not_none (a_schedules a !! i)), σ') ∧
      repr σ' (with_schedules (delete i) a);
  rs_append e σ a : repr σ a → is_Some (a_schedules a !! schedule_id e) →
    execution_id e ∉ map execution_id (a_executions a) →
    ∃ σ', append_execution repo e σ = (Ret e, σ') ∧ repr σ' (with_execution e a);
  rs_executions i σ a : repr σ a → is_Some (a_schedules a !! i) →
    list_executions repo i σ = (Ret (List.filter (of_schedule i) (a_executions a)), σ);
  rs_identity i s σ a : repr σ a → a_schedules a !! i = Some s → id s = i;
}.

(** ** Both repositories keep it *)

Section Maps.
Context {V : Type}.
Implicit Types (d : list (UUID * V)).

Lemma get_to_map k d : get k d = (list_to_map d : gmap UUID V) !! k.
Proof.
  induction d as [|[k' v] d IH]; cbn; [by rewrite lookup_empty|]. destruct (k' ≟ k) eqn:E.
  - apply eqb_true in E as ->. by rewrite lookup_insert_eq.
  - apply eqb_false in E. by rewrite lookup_insert_ne.
Qed.

Lemma put_to_map k v d : (list_to_map (put k v d) : gmap UUID V) = <[k := v]> (list_to_map d).
Proof. apply map_eq. intros i. rewrite <-get_to_map, get_put. destruct (k ≟ i) eqn:E.
  - apply eqb_true in E as ->. by rewrite lookup_insert_eq.
  - apply eqb_false in E. by rewrite lookup_insert_ne, get_to_map.
Qed.

Lemma keys_pop k d : keys (pop k d) `sublist_of` keys d.
Proof.
  induction d as [|[k' v] d IH]; cbn; [done|]. destruct (k' ≟ k); [by apply sublist_cons|by apply sublist_skip].
Qed.

Lemma pop_to_map k d :
  NoDup (keys d) → (list_to_map (pop k d) : gmap UUID V) = delete k (list_to_map d).
Proof.
  induction d as [|[k' v] d IH]; cbn; [by rewrite delete_empty|]. intros [Hk Hd]%NoDup_cons.
  destruct (k' ≟ k) eqn:E.
  - apply eqb_true in E as ->. rewrite delete_insert_eq, delete_id; [done|].
    rewrite <-get_to_map. destruct (get k d) as [v'|] eqn:Eg; [|done].
    apply elem_of_dict in Eg; [|done]. destruct Hk. apply list_elem_of_fmap. by exists (k, v').
  - apply eqb_false in E. rewrite delete_insert_ne by done. cbn. by rewrite IH.
Qed.
End Maps.

Definition identified (a : Abstract) : Prop := ∀ i s, a_schedules a !! i = Some s → id s = i.

Lemma identified_save s a : identified a → identified (with_schedules <[id s := s]> a).
Proof. intros H i x. cbn. intros [[<- <-]|[_ ?]]%lookup_insert_Some; [done|by apply H]. Qed.

Lemma identified_delete i a : identified a → identified (with_schedules (delete i) a).
Proof. intros H j x. cbn. intros [_ ?]%lookup_delete_Some. by apply H. Qed.

(** *** In memory *)

Record memory_repr (m : Memory) (a : Abstract) : Prop := {
  mr_keys : NoDup (keys (schedules m));
  mr_schedules : list_to_map (schedules m) = a_schedules a;
  mr_executions : executions m = a_executions a;
  mr_identified : identified a;
}.

#[export] Instance memory_spec : RepositorySpec InMemorySchedulerRepository memory_repr.
Proof.
  split.
  - intros s m a [] _. eexists. split; [done|]. split; cbn; [by apply NoDup_keys_put|by rewrite put_to_map, mr_schedules0|done|by apply identified_save].
  - intros i m a []. cbn. unfold gets. by rewrite get_to_map, mr_schedules0.
  - intros m a []. eexists. split; [done|]. unfold values. rewrite <-mr_schedules0.
    apply fmap_Permutation. symmetry. by apply map_to_list_to_map.
  - intros i m a []. cbn. unfold bind, gets. cbn. eexists. split; [by rewrite get_to_map, mr_schedules0|].
    split; cbn; [|by rewrite pop_to_map, mr_schedules0|done|by apply identified_delete].
    eapply sublist_NoDup; [exact mr_keys0|apply keys_pop].
  - intros e m a [] _ _. eexists. split; [done|]. split; cbn; [done|done|by rewrite mr_executions0|done].
  - intros i m a [] _. cbn. unfold gets. by rewrite mr_executions0.
  - intros i s m a []. apply mr_identified0.
Qed.

(** *** Over the tables *)

(** Writing a schedule to a row and reading the row loses nothing. *)
Lemma to_schedule_row_of s : to_schedule (row_of s) = Ret s.
Proof.
  assert (ScheduleKind_of (ScheduleKind_value (kind s)) = Ret (kind s)) as Hk by (destruct (kind s); vm_compute; done).
  assert (ScheduleType_of (ScheduleType_value (schedule_type s)) = Ret (schedule_type s)) as Ht
    by (destruct (schedule_type s); vm_compute; done).
  assert (ScheduleState_of (ScheduleState_value (state s)) = Ret (state s)) as Hs by (destruct (state s); vm_compute; done).
  unfold to_schedule, row_of. cbn [Row.kind Row.schedule_type Row.state]. rewrite Hk, Ht, Hs. by destruct s.
Qed.

Lemma to_execution_row e : to_execution (execution_row e) = e.
Proof. by destruct e. Qed.

Lemma to_schedules_rows ss : to_schedules (map row_of ss) = Ret ss.
Proof. induction ss as [|s ss IH]; cbn; [done|]. by rewrite to_schedule_row_of, IH. Qed.

Definition by_id (ss : list Schedule) : gmap UUID Schedule := list_to_map (map (λ s, (id s, s)) ss).

Definition rows_of_schedule (i : UUID) (db : Database) : list ScheduleExecutionRecord :=
  List.filter (λ r, row_schedule_id r ≟ i) (execution_rows db).

Record sql_repr (db : Database) (a : Abstract) : Prop := {
  sq_rows : ∃ ss, schedule_rows db = map row_of ss ∧ NoDup (map id ss) ∧ by_id ss = a_schedules a;
  sq_executions : ∀ i, is_Some (a_schedules a !! i) →
    map to_execution (rows_of_schedule i db) = List.filter (of_schedule i) (a_executions a);
  sq_foreign : ∀ i, a_schedules a !! i = None → rows_of_schedule i db = [];
}.

Lemma by_id_lookup ss i : by_id ss !! i = List.find (λ s, id s ≟ i) ss.
Proof.
  unfold by_id. induction ss as [|s ss IH]; cbn; [by rewrite lookup_empty|]. destruct (id s ≟ i) eqn:E.
  - rewrite eqb_true in E. subst. by rewrite lookup_insert_eq.
  - apply eqb_false in E. by rewrite lookup_insert_ne.
Qed.

Lemma find_rows ss i : List.find (λ r, Row.id r ≟ i) (map row_of ss) = row_of <$> by_id ss !! i.
Proof.
  rewrite by_id_lookup. induction ss as [|s ss IH]; cbn; [done|]. destruct (id s ≟ i); [done|exact IH].
Qed.

Lemma by_id_snoc ss s : by_id ss !! id s = None → by_id (ss ++ [s]) = <[id s := s]> (by_id ss).
Proof.
  intros Hn. apply map_eq. intros i. rewrite by_id_lookup. rewrite by_id_lookup in Hn.
  destruct (decide (id s = i)) as [<-|Hne].
  - rewrite lookup_insert_eq. induction ss as [|x ss IH]; cbn in *; [by rewrite eqb_refl|].
    destruct (_ ≟ _); [done|by apply IH].
  - rewrite lookup_insert_ne, by_id_lookup by done. clear Hn. induction ss as [|x ss IH]; cbn.
    + by rewrite (proj2 (eqb_false _ _) Hne).
    + destruct (_ ≟ _); [done|exact IH].
Qed.

Lemma by_id_update ss s :
  is_Some (by_id ss !! id s) →
  by_id (map (λ x, if id x ≟ id s then s else x) ss) = <[id s := s]> (by_id ss).
Proof.
  intros Hs. apply map_eq. intros i. rewrite by_id_lookup in *. destruct (decide (id s = i)) as [<-|Hne].
  - rewrite lookup_insert_eq. induction ss as [|x ss IH]; cbn in *; [by destruct Hs|].
    destruct (id x ≟ id s) eqn:E; [by rewrite eqb_refl|]. rewrite E. by apply IH.
  - rewrite lookup_insert_ne, by_id_lookup by done. clear Hs. induction ss as [|x ss IH]; cbn; [done|].
    destruct (id x ≟ id s) eqn:E.
    + rewrite eqb_true in E. rewrite E, (proj2 (eqb_false _ _) Hne). exact IH.
    + destruct (id x ≟ i); [done|exact IH].
Qed.

Lemma by_id_delete ss i :
  by_id (List.filter (λ x, negb (id x ≟ i)) ss) = delete i (by_id ss).
Proof.
  apply map_eq. intros k. rewrite by_id_lookup. destruct (decide (k = i)) as [->|Hne].
  - rewrite lookup_delete_eq. induction ss as [|x ss IH]; cbn; [done|].
    destruct (id x ≟ i) eqn:E; cbn; [exact IH|]. by rewrite E.
  - rewrite lookup_delete_ne, by_id_lookup by done. induction ss as [|x ss IH]; cbn; [done|].
    destruct (id x ≟ i) eqn:E; cbn.
    + rewrite eqb_true in E. by rewrite E, (proj2 (eqb_false _ _) (not_eq_sym Hne)).
    + destruct (id x ≟ k); [done|exact IH].
Qed.

Lemma by_id_In ss x : NoDup (map id ss) → x ∈ ss → by_id ss !! id x = Some x.
Proof.
  intros Hnd Hx. apply elem_of_list_to_map.
  - by rewrite <-list_fmap_compose.
  - apply list_elem_of_fmap. by exists x.
Qed.

Lemma find_row_spec db a i : sql_repr db a → find_row i db = row_of <$> a_schedules a !! i.
Proof. intros [(ss & Hr & _ & <-) _ _]. unfold find_row. by rewrite Hr, find_rows. Qed.

Lemma filter_map {A B} (f : A → B) (p : B → bool) (l : list A) :
  List.filter p (map f l) = map f (List.filter (λ x, p (f x)) l).
Proof. induction l as [|x l IH]; cbn; [done|]. destruct (p _); cbn; by rewrite IH. Qed.

Lemma updated_row_of now s old :
  id old = id s → created_at old = created_at s →
  (py_eq (JDict (metadata old)) (JDict (metadata s)) = true → metadata old = metadata s) →
  s = old ∨ updated_at old ≠ updated_at s →
  updated_row now s (row_of old) = row_of s.
Proof.
  intros Hid Hc Hm Hs. assert (assigned_row s (row_of old) = row_of s) as He.
  { unfold assigned_row, row_of. cbn -[py_eq]. rewrite Hid, Hc. destruct (py_eq _ _); [|done].
    by rewrite Hm. }
  unfold updated_row. rewrite He. destruct (decide _) as [->|Hne]; [done|]. cbn.
  destruct (updated_at s =? updated_at old) eqn:E; [|done]. apply Z.eqb_eq in E.
  by destruct Hs as [->|Hs].
Qed.

(** An execution in the table is one that was appended. *)
Lemma execution_taken_spec i db a :
  sql_repr db a → i ∉ map execution_id (a_executions a) → execution_taken i db = false.
Proof.
  intros [_ He Hn] Hi. unfold execution_taken. apply Bool.not_true_iff_false.
  intros (r & Hr & Hri)%List.existsb_exists. rewrite eqb_true in Hri. apply Hi.
  assert (r ∈ rows_of_schedule (row_schedule_id r) db) as Hin.
  { apply list_elem_of_In, List.filter_In. split; [done|]. apply Prelude.eqb_refl. }
  destruct (a_schedules a !! row_schedule_id r) as [x|] eqn:E.
  - assert (to_execution r ∈ List.filter (of_schedule (row_schedule_id r)) (a_executions a)) as Ht.
    { rewrite <-He by (by eexists). apply list_elem_of_fmap. by exists r. }
    apply list_elem_of_In, List.filter_In in Ht as [Ht _]. apply list_elem_of_In in Ht.
    apply list_elem_of_fmap. exists (to_execution r). by split.
  - rewrite Hn in Hin by done. by apply not_elem_of_nil in Hin.
Qed.

Lemma sql_save s db a :
  sql_repr db a → savable s a →
  ∃ db', save_schedule SQLAlchemySchedulerRepository s db = (Ret s, db') ∧
    sql_repr db' (with_schedules <[id s := s]> a).
Proof.
  intros Hdb Hsav. pose proof (find_row_spec _ _ (id s) Hdb) as Hf. destruct Hdb as [(ss & Hr & Hnd & Ha) He Hn].
  cbn. unfold bind, gets. rewrite Hf. unfold savable in Hsav.
  destruct (a_schedules a !! id s) as [old|] eqn:Eo; cbn.
  - set (now := flush_clock db (flushes db)).
    assert (∀ x, x ∈ ss → id x = id s → updated_row now s (row_of x) = row_of s) as Hupd.
    { intros x Hx Hid. assert (x = old) as ->.
      { apply (by_id_In _ _ Hnd) in Hx. rewrite Ha, Hid, Eo in Hx. by injection Hx. }
      destruct Hsav as (? & ? & ?). by apply updated_row_of. }
    rewrite <-Ha, by_id_lookup in Eo. pose proof (List.find_some _ _ Eo) as [Hin Hid]. rewrite eqb_true in Hid.
    rewrite Hupd by (exact Hid || by apply list_elem_of_In). rewrite to_schedule_row_of. eexists. split; [done|].
    assert (is_Some (by_id ss !! id s)) as Hsome by (rewrite by_id_lookup, Eo; by eexists).
    split; cbn.
    + exists (map (λ x, if id x ≟ id s then s else x) ss). split_and!.
      * rewrite Hr, !map_map. apply map_ext_in. intros x Hx%list_elem_of_In. cbn.
        destruct (id x ≟ id s) eqn:E; [|done]. rewrite eqb_true in E. by apply Hupd.
      * rewrite map_map. erewrite map_ext; [exact Hnd|]. intros x. cbn.
        destruct (id x ≟ id s) eqn:E; [by rewrite eqb_true in E|done].
      * by rewrite by_id_update, Ha.
    + intros i Hi. apply He. apply lookup_insert_is_Some in Hi as [<-|[_ ?]]; [by rewrite <-Ha|done].
    + intros i [? _]%lookup_insert_None. by apply Hn.
  - rewrite to_schedule_row_of. eexists. split; [done|]. split; cbn.
    + exists (ss ++ [s]). split_and!.
      * by rewrite Hr, map_app.
      * rewrite map_app. apply NoDup_app. split; [done|]. split; [|apply NoDup_singleton].
        intros i Hi ->%list_elem_of_singleton. apply list_elem_of_fmap in Hi as (x & Hx1 & Hx).
        apply (by_id_In _ _ Hnd) in Hx. by rewrite Ha, <-Hx1, Eo in Hx.
      * by rewrite by_id_snoc, Ha by (by rewrite Ha).
    + intros i Hi. destruct (decide (id s = i)) as [<-|Hne].
      * change (map to_execution (rows_of_schedule (id s) db) = List.filter (of_schedule (id s)) (a_executions a)).
        by rewrite Hn, Hsav.
      * apply He. rewrite lookup_insert_ne in Hi; done.
    + intros i [? _]%lookup_insert_None. by apply Hn.
Qed.

#[export] Instance sql_spec : RepositorySpec SQLAlchemySchedulerRepository sql_repr.
Proof.
  split.
  - exact sql_save.
  - intros i db a H. pose proof (find_row_spec _ _ i H) as Hf. cbn. unfold bind, gets. rewrite Hf.
    destruct (a_schedules a !! i); cbn; [by rewrite to_schedule_row_of|done].
  - intros db a [(ss & Hr & Hnd & Ha) _ _]. exists ss. split.
    + cbn. unfold bind, gets. by rewrite Hr, to_schedules_rows.
    + rewrite <-Ha. unfold by_id. rewrite map_to_list_to_map by (by rewrite <-list_fmap_compose).
      rewrite <-list_fmap_compose. by rewrite list_fmap_id.
  - intros i db a H. pose proof (find_row_spec _ _ i H) as Hf. destruct H as [(ss & Hr & Hnd & Ha) He Hn].
    cbn. unfold bind, gets. rewrite Hf. destruct (a_schedules a !! i) as [old|] eqn:Eo; cbn; eexists; (split; [done|]).
    + split; cbn.
      * exists (List.filter (λ x, negb (id x ≟ i)) ss). split_and!; [by rewrite Hr, filter_map| |by rewrite by_id_delete, Ha].
        eapply sublist_NoDup; [exact Hnd|]. apply fmap_sublist. clear. induction ss; cbn; [done|].
        destruct (negb _); [by apply sublist_skip|by apply sublist_cons].
      * intros k [Hne Hk]%lookup_delete_is_Some. rewrite <-He by done. f_equal. unfold rows_of_schedule. cbn.
        rewrite filter_filter. apply filter_ext. intros r. destruct (row_schedule_id r ≟ k) eqn:E; [|by rewrite andb_false_r].
        rewrite eqb_true in E. subst. by rewrite (proj2 (eqb_false _ _) (not_eq_sym Hne)).
      * intros k [->|Hk]%lookup_delete_None; unfold rows_of_schedule; cbn; rewrite filter_filter.
        -- erewrite filter_ext; [apply filter_false|]. intros r. cbn. by destruct (_ ≟ _).
        -- erewrite filter_ext; [|intros r; apply andb_comm]. rewrite <-filter_filter.
           fold (rows_of_schedule k db). by rewrite Hn.
    + split; cbn; [exists ss; by rewrite delete_id| |].
      * intros k Hk. apply He. by rewrite delete_id in Hk.
      * intros k Hk. apply Hn. by rewrite delete_id in Hk.
  - intros e db a H [s Hs] Hid. pose proof (find_row_spec _ _ (schedule_id e) H) as Hf. rewrite Hs in Hf.
    pose proof (execution_taken_spec _ _ _ H Hid) as Htaken.
    destruct H as [Hrows He Hn]. cbn. unfold bind, gets. rewrite Hf. cbn. rewrite Htaken. cbn. eexists.
    split; [by rewrite to_execution_row|].
    assert (∀ i, rows_of_schedule i (set_rows (schedule_rows db) (execution_rows db ++ [execution_row e]) db) =
      rows_of_schedule i db ++ (if schedule_id e ≟ i then [execution_row e] else [])) as Hrow.
    { intros i. unfold rows_of_schedule. cbn. by rewrite List.filter_app. }
    split; [done|..]; cbn -[rows_of_schedule]; intros i Hi; rewrite Hrow.
    + rewrite map_app, He, List.filter_app by done. f_equal. cbn. unfold of_schedule.
      destruct (_ ≟ _); cbn; [by rewrite to_execution_row|done].
    + rewrite Hn by done. destruct (schedule_id e ≟ i) eqn:E; [|done]. rewrite eqb_true in E. by subst; rewrite Hs in Hi.
  - intros i db a [_ He _] Hi. cbn. unfold gets. f_equal. f_equal. by apply He.
  - intros i s db a [(ss & _ & _ & <-) _ _] Hi. rewrite by_id_lookup in Hi.
    apply List.find_some in Hi as [_ Hi]. by rewrite eqb_true in Hi.
Qed.

(** ** A pass over the due schedules *)

Section Service.
Context {S : Type} `{!Clock S} (self : SchedulerService S) (repr : S → Abstract → Prop).
Context `{HR : !RepositorySpec (repository self) repr}.

(** The rest of the world leaves the repository alone; the job manager records the
    metadata it is given. *)
Record well_behaved_scheduler : Prop := {
  ws_tick : ∀ σ a, repr σ a → repr (tick σ) a;
  ws_uuid : ∀ σ a, repr σ a → ∃ i σ', draw_uuid self σ = (Ret i, σ') ∧ repr σ' a ∧
    i ∉ map execution_id (a_executions a);
  ws_submit : ∀ submit r σ a, job_manager self = Some submit → repr σ a →
    ∃ j σ', submit r σ = (Ret j, σ') ∧
      repr σ' (with_submission (run_metadata (BgJob.context r)) a);
}.
Context (Hself : well_behaved_scheduler).

(** What dispatching a schedule does to what is held. *)
Definition dispatched_into (now : datetime) (execution : UUID) (s : Schedule) (a : Abstract) : Abstract := {|
  a_schedules := <[id s := advanced now s]> (a_schedules a);
  a_executions := a_executions a ++ [{|
    execution_id := execution; schedule_id := id s; executed_at := now; status := "dispatched";
    detail := Some (ScheduleKind_value (kind s)) |}];
  a_submitted := a_submitted a ++ (if is_none (job_manager self) then [] else [metadata s]) |}.

(** A schedule that was last updated at the time of the pass does not change in it. *)
Definition advances (now : datetime) (s : Schedule) : Prop :=
  advanced now s = s ∨ updated_at s ≠ now.

Lemma dispatch_schedule_spec now s σ a :
  repr σ a → a_schedules a !! id s = Some s → advances now s →
  ∃ e σ', dispatch_schedule self now s σ = (Ret (dispatched s), σ') ∧ repr σ' (dispatched_into now e s a).
Proof.
  intros Ha Hs Hup. unfold dispatch_schedule.
  assert (∃ σ1, (match job_manager self with
    | Some submit => run <- draw_uuid self ;; submit (job_request s run) ;;; ret tt
    | None => ret tt end) σ = (Ret tt, σ1) ∧
    repr σ1 {| a_schedules := a_schedules a; a_executions := a_executions a;
      a_submitted := a_submitted a ++ (if is_none (job_manager self) then [] else [metadata s]) |}) as (σ1 & H1 & Ha1).
  { destruct (job_manager self) as [submit|] eqn:Ej; cbn [is_none].
    - destruct (ws_uuid Hself σ a Ha) as (i & σ2 & Hi & Ha2 & _).
      destruct (ws_submit Hself submit (job_request s i) σ2 a Ej Ha2) as (j & σ3 & Hj & Ha3).
      exists σ3. split; [unfold bind; by rewrite Hi, Hj|exact Ha3].
    - exists σ. split; [done|]. rewrite app_nil_r. by destruct a. }
  rewrite (bind_Ret _ _ _ _ _ H1). destruct (ws_uuid Hself σ1 _ Ha1) as (e & σ2 & He & Ha2 & Hfresh).
  rewrite (bind_Ret _ _ _ _ _ He).
  match type of Ha2 with repr _ ?a1 => set (a1' := a1) in * end.
  match goal with |- context [append_execution _ ?x] => set (x' := x) end.
  destruct (rs_append x' σ2 a1' Ha2) as (σ3 & H3 & Ha3); [by eexists|exact Hfresh|].
  rewrite (bind_Ret _ _ _ _ _ H3).
  destruct (rs_save (advanced now s) σ3 _ Ha3) as (σ4 & H4 & Ha4).
  { unfold savable. cbn. rewrite Hs. split_and!; [done..|]. exact Hup. }
  rewrite (bind_Ret _ _ _ _ _ H4). exists e, σ4. by split.
Qed.

(** The schedules after a pass, as the loop makes them. *)
Definition advance_all (now : datetime) (ss : list Schedule) (m : gmap UUID Schedule) : gmap UUID Schedule :=
  fold_left (λ m s, if is_due now s then <[id s := advanced now s]> m else m) ss m.

Lemma dispatch_loop_spec now ss σ a :
  repr σ a → NoDup (map id ss) → (∀ s, s ∈ ss → a_schedules a !! id s = Some s) →
  (∀ s, s ∈ ss → is_due now s = true → advances now s) →
  let due := List.filter (is_due now) ss in
  ∃ es σ', dispatch_loop self now ss σ = (Ret (map dispatched due), σ') ∧
    repr σ' {| a_schedules := advance_all now ss (a_schedules a);
               a_executions := a_executions a ++ es;
               a_submitted := a_submitted a ++ (if is_none (job_manager self) then [] else map metadata due) |} ∧
    map (λ e, (schedule_id e, executed_at e)) es = map (λ s, (id s, now)) due.
Proof.
  revert σ a. induction ss as [|s ss IH]; intros σ a Ha Hnd Hs Hup; cbn [dispatch_loop List.filter advance_all fold_left].
  { exists [], σ. split; [done|]. split; [|done]. cbn. rewrite !app_nil_r.
    destruct (is_none _); rewrite app_nil_r; by destruct a. }
  apply NoDup_cons in Hnd as [Hn Hnd].
  destruct (is_due now s) eqn:Ed.
  - destruct (dispatch_schedule_spec now s σ a Ha) as (e & σ1 & H1 & Ha1); [apply Hs; set_solver|apply Hup; set_solver|].
    destruct (IH σ1 _ Ha1 Hnd) as (es & σ2 & H2 & Ha2 & Hes).
    { intros x Hx. cbn. rewrite lookup_insert_ne; [apply Hs; set_solver|].
      intros Heq. apply Hn. rewrite Heq. apply list_elem_of_fmap. by exists x. }
    { intros x Hx. apply Hup. set_solver. }
    eexists ({| execution_id := e; schedule_id := id s; executed_at := now; status := "dispatched";
      detail := Some (ScheduleKind_value (kind s)) |} :: es), σ2. split; [rewrite (bind_Ret _ _ _ _ _ H1), (bind_Ret _ _ _ _ _ H2); done|].
    split; [|cbn; by rewrite Hes]. cbn in Ha2. rewrite <-!app_assoc in Ha2.
    destruct (is_none _); exact Ha2.
  - apply IH; [done..| |]; intros x Hx; [apply Hs|apply Hup]; set_solver.
Qed.

Lemma advance_all_lookup now ss m i :
  NoDup (map id ss) → (∀ s, s ∈ ss → m !! id s = Some s) →
  advance_all now ss m !! i =
    match List.find (λ s, id s ≟ i) ss with
    | Some s => Some (if is_due now s then advanced now s else s)
    | None => m !! i
    end.
Proof.
  revert m. induction ss as [|s ss IH]; intros m Hnd Hs; [done|]. apply NoDup_cons in Hnd as [Hn Hnd].
  cbn [advance_all fold_left List.find]. fold (advance_all now ss (if is_due now s then <[id s := advanced now s]> m else m)).
  assert (∀ x, x ∈ ss → id x ≠ id s) as Hne.
  { intros x Hx Heq. apply Hn. rewrite <-Heq. apply list_elem_of_fmap. by exists x. }
  rewrite IH; [|done|].
  - destruct (id s ≟ i) eqn:E.
    + rewrite eqb_true in E. subst i. destruct (List.find _ ss) as [x|] eqn:Ef.
      * apply List.find_some in Ef as [Hin Hx]. rewrite eqb_true in Hx. by apply list_elem_of_In, Hne in Hin.
      * destruct (is_due now s); [by rewrite lookup_insert_eq|apply Hs; set_solver].
    + rewrite eqb_false in E. destruct (List.find _ ss); [done|]. destruct (is_due now s); [by rewrite lookup_insert_ne|done].
  - intros x Hx. destruct (is_due now s); [rewrite lookup_insert_ne|]; try apply Hs; [set_solver|by apply not_eq_sym, Hne|set_solver].
Qed.

Lemma advance_all_values now l m :
  (∀ i s, m !! i = Some s → id s = i) → l ≡ₚ (map_to_list m).*2 →
  NoDup (map id l) ∧ (∀ s, s ∈ l → m !! id s = Some s) ∧
  advance_all now l m = (λ s, if is_due now s then advanced now s else s) <$> m.
Proof.
  intros Hid Hl.
  assert (∀ s, s ∈ l ↔ m !! id s = Some s) as Hin.
  { intros s. rewrite Hl, list_elem_of_fmap. split.
    - intros ([i x] & -> & Hx%elem_of_map_to_list). cbn. by rewrite (Hid _ _ Hx).
    - intros Hs. exists (id s, s). split; [done|]. by apply elem_of_map_to_list. }
  assert (NoDup (map id l)) as Hnd.
  { rewrite Hl. change (map id) with (fmap (M := list) id). rewrite <-list_fmap_compose.
    erewrite list_fmap_ext; [apply NoDup_fst_map_to_list|]. intros k [i x] Hk. cbn.
    apply Hid. apply elem_of_map_to_list. by eapply list_elem_of_lookup_2. }
  split; [done|]. split; [by intros s ?%Hin|].
  apply map_eq. intros i. rewrite advance_all_lookup by (done || by intros s ?%Hin). rewrite lookup_fmap.
  destruct (List.find _ l) as [s|] eqn:Ef.
  - apply List.find_some in Ef as [Hs Hi]. rewrite eqb_true in Hi. subst i.
    apply list_elem_of_In, Hin in Hs. by rewrite Hs.
  - destruct (m !! i) as [s|] eqn:Em; [|done]. assert (id s = i) as <- by by apply Hid.
    apply Hin, list_elem_of_In in Em. pose proof (List.find_none _ _ Ef s Em) as Hf. cbn in Hf. by rewrite eqb_refl in Hf.
Qed.

(** A schedule that was dispatched is due again at once exactly when it runs once only,
    or its interval is negative. *)
Lemma due_again now s :
  is_due now s = true →
  is_due now (advanced now s) =
    match schedule_type s with
    | ONE_TIME => true
    | INTERVAL => interval_or_60 (interval_seconds s) <=? 0
    | _ => false
    end.
Proof.
  unfold is_due, advanced, compute_next_run_from_existing, minutes, seconds. cbn.
  intros [He Ht]%andb_true_iff. rewrite He. cbn. destruct (schedule_type s).
  - destruct (_ <=? 0) eqn:E; pybool; lia.
  - destruct (next_run_at s) as [t|]; [exact Ht|done].
  - pybool. lia.
  - pybool. lia.
  - pybool. lia.
Qed.

(** A pass over the schedules dispatches each enabled schedule whose next run has
    come exactly once, in the order the repository lists them, and no other: it
    records one execution for it at the time of the pass, submits one job with its
    records one execution for it at the time of the pass, submits one job with its
    metadata if there is a job manager, and moves its next run on., and moves its next run on.  All other
    schedules stay as they are.  At the same time only schedules that run once, or
    whose interval is negative, are due again. *)
Theorem dispatch_due_jobs_spec now σ a :
  repr σ a →
  (∀ i s, a_schedules a !! i = Some s → is_due now s = true → advances now s) →
  ∃ l es σ', let due := List.filter (is_due now) l in
    l ≡ₚ (map_to_list (a_schedules a)).*2 ∧
    dispatch_due_jobs self (Some now) σ = (Ret (map dispatched due), σ') ∧
    repr σ' {|
      a_schedules := (λ s, if is_due now s then advanced now s else s) <$> a_schedules a;
      a_executions := a_executions a ++ es;
      a_submitted := a_submitted a ++ (if is_none (job_manager self) then [] else map metadata due) |} ∧
    map (λ e, (schedule_id e, executed_at e)) es = map (λ s, (id s, now)) due ∧
    ∀ s, s ∈ due → is_due now (advanced now s) =
      match schedule_type s with
      | ONE_TIME => true | INTERVAL => interval_or_60 (interval_seconds s) <=? 0 | _ => false
      end.
Proof.
  intros Ha Hup. destruct (rs_list σ a Ha) as (l & Hl & Hp).
  destruct (advance_all_values now l (a_schedules a)) as (Hnd & Hs & Hall); [|done|].
  { intros i s. by eapply rs_identity. }
  destruct (dispatch_loop_spec now l σ a Ha Hnd Hs) as (es & σ' & H1 & Ha' & Hes).
  { intros s Hin. by eapply Hup, Hs. }
  rewrite Hall in Ha'.
  exists l, es, σ'. split; [done|]. split; [|split; [done|split; [done|]]].
  - unfold dispatch_due_jobs, bind, ret. rewrite Hl. exact H1.
  - intros s Hin%list_elem_of_In. apply filter_In in Hin as [_ Hd]. by apply due_again.
Qed.
End Service.

(** ** The two repositories answer alike *)

Inductive RepositoryCall :=
  | Save (s : Schedule) | Get (i : UUID) | ListAll | Delete (i : UUID)
  | Append (e : ScheduleExecution) | Executions (i : UUID).

Inductive Answer :=
  | ASaved (s : Schedule) | AFound (o : option Schedule) | AListed (l : list Schedule)
  | ADeleted (b : bool) | AAppended (e : ScheduleExecution) | AExecutions (l : list ScheduleExecution).

Definition call {S} (repo : SchedulerRepository S) (c : RepositoryCall) : M S Answer :=
  match c with
  | Save s => r <- save_schedule repo s ;; ret (ASaved r)
  | Get i => r <- get_schedule repo i ;; ret (AFound r)
  | ListAll => r <- list_schedules repo ;; ret (AListed r)
  | Delete i => r <- delete_schedule repo i ;; ret (ADeleted r)
  | Append e => r <- append_execution repo e ;; ret (AAppended r)
  | Executions i => r <- list_executions repo i ;; ret (AExecutions r)
  end.

(** When the contract covers a call, what it does to what is held, and its answer. *)
Definition allowed (c : RepositoryCall) (a : Abstract) : Prop :=
  match c with
  | Save s => savable s a
  | Append e => is_Some (a_schedules a !! schedule_id e) ∧
      execution_id e ∉ map execution_id (a_executions a)
  | Executions i => is_Some (a_schedules a !! i)
  | _ => True
  end.

Definition after (c : RepositoryCall) (a : Abstract) : Abstract :=
  match c with
  | Save s => with_schedules <[id s := s]> a
  | Delete i => with_schedules (delete i) a
  | Append e => with_execution e a
  | _ => a
  end.

Definition expected (c : RepositoryCall) (a : Abstract) (r : Answer) : Prop :=
  match c, r with
  | Save s, ASaved s' => s' = s
  | Get i, AFound o => o = a_schedules a !! i
  | ListAll, AListed l => l ≡ₚ (map_to_list (a_schedules a)).*2
  | Delete i, ADeleted b => b = is_not_none (a_schedules a !! i)
  | Append e, AAppended e' => e' = e
  | Executions i, AExecutions l => l = List.filter (of_schedule i) (a_executions a)
  | _, _ => False
  end.

Fixpoint all_allowed (cs : list RepositoryCall) (a : Abstract) : Prop :=
  match cs with [] => True | c :: cs => allowed c a ∧ all_allowed cs (after c a) end.

(** The same answer, a listing in any order. *)
Definition same_answer (r r' : Answer) : Prop :=
  match r, r' with AListed l, AListed l' => l ≡ₚ l' | _, _ => r = r' end.

Lemma call_spec {S} (repo : SchedulerRepository S) repr `{!RepositorySpec repo repr} c σ a :
  repr σ a → allowed c a →
  ∃ r σ', call repo c σ = (Ret r, σ') ∧ repr σ' (after c a) ∧ expected c a r.
Proof.
  intros Ha Hc. destruct c as [s|i| |i|e|i]; cbn in *.
  - destruct (rs_save s σ a Ha Hc) as (σ' & H & ?). rewrite (bind_Ret _ _ _ _ _ H). by eexists _, _.
  - rewrite (bind_Ret _ _ _ _ _ (rs_get i σ a Ha)). by eexists _, _.
  - destruct (rs_list σ a Ha) as (l & H & ?). rewrite (bind_Ret _ _ _ _ _ H). by eexists _, _.
  - destruct (rs_delete i σ a Ha) as (σ' & H & ?). rewrite (bind_Ret _ _ _ _ _ H). by eexists _, _.
  - destruct Hc as [Hc Hid]. destruct (rs_append e σ a Ha Hc Hid) as (σ' & H & ?). rewrite (bind_Ret _ _ _ _ _ H). by eexists _, _.
  - rewrite (bind_Ret _ _ _ _ _ (rs_executions i σ a Ha Hc)). by eexists _, _.
Qed.

Lemma expected_same c a r r' : expected c a r → expected c a r' → same_answer r r'.
Proof.
  destruct c, r; try done; destruct r'; try done; cbn; intros H1 H2; subst; try done. by rewrite H1, H2.
Qed.

(** C27. The in-memory repository and the one over the tables implement the same
    contract, [RepositorySpec]: for calls that keep to it, both answer alike, call by
    call, up to the order of a listing.  A call keeps to it when a saved schedule that
    is there keeps its time of creation, and has another time of update if anything
    else in it changes; when a new schedule's identity is that of no execution's
    schedule; when an appended execution names a schedule that is there and has an
    identity of its own; and when only the executions of a schedule that is there are
    listed.  The examples [append_orphan], [append_twice], [restamped] and
    [executions_outlive] show the two part on a call that does not. *)
Theorem repositories_agree cs m db a :
  memory_repr m a → sql_repr db a → all_allowed cs a →
  ∃ rs rs' m' db', map_m (call InMemorySchedulerRepository) cs m = (Ret rs, m') ∧
    map_m (call SQLAlchemySchedulerRepository) cs db = (Ret rs', db') ∧
    Forall2 same_answer rs rs'.
Proof.
  revert m db a. induction cs as [|c cs IH]; intros m db a Hm Hdb Hc; [by eexists [], [], m, db|].
  destruct Hc as [Hc Hcs].
  destruct (call_spec _ _ c m a Hm Hc) as (r & m1 & H1 & Hm1 & Hr).
  destruct (call_spec _ _ c db a Hdb Hc) as (r' & db1 & H2 & Hdb1 & Hr').
  destruct (IH m1 db1 (after c a) Hm1 Hdb1 Hcs) as (rs & rs' & m2 & db2 & H3 & H4 & Hrs).
  exists (r :: rs), (r' :: rs'), m2, db2. cbn [map_m].
  rewrite (bind_Ret _ _ _ _ _ H1), (bind_Ret _ _ _ _ _ H2), (bind_Ret _ _ _ _ _ H3), (bind_Ret _ _ _ _ _ H4).
  split; [done|]. split; [done|]. constructor; [by eapply expected_same|done].
Qed.

(** ** Instances *)

Section Demo.
Definition demo_schedule (i : UUID) (t : ScheduleType) (next : Z) : Schedule := {|
  id := i; name := "nightly"; kind := DISCOVERY; schedule_type := t; enabled := true;
  interval_seconds := Some 60; start_at := Some 0; next_run_at := Some next; last_run_at := None;
  created_at := 0; updated_at := 0; state := ACTIVE; metadata := [("site", JStr "north")] |}.

(** The in-memory repository in a world with a clock and a log of submitted jobs. *)
Record DemoWorld := { memory : Memory; submissions : list dict; ticks : Z }.

#[local] Instance demo_clock : Clock DemoWorld := {|
  instant := ticks;
  tick w := {| memory := memory w; submissions := submissions w; ticks := ticks w + 1 |} |}.

Definition in_memory {A} (m : M Memory A) : M DemoWorld A := λ w,
  let (o, mem) := m (memory w) in
  (o, {| memory := mem; submissions := submissions w; ticks := ticks w |}).

Definition demo_repository : SchedulerRepository DemoWorld :=
  let repo := InMemorySchedulerRepository in {|
  save_schedule s := in_memory (save_schedule repo s);
  get_schedule i := in_memory (get_schedule repo i);
  list_schedules := in_memory (list_schedules repo);
  delete_schedule i := in_memory (delete_schedule repo i);
  append_execution e := in_memory (append_execution repo e);
  list_executions i := in_memory (list_executions repo i) |}.

Definition demo_repr (w : DemoWorld) (a : Abstract) : Prop :=
  memory_repr (memory w) a ∧ submissions w = a_submitted a.

Lemma demo_step {A} (m : M Memory A) w r mem a :
  m (memory w) = (Ret r, mem) → memory_repr mem a → submissions w = a_submitted a →
  ∃ w', in_memory m w = (Ret r, w') ∧ demo_repr w' a.
Proof. intros H ??. unfold in_memory. rewrite H. by eexists. Qed.

Lemma demo_read {A} (m : M Memory A) w r :
  m (memory w) = (Ret r, memory w) → in_memory m w = (Ret r, w).
Proof. intros H. unfold in_memory. rewrite H. by destruct w. Qed.

#[local] Instance demo_spec : RepositorySpec demo_repository demo_repr.
Proof.
  split.
  - intros s w a [H Hs] Hc. destruct (rs_save s _ a H Hc) as (m & E & ?). by eapply demo_step.
  - intros i w a [H _]. eapply demo_read. by eapply rs_get.
  - intros w a [H _]. destruct (rs_list _ a H) as (l & E & ?). exists l. split; [|done].
    by apply demo_read.
  - intros i w a [H Hs]. destruct (rs_delete i _ a H) as (m & E & ?). by eapply demo_step.
  - intros e w a [H Hs] Hc Hi. destruct (rs_append e _ a H Hc Hi) as (m & E & ?). by eapply demo_step.
  - intros i w a [H _] Hc. by eapply demo_read, rs_executions.
  - intros i s w a [H _]. apply (mr_identified _ _ H).
Qed.

(** An identity that is not taken. *)
Definition unused (ids : list N) : N := (fold_right N.max 0 ids + 1)%N.

Lemma unused_fresh ids : unused ids ∉ ids.
Proof.
  assert (∀ i, i ∈ ids → (i <= fold_right N.max 0 ids)%N) as H.
  { induction ids as [|j ids IH]; intros i; [by intros ?%not_elem_of_nil|].
    intros [->|Hi]%elem_of_cons; cbn; [lia|]. specialize (IH i Hi). lia. }
  intros Hi%H. unfold unused in Hi. lia.
Qed.

Definition demo_service : SchedulerService DemoWorld := {|
  repository := demo_repository;
  job_manager := Some (λ r w, (Ret 0%N, {|
    memory := memory w; submissions := submissions w ++ [run_metadata (BgJob.context r)];
    ticks := ticks w |}));
  worker_registry := {| heartbeat_ttl := minutes 2; workers := []; worker_metrics := [] |};
  draw_uuid w := (Ret (unused (map execution_id (executions (memory w)))), w) |}.

Lemma demo_service_well_behaved : well_behaved_scheduler demo_service demo_repr.
Proof.
  split.
  - intros w a H. exact H.
  - intros w a [H Hs]. do 2 eexists. split; [reflexivity|]. split; [by split|].
    destruct H as [_ _ <- _]. apply unused_fresh.
  - intros submit r w a [= <-] [H Hs]. do 2 eexists. split; [reflexivity|].
    split; [|cbn; by rewrite Hs]. by destruct H.
Qed.

Definition demo_abstract : Abstract := {|
  a_schedules := list_to_map [(1%N, demo_schedule 1 ONE_TIME 5); (2%N, demo_schedule 2 DAILY 6);
                              (3%N, demo_schedule 3 DAILY 100)];
  a_executions := []; a_submitted := [] |}.

Definition demo_start : DemoWorld := {|
  memory := {| schedules := [(1%N, demo_schedule 1 ONE_TIME 5); (2%N, demo_schedule 2 DAILY 6);
                             (3%N, demo_schedule 3 DAILY 100)]; executions := [] |};
  submissions := []; ticks := 50 |}.

Lemma demo_start_repr : demo_repr demo_start demo_abstract.
Proof.
  split; [|done]. split; [|done|done|].
  - apply (bool_decide_unpack _). vm_compute. done.
  - intros i s. cbn. rewrite !lookup_insert_Some, lookup_empty. naive_solver.
Qed.

Lemma demo_start_advances i s :
  a_schedules demo_abstract !! i = Some s → is_due 10 s = true → advances 10 s.
Proof. cbn. rewrite !lookup_insert_Some, lookup_empty. intros H _. right. naive_solver. Qed.

(** Two of three schedules are due. *)
Lemma dispatch_due_jobs_spec_witness :
  demo_repr demo_start demo_abstract ∧
  ∃ l w', l ≡ₚ (map_to_list (a_schedules demo_abstract)).*2 ∧
    dispatch_due_jobs demo_service (Some 10) demo_start =
      (Ret (map dispatched (List.filter (is_due 10) l)), w').
Proof.
  split; [exact demo_start_repr|].
  destruct (dispatch_due_jobs_spec demo_service demo_repr demo_service_well_behaved 10 demo_start demo_abstract
    demo_start_repr demo_start_advances) as (l & es & w' & Hl & Hd & _).
  exists l, w'. split; [exact Hl|exact Hd].
Defined.

(** A schedule that is to run once runs in every pass. *)
Example one_time_repeats :
  let pass := dispatch_due_jobs demo_service (Some 10) in
  let w1 := (pass demo_start).2 in
  (map dispatched_id <$> match (pass w1).1 with Ret r => Some r | _ => None end) = Some [1%N] ∧
  length (submissions (pass w1).2) = 3%nat.
Proof. vm_compute. done. Qed.

(** Renaming a paused schedule makes its state active while it stays disabled. *)
Example rename_activates_paused :
  let w := (pause_schedule demo_service 2%N ;;;
            update_schedule demo_service 2%N {| new_name := Some "weekly"; new_enabled := None |}) demo_start in
  (λ s, (enabled s, state s)) <$> get 2%N (schedules (memory w.2)) = Some (false, ACTIVE).
Proof. vm_compute. done. Qed.

Definition demo_calls : list RepositoryCall := [
  Save (demo_schedule 1 DAILY 5); Save (demo_schedule 2 WEEKLY 7); ListAll;
  Append {| execution_id := 9%N; schedule_id := 1%N; executed_at := 5; status := "dispatched"; detail := None |};
  Save (advanced 9 (demo_schedule 1 DAILY 5)); Executions 1; Delete 2; Get 2].

Definition demo_empty : Abstract := {| a_schedules := ∅; a_executions := []; a_submitted := [] |}.

Lemma repositories_agree_witness :
  all_allowed demo_calls demo_empty ∧
  ∃ rs rs' m' db',
    map_m (call InMemorySchedulerRepository) demo_calls {| schedules := []; executions := [] |} = (Ret rs, m') ∧
    map_m (call SQLAlchemySchedulerRepository) demo_calls
        {| schedule_rows := []; execution_rows := []; flush_clock := Z.of_nat; flushes := 0 |} =
      (Ret rs', db') ∧ Forall2 same_answer rs rs'.
Proof.
  assert (all_allowed demo_calls demo_empty) as Hc.
  { do 2 (split; [vm_compute; reflexivity|]). split; [exact I|]. split.
    { split; [by eexists|apply not_elem_of_nil]. }
    split; [vm_compute; split; [reflexivity|split; [done|by right]]|]. split; [by eexists|].
    split; [exact I|]. by split. }
  split; [exact Hc|]. apply (repositories_agree demo_calls _ _ demo_empty); [| |exact Hc].
  - split; [constructor|done|done|done].
  - split; [exists []; split; [reflexivity|split; [constructor|reflexivity]]| |done]. intros i [x Hx]. discriminate Hx.
Defined.
Definition demo_database : Database :=
  {| schedule_rows := []; execution_rows := []; flush_clock n := 100 + Z.of_nat n; flushes := 0 |}.

Definition demo_execution (i schedule : UUID) : ScheduleExecution :=
  {| execution_id := i; schedule_id := schedule; executed_at := 5; status := "dispatched"; detail := None |}.

(** What both repositories answer to a series of calls. *)
Definition both (cs : list RepositoryCall) : outcome (list Answer) * outcome (list Answer) :=
  ((map_m (call InMemorySchedulerRepository) cs {| schedules := []; executions := [] |}).1,
   (map_m (call SQLAlchemySchedulerRepository) cs demo_database).1).

(** An execution of a schedule that is not there. *)
Example append_orphan : both [Append (demo_execution 9 1)] =
  (Ret [AAppended (demo_execution 9 1)], raise_ IntegrityError "violates foreign key constraint").
Proof. vm_compute. reflexivity. Qed.

(** A second execution with the identity of the first. *)
Example append_twice :
  let s := demo_schedule 1 DAILY 5 in let e := demo_execution 9 1 in
  both [Save s; Append e; Append e] =
    (Ret [ASaved s; AAppended e; AAppended e], raise_ IntegrityError "violates unique constraint").
Proof. vm_compute. reflexivity. Qed.

(** A change that leaves the time of the update: the table sets it to the time of the
    flush. *)
Example restamped :
  let s := demo_schedule 1 DAILY 5 in let s' := demo_schedule 1 DAILY 9 in
  both [Save s; Save s'] =
    (Ret [ASaved s; ASaved s'],
     Ret [ASaved s; ASaved (revised s' (name s') (enabled s') (next_run_at s') (last_run_at s') 100 (state s'))]).
Proof. vm_compute. reflexivity. Qed.

(** Deleting a schedule deletes its executions from the table only. *)
Example executions_outlive :
  let s := demo_schedule 1 DAILY 5 in let e := demo_execution 9 1 in
  both [Save s; Append e; Delete 1; Executions 1] =
    (Ret [ASaved s; AAppended e; ADeleted true; AExecutions [e]],
     Ret [ASaved s; AAppended e; ADeleted true; AExecutions []]).
Proof. vm_compute. reflexivity. Qed.
End Demo.
