(* ===== verification/Cache.v ===== *)
(** * The cache ([cache/redis.py])

    The interface of cache backends, the cache in memory, with [time.monotonic] as
    the clock of the state, and the wrapper that falls back on another cache when the
    first one fails.  Redis is a backend given from outside; payloads are texts. *)

From S2P Require Import Prelude Vocabulary Effects Dicts.
#[local] Open Scope Z_scope.

(** [CacheBackend]. *)
Record CacheBackend (S : Type) := {
  cache_get : string → M S (option string);
  cache_set : string → string → option Z → M S unit;
  cache_delete : string → M S unit;
  cache_clear : M S unit;
}.
Arguments cache_get {S} _ _.
Arguments cache_set {S} _ _ _ _.
Arguments cache_delete {S} _ _.
Arguments cache_clear {S} _.

Definition build_cache_key (namespace : string) (parts : list string) : string :=
  String.concat ":" (namespace :: parts).

(** ** [InMemoryCache] *)

(** The items, with the monotonic time in microseconds at which they expire. *)
Definition CacheItems := list (string * (string * option Z)).

Class HasCache (S : Type) `{!Clock S} := {
  cache_items : S → CacheItems;
  set_cache_items : CacheItems → S → S;
  items_set : ∀ v s, cache_items (set_cache_items v s) = v;
  items_tick : ∀ s, cache_items (tick s) = cache_items s;
}.

(** [dict.pop(k, None)]. *)
Fixpoint discard {V} (k : string) (d : list (string * V)) : list (string * V) :=
  match d with
  | [] => []
  | (k', v) :: d => if k' ≟ k then d else (k', v) :: discard k d
  end.

Section Cache.
Context {S : Type} `{!Clock S, !HasCache S}.

Definition change_items (f : CacheItems → CacheItems) : M S unit :=
  modify (λ s, set_cache_items (f (cache_items s)) s).

Definition InMemoryCache : CacheBackend S := {|
  cache_get k :=
    item <- gets (λ s, get k (cache_items s)) ;;
    match item with
    | None => ret None
    | Some (payload, None) => ret (Some payload)
    | Some (payload, Some expires_at) =>
        now <- utc_now ;;
        if expires_at <=? now then change_items (discard k) ;;; ret None
        else ret (Some payload)
    end;
  cache_set k value ttl_seconds :=
    expires_at <-
      match ttl_seconds with
      | Some ttl => now <- utc_now ;; ret (Some (now + ttl * 1000000))
      | None => ret None
      end ;;
    change_items (put k (value, expires_at));
  cache_delete k := change_items (discard k);
  cache_clear := change_items (λ _, []) |}.

(** What the cache holds for a key, and until when. *)
Definition held k s : option (string * option Z) := get k (cache_items s).

Lemma get_discard {V} k k' (d : list (string * V)) :
  NoDup (keys d) → get k (discard k' d) = if k' ≟ k then None else get k d.
Proof.
  induction d as [|[k1 v] d IH]; cbn; [by destruct (k' ≟ k)|]. intros [Hk Hd]%NoDup_cons.
  destruct (k1 ≟ k') eqn:E1; cbn.
  - rewrite eqb_true in E1. subst k1. destruct (k' ≟ k) eqn:E2; [|done]. rewrite eqb_true in E2. subst k'.
    destruct (get k d) as [v'|] eqn:Eg; [|done]. apply elem_of_dict in Eg; [|done].
    destruct Hk. apply list_elem_of_fmap. by exists (k, v').
  - rewrite IH by done. destruct (k1 ≟ k) eqn:E2; [|done]. rewrite eqb_true in E2. subst k1.
    destruct (k' ≟ k) eqn:E3; [|done]. rewrite eqb_true in E3. subst. by rewrite eqb_refl in E1.
Qed.

(** What [set] stores expires after its time to live. *)
Lemma cache_set_spec k v ttl s :
  ∃ s', cache_set InMemoryCache k v (Some ttl) s = (Ret tt, s') ∧
    held k s' = Some (v, Some (instant s + ttl * 1000000)).
Proof.
  eexists. split; [reflexivity|]. unfold held. rewrite items_set, items_tick, get_put. by rewrite eqb_refl.
Qed.

(** [get] answers what is held until then, and afterwards nothing. *)
Lemma cache_get_spec k v t s :
  NoDup (keys (cache_items s)) → held k s = Some (v, Some t) →
  ∃ s', cache_get InMemoryCache k s = (Ret (if t <=? instant s then None else Some v), s') ∧
    held k s' = if t <=? instant s then None else Some (v, Some t).
Proof.
  unfold held. intros Hnd Hh. cbn [cache_get InMemoryCache]. unfold bind, gets. rewrite Hh. cbn.
  destruct (t <=? instant s); eexists; (split; [reflexivity|]).
  - unfold change_items. cbn. rewrite items_set, items_tick, get_discard by done. by rewrite eqb_refl.
  - by rewrite items_tick.
Qed.
End Cache.

(** ** [ResilientCache] *)

(** The calls of a backend; all but [Get] answer nothing. *)
Inductive CacheCall := Get (k : string) | Set_ (k v : string) (ttl : option Z) | Delete (k : string) | Clear.

Definition cache_call {S} (c : CacheBackend S) (call : CacheCall) : M S (option string) :=
  match call with
  | Get k => cache_get c k
  | Set_ k v ttl => cache_set c k v ttl ;;; ret None
  | Delete k => cache_delete c k ;;; ret None
  | Clear => cache_clear c ;;; ret None
  end.

Section Resilient.
Context {S : Type} (degraded : S → bool) (degrade : S → S).
Context (primary fallback : CacheBackend S).

(** What every operation does with its two versions. *)
Definition resiliently {A} (first second : M S A) : M S A :=
  d <- gets degraded ;;
  if (d : bool) then second
  else try_except first (λ exc,
    if isinstance exc Exception_ then modify degrade ;;; second else reraise exc).

Definition ResilientCache : CacheBackend S := {|
  cache_get k := resiliently (cache_get primary k) (cache_get fallback k);
  cache_set k v ttl := resiliently (cache_set primary k v ttl) (cache_set fallback k v ttl);
  cache_delete k := resiliently (cache_delete primary k) (cache_delete fallback k);
  cache_clear := resiliently (cache_clear primary) (cache_clear fallback) |}.

(** The primary cache raises only exceptions and leaves the flag; the fallback never
    raises and leaves the flag. *)
Record reliable_fallback : Prop := {
  rf_primary : ∀ call s, degraded (cache_call primary call s).2 = degraded s ∧
    match (cache_call primary call s).1 with Ret _ => True | Raise e => isinstance e Exception_ = true end;
  rf_fallback : ∀ call s, degraded (cache_call fallback call s).2 = degraded s ∧
    is_ret (cache_call fallback call s).1 = true;
  rf_degrade : ∀ s, degraded (degrade s) = true;
}.
Context (Hrel : reliable_fallback).

#[local] Arguments isinstance : simpl never.

Lemma resilient_call call :
  ∀ s, cache_call ResilientCache call s = resiliently (cache_call primary call) (cache_call fallback call) s.
Proof.
  intros s. destruct call; cbn; [done|..]; unfold resiliently, try_except, bind, gets; destruct (degraded s);
    try done.
  all: match goal with |- context [match ?m ?w with _ => _ end] => destruct (m w) as [[?|e] ?] end; cbn; try done.
  all: by destruct (isinstance e Exception_).
Qed.

(** The resilient cache never raises, whatever the primary cache raises.  From the
    first failure on it is the fallback: every later call is answered by it alone,
    and the primary cache is never asked again. *)
Theorem resilient_cache_total call s :
  is_ret (cache_call ResilientCache call s).1 = true ∧
  (degraded s = true → cache_call ResilientCache call s = cache_call fallback call s) ∧
  (degraded s = true ∨ is_ret (cache_call primary call s).1 = false ↔
    degraded (cache_call ResilientCache call s).2 = true).
Proof.
  rewrite resilient_call. unfold resiliently, try_except, bind, gets.
  pose proof (rf_fallback Hrel call) as Hf. pose proof (rf_primary Hrel call s) as [Hp He].
  destruct (degraded s) eqn:Ed.
  - destruct (Hf s) as [Hd Hr]. split; [done|]. split; [done|]. rewrite Hd, Ed. split; [done|by left].
  - destruct (cache_call primary call s) as [[r|e] s']; cbn in Hp, He.
    + split; [done|]. split; [done|]. cbn. rewrite Hp. split; [by intros [?|?]|done].
    + rewrite He. cbn. destruct (Hf (degrade s')) as [Hd Hr]. rewrite Hd, (rf_degrade Hrel), Hr.
      split; [done|]. split; [done|]. split; [done|by right].
Qed.
End Resilient.

(** [cache_result]: the wrapped function, for the arguments that give [key]. *)
Definition cache_result {S A} (cache : CacheBackend S) (key : string) (ttl_seconds : option Z)
    (dumps : A → string) (loads : string → outcome A) (func : M S A) : M S A :=
  cached <- cache_get cache key ;;
  match cached with
  | Some text => of_outcome (loads text)
  | None =>
      result <- func ;;
      cache_set cache key (dumps result) ttl_seconds ;;;
      ret result
  end.

(** ** Instances *)

(** A Redis that always fails, over a memory of one flag and the items. *)
Record CacheWorld := { items : CacheItems; flag : bool; monotonic : Z }.

#[export] Instance cache_clock : Clock CacheWorld := {|
  instant := monotonic; tick w := {| items := items w; flag := flag w; monotonic := monotonic w + 1 |} |}.
#[export] Instance cache_world : HasCache CacheWorld := {|
  cache_items := items;
  set_cache_items v w := {| items := v; flag := flag w; monotonic := monotonic w |};
  items_set _ _ := eq_refl; items_tick _ := eq_refl |}.

Definition failing_cache : CacheBackend CacheWorld := {|
  cache_get _ := raise ConnectionError "refused"; cache_set _ _ _ := raise ConnectionError "refused";
  cache_delete _ := raise ConnectionError "refused"; cache_clear := raise ConnectionError "refused" |}.

Definition degrade_world (w : CacheWorld) : CacheWorld :=
  {| items := items w; flag := true; monotonic := monotonic w |}.

Lemma resilient_cache_total_witness :
  let cache := ResilientCache flag degrade_world failing_cache InMemoryCache in
  let s := {| items := [("k", ("old", None))]; flag := false; monotonic := 0 |} in
  is_ret (cache_call cache (Get "k") s).1 = true ∧ flag (cache_call cache (Get "k") s).2 = true.
Proof.
  intros cache s.
  assert (reliable_fallback flag degrade_world failing_cache InMemoryCache) as H.
  { split; [by intros []|intros call w|done]. destruct call as [k|k v [ttl|]|k|]; cbn; try done.
    unfold bind, gets. destruct (get k (items w)) as [[v [t|]]|]; [|done..].
    unfold bind, utc_now. by destruct (_ <=? _). }
  destruct (resilient_cache_total flag degrade_world failing_cache InMemoryCache H (Get "k") s) as (Hr & _ & Hd).
  split; [exact Hr|]. apply Hd. by right.
Defined.
