(* ===== verification/NetBoxClient.v ===== *)
(** * The NetBox client ([integrations/netbox/], [inventory/mapper.py],
      [inventory/validation.py], [services/inventory.py])

    Requests with their retries, pagination, the mapping of NetBox payloads to the
    inventory, and the synchronization with its cache.  The HTTP client is a
    computation that answers with a response or raises; the validation of payloads
    by Pydantic is a function of the model; the JSON text of a cached inventory is a
    pair of functions. *)

From Stdlib Require Import Qminmax.
From S2P Require Import Prelude Vocabulary Effects Json Texts Dicts Cache Inventories.
#[local] Open Scope Z_scope.

(** ** Payloads ([integrations/netbox/models.py]) *)

Record NetBoxObjectReference := {
  ref_id : Z;
  ref_name : option string;
  ref_slug : option string;
  ref_display : option string;
}.

(** [NetBoxChoice]; only the value is read. *)
Record NetBoxChoice := { choice_value : string; choice_label : string }.

Record NetBoxIPAddressReference := { ip_id : Z; ip_address : string; ip_family : option Z }.

Module DeviceTypeRef.
Record NetBoxDeviceTypeReference := {
  id : Z;
  model : string;
  slug : option string;
  manufacturer : option NetBoxObjectReference;
}.
End DeviceTypeRef.

Module SitePayload.
Record NetBoxSite := {
  name : string;
  slug : string;
  region : option NetBoxObjectReference;
  location : option NetBoxObjectReference;
  facility : option string;
  description : option string;
}.
End SitePayload.

Module RackPayload.
Record NetBoxRack := {
  name : string;
  site : NetBoxObjectReference;
  facility_id : option string;
  u_height : option Z;
  role : option NetBoxObjectReference;
  description : option string;
}.
End RackPayload.

Module ManufacturerPayload.
Record NetBoxManufacturer := { name : string; slug : string }.
End ManufacturerPayload.

Module DeviceTypePayload.
Record NetBoxDeviceType := {
  manufacturer : NetBoxObjectReference;
  model : string;
  slug : string;
  part_number : option string;
  u_height : option Z;
  is_full_depth : option bool;
}.
End DeviceTypePayload.

Module RolePayload.
Record NetBoxRole := { name : string; slug : string; color : option string }.
End RolePayload.

Module PlatformPayload.
Record NetBoxPlatform := {
  name : string;
  slug : string;
  manufacturer : option NetBoxObjectReference;
  napalm_driver : option string;
}.
End PlatformPayload.

Module DevicePayload.
Record NetBoxDevice := {
  name : string;
  device_type : DeviceTypeRef.NetBoxDeviceTypeReference;
  site : option NetBoxObjectReference;
  rack : option NetBoxObjectReference;
  role : option NetBoxObjectReference;
  platform : option NetBoxObjectReference;
  serial : option string;
  status : option NetBoxChoice;
  primary_ip4 : option NetBoxIPAddressReference;
  primary_ip6 : option NetBoxIPAddressReference;
}.
End DevicePayload.

Module InterfacePayload.
Record NetBoxInterface := {
  name : string;
  device : NetBoxObjectReference;
  type : option string;
  enabled : bool;
  mac_address : option string;
  description : option string;
}.
End InterfacePayload.

Module AddressPayload.
Record NetBoxIPAddress := {
  address : string;
  family : Z;
  status : option NetBoxChoice;
  dns_name : option string;
  assigned_object_type : option string;
  assigned_object : option NetBoxObjectReference;
}.
End AddressPayload.

Module VLANPayload.
Record NetBoxVLAN := {
  vid : Z;
  name : string;
  site : option NetBoxObjectReference;
  status : option NetBoxChoice;
  role : option NetBoxObjectReference;
}.
End VLANPayload.

Module Dataset.
Record NetBoxInventoryDataset := {
  sites : list SitePayload.NetBoxSite;
  racks : list RackPayload.NetBoxRack;
  devices : list DevicePayload.NetBoxDevice;
  interfaces : list InterfacePayload.NetBoxInterface;
  ip_addresses : list AddressPayload.NetBoxIPAddress;
  vlans : list VLANPayload.NetBoxVLAN;
  platforms : list PlatformPayload.NetBoxPlatform;
  manufacturers : list ManufacturerPayload.NetBoxManufacturer;
  device_types : list DeviceTypePayload.NetBoxDeviceType;
  roles : list RolePayload.NetBoxRole;
}.
End Dataset.

(** ** Mapping ([integrations/netbox/mapper.py], [inventory/mapper.py]) *)

(** [a or b] on optional strings. *)
Definition or_opt (a b : option string) : option string :=
  match a with Some s => if str_truthy s then a else b | None => b end.

Definition reference_name_of (r : NetBoxObjectReference) : string :=
  or_str (ref_name r) (or_str (ref_slug r) (pretty (ref_id r))).

Definition reference_name (r : option NetBoxObjectReference) : option string :=
  reference_name_of <$> r.

Definition choice (c : option NetBoxChoice) : option string := choice_value <$> c.

Definition map_site (p : SitePayload.NetBoxSite) : Site.Site := {|
  Site.name := SitePayload.name p; Site.slug := SitePayload.slug p;
  Site.region := reference_name (SitePayload.region p);
  Site.location := reference_name (SitePayload.location p);
  Site.facility := SitePayload.facility p; Site.description := SitePayload.description p |}.

Definition map_rack (p : RackPayload.NetBoxRack) : Rack.Rack := {|
  Rack.name := RackPayload.name p;
  Rack.site_name := or_str (reference_name (Some (RackPayload.site p))) "";
  Rack.facility_id := RackPayload.facility_id p; Rack.u_height := RackPayload.u_height p;
  Rack.role := reference_name (RackPayload.role p); Rack.description := RackPayload.description p |}.

Definition map_manufacturer (p : ManufacturerPayload.NetBoxManufacturer) : Manufacturer.Manufacturer := {|
  Manufacturer.name := ManufacturerPayload.name p; Manufacturer.slug := ManufacturerPayload.slug p |}.

Definition map_device_type (p : DeviceTypePayload.NetBoxDeviceType) : DeviceType.DeviceType :=
  let m := DeviceTypePayload.manufacturer p in {|
  DeviceType.manufacturer := {|
    Manufacturer.name := or_str (ref_name m) (or_str (ref_display m) "");
    Manufacturer.slug := or_str (ref_slug m) (or_str (ref_name m) (or_str (ref_display m) "")) |};
  DeviceType.model := DeviceTypePayload.model p; DeviceType.slug := DeviceTypePayload.slug p;
  DeviceType.part_number := DeviceTypePayload.part_number p;
  DeviceType.u_height := DeviceTypePayload.u_height p;
  DeviceType.is_full_depth := DeviceTypePayload.is_full_depth p |}.

Definition map_platform (p : PlatformPayload.NetBoxPlatform) : Platform.Platform := {|
  Platform.name := PlatformPayload.name p; Platform.slug := PlatformPayload.slug p;
  Platform.manufacturer_name := reference_name (PlatformPayload.manufacturer p);
  Platform.napalm_driver := PlatformPayload.napalm_driver p |}.

Definition map_role (p : RolePayload.NetBoxRole) : Role.Role := {|
  Role.name := RolePayload.name p; Role.slug := RolePayload.slug p; Role.color := RolePayload.color p |}.

Definition map_interface (p : InterfacePayload.NetBoxInterface) : Interface.Interface := {|
  Interface.name := InterfacePayload.name p;
  Interface.device_name := or_str (reference_name (Some (InterfacePayload.device p))) "";
  Interface.type := InterfacePayload.type p; Interface.enabled := InterfacePayload.enabled p;
  Interface.mac_address := InterfacePayload.mac_address p;
  Interface.description := InterfacePayload.description p |}.

Definition map_ip_address (p : AddressPayload.NetBoxIPAddress) : IPAddress.IPAddress := {|
  IPAddress.address := AddressPayload.address p; IPAddress.family := AddressPayload.family p;
  IPAddress.status := choice (AddressPayload.status p);
  IPAddress.dns_name := AddressPayload.dns_name p;
  IPAddress.assigned_object_type := AddressPayload.assigned_object_type p;
  IPAddress.assigned_object_name := reference_name (AddressPayload.assigned_object p);
  IPAddress.device_name := reference_name (AddressPayload.assigned_object p) |}.

Definition map_vlan (p : VLANPayload.NetBoxVLAN) : VLAN.VLAN := {|
  VLAN.vid := VLANPayload.vid p; VLAN.name := VLANPayload.name p;
  VLAN.site_name := reference_name (VLANPayload.site p);
  VLAN.status := choice (VLANPayload.status p); VLAN.role := reference_name (VLANPayload.role p) |}.

(** The manufacturer of a device: its name and slug, the model where there is none. *)
Definition device_manufacturer (t : DeviceTypeRef.NetBoxDeviceTypeReference) : Manufacturer.Manufacturer :=
  let model := DeviceTypeRef.model t in
  match DeviceTypeRef.manufacturer t with
  | None => {| Manufacturer.name := model; Manufacturer.slug := or_str (DeviceTypeRef.slug t) model |}
  | Some m => {|
      Manufacturer.name := or_str (ref_name m) (or_str (ref_display m) model);
      Manufacturer.slug := or_str (ref_slug m) (or_str (ref_name m) (or_str (ref_display m) model)) |}
  end.

Definition map_device (p : DevicePayload.NetBoxDevice) : Device.Device :=
  let t := DevicePayload.device_type p in {|
  Device.name := DevicePayload.name p;
  Device.site_name := reference_name (DevicePayload.site p);
  Device.rack_name := reference_name (DevicePayload.rack p);
  Device.device_type := {|
    DeviceType.manufacturer := device_manufacturer t;
    DeviceType.model := DeviceTypeRef.model t;
    DeviceType.slug := or_str (DeviceTypeRef.slug t) (DeviceTypeRef.model t);
    DeviceType.part_number := None; DeviceType.u_height := None; DeviceType.is_full_depth := None |};
  Device.role := (λ r, {|
    Role.name := or_str (reference_name (Some r)) "";
    Role.slug := or_str (ref_slug r) (or_str (reference_name (Some r)) "");
    Role.color := None |}) <$> DevicePayload.role p;
  Device.platform := (λ r, {|
    Platform.name := or_str (ref_name r) (or_str (reference_name (Some r)) "");
    Platform.slug := or_str (ref_slug r) (or_str (reference_name (Some r)) "");
    Platform.manufacturer_name := None; Platform.napalm_driver := None |}) <$> DevicePayload.platform p;
  Device.serial := DevicePayload.serial p;
  Device.status := choice (DevicePayload.status p);
  Device.primary_ip :=
    match DevicePayload.primary_ip4 p, DevicePayload.primary_ip6 p with
    | Some r, _ | None, Some r => Some (ip_address r)
    | None, None => None
    end;
  Device.interfaces := []; Device.ip_addresses := [] |}.

(** [InventoryMapper.to_snapshot]. *)
Definition to_inventory (d : Dataset.NetBoxInventoryDataset) : NetBox.NetBoxInventorySnapshot := {|
  NetBox.sites := map map_site (Dataset.sites d);
  NetBox.racks := map map_rack (Dataset.racks d);
  NetBox.devices := map map_device (Dataset.devices d);
  NetBox.interfaces := map map_interface (Dataset.interfaces d);
  NetBox.ip_addresses := map map_ip_address (Dataset.ip_addresses d);
  NetBox.vlans := map map_vlan (Dataset.vlans d);
  NetBox.platforms := map map_platform (Dataset.platforms d);
  NetBox.manufacturers := map map_manufacturer (Dataset.manufacturers d);
  NetBox.device_types := map map_device_type (Dataset.device_types d);
  NetBox.roles := map map_role (Dataset.roles d) |}.

(** ** Retries ([integrations/netbox/retry.py]) *)

Record RetryPolicy := {
  max_attempts : Z;
  base_delay_seconds : float;
  max_delay_seconds : float;
  retryable_status_codes : list Z;
}.

(** The defaults. *)
Definition RETRYABLE_STATUS_CODES : list Z := [429; 500; 502; 503; 504].
Definition default_retry : RetryPolicy := {|
  max_attempts := 4; base_delay_seconds := 1 # 2; max_delay_seconds := 8;
  retryable_status_codes := RETRYABLE_STATUS_CODES |}.

Definition should_retry (p : RetryPolicy) (status_code : Z) : bool :=
  mem status_code (retryable_status_codes p).

(** [max(a, b)] on floats: [b] if [b > a]. *)
Definition py_max (a b : pyfloat) : pyfloat := if float_ltb a b then b else a.

Definition delay_for_attempt (p : RetryPolicy) (attempt : Z) (retry_after : option pyfloat)
    : outcome pyfloat :=
  if attempt <? 1 then raise_ ValueError "Attempt number must be at least 1."
  else
    let delay := Finite (Qmin (base_delay_seconds p * inject_Z (2 ^ (attempt - 1))) (max_delay_seconds p)) in
    Ret match retry_after with Some r => py_max delay r | None => delay end.

(** ** Requests ([integrations/netbox/client.py]) *)

Record Response := {
  status_code : Z;
  retry_after_header : option string;
  api_version_header : option string;
  (* [response.json()]; [None] is the [ValueError] *)
  body : option json;
  request_url : string;
  reason_phrase : string;
}.

(** [response.is_error] of httpx. *)
Definition is_error (r : Response) : bool := (400 <=? status_code r) && (status_code r <=? 599).

(** [_parse_retry_after]. *)
Definition parse_retry_after (value : option string) : option pyfloat :=
  match value with Some s => py_float s | None => None end.

(** [_build_response_error], by the text of the exception. *)
Definition build_response_error (r : Response) : exn :=
  Exn NetBoxResponseError (request_url r +:+ " returned " +:+ pretty (status_code r) +:+ ": " +:+
    (if str_truthy (reason_phrase r) then reason_phrase r else "Unexpected NetBox response")).

(** A page of a collection: [NetBoxCollectionResponse]. *)
Record Page := { count : Z; next : option string; results : list json }.

Section Client.
Context {S : Type}.

Record NetBoxClient := {
  retry_policy : RetryPolicy;
  page_size : Z;
  expected_version : option string;
  (* the HTTP client: method, URL and parameters *)
  send : string → string → option dict → M S Response;
  pause : pyfloat → M S unit;
  (* [NetBoxCollectionResponse.model_validate] *)
  validate_page : dict → outcome Page;
  (* [NetBoxResponseCache]: its backend, and JSON text *)
  response_cache : option (CacheBackend S);
  encode_json : dict → string;
  decode_json : string → outcome dict;
}.

Context (self : NetBoxClient).

(** The rest of a retried attempt: the delay, and the next attempt. *)
Definition wait_and_retry {A} (attempt : Z) (retry_after : option pyfloat) (again : M S A) : M S A :=
  d <- of_outcome (delay_for_attempt (retry_policy self) attempt retry_after) ;;
  pause self d ;;;
  again.

Fixpoint request_loop (turns : nat) (attempt : Z) (method url : string) (params : option dict) : M S Response :=
  match turns with
  | O => raise NetBoxTransportError "NetBox request failed unexpectedly."
  | Datatypes.S turns =>
      let again := request_loop turns (attempt + 1) method url params in
      let last := max_attempts (retry_policy self) <=? attempt in
      r <- catching (send self method url params) ;;
      match r with
      | Raise exc =>
          if isinstance exc TimeoutException || isinstance exc NetworkError then
            if last then raise NetBoxTransportError (exn_str exc)
            else wait_and_retry attempt None again
          else reraise exc
      | Ret response =>
          if status_code response =? 429 then
            let retry_after := parse_retry_after (retry_after_header response) in
            if last then raise NetBoxRateLimitError "NetBox rate limit exhausted."
            else wait_and_retry attempt retry_after again
          else if should_retry (retry_policy self) (status_code response) then
            if last then reraise (build_response_error response)
            else wait_and_retry attempt None again
          else if is_error response then reraise (build_response_error response)
          else ret response
      end
  end.

(** [_request]. *)
Definition request (method url : string) (params : option dict) : M S Response :=
  request_loop (Z.to_nat (max_attempts (retry_policy self))) 1 method url params.

(** [request_json]; no caller passes a cache key. *)
Definition request_json (method url : string) (params : option dict) : M S json :=
  response <- request method url params ;;
  match body response with
  | Some payload => ret payload
  | None => raise NetBoxValidationError "NetBox returned invalid JSON."
  end.

(** [validate_required_keys] and [validate_collection_payload]. *)
Definition validate_required_keys (payload : dict) (keys : list string) (context : string) : M S unit :=
  match List.filter (λ k, negb (dict_has k payload)) keys with
  | [] => ret tt
  | missing => raise NetBoxValidationError
      (context +:+ " is missing required keys: " +:+ String.concat ", " missing)
  end.

Definition validate_collection_payload (payload : json) (context : string) : M S dict :=
  match payload with
  | JDict d =>
      validate_required_keys d ["count"; "results"] context ;;;
      match dict_get "results" d with
      | Some (JList _) => ret d
      | _ => raise NetBoxValidationError (context +:+ " results must be a list.")
      end
  | _ => raise NetBoxValidationError (context +:+ " must be a mapping.")
  end.

Definition fetch_page (endpoint : string) (params : option dict) : M S Page :=
  payload <- request_json "GET" endpoint params ;;
  validated <- validate_collection_payload payload (endpoint +:+ " collection") ;;
  of_outcome (validate_page self validated).

(** ** Pagination ([integrations/netbox/pagination.py]) *)

Section Items.
Context {A : Type} (model_validate : json → outcome A) (progress : option (Z → option Z → M S unit)).

(** The results of a page; the number retrieved so far. *)
Fixpoint page_items (retrieved : Z) (page_count : Z) (rs : list json) : M S (list A) :=
  match rs with
  | [] => ret []
  | r :: rs =>
      match progress with
      | Some callback => callback (retrieved + 1) (Some page_count)
      | None => ret tt
      end ;;;
      item <- of_outcome (model_validate r) ;;
      items <- page_items (retrieved + 1) page_count rs ;;
      ret (item :: items)
  end.

(** [iter_results] over [iter_pages], for a number of pages; [None] when there are
    more.  The items of a page are taken before the next page is fetched. *)
Fixpoint iter_results (pages : nat) (retrieved : Z) (endpoint : string) (params : option dict)
    : M S (option (list A)) :=
  match pages with
  | O => ret None
  | Datatypes.S pages =>
      page <- fetch_page endpoint params ;;
      items <- page_items retrieved (count page) (results page) ;;
      match next page with
      | None => ret (Some items)
      | Some url =>
          rest <- iter_results pages (retrieved + Z.of_nat (length (results page))) url None ;;
          ret (app items <$> rest)
      end
  end.

(** [list_collection]. *)
Definition list_collection (pages : nat) (endpoint : string) (params : dict) : M S (option (list A)) :=
  iter_results pages 0 endpoint (Some (dict_set "limit" (JInt (page_size self)) params)).
End Items.

(** ** The health check *)

Record NetBoxStatusResponse := { version : option string; api_version : option string }.

Definition validate_version (expected : string) (actual : option string) : M S unit :=
  match actual with
  | None => raise NetBoxValidationError "NetBox health check did not include a version string."
  | Some v =>
      if v ≟ expected then ret tt
      else raise NetBoxVersionMismatchError ("Expected NetBox " +:+ expected +:+ ", got " +:+ v)
  end.

Definition validate_health (h : NetBoxStatusResponse) : M S unit :=
  match expected_version self with
  | None => ret tt
  | Some expected => validate_version expected (or_opt (version h) (api_version h))
  end.

(** [NetBoxCacheKeys] with its namespace. *)
Definition health_key : string := "netbox:health".
Definition inventory_key : string := "netbox:inventory".

(** [NetBoxResponseCache.get_json] of the health entry. *)
Definition cached_health : M S (option dict) :=
  match response_cache self with
  | None => ret None
  | Some cache =>
      found <- cache_get cache health_key ;;
      match found with
      | None => ret None
      | Some text => payload <- of_outcome (decode_json self text) ;; ret (Some payload)
      end
  end.

Definition health (status_validate : dict → outcome NetBoxStatusResponse) : M S NetBoxStatusResponse :=
  cached <- cached_health ;;
  match cached with
  | Some payload =>
      h <- of_outcome (status_validate payload) ;;
      validate_health h ;;;
      ret h
  | None =>
      response <- request "GET" "/api/status/" None ;;
      match body response with
      | None => raise NetBoxValidationError "NetBox status response was not valid JSON."
      | Some (JDict payload) =>
          match response_cache self with
          | Some cache => cache_set cache health_key (encode_json self payload) (Some 60)
          | None => ret tt
          end ;;;
          h <- of_outcome (status_validate payload) ;;
          let h := {| version := version h; api_version := api_version_header response |} in
          validate_health h ;;;
          ret h
      | Some _ => raise NetBoxValidationError "NetBox status response must be a JSON object."
      end
  end.

(** ** The data set ([integrations/netbox/service.py]) *)

(** [model_validate] of the models. *)
Record Models := {
  site_model : json → outcome SitePayload.NetBoxSite;
  rack_model : json → outcome RackPayload.NetBoxRack;
  device_model : json → outcome DevicePayload.NetBoxDevice;
  interface_model : json → outcome InterfacePayload.NetBoxInterface;
  address_model : json → outcome AddressPayload.NetBoxIPAddress;
  vlan_model : json → outcome VLANPayload.NetBoxVLAN;
  platform_model : json → outcome PlatformPayload.NetBoxPlatform;
  manufacturer_model : json → outcome ManufacturerPayload.NetBoxManufacturer;
  device_type_model : json → outcome DeviceTypePayload.NetBoxDeviceType;
  role_model : json → outcome RolePayload.NetBoxRole;
}.

(** A whole collection of at most [pages] pages; [None] when it has more. *)
Definition fetch_all {A B} (pages : nat) (model : json → outcome A) (endpoint : string)
    (k : list A → M S (option B)) : M S (option B) :=
  found <- list_collection model None pages endpoint [] ;;
  match found with Some items => k items | None => ret None end.

Definition fetch_inventory_dataset (pages : nat) (models : Models)
    : M S (option Dataset.NetBoxInventoryDataset) :=
  fetch_all pages (site_model models) "/api/dcim/sites/" (λ sites,
  fetch_all pages (rack_model models) "/api/dcim/racks/" (λ racks,
  fetch_all pages (device_model models) "/api/dcim/devices/" (λ devices,
  fetch_all pages (interface_model models) "/api/dcim/interfaces/" (λ interfaces,
  fetch_all pages (address_model models) "/api/ipam/ip-addresses/" (λ ip_addresses,
  fetch_all pages (vlan_model models) "/api/ipam/vlans/" (λ vlans,
  fetch_all pages (platform_model models) "/api/dcim/platforms/" (λ platforms,
  fetch_all pages (manufacturer_model models) "/api/dcim/manufacturers/" (λ manufacturers,
  fetch_all pages (device_type_model models) "/api/dcim/device-types/" (λ device_types,
  fetch_all pages (role_model models) "/api/dcim/device-roles/" (λ roles,
  ret (Some {|
    Dataset.sites := sites; Dataset.racks := racks; Dataset.devices := devices;
    Dataset.interfaces := interfaces; Dataset.ip_addresses := ip_addresses;
    Dataset.vlans := vlans; Dataset.platforms := platforms;
    Dataset.manufacturers := manufacturers; Dataset.device_types := device_types;
    Dataset.roles := roles |}))))))))))).
End Client.
Arguments NetBoxClient S : clear implicits.

(** ** Synchronization ([services/inventory.py]) *)

Section Synchronize.
Context {S : Type}.

Record InventoryService := {
  (* [NetBoxService.fetch_inventory_dataset] *)
  fetch_dataset : M S Dataset.NetBoxInventoryDataset;
  cache : CacheBackend S;
  cache_ttl_seconds : Z;
  (* [model_dump_json] and [model_validate_json] of the snapshot *)
  dump : NetBox.NetBoxInventorySnapshot → string;
  load : string → outcome NetBox.NetBoxInventorySnapshot;
}.

Context (self : InventoryService).

(** The part in [try]. *)
Definition refresh : M S NetBox.NetBoxInventorySnapshot :=
  dataset <- fetch_dataset self ;;
  let snapshot := to_inventory dataset in
  cache_set (cache self) inventory_key (dump self snapshot) (Some (cache_ttl_seconds self)) ;;;
  ret snapshot.

Definition synchronize (force_refresh : bool) : M S NetBox.NetBoxInventorySnapshot :=
  cached <- (if force_refresh then ret None else cache_get (cache self) inventory_key) ;;
  match cached with
  | Some text => of_outcome (load self text)
  | None =>
      try_except refresh (λ exc,
        if isinstance exc Exception_ then raise ServiceError "Inventory synchronization failed."
        else reraise exc)
  end.
End Synchronize.
Arguments InventoryService S : clear implicits.
