(* ===== verification/NetBoxTheorems.v ===== *)
(** * Correctness of the NetBox client

    Requests are bounded and end in the response that decides them; a collection is
    read to its last page; mapped names are there; a synchronized inventory is
    answered from the cache until it expires. *)

From S2P Require Import Prelude Vocabulary Effects Json Texts Dicts Inventories Comparison.
From S2P Require Import Cache NetBoxClient.
#[local] Open Scope Z_scope.

(** ** Requests *)

Section Requests.
Context {S : Type} (self : NetBoxClient S) (sent : S → nat).
Implicit Types s : S.

(** The HTTP client counts its requests; pauses send none and return. *)
Record counts_requests : Prop := {
  cr_send : ∀ method url params s, sent (send self method url params s).2 = Datatypes.S (sent s);
  cr_pause : ∀ d s, ∃ s', pause self d s = (Ret tt, s') ∧ sent s' = sent s;
}.
Context (Hsent : counts_requests).

Definition transient (r : Response) : bool :=
  (status_code r =? 429) || should_retry (retry_policy self) (status_code r).

(** What [n] requests, of which the last is the [last]th allowed, come to. *)
Definition request_outcome (last : Z) (n : Z) (o : outcome Response) : Prop :=
  match o with
  | Ret r => 1 <= n ∧ transient r = false ∧ is_error r = false
  | Raise e =>
      n = last ∧ exn_cls e ∈ [NetBoxTransportError; NetBoxRateLimitError; NetBoxResponseError] ∨
      1 <= n ∧ (∃ r, e = build_response_error r ∧ transient r = false ∧ is_error r = true) ∨
      1 <= n ∧ isinstance e TimeoutException = false ∧ isinstance e NetworkError = false
  end.

Lemma wait_and_retry_spec {A} attempt retry_after (again : M S A) s :
  1 <= attempt → ∃ s', wait_and_retry self attempt retry_after again s = again s' ∧ sent s' = sent s.
Proof.
  intros Ha. unfold wait_and_retry, delay_for_attempt. destruct (attempt <? 1) eqn:E; [pybool; lia|].
  unfold bind, of_outcome.
  match goal with |- context [pause self ?d s] => destruct (cr_pause Hsent d s) as (s' & -> & Hs) end.
  by exists s'.
Qed.

Lemma request_loop_spec turns attempt method url params s o s' :
  1 <= attempt → attempt + Z.of_nat turns = max_attempts (retry_policy self) + 1 →
  request_loop self turns attempt method url params s = (o, s') →
  ∃ n, 0 <= n <= Z.of_nat turns ∧ Z.of_nat (sent s') = Z.of_nat (sent s) + n ∧
    request_outcome (Z.of_nat turns) n o.
Proof.
  revert attempt s. induction turns as [|turns IH]; intros attempt s Ha Ht; cbn [request_loop].
  { intros [= <- <-]. exists 0. split; [lia|]. split; [lia|]. left. split; [done|set_solver]. }
  pose proof (cr_send Hsent method url params s) as Hs. unfold bind at 1, catching.
  destruct (send self method url params s) as [r s1]. cbn [snd] in Hs.
  set (last := max_attempts (retry_policy self) <=? attempt).
  assert (last = true → turns = 0%nat) as Hlast by (unfold last; intros H; pybool; lia).
  assert (∀ after, last = false →
    wait_and_retry self attempt after (request_loop self turns (attempt + 1) method url params) s1 = (o, s') →
    ∃ n, 0 <= n <= Z.of_nat (Datatypes.S turns) ∧ Z.of_nat (sent s') = Z.of_nat (sent s) + n ∧
      request_outcome (Z.of_nat (Datatypes.S turns)) n o) as Hagain.
  { intros after _ H. destruct (wait_and_retry_spec attempt after
      (request_loop self turns (attempt + 1) method url params) s1 Ha) as (s2 & Hw & Hs2).
    rewrite Hw in H. apply IH in H as (n & Hn & Hns & Ho); [|lia|lia].
    exists (n + 1). split; [lia|]. split; [lia|]. unfold request_outcome in *. destruct o as [r'|e].
    - destruct Ho as (? & ? & ?). split; [lia|done].
    - destruct Ho as [[-> ?]|[(? & ?)|(? & ?)]]; [left; split; [lia|done]|right; left; split; [lia|done]|
        right; right; split; [lia|done]]. }
  assert (∀ e, last = true → exn_cls e ∈ [NetBoxTransportError; NetBoxRateLimitError; NetBoxResponseError] →
    (Raise e, s1) = (o, s') →
    ∃ n, 0 <= n <= Z.of_nat (Datatypes.S turns) ∧ Z.of_nat (sent s') = Z.of_nat (sent s) + n ∧
      request_outcome (Z.of_nat (Datatypes.S turns)) n o) as Hgive.
  { intros e Hl He [= <- <-]. specialize (Hlast Hl) as ->. exists 1. split; [lia|]. split; [lia|]. by left. }
  destruct r as [response|exc].
  - destruct (status_code response =? 429) eqn:E429.
    { destruct last; [apply Hgive; [done|set_solver]|by apply Hagain]. }
    destruct (should_retry _ _) eqn:Er.
    { destruct last; [apply Hgive; [done|set_solver]|by apply Hagain]. }
    assert (transient response = false) as Htr by (unfold transient; by rewrite E429, Er).
    destruct (is_error response) eqn:Ee; intros [= <- <-]; exists 1; (split; [lia|]); (split; [lia|]).
    + right. left. split; [lia|]. by exists response.
    + split; [lia|done].
  - destruct (isinstance exc TimeoutException) eqn:E1, (isinstance exc NetworkError) eqn:E2; cbn [orb].
    4: { intros [= <- <-]. exists 1. split; [lia|]. split; [lia|]. right. right. split; [lia|done]. }
    all: destruct last; [apply Hgive; [done|set_solver]|by apply Hagain].
Qed.

(** A request is sent at most [max_attempts] times.  It returns only a response that
    is neither an error nor one the policy retries; it raises after the last attempt,
    or at once for an error response that is not retried, or what the HTTP client
    raises other than a timeout or a network error. *)
Theorem request_bounded method url params s o s' :
  request self method url params s = (o, s') →
  let allowed := Z.max 0 (max_attempts (retry_policy self)) in
  ∃ n, 0 <= n <= allowed ∧ Z.of_nat (sent s') = Z.of_nat (sent s) + n ∧ request_outcome allowed n o.
Proof.
  intros H allowed. unfold request in H.
  destruct (decide (max_attempts (retry_policy self) <= 0)) as [Hm|Hm].
  - replace (Z.to_nat _) with 0%nat in H by lia. injection H as <- <-. exists 0.
    split; [unfold allowed; lia|]. split; [lia|]. left. split; [unfold allowed; lia|set_solver].
  - apply request_loop_spec in H as (n & Hn & Hs & Ho); [|lia|lia].
    exists n. replace allowed with (Z.of_nat (Z.to_nat (max_attempts (retry_policy self)))) by (unfold allowed; lia).
    done.
Qed.
End Requests.

(** Without a [Retry-After] no pause is longer than the policy allows. *)
Lemma delay_bounded p attempt :
  1 <= attempt →
  ∃ d, delay_for_attempt p attempt None = Ret (Finite d) ∧ (d <= max_delay_seconds p)%Q.
Proof.
  intros H. unfold delay_for_attempt. destruct (attempt <? 1) eqn:E; [pybool; lia|].
  eexists. split; [done|]. apply Qminmax.Q.le_min_r.
Qed.

(** A [Retry-After] header is not bounded by it. *)
Example retry_after_unbounded :
  delay_for_attempt default_retry 1 (parse_retry_after (Some "86400")) = Ret (Finite 86400) ∧
  delay_for_attempt default_retry 1 (parse_retry_after (Some "inf")) = Ret (Infinite false).
Proof. split; vm_compute; reflexivity. Qed.

(** ** Pagination *)

Section Pages.
Context {S : Type} (self : NetBoxClient S) {A : Type} (model_validate : json → outcome A).
Implicit Types s : S.

(** The pages from an endpoint on, each the one the last names, up to one that names
    none. *)
Inductive serves : string → option dict → S → list Page → S → Prop :=
  | serves_last endpoint params s page s' :
      fetch_page self endpoint params s = (Ret page, s') → next page = None →
      serves endpoint params s [page] s'
  | serves_more endpoint params s page s1 url pages s' :
      fetch_page self endpoint params s = (Ret page, s1) → next page = Some url →
      serves url None s1 pages s' →
      serves endpoint params s (page :: pages) s'.

Definition validated (x : json) (a : A) : Prop := model_validate x = Ret a.

Lemma page_items_Ret retrieved n rs items s s' :
  page_items model_validate None retrieved n rs s = (Ret items, s') ↔
  s' = s ∧ Forall2 validated rs items.
Proof.
  revert retrieved items s'. induction rs as [|r rs IH]; intros retrieved items s'; cbn [page_items].
  - split; [intros [= <- <-]; by split|]. intros [-> H]. by inversion H.
  - unfold bind at 1, ret at 1. unfold bind at 1, of_outcome. destruct (model_validate r) as [a|e] eqn:E.
    + unfold bind. destruct (page_items _ _ _ _ _ s) as [[as'|e] s1] eqn:Ep.
      * apply IH in Ep as [-> Hf]. split.
        -- intros [= <- <-]. split; [done|]. by constructor.
        -- intros [-> H]. inversion H as [|? b ? bs Hb Hbs]; subst. unfold validated in Hb. rewrite E in Hb.
           injection Hb as ->. assert (as' = bs) as ->; [|done].
           eapply Forall2_unique; [exact Hf|exact Hbs|]. unfold validated. congruence.
      * split; [done|]. intros [-> H]. inversion H as [|? b ? bs Hb Hbs]; subst.
        assert (page_items model_validate None (retrieved + 1) n rs s = (Ret bs, s)) as Hx by (by apply IH).
        by rewrite Hx in Ep.
    + split; [done|]. intros [-> H]. inversion H; subst. unfold validated in *. congruence.
Qed.

Lemma iter_results_Some pages retrieved endpoint params s items s' :
  iter_results self model_validate None pages retrieved endpoint params s = (Ret (Some items), s') ↔
  ∃ ps, serves endpoint params s ps s' ∧ (length ps <= pages)%nat ∧
    Forall2 validated (flat_map results ps) items.
Proof.
  revert retrieved endpoint params s items.
  induction pages as [|pages IH]; intros retrieved endpoint params s items; cbn [iter_results].
  { split; [done|]. intros (ps & H & Hl & _). destruct ps; [inversion H|cbn in Hl; lia]. }
  split.
  - intros [(page & s1 & Hp & H)|(? & _ & [=])]%bind_inv.
    apply bind_inv in H as [(xs & s2 & Hx & H)|(? & _ & [=])]. apply page_items_Ret in Hx as [-> Hx].
    destruct (next page) as [url|] eqn:En.
    + apply bind_inv in H as [(rest & s3 & Hr & H)|(? & _ & [=])]. injection H as H <-.
      destruct rest as [rest|]; [|done]. injection H as <-. apply IH in Hr as (ps & Hs & Hl & Hf).
      exists (page :: ps). split; [by eapply serves_more|]. split; [cbn; lia|]. by apply Forall2_app.
    + injection H as <- <-. exists [page]. split; [by apply serves_last|]. split; [cbn; lia|].
      cbn. by rewrite app_nil_r.
  - intros (ps & Hs & Hl & Hf). inversion Hs as [? ? ? page ? Hp Hn|? ? ? page s1 url ps' ? Hp Hn Hs']; subst.
    + cbn in Hf. rewrite app_nil_r in Hf. rewrite (bind_Ret _ _ _ _ _ Hp).
      assert (page_items model_validate None retrieved (count page) (results page) s' = (Ret items, s')) as Hx
        by (by apply page_items_Ret).
      rewrite (bind_Ret _ _ _ _ _ Hx). by rewrite Hn.
    + cbn in Hf, Hl. apply Forall2_app_inv_l in Hf as (xs & rest & Hx & Hr & ->).
      rewrite (bind_Ret _ _ _ _ _ Hp).
      assert (page_items model_validate None retrieved (count page) (results page) s1 = (Ret xs, s1)) as Hx1
        by (by apply page_items_Ret).
      rewrite (bind_Ret _ _ _ _ _ Hx1), Hn.
      assert (iter_results self model_validate None pages (retrieved + Z.of_nat (length (results page))) url None s1 =
        (Ret (Some rest), s')) as Hrest by (apply IH; exists ps'; split; [done|]; split; [lia|done]).
      by rewrite (bind_Ret _ _ _ _ _ Hrest).
Qed.

(** Reading a collection ends exactly when following the [next] links ends: with a
    bound of [n] pages it returns the items if and only if there is a chain of at most
    [n] pages, fetched once each and in order, up to one without a link, and the items
    are the results of these pages, validated, in order.  The page size is sent with
    the first request only. *)
Theorem list_collection_complete n endpoint params s items s' :
  list_collection self model_validate None n endpoint params s = (Ret (Some items), s') ↔
  ∃ ps, serves endpoint (Some (dict_set "limit" (JInt (page_size self)) params)) s ps s' ∧
    (length ps <= n)%nat ∧ Forall2 validated (flat_map results ps) items.
Proof. apply iter_results_Some. Qed.
End Pages.

(** ** Mapping *)

Lemma pretty_present (z : Z) : str_truthy (pretty z) = true.
Proof.
  destruct (decide (0 <= z)) as [Hz|Hz].
  - rewrite pretty_Z_of_N by done. pose proof (isdigit_pretty (Z.to_N z)) as H. by destruct (pretty _).
  - destruct z as [|p|p]; [lia..|done].
Qed.

Lemma or_str_present o s : str_truthy s = true → str_truthy (or_str o s) = true.
Proof. unfold or_str. destruct o as [t|]; [destruct (str_truthy t) eqn:E|]; done. Qed.

Lemma reference_name_present r : str_truthy (reference_name_of r) = true.
Proof. unfold reference_name_of. apply or_str_present, or_str_present, pretty_present. Qed.

Lemma reference_or r : or_str (reference_name (Some r)) "" = reference_name_of r.
Proof. cbn. by rewrite reference_name_present. Qed.

(** Every related object of the mapped inventory is named: racks have a site,
    interfaces a device, and the sites, racks, roles and platforms that devices name,
    the roles of racks and the sites of VLANs are never the empty text. *)
Theorem mapped_names_present d :
  let inv := to_inventory d in
  let present o := match o with Some s => str_truthy s = true | None => True end in
  Forall (λ r, str_truthy (Rack.site_name r) = true ∧ present (Rack.role r)) (NetBox.racks inv) ∧
  Forall (λ i, str_truthy (Interface.device_name i) = true) (NetBox.interfaces inv) ∧
  Forall (λ v, present (VLAN.site_name v)) (NetBox.vlans inv) ∧
  Forall (λ d, present (Device.site_name d) ∧ present (Device.rack_name d) ∧
    match Device.role d with
    | Some r => str_truthy (Role.name r) = true ∧ str_truthy (Role.slug r) = true | None => True end ∧
    match Device.platform d with
    | Some p => str_truthy (Platform.name p) = true ∧ str_truthy (Platform.slug p) = true | None => True end)
    (NetBox.devices inv).
Proof.
  intros inv present. cbn [inv to_inventory NetBox.racks NetBox.interfaces NetBox.vlans NetBox.devices].
  assert (∀ o, present (reference_name o)) as Hp.
  { intros [r|]; cbn; [apply reference_name_present|done]. }
  split_and!; apply Forall_map, Forall_forall; intros x _.
  - split; [|apply Hp]. cbn [map_rack Rack.site_name]. rewrite reference_or. apply reference_name_present.
  - cbn [map_interface Interface.device_name]. rewrite reference_or. apply reference_name_present.
  - apply Hp.
  - cbn [map_device Device.site_name Device.rack_name Device.role Device.platform].
    split_and!; [apply Hp..| |].
    + destruct (DevicePayload.role x) as [r|]; cbn [fmap option_fmap option_map Role.name Role.slug]; [|done].
      rewrite reference_or. split; [|apply or_str_present]; apply reference_name_present.
    + destruct (DevicePayload.platform x) as [r|]; cbn [fmap option_fmap option_map Platform.name Platform.slug]; [|done].
      rewrite reference_or. split; apply or_str_present, reference_name_present.
Qed.

(** A mapped device has no interfaces: whatever NetBox records, the comparison finds
    no interface missing and every live interface of a matched device unexpected. *)
Lemma mapped_interfaces_unexpected p l :
  device_interface_differences (map_device p) l =
  map (λ i, unexpected "interface" (DevicePayload.name p +:+ ":" +:+ InterfaceSnapshot.name i)
              (JStr (InterfaceSnapshot.name i))
              ("Live interface " +:+ InterfaceSnapshot.name i +:+ " is not in NetBox."))
    (values (live_interfaces l)).
Proof.
  unfold device_interface_differences. cbn [netbox_interfaces map_device Device.interfaces Device.name].
  change (netbox_interfaces (map_device p)) with (@nil (string * Interface.Interface)). cbn [flat_map app].
  unfold values. rewrite map_map. induction (live_interfaces l) as [|[k i] d IH]; [done|].
  cbn [flat_map map snd app]. f_equal. exact IH.
Qed.

(** The device of a mapped address is the name of the interface it is assigned to. *)
Lemma address_device_is_interface p :
  IPAddress.device_name (map_ip_address p) = IPAddress.assigned_object_name (map_ip_address p).
Proof. done. Qed.

(** ** The cache *)

Section Cache.
Context {S : Type} `{!Clock S, !HasCache S}.
Implicit Types s : S.

Context (self other : InventoryService S).
Context (Hcache : cache self = InMemoryCache ∧ cache other = InMemoryCache).

(** A synchronization that reads NetBox, because it is forced or nothing is cached,
    answers the mapped inventory and caches it.  Given that its text
    is read back as it was written, while what it stored is not replaced and before
    its time to live is over, a synchronization that is not forced answers the same
    inventory, whatever NetBox would answer by then. *)
Theorem synchronized_inventory_cached force s dataset s1 :
  load other (dump self (to_inventory dataset)) = Ret (to_inventory dataset) →
  force = true ∨ held inventory_key s = None →
  fetch_dataset self s = (Ret dataset, s1) →
  ∃ s2, synchronize self force s = (Ret (to_inventory dataset), s2) ∧
    ∀ s3, NoDup (keys (cache_items s3)) → held inventory_key s3 = held inventory_key s2 →
      instant s3 < instant s1 + cache_ttl_seconds self * 1000000 →
      ∃ s4, synchronize other false s3 = (Ret (to_inventory dataset), s4).
Proof.
  destruct Hcache as [Hc Hc']. intros Hload Hf Hd.
  destruct (cache_set_spec inventory_key (dump self (to_inventory dataset)) (cache_ttl_seconds self) s1)
    as (s2 & Hset & Hheld).
  exists s2. split.
  - assert ((if force then ret None else cache_get (cache self) inventory_key) s = (Ret None, s)) as Hget.
    { destruct Hf as [->|Hn]; [done|]. destruct force; [done|]. rewrite Hc. cbn.
      unfold bind, gets. unfold held in Hn. by rewrite Hn. }
    unfold synchronize. rewrite (bind_Ret _ _ _ _ _ Hget). unfold try_except, refresh.
    rewrite (bind_Ret _ _ _ _ _ Hd), Hc. by rewrite (bind_Ret _ _ _ _ _ Hset).
  - intros s3 Hnd Hh Hlt. rewrite Hheld in Hh.
    destruct (cache_get_spec _ _ _ _ Hnd Hh) as (s4 & Hget & _).
    replace (_ <=? instant s3) with false in Hget by (symmetry; apply Z.leb_gt; lia).
    exists s4. unfold synchronize. rewrite Hc'. rewrite (bind_Ret _ _ _ _ _ Hget). by rewrite Hload.
Qed.
End Cache.

(** ** Instances *)

Section Demo.
Definition demo_response (code : Z) (b : option json) : Response := {|
  status_code := code; retry_after_header := None; api_version_header := Some "4.1"; body := b;
  request_url := "http://netbox/api"; reason_phrase := "" |}.

(** A server that is down for the first request, over a state that counts requests. *)
Definition demo_client : NetBoxClient nat := {|
  retry_policy := default_retry; page_size := 2; expected_version := None;
  send _ _ _ s := (Ret (demo_response (if (s =? 0)%nat then 503 else 200) (Some (JDict []))), Datatypes.S s);
  pause _ := ret tt;
  validate_page _ := raise_ ValidationError ""; response_cache := None;
  encode_json _ := ""; decode_json _ := Ret [] |}.

Lemma request_bounded_witness :
  ∃ r, request demo_client "GET" "/api/status/" None 0%nat = (Ret r, 2%nat) ∧
    transient demo_client r = false ∧ is_error r = false.
Proof.
  assert (counts_requests demo_client id) as H by (split; [done|by eexists]).
  destruct (request demo_client "GET" "/api/status/" None 0%nat) as [o s'] eqn:E.
  destruct (request_bounded demo_client id H "GET" "/api/status/" None 0%nat o s' E) as (n & Hn & Hs & Ho).
  vm_compute in E. injection E as <- <-. destruct Ho as (_ & Ht & He).
  exists (demo_response 200 (Some (JDict []))). split; [vm_compute; reflexivity|]. by split.
Defined.

Definition demo_dataset : Dataset.NetBoxInventoryDataset := {|
  Dataset.sites := [{| SitePayload.name := "North"; SitePayload.slug := "north";
    SitePayload.region := Some {| ref_id := 5; ref_name := None; ref_slug := Some ""; ref_display := None |};
    SitePayload.location := None; SitePayload.facility := None; SitePayload.description := None |}];
  Dataset.racks := []; Dataset.devices := []; Dataset.interfaces := []; Dataset.ip_addresses := [];
  Dataset.vlans := []; Dataset.platforms := []; Dataset.manufacturers := [];
  Dataset.device_types := []; Dataset.roles := [] |}.

Definition demo_sync (fetch : M CacheWorld Dataset.NetBoxInventoryDataset) : InventoryService CacheWorld := {|
  fetch_dataset := fetch; cache := InMemoryCache; cache_ttl_seconds := 300;
  dump _ := "snapshot";
  load t := if t ≟ "snapshot" then Ret (to_inventory demo_dataset) else raise_ ValidationError "" |}.

(** NetBox is gone for the second synchronization. *)
Lemma synchronized_inventory_cached_witness :
  let sync := synchronize (demo_sync (ret demo_dataset)) false in
  let again := synchronize (demo_sync (raise NetBoxTransportError "gone")) false in
  let s2 := (sync {| items := []; flag := false; monotonic := 0 |}).2 in
  (sync {| items := []; flag := false; monotonic := 0 |}).1 = Ret (to_inventory demo_dataset) ∧
  ∃ s4, again s2 = (Ret (to_inventory demo_dataset), s4).
Proof.
  intros sync again s2.
  destruct (synchronized_inventory_cached (demo_sync (ret demo_dataset)) (demo_sync (raise NetBoxTransportError "gone"))
    (conj eq_refl eq_refl) false {| items := []; flag := false; monotonic := 0 |} demo_dataset {| items := []; flag := false; monotonic := 0 |})
    as (s & Hs & Hlater); [vm_compute; reflexivity|by right|reflexivity|].
  subst s2. unfold sync. rewrite Hs. split; [reflexivity|]. cbn [snd]. apply Hlater.
  - injection Hs as <-. vm_compute. repeat constructor. set_solver.
  - reflexivity.
  - injection Hs as <-. vm_compute. reflexivity.
Defined.

(** A corrupt cache entry is not replaced: every synchronization that is not forced
    raises until it expires. *)
Example corrupt_cache_stays :
  let s := {| items := [(inventory_key, ("garbage", None))]; flag := false; monotonic := 0 |} in
  let '(o, s') := synchronize (demo_sync (ret demo_dataset)) false s in
  is_ret o = false ∧ s' = s.
Proof. vm_compute. done. Qed.

(** A status without a version field passes the version check by the header of the
    response, and fails it when it is answered from the cache. *)
Example cached_health_loses_version :
  let client : NetBoxClient CacheWorld := {|
    retry_policy := default_retry; page_size := 2; expected_version := Some "4.1";
    send _ _ _ := ret (demo_response 200 (Some (JDict []))); pause _ := ret tt;
    validate_page _ := raise_ ValidationError ""; response_cache := Some InMemoryCache;
    encode_json _ := "{}"; decode_json _ := Ret [] |} in
  let check := health client (λ _, Ret {| version := None; api_version := None |}) in
  let s := {| items := []; flag := false; monotonic := 0 |} in
  is_ret (check s).1 = true ∧ is_ret (check (check s).2).1 = false.
Proof. vm_compute. done. Qed.

(** Two pages; and a server whose pages link in a circle is read without end. *)
Definition paged_client (last_link : option string) : NetBoxClient nat := {|
  retry_policy := default_retry; page_size := 2; expected_version := None;
  send _ url _ s := (Ret (demo_response 200 (Some (JDict [("count", JInt 3); ("results", JList []); ("url", JStr url)]))), s);
  pause _ := ret tt;
  validate_page d := Ret
    (if (match dict_get "url" d with Some (JStr u) => u ≟ "p2" | _ => false end)
     then {| count := 3; next := last_link; results := [JInt 3] |}
     else {| count := 3; next := Some "p2"; results := [JInt 1; JInt 2] |});
  response_cache := None; encode_json _ := ""; decode_json _ := Ret [] |}.

Example pages_read :
  (list_collection (paged_client None) Ret None 2 "p1" [] 0%nat).1 = Ret (Some [JInt 1; JInt 2; JInt 3]) ∧
  (list_collection (paged_client (Some "p2")) Ret None 50 "p1" [] 0%nat).1 = Ret None.
Proof. vm_compute. done. Qed.
End Demo.
