(* ===== verification/TargetRepository.v ===== *)
(** * Targets and credential profiles ([DiscoveryTargetRepository],
      [CredentialProfileRepository])

    The configuration a discovery starts from.  A target is deleted with the jobs
    that discovered it and with everything these left behind; the database refuses
    to delete a row another row refers to, which is the part of it modelled by the
    [references_*] tests. *)

From S2P Require Import Prelude Vocabulary Effects Json Records Session JobRepository Demo.
From stdpp Require Import sorting.
#[local] Open Scope Z_scope.

(** ** Targets *)

(** The unique constraint [uq_discovery_targets_tenant_identifier]. *)
Definition same_identifier (t u : Target.DiscoveryTargetRecord) : bool :=
  (Target.tenant_id t ≟ Target.tenant_id u) && (Target.identifier t ≟ Target.identifier u).

Definition identifier_taken (t : Target.DiscoveryTargetRecord) (d : DB) : bool :=
  existsb (λ u, same_identifier t u && negb (Target.id u ≟ Target.id t)) (rows (targets d)).

(** [session.add(record); session.flush()]. *)
Definition insert_target (t : Target.DiscoveryTargetRecord) : DbM unit := λ s,
  if is_not_none (targets (view s) !! Target.id t) || identifier_taken t (view s)
  then (raise_ IntegrityError "UNIQUE constraint failed", s)
  else put_target t s.

Definition create_target (tenant_id identifier address scope_type : string)
    (scope_end scope_cidr : option string) (credential_reference : string)
    (credential_profile_id : option string) (credential_references : option dict)
    (allowed_fallback_transports : option (list string))
    (allow_insecure_telnet allow_insecure_http : bool)
    (vendor hostname platform_hint preferred_transport : option string) (enabled : bool)
    (metadata : option dict) (created_by : option UUID)
    : DbM Target.DiscoveryTargetRecord :=
  id <- uuid4 ;;
  created_at <- utc_now ;;
  updated_at <- utc_now ;;
  let record := {|
    Target.id := id; Target.tenant_id := tenant_id; Target.identifier := identifier;
    Target.address := address; Target.scope_type := scope_type; Target.scope_end := scope_end;
    Target.scope_cidr := scope_cidr; Target.vendor := vendor; Target.hostname := hostname;
    Target.platform_hint := platform_hint; Target.preferred_transport := preferred_transport;
    Target.enabled := enabled; Target.credential_reference := credential_reference;
    Target.credential_profile_id := credential_profile_id;
    Target.credential_references := from_option (λ c, c) [] credential_references;
    Target.allowed_fallback_transports := from_option (λ c, c) [] allowed_fallback_transports;
    Target.allow_insecure_telnet := allow_insecure_telnet;
    Target.allow_insecure_http := allow_insecure_http;
    Target.metadata_json := from_option (λ c, c) [] metadata; Target.created_by := created_by;
    Target.created_at := created_at; Target.updated_at := updated_at |} in
  try_except (insert_target record) (λ exc,
    if isinstance exc IntegrityError then
      rollback ;;;
      raise DiscoveryPersistenceError
        "A target with this identifier already exists for the tenant."
    else reraise exc) ;;;
  ret record.

Definition get_tenant_target (tenant_id : string) (target_id : UUID)
    : DbM (option Target.DiscoveryTargetRecord) :=
  query (λ d,
    t ← targets d !! target_id;
    if Target.tenant_id t ≟ tenant_id then Some t else None).

(** [ORDER BY created_at DESC]. *)
Definition created_later (a b : Target.DiscoveryTargetRecord) : Prop :=
  Target.created_at b <= Target.created_at a.
#[export] Instance created_later_dec : RelDecision created_later.
Proof. intros a b. apply Z_le_dec. Defined.
#[export] Instance created_later_total : Total created_later.
Proof. intros a b. unfold created_later. lia. Qed.
#[export] Instance created_later_trans : Transitive created_later.
Proof. intros a b c. unfold created_later. lia. Qed.

Definition list_targets (tenant_id : string) : DbM (list Target.DiscoveryTargetRecord) :=
  query (λ d, merge_sort created_later
    (List.filter (λ t, Target.tenant_id t ≟ tenant_id) (rows (targets d)))).

(** The columns [**changes] may name. *)
Inductive TargetChange :=
  | SetIdentifier (v : string) | SetAddress (v : string) | SetScopeType (v : string)
  | SetScopeEnd (v : option string) | SetScopeCidr (v : option string)
  | SetVendor (v : option string) | SetHostname (v : option string)
  | SetPlatformHint (v : option string) | SetPreferredTransport (v : option string)
  | SetEnabled (v : bool) | SetCredentialReference (v : string)
  | SetCredentialProfileId (v : option string) | SetCredentialReferences (v : dict)
  | SetAllowedFallbackTransports (v : list string)
  | SetAllowInsecureTelnet (v : bool) | SetAllowInsecureHttp (v : bool)
  | SetMetadataJson (v : dict).

(** [setattr(record, key, value)]. *)
Definition set_column (c : TargetChange) : Target.DiscoveryTargetRecord → Target.DiscoveryTargetRecord :=
  match c with
  | SetIdentifier v => Target.set_identifier v | SetAddress v => Target.set_address v
  | SetScopeType v => Target.set_scope_type v | SetScopeEnd v => Target.set_scope_end v
  | SetScopeCidr v => Target.set_scope_cidr v | SetVendor v => Target.set_vendor v
  | SetHostname v => Target.set_hostname v | SetPlatformHint v => Target.set_platform_hint v
  | SetPreferredTransport v => Target.set_preferred_transport v
  | SetEnabled v => Target.set_enabled v
  | SetCredentialReference v => Target.set_credential_reference v
  | SetCredentialProfileId v => Target.set_credential_profile_id v
  | SetCredentialReferences v => Target.set_credential_references v
  | SetAllowedFallbackTransports v => Target.set_allowed_fallback_transports v
  | SetAllowInsecureTelnet v => Target.set_allow_insecure_telnet v
  | SetAllowInsecureHttp v => Target.set_allow_insecure_http v
  | SetMetadataJson v => Target.set_metadata_json v
  end.

Definition set_columns (changes : list TargetChange) (t : Target.DiscoveryTargetRecord)
    : Target.DiscoveryTargetRecord :=
  fold_left (λ t c, set_column c t) changes t.

#[export] Instance target_eq_dec : EqDecision Target.DiscoveryTargetRecord.
Proof. solve_decision. Defined.

(** [flush] after assignments to a loaded row: no statement when nothing changed;
    otherwise an [UPDATE], which also sets the [onupdate] column. *)
Definition flush_target (before after : Target.DiscoveryTargetRecord) : DbM Target.DiscoveryTargetRecord :=
  if after ≟ before then ret before
  else
    now <- utc_now ;;
    let record := Target.set_updated_at now after in
    taken <- query (identifier_taken record) ;;
    if (taken : bool) then raise IntegrityError "UNIQUE constraint failed"
    else put_target record ;;; ret record.

Definition update_target (tenant_id : string) (target_id : UUID) (changes : list TargetChange)
    : DbM Target.DiscoveryTargetRecord :=
  record <- get_tenant_target tenant_id target_id ;;
  match record with
  | None => raise DiscoveryResourceNotFoundError "Discovery target was not found."
  | Some t => flush_target t (set_columns changes t)
  end.

(** ** Deletion *)

(** The rows that do not satisfy the condition of a [DELETE]. *)
Definition delete_where {A} (p : A → bool) (t : gmap UUID A) : gmap UUID A :=
  filter (λ kv, p kv.2 = false) t.

(** Whether a row of another table, or another row, refers to a deleted job. *)
Definition references_jobs (ids : list UUID) (d : DB) : bool :=
  existsb (λ j, negb (mem (Job.id j) ids) && from_option (λ p, mem p ids) false (Job.parent_job_id j))
    (rows (jobs d))
  || existsb (λ r, mem (DeviceResult.discovery_job_id r) ids || mem (DeviceResult.child_job_id r) ids)
    (rows (device_results d))
  || existsb (λ e, mem (Evidence.job_id e) ids) (rows (evidence d)).

Definition references_results (ids : list UUID) (d : DB) : bool :=
  existsb (λ a, mem (Attempt.device_result_id a) ids) (rows (attempts d)).

Definition foreign_key_failed {A} : DbM A := raise IntegrityError "FOREIGN KEY constraint failed".

Definition delete_attempts (result_ids : list UUID) : DbM unit :=
  on_view (λ d, set_attempts
    (delete_where (λ a, mem (Attempt.device_result_id a) result_ids) (attempts d)) d).

Definition delete_results (ids : list UUID) : DbM unit :=
  referred <- query (references_results ids) ;;
  if (referred : bool) then foreign_key_failed
  else on_view (λ d, set_device_results
    (delete_where (λ r, mem (DeviceResult.id r) ids) (device_results d)) d).

Definition delete_evidence (where_ : Evidence.DiscoveryEvidenceRecord → bool) : DbM unit :=
  on_view (λ d, set_evidence (delete_where where_ (evidence d)) d).

Definition delete_jobs (ids : list UUID) : DbM unit :=
  referred <- query (references_jobs ids) ;;
  if (referred : bool) then foreign_key_failed
  else modify (λ s,
    set_locked (locked s ∪ list_to_set ids)
      (set_view (set_jobs (delete_where (λ j, mem (Job.id j) ids) (jobs (view s))) (view s)) s)).

(** [session.delete(record); session.flush()]: the jobs that still refer to the
    target would get no target, which their column does not allow, and evidence
    refuses any update ([_prevent_history_mutation]). *)
Definition delete_target_row (target_id : UUID) : DbM unit :=
  jobs_left <- query (λ d, existsb (λ j, Job.target_id j ≟ target_id) (rows (jobs d))) ;;
  evidence_left <- query (λ d,
    existsb (λ e, Evidence.target_id e ≟ target_id) (rows (evidence d))) ;;
  if (jobs_left : bool) then raise IntegrityError "NOT NULL constraint failed"
  else if (evidence_left : bool)
  then raise RuntimeError "Immutable history records cannot be updated or deleted."
  else on_view (λ d, set_targets (delete target_id (targets d)) d).

(** The rows that depend on the jobs of the target. *)
Definition delete_dependents (target_id : UUID) (job_ids device_result_ids : list UUID) : DbM unit :=
  when (negb (is_nil device_result_ids))
    (delete_attempts device_result_ids ;;; delete_results device_result_ids) ;;;
  delete_evidence (λ e, (Evidence.target_id e ≟ target_id) || mem (Evidence.job_id e) job_ids).

Definition delete_target (tenant_id : string) (target_id : UUID) : DbM bool :=
  record <- get_tenant_target tenant_id target_id ;;
  match record with
  | None => ret false
  | Some t =>
      job_ids <- query (λ d, matching (λ j,
        (Job.tenant_id j ≟ tenant_id) && (Job.target_id j ≟ target_id)) (jobs d)) ;;
      (if negb (is_nil job_ids) then
        device_result_ids <- query (λ d, matching (λ r,
          mem (DeviceResult.discovery_job_id r) job_ids
          || mem (DeviceResult.child_job_id r) job_ids) (device_results d)) ;;
        delete_dependents target_id job_ids device_result_ids ;;;
        delete_jobs job_ids
      else
        delete_evidence (λ e, Evidence.target_id e ≟ target_id)) ;;;
      delete_target_row target_id ;;;
      ret true
  end.

(** ** Credential profiles *)

Definition put_profile (p : Profile.CredentialProfileRecord) : DbM unit :=
  on_view (λ d, set_profiles (<[Profile.id p := p]> (profiles d)) d).

Definition create_profile (tenant_id name provider_reference : string)
    (transport_types : list string)
    (description vendor platform credential_type username : option string)
    : DbM Profile.CredentialProfileRecord :=
  id <- uuid4 ;;
  created_at <- utc_now ;;
  updated_at <- utc_now ;;
  let record := {|
    Profile.id := id; Profile.tenant_id := tenant_id; Profile.name := name;
    Profile.description := description; Profile.vendor := vendor; Profile.platform := platform;
    Profile.credential_type := credential_type; Profile.username := username;
    Profile.transport_types := Some transport_types; Profile.provider_reference := provider_reference;
    Profile.secret_status := "configured"; Profile.enabled := true;
    Profile.created_at := created_at; Profile.updated_at := updated_at |} in
  put_profile record ;;;
  ret record.

Definition get_profile (tenant_id : string) (profile_id : UUID)
    : DbM (option Profile.CredentialProfileRecord) :=
  query (λ d,
    p ← profiles d !! profile_id;
    if Profile.tenant_id p ≟ tenant_id then Some p else None).

(** Iterating over the transports of a profile. *)
Definition iterate_transports (p : Profile.CredentialProfileRecord) : DbM (list string) :=
  match Profile.transport_types p with
  | Some types => ret types
  | None => raise TypeError "'NoneType' object is not iterable"
  end.

(** The columns [**changes] may name; [None] is null, which the description, the
    vendor, the platform, the credential type, the user name and the JSON column allow. *)
Inductive ProfileChange :=
  | ProfileName (v : option string) | ProfileDescription (v : option string)
  | ProfileVendor (v : option string) | ProfilePlatform (v : option string)
  | ProfileCredentialType (v : option string) | ProfileUsername (v : option string)
  | ProfileTransportTypes (v : option (list string)) | ProfileProviderReference (v : option string)
  | ProfileSecretStatus (v : option string) | ProfileEnabled (v : option bool).

Definition null_refused (c : ProfileChange) : bool :=
  match c with
  | ProfileName None | ProfileProviderReference None | ProfileSecretStatus None | ProfileEnabled None => true
  | _ => false
  end.

Definition set_profile_column (c : ProfileChange)
    : Profile.CredentialProfileRecord → Profile.CredentialProfileRecord :=
  match c with
  | ProfileName v => from_option Profile.set_name id v
  | ProfileDescription v => Profile.set_description v
  | ProfileVendor v => Profile.set_vendor v | ProfilePlatform v => Profile.set_platform v
  | ProfileCredentialType v => Profile.set_credential_type v
  | ProfileUsername v => Profile.set_username v
  | ProfileTransportTypes v => Profile.set_transport_types v
  | ProfileProviderReference v => from_option Profile.set_provider_reference id v
  | ProfileSecretStatus v => from_option Profile.set_secret_status id v
  | ProfileEnabled v => from_option Profile.set_enabled id v
  end.

#[export] Instance profile_eq_dec : EqDecision Profile.CredentialProfileRecord.
Proof. solve_decision. Defined.

Definition update_profile (tenant_id : string) (profile_id : UUID) (changes : list ProfileChange)
    : DbM Profile.CredentialProfileRecord :=
  record <- get_profile tenant_id profile_id ;;
  match record with
  | None => raise DiscoveryResourceNotFoundError "Credential profile was not found."
  | Some p =>
      let p' := fold_left (λ p c, set_profile_column c p) changes p in
      if existsb null_refused changes then raise IntegrityError "NOT NULL constraint failed"
      else if p' ≟ p then ret p
      else
        now <- utc_now ;;
        put_profile (Profile.set_updated_at now p') ;;;
        ret (Profile.set_updated_at now p')
  end.

Definition delete_profile (tenant_id : string) (profile_id : UUID) : DbM bool :=
  record <- get_profile tenant_id profile_id ;;
  match record with
  | None => ret false
  | Some _ =>
      on_view (λ d, set_profiles (delete profile_id (profiles d)) d) ;;;
      ret true
  end.

(** [ORDER BY name ASC]. *)
Definition name_before (a b : Profile.CredentialProfileRecord) : Prop :=
  String.le (Profile.name a) (Profile.name b).
#[export] Instance name_before_dec : RelDecision name_before.
Proof. intros a b. unfold name_before. apply _. Defined.

Definition list_profiles (tenant_id : string) : DbM (list Profile.CredentialProfileRecord) :=
  query (λ d, merge_sort name_before
    (List.filter (λ p, (Profile.tenant_id p ≟ tenant_id) && Profile.enabled p)
      (rows (profiles d)))).

(** ** What deletion leaves *)

(** Every row refers to rows that exist, of the same tenant and target. *)
Record refs_ok (d : DB) : Prop := {
  target_keys : ∀ k t, targets d !! k = Some t → Target.id t = k;
  job_keys : ∀ k j, jobs d !! k = Some j → Job.id j = k;
  result_keys : ∀ k r, device_results d !! k = Some r → DeviceResult.id r = k;
  job_target : ∀ k j, jobs d !! k = Some j →
    ∃ t, targets d !! Job.target_id j = Some t ∧ Target.tenant_id t = Job.tenant_id j;
  job_parent : ∀ k j p, jobs d !! k = Some j → Job.parent_job_id j = Some p →
    is_Some (jobs d !! p);
  result_jobs : ∀ k r, device_results d !! k = Some r →
    is_Some (jobs d !! DeviceResult.discovery_job_id r) ∧
    is_Some (jobs d !! DeviceResult.child_job_id r);
  attempt_result : ∀ k a, attempts d !! k = Some a →
    is_Some (device_results d !! Attempt.device_result_id a);
  evidence_job : ∀ k e, evidence d !! k = Some e →
    is_Some (targets d !! Evidence.target_id e) ∧
    ∃ j, jobs d !! Evidence.job_id e = Some j ∧ Job.target_id j = Evidence.target_id e;
}.

(** The tables without a target, its jobs and all they left behind. *)
Section Without.
Context (target_id : UUID) (d : DB).

Definition is_target_job (k : UUID) : bool :=
  from_option (λ j, Job.target_id j ≟ target_id) false (jobs d !! k).

Definition is_target_result (r : DeviceResult.DiscoveryDeviceResultRecord) : bool :=
  is_target_job (DeviceResult.discovery_job_id r) || is_target_job (DeviceResult.child_job_id r).

Definition without_target : DB := {|
  targets := delete target_id (targets d);
  profiles := profiles d;
  runs := runs d;
  jobs := delete_where (λ j, Job.target_id j ≟ target_id) (jobs d);
  device_results := delete_where is_target_result (device_results d);
  attempts := delete_where (λ a, from_option is_target_result false
    (device_results d !! Attempt.device_result_id a)) (attempts d);
  evidence := delete_where (λ e, Evidence.target_id e ≟ target_id) (evidence d) |}.

(** Whether a job of another target is a child of one of its jobs. *)
Definition has_foreign_children : bool :=
  existsb (λ j, negb (Job.target_id j ≟ target_id)
    && from_option is_target_job false (Job.parent_job_id j)) (rows (jobs d)).
End Without.

(** *** Rows and conditions *)

Lemma lookup_delete_where {A} (p : A → bool) (t : gmap UUID A) k :
  delete_where p t !! k = (r ← t !! k; if p r then None else Some r).
Proof.
  unfold delete_where. rewrite map_lookup_filter. destruct (t !! k) as [r|]; cbn; [|done].
  case_guard as G; cbn in G |- *; by destruct (p r).
Qed.

Lemma delete_where_Some {A} (p : A → bool) (t : gmap UUID A) k r :
  delete_where p t !! k = Some r ↔ t !! k = Some r ∧ p r = false.
Proof.
  rewrite lookup_delete_where. destruct (t !! k) as [r'|]; cbn; [|naive_solver].
  destruct (p r') eqn:E.
  - split; [done|]. intros [[= ->] ?]. congruence.
  - split; [by intros [= ->]|by intros [[= ->] _]].
Qed.

Lemma delete_where_ext {A} (p q : A → bool) (t : gmap UUID A) :
  (∀ k r, t !! k = Some r → p r = q r) → delete_where p t = delete_where q t.
Proof.
  intros H. apply map_eq. intros k. rewrite !lookup_delete_where.
  destruct (t !! k) eqn:E; cbn; [|done]. by rewrite (H k).
Qed.

Lemma delete_where_none {A} (p : A → bool) (t : gmap UUID A) :
  (∀ k r, t !! k = Some r → p r = false) → delete_where p t = t.
Proof.
  intros H. apply map_eq. intros k. rewrite lookup_delete_where.
  destruct (t !! k) eqn:E; cbn; [|done]. by rewrite (H k).
Qed.

Lemma elem_of_rows {A} (t : gmap UUID A) r : r ∈ rows t ↔ ∃ k, t !! k = Some r.
Proof.
  unfold rows. rewrite list_elem_of_fmap. setoid_rewrite <-elem_of_map_to_list. split.
  - by intros ([k r'] & -> & ?); exists k.
  - intros [k ?]. by exists (k, r).
Qed.

Lemma existsb_rows {A} (p : A → bool) (t : gmap UUID A) :
  existsb p (rows t) = true ↔ ∃ k r, t !! k = Some r ∧ p r = true.
Proof.
  rewrite existsb_exists. setoid_rewrite <-list_elem_of_In. setoid_rewrite elem_of_rows.
  naive_solver.
Qed.

Lemma existsb_rows_false {A} (p : A → bool) (t : gmap UUID A) :
  (∀ k r, t !! k = Some r → p r = false) → existsb p (rows t) = false.
Proof.
  intros H. apply not_true_iff_false. rewrite existsb_rows. intros (k & r & Hr & Hp).
  by rewrite (H k) in Hp.
Qed.

(** *** The statements of a deletion *)

Section Delete.
Context (tenant_id : string) (target_id : UUID) (d : DB) (t : Target.DiscoveryTargetRecord).
Hypothesis Hok : refs_ok d.
Hypothesis Ht : targets d !! target_id = Some t.
Hypothesis Htenant : Target.tenant_id t = tenant_id.

Let job_ids : list UUID := matching (λ j,
  (Job.tenant_id j ≟ tenant_id) && (Job.target_id j ≟ target_id)) (jobs d).

Let result_ids : list UUID := matching (λ r,
  mem (DeviceResult.discovery_job_id r) job_ids || mem (DeviceResult.child_job_id r) job_ids)
  (device_results d).

Lemma is_target_job_row k j :
  jobs d !! k = Some j → is_target_job target_id d k = (Job.target_id j ≟ target_id).
Proof. unfold is_target_job. by intros ->. Qed.

Lemma mem_job_ids k : mem k job_ids = is_target_job target_id d k.
Proof using Hok Ht Htenant.
  apply Bool.eq_iff_eq_true. rewrite mem_true. unfold job_ids, is_target_job.
  rewrite elem_of_matching. split.
  - intros (j & Hj & Hw). rewrite Hj. cbn. by apply andb_true_iff in Hw as [_ ?].
  - destruct (jobs d !! k) as [j|] eqn:Hj; cbn; [|done]. intros Hw. exists j. split; [done|].
    rewrite Hw, andb_true_r. rewrite eqb_true in Hw.
    destruct (job_target _ Hok k j Hj) as (t' & Ht' & <-). apply eqb_true. congruence.
Qed.

Lemma mem_result_ids k :
  mem k result_ids = from_option (is_target_result target_id d) false (device_results d !! k).
Proof using Hok Ht Htenant.
  apply Bool.eq_iff_eq_true. rewrite mem_true. unfold result_ids, is_target_result.
  rewrite elem_of_matching. destruct (device_results d !! k) as [r|]; cbn; [|naive_solver].
  rewrite <-!mem_job_ids. split; [|by exists r]. by intros (? & [= <-] & ?).
Qed.

(** The conditions of the statements, said of the rows. *)
Lemma attempts_deleted :
  delete_where (λ a, mem (Attempt.device_result_id a) result_ids) (attempts d) =
  attempts (without_target target_id d).
Proof using Hok Ht Htenant. apply delete_where_ext. intros k a _. apply mem_result_ids. Qed.

Lemma results_deleted :
  delete_where (λ r, mem (DeviceResult.id r) result_ids) (device_results d) =
  device_results (without_target target_id d).
Proof using Hok Ht Htenant.
  apply delete_where_ext. intros k r Hr. by rewrite mem_result_ids, (result_keys _ Hok k r Hr), Hr.
Qed.

Lemma evidence_deleted :
  delete_where (λ e, (Evidence.target_id e ≟ target_id) || mem (Evidence.job_id e) job_ids)
    (evidence d) = evidence (without_target target_id d).
Proof using Hok Ht Htenant.
  apply delete_where_ext. intros k e He. rewrite mem_job_ids. unfold is_target_job.
  destruct (evidence_job _ Hok k e He) as (_ & j & -> & <-). cbn. apply orb_diag.
Qed.

Lemma jobs_deleted :
  delete_where (λ j, mem (Job.id j) job_ids) (jobs d) = jobs (without_target target_id d).
Proof using Hok Ht Htenant.
  apply delete_where_ext. intros k j Hj. rewrite mem_job_ids. unfold is_target_job.
  by rewrite (job_keys _ Hok k j Hj), Hj.
Qed.

Lemma no_result_refers d' :
  attempts d' = attempts (without_target target_id d) → references_results result_ids d' = false.
Proof using Hok Ht Htenant.
  intros Ha. unfold references_results. rewrite Ha. apply existsb_rows_false. intros k a.
  cbn. rewrite delete_where_Some, mem_result_ids. tauto.
Qed.

Lemma children_refer d' :
  jobs d' = jobs d → device_results d' = device_results (without_target target_id d) →
  evidence d' = evidence (without_target target_id d) →
  references_jobs job_ids d' = has_foreign_children target_id d.
Proof using Hok Ht Htenant.
  intros Hj Hr He. unfold references_jobs. rewrite Hj, Hr, He.
  assert (∀ o, from_option (λ p, mem p job_ids) false o
    = from_option (is_target_job target_id d) false o) as Ho
    by (intros []; [apply mem_job_ids|done]).
  rewrite (existsb_rows_false (λ e, mem (Evidence.job_id e) _)), orb_false_r;
    [rewrite (existsb_rows_false (λ r, mem (DeviceResult.discovery_job_id r) _ || _)), orb_false_r|].
  - unfold has_foreign_children. apply Bool.eq_iff_eq_true. rewrite !existsb_rows.
    split; intros (k & j & Hk & Hp); exists k, j; (split; [done|]); revert Hp;
      rewrite Ho, mem_job_ids, (job_keys _ Hok k j Hk), (is_target_job_row k j Hk); done.
  - intros k r. cbn. rewrite delete_where_Some, !mem_job_ids. by intros [_ Hf].
  - intros k e. cbn. rewrite delete_where_Some, mem_job_ids. unfold is_target_job.
    intros [He' Hne]. destruct (evidence_job _ Hok k e He') as (_ & j & -> & Hj').
    cbn. by rewrite Hj'.
Qed.

Lemma nothing_left d' :
  jobs d' = jobs (without_target target_id d) → evidence d' = evidence (without_target target_id d) →
  existsb (λ j, Job.target_id j ≟ target_id) (rows (jobs d')) = false ∧
  existsb (λ e, Evidence.target_id e ≟ target_id) (rows (evidence d')) = false.
Proof.
  intros -> ->. split; apply existsb_rows_false; intros k r; cbn;
    rewrite delete_where_Some; tauto.
Qed.

Lemma no_jobs_same :
  job_ids = [] →
  set_targets (delete target_id (targets d))
    (set_evidence (evidence (without_target target_id d)) d) = without_target target_id d.
Proof using Hok Ht Htenant.
  intros Hnil. assert (∀ k, is_target_job target_id d k = false) as Hno.
  { intros k. rewrite <-mem_job_ids, Hnil. by apply mem_false, not_elem_of_nil. }
  assert (∀ r, is_target_result target_id d r = false) as Hnr
    by (intros r; unfold is_target_result; by rewrite !Hno).
  unfold without_target. cbn. unfold set_targets, set_evidence. cbn. f_equal.
  - symmetry. apply delete_where_none. intros k j Hk. specialize (Hno k).
    unfold is_target_job in Hno. by rewrite Hk in Hno.
  - symmetry. by apply delete_where_none.
  - symmetry. apply delete_where_none. intros k a _. by destruct (device_results d !! _); cbn.
Qed.

Lemma foreign_children_need_jobs : job_ids = [] → has_foreign_children target_id d = false.
Proof using Hok Ht Htenant.
  intros Hnil. apply existsb_rows_false. intros k j _. destruct (Job.parent_job_id j); cbn;
    [|by rewrite andb_false_r].
  rewrite <-mem_job_ids, Hnil. rewrite (proj2 (mem_false _ _)); [apply andb_false_r|].
  apply not_elem_of_nil.
Qed.

Lemma delete_target_row_run s :
  jobs (view s) = jobs (without_target target_id d) →
  evidence (view s) = evidence (without_target target_id d) →
  delete_target_row target_id s
  = (Ret tt, set_view (set_targets (delete target_id (targets (view s))) (view s)) s).
Proof.
  intros Hj He. destruct (nothing_left (view s) Hj He) as [H1 H2].
  unfold delete_target_row. rewrite (bind_Ret _ _ _ false s), (bind_Ret _ _ _ false s);
    unfold query, gets; by rewrite ?H1, ?H2.
Qed.

Lemma get_tenant_target_run s :
  view s = d → get_tenant_target tenant_id target_id s = (Ret (Some t), s).
Proof using Ht Htenant.
  intros Hs. unfold get_tenant_target, query, gets. rewrite Hs, Ht. cbn.
  by rewrite (proj2 (eqb_true _ _) Htenant).
Qed.

Lemma no_results_same :
  result_ids = [] →
  device_results (without_target target_id d) = device_results d ∧
  attempts (without_target target_id d) = attempts d.
Proof using Hok Ht Htenant.
  intros Hnil. rewrite <-results_deleted, <-attempts_deleted, Hnil.
  split; apply delete_where_none; intros; apply mem_false, not_elem_of_nil.
Qed.

Lemma delete_dependents_run s :
  view s = d →
  ∃ s', delete_dependents target_id job_ids result_ids s = (Ret tt, s') ∧ committed s' = committed s ∧
    view s' = set_jobs (jobs d) (set_targets (targets d) (without_target target_id d)).
Proof using Hok Ht Htenant.
  intros Hs. unfold delete_dependents. destruct (is_nil result_ids) eqn:Hnil; cbn [negb when].
  - destruct no_results_same as [Hr Ha]; [by destruct result_ids|].
    eexists. split; [reflexivity|]. cbn. split; [done|]. rewrite Hs, evidence_deleted.
    unfold set_jobs, set_targets, set_evidence, without_target in *. cbn in *.
    by rewrite Hr, Ha.
  - set (s1 := set_view (set_attempts (attempts (without_target target_id d)) d) s).
    assert (delete_attempts result_ids s = (Ret tt, s1)) as H1
      by (unfold delete_attempts, on_view, modify; by rewrite Hs, attempts_deleted).
    set (s2 := set_view (set_device_results
      (device_results (without_target target_id d)) (view s1)) s1).
    assert (delete_results result_ids s1 = (Ret tt, s2)) as H2.
    { unfold delete_results. rewrite (bind_Ret _ _ _ false s1);
        [|unfold query, gets; by rewrite no_result_refers].
      unfold on_view, modify. change (device_results (view s1)) with (device_results d).
      by rewrite results_deleted. }
    eexists. rewrite (bind_Ret _ _ _ tt s2); [|by rewrite (bind_Ret _ _ _ _ _ H1)].
    split; [reflexivity|]. cbn. split; [done|]. by rewrite evidence_deleted.
Qed.

Lemma delete_jobs_run s :
  view s = set_jobs (jobs d) (set_targets (targets d) (without_target target_id d)) →
  if has_foreign_children target_id d
  then delete_jobs job_ids s = (raise_ IntegrityError "FOREIGN KEY constraint failed", s)
  else ∃ s', delete_jobs job_ids s = (Ret tt, s') ∧ committed s' = committed s ∧
    view s' = set_targets (targets d) (without_target target_id d).
Proof using Hok Ht Htenant.
  intros Hs. unfold delete_jobs.
  rewrite (bind_Ret _ _ _ (has_foreign_children target_id d) s);
    [|unfold query, gets; rewrite Hs; by rewrite children_refer].
  destruct (has_foreign_children target_id d); [done|].
  eexists. split; [reflexivity|]. cbn. split; [done|]. rewrite Hs. cbn.
  by rewrite jobs_deleted.
Qed.

(** The deletion, statement by statement. *)
Lemma delete_target_run s :
  view s = d →
  if has_foreign_children target_id d
  then ∃ s', delete_target tenant_id target_id s
               = (raise_ IntegrityError "FOREIGN KEY constraint failed", s') ∧
             committed s' = committed s
  else ∃ s', delete_target tenant_id target_id s = (Ret true, s') ∧
             view s' = without_target target_id d ∧ committed s' = committed s.
Proof using Hok Ht Htenant.
  intros Hs. unfold delete_target. rewrite (bind_Ret _ _ _ _ _ (get_tenant_target_run s Hs)).
  rewrite (bind_Ret _ _ _ job_ids s) by (unfold query, gets; by rewrite Hs).
  destruct (is_nil job_ids) eqn:Hnil; cbn [negb].
  - assert (job_ids = []) as Hj by (by destruct job_ids).
    rewrite (foreign_children_need_jobs Hj). pose proof (no_jobs_same Hj) as Hsame.
    set (s1 := set_view (set_evidence (evidence (without_target target_id d)) d) s).
    rewrite (bind_Ret _ _ _ tt s1) by (unfold delete_evidence, on_view, modify; by rewrite Hs).
    rewrite (bind_Ret _ _ _ _ _ (delete_target_row_run s1 (f_equal jobs Hsame) eq_refl)).
    eexists. split; [reflexivity|]. by split; [exact Hsame|].
  - destruct (delete_dependents_run s Hs) as (s1 & H1 & Hc1 & Hv1).
    pose proof (delete_jobs_run s1 Hv1) as H2. revert H2.
    assert (matching (λ r, mem (DeviceResult.discovery_job_id r) job_ids
      || mem (DeviceResult.child_job_id r) job_ids) (device_results (view s)) = result_ids) as Hr
      by (by rewrite Hs).
    destruct (has_foreign_children target_id d); [intros H2|intros (s2 & H2 & Hc2 & Hv2)].
    + eexists. rewrite (bind_Raise _ _ _ (Exn IntegrityError "FOREIGN KEY constraint failed") s1);
        [split; [reflexivity|done]|].
      rewrite (bind_Ret _ _ _ result_ids s) by (unfold query, gets; by rewrite Hr).
      by rewrite (bind_Ret _ _ _ _ _ H1).
    + rewrite (bind_Ret _ _ _ tt s2).
      * rewrite (bind_Ret _ _ _ _ _ (delete_target_row_run s2 (f_equal jobs Hv2) (f_equal evidence Hv2))).
        eexists. split; [reflexivity|]. cbn. rewrite Hv2. split; [|congruence]. done.
      * rewrite (bind_Ret _ _ _ result_ids s) by (unfold query, gets; by rewrite Hr).
        by rewrite (bind_Ret _ _ _ _ _ H1).
Qed.
End Delete.

Lemma without_target_refs_ok target_id d :
  refs_ok d → has_foreign_children target_id d = false → refs_ok (without_target target_id d).
Proof.
  intros Hok Hno. unfold has_foreign_children in Hno.
  assert (∀ k, is_target_job target_id d k = false → is_Some (jobs d !! k) →
    is_Some (jobs (without_target target_id d) !! k)) as Hkeep.
  { intros k Hk [j Hj]. exists j. cbn. rewrite delete_where_Some. split; [done|].
    by rewrite <-(is_target_job_row _ d k). }
  split; cbn; intros k r; rewrite ?delete_where_Some.
  - intros [_ Hr]%lookup_delete_Some. by apply Hok.
  - intros [Hr _]. by apply Hok.
  - intros [Hr _]. by apply Hok.
  - intros [Hr Hne]. destruct (job_target _ Hok k r Hr) as (t & Ht & Hten). exists t.
    rewrite lookup_delete_ne; [done|]. apply eqb_false in Hne. congruence.
  - intros p [Hr Hne]%delete_where_Some Hp. apply Hkeep; [|by eapply Hok].
    apply not_true_iff_false. intros Hj. apply not_true_iff_false in Hno. apply Hno.
    apply existsb_rows. exists k, r. split; [done|]. by rewrite Hne, Hp.
  - intros [Hr Hn]. unfold is_target_result in Hn. apply orb_false_iff in Hn as [H1 H2].
    destruct (result_jobs _ Hok k r Hr). auto.
  - intros [Hr Hn]. destruct (attempt_result _ Hok k r Hr) as [x Hx]. exists x.
    rewrite delete_where_Some. by rewrite Hx in Hn.
  - intros [Hr Hne]. destruct (evidence_job _ Hok k r Hr) as (Ht & j & Hj & Hjt).
    apply eqb_false in Hne. rewrite lookup_delete_ne by congruence. split; [done|].
    exists j. rewrite delete_where_Some. repeat split; [done| |done]. by apply eqb_false; rewrite Hjt.
Qed.

(** C34. Deleting a target of the tenant, in tables whose references are sound, removes
    it with its jobs, the results of these jobs, their attempts and the evidence, and
    nothing else; what is left is sound.  It fails, and commits nothing, exactly when
    a job of another target is the child of one of its jobs: a scope that was fanned
    out cannot be deleted. *)
Theorem delete_target_complete tenant_id target_id t s
    (Hok : refs_ok (view s)) (Ht : targets (view s) !! target_id = Some t)
    (Htenant : Target.tenant_id t = tenant_id) :
  ∃ o s', delete_target tenant_id target_id s = (o, s') ∧ committed s' = committed s ∧
    if has_foreign_children target_id (view s)
    then ∃ msg, o = raise_ IntegrityError msg
    else o = Ret true ∧ view s' = without_target target_id (view s) ∧ refs_ok (view s').
Proof.
  pose proof (delete_target_run tenant_id target_id (view s) t Hok Ht Htenant s eq_refl) as H.
  destruct (has_foreign_children target_id (view s)) eqn:Hf.
  - destruct H as (s' & Hd & Hc). eexists _, s'. split; [exact Hd|]. eauto.
  - destruct H as (s' & Hd & Hv & Hc). eexists _, s'. split; [exact Hd|].
    split; [done|]. rewrite Hv. eauto using without_target_refs_ok.
Qed.

(** The scope target 11 with its job 1, the target 12 of the child job 2, and the
    evidence and the result of that child. *)
Definition child_target : Target.DiscoveryTargetRecord := {|
  Target.id := 12%N; Target.tenant_id := "acme"; Target.identifier := "lab:10.0.0.1";
  Target.address := "10.0.0.1"; Target.scope_type := "single_device";
  Target.scope_end := None; Target.scope_cidr := None;
  Target.vendor := None; Target.hostname := None; Target.platform_hint := None;
  Target.preferred_transport := None; Target.enabled := true;
  Target.credential_reference := "vault:lab"; Target.credential_profile_id := None;
  Target.credential_references := []; Target.allowed_fallback_transports := [];
  Target.allow_insecure_telnet := false; Target.allow_insecure_http := false;
  Target.metadata_json := []; Target.created_by := None; Target.created_at := 0;
  Target.updated_at := 0 |}.

Definition child_result : DeviceResult.DiscoveryDeviceResultRecord := {|
  DeviceResult.id := 70%N; DeviceResult.tenant_id := "acme"; DeviceResult.discovery_job_id := 1%N;
  DeviceResult.child_job_id := 2%N; DeviceResult.address := "10.0.0.1";
  DeviceResult.hostname := None; DeviceResult.vendor := None; DeviceResult.platform := None;
  DeviceResult.state := "queued"; DeviceResult.result_state := None;
  DeviceResult.selected_transport := None; DeviceResult.failure_code := None;
  DeviceResult.failure_message := None; DeviceResult.started_at := None;
  DeviceResult.completed_at := None; DeviceResult.correlation_id := None |}.

Definition fanout_db : DB :=
  set_targets {[11%N := scope_target; 12%N := child_target]}
    (set_device_results {[70%N := child_result]}
      (set_jobs (job_table [queued_job 1 11 None; queued_job 2 12 (Some 1%N)]) empty_db)).

Ltac solve_small_lookup :=
  repeat match goal with
  | H : job_table _ !! _ = Some _ |- _ => cbn in H
  | H : <[_ := _]> _ !! _ = Some _ |- _ => apply lookup_insert_Some in H
  | H : singletonM _ _ !! _ = Some _ |- _ => apply lookup_singleton_Some in H
  | H : empty !! _ = Some _ |- _ => by rewrite lookup_empty in H
  | H : _ ∧ _ |- _ => destruct H
  | H : _ ∨ _ |- _ => destruct H
  end; subst.

Lemma fanout_db_refs_ok : refs_ok fanout_db.
Proof.
  split; cbn; intros; solve_small_lookup; cbn in *; simplify_eq; try done;
    try (eexists; split; [reflexivity|done]); try (split; eexists; reflexivity);
    try (eexists; reflexivity).
Qed.

Lemma delete_target_complete_witness :
  refs_ok (view (open_session fanout_db [])) ∧
  (∃ s', delete_target "acme" 12 (open_session fanout_db []) = (Ret true, s')) ∧
  (delete_target "acme" 11 (open_session fanout_db [])).1
    = raise_ IntegrityError "FOREIGN KEY constraint failed".
Proof.
  split; [exact fanout_db_refs_ok|]. split; [|vm_compute; reflexivity].
  destruct (delete_target_complete "acme" 12 child_target (open_session fanout_db [])
    fanout_db_refs_ok eq_refl eq_refl) as (o & s' & Hd & _ & H).
  assert (has_foreign_children 12 (view (open_session fanout_db [])) = false) as Hf
    by (vm_compute; reflexivity).
  rewrite Hf in H. destruct H as [-> _]. by exists s'.
Defined.

(** A scope that was fanned out cannot be deleted. *)
Example fanned_out_target_stays :
  has_foreign_children 11 fanout_db = true.
Proof. vm_compute. reflexivity. Qed.

(** ** Identifiers stay unique *)

Definition identifiers_unique (d : DB) : Prop :=
  (∀ k t, targets d !! k = Some t → Target.id t = k) ∧
  ∀ k1 k2 t1 t2, targets d !! k1 = Some t1 → targets d !! k2 = Some t2 →
    same_identifier t1 t2 = true → k1 = k2.

Lemma same_identifier_sym t u : same_identifier t u = same_identifier u t.
Proof.
  unfold same_identifier. apply Bool.eq_iff_eq_true. rewrite !andb_true_iff, !eqb_true.
  naive_solver.
Qed.

Lemma put_target_unique d r :
  identifiers_unique d → identifier_taken r d = false →
  identifiers_unique (set_targets (<[Target.id r := r]> (targets d)) d).
Proof.
  intros [Hid Hu] Hnew.
  assert (∀ k t, targets d !! k = Some t → k ≠ Target.id r → same_identifier r t = false) as Hfree.
  { intros k t Ht Hne. apply not_true_iff_false. intros Hsame.
    apply not_true_iff_false in Hnew. apply Hnew. apply existsb_rows. exists k, t.
    split; [done|]. rewrite Hsame. apply negb_true_iff, eqb_false. by rewrite (Hid k t Ht). }
  split; cbn.
  - intros k t [[<- <-]|[_ Ht]]%lookup_insert_Some; [done|by apply Hid].
  - intros k1 k2 t1 t2 [[<- <-]|[Hn1 H1]]%lookup_insert_Some [[<- <-]|[Hn2 H2]]%lookup_insert_Some Hs.
    + done.
    + by rewrite (Hfree k2 t2) in Hs.
    + by rewrite same_identifier_sym, (Hfree k1 t1) in Hs.
    + eauto.
Qed.

Lemma update_target_unique tenant_id target_id changes s o s' :
  identifiers_unique (view s) → update_target tenant_id target_id changes s = (o, s') →
  identifiers_unique (view s').
Proof.
  intros Hu. unfold update_target, get_tenant_target, query, gets, bind at 1.
  destruct (targets (view s) !! target_id) as [t|]; cbn; [|by intros [= _ <-]].
  destruct (Target.tenant_id t ≟ tenant_id); [|by intros [= _ <-]].
  unfold flush_target. destruct (_ ≟ _); [by intros [= _ <-]|].
  unfold bind at 1. cbn. unfold bind at 1, query, gets. cbn.
  destruct (identifier_taken _ _) eqn:E; intros [= _ <-]; [done|].
  exact (put_target_unique _ _ Hu E).
Qed.
