(* ===== verification/JobQueries.v ===== *)
(** * Queries over jobs and evidence ([list_page], [list_for_job])

    The filtered, sorted and paged listing of jobs, and the evidence of a job.
    [LIKE] and the order of rows are the database's: patterns have the wildcards
    percent and underscore and the escape of PostgreSQL; texts are ordered by a
    collation, which is a parameter. *)

From S2P Require Import Prelude Vocabulary Effects Json Records Session JobRepository Demo.
From stdpp Require Import sorting.
#[local] Open Scope Z_scope.

(** ** [LIKE] *)

Fixpoint like (pattern s : string) : bool :=
  match pattern with
  | EmptyString => negb (str_truthy s)
  | String p rest =>
      if p ≟ "%"%char then
        (fix any s := like rest s || match s with String _ s' => any s' | EmptyString => false end) s
      else if p ≟ "\"%char then
        match rest, s with
        | String q rest', String c s' => (q ≟ c) && like rest' s'
        | _, _ => false
        end
      else match s with
      | String c s' => ((p ≟ "_"%char) || (p ≟ c)) && like rest s'
      | EmptyString => false
      end
  end.

(** [column.ilike(term)]; a comparison with a missing value is not true. *)
Definition ilike (term s : string) : bool := like (str_lower term) (str_lower s).
Definition ilike_opt (term : string) (s : option string) : bool := from_option (ilike term) false s.

(** ** The filters of [list_page] *)

Record JobFilter := {
  filter_q : option string;
  filter_status : option string;
  filter_target : option UUID;
  date_from : option datetime;
  date_to : option datetime;
}.

(** A row of the outer join of jobs with targets. *)
Abbreviation joined := (Job.DiscoveryJobRecord * option Target.DiscoveryTargetRecord)%type.

Definition join_target (d : DB) (j : Job.DiscoveryJobRecord) : joined := (j, targets d !! Job.target_id j).

Definition status_matches (status : option string) (j : Job.DiscoveryJobRecord) : bool :=
  match status with
  | Some s =>
      let clean := str_lower (str_strip s) in
      if str_truthy s && negb (mem clean ["all"]) && str_truthy clean
      then Job.state j ≟ clean else true
  | None => true
  end.

Definition q_matches (q : option string) '((j, t) : joined) : bool :=
  match q with
  | Some q =>
      let clean_q := str_strip q in
      if str_truthy clean_q then
        let term := "%" +:+ clean_q +:+ "%" in
        ilike term (uuid_str (Job.id j)) || ilike term (uuid_str (Job.run_id j))
        || ilike term (uuid_str (Job.target_id j))
        || ilike_opt term (uuid_str <$> Job.execution_owner j)
        || ilike_opt term (Job.failure_code j) || ilike_opt term (Job.failure_message j)
        || ilike term (Job.state j)
        || ilike_opt term (Target.identifier <$> t) || ilike_opt term (Target.address <$> t)
      else true
  | None => true
  end.

Definition matches (tenant_id : string) (f : JobFilter) (r : joined) : bool :=
  (Job.tenant_id r.1 ≟ tenant_id)
  && status_matches (filter_status f) r.1
  && from_option (λ t, Job.target_id r.1 ≟ t) true (filter_target f)
  && from_option (λ t, t <=? Job.requested_at r.1) true (date_from f)
  && from_option (λ t, Job.requested_at r.1 <=? t) true (date_to f)
  && q_matches (filter_q f) r.

(** ** The order of [list_page] *)

(** [ORDER BY key] for a key that may be missing: [asc] or [desc], missing keys last
    or, in descending order without [nulls_last()], first. *)
Definition key_leb {K} (leb : K → K → bool) (asc nulls_last : bool) (a b : option K) : bool :=
  match a, b with
  | Some x, Some y => if asc then leb x y else leb y x
  | Some _, None => nulls_last
  | None, Some _ => negb nulls_last
  | None, None => true
  end.

Definition ordered_by (leb : joined → joined → bool) (a b : joined) : Prop := leb a b = true.
#[export] Instance ordered_by_dec leb : RelDecision (ordered_by leb).
Proof. intros a b. unfold ordered_by. apply _. Defined.

Section Order.
Context (collation : string → string → bool) (db_now : datetime).

(** [func.coalesce(completed_at, now()) - started_at]. *)
Definition duration (j : Job.DiscoveryJobRecord) : option Z :=
  started ← Job.started_at j;
  Some (from_option (λ t, t) db_now (Job.completed_at j) - started).

Definition order_leb (sort order : option string) : outcome (joined → joined → bool) :=
  let normalized_sort := str_lower (str_strip (or_str sort "newest")) in
  let normalized_order := str_lower (str_strip (or_str order "")) in
  let direction default := if str_truthy normalized_order then normalized_order else default in
  let order_by {K} (leb : K → K → bool) asc nulls_last (key : joined → option K) :=
    Ret (λ a b, key_leb leb asc nulls_last (key a) (key b)) in
  if mem normalized_sort ["newest"; "requested_at"; "created_at"] then
    order_by Z.leb (direction "desc" ≟ "asc") true (λ r, Some (Job.requested_at r.1))
  else if mem normalized_sort ["oldest"] then
    order_by Z.leb true true (λ r, Some (Job.requested_at r.1))
  else if mem normalized_sort ["started_at"; "recently_started"] then
    order_by Z.leb (direction "desc" ≟ "asc") true (λ r, Job.started_at r.1)
  else if mem normalized_sort ["completed_at"; "finished_at"; "recently_completed"] then
    order_by Z.leb (direction "desc" ≟ "asc") true (λ r, Job.completed_at r.1)
  else if mem normalized_sort ["duration"; "longest_running"] then
    order_by Z.leb (direction "desc" ≟ "asc") true (λ r, duration r.1)
  else if mem normalized_sort ["target"; "target_identifier"; "target_name"] then
    let asc := direction "asc" ≟ "asc" in
    order_by collation asc asc (λ r, Target.identifier <$> r.2)
  else if mem normalized_sort ["status"; "state"] then
    order_by collation (direction "asc" ≟ "asc") true (λ r, Some (Job.state r.1))
  else raise_ ValueError ("Unsupported sort field: " +:+ or_str sort "None").

(** [OFFSET] and [LIMIT]; the database refuses negative ones. *)
Definition sql_page {A} (page page_size : Z) (rows : list A) : outcome (list A) :=
  if page_size <? 0 then raise_ (OtherError "DataError") "LIMIT must not be negative"
  else if (page - 1) * page_size <? 0
  then raise_ (OtherError "DataError") "OFFSET must not be negative"
  else Ret (take (Z.to_nat page_size) (drop (Z.to_nat ((page - 1) * page_size)) rows)).

(** The rows that satisfy the filters. *)
Definition found (tenant_id : string) (f : JobFilter) (d : DB) : list joined :=
  List.filter (matches tenant_id f) (map (join_target d) (rows (jobs d))).

Definition list_page (tenant_id : string) (page page_size : Z) (f : JobFilter)
    (sort order : option string) : DbM (list Job.DiscoveryJobRecord * Z) :=
  leb <- of_outcome (order_leb sort order) ;;
  total <- query (λ d, Z.of_nat (length (found tenant_id f d))) ;;
  ordered <- query (λ d, merge_sort (ordered_by leb) (found tenant_id f d)) ;;
  rows <- of_outcome (sql_page page page_size ordered) ;;
  ret (map fst rows, total).
End Order.

(** ** Evidence *)

Definition get_evidence (tenant_id : string) (evidence_id : UUID)
    : DbM (option Evidence.DiscoveryEvidenceRecord) :=
  query (λ d,
    e ← evidence d !! evidence_id;
    if Evidence.tenant_id e ≟ tenant_id then Some e else None).

(** [ORDER BY sequence ASC]. *)
Definition sequence_before (a b : Evidence.DiscoveryEvidenceRecord) : Prop :=
  Evidence.sequence a <= Evidence.sequence b.
#[export] Instance sequence_before_dec : RelDecision sequence_before.
Proof. intros a b. apply Z_le_dec. Defined.

(** The evidence of a job and of its children: the join drops what has no job. *)
Definition evidence_of_job (tenant_id : string) (job_id : UUID) (d : DB)
    (e : Evidence.DiscoveryEvidenceRecord) : bool :=
  match jobs d !! Evidence.job_id e with
  | Some j =>
      (Evidence.tenant_id e ≟ tenant_id)
      && ((Evidence.job_id e ≟ job_id) || (Job.parent_job_id j ≟ Some job_id))
  | None => false
  end.

Definition list_for_job (tenant_id : string) (job_id : UUID)
    : DbM (list Evidence.DiscoveryEvidenceRecord) :=
  query (λ d, merge_sort sequence_before
    (List.filter (evidence_of_job tenant_id job_id d) (rows (evidence d)))).

(** ** Properties *)

(** A text without wildcards and escapes is searched literally. *)
Definition literal (c : ascii) : bool := negb (mem c ["%"%char; "_"%char; "\"%char]).

Fixpoint all_literal (s : string) : bool :=
  match s with EmptyString => true | String c s' => literal c && all_literal s' end.

Lemma like_any rest s :
  like (String "%" rest) s =
  like rest s || match s with String _ s' => like (String "%" rest) s' | EmptyString => false end.
Proof. by destruct s. Qed.

Lemma like_percent s : like "%" s = true.
Proof. induction s as [|c s IH]; [done|]. rewrite like_any, IH. apply orb_true_r. Qed.

Lemma like_prefix q s :
  all_literal q = true → like (q +:+ "%") s = String.prefix q s.
Proof.
  revert s. induction q as [|p q IH]; intros s; cbn [all_literal].
  - intros _. destruct s; [done|]. apply like_percent.
  - intros [Hp Hq]%andb_true_iff. unfold literal in Hp.
    apply negb_true_iff in Hp. rewrite mem_false, !not_elem_of_cons in Hp.
    destruct Hp as (H1 & H2 & H3 & _).
    change (String p q +:+ "%") with (String p (q +:+ "%")). cbn [like].
    rewrite (proj2 (eqb_false _ _) H1), (proj2 (eqb_false _ _) H2), (proj2 (eqb_false _ _) H3).
    destruct s as [|c s]; [done|]. cbn. rewrite IH by done.
    destruct (ascii_dec p c) as [He|Hne]; [by rewrite (proj2 (eqb_true p c) He)|].
    by rewrite (proj2 (eqb_false _ _) Hne).
Qed.

Lemma str_in_cons q c s :
  str_in q (String c s) = String.prefix q (String c s) || str_in q s.
Proof.
  unfold str_in. cbn [String.index]. destruct q as [|p q]; [by destruct s|].
  destruct (String.prefix (String p q) (String c s)); [done|].
  by destruct (String.index 0 (String p q) s).
Qed.

Lemma like_contains q s : all_literal q = true → like ("%" +:+ q +:+ "%") s = str_in q s.
Proof.
  intros Hq. change ("%" +:+ q +:+ "%") with (String "%" (q +:+ "%")).
  induction s as [|c s IH]; rewrite like_any, like_prefix by done.
  - unfold str_in. by destruct q.
  - rewrite IH. by rewrite str_in_cons.
Qed.

(** The wildcards of a search text are not escaped. *)
Example search_wildcards : ilike ("%" +:+ "_" +:+ "%") "anything" = true.
Proof. reflexivity. Qed.

Section Pages.
Context (collation : string → string → bool) (db_now : datetime).
Hypothesis collation_total : ∀ a b, collation a b = true ∨ collation b a = true.

Lemma key_leb_total {K} (leb : K → K → bool) asc nulls_last a b :
  (∀ x y, leb x y = true ∨ leb y x = true) →
  key_leb leb asc nulls_last a b = true ∨ key_leb leb asc nulls_last b a = true.
Proof.
  intros Ht. destruct a as [x|], b as [y|]; cbn; [|destruct nulls_last; auto..].
  destruct asc; [apply Ht|destruct (Ht x y); auto].
Qed.

Lemma order_leb_total sort order leb a b :
  order_leb collation db_now sort order = Ret leb → leb a b = true ∨ leb b a = true.
Proof using collation_total.
  assert (∀ x y, (x <=? y) = true ∨ (y <=? x) = true) as Hz
    by (intros x y; rewrite !Z.leb_le; lia).
  unfold order_leb. cbv zeta.
  repeat (destruct (mem _ _);
    [intros Heq; assert (∀ f g : joined → joined → bool, Ret f = Ret g → g = f) as Hi
       by congruence; rewrite (Hi _ _ Heq); by apply key_leb_total|]).
  discriminate.
Qed.

(** A listing of jobs orders the rows of the tenant that satisfy the filters, each
    once, by the key the caller named; its pages are the consecutive pieces of that
    order, so that together they hold each row once, and each comes with the number of
    rows.  It changes nothing. *)
Theorem list_page_partitions tenant_id size f sort order leb s
    (Hsize : 0 < size) (Hleb : order_leb collation db_now sort order = Ret leb) :
  ∃ ordered, ordered ≡ₚ found tenant_id f (view s) ∧
    Sorted (ordered_by leb) ordered ∧
    (∀ page, 1 <= page →
      list_page collation db_now tenant_id page size f sort order s =
        (Ret (map fst (take (Z.to_nat size) (drop (Z.to_nat ((page - 1) * size)) ordered)),
              Z.of_nat (length ordered)), s)) ∧
    ∀ pages, Z.of_nat (length ordered) <= Z.of_nat pages * size →
      concat (map (λ n, take (Z.to_nat size) (drop (Z.to_nat (Z.of_nat n * size)) ordered))
        (seq 0 pages)) = ordered.
Proof using collation_total.
  set (R := ordered_by leb).
  assert (Total R) by (intros a b; by eapply order_leb_total).
  exists (merge_sort R (found tenant_id f (view s))). split_and!.
  - apply merge_sort_Permutation.
  - by apply Sorted_merge_sort.
  - intros page Hpage. unfold list_page. rewrite Hleb. cbn.
    unfold sql_page. replace (size <? 0) with false by lia.
    replace ((page - 1) * size <? 0) with false by nia. cbn.
    by rewrite (Permutation_length (merge_sort_Permutation R _)).
  - intros pages. generalize (merge_sort R (found tenant_id f (view s))). intros l Hl.
    assert (concat (map (λ n, take (Z.to_nat size) (drop (Z.to_nat (Z.of_nat n * size)) l))
      (seq 0 pages)) = take (pages * Z.to_nat size) l) as ->; [|apply take_ge; lia].
    clear Hl. induction pages as [|n IH]; [done|].
    rewrite seq_S, map_app, concat_app, IH. cbn [map concat]. rewrite app_nil_r.
    replace (Z.to_nat (Z.of_nat (0 + n) * size)) with (n * Z.to_nat size)%nat by lia.
    replace (Datatypes.S n * Z.to_nat size)%nat with (n * Z.to_nat size + Z.to_nat size)%nat by lia.
    by rewrite take_take_drop.
Qed.
End Pages.

(** Three jobs of a tenant in pages of two, the newest first. *)
Lemma list_page_partitions_witness :
  let s := Demo.open_session Demo.demo_db [] in
  let all := {| filter_q := None; filter_status := None; filter_target := None;
                date_from := None; date_to := None |} in
  ∃ ordered : list joined, length ordered = 3%nat ∧ list_page String.leb 0 "acme" 2 2 all None None s
    = (Ret (map fst (drop 2 ordered), 3), s).
Proof.
  destruct (list_page_partitions String.leb 0 String.leb_total "acme" 2
    {| filter_q := None; filter_status := None; filter_target := None;
       date_from := None; date_to := None |} None None
    (λ a b, key_leb Z.leb false true (Some (Job.requested_at a.1)) (Some (Job.requested_at b.1)))
    (Demo.open_session Demo.demo_db []) eq_refl eq_refl) as (ordered & Hp & _ & Hpage & _).
  exists ordered. assert (length ordered = 3%nat) as Hlen by (by rewrite Hp).
  split; [done|]. rewrite (Hpage 2) by lia. rewrite Hlen.
  change (Z.to_nat ((2 - 1) * 2)) with 2%nat. change (Z.to_nat 2) with 2%nat.
  by rewrite (take_ge (drop 2 ordered)) by (rewrite length_drop, Hlen; cbn; lia).
Defined.
