(* ===== verification/RegularExpressions.v ===== *)
(** * Regular expressions ([re])

    The patterns of the parsers as data, and the backtracking search of Python's
    [re] over them.  Repetitions here range over character classes, which is all
    the patterns need, so that matching is structural and always ends.  [rmatch]
    says without backtracking what a pattern matches; [search_spec] relates the two. *)

From S2P Require Import Prelude.
#[local] Open Scope nat_scope.

Inductive regex :=
  | Empty
  (* one character of a class *)
  | One (p : ascii → bool)
  (* any number of characters of a class, as many or as few as possible *)
  | Greedy (p : ascii → bool)
  | Lazy (p : ascii → bool)
  | Then (r1 r2 : regex)
  (* [(?:r)?], present if possible *)
  | Maybe (r : regex)
  (* [(?P<name>r)] *)
  | Named (name : string) (r : regex).

(** [(?P<name>p+)]. *)
Definition some_of (p : ascii → bool) : regex := Then (One p) (Greedy p).

(** ** Character classes *)

Definition any_char : ascii → bool := λ _, true.
Definition not_newline (c : ascii) : bool := negb (c ≟ "010"%char).
Definition not_space (c : ascii) : bool := negb (is_space c).
Definition digit_char (c : ascii) : bool :=
  let n := Ascii.N_of_ascii c in ((48 <=? n) && (n <=? 57))%N.
Definition word_char (c : ascii) : bool :=
  let n := Ascii.N_of_ascii (ascii_lower c) in
  digit_char c || ((97 <=? n) && (n <=? 122))%N || (c ≟ "_"%char).
(** [[...]] and [[^...]] for a text of characters. *)
Definition in_set (set : string) (c : ascii) : bool := str_mem c set.
Definition not_in_set (set : string) (c : ascii) : bool := negb (str_mem c set).

(** Literal text, and literal text under [re.IGNORECASE]. *)
Fixpoint text (s : string) : regex :=
  match s with
  | EmptyString => Empty
  | String c s' => Then (One (λ d, d ≟ c)) (text s')
  end.

Fixpoint text_i (s : string) : regex :=
  match s with
  | EmptyString => Empty
  | String c s' => Then (One (λ d, ascii_lower d ≟ ascii_lower c)) (text_i s')
  end.

(** A sequence of patterns. *)
Fixpoint seq_re (rs : list regex) : regex :=
  match rs with [] => Empty | [r] => r | r :: rs => Then r (seq_re rs) end.

(** ** Matching *)

Abbreviation groups := (list (string * string)).

(** The text read between two points of the subject. *)
Definition consumed (s s' : string) : string :=
  String.substring 0 (String.length s - String.length s') s.

Section Match.
Context {R : Type}.

(** [match_re r k s g]: the first way to match [r] at the head of [s] from which the
    continuation [k] succeeds, in the order in which the engine tries them. *)
Fixpoint match_re (r : regex) (k : string → groups → option R) (s : string) (g : groups) : option R :=
  match r with
  | Empty => k s g
  | One p =>
      match s with
      | String c s' => if p c then k s' g else None
      | EmptyString => None
      end
  | Greedy p =>
      (fix go s :=
        match s with
        | String c s' =>
            if p c then match go s' with Some x => Some x | None => k s g end else k s g
        | EmptyString => k s g
        end) s
  | Lazy p =>
      (fix go s :=
        match k s g with
        | Some x => Some x
        | None => match s with String c s' => if p c then go s' else None | EmptyString => None end
        end) s
  | Then r1 r2 => match_re r1 (λ s' g', match_re r2 k s' g') s g
  | Maybe r => match match_re r k s g with Some x => Some x | None => k s g end
  | Named name r => match_re r (λ s' g', k s' ((name, consumed s s') :: g')) s g
  end.
End Match.

(** [pattern.search(text)]: the groups of the match, or [None]. *)
Fixpoint search_re (r : regex) (s : string) : option groups :=
  match match_re r (λ _ g, Some g) s [] with
  | Some g => Some g
  | None => match s with String _ s' => search_re r s' | EmptyString => None end
  end.

(** [match.group(name)] of a group that took part. *)
Definition group_of (name : string) (g : groups) : option string :=
  snd <$> List.find (λ e, fst e ≟ name) g.

(** ** What a pattern matches *)

Inductive rmatch : regex → string → groups → string → groups → Prop :=
  | rmatch_Empty s g : rmatch Empty s g s g
  | rmatch_One p c s g : p c = true → rmatch (One p) (String c s) g s g
  | rmatch_Greedy_end p s g : rmatch (Greedy p) s g s g
  | rmatch_Greedy_more p c s g s' g' :
      p c = true → rmatch (Greedy p) s g s' g' → rmatch (Greedy p) (String c s) g s' g'
  | rmatch_Lazy_end p s g : rmatch (Lazy p) s g s g
  | rmatch_Lazy_more p c s g s' g' :
      p c = true → rmatch (Lazy p) s g s' g' → rmatch (Lazy p) (String c s) g s' g'
  | rmatch_Then r1 r2 s g s1 g1 s2 g2 :
      rmatch r1 s g s1 g1 → rmatch r2 s1 g1 s2 g2 → rmatch (Then r1 r2) s g s2 g2
  | rmatch_Maybe r s g s' g' : rmatch r s g s' g' → rmatch (Maybe r) s g s' g'
  | rmatch_Maybe_not r s g : rmatch (Maybe r) s g s g
  | rmatch_Named name r s g s' g' :
      rmatch r s g s' g' → rmatch (Named name r) s g s' ((name, consumed s s') :: g').

Section Spec.
Context {R : Type}.
Implicit Types (k : string → groups → option R).

Lemma match_re_sound r k s g x :
  match_re r k s g = Some x → ∃ s' g', rmatch r s g s' g' ∧ k s' g' = Some x.
Proof.
  revert k s g x. induction r as [|p|p|p|r1 IH1 r2 IH2|r IH|name r IH]; intros k s g x; cbn [match_re].
  - intros Hk. by eexists _, _; split; [constructor|].
  - destruct s as [|c s]; [done|]. destruct (p c) eqn:E; [|done].
    intros Hk. by eexists _, _; split; [constructor|].
  - assert (∀ s, k s g = Some x → ∃ s' g', rmatch (Greedy p) s g s' g' ∧ k s' g' = Some x) as Hend
      by (intros ? Hk; by eexists _, _; split; [constructor|]).
    induction s as [|c s IH]; [apply Hend|].
    destruct (p c) eqn:E; [|apply Hend].
    match goal with |- match ?m with _ => _ end = _ → _ => destruct m eqn:Em end; [|apply Hend].
    intros [= ->]. destruct (IH eq_refl) as (s' & g' & ? & ?). eauto using rmatch.
  - assert (∀ s, k s g = Some x → ∃ s' g', rmatch (Lazy p) s g s' g' ∧ k s' g' = Some x) as Hend
      by (intros ? Hk; by eexists _, _; split; [constructor|]).
    induction s as [|c s IH]; destruct (k _ g) eqn:Ek;
      [intros [= ->]; by apply Hend|done|intros [= ->]; by apply Hend|].
    destruct (p c) eqn:E; [|done]. intros Em.
    destruct (IH Em) as (s' & g' & ? & ?). eauto using rmatch.
  - intros (s1 & g1 & H1 & (s2 & g2 & ? & ?)%IH2)%IH1. eauto using rmatch.
  - destruct (match_re r k s g) eqn:E.
    + intros [= ->]. apply IH in E as (s' & g' & ? & ?). eauto using rmatch.
    + intros Hk. eexists _, _. split; [apply rmatch_Maybe_not|done].
  - intros (s' & g' & ? & ?)%IH. eauto using rmatch.
Qed.

Lemma match_re_complete r k s g s' g' :
  rmatch r s g s' g' → is_Some (k s' g') → is_Some (match_re r k s g).
Proof.
  intros H. revert k. induction H; intros k Hk; cbn [match_re].
  - done.
  - by rewrite H.
  - destruct s as [|c s]; [done|]. destruct (p c); [|done].
    match goal with |- is_Some (match ?m with _ => _ end) => by destruct m end.
  - rewrite H. specialize (IHrmatch k Hk). cbn [match_re] in IHrmatch.
    by destruct IHrmatch as [x ->].
  - destruct Hk as [x Hx]. destruct s; rewrite Hx; done.
  - specialize (IHrmatch k Hk). cbn [match_re] in IHrmatch.
    destruct (k (String c s) g); [done|]. by rewrite H.
  - eauto.
  - by destruct (IHrmatch k Hk) as [x ->].
  - by destruct (match_re r k s g).
  - eauto.
Qed.
End Spec.

(** The suffixes of a text, the longest first: the points where a match may start. *)
Fixpoint suffixes (s : string) : list string :=
  s :: match s with String _ s' => suffixes s' | EmptyString => [] end.

(** A search answers with a match at the first point where there is one, and fails
    exactly if there is none anywhere. *)
Theorem search_spec r s :
  match search_re r s with
  | Some g => ∃ before s1 after s2, suffixes s = before ++ s1 :: after ∧ rmatch r s1 [] s2 g ∧
      ∀ s0 s' g', s0 ∈ before → ¬ rmatch r s0 [] s' g'
  | None => ∀ s0 s' g', s0 ∈ suffixes s → ¬ rmatch r s0 [] s' g'
  end.
Proof.
  assert (∀ s0 s' g', rmatch r s0 [] s' g' → match_re r (λ _ g, Some g) s0 [] ≠ None) as Hc.
  { intros s0 s' g' H Hn. apply (match_re_complete r (λ _ g, Some g)) in H as [x Hx]; [congruence|done]. }
  induction s as [|c s IH]; cbn [search_re suffixes];
    destruct (match_re r _ _ []) as [g|] eqn:E.
  - apply match_re_sound in E as (s' & g' & Hm & [= ->]).
    eexists [], _, _, _. split; [done|]. split; [done|]. intros ??? []%not_elem_of_nil.
  - intros s0 s' g' ->%list_elem_of_singleton H. by apply Hc in H.
  - apply match_re_sound in E as (s' & g' & Hm & [= ->]).
    eexists [], _, _, _. split; [done|]. split; [done|]. intros ??? []%not_elem_of_nil.
  - destruct (search_re r s) as [g|].
    + destruct IH as (b & s1 & a & s2 & -> & Hm & Hb).
      exists (String c s :: b), s1, a, s2. split; [done|]. split; [done|].
      intros s0 s' g' [->|H]%elem_of_cons Hr; [by apply Hc in Hr|by eapply Hb].
    + intros s0 s' g' [->|H]%elem_of_cons Hr; [by apply Hc in Hr|by eapply IH].
Qed.

(** [re.sub(pattern, replacement, s)] for a pattern [p+] over a class. *)
Fixpoint sub_runs (p : ascii → bool) (replacement : string) (in_run : bool) (s : string) : string :=
  match s with
  | EmptyString => EmptyString
  | String c s' =>
      if p c then (if in_run then EmptyString else replacement) +:+ sub_runs p replacement true s'
      else String c (sub_runs p replacement false s')
  end.
