(* ===== verification/CiscoParser.v ===== *)
(** * The Cisco inventory parser ([collectors/cisco/inventory.py])

    From the raw output of a collector, a mapping of command outputs, HTTP payloads
    and SNMP rows, to the records the normalization reads. *)

From S2P Require Import Prelude Vocabulary Effects Json Dicts Texts.
From S2P Require Import RegularExpressions.
From S2P Require Import Inventories Normalization.
#[local] Open Scope Z_scope.

(** ** The patterns *)

Definition VERSION_RE : regex := seq_re [
  text_i "Cisco IOS"; Maybe (text_i " XE"); text_i " Software"; Lazy any_char; text_i "Version ";
  Named "version" (some_of (λ c, word_char c || in_set "().-" c))].

Definition HOSTNAME_UPTIME_RE : regex := seq_re [
  Named "hostname" (some_of not_space); some_of is_space; text_i "uptime is"; some_of is_space;
  Named "uptime" (some_of not_newline)].

(** [label\s*:\s*(?P<name>...)]. *)
Definition labelled (label : list regex) (name : string) (p : ascii → bool) : regex :=
  seq_re (label ++ [Greedy is_space; text ":"; Greedy is_space; Named name (some_of p)]).

Definition MODEL_RE : regex := labelled [One (in_set "Mm"); text "odel number"] "model" not_space.

Definition BASE_MAC_RE : regex := labelled
  [One (in_set "Bb"); text "ase "; One (in_set "Ee"); text "thernet MAC ";
   One (in_set "Aa"); text "ddress"] "mac" not_space.

Definition SYSTEM_SERIAL_RE : regex := labelled
  [One (in_set "Ss"); text "ystem "; One (in_set "Ss"); text "erial ";
   One (in_set "Nn"); text "umber"] "serial" not_space.

Definition HARDWARE_RE : regex := labelled [One (in_set "Hh"); text "ardware"] "hardware" not_newline.

Definition not_comma_space (c : ascii) : bool := negb (c ≟ ","%char) && not_space c.

Definition comma : regex := seq_re [Greedy is_space; text ","; Greedy is_space].

Definition INVENTORY_RE : regex := seq_re [
  text_i "NAME:"; Greedy is_space; One (λ c, c ≟ double_quote);
  Named "name" (some_of (λ c, negb (c ≟ double_quote))); One (λ c, c ≟ double_quote);
  Lazy any_char;
  text_i "PID:"; Greedy is_space; Named "pid" (some_of not_comma_space); comma;
  text_i "VID:"; Greedy is_space; Named "vid" (Greedy not_comma_space); comma;
  text_i "SN:"; Greedy is_space; Named "serial" (some_of not_space)].

Definition POWER_RE : regex := seq_re [
  text_i "Available:"; Named "available" (some_of (λ c, digit_char c || (c ≟ "."%char)));
  text_i "(w)"; Lazy any_char;
  text_i "Used:"; Named "used" (some_of (λ c, digit_char c || (c ≟ "."%char))); text_i "(w)"].

(** The pattern [_http_value] builds for a label. *)
Definition http_re (label : string) : regex := seq_re [
  text_i label; Greedy is_space; One (in_set ":="); Greedy is_space;
  Named "value" (some_of (λ c, negb (mem c [newline; carriage_return; "<"%char])))].

(** ** Helpers *)

(** [_group]. *)
Definition group_text (m : option groups) (name : string) : option string :=
  g ← m;
  let value := str_strip (from_option (λ v, v) "" (group_of name g)) in
  if str_truthy value then Some value else None.

(** [a or b] on optional texts: an empty text counts as missing. *)
Definition or_else (a b : option string) : option string :=
  match a with
  | Some s => if str_truthy s then a else b
  | None => b
  end.

Definition http_value (s label : string) : option string :=
  g ← search_re (http_re label) s;
  Some (str_strip (from_option (λ v, v) "" (group_of "value" g))).

Definition snmp_value (s token : string) : option string :=
  if negb (str_in (str_lower token) (str_lower s)) then None
  else
    (λ line, str_strip (after_first "=" line)) <$>
      List.find (λ line, str_in (str_lower token) (str_lower line)) (splitlines s).

Definition flatten_snmp (rows : list (string * string)) : string :=
  String.concat (String newline "") (map (λ r, r.1 +:+ "=" +:+ r.2) rows).

Definition stack_members (output : string) : list string :=
  map str_strip (List.filter (λ line,
    String.prefix "*" (str_strip line) && str_in "switch" (str_lower line)) (splitlines output)).

(** [_first_index]. *)
Fixpoint first_index (candidates parts : list string) : option nat :=
  match parts with
  | [] => None
  | part :: parts =>
      if mem (str_lower part) candidates then Some 0%nat
      else Datatypes.S <$> first_index candidates parts
  end.

(** What [int] raises of a text of too many digits. *)
Definition integer_limit (digits : Z) : exn :=
  Exn ValueError ("Exceeds the limit (4300 digits) for integer string conversion: value has " +:+
    pretty digits +:+ " digits; use sys.set_int_max_str_digits() to increase the limit").

(** [int(s)] of a text of which [s.isdigit()]: it refuses more than 4300 digits. *)
Definition int_digits (s : string) : outcome Z :=
  let digits := Z.of_nat (String.length s) in
  if 4300 <? digits then Raise (integer_limit digits)
  else
    match int_of_digits s with
    | Some z => Ret z
    | None => raise_ ValueError ("invalid literal for int() with base 10: '" +:+ s +:+ "'")
    end.

(** The result of a conversion, in an expression. *)
Definition convert {A B} (o : outcome A) (f : A → B) : outcome B :=
  match o with Ret a => Ret (f a) | Raise e => Raise e end.

(** A loop over lines that appends what it makes of some, unless one raises. *)
Fixpoint collect_lines {A B} (f : A → outcome (option B)) (xs : list A) : outcome (list B) :=
  match xs with
  | [] => Ret []
  | x :: xs =>
      match f x with
      | Raise e => Raise e
      | Ret o => convert (collect_lines f xs) (λ ys, match o with Some y => y :: ys | None => ys end)
      end
  end.

Definition speed_to_mbps (v : string) : outcome (option Z) :=
  let normalized := str_lower (str_strip v) in
  let plain := if isdigit normalized then convert (int_digits normalized) Some else Ret None in
  if mem normalized ["auto"; "a-100"; "100"] then Ret (Some 100)
  else if mem normalized ["a-1000"; "1000"; "1g"] then Ret (Some 1000)
  else match str_init_last normalized with
  | Some (init, last) =>
      if (last ≟ "g"%char) && isdigit init then convert (int_digits init) (λ n, Some (n * 1000)) else plain
  | None => plain
  end.

(** ** Records *)

Definition interface_line (device_id line : string) : outcome (option ParsedRecord) :=
  let line := str_rstrip line in
  if negb (str_truthy line) || starts_with ["port "; "---"] (str_lower line) then Ret None
  else
    let parts := words line in
    if (length parts <? 4)%nat then Ret None
    else
      match first_index ["connected"; "notconnect"; "disabled"; "err-disabled"; "inactive"] parts with
      | None => Ret None
      | Some status_index =>
          let status := nth status_index parts "" in
          let description := String.concat " " (take (status_index - 1) (drop 1 parts)) in
          convert (speed_to_mbps (nth (length parts - 2) parts "")) (λ speed, Some {|
            kind := "interface";
            payload := [
              ("device_id", JStr device_id);
              ("name", JStr (nth 0 parts ""));
              ("description", if str_truthy description then JStr description else JNull);
              ("oper_status", JStr status);
              ("admin_status", JStr (if status ≟ "connected" then "up" else "down"));
              ("speed_mbps", match speed with Some n => JInt n | None => JNull end)] |})
      end.

Definition parse_interface_status (device_id output : string) : outcome (list ParsedRecord) :=
  collect_lines (interface_line device_id) (splitlines output).

Abbreviation snmp_rows := (list (string * string)).

(** The rows under a key, none when it is missing. *)
Definition rows_at (key : string) (snmp : list (string * snmp_rows)) : snmp_rows :=
  from_option (λ r, r) [] (get key snmp).
Definition output_of (key : string) (commands : list (string * string)) : string :=
  from_option (λ s, s) "" (get key commands).

Definition interface_records (device_id : string) (commands : list (string * string))
    (snmp : list (string * snmp_rows)) : outcome (list ParsedRecord) :=
  convert (parse_interface_status device_id (output_of "show interfaces status" commands)) (λ records,
    match records with
    | [] =>
        map (λ row, {|
          kind := "interface";
          payload := [("device_id", JStr device_id); ("name", JStr (after_last "." row.1));
                      ("description", JStr row.2)] |})
          (List.filter (λ row, str_truthy (str_strip row.2)) (take 128 (rows_at "interfaces" snmp)))
    | records => records
    end).

Definition vlan_line (device_id line : string) : outcome (option ParsedRecord) :=
  match words line with
  | vlan_id :: name :: status :: _ =>
      if isdigit vlan_id then
        convert (int_digits vlan_id) (λ vlan_id, Some {|
          kind := "vlan";
          payload := [("device_id", JStr device_id); ("vlan_id", JInt vlan_id);
                      ("name", JStr name); ("status", JStr status)] |})
      else Ret None
  | _ => Ret None
  end.

Definition vlan_records (device_id : string) (commands : list (string * string))
    (snmp : list (string * snmp_rows)) : outcome (list ParsedRecord) :=
  convert (collect_lines (vlan_line device_id) (splitlines (output_of "show vlan brief" commands))) (λ records,
    match records with
    | [] =>
        omap (λ '(index, row), if str_truthy (str_strip row.2)
          then Some {|
            kind := "vlan";
            payload := [("device_id", JStr device_id); ("vlan_id", JInt (Z.of_nat index + 1));
                        ("name", JStr row.2)] |}
          else None) (imap pair (rows_at "vlans" snmp))
    | records => records
    end).

(** *** Neighbors: a state machine over lines, flushed by a blank one *)

Record NeighborState := {
  remote_device_id : option string;
  local_interface : option string;
  remote_interface : option string;
}.

Definition no_neighbor : NeighborState :=
  {| remote_device_id := None; local_interface := None; remote_interface := None |}.

Definition neighbor_record (device_id protocol : string) (current : NeighborState)
    : option ParsedRecord :=
  match remote_device_id current, local_interface current with
  | Some r, Some l =>
      if str_truthy r && str_truthy l then
        Some {|
          kind := "neighbor";
          payload := [
            ("local_device_id", JStr device_id); ("local_interface", JStr l);
            ("remote_device_id", JStr r);
            ("remote_interface", opt_str (remote_interface current));
            ("protocol", JStr protocol)] |}
      else None
  | _, _ => None
  end.

(** The effect of a line that is not blank. *)
Definition neighbor_line (stripped : string) (current : NeighborState) : NeighborState :=
  let lower := str_lower stripped in
  if starts_with ["device id:"; "system name:"] lower then
    {| remote_device_id := Some (str_strip (after_first ":" stripped));
       local_interface := local_interface current;
       remote_interface := remote_interface current |}
  else if starts_with ["interface:"] lower then
    {| remote_device_id := remote_device_id current;
       local_interface := Some (str_strip (before_first "," (after_first ":" stripped)));
       remote_interface := remote_interface current |}
  else if starts_with ["port id"; "port description"] lower then
    match partition_at ":" stripped with
    | Some (_, v) =>
        if str_truthy (str_strip v) then
          {| remote_device_id := remote_device_id current;
             local_interface := local_interface current;
             remote_interface := Some (str_strip v) |}
        else current
    | None => current
    end
  else current.

Fixpoint neighbor_loop (device_id protocol : string) (lines : list string)
    (current : NeighborState) : list ParsedRecord :=
  match lines with
  | [] => []
  | line :: lines =>
      let stripped := str_strip line in
      if str_truthy stripped
      then neighbor_loop device_id protocol lines (neighbor_line stripped current)
      else
        let rest := neighbor_loop device_id protocol lines no_neighbor in
        match neighbor_record device_id protocol current with
        | Some r => r :: rest
        | None => rest
        end
  end.

Definition parse_neighbor_detail (device_id output protocol : string) : list ParsedRecord :=
  neighbor_loop device_id protocol (splitlines output ++ [""]) no_neighbor.

Definition neighbor_records (device_id : string) (commands : list (string * string))
    : list ParsedRecord :=
  parse_neighbor_detail device_id (output_of "show cdp neighbors detail" commands) "CDP"
  ++ parse_neighbor_detail device_id (output_of "show lldp neighbors detail" commands) "LLDP".

Definition power_record (device_id : string) (commands : list (string * string))
    (snmp : list (string * snmp_rows)) : option ParsedRecord :=
  let output := output_of "show power inline" commands in
  if str_truthy output then
    let m := search_re POWER_RE output in
    let output_lower := str_lower output in
    let poe_enabled := negb (str_in "off" output_lower) && negb (str_in "disabled" output_lower) in
    Some {|
      kind := "power";
      payload := [
        ("device_id", JStr device_id); ("source", JStr "poe");
        ("status", JStr (if poe_enabled then "available" else "disabled"));
        ("available_watts", opt_str (group_text m "available"));
        ("consumed_watts", opt_str (group_text m "used"));
        ("poe_enabled", JBool poe_enabled)] |}
  else if negb (is_nil (rows_at "poe" snmp)) then
    Some {|
      kind := "power";
      payload := [
        ("device_id", JStr device_id); ("source", JStr "poe"); ("status", JStr "observed");
        ("poe_enabled", JBool true)] |}
  else None.

(** ** Parsing *)

Section Parse.
Context {HF : FloatRepr}.

(** [_mapping], [_string_mapping], [_snmp_mapping]. *)
Definition as_mapping (v : option json) : dict := match v with Some (JDict d) => d | _ => [] end.

Definition string_mapping (v : option json) : list (string * string) :=
  map (λ e, (e.1, py_str e.2)) (as_mapping v).

Definition snmp_row (v : json) : option (string * string) :=
  match v with JList [a; b] => Some (py_str a, py_str b) | _ => None end.

Definition snmp_mapping (v : option json) : list (string * snmp_rows) :=
  omap (λ e, match e.2 with JList rows => Some (e.1, omap snmp_row rows) | _ => None end)
    (as_mapping v).

(** [_text]. *)
Definition text_value (v : option json) : option string := optional_text v.

Definition device_payload (device_id : string) (management_ip : option string) (metadata : dict)
    (raw_output : dict) (commands http_payloads : list (string * string))
    (snmp : list (string * snmp_rows)) : dict :=
  let show_version := output_of "show version" commands in
  let show_inventory := output_of "show inventory" commands in
  let http_text := String.concat (String newline "") (map snd http_payloads) in
  let system_snmp := flatten_snmp (rows_at "system" snmp) in
  let inventory_match := search_re INVENTORY_RE show_inventory in
  let hostname_match := search_re HOSTNAME_UPTIME_RE show_version in
  let model_match := search_re MODEL_RE show_version in
  let version_match := search_re VERSION_RE show_version in
  let base_mac_match := search_re BASE_MAC_RE show_version in
  let serial_match := search_re SYSTEM_SERIAL_RE show_version in
  let hardware_match := search_re HARDWARE_RE show_version in
  let hostname :=
    or_str (or_else (text_value (dict_get "hostname" metadata))
             (or_else (group_text hostname_match "hostname")
               (snmp_value system_snmp "sysName"))) device_id in
  let product_id :=
    or_else (text_value (dict_get "product_id" metadata))
      (or_else (group_text inventory_match "pid") (http_value http_text "product id")) in
  let model :=
    or_else (text_value (dict_get "model" metadata))
      (or_else (group_text model_match "model")
        (or_else product_id (http_value http_text "model"))) in
  let serial_number :=
    or_else (text_value (dict_get "serial_number" metadata))
      (or_else (group_text serial_match "serial")
        (or_else (group_text inventory_match "serial") (http_value http_text "serial"))) in
  let software_version :=
    or_else (group_text version_match "version")
      (or_else (http_value http_text "version") (snmp_value system_snmp "sysDescr")) in
  [("device_id", JStr device_id);
   ("name", JStr hostname);
   ("manufacturer", JStr "Cisco");
   ("model", opt_str model);
   ("serial_number", opt_str serial_number);
   ("product_id", opt_str product_id);
   ("management_ip", opt_str management_ip);
   ("base_mac", opt_str (or_else (group_text base_mac_match "mac") (http_value http_text "base mac")));
   ("software_version", opt_str software_version);
   ("uptime", opt_str (or_else (group_text hostname_match "uptime")
                        (snmp_value system_snmp "sysUpTime")));
   ("hardware_revision", opt_str (or_else (group_text inventory_match "vid")
                                   (group_text hardware_match "hardware")));
   ("platform", dict_get_default "parser_family"
                  (dict_get_default "platform_family" JNull raw_output) raw_output);
   ("stack_members", JList (map JStr (stack_members show_version)))].

(** The records [parse] emits, or the [ValueError] of a number that is too long. *)
Definition inventory_records (source : string) (raw_output : dict) : outcome (list ParsedRecord) :=
  let target := as_mapping (dict_get "target" raw_output) in
  let commands := string_mapping (dict_get "commands" raw_output) in
  let http_payloads := string_mapping (dict_get "http" raw_output) in
  let snmp := snmp_mapping (dict_get "snmp" raw_output) in
  let device_id := or_str (text_value (dict_get "identifier" target)) source in
  let management_ip := text_value (dict_get "address" target) in
  let metadata := as_mapping (dict_get "metadata" target) in
  let device := {|
    kind := "device";
    payload := device_payload device_id management_ip metadata raw_output commands
                 http_payloads snmp |} in
  match interface_records device_id commands snmp with
  | Raise e => Raise e
  | Ret interfaces =>
      convert (vlan_records device_id commands snmp) (λ vlans,
        device :: interfaces ++ vlans ++ neighbor_records device_id commands
        ++ match power_record device_id commands snmp with Some r => [r] | None => [] end)
  end.

Definition parse_inventory {S} {HC : Clock S} (parser_name : string) (ctx : ParserContext)
    (raw_output : json) : M S ParserResult :=
  match raw_output with
  | JDict raw =>
      records <- of_outcome (inventory_records (ParserContext.source ctx) raw) ;;
      captured_at <- utc_now ;;
      ret {|
        Parsed.parser_name := parser_name;
        Parsed.source := ParserContext.source ctx;
        Parsed.input_format := ParserContext.input_format ctx;
        Parsed.records := records;
        Parsed.captured_at := captured_at;
        Parsed.metadata := [("platform_family",
          dict_get_default "platform_family" (JStr "") raw)] |}
  | _ => raise ParserValidationError "Cisco inventory payload must be a mapping."
  end.

(** [CiscoInventoryParser] behind the interface of parsers. *)
Definition CiscoInventoryParser {S} {HC : Clock S} : BaseParser S := {|
  Parser.name := "cisco-inventory-parser";
  Parser.supported_formats := [JSON];
  Parser.parse := parse_inventory "cisco-inventory-parser" |}.
End Parse.
