(* ===== verification/CiscoParserTheorems.v ===== *)
(** * Correctness of the Cisco inventory parser

    What it emits normalizes to one valid device with all its parts; tables printed
    in the format of the devices are read back; examples show what gets lost. *)

From S2P Require Import Prelude Vocabulary Effects Json Dicts Texts.
From S2P Require Import RegularExpressions.
From S2P Require Import Inventories Normalization NormalizationTheorems CiscoParser.
#[local] Open Scope Z_scope.

(** ** Texts *)

Lemma str_lower_app s t : str_lower (s +:+ t) = str_lower s +:+ str_lower t.
Proof.
  induction s as [|c s IH]; [done|]. rewrite str_app_cons. cbn.
  fold (str_lower (s +:+ t)) (str_lower s). by rewrite IH.
Qed.

Lemma prefix_app p s : String.prefix p (p +:+ s) = true.
Proof.
  induction p as [|c p IH]; [by destruct s|]. rewrite str_app_cons. cbn.
  by destruct (ascii_dec c c).
Qed.

(** A text without blanks at its ends, and not empty. *)
Definition trimmed (s : string) : Prop := str_strip s = s ∧ s ≠ "".

Lemma rstrip_lstrip s : str_strip s = s → str_lstrip s = s.
Proof.
  unfold str_strip. destruct s as [|c s]; [done|]. cbn. destruct (is_space c) eqn:Ec; [|done].
  intros H. exfalso.
  assert (∀ t, String.length (str_rstrip t) <= String.length t)%nat as Hr.
  { clear. induction t as [|d t IH]; cbn; [lia|]. destruct (str_rstrip t); [destruct (is_space d)|];
      cbn in *; lia. }
  assert (∀ t, String.length (str_lstrip t) <= String.length t)%nat as Hl.
  { clear. induction t as [|d t IH]; cbn; [lia|]. destruct (is_space d); cbn; lia. }
  pose proof (Hr (str_lstrip s)). specialize (Hl s). rewrite H in *. cbn in *. lia.
Qed.

Lemma rstrip_id s : str_strip s = s → str_rstrip s = s.
Proof. intros H. pose proof (rstrip_lstrip s H) as Hl. unfold str_strip in H. by rewrite Hl in H. Qed.

(** A text without blanks at its end, and not empty. *)
Definition right_trimmed (s : string) : Prop := str_rstrip s = s ∧ s ≠ "".

Lemma trimmed_right s : trimmed s → right_trimmed s.
Proof. intros [Hs Hne]. split; [by apply rstrip_id|done]. Qed.

Lemma rstrip_app a s : right_trimmed s → str_rstrip (a +:+ s) = a +:+ s.
Proof.
  intros [Hs Hne]. induction a as [|c a IH]; [exact Hs|].
  rewrite str_app_cons. cbn. rewrite IH. destruct a; cbn; [|done]. by destruct s.
Qed.

(** A label before a trimmed text, with a blank between them. *)
Lemma strip_app c a s :
  is_space c = false → right_trimmed s → str_strip (String c a +:+ s) = String c a +:+ s.
Proof.
  intros Hc Hs. unfold str_strip. rewrite str_app_cons. cbn [str_lstrip]. rewrite Hc.
  rewrite <-str_app_cons. by apply rstrip_app.
Qed.

Lemma strip_blank s : trimmed s → str_strip (" " +:+ s) = s.
Proof.
  intros [Hs Hne]. unfold str_strip. change (" " +:+ s) with (String " " s). cbn.
  rewrite (rstrip_lstrip s Hs). by apply rstrip_id.
Qed.

Lemma trimmed_truthy s : trimmed s → str_truthy s = true.
Proof. intros [_ Hne]. by destruct s. Qed.

Lemma word_trimmed w : is_word w = true → trimmed w.
Proof.
  unfold is_word. intros [Ht Hw]%andb_true_iff. split; [|by destruct w].
  assert (∀ w, str_all (λ c, negb (is_space c)) w = true → str_rstrip w = w) as Hr.
  { clear. induction w as [|c w IH]; [done|]. cbn. intros [Hc Hw]%andb_true_iff.
    rewrite (IH Hw). apply negb_true_iff in Hc. destruct w; [by rewrite Hc|done]. }
  unfold str_strip. destruct w as [|c w]; [done|]. cbn [str_lstrip str_all] in *.
  pose proof Hw as [Hc _]%andb_true_iff. apply negb_true_iff in Hc. rewrite Hc. by apply Hr.
Qed.

(** ** Neighbors *)

(** An entry of a neighbor listing: the lines other than the labelled ones, what
    follows the local interface on its line, and a port line of its own. *)
Record NeighborEntry := {
  entry_remote : string;
  entry_local : string;
  entry_same_line : string;
  entry_port : option string;
  entry_others : list string;
}.

Definition no_label (line : string) : bool :=
  negb (starts_with ["device id:"; "system name:"; "interface:"; "port id"; "port description"]
    (str_lower (str_strip line))).

Record entry_ok (e : NeighborEntry) : Prop := {
  eo_remote : trimmed (entry_remote e) ∧ is_line (entry_remote e) = true;
  eo_local : trimmed (entry_local e) ∧ is_line (entry_local e) = true ∧
             str_mem "," (entry_local e) = false;
  eo_same_line : right_trimmed (entry_same_line e) ∧ is_line (entry_same_line e) = true;
  eo_port : ∀ p, entry_port e = Some p → trimmed p ∧ is_line p = true;
  eo_others : Forall (λ o, is_line o = true ∧ str_truthy (str_strip o) = true ∧ no_label o = true)
                (entry_others e);
}.

Definition entry_lines (e : NeighborEntry) : list string :=
  ["Device ID: " +:+ entry_remote e;
   "Interface: " +:+ entry_local e +:+ "," +:+ entry_same_line e]
  ++ match entry_port e with Some p => ["Port ID: " +:+ p] | None => [] end
  ++ entry_others e ++ [""].

Definition entry_record (device_id protocol : string) (e : NeighborEntry) : ParsedRecord := {|
  kind := "neighbor";
  payload := [
    ("local_device_id", JStr device_id); ("local_interface", JStr (entry_local e));
    ("remote_device_id", JStr (entry_remote e));
    ("remote_interface", opt_str (entry_port e));
    ("protocol", JStr protocol)] |}.

Lemma neighbor_line_device r cur :
  trimmed r →
  neighbor_line ("Device ID: " +:+ r) cur =
  {| remote_device_id := Some r; local_interface := local_interface cur;
     remote_interface := remote_interface cur |}.
Proof.
  intros Hr. unfold neighbor_line. rewrite str_lower_app.
  change (starts_with ["device id:"; "system name:"] (str_lower "Device ID: " +:+ str_lower r)) with true.
  cbv iota. unfold after_first.
  change ("Device ID: " +:+ r) with ("Device ID" +:+ String ":" (" " +:+ r)).
  rewrite partition_at_app by done. cbn [from_option snd]. by rewrite strip_blank.
Qed.

Lemma neighbor_line_interface l rest cur :
  trimmed l → str_mem "," l = false →
  neighbor_line ("Interface: " +:+ l +:+ "," +:+ rest) cur =
  {| remote_device_id := remote_device_id cur; local_interface := Some l;
     remote_interface := remote_interface cur |}.
Proof.
  intros Hl Hc. unfold neighbor_line. rewrite str_lower_app.
  change (starts_with ["device id:"; "system name:"]
    (str_lower "Interface: " +:+ str_lower (l +:+ "," +:+ rest))) with false.
  change (starts_with ["interface:"]
    (str_lower "Interface: " +:+ str_lower (l +:+ "," +:+ rest))) with true.
  cbv iota. unfold after_first.
  change ("Interface: " +:+ l +:+ "," +:+ rest)
    with ("Interface" +:+ String ":" (String " " l +:+ String "," rest)).
  rewrite partition_at_app by done. cbn [from_option snd]. unfold before_first.
  rewrite partition_at_app by (cbn; by rewrite Hc). cbn [from_option fst].
  change (String " " l) with (" " +:+ l). by rewrite strip_blank.
Qed.

Lemma neighbor_line_port p cur :
  trimmed p →
  neighbor_line ("Port ID: " +:+ p) cur =
  {| remote_device_id := remote_device_id cur; local_interface := local_interface cur;
     remote_interface := Some p |}.
Proof.
  intros Hp. unfold neighbor_line. rewrite str_lower_app.
  change (starts_with ["device id:"; "system name:"] (str_lower "Port ID: " +:+ str_lower p)) with false.
  change (starts_with ["interface:"] (str_lower "Port ID: " +:+ str_lower p)) with false.
  change (starts_with ["port id"; "port description"] (str_lower "Port ID: " +:+ str_lower p)) with true.
  cbv iota. change ("Port ID: " +:+ p) with ("Port ID" +:+ String ":" (" " +:+ p)).
  rewrite partition_at_app by done. rewrite strip_blank by done.
  by rewrite (trimmed_truthy p Hp).
Qed.

Lemma neighbor_line_other o cur : no_label o = true → neighbor_line (str_strip o) cur = cur.
Proof.
  unfold no_label, starts_with. cbn [existsb]. rewrite negb_true_iff, !orb_false_iff.
  intros (H1 & H2 & H3 & H4 & H5 & _). unfold neighbor_line, starts_with. cbn [existsb].
  by rewrite H1, H2, H3, H4, H5.
Qed.

(** A line that is not blank, in the loop. *)
Lemma neighbor_loop_line device_id protocol line lines cur :
  str_truthy (str_strip line) = true →
  neighbor_loop device_id protocol (line :: lines) cur =
  neighbor_loop device_id protocol lines (neighbor_line (str_strip line) cur).
Proof. intros H. cbn [neighbor_loop]. by rewrite H. Qed.

Lemma neighbor_loop_others device_id protocol others lines cur :
  Forall (λ o, is_line o = true ∧ str_truthy (str_strip o) = true ∧ no_label o = true) others →
  neighbor_loop device_id protocol (others ++ lines) cur = neighbor_loop device_id protocol lines cur.
Proof.
  intros H. induction H as [|o os (_ & Ht & Hn) _ IH]; [done|].
  cbn [app]. by rewrite neighbor_loop_line, neighbor_line_other.
Qed.

Lemma neighbor_loop_entry device_id protocol e lines :
  entry_ok e →
  neighbor_loop device_id protocol (entry_lines e ++ lines) no_neighbor =
  entry_record device_id protocol e :: neighbor_loop device_id protocol lines no_neighbor.
Proof.
  intros [[Hr _] (Hl & _ & Hc) [Hs _] Hp Ho]. unfold entry_lines. cbn [app].
  assert (str_strip ("Device ID: " +:+ entry_remote e) = "Device ID: " +:+ entry_remote e) as E1
    by (by apply strip_app, trimmed_right).
  assert (str_strip ("Interface: " +:+ entry_local e +:+ "," +:+ entry_same_line e)
    = "Interface: " +:+ entry_local e +:+ "," +:+ entry_same_line e) as E2.
  { rewrite <-!str_app_assoc. rewrite (str_app_assoc _ _ (entry_same_line e)).
    rewrite <-str_app_assoc. by apply (strip_app "I" ("nterface: " +:+ entry_local e +:+ ",")). }
  rewrite neighbor_loop_line, E1, neighbor_line_device by (done || by rewrite E1).
  rewrite neighbor_loop_line, E2, neighbor_line_interface by (done || by rewrite E2).
  cbn [remote_device_id local_interface remote_interface no_neighbor].
  rewrite <-!app_assoc.
  assert (∀ port, neighbor_loop device_id protocol (entry_others e ++ [""] ++ lines)
    {| remote_device_id := Some (entry_remote e); local_interface := Some (entry_local e);
       remote_interface := port |} =
    {| kind := "neighbor"; payload := [
         ("local_device_id", JStr device_id); ("local_interface", JStr (entry_local e));
         ("remote_device_id", JStr (entry_remote e)); ("remote_interface", opt_str port);
         ("protocol", JStr protocol)] |} :: neighbor_loop device_id protocol lines no_neighbor) as Hend.
  { intros port. rewrite neighbor_loop_others by done. cbn [app neighbor_loop].
    change (str_truthy (str_strip "")) with false. cbv iota.
    unfold neighbor_record. cbn [remote_device_id local_interface remote_interface].
    by rewrite (trimmed_truthy _ Hr), (trimmed_truthy _ Hl). }
  unfold entry_record. destruct (entry_port e) as [p|] eqn:Ep; [|apply Hend].
  destruct (Hp p eq_refl) as [Htp _]. cbn [app].
  assert (str_strip ("Port ID: " +:+ p) = "Port ID: " +:+ p) as E3
    by (by apply strip_app, trimmed_right).
  rewrite neighbor_loop_line, E3, neighbor_line_port by (done || by rewrite E3). apply Hend.
Qed.

Lemma entry_lines_are_lines e : entry_ok e → Forall (λ l, is_line l = true) (entry_lines e).
Proof.
  intros [[_ Hr] (_ & Hl & _) [_ Hs] Hp Ho]. unfold entry_lines, is_line in *.
  cbn [app]. rewrite !Forall_cons, !Forall_app. rewrite !str_all_app, Hr, Hl, Hs.
  split_and!; [done|done| | |by repeat constructor].
  - destruct (entry_port e) as [p|]; [|done]. destruct (Hp p eq_refl) as [_ Hpl].
    constructor; [|done]. by rewrite str_all_app, Hpl.
  - eapply Forall_impl; [exact Ho|]. by intros o (? & _).
Qed.

(** Neighbor listings are read back.  Every entry of a listing becomes one record
    with its remote device and its local interface, whatever other lines it has; the
    remote interface is the one on a line of its own, and what follows the local
    interface on the same line is lost. *)
Theorem neighbor_detail_roundtrip device_id protocol entries
    (Hok : Forall entry_ok entries) :
  parse_neighbor_detail device_id (unlines (concat (map entry_lines entries))) protocol =
  map (entry_record device_id protocol) entries.
Proof.
  unfold parse_neighbor_detail. rewrite splitlines_unlines.
  - induction Hok as [|e es He _ IH]; [done|]. cbn [map concat].
    by rewrite <-app_assoc, neighbor_loop_entry, IH.
  - apply Forall_concat. apply Forall_map. eapply Forall_impl; [exact Hok|].
    exact entry_lines_are_lines.
Qed.

(** The CDP entry of the tests' fixture: its port is lost. *)
Definition fixture_entry : NeighborEntry := {|
  entry_remote := "core-switch"; entry_local := "GigabitEthernet1/0/1";
  entry_same_line := "  Port ID (outgoing port): GigabitEthernet0/1";
  entry_port := None; entry_others := ["Holdtime : 150 sec"] |}.

Lemma neighbor_detail_roundtrip_witness :
  let listing := unlines (concat (map entry_lines [fixture_entry; fixture_entry])) in
  Forall entry_ok [fixture_entry; fixture_entry] ∧
  parse_neighbor_detail "switch-1" listing "CDP" =
    map (entry_record "switch-1" "CDP") [fixture_entry; fixture_entry].
Proof.
  intros listing. assert (entry_ok fixture_entry) as H.
  { split; cbn [fixture_entry entry_remote entry_local entry_same_line entry_port entry_others];
      repeat split; try done; try (by intros ? [=]).
    apply Forall_singleton. done. }
  assert (Forall entry_ok [fixture_entry; fixture_entry]) as Hok by (by repeat (apply Forall_cons; split)).
  split; [exact Hok|]. exact (neighbor_detail_roundtrip "switch-1" "CDP" _ Hok).
Defined.

(** ** Tables *)

(** A row of [show vlan brief]: number, name, status and ports. *)
Record VlanRow := { row_vlan : Z; row_name : string; row_status : string; row_ports : list string }.

Definition vlan_row_ok (r : VlanRow) : Prop :=
  0 <= row_vlan r ∧ is_word (row_name r) = true ∧ is_word (row_status r) = true ∧
  Forall (λ w, is_word w = true) (row_ports r) ∧
  Z.of_nat (String.length (pretty (row_vlan r))) <= 4300.

Definition vlan_row_line (r : VlanRow) : string :=
  String.concat " " (pretty (row_vlan r) :: row_name r :: row_status r :: row_ports r).

Definition vlan_row_record (device_id : string) (r : VlanRow) : ParsedRecord := {|
  kind := "vlan";
  payload := [("device_id", JStr device_id); ("vlan_id", JInt (row_vlan r));
              ("name", JStr (row_name r)); ("status", JStr (row_status r))] |}.

Definition vlan_header : list string :=
  ["VLAN Name                             Status    Ports";
   "---- -------------------------------- --------- -------------------------------"].

Lemma digit_not_space c : is_digit c = true → is_space c = false.
Proof.
  unfold is_digit, digit_of, is_space. set (n := Ascii.N_of_ascii c).
  destruct ((48 <=? n) && (n <=? 57))%N eqn:E; [|done]. intros _.
  rewrite andb_true_iff, !N.leb_le in E. rewrite orb_false_iff, !andb_false_iff, !N.leb_gt. lia.
Qed.

Lemma isdigit_word s : isdigit s = true → is_word s = true.
Proof.
  unfold isdigit, is_word. intros [Ht Hs]%andb_true_iff. rewrite Ht. cbn.
  eapply str_all_impl; [|exact Hs]. intros c Hc. cbn. by rewrite digit_not_space.
Qed.

Lemma isdigit_pretty_Z z : 0 <= z → isdigit (pretty z) = true.
Proof. intros Hz. rewrite pretty_Z_of_N by done. apply isdigit_pretty. Qed.

Lemma word_is_line w : is_word w = true → is_line w = true.
Proof.
  unfold is_word, is_line. intros [_ Hw]%andb_true_iff. eapply str_all_impl; [|exact Hw].
  intros c. cbn. rewrite !negb_true_iff. intros Hc.
  destruct (is_linebreak c) eqn:E; [|done]. by rewrite (is_linebreak_space c E) in Hc.
Qed.

Lemma concat_is_line ws :
  Forall (λ w, is_word w = true) ws → is_line (String.concat " " ws) = true.
Proof.
  induction ws as [|w ws IH]; [done|]. intros [Hw Hws]%Forall_cons.
  apply word_is_line in Hw. destruct ws as [|v ws]; [done|].
  change (String.concat " " (w :: v :: ws)) with (w +:+ (" " +:+ String.concat " " (v :: ws))).
  unfold is_line in *. rewrite !str_all_app, Hw, IH by done. done.
Qed.

Lemma vlan_row_words r :
  vlan_row_ok r → words (vlan_row_line r) = pretty (row_vlan r) :: row_name r :: row_status r :: row_ports r
  ∧ is_line (vlan_row_line r) = true.
Proof.
  intros (Hv & Hn & Hs & Hp & _).
  assert (Forall (λ w, is_word w = true)
    (pretty (row_vlan r) :: row_name r :: row_status r :: row_ports r)) as Hw.
  { repeat (apply Forall_cons; split); try done. by apply isdigit_word, isdigit_pretty_Z. }
  split; [by apply words_concat|by apply concat_is_line].
Qed.

Lemma vlan_line_row device_id r :
  vlan_row_ok r → vlan_line device_id (vlan_row_line r) = Ret (Some (vlan_row_record device_id r)).
Proof.
  intros Hr. unfold vlan_line. destruct (vlan_row_words r Hr) as [-> _].
  destruct Hr as (Hv & _ & _ & _ & Hl). rewrite isdigit_pretty_Z by done. unfold int_digits.
  rewrite (proj2 (Z.ltb_ge _ _) Hl), int_of_digits_pretty by done. done.
Qed.

(** *** Loops over lines *)

Lemma collect_lines_Ret {A B} (f : A → outcome (option B)) xs ys :
  collect_lines f xs = Ret ys → ∀ y, y ∈ ys → ∃ x, x ∈ xs ∧ f x = Ret (Some y).
Proof.
  revert ys. induction xs as [|x xs IH]; intros ys; cbn; [intros [= <-] y ?%elem_of_nil; done|].
  destruct (f x) as [o|e] eqn:E; [|done]. destruct (collect_lines f xs) as [zs|e]; cbn; [|done].
  intros [= <-] y Hy. destruct o as [z|].
  - apply elem_of_cons in Hy as [->|Hy]; [exists x; split; [left|done]|].
    destruct (IH zs eq_refl y Hy) as (x' & ? & ?). exists x'. split; [by right|done].
  - destruct (IH zs eq_refl y Hy) as (x' & ? & ?). exists x'. split; [by right|done].
Qed.

Lemma collect_lines_Raise {A B} (f : A → outcome (option B)) xs e :
  collect_lines f xs = Raise e → ∃ x, x ∈ xs ∧ f x = Raise e.
Proof.
  induction xs as [|x xs IH]; cbn; [done|].
  destruct (f x) as [o|e'] eqn:E; [|intros [= ->]; exists x; split; [left|done]].
  destruct (collect_lines f xs) as [zs|e'']; cbn; [done|]. intros [= ->].
  destruct (IH eq_refl) as (x' & ? & ?). exists x'. split; [by right|done].
Qed.

Lemma convert_Ret {A B} (o : outcome A) (f : A → B) b :
  convert o f = Ret b → ∃ a, o = Ret a ∧ b = f a.
Proof. destruct o as [a|e]; [|done]. intros [= <-]. by exists a. Qed.

Lemma convert_Raise {A B} (o : outcome A) (f : A → B) e : convert o f = Raise e → o = Raise e.
Proof. by destruct o; [|intros [= ->]]. Qed.

(** Tables as a text: the header, then a line for each row. *)
Lemma collect_table {R} (line : string → outcome (option ParsedRecord)) (header : list string)
    (row_line : R → string) (record : R → ParsedRecord) (rows : list R) :
  Forall (λ h, is_line h = true ∧ line h = Ret None) header →
  Forall (λ r, is_line (row_line r) = true ∧ line (row_line r) = Ret (Some (record r))) rows →
  collect_lines line (splitlines (unlines (header ++ map row_line rows))) = Ret (map record rows).
Proof.
  intros Hh Hr. rewrite splitlines_unlines.
  - induction Hh as [|h hs [_ Hn] _ IH]; cbn; [|by rewrite Hn, IH].
    induction Hr as [|r rs [_ Hs] _ IH]; cbn; [done|]. by rewrite Hs, IH.
  - apply Forall_app. split; [|apply Forall_map]; eapply Forall_impl; [exact Hh|by intros ? []|exact Hr|by intros ? []].
Qed.

(** *** [show interfaces status] *)

Record InterfaceRow := {
  row_port : string; row_description : list string; row_oper : string;
  row_vlan_name : string; row_duplex : string; row_speed : string; row_type : string }.

Definition statuses : list string := ["connected"; "notconnect"; "disabled"; "err-disabled"; "inactive"].

Definition interface_row_words (r : InterfaceRow) : list string :=
  row_port r :: row_description r ++
    [row_oper r; row_vlan_name r; row_duplex r; row_speed r; row_type r].

Definition interface_row_line (r : InterfaceRow) : string := String.concat " " (interface_row_words r).

(** Its cells are words, only the status is one of the statuses, and it does not
    look like a header. *)
Record interface_row_ok (r : InterfaceRow) : Prop := {
  ir_words : Forall (λ w, is_word w = true) (interface_row_words r);
  ir_plain : Forall (λ w, str_lower w ∉ statuses) (row_port r :: row_description r);
  ir_oper : str_lower (row_oper r) ∈ statuses;
  ir_row : starts_with ["port "; "---"] (str_lower (interface_row_line r)) = false;
  ir_speed : is_ret (speed_to_mbps (row_speed r)) = true;
}.

Definition interface_row_record (device_id : string) (r : InterfaceRow) : ParsedRecord := {|
  kind := "interface";
  payload := [
    ("device_id", JStr device_id); ("name", JStr (row_port r));
    ("description", match row_description r with
                    | [] => JNull | ws => JStr (String.concat " " ws) end);
    ("oper_status", JStr (row_oper r));
    ("admin_status", JStr (if row_oper r ≟ "connected" then "up" else "down"));
    ("speed_mbps", match speed_to_mbps (row_speed r) with
                   | Ret (Some n) => JInt n | _ => JNull end)] |}.

Lemma first_index_app candidates ps p rest :
  Forall (λ w, str_lower w ∉ candidates) ps → str_lower p ∈ candidates →
  first_index candidates (ps ++ p :: rest) = Some (length ps).
Proof.
  intros Hps Hp. induction Hps as [|q qs Hq _ IH]; cbn.
  - by rewrite (proj2 (mem_true _ _) Hp).
  - by rewrite (proj2 (mem_false _ _) Hq), IH.
Qed.

Lemma concat_right_trimmed w ws :
  Forall (λ w, is_word w = true) (w :: ws) → right_trimmed (String.concat " " (w :: ws)).
Proof.
  revert w. induction ws as [|v ws IH]; intros w [Hw Hws]%Forall_cons.
  - by apply trimmed_right, word_trimmed.
  - change (String.concat " " (w :: v :: ws)) with (w +:+ (" " +:+ String.concat " " (v :: ws))).
    rewrite <-str_app_assoc. specialize (IH v Hws). split; [by apply rstrip_app|].
    destruct w; [done|]. by rewrite !str_app_cons.
Qed.

Lemma join_words ws : Forall (λ w, is_word w = true) ws →
  str_truthy (String.concat " " ws) = negb (is_nil ws).
Proof.
  destruct ws as [|w ws]; [done|]. intros H. destruct (concat_right_trimmed w ws H) as [_ Hne].
  by destruct (String.concat _ _).
Qed.

Lemma interface_line_row device_id r :
  interface_row_ok r →
  interface_line device_id (interface_row_line r) = Ret (Some (interface_row_record device_id r)).
Proof.
  intros [Hw Hp Ho Hr Hsp].
  assert (words (interface_row_line r) = interface_row_words r) as Hwords by (by apply words_concat).
  destruct (concat_right_trimmed _ _ Hw) as [Hs Hne].
  change (String.concat " " _) with (interface_row_line r) in Hs, Hne.
  assert (str_truthy (interface_row_line r) = true) as Ht by (by destruct (interface_row_line r)).
  unfold interface_line. rewrite Hs, Hr, Ht, Hwords. change (negb true || false) with false. cbv iota.
  assert (first_index statuses (interface_row_words r) = Some (Datatypes.S (length (row_description r)))) as Hi
    by (by apply (first_index_app statuses (row_port r :: row_description r))).
  unfold statuses in Hi. rewrite Hi.
  assert (length (interface_row_words r) = (length (row_description r) + 6)%nat) as Hl
    by (unfold interface_row_words; cbn; rewrite length_app; cbn; lia).
  rewrite Hl. replace (_ <? 4)%nat with false by (symmetry; apply Nat.ltb_ge; lia).
  assert (∀ k w rest, drop k [row_oper r; row_vlan_name r; row_duplex r; row_speed r; row_type r] = w :: rest →
    nth (Datatypes.S (length (row_description r) + k)) (interface_row_words r) "" = w) as Hnth.
  { intros k w rest Hk. unfold interface_row_words. cbn [nth].
    rewrite app_nth2_plus. rewrite <-(take_drop k [_; _; _; _; _]), Hk.
    rewrite app_nth2; rewrite length_take; [|lia].
    assert (k < 5)%nat by (destruct (decide (k < 5)%nat); [done|];
      rewrite drop_ge in Hk by (cbn; lia); done).
    cbn [length]. by replace (k - k `min` 5)%nat with 0%nat by lia. }
  replace (length (row_description r) + 6 - 2)%nat
    with (Datatypes.S (length (row_description r) + 3)) by lia.
  rewrite (Hnth 3%nat _ _ eq_refl).
  assert (nth (Datatypes.S (length (row_description r))) (interface_row_words r) "" = row_oper r) as ->.
  { rewrite <-(Hnth 0%nat _ _ eq_refl). by rewrite Nat.add_0_r. }
  destruct (speed_to_mbps (row_speed r)) as [speed|] eqn:Esp; [|done]. cbn [convert].
  replace (Datatypes.S (length (row_description r)) - 1)%nat with (length (row_description r)) by lia.
  unfold interface_row_record, interface_row_words. cbn [nth skipn]. rewrite !drop_0, take_app_length.
  assert (Forall (λ w, is_word w = true) (row_description r)) as Hd.
  { unfold interface_row_words in Hw. apply Forall_cons in Hw as [_ Hw]. by apply Forall_app in Hw as [? _]. }
  rewrite join_words, Esp by done. by destruct (row_description r).
Qed.

Definition interface_header : list string :=
  ["Port      Name               Status       Vlan       Duplex  Speed Type"; ""].

(** The tables of VLANs and of interface states are read back: each row becomes one
    record with its fields, the headers none. *)
Theorem tables_roundtrip device_id vlans interfaces
    (Hv : Forall vlan_row_ok vlans) (Hi : Forall interface_row_ok interfaces) :
  collect_lines (vlan_line device_id) (splitlines (unlines (vlan_header ++ map vlan_row_line vlans)))
    = Ret (map (vlan_row_record device_id) vlans) ∧
  parse_interface_status device_id
    (unlines (interface_header ++ map interface_row_line interfaces))
    = Ret (map (interface_row_record device_id) interfaces).
Proof.
  split; apply collect_table.
  - by repeat (apply Forall_cons; split).
  - eapply Forall_impl; [exact Hv|]. intros r Hr. split; [by apply vlan_row_words|by apply vlan_line_row].
  - by repeat (apply Forall_cons; split).
  - eapply Forall_impl; [exact Hi|]. intros r Hr. split; [by apply concat_is_line, Hr|by apply interface_line_row].
Qed.

(** The rows of the tests' fixtures. *)
Definition fixture_vlans : list VlanRow := [
  {| row_vlan := 1; row_name := "default"; row_status := "active"; row_ports := ["Gi1/0/1"] |};
  {| row_vlan := 10; row_name := "users"; row_status := "active"; row_ports := ["Gi1/0/2"] |}].

Definition fixture_interfaces : list InterfaceRow := [
  {| row_port := "Gi1/0/1"; row_description := ["Uplink"]; row_oper := "connected";
     row_vlan_name := "trunk"; row_duplex := "a-full"; row_speed := "a-1000";
     row_type := "10/100/1000BaseTX" |};
  {| row_port := "Gi1/0/2"; row_description := ["User"; "Port"]; row_oper := "notconnect";
     row_vlan_name := "10"; row_duplex := "auto"; row_speed := "auto";
     row_type := "10/100/1000BaseTX" |}].

Lemma tables_roundtrip_witness :
  Forall vlan_row_ok fixture_vlans ∧ Forall interface_row_ok fixture_interfaces ∧
  parse_interface_status "switch-1"
    (unlines (interface_header ++ map interface_row_line fixture_interfaces))
    = Ret (map (interface_row_record "switch-1") fixture_interfaces).
Proof.
  assert (Forall vlan_row_ok fixture_vlans) as Hv.
  { repeat (apply Forall_cons; split); [..|done]; (split; [done|split; [done|split; [done|split; [by apply Forall_singleton|vm_compute; done]]]]). }
  assert (Forall interface_row_ok fixture_interfaces) as Hi.
  { repeat (apply Forall_cons; split); [..|done];
      (split; cbn [row_port row_description row_oper interface_row_words];
       [by repeat (apply Forall_cons; split)|repeat (apply Forall_cons; split)|
        apply mem_true; reflexivity|reflexivity|reflexivity]);
      try done; apply mem_false; reflexivity. }
  split; [exact Hv|]. split; [exact Hi|]. exact (proj2 (tables_roundtrip "switch-1" _ _ Hv Hi)).
Defined.

(** ** What the parser emits normalizes *)

(** The identity of the device: that of the target, or the source of the context. *)
Definition emitted_id {HF : FloatRepr} (source : string) (raw : dict) : string :=
  or_str (text_value (dict_get "identifier" (as_mapping (dict_get "target" raw)))) source.

(** A record other than a device, of this device. *)
Definition part_of (device_id : string) (r : ParsedRecord) : Prop :=
  (kind r = "interface" ∨ kind r = "vlan" ∨ kind r = "power") ∧
    dict_get "device_id" (payload r) = Some (JStr device_id)
  ∨ kind r = "neighbor" ∧ dict_get "local_device_id" (payload r) = Some (JStr device_id).

Section Emitted.
Context {HF : FloatRepr}.

Lemma interface_records_part device_id commands snmp rs :
  interface_records device_id commands snmp = Ret rs → Forall (part_of device_id) rs.
Proof.
  unfold interface_records. intros (ls & E & ->)%convert_Ret. destruct ls as [|l ls].
  - apply Forall_map, Forall_forall. intros row _. by left; split; [left|].
  - apply Forall_forall. intros x Hx. destruct (collect_lines_Ret _ _ _ E x Hx) as (line & _ & Hl).
    unfold interface_line in Hl. destruct (_ || _); [done|]. destruct (_ <? 4)%nat; [done|].
    destruct (first_index _ _); [|done]. apply convert_Ret in Hl as (speed & _ & [= ->]). by left; split; [left|].
Qed.

Lemma vlan_records_part device_id commands snmp rs :
  vlan_records device_id commands snmp = Ret rs → Forall (part_of device_id) rs.
Proof.
  unfold vlan_records. intros (ls & E & ->)%convert_Ret. destruct ls as [|l ls]; apply Forall_forall; intros x Hx.
  - apply list_elem_of_omap in Hx as ([i row] & _ & Hx).
    case_match; simplify_eq; by left; split; [right; left|].
  - destruct (collect_lines_Ret _ _ _ E x Hx) as (line & _ & Hl). unfold vlan_line in Hl.
    destruct (words line) as [|v [|n [|st rest]]]; try done. destruct (isdigit v); [|done].
    apply convert_Ret in Hl as (z & _ & [= ->]). by left; split; [right; left|].
Qed.

Lemma neighbor_loop_part device_id protocol lines cur :
  Forall (part_of device_id) (neighbor_loop device_id protocol lines cur).
Proof.
  revert cur. induction lines as [|l ls IH]; intros cur; cbn; [constructor|].
  destruct (str_truthy _); [apply IH|].
  destruct (neighbor_record device_id protocol cur) as [r|] eqn:E; [|apply IH].
  constructor; [|apply IH]. unfold neighbor_record in E. repeat case_match; simplify_eq; by right.
Qed.

(** The records: the device's and the parts. *)
Lemma inventory_records_Ret source raw records :
  inventory_records source raw = Ret records →
  ∃ device parts, records = {| kind := "device"; payload := device |} :: parts ∧
    dict_get "device_id" device = Some (JStr (emitted_id source raw)) ∧
    Forall (part_of (emitted_id source raw)) parts.
Proof.
  unfold inventory_records. fold (emitted_id source raw).
  set (commands := string_mapping _). set (snmp := snmp_mapping _).
  destruct (interface_records _ commands snmp) as [ifs|e] eqn:Ei; [|done].
  intros (vs & Ev & ->)%convert_Ret. eexists _, _. split; [reflexivity|]. split; [reflexivity|].
  rewrite !Forall_app. split_and!.
  - by eapply interface_records_part.
  - by eapply vlan_records_part.
  - apply Forall_app. split; apply neighbor_loop_part.
  - destruct (power_record _ _ _) as [r|] eqn:E; [|constructor]. apply Forall_singleton.
    unfold power_record in E. repeat case_match; simplify_eq; by left; split; [right; right|].
Qed.

Lemma filter_devices source raw records :
  inventory_records source raw = Ret records →
  List.filter (of_kind "device") records = take 1 records.
Proof.
  intros H0%inventory_records_Ret. destruct H0 as (device & parts & -> & _ & H). cbn [List.filter firstn].
  change (of_kind "device" {| kind := "device"; payload := ?p |}) with true. cbv iota. f_equal.
  induction H as [|x xs Hx _ IH]; [done|]. cbn. unfold of_kind at 1.
  destruct Hx as [[[-> | [-> | ->]] _] | [-> _]]; exact IH.
Qed.

(** ** When the parser fails *)

(** A run of [n] digits, more than 4300. *)
Definition too_long (digits : string) (n : Z) : Prop :=
  isdigit digits = true ∧ n = Z.of_nat (String.length digits) ∧ 4300 < n.

(** A speed with such a number, with or without a unit. *)
Definition long_speed (v : string) (n : Z) : Prop :=
  let normalized := str_lower (str_strip v) in
  too_long normalized n ∨ ∃ init, str_init_last normalized = Some (init, "g"%char) ∧ too_long init n.

(** A table with such a number: the first word of a line of VLANs, or the last word but
    one of an interface's. *)
Definition overlong (commands : list (string * string)) (n : Z) : Prop :=
  (∃ line digits rest, line ∈ splitlines (output_of "show vlan brief" commands) ∧
     words line = digits :: rest ∧ too_long digits n) ∨
  (∃ line, line ∈ splitlines (output_of "show interfaces status" commands) ∧
     let parts := words (str_rstrip line) in long_speed (nth (length parts - 2) parts "") n).

Lemma int_digits_spec s :
  isdigit s = true →
  match int_digits s with Ret _ => True | Raise e => ∃ n, e = integer_limit n ∧ too_long s n end.
Proof.
  intros Hs. unfold int_digits. destruct (4300 <? _) eqn:E; cbn.
  - eexists. split; [done|]. split_and!; [done..|]. by apply Z.ltb_lt.
  - by destruct (int_of_digits_total s Hs) as (z & -> & _).
Qed.

Lemma speed_to_mbps_Raise v e : speed_to_mbps v = Raise e → ∃ n, e = integer_limit n ∧ long_speed v n.
Proof.
  unfold speed_to_mbps, long_speed. set (n := str_lower _). cbv zeta.
  destruct (mem n _); [done|]. destruct (mem n _); [done|].
  assert ((if isdigit n then convert (int_digits n) Some else Ret None) = Raise e →
    ∃ m, e = integer_limit m ∧ too_long n m) as Hplain.
  { destruct (isdigit n) eqn:En; [|done]. intros Hr%convert_Raise.
    pose proof (int_digits_spec n En) as H. by rewrite Hr in H. }
  destruct (str_init_last n) as [[init last]|] eqn:Ei; [|intros H%Hplain; naive_solver].
  destruct ((last ≟ "g"%char) && isdigit init) eqn:Eg; [|intros H%Hplain; naive_solver].
  apply andb_true_iff in Eg as [Hg Hi]. rewrite eqb_true in Hg. subst last.
  intros Hr%convert_Raise. pose proof (int_digits_spec init Hi) as H. rewrite Hr in H.
  destruct H as (m & -> & H). exists m. split; [done|]. right. by exists init.
Qed.

(** The only failure is a number that is too long. *)
Lemma inventory_records_Raise source raw e :
  inventory_records source raw = Raise e →
  ∃ n, e = integer_limit n ∧ overlong (string_mapping (dict_get "commands" raw)) n.
Proof.
  unfold inventory_records. set (commands := string_mapping (dict_get "commands" raw)).
  set (snmp := snmp_mapping _). destruct (interface_records _ commands snmp) as [ifs|e'] eqn:Ei.
  - intros Hv%convert_Raise. unfold vlan_records in Hv.
    apply convert_Raise, collect_lines_Raise in Hv as (line & Hl & Hv). unfold vlan_line in Hv.
    destruct (words line) as [|v [|n [|st rest]]] eqn:Ew; try done. destruct (isdigit v) eqn:Ed; [|done].
    apply convert_Raise in Hv. pose proof (int_digits_spec v Ed) as H. rewrite Hv in H.
    destruct H as (m & -> & H). exists m. split; [done|]. left. by exists line, v, (n :: st :: rest).
  - intros [= ->]. unfold interface_records in Ei.
    apply convert_Raise, collect_lines_Raise in Ei as (line & Hl & Hv). unfold interface_line in Hv.
    destruct (_ || _); [done|]. destruct (_ <? 4)%nat; [done|]. destruct (first_index _ _); [|done].
    apply convert_Raise, speed_to_mbps_Raise in Hv as (m & -> & Hv). exists m.
    split; [done|]. right. by exists line.
Qed.
End Emitted.

Section Normalizes.
Context {HF : FloatRepr} {S : Type} {HC : Clock S} {HL : ClockForward S}.

(** The keys of the objects built from records are the entries of the records. *)
Lemma keys_are_entries {A K} (build : ParsedRecord → option (datetime → A))
    (entry : ParsedRecord → option K) (key : A → K) (s s' : S) rs xs :
  Forall (λ r, match build r with
               | Some make => ∀ t, entry r = Some (key (make t))
               | None => entry r = None end) rs →
  Forall2 (made s s') (omap build rs) xs → map key xs = omap entry rs.
Proof.
  intros Hr. revert xs. induction Hr as [|r rs Hr _ IH]; intros xs H; cbn in *.
  { by apply Forall2_nil_inv_l in H as ->. }
  destruct (build r) as [make|]; [|rewrite Hr; auto].
  apply Forall2_cons_inv_l in H as (x & xs' & (t & _ & ->) & Hxs & ->). cbn.
  rewrite (Hr t). f_equal. auto.
Qed.

(** A record that is not of the kind of an entry, or names the device. *)
Definition names_device (k field did : string) (r : ParsedRecord) : Prop :=
  kind r = k → text_of field (payload r) = did.

Ltac by_kind :=
  intros Hn; unfold belongs, of_kind, names_device in *;
  destruct (kind _ ≟ _) eqn:E; cbn; [|done || by destruct (optional_int _)];
  rewrite eqb_true in E; specialize (Hn E); rewrite Hn, eqb_refl; cbn.

Lemma interface_keys did r :
  names_device "interface" "device_id" did r →
  match interface_of did r with
  | Some make => ∀ t, interface_entry r =
      Some (InterfaceSnapshot.device_id (make t), InterfaceSnapshot.name (make t))
  | None => interface_entry r = None
  end.
Proof.
  unfold interface_of, interface_entry. by_kind. by destruct (str_truthy _).
Qed.

Lemma vlan_keys did r :
  names_device "vlan" "device_id" did r →
  match vlan_of did r with
  | Some make => ∀ t, vlan_entry r = Some (from_option id "" (VLANSnapshot.device_id (make t)),
      (VLANSnapshot.vlan_id (make t), VLANSnapshot.name (make t)))
  | None => vlan_entry r = None
  end.
Proof.
  unfold vlan_of, vlan_entry. by_kind. destruct (optional_int _); [|done].
  by destruct (str_truthy _).
Qed.

Lemma neighbor_keys did r :
  names_device "neighbor" "local_device_id" did r →
  match neighbor_of did r with
  | Some make => ∀ t, neighbor_entry r = Some (NeighborSnapshot.local_device_id (make t),
      (NeighborSnapshot.local_interface (make t), NeighborSnapshot.remote_device_id (make t)))
  | None => neighbor_entry r = None
  end.
Proof.
  unfold neighbor_of, neighbor_entry. by_kind.
  destruct (str_truthy (text_of "local_interface" _)), (str_truthy (text_of "remote_device_id" _)); done.
Qed.

Lemma text_of_JStr k d v : dict_get k d = Some (JStr v) → text_of k d = str_strip v.
Proof. unfold text_of, text_or, dict_get_default. by intros ->. Qed.

Lemma records_name_device source raw records k field :
  inventory_records source raw = Ret records →
  k ∈ ["interface"; "vlan"] ∧ field = "device_id" ∨ k = "neighbor" ∧ field = "local_device_id" →
  Forall (names_device k field (str_strip (emitted_id source raw))) records.
Proof.
  intros (device & parts & -> & _ & H)%inventory_records_Ret Hk. constructor.
  - intros Hd. cbn in Hd. subst k. exfalso.
    destruct Hk as [[Hk _]|[Hk _]]; [|done]. by apply mem_true in Hk.
  - eapply Forall_impl; [exact H|]. intros x Hx Hkx. apply text_of_JStr.
    destruct Hx as [[Hkind Hx]|[Hkind Hx]], Hk as [[Hk ->]|[-> ->]]; [exact Hx|exfalso|exfalso|exact Hx].
    + rewrite Hkx in Hkind. by destruct Hkind as [|[|]].
    + rewrite <-Hkx, Hkind in Hk. by apply mem_true in Hk.
Qed.

(** A result of one device, not from the future, is normalized. *)
Lemma normalize_one_device (self : NormalizationEngine S) fresh res r s :
  rule_registry self = [] → Parsed.captured_at res <= instant s →
  List.filter (of_kind "device") (Parsed.records res) = [r] →
  identified (text_of "device_id" (payload r)) →
  ∃ n s', normalize_result self fresh res s = (Ret n, s') ∧ normalized self res s s' n res.
Proof.
  intros Hrules Htime Hdev Hid.
  pose proof (normalize_result_spec self fresh res s) as Hspec. rewrite Hrules in Hspec.
  specialize (Hspec ltac:(by intros ? ?%elem_of_nil)).
  assert (∃ n s', normalize_result self fresh res s = (Ret n, s')) as (n & s' & E).
  { unfold normalize_result, validate_parsed_result. unfold bind at 1 2. cbn.
    assert (0 <= timedelta_seconds 1) by done.
    replace (_ <? _) with false by (symmetry; apply Z.ltb_ge; lia). cbn.
    assert (is_nil (Parsed.records res) = false) as -> by (by destruct (Parsed.records res)).
    rewrite andb_false_r. cbn. rewrite Hrules. unfold bind at 1. cbn.
    destruct (to_snapshot_spec fresh res (tick s)) as (n & s2 & E2 & _ & _ & _ & _ & Hd).
    rewrite (bind_Ret _ _ _ _ _ E2). rewrite Hdev in Hd.
    apply Forall2_cons_inv_l in Hd as (d & ds & Hd & Hnil & Hds).
    apply Forall2_nil_inv_l in Hnil as ->. unfold validate_snapshot. rewrite Hds.
    destruct (checks_device_ids [] [d] s2) as [Hsame Hids].
    destruct (validate_device_ids [] [d] s2) as [o s3] eqn:E3. cbn in Hsame, Hids. subst s3.
    assert (o = Ret tt) as ->.
    { apply Hids. rewrite (dm_id _ _ _ _ _ Hd). split_and!.
      - by apply Forall_singleton; rewrite (dm_id _ _ _ _ _ Hd).
      - apply NoDup_singleton.
      - apply Forall_singleton, not_elem_of_nil. }
    rewrite (bind_Ret _ _ _ _ _ E3). eexists _, _. reflexivity. }
  rewrite E in Hspec. destruct Hspec as (res' & Hn). exists n, s'. split; [done|].
  destruct (nm_applied _ _ _ _ _ _ Hn) as [s1 Ha]. rewrite Hrules in Ha. cbn in Ha.
  by injection Ha as _ <-.
Qed.

(** From any payload that is a mapping, without a number that is too long, the parser
    makes records that the normalization, without rules, turns into one valid device
    with the identity of the target; its interfaces, VLANs and neighbors are, in
    order, those its tables and SNMP rows describe.  Only a blank identity is refused. *)
Theorem payload_normalizes (self : NormalizationEngine S) name ctx raw records fresh s
    (Hrules : rule_registry self = [])
    (Hid : identified (emitted_id (ParserContext.source ctx) raw))
    (Hrecords : inventory_records (ParserContext.source ctx) raw = Ret records) :
  ∃ n s' d,
    (result <- parse_inventory name ctx (JDict raw) ;; normalize_result self fresh result) s
      = (Ret n, s') ∧
    validate_snapshot_integrity (instant s') (snapshot n) s' = (Ret tt, s') ∧
    Live.devices (snapshot n) = [d] ∧
    DeviceSnapshot.device_id d = str_strip (emitted_id (ParserContext.source ctx) raw) ∧
    map (λ i, (InterfaceSnapshot.device_id i, InterfaceSnapshot.name i))
      (DeviceSnapshot.interfaces d) = omap interface_entry records ∧
    map (λ v, (from_option id "" (VLANSnapshot.device_id v),
               (VLANSnapshot.vlan_id v, VLANSnapshot.name v)))
      (DeviceSnapshot.vlans d) = omap vlan_entry records ∧
    map (λ x, (NeighborSnapshot.local_device_id x,
               (NeighborSnapshot.local_interface x, NeighborSnapshot.remote_device_id x)))
      (DeviceSnapshot.neighbors d) = omap neighbor_entry records.
Proof.
  pose proof (tick_forward s) as Ht.
  set (res := {|
    Parsed.parser_name := name; Parsed.source := ParserContext.source ctx;
    Parsed.input_format := ParserContext.input_format ctx; Parsed.records := records;
    Parsed.captured_at := instant s;
    Parsed.metadata := [("platform_family", dict_get_default "platform_family" (JStr "") raw)] |}).
  assert ((result <- parse_inventory name ctx (JDict raw) ;; normalize_result self fresh result) s =
    normalize_result self fresh res (tick s)) as ->.
  { unfold parse_inventory. rewrite Hrecords. reflexivity. }
  pose proof (filter_devices _ _ _ Hrecords) as Hf.
  destruct (inventory_records_Ret _ _ _ Hrecords) as (device & parts & Hrs & Hdev & _).
  assert (take 1 records = [{| kind := "device"; payload := device |}]) as Er by by rewrite Hrs.
  set (r := {| kind := "device"; payload := device |}) in *. rewrite Er in Hf.
  assert (text_of "device_id" (payload r) = str_strip (emitted_id (ParserContext.source ctx) raw)) as Hr
    by (by apply text_of_JStr).
  destruct (normalize_one_device self fresh res r (tick s)) as (n & s' & E & Hn); try done.
  { unfold identified in *. by rewrite Hr, str_strip_idemp. }
  pose proof (nm_devices _ _ _ _ _ _ Hn) as Hd. cbn [res Parsed.records] in Hd. rewrite Hf in Hd.
  apply Forall2_cons_inv_l in Hd as (d & ds & Hd & Hnil & Hds). apply Forall2_nil_inv_l in Hnil as ->.
  assert (DeviceSnapshot.device_id d = str_strip (emitted_id (ParserContext.source ctx) raw)) as Hdid
    by (by rewrite (dm_id _ _ _ _ _ Hd)).
  exists n, s', d. split; [exact E|]. split; [by eapply normalized_valid|]. split; [done|].
  split; [done|].
  assert (∀ k field, k ∈ ["interface"; "vlan"] ∧ field = "device_id" ∨
      k = "neighbor" ∧ field = "local_device_id" →
    Forall (names_device k field (DeviceSnapshot.device_id d)) records) as Hrec
    by (intros k field Hk; rewrite Hdid; by apply records_name_device).
  clear -Hd Hrec. split_and!.
  - apply (keys_are_entries _ _ _ _ _ _ _ (Forall_impl _ _ _
      (Hrec "interface" "device_id" ltac:(left; split; [by apply mem_true|done]))
      (interface_keys _)) (dm_interfaces _ _ _ _ _ Hd)).
  - apply (keys_are_entries _ _ _ _ _ _ _ (Forall_impl _ _ _
      (Hrec "vlan" "device_id" ltac:(left; split; [by apply mem_true|done]))
      (vlan_keys _)) (dm_vlans _ _ _ _ _ Hd)).
  - apply (keys_are_entries _ _ _ _ _ _ _ (Forall_impl _ _ _
      (Hrec "neighbor" "local_device_id" ltac:(by right))
      (neighbor_keys _)) (dm_neighbors _ _ _ _ _ Hd)).
Qed.
End Normalizes.

(** The clock of the examples counts its readings. *)
#[local] Instance counting_clock : Clock Z := {| instant := id; tick := Z.succ |}.
#[local] Instance counting_clock_forward : ClockForward Z.
Proof. intros s. cbn. lia. Qed.
#[local] Instance fixture_floats : FloatRepr := λ _, "".

(** The payload of the parser's own test, from its fixtures. *)
Definition fixture_payload : dict := [
  ("target", JDict [("identifier", JStr "switch-1"); ("address", JStr "10.0.0.10")]);
  ("platform_family", JStr "catalyst-2960x"); ("parser_family", JStr "iosxe");
  ("commands", JDict [
    ("show version", JStr (unlines [
      "Cisco IOS XE Software, Version 15.2(7)E7";
      "Switch uptime is 2 years, 3 weeks, 4 days, 5 hours, 6 minutes";
      "System serial number            : FOC1234X1AB";
      "Model number                    : WS-C2960X-48FPS-L";
      "Base Ethernet MAC Address       : 00:11:22:33:44:55";
      "Hardware                        : WS-C2960X-48FPS-L"]));
    ("show vlan brief", JStr (unlines (vlan_header ++ map vlan_row_line fixture_vlans)));
    ("show interfaces status",
      JStr (unlines (interface_header ++ map interface_row_line fixture_interfaces)));
    ("show power inline", JStr (unlines [
      "Available:370.0(w)  Used:120.5(w)  Remaining:249.5(w)";
      "Interface Admin  Oper       Power   Device";
      "Gi1/0/2  auto   on         15.4    IP Phone"]));
    ("show cdp neighbors detail", JStr (unlines (entry_lines fixture_entry)))])].

Definition fixture_context : ParserContext := {|
  ParserContext.source := "switch-1"; ParserContext.input_format := JSON;
  ParserContext.parser_name := Some "cisco-inventory-parser"; ParserContext.run_id := 1%N;
  ParserContext.metadata := [] |}.

Definition plain_engine : NormalizationEngine Z :=
  {| allow_empty_records := false; rule_registry := [] |}.

Lemma fixture_normalizes :
  identified (emitted_id "switch-1" fixture_payload) ∧
  ∃ n s' d,
    (result <- parse_inventory "cisco-inventory-parser" fixture_context (JDict fixture_payload) ;;
     normalize_result plain_engine 7%N result) 0 = (Ret n, s') ∧
    Live.devices (snapshot n) = [d] ∧ DeviceSnapshot.device_id d = "switch-1" ∧
    length (DeviceSnapshot.interfaces d) = 2%nat.
Proof.
  assert (identified (emitted_id "switch-1" fixture_payload)) as Hid by (vm_compute; reflexivity).
  split; [exact Hid|].
  destruct (inventory_records (ParserContext.source fixture_context) fixture_payload) as [records|e] eqn:Er;
    [|vm_compute in Er; discriminate Er].
  destruct (payload_normalizes plain_engine "cisco-inventory-parser" fixture_context
    fixture_payload records 7%N 0 eq_refl Hid Er) as (n & s' & d & E & _ & Hd & Hdid & Hi & _).
  exists n, s', d. split; [exact E|]. split; [exact Hd|]. split; [rewrite Hdid; vm_compute; reflexivity|].
  apply (f_equal length) in Hi. rewrite length_map in Hi. rewrite Hi.
  vm_compute in Er. injection Er as <-. vm_compute. reflexivity.
Defined.

(** What the test expects of the device, read by the patterns. *)
Example fixture_device :
  map (λ k, dict_get k (payload (hd {| kind := ""; payload := [] |}
    match inventory_records "switch-1" fixture_payload with Ret rs => rs | Raise _ => [] end)))
    ["name"; "model"; "serial_number"; "software_version"; "base_mac"; "uptime"] =
  map (λ v, Some (JStr v))
    ["Switch"; "WS-C2960X-48FPS-L"; "FOC1234X1AB"; "15.2(7)E7"; "00:11:22:33:44:55";
     "2 years, 3 weeks, 4 days, 5 hours, 6 minutes"].
Proof. vm_compute. reflexivity. Qed.

Example fixture_power :
  power_record "switch-1" (string_mapping (dict_get "commands" fixture_payload)) [] =
  Some {| kind := "power"; payload := [
    ("device_id", JStr "switch-1"); ("source", JStr "poe"); ("status", JStr "available");
    ("available_watts", JStr "370.0"); ("consumed_watts", JStr "120.5");
    ("poe_enabled", JBool true)] |}.
Proof. vm_compute. reflexivity. Qed.

(** *** What gets lost *)

(** One port that is off disables PoE of the device. *)
Example one_port_off_disables_poe :
  option_map (λ r, dict_get "poe_enabled" (payload r))
    (power_record "switch-1" [("show power inline", unlines [
      "Available:370.0(w)  Used:120.5(w)  Remaining:249.5(w)";
      "Gi1/0/2  auto   on         15.4    IP Phone";
      "Gi1/0/3  auto   off        0.0     n/a"])] []) = Some (Some (JBool false)).
Proof. vm_compute. reflexivity. Qed.

(** The lines of [show lldp neighbors detail] on a Cisco device. *)
Example lldp_neighbors_lost :
  parse_neighbor_detail "switch-1" (unlines [
    "Local Intf: Gi1/0/1"; "Chassis id: 0011.2233.4455"; "Port id: Gi1/0/24";
    "Port Description: uplink"; "System Name: core-switch"]) "LLDP" = [].
Proof. vm_compute. reflexivity. Qed.

(** A number Python does not read ends the parsing. *)
Example vlan_number_too_long :
  vlan_line "switch-1" (String.concat "" (replicate (Z.to_nat 4301) "1") +:+ " users active") = Raise (integer_limit 4301).
Proof. vm_compute. reflexivity. Qed.

(** The device type of a port without a transceiver has two words, so that the speed
    read is the word before the last of them. *)
Example speed_of_two_word_type :
  convert (parse_interface_status "switch-1" "Te1/1/1  uplink  connected  trunk  full  10G  Not Present")
    (map (λ r, dict_get "speed_mbps" (payload r))) = Ret [Some JNull].
Proof. vm_compute. reflexivity. Qed.
