(* ===== verification/CiscoPlatforms.v ===== *)
(** * The Cisco platforms ([vendors/cisco/])

    The catalogs of commands, SNMP groups and HTTP endpoints, the definitions of the
    supported platforms, and the registry that resolves a platform by its family or
    detects it from what a device says of itself. *)

From S2P Require Import Prelude Vocabulary Effects Json Dicts Texts RegularExpressions.

#[local] Open Scope Z_scope.

(** [CiscoCapability] *)
Module Cisco.
Inductive CiscoCapability := SSH | SNMP | HTTP | CONFIG_BACKUP | CDP | LLDP | POE | VLAN | MAC_TABLE | INTERFACE_INVENTORY | NEIGHBOR_DISCOVERY.

#[export] Instance CiscoCapability_eq_dec : EqDecision CiscoCapability.
Proof. solve_decision. Defined.

Definition CiscoCapability_value (c : CiscoCapability) : string :=
  match c with
  | SSH => "SSH"
  | SNMP => "SNMP"
  | HTTP => "HTTP"
  | CONFIG_BACKUP => "CONFIG_BACKUP"
  | CDP => "CDP"
  | LLDP => "LLDP"
  | POE => "POE"
  | VLAN => "VLAN"
  | MAC_TABLE => "MAC_TABLE"
  | INTERFACE_INVENTORY => "INTERFACE_INVENTORY"
  | NEIGHBOR_DISCOVERY => "NEIGHBOR_DISCOVERY"
  end.

#[export] Program Instance CiscoCapability_StrEnum : StrEnum CiscoCapability := {|
  value := CiscoCapability_value;
  members := [SSH; SNMP; HTTP; CONFIG_BACKUP; CDP; LLDP; POE; VLAN; MAC_TABLE; INTERFACE_INVENTORY; NEIGHBOR_DISCOVERY];
|}.
Next Obligation. solve_members. Qed.
Next Obligation. solve_value_inj. Qed.
End Cisco.
Export (hints) Cisco.
Abbreviation CiscoCapability := Cisco.CiscoCapability.

(** [CommandCategory] *)
Module Command.
Inductive CommandCategory := INVENTORY | SYSTEM | INTERFACES | VLANS | MAC_TABLE | ARP | POWER | POE | NEIGHBORS | VERSION | RUNNING_CONFIGURATION | STARTUP_CONFIGURATION | ENVIRONMENT.

#[export] Instance CommandCategory_eq_dec : EqDecision CommandCategory.
Proof. solve_decision. Defined.

Definition CommandCategory_value (c : CommandCategory) : string :=
  match c with
  | INVENTORY => "inventory"
  | SYSTEM => "system"
  | INTERFACES => "interfaces"
  | VLANS => "vlans"
  | MAC_TABLE => "mac_table"
  | ARP => "arp"
  | POWER => "power"
  | POE => "poe"
  | NEIGHBORS => "neighbors"
  | VERSION => "version"
  | RUNNING_CONFIGURATION => "running_configuration"
  | STARTUP_CONFIGURATION => "startup_configuration"
  | ENVIRONMENT => "environment"
  end.

#[export] Program Instance CommandCategory_StrEnum : StrEnum CommandCategory := {|
  value := CommandCategory_value;
  members := [INVENTORY; SYSTEM; INTERFACES; VLANS; MAC_TABLE; ARP; POWER; POE; NEIGHBORS; VERSION; RUNNING_CONFIGURATION; STARTUP_CONFIGURATION; ENVIRONMENT];
|}.
Next Obligation. solve_members. Qed.
Next Obligation. solve_value_inj. Qed.
End Command.
Export (hints) Command.
Abbreviation CommandCategory := Command.CommandCategory.

(** [SnmpGroup] *)
Module Snmp.
Inductive SnmpGroup := INVENTORY | SYSTEM | INTERFACES | VLANS | MAC_TABLE | ARP | POWER | POE | NEIGHBORS.

#[export] Instance SnmpGroup_eq_dec : EqDecision SnmpGroup.
Proof. solve_decision. Defined.

Definition SnmpGroup_value (c : SnmpGroup) : string :=
  match c with
  | INVENTORY => "inventory"
  | SYSTEM => "system"
  | INTERFACES => "interfaces"
  | VLANS => "vlans"
  | MAC_TABLE => "mac_table"
  | ARP => "arp"
  | POWER => "power"
  | POE => "poe"
  | NEIGHBORS => "neighbors"
  end.

#[export] Program Instance SnmpGroup_StrEnum : StrEnum SnmpGroup := {|
  value := SnmpGroup_value;
  members := [INVENTORY; SYSTEM; INTERFACES; VLANS; MAC_TABLE; ARP; POWER; POE; NEIGHBORS];
|}.
Next Obligation. solve_members. Qed.
Next Obligation. solve_value_inj. Qed.
End Snmp.
Export (hints) Snmp.
Abbreviation SnmpGroup := Snmp.SnmpGroup.

(** ** Catalogs *)

Record CommandDefinition := { command : string; command_description : string }.
Record CommandGroup := { command_category : CommandCategory; group_commands : list CommandDefinition }.
Definition CommandCatalog := list CommandGroup.

(** [CommandCatalog.commands] and [categories]. *)
Definition commands_of (c : CommandCatalog) (category : CommandCategory) : list CommandDefinition :=
  match List.find (λ g, command_category g ≟ category) c with
  | Some g => group_commands g
  | None => []
  end.
Definition categories (c : CommandCatalog) : list CommandCategory := map command_category c.

Record SnmpOidGroup := { oid_group : SnmpGroup; group_oids : list string }.
Definition SnmpCatalog := list SnmpOidGroup.

(** [SnmpCatalog.oids] and [groups_names]. *)
Definition oids_of (c : SnmpCatalog) (group : SnmpGroup) : list string :=
  match List.find (λ g, oid_group g ≟ group) c with Some g => group_oids g | None => [] end.
Definition groups_names (c : SnmpCatalog) : list SnmpGroup := map oid_group c.

(** Every endpoint is read with GET. *)
Inductive HttpMethod := GET.
Definition HttpMethod_value (m : HttpMethod) : string := match m with GET => "GET" end.

Record HttpEndpointMetadata := { method : HttpMethod; path : string; endpoint_description : string }.
Definition HttpCatalog := list HttpEndpointMetadata.
Definition paths (c : HttpCatalog) : list string := map path c.

Definition COMMON_COMMAND_CATALOG : CommandCatalog := [
  {| command_category := Command.INVENTORY; group_commands := [
      {| command := "show inventory"; command_description := "Display inventory information." |}] |};
  {| command_category := Command.SYSTEM; group_commands := [
      {| command := "show version"; command_description := "Display system and firmware details." |}] |};
  {| command_category := Command.INTERFACES; group_commands := [
      {| command := "show interfaces status"; command_description := "Display interface status information." |};
      {| command := "show interfaces counters"; command_description := "Display interface counters." |}] |};
  {| command_category := Command.VLANS; group_commands := [
      {| command := "show vlan brief"; command_description := "Display VLAN membership." |}] |};
  {| command_category := Command.MAC_TABLE; group_commands := [
      {| command := "show mac address-table"; command_description := "Display MAC address table entries." |}] |};
  {| command_category := Command.ARP; group_commands := [
      {| command := "show ip arp"; command_description := "Display ARP table entries." |}] |};
  {| command_category := Command.POWER; group_commands := [
      {| command := "show power inline"; command_description := "Display power supply and PoE data." |}] |};
  {| command_category := Command.POE; group_commands := [
      {| command := "show power inline"; command_description := "Display PoE status." |}] |};
  {| command_category := Command.NEIGHBORS; group_commands := [
      {| command := "show cdp neighbors detail"; command_description := "Display CDP neighbors." |};
      {| command := "show lldp neighbors detail"; command_description := "Display LLDP neighbors." |}] |};
  {| command_category := Command.VERSION; group_commands := [
      {| command := "show version"; command_description := "Display software version." |}] |};
  {| command_category := Command.RUNNING_CONFIGURATION; group_commands := [
      {| command := "show running-config"; command_description := "Display the running configuration." |}] |};
  {| command_category := Command.STARTUP_CONFIGURATION; group_commands := [
      {| command := "show startup-config"; command_description := "Display the startup configuration." |}] |};
  {| command_category := Command.ENVIRONMENT; group_commands := [
      {| command := "show environment all"; command_description := "Display environmental telemetry." |}] |}].

Definition COMMON_SNMP_CATALOG : SnmpCatalog := [
  {| oid_group := Snmp.SYSTEM; group_oids := ["1.3.6.1.2.1.1"] |};
  {| oid_group := Snmp.INVENTORY; group_oids := ["1.3.6.1.2.1.47"] |};
  {| oid_group := Snmp.INTERFACES; group_oids := ["1.3.6.1.2.1.2"] |};
  {| oid_group := Snmp.VLANS; group_oids := ["1.3.6.1.2.1.17"] |};
  {| oid_group := Snmp.MAC_TABLE; group_oids := ["1.3.6.1.2.1.17.4.3"] |};
  {| oid_group := Snmp.ARP; group_oids := ["1.3.6.1.2.1.4.22"] |};
  {| oid_group := Snmp.POWER; group_oids := ["1.3.6.1.4.1.9.9.402"] |};
  {| oid_group := Snmp.POE; group_oids := ["1.3.6.1.4.1.9.9.402.1"] |};
  {| oid_group := Snmp.NEIGHBORS; group_oids := ["1.3.6.1.4.1.9.9.23"] |}].

Definition COMMON_HTTP_CATALOG : HttpCatalog := [
  {| method := GET; path := "/"; endpoint_description := "Root banner endpoint." |};
  {| method := GET; path := "/status"; endpoint_description := "Device status endpoint." |}].

(** ** Platforms *)

Record CiscoPlatformMetadata := {
  metadata_family : string;
  display_name : string;
  model_names : list string;
  product_ids : list string;
  transport_support : list TransportCapability;
  parser_family : string;
  firmware_family : string;
  platform_capabilities : list CiscoCapability;
}.

(** [CiscoPlatformMetadata.__post_init__]. *)
Definition check_platform (m : CiscoPlatformMetadata) : outcome CiscoPlatformMetadata :=
  let blank s := negb (str_truthy (str_strip s)) in
  if blank (metadata_family m) then raise_ ValueError "Cisco platform family must not be empty."
  else if blank (display_name m)
  then raise_ ValueError "Cisco platform display name must not be empty."
  else if is_nil (model_names m)
  then raise_ ValueError "Cisco platform must define at least one model name."
  else if is_nil (product_ids m)
  then raise_ ValueError "Cisco platform must define at least one product id."
  else if is_nil (transport_support m)
  then raise_ ValueError "Cisco platform must define transport support."
  else if blank (parser_family m)
  then raise_ ValueError "Cisco platform parser family must not be empty."
  else if blank (firmware_family m)
  then raise_ ValueError "Cisco platform firmware family must not be empty."
  else if is_nil (platform_capabilities m)
  then raise_ ValueError "Cisco platform must define at least one capability."
  else Ret m.

Record CiscoPlatformDefinition := {
  platform_metadata : CiscoPlatformMetadata;
  command_catalog : CommandCatalog;
  snmp_catalog : SnmpCatalog;
  http_catalog : HttpCatalog;
  platform_strings : list string;
  sys_object_ids : list string;
  http_banners : list string;
}.

Definition family (p : CiscoPlatformDefinition) : string := metadata_family (platform_metadata p).

Definition matches_model (v : string) (p : CiscoPlatformDefinition) : bool :=
  mem (str_lower (str_strip v)) (map str_lower (model_names (platform_metadata p))).
Definition matches_pid (v : string) (p : CiscoPlatformDefinition) : bool :=
  mem (str_lower (str_strip v)) (map str_lower (product_ids (platform_metadata p))).
Definition matches_platform_string (v : string) (p : CiscoPlatformDefinition) : bool :=
  existsb (λ token, str_in (str_lower token) (str_lower (str_strip v))) (platform_strings p).
Definition matches_sys_object_id (v : string) (p : CiscoPlatformDefinition) : bool :=
  mem (str_strip v) (sys_object_ids p).
Definition matches_http_banner (v : string) (p : CiscoPlatformDefinition) : bool :=
  existsb (λ token, str_in (str_lower token) (str_lower (str_strip v))) (http_banners p).

Definition CATALYST_2960 : CiscoPlatformDefinition := {|
  platform_metadata := {|
    metadata_family := "catalyst-2960";
    display_name := "Cisco Catalyst 2960";
    model_names := ["WS-C2960-24TT-L"; "WS-C2960-48TT-L"];
    product_ids := ["WS-C2960-24TT-L"; "WS-C2960-48TT-L"];
    transport_support := [Transport.SSH; Transport.SNMP; Transport.TELNET];
    parser_family := "ios";
    firmware_family := "ios";
    platform_capabilities := [Cisco.SSH; Cisco.SNMP; Cisco.CONFIG_BACKUP; Cisco.CDP; Cisco.LLDP; Cisco.VLAN; Cisco.MAC_TABLE; Cisco.INTERFACE_INVENTORY; Cisco.NEIGHBOR_DISCOVERY] |};
  command_catalog := COMMON_COMMAND_CATALOG;
  snmp_catalog := COMMON_SNMP_CATALOG;
  http_catalog := COMMON_HTTP_CATALOG;
  platform_strings := ["Cisco IOS Software"; "WS-C2960"];
  sys_object_ids := ["1.3.6.1.4.1.9.1.516"];
  http_banners := ["cisco ios"] |}.

Definition CATALYST_3560 : CiscoPlatformDefinition := {|
  platform_metadata := {|
    metadata_family := "catalyst-3560";
    display_name := "Cisco Catalyst 3560";
    model_names := ["WS-C3560-24PS-S"; "WS-C3560-48PS-S"];
    product_ids := ["WS-C3560-24PS-S"; "WS-C3560-48PS-S"];
    transport_support := [Transport.SSH; Transport.SNMP];
    parser_family := "ios";
    firmware_family := "ios";
    platform_capabilities := [Cisco.SSH; Cisco.SNMP; Cisco.CONFIG_BACKUP; Cisco.CDP; Cisco.LLDP; Cisco.VLAN; Cisco.MAC_TABLE; Cisco.INTERFACE_INVENTORY; Cisco.NEIGHBOR_DISCOVERY; Cisco.POE] |};
  command_catalog := COMMON_COMMAND_CATALOG;
  snmp_catalog := COMMON_SNMP_CATALOG;
  http_catalog := COMMON_HTTP_CATALOG;
  platform_strings := ["Cisco IOS Software"; "WS-C3560"];
  sys_object_ids := ["1.3.6.1.4.1.9.1.517"];
  http_banners := ["cisco ios"] |}.

Definition CATALYST_2960X : CiscoPlatformDefinition := {|
  platform_metadata := {|
    metadata_family := "catalyst-2960x";
    display_name := "Cisco Catalyst 2960X";
    model_names := ["WS-C2960X-24TS-L"; "WS-C2960X-48FPS-L"];
    product_ids := ["WS-C2960X-24TS-L"; "WS-C2960X-48FPS-L"];
    transport_support := [Transport.SSH; Transport.SNMP; Transport.HTTP];
    parser_family := "iosxe";
    firmware_family := "iosxe";
    platform_capabilities := [Cisco.SSH; Cisco.SNMP; Cisco.HTTP; Cisco.CONFIG_BACKUP; Cisco.CDP; Cisco.LLDP; Cisco.VLAN; Cisco.MAC_TABLE; Cisco.INTERFACE_INVENTORY; Cisco.NEIGHBOR_DISCOVERY; Cisco.POE] |};
  command_catalog := COMMON_COMMAND_CATALOG;
  snmp_catalog := COMMON_SNMP_CATALOG;
  http_catalog := COMMON_HTTP_CATALOG;
  platform_strings := ["Cisco IOS XE Software"; "WS-C2960X"];
  sys_object_ids := ["1.3.6.1.4.1.9.1.1510"];
  http_banners := ["cisco ios xe"] |}.

Definition CATALYST_EXPRESS_500 : CiscoPlatformDefinition := {|
  platform_metadata := {|
    metadata_family := "catalyst-express-500";
    display_name := "Cisco Catalyst Express 500";
    model_names := ["WS-CE500-24TT"; "WS-CE500-24LC"];
    product_ids := ["WS-CE500-24TT"; "WS-CE500-24LC"];
    transport_support := [Transport.HTTP; Transport.SNMP];
    parser_family := "ce500";
    firmware_family := "ce500";
    platform_capabilities := [Cisco.HTTP; Cisco.SNMP; Cisco.CONFIG_BACKUP; Cisco.VLAN; Cisco.MAC_TABLE; Cisco.INTERFACE_INVENTORY; Cisco.NEIGHBOR_DISCOVERY; Cisco.POE] |};
  command_catalog := COMMON_COMMAND_CATALOG;
  snmp_catalog := COMMON_SNMP_CATALOG;
  http_catalog := COMMON_HTTP_CATALOG;
  platform_strings := ["Cisco Catalyst Express 500"; "WS-CE500"];
  sys_object_ids := ["1.3.6.1.4.1.9.1.748"];
  http_banners := ["cisco catalyst express"] |}.

Definition AIRONET_1131 : CiscoPlatformDefinition := {|
  platform_metadata := {|
    metadata_family := "aironet-1131";
    display_name := "Cisco Aironet 1131";
    model_names := ["AIR-AP1131AG-A-K9"; "AIR-AP1131G-A-K9"];
    product_ids := ["AIR-AP1131AG-A-K9"; "AIR-AP1131G-A-K9"];
    transport_support := [Transport.SNMP; Transport.HTTP];
    parser_family := "aironet";
    firmware_family := "aironet";
    platform_capabilities := [Cisco.SNMP; Cisco.HTTP; Cisco.CONFIG_BACKUP; Cisco.VLAN; Cisco.INTERFACE_INVENTORY; Cisco.NEIGHBOR_DISCOVERY] |};
  command_catalog := COMMON_COMMAND_CATALOG;
  snmp_catalog := COMMON_SNMP_CATALOG;
  http_catalog := COMMON_HTTP_CATALOG;
  platform_strings := ["Cisco Aironet"; "AIR-AP1131"];
  sys_object_ids := ["1.3.6.1.4.1.9.1.928"];
  http_banners := ["cisco aironet"] |}.

(** ** The registry ([platforms.py]) *)

Definition PUBLIC_PLATFORM_ALIASES : list (string * string) := [
  ("cisco-ios", "catalyst-2960");
  ("cisco-iosxe", "catalyst-2960x");
  ("ios", "catalyst-2960");
  ("iosxe", "catalyst-2960x");
  ("cisco-ios-xe", "catalyst-2960x");
  ("cisco-ios-x", "catalyst-2960x");
  ("cisco-ios-xe-software", "catalyst-2960x");
  ("cisco-ios-software", "catalyst-2960");
  ("cisco-catalyst-2960", "catalyst-2960");
  ("catalyst-2960", "catalyst-2960");
  ("cisco-catalyst-2960x", "catalyst-2960x");
  ("catalyst-2960x", "catalyst-2960x")].

Abbreviation CiscoPlatformRegistry := (list (string * CiscoPlatformDefinition)).

(** The text under which [canonicalize_family] looks for an alias. *)
Definition normalize_family (family : string) : string :=
  strip_char "-" (sub_runs is_space "-" false
    (replace_char "_" "-" (str_lower (str_strip family)))).

Definition canonicalize_family (family : string) : string :=
  let normalized := normalize_family family in
  from_option (λ f, f) normalized (get normalized PUBLIC_PLATFORM_ALIASES).

Definition register_platform (p : CiscoPlatformDefinition) (r : CiscoPlatformRegistry)
    : CiscoPlatformRegistry := put (family p) p r.

Definition get_platform (r : CiscoPlatformRegistry) (family : string)
    : outcome CiscoPlatformDefinition :=
  match get family r with
  | Some p => Ret p
  | None => raise_ KeyError (str_repr family)
  end.

Definition all_platforms (r : CiscoPlatformRegistry) : list CiscoPlatformDefinition := values r.

Record CiscoDetectionSignals := {
  model : option string;
  product_id : option string;
  platform_string : option string;
  sys_object_id : option string;
  http_banner : option string;
}.

(** [_score]. *)
Definition score (p : CiscoPlatformDefinition) (signals : CiscoDetectionSignals) : Z :=
  let points (signal : option string) (matches : string → CiscoPlatformDefinition → bool) n :=
    match signal with Some v => if matches v p then n else 0 | None => 0 end in
  points (model signals) matches_model 5
  + points (product_id signals) matches_pid 5
  + points (platform_string signals) matches_platform_string 4
  + points (sys_object_id signals) matches_sys_object_id 4
  + points (http_banner signals) matches_http_banner 3.

(** The loop of [detect]. *)
Definition better (signals : CiscoDetectionSignals)
    (best : option CiscoPlatformDefinition * Z) (p : CiscoPlatformDefinition)
    : option CiscoPlatformDefinition * Z :=
  if best.2 <? score p signals then (Some p, score p signals) else best.

Definition detect (r : CiscoPlatformRegistry) (signals : CiscoDetectionSignals)
    : option CiscoPlatformDefinition :=
  (fold_left (better signals) (values r) (None, 0)).1.

(** [detect_by_model], [detect_by_pid] and the others, through [_matches]. *)
Definition matching_platforms (r : CiscoPlatformRegistry) (predicate : CiscoPlatformDefinition → bool)
    : list CiscoPlatformDefinition := List.filter predicate (values r).
Definition detect_by_model r v := matching_platforms r (matches_model v).
Definition detect_by_pid r v := matching_platforms r (matches_pid v).
Definition detect_by_platform_string r v := matching_platforms r (matches_platform_string v).
Definition detect_by_sys_object_id r v := matching_platforms r (matches_sys_object_id v).
Definition detect_by_http_banner r v := matching_platforms r (matches_http_banner v).

Definition default_registry : CiscoPlatformRegistry :=
  fold_left (λ r p, register_platform p r)
    [CATALYST_2960; CATALYST_2960X; CATALYST_3560; CATALYST_EXPRESS_500; AIRONET_1131] [].

(** ** Capabilities ([capabilities.py]) *)

Definition supports_capability (r : CiscoPlatformRegistry) (family : string) (c : CiscoCapability)
    : outcome bool :=
  match get_platform r family with
  | Ret p => Ret (mem c (platform_capabilities (platform_metadata p)))
  | Raise e => Raise e
  end.

Definition transport_support_of (r : CiscoPlatformRegistry) (family : string)
    : outcome (list TransportCapability) :=
  match get_platform r family with
  | Ret p => Ret (transport_support (platform_metadata p))
  | Raise e => Raise e
  end.

Definition capabilities_of (r : CiscoPlatformRegistry) (family : string)
    : outcome (list CiscoCapability) :=
  match get_platform r family with
  | Ret p => Ret (platform_capabilities (platform_metadata p))
  | Raise e => Raise e
  end.

(** * Correctness of the platform registry

    Labels are canonical after one step, detection answers with a best platform, and
    the supported platforms are found by everything they are known by. *)

(** ** Canonical labels *)

(** A character a normalized label may have. *)
Definition label_char (c : ascii) : bool :=
  negb (is_space c) && negb (c ≟ "_"%char) && (ascii_lower c ≟ c).

Lemma str_all_map f (p q : ascii → bool) s :
  (∀ c, p c = true → q (f c) = true) → str_all p s = true → str_all q (str_map f s) = true.
Proof.
  intros H. induction s as [|c s IH]; [done|]. cbn. rewrite !andb_true_iff. naive_solver.
Qed.

Lemma str_all_true s : str_all (λ _, true) s = true.
Proof. by induction s. Qed.

Lemma str_all_lstrip_char p c s : str_all p s = true → str_all p (lstrip_char c s) = true.
Proof.
  induction s as [|d s IH]; [done|]. cbn [lstrip_char]. destruct (d ≟ c); [|done].
  cbn. intros [_ ?]%andb_true_iff. auto.
Qed.

Lemma str_all_rstrip_char p c s : str_all p s = true → str_all p (rstrip_char c s) = true.
Proof.
  induction s as [|d s IH]; [done|]. cbn. intros [Hd Hs]%andb_true_iff. specialize (IH Hs).
  destruct (rstrip_char c s); [destruct (d ≟ c)|]; cbn in *; by rewrite ?Hd, ?IH.
Qed.

Lemma sub_runs_all q b s :
  (∀ c, is_space c = false → q c = true → label_char c = true) →
  str_all q s = true → str_all label_char (sub_runs is_space "-" b s) = true.
Proof.
  intros Hq. revert b. induction s as [|c s IH]; intros b; [done|]. cbn [str_all sub_runs].
  intros [Hc Hs]%andb_true_iff. destruct (is_space c) eqn:E.
  - rewrite str_all_app, IH by done. by destruct b.
  - cbn. rewrite IH by done. by rewrite (Hq c E Hc).
Qed.

Lemma label_chars s : str_all label_char (normalize_family s) = true.
Proof.
  unfold normalize_family, strip_char. apply str_all_rstrip_char, str_all_lstrip_char.
  apply (sub_runs_all (λ c, negb (c ≟ "_"%char) && (ascii_lower c ≟ c))).
  - intros c Hs Hc. unfold label_char. by rewrite Hs.
  - apply (str_all_map _ (λ c, ascii_lower c ≟ c)).
    + intros c Hc. cbn. destruct (c ≟ "_"%char) eqn:E; [done|]. by rewrite E.
    + apply (str_all_map _ (λ _, true)); [|apply str_all_true].
      intros c _. apply eqb_true, ascii_lower_idem.
Qed.

Lemma rstrip_char_idem c s : rstrip_char c (rstrip_char c s) = rstrip_char c s.
Proof.
  induction s as [|d s IH]; [done|]. cbn. destruct (rstrip_char c s) as [|e t] eqn:E.
  - destruct (d ≟ c) eqn:Ed; cbn; [done|]. by rewrite Ed.
  - cbn [rstrip_char] in *. by rewrite IH.
Qed.

Lemma lstrip_rstrip_char c s : lstrip_char c s = s → lstrip_char c (rstrip_char c s) = rstrip_char c s.
Proof.
  destruct s as [|d s]; [done|]. cbn. destruct (d ≟ c) eqn:Ed.
  - intros H. exfalso.
    assert (∀ t, String.length (lstrip_char c t) <= String.length t)%nat as Hl.
    { clear. induction t as [|e t IH]; cbn; [lia|]. destruct (e ≟ c); cbn; lia. }
    specialize (Hl s). rewrite H in Hl. cbn in Hl. lia.
  - intros _. destruct (rstrip_char c s); cbn; rewrite Ed; cbn; by rewrite ?Ed.
Qed.

Lemma strip_char_idem c s : strip_char c (strip_char c s) = strip_char c s.
Proof.
  unfold strip_char.
  assert (lstrip_char c (lstrip_char c s) = lstrip_char c s) as Hl.
  { induction s as [|d s IH]; [done|]. cbn [lstrip_char].
    destruct (d ≟ c) eqn:E; [done|]. cbn. by rewrite E. }
  rewrite (lstrip_rstrip_char c (lstrip_char c s) Hl). apply rstrip_char_idem.
Qed.

(** A text of label characters passes every step but the last unchanged. *)
Lemma normalize_label s : str_all label_char s = true → normalize_family s = strip_char "-" s.
Proof.
  intros Hs. unfold normalize_family.
  assert (str_strip s = s) as ->.
  { assert (∀ s, str_all label_char s = true → str_rstrip s = s) as Hr.
    { clear. induction s as [|c s IH]; [done|]. cbn. unfold label_char at 1.
      rewrite !andb_true_iff, !negb_true_iff. intros (((Hc & _) & _) & Hs). rewrite (IH Hs).
      destruct s; [by rewrite Hc|done]. }
    unfold str_strip. destruct s as [|c s]; [done|]. cbn [str_lstrip].
    pose proof Hs as Hc. cbn in Hc. unfold label_char at 1 in Hc.
    rewrite !andb_true_iff, !negb_true_iff in Hc. destruct Hc as (((Hc & _) & _) & _).
    rewrite Hc. by apply Hr. }
  f_equal. induction s as [|c s IH]; [done|]. cbn in Hs. apply andb_true_iff in Hs as [Hc Hs].
  unfold label_char in Hc. rewrite !andb_true_iff, !negb_true_iff in Hc.
  destruct Hc as ((Hc & Hu) & Hl). rewrite eqb_true in Hl.
  unfold str_lower, replace_char in *. cbn [str_map]. rewrite Hl, Hu. cbn [sub_runs].
  rewrite Hc. f_equal. by apply IH.
Qed.

Lemma normalize_family_idem s : normalize_family (normalize_family s) = normalize_family s.
Proof.
  rewrite normalize_label by apply label_chars. unfold normalize_family. apply strip_char_idem.
Qed.

(** The families the aliases stand for. *)
Definition alias_ok (f : string) : bool :=
  (canonicalize_family f ≟ f) &&
  match get_platform default_registry f with Ret p => family p ≟ f | Raise _ => false end.

Lemma aliases_ok : forallb alias_ok (values PUBLIC_PLATFORM_ALIASES) = true.
Proof. vm_compute. done. Qed.

Lemma alias_family k f :
  get k PUBLIC_PLATFORM_ALIASES = Some f →
  canonicalize_family f = f ∧ ∃ p, get_platform default_registry f = Ret p ∧ family p = f.
Proof.
  intros Hf%get_values. pose proof aliases_ok as Hall. rewrite forallb_forall in Hall.
  apply list_elem_of_In, Hall in Hf. unfold alias_ok in Hf.
  apply andb_true_iff in Hf as [Hc Hp]. rewrite eqb_true in Hc. split; [done|].
  destruct (get_platform default_registry f) as [p|]; [|done]. rewrite eqb_true in Hp. eauto.
Qed.

(** Canonical platform labels are canonical: normalizing twice changes nothing, and
    whatever the blanks, the case, the underscores and the dashes around it, a label
    that is an alias names a platform of the default registry. *)
Theorem canonicalize_idempotent label :
  canonicalize_family (canonicalize_family label) = canonicalize_family label ∧
  (∀ f, get (normalize_family label) PUBLIC_PLATFORM_ALIASES = Some f →
   ∃ p, get_platform default_registry (canonicalize_family label) = Ret p ∧ family p = f).
Proof.
  destruct (get (normalize_family label) PUBLIC_PLATFORM_ALIASES) as [f|] eqn:E.
  - assert (canonicalize_family label = f) as ->.
    { unfold canonicalize_family. by rewrite E. }
    destruct (alias_family _ _ E) as (Hc & Hp). split; [done|]. by intros ? [= <-].
  - assert (canonicalize_family label = normalize_family label) as ->.
    { unfold canonicalize_family. by rewrite E. }
    split; [|done]. unfold canonicalize_family. by rewrite normalize_family_idem, E.
Qed.

(** ** Detection *)

Lemma score_nonneg p signals : 0 <= score p signals.
Proof.
  unfold score. cbv zeta.
  assert (∀ (sig : option string) (m : string → CiscoPlatformDefinition → bool) n, 0 <= n →
    0 <= match sig with Some v => if (m v p : bool) then n else 0 | None => 0 end) as H.
  { intros [v|] m n Hn; [destruct (m v p)|]; lia. }
  repeat apply Z.add_nonneg_nonneg; apply H; lia.
Qed.

(** What the loop of [detect] has found after the platforms [ps]. *)
Definition best_of (signals : CiscoDetectionSignals) (ps : list CiscoPlatformDefinition)
    (best : option CiscoPlatformDefinition * Z) : Prop :=
  match best.1 with
  | Some p =>
      best.2 = score p signals ∧ 0 < score p signals ∧
      ∃ before after, ps = before ++ p :: after ∧
        Forall (λ q, score q signals < score p signals) before ∧
        Forall (λ q, score q signals <= score p signals) after
  | None => best.2 = 0 ∧ Forall (λ q, score q signals = 0) ps
  end.

Lemma best_of_step signals ps best p :
  best_of signals ps best → best_of signals (ps ++ [p]) (better signals best p).
Proof.
  pose proof (score_nonneg p signals) as Hp.
  destruct best as [[q|] n]; unfold best_of, better; cbn [fst snd].
  - intros (-> & Hpos & before & after & -> & Hb & Ha).
    destruct (score q signals <? score p signals) eqn:E; cbn [fst snd].
    + apply Z.ltb_lt in E. split_and!; [done|lia|]. exists (before ++ q :: after), [].
      split_and!; [done| |done]. apply Forall_app. split; [|apply Forall_cons; split; [done|]].
      all: eapply Forall_impl; [eassumption|]; cbn; lia.
    + apply Z.ltb_ge in E. split_and!; [done|done|]. exists before, (after ++ [p]).
      split_and!; [by rewrite <- (assoc _)|done|]. apply Forall_app. by repeat constructor.
  - intros (-> & Hz). destruct (0 <? score p signals) eqn:E; cbn [fst snd].
    + apply Z.ltb_lt in E. split_and!; [done|done|]. exists ps, []. split_and!; [done| |done].
      eapply Forall_impl; [exact Hz|]. cbn. lia.
    + apply Z.ltb_ge in E. split; [done|]. apply Forall_app. repeat constructor; [done|lia].
Qed.

Lemma best_of_fold signals ps qs best :
  best_of signals qs best → best_of signals (qs ++ ps) (fold_left (better signals) ps best).
Proof.
  revert qs best. induction ps as [|p ps IH]; intros qs best H; [by rewrite app_nil_r|].
  cbn [fold_left]. replace (qs ++ p :: ps) with ((qs ++ [p]) ++ ps) by by rewrite <- (assoc _).
  apply IH. by apply best_of_step.
Qed.

(** Detection gives the first platform, in the order of registration, whose score is
    the greatest, and no platform exactly when nothing the device says matches any. *)
Theorem detect_best r signals :
  match detect r signals with
  | Some p =>
      0 < score p signals ∧
      ∃ before after, all_platforms r = before ++ p :: after ∧
        Forall (λ q, score q signals < score p signals) before ∧
        Forall (λ q, score q signals <= score p signals) after
  | None => Forall (λ q, score q signals = 0) (all_platforms r)
  end.
Proof.
  pose proof (best_of_fold signals (values r) [] (None, 0)) as H.
  unfold detect, all_platforms. destruct (fold_left _ _ _) as [[p|] n]; cbn [fst];
    destruct H as [? H]; done || by destruct H.
Qed.

(** ** The supported platforms *)

Definition detects (signals : CiscoDetectionSignals) (p : CiscoPlatformDefinition) : bool :=
  match detect default_registry signals with Some q => family q ≟ family p | None => false end.

(** A platform the default registry knows by its family, each model name, each product id
    and each system object id. *)
Definition known (p : CiscoPlatformDefinition) : bool :=
  match check_platform (platform_metadata p) with Ret _ => true | Raise _ => false end &&
  match get_platform default_registry (family p) with
  | Ret q => family q ≟ family p | Raise _ => false end &&
  forallb (λ m, detects {| model := Some m; product_id := None; platform_string := None;
                           sys_object_id := None; http_banner := None |} p)
    (model_names (platform_metadata p)) &&
  forallb (λ i, detects {| model := None; product_id := Some i; platform_string := None;
                           sys_object_id := None; http_banner := None |} p)
    (product_ids (platform_metadata p)) &&
  forallb (λ o, detects {| model := None; product_id := None; platform_string := None;
                           sys_object_id := Some o; http_banner := None |} p)
    (sys_object_ids p).

Example supported_platforms_known :
  map family (all_platforms default_registry)
    = ["catalyst-2960"; "catalyst-2960x"; "catalyst-3560"; "catalyst-express-500"; "aironet-1131"] ∧
  forallb known (all_platforms default_registry) = true.
Proof. vm_compute. done. Qed.

(** A 2960X that says what it is in a platform string only: the token [WS-C2960] of the
    2960 is a part of it, the scores are equal and the 2960 was registered first. *)
Example platform_string_2960X :
  detects {| model := None; product_id := None; platform_string := Some "WS-C2960X-48FPS-L";
             sys_object_id := None; http_banner := None |} CATALYST_2960 = true.
Proof. vm_compute. done. Qed.
