(* ===== verification/CiscoCollector.v ===== *)
(** * The Cisco inventory collectors ([collectors/cisco/base.py], [factory.py])

    Resolving the platform of a target, selecting a transport the platform supports,
    collecting with read-only commands, walks and requests, and normalizing.  What the
    sessions of the transports can do is an interface: computations on the world of the
    transport manager. *)

From S2P Require Import Prelude Vocabulary Effects Json Dicts Inventories Normalization.
From S2P Require Import Credentials TransportManager Execution CollectorRuntime Resilience.
From S2P Require Import CiscoParser CiscoPlatforms.
#[local] Open Scope Z_scope.

Definition TRANSPORT_PRIORITY : list TransportCapability :=
  [Transport.SSH; Transport.TELNET; Transport.HTTPS; Transport.HTTP; Transport.SNMP].

Definition DEFAULT_TRANSPORT_NAMES : list (TransportCapability * list string) := [
  (Transport.SSH, ["netmiko"; "paramiko"]);
  (Transport.TELNET, ["telnetlib"]);
  (Transport.HTTPS, ["httpx"]);
  (Transport.HTTP, ["httpx"]);
  (Transport.SNMP, ["pysnmp"])].

Definition SSH_COMMAND_CATEGORIES : list CommandCategory :=
  [Command.INVENTORY; Command.SYSTEM; Command.INTERFACES; Command.VLANS; Command.POWER;
   Command.POE; Command.NEIGHBORS].

Definition SNMP_GROUPS : list SnmpGroup :=
  [Snmp.SYSTEM; Snmp.INVENTORY; Snmp.INTERFACES; Snmp.VLANS; Snmp.POE; Snmp.NEIGHBORS].

(** [CiscoInventoryCollectionError], a [RuntimeError] of the module's own. *)
Definition collection_error {S A} (message : string) : M S A :=
  raise (OtherError "CiscoInventoryCollectionError") message.

(** [_inventory_commands]. *)
Definition inventory_commands (platform : CiscoPlatformDefinition) : list string :=
  let definitions category :=
    if mem category [Command.POWER; Command.POE]
       && negb (mem Cisco.POE (platform_capabilities (platform_metadata platform)))
    then []
    else
      List.filter (λ c, negb (str_in "running-config" c) && negb (str_in "startup-config" c))
        (map command (commands_of (command_catalog platform) category)) in
  first_occurrences (flat_map definitions SSH_COMMAND_CATEGORIES).

(** [_snmp_group_supported]. *)
Definition snmp_group_supported (platform : CiscoPlatformDefinition) (group : SnmpGroup) : bool :=
  let caps := platform_capabilities (platform_metadata platform) in
  match group with
  | Snmp.POE => mem Cisco.POE caps
  | Snmp.VLANS => mem Cisco.VLAN caps
  | Snmp.NEIGHBORS => mem Cisco.NEIGHBOR_DISCOVERY caps
  | _ => true
  end.

(** [_optional_string]. *)
Definition optional_string {HF : FloatRepr} (v : option json) : option string :=
  match v with
  | None | Some JNull => None
  | Some v => let text := str_strip (py_str v) in if str_truthy text then Some text else None
  end.

(** The response to a request: its [text] if that is a text, what [aread] gives if it is
    bytes, decoded with replacement, and its [str]. *)
Record HttpResponse (S : Type) := {
  response_text : option string;
  response_aread : option (M S (option string));
  response_str : string;
}.
Arguments response_text {S} _.
Arguments response_aread {S} _.
Arguments response_str {S} _.

Section Collector.
Context {HF : FloatRepr} {R : Type}.
Abbreviation W := (TransportManager.World R).
Abbreviation TransportManager := (TransportManager.TransportManager (R := R)).

(** [CommandSession], [SnmpWalkSession] and [HttpRequestSession]: the methods a session
    has, if any. *)
Class SessionMethods := {
  execute : TransportSession → option (string → M W string);
  walk : TransportSession → option (string → M W (list (string * json)));
  request : TransportSession → option (string → string → M W (HttpResponse W));
}.

(** ** The transport *)

Record CiscoTransportSelection := {
  selected_capability : TransportCapability;
  selected_name : string;
}.

Record CiscoTransportSelector := {
  selector_manager : TransportManager;
  transport_names : list (TransportCapability * list string);
}.

(** [_highest_priority]. *)
Definition highest_priority (capabilities : list TransportCapability) : M W TransportCapability :=
  match List.find (λ c, mem c capabilities) TRANSPORT_PRIORITY with
  | Some c => ret c
  | None => collection_error "No supported transport capability found."
  end.

(** The transports [select] tries without a preference, in order. *)
Definition transport_candidates (self : CiscoTransportSelector) (platform : CiscoPlatformDefinition)
    : list (TransportCapability * string) :=
  flat_map (λ c, map (λ n, (c, n)) (from_option (λ ns, ns) [] (get c (transport_names self))))
    (List.filter (λ c, mem c (transport_support (platform_metadata platform))) TRANSPORT_PRIORITY).

(** The two loops of [select]; only a [KeyError] of the manager goes on. *)
Fixpoint try_candidates (manager : TransportManager) (platform : CiscoPlatformDefinition)
    (candidates : list (TransportCapability * string)) : M W CiscoTransportSelection :=
  match candidates with
  | [] => collection_error
            ("No registered transport is available for " +:+ str_repr (family platform) +:+ ".")
  | (c, n) :: rest =>
      transport <- catching (resolve manager n) ;;
      match transport with
      | Ret t =>
          if mem c (capabilities t)
          then ret {| selected_capability := c; selected_name := name t |}
          else try_candidates manager platform rest
      | Raise e => if isinstance e KeyError then try_candidates manager platform rest else reraise e
      end
  end.

(** [CiscoTransportSelector.select]. *)
Definition select_transport_for (self : CiscoTransportSelector) (platform : CiscoPlatformDefinition)
    (preferred_transport_name : option string) : M W CiscoTransportSelection :=
  match preferred_transport_name with
  | Some preferred =>
      t <- resolve (selector_manager self) preferred ;;
      let shared := List.filter (λ c, mem c (capabilities t))
                      (transport_support (platform_metadata platform)) in
      if is_nil shared then
        collection_error ("Transport " +:+ str_repr preferred +:+ " is not supported by "
                          +:+ str_repr (family platform) +:+ ".")
      else
        c <- highest_priority shared ;;
        ret {| selected_capability := c; selected_name := name t |}
  | None => try_candidates (selector_manager self) platform (transport_candidates self platform)
  end.

(** ** The collector *)

(** The collector's fields; [selector] as [__post_init__] leaves it. *)
Record CiscoInventoryCollectorBase := {
  collector_name : string;
  collector_capabilities : list CollectorCapability;
  platform_family : string;
  transport_manager : TransportManager;
  platform_registry : CiscoPlatformRegistry;
  normalization_engine : NormalizationEngine W;
  selector : CiscoTransportSelector;
}.

(** What the collector gets: the context, and the [cancellation_check] of its metadata
    when that is callable. *)
Record CiscoContext := {
  given : Given.CollectorContext;
  cancellation_check : option (M W unit);
}.

Definition target_of (ctx : CiscoContext) : DiscoveryTarget := Given.target (given ctx).

Definition target_hint (ctx : CiscoContext) (key : string) : option string :=
  optional_string (dict_get key (Target.metadata (target_of ctx))).
Definition context_hint (ctx : CiscoContext) (key : string) : option string :=
  optional_string (dict_get key (Given.metadata (given ctx))).

(** [_check_cancellation]. *)
Definition check_cancellation (ctx : CiscoContext) : M W unit :=
  match cancellation_check ctx with Some check => check | None => ret tt end.

(** The detection at the end of [resolve_platform]. *)
Definition detect_platform (self : CiscoInventoryCollectorBase) (ctx : CiscoContext)
    : M W CiscoPlatformDefinition :=
  match detect (platform_registry self)
          {| model := target_hint ctx "model"; product_id := target_hint ctx "product_id";
             platform_string := target_hint ctx "platform_string";
             sys_object_id := target_hint ctx "sys_object_id";
             http_banner := target_hint ctx "http_banner" |} with
  | Some p => ret p
  | None => collection_error "Unable to resolve supported Cisco platform."
  end.

(** The family [resolve_platform] looks up. *)
Definition requested_family (self : CiscoInventoryCollectorBase) (ctx : CiscoContext) : string :=
  match target_hint ctx "platform_family" with
  | Some f => f
  | None => from_option (λ f, f) (platform_family self) (context_hint ctx "platform_family")
  end.

(** [resolve_platform]. *)
Definition resolve_platform (self : CiscoInventoryCollectorBase) (ctx : CiscoContext)
    : M W CiscoPlatformDefinition :=
  let f := requested_family self ctx in
  if str_truthy f then
    match get_platform (platform_registry self) (canonicalize_family f) with
    | Ret p => ret p
    | Raise e => if isinstance e KeyError then detect_platform self ctx else reraise e
    end
  else detect_platform self ctx.

(** [health_check]. *)
Definition health_check_of (self : CiscoInventoryCollectorBase) (ctx : CiscoContext) : M W unit :=
  resolve_platform self ctx ;;; ret tt.

(** [select_transport]. *)
Definition select_transport (self : CiscoInventoryCollectorBase) (ctx : CiscoContext)
    (platform : CiscoPlatformDefinition) : M W CiscoTransportSelection :=
  select_transport_for (selector self) platform (context_hint ctx "transport_name").

(** [_credential_reference]; a value that is [None] counts as missing. *)
Definition credential_reference_of (ctx : CiscoContext) (transport : string)
    : option CredentialReference :=
  let given k := match dict_get k (Target.metadata (target_of ctx)) with
                 | Some JNull | None => None
                 | Some v => Some v
                 end in
  let reference := match given "credential_profile_id" with
                   | Some v => Some v
                   | None => given "credential_reference"
                   end in
  match reference, Target.tenant_id (target_of ctx) with
  | Some v, Some tenant_id =>
      Some {| credential_id := py_str v; credential_transport := transport;
              credential_tenant_id := tenant_id |}
  | _, _ => None
  end.

(** ** Reading the device *)

Section Reading.
Context {HS : SessionMethods}.

(** [_collect_cli]; the outputs so far, by command. *)
Fixpoint run_commands (exec : string → M W string) (ctx : CiscoContext) (cmds : list string)
    (outputs : list (string * string)) : M W (list (string * string)) :=
  match cmds with
  | [] => ret outputs
  | c :: rest =>
      check_cancellation ctx ;;;
      if has c outputs then run_commands exec ctx rest outputs
      else
        output <- exec c ;;
        run_commands exec ctx rest (put c output outputs)
  end.

Definition collect_cli (platform : CiscoPlatformDefinition) (session : TransportSession)
    (ctx : CiscoContext) (capability : TransportCapability) : M W (list (string * string)) :=
  match execute session with
  | Some exec => run_commands exec ctx (inventory_commands platform) []
  | None => collection_error
              ("Selected " +:+ value capability +:+ " session cannot execute commands.")
  end.

(** [_collect_snmp]: the rows of a group, and the groups. *)
Fixpoint walk_oids (walk_oid : string → M W (list (string * json))) (ctx : CiscoContext)
    (oids : list string) (rows : list (string * string)) : M W (list (string * string)) :=
  match oids with
  | [] => ret rows
  | oid :: rest =>
      check_cancellation ctx ;;;
      walk_rows <- walk_oid oid ;;
      walk_oids walk_oid ctx rest (rows ++ map (λ r, (r.1, py_str r.2)) walk_rows)
  end.

Fixpoint walk_groups (walk_oid : string → M W (list (string * json)))
    (platform : CiscoPlatformDefinition) (ctx : CiscoContext) (groups : list SnmpGroup)
    (results : list (string * list (string * string)))
    : M W (list (string * list (string * string))) :=
  match groups with
  | [] => ret results
  | group :: rest =>
      check_cancellation ctx ;;;
      if negb (snmp_group_supported platform group)
      then walk_groups walk_oid platform ctx rest results
      else
        rows <- walk_oids walk_oid ctx (oids_of (snmp_catalog platform) group) [] ;;
        walk_groups walk_oid platform ctx rest
          (if is_nil rows then results else put (value group) rows results)
  end.

Definition collect_snmp (platform : CiscoPlatformDefinition) (session : TransportSession)
    (ctx : CiscoContext) : M W (list (string * list (string * string))) :=
  match walk session with
  | Some walk_oid => walk_groups walk_oid platform ctx SNMP_GROUPS []
  | None => collection_error "Selected SNMP session cannot walk."
  end.

(** [_response_text]. *)
Definition text_of_response (r : HttpResponse W) : M W string :=
  match response_text r with
  | Some text => ret text
  | None =>
      match response_aread r with
      | Some aread =>
          data <- aread ;;
          ret (match data with Some text => text | None => response_str r end)
      | None => ret (response_str r)
      end
  end.

(** [_collect_http]. *)
Fixpoint request_endpoints (send : string → string → M W (HttpResponse W)) (ctx : CiscoContext)
    (endpoints : HttpCatalog) (responses : list (string * string))
    : M W (list (string * string)) :=
  match endpoints with
  | [] => ret responses
  | endpoint :: rest =>
      check_cancellation ctx ;;;
      response <- send (HttpMethod_value (method endpoint)) (path endpoint) ;;
      text <- text_of_response response ;;
      request_endpoints send ctx rest (put (path endpoint) text responses)
  end.

Definition collect_http (platform : CiscoPlatformDefinition) (session : TransportSession)
    (ctx : CiscoContext) (capability : TransportCapability) : M W (list (string * string)) :=
  match request session with
  | Some send => request_endpoints send ctx (http_catalog platform) []
  | None => collection_error ("Selected " +:+ value capability +:+ " session cannot request.")
  end.

(** The payload up to what was read. *)
Definition payload_header (ctx : CiscoContext) (platform : CiscoPlatformDefinition)
    (selection : CiscoTransportSelection) : dict := [
  ("target", JDict [
    ("identifier", JStr (Target.identifier (target_of ctx)));
    ("address", JStr (Target.address (target_of ctx)));
    ("metadata", JDict (Target.metadata (target_of ctx)))]);
  ("platform_family", JStr (family platform));
  ("parser_family", JStr (parser_family (platform_metadata platform)));
  ("transport", JStr (selected_name selection));
  ("transport_capability", JStr (value (selected_capability selection)))].

Definition texts (m : list (string * string)) : json := JDict (map (λ e, (e.1, JStr e.2)) m).
Definition row_lists (m : list (string * list (string * string))) : json :=
  JDict (map (λ e, (e.1, JList (map (λ r, JList [JStr r.1; JStr r.2]) e.2))) m).

(** What the selected transport reads: the key of the payload, and its value. *)
Definition read_device (platform : CiscoPlatformDefinition) (session : TransportSession)
    (ctx : CiscoContext) (capability : TransportCapability) : M W (string * json) :=
  match capability with
  | Transport.SSH | Transport.TELNET =>
      outputs <- collect_cli platform session ctx capability ;; ret ("commands", texts outputs)
  | Transport.SNMP =>
      results <- collect_snmp platform session ctx ;; ret ("snmp", row_lists results)
  | Transport.HTTP | Transport.HTTPS =>
      responses <- collect_http platform session ctx capability ;; ret ("http", texts responses)
  | Transport.ICMP =>
      collection_error ("Unsupported transport capability: " +:+ value capability)
  end.

(** [collect]. *)
Definition collect_inventory (self : CiscoInventoryCollectorBase) (ctx : CiscoContext) : M W dict :=
  platform <- resolve_platform self ctx ;;
  selection <- select_transport self ctx platform ;;
  session <- open_session (transport_manager self) (selected_name selection)
    {| target_identifier := Target.identifier (target_of ctx);
       target_address := Target.address (target_of ctx);
       target_metadata := Target.metadata (target_of ctx);
       credential_reference := credential_reference_of ctx (selected_name selection) |}
    (Some [selected_capability selection]) ;;
  entry <- read_device platform session ctx (selected_capability selection) ;;
  ret (payload_header ctx platform selection ++ [entry]).

(** [normalize]; [fresh] is the identifier of the snapshot. *)
Definition normalize_inventory {HC : Clock W} (self : CiscoInventoryCollectorBase)
    (ctx : CiscoContext) (fresh : UUID) (raw_payload : dict)
    : M W Live.LiveInventorySnapshot :=
  parsed <- parse_inventory "cisco-inventory-parser"
    {| ParserContext.source := Target.identifier (target_of ctx);
       ParserContext.input_format := JSON;
       ParserContext.parser_name := Some "cisco-inventory-parser";
       ParserContext.run_id := Given.run_id (given ctx);
       ParserContext.metadata := Given.metadata (given ctx) |} (JDict raw_payload) ;;
  normalized <- normalize_result (normalization_engine self) fresh parsed ;;
  ret (snapshot normalized).

(** ** The collectors and their registry *)

(** The collector behind the interface of the collector runtime, whose contexts have no
    callable metadata. *)
Definition as_collector (self : CiscoInventoryCollectorBase) : BaseCollector W := {|
  Collector.name := collector_name self;
  Collector.capabilities := collector_capabilities self;
  Collector.health_check ctx := health_check_of self {| given := ctx; cancellation_check := None |};
  Collector.collect ctx := collect_inventory self {| given := ctx; cancellation_check := None |};
|}.
End Reading.

(** *** Collectors by platform ([ios.py], [ce500.py], [aironet.py], [factory.py]) *)

Definition IOS_INVENTORY_CAPABILITIES : list CollectorCapability :=
  [Capability.INTERFACES; Capability.VLANS; Capability.CDP; Capability.LLDP; Capability.POE].
Definition CE500_INVENTORY_CAPABILITIES : list CollectorCapability :=
  [Capability.INTERFACES; Capability.VLANS; Capability.POE].
Definition AIRONET_INVENTORY_CAPABILITIES : list CollectorCapability :=
  [Capability.INTERFACES; Capability.VLANS].

(** [CiscoInventoryCollectorBase.__post_init__], and the defaults of the other fields. *)
Definition make_collector (name : string) (caps : list CollectorCapability) (family : string)
    (manager : TransportManager) (platforms : CiscoPlatformRegistry)
    (selector : option CiscoTransportSelector) : CiscoInventoryCollectorBase := {|
  collector_name := name; collector_capabilities := caps; platform_family := family;
  transport_manager := manager; platform_registry := platforms;
  normalization_engine := {| allow_empty_records := false; rule_registry := [] |};
  selector := from_option (λ s, s)
    {| selector_manager := manager; transport_names := DEFAULT_TRANSPORT_NAMES |} selector |}.

Definition CiscoIOSInventoryCollector (name family : string) (manager : TransportManager)
    (platforms : CiscoPlatformRegistry) : CiscoInventoryCollectorBase :=
  make_collector name IOS_INVENTORY_CAPABILITIES family manager platforms None.

(** [CiscoInventoryCollectorFactory.create], [create_ce500] and [create_aironet]. *)
Definition create_collector (manager : TransportManager) (platforms : CiscoPlatformRegistry)
    (family : string) : outcome CiscoInventoryCollectorBase :=
  match get_platform platforms family with
  | Ret _ => Ret (CiscoIOSInventoryCollector "cisco-ios-inventory" family manager platforms)
  | Raise e => Raise e
  end.

Definition create_ce500 (manager : TransportManager) (platforms : CiscoPlatformRegistry)
    : CiscoInventoryCollectorBase :=
  make_collector "cisco-ce500-inventory" CE500_INVENTORY_CAPABILITIES "catalyst-express-500"
    manager platforms None.

Definition create_aironet (manager : TransportManager) (platforms : CiscoPlatformRegistry)
    : CiscoInventoryCollectorBase :=
  make_collector "cisco-aironet-inventory" AIRONET_INVENTORY_CAPABILITIES "aironet-1131"
    manager platforms None.

(** [CollectorRegistry]: [register], [register_alias] and [get]. *)
Definition register_collector (c : CiscoInventoryCollectorBase)
    (r : list (string * CiscoInventoryCollectorBase)) : list (string * CiscoInventoryCollectorBase) :=
  put (collector_name c) c r.

Definition collector_named (name : string) (r : list (string * CiscoInventoryCollectorBase))
    : outcome CiscoInventoryCollectorBase :=
  match get name r with
  | Some c => Ret c
  | None => raise_ KeyError ("Unknown collector: " +:+ name)
  end.

Definition register_alias (alias name : string) (r : list (string * CiscoInventoryCollectorBase))
    : outcome (list (string * CiscoInventoryCollectorBase)) :=
  if has alias r then
    raise_ ValueError ("Collector alias '" +:+ alias +:+ "' is already registered.")
  else
    match collector_named name r with
    | Ret c => Ret (put alias c r)
    | Raise e => Raise e
    end.

(** [register_all]. *)
Definition register_all (manager : TransportManager) (platforms : CiscoPlatformRegistry)
    (r : list (string * CiscoInventoryCollectorBase)) : list (string * CiscoInventoryCollectorBase) :=
  fold_left (λ r c, register_collector c r)
    [CiscoIOSInventoryCollector "cisco-catalyst-2960-inventory" "catalyst-2960" manager platforms;
     CiscoIOSInventoryCollector "cisco-catalyst-2960x-inventory" "catalyst-2960x" manager platforms;
     CiscoIOSInventoryCollector "cisco-catalyst-3560-inventory" "catalyst-3560" manager platforms;
     create_ce500 manager platforms; create_aironet manager platforms] r.

Definition build_cisco_inventory_registry (manager : TransportManager)
    : outcome (list (string * CiscoInventoryCollectorBase)) :=
  register_alias "cisco-ios-inventory" "cisco-catalyst-2960x-inventory"
    (register_all manager default_registry []).
End Collector.
