(* ===== verification/CiscoCollectorTheorems.v ===== *)
(** * Correctness of the Cisco collectors

    The transport they select, what they send to a device, that every command is read
    once, and that what they collect normalizes to the device of the target. *)

From S2P Require Import Prelude Vocabulary Effects Json Dicts Inventories Normalization.
From S2P Require Import NormalizationTheorems Resilience TransportManager.
From S2P Require Import Adapters Execution CollectorRuntime CiscoParser CiscoParserTheorems.
From S2P Require Import CiscoPlatforms CiscoCollector.
#[local] Open Scope Z_scope.

Section Selection.
Context {R : Type}.
Abbreviation W := (TransportManager.World R).
Abbreviation TransportManager := (TransportManager.TransportManager (R := R)).
Implicit Types (m : TransportManager) (w : W).

(** The transport registered under a name. *)
Definition registered_as m (n : string) : option (BaseTransport (R := R)) :=
  snd <$> List.find (λ e, fst e ≟ n) (registry m).

Lemma resolve_registered m n w :
  resolve m n w = (match registered_as m n with
                   | Some t => Ret t
                   | None => raise_ TransportUnavailableError ("Unknown transport: " +:+ n)
                   end, w).
Proof. unfold resolve, registered_as. by destruct (List.find _ _) as [[? ?]|]. Qed.

(** A candidate whose transport is registered but lacks the capability. *)
Definition lacking m (cand : TransportCapability * string) : Prop :=
  ∃ t, registered_as m cand.2 = Some t ∧ cand.1 ∉ capabilities t.

(** The candidates are tried in order; one not registered ends the search. *)
Lemma try_candidates_spec m platform candidates w r w' :
  try_candidates m platform candidates w = (r, w') →
  w' = w ∧
  match r with
  | Ret s =>
      ∃ before c n after t, candidates = before ++ (c, n) :: after ∧ Forall (lacking m) before ∧
        registered_as m n = Some t ∧ c ∈ capabilities t ∧
        s = {| selected_capability := c; selected_name := name t |}
  | Raise e =>
      (∃ before c n after, candidates = before ++ (c, n) :: after ∧ Forall (lacking m) before ∧
         registered_as m n = None ∧
         e = Exn TransportUnavailableError ("Unknown transport: " +:+ n)) ∨
      (Forall (lacking m) candidates ∧
       e = Exn (OtherError "CiscoInventoryCollectionError")
             ("No registered transport is available for " +:+ str_repr (family platform) +:+ "."))
  end.
Proof.
  induction candidates as [|[c n] rest IH]; cbn [try_candidates].
  { intros [= <- <-]. split; [done|]. by right. }
  unfold bind, catching. rewrite resolve_registered.
  destruct (registered_as m n) as [t|] eqn:En.
  - destruct (mem c (capabilities t)) eqn:Ec.
    + intros [= <- <-]. split; [done|]. exists [], c, n, rest, t.
      split_and!; [done|done|done|by apply mem_true|done].
    + apply mem_false in Ec.
      assert (lacking m (c, n)) as Hl by (by exists t).
      intros [-> H]%IH. split; [done|]. destruct r as [s|e].
      * destruct H as (before & c' & n' & after & t' & -> & Hb & H).
        exists ((c, n) :: before), c', n', after, t'. split; [done|]. by split; [constructor|].
      * destruct H as [(before & c' & n' & after & -> & Hb & H)|[Hr ->]].
        -- left. exists ((c, n) :: before), c', n', after. split; [done|]. by split; [constructor|].
        -- right. by split; [constructor|].
  - change (isinstance (Exn TransportUnavailableError ("Unknown transport: " +:+ n)) KeyError)
      with false. intros [= <- <-]. split; [done|]. left. by exists [], c, n, rest.
Qed.

(** The priority of a capability: its place in [TRANSPORT_PRIORITY]. *)
Definition before_in_priority (c c' : TransportCapability) : Prop :=
  ∃ l1 l2 l3, TRANSPORT_PRIORITY = l1 ++ c :: l2 ++ c' :: l3.

Lemma highest_priority_spec caps w r w' :
  highest_priority (R := R) caps w = (r, w') →
  w' = w ∧
  match r with
  | Ret c => c ∈ caps ∧ c ∈ TRANSPORT_PRIORITY ∧ ∀ c', before_in_priority c' c → c' ∉ caps
  | Raise e => ∀ c, c ∈ TRANSPORT_PRIORITY → c ∉ caps
  end.
Proof.
  unfold highest_priority. destruct (List.find _ _) as [c|] eqn:E.
  - intros [= <- <-]. split; [done|]. pose proof E as [Hin Hc]%List.find_some.
    apply mem_true in Hc. split; [done|]. split; [by apply list_elem_of_In|].
    intros c' (l1 & l2 & l3 & Hp) Hc'. rewrite Hp in E.
    assert (NoDup TRANSPORT_PRIORITY) as Hnd by by apply (bool_decide_unpack _).
    rewrite Hp in Hnd. clear Hin Hp. revert E Hnd.
    induction l1 as [|x l1 IH]; cbn.
    + apply mem_true in Hc'. rewrite Hc'. intros [= ->] [Hx _]%NoDup_cons. apply Hx. set_solver.
    + destruct (mem x caps).
      * intros [= ->] [Hx _]%NoDup_cons. apply Hx. set_solver.
      * intros E [_ Hnd]%NoDup_cons. by apply IH.
  - intros [= <- <-]. split; [done|]. intros c Hin.
    eapply List.find_none in E; [|by apply list_elem_of_In]. by apply mem_false.
Qed.

Lemma candidate_supported self platform c n :
  (c, n) ∈ transport_candidates (R := R) self platform →
  c ∈ transport_support (platform_metadata platform).
Proof.
  unfold transport_candidates. rewrite list_elem_of_In, in_flat_map.
  intros (c' & Hc & Hn). apply filter_In in Hc as [_ Hc]. apply in_map_iff in Hn as (? & [= <- <-] & _).
  by apply mem_true.
Qed.

(** A selected transport is registered, and its capability is one that the platform
    supports and the transport has.  With a preference it is the preferred transport, by
    the first such capability in the order of priority; without, it is the first
    candidate in that order whose transport has the capability.  Selection fails exactly
    when nothing fits, or when a candidate before any that fits is not registered: its
    error is none that the search goes on after. *)
Theorem transport_selected self platform preferred w :
  let m := selector_manager self in
  let supported := transport_support (platform_metadata platform) in
  let candidates := transport_candidates self platform in
  match select_transport_for self platform preferred w with
  | (Ret s, w') =>
      w' = w ∧ selected_capability s ∈ supported ∧
      ∃ n t, registered_as m n = Some t ∧ selected_name s = name t ∧
        selected_capability s ∈ capabilities t ∧
        match preferred with
        | Some p =>
            n = p ∧ ∀ c, before_in_priority c (selected_capability s) →
              ¬ (c ∈ supported ∧ c ∈ capabilities t)
        | None => ∃ before after, candidates = before ++ (selected_capability s, n) :: after ∧
              Forall (lacking m) before
        end
  | (Raise e, w') =>
      w' = w ∧
      match preferred with
      | Some p =>
          match registered_as m p with
          | Some t => ∀ c, c ∈ TRANSPORT_PRIORITY → ¬ (c ∈ supported ∧ c ∈ capabilities t)
          | None => isinstance e TransportUnavailableError = true
          end
      | None =>
          (∃ before c n after, candidates = before ++ (c, n) :: after ∧
             Forall (lacking m) before ∧ registered_as m n = None ∧
             isinstance e TransportUnavailableError = true) ∨
          Forall (lacking m) candidates
      end
  end.
Proof.
  intros m supported candidates. destruct (select_transport_for _ _ _ _) as [r w'] eqn:E.
  destruct preferred as [p|]; cbn [select_transport_for] in E.
  - unfold bind at 1 in E. rewrite resolve_registered in E. fold m in E.
    destruct (registered_as m p) as [t|] eqn:Et; [|by injection E as <- <-].
    set (shared := List.filter _ _) in E.
    assert (∀ c, c ∈ shared ↔ c ∈ supported ∧ c ∈ capabilities t) as Hs.
    { intros c. unfold shared. rewrite list_elem_of_In, filter_In, <-list_elem_of_In.
      by rewrite mem_true. }
    destruct (is_nil shared) eqn:En.
    { injection E as <- <-. split; [done|]. intros c _. rewrite <-Hs. destruct shared; [|done].
      apply not_elem_of_nil. }
    apply bind_inv in E as [(c & w1 & E & [= <- <-])|(e & E & ->)].
    + apply highest_priority_spec in E as (-> & Hc & _ & Hbest). apply Hs in Hc as [Hc Ht].
      split; [done|]. split; [done|]. exists p, t. split_and!; [done..|].
      intros c' Hc'. rewrite <-Hs. by apply Hbest.
    + apply highest_priority_spec in E as (-> & Hnone). split; [done|]. intros c Hc.
      rewrite <-Hs. by apply Hnone.
  - apply try_candidates_spec in E as [-> H]. fold m candidates in H. destruct r as [s|e].
    + destruct H as (before & c & n & after & t & Hsplit & Hb & Hn & Hc & ->). split; [done|].
      split; [|exists n, t; split_and!; eauto]. apply (candidate_supported self _ _ n).
      unfold candidates in Hsplit. rewrite Hsplit. set_solver.
    + split; [done|]. destruct H as [(before & c & n & after & Hsplit & Hb & Hn & ->)|[H _]];
        [left|by right]. by exists before, c, n, after.
Qed.
End Selection.

(** ** Reading the device *)

Section Reading.
Context {HF : FloatRepr} {R : Type} {HS : SessionMethods (R := R)}.
Abbreviation W := (TransportManager.World R).

(** What may be sent to a device of a platform: commands of the catalog's inventory
    categories that do not show a configuration, the object ids of its SNMP groups, and
    GET requests for the paths of its HTTP catalog. *)
Definition read_only_command (platform : CiscoPlatformDefinition) (c : string) : Prop :=
  str_in "running-config" c = false ∧ str_in "startup-config" c = false ∧
  ∃ category, category ∈ SSH_COMMAND_CATEGORIES ∧
    c ∈ map command (commands_of (command_catalog platform) category).
Definition read_only_oid (platform : CiscoPlatformDefinition) (oid : string) : Prop :=
  ∃ group, snmp_group_supported platform group = true ∧ oid ∈ oids_of (snmp_catalog platform) group.
Definition read_only_request (platform : CiscoPlatformDefinition) (verb p : string) : Prop :=
  verb = "GET" ∧ p ∈ paths (http_catalog platform).

Lemma inventory_commands_read_only platform c :
  c ∈ inventory_commands platform → read_only_command platform c.
Proof.
  unfold inventory_commands. rewrite elem_of_first_occurrences, list_elem_of_In, in_flat_map.
  intros (category & Hcat & Hc). destruct (_ && _); [done|].
  apply filter_In in Hc as [Hc Hn]. apply andb_true_iff in Hn as [H1 H2].
  rewrite negb_true_iff in H1, H2. split; [done|]. split; [done|].
  exists category. by rewrite !list_elem_of_In.
Qed.

Context (Rel : W → W → Prop) {HR : PreOrder Rel}.

Lemma preserves_check (ctx : CiscoContext) :
  (∀ check, cancellation_check ctx = Some check → preserves Rel check) →
  preserves Rel (check_cancellation ctx).
Proof. intros H. unfold check_cancellation. destruct (cancellation_check ctx); [auto|]. preserves_auto. Qed.

Lemma preserves_run_commands exec ctx cmds outputs :
  preserves Rel (check_cancellation ctx) → (∀ c, c ∈ cmds → preserves Rel (exec c)) →
  preserves Rel (run_commands exec ctx cmds outputs).
Proof.
  intros Hc. revert outputs. induction cmds as [|c cmds IH]; intros outputs He; cbn.
  { apply preserves_ret, _. }
  apply preserves_bind; [done..|]. intros _. destruct (has c outputs).
  - apply IH. set_solver.
  - apply preserves_bind; [done|apply He; set_solver|]. intros o. apply IH. set_solver.
Qed.

Lemma preserves_walk_oids walk_oid ctx oids rows :
  preserves Rel (check_cancellation ctx) → (∀ o, o ∈ oids → preserves Rel (walk_oid o)) →
  preserves Rel (walk_oids walk_oid ctx oids rows).
Proof.
  intros Hc. revert rows. induction oids as [|o oids IH]; intros rows He; cbn.
  { apply preserves_ret, _. }
  apply preserves_bind; [done..|]. intros _. apply preserves_bind; [done|apply He; set_solver|].
  intros r. apply IH. set_solver.
Qed.

Lemma preserves_walk_groups walk_oid platform ctx groups results :
  preserves Rel (check_cancellation ctx) →
  (∀ o, read_only_oid platform o → preserves Rel (walk_oid o)) →
  preserves Rel (walk_groups walk_oid platform ctx groups results).
Proof.
  intros Hc He. revert results. induction groups as [|g groups IH]; intros results; cbn.
  { apply preserves_ret, _. }
  apply preserves_bind; [done..|]. intros _. destruct (snmp_group_supported platform g) eqn:Eg; [|apply IH].
  apply preserves_bind; [done| |intros rows; apply IH].
  apply preserves_walk_oids; [done|]. intros o Ho. apply He. by exists g.
Qed.

Lemma preserves_request_endpoints send ctx endpoints responses :
  preserves Rel (check_cancellation ctx) →
  (∀ e, e ∈ endpoints → preserves Rel
     (r <- send (HttpMethod_value (method e)) (path e) ;; text_of_response r)) →
  preserves Rel (request_endpoints send ctx endpoints responses).
Proof.
  intros Hc. revert responses. induction endpoints as [|e endpoints IH]; intros responses He; cbn.
  { apply preserves_ret, _. }
  apply preserves_bind; [done..|]. intros _ w.
  assert (preserves Rel (t <- (r <- send (HttpMethod_value (method e)) (path e) ;;
    text_of_response r) ;; request_endpoints send ctx endpoints (put (path e) t responses))) as H.
  { apply preserves_bind; [done|apply He; set_solver|]. intros t. apply IH. set_solver. }
  specialize (H w). revert H. unfold bind. by destruct (send _ _ w) as [[r|e'] w1].
Qed.

(** C33. Reading a device sends it nothing but read-only commands, walks and requests of
    its platform's catalogs: whatever relation between worlds is kept by those of the
    session, and by the cancellation check, is kept by the whole reading, also when it
    fails half-way. *)
Theorem reading_is_read_only platform session ctx capability
    (Hcheck : ∀ check, cancellation_check ctx = Some check → preserves Rel check)
    (Hexec : ∀ exec c, execute session = Some exec → read_only_command platform c →
      preserves Rel (exec c))
    (Hwalk : ∀ walk_oid o, walk session = Some walk_oid → read_only_oid platform o →
      preserves Rel (walk_oid o))
    (Hsend : ∀ send verb p, request session = Some send → read_only_request platform verb p →
      preserves Rel (r <- send verb p ;; text_of_response r)) :
  preserves Rel (read_device platform session ctx capability).
Proof.
  pose proof (preserves_check ctx Hcheck) as Hc.
  assert (preserves Rel (collect_cli platform session ctx capability)).
  { unfold collect_cli. destruct (execute session) as [exec|]; [|preserves_auto].
    apply preserves_run_commands; [done|]. intros c Hin.
    by apply Hexec, inventory_commands_read_only. }
  assert (preserves Rel (collect_snmp platform session ctx)).
  { unfold collect_snmp. destruct (walk session) as [walk_oid|]; [|preserves_auto].
    apply preserves_walk_groups; [done|]. eauto. }
  assert (preserves Rel (collect_http platform session ctx capability)).
  { unfold collect_http. destruct (request session) as [send|]; [|preserves_auto].
    apply preserves_request_endpoints; [done|]. intros e He. apply Hsend; [done|].
    split; [by destruct (method e)|]. unfold paths. apply list_elem_of_In, in_map.
    by apply list_elem_of_In. }
  unfold read_device. destruct capability; preserves_auto.
Qed.
End Reading.

(** ** What is collected *)

Section Collected.
Context {HF : FloatRepr} {R : Type} {HS : SessionMethods (R := R)}.
Abbreviation W := (TransportManager.World R).

Lemma put_new {V} (k : string) (v : V) d : k ∉ keys d → put k v d = d ++ [(k, v)].
Proof.
  induction d as [|[k' v'] d IH]; [done|]. intros Hk. cbn in *.
  apply not_elem_of_cons in Hk as [Hk Hd]. destruct (k' ≟ k) eqn:E.
  - rewrite eqb_true in E. done.
  - by rewrite IH.
Qed.

Lemma run_commands_map exec ctx cmds outputs (w : W) :
  NoDup (keys outputs ++ cmds) →
  run_commands exec ctx cmds outputs w =
  (results <- map_m (λ c, check_cancellation ctx ;;; o <- exec c ;; ret (c, o)) cmds ;;
   ret (outputs ++ results)) w.
Proof.
  revert outputs w. induction cmds as [|c cmds IH]; intros outputs w Hnd.
  { cbn. unfold bind, ret. by rewrite app_nil_r. }
  assert (c ∉ keys outputs) as Hc.
  { apply NoDup_app in Hnd as (_ & Hd & _). intros Hin. apply (Hd c Hin). set_solver. }
  assert (has c outputs = false) as Hh.
  { unfold has. destruct (get c outputs) eqn:E; [|done]. exfalso. apply Hc.
    apply elem_of_dict in E; [|by apply NoDup_app in Hnd as (? & _)].
    unfold keys. apply list_elem_of_fmap. by eexists (c, _). }
  cbn [run_commands map_m]. rewrite Hh. unfold bind.
  destruct (check_cancellation ctx w) as [[[]|e] w1]; [|done].
  destruct (exec c w1) as [[o|e] w2]; [|done]. cbn [ret].
  rewrite IH.
  2:{ rewrite put_new by done. unfold keys. rewrite map_app, <- (assoc _). done. }
  rewrite put_new by done. unfold bind, ret. destruct (map_m _ cmds w2) as [[os|e] w3]; [|done].
  by rewrite <- (assoc _).
Qed.

(** Each inventory command is executed once, in the order of the catalog, after a check
    for cancellation; the outputs are those of the commands. *)
Theorem commands_read_once platform session ctx capability (w : W) :
  collect_cli platform session ctx capability w =
  match execute session with
  | Some exec =>
      map_m (λ c, check_cancellation ctx ;;; o <- exec c ;; ret (c, o))
        (inventory_commands platform) w
  | None => collection_error
      ("Selected " +:+ value capability +:+ " session cannot execute commands.") w
  end.
Proof.
  unfold collect_cli. destruct (execute session) as [exec|]; [|done].
  rewrite run_commands_map by apply NoDup_first_occurrences. unfold bind, ret.
  by destruct (map_m _ _ w) as [[os|e] w'].
Qed.

Context {HC : Clock W} {HL : ClockForward W}.

Lemma collected_target self ctx (w : W) payload w' :
  collect_inventory self ctx w = (Ret payload, w') →
  dict_get "target" payload = Some (JDict [
    ("identifier", JStr (Target.identifier (target_of ctx)));
    ("address", JStr (Target.address (target_of ctx)));
    ("metadata", JDict (Target.metadata (target_of ctx)))]).
Proof.
  unfold collect_inventory.
  intros [(p & w1 & _ & H)|(? & _ & ?)]%bind_inv; [|done].
  apply bind_inv in H as [(s & w2 & _ & H)|(? & _ & ?)]; [|done].
  apply bind_inv in H as [(t & w3 & _ & H)|(? & _ & ?)]; [|done].
  apply bind_inv in H as [(e & w4 & _ & [= <- _])|(? & _ & ?)]; [|done]. done.
Qed.

Lemma emitted_target id addr md payload :
  identified id →
  dict_get "target" payload = Some (JDict [
    ("identifier", JStr id); ("address", JStr addr); ("metadata", JDict md)]) →
  emitted_id id payload = str_strip id.
Proof.
  unfold identified, emitted_id. intros Hid ->. unfold as_mapping.
  change (dict_get "identifier" _) with (Some (JStr id)). unfold text_value, optional_text.
  change (py_str (JStr id)) with id. rewrite Hid. unfold or_str. by rewrite Hid.
Qed.

End Collected.

(** ** An instance *)

Section Demo.
#[local] Instance demo_floats : FloatRepr := λ _, "".

(** The world outside is what was sent to the device; the clock counts its readings. *)
Abbreviation DemoWorld := (TransportManager.World (list string)).
#[local] Instance demo_clock : Clock DemoWorld := {|
  instant w := Z.of_nat (ticks w); tick w := set_ticks (S (ticks w)) w |}.
#[local] Instance demo_clock_forward : ClockForward DemoWorld.
Proof. intros w. cbn. lia. Qed.

Definition send_text (c : string) (w : DemoWorld) : DemoWorld := {|
  breaker := breaker w; connections := connections w; clock := clock w; ticks := ticks w;
  outside := outside w ++ [c] |}.

(** A switch that answers commands as the fixtures do, and nothing else. *)
#[local] Instance demo_sessions : SessionMethods := {|
  execute _ := Some (λ c, modify (send_text c) ;;;
    ret (output_of c (string_mapping (dict_get "commands" fixture_payload))));
  walk _ := None;
  request _ := None |}.

Definition ready_transport (n : string) (caps : list TransportCapability)
    : BaseTransport (R := list string) := {|
  name := n; capabilities := caps; health_check := λ _, ret tt;
  create_session := λ ctx, ret {|
    session_id := target_identifier (context_target ctx);
    session_opened_at := None; session_closed_at := None |};
  open_session_of := λ s, ret (open_at 7 s) |}.

Definition ready_manager (ts : list BaseTransport) : TransportManager.TransportManager (R := list string) := {|
  registry := registered ts; throttle := ret tt; credential_provider := None;
  credential_resolver := None; timeout := default_timeout; retry_policy := Resilience.default_policy;
  close := λ _, ret tt |}.

Definition fresh_world : DemoWorld := {|
  breaker := new_breaker 5 30%Q 1; connections := {| max_size := 32; sessions := ∅ |};
  clock := λ k, Z.of_nat k; ticks := 0; outside := [] |}.

Definition switch_target (md : dict) : DiscoveryTarget := {|
  Target.identifier := "switch-1"; Target.address := "10.0.0.10"; Target.tenant_id := None;
  Target.vendor := None; Target.platform := None; Target.preferred_transport := None;
  Target.allowed_fallback_transports := []; Target.metadata := md; Target.capabilities := [] |}.

Definition switch_context (md : dict) : CiscoContext (R := list string) := {|
  given := {| Given.target := switch_target md; Given.capabilities := []; Given.run_id := 1%N;
              Given.discovered_at := 0; Given.metadata := [] |};
  cancellation_check := None |}.

Definition demo_collector (ts : list BaseTransport) : CiscoInventoryCollectorBase (R := list string) :=
  CiscoIOSInventoryCollector "cisco-ios-inventory" "catalyst-2960x" (ready_manager ts) default_registry.

Definition netmiko : BaseTransport := ready_transport "netmiko" [Transport.SSH].
Definition paramiko : BaseTransport := ready_transport "paramiko" [Transport.SSH].


(** Only commands that read were sent. *)
Definition sent_read_only (platform : CiscoPlatformDefinition) (w w' : DemoWorld) : Prop :=
  ∃ l, outside w' = outside w ++ l ∧ Forall (read_only_command platform) l.

#[local] Instance sent_read_only_preorder platform : PreOrder (sent_read_only platform).
Proof.
  split.
  - intros w. exists []. by rewrite app_nil_r.
  - intros w1 w2 w3 (l1 & H1 & F1) (l2 & H2 & F2). exists (l1 ++ l2).
    split; [by rewrite H2, H1, <- (assoc _)|by apply Forall_app].
Qed.

Lemma reading_is_read_only_witness :
  let session := {| session_id := "s"; session_opened_at := Some 7; session_closed_at := None |} in
  let w' := (read_device CATALYST_2960X session (switch_context []) Transport.SSH fresh_world).2 in
  sent_read_only CATALYST_2960X fresh_world w' ∧ length (outside w') = 8%nat.
Proof.
  intros session w'. split; [|vm_compute; reflexivity].
  apply (reading_is_read_only (sent_read_only CATALYST_2960X) CATALYST_2960X session
    (switch_context []) Transport.SSH); try (cbn; discriminate).
  intros exec c Hexec Hc w. injection Hexec as <-. exists [c]. split; [reflexivity|].
  by constructor.
Defined.

(** What is sent to a switch over SSH. *)
Example commands_sent :
  inventory_commands CATALYST_2960X =
  ["show inventory"; "show version"; "show interfaces status"; "show interfaces counters";
   "show vlan brief"; "show power inline"; "show cdp neighbors detail";
   "show lldp neighbors detail"].
Proof. vm_compute. reflexivity. Qed.

(** The search does not go on after a transport that is not registered: with paramiko
    alone nothing is collected, though it could open an SSH session. *)
Example paramiko_alone_is_not_selected :
  (collect_inventory (demo_collector [paramiko]) (switch_context []) fresh_world).1 =
    raise_ TransportUnavailableError "Unknown transport: netmiko".
Proof. vm_compute. reflexivity. Qed.

(** With the transports the application registers, every switch is read over SSH and the
    access point over HTTP. *)
Example application_selection :
  let ts := map (λ a, ready_transport (transport_name a) (transport_capabilities a))
              application_transports in
  map (λ p, match (select_transport_for (selector (demo_collector ts)) p None fresh_world).1 with
            | Ret s => (family p, selected_name s, selected_capability s)
            | Raise _ => (family p, "", Transport.ICMP)
            end) (all_platforms default_registry) =
  [("catalyst-2960", "netmiko", Transport.SSH); ("catalyst-2960x", "netmiko", Transport.SSH);
   ("catalyst-3560", "netmiko", Transport.SSH); ("catalyst-express-500", "httpx", Transport.HTTP);
   ("aironet-1131", "httpx", Transport.HTTP)].
Proof. vm_compute. reflexivity. Qed.

(** The Telnet transport registers itself as [telnet]; the collector looks for
    [telnetlib]. *)
Example telnet_is_not_selected :
  let telnet := ready_transport "telnet" [Transport.TELNET] in
  let platform := {|
    platform_metadata := {|
      metadata_family := "old"; display_name := "Old"; model_names := ["old"];
      product_ids := ["old"]; transport_support := [Transport.TELNET]; parser_family := "ios";
      firmware_family := "ios"; platform_capabilities := [Cisco.VLAN] |};
    command_catalog := COMMON_COMMAND_CATALOG; snmp_catalog := COMMON_SNMP_CATALOG;
    http_catalog := COMMON_HTTP_CATALOG; platform_strings := []; sys_object_ids := [];
    http_banners := [] |} in
  (select_transport_for (selector (demo_collector [telnet])) platform None fresh_world).1 =
    raise_ TransportUnavailableError "Unknown transport: telnetlib".
Proof. vm_compute. reflexivity. Qed.

(** The registry has a collector for the family of every supported platform, and the
    general name is the one of the 2960X. *)
Example registry_complete :
  match build_cisco_inventory_registry (ready_manager [netmiko]) with
  | Ret r =>
      keys r = ["cisco-catalyst-2960-inventory"; "cisco-catalyst-2960x-inventory";
                "cisco-catalyst-3560-inventory"; "cisco-ce500-inventory";
                "cisco-aironet-inventory"; "cisco-ios-inventory"] ∧
      forallb (λ p, existsb (λ c, platform_family c ≟ family p) (values r))
        (all_platforms default_registry) = true ∧
      platform_family <$> get "cisco-ios-inventory" r = Some "catalyst-2960x"
  | Raise _ => False
  end.
Proof. vm_compute. done. Qed.
End Demo.
