(* ===== verification/Schemas.v ===== *)
(** * The requests of the discovery API ([schemas/discovery.py])

    The validators of the request models.  Pydantic parses the types of the fields and
    reports all errors of a request together; here a request with fields of its types is
    checked, and the error is the first rule it breaks. *)

From S2P Require Import Prelude Vocabulary Effects Json Contracts IPv4 Dicts Texts.
From S2P Require Import RegularExpressions.
#[local] Open Scope Z_scope.

Definition invalid {A} (message : string) : outcome A := raise_ ValidationError message.
Definition rule (holds : bool) (message : string) : outcome unit :=
  if holds then Ret tt else invalid message.

(** [Field(min_length, max_length)], on texts that may be missing. *)
Definition at_least (n : Z) (s : string) : outcome unit :=
  rule (n <=? Z.of_nat (String.length s)) "String is too short.".
Definition at_most (n : Z) (s : string) : outcome unit :=
  rule (Z.of_nat (String.length s) <=? n) "String is too long.".
Definition at_most_opt (n : Z) (s : option string) : outcome unit :=
  match s with Some s => at_most n s | None => Ret tt end.

Fixpoint check_all (rules : list (outcome unit)) : outcome unit :=
  match rules with
  | [] => Ret tt
  | r :: rules => let! _ := r in check_all rules
  end.

(** ** Targets *)

Module TargetRequest.
Record DiscoveryTargetRequest := {
  identifier : string;
  address : option string;
  scope_type : DiscoveryScopeType;
  scope_end : option string;
  scope_cidr : option string;
  hostname : option string;
  vendor : option string;
  tenant_id : string;
  platform_hint : option string;
  preferred_transport : option string;
  enabled : bool;
  credential_reference : option string;
  credential_profile_id : option string;
  credential_references : list (string * string);
  allowed_fallback_transports : list string;
  allow_insecure_telnet : bool;
  allow_insecure_http : bool;
  metadata : dict;
}.

Definition eta (r : DiscoveryTargetRequest) : DiscoveryTargetRequest := {|
  identifier := identifier r; address := address r; scope_type := scope_type r;
  scope_end := scope_end r; scope_cidr := scope_cidr r; hostname := hostname r;
  vendor := vendor r; tenant_id := tenant_id r; platform_hint := platform_hint r;
  preferred_transport := preferred_transport r; enabled := enabled r;
  credential_reference := credential_reference r;
  credential_profile_id := credential_profile_id r;
  credential_references := credential_references r;
  allowed_fallback_transports := allowed_fallback_transports r;
  allow_insecure_telnet := allow_insecure_telnet r;
  allow_insecure_http := allow_insecure_http r; metadata := metadata r |}.

Definition set_allowed_fallback_transports v r : DiscoveryTargetRequest :=
  ltac:(record_with eta allowed_fallback_transports r v).
End TargetRequest.
Abbreviation DiscoveryTargetRequest := TargetRequest.DiscoveryTargetRequest.

(** [reject_blank_values] and [reject_blank_name]. *)
Definition not_blank (message s : string) : outcome unit := rule (str_truthy (str_strip s)) message.

(** [re.sub(r"[^a-z0-9]+", "-", value.strip().lower()).strip("-")]. *)
Definition is_slug_char (c : ascii) : bool :=
  let n := Ascii.N_of_ascii c in ((97 <=? n) && (n <=? 122) || (48 <=? n) && (n <=? 57))%N.

Definition slug (s : string) : string :=
  strip_char "-" (sub_runs (λ c, negb (is_slug_char c)) "-" false (str_lower (str_strip s))).

(** [validate_platform_hint], [validate_transport] and [validate_fallback_transports]. *)
Definition SUPPORTED_PLATFORMS : list string :=
  ["cisco-ios"; "cisco-iosxe"; "ios"; "iosxe"; "cisco-ios-xe"; "cisco-ios-x"].
Definition SUPPORTED_TRANSPORTS : list string :=
  ["ssh"; "snmp"; "telnet"; "icmp"; "http"; "https"; "cisco-api"; "netmiko"; "paramiko"; "pysnmp";
   "httpx"].
Definition SUPPORTED_FALLBACKS : list string :=
  ["ssh"; "snmp"; "telnet"; "icmp"; "http"; "https"; "cisco-api"].

Definition validate_platform_hint (hint : option string) : outcome unit :=
  match hint with
  | None => Ret tt
  | Some v => rule (mem (slug v) SUPPORTED_PLATFORMS) "Unsupported discovery platform."
  end.

Definition validate_transport (transport : option string) : outcome unit :=
  match transport with
  | None => Ret tt
  | Some v => rule (mem v SUPPORTED_TRANSPORTS) "Unsupported discovery transport."
  end.

Definition validate_fallback_transports (v : list string) : outcome (list string) :=
  if existsb (λ t, negb (mem t SUPPORTED_FALLBACKS)) v
  then invalid "Unsupported discovery fallback transport."
  else Ret (first_occurrences v).

(** Whether the target would use a transport, as its first choice or as a fallback. *)
Definition uses (transport : string) (preferred : option string) (fallbacks : list string) : bool :=
  match preferred with
  | Some p => str_truthy p && (str_lower p ≟ transport)
  | None => false
  end || mem transport (map str_lower fallbacks).

Section Target.
Context {HI : IpLibrary}.
Import TargetRequest.

(** [validate_scope_definition]; the errors of [validate_scope] are [ValueError]s. *)
Definition validate_scope_definition (r : DiscoveryTargetRequest) : outcome unit :=
  match validate_scope (scope_type r) (address r) (scope_end r) (scope_cidr r) with
  | Raise e => invalid (exn_str e)
  | Ret _ =>
      check_all [
        rule (is_not_none (credential_profile_id r) || is_not_none (credential_reference r))
          "A credential profile is required.";
        rule (negb (uses "telnet" (preferred_transport r) (allowed_fallback_transports r))
              || allow_insecure_telnet r)
          "Telnet is insecure. Set allow_insecure_telnet=true to explicitly enable.";
        rule (negb (uses "http" (preferred_transport r) (allowed_fallback_transports r))
              || allow_insecure_http r)
          "HTTP is insecure. Set allow_insecure_http=true to explicitly enable."]
  end.

(** [DiscoveryTargetRequest]: the rules of its fields, then those of the model. *)
Definition check_target_request (r : DiscoveryTargetRequest) : outcome DiscoveryTargetRequest :=
  let! _ := check_all [
    at_least 1 (identifier r); at_most 255 (identifier r);
    not_blank "Value cannot be blank." (identifier r);
    at_most_opt 512 (address r); at_most_opt 512 (scope_end r); at_most_opt 512 (scope_cidr r);
    at_most_opt 255 (hostname r); at_most_opt 128 (vendor r);
    at_least 1 (tenant_id r); at_most 255 (tenant_id r);
    not_blank "Value cannot be blank." (tenant_id r);
    at_most_opt 128 (platform_hint r); validate_platform_hint (platform_hint r);
    at_most_opt 64 (preferred_transport r); validate_transport (preferred_transport r);
    at_most_opt 255 (credential_reference r); at_most_opt 255 (credential_profile_id r)] in
  let! fallbacks := validate_fallback_transports (allowed_fallback_transports r) in
  let r := set_allowed_fallback_transports fallbacks r in
  let! _ := validate_scope_definition r in
  Ret r.
End Target.

(** [DiscoveryTargetBulkDeleteRequest.validate_target_ids]. *)
Definition validate_target_ids (ids : list string) : list string :=
  first_occurrences (List.filter str_truthy (map str_strip ids)).

(** [DiscoveryTargetUpdateRequest]; [credential_profile_id] is [None] when the request
    has no such field, and [Some None] when it is null. *)
Module TargetUpdate.
Record DiscoveryTargetUpdateRequest := {
  credential_profile_id : option (option string);
  preferred_transport : option string;
  platform_hint : option string;
  enabled : option bool;
  allowed_fallback_transports : option (list string);
  allow_insecure_telnet : option bool;
  allow_insecure_http : option bool;
}.
End TargetUpdate.
Abbreviation DiscoveryTargetUpdateRequest := TargetUpdate.DiscoveryTargetUpdateRequest.

Definition check_target_update (r : DiscoveryTargetUpdateRequest) : outcome DiscoveryTargetUpdateRequest :=
  let! _ := check_all [
    match TargetUpdate.credential_profile_id r with
    | Some id => at_most_opt 255 id | None => Ret tt end;
    at_most_opt 64 (TargetUpdate.preferred_transport r);
    validate_transport (TargetUpdate.preferred_transport r);
    at_most_opt 128 (TargetUpdate.platform_hint r);
    validate_platform_hint (TargetUpdate.platform_hint r)] in
  Ret r.

(** ** Credential profiles *)

Module ProfileRequest.
Record CredentialProfileRequest := {
  name : string;
  description : option string;
  vendor : option string;
  platform : option string;
  credential_type : option string;
  username : option string;
  transport_types : list string;
  provider_reference : string;
}.
End ProfileRequest.
Abbreviation CredentialProfileRequest := ProfileRequest.CredentialProfileRequest.

Definition PROFILE_TRANSPORTS : list string :=
  ["ssh"; "snmp"; "snmpv2c"; "snmpv3"; "telnet"; "https"; "http"; "icmp"].

(** [validate_transport_types]. *)
Definition validate_transport_types (v : list string) : outcome (list string) :=
  let cleaned := map (λ t, str_lower (str_strip t)) v in
  if is_nil cleaned then invalid "At least one transport type is required."
  else if existsb (λ t, negb (mem t PROFILE_TRANSPORTS)) cleaned
  then invalid "Unsupported transport type."
  else Ret (first_occurrences cleaned).

Definition check_profile_request (r : CredentialProfileRequest) : outcome CredentialProfileRequest :=
  let! _ := check_all [
    at_least 1 (ProfileRequest.name r); at_most 255 (ProfileRequest.name r);
    not_blank "Name cannot be blank." (ProfileRequest.name r);
    at_most_opt 1024 (ProfileRequest.description r); at_most_opt 128 (ProfileRequest.vendor r);
    at_most_opt 128 (ProfileRequest.platform r); at_most_opt 64 (ProfileRequest.credential_type r);
    at_most_opt 255 (ProfileRequest.username r)] in
  let! types := validate_transport_types (ProfileRequest.transport_types r) in
  let! _ := check_all [
    at_least 1 (ProfileRequest.provider_reference r);
    at_most 255 (ProfileRequest.provider_reference r)] in
  Ret {| ProfileRequest.name := ProfileRequest.name r;
         ProfileRequest.description := ProfileRequest.description r;
         ProfileRequest.vendor := ProfileRequest.vendor r;
         ProfileRequest.platform := ProfileRequest.platform r;
         ProfileRequest.credential_type := ProfileRequest.credential_type r;
         ProfileRequest.username := ProfileRequest.username r;
         ProfileRequest.transport_types := types;
         ProfileRequest.provider_reference := ProfileRequest.provider_reference r |}.

(** [CredentialProfileUpdateRequest]: a field that is not given is null. *)
Module ProfileUpdate.
Record CredentialProfileUpdateRequest := {
  name : option string;
  description : option string;
  vendor : option string;
  platform : option string;
  credential_type : option string;
  username : option string;
  transport_types : option (list string);
  provider_reference : option string;
  enabled : option bool;
}.
End ProfileUpdate.
Abbreviation CredentialProfileUpdateRequest := ProfileUpdate.CredentialProfileUpdateRequest.

Definition at_least_opt (n : Z) (s : option string) : outcome unit := from_option (at_least n) (Ret tt) s.

Definition check_profile_update (r : CredentialProfileUpdateRequest) : outcome CredentialProfileUpdateRequest :=
  let! _ := check_all [
    at_least_opt 1 (ProfileUpdate.name r); at_most_opt 255 (ProfileUpdate.name r);
    at_most_opt 1024 (ProfileUpdate.description r); at_most_opt 128 (ProfileUpdate.vendor r);
    at_most_opt 128 (ProfileUpdate.platform r); at_most_opt 64 (ProfileUpdate.credential_type r);
    at_most_opt 255 (ProfileUpdate.username r);
    at_least_opt 1 (ProfileUpdate.provider_reference r);
    at_most_opt 512 (ProfileUpdate.provider_reference r)] in
  Ret r.

(** [CredentialProfileTestRequest]. *)
Module ProfileTest.
Record CredentialProfileTestRequest := { transport : string; target : string }.
End ProfileTest.
Abbreviation CredentialProfileTestRequest := ProfileTest.CredentialProfileTestRequest.

(** [CredentialProfileTestRequest.validate_transport]. *)
Definition validate_test_transport (v : string) : outcome string :=
  let cleaned := str_lower (str_strip v) in
  if mem cleaned ["ssh"; "snmp"; "telnet"; "http"; "https"; "icmp"] then Ret cleaned
  else invalid "Unsupported transport for credential validation.".

Definition check_profile_test (r : CredentialProfileTestRequest) : outcome CredentialProfileTestRequest :=
  let! _ := check_all [at_least 1 (ProfileTest.transport r); at_most 64 (ProfileTest.transport r)] in
  let! transport := validate_test_transport (ProfileTest.transport r) in
  let! _ := check_all [at_least 1 (ProfileTest.target r); at_most 512 (ProfileTest.target r)] in
  Ret {| ProfileTest.transport := transport; ProfileTest.target := ProfileTest.target r |}.

(** ** Jobs *)

Module JobRequest.
Record DiscoveryJobRequest := {
  target_id : UUID;
  requested_capabilities : dict;
  metadata : dict;
  timeout_seconds : option float;
  correlation_id : option string;
}.
End JobRequest.
Abbreviation DiscoveryJobRequest := JobRequest.DiscoveryJobRequest.

(** [validate_requested_collector]. *)
Definition validate_requested_collector (capabilities : dict) : outcome unit :=
  match dict_get "collector_name" capabilities with
  | None | Some JNull => Ret tt
  | Some v => rule (v ≟ JStr "cisco-ios-inventory") "Unsupported discovery collector."
  end.

Definition check_job_request (r : DiscoveryJobRequest) : outcome DiscoveryJobRequest :=
  let! _ := check_all [
    validate_requested_collector (JobRequest.requested_capabilities r);
    match JobRequest.timeout_seconds r with
    | Some t => rule (Qle_bool 0 t) "Input should be greater than or equal to 0."
    | None => Ret tt
    end;
    at_most_opt 255 (JobRequest.correlation_id r)] in
  Ret r.

(** [DiscoveryJobCancellationRequest]. *)
Definition check_cancellation_reason (reason : string) : outcome unit :=
  check_all [at_least 1 reason; at_most 1024 reason].

(** ** What the rules accept *)

Lemma let_ok_Ret {A B} (o : outcome A) (k : A → outcome B) b :
  let_ok o k = Ret b ↔ ∃ a, o = Ret a ∧ k a = Ret b.
Proof. destruct o; cbn; naive_solver. Qed.

Lemma rule_Ret b message : rule b message = Ret tt ↔ b = true.
Proof. by destruct b. Qed.

Lemma check_all_Ret rules : check_all rules = Ret tt ↔ Forall (λ r, r = Ret tt) rules.
Proof.
  induction rules as [|r rules IH]; [done|]. cbn [check_all]. rewrite let_ok_Ret, Forall_cons, <-IH.
  split; [by intros ([] & -> & ?)|]. intros [-> ?]. eauto.
Qed.

Lemma validate_fallback_transports_Ret v ts :
  validate_fallback_transports v = Ret ts →
  ts = first_occurrences v ∧ ∀ t, t ∈ ts → t ∈ SUPPORTED_FALLBACKS.
Proof.
  unfold validate_fallback_transports. destruct (existsb _ v) eqn:E; [done|]. intros [= <-].
  split; [done|]. intros t. rewrite elem_of_first_occurrences. intros Ht.
  destruct (mem t SUPPORTED_FALLBACKS) eqn:Em; [by apply mem_true|]. exfalso.
  assert (existsb (λ t, negb (mem t SUPPORTED_FALLBACKS)) v = true) as Hx; [|congruence].
  apply existsb_exists. exists t. split; [by apply list_elem_of_In|]. by rewrite Em.
Qed.

Section Accepted.
Context {HI : IpLibrary}.
Import TargetRequest.

(** A request that the rules accept. *)
Record target_request_ok (r : DiscoveryTargetRequest) : Prop := {
  ro_identifier : str_truthy (str_strip (identifier r)) = true ∧
    (String.length (identifier r) <= 255)%nat;
  ro_tenant : str_truthy (str_strip (tenant_id r)) = true;
  ro_scope : validate_scope (scope_type r) (address r) (scope_end r) (scope_cidr r) = Ret tt;
  ro_credential : credential_profile_id r ≠ None ∨ credential_reference r ≠ None;
  ro_platform : ∀ p, platform_hint r = Some p → slug p ∈ SUPPORTED_PLATFORMS;
  ro_transport : ∀ t, preferred_transport r = Some t → t ∈ SUPPORTED_TRANSPORTS;
  ro_fallbacks : NoDup (allowed_fallback_transports r) ∧
    ∀ t, t ∈ allowed_fallback_transports r → t ∈ SUPPORTED_FALLBACKS;
  ro_telnet : preferred_transport r = Some "telnet" ∨ "telnet" ∈ allowed_fallback_transports r →
    allow_insecure_telnet r = true;
  ro_http : preferred_transport r = Some "http" ∨ "http" ∈ allowed_fallback_transports r →
    allow_insecure_http r = true;
}.

Lemma uses_insecure t r :
  t ∈ ["telnet"; "http"] →
  preferred_transport r = Some t ∨ t ∈ allowed_fallback_transports r →
  uses t (preferred_transport r) (allowed_fallback_transports r) = true.
Proof.
  intros Ht Hu. assert (str_lower t = t ∧ str_truthy t = true) as [Hl Hn].
  { apply elem_of_cons in Ht as [->|Ht%list_elem_of_singleton]; [done|by subst]. }
  unfold uses. destruct Hu as [->|Hu]; [by rewrite Hn, Hl, eqb_refl|].
  apply orb_true_iff. right. apply mem_true, list_elem_of_fmap. eauto.
Qed.

(** A target request that passes validation is the request itself with repeated
    fallbacks dropped, and satisfies the contract: an identifier that is not blank, a
    scope that parses, a credential, platforms and transports that are supported, and
    Telnet and HTTP only with their opt-in. *)
Theorem accepted_target_request r r' (Hr : check_target_request r = Ret r') :
  r' = set_allowed_fallback_transports (first_occurrences (allowed_fallback_transports r)) r ∧
  target_request_ok r'.
Proof.
  unfold check_target_request in Hr. apply let_ok_Ret in Hr as ([] & Hf & H).
  apply check_all_Ret in Hf. rewrite !Forall_cons in Hf.
  destruct Hf as (_ & Hlen & Hid & _ & _ & _ & _ & _ & _ & _ & Hten & _ & Hplat & _ & Htr & _).
  apply let_ok_Ret in H as (ts & Hts & H). apply let_ok_Ret in H as ([] & Hm & [= <-]).
  apply validate_fallback_transports_Ret in Hts as [-> Hts]. split; [done|].
  unfold validate_scope_definition in Hm. destruct (validate_scope _ _ _ _) as [[]|e] eqn:Hs; [|done].
  apply check_all_Ret in Hm. rewrite !Forall_cons in Hm. destruct Hm as (Hc & Htel & Hhttp & _).
  apply rule_Ret in Hlen, Hid, Hten, Hc, Htel, Hhttp. apply Z.leb_le in Hlen.
  set (r' := set_allowed_fallback_transports _ r) in *. split.
  - split; [exact Hid|]. apply Nat2Z.inj_le. exact Hlen.
  - exact Hten.
  - exact Hs.
  - destruct (credential_profile_id r'); [by left|]. destruct (credential_reference r'); [by right|done].
  - intros p Hp. unfold validate_platform_hint in Hplat. change (platform_hint r) with (platform_hint r') in Hplat.
    rewrite Hp in Hplat. by apply rule_Ret, mem_true in Hplat.
  - intros t Ht. unfold validate_transport in Htr.
    change (preferred_transport r) with (preferred_transport r') in Htr.
    rewrite Ht in Htr. by apply rule_Ret, mem_true in Htr.
  - split; [apply NoDup_first_occurrences|exact Hts].
  - intros Hu. rewrite uses_insecure in Htel by (done || set_solver). exact Htel.
  - intros Hu. rewrite uses_insecure in Hhttp by (done || set_solver). exact Hhttp.
Qed.
End Accepted.

(** A request for one device, over SSH with Telnet as fallback. *)
Definition demo_request (telnet : bool) : DiscoveryTargetRequest := {|
  TargetRequest.identifier := "core-1"; TargetRequest.address := Some "10.0.0.1";
  TargetRequest.scope_type := SINGLE_DEVICE; TargetRequest.scope_end := None;
  TargetRequest.scope_cidr := None; TargetRequest.hostname := None; TargetRequest.vendor := None;
  TargetRequest.tenant_id := "t"; TargetRequest.platform_hint := Some "Cisco IOS XE";
  TargetRequest.preferred_transport := Some "ssh"; TargetRequest.enabled := true;
  TargetRequest.credential_reference := Some "vault:core";
  TargetRequest.credential_profile_id := None; TargetRequest.credential_references := [];
  TargetRequest.allowed_fallback_transports := ["telnet"; "snmp"; "telnet"];
  TargetRequest.allow_insecure_telnet := telnet; TargetRequest.allow_insecure_http := false;
  TargetRequest.metadata := [] |}.

Lemma accepted_target_request_witness :
  ∃ r', check_target_request (demo_request true) = Ret r' ∧
    TargetRequest.allowed_fallback_transports r' = ["telnet"; "snmp"] ∧ target_request_ok r'.
Proof.
  destruct (check_target_request (demo_request true)) as [r'|e] eqn:E; [|vm_compute in E; discriminate E].
  destruct (accepted_target_request (demo_request true) r' E) as [-> Hok].
  eexists. split; [reflexivity|]. split; [vm_compute; reflexivity|exact Hok].
Defined.

Example telnet_without_opt_in :
  check_target_request (demo_request false) =
    invalid "Telnet is insecure. Set allow_insecure_telnet=true to explicitly enable.".
Proof. vm_compute. reflexivity. Qed.

(** An update is not checked for the opt-in, nor are its fallbacks. *)
Example update_accepts_telnet :
  let update := {|
    TargetUpdate.credential_profile_id := None;
    TargetUpdate.preferred_transport := Some "telnet"; TargetUpdate.platform_hint := None;
    TargetUpdate.enabled := None; TargetUpdate.allowed_fallback_transports := Some ["gopher"];
    TargetUpdate.allow_insecure_telnet := None; TargetUpdate.allow_insecure_http := None |} in
  check_target_update update = Ret update.
Proof. vm_compute. reflexivity. Qed.
