(* ===== verification/DiscoveryApi.v ===== *)
(** * The discovery API ([api/v1/discovery.py])

    The handlers of [/discovery] over the repositories of the discovery component.  A
    handler runs on a session of its own, which [with_session] opens and closes: what it
    has not committed when it ends is lost.  Its request has passed the validators of
    [Schemas], and its user the guard of [Auth]; [guarded] composes the two.  The
    response objects are the records of [schemas/discovery.py], and their validation is
    part of the handler.  Snapshots are not among the tables of [Session]: what a query
    on them answers is an argument of the handler that asks. *)

From S2P Require Import Prelude Vocabulary Effects Json Contracts Records Session.
From S2P Require Import JobRepository.
From S2P Require Import Cancellation EvidenceStore Worker Dicts Texts AuditTrail Auth.
From S2P Require Import TargetRepository JobQueries Schemas.
From stdpp Require Import sorting.
#[local] Open Scope Z_scope.

(** [raise HTTPException(status_code=..., detail=...)]. *)
Definition http {A} (status_code : Z) (detail : string) : DbM A := raise (HTTPException status_code) detail.

(** The sources of time and identifiers the audit service draws from. *)
#[export] Instance session_clock : Clock Session := {
  instant := λ s, clock s (ticks s); tick := λ s, set_ticks (Datatypes.S (ticks s)) s }.
#[export] Instance session_uuids : Uuids Session := uuid4.

(** ** Responses ([schemas/discovery.py]) *)

Module TargetResponse.
Record DiscoveryTargetResponse := {
  target_id : UUID; tenant_id : string; identifier : string; address : string;
  scope_type : DiscoveryScopeType; scope_end : option string; scope_cidr : option string;
  hostname : option string; vendor : option string; platform_hint : option string;
  preferred_transport : option string; allowed_fallback_transports : list string;
  allow_insecure_telnet : bool; allow_insecure_http : bool;
  credential_references : list string; credential_profile_id : option string;
  enabled : bool; created_at : datetime; updated_at : datetime;
}.
End TargetResponse.

Module ProfileResponse.
Record CredentialProfileResponse := {
  profile_id : UUID; tenant_id : string; name : string; description : option string;
  vendor : option string; platform : option string; credential_type : option string;
  username : option string; transport_types : list string; provider_reference : string;
  secret_status : string; enabled : bool; created_at : datetime; updated_at : datetime;
}.
End ProfileResponse.

Module JobResponse.
Record DiscoveryJobResponse := {
  job_id : UUID; tenant_id : string; target_id : UUID; target_identifier : option string;
  target_address : option string; discovery_run_id : option UUID; status : DiscoveryJobStatus;
  selected_transport : option string; selected_platform : option string; attempts : Z;
  error_code : option string; error_message : option string; created_at : datetime;
  queued_at : option datetime; started_at : option datetime; finished_at : option datetime;
  timeout_seconds : option float; correlation_id : option string;
  cancellation_requested_at : option datetime; cancellation_requested_by : option UUID;
  cancellation_reason : option string; execution_owner : option UUID;
  lease_expires_at : option datetime; last_heartbeat_at : option datetime;
  has_active_lease : bool;
}.
End JobResponse.

Record DiscoveryJobListResponse := {
  items : list JobResponse.DiscoveryJobResponse; list_page_ : Z; list_page_size : Z;
  list_total : Z; has_next : bool; total_pages : Z;
}.

Module EvidenceResponse.
Record DiscoveryEvidenceResponse := {
  evidence_id : UUID; tenant_id : string; target_id : UUID; discovery_job_id : UUID;
  discovery_run_id : UUID; collector_name : string; platform : string; transport : string;
  evidence_type : string; command_or_probe : string; payload : dict; captured_at : datetime;
  sequence : Z; parser_version : option string; normalization_version : option string;
  content_hash : string;
}.
End EvidenceResponse.

Module DeviceResultResponse.
Record DiscoveryDeviceResultResponse := {
  result_id : UUID; address : string; hostname : option string; vendor : option string;
  model : option string; platform : option string; state : string; result_state : option string;
  selected_transport : option string; failure_code : option string;
  failure_message : option string; started_at : option datetime;
  completed_at : option datetime; correlation_id : option string;
}.
End DeviceResultResponse.

Module AttemptResponse.
Record DiscoveryTransportAttemptResponse := {
  attempt_id : UUID; transport : string; attempt_order : Z; result : string;
  failure_code : option string; duration_ms : option Z; started_at : datetime;
  completed_at : option datetime; correlation_id : option string;
}.
End AttemptResponse.

Module RunSummary.
Record DiscoveryRunSummary := {
  id : UUID; target_identifier : string; target_address : option string; status : string;
  metadata : dict; created_at : datetime; started_at : option datetime;
  finished_at : option datetime; total_scanned : option Z; total_discovered : option Z;
  total_unreachable : option Z; total_reachable_no_management : option Z;
  total_authentication_failed : option Z; total_partial_discovery : option Z;
  total_unverified : option Z;
}.
End RunSummary.

(** A value outside what the response model allows. *)
Definition model_error {A} : DbM A := raise ValidationError "validation error for response model".

(** [_target_response]. *)
Definition target_response (record : Target.DiscoveryTargetRecord)
    : DbM TargetResponse.DiscoveryTargetResponse :=
  match of_value (Target.scope_type record) with
  | None => model_error
  | Some scope_type =>
      ret {| TargetResponse.target_id := Target.id record;
        TargetResponse.tenant_id := Target.tenant_id record;
        TargetResponse.identifier := Target.identifier record;
        TargetResponse.address := Target.address record;
        TargetResponse.scope_type := scope_type;
        TargetResponse.scope_end := Target.scope_end record;
        TargetResponse.scope_cidr := Target.scope_cidr record;
        TargetResponse.hostname := Target.hostname record;
        TargetResponse.vendor := Target.vendor record;
        TargetResponse.platform_hint := Target.platform_hint record;
        TargetResponse.preferred_transport := Target.preferred_transport record;
        TargetResponse.allowed_fallback_transports := Target.allowed_fallback_transports record;
        TargetResponse.allow_insecure_telnet := Target.allow_insecure_telnet record;
        TargetResponse.allow_insecure_http := Target.allow_insecure_http record;
        TargetResponse.credential_references := map fst (Target.credential_references record);
        TargetResponse.credential_profile_id := Target.credential_profile_id record;
        TargetResponse.enabled := Target.enabled record;
        TargetResponse.created_at := Target.created_at record;
        TargetResponse.updated_at := Target.updated_at record |}
  end.

(** [_credential_profile_response]: what it does not name has the model's default. *)
Definition credential_profile_response (record : Profile.CredentialProfileRecord)
    : DbM ProfileResponse.CredentialProfileResponse :=
  types <- iterate_transports record ;;
  ret {|
  ProfileResponse.profile_id := Profile.id record;
  ProfileResponse.tenant_id := Profile.tenant_id record;
  ProfileResponse.name := Profile.name record;
  ProfileResponse.description := Profile.description record;
  ProfileResponse.vendor := None; ProfileResponse.platform := None;
  ProfileResponse.credential_type := None; ProfileResponse.username := None;
  ProfileResponse.transport_types := types;
  ProfileResponse.provider_reference := Profile.provider_reference record;
  ProfileResponse.secret_status := "configured";
  ProfileResponse.enabled := Profile.enabled record;
  ProfileResponse.created_at := Profile.created_at record;
  ProfileResponse.updated_at := Profile.updated_at record |}.

(** [has_active_lease] of [_job_response]; the clock is read for a lease only. *)
Definition has_active_lease (record : Job.DiscoveryJobRecord) : DbM bool :=
  match Job.execution_owner record, Job.lease_expires_at record with
  | Some _, Some expires => now <- utc_now ;; ret (now <? expires)
  | _, _ => ret false
  end.

(** [_job_response]. *)
Definition job_response (record : Job.DiscoveryJobRecord) : DbM JobResponse.DiscoveryJobResponse :=
  target <- get_target (Job.target_id record) ;;
  active <- has_active_lease record ;;
  match of_value (Job.state record) with
  | None => model_error
  | Some status =>
      if (Job.attempts record <? 0)
         || from_option (λ t, negb (Qle_bool 0 t)) false (Job.timeout_seconds record)
      then model_error
      else ret {| JobResponse.job_id := Job.id record;
        JobResponse.tenant_id := Job.tenant_id record;
        JobResponse.target_id := Job.target_id record;
        JobResponse.target_identifier := Target.identifier <$> target;
        JobResponse.target_address := Target.address <$> target;
        JobResponse.discovery_run_id := Some (Job.run_id record);
        JobResponse.status := status;
        JobResponse.selected_transport := Job.selected_transport record;
        JobResponse.selected_platform := Job.selected_platform record;
        JobResponse.attempts := Job.attempts record;
        JobResponse.error_code := Job.failure_code record;
        JobResponse.error_message := Job.failure_message record;
        JobResponse.created_at := Job.requested_at record;
        JobResponse.queued_at := Some (Job.requested_at record);
        JobResponse.started_at := Job.started_at record;
        JobResponse.finished_at := Job.completed_at record;
        JobResponse.timeout_seconds := Job.timeout_seconds record;
        JobResponse.correlation_id := Job.correlation_id record;
        JobResponse.cancellation_requested_at := Job.cancellation_requested_at record;
        JobResponse.cancellation_requested_by := Job.cancellation_requested_by record;
        JobResponse.cancellation_reason := Job.cancellation_reason record;
        JobResponse.execution_owner := Job.execution_owner record;
        JobResponse.lease_expires_at := Job.lease_expires_at record;
        JobResponse.last_heartbeat_at := Job.last_heartbeat_at record;
        JobResponse.has_active_lease := active |}
  end.

(** [_evidence_response]. *)
Definition evidence_response (record : Evidence.DiscoveryEvidenceRecord)
    : DbM EvidenceResponse.DiscoveryEvidenceResponse :=
  if Evidence.sequence record <? 0 then model_error
  else ret {| EvidenceResponse.evidence_id := Evidence.id record;
    EvidenceResponse.tenant_id := Evidence.tenant_id record;
    EvidenceResponse.target_id := Evidence.target_id record;
    EvidenceResponse.discovery_job_id := Evidence.job_id record;
    EvidenceResponse.discovery_run_id := Evidence.run_id record;
    EvidenceResponse.collector_name := Evidence.collector record;
    EvidenceResponse.platform := "unknown"; EvidenceResponse.transport := "unknown";
    EvidenceResponse.evidence_type := Evidence.evidence_type record;
    EvidenceResponse.command_or_probe := Evidence.command_or_probe record;
    EvidenceResponse.payload := Evidence.payload record;
    EvidenceResponse.captured_at := Evidence.observed_at record;
    EvidenceResponse.sequence := Evidence.sequence record;
    EvidenceResponse.parser_version := Evidence.parser_version record;
    EvidenceResponse.normalization_version := Evidence.normalization_version record;
    EvidenceResponse.content_hash := Evidence.payload_hash record |}.

Module Api.
Section Handlers.
Context `{IpLibrary}.

(** [_validate_tenant]. *)
Definition validate_tenant (payload_tenant header_tenant : string) : DbM unit :=
  when (negb (payload_tenant ≟ header_tenant)) (http 403 "Tenant scope mismatch.").

(** The transport of a credential profile that a target's transport needs. *)
Definition profile_transport (transport : string) : string :=
  if mem transport ["netmiko"; "paramiko"] then "ssh"
  else if transport ≟ "pysnmp" then "snmp"
  else if transport ≟ "httpx" then "http"
  else transport.

(** The profile a request names by a text. *)
Definition find_profile (tenant_id profile_id : string) : DbM (option Profile.CredentialProfileRecord) :=
  match parse_uuid profile_id with
  | None => ret None
  | Some id => get_profile tenant_id id
  end.

(** The credential reference of the new target: its profile's, which has to support its
    transports, or the request's. *)
Definition profile_reference (payload : DiscoveryTargetRequest) (tenant_id : string) : DbM string :=
  match TargetRequest.credential_profile_id payload with
  | None => ret (or_str (TargetRequest.credential_reference payload) "")
  | Some profile_id =>
      profile <- find_profile tenant_id profile_id ;;
      match profile with
      | None => http 404 "Credential profile was not found."
      | Some profile =>
          let profile_transports := map str_lower (from_option id [] (Profile.transport_types profile)) in
          let preferred := or_str (TargetRequest.preferred_transport payload) "ssh" in
          if negb (mem (profile_transport (str_lower preferred)) profile_transports) then
            http 422 ("Credential profile does not support target transport '" +:+ preferred +:+ "'.")
          else
            let unsupported_fallbacks := List.filter
              (λ fallback, negb (mem (str_lower fallback) profile_transports))
              (TargetRequest.allowed_fallback_transports payload) in
            if negb (is_nil unsupported_fallbacks) then
              http 422 ("Credential profile does not support fallback transports: "
                +:+ String.concat ", "
                      (merge_sort String.le (first_occurrences (map str_lower unsupported_fallbacks)))
                +:+ ".")
            else ret (Profile.provider_reference profile)
      end
  end.

(** [except DiscoveryPersistenceError as exc: rollback; raise HTTPException(409)]. *)
Definition conflict_on_error {A} (m : DbM A) : DbM A :=
  try_except m (λ exc,
    if isinstance exc DiscoveryPersistenceError then rollback ;;; http 409 (exn_str exc)
    else reraise exc).

(** [create_target]. *)
Definition create_target (payload : DiscoveryTargetRequest) (user : User) (tenant_id : string)
    : DbM TargetResponse.DiscoveryTargetResponse :=
  validate_tenant (TargetRequest.tenant_id payload) tenant_id ;;;
  credential_reference <- profile_reference payload tenant_id ;;
  record <- conflict_on_error (
    record <- TargetRepository.create_target tenant_id
      (TargetRequest.identifier payload)
      (or_str (TargetRequest.address payload) (or_str (TargetRequest.scope_cidr payload) ""))
      (value (TargetRequest.scope_type payload)) (TargetRequest.scope_end payload)
      (TargetRequest.scope_cidr payload) credential_reference
      (TargetRequest.credential_profile_id payload)
      (Some (map (λ e, (e.1, JStr e.2)) (TargetRequest.credential_references payload)))
      (Some (TargetRequest.allowed_fallback_transports payload))
      (TargetRequest.allow_insecure_telnet payload) (TargetRequest.allow_insecure_http payload)
      (TargetRequest.vendor payload) (TargetRequest.hostname payload)
      (TargetRequest.platform_hint payload) (TargetRequest.preferred_transport payload)
      (TargetRequest.enabled payload) (Some (TargetRequest.metadata payload))
      (Some (user_id user)) ;;
    commit ;;;
    ret record) ;;
  target_response record.

(** [list_targets]. *)
Definition list_targets (tenant_id : string) : DbM (list TargetResponse.DiscoveryTargetResponse) :=
  records <- TargetRepository.list_targets tenant_id ;;
  map_m target_response records.

(** The loop of [delete_targets]: whether any was deleted. *)
Fixpoint delete_each (tenant_id : string) (target_ids : list string) (deleted_any : bool) : DbM bool :=
  match target_ids with
  | [] => ret deleted_any
  | target_id :: rest =>
      match parse_uuid target_id with
      | None => http 422 ("Invalid target identifier: " +:+ target_id)
      | Some id =>
          deleted <- TargetRepository.delete_target tenant_id id ;;
          delete_each tenant_id rest (deleted_any || deleted)
      end
  end.

(** [delete_targets]. *)
Definition delete_targets (target_ids : list string) (tenant_id : string) : DbM unit :=
  if is_nil target_ids then ret tt
  else
    deleted_any <- delete_each tenant_id target_ids false ;;
    if negb deleted_any then http 404 "No discovery targets were found for deletion."
    else commit.

(** [delete_target]. *)
Definition delete_target (target_id : UUID) (tenant_id : string) : DbM unit :=
  deleted <- TargetRepository.delete_target tenant_id target_id ;;
  if negb deleted then http 404 "Discovery target was not found." else commit.

Definition change {A} (c : A → TargetChange) (v : option A) : list TargetChange :=
  match v with Some v => [c v] | None => [] end.

(** The first columns of [changes]: those the payload gives a value. *)
Definition plain_changes (payload : DiscoveryTargetUpdateRequest) : list TargetChange :=
  change SetEnabled (TargetUpdate.enabled payload)
  ++ change (SetPlatformHint ∘ Some) (TargetUpdate.platform_hint payload)
  ++ change (SetPreferredTransport ∘ Some) (TargetUpdate.preferred_transport payload)
  ++ change SetAllowedFallbackTransports (TargetUpdate.allowed_fallback_transports payload)
  ++ change SetAllowInsecureTelnet (TargetUpdate.allow_insecure_telnet payload)
  ++ change SetAllowInsecureHttp (TargetUpdate.allow_insecure_http payload).

(** The columns of the credential profile. *)
Definition profile_changes (payload : DiscoveryTargetUpdateRequest)
    (existing : Target.DiscoveryTargetRecord) (tenant_id : string) : DbM (list TargetChange) :=
  match TargetUpdate.credential_profile_id payload with
  | None => ret []
  | Some None => ret [SetCredentialProfileId None; SetCredentialReference ""]
  | Some (Some profile_id) =>
      profile <- find_profile tenant_id profile_id ;;
      match profile with
      | None => http 404 "Credential profile was not found."
      | Some profile =>
          let effective_transport := or_str (TargetUpdate.preferred_transport payload)
                                       (or_str (Target.preferred_transport existing) "ssh") in
          let normalized_transport := profile_transport (str_lower effective_transport) in
          types <- iterate_transports profile ;;
          let profile_transports := map str_lower types in
          if negb (mem normalized_transport profile_transports)
             && negb (mem (str_lower effective_transport) profile_transports) then
            http 422 ("Credential profile does not support target transport '"
                      +:+ effective_transport +:+ "'.")
          else ret [SetCredentialProfileId (Some (uuid_str (Profile.id profile)));
                    SetCredentialReference
                      (or_str (Some (Profile.provider_reference profile)) (uuid_str (Profile.id profile)))]
      end
  end.

(** [update_target]. *)
Definition update_target (target_id : UUID) (payload : DiscoveryTargetUpdateRequest) (tenant_id : string)
    : DbM TargetResponse.DiscoveryTargetResponse :=
  existing_target <- get_tenant_target tenant_id target_id ;;
  match existing_target with
  | None => http 404 "Discovery target was not found."
  | Some existing =>
      changes <- profile_changes payload existing tenant_id ;;
      record <- try_except
        (record <- TargetRepository.update_target tenant_id target_id (plain_changes payload ++ changes) ;;
         commit ;;;
         ret record)
        (λ exc,
           if isinstance exc DiscoveryResourceNotFoundError then rollback ;;; http 404 (exn_str exc)
           else if isinstance exc DiscoveryPersistenceError then rollback ;;; http 409 (exn_str exc)
           else reraise exc) ;;
      target_response record
  end.

(** [list_credential_profiles]. *)
Definition list_credential_profiles (tenant_id : string)
    : DbM (list ProfileResponse.CredentialProfileResponse) :=
  records <- list_profiles tenant_id ;;
  map_m credential_profile_response records.

(** [create_credential_profile]: four fields of the request are not passed on. *)
Definition create_credential_profile (payload : CredentialProfileRequest) (tenant_id : string)
    : DbM ProfileResponse.CredentialProfileResponse :=
  record <- create_profile tenant_id (ProfileRequest.name payload)
    (ProfileRequest.provider_reference payload) (ProfileRequest.transport_types payload)
    (ProfileRequest.description payload) None None None None ;;
  commit ;;;
  credential_profile_response record.

(** The run of a submitted job. *)
Definition new_run (id : UUID) (tenant_id : string) (target : Target.DiscoveryTargetRecord)
    (metadata : dict) (created_at started_at : datetime) : Run.DiscoveryRunRecord := {|
  Run.id := id; Run.created_at := created_at;
  Run.target_identifier := Target.identifier target;
  Run.target_address := Some (Target.address target); Run.tenant_id := Some tenant_id;
  Run.status := "started"; Run.started_at := started_at; Run.finished_at := None;
  Run.metadata_json := [("job_request", JDict metadata)];
  Run.total_scanned := Some 0; Run.total_discovered := Some 0; Run.total_unreachable := Some 0;
  Run.total_reachable_no_management := Some 0; Run.total_authentication_failed := Some 0;
  Run.total_partial_discovery := Some 0; Run.total_unverified := Some 0 |}.

(** [create_job]. *)
Definition create_job (payload : DiscoveryJobRequest) (user : User) (tenant_id : string)
    : DbM JobResponse.DiscoveryJobResponse :=
  target <- get_tenant_target tenant_id (JobRequest.target_id payload) ;;
  match target with
  | None => http 404 "Discovery target was not found."
  | Some target =>
      if negb (Target.enabled target) then http 409 "Discovery target is disabled."
      else
        run_id <- uuid4 ;;
        created_at <- utc_now ;;
        started_at <- utc_now ;;
        put_run (new_run run_id tenant_id target (JobRequest.metadata payload) created_at started_at) ;;;
        job <- conflict_on_error (
          job <- JobRepository.create tenant_id (Target.id target) run_id None (Some (user_id user))
            (Some (JobRequest.requested_capabilities payload)) (JobRequest.timeout_seconds payload)
            (JobRequest.correlation_id payload) ;;
          commit ;;;
          ret job) ;;
        job_response job
  end.

(** The errors of the two cancellation handlers. *)
Definition cancellation_errors {A} (m : DbM A) : DbM A :=
  try_except m (λ exc,
    if isinstance exc DiscoveryCancellationConflictError then rollback ;;; http 409 (exn_str exc)
    else if isinstance exc DiscoveryPersistenceError then rollback ;;; http 404 "Discovery job was not found."
    else reraise exc).

Definition isoformat_or_none (isoformat : datetime → string) (t : option datetime) : json :=
  opt_str (isoformat <$> t).

Definition job_activity (event_type outcome : string) (user : User) (tenant_id : string)
    (request_id : option string) (job : Job.DiscoveryJobRecord) (metadata : dict) : AuditArguments := {|
  arg_event_type := event_type; arg_actor_id := Some (user_id user);
  arg_tenant_id := Some tenant_id; arg_resource_type := Some "discovery_job";
  arg_resource_id := Some (uuid_str (Job.id job)); arg_outcome := Some outcome;
  arg_request_id := request_id; arg_metadata := Some metadata;
  arg_source := None; arg_category := None |}.

(** The status code of the response: the route's, unless the handler sets another. *)
Definition route_status (job : Job.DiscoveryJobRecord) : Z :=
  if Job.state job ≟ value RUNNING then 202 else 200.

(** [cancel_job]; the audit service has a session of its own. *)
Definition cancel_job (isoformat : datetime → string) (audit_service : AuditService Session)
    (job_id : UUID) (reason : string) (request_id : option string) (user : User) (tenant_id : string)
    : DbM (Z * JobResponse.DiscoveryJobResponse) :=
  '(job, changed) <- cancellation_errors (
    answer <- request_cancellation tenant_id job_id (user_id user) reason ;;
    commit ;;;
    ret answer) ;;
  record_api_activity audit_service
    (job_activity "discovery.job_cancel_requested"
       (if Job.state job ≟ "cancelled" then "cancelled" else "requested")
       user tenant_id request_id job
       [("reason", JStr reason); ("changed", JBool changed);
        ("requested_at", isoformat_or_none isoformat (Job.cancellation_requested_at job))]) ;;;
  response <- job_response job ;;
  ret (route_status job, response).

(** [resolve_job_cancellation]. *)
Definition resolve_job_cancellation (isoformat : datetime → string)
    (audit_service : AuditService Session) (job_id : UUID) (request_id : option string)
    (user : User) (tenant_id : string) : DbM JobResponse.DiscoveryJobResponse :=
  job <- cancellation_errors (
    job <- resolve_stale_cancellation tenant_id job_id ;;
    commit ;;;
    ret job) ;;
  record_api_activity audit_service
    (job_activity "discovery.job_cancellation_resolved" "cancelled" user tenant_id request_id job
       [("resolved_at", isoformat_or_none isoformat (Job.completed_at job));
        ("reason", opt_str (Job.cancellation_reason job))]) ;;;
  job_response job.

(** The bounds of the query parameters of [list_jobs]. *)
Definition check_page (page page_size : Z) : DbM unit :=
  when ((page <? 1) || (page_size <? 1) || (100 <? page_size))
    (raise ValidationError "Input should be within the bounds of the page").

(** [list_jobs]; the collation of the database and its clock are parameters of
    [list_page]. *)
Definition list_jobs (collation : string → string → bool) (db_now : datetime) (tenant_id : string)
    (f : JobFilter) (sort order : option string) (page page_size : Z) : DbM DiscoveryJobListResponse :=
  check_page page page_size ;;;
  '(records, total) <- try_except (list_page collation db_now tenant_id page page_size f sort order)
    (λ exc, if isinstance exc ValueError then http 422 (exn_str exc) else reraise exc) ;;
  let total_pages := if 0 <? total then (total + page_size - 1) / page_size else 1 in
  items <- map_m job_response records ;;
  ret {| items := items; list_page_ := page; list_page_size := page_size; list_total := total;
         has_next := page * page_size <? total; total_pages := total_pages |}.

(** The job of a route, or 404. *)
Definition job_or_404 (tenant_id : string) (job_id : UUID) : DbM Job.DiscoveryJobRecord :=
  job <- JobRepository.get tenant_id job_id ;;
  match job with
  | None => http 404 "Discovery job was not found."
  | Some job => ret job
  end.

(** [get_job]. *)
Definition get_job (job_id : UUID) (tenant_id : string) : DbM JobResponse.DiscoveryJobResponse :=
  job <- job_or_404 tenant_id job_id ;; job_response job.

(** [get_job_evidence]. *)
Definition get_job_evidence (job_id : UUID) (tenant_id : string)
    : DbM (list EvidenceResponse.DiscoveryEvidenceResponse) :=
  _ <- job_or_404 tenant_id job_id ;;
  records <- list_for_job tenant_id job_id ;;
  map_m evidence_response records.

(** The state of a result the API reports. *)
Definition reported_state (r : DeviceResult.DiscoveryDeviceResultRecord) : option string :=
  if (DeviceResult.failure_code r ≟ Some "TRANSPORT_UNAVAILABLE")
     && (DeviceResult.result_state r ≟ Some "reachable_no_management")
  then Some "unverified" else DeviceResult.result_state r.

(** The results of a job, of its tenant. *)
Definition results_of_job (tenant_id : string) (job_id : UUID)
    : DbM (list DeviceResult.DiscoveryDeviceResultRecord) :=
  query (λ d, List.filter (λ r, (DeviceResult.tenant_id r ≟ tenant_id)
                                && (DeviceResult.discovery_job_id r ≟ job_id)) (rows (device_results d))).

Definition device_result_response (models_by_management_ip : list (string * option string))
    (record : DeviceResult.DiscoveryDeviceResultRecord)
    : DeviceResultResponse.DiscoveryDeviceResultResponse := {|
  DeviceResultResponse.result_id := DeviceResult.id record;
  DeviceResultResponse.address := DeviceResult.address record;
  DeviceResultResponse.hostname := DeviceResult.hostname record;
  DeviceResultResponse.vendor := DeviceResult.vendor record;
  DeviceResultResponse.model := mjoin (Dicts.get (DeviceResult.address record) models_by_management_ip);
  DeviceResultResponse.platform := DeviceResult.platform record;
  DeviceResultResponse.state := DeviceResult.state record;
  DeviceResultResponse.result_state := reported_state record;
  DeviceResultResponse.selected_transport := DeviceResult.selected_transport record;
  DeviceResultResponse.failure_code := DeviceResult.failure_code record;
  DeviceResultResponse.failure_message := DeviceResult.failure_message record;
  DeviceResultResponse.started_at := DeviceResult.started_at record;
  DeviceResultResponse.completed_at := DeviceResult.completed_at record;
  DeviceResultResponse.correlation_id := DeviceResult.correlation_id record |}.

(** [get_job_devices]; [snapshot_models] answers the query on the live snapshots of a run. *)
Definition get_job_devices (snapshot_models : UUID → list (option string * option string))
    (job_id : UUID) (tenant_id : string) : DbM (list DeviceResultResponse.DiscoveryDeviceResultResponse) :=
  job <- job_or_404 tenant_id job_id ;;
  records <- results_of_job tenant_id job_id ;;
  let models_by_management_ip := dict_of
    (omap (λ '(management_ip, model), (λ ip, (ip, model)) <$> management_ip)
       (snapshot_models (Job.run_id job))) in
  ret (map (device_result_response models_by_management_ip) records).

(** [get_device_attempts]. *)
Definition attempt_response (record : Attempt.DiscoveryTransportAttemptRecord)
    : AttemptResponse.DiscoveryTransportAttemptResponse := {|
  AttemptResponse.attempt_id := Attempt.id record;
  AttemptResponse.transport := Attempt.transport record;
  AttemptResponse.attempt_order := Attempt.attempt_order record;
  AttemptResponse.result := Attempt.result record;
  AttemptResponse.failure_code := Attempt.failure_code record;
  AttemptResponse.duration_ms := Attempt.duration_ms record;
  AttemptResponse.started_at := Attempt.started_at record;
  AttemptResponse.completed_at := Attempt.completed_at record;
  AttemptResponse.correlation_id := Attempt.correlation_id record |}.

Definition get_device_attempts (result_id : UUID) (tenant_id : string)
    : DbM (list AttemptResponse.DiscoveryTransportAttemptResponse) :=
  records <- query (λ d, List.filter (λ a, (Attempt.device_result_id a ≟ result_id)
                                           && (Attempt.tenant_id a ≟ tenant_id)) (rows (attempts d))) ;;
  ret (map attempt_response records).

Definition or_zero (n : option Z) : option Z := Some (from_option id 0 n).

(** [get_run_summary]; the unverified total is not passed on. *)
Definition get_run_summary (run_id : UUID) (tenant_id : string) : DbM RunSummary.DiscoveryRunSummary :=
  run <- get_run run_id ;;
  match run with
  | None => http 404 "Discovery run was not found."
  | Some run =>
      if negb (Run.tenant_id run ≟ Some tenant_id) then http 404 "Discovery run was not found."
      else
        let totals := map (from_option id 0) [Run.total_scanned run; Run.total_discovered run;
          Run.total_unreachable run; Run.total_reachable_no_management run;
          Run.total_authentication_failed run; Run.total_partial_discovery run] in
        if existsb (λ n, n <? 0) totals then model_error
        else ret {| RunSummary.id := Run.id run;
          RunSummary.target_identifier := Run.target_identifier run;
          RunSummary.target_address := Run.target_address run;
          RunSummary.status := Run.status run; RunSummary.metadata := Run.metadata_json run;
          RunSummary.created_at := Run.created_at run;
          RunSummary.started_at := Some (Run.started_at run);
          RunSummary.finished_at := Run.finished_at run;
          RunSummary.total_scanned := or_zero (Run.total_scanned run);
          RunSummary.total_discovered := or_zero (Run.total_discovered run);
          RunSummary.total_unreachable := or_zero (Run.total_unreachable run);
          RunSummary.total_reachable_no_management := or_zero (Run.total_reachable_no_management run);
          RunSummary.total_authentication_failed := or_zero (Run.total_authentication_failed run);
          RunSummary.total_partial_discovery := or_zero (Run.total_partial_discovery run);
          RunSummary.total_unverified := None |}
  end.

(** [discovery_root]. *)
Definition discovery_root : list (string * string) := [("status", "available")].
End Handlers.

(** ** Requests *)

Section Requests.
Context {HF : FloatRepr} {HD : Digest}.

(** A request of a user: the guard runs on the tables of authentication, the handler on a
    session of its own. *)
Definition guarded {A} (svc : AuthenticationService) (permission_name : string)
    (credentials : option string) (handler : User → DbM A) : M (AuthState * Session) A := λ '(a, s),
  match require_permission svc get_authorization_service permission_name credentials a with
  | (Raise e, a') => (Raise e, (a', s))
  | (Ret user, a') => let '(r, s') := with_session (handler user) s in (r, (a', s'))
  end.
End Requests.
End Api.
