(* ===== verification/CidrVariance.v ===== *)
(** * The CIDR variance of a job ([api/v1/discovery.py], [get_cidr_variance])

    The comparison of what a CIDR job discovered with what NetBox documents in the same
    network: every address is on one side only, on both with the same identity, or on
    both with another.  The snapshot tables are arguments; rows come in the order the
    database lists them, and the order of the set of addresses is the interpreter's. *)

From S2P Require Import Prelude Vocabulary Effects Json Contracts Records Session.
From S2P Require Import JobRepository.
From S2P Require Import Dicts Texts TargetRepository Comparison DiscoveryApi IPv4 Demo.
From stdpp Require Import sorting.

#[local] Open Scope Z_scope.

(** [SnapshotRecord] and [SnapshotDeviceRecord] of [persistence/models.py]. *)
Module Snapshot.
Record SnapshotRecord := {
  id : UUID; source : string; tenant_id : string; source_label : option string;
  captured_at : datetime; schema_version : string; discovery_run_id : option UUID; payload : dict;
}.
End Snapshot.

Module SnapshotDevice.
Record SnapshotDeviceRecord := {
  id : UUID; snapshot_id : UUID; device_id : string; name : string;
  manufacturer : option string; model : option string; serial_number : option string;
  product_id : option string; management_ip : option string; platform : option string;
  payload : json;
}.
End SnapshotDevice.

(** [ipaddress.ip_network(text, strict=False)], as the membership it decides. *)
Class NetworkLibrary := ip_network : string → outcome (ip → bool).

#[export] Instance ipv4_networks : NetworkLibrary := λ s,
  let network a p :=
    match ipv4_parse a, p with
    | Some n, Some k =>
        let size := 2 ^ (32 - k) in
        Ret (λ x, (version x ≟ 4) && (ip_int x / size ≟ n / size))
    | _, _ => raise_ ValueError (s +:+ " does not appear to be an IPv4 or IPv6 network")
    end in
  match str_split "/" s with
  | [a] => network a (Some 32)
  | [a; p] => network a (decimal 2 32 p)
  | _ => raise_ ValueError (s +:+ " does not appear to be an IPv4 or IPv6 network")
  end.

(** ** The response *)

Module VarianceItem.
Record VarianceItem := {
  address : string; name : option string; expected_name : option string;
  observed_name : option string; reason : option string; serial : option string;
  model : option string; role : option string; status : option string;
}.
End VarianceItem.

Module MatchedDeviceItem.
Record MatchedDeviceItem := {
  address : string; discovered_name : option string; netbox_name : option string;
  identity_match_method : option string; model : option string; serial : option string;
  state : option string; status : option string;
}.
End MatchedDeviceItem.

Module UnreachableItem.
Record UnreachableItem := {
  address : string; state : option string; failure_code : option string; reason : option string;
}.
End UnreachableItem.

Module Counts.
Record CidrVarianceCounts := {
  discovered : Z; netbox : Z; matched : Z; variances : Z; netbox_only : Z;
  discovered_only : Z; identity_mismatch : Z; unverified : Z; unreachable : Z;
}.
End Counts.

Module VarianceData.
Record CidrVarianceData := {
  netbox_only : list VarianceItem.VarianceItem;
  discovered_only : list VarianceItem.VarianceItem;
  identity_mismatch : list VarianceItem.VarianceItem;
  unverified : list VarianceItem.VarianceItem;
  matched : list MatchedDeviceItem.MatchedDeviceItem;
  unreachable : list UnreachableItem.UnreachableItem;
}.
End VarianceData.

Record CidrVarianceSummaryResponse := {
  cv_summary : Counts.CidrVarianceCounts;
  cv_variances : VarianceData.CidrVarianceData;
  cv_target_identifier : string;
  cv_cidr : string;
  cv_discovery_job_id : UUID;
  cv_discovery_status : string;
  cv_discovery_run_started_at : datetime;
  cv_netbox_snapshot_timestamp : option datetime;
  cv_vendor : option string;
  cv_platform : option string;
  cv_unreachable : Z;
}.

Abbreviation device := SnapshotDevice.SnapshotDeviceRecord.
Abbreviation result := DeviceResult.DiscoveryDeviceResultRecord.

(** ** Pieces of the handler *)

(** [snapshot_ip]: the address without its prefix length. *)
Definition snapshot_ip (v : option string) : option string :=
  match v with
  | Some s => if str_truthy s then Some (before_first "/" s) else None
  | None => None
  end.

(** [payload_text] and [payload_nested_text]. *)
Definition text_or_none (v : option json) : option string :=
  match v with Some (JStr s) => if str_truthy s then Some s else None | _ => None end.

Definition payload_text (payload : dict) (key : string) : option string :=
  text_or_none (dict_get key payload).

Definition payload_nested_text (payload : dict) (parent key : string) : option string :=
  match dict_get parent payload with
  | Some (JDict d) => text_or_none (dict_get key d)
  | _ => None
  end.

(** [expected.payload if isinstance(expected.payload, dict) else {}]. *)
Definition payload_of (d : device) : dict :=
  match SnapshotDevice.payload d with JDict p => p | _ => [] end.

(** [ORDER BY captured_at DESC, id DESC]. *)
Definition newer_snapshot (a b : Snapshot.SnapshotRecord) : Prop :=
  Snapshot.captured_at b < Snapshot.captured_at a ∨
  Snapshot.captured_at b = Snapshot.captured_at a ∧ (Snapshot.id b <= Snapshot.id a)%N.
#[export] Instance newer_snapshot_dec : RelDecision newer_snapshot.
Proof. intros a b. unfold newer_snapshot. apply _. Defined.

Section Variance.
Context {HI : IpLibrary} {HN : NetworkLibrary}.
Context (snapshots : list Snapshot.SnapshotRecord) (snapshot_devices : list device).

(** The NetBox snapshot in force when the run started. *)
Definition netbox_snapshot (tenant_id : string) (started_at : datetime) : option Snapshot.SnapshotRecord :=
  head (merge_sort newer_snapshot
    (List.filter (λ s, (Snapshot.source s ≟ "netbox") && (Snapshot.tenant_id s ≟ tenant_id)
                       && (Snapshot.captured_at s <=? started_at)) snapshots)).

(** The live snapshot of the run. *)
Definition live_snapshot (tenant_id : string) (run_id : UUID) : option Snapshot.SnapshotRecord :=
  List.find (λ s, (Snapshot.discovery_run_id s ≟ Some run_id) && (Snapshot.source s ≟ "live")
                  && (Snapshot.tenant_id s ≟ tenant_id)) snapshots.

Definition devices_of (snapshot : Snapshot.SnapshotRecord) : list device :=
  List.filter (λ d, SnapshotDevice.snapshot_id d ≟ Snapshot.id snapshot) snapshot_devices.

(** The devices of the list inside the network; the first text that is not an address
    raises, and stops the comprehension. *)
Fixpoint inside (member : ip → bool) (ds : list device) : outcome (list device) :=
  match ds with
  | [] => Ret []
  | d :: ds' =>
      match snapshot_ip (SnapshotDevice.management_ip d) with
      | None => inside member ds'
      | Some text =>
          let! a := ip_address text in
          let! rest := inside member ds' in
          Ret (if member a then d :: rest else rest)
      end
  end.

(** [expected_devices]; a [ValueError] leaves none. *)
Definition expected_devices (cidr : string) (snapshot : option Snapshot.SnapshotRecord) : outcome (list device) :=
  match snapshot with
  | None => Ret []
  | Some s =>
      match (let! member := ip_network cidr in inside member (devices_of s)) with
      | Ret ds => Ret ds
      | Raise e => if isinstance e ValueError then Ret [] else Raise e
      end
  end.

(** The loop over the results of the job. *)
Record Observed := {
  discovered_by_ip : list (string * result);
  unverified_list : list VarianceItem.VarianceItem;
  unreachable_list : list UnreachableItem.UnreachableItem;
}.

Definition observe (o : Observed) (r : result) : Observed :=
  let res_state := Api.reported_state r in
  if res_state ≟ Some "unverified" then
    {| discovered_by_ip := discovered_by_ip o;
       unverified_list := unverified_list o ++ [{|
         VarianceItem.address := DeviceResult.address r; VarianceItem.name := None;
         VarianceItem.expected_name := None; VarianceItem.observed_name := None;
         VarianceItem.reason := Some (or_str (DeviceResult.failure_message r) "Transport unavailable");
         VarianceItem.serial := None; VarianceItem.model := None; VarianceItem.role := None;
         VarianceItem.status := None |}];
       unreachable_list := unreachable_list o |}
  else if res_state ≟ Some "unreachable" then
    {| discovered_by_ip := discovered_by_ip o; unverified_list := unverified_list o;
       unreachable_list := unreachable_list o ++ [{|
         UnreachableItem.address := DeviceResult.address r;
         UnreachableItem.state := DeviceResult.result_state r;
         UnreachableItem.failure_code := DeviceResult.failure_code r;
         UnreachableItem.reason := DeviceResult.failure_message r |}] |}
  else if (res_state ≟ Some "discovered") || (res_state ≟ Some "partial_discovery") then
    {| discovered_by_ip := put (DeviceResult.address r) r (discovered_by_ip o);
       unverified_list := unverified_list o; unreachable_list := unreachable_list o |}
  else o.

Definition observed_of (results : list result) : Observed :=
  fold_left observe results
    {| discovered_by_ip := []; unverified_list := []; unreachable_list := [] |}.

(** [live_devices_by_ip] and [netbox_by_ip]: the last device of an address. *)
Definition by_management_ip (skip_empty : bool) (ds : list device) : list (string * device) :=
  dict_of (omap (λ d,
    match snapshot_ip (SnapshotDevice.management_ip d) with
    | Some a => if skip_empty && negb (str_truthy a) then None else Some (a, d)
    | None => None
    end) ds).

(** The lists the loop over the addresses fills. *)
Record Compared := {
  netbox_only : list VarianceItem.VarianceItem;
  discovered_only : list VarianceItem.VarianceItem;
  matched : list string;
  matched_details : list MatchedDeviceItem.MatchedDeviceItem;
  identity_mismatch : list VarianceItem.VarianceItem;
}.

Definition netbox_only_item (a : string) (expected : device) : VarianceItem.VarianceItem := {|
  VarianceItem.address := a; VarianceItem.name := Some (SnapshotDevice.name expected);
  VarianceItem.expected_name := Some (SnapshotDevice.name expected);
  VarianceItem.observed_name := None; VarianceItem.reason := None;
  VarianceItem.serial := SnapshotDevice.serial_number expected;
  VarianceItem.model := SnapshotDevice.model expected;
  VarianceItem.role := payload_nested_text (payload_of expected) "role" "name";
  VarianceItem.status := payload_text (payload_of expected) "status" |}.

Definition names_item (a : string) (expected_name observed_name : option string)
    : VarianceItem.VarianceItem := {|
  VarianceItem.address := a; VarianceItem.name := None;
  VarianceItem.expected_name := expected_name; VarianceItem.observed_name := observed_name;
  VarianceItem.reason := None; VarianceItem.serial := None; VarianceItem.model := None;
  VarianceItem.role := None; VarianceItem.status := None |}.

Section Loop.
Context (netbox_by_ip live_devices_by_ip : list (string * device)) (found_by_ip : list (string * result)).

Definition observed_name_of (a : string) (r : result) : option string :=
  match get a live_devices_by_ip with
  | Some live => Some (SnapshotDevice.name live)
  | None => DeviceResult.hostname r
  end.

Definition observed_serial_of (a : string) : option string :=
  get a live_devices_by_ip ≫= SnapshotDevice.serial_number.

Definition same_device (a : string) (expected : device) (r : result) : bool :=
  identities_match (Some (SnapshotDevice.name expected)) (SnapshotDevice.serial_number expected)
    (observed_name_of a r) (observed_serial_of a).

Definition matched_item (a : string) (expected : device) (r : result) : MatchedDeviceItem.MatchedDeviceItem := {|
  MatchedDeviceItem.address := a;
  MatchedDeviceItem.discovered_name := observed_name_of a r;
  MatchedDeviceItem.netbox_name := Some (SnapshotDevice.name expected);
  MatchedDeviceItem.identity_match_method :=
    Comparison.identity_match_method (Some (SnapshotDevice.name expected))
      (SnapshotDevice.serial_number expected) (observed_name_of a r) (observed_serial_of a);
  MatchedDeviceItem.model := SnapshotDevice.model expected;
  MatchedDeviceItem.serial :=
    match observed_serial_of a with
    | Some s => if str_truthy s then Some s else SnapshotDevice.serial_number expected
    | None => SnapshotDevice.serial_number expected
    end;
  MatchedDeviceItem.state := DeviceResult.result_state r;
  MatchedDeviceItem.status := payload_text (payload_of expected) "status" |}.

(** One turn of [for ip in all_ips]. *)
Definition compare_address (c : Compared) (a : string) : Compared :=
  match get a netbox_by_ip, get a found_by_ip with
  | Some expected, None =>
      {| netbox_only := netbox_only c ++ [netbox_only_item a expected];
         discovered_only := discovered_only c; matched := matched c;
         matched_details := matched_details c; identity_mismatch := identity_mismatch c |}
  | None, Some observed =>
      {| netbox_only := netbox_only c;
         discovered_only := discovered_only c ++ [names_item a None (observed_name_of a observed)];
         matched := matched c; matched_details := matched_details c;
         identity_mismatch := identity_mismatch c |}
  | Some expected, Some observed =>
      if same_device a expected observed then
        {| netbox_only := netbox_only c; discovered_only := discovered_only c;
           matched := matched c ++ [a];
           matched_details := matched_details c ++ [matched_item a expected observed];
           identity_mismatch := identity_mismatch c |}
      else
        {| netbox_only := netbox_only c; discovered_only := discovered_only c;
           matched := matched c; matched_details := matched_details c;
           identity_mismatch := identity_mismatch c
             ++ [names_item a (Some (SnapshotDevice.name expected)) (observed_name_of a observed)] |}
  | None, None => c
  end.

Definition compare_addresses (all_ips : list string) : Compared :=
  fold_left compare_address all_ips
    {| netbox_only := []; discovered_only := []; matched := []; matched_details := [];
       identity_mismatch := [] |}.
End Loop.

(** [set(netbox_by_ip.keys()) | set(discovered_by_ip.keys())], in the order of the set. *)
Definition all_ips (set_order : list string → list string) (netbox_by_ip : list (string * device))
    (found_by_ip : list (string * result)) : list string :=
  set_order (first_occurrences (keys netbox_by_ip ++ keys found_by_ip)).

Definition len {A} (l : list A) : Z := Z.of_nat (length l).

(** The response of the handler. *)
Definition summary_of (job : Job.DiscoveryJobRecord) (target : Target.DiscoveryTargetRecord)
    (run : Run.DiscoveryRunRecord) (snapshot : option Snapshot.SnapshotRecord)
    (expected : list device) (o : Observed) (c : Compared) : CidrVarianceSummaryResponse := {|
  cv_summary := {|
    Counts.discovered := len (discovered_by_ip o); Counts.netbox := len expected;
    Counts.matched := len (matched c);
    Counts.variances := len (netbox_only c) + len (discovered_only c) + len (identity_mismatch c);
    Counts.netbox_only := len (netbox_only c); Counts.discovered_only := len (discovered_only c);
    Counts.identity_mismatch := len (identity_mismatch c);
    Counts.unverified := len (unverified_list o); Counts.unreachable := len (unreachable_list o) |};
  cv_variances := {|
    VarianceData.netbox_only := netbox_only c; VarianceData.discovered_only := discovered_only c;
    VarianceData.identity_mismatch := identity_mismatch c; VarianceData.unverified := unverified_list o;
    VarianceData.matched := matched_details c; VarianceData.unreachable := unreachable_list o |};
  cv_target_identifier := Target.identifier target;
  cv_cidr := or_str (Target.scope_cidr target) (Target.address target);
  cv_discovery_job_id := Job.id job; cv_discovery_status := Job.state job;
  cv_discovery_run_started_at := Run.started_at run;
  cv_netbox_snapshot_timestamp := Snapshot.captured_at <$> snapshot;
  cv_vendor := Target.vendor target; cv_platform := Target.platform_hint target;
  cv_unreachable := len (unreachable_list o) |}.

(** [get_cidr_variance]. *)
Definition get_cidr_variance (set_order : list string → list string) (job_id : UUID) (tenant_id : string)
    : DbM CidrVarianceSummaryResponse :=
  job <- Api.job_or_404 tenant_id job_id ;;
  target <- get_tenant_target tenant_id (Job.target_id job) ;;
  match target with
  | None => http 422 "Job target is not a CIDR network."
  | Some target =>
      if negb (Target.scope_type target ≟ "cidr_network") then http 422 "Job target is not a CIDR network."
      else
        run <- get_run (Job.run_id job) ;;
        match run with
        | None => http 404 "Discovery run not found."
        | Some run =>
            if negb (Run.tenant_id run ≟ Some tenant_id) then http 404 "Discovery run not found."
            else
              let snapshot := netbox_snapshot tenant_id (Run.started_at run) in
              expected <- of_outcome (expected_devices
                (or_str (Target.scope_cidr target) (Target.address target)) snapshot) ;;
              results <- Api.results_of_job tenant_id job_id ;;
              let o := observed_of results in
              let live := from_option devices_of [] (live_snapshot tenant_id (Job.run_id job)) in
              let live_devices_by_ip := by_management_ip true live in
              let netbox_by_ip := by_management_ip false expected in
              ret (summary_of job target run snapshot expected o
                (compare_addresses netbox_by_ip live_devices_by_ip (discovered_by_ip o)
                   (all_ips set_order netbox_by_ip (discovered_by_ip o))))
        end
  end.
End Variance.

(** * The variance accounts for every address

    The four lists of [CidrVariance] partition the addresses, and the counts of its
    summary add up. *)

(** ** One pass over the addresses *)

Inductive side := NetBoxSide | DiscoveredSide | Matched | Mismatch | Neither.
#[export] Instance side_eq_dec : EqDecision side.
Proof. solve_decision. Defined.

Section Sides.
Context (nb live : list (string * device)) (found : list (string * result)).

Definition side_of (a : string) : side :=
  match get a nb, get a found with
  | Some _, None => NetBoxSide
  | None, Some _ => DiscoveredSide
  | Some e, Some r => if same_device live a e r then Matched else Mismatch
  | None, None => Neither
  end.

Definition on_side (x : side) (ips : list string) : list string := List.filter (λ a, side_of a ≟ x) ips.

Lemma on_side_snoc x ips a :
  on_side x (ips ++ [a]) = on_side x ips ++ (if side_of a ≟ x then [a] else []).
Proof. unfold on_side. rewrite List.filter_app. cbn. by destruct (_ ≟ _). Qed.

(** The lists the loop fills, by the addresses of their items. *)
Lemma compare_addresses_sides ips :
  let c := compare_addresses nb live found ips in
  map VarianceItem.address (netbox_only c) = on_side NetBoxSide ips ∧
  map VarianceItem.address (discovered_only c) = on_side DiscoveredSide ips ∧
  matched c = on_side Matched ips ∧
  map MatchedDeviceItem.address (matched_details c) = on_side Matched ips ∧
  map VarianceItem.address (identity_mismatch c) = on_side Mismatch ips ∧
  Forall (λ m, MatchedDeviceItem.identity_match_method m ≠ None) (matched_details c).
Proof.
  cbv zeta. unfold compare_addresses. induction ips as [|a ips IH] using rev_ind; [done|].
  rewrite fold_left_app, !on_side_snoc. cbn [fold_left].
  set (c := fold_left _ ips _) in *. destruct IH as (I1 & I2 & I3 & I4 & I5 & I6).
  unfold compare_address, side_of.
  destruct (get a nb) as [e|], (get a found) as [r|]; cbn [eqb bool_decide];
    [destruct (same_device live a e r) eqn:Em|..]; cbn -[same_device];
    rewrite ?map_app, ?I1, ?I2, ?I3, ?I4, ?I5, ?app_nil_r; split_and!; try done.
  apply Forall_app. split; [done|]. constructor; [|done]. cbn.
  unfold same_device, identities_match, is_not_none, is_none in Em. by destruct (Comparison.identity_match_method _ _ _ _).
Qed.
End Sides.

Lemma get_keys {V} (k : string) (d : list (string * V)) : is_Some (get k d) ↔ k ∈ keys d.
Proof.
  induction d as [|[k' v] d IH]; cbn; [split; [by intros []|by intros ?%elem_of_nil]|].
  rewrite elem_of_cons. destruct (k' ≟ k) eqn:E; pybool.
  - subst. naive_solver.
  - rewrite IH. naive_solver.
Qed.

Section Partition.
Context (nb live : list (string * device)) (found : list (string * result)) (ips : list string).
Hypothesis ips_once : NoDup ips.
Hypothesis ips_all : ∀ a, a ∈ ips ↔ a ∈ keys nb ∨ a ∈ keys found.
Hypothesis nb_once : NoDup (keys nb).
Hypothesis found_once : NoDup (keys found).

#[local] Abbreviation part x := (on_side nb live found x ips).

Lemma elem_of_part x a : a ∈ part x ↔ a ∈ ips ∧ side_of nb live found a = x.
Proof. unfold on_side. rewrite list_elem_of_In, filter_In, <- list_elem_of_In, eqb_true. done. Qed.

Lemma part_once x : NoDup (part x).
Proof. unfold on_side. by apply NoDup_ListNoDup, List.NoDup_filter, NoDup_ListNoDup. Qed.

Lemma side_found a : a ∈ keys found ↔
  side_of nb live found a = DiscoveredSide ∨ side_of nb live found a = Matched ∨ side_of nb live found a = Mismatch.
Proof.
  rewrite <- get_keys. unfold side_of. destruct (get a found) as [r|], (get a nb) as [e|];
    [destruct (same_device live a e r)|..];
    (split; [intros [? Hx]; try discriminate Hx; auto|intros [Hx|[Hx|Hx]]; try discriminate Hx; eauto]).
Qed.

Lemma side_nb a : a ∈ keys nb ↔
  side_of nb live found a = NetBoxSide ∨ side_of nb live found a = Matched ∨ side_of nb live found a = Mismatch.
Proof.
  rewrite <- get_keys. unfold side_of. destruct (get a found) as [r|], (get a nb) as [e|];
    [destruct (same_device live a e r)|..];
    (split; [intros [? Hx]; try discriminate Hx; auto|intros [Hx|[Hx|Hx]]; try discriminate Hx; eauto]).
Qed.

Lemma parts_once x y z : x ≠ y → x ≠ z → y ≠ z → NoDup (part x ++ part y ++ part z).
Proof.
  intros Hxy Hxz Hyz. apply NoDup_app. split_and!; [apply part_once| |].
  - intros a. rewrite elem_of_app, !elem_of_part. naive_solver.
  - apply NoDup_app. split_and!; [apply part_once| |apply part_once].
    intros a. rewrite !elem_of_part. naive_solver.
Qed.

Lemma found_parts : part DiscoveredSide ++ part Matched ++ part Mismatch ≡ₚ keys found.
Proof.
  apply NoDup_Permutation; [by apply parts_once|done|]. intros a.
  rewrite !elem_of_app, !elem_of_part, side_found, ips_all, side_found. naive_solver.
Qed.

Lemma nb_parts : part NetBoxSide ++ part Matched ++ part Mismatch ≡ₚ keys nb.
Proof.
  apply NoDup_Permutation; [by apply parts_once|done|]. intros a.
  rewrite !elem_of_app, !elem_of_part, side_nb, ips_all, side_nb. naive_solver.
Qed.

Lemma all_parts :
  part NetBoxSide ++ part DiscoveredSide ++ part Matched ++ part Mismatch ≡ₚ ips.
Proof.
  apply NoDup_Permutation; [|done|].
  - apply NoDup_app. split_and!; [apply part_once| |by apply parts_once].
    intros a. rewrite !elem_of_app, !elem_of_part. intros [_ E] [[_ E']|[[_ E']|[_ E']]]; congruence.
  - intros a. rewrite !elem_of_app, !elem_of_part. split; [tauto|]. intros Ha.
    destruct (side_of nb live found a) eqn:E; try tauto. exfalso.
    apply ips_all in Ha as [Ha|Ha]; [apply side_nb in Ha|apply side_found in Ha];
      destruct Ha as [Ha|[Ha|Ha]]; congruence.
Qed.
End Partition.

(** ** The results of the job *)

(** A result that counts as discovered. *)
Definition discovered_result (r : result) : bool :=
  (Api.reported_state r ≟ Some "discovered") || (Api.reported_state r ≟ Some "partial_discovery").

Lemma observed_discovered results :
  NoDup (keys (discovered_by_ip (observed_of results))) ∧
  ∀ a, a ∈ keys (discovered_by_ip (observed_of results)) ↔
    ∃ r, r ∈ results ∧ discovered_result r = true ∧ DeviceResult.address r = a.
Proof.
  unfold observed_of. induction results as [|r results IH] using rev_ind.
  { split; [constructor|]. intros a. cbn. split; [by intros ?%elem_of_nil|by intros (r & ?%elem_of_nil & _)]. }
  rewrite fold_left_app. cbn [fold_left]. set (o := fold_left _ results _) in *. destruct IH as [Hn Ha].
  unfold observe. unfold discovered_result in *.
  destruct (Api.reported_state r ≟ Some "unverified") eqn:E1;
    [|destruct (Api.reported_state r ≟ Some "unreachable") eqn:E2;
      [|destruct (_ || _) eqn:E3]]; cbn [discovered_by_ip].
  1, 2, 4: (split; [done|]); intros a; rewrite Ha; setoid_rewrite elem_of_app;
    setoid_rewrite list_elem_of_singleton; split; [naive_solver|];
    intros (r' & [Hr| ->] & Hd & <-); [naive_solver|]; pybool.
  - rewrite E1 in Hd. naive_solver.
  - rewrite E2 in Hd. naive_solver.
  - naive_solver.
  - split; [by apply NoDup_keys_put|]. intros a. rewrite elem_of_keys_put, Ha.
    setoid_rewrite elem_of_app. setoid_rewrite list_elem_of_singleton. naive_solver.
Qed.

(** What is listed of the results that were not reached, one item for each in order. *)
Definition unverified_item (r : result) : VarianceItem.VarianceItem := {|
  VarianceItem.address := DeviceResult.address r; VarianceItem.name := None;
  VarianceItem.expected_name := None; VarianceItem.observed_name := None;
  VarianceItem.reason := Some (match DeviceResult.failure_message r with
                               | Some m => if str_truthy m then m else "Transport unavailable"
                               | None => "Transport unavailable" end);
  VarianceItem.serial := None; VarianceItem.model := None; VarianceItem.role := None;
  VarianceItem.status := None |}.

Definition unreachable_item (r : result) : UnreachableItem.UnreachableItem := {|
  UnreachableItem.address := DeviceResult.address r;
  UnreachableItem.state := DeviceResult.result_state r;
  UnreachableItem.failure_code := DeviceResult.failure_code r;
  UnreachableItem.reason := DeviceResult.failure_message r |}.

Lemma observed_unreached results :
  unverified_list (observed_of results)
  = map unverified_item (List.filter (λ r, Api.reported_state r ≟ Some "unverified") results) ∧
  unreachable_list (observed_of results)
  = map unreachable_item (List.filter (λ r, Api.reported_state r ≟ Some "unreachable") results).
Proof.
  unfold observed_of. induction results as [|r results IH] using rev_ind; [done|].
  rewrite fold_left_app, !List.filter_app, !map_app. cbn [fold_left List.filter].
  set (o := fold_left _ results _) in *. destruct IH as [<- <-]. unfold observe.
  destruct (Api.reported_state r ≟ Some "unverified") eqn:E1.
  { pybool. rewrite E1. cbn. rewrite app_nil_r. split; [|done]. do 3 f_equal. }
  destruct (Api.reported_state r ≟ Some "unreachable") eqn:E2; [by cbn; rewrite app_nil_r|].
  destruct (_ || _); cbn; by rewrite !app_nil_r.
Qed.

Lemma length_keys {V} (d : list (string * V)) : length (keys d) = length d.
Proof. apply length_map. Qed.

Lemma length_dict_of {V} (kvs : list (string * V)) : (length (dict_of kvs) <= length kvs)%nat.
Proof.
  induction kvs as [|[k v] kvs IH] using rev_ind; [done|].
  rewrite dict_of_snoc, length_app, <- length_keys, keys_put. cbn.
  destruct (mem _ _); rewrite ?length_app, ?length_keys; cbn; lia.
Qed.

Lemma length_omap_le {A B} (f : A → option B) l : (length (omap f l) <= length l)%nat.
Proof. induction l as [|x l IH]; cbn; [done|]. destruct (f x); cbn; lia. Qed.

Lemma keys_by_management_ip devices a :
  a ∈ keys (by_management_ip false devices) ↔
  ∃ d, d ∈ devices ∧ snapshot_ip (SnapshotDevice.management_ip d) = Some a.
Proof.
  unfold by_management_ip. rewrite elem_of_keys_dict_of. unfold keys. rewrite list_elem_of_fmap. split.
  - intros ([a' d] & -> & Hd). apply list_elem_of_omap in Hd as (d' & Hd' & E). exists d'.
    destruct (snapshot_ip _) as [x|] eqn:Ex; [|done]. cbn in E. injection E as -> ->. by split.
  - intros (d & Hd & E). exists (a, d). split; [done|]. apply list_elem_of_omap. exists d. by rewrite E.
Qed.

Section Answer.
Context {HI : IpLibrary} {HN : NetworkLibrary}.
Context (snapshots : list Snapshot.SnapshotRecord) (snapshot_devices : list device).

(** The parts of a variance by address. *)
Definition addresses_of (v : VarianceData.CidrVarianceData) : list string :=
  map VarianceItem.address (VarianceData.netbox_only v)
  ++ map VarianceItem.address (VarianceData.discovered_only v)
  ++ map MatchedDeviceItem.address (VarianceData.matched v)
  ++ map VarianceItem.address (VarianceData.identity_mismatch v).

Definition discovered_addresses (v : VarianceData.CidrVarianceData) : list string :=
  map VarianceItem.address (VarianceData.discovered_only v)
  ++ map MatchedDeviceItem.address (VarianceData.matched v)
  ++ map VarianceItem.address (VarianceData.identity_mismatch v).

Definition documented_addresses (v : VarianceData.CidrVarianceData) : list string :=
  map VarianceItem.address (VarianceData.netbox_only v)
  ++ map MatchedDeviceItem.address (VarianceData.matched v)
  ++ map VarianceItem.address (VarianceData.identity_mismatch v).

(** The devices NetBox documents for the job: those of the tenant's snapshot in force when
    the run of the job started, inside the network of its target. *)
Definition documents (job_id : UUID) (tenant_id : string) (d : DB) (devices : list device) : Prop :=
  ∃ job target run,
    jobs d !! job_id = Some job ∧ Job.tenant_id job = tenant_id ∧
    targets d !! Job.target_id job = Some target ∧ Target.tenant_id target = tenant_id ∧
    runs d !! Job.run_id job = Some run ∧ Run.tenant_id run = Some tenant_id ∧
    expected_devices snapshot_devices (or_str (Target.scope_cidr target) (Target.address target))
      (netbox_snapshot snapshots tenant_id (Run.started_at run)) = Ret devices.

(** The results of the job. *)
Definition job_results (tenant_id : string) (job_id : UUID) (d : DB) : list result :=
  List.filter (λ r, (DeviceResult.tenant_id r ≟ tenant_id) && (DeviceResult.discovery_job_id r ≟ job_id))
    (rows (device_results d)).

(** What the handler answers with, when it does. *)
Lemma variance_returns set_order job_id tenant_id s r s' :
  get_cidr_variance snapshots snapshot_devices set_order job_id tenant_id s = (Ret r, s') →
  s' = s ∧ ∃ job target run snapshot expected live,
    documents job_id tenant_id (view s) expected ∧
    let o := observed_of (job_results tenant_id job_id (view s)) in
    let nb := by_management_ip false expected in
    r = summary_of job target run snapshot expected o
          (compare_addresses nb live (discovered_by_ip o) (all_ips set_order nb (discovered_by_ip o))).
Proof.
  unfold get_cidr_variance, Api.job_or_404. intros Hr.
  apply bind_inv in Hr as [(job & s1 & E1 & Hr)|(e & _ & [=])].
  erewrite bind_Ret in E1 by reflexivity. destruct (mbind _ _) as [j|] eqn:Ej in E1; [|done].
  injection E1 as -> <-. erewrite bind_Ret in Hr by reflexivity.
  destruct (mbind _ (targets (view s) !! Job.target_id job)) as [target|] eqn:Et in Hr; [|done].
  destruct (negb (Target.scope_type target ≟ _)) in Hr; [done|].
  erewrite bind_Ret in Hr by reflexivity.
  destruct (runs (view s) !! Job.run_id job) as [run|] eqn:Er in Hr; [|done].
  destruct (negb _) eqn:En in Hr; [done|]. cbv zeta in Hr.
  apply bind_inv in Hr as [(expected & s2 & E2 & Hr)|(e & _ & [=])].
  injection E2 as E2 <-. erewrite bind_Ret in Hr by reflexivity.
  assert (s' = s) as -> by by injection Hr.
  split; [done|]. eexists job, target, run, _, expected, _. split.
  { exists job, target, run. apply bind_Some in Ej as (j' & Hj & Ej), Et as (t' & Ht & Et).
    destruct (_ ≟ _) eqn:E3 in Ej; [|done]. destruct (_ ≟ _) eqn:E4 in Et; [|done].
    injection Ej as ->. injection Et as ->. pybool. by split_and!. }
  apply (f_equal fst) in Hr. cbn [fst] in Hr. unfold ret in Hr. cbn beta in Hr.
  assert (∀ a b : CidrVarianceSummaryResponse, Ret a = Ret b → b = a) as Hinj by congruence.
  exact (Hinj _ _ Hr).
Qed.

End Answer.

(** ** A network of four addresses *)

Module DemoVariance.
Definition run : Run.DiscoveryRunRecord :=
  Run.set_metadata_json [] (Api.new_run 50 "acme" scope_target [] 100 100).

Definition found (id : UUID) (address : string) (state : string) : result := {|
  DeviceResult.id := id; DeviceResult.tenant_id := "acme"; DeviceResult.discovery_job_id := 3%N;
  DeviceResult.child_job_id := id; DeviceResult.address := address;
  DeviceResult.hostname := Some "sw1"; DeviceResult.vendor := None; DeviceResult.platform := None;
  DeviceResult.state := "succeeded"; DeviceResult.result_state := Some state;
  DeviceResult.selected_transport := None; DeviceResult.failure_code := None;
  DeviceResult.failure_message := None; DeviceResult.started_at := None;
  DeviceResult.completed_at := None; DeviceResult.correlation_id := None |}.

Definition db : DB :=
  set_jobs (job_table [finished_job 3 11 7])
    (set_targets {[11%N := scope_target]} (set_runs {[50%N := run]}
       (set_device_results {[21%N := found 21 "10.0.0.1" "discovered";
                             22%N := found 22 "10.0.0.2" "unreachable"]} empty_db))).

Definition snapshot : Snapshot.SnapshotRecord := {|
  Snapshot.id := 70%N; Snapshot.source := "netbox"; Snapshot.tenant_id := "acme";
  Snapshot.source_label := None; Snapshot.captured_at := 50; Snapshot.schema_version := "1";
  Snapshot.discovery_run_id := None; Snapshot.payload := [] |}.

Definition documented (id : UUID) (name address : string) : device := {|
  SnapshotDevice.id := id; SnapshotDevice.snapshot_id := 70%N; SnapshotDevice.device_id := name;
  SnapshotDevice.name := name; SnapshotDevice.manufacturer := None; SnapshotDevice.model := None;
  SnapshotDevice.serial_number := None; SnapshotDevice.product_id := None;
  SnapshotDevice.management_ip := Some address; SnapshotDevice.platform := None;
  SnapshotDevice.payload := JDict [] |}.

Definition counts_of (devices : list device) : option (Z * Z * Z) :=
  match (get_cidr_variance [snapshot] devices id 3 "acme" (open_session db [])).1 with
  | Ret r => Some (Counts.netbox (cv_summary r), Counts.matched (cv_summary r),
                   Counts.netbox_only (cv_summary r))
  | Raise _ => None
  end.
End DemoVariance.


(** An address that NetBox documents and that was not reached is listed twice in the
    response: as missing from the network, and as unreachable. *)
Example documented_and_unreachable :
  match (get_cidr_variance [DemoVariance.snapshot] [DemoVariance.documented 2 "sw2" "10.0.0.2"]
           id 3 "acme" (open_session DemoVariance.db [])).1 with
  | Ret r => (map VarianceItem.address (VarianceData.netbox_only (cv_variances r)),
              map UnreachableItem.address (VarianceData.unreachable (cv_variances r)))
             = (["10.0.0.2"], ["10.0.0.2"])
  | Raise _ => False
  end.
Proof. vm_compute. reflexivity. Qed.

(** A device of the snapshot, of another network, whose management address is not an
    address: every documented device of the network is gone from the answer. *)
Example one_bad_address_hides_netbox :
  (DemoVariance.counts_of [DemoVariance.documented 1 "SW1" "10.0.0.1/30";
                           DemoVariance.documented 2 "sw2" "10.0.0.2"],
   DemoVariance.counts_of [DemoVariance.documented 1 "SW1" "10.0.0.1/30";
                           DemoVariance.documented 2 "sw2" "10.0.0.2";
                           DemoVariance.documented 3 "dc" "dc.example.org"])
  = (Some (2, 1, 1), Some (0, 0, 0)).
Proof. vm_compute. reflexivity. Qed.
