(* ===== verification/DiscoveryApiTheorems.v ===== *)
(** * What the discovery API answers and leaves

    The theorems of [DiscoveryApi]: a submission is recorded whole or not at all, pages
    end where the listing ends, a request of one tenant leaves the rows of the others. *)

From S2P Require Import Prelude Vocabulary Effects Json Contracts Records Session.
From S2P Require Import JobRepository.
From S2P Require Import Cancellation EvidenceStore Worker Dicts Texts AuditTrail Auth.
From S2P Require Import TargetRepository JobQueries Schemas DiscoveryApi IPv4 Demo.
From stdpp Require Import sorting.

#[local] Open Scope Z_scope.

Section Submission.
Context `{IpLibrary}.

(** What is left of a request that ends without a commit. *)
Lemma with_session_result {A} (m : DbM A) s r s1 :
  m (set_locked ∅ (set_view (committed s) s)) = (r, s1) →
  with_session m s = (r, set_locked ∅ (set_view (committed s1) s1)).
Proof.
  intros E. unfold with_session, rollback, bind, modify, try_finally. rewrite E. by destruct r.
Qed.

(** [JobRepository.create] in the session of a submission. *)
Lemma create_in_session tenant_id target_id run_id created_by caps timeout corr s t n
    (Hi : interference s = []) (Ht : targets (view s) !! target_id = Some t)
    (Htt : Target.tenant_id t = tenant_id) (Hn : runs (view s) !! run_id = Some n)
    (Hnt : Run.tenant_id n = Some tenant_id) :
  let jid := uuids s (drawn s) in
  let js := jobs (view s) in
  ∃ o s1, JobRepository.create tenant_id target_id run_id None created_by caps timeout corr s = (o, s1) ∧
  committed s1 = committed s ∧
  if negb (is_nil (matching (active_for tenant_id target_id) js)) || is_not_none (js !! jid)
  then o = raise_ DuplicateActiveDiscoveryError "A discovery execution is already active for this target."
  else ∃ j, o = Ret j ∧ view s1 = set_jobs (<[jid := j]> js) (view s) ∧
    Job.id j = jid ∧ Job.tenant_id j = tenant_id ∧ Job.target_id j = target_id ∧ Job.run_id j = run_id ∧
    Job.state j = value QUEUED ∧ Job.attempts j = 0 ∧ Job.timeout_seconds j = timeout ∧
    Job.execution_owner j = None.
Proof.
  intros jid js. unfold JobRepository.create.
  unfold get_target, get_run. do 2 (erewrite bind_Ret by reflexivity).
  rewrite Ht, Hn. cbn [from_option]. rewrite Htt, Prelude.eqb_refl. cbn [negb].
  rewrite Hnt. rewrite (proj2 (mem_true _ _)) by (right; left). cbn [negb].
  erewrite bind_Ret by reflexivity. fold js.
  destruct (is_nil (matching (active_for tenant_id target_id) js)) eqn:En; cbn [negb orb].
  2: { eexists _, _. split; [reflexivity|]. done. }
  erewrite bind_Ret by reflexivity. fold jid.
  unfold concurrent_commit at 1. unfold bind at 1. cbn [interference set_drawn].
  rewrite Hi. do 2 (erewrite bind_Ret by reflexivity).
  match goal with |- context [insert_job ?j] => set (job := j) end.
  unfold bind, try_except, insert_job.
  change (jobs (view _)) with js. change (Job.id job) with jid.
  change (Job.tenant_id job) with tenant_id. change (Job.target_id job) with target_id.
  destruct (is_not_none (js !! jid)) eqn:Ej; cbn [orb]; [by eexists _, _|].
  rewrite En. rewrite andb_false_r. eexists _, _. split; [reflexivity|]. split; [done|].
  exists job. by split_and!.
Qed.

Definition http_error (status_code : Z) (detail : string) : exn := Exn (HTTPException status_code) detail.

(** A new job's response. *)
Lemma new_job_response j s : Job.state j = value QUEUED → Job.attempts j = 0 →
  from_option (λ t, negb (Qle_bool 0 t)) false (Job.timeout_seconds j) = false →
  Job.execution_owner j = None →
  ∃ response, job_response j s = (Ret response, s) ∧
    JobResponse.job_id response = Job.id j ∧ JobResponse.status response = QUEUED ∧
    JobResponse.target_id response = Job.target_id j ∧
    JobResponse.discovery_run_id response = Some (Job.run_id j).
Proof.
  intros Hst Ha Ht Ho. unfold job_response. erewrite bind_Ret by reflexivity.
  unfold has_active_lease. rewrite Ho. erewrite bind_Ret by reflexivity.
  rewrite Hst, of_value_value, Ha, Ht. eexists. by split_and!.
Qed.

(** A job of the tenant for the target is queued or running. *)
Definition already_active (tenant_id : string) (target_id : UUID) (d : DB) : bool :=
  negb (is_nil (matching (active_for tenant_id target_id) (jobs d))).

Lemma checked_timeout payload : check_job_request payload = Ret payload →
  from_option (λ t, negb (Qle_bool 0 t)) false (JobRequest.timeout_seconds payload) = false.
Proof.
  unfold check_job_request. rewrite let_ok_Ret. intros ([] & Hall & _).
  rewrite check_all_Ret, !Forall_cons in Hall. destruct Hall as (_ & Ht & _).
  destruct (JobRequest.timeout_seconds payload) as [t|]; [|done]. cbn.
  apply rule_Ret in Ht. by rewrite Ht.
Qed.

Lemma conflict_on_error_raise {A} (m : DbM A) s msg s1 :
  m s = (raise_ DuplicateActiveDiscoveryError msg, s1) →
  ∃ s2, Api.conflict_on_error m s = (Raise (http_error 409 msg), s2) ∧ committed s2 = committed s1.
Proof.
  intros E. unfold Api.conflict_on_error, try_except. rewrite E. by eexists.
Qed.

(** The result of the handler on a fresh session, case by case. *)
Lemma create_job_result payload user tenant_id s
    (Hp : check_job_request payload = Ret payload) (Hi : interference s = [])
    (Hv : view s = committed s)
    (Hk : ∀ k t, targets (committed s) !! k = Some t → Target.id t = k) :
  let d := committed s in
  let run_id := uuids s (drawn s) in
  let job_id := uuids s (Datatypes.S (drawn s)) in
  ∃ r s', Api.create_job payload user tenant_id s = (r, s') ∧
  match targets d !! JobRequest.target_id payload with
  | Some t =>
      if negb (Target.tenant_id t ≟ tenant_id) then
        r = Raise (http_error 404 "Discovery target was not found.") ∧ committed s' = d
      else if negb (Target.enabled t) then
        r = Raise (http_error 409 "Discovery target is disabled.") ∧ committed s' = d
      else if already_active tenant_id (Target.id t) d || is_not_none (jobs d !! job_id) then
        r = Raise (http_error 409 "A discovery execution is already active for this target.")
        ∧ committed s' = d
      else ∃ response run job, r = Ret response ∧
        committed s' = set_jobs (<[job_id := job]> (jobs d)) (set_runs (<[run_id := run]> (runs d)) d) ∧
        Run.id run = run_id ∧ Run.status run = "started" ∧ Run.tenant_id run = Some tenant_id ∧
        Job.id job = job_id ∧ Job.run_id job = run_id ∧ Job.tenant_id job = tenant_id ∧
        Job.target_id job = JobRequest.target_id payload ∧ Job.state job = value QUEUED ∧
        JobResponse.job_id response = job_id ∧ JobResponse.status response = QUEUED
  | None => r = Raise (http_error 404 "Discovery target was not found.") ∧ committed s' = d
  end.
Proof.
  intros d run_id job_id. unfold Api.create_job, get_tenant_target.
  erewrite bind_Ret by reflexivity. rewrite Hv. fold d.
  destruct (targets d !! JobRequest.target_id payload) as [t|] eqn:Et; [|by eexists _, _].
  pose proof (Hk _ _ Et) as Hid. cbn [mbind option_bind].
  destruct (Target.tenant_id t ≟ tenant_id) eqn:Ett; cbn [negb]; [|by eexists _, _].
  destruct (Target.enabled t) eqn:Een; cbn [negb]; [|by eexists _, _].
  rewrite eqb_true in Ett.
  do 4 (erewrite bind_Ret by reflexivity). fold run_id.
  match goal with |- context [Api.new_run ?a ?b ?c ?d ?e ?f] => set (run := Api.new_run a b c d e f) end.
  match goal with |- context [bind _ _ ?s] => set (s1 := s) end.
  destruct (create_in_session tenant_id (Target.id t) run_id (Some (user_id user))
    (Some (JobRequest.requested_capabilities payload)) (JobRequest.timeout_seconds payload)
    (JobRequest.correlation_id payload) s1 t run) as (o & s2 & Ec & Hc & Ho); try done.
  { change (targets (view s1)) with (targets (view s)). by rewrite Hv, Hid. }
  { apply lookup_insert_eq. }
  change (jobs (view s1)) with (jobs (view s)) in Ho. rewrite Hv in Ho. fold d in Ho.
  change (uuids s1 (drawn s1)) with job_id in Ho. unfold already_active.
  destruct (_ || is_not_none _) eqn:Ea.
  - subst o. destruct (conflict_on_error_raise (job <- JobRepository.create tenant_id (Target.id t) run_id
      None (Some (user_id user)) (Some (JobRequest.requested_capabilities payload))
      (JobRequest.timeout_seconds payload) (JobRequest.correlation_id payload) ;; commit ;;; ret job)
      s1 _ s2 (bind_Raise _ _ _ _ _ Ec)) as (s3 & E3 & Hc3).
    exists (Raise (http_error 409 "A discovery execution is already active for this target.")), s3.
    split; [by apply bind_Raise|]. split; [done|]. by rewrite Hc3, Hc.
  - destruct Ho as (job & -> & Hvj & H1 & H2 & H3 & H4 & H5 & H6 & H7 & H8).
    set (s3 := set_locked ∅ (set_committed (view s2) s2)).
    assert (Api.conflict_on_error (job <- JobRepository.create tenant_id (Target.id t) run_id
      None (Some (user_id user)) (Some (JobRequest.requested_capabilities payload))
      (JobRequest.timeout_seconds payload) (JobRequest.correlation_id payload) ;; commit ;;; ret job) s1
      = (Ret job, s3)) as E3.
    { unfold Api.conflict_on_error, try_except. by rewrite (bind_Ret _ _ _ _ _ Ec). }
    rewrite (bind_Ret _ _ _ _ _ E3).
    destruct (new_job_response job s3) as (response & -> & R1 & R2 & R3 & R4); try done.
    { rewrite H7. by apply checked_timeout. }
    exists (Ret response), s3. split; [done|]. exists response, run, job.
    split_and!; try done; try congruence.
    change (committed s3) with (view s2). rewrite Hvj. change (view s1) with (set_runs (<[run_id := run]> (runs (view s))) (view s)).
    by rewrite Hv.
Qed.

(** C11. A submission is recorded whole or not at all.  [create_job], for a payload the
    schema accepted and without another transaction in between, answers 404 when the
    target is not one of the tenant's, 409 when it is disabled or a job of it is active
    already, and then nothing is committed, the run it had added included; otherwise it
    commits exactly one new run and one new queued job that refers to it, and answers with
    that job. *)
Theorem submission_atomic payload user tenant_id s
    (Hp : check_job_request payload = Ret payload) (Hi : interference s = [])
    (Hk : ∀ k t, targets (committed s) !! k = Some t → Target.id t = k) :
  let d := committed s in
  let run_id := uuids s (drawn s) in
  let job_id := uuids s (Datatypes.S (drawn s)) in
  ∃ r s', with_session (Api.create_job payload user tenant_id) s = (r, s') ∧ view s' = committed s' ∧
  match targets d !! JobRequest.target_id payload with
  | Some t =>
      if negb (Target.tenant_id t ≟ tenant_id) then
        r = Raise (http_error 404 "Discovery target was not found.") ∧ committed s' = d
      else if negb (Target.enabled t) then
        r = Raise (http_error 409 "Discovery target is disabled.") ∧ committed s' = d
      else if already_active tenant_id (Target.id t) d || is_not_none (jobs d !! job_id) then
        r = Raise (http_error 409 "A discovery execution is already active for this target.")
        ∧ committed s' = d
      else ∃ response run job, r = Ret response ∧
        committed s' = set_jobs (<[job_id := job]> (jobs d)) (set_runs (<[run_id := run]> (runs d)) d) ∧
        Run.id run = run_id ∧ Run.status run = "started" ∧ Run.tenant_id run = Some tenant_id ∧
        Job.id job = job_id ∧ Job.run_id job = run_id ∧ Job.tenant_id job = tenant_id ∧
        Job.target_id job = JobRequest.target_id payload ∧ Job.state job = value QUEUED ∧
        JobResponse.job_id response = job_id ∧ JobResponse.status response = QUEUED
  | None => r = Raise (http_error 404 "Discovery target was not found.") ∧ committed s' = d
  end.
Proof.
  intros d run_id job_id. set (s0 := set_locked ∅ (set_view (committed s) s)).
  destruct (create_job_result payload user tenant_id s0 Hp Hi eq_refl Hk) as (r & s1 & E & Hcases).
  apply with_session_result in E. exists r, (set_locked ∅ (set_view (committed s1) s1)).
  split; [exact E|]. split; [done|]. exact Hcases.
Qed.
End Submission.

(** ** Pages *)

Lemma map_m_length {S A B} (f : A → M S B) xs s ys s' :
  map_m f xs s = (Ret ys, s') → length ys = length xs.
Proof.
  revert s ys s'. induction xs as [|x xs IH]; cbn; intros s ys s'; [by intros [= <- _]|].
  intros [(y & s1 & _ & H)|(e & _ & [=])]%bind_inv.
  apply bind_inv in H as [(ys' & s2 & E & H)|(e & _ & [=])].
  injection H as <- _. cbn. by rewrite (IH _ _ _ E).
Qed.

Lemma sql_page_length {A} page size (l l' : list A) : 1 <= page → 1 <= size →
  sql_page page size l = Ret l' →
  Z.of_nat (length l') = Z.max 0 (Z.min size (Z.of_nat (length l) - (page - 1) * size)).
Proof.
  intros Hp Hs. unfold sql_page. destruct (size <? 0) eqn:E1; [lia|].
  destruct ((page - 1) * size <? 0) eqn:E2; [nia|]. intros [= <-].
  rewrite length_take, length_drop. lia.
Qed.

Section Pages.
Context (collation : string → string → bool) (db_now : datetime).

(** A page of the job listing says truly where it stands.  [list_jobs] refuses a page
    number below 1 and a size outside 1 to 100; the page it answers holds as many jobs as
    are left of the total at its place, up to its size; and it has a next page exactly when
    its number is below the number of pages it reports, so that following [has_next] from
    page 1 visits the reported pages and stops. *)
Theorem job_pages_end tenant_id f sort order page size s r s'
    (Hr : Api.list_jobs collation db_now tenant_id f sort order page size s = (Ret r, s')) :
  1 <= page ∧ 1 <= size <= 100 ∧
  list_total r = Z.of_nat (length (found tenant_id f (view s))) ∧
  Z.of_nat (length (items r)) = Z.max 0 (Z.min size (list_total r - (page - 1) * size)) ∧
  has_next r = (page <? total_pages r) ∧
  (page <= total_pages r → list_total r ≠ 0 → items r ≠ []).
Proof.
  unfold Api.list_jobs in Hr. apply bind_inv in Hr as [([] & s1 & E1 & Hr)|(e & _ & [=])].
  unfold Api.check_page, when in E1. destruct (_ || _) eqn:Eb; [done|]. injection E1 as <-.
  rewrite !orb_false_iff in Eb. destruct Eb as [[H1 H2] H3].
  assert (1 <= page ∧ 1 <= size <= 100) as [Hp Hs] by lia.
  apply bind_inv in Hr as [([records total] & s2 & E2 & Hr)|(e & _ & [=])]. cbv zeta in Hr.
  apply bind_inv in Hr as [(rs & s3 & E3 & Hr)|(e & _ & [=])]. injection Hr as <- <-.
  cbn [items list_total has_next total_pages]. apply map_m_length in E3.
  unfold try_except in E2. destruct (list_page _ _ _ _ _ _ _ _ s) as [[p|e] s4] eqn:El.
  2: { by destruct (isinstance e ValueError). }
  injection E2 as -> ->. unfold list_page in El.
  apply bind_inv in El as [(leb & s5 & E5 & El)|(e & _ & [=])].
  unfold of_outcome in E5. injection E5 as Eleb <-.
  do 2 (erewrite bind_Ret in El by reflexivity).
  apply bind_inv in El as [(rows & s6 & E6 & El)|(e & _ & [=])].
  injection E6 as Er <-. injection El as <- <- _.
  apply sql_page_length in Er; [|lia..]. rewrite merge_sort_Permutation in Er.
  rewrite length_map in E3. rewrite E3, Er.
  set (total := Z.of_nat (length (found tenant_id f (view s)))) in *.
  assert (0 <= total) as Ht by (unfold total; lia).
  split; [done|]. split; [lia|]. split; [done|]. split; [done|].
  assert ((page * size <? total) = (page <? (if 0 <? total then (total + size - 1) / size else 1))) as Hn.
  { destruct (0 <? total) eqn:E0.
    - apply eq_true_iff_eq. rewrite !Z.ltb_lt.
      pose proof (Z.div_mod (total + size - 1) size ltac:(lia)).
      pose proof (Z.mod_pos_bound (total + size - 1) size ltac:(lia)). nia.
    - apply eq_true_iff_eq. rewrite !Z.ltb_lt. nia. }
  split; [exact Hn|]. intros Hle Hne ->. cbn in E3. assert ((0 <? total) = true) as E0 by lia. rewrite E0 in Hle.
  pose proof (Z.div_mod (total + size - 1) size ltac:(lia)).
  pose proof (Z.mod_pos_bound (total + size - 1) size ltac:(lia)). nia.
Qed.
End Pages.

(** ** A tenant with one target *)

Module DemoApi.
Definition user : User := {|
  user_id := 9%N; username := "ada"; email := "ada@example.org"; password_hash := "";
  is_active_user := true; user_roles := [] |}.

Definition request : DiscoveryJobRequest := {|
  JobRequest.target_id := 11%N; JobRequest.requested_capabilities := [];
  JobRequest.metadata := [("ticket", JStr "42")]; JobRequest.timeout_seconds := None;
  JobRequest.correlation_id := None |}.

Definition db : DB := set_targets {[11%N := scope_target]} empty_db.
End DemoApi.

Lemma submission_atomic_witness :
  ∃ r s', with_session (Api.create_job DemoApi.request DemoApi.user "acme") (open_session DemoApi.db []) = (r, s') ∧
    ∃ response run job, r = Ret response ∧
      committed s' = set_jobs (<[1001%N := job]> ∅) (set_runs (<[1000%N := run]> ∅) DemoApi.db).
Proof.
  destruct (submission_atomic DemoApi.request DemoApi.user "acme" (open_session DemoApi.db []))
    as (r & s' & E & _ & Hcases).
  - reflexivity.
  - reflexivity.
  - intros k t Ht. change (targets _) with (targets DemoApi.db) in Ht.
    unfold DemoApi.db in Ht. cbn in Ht. apply lookup_singleton_Some in Ht as [<- <-]. reflexivity.
  - exists r, s'. split; [exact E|]. vm_compute in Hcases.
    destruct Hcases as (response & run & job & Hr & Hc & _).
    exists response, run, job. split; [exact Hr|]. exact Hc.
Defined.

Lemma job_pages_end_witness :
  let db := set_jobs (job_table [queued_job 1 11 None; queued_job 2 11 None; queued_job 3 11 None]) DemoApi.db in
  let f := {| filter_q := None; filter_status := None; filter_target := None; date_from := None; date_to := None |} in
  ∃ r s', Api.list_jobs (λ _ _, true) 0 "acme" f None None 2 2 (open_session db []) = (Ret r, s') ∧
    has_next r = false ∧ total_pages r = 2.
Proof.
  intros db f. eexists _, _. split; [vm_compute; reflexivity|].
  edestruct (job_pages_end (λ _ _, true) 0 "acme" f None None 2 2 (open_session db []))
    as (_ & _ & _ & _ & Hn & _).
  - vm_compute. reflexivity.
  - split; [rewrite Hn; reflexivity|reflexivity].
Defined.

(** A change of a profile that the request's transport does not fit is refused, but the
    transport alone is changed without a look at the profile. *)
Definition profile_of (types : list string) : Profile.CredentialProfileRecord := {|
  Profile.id := 30%N; Profile.tenant_id := "acme"; Profile.name := "ssh only";
  Profile.description := None; Profile.vendor := None; Profile.platform := None;
  Profile.credential_type := None; Profile.username := None; Profile.transport_types := Some types;
  Profile.provider_reference := "vault:lab"; Profile.secret_status := "configured";
  Profile.enabled := true; Profile.created_at := 0; Profile.updated_at := 0 |}.

Definition update_of (profile : option (option string)) (transport : option string) : DiscoveryTargetUpdateRequest := {|
  TargetUpdate.credential_profile_id := profile; TargetUpdate.preferred_transport := transport;
  TargetUpdate.platform_hint := None; TargetUpdate.enabled := None;
  TargetUpdate.allowed_fallback_transports := None; TargetUpdate.allow_insecure_telnet := None;
  TargetUpdate.allow_insecure_http := None |}.

Example transport_change_skips_profile :
  let db := set_targets {[11%N := Target.set_credential_profile_id (Some (uuid_str 30)) scope_target]}
              (set_profiles {[30%N := profile_of ["ssh"]]} empty_db) in
  let run u := (with_session (Api.update_target 11 u "acme") (open_session db [])).1 in
  (run (update_of (Some (Some (uuid_str 30))) (Some "telnet")),
   is_ret (run (update_of None (Some "telnet"))))
  = (Raise (http_error 422 "Credential profile does not support target transport 'telnet'."), true).
Proof. vm_compute. reflexivity. Qed.

(** * A request of one tenant leaves the rows of the others

    The routes that manage targets, run one after the other by a tenant, against the rows
    of the targets and jobs of every other tenant: an invariant of the session, kept by
    every statement of the handlers. *)

Section Isolation.
Context `{IpLibrary} (tenant : string).

(** The rows of the other tenants are the same. *)
Definition others_same (d d' : DB) : Prop :=
  (∀ k t, Target.tenant_id t ≠ tenant → targets d' !! k = Some t ↔ targets d !! k = Some t) ∧
  (∀ k j, Job.tenant_id j ≠ tenant → jobs d' !! k = Some j ↔ jobs d !! k = Some j).

(** Rows are stored under their ids. *)
Definition keyed_db (d : DB) : Prop :=
  (∀ k t, targets d !! k = Some t → Target.id t = k) ∧ (∀ k j, jobs d !! k = Some j → Job.id j = k).

Definition good_db (d0 d : DB) : Prop := keyed_db d ∧ others_same d0 d.

Record isolated (d0 : DB) (s : Session) : Prop := {
  iso_alone : interference s = [];
  iso_view : good_db d0 (view s);
  iso_committed : good_db d0 (committed s);
}.

(** A step that keeps the invariant. *)
Definition isolates (s s' : Session) : Prop := ∀ d0, isolated d0 s → isolated d0 s'.

#[export] Instance isolates_preorder : PreOrder isolates.
Proof. split; [by intros s d0|]. intros s1 s2 s3 H12 H23 d0 H1. auto. Qed.

Lemma good_db_tables d0 d d' : targets d' = targets d → jobs d' = jobs d → good_db d0 d → good_db d0 d'.
Proof. intros Ht Hj [[H1 H2] [H3 H4]]. unfold good_db, keyed_db, others_same. by rewrite Ht, Hj. Qed.

Lemma isolates_view f s : (∀ d0, good_db d0 (view s) → good_db d0 (f (view s))) → isolates s (on_view f s).2.
Proof. intros Hf d0 [H1 H2 H3]. split; [done|by apply Hf|done]. Qed.

Lemma isolates_utc_now : preserves isolates utc_now.
Proof. intros s d0 [H1 H2 H3]. by split. Qed.

Lemma isolates_uuid4 : preserves isolates uuid4.
Proof. intros s d0 [H1 H2 H3]. by split. Qed.

Lemma isolates_query {A} (f : DB → A) : preserves isolates (query f).
Proof. by intros s. Qed.

Lemma isolates_commit : preserves isolates commit.
Proof. intros s d0 [H1 H2 H3]. by split. Qed.

Lemma isolates_rollback : preserves isolates rollback.
Proof. intros s d0 [H1 H2 H3]. by split. Qed.

(** A row of the tenant in the place of none, or of a row of the tenant. *)
Lemma isolates_put_target r s : Target.tenant_id r = tenant →
  (∀ t, targets (view s) !! Target.id r = Some t → Target.tenant_id t = tenant) →
  isolates s (put_target r s).2.
Proof.
  intros Hr Hold. apply isolates_view. intros d0 [[K1 K2] [O1 O2]].
  split; [split; [|exact K2]|split; [|exact O2]]; cbn.
  - intros k t [[<- <-]|[_ Ht]]%lookup_insert_Some; auto.
  - intros k t Hne. rewrite lookup_insert_Some, <- O1 by done. split.
    + intros [[<- <-]|[_ Ht]]; [done|exact Ht].
    + intros Ht. right. split; [|done]. intros <-. by apply Hold in Ht.
Qed.

Lemma isolates_insert_target r : Target.tenant_id r = tenant → preserves isolates (insert_target r).
Proof.
  intros Hr s. unfold insert_target.
  destruct (targets (view s) !! Target.id r) as [t|] eqn:E; cbn [is_not_none is_none negb orb]; [reflexivity|].
  destruct (identifier_taken r (view s)); [reflexivity|].
  apply isolates_put_target; [done|]. intros t. by rewrite E.
Qed.

(** The changes of a target keep its id and its tenant. *)
Lemma set_columns_same changes t :
  Target.id (set_columns changes t) = Target.id t ∧
  Target.tenant_id (set_columns changes t) = Target.tenant_id t.
Proof.
  unfold set_columns. revert t. induction changes as [|c changes IH]; intros t; [done|]. cbn.
  destruct (IH (set_column c t)) as [-> ->]. by destruct c.
Qed.

Lemma found_target id s t : (t0 ← targets (view s) !! id; if Target.tenant_id t0 ≟ tenant then Some t0 else None) = Some t →
  targets (view s) !! id = Some t ∧ Target.tenant_id t = tenant.
Proof.
  destruct (targets (view s) !! id) as [t0|]; cbn; [|done].
  destruct (_ ≟ _) eqn:E; [|done]. intros [= ->]. by pybool.
Qed.

Lemma isolates_update_target id changes : preserves isolates (TargetRepository.update_target tenant id changes).
Proof.
  intros s. unfold TargetRepository.update_target, get_tenant_target.
  erewrite bind_Ret by reflexivity.
  destruct (mbind _ _) as [t|] eqn:Et; [|reflexivity]. apply found_target in Et as [Ht Htt].
  unfold flush_target. destruct (_ ≟ _); [reflexivity|].
  destruct (set_columns_same changes t) as [Hid Hten].
  erewrite bind_Ret by reflexivity. cbv zeta. set (s1 := set_ticks _ s).
  erewrite bind_Ret by reflexivity. destruct (identifier_taken _ _); cbn [snd raise].
  { intros d0 [H1 H2 H3]. by split. }
  match goal with |- context [put_target ?x] => set (record := x) end.
  change (isolates s (put_target record s1).2).
  trans s1; [intros d0 [H1 H2 H3]; by split|].
  intros d0 HI. refine (isolates_put_target record s1 _ _ d0 HI).
  - change (Target.tenant_id (set_columns changes t) = tenant). congruence.
  - change (Target.id record) with (Target.id (set_columns changes t)). rewrite Hid.
    change (view s1) with (view s). destruct HI as [_ [[HK _] _] _].
    change (view s1) with (view s) in HK. rewrite (HK id t Ht), Ht. congruence.
Qed.

(** ** Deletion *)

Lemma isolates_others f : (∀ d, targets (f d) = targets d ∧ jobs (f d) = jobs d) →
  preserves isolates (on_view f).
Proof.
  intros Hf s. apply isolates_view. intros d0. destruct (Hf (view s)) as [H1 H2]. by apply good_db_tables.
Qed.

(** Statements on the tables that hang on the jobs: the targets and jobs stay. *)
Definition tables_same (s s' : Session) : Prop :=
  targets (view s') = targets (view s) ∧ jobs (view s') = jobs (view s) ∧ isolates s s'.

#[local] Instance tables_same_preorder : PreOrder tables_same.
Proof.
  split; [intros s; split_and!; [done|done|reflexivity]|]. intros s1 s2 s3 (T1 & J1 & R1) (T2 & J2 & R2).
  split_and!; [congruence..|]. by trans s2.
Qed.

Lemma tables_same_view f : (∀ d, targets (f d) = targets d ∧ jobs (f d) = jobs d) →
  preserves tables_same (on_view f).
Proof. intros Hf s. destruct (Hf (view s)). split_and!; [done..|]. by apply isolates_others. Qed.

Lemma tables_same_query {A} (f : DB → A) : preserves tables_same (query f).
Proof. intros s. cbn. reflexivity. Qed.

Lemma tables_same_dependents id job_ids result_ids :
  preserves tables_same (delete_dependents id job_ids result_ids).
Proof.
  unfold delete_dependents, delete_attempts, delete_results, delete_evidence, foreign_key_failed.
  preserves_auto; first [by apply tables_same_query|by apply tables_same_view].
Qed.

Lemma isolates_delete_jobs ids s :
  (∀ k j, k ∈ ids → jobs (view s) !! k = Some j → Job.tenant_id j = tenant) →
  isolates s (delete_jobs ids s).2 ∧ targets (view (delete_jobs ids s).2) = targets (view s).
Proof.
  intros Hids. unfold delete_jobs. erewrite bind_Ret by reflexivity.
  destruct (references_jobs ids (view s)); [done|]. split; [|done].
  intros d0 [H1 [[K1 K2] [O1 O2]] H3]. split; [done| |done]. cbn.
  split; [split; [exact K1|]|split; [exact O1|]]; cbn.
  - intros k j [Hj _]%delete_where_Some. auto.
  - intros k j Hne. rewrite delete_where_Some, <- O2 by done. split; [by intros [? _]|].
    intros Hj. split; [done|]. apply mem_false. intros Hin. rewrite (K2 k j Hj) in Hin. by apply (Hids k j) in Hj.
Qed.

Lemma isolates_delete_row id s :
  (∀ t, targets (view s) !! id = Some t → Target.tenant_id t = tenant) →
  isolates s (delete_target_row id s).2.
Proof.
  intros Hid. unfold delete_target_row. do 2 (erewrite bind_Ret by reflexivity).
  destruct (existsb _ _); [reflexivity|]. destruct (existsb _ _); [reflexivity|].
  apply isolates_view. intros d0 [[K1 K2] [O1 O2]].
  split; [split; [|exact K2]|split; [|exact O2]]; cbn.
  - intros k t [_ Ht]%lookup_delete_Some. auto.
  - intros k t Hne. rewrite lookup_delete_Some, <- O1 by done. split; [by intros [_ ?]|].
    intros Ht. split; [|done]. intros <-. by apply Hid in Ht.
Qed.

(** The rows of a target of the tenant that hang on it. *)
Lemma isolates_jobs_of_target id s :
  let ids := matching (λ j, (Job.tenant_id j ≟ tenant) && (Job.target_id j ≟ id)) (jobs (view s)) in
  let first :=
    if negb (is_nil ids) then
      device_result_ids <- query (λ d, matching (λ r,
        mem (DeviceResult.discovery_job_id r) ids || mem (DeviceResult.child_job_id r) ids) (device_results d)) ;;
      delete_dependents id ids device_result_ids ;;;
      delete_jobs ids
    else delete_evidence (λ e, Evidence.target_id e ≟ id) in
  isolates s (first s).2 ∧ targets (view (first s).2) = targets (view s).
Proof.
  intros ids first. unfold first. destruct (negb (is_nil ids)).
  2: { destruct (tables_same_view (λ d, set_evidence
         (delete_where (λ e, Evidence.target_id e ≟ id) (evidence d)) d) ltac:(done) s) as (HT & _ & HI).
       by split. }
  erewrite bind_Ret by reflexivity. set (rs := matching _ (device_results _)).
  pose proof (tables_same_dependents id ids rs s) as (HT & HJ & HI).
  unfold bind. destruct (delete_dependents id ids rs s) as [[[]|e] s1]; cbn [snd] in *; [|done].
  destruct (isolates_delete_jobs ids s1) as [HI1 HT1].
  { intros k j Hk Hj. rewrite HJ in Hj. apply elem_of_matching in Hk as (j' & Hj' & Hw).
    apply andb_true_iff in Hw as [Hw _]. pybool. congruence. }
  split; [by trans s1|congruence].
Qed.

Lemma isolates_delete_target id : preserves isolates (TargetRepository.delete_target tenant id).
Proof.
  intros s. unfold TargetRepository.delete_target, get_tenant_target.
  erewrite bind_Ret by reflexivity.
  destruct (mbind _ _) as [t|] eqn:Et; [|reflexivity]. apply found_target in Et as [Ht Htt].
  erewrite bind_Ret by reflexivity. destruct (isolates_jobs_of_target id s) as [HI HT].
  cbv zeta in HI, HT. set (first := if negb _ then _ else _) in *.
  unfold bind at 1. destruct (first s) as [[[]|e] s1]; cbn [snd] in *; [|done].
  pose proof (isolates_delete_row id s1) as HR.
  unfold bind. destruct (delete_target_row id s1) as [[[]|e] s2]; cbn [snd] in *;
    (trans s1; [done|]; apply HR; intros t' Ht'; rewrite HT, Ht in Ht'; congruence).
Qed.

(** ** The handlers *)

Lemma isolates_http {A} n detail : preserves isolates (http (A := A) n detail).
Proof. by intros s. Qed.

Lemma isolates_create_target identifier address scope_type scope_end scope_cidr reference profile references
    fallbacks telnet http_ vendor hostname hint preferred enabled metadata user :
  preserves isolates (TargetRepository.create_target tenant identifier address scope_type scope_end scope_cidr
    reference profile references fallbacks telnet http_ vendor hostname hint preferred enabled metadata user).
Proof.
  unfold TargetRepository.create_target. preserves_auto;
    first [apply isolates_uuid4|apply isolates_utc_now|by apply isolates_insert_target|apply isolates_rollback].
Qed.

Lemma isolates_iterate_transports p : preserves isolates (iterate_transports p).
Proof. unfold iterate_transports. preserves_auto. Qed.

Lemma isolates_find_profile profile_id : preserves isolates (Api.find_profile tenant profile_id).
Proof. unfold Api.find_profile, get_profile. preserves_auto. apply isolates_query. Qed.

Lemma isolates_target_response r : preserves isolates (target_response r).
Proof. unfold target_response, model_error. preserves_auto. Qed.

Create HintDb isolation discriminated.
#[local] Hint Resolve isolates_http isolates_create_target isolates_iterate_transports isolates_find_profile isolates_target_response
  isolates_commit isolates_rollback isolates_query isolates_update_target isolates_delete_target : isolation.

Ltac isolation := preserves_auto; eauto with isolation.

Lemma isolates_create payload user : preserves isolates (Api.create_target payload user tenant).
Proof.
  unfold Api.create_target, Api.validate_tenant, Api.profile_reference, Api.conflict_on_error. isolation.
Qed.

Lemma isolates_update id payload : preserves isolates (Api.update_target id payload tenant).
Proof. unfold Api.update_target, get_tenant_target, Api.profile_changes. isolation. Qed.

Lemma isolates_delete id : preserves isolates (Api.delete_target id tenant).
Proof. unfold Api.delete_target. isolation. Qed.

Lemma isolates_delete_each ids any : preserves isolates (Api.delete_each tenant ids any).
Proof. revert any. induction ids as [|id ids IH]; intros any; cbn [Api.delete_each]; isolation. Qed.

Lemma isolates_delete_many ids : preserves isolates (Api.delete_targets ids tenant).
Proof. unfold Api.delete_targets. isolation. apply isolates_delete_each. Qed.

(** A request for the targets of the tenant. *)
Inductive target_request :=
  | CreateTarget (payload : DiscoveryTargetRequest) (user : User)
  | UpdateTarget (target_id : UUID) (payload : DiscoveryTargetUpdateRequest)
  | DeleteTarget (target_id : UUID)
  | DeleteTargets (target_ids : list string).

(** The request on a session of its own; the answer, be it an error, is not looked at. *)
Definition serve (q : target_request) : DbM unit :=
  let answer {A} (m : DbM A) : DbM unit := _ <- catching (with_session m) ;; ret tt in
  match q with
  | CreateTarget payload user => answer (Api.create_target payload user tenant)
  | UpdateTarget id payload => answer (Api.update_target id payload tenant)
  | DeleteTarget id => answer (Api.delete_target id tenant)
  | DeleteTargets ids => answer (Api.delete_targets ids tenant)
  end.

Lemma isolates_serve q : preserves isolates (serve q).
Proof.
  destruct q; cbn [serve]; unfold with_session; isolation;
    eauto using isolates_create, isolates_update, isolates_delete, isolates_delete_many.
Qed.

(** C10. Tenants are isolated.  Whatever requests a tenant makes of the routes that create,
    change and delete targets, in any order and whatever they answer, every target and
    every job of every other tenant is after them exactly what it was, in the committed
    tables: none is gone, none is changed and none has appeared. *)
Theorem tenant_isolation qs s
    (Halone : interference s = []) (Hk : keyed_db (committed s)) :
  let s' := (for_each qs serve (set_view (committed s) s)).2 in
  ∀ k, (∀ t, Target.tenant_id t ≠ tenant →
          targets (committed s') !! k = Some t ↔ targets (committed s) !! k = Some t) ∧
       (∀ j, Job.tenant_id j ≠ tenant →
          jobs (committed s') !! k = Some j ↔ jobs (committed s) !! k = Some j).
Proof.
  intros s'. assert (isolated (committed s) (set_view (committed s) s)) as HI by by split.
  pose proof (preserves_for_each isolates qs serve isolates_serve (set_view (committed s) s)) as HR.
  apply HR in HI. fold s' in HI. destruct HI as [_ _ [_ [H1 H2]]]. intros k. split; auto.
Qed.
End Isolation.

Lemma tenant_isolation_witness :
  let db := set_targets {[11%N := scope_target]} empty_db in
  let s := open_session db [] in
  interference s = [] ∧ keyed_db (committed s) ∧
  targets (committed (for_each [DeleteTarget 11; DeleteTargets [uuid_str 11; "x"]] (serve "intruder")
    (set_view (committed s) s)).2) !! 11%N = Some scope_target.
Proof.
  intros db s. split; [reflexivity|].
  assert (keyed_db (committed s)) as Hk.
  { split; [|by intros k j Hj]. intros k t Ht. change (targets (committed s)) with (targets db) in Ht.
    unfold db in Ht. cbn in Ht. apply lookup_singleton_Some in Ht as [<- <-]. reflexivity. }
  split; [exact Hk|].
  apply (tenant_isolation "intruder" [DeleteTarget 11; DeleteTargets [uuid_str 11; "x"]] s eq_refl Hk 11%N);
    [done|reflexivity].
Defined.
