(* ===== verification/CredentialsApi.v ===== *)
(** * The routes of credential profiles ([api/v1/credentials.py])

    A profile names a secret without holding it.  The routes keep the profiles of a tenant,
    take a deleted one away from the targets that use it, and test whether a profile fits a
    transport and its secret can be resolved.  As in [DiscoveryApi] a handler runs on a session
    of its own, on a request that passed the rules of [Schemas]; the secret provider is the
    function that [Credentials.build_secret_provider] answers. *)

From stdpp Require Import sorting.
From S2P Require Import Prelude Vocabulary Effects Json Dicts Texts Contracts Records Session.
From S2P Require Import Demo Worker Credentials TargetRepository Schemas DiscoveryApi.
From S2P Require Import DiscoveryApiTheorems.
#[local] Open Scope Z_scope.

(** [CredentialProfileTestResponse]. *)
Module TestResponse.
Record CredentialProfileTestResponse := {
  status : string; transport : string; target : string; credential_type : option string;
  message : string; provider_reference : option string;
}.
End TestResponse.
Abbreviation CredentialProfileTestResponse := TestResponse.CredentialProfileTestResponse.

(** [_profile_response]. *)
Definition profile_response (record : Profile.CredentialProfileRecord)
    : DbM ProfileResponse.CredentialProfileResponse :=
  types <- iterate_transports record ;;
  ret {|
    ProfileResponse.profile_id := Profile.id record;
    ProfileResponse.tenant_id := Profile.tenant_id record;
    ProfileResponse.name := Profile.name record;
    ProfileResponse.description := Profile.description record;
    ProfileResponse.vendor := Profile.vendor record;
    ProfileResponse.platform := Profile.platform record;
    ProfileResponse.credential_type := Profile.credential_type record;
    ProfileResponse.username := Profile.username record;
    ProfileResponse.transport_types := types;
    ProfileResponse.provider_reference := Profile.provider_reference record;
    ProfileResponse.secret_status := Profile.secret_status record;
    ProfileResponse.enabled := Profile.enabled record;
    ProfileResponse.created_at := Profile.created_at record;
    ProfileResponse.updated_at := Profile.updated_at record |}.

Definition not_found {A} : DbM A := http 404 "Credential profile was not found.".

(** ** Keeping profiles *)

Definition list_profiles (tenant_id : string) : DbM (list ProfileResponse.CredentialProfileResponse) :=
  records <- TargetRepository.list_profiles tenant_id ;;
  map_m profile_response records.

Definition create_profile (payload : CredentialProfileRequest) (tenant_id : string)
    : DbM ProfileResponse.CredentialProfileResponse :=
  record <- TargetRepository.create_profile tenant_id (ProfileRequest.name payload)
    (ProfileRequest.provider_reference payload) (ProfileRequest.transport_types payload)
    (ProfileRequest.description payload) (ProfileRequest.vendor payload)
    (ProfileRequest.platform payload) (ProfileRequest.credential_type payload)
    (ProfileRequest.username payload) ;;
  commit ;;;
  profile_response record.

Definition get_profile (profile_id : UUID) (tenant_id : string)
    : DbM ProfileResponse.CredentialProfileResponse :=
  record <- TargetRepository.get_profile tenant_id profile_id ;;
  match record with
  | None => not_found
  | Some record => profile_response record
  end.

(** Every column of the request, those that were not given as null. *)
Definition update_profile (profile_id : UUID) (payload : CredentialProfileUpdateRequest) (tenant_id : string)
    : DbM ProfileResponse.CredentialProfileResponse :=
  record <- TargetRepository.update_profile tenant_id profile_id [
    ProfileName (ProfileUpdate.name payload); ProfileDescription (ProfileUpdate.description payload);
    ProfileVendor (ProfileUpdate.vendor payload); ProfilePlatform (ProfileUpdate.platform payload);
    ProfileCredentialType (ProfileUpdate.credential_type payload);
    ProfileUsername (ProfileUpdate.username payload);
    ProfileTransportTypes (ProfileUpdate.transport_types payload);
    ProfileProviderReference (ProfileUpdate.provider_reference payload);
    ProfileEnabled (ProfileUpdate.enabled payload)] ;;
  commit ;;;
  profile_response record.

(** The targets that use the profile lose it. *)
Definition uses_profile (profile_id : UUID) (t : Target.DiscoveryTargetRecord) : bool :=
  Target.credential_profile_id t ≟ Some (uuid_str profile_id).
Definition no_profile : list TargetChange := [SetCredentialProfileId None; SetCredentialReference ""].

Definition detach_profile (profile_id : UUID) (tenant_id : string) (t : Target.DiscoveryTargetRecord) : DbM unit :=
  when (uses_profile profile_id t)
    (update_target tenant_id (Target.id t) no_profile ;;; ret tt).

Definition delete_profile (profile_id : UUID) (tenant_id : string) : DbM unit :=
  targets <- list_targets tenant_id ;;
  for_each targets (detach_profile profile_id tenant_id) ;;;
  deleted <- TargetRepository.delete_profile tenant_id profile_id ;;
  if negb deleted then not_found else commit.

(** ** Testing a profile *)

Definition valid_transport_to_types : list (string * list string) := [
  ("ssh", ["ssh_password"; "ssh_key"]); ("snmp", ["snmp_v2c"; "snmp_v3"]);
  ("telnet", ["telnet_password"]); ("http", ["http_basic"; "http_token"]);
  ("https", ["http_basic"; "http_token"]); ("icmp", ["icmp"])].

(** [_validate_profile_for_transport]. *)
Definition validate_profile_for_transport (record : Profile.CredentialProfileRecord) (transport : string)
    : string * string :=
  match get transport valid_transport_to_types with
  | None => ("unsupported_transport",
      "The requested transport is not supported by the credential execution boundary.")
  | Some expected =>
      let credential_type := or_str (Profile.credential_type record) "" in
      if negb (mem credential_type expected) then
        ("invalid_credential_profile", "Credential type '" +:+ or_str (Some credential_type) "unknown"
          +:+ "' is not compatible with transport '" +:+ transport +:+ "'.")
      else if negb (mem transport (from_option id [] (Profile.transport_types record))) then
        ("invalid_credential_profile",
          "Credential profile does not allow transport '" +:+ transport +:+ "'.")
      else ("success", "Credential profile is compatible with the requested transport.")
  end.

(** [SecretProviderError.code]. *)
Definition secret_error_code (exc : exn) : string :=
  match exn_cls exc with
  | SecretNotFoundError => "secret_not_found"
  | ProviderPermissionDeniedError => "provider_permission_denied"
  | InvalidSecretReferenceError => "invalid_reference"
  | ProviderConfigurationError => "provider_configuration_error"
  | _ => "provider_unavailable"
  end.

Definition test_response (record : Profile.CredentialProfileRecord) (payload : CredentialProfileTestRequest)
    (status message : string) : CredentialProfileTestResponse := {|
  TestResponse.status := status; TestResponse.transport := ProfileTest.transport payload;
  TestResponse.target := ProfileTest.target payload;
  TestResponse.credential_type := Profile.credential_type record; TestResponse.message := message;
  TestResponse.provider_reference := Some (Profile.provider_reference record) |}.

Definition test_profile (resolve_secret : string → outcome string) (profile_id : UUID)
    (payload : CredentialProfileTestRequest) (tenant_id : string) : DbM CredentialProfileTestResponse :=
  record <- TargetRepository.get_profile tenant_id profile_id ;;
  match record with
  | None => not_found
  | Some record =>
      let compatibility := validate_profile_for_transport record (ProfileTest.transport payload) in
      if negb (compatibility.1 ≟ "success")
      then ret (test_response record payload compatibility.1 compatibility.2)
      else
        match resolve_secret (Profile.provider_reference record) with
        | Ret _ => ret (test_response record payload "success"
            "Credential profile resolved successfully for the selected transport.")
        | Raise exc =>
            if isinstance exc SecretProviderError
            then ret (test_response record payload (secret_error_code exc) (exn_str exc))
            else reraise exc
        end
  end.

(** ** Deleting a profile *)

(** What the database promises of the targets: rows under their keys, and one identifier for
    one target of a tenant. *)
Record targets_ok (d : DB) : Prop := {
  ok_keys : ∀ k t, targets d !! k = Some t → Target.id t = k;
  ok_identifiers : ∀ k k' t t', targets d !! k = Some t → targets d !! k' = Some t' →
    same_identifier t t' = true → k = k';
}.

(** A target without profile and reference. *)
Definition detached (now : datetime) (t : Target.DiscoveryTargetRecord) : Target.DiscoveryTargetRecord :=
  Target.set_updated_at now (Target.set_credential_reference "" (Target.set_credential_profile_id None t)).

(** The targets [ts] that use the profile are detached, at whatever time; nothing else of the
    tables changed. *)
Record detaches (profile_id : UUID) (ts : list Target.DiscoveryTargetRecord) (d d' : DB) : Prop := {
  only_targets : d' = set_targets (targets d') d;
  used_detached t : t ∈ ts → uses_profile profile_id t = true →
    ∃ now, targets d' !! Target.id t = Some (detached now t);
  others_kept k : (∀ t, t ∈ ts → uses_profile profile_id t = true → Target.id t ≠ k) →
    targets d' !! k = targets d !! k;
}.

Lemma same_identifier_detached now t u : same_identifier (detached now t) u = same_identifier t u.
Proof. reflexivity. Qed.

Lemma detached_differs profile_id t : uses_profile profile_id t = true → set_columns no_profile t ≠ t.
Proof.
  unfold uses_profile. intros Hu E. rewrite eqb_true in Hu.
  apply (f_equal Target.credential_profile_id) in E.
  change (None = Target.credential_profile_id t) in E. by rewrite Hu in E.
Qed.

Lemma detached_ok now t d : targets_ok d → targets d !! Target.id t = Some t →
  targets_ok (set_targets (<[Target.id t := detached now t]> (targets d)) d).
Proof.
  intros [Hk Hi] Ht. split; cbn.
  - intros k u. rewrite lookup_insert_Some. intros [[<- <-]|[_ Hu]]; [done|by apply Hk].
  - intros k k' u u'. rewrite !lookup_insert_Some.
    intros [[<- <-]|[Hne Hu]] [[<- <-]|[Hne' Hu']] Hs; [done| | |by eapply Hi].
    + eapply Hi; [exact Ht|exact Hu'|exact Hs].
    + eapply Hi; [exact Hu|exact Ht|exact Hs].
Qed.

(** One target: the update never fails. *)
Lemma detach_target profile_id tenant_id t s : targets_ok (view s) →
  targets (view s) !! Target.id t = Some t → Target.tenant_id t = tenant_id →
  uses_profile profile_id t = true →
  ∃ now s', detach_profile profile_id tenant_id t s = (Ret tt, s') ∧ committed s' = committed s ∧
    view s' = set_targets (<[Target.id t := detached now t]> (targets (view s))) (view s).
Proof.
  intros Hok Ht Htenant Hu. unfold detach_profile. rewrite Hu. cbn [when].
  set (row := set_columns no_profile t). set (now := clock s (ticks s)).
  set (s1 := set_ticks (Datatypes.S (ticks s)) s).
  assert (get_tenant_target tenant_id (Target.id t) s = (Ret (Some t), s)) as Eg.
  { unfold get_tenant_target, query, gets. cbn. rewrite Ht. cbn. by rewrite Htenant, Prelude.eqb_refl. }
  assert (identifier_taken (Target.set_updated_at now row) (view s1) = false) as Ef.
  { unfold identifier_taken. apply existsb_rows_false. intros k u Hk.
    change (targets (view s1)) with (targets (view s)) in Hk.
    destruct (same_identifier (Target.set_updated_at now row) u) eqn:E; [|done]. cbn [andb].
    pose proof (ok_identifiers _ Hok _ _ _ _ Ht Hk E) as Heq.
    rewrite (ok_keys _ Hok _ _ Hk), <-Heq. change (Target.id (Target.set_updated_at now row)) with (Target.id t).
    by rewrite Prelude.eqb_refl. }
  assert (update_target tenant_id (Target.id t) no_profile s =
    (Ret (Target.set_updated_at now row), set_view (set_targets (<[Target.id t := detached now t]> (targets (view s))) (view s)) s1)) as E.
  { unfold update_target. erewrite bind_Ret by exact Eg. unfold flush_target. fold row.
    destruct (row ≟ t) eqn:Er; [rewrite eqb_true in Er; by eapply detached_differs in Er|].
    erewrite bind_Ret by reflexivity. fold now s1.
    erewrite bind_Ret by (unfold query, gets; rewrite Ef; reflexivity). reflexivity. }
  exists now. eexists. split; [by erewrite bind_Ret by exact E|]. split; reflexivity.
Qed.

Lemma detach_each profile_id tenant_id ts s : targets_ok (view s) → NoDup (map Target.id ts) →
  (∀ t, t ∈ ts → targets (view s) !! Target.id t = Some t ∧ Target.tenant_id t = tenant_id) →
  ∃ s', for_each ts (detach_profile profile_id tenant_id) s = (Ret tt, s') ∧
    committed s' = committed s ∧ detaches profile_id ts (view s) (view s').
Proof.
  revert s. induction ts as [|t ts IH]; intros s Hok Hnd Hts.
  - exists s. split; [done|]. split; [done|]. split; [by destruct (view s)|set_solver|done].
  - cbn [map] in Hnd. apply NoDup_cons in Hnd as [Hnew Hnd]. cbn [for_each].
    destruct (Hts t) as [Ht Htenant]; [by left|]. destruct (uses_profile profile_id t) eqn:Hu.
    2: { unfold detach_profile at 1. rewrite Hu. cbn [when]. erewrite bind_Ret by reflexivity.
         destruct (IH s Hok Hnd) as (s' & E & Hc & [Ho Hd Hk]); [intros; apply Hts; by right|].
         exists s'. split; [exact E|]. split; [exact Hc|]. split; [exact Ho| |].
         - intros u [->|Hin]%elem_of_cons Huse; [congruence|eauto].
         - intros k Hne. apply Hk. intros u Hin. apply Hne. by right. }
    destruct (detach_target profile_id tenant_id t s Hok Ht Htenant Hu) as (now & s1 & E1 & Hc1 & Hv1).
    erewrite bind_Ret by exact E1. destruct (IH s1) as (s' & E & Hc & [Ho Hd Hk]).
    + rewrite Hv1. by apply detached_ok.
    + exact Hnd.
    + intros u Hin. rewrite Hv1. cbn. rewrite lookup_insert_ne; [apply Hts; by right|].
      intros Heq. apply Hnew. rewrite Heq. apply list_elem_of_fmap. eauto.
    + exists s'. split; [exact E|]. split; [by rewrite Hc, Hc1|]. rewrite Hv1 in Ho, Hk. cbn in Hk. split.
      * rewrite Ho. reflexivity.
      * intros u [->|Hin]%elem_of_cons Huse; [|eauto]. exists now.
        rewrite Hk; [by rewrite lookup_insert_eq|]. intros v Hv _ Heq. apply Hnew.
        rewrite <-Heq. apply list_elem_of_fmap. eauto.
      * intros k Hne. rewrite Hk; [|intros u Hin; apply Hne; by right].
        rewrite lookup_insert_ne; [done|]. apply Hne; [by left|done].
Qed.

(** The targets of a tenant, as the listing reads them. *)
Lemma listed_targets tenant_id d : targets_ok d →
  let ts := merge_sort created_later (List.filter (λ t, Target.tenant_id t ≟ tenant_id) (rows (targets d))) in
  NoDup (map Target.id ts) ∧
  ∀ t, t ∈ ts ↔ targets d !! Target.id t = Some t ∧ Target.tenant_id t = tenant_id.
Proof.
  intros Hok ts.
  assert (ts ≡ₚ List.filter (λ t, Target.tenant_id t ≟ tenant_id) (rows (targets d))) as Hp by apply merge_sort_Permutation.
  split.
  - rewrite Hp. apply (sublist_NoDup _ (map Target.id (rows (targets d)))).
    2: { apply fmap_sublist. generalize (rows (targets d)). intros l. induction l as [|t l IH]; [done|].
         cbn. destruct (_ ≟ _); [by constructor|by apply sublist_cons]. }
    unfold rows. rewrite map_map.
    replace (map _ (map_to_list (targets d))) with (map fst (map_to_list (targets d))); [apply NoDup_fst_map_to_list|].
    apply list_fmap_ext. intros i [k t] Hi. symmetry. eapply (ok_keys _ Hok).
    apply elem_of_map_to_list. by eapply list_elem_of_lookup_2.
  - intros t. rewrite Hp, list_elem_of_In, filter_In, <-list_elem_of_In, elem_of_rows, eqb_true.
    split; [|naive_solver]. intros [[k Hk] Ht]. by rewrite (ok_keys _ Hok _ _ Hk).
Qed.

(** The rest of a deletion, after the targets. *)
Lemma delete_row profile_id tenant_id s :
  (deleted <- TargetRepository.delete_profile tenant_id profile_id ;;
   if negb deleted then not_found else commit) s =
  match p ← profiles (view s) !! profile_id; if Profile.tenant_id p ≟ tenant_id then Some p else None with
  | None => (Raise (http_error 404 "Credential profile was not found."), s)
  | Some _ =>
      let d := set_profiles (delete profile_id (profiles (view s))) (view s) in
      (Ret tt, set_locked ∅ (set_committed d (set_view d s)))
  end.
Proof.
  unfold TargetRepository.delete_profile, TargetRepository.get_profile, query, gets, bind. cbn.
  destruct (profiles (view s) !! profile_id) as [p|]; cbn; [|done].
  by destruct (Profile.tenant_id p ≟ tenant_id).
Qed.

(** C35. Deleting a credential profile: when the tenant has none of that identity the answer is
    404 and nothing is committed, and no target of another tenant is ever touched; otherwise
    it is gone, every target of the tenant that used it has neither profile nor reference any
    more, and nothing else of the tables has changed. *)
Theorem profile_deletion_complete profile_id tenant_id s : targets_ok (committed s) →
  ∃ r s', with_session (delete_profile profile_id tenant_id) s = (r, s') ∧ view s' = committed s' ∧
  match profiles (committed s) !! profile_id with
  | Some p =>
      if Profile.tenant_id p ≟ tenant_id then
        r = Ret tt ∧
        committed s' = set_profiles (delete profile_id (profiles (committed s)))
                         (set_targets (targets (committed s')) (committed s)) ∧
        ∀ k, match targets (committed s) !! k with
             | None => targets (committed s') !! k = None
             | Some t =>
                 if (Target.tenant_id t ≟ tenant_id) && uses_profile profile_id t
                 then ∃ now, targets (committed s') !! k = Some (detached now t)
                 else targets (committed s') !! k = Some t
             end
      else r = Raise (http_error 404 "Credential profile was not found.") ∧ committed s' = committed s
  | None => r = Raise (http_error 404 "Credential profile was not found.") ∧ committed s' = committed s
  end.
Proof.
  intros Hok. set (s0 := set_locked ∅ (set_view (committed s) s)).
  destruct (listed_targets tenant_id (committed s) Hok) as [Hnd Hts].
  set (ts := merge_sort _ _) in *.
  destruct (detach_each profile_id tenant_id ts s0 Hok Hnd) as (s1 & E & Hc & [Ho Hd Hk]).
  { intros t Ht. by apply Hts. }
  change (view s0) with (committed s) in *. change (committed s0) with (committed s) in *.
  assert (profiles (view s1) = profiles (committed s)) as Hp by (by rewrite Ho).
  assert (delete_profile profile_id tenant_id s0 =
    (deleted <- TargetRepository.delete_profile tenant_id profile_id ;;
     if negb deleted then not_found else commit) s1) as Hrun.
  { unfold delete_profile. erewrite bind_Ret by reflexivity. by erewrite bind_Ret by exact E. }
  rewrite delete_row, Hp in Hrun.
  assert (∀ k, match targets (committed s) !! k with
     | None => targets (view s1) !! k = None
     | Some t => if (Target.tenant_id t ≟ tenant_id) && uses_profile profile_id t
                 then ∃ now, targets (view s1) !! k = Some (detached now t)
                 else targets (view s1) !! k = Some t
     end) as Htargets.
  { intros k. destruct (targets (committed s) !! k) as [t|] eqn:Et.
    2: { rewrite Hk; [done|]. intros t [Ht _]%Hts _ Heq. by rewrite Heq, Et in Ht. }
    pose proof (ok_keys _ Hok _ _ Et) as Hid. subst k. destruct (_ && _) eqn:Eu.
    - rewrite andb_true_iff, eqb_true in Eu. destruct Eu as [Hten Hu]. apply Hd; [|done]. by apply Hts.
    - rewrite Hk; [done|]. intros u [Hu Hten]%Hts Huse Heq. rewrite Heq, Et in Hu. injection Hu as <-.
      by rewrite Hten, Prelude.eqb_refl, Huse in Eu. }
  destruct (profiles (committed s) !! profile_id) as [p|]; cbn [mbind option_bind] in Hrun |- *.
  2: { apply with_session_result in Hrun. eexists _, _. split; [exact Hrun|]. by rewrite <-Hc. }
  destruct (Profile.tenant_id p ≟ tenant_id); apply with_session_result in Hrun;
    (eexists _, _; split; [exact Hrun|]); [|by rewrite <-Hc].
  split; [done|]. split; [done|]. split; [|exact Htargets]. cbn. by rewrite Ho.
Qed.

(** ** What a test tells *)

(** Types of credentials that need no user name. *)
Definition has_username (p : Profile.CredentialProfileRecord) : bool :=
  mem (or_str (Profile.credential_type p) "") ["ssh_key"; "snmp_v2c"; "http_token"]
  || from_option str_truthy false (Profile.username p).

(** The transports a test accepts that reduce to a kind of credentials, and the kinds. *)
Definition tested_kinds : list (string * string) :=
  [("ssh", "ssh"); ("telnet", "telnet"); ("snmp", "snmp"); ("http", "http"); ("https", "http")].

(** A compatible profile has credentials of the kind of the transport for every secret. *)
Lemma compatible_credentials p transport kind secret :
  get transport tested_kinds = Some kind →
  (validate_profile_for_transport p transport).1 = "success" → has_username p = true →
  get (str_lower (str_strip transport)) TRANSPORT_KINDS = Some kind ∧
  ∃ c, credentials_for kind p secret = Some c.
Proof.
  intros Ht Hv Hu. unfold validate_profile_for_transport in Hv.
  assert (∃ expected, get transport valid_transport_to_types = Some expected ∧
    get (str_lower (str_strip transport)) TRANSPORT_KINDS = Some kind ∧
    (kind, expected) ∈ [("ssh", ["ssh_password"; "ssh_key"]); ("telnet", ["telnet_password"]);
      ("snmp", ["snmp_v2c"; "snmp_v3"]); ("http", ["http_basic"; "http_token"])]) as (expected & He & Hkind & Hk).
  { unfold tested_kinds in Ht. cbn [get] in Ht.
    repeat (destruct (_ ≟ transport) eqn:E in Ht;
      [rewrite eqb_true in E; subst; injection Ht as <-; eexists; split_and!; [reflexivity..|set_solver]|clear E]).
    done. }
  rewrite He in Hv. cbv zeta in Hv. set (type := or_str (Profile.credential_type p) "") in *.
  destruct (mem type expected) eqn:Etype; [|discriminate Hv]. split; [exact Hkind|].
  assert (or_str (Profile.credential_type p) "" = from_option (λ t, t) "" (Profile.credential_type p)) as Hor.
  { destruct (Profile.credential_type p) as [[|c t]|]; done. }
  unfold credentials_for. rewrite <-Hor. fold type.
  assert (∀ f : string → TransportCredentials, mem type ["ssh_key"; "snmp_v2c"; "http_token"] = false →
    ∃ c, match Profile.username p with Some u => if str_truthy u then Some (f u) else None | None => None end = Some c) as Hname.
  { intros f Hno. unfold has_username in Hu. fold type in Hu. rewrite Hno in Hu. cbn [orb] in Hu.
    destruct (Profile.username p) as [u|]; [|done]. cbn in Hu. rewrite Hu. eauto. }
  apply mem_true in Etype. clearbody type.
  repeat (apply elem_of_cons in Hk as [[= -> ->]|Hk]; [|]); [..|by apply elem_of_nil in Hk];
    repeat (apply elem_of_cons in Etype as [->|Etype]; [|]); try (by apply elem_of_nil in Etype);
    first [by eexists|by apply Hname].
Qed.

(** A compatible profile lists the transport, which is one of the six. *)
Lemma compatible_transport p transport :
  (validate_profile_for_transport p transport).1 = "success" →
  listed (str_lower (str_strip transport)) p = true ∧
  (is_Some (get transport tested_kinds) ∨ transport = "icmp").
Proof.
  unfold validate_profile_for_transport.
  destruct (get transport valid_transport_to_types) as [expected|] eqn:Et; [|done].
  cbv zeta. destruct (mem _ expected); [|done]. cbn [negb].
  destruct (mem transport _) eqn:El; [|done]. intros _. split.
  { unfold listed. apply mem_true. apply list_elem_of_fmap. exists transport. split; [done|by apply mem_true]. }
  unfold valid_transport_to_types in Et. cbn [get] in Et.
  repeat (destruct (_ ≟ transport) eqn:E in Et;
    [rewrite eqb_true in E; subst; first [by left; eexists|by right]|clear E]).
  done.
Qed.

(** Two stores of secrets that fail alike. *)
Definition fail_alike (resolve resolve' : string → outcome string) : Prop :=
  ∀ reference, match resolve reference, resolve' reference with
               | Ret _, Ret _ => True
               | Raise e, Raise e' => e = e'
               | _, _ => False
               end.

(** C37. A test changes nothing, and its answer never depends on a secret: over secrets that
    fail alike it is the same.  It says why the profile is not compatible with the transport,
    or how the provider of secrets fails.  For a profile that is enabled and has the user
    name its type needs, success means that the reference of a target to it resolves, over the
    same secrets, to credentials of the type of the profile, if the transport is ssh, telnet,
    snmp or http, or it is https and the profile lists http too.  A profile that lists https
    alone and one for icmp pass the test and are refused when they are used. *)
Theorem tested_profile_usable {W} (self : ProfileSecretCredentialProvider W) (resolve : string → outcome string)
    profile_id payload tenant_id s p w w1 w2 :
  (profile_id < 2 ^ 128)%N →
  profiles (view s) !! profile_id = Some p → Profile.tenant_id p = tenant_id →
  profile_loader self tenant_id profile_id w = (Ret (Some p), w1) →
  resolve_secret self (Profile.provider_reference p) w1 = (resolve (Profile.provider_reference p), w2) →
  let transport := ProfileTest.transport payload in
  let '(answer, s') := test_profile resolve profile_id payload tenant_id s in
  s' = s ∧
  (∀ resolve', fail_alike resolve resolve' →
     test_profile resolve' profile_id payload tenant_id s = (answer, s')) ∧
  let compatibility := validate_profile_for_transport p transport in
  if negb (compatibility.1 ≟ "success")
  then answer = Ret (test_response p payload compatibility.1 compatibility.2)
  else match resolve (Profile.provider_reference p) with
  | Raise e =>
      answer = if isinstance e SecretProviderError
               then Ret (test_response p payload (secret_error_code e) (exn_str e)) else Raise e
  | Ret secret =>
      answer = Ret (test_response p payload "success"
                 "Credential profile resolved successfully for the selected transport.") ∧
      (Profile.enabled p = true → has_username p = true →
       let target := resolve_reference self {| credential_id := uuid_str profile_id;
         credential_transport := transport; credential_tenant_id := tenant_id |} w in
       match get transport tested_kinds with
       | Some kind =>
           if (kind ≟ transport) || listed kind p
           then ∃ credentials, credentials_for kind p secret = Some credentials ∧ target = (Ret credentials, w2)
           else target = unresolved "Credential profile does not support the selected transport." w1
       | None => target = unresolved "Credential profile does not support the selected transport." w1
       end)
  end.
Proof.
  intros Hid Hp Hten Hload Hsec. cbv zeta. set (transport := ProfileTest.transport payload).
  assert (TargetRepository.get_profile tenant_id profile_id s = (Ret (Some p), s)) as Eg.
  { unfold TargetRepository.get_profile, query, gets. rewrite Hp. cbn. by rewrite Hten, Prelude.eqb_refl. }
  unfold test_profile. rewrite (bind_Ret _ _ _ _ _ Eg). fold transport. cbv zeta.
  destruct (_ ≟ "success") eqn:Ec; cbn [negb].
  2: { split; [done|]. split; [|done]. intros resolve' _. by rewrite (bind_Ret _ _ _ _ _ Eg), Ec. }
  destruct (resolve (Profile.provider_reference p)) as [secret|e] eqn:Er.
  2: { assert (∀ resolve', fail_alike resolve resolve' → resolve' (Profile.provider_reference p) = Raise e) as Ha.
       { intros resolve' H. specialize (H (Profile.provider_reference p)). rewrite Er in H.
         destruct (resolve' _); [done|by subst]. }
       destruct (isinstance e SecretProviderError) eqn:Ee; (split; [done|]; split; [|done]);
         intros resolve' H; rewrite (bind_Ret _ _ _ _ _ Eg), Ec, (Ha _ H), Ee; done. }
  split; [done|]. split; [|split; [done|]].
  { intros resolve' H. specialize (H (Profile.provider_reference p)). rewrite Er in H.
    rewrite (bind_Ret _ _ _ _ _ Eg), Ec. by destruct (resolve' _). }
  intros Hen Hu. rewrite eqb_true in Ec. destruct (compatible_transport _ _ Ec) as [Hlisted Hcases].
  unfold resolve_reference, profile_id_of, transport_kind. cbn [credential_id credential_transport credential_tenant_id].
  rewrite parse_uuid_str by exact Hid. erewrite bind_Ret by reflexivity. erewrite bind_Ret by exact Hload.
  cbv beta iota. rewrite Hen. cbn [negb].
  destruct (get transport tested_kinds) as [kind|] eqn:Ek.
  2: { destruct Hcases as [[? ?]|Hic]; [done|]. unfold transport in Hic |- *. by rewrite Hic. }
  destruct (compatible_credentials p transport kind secret Ek Ec Hu) as (Hkind & c & Hc).
  rewrite Hkind. erewrite bind_Ret by reflexivity.
  assert ((kind ≟ transport) || listed kind p = listed kind p) as ->.
  { destruct (kind ≟ transport) eqn:E; [|done]. rewrite eqb_true in E. rewrite E in Ek |- *.
    assert (str_lower (str_strip transport) = transport) as Hl; [|by rewrite Hl in Hlisted].
    unfold tested_kinds in Ek. cbn [get] in Ek.
    repeat (destruct (_ ≟ transport) eqn:E' in Ek; [rewrite eqb_true in E'; by rewrite <-E'|clear E']). done. }
  assert (∃ types, Profile.transport_types p = Some types) as [types Htypes].
  { unfold listed in Hlisted. destruct (Profile.transport_types p) as [types|]; [by exists types|done]. }
  rewrite Htypes. unfold listed. rewrite Htypes. cbn [from_option]. unfold id.
  destruct (mem kind _); cbn [negb]; [|done].
  destruct (kind_credentials_spec self kind p w1) as [(_ & _ & Hno)|Hyes]; [by rewrite Hno in Hc|].
  rewrite Hsec in Hyes. destruct Hyes as (c' & E & Hc'). exists c. split; [done|]. rewrite E. congruence.
Qed.

(** ** On concrete tables *)

Module CredentialExamples.
(** A profile for SSH and the target that uses it. *)
Definition a_profile : Profile.CredentialProfileRecord := {|
  Profile.id := 30%N; Profile.tenant_id := "acme"; Profile.name := "lab";
  Profile.description := Some "the lab"; Profile.vendor := None; Profile.platform := None;
  Profile.credential_type := Some "ssh_password"; Profile.username := Some "admin";
  Profile.transport_types := Some ["ssh"]; Profile.provider_reference := "lab";
  Profile.secret_status := "configured"; Profile.enabled := true; Profile.created_at := 0;
  Profile.updated_at := 0 |}.
Definition user_target : Target.DiscoveryTargetRecord :=
  Target.set_credential_profile_id (Some (uuid_str 30)) scope_target.
Definition db : DB := set_targets {[11%N := user_target]} (set_profiles {[30%N := a_profile]} empty_db).
Definition ssh_test : CredentialProfileTestRequest := {|
  ProfileTest.transport := "ssh"; ProfileTest.target := "10.0.0.1" |}.
Definition secrets (reference : string) : outcome string :=
  if reference ≟ "lab" then Ret "pw" else raise_ SecretNotFoundError "Requested secret was not found.".
Definition provider : ProfileSecretCredentialProvider unit := {|
  profile_loader tenant id := ret (if (tenant ≟ "acme") && (id ≟ 30%N) then Some a_profile else None);
  resolve_secret reference := of_outcome (secrets reference) |}.

Lemma db_ok : targets_ok db.
Proof.
  assert (∀ k t, targets db !! k = Some t → 11%N = k ∧ user_target = t) as Hdb.
  { intros k t Ht. unfold db in Ht. cbn in Ht. by apply lookup_singleton_Some in Ht. }
  split.
  - intros k t Ht. by apply Hdb in Ht as [<- <-].
  - intros k k' t t' Ht Ht' _. apply Hdb in Ht as [<- _]. by apply Hdb in Ht' as [<- _].
Qed.

Lemma profile_deletion_complete_witness :
  ∃ r s', with_session (delete_profile 30 "acme") (open_session db []) = (r, s') ∧ r = Ret tt ∧
    ∃ now, targets (committed s') !! 11%N = Some (detached now user_target).
Proof.
  destruct (profile_deletion_complete 30 "acme" (open_session db [])) as (r & s' & E & _ & H); [exact db_ok|].
  exists r, s'. split; [exact E|]. destruct H as (Hr & _ & Ht). split; [exact Hr|]. exact (Ht 11%N).
Defined.

Lemma tested_profile_usable_witness :
  ∃ credentials, resolve_reference provider {| credential_id := uuid_str 30; credential_transport := "ssh";
    credential_tenant_id := "acme" |} tt = (Ret credentials, tt).
Proof.
  pose proof (tested_profile_usable provider secrets 30 ssh_test "acme" (open_session db []) a_profile tt tt tt
    eq_refl eq_refl eq_refl eq_refl eq_refl) as H. cbv zeta in H.
  destruct (test_profile _ _ _ _ _) as [answer s']. destruct H as (_ & _ & H).
  change (∃ credentials, resolve_reference provider {| credential_id := uuid_str 30;
    credential_transport := ProfileTest.transport ssh_test; credential_tenant_id := "acme" |} tt = (Ret credentials, tt)).
  destruct H as (_ & H). destruct (H eq_refl eq_refl) as (c & _ & E). exists c. exact E.
Defined.

(** A profile that lists https alone passes its test and does not resolve. *)
Example https_profile_passes :
  let p := {| Profile.id := 30%N; Profile.tenant_id := "acme"; Profile.name := "web";
    Profile.description := None; Profile.vendor := None; Profile.platform := None;
    Profile.credential_type := Some "http_token"; Profile.username := None;
    Profile.transport_types := Some ["https"]; Profile.provider_reference := "lab";
    Profile.secret_status := "configured"; Profile.enabled := true; Profile.created_at := 0;
    Profile.updated_at := 0 |} in
  let db := set_profiles {[30%N := p]} empty_db in
  let test := {| ProfileTest.transport := "https"; ProfileTest.target := "10.0.0.1" |} in
  let web : ProfileSecretCredentialProvider unit := {|
    profile_loader _ _ := ret (Some p); resolve_secret reference := of_outcome (secrets reference) |} in
  (TestResponse.status <$> match (test_profile secrets 30 test "acme" (open_session db [])).1 with
                           | Ret r => Some r | Raise _ => None end) = Some "success" ∧
  is_ret (resolve_reference web {| credential_id := uuid_str 30; credential_transport := "https";
    credential_tenant_id := "acme" |} tt).1 = false.
Proof. vm_compute. done. Qed.

Definition update_of (name : option string) (types : option (list string)) : CredentialProfileUpdateRequest := {|
  ProfileUpdate.name := name; ProfileUpdate.description := None; ProfileUpdate.vendor := None;
  ProfileUpdate.platform := None; ProfileUpdate.credential_type := None; ProfileUpdate.username := None;
  ProfileUpdate.transport_types := types; ProfileUpdate.provider_reference := Some "lab";
  ProfileUpdate.enabled := Some true |}.
Definition update (u : CredentialProfileUpdateRequest) : outcome ProfileResponse.CredentialProfileResponse * Session :=
  with_session (update_profile 30 u "acme") (open_session db []).

(** A request that leaves the name out is not a partial update: the name becomes null, which
    the database refuses; what it may leave out, as the user name, is erased. *)
Example partial_update_refused :
  (update (update_of None (Some ["ssh"]))).1 = raise_ IntegrityError "NOT NULL constraint failed".
Proof. vm_compute. reflexivity. Qed.

Example update_erases_username :
  Profile.username <$> profiles (committed (update (update_of (Some "lab") (Some ["ssh"]))).2) !! 30%N = Some None.
Proof. vm_compute. reflexivity. Qed.

(** Without transports the JSON null is committed, and every later listing of the tenant
    fails. *)
Example null_transports_break_listing :
  let '(r, s') := update (update_of (Some "lab") None) in
  (is_ret r, (list_profiles "acme" s').1) = (false, raise_ TypeError "'NoneType' object is not iterable").
Proof. vm_compute. reflexivity. Qed.

(** A test passes for a disabled profile, which no job can use. *)
Example disabled_profile_passes :
  let db := set_profiles {[30%N := Profile.set_enabled false a_profile]} empty_db in
  (TestResponse.status <$> match (test_profile secrets 30 ssh_test "acme" (open_session db [])).1 with
                           | Ret r => Some r | Raise _ => None end) = Some "success".
Proof. vm_compute. reflexivity. Qed.
End CredentialExamples.
